(* ===== verification/_CoqProject ===== *)
-Q . S2P
Prelude.v
GoLib.v
GoTime.v
GoText.v
Sha256.v
FilterIR.v
FilterParser.v
FilterRender.v
FilterRenderFacts.v
FilterRenderText.v
FilterRenderBool.v
FilterLike.v
FilterParserFacts.v
FilterMeaning.v
Store.v
SpaceStore.v
SpaceStoreFacts.v
SpaceSafety.v
Statements.v
PostgresSpace.v
PostgresOrphans.v
PostgresRace.v
PostgresAgrees.v
Deletion.v
MemoStore.v
MemoStoreFacts.v
ResourceName.v
MemoAccess.v
MemoAccessFacts.v
FilterAccess.v
AttachmentStore.v
MemoMutation.v
ParticipationFacts.v
MutationFacts.v
History.v
MemoSafety.v
ReferenceSafety.v
UserSettings.v
PlainCodec.v
UserSettingsFacts.v
SettingsSafety.v
UserAgent.v
Auth.v
PlainJWT.v
AuthService.v
AuthFacts.v
SettingsRace.v
SessionFacts.v
Scheduler.v
SchedulerFacts.v
TagTables.v
TagScan.v
TagFacts.v
TagSafety.v
MentionFacts.v
Paging.v
MemoQuery.v
MemoConvert.v
MemoReads.v
MemoPrepare.v
MemoService.v
MemoHandlers.v
PlainMemo.v
MemoQueryFacts.v
MemoReadsFacts.v
MemoReadsSafety.v
HandlerFacts.v
UpdateFacts.v
WriteSafety.v
GoNet.v
Webhook.v
WebhookFacts.v
SpaceService.v
SpacePrivacy.v
SpaceRefinement.v
UserService.v
UserSafety.v
MemoPages.v
SSEHub.v
Cache.v
