(* ===== verification/Prelude.v ===== *)
(** * Verification of the Memos server (app/memos)

    Memos is a self-hosted note service: users write memos, place them in shared
    spaces, give each an audience (PRIVATE, PROTECTED, PUBLIC or the members of
    its SPACE), share single memos by links and query them with filters in the
    CEL expression language.  This library models the parts of the Go server
    that decide who may read or change what, and the compiler from filters to
    SQL, and proves them correct.

    ** Parts of the program and files of the library

    Paths are relative to [src/app/memos/].

    - [Prelude], [GoLib], [GoTime], [GoText], [Sha256]: results and errors, a
      state-and-error monad; Go's fixed-width integers, floats, the [strings],
      [strconv], [time], [net/http] (cookies) and [crypto/sha256] functions the
      code uses.
    - [FilterIR]: [internal/filter/ir.go] and [schema.go], the condition tree and
      the memo and attachment schemas.
    - [FilterParser]: [internal/filter/parser.go], from the type-checked CEL tree
      to the condition tree.  cel-go, which makes that tree, is the parameter
      [cel_compile].
    - [FilterRender]: [internal/filter/render.go], [engine.go] and [helpers.go],
      from the condition tree to SQL text and arguments for SQLite, MySQL and
      PostgreSQL.
    - [Store]: the rows of [store/*.go] and the database as a record of finite
      maps.
    - [SpaceStore]: [store/space.go] with the SQLite transactions of
      [store/db/sqlite/space.go], [space_delete.go], [user.go], [user_delete.go].
    - [Statements]: transactions as trees of SQL statements with row locks, alone
      and interleaved at READ COMMITTED, with a rely-guarantee logic for
      invariants; [PostgresSpace]: [space.go], [space_delete.go], [user_delete.go]
      and the writing methods of [user.go] of [store/db/postgres] in that form.
    - [MemoStore]: [store/memo.go], [memo_share.go], [memo_delete_policy.go] with
      the SQLite files of the same names, [memo_policy.go] and [applyMemoUpdate].
    - [ResourceName]: [server/router/api/v1/resource_name.go].
    - [MemoAccess]: [server/access], [server/router/api/v1/memo_access.go],
      [store/db/sqlite/memo_access.go], shared memos, and the permission check of
      [server/router/fileserver/fileserver.go].
    - [FilterAccess]: [server/router/api/v1/filter_access.go].
    - [AttachmentStore]: [store/attachment.go] and [attachment_delete.go] with the
      SQLite files of the same names, as far as they concern rows.
    - [MemoMutation]: [store/memo_attachment.go], [memo_comment.go],
      [memo_relation.go], [reaction.go] and [reaction_policy.go] with their SQLite
      files: memos written together with their attachments, references and
      comment link, and reactions.
    - [History]: sequences of requests on memos and what hangs on them.
    - [UserSettings]: [store/user_setting.go] with its SQLite file and the cached
      methods of [store/user.go]: refresh tokens, personal access tokens, webhooks
      and views as lists inside one setting each; [SettingsRace] cuts the methods
      on personal access tokens into the steps other goroutines can come between.
    - [Auth]: [server/auth], signed tokens and the resolution of credentials.
    - [UserAgent], [AuthService]: what handlers make of request headers, the table
      of public methods and the check of every request, sign-in, sign-out,
      refresh and personal access tokens ([server/router/api/v1]).
    - [PlainCodec], [PlainJWT]: executable instances of the parameters
      [ProtoJSON] and [JWT].
    - [Scheduler]: [internal/scheduler], cron expressions, the next run of a job,
      registration, start and stop.
    - [TagTables], [TagScan]: [internal/markdown/parser/tag.go], [mention.go] and
      [tag_unicode_tables.go] with [internal/base/username.go], the scanners that
      find tags and mentions in the bytes of a text ([TagFacts] holds
      the facts on the tables and on single characters they rest on).
    - [Paging]: [server/router/api/v1/common.go], page sizes, page tokens and the
      base64 they are written in, and the [order_by] of memo lists.
    - [MemoQuery]: [ListMemos], [ListReactions], [ListAttachments] and
      [ListMemoRelations] of [store] and [store/db/sqlite] with all their
      conditions and orders, and the batch helpers of the API.
    - [MemoConvert]: [memo_service_converter.go], from rows to the messages of the
      API, with what a reader may be shown of parents, spaces and relations.
    - [MemoReads]: the handlers that read memos, comments, relations, attachments,
      reactions, shares and shared memos.
    - [MemoPrepare]: [memo_create_helpers.go], the checks of attachments and
      relations of a request, and [server/runner/memopayload].
    - [MemoService]: the monad of the handlers that write, the events they send
      (webhooks, inbox entries, removed files) and their helpers
      ([memo_update_helpers.go], [memo_mention_helpers.go],
      [memo_service_webhooks.go]).
    - [MemoHandlers]: creating, commenting, updating, deleting and sharing memos,
      setting their attachments and relations, and reactions.
    - [PlainMemo]: executable instances of the parameters of the memo API.
    - [GoNet], [Webhook]: IP addresses and prefixes of [net/netip], and
      [internal/webhook]: which destinations may be reached, the check at the time
      of the connection, secrets, signatures and the queue.
    - [SpaceService]: [space_service.go] and [space_service_converters.go] of
      [server/router/api/v1], the handlers of spaces, invitations and members.
    - [UserService]: [user_service.go] with its converters, filter, settings and
      webhooks, and the listing of users in [store/user.go] and its SQLite file:
      the handlers of accounts, of user settings and of webhooks.
    - [SSEHub]: [server/router/api/v1/sse_hub.go], the hub of server-sent events,
      as a step relation between goroutines.
    - [Cache]: [store/cache/cache.go], the in-memory cache.

    A request goes from the API layer ([MemoReads], [MemoHandlers] with
    [ResourceName], [MemoAccess], [FilterAccess]) to a store method, which checks its arguments, and on to one
    transaction of the driver; a list request renders its filters with
    [FilterRender] and adds the read predicate of [MemoAccess].  Before that, the
    interceptor of [AuthService] has resolved the credentials of the request with
    [Auth], which reads tokens and accounts through the caches of [UserSettings].

    ** How state and effects are modelled

    A table is a [gmap] from its primary key; a driver method that opens a
    transaction is a function [Tx A := DB -> result error (A * DB)], and [run]
    commits or rolls back.  Transactions are atomic steps: a history of requests
    is a list of steps in any order ([serve_all] in [SpaceSafety],
    [memo_serve_all] in [History]).  That is how SQLite runs them; on PostgreSQL
    transactions overlap, so there a transaction is a [Prog] whose statements
    [interleave] schedules one by one.  A SQL
    statement is modelled by its effect on the tables, with the constraints of
    the schema that the code relies on (unique keys, CHECK clauses, AUTOINCREMENT
    counters).  Failures of the database connection itself are modelled only for
    the writes of user settings (the argument [up]).  The methods in front of the
    caches of users and settings run in the monad [ST] over the database and both
    caches, whose changes stay when a method fails; entries may vanish from the
    caches between requests ([evict]).
    A handler that writes memos runs in the monad [Handler] over the database and
    the log of what it has sent out; both keep their changes when it fails later.
    The renderer threads its argument list and placeholder counter through the
    same kind of monad.  Integers are [Z] with Go's wrap-around written out where
    it can be reached (constant folding); identifiers drawn at random, the clock
    and the time zone are arguments.

    ** What is proved

    - Filters ([FilterRenderFacts], [FilterRenderText], [FilterRenderBool],
      [FilterLike], [FilterParserFacts], [FilterMeaning]): built conditions are
      well formed and building never panics; no string or number literal of a
      filter reaches the SQL text; placeholders and arguments stay in step where
      nothing is folded; the text, read with its arguments as the database binds
      them, keeps the three-valued meaning of the filter; LIKE patterns, constant
      folding, comparisons and set operations mean what CEL means.  Two theorems
      show where the code departs from that: arguments left behind by a folded
      operand, and integer literals compared as floats.
    - Spaces ([SpaceStoreFacts], [SpaceSafety]): over all histories every space
      keeps an active administrator; memberships change only by request of those
      entitled; nobody becomes a member without asking; the protection of the
      last administrator is exact.
    - The space API ([SpacePrivacy], [SpaceRefinement]): to users outside a space
      every answer is the one they would get if it did not exist, but for the
      refusal to create another space of its name; each request is
      at most one operation of the store, the one it names.
    - PostgreSQL ([PostgresOrphans], [PostgresAgrees], [PostgresRace]): no
      interleaving of transactions leaves a membership without its space or user;
      transactions that do not overlap end as on SQLite, but for three kinds of
      requests that are listed with their outcomes; and the last two
      administrators of a space can leave it together, since the count that
      protects the last one takes no lock.
    - The user API ([UserSafety]): accounts are made, changed and deleted only by
      those entitled, no history without an administrator makes one, and answers
      tell nothing of password hashes and of the e-mail addresses of others.
    - Deletion ([Deletion]): what deleting a space or an account removes, and
      that nothing dangles afterwards.
    - Memos ([MemoStoreFacts], [MemoSafety]): updates are authorized and change
      only the named fields; over all histories a SPACE memo never has an active
      share link.
    - Mutations ([MutationFacts]): a mutation does all that was asked for under
      the checks on its actor, and nothing else.
    - What hangs on memos ([ReferenceSafety]): over all histories shares,
      reactions, references, comments and attachments hang on memos that exist,
      and no attachment is taken over.
    - Participation ([ParticipationFacts]): referring, commenting, reacting and
      listing attachments follow from reading.
    - Reading ([MemoAccessFacts]): the read decision is the declared policy; the
      SQL predicate of lists agrees with it memo by memo; what a share token
      opens; when an attachment is publicly cacheable.
    - Filters over spaces ([FilterAccess]): an accepted filter cannot probe a
      space its user is not in.
    - Names ([ResourceName]): parsing and building resource names are inverse.
    - Settings ([UserSettingsFacts], [SettingsSafety], [SettingsRace]): over all
      sequential histories and evictions without a failed update of a webhook,
      reads through the caches answer what the database holds and each request
      changes exactly its list; overlapping changes of
      personal access tokens are serialized by their lock; but a read that overlaps
      a removal can bring a revoked token back.
    - Authentication ([AuthFacts], [SessionFacts]): which requests run as whom,
      and which are refused; sign-in, the rotation of refresh tokens (and what a
      removal that fails leaves), sign-out and the life of a personal access token; the cookie is read back as it was set.
    - Schedules ([SchedulerFacts]): printing and parsing are inverse, the next run
      is the first matching minute or second, and how the scheduler departs from
      cron.
    - Tags and mentions ([TagSafety], [MentionFacts]): every tag found reads back
      as a valid tag with the same value; the scanner finds the same tags word by
      word; tags lie inside the text, in order and apart; mentions are exactly the
      user names of the declared grammar after an [@] that no word touches.
    - Reading through the API ([MemoQueryFacts], [MemoReadsFacts],
      [MemoReadsSafety], [MemoPages]): no answer holds a memo, parent, space or
      relation its reader may not see; following the page tokens of a list gives
      every memo of the list once and in order, and ends.
    - Writing through the API ([HandlerFacts], [UpdateFacts], [WriteSafety]):
      [HandlerFacts] has triples for handlers, with a condition for failing too;
      an update changes what its mask names and nothing else; no write, failed or
      not, tells anyone of a memo who may not read it.
    - Webhooks ([WebhookFacts]): unless all private addresses are allowed, a
      webhook connects to no loopback, private or link-local address that the
      allowlist does not name, whatever the resolver answers; secrets read back as they were made.
    - Events ([SSEHub]): no interleaving panics, and no client misses an event
      unnoticed.
    - Cache ([Cache]): over sequential histories reads return the last value
      written and eviction takes the oldest; concurrent reads can spoil the
      counter.

    ** Parameters and bounds

    [GoPlatform] is the result of converting an out-of-range float to [int64],
    which Go leaves to the implementation.  [LikeEngine] states the documented
    behaviour of LIKE, with an executable instance; [ProtoJSON] that of protojson
    on settings, [JWT] that of golang-jwt ([PlainCodec] and [PlainJWT] are
    instances); [Text.GoUnicode] is [strings.ToLower]; [Goldmark] stands for three character
    and entity tables of goldmark; [PayloadJSON] for protojson on the payloads of
    memos and attachments, [ProtoPageToken] for the protobuf encoding of page
    tokens, [Markdown] for the markdown service (tags, properties, snippets and
    managed attachments of a content), [FilterBackend] for the truth of a rendered
    filter on a row, and [Instance] for the limit on contents and the file storage
    ([PlainMemo] has instances).  bcrypt, random identifiers
    and the instance's settings are arguments.  All looks at the clock of one
    request answer the same time.  Fuel occurs in three
    places: the blocks of a hash (one per word is enough), the batches of a deletion (one per element is enough, shown by the deletion
    theorems), and the search for the next run (every candidate of the four years
    the code searches, so the fuel is exact).

    ** Not modelled

    The MySQL driver and the PostgreSQL methods on memos, attachments and settings
    (the same transactions in other dialects), the handlers of notifications,
    statistics, instance settings and identity providers, single sign-on, the markdown tree around tags
    and mentions (goldmark builds it), the delivery of e-mail, file streaming,
    RSS, MCP, the web client and start-up, which are input and output or glue
    between libraries, and generated code. *)

From Stdlib Require Export Ascii.
From stdpp Require Export base list strings gmap sets pretty.
From Stdlib Require Export ZArith Lia.

#[export] Set Default Goal Selector "!".
#[global] Open Scope string_scope.
#[global] Open Scope list_scope.

(** ** Errors and results

    A Go function returning [(T, error)] is a function into [result E T].
    [error] keeps the format string and the rendered arguments of
    [errors.Errorf] apart, so that no quoting rule of [fmt] is needed to
    compare two errors; [errors.Wrap] is [Wrap]. *)

Inductive error :=
| Errorf (format : string) (args : list string)
| Wrap (cause : error) (message : string)
(** A run-time panic (an index out of range, say) where the code could reach one. *)
| Panic (what : string).

Abbreviation errorf0 msg := (Errorf msg []).

Inductive result (E A : Type) :=
| Ok (a : A)
| Err (e : E).
Arguments Ok {E A} a.
Arguments Err {E A} e.

#[export] Instance result_ret {E} : MRet (result E) := λ A a, Ok a.
#[export] Instance result_bind {E} : MBind (result E) :=
  λ A B f m, match m with Ok a => f a | Err e => Err e end.
#[export] Instance result_fmap {E} : FMap (result E) :=
  λ A B f m, match m with Ok a => Ok (f a) | Err e => Err e end.

(** [errors.Wrap(err, msg)] on the error path only. *)
Definition wrap_err {A} (msg : string) (m : result error A) : result error A :=
  match m with Ok a => Ok a | Err e => Err (Wrap e msg) end.

Definition is_ok {E A} (m : result E A) : bool :=
  match m with Ok _ => true | Err _ => false end.

(** A computation over a mutable receiver that may fail.  The receivers
    modelled this way are local to the call that returns the error, so the
    state reached on an error path is not observable and is dropped. *)
Definition SE (S E A : Type) : Type := S → result E (A * S).

#[export] Instance SE_ret {S E} : MRet (SE S E) := λ A a s, Ok (a, s).
#[export] Instance SE_bind {S E} : MBind (SE S E) :=
  λ A B f m s, match m s with Ok (a, s') => f a s' | Err e => Err e end.

Definition se_err {S E A} (e : E) : SE S E A := λ _, Err e.
Definition se_lift {S E A} (m : result E A) : SE S E A :=
  λ s, match m with Ok a => Ok (a, s) | Err e => Err e end.

Section result_facts.
Context {E : Type}.

Lemma bind_Ok {A B} (m : result E A) (f : A → result E B) b :
  m ≫= f = Ok b ↔ ∃ a, m = Ok a ∧ f a = Ok b.
Proof. destruct m; cbn; split; naive_solver. Qed.

Lemma bind_Err {A B} (m : result E A) (f : A → result E B) e :
  m ≫= f = Err e ↔ m = Err e ∨ ∃ a, m = Ok a ∧ f a = Err e.
Proof. destruct m; cbn; split; naive_solver. Qed.

Lemma se_bind_Ok {S A B} (m : SE S E A) (f : A → SE S E B) s r :
  (m ≫= f) s = Ok r ↔ ∃ a s', m s = Ok (a, s') ∧ f a s' = Ok r.
Proof.
  cbv [mbind SE_bind]. destruct (m s) as [[a s']|e]; split; naive_solver.
Qed.

Lemma se_ret_Ok {S A} (a : A) (s : S) r :
  (mret a : SE S E A) s = Ok r ↔ r = (a, s).
Proof. cbv [mret SE_ret]. naive_solver. Qed.

Lemma se_lift_Ok {S A} (m : result E A) (s : S) r :
  se_lift m s = Ok r ↔ ∃ a, m = Ok a ∧ r = (a, s).
Proof. unfold se_lift. destruct m; naive_solver. Qed.
End result_facts.

Lemma wrap_err_Ok {A} msg (m : result error A) a : wrap_err msg m = Ok a ↔ m = Ok a.
Proof. destruct m; cbn; naive_solver. Qed.

(** Invert every successful bind of the context. *)
Ltac inv_ok :=
  repeat match goal with
  | H : mbind _ _ = Ok _ |- _ => apply bind_Ok in H as (? & ? & H)
  | H : mbind _ _ _ = Ok _ |- _ => apply se_bind_Ok in H as (? & ? & ? & H)
  | H : @mret _ SE_ret _ _ _ = Ok _ |- _ => apply se_ret_Ok in H
  | H : mret _ = Ok _ |- _ => cbv [mret result_ret] in H
  | H : se_lift _ _ = Ok _ |- _ => apply se_lift_Ok in H as (? & ? & H)
  | H : se_err _ _ = Ok _ |- _ => discriminate H
  | H : wrap_err _ _ = Ok _ |- _ => apply wrap_err_Ok in H
  | H : Err _ = Ok _ |- _ => discriminate H
  | H : Ok _ = Err _ |- _ => discriminate H
  | H : Ok _ = Ok _ |- _ => injection H as H; subst
  | H : (_, _) = (_, _) |- _ => injection H as H; subst
  end; simplify_eq.

(** Split a hypothesis about a [match]/[if] on its scrutinee. *)
Ltac split_match H :=
  match type of H with
  | context [match ?x with _ => _ end] => destruct x eqn:?
  end.
