(* ===== verification/GoLib.v ===== *)
(** * The parts of the Go language and standard library the program relies on

    Fixed-width integers and their conversions, byte strings and the functions
    of [strings] and [strconv] that the modelled packages call.  Strings are
    Go's byte strings: a [string] is a sequence of bytes, and a rune is decoded
    from it only where the source does so. *)

From S2P Require Import Prelude.
From Stdlib Require Import SpecFloat.
#[global] Open Scope string_scope.

(** ** Fixed-width integers *)

Module GoInt.
Definition wrap_signed (w : Z) (z : Z) : Z :=
  let m := Z.modulo z (2 ^ w) in
  if (m <? 2 ^ (w - 1))%Z then m else (m - 2 ^ w)%Z.

Definition int32 : Z → Z := wrap_signed 32.
Definition int64 : Z → Z := wrap_signed 64.

Definition min_int64 : Z := (- 2 ^ 63)%Z.
Definition max_int64 : Z := (2 ^ 63 - 1)%Z.
Definition min_int32 : Z := (- 2 ^ 31)%Z.
Definition max_int32 : Z := (2 ^ 31 - 1)%Z.

Definition is_int64 (z : Z) : Prop := (min_int64 ≤ z ≤ max_int64)%Z.
Definition is_int32 (z : Z) : Prop := (min_int32 ≤ z ≤ max_int32)%Z.

(** [x + y], [x - y], [x * y], [x / y] and [x % y] on [int64]; the last two
    panic on a zero divisor. *)
Definition add64 (x y : Z) : Z := int64 (x + y).
Definition sub64 (x y : Z) : Z := int64 (x - y).
Definition mul64 (x y : Z) : Z := int64 (x * y).
Definition quot64 (x y : Z) : result error Z :=
  if (y =? 0)%Z then Err (Panic "integer divide by zero") else Ok (int64 (Z.quot x y)).
Definition rem64 (x y : Z) : result error Z :=
  if (y =? 0)%Z then Err (Panic "integer divide by zero") else Ok (int64 (Z.rem x y)).

Lemma wrap_signed_range w z :
  (0 < w)%Z → (- 2 ^ (w - 1) ≤ wrap_signed w z < 2 ^ (w - 1))%Z.
Proof.
  intros Hw. unfold wrap_signed.
  assert (2 ^ w = 2 * 2 ^ (w - 1))%Z as Hpow.
  { rewrite <- Z.pow_succ_r by lia. f_equal. lia. }
  pose proof (Z.mod_pos_bound z (2 ^ w) ltac:(lia)).
  destruct (Z.ltb_spec (z mod 2 ^ w) (2 ^ (w - 1))); lia.
Qed.

Lemma int64_range z : is_int64 (int64 z).
Proof.
  unfold is_int64, int64, min_int64, max_int64.
  pose proof (wrap_signed_range 64 z ltac:(lia)) as H. simpl Z.sub in H. lia.
Qed.

Lemma wrap_signed_id w z :
  (0 < w)%Z → (- 2 ^ (w - 1) ≤ z < 2 ^ (w - 1))%Z → wrap_signed w z = z.
Proof.
  intros Hw Hz. unfold wrap_signed.
  assert (2 ^ w = 2 * 2 ^ (w - 1))%Z as Hpow.
  { rewrite <- Z.pow_succ_r by lia. f_equal. lia. }
  destruct (Z.ltb_spec z 0) as [Hneg|Hpos].
  - rewrite <- (Z.mod_add z 1 (2 ^ w)) by lia.
    rewrite Z.mod_small by lia.
    destruct (Z.ltb_spec (z + 1 * 2 ^ w) (2 ^ (w - 1))); lia.
  - rewrite Z.mod_small by lia.
    destruct (Z.ltb_spec z (2 ^ (w - 1))); lia.
Qed.

Lemma int64_id z : is_int64 z → int64 z = z.
Proof.
  unfold is_int64, int64, min_int64, max_int64. intros Hz.
  apply wrap_signed_id; [lia|]. simpl Z.sub. lia.
Qed.

Lemma int32_id z : is_int32 z → int32 z = z.
Proof.
  unfold is_int32, int32, min_int32, max_int32. intros Hz.
  apply wrap_signed_id; [lia|]. simpl Z.sub. lia.
Qed.
End GoInt.

(** ** float64

    IEEE 754 binary64 with the rounding of the standard library's
    specification floats.  Converting a float64 outside the range of int64 to
    int64 is implementation-dependent in Go, hence a parameter of the
    platform. *)

Class GoPlatform := { f64_out_of_range : spec_float → Z }.

Module Float64.
Definition prec : Z := 53.
Definition emax : Z := 1024.

Definition of_Z (z : Z) : spec_float := binary_normalize prec emax z 0 false.
Definition add := SFadd prec emax.
Definition mul := SFmul prec emax.
Definition div := SFdiv prec emax.

(** Truncation towards zero; [None] on an infinity or a NaN. *)
Definition trunc (f : spec_float) : option Z :=
  match f with
  | S754_zero _ => Some 0%Z
  | S754_finite s m e =>
      let v := if (0 <=? e)%Z then Z.shiftl (Zpos m) e else Z.shiftr (Zpos m) (- e) in
      Some (if s then (- v)%Z else v)
  | _ => None
  end.

Definition to_int64 `{GoPlatform} (f : spec_float) : Z :=
  match trunc f with
  | Some z =>
      if ((GoInt.min_int64 <=? z) && (z <=? GoInt.max_int64))%Z then z
      else f64_out_of_range f
  | None => f64_out_of_range f
  end.

Definition eqb := SFeqb.
Definition ltb := SFltb.
Definition leb := SFleb.
End Float64.

(** ** Byte strings *)

#[global] Open Scope string_scope.
#[global] Open Scope list_scope.

Abbreviation byte_of c := (Z.of_N (Ascii.N_of_ascii c)).

Module Str.
#[local] Arguments String.append : simpl nomatch.

Definition is_digit (c : Ascii.ascii) : bool :=
  let n := byte_of c in ((48 <=? n) && (n <=? 57))%Z.

(** The bytes of a rune that [unicode.IsSpace] accepts, at the front of [s]:
    the number of bytes, or 0.  ASCII space, U+0085, U+00A0, U+1680,
    U+2000-U+200A, U+2028, U+2029, U+202F, U+205F and U+3000. *)
Definition space_prefix (s : string) : nat :=
  match s with
  | EmptyString => 0
  | String a r =>
      let a := byte_of a in
      if ((a =? 32) || ((9 <=? a) && (a <=? 13)))%Z then 1%nat else
      match r with
      | EmptyString => 0
      | String b r =>
          let b := byte_of b in
          if ((a =? 194) && ((b =? 133) || (b =? 160)))%Z then 2%nat else
          match r with
          | EmptyString => 0
          | String c _ =>
              let c := byte_of c in
              if (((a =? 225) && (b =? 154) && (c =? 128))
                  || ((a =? 226) && (b =? 128)
                      && (((128 <=? c) && (c <=? 138)) || (c =? 168) || (c =? 169) || (c =? 175)))
                  || ((a =? 226) && (b =? 129) && (c =? 159))
                  || ((a =? 227) && (b =? 128) && (c =? 128)))%Z
              then 3%nat else 0%nat
          end
      end
  end.

Fixpoint drop (n : nat) (s : string) : string :=
  match n, s with
  | O, _ => s
  | S n, String _ r => drop n r
  | S _, EmptyString => EmptyString
  end.

Fixpoint take (n : nat) (s : string) : string :=
  match n, s with
  | S n, String c r => String c (take n r)
  | _, _ => EmptyString
  end.

(** [skip] counts the bytes of a space rune still to be dropped. *)
Fixpoint trim_left_from (skip : nat) (s : string) : string :=
  match s with
  | EmptyString => EmptyString
  | String _ r =>
      match skip with
      | S k => trim_left_from k r
      | O => match space_prefix s with
             | O => s
             | S k => trim_left_from k r
             end
      end
  end.
Definition trim_left (s : string) : string := trim_left_from 0 s.

Definition is_blank (s : string) : bool :=
  match trim_left s with EmptyString => true | _ => false end.

Fixpoint trim_right (s : string) : string :=
  if is_blank s then EmptyString
  else match s with EmptyString => EmptyString | String c r => String c (trim_right r) end.

(** [strings.TrimSpace]. *)
Definition trim_space (s : string) : string := trim_right (trim_left s).

(** [strings.Fields]: the maximal runs of bytes outside space runes. *)
Fixpoint fields_from (skip : nat) (word : string) (s : string) : list string :=
  let flush := match word with EmptyString => [] | _ => [word] end in
  match s with
  | EmptyString => flush
  | String c r =>
      match skip with
      | S k => fields_from k word r
      | O => match space_prefix s with
             | O => fields_from 0 (word +:+ String c EmptyString) r
             | S k => flush ++ fields_from k EmptyString r
             end
      end
  end.
Definition fields (s : string) : list string := fields_from 0 EmptyString s.

Definition has_prefix (p s : string) : bool := String.prefix p s.

(** [strings.Split] with a one-byte separator. *)
Fixpoint split_on (sep : Ascii.ascii) (s : string) : list string :=
  match s with
  | EmptyString => [EmptyString]
  | String c r =>
      if Ascii.eqb c sep then EmptyString :: split_on sep r
      else match split_on sep r with
           | w :: ws => String c w :: ws
           | [] => [String c EmptyString]
           end
  end.

Fixpoint contains_byte (b : Ascii.ascii) (s : string) : bool :=
  match s with
  | EmptyString => false
  | String c r => Ascii.eqb c b || contains_byte b r
  end.

(** [strings.Join]. *)
Fixpoint join (sep : string) (l : list string) : string :=
  match l with
  | [] => EmptyString
  | [w] => w
  | w :: ws => w +:+ sep +:+ join sep ws
  end.

(** [strings.NewReplacer] when every old string is one byte long: each byte
    is replaced independently. *)
Fixpoint replace_bytes (f : Ascii.ascii → string) (s : string) : string :=
  match s with
  | EmptyString => EmptyString
  | String c r => f c +:+ replace_bytes f r
  end.

Fixpoint to_list (s : string) : list Ascii.ascii :=
  match s with EmptyString => [] | String c r => c :: to_list r end.

(** Number of occurrences of a byte. *)
Fixpoint count_byte (b : Ascii.ascii) (s : string) : nat :=
  match s with
  | EmptyString => 0
  | String c r => (if Ascii.eqb c b then 1 else 0) + count_byte b r
  end.

Lemma app_nil_r s : s +:+ EmptyString = s.
Proof. induction s; cbn; congruence. Qed.

Lemma app_assoc s1 s2 s3 : s1 +:+ s2 +:+ s3 = (s1 +:+ s2) +:+ s3.
Proof. induction s1; cbn; congruence. Qed.

Lemma count_byte_app b s1 s2 :
  count_byte b (s1 +:+ s2) = (count_byte b s1 + count_byte b s2)%nat.
Proof. induction s1; cbn; [done|]. rewrite IHs1. lia. Qed.

Lemma count_byte_join b sep l :
  count_byte b (join sep l) =
    (sum_list (count_byte b <$> l) + pred (length l) * count_byte b sep)%nat.
Proof.
  induction l as [|w [|w' l] IH]; [done|cbn; lia|].
  change (join sep (w :: w' :: l)) with (w +:+ sep +:+ join sep (w' :: l)).
  rewrite !count_byte_app, IH. cbn. lia.
Qed.

(** *** Splitting on a separator byte *)

Lemma split_on_clean b s : contains_byte b s = false → split_on b s = [s].
Proof.
  induction s as [|c s IH]; [done|]. cbn -[Ascii.eqb].
  intros [Hc Hs]%orb_false_iff. rewrite Hc. by rewrite IH.
Qed.

Lemma split_on_app b w s :
  contains_byte b w = false → split_on b (w +:+ String b s) = w :: split_on b s.
Proof.
  induction w as [|c w IH]; cbn -[Ascii.eqb]; [by rewrite Ascii.eqb_refl|].
  intros [Hc Hw]%orb_false_iff. rewrite Hc. by rewrite IH.
Qed.

Lemma split_on_join b w ws :
  Forall (λ w, contains_byte b w = false) (w :: ws) →
  split_on b (join (String b EmptyString) (w :: ws)) = w :: ws.
Proof.
  revert w. induction ws as [|w' ws IH]; intros w Hws; inversion Hws; subst.
  - by apply split_on_clean.
  - change (join _ (w :: w' :: ws)) with (w +:+ String b (join (String b EmptyString) (w' :: ws))).
    rewrite split_on_app by done. by rewrite IH.
Qed.

Lemma contains_byte_app b s1 s2 :
  contains_byte b (s1 +:+ s2) = contains_byte b s1 || contains_byte b s2.
Proof. induction s1; cbn; [done|]. by rewrite IHs1, orb_assoc. Qed.
End Str.

(** ** [strconv] *)

Module Strconv.
Fixpoint digits_value (acc : Z) (s : string) : option Z :=
  match s with
  | EmptyString => Some acc
  | String c r =>
      if Str.is_digit c then digits_value (acc * 10 + (byte_of c - 48))%Z r else None
  end.

(** [strconv.ParseInt(s, 10, bits)]: an optional sign, at least one digit,
    and a value in range. *)
Definition parse_int (bits : Z) (s : string) : option Z :=
  let '(neg, body) :=
    match s with
    | String c r =>
        if Ascii.eqb c "-"%char then (true, r)
        else if Ascii.eqb c "+"%char then (false, r) else (false, s)
    | EmptyString => (false, EmptyString)
    end in
  match body with
  | EmptyString => None
  | _ =>
      v ← digits_value 0 body;
      let v := if neg then (- v)%Z else v in
      if ((- 2 ^ (bits - 1) <=? v) && (v <=? 2 ^ (bits - 1) - 1))%Z then Some v else None
  end.

(** [strconv.Atoi] on a 64-bit platform. *)
Definition atoi : string → option Z := parse_int 64.

Lemma parse_int_range bits s v :
  parse_int bits s = Some v → (- 2 ^ (bits - 1) ≤ v ≤ 2 ^ (bits - 1) - 1)%Z.
Proof.
  unfold parse_int. intros H.
  destruct (match s with EmptyString => _ | String _ _ => _ end) as [neg body].
  destruct body as [|c r]; [done|].
  destruct (digits_value 0 (String c r)) as [w|]; [|done]. cbn in H.
  destruct (_ && _)%bool eqn:Hr; [|done]. injection H as <-.
  apply andb_true_iff in Hr as [H1 H2]. lia.
Qed.
End Strconv.

(** [fmt.Sprintf("%d", z)] and [strconv.Itoa]. *)
Definition itoa (z : Z) : string := pretty z.
