(* ===== verification/GoTime.v ===== *)
(** * Go's package [time], as far as the filter compiler and the scheduler use it

    Instants with a location, their civil components, [Add], [Truncate],
    [AddDate] and [Date], and the two parsers the filter compiler calls
    ([time.Parse] with the RFC 3339 layout and [time.ParseDuration]). *)

From S2P Require Import Prelude GoLib.
From Stdlib Require Import SpecFloat.
Open Scope Z_scope.

(** ** The proleptic Gregorian calendar *)

Module Civil.
Definition is_leap (y : Z) : bool :=
  (y mod 4 =? 0) && (negb (y mod 100 =? 0) || (y mod 400 =? 0)).

Definition days_in (m y : Z) : Z :=
  if m =? 2 then (if is_leap y then 29 else 28)
  else if (m =? 4) || (m =? 6) || (m =? 9) || (m =? 11) then 30 else 31.

(** Days since 1970-01-01 of a civil date; the day may be out of the month's
    range and is then normalised, as [time.Date] does. *)
Definition days_from_civil (y m d : Z) : Z :=
  let y' := if m <=? 2 then y - 1 else y in
  let era := y' / 400 in
  let yoe := y' - era * 400 in
  let doy := (153 * (if m >? 2 then m - 3 else m + 9) + 2) / 5 + d - 1 in
  let doe := yoe * 365 + yoe / 4 - yoe / 100 + doy in
  era * 146097 + doe - 719468.

Definition civil_from_days (n : Z) : Z * Z * Z :=
  let z := n + 719468 in
  let era := z / 146097 in
  let doe := z - era * 146097 in
  let yoe := (doe - doe / 1460 + doe / 36524 - doe / 146096) / 365 in
  let doy := doe - (365 * yoe + yoe / 4 - yoe / 100) in
  let mp := (5 * doy + 2) / 153 in
  let d := doy - (153 * mp + 2) / 5 + 1 in
  let m := if mp <? 10 then mp + 3 else mp - 9 in
  (yoe + era * 400 + (if m <=? 2 then 1 else 0), m, d).

(** 1970-01-01 was a Thursday; 0 is Sunday. *)
Definition weekday (n : Z) : Z := (n + 4) mod 7.

Definition year_day (n : Z) : Z :=
  let '(y, _, _) := civil_from_days n in n - days_from_civil y 1 1 + 1.
End Civil.

(** ** Instants *)

(** The zone in use at an instant (Unix seconds): its offset east of UTC and
    the interval of Unix seconds over which it applies. *)
Record Zone := mkZone { z_offset : Z; z_start : Z; z_end : Z }.
Definition Location : Type := Z → Zone.

Definition UTC : Location := λ _, mkZone 0 (- 2 ^ 63) (2 ^ 63 - 1).
Definition fixed_zone (off : Z) : Location := λ _, mkZone off (- 2 ^ 63) (2 ^ 63 - 1).

Record Time := mkTime { t_unix : Z; t_nsec : Z; t_loc : Location }.

Module Time.
Definition second : Z := 10 ^ 9.
Definition minute : Z := 60 * second.

(** Unix seconds of Go's zero instant, 0001-01-01T00:00:00 UTC. *)
Definition unix_zero : Z := -62135596800.
Definition zero : Time := mkTime unix_zero 0 UTC.

Definition is_zero (t : Time) : bool := (t_unix t =? unix_zero) && (t_nsec t =? 0).

(** Nanoseconds since the Unix epoch: the order of instants. *)
Definition nanos (t : Time) : Z := t_unix t * second + t_nsec t.
Definition before (t u : Time) : bool := nanos t <? nanos u.
Definition after (t u : Time) : bool := nanos u <? nanos t.

Definition of_nanos (n : Z) (loc : Location) : Time :=
  mkTime (n / second) (n mod second) loc.

Definition add (t : Time) (d : Z) : Time := of_nanos (nanos t + d) (t_loc t).

(** [t.Truncate(d)] rounds down to a multiple of [d] since the zero instant. *)
Definition truncate (t : Time) (d : Z) : Time :=
  let since := nanos t - unix_zero * second in
  of_nanos (nanos t - since mod d) (t_loc t).

Definition utc (t : Time) : Time := mkTime (t_unix t) (t_nsec t) UTC.
Definition unix (t : Time) : Z := t_unix t.

(** Seconds of the local clock since 1970-01-01T00:00:00 local. *)
Definition local_seconds (t : Time) : Z := t_unix t + z_offset (t_loc t (t_unix t)).
Definition day_number (t : Time) : Z := local_seconds t / 86400.
Definition day_second (t : Time) : Z := local_seconds t mod 86400.

Definition civil (t : Time) : Z * Z * Z := Civil.civil_from_days (day_number t).
Definition year (t : Time) : Z := let '(y, _, _) := civil t in y.
Definition month (t : Time) : Z := let '(_, m, _) := civil t in m.
Definition day (t : Time) : Z := let '(_, _, d) := civil t in d.
Definition hour (t : Time) : Z := day_second t / 3600.
Definition min (t : Time) : Z := (day_second t mod 3600) / 60.
Definition sec (t : Time) : Z := day_second t mod 60.
Definition weekday (t : Time) : Z := Civil.weekday (day_number t).
Definition year_day (t : Time) : Z := Civil.year_day (day_number t).

(** [time.Date] for a month in range: local clock reading to instant, with
    the second look-up of the zone when the first one does not apply. *)
Definition date (y m d h mi s ns : Z) (loc : Location) : Time :=
  let u := Civil.days_from_civil y m d * 86400 + h * 3600 + mi * 60 + s in
  let z := loc u in
  let off :=
    if z_offset z =? 0 then 0
    else
      let utc := u - z_offset z in
      if (utc <? z_start z) || (z_end z <=? utc) then z_offset (loc utc) else z_offset z in
  mkTime (u - off) ns loc.

(** [t.AddDate(years, 0, 0)]. *)
Definition add_years (t : Time) (n : Z) : Time :=
  date (year t + n) (month t) (day t) (hour t) (min t) (sec t) (t_nsec t) (t_loc t).
End Time.

(** ** [time.Parse(time.RFC3339, value)], to Unix seconds *)

Module ParseRFC3339.
(** The leading bytes of [s] read as a decimal number; [None] unless each of
    the [n] bytes is a digit. *)
Definition digits (n : nat) (s : string) : option (Z * string) :=
  let w := Str.take n s in
  if bool_decide (String.length w = n) then
    v ← Strconv.digits_value 0 w; Some (v, Str.drop n s)
  else None.

(** [getnum(s, false)]: one or two digits. *)
Definition one_or_two (s : string) : option (Z * string) :=
  match digits 2 s with
  | Some r => Some r
  | None => digits 1 s
  end.

Definition expect (c : ascii) (s : string) : option string :=
  match s with
  | String b r => if Ascii.eqb b c then Some r else None
  | EmptyString => None
  end.

Definition in_range (lo hi v : Z) : option unit :=
  if (lo <=? v) && (v <=? hi) then Some tt else None.

Fixpoint skip_digits (s : string) : string :=
  match s with
  | String c r => if Str.is_digit c then skip_digits r else s
  | EmptyString => s
  end.

(** A fractional second may follow although the layout has none. *)
Definition skip_fraction (s : string) : string :=
  match s with
  | String p (String d _ as r) =>
      if (Ascii.eqb p "."%char || Ascii.eqb p ","%char) && Str.is_digit d
      then skip_digits r else s
  | _ => s
  end.

(** The zone suffix: "Z", or a signed hh:mm; seconds east of UTC. *)
Definition zone (s : string) : option (Z * string) :=
  match s with
  | String "Z" r => Some (0, r)
  | String sign r =>
      '(hh, r) ← digits 2 r; r ← expect ":" r; '(mm, r) ← digits 2 r;
      _ ← in_range 0 24 hh; _ ← in_range 0 60 mm;
      if Ascii.eqb sign "+"%char then Some ((hh * 60 + mm) * 60, r)
      else if Ascii.eqb sign "-"%char then Some (- ((hh * 60 + mm) * 60), r)
      else None
  | EmptyString => None
  end.

Definition parse (s : string) : option Z :=
  '(y, s) ← digits 4 s; s ← expect "-" s;
  '(mo, s) ← digits 2 s; _ ← in_range 1 12 mo; s ← expect "-" s;
  '(d, s) ← digits 2 s; s ← expect "T" s;
  '(h, s) ← one_or_two s; _ ← in_range 0 23 h; s ← expect ":" s;
  '(mi, s) ← digits 2 s; _ ← in_range 0 59 mi; s ← expect ":" s;
  '(se, s) ← digits 2 s; _ ← in_range 0 59 se;
  '(off, s) ← zone (skip_fraction s);
  match s with
  | EmptyString =>
      _ ← in_range 1 (Civil.days_in mo y) d;
      Some (t_unix (Time.date y mo d h mi se 0 UTC) - off)
  | _ => None
  end.
End ParseRFC3339.

(** ** [time.ParseDuration] and [Duration.Seconds] *)

Module Duration.
Definition two63 : Z := 2 ^ 63.

(** The unit names: "us" is also written with U+00B5 or U+03BC. *)
Definition micro (a b : N) : string :=
  String (ascii_of_N a) (String (ascii_of_N b) "s").
Definition unit_map (u : string) : option Z :=
  if String.eqb u "ns" then Some 1
  else if String.eqb u "us" || String.eqb u (micro 194 181) || String.eqb u (micro 206 188)
  then Some 1000
  else if String.eqb u "ms" then Some (10 ^ 6)
  else if String.eqb u "s" then Some (10 ^ 9)
  else if String.eqb u "m" then Some (60 * 10 ^ 9)
  else if String.eqb u "h" then Some (3600 * 10 ^ 9)
  else None.

Fixpoint leading_int (x : Z) (s : string) : option (Z * string) :=
  match s with
  | String c r =>
      if Str.is_digit c then
        if two63 / 10 <? x then None
        else let x := x * 10 + (byte_of c - 48) in
             if two63 <? x then None else leading_int x r
      else Some (x, s)
  | EmptyString => Some (x, s)
  end.

Fixpoint leading_fraction (x : Z) (scale : spec_float) (overflow : bool) (s : string)
  : Z * spec_float * string :=
  match s with
  | String c r =>
      if Str.is_digit c then
        if overflow || ((two63 - 1) / 10 <? x) then leading_fraction x scale true r
        else let y := x * 10 + (byte_of c - 48) in
             if two63 <? y then leading_fraction x scale true r
             else leading_fraction y (Float64.mul scale (Float64.of_Z 10)) false r
      else (x, scale, s)
  | EmptyString => (x, scale, s)
  end.

Fixpoint take_unit (s : string) : string * string :=
  match s with
  | String c r =>
      if Ascii.eqb c "."%char || Str.is_digit c then (EmptyString, s)
      else let '(u, r) := take_unit r in (String c u, r)
  | EmptyString => (EmptyString, s)
  end.

(** One "number unit" group: its nanoseconds and the rest. *)
Definition group (s : string) : option (Z * string) :=
  match s with
  | String c _ =>
      if Ascii.eqb c "."%char || Str.is_digit c then
        '(v, r) ← leading_int 0 s;
        let pre := negb (String.eqb r s) in
        let '(f, scale, r', post) :=
          match r with
          | String "." r0 =>
              let '(f, sc, r1) := leading_fraction 0 (Float64.of_Z 1) false r0 in
              (f, sc, r1, negb (String.eqb r1 r0))
          | _ => (0, Float64.of_Z 1, r, false)
          end in
        if negb (pre || post) then None
        else
          let '(u, rest) := take_unit r' in
          unit ← unit_map u;
          if two63 / unit <? v then None
          else
            let v := v * unit in
            let v :=
              if 0 <? f then
                match Float64.trunc
                  (Float64.mul (Float64.of_Z f) (Float64.div (Float64.of_Z unit) scale)) with
                | Some e => v + e
                | None => v
                end
              else v in
            if two63 <? v then None else Some (v, rest)
      else None
  | EmptyString => None
  end.

(** Every group consumes at least one byte, so the length of the string is
    enough fuel. *)
Fixpoint groups (fuel : nat) (d : Z) (s : string) : option Z :=
  match s with
  | EmptyString => Some d
  | _ =>
      match fuel with
      | O => None
      | S k =>
          '(v, r) ← group s;
          if two63 <? d + v then None else groups k (d + v) r
      end
  end.

(** Nanoseconds of a duration literal. *)
Definition parse (s : string) : option Z :=
  let '(neg, body) :=
    match s with
    | String "-" r => (true, r)
    | String "+" r => (false, r)
    | _ => (false, s)
    end in
  if String.eqb body "0" then Some 0
  else match body with
       | EmptyString => None
       | _ =>
           d ← groups (String.length body) 0 body;
           if neg then Some (GoInt.int64 (- d))
           else if two63 - 1 <? d then None else Some d
       end.

(** [d.Seconds()]. *)
Definition seconds (d : Z) : spec_float :=
  Float64.add (Float64.of_Z (Z.quot d (10 ^ 9)))
              (Float64.div (Float64.of_Z (Z.rem d (10 ^ 9))) (Float64.of_Z (10 ^ 9))).
End Duration.
