(* ===== verification/GoText.v ===== *)
(** Go's [strings], [net/http] and [time], as far as the authentication code uses
    them: comparing without case, searching and cutting, the cookies of a request,
    and the date of a cookie. *)
From S2P Require Import Prelude GoLib GoTime.

(** ** Package [strings] *)

Module Text.
#[local] Arguments String.append : simpl nomatch.

Definition is_upper (c : ascii) : bool :=
  let n := byte_of c in ((65 <=? n) && (n <=? 90))%Z.
Definition lower_byte (c : ascii) : ascii :=
  if is_upper c then ascii_of_nat (nat_of_ascii c + 32) else c.

(** [strings.EqualFold(s, p)] for a [p] of lower-case ASCII letters: besides the
    two cases, an [s] is folded to from U+017F and a [k] from U+212A. *)
Fixpoint equal_fold (p s : string) : bool :=
  match p with
  | EmptyString => String.eqb s ""
  | String c p =>
      match s with
      | EmptyString => false
      | String d r =>
          if Ascii.eqb (lower_byte d) c then equal_fold p r
          else if Ascii.eqb c "s" then
            match r with
            | String e r => (byte_of d =? 197)%Z && (byte_of e =? 191)%Z && equal_fold p r
            | EmptyString => false
            end
          else if Ascii.eqb c "k" then
            match r with
            | String e (String f r) =>
                (byte_of d =? 226)%Z && (byte_of e =? 132)%Z && (byte_of f =? 170)%Z && equal_fold p r
            | _ => false
            end
          else false
      end
  end.

(** [strings.ToLower] on text beyond ASCII follows the tables of [unicode]. *)
Class GoUnicode := { ToLower : string → string }.

(** [strings.Index] and [strings.Contains]. *)
Fixpoint index (sub s : string) : option nat :=
  if String.prefix sub s then Some 0%nat
  else match s with EmptyString => None | String _ r => S <$> index sub r end.
Definition contains (s sub : string) : bool :=
  match index sub s with Some _ => true | None => false end.

(** [strings.Cut] with a one-byte separator: what is before and after it. *)
Fixpoint cut (sep : ascii) (s : string) : string * string :=
  match s with
  | EmptyString => ("", "")
  | String c r =>
      if Ascii.eqb c sep then ("", r) else let '(a, b) := cut sep r in (String c a, b)
  end.

(** [strings.ReplaceAll] of one byte by another. *)
Definition replace_byte (old new : ascii) : string → string :=
  Str.replace_bytes (λ c, String (if Ascii.eqb c old then new else c) "").

(** [s[lo:]] and [s[lo:hi]]; out of range they panic. *)
Definition slice_from (lo : nat) (s : string) : result error string :=
  if (lo <=? String.length s)%nat then Ok (Str.drop lo s)
  else Err (Panic "slice bounds out of range").
Definition slice (lo hi : nat) (s : string) : result error string :=
  if ((lo <=? hi) && (hi <=? String.length s))%nat then Ok (Str.take (hi - lo) (Str.drop lo s))
  else Err (Panic "slice bounds out of range").
End Text.

(** ** Cookies of package [net/http] *)

Module Cookie.
(** [textproto.TrimString]. *)
Definition is_ascii_space (c : ascii) : bool :=
  let n := byte_of c in ((n =? 32) || (n =? 9) || (n =? 10) || (n =? 13))%Z.
Fixpoint trim_left (s : string) : string :=
  match s with
  | String c r => if is_ascii_space c then trim_left r else s
  | EmptyString => EmptyString
  end.
Fixpoint trim_right (s : string) : string :=
  match s with
  | EmptyString => EmptyString
  | String c r =>
      match trim_right r with
      | EmptyString => if is_ascii_space c then EmptyString else String c EmptyString
      | t => String c t
      end
  end.
Definition trim (s : string) : string := trim_right (trim_left s).

Fixpoint all_bytes (p : ascii → bool) (s : string) : bool :=
  match s with EmptyString => true | String c r => p c && all_bytes p r end.

(** [isToken]: the token characters of RFC 7230. *)
Definition is_token_byte (c : ascii) : bool :=
  let n := byte_of c in
  Str.is_digit c || ((65 <=? n) && (n <=? 90) || (97 <=? n) && (n <=? 122))%Z ||
  bool_decide (n ∈ [33; 35; 36; 37; 38; 39; 42; 43; 45; 46; 94; 95; 96; 124; 126]%Z).
Definition is_token (s : string) : bool := negb (String.eqb s "") && all_bytes is_token_byte s.

(** [validCookieValueByte]: no control byte, quote, semicolon or backslash. *)
Definition valid_value_byte (c : ascii) : bool :=
  let n := byte_of c in
  ((32 <=? n) && (n <? 127) && negb (n =? 34) && negb (n =? 59) && negb (n =? 92))%Z.

(** [parseCookieValue] with [allowDoubleQuote]. *)
Definition unquote (v : string) : string :=
  let n := String.length v in
  match v with
  | String c r =>
      if (1 <? n)%nat && (byte_of c =? 34)%Z &&
         match String.get (n - 1) v with Some d => (byte_of d =? 34)%Z | None => false end
      then Str.take (n - 2) r else v
  | EmptyString => EmptyString
  end.
Definition parse_value (v : string) : option string :=
  let v := unquote v in if all_bytes valid_value_byte v then Some v else None.

(** One part of the header, between semicolons. *)
Definition part_value (name part : string) : option string :=
  let part := trim part in
  if String.eqb part "" then None
  else
    let '(n, v) := Text.cut "=" part in
    let n := trim n in
    if negb (is_token n) then None
    else if negb (String.eqb n name) then None
    else parse_value v.

(** [readCookies] for one header line, which gives up beyond 3000 cookies. *)
Definition read_cookies (name line : string) : list string :=
  if (3000 <? S (Str.count_byte ";" line))%nat then []
  else omap (part_value name) (Str.split_on ";" (trim line)).

(** [Request.Cookie]: the first one of the name. *)
Definition cookie (name line : string) : option string := head (read_cookies name line).
End Cookie.

(** ** Package [time] *)

Module CookieDate.
Definition day_names := ["Sun"; "Mon"; "Tue"; "Wed"; "Thu"; "Fri"; "Sat"].
Definition month_names :=
  ["Jan"; "Feb"; "Mar"; "Apr"; "May"; "Jun"; "Jul"; "Aug"; "Sep"; "Oct"; "Nov"; "Dec"].
Definition name_at (l : list string) (i : Z) : string := default "" (l !! Z.to_nat i).
Definition pad (width : nat) (z : Z) : string :=
  let s := itoa z in
  String.append (Nat.iter (width - String.length s) (String "0") "") s.

(** [t.UTC().Format("Mon, 02 Jan 2006 15:04:05 GMT")], in years that have four
    digits. *)
Definition format (t : Time) : string :=
  let t := Time.utc t in
  name_at day_names (Time.weekday t) +:+ ", " +:+ pad 2 (Time.day t) +:+ " " +:+
  name_at month_names (Time.month t - 1) +:+ " " +:+ pad 4 (Time.year t) +:+ " " +:+
  pad 2 (Time.hour t) +:+ ":" +:+ pad 2 (Time.min t) +:+ ":" +:+ pad 2 (Time.sec t) +:+ " GMT".

Example format_runs :
  format (mkTime 784111777 0 UTC) = "Sun, 06 Nov 1994 08:49:37 GMT".
Proof. vm_compute. reflexivity. Qed.
End CookieDate.

Example cookie_runs :
  Cookie.cookie "memos_refresh" "a=1; memos_refresh=tok.en ;memos_refresh=other" = Some "tok.en".
Proof. vm_compute. reflexivity. Qed.

(** ** Lemmas *)

#[local] Arguments String.append : simpl nomatch.

(** A word of visible ASCII bytes. *)
Definition visible (w : string) : Prop := Forall (λ c, (33 ≤ byte_of c < 128)%Z) (Str.to_list w).

Lemma to_list_app s1 s2 : Str.to_list (s1 +:+ s2) = Str.to_list s1 ++ Str.to_list s2.
Proof. induction s1; cbn; congruence. Qed.

Lemma visible_app s1 s2 : visible s1 → visible s2 → visible (s1 +:+ s2).
Proof. unfold visible. rewrite to_list_app. by apply Forall_app_2. Qed.

Lemma visible_join sep ws : visible sep → Forall visible ws → visible (Str.join sep ws).
Proof.
  intros Hsep Hws. induction Hws as [|w ws Hw _ IH]; [constructor|].
  destruct ws as [|w' ws]; [done|].
  change (Str.join sep (w :: w' :: ws)) with (w +:+ sep +:+ Str.join sep (w' :: ws)).
  by repeat apply visible_app.
Qed.

Lemma space_prefix_visible c r : (33 ≤ byte_of c < 128)%Z → Str.space_prefix (String c r) = 0%nat.
Proof.
  intros Hc. unfold Str.space_prefix. cbv zeta.
  rewrite (proj2 (Z.eqb_neq (byte_of c) 32)) by lia.
  rewrite (proj2 (Z.leb_gt (byte_of c) 13)) by lia. rewrite andb_false_r. cbn [orb].
  destruct r as [|b r]; [done|]. rewrite (proj2 (Z.eqb_neq (byte_of c) 194)) by lia.
  destruct r as [|e r]; [done|].
  rewrite (proj2 (Z.eqb_neq (byte_of c) 225)), (proj2 (Z.eqb_neq (byte_of c) 226)),
    (proj2 (Z.eqb_neq (byte_of c) 227)) by lia. done.
Qed.

Lemma fields_from_word w : ∀ acc s, visible w →
  Str.fields_from 0 acc (w +:+ s) = Str.fields_from 0 (acc +:+ w) s.
Proof.
  induction w as [|c w IH]; intros acc s Hw; [by rewrite Str.app_nil_r|].
  inversion Hw as [|? ? Hc Hw']. subst. change (String c w +:+ s) with (String c (w +:+ s)).
  cbn [Str.fields_from]. rewrite space_prefix_visible by done. rewrite IH by done.
  by rewrite <- Str.app_assoc.
Qed.

Lemma fields_join w ws :
  Forall (λ w, visible w ∧ w ≠ "") (w :: ws) → Str.fields (Str.join " " (w :: ws)) = w :: ws.
Proof.
  unfold Str.fields. revert w. induction ws as [|w' ws IH]; intros w Hws;
    inversion Hws as [|? ? [Hv Hne] Hws']; subst.
  - cbn [Str.join]. rewrite <- (Str.app_nil_r w) at 1. rewrite fields_from_word by done.
    cbn. by destruct w.
  - change (Str.join " " (w :: w' :: ws)) with (w +:+ String " " (Str.join " " (w' :: ws))).
    rewrite fields_from_word by done. cbn [Str.fields_from].
    change (Str.space_prefix (String " " (Str.join " " (w' :: ws)))) with 1%nat.
    cbv iota beta. rewrite IH by done. by destruct w.
Qed.

(** Numerals are read back. *)
Lemma pretty_char_value n : (n < 10)%N →
  Str.is_digit (pretty_N_char n) = true ∧ (byte_of (pretty_N_char n) - 48)%Z = Z.of_N n ∧
  pretty_N_char n ≠ "-"%char ∧ pretty_N_char n ≠ "+"%char.
Proof.
  intros Hn. assert (n ∈ [0; 1; 2; 3; 4; 5; 6; 7; 8; 9]%N) as Hin by (rewrite !elem_of_cons; lia).
  repeat (apply elem_of_cons in Hin as [->|Hin]; [done|]). by apply elem_of_nil in Hin.
Qed.

Lemma digits_value_pretty n : ∀ s,
  Strconv.digits_value 0 (pretty_N_go n s) = Strconv.digits_value (Z.of_N n) s.
Proof.
  induction (N.lt_wf_0 n) as [n _ IH]. intros s. destruct (decide (0 < n)%N) as [Hn|Hn].
  - rewrite pretty_N_go_step, IH by (try done; apply N.div_lt; lia). cbn [Strconv.digits_value].
    destruct (pretty_char_value (n mod 10)) as (-> & -> & _); [apply N.mod_lt; lia|].
    f_equal. pose proof (N.div_mod n 10). lia.
  - replace n with 0%N by lia. by rewrite pretty_N_go_0.
Qed.

Lemma pretty_go_head n : ∀ s, (0 < n)%N →
  ∃ c r, pretty_N_go n s = String c r ∧ c ≠ "-"%char ∧ c ≠ "+"%char.
Proof.
  induction (N.lt_wf_0 n) as [n _ IH]. intros s Hn. rewrite pretty_N_go_step by done.
  destruct (decide (0 < n / 10)%N) as [Hd|Hd]; [apply IH; [apply N.div_lt; lia|done]|].
  apply N.nlt_ge, N.le_0_r in Hd as ->. rewrite pretty_N_go_0.
  eexists _, _. split; [reflexivity|]. apply (pretty_char_value (n mod 10)), N.mod_lt. lia.
Qed.

Lemma parse_int_itoa bits z :
  (- 2 ^ (bits - 1) ≤ z ≤ 2 ^ (bits - 1) - 1)%Z → Strconv.parse_int bits (itoa z) = Some z.
Proof.
  intros Hz. unfold itoa, pretty, pretty_Z.
  assert (∀ v, v = z → (if ((- 2 ^ (bits - 1) <=? v) && (v <=? 2 ^ (bits - 1) - 1))%Z then Some v else None)
            = Some z) as Hr.
  { intros v ->. by rewrite !(proj2 (Z.leb_le _ _)) by lia. }
  destruct z as [|p|p].
  - unfold Strconv.parse_int. cbn [Ascii.eqb]. by apply Hr.
  - change (pretty p) with (pretty_N_go (N.pos p) "").
    destruct (pretty_go_head (N.pos p) "" eq_refl) as (c & r & E & H1 & H2).
    pose proof (digits_value_pretty (N.pos p) "") as Hv. rewrite E in *. unfold Strconv.parse_int. cbv iota beta.
    rewrite (proj2 (Ascii.eqb_neq c "-"%char)), (proj2 (Ascii.eqb_neq c "+"%char)) by done.
    rewrite Hv. by apply Hr.
  - change (pretty p) with (pretty_N_go (N.pos p) "").
    destruct (pretty_go_head (N.pos p) "" eq_refl) as (c & r & E & _).
    pose proof (digits_value_pretty (N.pos p) "") as Hv. rewrite E in *.
    change ("-" +:+ String c r) with (String "-" (String c r)). unfold Strconv.parse_int. cbv iota beta.
    change (Ascii.eqb "-" "-") with true. cbv iota beta. rewrite Hv. by apply Hr.
Qed.

(** *** Cookies are read back *)

(** Without spaces, quotes and separators, as browsers send values. *)
Definition value_byte (c : ascii) : bool := Cookie.valid_value_byte c && negb (Cookie.is_ascii_space c).
Definition cookie_pair (p : string * string) : string := p.1 +:+ "=" +:+ p.2.
Definition cookie_header (l : list (string * string)) : string := Str.join "; " (cookie_pair <$> l).
Definition cookie_ok (p : string * string) : Prop :=
  Cookie.is_token p.1 = true ∧ Cookie.all_bytes value_byte p.2 = true.

Lemma all_bytes_app p s t : Cookie.all_bytes p (s +:+ t) = Cookie.all_bytes p s && Cookie.all_bytes p t.
Proof. induction s as [|c s IH]; [done|]. cbn. by rewrite IH, andb_assoc. Qed.

Lemma all_bytes_impl p q s :
  (∀ c, p c = true → q c = true) → Cookie.all_bytes p s = true → Cookie.all_bytes q s = true.
Proof.
  intros Hpq. induction s as [|c s IH]; [done|]. cbn. intros [H1 H2]%andb_true_iff.
  apply andb_true_iff. auto.
Qed.

Definition every_byte (p : ascii → bool) : bool :=
  forallb (λ n, p (ascii_of_nat n)) (seq 0 256).
Lemma every_byte_spec p c : every_byte p = true → p c = true.
Proof.
  unfold every_byte. rewrite forallb_forall. intros H.
  rewrite <- (ascii_nat_embedding c). apply H, in_seq. pose proof (nat_ascii_bounded c). lia.
Qed.

Lemma byte_impl p q : every_byte (λ c, implb (p c) (q c)) = true → ∀ c, p c = true → q c = true.
Proof. intros H c Hp. pose proof (every_byte_spec _ c H) as Hc. cbn in Hc. by rewrite Hp in Hc. Qed.

Definition not_space (c : ascii) : bool := negb (Cookie.is_ascii_space c).
Definition not_byte (b c : ascii) : bool := negb (Ascii.eqb c b).

Lemma trim_right_clean s : Cookie.all_bytes not_space s = true → Cookie.trim_right s = s.
Proof.
  induction s as [|c s IH]; [done|]. cbn. intros [Hc Hs]%andb_true_iff. rewrite IH by done.
  unfold not_space in Hc. destruct s; [|done]. by destruct (Cookie.is_ascii_space c).
Qed.

Lemma trim_right_app s t : Cookie.trim_right t = t → t ≠ "" → Cookie.trim_right (s +:+ t) = s +:+ t.
Proof.
  intros Ht Hne. induction s as [|c s IH]; [done|]. cbn [String.append Cookie.trim_right].
  rewrite IH. by destruct s, t.
Qed.

Lemma trim_left_clean c s : Cookie.is_ascii_space c = false → Cookie.trim_left (String c s) = String c s.
Proof. intros Hc. cbn. by rewrite Hc. Qed.

Lemma contains_byte_all b s : Cookie.all_bytes (not_byte b) s = true → Str.contains_byte b s = false.
Proof.
  induction s as [|c s IH]; [done|]. cbn. unfold not_byte at 1. intros [Hc Hs]%andb_true_iff.
  rewrite IH by done. by destruct (Ascii.eqb c b).
Qed.

Lemma cut_clean n v : Cookie.all_bytes (not_byte "=") n = true → Text.cut "=" (n +:+ String "=" v) = (n, v).
Proof.
  induction n as [|c n IH]; [done|]. cbn. unfold not_byte at 1. intros [Hc Hn]%andb_true_iff.
  rewrite IH by done. by destruct (Ascii.eqb c "=").
Qed.

Lemma token_clean p n : (∀ c, Cookie.is_token_byte c = true → p c = true) →
  Cookie.is_token n = true → Cookie.all_bytes p n = true ∧ n ≠ "".
Proof.
  intros Hp. unfold Cookie.is_token. intros [H1 H2]%andb_true_iff.
  split; [by eapply all_bytes_impl|]. by destruct n.
Qed.

Lemma pair_clean p :
  cookie_ok p → Cookie.all_bytes not_space (cookie_pair p) = true ∧
    Str.contains_byte ";" (cookie_pair p) = false ∧ cookie_pair p ≠ "".
Proof.
  intros [Hn Hv]. destruct p as [n v]. unfold cookie_pair. cbn [fst snd] in *.
  assert (∀ q, (∀ c, Cookie.is_token_byte c = true → q c = true) → q "="%char = true →
    (∀ c, value_byte c = true → q c = true) → Cookie.all_bytes q (n +:+ "=" +:+ v) = true) as Hall.
  { intros q H1 H2 H3. rewrite !all_bytes_app. cbn. rewrite H2, (all_bytes_impl _ q v H3 Hv).
    by rewrite (proj1 (token_clean q n H1 Hn)). }
  split; [|split].
  - apply Hall; [apply byte_impl; vm_compute; reflexivity|done|apply byte_impl; vm_compute; reflexivity].
  - apply contains_byte_all, Hall; [apply byte_impl; vm_compute; reflexivity|done|].
    apply byte_impl; vm_compute; reflexivity.
  - by destruct (token_clean (λ _, true) n (λ _ _, eq_refl) Hn) as [_ Hne], n.
Qed.

Lemma unquote_clean v : Cookie.all_bytes value_byte v = true → Cookie.parse_value v = Some v.
Proof.
  intros Hv. unfold Cookie.parse_value. assert (Cookie.unquote v = v) as ->.
  { destruct v as [|c r]; [done|]. cbn in Hv. apply andb_true_iff in Hv as [Hc _].
    unfold Cookie.unquote. assert ((byte_of c =? 34)%Z = false) as ->; [|by rewrite andb_false_r].
    apply negb_true_iff. revert c Hc. apply byte_impl. vm_compute. reflexivity. }
  rewrite (all_bytes_impl value_byte); [done| |done]. by intros c [? _]%andb_true_iff.
Qed.

Lemma part_value_pair name p sp :
  cookie_ok p → sp = "" ∨ sp = " " →
  Cookie.part_value name (sp +:+ cookie_pair p) = if decide (p.1 = name) then Some p.2 else None.
Proof.
  intros Hp Hsp. destruct (pair_clean p Hp) as (Hs & _ & Hne). unfold Cookie.part_value.
  assert (Cookie.trim (sp +:+ cookie_pair p) = cookie_pair p) as ->.
  { unfold Cookie.trim. assert (Cookie.trim_left (cookie_pair p) = cookie_pair p) as Hl.
    { destruct (cookie_pair p) as [|c s]; [done|]. cbn in Hs. apply andb_true_iff in Hs as [Hc _].
      apply trim_left_clean. unfold not_space in Hc. by destruct (Cookie.is_ascii_space c). }
    destruct Hsp as [-> | ->]; cbn -[Cookie.trim_left]; [|cbn]; rewrite Hl; by apply trim_right_clean. }
  rewrite (proj2 (String.eqb_neq _ _) Hne). destruct p as [n v], Hp as [Hn Hv]. unfold cookie_pair. cbn [fst snd] in *.
  change ("=" +:+ v) with (String "=" v).
  destruct (token_clean (not_byte "=") n ltac:(apply byte_impl; vm_compute; reflexivity) Hn) as [Hc _].
  rewrite cut_clean by done. destruct (token_clean not_space n ltac:(apply byte_impl; vm_compute; reflexivity) Hn) as [Hns Hnn].
  assert (Cookie.trim n = n) as ->.
  { unfold Cookie.trim. destruct n as [|c s]; [done|]. rewrite trim_left_clean; [by apply trim_right_clean|].
    cbn in Hns. apply andb_true_iff in Hns as [Hns _]. unfold not_space in Hns. by destruct (Cookie.is_ascii_space c). }
  rewrite Hn. destruct (decide (n = name)) as [->|Hne'].
  - rewrite String.eqb_refl. by apply unquote_clean.
  - by rewrite (proj2 (String.eqb_neq _ _) Hne').
Qed.

Lemma header_split p l :
  Forall cookie_ok (p :: l) →
  Str.split_on ";" (cookie_header (p :: l)) = cookie_pair p :: ((λ q, " " +:+ cookie_pair q) <$> l).
Proof.
  intros Hl. assert (cookie_header (p :: l) =
    Str.join ";" (cookie_pair p :: ((λ q, " " +:+ cookie_pair q) <$> l))) as ->.
  { clear Hl. revert p. induction l as [|q l IH]; intros p; [done|].
    change (cookie_header (p :: q :: l)) with (cookie_pair p +:+ ";" +:+ " " +:+ cookie_header (q :: l)).
    rewrite IH. cbn [fmap list_fmap]. by destruct l. }
  apply Str.split_on_join, Forall_cons. apply Forall_cons in Hl as [Hp Hl]. split.
  - by destruct (pair_clean p Hp) as (_ & ? & _).
  - apply Forall_fmap. eapply Forall_impl; [exact Hl|]. intros q Hq. cbn.
    by destruct (pair_clean q Hq) as (_ & ? & _).
Qed.

Lemma header_trim l : Forall cookie_ok l → Cookie.trim (cookie_header l) = cookie_header l.
Proof.
  intros Hl. unfold Cookie.trim. destruct l as [|p l]; [done|].
  assert (Cookie.trim_left (cookie_header (p :: l)) = cookie_header (p :: l)) as ->.
  { apply Forall_cons in Hl as [Hp _]. destruct (pair_clean p Hp) as (Hs & _ & Hne).
    assert (∃ r, cookie_header (p :: l) = cookie_pair p +:+ r) as [r ->].
    { destruct l as [|q l]; [exists ""; symmetry; apply Str.app_nil_r|by eexists]. }
    destruct (cookie_pair p) as [|c s]; [done|]. cbn in Hs. apply andb_true_iff in Hs as [Hc _].
    apply (trim_left_clean c (s +:+ r)). unfold not_space in Hc. by destruct (Cookie.is_ascii_space c). }
  revert p Hl. induction l as [|q l IH]; intros p Hl.
  - apply Forall_cons in Hl as [Hp _]. apply trim_right_clean. by destruct (pair_clean p Hp) as (? & _).
  - apply Forall_cons in Hl as [_ Hl].
    change (cookie_header (p :: q :: l)) with (cookie_pair p +:+ "; " +:+ cookie_header (q :: l)).
    rewrite Str.app_assoc. apply trim_right_app; [by apply IH|].
    apply Forall_cons in Hl as [Hq _]. destruct (pair_clean q Hq) as (_ & _ & Hne). intros E. apply Hne.
    destruct l; [done|]. change (cookie_pair q +:+ "; " +:+ cookie_header (p0 :: l) = "") in E.
    by destruct (cookie_pair q).
Qed.

Lemma header_count l :
  Forall cookie_ok l → Str.count_byte ";" (cookie_header l) = pred (length l).
Proof.
  intros Hl. unfold cookie_header. rewrite Str.count_byte_join, length_fmap.
  change (Str.count_byte ";" "; ") with 1%nat. rewrite Nat.mul_1_r.
  assert (sum_list (Str.count_byte ";" <$> (cookie_pair <$> l)) = 0%nat) as ->; [|done].
  induction Hl as [|p l Hp _ IH]; [done|]. cbn. fold (fmap (M := list) cookie_pair l). rewrite IH.
  destruct (pair_clean p Hp) as (_ & Hc & _).
  assert (∀ s, Str.contains_byte ";" s = false → Str.count_byte ";" s = 0%nat) as ->; [|done|done].
  intros s. induction s as [|c s IHs]; [done|]. cbn -[Ascii.eqb]. intros [Hb Hs]%orb_false_iff.
  by rewrite Hb, IHs.
Qed.

Lemma read_cookies_header name l :
  Forall cookie_ok l → (length l ≤ 3000)%nat →
  Cookie.read_cookies name (cookie_header l) = (filter (λ p, p.1 = name) l).*2.
Proof.
  intros Hl Hlen. unfold Cookie.read_cookies. rewrite header_count, header_trim by done.
  rewrite (proj2 (Nat.ltb_ge _ _)) by (destruct l; cbn in *; lia).
  destruct l as [|p l]; [done|]. rewrite header_split by done.
  assert (∀ l, Forall cookie_ok l → omap (Cookie.part_value name) ((λ q, " " +:+ cookie_pair q) <$> l) =
    (filter (λ p, p.1 = name) l).*2) as Htail.
  { induction 1 as [|q k Hq _ IH]; [done|]. cbn [fmap list_fmap omap list_omap].
    rewrite (part_value_pair name q " ") by auto. fold (fmap (M := list) (λ q, " " +:+ cookie_pair q) k).
    fold (omap (M := list) (Cookie.part_value name)). rewrite filter_cons, IH.
    by destruct (decide (q.1 = name)). }
  apply Forall_cons in Hl as [Hp Hl]. cbn [omap list_omap].
  fold (omap (M := list) (Cookie.part_value name)).
  change (cookie_pair p) with ("" +:+ cookie_pair p) at 1. rewrite (part_value_pair name p "") by auto.
  rewrite filter_cons, Htail by done. by destruct (decide (p.1 = name)).
Qed.
