(* ===== verification/Sha256.v ===== *)
(** [crypto/sha256] and [hex.EncodeToString]: the hash under which a personal
    access token is stored. *)
From S2P Require Import Prelude GoLib.
Open Scope Z_scope.

Module Sha256.
Definition word (z : Z) : Z := z mod 2 ^ 32.
Definition add (x y : Z) : Z := word (x + y).
Definition rotr (n x : Z) : Z := Z.lor (Z.shiftr x n) (word (Z.shiftl x (32 - n))).
Definition lnot32 (x : Z) : Z := Z.lxor x (2 ^ 32 - 1).

(** The fractional parts of the cube roots of the first 64 primes, in 32 bits. *)
Definition round_constants : list Z :=
  [1116352408; 1899447441; 3049323471; 3921009573; 961987163; 1508970993; 2453635748; 2870763221;
   3624381080; 310598401; 607225278; 1426881987; 1925078388; 2162078206; 2614888103; 3248222580;
   3835390401; 4022224774; 264347078; 604807628; 770255983; 1249150122; 1555081692; 1996064986;
   2554220882; 2821834349; 2952996808; 3210313671; 3336571891; 3584528711; 113926993; 338241895;
   666307205; 773529912; 1294757372; 1396182291; 1695183700; 1986661051; 2177026350; 2456956037;
   2730485921; 2820302411; 3259730800; 3345764771; 3516065817; 3600352804; 4094571909; 275423344;
   430227734; 506948616; 659060556; 883997877; 958139571; 1322822218; 1537002063; 1747873779;
   1955562222; 2024104815; 2227730452; 2361852424; 2428436474; 2756734187; 3204031479; 3329325298].

(** The same of the square roots of the first 8 primes. *)
Definition initial : list Z :=
  [1779033703; 3144134277; 1013904242; 2773480762; 1359893119; 2600822924; 528734635; 1541459225].

Fixpoint bytes_of (s : string) : list Z :=
  match s with EmptyString => [] | String c r => byte_of c :: bytes_of r end.

(** [n] as [k] bytes, the highest first. *)
Fixpoint big_endian (k : nat) (n : Z) : list Z :=
  match k with O => [] | S k => big_endian k (n / 256) ++ [n mod 256] end.

(** One bit, zeros, and the length in bits, up to whole blocks of 64 bytes. *)
Definition padded (l : list Z) : list Z :=
  let n := Z.of_nat (length l) in
  l ++ 128 :: repeat 0 (Z.to_nat ((55 - n) mod 64)) ++ big_endian 8 (8 * n).

Fixpoint words_of (l : list Z) : list Z :=
  match l with
  | a :: b :: c :: d :: l => (((a * 256 + b) * 256 + c) * 256 + d) :: words_of l
  | _ => []
  end.

(** The message schedule, the latest word first. *)
Definition next_word (w : list Z) : Z :=
  let x := nth 14 w 0 in let y := nth 1 w 0 in
  let s0 := Z.lxor (Z.lxor (rotr 7 x) (rotr 18 x)) (Z.shiftr x 3) in
  let s1 := Z.lxor (Z.lxor (rotr 17 y) (rotr 19 y)) (Z.shiftr y 10) in
  add (add (nth 15 w 0) s0) (add (nth 6 w 0) s1).
Definition schedule (block : list Z) : list Z :=
  rev (Nat.iter 48 (λ w, next_word w :: w) (rev block)).

Definition round (st : list Z) (kw : Z * Z) : list Z :=
  match st with
  | [a; b; c; d; e; f; g; h] =>
      let s1 := Z.lxor (Z.lxor (rotr 6 e) (rotr 11 e)) (rotr 25 e) in
      let ch := Z.lxor (Z.land e f) (Z.land (lnot32 e) g) in
      let t1 := add (add h s1) (add ch (add kw.1 kw.2)) in
      let s0 := Z.lxor (Z.lxor (rotr 2 a) (rotr 13 a)) (rotr 22 a) in
      let maj := Z.lxor (Z.lxor (Z.land a b) (Z.land a c)) (Z.land b c) in
      [add t1 (add s0 maj); a; b; c; add d t1; e; f; g]
  | _ => st
  end.

Definition compress (st block : list Z) : list Z :=
  zip_with add st (fold_left round (zip round_constants (schedule block)) st).

(** Block by block, with as much fuel as there are words. *)
Fixpoint digest (fuel : nat) (st ws : list Z) : list Z :=
  match fuel, ws with
  | S fuel, _ :: _ => digest fuel (compress st (take 16 ws)) (drop 16 ws)
  | _, _ => st
  end.
Definition Sum256 (s : string) : list Z :=
  let ws := words_of (padded (bytes_of s)) in
  digest (length ws) initial ws ≫= big_endian 4.
End Sha256.

Module Hex.
Definition digit (n : Z) : ascii := ascii_of_nat (Z.to_nat (if n <? 10 then 48 + n else 87 + n)).
Fixpoint EncodeToString (l : list Z) : string :=
  match l with
  | [] => EmptyString
  | b :: l => String (digit (b / 16)) (String (digit (b mod 16)) (EncodeToString l))
  end.
End Hex.

Example sha256_abc :
  Hex.EncodeToString (Sha256.Sum256 "abc") =
    "ba7816bf8f01cfea414140de5dae2223b00361a396177a9cb410ff61f20015ad"%string.
Proof. vm_compute. reflexivity. Qed.
Example sha256_two_blocks :
  Hex.EncodeToString (Sha256.Sum256 "abcdbcdecdefdefgefghfghighijhijkijkljklmklmnlmnomnopnopq") =
    "248d6a61d20638b8e5c026930c3e6039a33ce45964ff2167f6ecedd419db06c1"%string.
Proof. vm_compute. reflexivity. Qed.

Lemma sum256_length st : ∀ fuel ws, length st = 8%nat → length (Sha256.digest fuel st ws) = 8%nat.
Proof.
  intros fuel. revert st. induction fuel as [|fuel IH]; intros st ws Hst; [done|].
  destruct ws as [|w ws]; [done|]. cbn [Sha256.digest]. apply IH.
  unfold Sha256.compress. rewrite length_zip_with.
  assert (∀ l st', length st' = 8%nat → length (fold_left Sha256.round l st') = 8%nat) as Hround.
  { induction l as [|kw l IHl]; intros st' H'; [done|]. cbn. apply IHl.
    repeat (destruct st' as [|? st']; try done). }
  rewrite Hround by done. lia.
Qed.

(** A hash is never empty. *)
Lemma hash_nonempty s : Hex.EncodeToString (Sha256.Sum256 s) ≠ ""%string.
Proof.
  unfold Sha256.Sum256.
  pose proof (sum256_length Sha256.initial (length (Sha256.words_of (Sha256.padded (Sha256.bytes_of s))))
    (Sha256.words_of (Sha256.padded (Sha256.bytes_of s))) eq_refl) as Hl.
  destruct (Sha256.digest _ _ _) as [|x l]; done.
Qed.
