(* ===== verification/FilterIR.v ===== *)
(** * Filter intermediate representation and schemas

    [internal/filter/ir.go] (the condition tree a CEL filter is compiled to)
    and [internal/filter/schema.go] (the exposed identifiers, how each is
    stored, and the two schemas of the program). *)

From S2P Require Import Prelude GoLib.
From Stdlib Require Import SpecFloat.

(** ** Literals: the dynamic types a Go [any] of the filter package takes *)

Inductive value :=
| VNil
| VBool (b : bool)
| VString (s : string)
| VInt (z : Z)
| VInt32 (z : Z)
| VInt64 (z : Z)
| VUint32 (z : Z)
| VUint64 (z : Z)
| VFloat32 (f : spec_float)
| VFloat64 (f : spec_float).

(** ** ir.go *)

Inductive LogicalOperator := LogicalAnd | LogicalOr.

Inductive ComparisonOperator :=
| CompareEq | CompareNeq | CompareLt | CompareLte | CompareGt | CompareGte.

Inductive TextMatchMode := TextMatchContains | TextMatchPrefix | TextMatchSuffix.

Inductive ComprehensionKind :=
| ComprehensionExists | ComprehensionAll | ComprehensionExistsOne.

(** [FieldRef], [LiteralValue], [FunctionValue] and [FieldAccessorValue]. *)
Inductive ValueExpr :=
| FieldRef (name : string)
| LiteralValue (v : value)
| FunctionValue (name : string) (args : list ValueExpr)
| FieldAccessorValue (field accessor : string).

Inductive PredicateExpr :=
| StartsWithPredicate (prefix : string)
| EndsWithPredicate (suffix : string)
| ContainsPredicate (substring : string)
| EqualsPredicate (v : string).

Inductive Condition :=
| LogicalCondition (op : LogicalOperator) (left right : Condition)
| NotCondition (e : Condition)
| FieldPredicateCondition (field : string)
| ComparisonCondition (left : ValueExpr) (op : ComparisonOperator) (right : ValueExpr)
| InCondition (left : ValueExpr) (values : list ValueExpr)
| ElementInCondition (element : ValueExpr) (field : string)
| TextMatchCondition (field : string) (mode : TextMatchMode) (v : string)
| RegexCondition (field pattern : string)
| ConstantCondition (v : bool)
| ListComprehensionCondition (kind : ComprehensionKind) (field iter_var : string)
    (predicate : PredicateExpr).

(** The string each comparison operator is declared as. *)
Definition comparison_operator_string (op : ComparisonOperator) : string :=
  match op with
  | CompareEq => "="
  | CompareNeq => "!="
  | CompareLt => "<"
  | CompareLte => "<="
  | CompareGt => ">"
  | CompareGte => ">="
  end.

#[export] Instance LogicalOperator_eq_dec : EqDecision LogicalOperator.
Proof. solve_decision. Defined.
#[export] Instance ComparisonOperator_eq_dec : EqDecision ComparisonOperator.
Proof. solve_decision. Defined.
#[export] Instance TextMatchMode_eq_dec : EqDecision TextMatchMode.
Proof. solve_decision. Defined.
#[export] Instance ComprehensionKind_eq_dec : EqDecision ComprehensionKind.
Proof. solve_decision. Defined.

Definition comparison_operator_of_string (s : string) : option ComparisonOperator :=
  if String.eqb s "=" then Some CompareEq
  else if String.eqb s "!=" then Some CompareNeq
  else if String.eqb s "<" then Some CompareLt
  else if String.eqb s "<=" then Some CompareLte
  else if String.eqb s ">" then Some CompareGt
  else if String.eqb s ">=" then Some CompareGte
  else None.

#[export] Instance ComparisonOperator_countable : Countable ComparisonOperator.
Proof.
  apply (inj_countable comparison_operator_string comparison_operator_of_string).
  by intros [].
Defined.

(** ** schema.go *)

(** The dialect is a Go string; any other string than the three named ones
    reaches the error branches of the renderer. *)
Inductive DialectName :=
| DialectSQLite | DialectMySQL | DialectPostgres | DialectOther (name : string).

Definition dialect_string (d : DialectName) : string :=
  match d with
  | DialectSQLite => "sqlite"
  | DialectMySQL => "mysql"
  | DialectPostgres => "postgres"
  | DialectOther n => n
  end.

#[export] Instance DialectName_eq_dec : EqDecision DialectName.
Proof. solve_decision. Defined.
#[export] Instance DialectName_countable : Countable DialectName.
Proof.
  apply (inj_countable
    (λ d, match d with
          | DialectSQLite => inl 0%nat
          | DialectMySQL => inl 1%nat
          | DialectPostgres => inl 2%nat
          | DialectOther n => inr n
          end : nat + string)
    (λ c, match c with
          | inl 0%nat => Some DialectSQLite
          | inl 1%nat => Some DialectMySQL
          | inl 2%nat => Some DialectPostgres
          | inl _ => None
          | inr n => Some (DialectOther n)
          end)).
  by intros [].
Defined.

Inductive FieldType := FieldTypeString | FieldTypeInt | FieldTypeBool | FieldTypeTimestamp.

Inductive FieldKind :=
| FieldKindScalar | FieldKindBoolColumn | FieldKindJSONBool
| FieldKindJSONExists | FieldKindJSONList | FieldKindVirtualAlias.

#[export] Instance FieldType_eq_dec : EqDecision FieldType.
Proof. solve_decision. Defined.
#[export] Instance FieldKind_eq_dec : EqDecision FieldKind.
Proof. solve_decision. Defined.

Record Column := mkColumn { col_table : string; col_name : string }.

Record Field := mkField {
  f_name : string;
  f_kind : FieldKind;
  f_type : FieldType;
  f_column : Column;
  f_json_path : list string;
  f_alias_for : string;
  f_supports_contains : bool;
  f_expressions : gmap DialectName string;
  (** [None] is the nil map: every operator is allowed. *)
  f_allowed_ops : option (gmap ComparisonOperator bool);
}.

(** [EnvOptions] configure cel-go and are not part of the state used here. *)
Record Schema := mkSchema { s_name : string; s_fields : gmap string Field }.

(** [Schema.Field]. *)
Definition schema_field (s : Schema) (name : string) : option Field := s_fields s !! name.

(** [Schema.ResolveAlias]. *)
Definition resolve_alias (s : Schema) (name : string) : option Field :=
  field ← s_fields s !! name;
  if decide (f_kind field = FieldKindVirtualAlias)
  then s_fields s !! f_alias_for field
  else Some field.

(** [fmt.Sprintf(format, arg)] with one string argument and the verbs [%s],
    [%[1]s] and [%%], which are the ones the schemas use.  [next] is the number
    of the next argument, [reordered] whether an explicit index was used. *)
Fixpoint sprintf1_from (next : nat) (reordered : bool) (fmt arg : string) : string :=
  match fmt with
  | EmptyString =>
      if negb reordered && Nat.eqb next 1
      then "%!(EXTRA string=" +:+ arg +:+ ")" else EmptyString
  | String "%" (String "s" r) =>
      if Nat.eqb next 1 then arg +:+ sprintf1_from 2 reordered r arg
      else "%!s(MISSING)" +:+ sprintf1_from next reordered r arg
  | String "%" (String "[" (String "1" (String "]" (String "s" r)))) =>
      arg +:+ sprintf1_from 2 true r arg
  | String "%" (String "%" r) => String "%" (sprintf1_from next reordered r arg)
  | String c r => String c (sprintf1_from next reordered r arg)
  end.
Definition sprintf1 (fmt arg : string) : string := sprintf1_from 1 false fmt arg.

(** [qualifyColumn]. *)
Definition qualifyColumn (d : DialectName) (col : Column) : string :=
  match d with
  | DialectPostgres => col_table col +:+ "." +:+ col_name col
  | _ => "`" +:+ col_table col +:+ "`.`" +:+ col_name col +:+ "`"
  end.

(** [Field.columnExpr]. *)
Definition columnExpr (f : Field) (d : DialectName) : string :=
  let base := qualifyColumn d (f_column f) in
  match f_expressions f !! d with
  | Some expr => if String.eqb expr "" then base else sprintf1 expr base
  | None => base
  end.

(** *** The two schemas *)

Definition eq_ops : option (gmap ComparisonOperator bool) :=
  Some {[ CompareEq := true; CompareNeq := true ]}.

(** A field with the zero values of the attributes its literal leaves out. *)
Definition zero_field (name : string) (kind : FieldKind) (type : FieldType) : Field :=
  mkField name kind type (mkColumn "" "") [] "" false ∅ None.

Definition set_column (f : Field) (table name : string) : Field :=
  mkField (f_name f) (f_kind f) (f_type f) (mkColumn table name) (f_json_path f)
    (f_alias_for f) (f_supports_contains f) (f_expressions f) (f_allowed_ops f).
Definition set_path (f : Field) (path : list string) : Field :=
  mkField (f_name f) (f_kind f) (f_type f) (f_column f) path
    (f_alias_for f) (f_supports_contains f) (f_expressions f) (f_allowed_ops f).
Definition set_alias (f : Field) (alias : string) : Field :=
  mkField (f_name f) (f_kind f) (f_type f) (f_column f) (f_json_path f)
    alias (f_supports_contains f) (f_expressions f) (f_allowed_ops f).
Definition set_contains (f : Field) : Field :=
  mkField (f_name f) (f_kind f) (f_type f) (f_column f) (f_json_path f)
    (f_alias_for f) true (f_expressions f) (f_allowed_ops f).
Definition set_expressions (f : Field) (sqlite mysql postgres : string) : Field :=
  mkField (f_name f) (f_kind f) (f_type f) (f_column f) (f_json_path f)
    (f_alias_for f) (f_supports_contains f)
    {[ DialectSQLite := sqlite; DialectMySQL := mysql; DialectPostgres := postgres ]}
    (f_allowed_ops f).
Definition set_ops (f : Field) (ops : option (gmap ComparisonOperator bool)) : Field :=
  mkField (f_name f) (f_kind f) (f_type f) (f_column f) (f_json_path f)
    (f_alias_for f) (f_supports_contains f) (f_expressions f) ops.

Definition timestamp_field (name table column : string) : Field :=
  set_expressions (set_column (zero_field name FieldKindScalar FieldTypeTimestamp) table column)
    "%s" "UNIX_TIMESTAMP(%s)" "%s".

Definition json_bool_field (name key : string) : Field :=
  set_ops (set_path (set_column (zero_field name FieldKindJSONBool FieldTypeBool) "memo" "payload")
    ["property"; key]) eq_ops.

(** [NewSchema]: the memo filter schema. *)
Definition NewSchema : Schema := mkSchema "memo" (list_to_map [
  ("content",
    set_contains (set_column (zero_field "content" FieldKindScalar FieldTypeString) "memo" "content"));
  ("creator",
    set_ops (set_expressions
      (set_column (zero_field "creator" FieldKindScalar FieldTypeString) "memo_creator" "username")
      "('users/' || %s)" "CONCAT('users/', %s)" "('users/' || %s)") eq_ops);
  ("creator_id",
    set_ops (set_column (zero_field "creator_id" FieldKindScalar FieldTypeInt) "memo" "creator_id")
      eq_ops);
  ("created_ts", timestamp_field "created_ts" "memo" "created_ts");
  ("updated_ts", timestamp_field "updated_ts" "memo" "updated_ts");
  ("pinned",
    set_ops (set_column (zero_field "pinned" FieldKindBoolColumn FieldTypeBool) "memo" "pinned")
      eq_ops);
  ("visibility",
    set_ops (set_column (zero_field "visibility" FieldKindScalar FieldTypeString) "memo" "visibility")
      eq_ops);
  ("space",
    set_ops (set_expressions
      (set_column (zero_field "space" FieldKindScalar FieldTypeString) "memo_space" "uid")
      "CASE WHEN `memo`.`space_id` IS NULL THEN NULL WHEN %[1]s IS NULL THEN '' ELSE ('spaces/' || %[1]s) END"
      "CASE WHEN `memo`.`space_id` IS NULL THEN NULL WHEN %[1]s IS NULL THEN '' ELSE CONCAT('spaces/', %[1]s) END"
      "CASE WHEN memo.space_id IS NULL THEN NULL WHEN %[1]s IS NULL THEN '' ELSE ('spaces/' || %[1]s) END")
      (Some {[ CompareEq := true ]}));
  ("tags",
    set_path (set_column (zero_field "tags" FieldKindJSONList FieldTypeString) "memo" "payload")
      ["tags"]);
  ("tag", set_alias (zero_field "tag" FieldKindVirtualAlias FieldTypeString) "tags");
  ("has_task_list", json_bool_field "has_task_list" "hasTaskList");
  ("has_link", json_bool_field "has_link" "hasLink");
  ("has_code", json_bool_field "has_code" "hasCode");
  ("has_incomplete_tasks", json_bool_field "has_incomplete_tasks" "hasIncompleteTasks");
  ("has_location",
    set_ops (set_path
      (set_column (zero_field "has_location" FieldKindJSONExists FieldTypeBool) "memo" "payload")
      ["location"]) eq_ops)
]).

(** [NewAttachmentSchema]. *)
Definition NewAttachmentSchema : Schema := mkSchema "attachment" (list_to_map [
  ("filename",
    set_contains
      (set_column (zero_field "filename" FieldKindScalar FieldTypeString) "attachment" "filename"));
  ("mime_type",
    set_contains
      (set_column (zero_field "mime_type" FieldKindScalar FieldTypeString) "attachment" "type"));
  ("create_time", timestamp_field "create_time" "attachment" "created_ts");
  ("memo_id",
    set_ops (set_column (zero_field "memo_id" FieldKindScalar FieldTypeInt) "attachment" "memo_id")
      eq_ops);
  ("space",
    set_ops (set_expressions
      (set_column (zero_field "space" FieldKindScalar FieldTypeString) "attachment_space" "uid")
      "CASE WHEN `attachment`.`memo_id` IS NULL OR `memo`.`space_id` IS NULL THEN NULL WHEN %[1]s IS NULL THEN '' ELSE ('spaces/' || %[1]s) END"
      "CASE WHEN `attachment`.`memo_id` IS NULL OR `memo`.`space_id` IS NULL THEN NULL WHEN %[1]s IS NULL THEN '' ELSE CONCAT('spaces/', %[1]s) END"
      "CASE WHEN attachment.memo_id IS NULL OR memo.space_id IS NULL THEN NULL WHEN %[1]s IS NULL THEN '' ELSE ('spaces/' || %[1]s) END")
      (Some {[ CompareEq := true ]}))
]).

(** ** Induction on value expressions, through the argument lists *)

Section ValueExpr_induction.
Context (P : ValueExpr → Prop).
Context (HField : ∀ n, P (FieldRef n)) (HLit : ∀ v, P (LiteralValue v)).
Context (HFun : ∀ n args, Forall P args → P (FunctionValue n args)).
Context (HAcc : ∀ f a, P (FieldAccessorValue f a)).

Fixpoint ValueExpr_nested_ind (e : ValueExpr) : P e :=
  match e with
  | FieldRef n => HField n
  | LiteralValue v => HLit v
  | FunctionValue n args =>
      HFun n args
        ((fix go (l : list ValueExpr) : Forall P l :=
            match l with
            | [] => Forall_nil_2 P
            | x :: l => Forall_cons_2 P x l (ValueExpr_nested_ind x) (go l)
            end) args)
  | FieldAccessorValue f a => HAcc f a
  end.
End ValueExpr_induction.

(** Every alias of the two schemas resolves to a field that is not an alias. *)
Definition aliases_resolve (s : Schema) : Prop :=
  ∀ n f, s_fields s !! n = Some f → f_kind f = FieldKindVirtualAlias →
    ∃ g, resolve_alias s n = Some g ∧ f_kind g ≠ FieldKindVirtualAlias.
