(* ===== verification/FilterParser.v ===== *)
(** * From the CEL syntax tree to the condition tree

    [internal/filter/parser.go].  The type-checked CEL tree comes from cel-go
    (not part of the repository); it is the protobuf message [expr.v1alpha1.Expr],
    modelled by the constructors the parser distinguishes. *)

From S2P Require Import Prelude GoLib GoTime FilterIR.
From Stdlib Require Import SpecFloat.

(** ** The CEL syntax tree *)

Inductive constant :=
| CNull
| CBool (b : bool)
| CInt64 (z : Z)
| CUint64 (z : Z)
| CDouble (f : spec_float)
| CString (s : string)
(** bytes, the deprecated duration and timestamp constants, or unset *)
| COther.

Inductive expr :=
| EConst (c : constant)
| EIdent (name : string)
| ECall (c : call)
| EList (elements : list expr)
| EComprehension (c : comprehension)
(** select, struct, or unset *)
| EOther
with call :=
| Call (target : option expr) (function : string) (args : list expr)
with comprehension :=
| Comprehension (iter_var : string) (iter_range accu_init loop_step : expr).

Definition call_target (c : call) : option expr := let 'Call t _ _ := c in t.
Definition call_function (c : call) : string := let 'Call _ f _ := c in f.
Definition call_args (c : call) : list expr := let 'Call _ _ a := c in a.

(** The generated getters, which are nil-safe. *)
Definition get_ident (e : expr) : option string :=
  match e with EIdent n => Some n | _ => None end.
Definition get_call (e : expr) : option call :=
  match e with ECall c => Some c | _ => None end.
Definition get_list (e : expr) : option (list expr) :=
  match e with EList l => Some l | _ => None end.
Definition get_const (e : expr) : option constant :=
  match e with EConst c => Some c | _ => None end.
Definition get_bool_value (c : constant) : bool :=
  match c with CBool b => b | _ => false end.

Record parseContext := mkParseContext { pc_schema : Schema; pc_now : Time }.

(** ** Literals and identifiers *)

Definition getIdentName (e : expr) : result error string :=
  match get_ident e with
  | Some n => Ok n
  | None => Err (errorf0 "expression is not an identifier")
  end.

Definition getConstValue (e : expr) : result error value :=
  match e with
  | EConst (CString s) => Ok (VString s)
  | EConst (CInt64 z) => Ok (VInt64 z)
  | EConst (CUint64 z) => Ok (VInt64 (GoInt.int64 z))
  | EConst (CDouble f) => Ok (VFloat64 f)
  | EConst (CBool b) => Ok (VBool b)
  | EConst CNull => Ok VNil
  | EConst COther => Err (errorf0 "unsupported constant %T")
  | _ => Err (errorf0 "expression is not a literal")
  end.

Definition unknown_identifier (n : string) : error := Errorf "unknown identifier %q" [n].

(** ** Constant folding *)

(** [evaluateBoolExpr]; [None] stands for [ok = false]. *)
Fixpoint evaluateBoolExpr (e : expr) : result error (option bool) :=
  match getConstValue e with
  | Ok literal =>
      match literal with VBool b => Ok (Some b) | _ => Ok None end
  | Err _ =>
      match e with
      | ECall (Call _ fn args) =>
          if String.eqb fn "!_" then
            match args with
            | [a] =>
                val ← evaluateBoolExpr a;
                match val with Some b => Ok (Some (negb b)) | None => Ok None end
            | _ => Err (errorf0 "NOT expects exactly one argument")
            end
          else Ok None
      | _ => Ok None
      end
  end.

Definition evaluateBool (c : call) : result error (option bool) := evaluateBoolExpr (ECall c).

(** [evaluateTimestamp]: to Unix epoch seconds. *)
Definition evaluateTimestamp (c : call) : result error (option Z) :=
  match call_args c with
  | [a] =>
      v ← wrap_err "timestamp() only supports literal arguments" (getConstValue a);
      match v with
      | VString s =>
          match ParseRFC3339.parse s with
          | Some ts => Ok (Some ts)
          | None => Err (errorf0 "invalid timestamp literal")
          end
      | VInt64 z => Ok (Some z)
      | _ => Err (errorf0 "timestamp() argument must be an RFC3339 string or epoch int")
      end
  | _ => Err (errorf0 "timestamp() expects one argument")
  end.

Section with_platform.
Context `{GoPlatform}.

(** [evaluateDuration]: to a number of seconds. *)
Definition evaluateDuration (c : call) : result error (option Z) :=
  match call_args c with
  | [a] =>
      v ← wrap_err "duration() only supports literal arguments" (getConstValue a);
      match v with
      | VString s =>
          match Duration.parse s with
          | Some d => Ok (Some (Float64.to_int64 (Duration.seconds d)))
          | None => Err (errorf0 "invalid duration literal")
          end
      | _ => Err (errorf0 "duration() argument must be a string")
      end
  | _ => Err (errorf0 "duration() expects one argument")
  end.

Definition is_arithmetic (fn : string) : bool :=
  String.eqb fn "_+_" || String.eqb fn "_-_" || String.eqb fn "_*_"
  || String.eqb fn "_/_" || String.eqb fn "_%_".

(** The inner switch of [evaluateNumeric], on two folded operands. *)
Definition fold_arithmetic (fn : string) (left right : Z) : result error (option Z) :=
  if String.eqb fn "_+_" then Ok (Some (GoInt.add64 left right))
  else if String.eqb fn "_-_" then Ok (Some (GoInt.sub64 left right))
  else if String.eqb fn "_*_" then Ok (Some (GoInt.mul64 left right))
  else if String.eqb fn "_/_" then
    if (right =? 0)%Z then Err (errorf0 "division by zero")
    else q ← GoInt.quot64 left right; Ok (Some q)
  else if String.eqb fn "_%_" then
    if (right =? 0)%Z then Err (errorf0 "modulo by zero")
    else r ← GoInt.rem64 left right; Ok (Some r)
  else Err (Errorf "unsupported arithmetic operator %q" [fn]).

(** [evaluateNumeric]; [None] stands for [ok = false]. *)
Fixpoint evaluateNumeric (e : expr) (now : Time) : result error (option Z) :=
  match getConstValue e with
  | Ok literal =>
      match literal with
      | VInt64 z => Ok (Some z)
      | VFloat64 f => Ok (Some (Float64.to_int64 f))
      | _ => Ok None
      end
  | Err _ =>
      match e with
      | EIdent n => if String.eqb n "now" then Ok (Some (Time.unix now)) else Ok None
      | ECall (Call target fn args) =>
          if String.eqb fn "timestamp" then evaluateTimestamp (Call target fn args)
          else if String.eqb fn "duration" then evaluateDuration (Call target fn args)
          else if is_arithmetic fn then
            match args with
            | [a; b] =>
                left ← evaluateNumeric a now;
                match left with
                | None => Ok None
                | Some l =>
                    right ← evaluateNumeric b now;
                    match right with
                    | None => Ok None
                    | Some r => fold_arithmetic fn l r
                    end
                end
            | _ => Err (errorf0 "arithmetic requires two arguments")
            end
          else Ok None
      | _ => Ok None
      end
  end.

(** ** Timestamp accessors *)

Definition timestampAccessors : gset string :=
  {[ "getFullYear"; "getMonth"; "getDate"; "getDayOfMonth"; "getDayOfWeek";
     "getDayOfYear"; "getHours"; "getMinutes"; "getSeconds" ]}.

Definition isTimestampAccessor (name : string) : bool :=
  bool_decide (name ∈ timestampAccessors).

Definition foldNowAccessor (accessor : string) (now : Time) : Z :=
  let t := Time.utc now in
  if String.eqb accessor "getFullYear" then Time.year t
  else if String.eqb accessor "getMonth" then (Time.month t - 1)%Z
  else if String.eqb accessor "getDate" then Time.day t
  else if String.eqb accessor "getDayOfMonth" then (Time.day t - 1)%Z
  else if String.eqb accessor "getDayOfWeek" then Time.weekday t
  else if String.eqb accessor "getDayOfYear" then (Time.year_day t - 1)%Z
  else if String.eqb accessor "getHours" then Time.hour t
  else if String.eqb accessor "getMinutes" then Time.min t
  else if String.eqb accessor "getSeconds" then Time.sec t
  else 0%Z.

(** [buildTimestampAccessor]; the target is present when it is called. *)
Definition buildTimestampAccessor (target : expr) (fn : string) (args : list expr)
    (pc : parseContext) : result error ValueExpr :=
  targetName ← wrap_err "timestamp accessor requires a field target" (getIdentName target);
  match args with
  | [] =>
      if String.eqb targetName "now" then
        Ok (LiteralValue (VInt64 (foldNowAccessor fn (pc_now pc))))
      else
        match schema_field (pc_schema pc) targetName with
        | None => Err (unknown_identifier targetName)
        | Some field =>
            if decide (f_type field = FieldTypeTimestamp)
            then Ok (FieldAccessorValue targetName fn)
            else Err (Errorf "%s() is only valid on timestamp fields, got %q" [fn; targetName])
        end
  | _ => Err (Errorf "%s() with a timezone argument is not supported" [fn])
  end.

(** ** Value expressions *)

Fixpoint buildValueExpr (e : expr) (pc : parseContext) : result error ValueExpr :=
  match getIdentName e with
  | Ok identName =>
      if String.eqb identName "now" then Ok (LiteralValue (VInt64 (Time.unix (pc_now pc))))
      else match schema_field (pc_schema pc) identName with
           | None => Err (unknown_identifier identName)
           | Some _ => Ok (FieldRef identName)
           end
  | Err _ =>
  match getConstValue e with
  | Ok literal => Ok (LiteralValue literal)
  | Err _ =>
      num ← evaluateNumeric e (pc_now pc);
      match num with
      | Some z => Ok (LiteralValue (VInt64 z))
      | None =>
          bval ← evaluateBoolExpr e;
          match bval with
          | Some b => Ok (LiteralValue (VBool b))
          | None =>
              match e with
              | ECall (Call target fn args) =>
                  match target, isTimestampAccessor fn with
                  | Some t, true => buildTimestampAccessor t fn args pc
                  | _, _ =>
                      if String.eqb fn "size" then
                        match args with
                        | [a] =>
                            arg ← buildValueExpr a pc;
                            Ok (FunctionValue "size" [arg])
                        | _ => Err (errorf0 "size() expects one argument")
                        end
                      else if String.eqb fn "_+_" || String.eqb fn "_-_" || String.eqb fn "_*_" then
                        value ← evaluateNumeric e (pc_now pc);
                        match value with
                        | Some z => Ok (LiteralValue (VInt64 z))
                        | None => Err (errorf0 "unsupported value expression")
                        end
                      else Err (errorf0 "unsupported value expression")
                  end
              | _ => Err (errorf0 "unsupported value expression")
              end
          end
      end
  end
  end.

(** ** Comparisons *)

Definition toComparisonOperator (fn : string) : result error ComparisonOperator :=
  if String.eqb fn "_==_" then Ok CompareEq
  else if String.eqb fn "_!=_" then Ok CompareNeq
  else if String.eqb fn "_<_" then Ok CompareLt
  else if String.eqb fn "_>_" then Ok CompareGt
  else if String.eqb fn "_<=_" then Ok CompareLte
  else if String.eqb fn "_>=_" then Ok CompareGte
  else Err (Errorf "unsupported comparison operator %q" [fn]).

Definition mirrorComparisonOperator (op : ComparisonOperator) : ComparisonOperator :=
  match op with
  | CompareLt => CompareGt
  | CompareLte => CompareGte
  | CompareGt => CompareLt
  | CompareGte => CompareLte
  | CompareEq | CompareNeq => op
  end.

Definition toFloat (v : value) : option spec_float :=
  match v with
  | VInt64 z => Some (Float64.of_Z z)
  | VFloat64 f => Some f
  | _ => None
  end.

(** [asFloats], with [None] for [ok = false]. *)
Definition asFloats (left right : value) : option (spec_float * spec_float) :=
  match toFloat left, toFloat right with
  | Some l, Some r => Some (l, r)
  | _, _ => None
  end.

Definition compare_floats (op : ComparisonOperator) (l r : spec_float) : bool :=
  match op with
  | CompareEq => Float64.eqb l r
  | CompareNeq => negb (Float64.eqb l r)
  | CompareLt => Float64.ltb l r
  | CompareLte => Float64.leb l r
  | CompareGt => Float64.ltb r l
  | CompareGte => Float64.leb r l
  end.

Definition compare_strings (op : ComparisonOperator) (l r : string) : bool :=
  match op with
  | CompareEq => String.eqb l r
  | CompareNeq => negb (String.eqb l r)
  | CompareLt => String.ltb l r
  | CompareLte => String.leb l r
  | CompareGt => String.ltb r l
  | CompareGte => String.leb r l
  end.

Definition compareLiterals (left : value) (op : ComparisonOperator) (right : value)
  : result error bool :=
  match asFloats left right with
  | Some (l, r) => Ok (compare_floats op l r)
  | None =>
      match left, right with
      | VString l, VString r => Ok (compare_strings op l r)
      | VBool l, VBool r =>
          match op with
          | CompareEq => Ok (Bool.eqb l r)
          | CompareNeq => Ok (negb (Bool.eqb l r))
          | _ => Err (errorf0 "unsupported constant comparison %T %s %T")
          end
      | _, _ => Err (errorf0 "unsupported constant comparison %T %s %T")
      end
  end.

(** The operator check on the (possibly swapped) left operand. *)
Definition check_allowed_operator (left : ValueExpr) (op : ComparisonOperator)
    (pc : parseContext) : result error unit :=
  match left with
  | FieldRef name =>
      match schema_field (pc_schema pc) name with
      | None => Err (unknown_identifier name)
      | Some def =>
          def ← (if decide (f_kind def = FieldKindVirtualAlias) then
                   match resolve_alias (pc_schema pc) name with
                   | Some d => Ok d
                   | None => Err (Errorf "invalid alias %q" [name])
                   end
                 else Ok def);
          match f_allowed_ops def with
          | None => Ok tt
          | Some ops =>
              match ops !! op with
              | Some _ => Ok tt
              | None => Err (Errorf "operator %s not allowed for field %q"
                               [comparison_operator_string op; name])
              end
          end
      end
  | _ => Ok tt
  end.

Definition buildComparisonCondition (c : call) (pc : parseContext) : result error Condition :=
  match call_args c with
  | [a; b] =>
      op ← toComparisonOperator (call_function c);
      left ← buildValueExpr a pc;
      right ← buildValueExpr b pc;
      match left, right with
      | LiteralValue l, LiteralValue r =>
          outcome ← compareLiterals l op r;
          Ok (ConstantCondition outcome)
      | LiteralValue _, _ =>
          (* a folded literal on the left swaps the operands *)
          let op := mirrorComparisonOperator op in
          _ ← check_allowed_operator right op pc;
          Ok (ComparisonCondition right op left)
      | _, _ =>
          _ ← check_allowed_operator left op pc;
          Ok (ComparisonCondition left op right)
      end
  | _ => Err (errorf0 "comparison expects two arguments")
  end.

(** ** The [in] operator *)

(** The identifier check of the "identifier in list" branch. *)
Definition check_in_identifier (name : string) (s : Schema) : result error unit :=
  match schema_field s name with
  | None => Err (unknown_identifier name)
  | Some field =>
      if decide (f_kind field = FieldKindVirtualAlias) then
        match resolve_alias s name with
        | Some _ => Ok tt
        | None => Err (Errorf "invalid alias %q" [name])
        end
      else Ok tt
  end.

(** "value in identifier". *)
Definition build_element_in (element container : expr) (pc : parseContext)
  : result error Condition :=
  match getIdentName container with
  | Ok name =>
      match schema_field (pc_schema pc) name with
      | None => Err (unknown_identifier name)
      | Some _ =>
          el ← buildValueExpr element pc;
          Ok (ElementInCondition el name)
      end
  | Err _ => Err (errorf0 "invalid use of in operator")
  end.

Definition buildInCondition (c : call) (pc : parseContext) : result error Condition :=
  match call_args c with
  | [a; b] =>
      match getIdentName a with
      | Ok name =>
          _ ← check_in_identifier name (pc_schema pc);
          match get_list b with
          | Some elements =>
              values ← mapM (λ el, buildValueExpr el pc) elements;
              Ok (InCondition (FieldRef name) values)
          | None => build_element_in a b pc
          end
      | Err _ => build_element_in a b pc
      end
  | _ => Err (errorf0 "in operator expects two arguments")
  end.

(** ** Text matching *)

(** The target and argument checks that [buildTextMatchCondition] and
    [buildMatchesCondition] share: the field name and the string argument. *)
Definition text_match_operands (c : call) (s : Schema)
    (no_target unsupported arity not_literal not_string : string)
  : result error (string * string) :=
  match call_target c with
  | None => Err (errorf0 no_target)
  | Some target =>
      targetName ← getIdentName target;
      match schema_field s targetName with
      | None => Err (unknown_identifier targetName)
      | Some field =>
          if negb (f_supports_contains field) then Err (Errorf unsupported [targetName])
          else
            match call_args c with
            | [a] =>
                v ← wrap_err not_literal (getConstValue a);
                match v with
                | VString str => Ok (targetName, str)
                | _ => Err (errorf0 not_string)
                end
            | _ => Err (errorf0 arity)
            end
      end
  end.

Definition buildTextMatchCondition (c : call) (s : Schema) (mode : TextMatchMode)
  : result error Condition :=
  '(field, str) ← text_match_operands c s
      "text match requires a target" "identifier %q does not support text matching"
      "text match expects exactly one argument" "text match only supports literal arguments"
      "text match argument must be a string";
  Ok (TextMatchCondition field mode str).

Definition buildMatchesCondition (c : call) (s : Schema) : result error Condition :=
  '(field, pattern) ← text_match_operands c s
      "matches requires a target" "identifier %q does not support matches()"
      "matches expects exactly one argument" "matches only supports literal arguments"
      "matches argument must be a string";
  Ok (RegexCondition field pattern).

(** ** Set operations *)

Definition mapConditions (values : list string) (f : string → Condition) : list Condition :=
  map f values.

(** [combineConditions] reads [conds[0]]. *)
Definition combineConditions (op : LogicalOperator) (conds : list Condition)
  : result error Condition :=
  match conds with
  | [] => Err (Panic "index out of range")
  | c :: cs => Ok (fold_left (λ acc d, LogicalCondition op acc d) cs c)
  end.

Fixpoint distinct_from (seen : gset string) (values : list string) : list string :=
  match values with
  | [] => []
  | v :: vs =>
      if decide (v ∈ seen) then distinct_from seen vs
      else v :: distinct_from ({[v]} ∪ seen) vs
  end.
Definition distinctStrings (values : list string) : list string := distinct_from ∅ values.

Definition membership (fieldName s : string) : Condition :=
  ElementInCondition (LiteralValue (VString s)) fieldName.

Definition sizeEquals (fieldName : string) (n : nat) : Condition :=
  ComparisonCondition (FunctionValue "size" [FieldRef fieldName]) CompareEq
    (LiteralValue (VInt64 (Z.of_nat n))).

(** The literal strings of the second argument. *)
Definition set_elements (elements : list expr) : result error (list string) :=
  mapM (λ el,
    v ← wrap_err "set operations only support literal string elements" (getConstValue el);
    match v with
    | VString s => Ok s
    | _ => Err (errorf0 "set operations require string elements")
    end) elements.

Definition set_condition (fn fieldName : string) (values : list string)
  : result error Condition :=
  if String.eqb fn "sets.contains" then
    match values with
    | [] => Ok (ConstantCondition true)
    | _ => combineConditions LogicalAnd (mapConditions values (membership fieldName))
    end
  else if String.eqb fn "sets.intersects" then
    match values with
    | [] => Ok (ConstantCondition false)
    | _ => combineConditions LogicalOr (mapConditions values (membership fieldName))
    end
  else if String.eqb fn "sets.equivalent" then
    let distinct := distinctStrings values in
    match distinct with
    | [] => Ok (sizeEquals fieldName 0)
    | _ =>
        contains ← combineConditions LogicalAnd (mapConditions distinct (membership fieldName));
        Ok (LogicalCondition LogicalAnd contains (sizeEquals fieldName (length distinct)))
    end
  else Err (Errorf "unsupported set operation %q" [fn]).

Definition buildSetCondition (c : call) (pc : parseContext) : result error Condition :=
  match call_args c with
  | [a; b] =>
      fieldName ← wrap_err "set operations require a list field as the first argument"
                    (getIdentName a);
      match schema_field (pc_schema pc) fieldName with
      | None => Err (unknown_identifier fieldName)
      | Some field =>
          if decide (f_kind field = FieldKindJSONList) then
            match get_list b with
            | None => Err (errorf0 "set operations require a list literal as the second argument")
            | Some elements =>
                values ← set_elements elements;
                set_condition (call_function c) fieldName values
            end
          else Err (Errorf "set operations require a list field, got %q" [fieldName])
      end
  | _ => Err (Errorf "%s expects two arguments" [call_function c])
  end.

(** ** Comprehensions *)

Definition detectComprehensionKind (comp : comprehension) : result error ComprehensionKind :=
  let 'Comprehension _ _ accu_init loop_step := comp in
  match get_const accu_init with
  | None => Err (errorf0 "comprehension accumulator must be initialized with a constant")
  | Some accuInit =>
      let step_is fn :=
        match get_call loop_step with
        | Some step => String.eqb (call_function step) fn
        | None => false
        end in
      let is_int := match accuInit with CInt64 _ => true | _ => false end in
      if negb (get_bool_value accuInit) && step_is "_||_" then Ok ComprehensionExists
      else if get_bool_value accuInit && step_is "_&&_" then Ok ComprehensionAll
      else if is_int && step_is "_?_:_" then Ok ComprehensionExistsOne
      else Err (errorf0 "unsupported comprehension type (supported: exists, all, exists_one)")
  end.

Definition isIterVarExpr (e : expr) (iterVar : string) : bool :=
  match get_ident e with Some n => String.eqb n iterVar | None => false end.

Definition buildEqualsPredicate (c : call) (iterVar : string) : result error PredicateExpr :=
  match call_args c with
  | [a; b] =>
      constExpr ←
        (if isIterVarExpr a iterVar then Ok b
         else if isIterVarExpr b iterVar then Ok a
         else Err (Errorf "equality predicate must compare against the iteration variable %q"
                     [iterVar]));
      v ← wrap_err "equality argument must be a constant string" (getConstValue constExpr);
      match v with
      | VString s => Ok (EqualsPredicate s)
      | _ => Err (errorf0 "equality argument must be a string")
      end
  | _ => Err (errorf0 "equality predicate expects exactly two arguments")
  end.

(** The body that [buildStartsWithPredicate], [buildEndsWithPredicate] and
    [buildContainsPredicate] repeat: the string argument of a method call on
    the iteration variable. *)
Definition iter_method_argument (c : call) (iterVar name : string) : result error string :=
  match call_target c with
  | Some t =>
      if isIterVarExpr t iterVar then
        match call_args c with
        | [a] =>
            v ← wrap_err (name +:+ " argument must be a constant string") (getConstValue a);
            match v with
            | VString s => Ok s
            | _ => Err (errorf0 (name +:+ " argument must be a string"))
            end
        | _ => Err (errorf0 (name +:+ " expects exactly one argument"))
        end
      else Err (Errorf (name +:+ " target must be the iteration variable %q") [iterVar])
  | None => Err (Errorf (name +:+ " target must be the iteration variable %q") [iterVar])
  end.

Definition buildStartsWithPredicate (c : call) (iterVar : string) : result error PredicateExpr :=
  s ← iter_method_argument c iterVar "startsWith"; Ok (StartsWithPredicate s).
Definition buildEndsWithPredicate (c : call) (iterVar : string) : result error PredicateExpr :=
  s ← iter_method_argument c iterVar "endsWith"; Ok (EndsWithPredicate s).
Definition buildContainsPredicate (c : call) (iterVar : string) : result error PredicateExpr :=
  s ← iter_method_argument c iterVar "contains"; Ok (ContainsPredicate s).

Definition extractPredicate (comp : comprehension) : result error PredicateExpr :=
  let 'Comprehension iterVar _ _ loop_step := comp in
  match get_call loop_step with
  | None => Err (errorf0 "comprehension loop step must be a call expression")
  | Some step =>
      predicateExpr ←
        (if String.eqb (call_function step) "_?_:_" then
           match call_args step with
           | [p; _; _] => Ok p
           | _ => Err (errorf0 "exists_one loop step must have three arguments")
           end
         else
           match call_args step with
           | [_; p] => Ok p
           | _ => Err (errorf0 "comprehension loop step must have two arguments")
           end);
      match get_call predicateExpr with
      | None => Err (errorf0 "comprehension predicate must be a function call")
      | Some pcall =>
          let fn := call_function pcall in
          if String.eqb fn "_==_" then buildEqualsPredicate pcall iterVar
          else if String.eqb fn "startsWith" then buildStartsWithPredicate pcall iterVar
          else if String.eqb fn "endsWith" then buildEndsWithPredicate pcall iterVar
          else if String.eqb fn "contains" then buildContainsPredicate pcall iterVar
          else Err (Errorf "unsupported predicate function %q in comprehension" [fn])
      end
  end.

Definition buildComprehensionCondition (comp : comprehension) (s : Schema)
  : result error Condition :=
  let 'Comprehension iterVar iter_range _ _ := comp in
  kind ← detectComprehensionKind comp;
  match get_ident iter_range with
  | None => Err (errorf0 "comprehension range must be a field identifier")
  | Some fieldName =>
      match schema_field s fieldName with
      | None => Err (Errorf "unknown field %q in comprehension" [fieldName])
      | Some field =>
          if decide (f_kind field = FieldKindJSONList) then
            predicate ← extractPredicate comp;
            Ok (ListComprehensionCondition kind fieldName iterVar predicate)
          else Err (Errorf "field %q does not support comprehension (must be a list)" [fieldName])
      end
  end.

(** ** Conditions *)

Definition is_comparison (fn : string) : bool :=
  String.eqb fn "_==_" || String.eqb fn "_!=_" || String.eqb fn "_<_"
  || String.eqb fn "_>_" || String.eqb fn "_<=_" || String.eqb fn "_>=_".

Definition is_set_function (fn : string) : bool :=
  String.eqb fn "sets.contains" || String.eqb fn "sets.intersects"
  || String.eqb fn "sets.equivalent".

(** The branches of [buildCallCondition] that do not descend into operands
    that are themselves conditions. *)
Definition buildLeafCall (c : call) (pc : parseContext) : result error Condition :=
  let fn := call_function c in
  if is_comparison fn then buildComparisonCondition c pc
  else if String.eqb fn "@in" then buildInCondition c pc
  else if String.eqb fn "contains" then buildTextMatchCondition c (pc_schema pc) TextMatchContains
  else if String.eqb fn "startsWith" then buildTextMatchCondition c (pc_schema pc) TextMatchPrefix
  else if String.eqb fn "endsWith" then buildTextMatchCondition c (pc_schema pc) TextMatchSuffix
  else if String.eqb fn "matches" then buildMatchesCondition c (pc_schema pc)
  else if is_set_function fn then buildSetCondition c pc
  else
    val ← evaluateBool c;
    match val with
    | Some b => Ok (ConstantCondition b)
    | None => Err (Errorf "unsupported call expression %q" [fn])
    end.

Definition buildIdentCondition (name : string) (pc : parseContext) : result error Condition :=
  match schema_field (pc_schema pc) name with
  | None => Err (unknown_identifier name)
  | Some field =>
      if decide (f_type field = FieldTypeBool) then Ok (FieldPredicateCondition name)
      else Err (Errorf "identifier %q is not boolean" [name])
  end.

Fixpoint buildCondition (e : expr) (pc : parseContext) {struct e} : result error Condition :=
  match e with
  | ECall c => buildCallCondition c pc
  | EConst _ =>
      val ← getConstValue e;
      match val with
      | VBool b => Ok (ConstantCondition b)
      | _ => Err (errorf0 "filter must evaluate to a boolean value")
      end
  | EIdent name => buildIdentCondition name pc
  | EComprehension comp => buildComprehensionCondition comp (pc_schema pc)
  | EList _ | EOther => Err (errorf0 "unsupported top-level expression")
  end
with buildCallCondition (c : call) (pc : parseContext) {struct c} : result error Condition :=
  match c with
  | Call target fn args =>
      if String.eqb fn "_&&_" then
        match args with
        | [a; b] =>
            left ← buildCondition a pc;
            right ← buildCondition b pc;
            Ok (LogicalCondition LogicalAnd left right)
        | _ => Err (errorf0 "logical AND expects two arguments")
        end
      else if String.eqb fn "_||_" then
        match args with
        | [a; b] =>
            left ← buildCondition a pc;
            right ← buildCondition b pc;
            Ok (LogicalCondition LogicalOr left right)
        | _ => Err (errorf0 "logical OR expects two arguments")
        end
      else if String.eqb fn "!_" then
        match args with
        | [a] => child ← buildCondition a pc; Ok (NotCondition child)
        | _ => Err (errorf0 "logical NOT expects one argument")
        end
      else buildLeafCall (Call target fn args) pc
  end.
End with_platform.
