(* ===== verification/FilterRender.v ===== *)
(** * From the condition tree to a SQL fragment

    [internal/filter/render.go], [engine.go] and [helpers.go].  The fields of
    the Go [renderer] that never change during a rendering (schema, dialect,
    placeholder offset) are the section's parameters; the two that do (the
    placeholder counter and the argument list) are the state [rstate]. *)

From S2P Require Import Prelude GoLib GoTime FilterIR FilterParser.
From Stdlib Require Import SpecFloat.

Record rstate := mkRstate { placeholderCounter : Z; r_args : list value }.

Record renderResult := mkRenderResult { rr_sql : string; rr_trivial : bool; rr_unsat : bool }.

Definition plain (sql : string) : renderResult := mkRenderResult sql false false.
Definition trivial_result : renderResult := mkRenderResult "" true false.
Definition unsat_result : renderResult := mkRenderResult "1 = 0" false true.

Abbreviation R := (SE rstate error).

(** ** Literals *)

Definition expectLiteral (e : ValueExpr) : result error value :=
  match e with
  | LiteralValue v => Ok v
  | _ => Err (errorf0 "expression must be a literal")
  end.

Definition expectBool (e : ValueExpr) : result error bool :=
  lit ← expectLiteral e;
  match lit with
  | VBool b => Ok b
  | _ => Err (errorf0 "boolean literal required")
  end.

Definition toInt64 `{GoPlatform} (v : value) : result error Z :=
  match v with
  | VInt z | VInt32 z | VInt64 z | VUint32 z => Ok z
  | VUint64 z => Ok (GoInt.int64 z)
  | VFloat32 f | VFloat64 f => Ok (Float64.to_int64 f)
  | _ => Err (errorf0 "cannot convert %T to int64")
  end.

Definition expectNumericLiteral `{GoPlatform} (e : ValueExpr) : result error Z :=
  lit ← expectLiteral e; toInt64 lit.

Definition sqlOperator (op : ComparisonOperator) : string := comparison_operator_string op.

(** ** JSON accessors *)

Definition jsonPath (f : Field) : string := "$." +:+ Str.join "." (f_json_path f).

(** The loop of [buildPostgresJSONAccessor]: the last path element uses [->>]
    when the accessor ends in text. *)
Fixpoint buildPostgresJSONAccessor (base : string) (path : list string) (terminalText : bool)
  : string :=
  match path with
  | [] => base
  | [part] =>
      if terminalText then base +:+ "->>'" +:+ part +:+ "'"
      else base +:+ "->'" +:+ part +:+ "'"
  | part :: rest =>
      buildPostgresJSONAccessor (base +:+ "->'" +:+ part +:+ "'") rest terminalText
  end.

Definition jsonExtractExpr (d : DialectName) (f : Field) : string :=
  let column := qualifyColumn d (f_column f) in
  match d with
  | DialectSQLite | DialectMySQL =>
      "JSON_EXTRACT(" +:+ column +:+ ", '" +:+ jsonPath f +:+ "')"
  | DialectPostgres => buildPostgresJSONAccessor column (f_json_path f) true
  | DialectOther _ => ""
  end.

Definition jsonArrayExpr (d : DialectName) (f : Field) : string :=
  let column := qualifyColumn d (f_column f) in
  match d with
  | DialectSQLite | DialectMySQL =>
      "JSON_EXTRACT(" +:+ column +:+ ", '" +:+ jsonPath f +:+ "')"
  | DialectPostgres => buildPostgresJSONAccessor column (f_json_path f) false
  | DialectOther _ => ""
  end.

Definition jsonArrayLengthExpr (d : DialectName) (f : Field) : string :=
  let arrayExpr := jsonArrayExpr d f in
  match d with
  | DialectSQLite => "JSON_ARRAY_LENGTH(COALESCE(" +:+ arrayExpr +:+ ", JSON_ARRAY()))"
  | DialectMySQL => "JSON_LENGTH(COALESCE(" +:+ arrayExpr +:+ ", JSON_ARRAY()))"
  | DialectPostgres => "jsonb_array_length(COALESCE(" +:+ arrayExpr +:+ ", '[]'::jsonb))"
  | DialectOther _ => ""
  end.

Definition stringLengthExpr (d : DialectName) (colExpr : string) : string :=
  match d with
  | DialectMySQL => "CHAR_LENGTH(" +:+ colExpr +:+ ")"
  | _ => "LENGTH(" +:+ colExpr +:+ ")"
  end.

(** ** LIKE patterns *)

Definition escape_like_byte (c : ascii) : string :=
  if Ascii.eqb c "\" then "\\"
  else if Ascii.eqb c "%" then "\%"
  else if Ascii.eqb c "_" then "\_"
  else String c "".
Definition escapeLikeLiteral (s : string) : string := Str.replace_bytes escape_like_byte s.

Definition wrap_pattern (mode : TextMatchMode) (escaped : string) : string :=
  match mode with
  | TextMatchPrefix => escaped +:+ "%"
  | TextMatchSuffix => "%" +:+ escaped
  | TextMatchContains => "%" +:+ escaped +:+ "%"
  end.

Definition likePattern (mode : TextMatchMode) (v : string) : string :=
  wrap_pattern mode (escapeLikeLiteral v).

Definition tag_escape_byte (c : ascii) : string :=
  if Ascii.eqb c "!" then "!!"
  else if Ascii.eqb c "%" then "!%"
  else if Ascii.eqb c "_" then "!_"
  else String c "".

Definition tagLikePattern (mode : TextMatchMode) (v : string) : string :=
  wrap_pattern mode (Str.replace_bytes tag_escape_byte v).

(** ** Timestamp accessors *)

Record accessorSpec := mkAccessorSpec {
  as_sqlite : string; as_pg : string; as_mysql : string; as_off : Z * Z * Z
}.

Definition accessorSpecs : gmap string accessorSpec := list_to_map [
  ("getFullYear", mkAccessorSpec "%Y" "YEAR" "YEAR" (0, 0, 0)%Z);
  ("getMonth", mkAccessorSpec "%m" "MONTH" "MONTH" (1, 1, 1)%Z);
  ("getDate", mkAccessorSpec "%d" "DAY" "DAYOFMONTH" (0, 0, 0)%Z);
  ("getDayOfMonth", mkAccessorSpec "%d" "DAY" "DAYOFMONTH" (1, 1, 1)%Z);
  ("getDayOfWeek", mkAccessorSpec "%w" "DOW" "DAYOFWEEK" (0, 0, 1)%Z);
  ("getDayOfYear", mkAccessorSpec "%j" "DOY" "DAYOFYEAR" (1, 1, 1)%Z);
  ("getHours", mkAccessorSpec "%H" "HOUR" "HOUR" (0, 0, 0)%Z);
  ("getMinutes", mkAccessorSpec "%M" "MINUTE" "MINUTE" (0, 0, 0)%Z);
  ("getSeconds", mkAccessorSpec "%S" "SECOND" "SECOND" (0, 0, 0)%Z)
].

(** ** Combination of rendered operands *)

Definition combineAnd (left right : renderResult) : renderResult :=
  if rr_unsat left || rr_unsat right then unsat_result
  else if rr_trivial left then right
  else if rr_trivial right then left
  else plain ("(" +:+ rr_sql left +:+ " AND " +:+ rr_sql right +:+ ")").

Definition combineOr (left right : renderResult) : renderResult :=
  if rr_trivial left || rr_trivial right then trivial_result
  else if rr_unsat left then right
  else if rr_unsat right then left
  else plain ("(" +:+ rr_sql left +:+ " OR " +:+ rr_sql right +:+ ")").

(** The collation name, with its double quotes. *)
Definition quoted_C : string := String (ascii_of_N 34) (String "C" (String (ascii_of_N 34) "")).

Section renderer.
Context `{GoPlatform}.
Context (schema : Schema) (dialect : DialectName) (placeholderOffset : Z).

Definition unsupported_dialect : error :=
  Errorf "unsupported dialect %s" [dialect_string dialect].
Definition unknown_field (n : string) : error := Errorf "unknown field %q" [n].

(** [addArg]: record the argument and return its placeholder. *)
Definition addArg (v : value) : R string := λ st,
  let counter := (placeholderCounter st + 1)%Z in
  let placeholder :=
    match dialect with
    | DialectPostgres => "$" +:+ itoa (placeholderOffset + counter)
    | _ => "?"
    end in
  Ok (placeholder, mkRstate counter (r_args st ++ [v])).

Definition addBoolArg (b : bool) : R string :=
  match dialect with
  | DialectSQLite => addArg (VInt (if b then 1 else 0))
  | _ => addArg (VBool b)
  end.

(** [foldedLike]. *)
Definition foldedLike (colExpr pattern : string) : R string :=
  p ← addArg (VString pattern);
  mret (match dialect with
        | DialectSQLite =>
            "memos_unicode_lower(" +:+ colExpr +:+ ") LIKE memos_unicode_lower(" +:+ p
              +:+ ") ESCAPE '\'"
        | DialectPostgres => colExpr +:+ " ILIKE " +:+ p
        | _ => colExpr +:+ " LIKE " +:+ p
        end).

Definition lookup_field (name : string) : R Field :=
  match schema_field schema name with
  | Some f => mret f
  | None => se_err (unknown_field name)
  end.

Definition renderTextMatch (field : string) (mode : TextMatchMode) (v : string)
  : R renderResult :=
  f ← lookup_field field;
  sql ← foldedLike (columnExpr f dialect) (likePattern mode v);
  mret (plain sql).

Definition renderRegex (field pattern : string) : R renderResult :=
  f ← lookup_field field;
  let column := columnExpr f dialect in
  match dialect with
  | DialectPostgres => p ← addArg (VString pattern); mret (plain (column +:+ " ~ " +:+ p))
  | DialectMySQL | DialectSQLite =>
      p ← addArg (VString pattern); mret (plain (column +:+ " REGEXP " +:+ p))
  | DialectOther _ => se_err unsupported_dialect
  end.

(** ** JSON booleans and JSON presence *)

Definition jsonExistsSQL (f : Field) : result error string :=
  let e := jsonExtractExpr dialect f in
  match dialect with
  | DialectSQLite | DialectPostgres => Ok (e +:+ " IS NOT NULL")
  | DialectMySQL => Ok ("COALESCE(JSON_TYPE(" +:+ e +:+ "), 'NULL') != 'NULL'")
  | DialectOther _ => Err unsupported_dialect
  end.

Definition jsonBoolPredicate (f : Field) : result error string :=
  let e := jsonExtractExpr dialect f in
  match dialect with
  | DialectSQLite => Ok (e +:+ " IS TRUE")
  | DialectMySQL => Ok ("COALESCE(" +:+ e +:+ ", CAST('false' AS JSON)) = CAST('true' AS JSON)")
  | DialectPostgres => Ok ("(" +:+ e +:+ ")::boolean IS TRUE")
  | DialectOther _ => Err unsupported_dialect
  end.

Definition renderFieldPredicate (field : string) : R renderResult :=
  f ← lookup_field field;
  match f_kind f with
  | FieldKindBoolColumn => mret (plain (qualifyColumn dialect (f_column f) +:+ " IS TRUE"))
  | FieldKindJSONBool => sql ← se_lift (jsonBoolPredicate f); mret (plain sql)
  | FieldKindJSONExists =>
      sql ← se_lift (wrap_err "failed to render JSON existence predicate" (jsonExistsSQL f));
      mret (plain sql)
  | _ => se_err (Errorf "field %q cannot be used as a predicate" [field])
  end.

Definition renderJSONExistsComparison (f : Field) (op : ComparisonOperator) (right : ValueExpr)
  : R renderResult :=
  v ← se_lift (wrap_err "json existence comparison requires a boolean value" (expectBool right));
  existsSQL ← se_lift (wrap_err "failed to render JSON existence comparison" (jsonExistsSQL f));
  match op with
  | CompareEq | CompareNeq =>
      let want := match op with CompareNeq => negb v | _ => v end in
      if want then mret (plain existsSQL) else mret (plain ("NOT (" +:+ existsSQL +:+ ")"))
  | _ => se_err (Errorf "operator %s not supported for field %q"
                   [comparison_operator_string op; f_name f])
  end.

Definition renderBoolColumnComparison (f : Field) (op : ComparisonOperator) (right : ValueExpr)
  : R renderResult :=
  v ← se_lift (expectBool right);
  p ← addBoolArg v;
  mret (plain (qualifyColumn dialect (f_column f) +:+ " " +:+ sqlOperator op +:+ " " +:+ p)).

Definition renderJSONBoolComparison (f : Field) (op : ComparisonOperator) (right : ValueExpr)
  : R renderResult :=
  v ← se_lift (expectBool right);
  let jsonExpr := jsonExtractExpr dialect f in
  match dialect with
  | DialectSQLite =>
      let is_task_list := String.eqb (f_name f) "has_task_list" in
      let target := if (v : bool) then "1" else "0" in
      match op with
      | CompareEq =>
          if is_task_list then mret (plain (jsonExpr +:+ " = " +:+ target))
          else if v then mret (plain (jsonExpr +:+ " IS TRUE"))
          else mret (plain ("NOT(" +:+ jsonExpr +:+ " IS TRUE)"))
      | CompareNeq =>
          if is_task_list then mret (plain (jsonExpr +:+ " != " +:+ target))
          else if v then mret (plain ("NOT(" +:+ jsonExpr +:+ " IS TRUE)"))
          else mret (plain (jsonExpr +:+ " IS TRUE"))
      | _ => se_err (Errorf "operator %s not supported for boolean JSON field"
                       [comparison_operator_string op])
      end
  | DialectMySQL =>
      let boolStr := if v then "true" else "false" in
      mret (plain (jsonExpr +:+ " " +:+ sqlOperator op +:+ " CAST('" +:+ boolStr +:+ "' AS JSON)"))
  | DialectPostgres =>
      p ← addArg (VBool v);
      mret (plain ("(" +:+ jsonExpr +:+ ")::boolean " +:+ sqlOperator op +:+ " " +:+ p))
  | DialectOther _ => se_err unsupported_dialect
  end.

(** ** Scalars *)

(** The type switch of [renderScalarComparison]: the placeholder of the
    converted literal. *)
Definition scalar_argument (f : Field) (lit : value) : R string :=
  match f_type f with
  | FieldTypeString =>
      match lit with
      | VString s => addArg (VString s)
      | _ => se_err (Errorf "field %q expects string value" [f_name f])
      end
  | FieldTypeInt | FieldTypeTimestamp =>
      num ← se_lift (wrap_err "field %q expects integer value" (toInt64 lit));
      addArg (VInt64 num)
  | FieldTypeBool => se_err (Errorf "unsupported data type %q for field %s" [f_name f])
  end.

Definition renderScalarComparison (f : Field) (op : ComparisonOperator) (right : ValueExpr)
  : R renderResult :=
  lit ← se_lift (expectLiteral right);
  let column := columnExpr f dialect in
  match lit with
  | VNil =>
      match op with
      | CompareEq => mret (plain (column +:+ " IS NULL"))
      | CompareNeq => mret (plain (column +:+ " IS NOT NULL"))
      | _ => se_err (Errorf "operator %s not supported for null comparison"
                       [comparison_operator_string op])
      end
  | _ =>
      p ← scalar_argument f lit;
      mret (plain (column +:+ " " +:+ sqlOperator op +:+ " " +:+ p))
  end.

(** One element of [renderScalarInCondition]'s loop. *)
Definition render_in_element (f : Field) (v : ValueExpr) : R string :=
  lit ← se_lift (expectLiteral v);
  match f_type f with
  | FieldTypeString =>
      match lit with
      | VString s => addArg (VString s)
      | _ => se_err (Errorf "field %q expects string values" [f_name f])
      end
  | FieldTypeInt => num ← se_lift (toInt64 lit); addArg (VInt64 num)
  | _ => se_err (Errorf "field %q does not support IN() comparisons" [f_name f])
  end.

Definition renderScalarInCondition (f : Field) (values : list ValueExpr) : R renderResult :=
  placeholders ← mapM (render_in_element f) values;
  mret (plain (columnExpr f dialect +:+ " IN (" +:+ Str.join "," placeholders +:+ ")")).

(** ** Functions and accessors *)

Definition timestampAccessorExpr (f : Field) (accessor : string) : result error string :=
  match accessorSpecs !! accessor with
  | None => Err (Errorf "unsupported timestamp accessor %q" [accessor])
  | Some spec =>
      let col := qualifyColumn dialect (f_column f) in
      let '(off0, off1, off2) := as_off spec in
      '(base, off) ←
        match dialect with
        | DialectSQLite =>
            Ok ("CAST(strftime('" +:+ as_sqlite spec +:+ "', " +:+ col
                  +:+ ", 'unixepoch') AS INTEGER)", off0)
        | DialectPostgres =>
            Ok ("CAST(EXTRACT(" +:+ as_pg spec +:+ " FROM to_timestamp(" +:+ col
                  +:+ ") AT TIME ZONE 'UTC') AS INTEGER)", off1)
        | DialectMySQL => Ok (as_mysql spec +:+ "(" +:+ col +:+ ")", off2)
        | DialectOther _ => Err unsupported_dialect
        end;
      Ok (if (off =? 0)%Z then base else "(" +:+ base +:+ " - " +:+ itoa off +:+ ")")
  end.

Definition renderAccessorComparison (field accessor : string) (op : ComparisonOperator)
    (right : ValueExpr) : R renderResult :=
  f ← lookup_field field;
  v ← se_lift (expectNumericLiteral right);
  e ← se_lift (timestampAccessorExpr f accessor);
  p ← addArg (VInt64 v);
  mret (plain (e +:+ " " +:+ sqlOperator op +:+ " " +:+ p)).

(** The field that [size()] measures, aliases resolved. *)
Definition size_field (name : string) : R Field :=
  f ← lookup_field name;
  if decide (f_kind f = FieldKindVirtualAlias) then
    match resolve_alias schema name with
    | Some g => mret g
    | None => se_err (Errorf "invalid alias %q" [name])
    end
  else mret f.

Definition size_expr (f : Field) : result error string :=
  if decide (f_kind f = FieldKindJSONList) then Ok (jsonArrayLengthExpr dialect f)
  else if decide (f_kind f = FieldKindScalar ∧ f_type f = FieldTypeString) then
    Ok (stringLengthExpr dialect (columnExpr f dialect))
  else Err (Errorf "size() does not support field %q" [f_name f]).

Definition renderFunctionComparison (name : string) (args : list ValueExpr)
    (op : ComparisonOperator) (right : ValueExpr) : R renderResult :=
  if negb (String.eqb name "size") then
    se_err (Errorf "unsupported function %s in comparison" [name])
  else
    match args with
    | [FieldRef n] =>
        f ← size_field n;
        v ← se_lift (expectNumericLiteral right);
        e ← se_lift (size_expr f);
        p ← addArg (VInt64 v);
        mret (plain (e +:+ " " +:+ sqlOperator op +:+ " " +:+ p))
    | [_] => se_err (errorf0 "size() argument must be a field")
    | _ => se_err (errorf0 "size() expects one argument")
    end.

Definition renderComparison (left : ValueExpr) (op : ComparisonOperator) (right : ValueExpr)
  : R renderResult :=
  match left with
  | FieldRef n =>
      f ← lookup_field n;
      match f_kind f with
      | FieldKindBoolColumn => renderBoolColumnComparison f op right
      | FieldKindJSONBool => renderJSONBoolComparison f op right
      | FieldKindJSONExists => renderJSONExistsComparison f op right
      | FieldKindScalar => renderScalarComparison f op right
      | _ => se_err (Errorf "field %q does not support comparison" [f_name f])
      end
  | FunctionValue n args => renderFunctionComparison n args op right
  | FieldAccessorValue field accessor => renderAccessorComparison field accessor op right
  | LiteralValue _ =>
      se_err (errorf0 "comparison must start with a field reference or supported function")
  end.

(** ** Predicates on the elements of a JSON list *)

Definition tagElementTextMatch (element : string) (mode : TextMatchMode) (v : string)
  : R string :=
  if String.eqb v "" then mret "1 = 1"
  else
    match dialect with
    | DialectSQLite =>
        match mode with
        | TextMatchPrefix =>
            p ← addArg (VString v); mret ("instr(" +:+ element +:+ ", " +:+ p +:+ ") = 1")
        | TextMatchSuffix =>
            lengthValue ← addArg (VString v);
            compareValue ← addArg (VString v);
            mret ("(substr(" +:+ element +:+ ", -length(" +:+ lengthValue
                    +:+ ")) COLLATE BINARY) = (" +:+ compareValue +:+ " COLLATE BINARY)")
        | TextMatchContains =>
            p ← addArg (VString v); mret ("instr(" +:+ element +:+ ", " +:+ p +:+ ") > 0")
        end
    | DialectMySQL =>
        p ← addArg (VString (tagLikePattern mode v));
        mret ("CAST(" +:+ element +:+ " AS BINARY) LIKE CAST(" +:+ p +:+ " AS BINARY) ESCAPE '!'")
    | DialectPostgres =>
        p ← addArg (VString (tagLikePattern mode v));
        mret ("(" +:+ element +:+ " COLLATE " +:+ quoted_C +:+ ") LIKE (" +:+ p
                +:+ "::text COLLATE " +:+ quoted_C +:+ ") ESCAPE '!'")
    | DialectOther _ => se_err unsupported_dialect
    end.

Definition tagElementPredicateSQL (element : string) (pred : PredicateExpr) : R string :=
  match pred with
  | EqualsPredicate v =>
      p ← addArg (VString v);
      match dialect with
      | DialectSQLite =>
          mret ("(" +:+ element +:+ " COLLATE BINARY) = (" +:+ p +:+ " COLLATE BINARY)")
      | DialectMySQL => mret ("CAST(" +:+ element +:+ " AS BINARY) = CAST(" +:+ p +:+ " AS BINARY)")
      | DialectPostgres =>
          mret ("(" +:+ element +:+ " COLLATE " +:+ quoted_C +:+ ") = (" +:+ p
                  +:+ "::text COLLATE " +:+ quoted_C +:+ ")")
      | DialectOther _ => se_err unsupported_dialect
      end
  | StartsWithPredicate v => tagElementTextMatch element TextMatchPrefix v
  | EndsWithPredicate v => tagElementTextMatch element TextMatchSuffix v
  | ContainsPredicate v => tagElementTextMatch element TextMatchContains v
  end.

(** The row source and the length expression of a tag comprehension. *)
Definition tag_source (f : Field) : result error (string * string) :=
  let arrayExpr := jsonArrayExpr dialect f in
  match dialect with
  | DialectSQLite =>
      let a := "COALESCE(" +:+ arrayExpr +:+ ", JSON_ARRAY())" in
      Ok ("json_each(" +:+ a +:+ ") AS tag_item", "json_array_length(" +:+ a +:+ ")")
  | DialectMySQL =>
      let a := "COALESCE(" +:+ arrayExpr +:+ ", JSON_ARRAY())" in
      Ok ("JSON_TABLE(" +:+ a +:+ ", '$[*]' COLUMNS (value LONGTEXT PATH '$')) AS tag_item",
          "JSON_LENGTH(" +:+ a +:+ ")")
  | DialectPostgres =>
      let a := "COALESCE(" +:+ arrayExpr +:+ ", '[]'::jsonb)" in
      Ok ("jsonb_array_elements_text(" +:+ a +:+ ") AS tag_item(value)",
          "jsonb_array_length(" +:+ a +:+ ")")
  | DialectOther _ => Err unsupported_dialect
  end.

Definition anyMatch (elements cond : string) : string :=
  match dialect with
  | DialectMySQL => "(SELECT COUNT(*) FROM " +:+ elements +:+ " WHERE " +:+ cond +:+ ") > 0"
  | _ => "EXISTS (SELECT 1 FROM " +:+ elements +:+ " WHERE " +:+ cond +:+ ")"
  end.
Definition noMatch (elements cond : string) : string :=
  match dialect with
  | DialectMySQL => "(SELECT COUNT(*) FROM " +:+ elements +:+ " WHERE " +:+ cond +:+ ") = 0"
  | _ => "NOT EXISTS (SELECT 1 FROM " +:+ elements +:+ " WHERE " +:+ cond +:+ ")"
  end.

Definition renderTagComprehension (f : Field) (pred : PredicateExpr) (kind : ComprehensionKind)
  : R renderResult :=
  elemCond ← tagElementPredicateSQL "tag_item.value" pred;
  '(elements, len) ← se_lift (tag_source f);
  mret (plain (match kind with
    | ComprehensionExists => anyMatch elements elemCond
    | ComprehensionAll =>
        "(" +:+ len +:+ " > 0 AND " +:+ noMatch elements ("NOT (" +:+ elemCond +:+ ")") +:+ ")"
    | ComprehensionExistsOne =>
        "(SELECT COUNT(*) FROM " +:+ elements +:+ " WHERE " +:+ elemCond +:+ ") = 1"
    end)).

Definition renderJSONListContains (f : Field) (v : string) : R renderResult :=
  renderTagComprehension f (EqualsPredicate v) ComprehensionExists.

Definition renderListComprehension (kind : ComprehensionKind) (field : string)
    (pred : PredicateExpr) : R renderResult :=
  f ← lookup_field field;
  if decide (f_kind f = FieldKindJSONList) then renderTagComprehension f pred kind
  else se_err (Errorf "field %q is not a JSON list" [field]).

Definition renderElementInCondition (element : ValueExpr) (field : string) : R renderResult :=
  f ← lookup_field field;
  if decide (f_kind f = FieldKindJSONList) then
    lit ← se_lift (expectLiteral element);
    match lit with
    | VString s => renderJSONListContains f s
    | _ => se_err (errorf0 "tags membership requires string literal")
    end
  else se_err (Errorf "field %q is not a tag list" [field]).

(** One element of [renderTagInList]'s loop. *)
Definition render_tag_element (f : Field) (v : ValueExpr) : R string :=
  lit ← se_lift (expectLiteral v);
  match lit with
  | VString s => r ← renderJSONListContains f s; mret (rr_sql r)
  | _ => se_err (errorf0 "tags must be compared with string literals")
  end.

Definition renderTagInList (values : list ValueExpr) : R renderResult :=
  match resolve_alias schema "tag" with
  | None => se_err (errorf0 "tag attribute is not configured")
  | Some f =>
      conditions ← mapM (render_tag_element f) values;
      mret (plain (match conditions with
                   | [] => "1 = 0"
                   | [c] => c
                   | _ => "(" +:+ Str.join " OR " conditions +:+ ")"
                   end))
  end.

Definition renderInCondition (left : ValueExpr) (values : list ValueExpr) : R renderResult :=
  match left with
  | FieldRef name =>
      if String.eqb name "tag" then renderTagInList values
      else
        f ← lookup_field name;
        if decide (f_kind f = FieldKindScalar) then renderScalarInCondition f values
        else se_err (Errorf "field %q does not support IN()" [name])
  | _ => se_err (errorf0 "IN operator requires a field on the left-hand side")
  end.

(** ** Conditions *)

Definition negate_result (child : renderResult) : renderResult :=
  if rr_trivial child then unsat_result
  else if rr_unsat child then trivial_result
  else plain ("NOT (" +:+ rr_sql child +:+ ")").

Fixpoint renderCondition (c : Condition) : R renderResult :=
  match c with
  | LogicalCondition op l r =>
      left ← renderCondition l;
      right ← renderCondition r;
      mret (match op with
            | LogicalAnd => combineAnd left right
            | LogicalOr => combineOr left right
            end)
  | NotCondition e => child ← renderCondition e; mret (negate_result child)
  | FieldPredicateCondition field => renderFieldPredicate field
  | ComparisonCondition l op r => renderComparison l op r
  | InCondition l values => renderInCondition l values
  | ElementInCondition element field => renderElementInCondition element field
  | TextMatchCondition field mode v => renderTextMatch field mode v
  | RegexCondition field pattern => renderRegex field pattern
  | ListComprehensionCondition kind field _ pred => renderListComprehension kind field pred
  | ConstantCondition b => mret (if b then trivial_result else unsat_result)
  end.

Record Statement := mkStatement { st_sql : string; st_args : list value }.

(** [renderer.Render], from the empty renderer state. *)
Definition Render (c : Condition) : result error Statement :=
  '(res, st) ← renderCondition c (mkRstate 0 []);
  Ok (mkStatement
        (if rr_unsat res then "1 = 0" else if rr_trivial res then "" else rr_sql res)
        (r_args st)).
End renderer.

(** ** The engine: engine.go and helpers.go *)

Record RenderOptions := mkRenderOptions { ro_dialect : DialectName; ro_offset : Z }.

Record Program := mkProgram { p_schema : Schema; p_condition : Condition }.

Definition program_render `{GoPlatform} (p : Program) (opts : RenderOptions)
  : result error Statement :=
  Render (p_schema p) (ro_dialect opts) (ro_offset opts) (p_condition p).

Section engine.
Context `{GoPlatform}.
(** [env.Compile] followed by [cel.AstToParsedExpr]: cel-go. *)
Context (cel_compile : Schema → string → result error expr).

Record Engine := mkEngine { e_schema : Schema; e_now : Time }.

Definition Compile (e : Engine) (filter : string) : result error Program :=
  if String.eqb (Str.trim_space filter) "" then Err (errorf0 "filter expression is empty")
  else
    parsed ← wrap_err "failed to compile filter" (cel_compile (e_schema e) filter);
    cond ← buildCondition parsed (mkParseContext (e_schema e) (e_now e));
    Ok (mkProgram (e_schema e) cond).

Definition CompileToStatement (e : Engine) (filter : string) (opts : RenderOptions)
  : result error Statement :=
  program ← Compile e filter; program_render program opts.

(** [AppendConditions] appends to the caller's slices as it goes, so what was
    appended before an error stays. *)
Fixpoint AppendConditions (e : Engine) (filters : list string) (d : DialectName)
    (where_ : list string) (args : list value)
  : list string * list value * result error unit :=
  match filters with
  | [] => (where_, args, Ok tt)
  | f :: fs =>
      match CompileToStatement e f (mkRenderOptions d (Z.of_nat (length args))) with
      | Err err => (where_, args, Err err)
      | Ok stmt =>
          if String.eqb (st_sql stmt) "" then AppendConditions e fs d where_ args
          else AppendConditions e fs d
                 (where_ ++ ["(" +:+ st_sql stmt +:+ ")"]) (args ++ st_args stmt)
      end
  end.
End engine.
