(* ===== verification/FilterRenderFacts.v ===== *)
(** * What the SQL renderer guarantees

    A small program logic for renderer computations ([Emits]), the theorems on
    placeholders and their arguments, and the arguments that folding leaves
    behind.  [FilterRenderText] and [FilterRenderBool] build on it. *)

From S2P Require Import Prelude GoLib GoTime FilterIR FilterParser FilterRender.
From Stdlib Require Import SpecFloat.

(** ** Placeholder tokens of a SQL text *)

(** The byte that starts a placeholder. *)
Definition marker (d : DialectName) : ascii :=
  match d with DialectPostgres => "$"%char | _ => "?"%char end.

Fixpoint digit_prefix (s : string) : string :=
  match s with
  | String c r => if Str.is_digit c then String c (digit_prefix r) else ""
  | EmptyString => ""
  end.

(** The placeholders of a text in order: "?" for the positional dialects, the
    dollar sign with its digits for Postgres. *)
Fixpoint placeholders (d : DialectName) (s : string) : list string :=
  match s with
  | EmptyString => []
  | String c r =>
      if Ascii.eqb c (marker d) then
        match d with
        | DialectPostgres => String c (digit_prefix r) :: placeholders d r
        | _ => String c "" :: placeholders d r
        end
      else placeholders d r
  end.

(** The [i]-th placeholder of a rendering with the given offset. *)
Definition nth_placeholder (d : DialectName) (offset i : Z) : string :=
  match d with
  | DialectPostgres => "$" +:+ itoa (offset + i)
  | _ => "?"
  end.

Fixpoint placeholder_run (d : DialectName) (offset k : Z) (n : nat) : list string :=
  match n with
  | O => []
  | S n => nth_placeholder d offset (k + 1) :: placeholder_run d offset (k + 1) n
  end.

Definition clean (d : DialectName) (s : string) : Prop := placeholders d s = [].

(** [s] does not continue the number of a preceding Postgres placeholder. *)
Definition starts_token_end (s : string) : bool :=
  match s with String c _ => negb (Str.is_digit c) | EmptyString => true end.

Section text_lemmas.
#[local] Arguments String.append : simpl nomatch.

Lemma digit_prefix_app a b :
  starts_token_end b = true → digit_prefix (a +:+ b) = digit_prefix a.
Proof.
  intros Hb. induction a as [|c a IH]; simpl.
  - destruct b as [|c b]; [done|]. simpl in *. destruct (Str.is_digit c); done.
  - destruct (Str.is_digit c); [|done]. by rewrite IH.
Qed.

Lemma placeholders_app d a b :
  starts_token_end b = true →
  placeholders d (a +:+ b) = placeholders d a ++ placeholders d b.
Proof.
  intros Hb. induction a as [|c a IH]; simpl; [done|].
  destruct (Ascii.eqb c (marker d)); [|done].
  destruct d; simpl; rewrite ?IH, ?digit_prefix_app by done; done.
Qed.

Lemma placeholders_clean_app d a b :
  clean d a → placeholders d (a +:+ b) = placeholders d b.
Proof.
  unfold clean. induction a as [|c a IH]; simpl; [done|].
  destruct (Ascii.eqb c (marker d)); [destruct d; discriminate|done].
Qed.

Lemma clean_app d a b : clean d a → clean d b → clean d (a +:+ b).
Proof. unfold clean. intros Ha Hb. by rewrite placeholders_clean_app. Qed.

Lemma placeholders_join d sep l :
  clean d sep → starts_token_end sep = true → sep ≠ "" →
  placeholders d (Str.join sep l) = concat (placeholders d <$> l).
Proof.
  intros Hsep Hend Hne. induction l as [|w [|w' l] IH];
    [done|simpl; by rewrite app_nil_r|].
  change (Str.join sep (w :: w' :: l)) with (w +:+ sep +:+ Str.join sep (w' :: l)).
  rewrite placeholders_app by (destruct sep; done).
  rewrite placeholders_clean_app by done. by rewrite IH.
Qed.
End text_lemmas.

(** *** The decimal numerals of [itoa] *)

Definition all_digits (s : string) : Prop := digit_prefix s = s.

Lemma all_digits_cons c s : Str.is_digit c = true → all_digits s → all_digits (String c s).
Proof. unfold all_digits. intros Hc Hs. cbn. by rewrite Hc, Hs. Qed.

Lemma pretty_N_char_digit n : (n < 10)%N → Str.is_digit (pretty_N_char n) = true.
Proof.
  intros Hn. assert (n ∈ [0; 1; 2; 3; 4; 5; 6; 7; 8; 9]%N) as Hin.
  { rewrite !elem_of_cons. lia. }
  repeat (apply elem_of_cons in Hin as [->|Hin]; [done|]). by apply elem_of_nil in Hin.
Qed.

Lemma pretty_N_go_digits n s : all_digits s → all_digits (pretty_N_go n s).
Proof.
  revert s. induction (N.lt_wf_0 n) as [n _ IH]. intros s Hs.
  destruct (decide (0 < n)%N) as [Hn|Hn].
  - rewrite pretty_N_go_step by done. apply IH.
    + apply N.div_lt; lia.
    + apply all_digits_cons; [|done]. apply pretty_N_char_digit, N.mod_lt. lia.
  - replace n with 0%N by lia. by rewrite pretty_N_go_0.
Qed.

Lemma itoa_digits z : (0 ≤ z)%Z → all_digits (itoa z).
Proof.
  intros Hz. destruct z as [|p|p]; [done| |lia].
  change (all_digits (pretty_N (N.pos p))). unfold pretty_N.
  case_decide; [done|]. by apply pretty_N_go_digits.
Qed.

Lemma nth_placeholder_scan d off i :
  (0 ≤ off + i)%Z → placeholders d (nth_placeholder d off i) = [nth_placeholder d off i].
Proof.
  intros Hi. destruct d; try done. unfold nth_placeholder.
  change (placeholders DialectPostgres ("$" +:+ itoa (off + i)))
    with (String "$" (digit_prefix (itoa (off + i))) :: placeholders DialectPostgres (itoa (off + i))).
  pose proof (itoa_digits _ Hi) as Hd. rewrite Hd. f_equal.
  revert Hd. generalize (itoa (off + i)). clear. intros s. induction s as [|c s IH]; [done|].
  unfold all_digits. cbn. destruct (Str.is_digit c) eqn:Hc; [|done]. intros [= Hs].
  destruct (Ascii.eqb_spec c "$"); [subst; discriminate|]. by apply IH.
Qed.

Lemma placeholder_run_app d off k n m :
  placeholder_run d off k (n + m) =
    placeholder_run d off k n ++ placeholder_run d off (k + Z.of_nat n) m.
Proof.
  revert k. induction n as [|n IH]; intros k; cbn [placeholder_run Nat.add].
  - by rewrite Z.add_0_r.
  - rewrite IH. cbn. do 3 f_equal. lia.
Qed.

(** ** A logic for one run *)

(** Started with the counter at [k], a successful run appends the arguments
    [xs], advances the counter by their number, and [Q] holds of its result. *)
Definition Emits {A} (k : Z) (m : R A) (Q : A → list value → Prop) : Prop :=
  ∀ st r st', placeholderCounter st = k → m st = Ok (r, st') →
    ∃ xs, st' = mkRstate (k + Z.of_nat (length xs)) (r_args st ++ xs) ∧ Q r xs.

Section emits_rules.
Context {A B : Type}.

Lemma emits_ret k (a : A) (Q : A → list value → Prop) : Q a [] → Emits k (mret a) Q.
Proof.
  intros HQ [c l] r st' Hk Hm. inv_ok. exists []. cbn in *.
  rewrite app_nil_r, Z.add_0_r. by subst.
Qed.

Lemma emits_err k e (Q : A → list value → Prop) : Emits k (se_err e) Q.
Proof. intros st r st' _ Hm. discriminate Hm. Qed.

Lemma emits_lift k (m : result error A) (Q : A → list value → Prop) :
  (∀ a, m = Ok a → Q a []) → Emits k (se_lift m) Q.
Proof.
  intros HQ [c l] r st' Hk Hm. inv_ok. exists []. cbn in *.
  rewrite app_nil_r, Z.add_0_r. subst. eauto.
Qed.

Lemma emits_bind k (m : R A) (f : A → R B) (P : A → list value → Prop)
    (Q : B → list value → Prop) :
  Emits k m P →
  (∀ a xs, P a xs → Emits (k + Z.of_nat (length xs)) (f a) (λ b ys, Q b (xs ++ ys))) →
  Emits k (m ≫= f) Q.
Proof.
  intros Hm Hf st r st' Hk Hrun. apply se_bind_Ok in Hrun as (a & s' & Ha & Hrun).
  destruct (Hm _ _ _ Hk Ha) as (xs & -> & HP).
  destruct (Hf _ _ HP (mkRstate _ _) _ _ eq_refl Hrun) as (ys & -> & HQ).
  exists (xs ++ ys). split; [|done]. cbn. rewrite length_app, <- (assoc_L (++)).
  f_equal. lia.
Qed.

Lemma emits_weaken k (m : R A) (P Q : A → list value → Prop) :
  Emits k m P → (∀ a xs, P a xs → Q a xs) → Emits k m Q.
Proof.
  intros Hm HPQ st r st' Hk Hrun. destruct (Hm _ _ _ Hk Hrun) as (xs & -> & HP). eauto.
Qed.
End emits_rules.

Lemma emits_addArg d off k v (Q : string → list value → Prop) :
  Q (nth_placeholder d off (k + 1)) [v] → Emits k (addArg d off v) Q.
Proof.
  intros HQ [c l] r st' Hk [= <- <-]. exists [v]. cbn in *. subst. split; [|by destruct d].
  done.
Qed.

(** The rules as they are used: the first computation of a bind is known. *)

Lemma emits_addArg_bind {B} d off k v (f : string → R B) Q :
  Emits (k + 1) (f (nth_placeholder d off (k + 1))) (λ b ys, Q b (v :: ys)) →
  Emits k (addArg d off v ≫= f) Q.
Proof.
  intros Hf. eapply emits_bind with
    (P := λ p xs, p = nth_placeholder d off (k + 1) ∧ xs = [v]); [by apply emits_addArg|].
  by intros p xs (-> & ->).
Qed.

Lemma emits_lift_bind {A B} k (m : result error A) (f : A → R B) Q :
  (∀ a, m = Ok a → Emits k (f a) Q) → Emits k (se_lift m ≫= f) Q.
Proof.
  intros Hf. eapply emits_bind with (P := λ a xs, m = Ok a ∧ xs = []); [by apply emits_lift|].
  intros a xs (Ha & ->). cbn [length Z.of_nat app]. rewrite Z.add_0_r.
  eapply emits_weaken; [by apply Hf|done].
Qed.

Lemma emits_ret_bind {A B} k (a : A) (f : A → R B) Q :
  Emits k (f a) Q → Emits k (mret a ≫= f) Q.
Proof. done. Qed.

Lemma emits_err_bind {A B} k e (f : A → R B) Q : Emits k (se_err e ≫= f) Q.
Proof. intros st r st' _ Hm. discriminate Hm. Qed.

Lemma emits_bind_assoc {A B C} k (m : R A) (f : A → R B) (g : B → R C) Q :
  Emits k (m ≫= (λ a, f a ≫= g)) Q → Emits k ((m ≫= f) ≫= g) Q.
Proof.
  intros Hm st r st' Hk Hrun. apply (Hm _ _ _ Hk). revert Hrun. cbv [mbind SE_bind].
  by destruct (m st) as [[a s]|].
Qed.

(** ** The placeholders of a rendering *)

Definition field_clean (d : DialectName) (f : Field) : Prop :=
  clean d (columnExpr f d) ∧ clean d (qualifyColumn d (f_column f)) ∧
  clean d (jsonExtractExpr d f) ∧ clean d (jsonArrayExpr d f).

(** No column, expression or JSON path of the schema contains a marker. *)
Definition schema_clean (d : DialectName) (s : Schema) : Prop :=
  map_Forall (λ _ f, field_clean d f) (s_fields s).

#[export] Instance clean_dec d s : Decision (clean d s).
Proof. unfold clean. apply _. Defined.
#[export] Instance field_clean_dec d f : Decision (field_clean d f).
Proof. unfold field_clean. apply _. Defined.
#[export] Instance schema_clean_dec d s : Decision (schema_clean d s).
Proof. unfold schema_clean. apply _. Defined.

Section text.
Context `{GoPlatform}.
Context (schema : Schema) (d : DialectName) (off : Z).

Definition Text (k : Z) (s : string) (xs : list value) : Prop :=
  placeholders d s = placeholder_run d off k (length xs).

Definition Plain (k : Z) (r : renderResult) (xs : list value) : Prop :=
  rr_trivial r = false ∧ rr_unsat r = false ∧ Text k (rr_sql r) xs.

Lemma Plain_plain k s xs : Text k s xs → Plain k (plain s) xs.
Proof. done. Qed.
End text.

(** Normalise the placeholders of a concatenation, in a concrete dialect. *)
Ltac ph_norm :=
  repeat first
    [ rewrite placeholders_clean_app by (assumption || reflexivity)
    | rewrite placeholders_app by reflexivity
    | rewrite nth_placeholder_scan by lia
    | match goal with H : placeholders _ _ = _ |- _ => rewrite H end
    | match goal with H : clean _ ?s |- context [placeholders ?d ?s] =>
        rewrite (H : placeholders d s = []) end ].

Ltac ph_solve :=
  unfold Text; ph_norm;
  repeat match goal with
  | |- context [placeholders ?d (String ?c ?s)] =>
      let v := eval vm_compute in (placeholders d (String c s)) in
      change (placeholders d (String c s)) with v
  end;
  cbn [length app placeholder_run]; rewrite ?app_nil_r;
  try reflexivity;
  repeat match goal with |- cons _ _ = cons _ _ => f_equal end;
  try reflexivity; try (f_equal; lia).

Section leaf_text.
Context `{GoPlatform}.
Context (schema : Schema) (d : DialectName) (off : Z).
Context (Hoff : (0 ≤ off)%Z) (Hclean : schema_clean d schema).

Abbreviation Plain := (Plain d off).
Abbreviation Text := (Text d off).

Lemma emits_lookup_bind {B} k n (g : Field → R B) Q :
  (∀ f, field_clean d f → Emits k (g f) Q) → Emits k (lookup_field schema n ≫= g) Q.
Proof using Hclean.
  intros Hg. unfold lookup_field, schema_field.
  destruct (s_fields schema !! n) as [f|] eqn:Hf.
  - apply emits_ret_bind, Hg. by eapply Hclean.
  - apply emits_err_bind.
Qed.

Lemma resolve_alias_clean n f : resolve_alias schema n = Some f → field_clean d f.
Proof using Hclean.
  unfold resolve_alias. destruct (s_fields schema !! n) as [g|] eqn:Hg; [|done]. cbn.
  case_decide; [intros ?|intros [= <-]]; by eapply Hclean.
Qed.

(** Run a renderer through the rules; [Text] goals remain. *)
Ltac emits_step :=
  lazymatch goal with
  | |- Emits _ (se_err _) _ => apply emits_err
  | |- Emits _ (se_err _ ≫= _) _ => apply emits_err_bind
  | |- Emits _ (mret _) _ => apply emits_ret
  | |- Emits _ (lookup_field _ _ ≫= _) _ =>
      apply emits_lookup_bind; intros ? (? & ? & ? & ?)
  | |- Emits _ (addArg _ _ _ ≫= _) _ => apply emits_addArg_bind
  | |- Emits _ (addArg _ _ _) _ => apply emits_addArg
  | |- Emits _ (se_lift _ ≫= _) _ => apply emits_lift_bind; intros ? ?
  | |- Emits _ (mret _ ≫= _) _ => apply emits_ret_bind
  | |- Emits _ ((_ ≫= _) ≫= _) _ => apply emits_bind_assoc
  | |- Emits _ (if _ then _ else _) _ => case_match
  | |- Emits _ (match _ with _ => _ end) _ => case_match
  | |- Emits _ ((match _ with _ => _ end) ≫= _) _ => case_match
  | |- Emits _ (let _ := _ in _) _ => cbv zeta
  | |- FilterRenderFacts.Plain _ _ _ (plain _) _ => apply Plain_plain
  end.
Ltac emits := repeat emits_step.

Lemma renderTextMatch_emits k n mode v :
  (0 ≤ k)%Z → Emits k (renderTextMatch schema d off n mode v) (Plain k).
Proof using Hclean Hoff.
  intros Hk. unfold renderTextMatch. emits.
  eapply emits_bind with (P := Text k).
  - unfold foldedLike. emits. destruct d; ph_solve.
  - intros sql xs Hsql. emits. by rewrite app_nil_r.
Qed.

Lemma renderRegex_emits k n pattern :
  (0 ≤ k)%Z → Emits k (renderRegex schema d off n pattern) (Plain k).
Proof using Hclean Hoff.
  intros Hk. unfold renderRegex. emits; simplify_eq; ph_solve.
Qed.

Lemma renderFieldPredicate_emits k n :
  (0 ≤ k)%Z → Emits k (renderFieldPredicate schema d n) (Plain k).
Proof using Hclean Hoff.
  intros Hk. unfold renderFieldPredicate, jsonBoolPredicate, jsonExistsSQL. emits.
  all: destruct d; inv_ok; ph_solve.
Qed.

Lemma renderJSONExistsComparison_emits k f op right :
  (0 ≤ k)%Z → field_clean d f → Emits k (renderJSONExistsComparison d f op right) (Plain k).
Proof using Hclean Hoff.
  intros Hk (? & ? & ? & ?). unfold renderJSONExistsComparison, jsonExistsSQL. emits.
  all: destruct d; inv_ok; ph_solve.
Qed.

Lemma renderBoolColumnComparison_emits k f op right :
  (0 ≤ k)%Z → field_clean d f → Emits k (renderBoolColumnComparison d off f op right) (Plain k).
Proof using Hclean Hoff.
  intros Hk (? & ? & ? & ?). unfold renderBoolColumnComparison, addBoolArg. emits.
  all: destruct op; simplify_eq; ph_solve.
Qed.

Lemma renderJSONBoolComparison_emits k f op right :
  (0 ≤ k)%Z → field_clean d f → Emits k (renderJSONBoolComparison d off f op right) (Plain k).
Proof using Hclean Hoff.
  intros Hk (? & ? & ? & ?). unfold renderJSONBoolComparison. emits.
  all: destruct op; simplify_eq; repeat case_match; ph_solve.
Qed.

Lemma renderScalarComparison_emits k f op right :
  (0 ≤ k)%Z → field_clean d f → Emits k (renderScalarComparison d off f op right) (Plain k).
Proof using Hclean Hoff.
  intros Hk (? & ? & ? & ?). unfold renderScalarComparison, scalar_argument. emits.
  all: destruct d, op; simplify_eq; ph_solve.
Qed.

(** A loop that renders one text per element. *)
Lemma mapM_emits {V} (g : V → R string) (vs : list V) k :
  (∀ k v, (0 ≤ k)%Z → Emits k (g v) (Text k)) → (0 ≤ k)%Z →
  Emits k (mapM g vs) (λ ss xs,
    concat (placeholders d <$> ss) = placeholder_run d off k (length xs)).
Proof using Type.
  intros Hg. revert k. induction vs as [|v vs IH]; intros k Hk; cbn [mapM].
  - by apply emits_ret.
  - eapply emits_bind; [by apply Hg|]. intros s xs Hs. cbn beta.
    eapply emits_bind; [apply IH; lia|]. intros ss ys Hss. apply emits_ret.
    cbn. rewrite app_nil_r, length_app, placeholder_run_app.
    by rewrite Hss, Hs.
Qed.

Lemma renderScalarInCondition_emits k f vs :
  (0 ≤ k)%Z → field_clean d f → Emits k (renderScalarInCondition d off f vs) (Plain k).
Proof using Hclean Hoff.
  intros Hk (? & ? & ? & ?). unfold renderScalarInCondition.
  eapply emits_bind; [apply mapM_emits; [|done]|].
  - intros k' v Hk'. unfold render_in_element. emits; destruct d; ph_solve.
  - intros ss xs Hss. cbn beta in Hss. emits. rewrite app_nil_r.
    rewrite <- (placeholders_join d ",") in Hss by (done || by destruct d).
    destruct d; ph_solve.
Qed.

Lemma timestampAccessorExpr_clean f accessor e :
  field_clean d f → timestampAccessorExpr d f accessor = Ok e → clean d e.
Proof using Type.
  clear Hclean Hoff. intros (_ & Hq & _) He. unfold timestampAccessorExpr in He.
  destruct (accessorSpecs !! accessor) as [spec|] eqn:Hspec; [|done].
  assert (accessorSpecs !! accessor = Some spec → 
          spec ∈ (snd <$> map_to_list accessorSpecs)) as Hin.
  { intros Hs. apply list_elem_of_fmap. exists (accessor, spec).
    split; [done|]. by apply elem_of_map_to_list. }
  specialize (Hin Hspec). clear Hspec. revert Hin He. vm_compute (map_to_list accessorSpecs).
  intros Hin. repeat (apply elem_of_cons in Hin as [->|Hin]; [|]); try by apply elem_of_nil in Hin.
  all: cbn; destruct d; cbn; intros [= <-]; unfold clean in *; ph_solve.
Qed.

Lemma renderAccessorComparison_emits k n accessor op right :
  (0 ≤ k)%Z → Emits k (renderAccessorComparison schema d off n accessor op right) (Plain k).
Proof using Hclean Hoff.
  intros Hk. unfold renderAccessorComparison.
  apply emits_lookup_bind. intros f Hf. emits.
  match goal with He : timestampAccessorExpr _ _ _ = Ok _ |- _ =>
    apply (timestampAccessorExpr_clean _ _ _ Hf) in He end.
  destruct d, op; ph_solve.
Qed.

Lemma size_expr_clean f e : field_clean d f → size_expr d f = Ok e → clean d e.
Proof using Type.
  clear Hclean Hoff. intros (? & ? & ? & ?) He. unfold size_expr, jsonArrayLengthExpr in He.
  repeat case_decide; inv_ok; unfold clean; destruct d; unfold stringLengthExpr; ph_solve.
Qed.

Lemma renderFunctionComparison_emits k n args op right :
  (0 ≤ k)%Z → Emits k (renderFunctionComparison schema d off n args op right) (Plain k).
Proof using Hclean Hoff.
  intros Hk. unfold renderFunctionComparison.
  case_match; [apply emits_err|]. case_match; [apply emits_err|].
  case_match; repeat case_match; try apply emits_err.
  eapply emits_bind with (P := λ f xs, xs = [] ∧ field_clean d f).
  - unfold size_field. apply emits_lookup_bind. intros f Hf.
    repeat case_match; try apply emits_err; apply emits_ret; [|done].
    split; [done|]. by eapply resolve_alias_clean.
  - intros f ? (-> & Hf). cbn [length app Z.of_nat]. rewrite Z.add_0_r. emits.
    match goal with He : size_expr _ _ = Ok _ |- _ =>
      apply (size_expr_clean _ _ Hf) in He end.
    destruct d, op; ph_solve.
Qed.

Lemma renderComparison_emits k l op right :
  (0 ≤ k)%Z → Emits k (renderComparison schema d off l op right) (Plain k).
Proof using Hclean Hoff.
  intros Hk. unfold renderComparison. destruct l; [| apply emits_err | |].
  - apply emits_lookup_bind. intros f Hf. case_match; try apply emits_err.
    + by apply renderScalarComparison_emits.
    + by apply renderBoolColumnComparison_emits.
    + by apply renderJSONBoolComparison_emits.
    + by apply renderJSONExistsComparison_emits.
  - by apply renderFunctionComparison_emits.
  - by apply renderAccessorComparison_emits.
Qed.

(** *** Tag comprehensions *)

Lemma tagElementTextMatch_emits k mode v :
  (0 ≤ k)%Z → Emits k (tagElementTextMatch d off "tag_item.value" mode v) (Text k).
Proof using Hoff.
  clear Hclean. intros Hk. unfold tagElementTextMatch. emits; simplify_eq; try ph_solve.
  destruct d; ph_solve.
Qed.

Lemma tagElementPredicateSQL_emits k pred :
  (0 ≤ k)%Z → Emits k (tagElementPredicateSQL d off "tag_item.value" pred) (Text k).
Proof using Hoff.
  clear Hclean. intros Hk. destruct pred; cbn [tagElementPredicateSQL];
    try by apply tagElementTextMatch_emits.
  emits; simplify_eq; ph_solve.
Qed.

Lemma renderTagComprehension_emits k f pred kind :
  (0 ≤ k)%Z → field_clean d f → Emits k (renderTagComprehension d off f pred kind) (Plain k).
Proof using Hoff.
  clear Hclean. intros Hk (? & ? & ? & ?). unfold renderTagComprehension.
  eapply emits_bind; [by apply tagElementPredicateSQL_emits|].
  intros elem xs Helem. unfold FilterRenderFacts.Text in Helem. emits. subst.
  rewrite app_nil_r. unfold tag_source in *.
  destruct d, kind; inv_ok; unfold anyMatch, noMatch; ph_solve.
Qed.

Lemma renderListComprehension_emits k kind n pred :
  (0 ≤ k)%Z → Emits k (renderListComprehension schema d off kind n pred) (Plain k).
Proof using Hclean Hoff.
  intros Hk. unfold renderListComprehension. apply emits_lookup_bind. intros f Hf.
  case_decide; [|apply emits_err]. by apply renderTagComprehension_emits.
Qed.

Lemma renderElementInCondition_emits k el n :
  (0 ≤ k)%Z → Emits k (renderElementInCondition schema d off el n) (Plain k).
Proof using Hclean Hoff.
  intros Hk. unfold renderElementInCondition. apply emits_lookup_bind. intros f Hf.
  emits. by apply renderTagComprehension_emits.
Qed.

Lemma renderTagInList_emits k vs :
  (0 ≤ k)%Z → Emits k (renderTagInList schema d off vs) (Plain k).
Proof using Hclean Hoff.
  intros Hk. unfold renderTagInList.
  destruct (resolve_alias schema "tag") as [f|] eqn:Hf; [|apply emits_err].
  apply resolve_alias_clean in Hf.
  eapply emits_bind; [apply mapM_emits; [|done]|].
  - intros k' v Hk'. unfold render_tag_element. emits.
    eapply emits_bind; [by apply renderTagComprehension_emits|].
    intros r xs (_ & _ & Hr). apply emits_ret. by rewrite app_nil_r.
  - intros ss xs Hss. cbn beta in Hss. emits. rewrite app_nil_r.
    unfold FilterRenderFacts.Text. rewrite <- Hss.
    destruct ss as [|s1 [|s2 ss]]; [by destruct d|cbn; by rewrite app_nil_r|].
    rewrite <- (placeholders_join d " OR ") by (done || by destruct d).
    destruct d; ph_solve.
Qed.

Lemma renderInCondition_emits k l vs :
  (0 ≤ k)%Z → Emits k (renderInCondition schema d off l vs) (Plain k).
Proof using Hclean Hoff.
  intros Hk. unfold renderInCondition. destruct l; try apply emits_err.
  case_match; [by apply renderTagInList_emits|].
  apply emits_lookup_bind. intros f Hf. case_decide; [|apply emits_err].
  by apply renderScalarInCondition_emits.
Qed.
End leaf_text.

Lemma placeholders_and d a b :
  placeholders d ("(" +:+ a +:+ " AND " +:+ b +:+ ")") = placeholders d a ++ placeholders d b.
Proof. destruct d; ph_norm; cbn; by rewrite app_nil_r. Qed.

Lemma placeholders_or d a b :
  placeholders d ("(" +:+ a +:+ " OR " +:+ b +:+ ")") = placeholders d a ++ placeholders d b.
Proof. destruct d; ph_norm; cbn; by rewrite app_nil_r. Qed.

Lemma placeholders_not d a : placeholders d ("NOT (" +:+ a +:+ ")") = placeholders d a.
Proof. destruct d; ph_norm; cbn; by rewrite app_nil_r. Qed.

Lemma placeholders_false d : placeholders d "1 = 0" = [].
Proof. by destruct d. Qed.

Create HintDb placeholders.
#[export] Hint Rewrite placeholders_and placeholders_or placeholders_not placeholders_false
  : placeholders.

(** ** Placeholders match arguments *)

(** No operand was folded to a constant. *)
Fixpoint constant_free (c : Condition) : bool :=
  match c with
  | LogicalCondition _ l r => constant_free l && constant_free r
  | NotCondition e => constant_free e
  | ConstantCondition _ => false
  | _ => true
  end.

Section conditions.
Context `{GoPlatform}.
Context (schema : Schema) (d : DialectName) (off : Z).
Context (Hoff : (0 ≤ off)%Z) (Hclean : schema_clean d schema).

Abbreviation Plain := (Plain d off).
Abbreviation Text := (Text d off).

Lemma renderCondition_leaf_emits k c :
  match c with
  | LogicalCondition _ _ _ | NotCondition _ | ConstantCondition _ => False
  | _ => True
  end →
  (0 ≤ k)%Z → Emits k (renderCondition schema d off c) (Plain k).
Proof using Hclean Hoff.
  intros Hleaf Hk. destruct c; try done; cbn [renderCondition].
  - by apply renderFieldPredicate_emits.
  - by apply renderComparison_emits.
  - by apply renderInCondition_emits.
  - by apply renderElementInCondition_emits.
  - by apply renderTextMatch_emits.
  - by apply renderRegex_emits.
  - by apply renderListComprehension_emits.
Qed.

Lemma combine_text op k l xs r ys :
  Plain k l xs → Plain (k + Z.of_nat (length xs)) r ys →
  Plain k (match op with LogicalAnd => combineAnd l r | LogicalOr => combineOr l r end)
    (xs ++ ys).
Proof using Type.
  clear Hclean Hoff. intros (Hl1 & Hl2 & Hl) (Hr1 & Hr2 & Hr).
  unfold FilterRenderFacts.Plain, FilterRenderFacts.Text in *.
  rewrite length_app, placeholder_run_app, <- Hl, <- Hr.
  destruct op; unfold combineAnd, combineOr; rewrite Hl1, Hl2, Hr1, Hr2;
    cbn [orb rr_sql rr_trivial rr_unsat plain]; by autorewrite with placeholders.
Qed.

Lemma renderCondition_emits c k :
  constant_free c = true → (0 ≤ k)%Z → Emits k (renderCondition schema d off c) (Plain k).
Proof using Hclean Hoff.
  revert k. induction c as [op l IHl r IHr|e IHe| | | | | | | | ]; intros k Hc Hk;
    try by apply renderCondition_leaf_emits.
  - cbn in Hc. apply andb_true_iff in Hc as [Hcl Hcr]. cbn [renderCondition].
    eapply emits_bind; [by apply IHl|]. intros rl xs Hl.
    eapply emits_bind; [apply IHr; [done|lia]|]. intros rr ys Hr. apply emits_ret.
    rewrite app_nil_r. by apply combine_text.
  - cbn [renderCondition]. eapply emits_bind; [by apply IHe|].
    intros re xs (H1 & H2 & Htext). apply emits_ret. rewrite app_nil_r.
    unfold negate_result. rewrite H1, H2. split_and!; [done..|].
    unfold FilterRenderFacts.Text in *. rewrite <- Htext. apply placeholders_not.
Qed.

(** Without the restriction: a dropped operand leaves its arguments behind, so
    the placeholders of the text are only a subsequence of the run. *)
Lemma renderCondition_sublist c k :
  (0 ≤ k)%Z →
  Emits k (renderCondition schema d off c) (λ r xs,
    placeholders d (rr_sql r) `sublist_of` placeholder_run d off k (length xs)).
Proof using Hclean Hoff.
  revert k. induction c as [op l IHl r IHr|e IHe| | | | | | | b | ]; intros k Hk;
    try (eapply emits_weaken; [by apply renderCondition_leaf_emits|];
         intros r0 xs (_ & _ & Ht); by rewrite Ht).
  - cbn [renderCondition]. eapply emits_bind; [by apply IHl|]. intros rl xs Hl.
    eapply emits_bind; [apply IHr; lia|]. intros rr ys Hr. apply emits_ret.
    cbn beta in *. rewrite app_nil_r, length_app, placeholder_run_app.
    destruct op; unfold combineAnd, combineOr; repeat case_match;
      cbn [rr_sql plain unsat_result trivial_result]; autorewrite with placeholders;
      cbn [placeholders]; try apply sublist_nil_l; try by apply sublist_app.
    all: first [by apply sublist_inserts_l | by apply sublist_inserts_r].
  - cbn [renderCondition]. eapply emits_bind; [by apply IHe|]. intros re xs He.
    apply emits_ret. cbn beta in *. rewrite app_nil_r. unfold negate_result.
    repeat case_match; cbn [rr_sql plain unsat_result trivial_result];
      autorewrite with placeholders; [apply sublist_nil_l..|done].
  - cbn [renderCondition]. apply emits_ret.
    destruct b; cbn [rr_sql trivial_result unsat_result]; autorewrite with placeholders;
      apply sublist_nil_l.
Qed.
End conditions.

Lemma placeholder_run_offset d off k n :
  placeholder_run d off k n = placeholder_run d 0 (off + k) n.
Proof.
  revert k. induction n as [|n IH]; intros k; cbn; [done|]. rewrite IH.
  rewrite (Z.add_assoc off k 1). f_equal. destruct d; cbn; try done. do 2 f_equal. lia.
Qed.

Lemma Render_inv `{GoPlatform} schema d off c stmt :
  Render schema d off c = Ok stmt →
  ∃ r st, renderCondition schema d off c (mkRstate 0 []) = Ok (r, st) ∧
    st_args stmt = r_args st ∧
    st_sql stmt = (if rr_unsat r then "1 = 0" else if rr_trivial r then "" else rr_sql r).
Proof. unfold Render. intros H0. inv_ok. destruct x as [r st]. inv_ok. eauto. Qed.

(** For a filter in which nothing was folded to a constant, the rendered
    SQL text contains, from left to right, exactly the placeholders of its
    arguments: "?" once per argument, or "$(offset+1)" ... "$(offset+n)" in
    this order on Postgres. *)
Theorem render_placeholders `{GoPlatform} schema d off c stmt :
  (0 ≤ off)%Z → schema_clean d schema → constant_free c = true →
  Render schema d off c = Ok stmt →
  placeholders d (st_sql stmt) = placeholder_run d off 0 (length (st_args stmt)).
Proof.
  intros Hoff Hclean Hc Hr. apply Render_inv in Hr as (r & st & Hr & Ha & Hs).
  destruct (renderCondition_emits schema d off Hoff Hclean c 0 Hc ltac:(done)
    (mkRstate 0 []) r st eq_refl Hr) as (xs & -> & Htriv & Hunsat & Htext).
  by rewrite Hs, Ha, Htriv, Hunsat.
Qed.

(** [AppendConditions] keeps the WHERE fragments and the argument list of a
    query in step: if the placeholders of the fragments are those of the
    arguments before the call, they are after it, whether or not the call fails
    on one of the filters. *)
Theorem append_conditions_placeholders `{GoPlatform} cel_compile e filters d where_ args :
  schema_clean d (e_schema e) →
  (∀ f p, f ∈ filters → Compile cel_compile e f = Ok p → constant_free (p_condition p) = true) →
  concat (placeholders d <$> where_) = placeholder_run d 0 0 (length args) →
  let '(where', args', _) := AppendConditions cel_compile e filters d where_ args in
  concat (placeholders d <$> where') = placeholder_run d 0 0 (length args').
Proof.
  intros Hclean. revert where_ args.
  induction filters as [|f fs IH]; intros where_ args Hcf Hinv; [done|].
  cbn [AppendConditions].
  destruct (CompileToStatement _ _ f _) as [stmt|err] eqn:Hstmt; [|done].
  assert (∀ f' p, f' ∈ fs → Compile cel_compile e f' = Ok p →
            constant_free (p_condition p) = true) as Hfs.
  { intros f' p Hin. apply Hcf. by apply elem_of_cons; right. }
  destruct (String.eqb _ _); [by apply IH|]. apply IH; [done|].
  unfold CompileToStatement in Hstmt. inv_ok. rename x into p.
  assert (schema_clean d (p_schema p)) as Hclean'.
  { unfold Compile in H0. case_match; inv_ok. done. }
  apply render_placeholders in Hstmt;
    [|cbn; lia|exact Hclean'|by apply (Hcf f); [apply elem_of_cons; left|]].
  cbn [ro_dialect ro_offset] in Hstmt.
  rewrite fmap_app, concat_app, Hinv, length_app, placeholder_run_app. f_equal.
  cbn [fmap list_fmap concat]. rewrite app_nil_r.
  transitivity (placeholders d (st_sql stmt)).
  { destruct d; ph_norm; cbn; by rewrite app_nil_r. }
  rewrite Hstmt, placeholder_run_offset. f_equal. lia.
Qed.

(** A platform for the examples (amd64 returns the minimum of int64). *)
Definition example_platform : GoPlatform := {| f64_out_of_range := λ _, GoInt.min_int64 |}.

Definition example_filter : Condition :=
  LogicalCondition LogicalAnd
    (ComparisonCondition (FieldRef "visibility") CompareEq (LiteralValue (VString "PUBLIC")))
    (InCondition (FieldRef "tag") [LiteralValue (VString "a"); LiteralValue (VString "b")]).

Lemma render_placeholders_witness :
  ∃ stmt, Render (H := example_platform) NewSchema DialectPostgres 2 example_filter = Ok stmt ∧
    placeholders DialectPostgres (st_sql stmt) = ["$3"; "$4"; "$5"].
Proof.
  eexists. split; [vm_compute; reflexivity|].
  apply (render_placeholders (H := example_platform) NewSchema DialectPostgres 2 example_filter).
  - lia.
  - apply (bool_decide_eq_true_1 _). vm_compute. reflexivity.
  - reflexivity.
  - vm_compute. reflexivity.
Defined.

(** cel-go on two example filter texts. *)
Definition example_cel (_ : Schema) (text : string) : result error expr :=
  if String.eqb text "pinned"
  then Ok (ECall (Call None "_==_" [EIdent "pinned"; EConst (CBool true)]))
  else Ok (ECall (Call None "_==_" [EIdent "creator_id"; EConst (CInt64 7)])).

Definition example_engine : Engine := mkEngine NewSchema (mkTime 0 0 UTC).

Lemma append_conditions_placeholders_witness :
  let '(where', args', _) :=
    AppendConditions (H := example_platform) example_cel example_engine
      ["pinned"; "creator_id"] DialectMySQL [] [] in
  concat (placeholders DialectMySQL <$> where') = placeholder_run DialectMySQL 0 0 (length args').
Proof.
  apply (append_conditions_placeholders (H := example_platform) example_cel example_engine
           ["pinned"; "creator_id"] DialectMySQL [] []).
  - apply (bool_decide_eq_true_1 _). vm_compute. reflexivity.
  - assert (p_condition <$> Compile (H := example_platform) example_cel example_engine "pinned" =
      Ok (ComparisonCondition (FieldRef "pinned") CompareEq
                         (LiteralValue (VBool true)))) as E1 by (vm_compute; reflexivity).
    assert (p_condition <$> Compile (H := example_platform) example_cel example_engine "creator_id" =
      Ok (ComparisonCondition (FieldRef "creator_id") CompareEq
                         (LiteralValue (VInt64 7)))) as E2 by (vm_compute; reflexivity).
    intros f p Hf Hp.
    apply elem_of_cons in Hf as [->|Hf]; [|apply elem_of_cons in Hf as [->|Hf]].
    + rewrite Hp in E1. injection E1 as ->. reflexivity.
    + rewrite Hp in E2. injection E2 as ->. reflexivity.
    + by apply elem_of_nil in Hf.
  - reflexivity.
Defined.

(** ** A folded operand leaves its arguments behind *)

(** Rendering an operand that the simplification then drops still records
    its arguments: for every rendering, the placeholders of the text form a
    subsequence of those of the recorded arguments, and for
    [(visibility == "PUBLIC" || true) && created_ts < 5] it is a proper one: one
    placeholder, two arguments, so the text's only placeholder is bound to
    "PUBLIC". *)
Theorem folded_operand_leaks_arguments `{GoPlatform} :
  (∀ schema d off c r st, (0 ≤ off)%Z → schema_clean d schema →
     renderCondition schema d off c (mkRstate 0 []) = Ok (r, st) →
     placeholders d (rr_sql r) `sublist_of` placeholder_run d off 0 (length (r_args st))) ∧
  Render NewSchema DialectSQLite 0
    (LogicalCondition LogicalAnd
       (LogicalCondition LogicalOr
          (ComparisonCondition (FieldRef "visibility") CompareEq (LiteralValue (VString "PUBLIC")))
          (ConstantCondition true))
       (ComparisonCondition (FieldRef "created_ts") CompareLt (LiteralValue (VInt64 5))))
  = Ok (mkStatement "`memo`.`created_ts` < ?" [VString "PUBLIC"; VInt64 5]).
Proof.
  split.
  - intros schema d off c r st Hoff Hclean Hr.
    destruct (renderCondition_sublist schema d off Hoff Hclean c 0 ltac:(done)
      (mkRstate 0 []) r st eq_refl Hr) as (xs & -> & Hsub). exact Hsub.
  - vm_compute. reflexivity.
Qed.

