(* ===== verification/FilterRenderText.v ===== *)
(** The SQL text of a rendered filter and the number of its arguments do not
    depend on its string and number literals: two runs of the renderer on
    conditions with the same erasure go through the same steps ([Same], a
    relational Hoare triple with equal counters and equally many arguments).
    Booleans and null are not erased: they choose among fixed fragments. *)
From S2P Require Import Prelude GoLib FilterIR FilterRender FilterRenderFacts.

(** ** Literals never reach the SQL text *)

(** Forget the literals of a condition, keeping only what the text may depend
    on: nil, booleans, the dynamic type class of a literal, and whether a tag
    pattern is empty. *)
Definition erase_value (v : value) : value :=
  match v with
  | VNil | VBool _ => v
  | VString _ => VString ""
  | _ => VInt64 0
  end.

Definition erase_operand (e : ValueExpr) : ValueExpr :=
  match e with LiteralValue v => LiteralValue (erase_value v) | _ => e end.

Definition erase_pattern (s : string) : string := if String.eqb s "" then "" else "x".

Definition erase_predicate (p : PredicateExpr) : PredicateExpr :=
  match p with
  | StartsWithPredicate s => StartsWithPredicate (erase_pattern s)
  | EndsWithPredicate s => EndsWithPredicate (erase_pattern s)
  | ContainsPredicate s => ContainsPredicate (erase_pattern s)
  | EqualsPredicate _ => EqualsPredicate ""
  end.

Fixpoint erase (c : Condition) : Condition :=
  match c with
  | LogicalCondition op l r => LogicalCondition op (erase l) (erase r)
  | NotCondition e => NotCondition (erase e)
  | ComparisonCondition l op r => ComparisonCondition l op (erase_operand r)
  | InCondition l vs => InCondition l (erase_operand <$> vs)
  | ElementInCondition el f => ElementInCondition (erase_operand el) f
  | TextMatchCondition f mode _ => TextMatchCondition f mode ""
  | RegexCondition f _ => RegexCondition f ""
  | ListComprehensionCondition kind f _ p => ListComprehensionCondition kind f "" (erase_predicate p)
  | FieldPredicateCondition _ | ConstantCondition _ => c
  end.

(** Equal counters and equally many arguments recorded. *)
Definition alike (st1 st2 : rstate) : Prop :=
  placeholderCounter st1 = placeholderCounter st2 ∧ length (r_args st1) = length (r_args st2).

(** Two runs from states alike give the same result and states alike, or the
    same error. *)
Definition Same {A} (m1 m2 : R A) : Prop :=
  ∀ st1 st2, alike st1 st2 →
    match m1 st1, m2 st2 with
    | Ok (a1, s1), Ok (a2, s2) => a1 = a2 ∧ alike s1 s2
    | Err e1, Err e2 => e1 = e2
    | _, _ => False
    end.

Section same_rules.
Lemma same_refl_ret {A} (a : A) : Same (mret a) (mret a).
Proof. by intros ???. Qed.
Lemma same_err {A} e : Same (A := A) (se_err e) (se_err e).
Proof. by intros ???. Qed.
Lemma same_lift {A} (m1 m2 : result error A) : m1 = m2 → Same (se_lift m1) (se_lift m2).
Proof. intros -> st1 st2 Hc. unfold se_lift. by destruct m2. Qed.
Lemma same_bind {A B} (m1 m2 : R A) (f1 f2 : A → R B) :
  Same m1 m2 → (∀ a, Same (f1 a) (f2 a)) → Same (m1 ≫= f1) (m2 ≫= f2).
Proof.
  intros Hm Hf st1 st2 Hc. specialize (Hm st1 st2 Hc). cbv [mbind SE_bind].
  destruct (m1 st1) as [[a1 s1]|], (m2 st2) as [[a2 s2]|]; try done.
  destruct Hm as [-> Hs]. by apply Hf.
Qed.
(** A lifted computation whose two results are related by [P]. *)
Lemma same_lift_bind {A B} (P : A → A → Prop) (m1 m2 : result error A) (f1 f2 : A → R B) :
  match m1, m2 with
  | Ok a1, Ok a2 => P a1 a2
  | Err e1, Err e2 => e1 = e2
  | _, _ => False
  end →
  (∀ a1 a2, P a1 a2 → Same (f1 a1) (f2 a2)) → Same (se_lift m1 ≫= f1) (se_lift m2 ≫= f2).
Proof.
  intros Hm Hf st1 st2 Hc. cbv [mbind SE_bind]. unfold se_lift.
  destruct m1, m2; try done. by apply (Hf _ _ Hm).
Qed.
Lemma same_addArg d off v1 v2 : Same (addArg d off v1) (addArg d off v2).
Proof.
  intros st1 st2 [Hc Hl]. unfold addArg. rewrite Hc. split; [done|].
  split; cbn; [done|]. by rewrite !length_app, Hl.
Qed.
Lemma same_mapM {A V} (g1 g2 : V → R A) (h : V → V) vs :
  (∀ v, Same (g1 v) (g2 (h v))) → Same (mapM g1 vs) (mapM g2 (h <$> vs)).
Proof.
  intros Hg. induction vs as [|v vs IH]; cbn [mapM fmap list_fmap]; [apply same_refl_ret|].
  apply same_bind; [apply Hg|]. intros a. apply same_bind; [apply IH|].
  intros as_. apply same_refl_ret.
Qed.
End same_rules.

Section same_text.
Context `{GoPlatform}.
Context (schema : Schema) (d : DialectName) (off : Z).
#[local] Arguments toInt64 : simpl never.

(** Two numeric literals convert to some integer, or fail alike. *)
Lemma toInt64_erase v :
  match toInt64 v, toInt64 (erase_value v) with
  | Ok _, Ok _ => True
  | Err e1, Err e2 => e1 = e2
  | _, _ => False
  end.
Proof. by destruct v. Qed.

Lemma toInt64_pair v1 v2 :
  v2 = erase_value v1 →
  match toInt64 v1, toInt64 v2 with
  | Ok _, Ok _ => True
  | Err e1, Err e2 => e1 = e2
  | _, _ => False
  end.
Proof. intros ->. apply toInt64_erase. Qed.

Lemma wrap_pair {A} msg (m1 m2 : result error A) :
  match m1, m2 with
  | Ok _, Ok _ => True
  | Err e1, Err e2 => e1 = e2
  | _, _ => False
  end →
  match wrap_err msg m1, wrap_err msg m2 with
  | Ok _, Ok _ => True
  | Err e1, Err e2 => e1 = e2
  | _, _ => False
  end.
Proof. destruct m1, m2; cbn; try done. by intros ->. Qed.

Lemma expectBool_erase e : expectBool (erase_operand e) = expectBool e.
Proof. by destruct e as [|[]| |]. Qed.

Lemma expectLiteral_erase e :
  match expectLiteral e, expectLiteral (erase_operand e) with
  | Ok a1, Ok a2 => a2 = erase_value a1
  | Err e1, Err e2 => e1 = e2
  | _, _ => False
  end.
Proof. by destruct e. Qed.

Lemma expectNumericLiteral_erase e :
  match expectNumericLiteral e, expectNumericLiteral (erase_operand e) with
  | Ok _, Ok _ => True
  | Err e1, Err e2 => e1 = e2
  | _, _ => False
  end.
Proof. destruct e; cbn; try done. apply toInt64_erase. Qed.

Lemma same_lookup_bind {B} n (f1 f2 : Field → R B) :
  (∀ f, Same (f1 f) (f2 f)) →
  Same (lookup_field schema n ≫= f1) (lookup_field schema n ≫= f2).
Proof.
  intros Hf. apply same_bind; [|done]. unfold lookup_field.
  destruct (schema_field _ _); [apply same_refl_ret|apply same_err].
Qed.

Lemma same_addArg_bind {B} d' v1 v2 (f1 f2 : string → R B) :
  (∀ p, Same (f1 p) (f2 p)) → Same (addArg d' off v1 ≫= f1) (addArg d' off v2 ≫= f2).
Proof. intros Hf. apply same_bind; [apply same_addArg|done]. Qed.

(** Reflexive instances: a computation that reads no literal. *)
Ltac same_step :=
  lazymatch goal with
  | |- Same (mret _) (mret _) => apply same_refl_ret
  | |- Same (se_err _) (se_err _) => apply same_err
  | |- Same (se_err _ ≫= _) (se_err _ ≫= _) => by intros ???
  | |- Same (addArg _ _ _) (addArg _ _ _) => apply same_addArg
  | |- Same (addArg _ _ _ ≫= _) (addArg _ _ _ ≫= _) => apply same_addArg_bind; intros ?
  | |- Same (lookup_field _ _ ≫= _) (lookup_field _ _ ≫= _) =>
      apply same_lookup_bind; intros ?
  | |- Same (se_lift (expectNumericLiteral _) ≫= _) (se_lift (expectNumericLiteral _) ≫= _) =>
      apply (same_lift_bind (λ _ _, True)); [apply expectNumericLiteral_erase|intros ?? _]
  | |- Same (se_lift (expectLiteral _) ≫= _) (se_lift (expectLiteral _) ≫= _) =>
      apply (same_lift_bind (λ a1 a2, a2 = erase_value a1));
        [apply expectLiteral_erase|intros [] ? ->; cbn [erase_value]]
  | |- Same (se_lift (toInt64 _) ≫= _) (se_lift (toInt64 _) ≫= _) =>
      apply (same_lift_bind (λ _ _, True)); [first [done|apply toInt64_pair; done]|intros ?? _]
  | |- Same (se_lift (wrap_err _ (toInt64 _)) ≫= _) (se_lift (wrap_err _ (toInt64 _)) ≫= _) =>
      apply (same_lift_bind (λ _ _, True));
        [first [done|apply wrap_pair, toInt64_pair; done]|intros ?? _]
  | |- Same (se_lift ?m ≫= _) (se_lift ?m ≫= _) =>
      apply same_bind; [by apply same_lift|intros ?]
  | |- Same (match ?x with _ => _ end) (match ?x with _ => _ end) => destruct x
  | |- Same ((_ ≫= _) ≫= _) ((_ ≫= _) ≫= _) => apply same_bind; [|intros ?]
  | |- Same (_ ≫= _) (_ ≫= _) => apply same_bind; [|intros ?]
  | |- Same (if ?x then _ else _) (if ?x then _ else _) => destruct x
  end.
Ltac same := rewrite ?expectBool_erase; repeat (same_step; cbv zeta).

Lemma renderComparison_same l op right :
  Same (renderComparison schema d off l op right)
       (renderComparison schema d off l op (erase_operand right)).
Proof.
  unfold renderComparison, renderBoolColumnComparison, renderJSONBoolComparison,
    renderJSONExistsComparison, renderScalarComparison, scalar_argument, addBoolArg,
    renderFunctionComparison, renderAccessorComparison, size_field.
  same; cbn; same.
Qed.

Lemma tagElementTextMatch_same el mode v :
  Same (tagElementTextMatch d off el mode v)
       (tagElementTextMatch d off el mode (erase_pattern v)).
Proof.
  unfold tagElementTextMatch, erase_pattern.
  destruct (String.eqb v "") eqn:Hv; cbn [String.eqb]; [same|].
  change (String.eqb "x" "") with false. cbn iota. destruct d; same.
Qed.

Lemma tagElementPredicateSQL_same el p :
  Same (tagElementPredicateSQL d off el p)
       (tagElementPredicateSQL d off el (erase_predicate p)).
Proof.
  destruct p; cbn [tagElementPredicateSQL erase_predicate];
    [apply tagElementTextMatch_same..|]. same.
Qed.

Lemma renderTagComprehension_same f p kind :
  Same (renderTagComprehension d off f p kind)
       (renderTagComprehension d off f (erase_predicate p) kind).
Proof.
  unfold renderTagComprehension. apply same_bind; [apply tagElementPredicateSQL_same|].
  intros elem. same.
Qed.

Lemma renderJSONListContains_same f s :
  Same (renderJSONListContains d off f s) (renderJSONListContains d off f "").
Proof. apply (renderTagComprehension_same f (EqualsPredicate s)). Qed.

Lemma render_in_element_same f v :
  Same (render_in_element d off f v) (render_in_element d off f (erase_operand v)).
Proof. unfold render_in_element. same; cbn; same. Qed.

Lemma render_tag_element_same f v :
  Same (render_tag_element d off f v) (render_tag_element d off f (erase_operand v)).
Proof.
  unfold render_tag_element. same_step; try apply same_err.
  apply same_bind; [apply renderJSONListContains_same|intros ?; same].
Qed.

Lemma renderInCondition_same l vs :
  Same (renderInCondition schema d off l vs)
       (renderInCondition schema d off l (erase_operand <$> vs)).
Proof.
  unfold renderInCondition, renderTagInList, renderScalarInCondition. same.
  - apply same_mapM, render_tag_element_same.
  - apply same_mapM, render_in_element_same.
Qed.

Lemma renderElementInCondition_same el n :
  Same (renderElementInCondition schema d off el n)
       (renderElementInCondition schema d off (erase_operand el) n).
Proof.
  unfold renderElementInCondition. same. apply renderJSONListContains_same.
Qed.

Lemma renderListComprehension_same kind n p :
  Same (renderListComprehension schema d off kind n p)
       (renderListComprehension schema d off kind n (erase_predicate p)).
Proof.
  unfold renderListComprehension. same. apply renderTagComprehension_same.
Qed.

Lemma renderCondition_same c :
  Same (renderCondition schema d off c) (renderCondition schema d off (erase c)).
Proof.
  induction c; cbn [renderCondition erase].
  - apply same_bind; [done|]. intros l. apply same_bind; [done|]. intros r. same.
  - apply same_bind; [done|]. intros r. same.
  - unfold renderFieldPredicate. same.
  - apply renderComparison_same.
  - apply renderInCondition_same.
  - apply renderElementInCondition_same.
  - unfold renderTextMatch, foldedLike. same.
  - unfold renderRegex. same.
  - same.
  - apply renderListComprehension_same.
Qed.
End same_text.

(** C22. No string or number literal of a filter reaches the SQL text: two
    conditions that differ only in their string and number literals, and agree
    on which patterns of tag predicates are empty, are rendered to the same text
    with equally many bound arguments, or fail with the same error.  Boolean and
    null literals, constants and the emptiness of a tag pattern are outside
    this claim: they select among fixed fragments of the renderer, such as
    [IS TRUE], [IS NULL], ['false'] and [1 = 1]. *)
Theorem render_text_ignores_literals `{GoPlatform} schema d off c1 c2 :
  erase c1 = erase c2 →
  match Render schema d off c1, Render schema d off c2 with
  | Ok s1, Ok s2 => st_sql s1 = st_sql s2 ∧ length (st_args s1) = length (st_args s2)
  | Err e1, Err e2 => e1 = e2
  | _, _ => False
  end.
Proof.
  intros He.
  pose proof (renderCondition_same schema d off c1 (mkRstate 0 []) (mkRstate 0 []) (conj eq_refl eq_refl)) as H1.
  pose proof (renderCondition_same schema d off c2 (mkRstate 0 []) (mkRstate 0 []) (conj eq_refl eq_refl)) as H2.
  rewrite He in H1. unfold Render. cbn [mbind result_bind].
  destruct (renderCondition schema d off c1 _) as [[r1 s1]|],
           (renderCondition schema d off c2 _) as [[r2 s2]|],
           (renderCondition schema d off (erase c2) _) as [[r3 s3]|]; try done; cbn.
  - destruct H1 as [-> [_ Hl1]], H2 as [-> [_ Hl2]]. split; congruence.
  - congruence.
Qed.

Lemma render_text_ignores_literals_witness :
  match
    Render (H := example_platform) NewSchema DialectSQLite 0
      (TextMatchCondition "content" TextMatchContains "'; DROP TABLE memo; --"),
    Render (H := example_platform) NewSchema DialectSQLite 0
      (TextMatchCondition "content" TextMatchContains "hello") with
  | Ok s1, Ok s2 => st_sql s1 = st_sql s2 ∧ length (st_args s1) = length (st_args s2)
  | Err e1, Err e2 => e1 = e2
  | _, _ => False
  end.
Proof.
  apply (render_text_ignores_literals (H := example_platform) NewSchema DialectSQLite 0
    (TextMatchCondition "content" TextMatchContains "'; DROP TABLE memo; --")
    (TextMatchCondition "content" TextMatchContains "hello")).
  reflexivity.
Defined.
