(* ===== verification/FilterRenderBool.v ===== *)
(** The constant folding of the renderer against a reference renderer that
    keeps the boolean structure of the filter.  The database is modelled by how
    it reads a statement: it binds the arguments to the placeholders of the
    text, by number on PostgreSQL and from left to right elsewhere, and
    evaluates the boolean expression in SQL's three-valued logic, each fragment
    at the arguments it was given. *)
From S2P Require Import Prelude GoLib FilterIR FilterRender FilterRenderFacts.

(** ** Boolean expressions *)

(** Boolean expressions over leaves in [A]: the fragments of a SQL text
    ([A = string]), or fragments with their arguments. *)
Inductive bexp (A : Type) :=
| BConst (b : bool)
| BLeaf (a : A)
| BAnd (l r : bexp A)
| BOr (l r : bexp A)
| BNot (e : bexp A).
Arguments BConst {A} b.
Arguments BLeaf {A} a.
Arguments BAnd {A} l r.
Arguments BOr {A} l r.
Arguments BNot {A} e.

Fixpoint bmap {A B} (f : A → B) (e : bexp A) : bexp B :=
  match e with
  | BConst b => BConst b
  | BLeaf a => BLeaf (f a)
  | BAnd l r => BAnd (bmap f l) (bmap f r)
  | BOr l r => BOr (bmap f l) (bmap f r)
  | BNot e => BNot (bmap f e)
  end.

Fixpoint no_constant {A} (e : bexp A) : bool :=
  match e with
  | BConst _ => false
  | BLeaf _ => true
  | BAnd l r | BOr l r => no_constant l && no_constant r
  | BNot e => no_constant e
  end.

Fixpoint leaves_satisfy {A} (P : A → Prop) (e : bexp A) : Prop :=
  match e with
  | BConst _ => True
  | BLeaf a => P a
  | BAnd l r | BOr l r => leaves_satisfy P l ∧ leaves_satisfy P r
  | BNot e => leaves_satisfy P e
  end.

Lemma no_constant_bmap {A B} (f : A → B) e : no_constant (bmap f e) = no_constant e.
Proof. induction e; cbn; congruence. Qed.

Lemma leaves_satisfy_impl {A} (P Q : A → Prop) e :
  (∀ a, P a → Q a) → leaves_satisfy P e → leaves_satisfy Q e.
Proof. intros HPQ. induction e; cbn; intuition. Qed.

(** SQL truth values. *)
Inductive tri := TTrue | TFalse | TNull.

#[export] Instance tri_eq_dec : EqDecision tri.
Proof. solve_decision. Defined.

Definition tri_and (a b : tri) : tri :=
  match a, b with
  | TFalse, _ | _, TFalse => TFalse
  | TTrue, x => x
  | TNull, _ => TNull
  end.
Definition tri_or (a b : tri) : tri :=
  match a, b with
  | TTrue, _ | _, TTrue => TTrue
  | TFalse, x => x
  | TNull, _ => TNull
  end.
Definition tri_not (a : tri) : tri :=
  match a with TTrue => TFalse | TFalse => TTrue | TNull => TNull end.

(** Truth of an expression when [leaf] gives the value of each leaf. *)
Fixpoint beval {A} (leaf : A → tri) (e : bexp A) : tri :=
  match e with
  | BConst b => if b then TTrue else TFalse
  | BLeaf a => leaf a
  | BAnd l r => tri_and (beval leaf l) (beval leaf r)
  | BOr l r => tri_or (beval leaf l) (beval leaf r)
  | BNot e => tri_not (beval leaf e)
  end.

(** ** How the database reads a statement *)

(** SQL concrete syntax of an expression. *)
Fixpoint bprint (e : bexp string) : string :=
  match e with
  | BConst b => if b then "1 = 1" else "1 = 0"
  | BLeaf sql => sql
  | BAnd l r => "(" +:+ bprint l +:+ " AND " +:+ bprint r +:+ ")"
  | BOr l r => "(" +:+ bprint l +:+ " OR " +:+ bprint r +:+ ")"
  | BNot e => "NOT (" +:+ bprint e +:+ ")"
  end.

(** The argument of a numbered placeholder: the arguments have the numbers
    [first], [first + 1], ... *)
Fixpoint numbered (first : Z) (args : list value) (p : string) : option value :=
  match args with
  | [] => None
  | v :: args =>
      if decide (p = "$" +:+ itoa first) then Some v else numbered (first + 1) args p
  end.

(** The arguments a fragment receives when [pos] placeholders stand before it
    in the text; [None] when a placeholder is left without argument. *)
Definition bound_args (d : DialectName) (off : Z) (args : list value) (pos : nat) (sql : string)
  : option (list value) :=
  let ps := placeholders d sql in
  match d with
  | DialectPostgres => mapM (numbered (off + 1) args) ps
  | _ => mapM (λ i, args !! i) (seq pos (length ps))
  end.

(** Give every fragment of an expression its arguments. *)
Fixpoint bind_args (d : DialectName) (off : Z) (args : list value) (pos : nat)
    (e : bexp string) : option (bexp (string * list value) * nat) :=
  match e with
  | BConst b => Some (BConst b, pos)
  | BLeaf sql =>
      xs ← bound_args d off args pos sql;
      Some (BLeaf (sql, xs), pos + length (placeholders d sql))
  | BAnd l r =>
      '(l', p) ← bind_args d off args pos l;
      '(r', q) ← bind_args d off args p r;
      Some (BAnd l' r', q)
  | BOr l r =>
      '(l', p) ← bind_args d off args pos l;
      '(r', q) ← bind_args d off args p r;
      Some (BOr l' r', q)
  | BNot e => '(e', p) ← bind_args d off args pos e; Some (BNot e', p)
  end.

(** The arguments of the leaves from left to right. *)
Fixpoint args_of (e : bexp (string * list value)) : list value :=
  match e with
  | BConst _ => []
  | BLeaf (_, xs) => xs
  | BAnd l r | BOr l r => args_of l ++ args_of r
  | BNot e => args_of e
  end.

(** The filter as a boolean expression over the fragments of its leaves and
    their own arguments, with nothing folded. *)
Fixpoint reference `{GoPlatform} (s : Schema) (d : DialectName) (off : Z) (c : Condition)
  : R (bexp (string * list value)) :=
  match c with
  | LogicalCondition op l r =>
      a ← reference s d off l;
      b ← reference s d off r;
      mret (match op with LogicalAnd => BAnd a b | LogicalOr => BOr a b end)
  | NotCondition e => a ← reference s d off e; mret (BNot a)
  | ConstantCondition b => mret (BConst b)
  | _ => λ st,
      match renderCondition s d off c st with
      | Ok (r, st') => Ok (BLeaf (rr_sql r, drop (length (r_args st)) (r_args st')), st')
      | Err e => Err e
      end
  end.

(** ** Binding recovers the arguments *)

Lemma numbered_lookup first args i :
  (0 ≤ first)%Z → i < length args →
  numbered first args ("$" +:+ itoa (first + Z.of_nat i)) = args !! i.
Proof.
  revert first i. induction args as [|v args IH]; intros first i Hf Hi; cbn in Hi; [lia|].
  cbn [numbered]. destruct i as [|i].
  - rewrite Z.add_0_r. by case_decide.
  - case_decide as He.
    + exfalso. injection He as He. apply (pretty_Z_inj (first + Z.of_nat (S i))%Z first) in He. lia.
    + cbn [lookup list_lookup]. rewrite <- (IH (first + 1)%Z) by lia. do 2 f_equal. f_equal. lia.
Qed.

Lemma numbered_run off pre xs post :
  (0 ≤ off)%Z →
  mapM (numbered (off + 1) (pre ++ xs ++ post))
    (placeholder_run DialectPostgres off (Z.of_nat (length pre)) (length xs)) = Some xs.
Proof.
  intros Hoff. revert pre. induction xs as [|x xs IH]; intros pre; [done|].
  cbn [length placeholder_run mapM].
  replace (nth_placeholder DialectPostgres off (Z.of_nat (length pre) + 1))
    with ("$" +:+ itoa (off + 1 + Z.of_nat (length pre))) by (unfold nth_placeholder; do 2 f_equal; lia).
  rewrite numbered_lookup by (rewrite ?length_app; cbn; lia).
  cbn [app]. rewrite (list_lookup_middle _ _ x) by done. cbn [mbind option_bind].
  specialize (IH (pre ++ [x])). rewrite length_app, <- !(assoc_L (++)) in IH. cbn [length app] in IH.
  replace (Z.of_nat (length pre) + 1)%Z with (Z.of_nat (length pre + 1)) by lia.
  by rewrite IH.
Qed.

Lemma positional_run (pre xs post : list value) :
  mapM (λ i, (pre ++ xs ++ post) !! i) (seq (length pre) (length xs)) = Some xs.
Proof.
  revert pre. induction xs as [|x xs IH]; intros pre; [done|]. cbn [length seq mapM].
  cbn [app]. rewrite (list_lookup_middle _ _ x) by done. cbn [mbind option_bind].
  specialize (IH (pre ++ [x])). rewrite length_app, <- (assoc_L (++)) in IH. cbn in IH.
  rewrite Nat.add_1_r in IH. by rewrite IH.
Qed.

Section placed.
Context (d : DialectName) (off : Z) (Hoff : (0 ≤ off)%Z).

(** A fragment whose arguments are a run of [args] and whose placeholders are
    those of this run. *)
Definition placed (args : list value) (leaf : string * list value) : Prop :=
  ∃ pre post, args = pre ++ leaf.2 ++ post ∧
    placeholders d leaf.1 = placeholder_run d off (Z.of_nat (length pre)) (length leaf.2).

Lemma placed_more args more leaf : placed args leaf → placed (args ++ more) leaf.
Proof.
  intros (pre & post & -> & Hp). exists pre, (post ++ more).
  by rewrite <- !(assoc_L (++)).
Qed.

Lemma placeholder_run_length k n : length (placeholder_run d off k n) = n.
Proof. revert k. induction n as [|n IH]; intros k; cbn; [done|]. by rewrite IH. Qed.

Lemma placed_length args leaf :
  placed args leaf → length (placeholders d leaf.1) = length leaf.2.
Proof. intros (pre & post & _ & ->). apply placeholder_run_length. Qed.

(** The placeholders of a text number the arguments of its fragments. *)
Lemma bprint_length args u :
  leaves_satisfy (placed args) u → no_constant u = true →
  length (placeholders d (bprint (bmap fst u))) = length (args_of u).
Proof.
  induction u as [b|[sql xs]|l IHl r IHr|l IHl r IHr|e IHe]; cbn [leaves_satisfy no_constant];
    cbn [bmap bprint args_of]; autorewrite with placeholders; rewrite ?length_app; intros Hp Hn.
  - done.
  - apply (placed_length args _ Hp).
  - apply andb_true_iff in Hn as [? ?]. destruct Hp. by rewrite IHl, IHr.
  - apply andb_true_iff in Hn as [? ?]. destruct Hp. by rewrite IHl, IHr.
  - by apply IHe.
Qed.

(** By number, wherever the fragment stands. *)
Lemma bind_args_numbered args u pos :
  d = DialectPostgres → leaves_satisfy (placed args) u →
  ∃ p, bind_args d off args pos (bmap fst u) = Some (u, p).
Proof using Hoff.
  intros Hd. revert pos.
  induction u as [b|[sql xs]|l IHl r IHr|l IHl r IHr|e IHe]; intros pos; cbn [leaves_satisfy bmap bind_args].
  - eauto.
  - intros (pre & post & Ha & Hp). cbn [fst snd] in *. unfold bound_args. rewrite Hp, Ha, Hd.
    rewrite numbered_run by done. cbn. eauto.
  - intros [Hl Hr]. destruct (IHl pos Hl) as [p ->]. cbn [mbind option_bind].
    destruct (IHr p Hr) as [q ->]. cbn. eauto.
  - intros [Hl Hr]. destruct (IHl pos Hl) as [p ->]. cbn [mbind option_bind].
    destruct (IHr p Hr) as [q ->]. cbn. eauto.
  - intros He. destruct (IHe pos He) as [p ->]. cbn. eauto.
Qed.

(** By position, when every argument belongs to a fragment. *)
Lemma bind_args_positional args pre u post :
  d ≠ DialectPostgres → leaves_satisfy (placed args) u →
  bind_args d off (pre ++ args_of u ++ post) (length pre) (bmap fst u) =
    Some (u, length pre + length (args_of u)).
Proof using Type.
  intros Hd. revert pre post.
  induction u as [b|[sql xs]|l IHl r IHr|l IHl r IHr|e IHe]; intros pre post;
    cbn [leaves_satisfy bmap bind_args args_of].
  - intros _. cbn. by rewrite Nat.add_0_r.
  - intros Hp. apply placed_length in Hp. cbn [fst snd] in *. unfold bound_args.
    rewrite Hp. pose proof (positional_run pre xs post) as Hrun.
    destruct d; try done; by rewrite Hrun.
  - intros [Hl Hr]. rewrite <- (assoc_L (++)), (IHl pre _ Hl). cbn [mbind option_bind].
    specialize (IHr (pre ++ args_of l) post Hr).
    rewrite length_app, <- (assoc_L (++)) in IHr. rewrite IHr. cbn. by rewrite length_app, Nat.add_assoc.
  - intros [Hl Hr]. rewrite <- (assoc_L (++)), (IHl pre _ Hl). cbn [mbind option_bind].
    specialize (IHr (pre ++ args_of l) post Hr).
    rewrite length_app, <- (assoc_L (++)) in IHr. rewrite IHr. cbn. by rewrite length_app, Nat.add_assoc.
  - intros He. by rewrite IHe.
Qed.
End placed.

Lemma sublist_same_length {A} (k l : list A) : k `sublist_of` l → length k = length l → k = l.
Proof.
  induction 1 as [|x k l Hs IH|x k l Hs IH]; cbn; [done| |].
  - intros [= Hl]. by rewrite IH.
  - intros Hl. apply sublist_length in Hs. lia.
Qed.

(** ** Folding *)

Section folding.
Context (d : DialectName) (off : Z).

(** A result of the renderer stands for an unfolded expression, once the
    arguments [args] are recorded. *)
Definition stands_for (args : list value) (r : renderResult) (t : bexp (string * list value))
  : Prop :=
  (rr_trivial r = true ∧ rr_unsat r = false ∧ ∀ leaf, beval leaf t = TTrue) ∨
  (rr_unsat r = true ∧ rr_trivial r = false ∧ ∀ leaf, beval leaf t = TFalse) ∨
  (rr_trivial r = false ∧ rr_unsat r = false ∧
   ∃ u, no_constant u = true ∧ rr_sql r = bprint (bmap fst u) ∧
        leaves_satisfy (placed d off args) u ∧ args_of u `sublist_of` args_of t ∧
        ∀ leaf, beval leaf u = beval leaf t).

Lemma stands_for_more args more r t : stands_for args r t → stands_for (args ++ more) r t.
Proof.
  intros [?|[?|(Ht&Hu&u&Hn&Hs&Hp&Hsub&He)]]; [by left|by right; left|right; right].
  split_and!; [done..|]. exists u. split_and!; try done.
  eapply leaves_satisfy_impl; [|exact Hp]. intros leaf. apply placed_more.
Qed.

(** The cases of two combined results: in each, which operand survives. *)
Ltac combine_cases :=
  intros [(Ha&Ha'&Ea)|[(Ha&Ha'&Ea)|(Ha&Ha'&ua&Na&Pa&La&Sa&Ea)]]
         [(Hb&Hb'&Eb)|[(Hb&Hb'&Eb)|(Hb&Hb'&ub&Nb&Pb&Lb&Sb&Eb)]];
    unfold combineAnd, combineOr;
    repeat match goal with H : _ = _ :> bool |- _ => progress rewrite ?H end; cbn [orb].
Ltac truth ta tb :=
  let leaf := fresh "leaf" in
  intros leaf; cbn;
  repeat match goal with H : ∀ leaf, beval leaf _ = _ |- _ => rewrite H end;
  by destruct (beval leaf ta), (beval leaf tb).

Lemma combineAnd_stands_for args a b ta tb :
  stands_for args a ta → stands_for args b tb →
  stands_for args (combineAnd a b) (BAnd ta tb).
Proof.
  combine_cases;
    first
      [ left; split_and!; [done..|]; truth ta tb
      | right; left; split_and!; [done..|]; truth ta tb
      | right; right; split_and!; [done..|] ].
  - exists ub. split_and!; [done..| |truth ta tb]. by apply sublist_inserts_l.
  - exists ua. split_and!; [done..| |truth ta tb]. by apply sublist_inserts_r.
  - exists (BAnd ua ub). split_and!.
    + cbn. by rewrite Na, Nb.
    + cbn. by rewrite <- Pa, <- Pb.
    + done.
    + by apply sublist_app.
    + truth ta tb.
Qed.

Lemma combineOr_stands_for args a b ta tb :
  stands_for args a ta → stands_for args b tb →
  stands_for args (combineOr a b) (BOr ta tb).
Proof.
  combine_cases;
    first
      [ left; split_and!; [done..|]; truth ta tb
      | right; left; split_and!; [done..|]; truth ta tb
      | right; right; split_and!; [done..|] ].
  - exists ub. split_and!; [done..| |truth ta tb]. by apply sublist_inserts_l.
  - exists ua. split_and!; [done..| |truth ta tb]. by apply sublist_inserts_r.
  - exists (BOr ua ub). split_and!.
    + cbn. by rewrite Na, Nb.
    + cbn. by rewrite <- Pa, <- Pb.
    + done.
    + by apply sublist_app.
    + truth ta tb.
Qed.

Lemma negate_stands_for args a ta :
  stands_for args a ta → stands_for args (negate_result a) (BNot ta).
Proof.
  intros [(Ha&Ha'&Ea)|[(Ha&Ha'&Ea)|(Ha&Ha'&ua&Na&Pa&La&Sa&Ea)]];
    unfold negate_result; rewrite ?Ha, ?Ha'.
  - right; left. split_and!; [done..|]. truth ta ta.
  - left. split_and!; [done..|]. truth ta ta.
  - right; right. split_and!; [done..|]. exists (BNot ua).
    split_and!; [done|cbn; by rewrite <- Pa|done|done|truth ta ta].
Qed.
End folding.

(** ** The renderer and the reference run in step *)

Section in_step.
Context `{GoPlatform} (s : Schema) (d : DialectName) (off : Z).
Context (Hoff : (0 ≤ off)%Z) (Hclean : schema_clean d s).

Definition counted (st : rstate) : Prop := placeholderCounter st = Z.of_nat (length (r_args st)).

(** Both record the same arguments, those of the reference expression, for
    which the result of the renderer stands. *)
Definition in_step (c : Condition) : Prop := ∀ st, counted st →
  match renderCondition s d off c st, reference s d off c st with
  | Ok (r, s1), Ok (t, s2) =>
      s1 = s2 ∧ counted s1 ∧ r_args s1 = r_args st ++ args_of t ∧
      stands_for d off (r_args s1) r t
  | Err e1, Err e2 => e1 = e2
  | _, _ => False
  end.

Definition is_leaf (c : Condition) : bool :=
  match c with
  | LogicalCondition _ _ _ | NotCondition _ | ConstantCondition _ => false
  | _ => true
  end.

Lemma leaf_in_step c : is_leaf c = true → in_step c.
Proof using Hoff Hclean.
  intros Hl st Hst.
  assert (Emits (placeholderCounter st) (renderCondition s d off c)
            (Plain d off (placeholderCounter st))) as Hem.
  { apply renderCondition_leaf_emits; [done..|by destruct c|rewrite Hst; lia]. }
  assert (reference s d off c st =
    match renderCondition s d off c st with
    | Ok (r, st') => Ok (BLeaf (rr_sql r, drop (length (r_args st)) (r_args st')), st')
    | Err e => Err e
    end) as -> by (by destruct c).
  destruct (renderCondition s d off c st) as [[r s1]|] eqn:Hr; [|done].
  destruct (Hem st r s1 eq_refl Hr) as (xs & -> & Ht & Hu & Htext). cbn [r_args].
  rewrite drop_app_length. split_and!; [done| |done|].
  - unfold counted in *. cbn. rewrite length_app. lia.
  - right; right. split_and!; [done..|]. exists (BLeaf (rr_sql r, xs)).
    split_and!; [done..| |done|done]. exists (r_args st), [].
    rewrite app_nil_r. split; [done|]. cbn. by rewrite <- Hst.
Qed.

Lemma renderCondition_in_step c : in_step c.
Proof using Hoff Hclean.
  induction c as [op l IHl r IHr|e IHe| | | | | | |b|]; try by apply leaf_in_step.
  - intros st Hst. cbn [renderCondition reference]. cbv [mbind SE_bind].
    specialize (IHl st Hst).
    destruct (renderCondition s d off l st) as [[a s1]|],
             (reference s d off l st) as [[ta s1']|]; try done.
    destruct IHl as (<- & Hc1 & Ha1 & Ha). specialize (IHr s1 Hc1).
    destruct (renderCondition s d off r s1) as [[b s2]|],
             (reference s d off r s1) as [[tb s2']|]; try done.
    destruct IHr as (<- & Hc2 & Ha2 & Hb). cbn [mret SE_ret].
    apply (stands_for_more d off _ (args_of tb)) in Ha. rewrite <- Ha2 in Ha.
    split_and!; [done..| |].
    + rewrite Ha2, Ha1, <- (assoc_L (++)). by destruct op.
    + destruct op; [by apply combineAnd_stands_for|by apply combineOr_stands_for].
  - intros st Hst. cbn [renderCondition reference]. cbv [mbind SE_bind].
    specialize (IHe st Hst).
    destruct (renderCondition s d off e st) as [[a s1]|],
             (reference s d off e st) as [[ta s1']|]; try done.
    destruct IHe as (<- & Hc & Hargs & Ha). cbn. split_and!; [done..|].
    by apply negate_stands_for.
  - intros st Hst. cbn. rewrite app_nil_r. split_and!; [done..|].
    destruct b; [left|right; left]; done.
Qed.
End in_step.


(** [(pinned == true || false) && created_ts < 5]: folding leaves no argument
    behind. *)
Definition folded_example : Condition :=
  LogicalCondition LogicalAnd
    (LogicalCondition LogicalOr
       (ComparisonCondition (FieldRef "pinned") CompareEq (LiteralValue (VBool true)))
       (ConstantCondition false))
    (ComparisonCondition (FieldRef "created_ts") CompareLt (LiteralValue (VInt64 5))).

