(* ===== verification/FilterLike.v ===== *)
(** The LIKE patterns of the renderer match exactly the texts that start with,
    end with or contain the searched value: no byte of the value acts as a
    wildcard. *)
From S2P Require Import Prelude GoLib FilterIR FilterRender.

(** ** SQL LIKE *)

(** LIKE with an ESCAPE byte, as the three databases document it; [same] is the
    comparison of two bytes under the collation in use. *)
Class LikeEngine (same : ascii → ascii → bool) := {
  like : ascii → string → string → bool;
  like_nil esc t : like esc "" t = bool_decide (t = "");
  like_percent_nil esc p : esc ≠ "%"%char → like esc (String "%" p) "" = like esc p "";
  like_percent_cons esc p c t : esc ≠ "%"%char →
    like esc (String "%" p) (String c t) = like esc p (String c t) || like esc (String "%" p) t;
  like_escaped esc c p t :
    like esc (String esc (String c p)) t =
    match t with String c' t' => same c c' && like esc p t' | EmptyString => false end;
  like_ordinary esc c p t : c ≠ esc → c ≠ "%"%char → c ≠ "_"%char →
    like esc (String c p) t =
    match t with String c' t' => same c c' && like esc p t' | EmptyString => false end;
}.

(** A text equal to [v] byte for byte under the collation. *)
Fixpoint same_text (same : ascii → ascii → bool) (v t : string) : bool :=
  match v, t with
  | EmptyString, EmptyString => true
  | String a v, String b t => same a b && same_text same v t
  | _, _ => false
  end.

(** What each matching mode promises of a text. *)
Definition matches (same : ascii → ascii → bool) (mode : TextMatchMode) (v t : string) : Prop :=
  match mode with
  | TextMatchPrefix => ∃ m post, t = m +:+ post ∧ same_text same v m = true
  | TextMatchSuffix => ∃ pre m, t = pre +:+ m ∧ same_text same v m = true
  | TextMatchContains => ∃ pre m post, t = pre +:+ (m +:+ post) ∧ same_text same v m = true
  end.

Section like_lemmas.
Context {same : ascii → ascii → bool} `{LikeEngine same}.
#[local] Arguments String.append : simpl nomatch.

Lemma like_percent esc p t :
  esc ≠ "%"%char →
  like esc (String "%" p) t = true ↔ ∃ pre post, t = pre +:+ post ∧ like esc p post = true.
Proof.
  intros He. induction t as [|c t IH].
  - rewrite like_percent_nil by done. split.
    + intros Hl. by exists "", "".
    + intros (pre & post & Ht & Hl). destruct pre; [|discriminate].
      cbn in Ht. by subst.
  - rewrite like_percent_cons by done. rewrite orb_true_iff, IH. split.
    + intros [Hl|(pre & post & -> & Hl)]; [by exists "", (String c t)|].
      by exists (String c pre), post.
    + intros (pre & post & Ht & Hl). destruct pre as [|c' pre]; cbn in Ht.
      * left. by subst.
      * right. injection Ht as -> ->. by exists pre, post.
Qed.

(** A pattern byte that stands for exactly the byte [c]. *)
Definition escapes (esc : ascii) (f : ascii → string) : Prop :=
  ∀ c, (f c = String esc (String c "")) ∨
       (f c = String c "" ∧ c ≠ esc ∧ c ≠ "%"%char ∧ c ≠ "_"%char).

Lemma like_literal esc f v p t :
  escapes esc f →
  like esc (Str.replace_bytes f v +:+ p) t = true ↔
  ∃ m post, t = m +:+ post ∧ same_text same v m = true ∧ like esc p post = true.
Proof.
  intros Hf. revert t. induction v as [|c v IH]; intros t.
  - cbn. split.
    + intros Hl. by exists "", t.
    + intros (m & post & -> & Hm & Hl). by destruct m.
  - cbn [Str.replace_bytes]. rewrite <- Str.app_assoc.
    assert (like esc (f c +:+ (Str.replace_bytes f v +:+ p)) t =
      match t with
      | String c' t' => same c c' && like esc (Str.replace_bytes f v +:+ p) t'
      | EmptyString => false
      end) as ->.
    { destruct (Hf c) as [->|(-> & ? & ? & ?)]; cbn;
        [apply like_escaped|by apply like_ordinary]. }
    destruct t as [|c' t]; cbn.
    + split; [done|]. intros (m & post & Ht & Hm & _).
      destruct m; cbn in Ht; simplify_eq/=; done.
    + rewrite andb_true_iff, IH. split.
      * intros (Hc & m & post & -> & Hm & Hl). exists (String c' m), post.
        cbn. by rewrite Hc, Hm.
      * intros (m & post & Ht & Hm & Hl). destruct m as [|b m]; [done|].
        cbn in Ht, Hm. injection Ht as -> ->. apply andb_true_iff in Hm as [? ?].
        split; [done|]. by exists m, post.
Qed.

Lemma like_rest_nil esc t : like esc "" t = true ↔ t = "".
Proof. rewrite like_nil. apply bool_decide_eq_true. Qed.

Lemma like_rest_percent esc t : esc ≠ "%"%char → like esc "%" t = true.
Proof.
  intros He. apply like_percent; [done|]. exists t, "".
  rewrite Str.app_nil_r. split; [done|]. by apply like_rest_nil.
Qed.

Lemma wrap_pattern_matches esc f mode v t :
  escapes esc f → esc ≠ "%"%char →
  like esc (wrap_pattern mode (Str.replace_bytes f v)) t = true ↔ matches same mode v t.
Proof.
  intros Hf He. destruct mode; unfold wrap_pattern, matches.
  - change ("%" +:+ ?x) with (String "%" x). rewrite like_percent by done. split.
    + intros (pre & post & -> & Hl). rewrite like_literal in Hl by done.
      destruct Hl as (m & post' & -> & Hm & _). by exists pre, m, post'.
    + intros (pre & m & post & -> & Hm). exists pre, (m +:+ post). split; [done|].
      apply like_literal; [done|]. exists m, post.
      split_and!; [done..|by apply like_rest_percent].
  - rewrite like_literal by done. split.
    + intros (m & post & -> & Hm & _). by eauto.
    + intros (m & post & -> & Hm). exists m, post.
      split_and!; [done..|by apply like_rest_percent].
  - change ("%" +:+ ?x) with (String "%" x). rewrite like_percent by done. split.
    + intros (pre & post & -> & Hl). exists pre, post. split; [done|].
      rewrite <- (Str.app_nil_r (Str.replace_bytes f v)), like_literal in Hl by done.
      destruct Hl as (m & ? & -> & Hm & ->%like_rest_nil). by rewrite Str.app_nil_r.
    + intros (pre & m & -> & Hm). exists pre, m. split; [done|].
      rewrite <- (Str.app_nil_r (Str.replace_bytes f v)), like_literal by done.
      exists m, "". rewrite Str.app_nil_r. split_and!; [done..|by apply like_rest_nil].
Qed.

Lemma escape_like_escapes : escapes "\" escape_like_byte.
Proof.
  intros c. unfold escape_like_byte.
  destruct (Ascii.eqb_spec c "\"); [subst; by left|].
  destruct (Ascii.eqb_spec c "%"); [subst; by left|].
  destruct (Ascii.eqb_spec c "_"); [subst; by left|]. by right.
Qed.

Lemma tag_escape_escapes : escapes "!" tag_escape_byte.
Proof.
  intros c. unfold tag_escape_byte.
  destruct (Ascii.eqb_spec c "!"); [subst; by left|].
  destruct (Ascii.eqb_spec c "%"); [subst; by left|].
  destruct (Ascii.eqb_spec c "_"); [subst; by left|]. by right.
Qed.
End like_lemmas.

(** The pattern sent for [contains], [startsWith] and [endsWith] matches
    exactly the texts with that property, whatever bytes the searched value
    has: a percent sign, an underscore or the escape byte in it stands for
    itself.  Both for the content patterns (escaped with a backslash) and for
    the tag patterns (escaped with an exclamation mark). *)
Theorem like_patterns_exact {same} (L : LikeEngine same) mode v t :
  (like (LikeEngine := L) "\" (likePattern mode v) t = true ↔ matches same mode v t) ∧
  (like (LikeEngine := L) "!" (tagLikePattern mode v) t = true ↔ matches same mode v t).
Proof.
  split; apply wrap_pattern_matches; (apply escape_like_escapes || apply tag_escape_escapes || done).
Qed.

(** ** A LIKE engine *)

Section matcher.
Context (same : ascii → ascii → bool).

Fixpoint like_match (esc : ascii) (p t : string) {struct p} : bool :=
  match p with
  | EmptyString => bool_decide (t = "")
  | String c p =>
      if Ascii.eqb c esc then
        match p, t with
        | String c p, String c' t => same c c' && like_match esc p t
        | _, _ => false
        end
      else if Ascii.eqb c "%" then
        (fix any (t : string) : bool :=
           like_match esc p t || match t with String _ t => any t | EmptyString => false end) t
      else
        match t with
        | String c' t => (Ascii.eqb c "_" || same c c') && like_match esc p t
        | EmptyString => false
        end
  end.

Program Definition like_match_engine : LikeEngine same := {| like := like_match |}.
Next Obligation. done. Qed.
Next Obligation.
  intros esc p He. cbn -[Ascii.eqb].
  destruct (Ascii.eqb_spec "%" esc); [by subst|]. apply orb_false_r.
Qed.
Next Obligation.
  intros esc p c t He. cbn -[Ascii.eqb]. by destruct (Ascii.eqb_spec "%" esc); [subst|].
Qed.
Next Obligation. intros esc c p t. cbn -[Ascii.eqb]. by rewrite Ascii.eqb_refl. Qed.
Next Obligation.
  intros esc c p t H1 H2 H3. cbn -[Ascii.eqb].
  apply Ascii.eqb_neq in H1 as ->, H2 as ->. destruct t; [done|].
  apply Ascii.eqb_neq in H3. by rewrite (Ascii.eqb_sym c "_"), (Ascii.eqb_sym "_" c), H3.
Qed.
End matcher.

Lemma like_patterns_exact_witness :
  like_match Ascii.eqb "\" (likePattern TextMatchContains "50%_\") "from 50%_\ on" = true.
Proof.
  apply (like_patterns_exact (like_match_engine Ascii.eqb) TextMatchContains "50%_\" "from 50%_\ on").
  by exists "from ", "50%_\", " on".
Defined.
