(* ===== verification/FilterParserFacts.v ===== *)
(** What the parser guarantees of the condition tree: well-formedness against
    the schema, no run-time panic, exact constant folding, sound operand
    swapping, and the meaning of the set operations. *)
From S2P Require Import Prelude GoLib GoTime FilterIR FilterParser.

(** ** Well-formed conditions *)

Definition allows (f : Field) (op : ComparisonOperator) : Prop :=
  match f_allowed_ops f with None => True | Some ops => is_Some (ops !! op) end.

(** The operator check of the parser looks through one alias. *)
Definition op_allowed (s : Schema) (name : string) (op : ComparisonOperator) : Prop :=
  ∃ f, resolve_alias s name = Some f ∧ allows f op.

Fixpoint wf_value (s : Schema) (e : ValueExpr) : Prop :=
  match e with
  | FieldRef n => is_Some (schema_field s n)
  | LiteralValue _ => True
  | FunctionValue fn args =>
      fn = "size" ∧ match args with [a] => wf_value s a | _ => False end
  | FieldAccessorValue n acc =>
      isTimestampAccessor acc = true ∧
      ∃ f, schema_field s n = Some f ∧ f_type f = FieldTypeTimestamp
  end.

Definition is_literal (e : ValueExpr) : bool :=
  match e with LiteralValue _ => true | _ => false end.

Fixpoint wf_condition (s : Schema) (c : Condition) : Prop :=
  match c with
  | LogicalCondition _ l r => wf_condition s l ∧ wf_condition s r
  | NotCondition e => wf_condition s e
  | FieldPredicateCondition n => ∃ f, schema_field s n = Some f ∧ f_type f = FieldTypeBool
  | ComparisonCondition l op r =>
      is_literal l = false ∧ wf_value s l ∧ wf_value s r ∧
      match l with FieldRef n => op_allowed s n op | _ => True end
  | InCondition l vs =>
      (∃ n, l = FieldRef n ∧ is_Some (resolve_alias s n)) ∧ Forall (wf_value s) vs
  | ElementInCondition el n => wf_value s el ∧ is_Some (schema_field s n)
  | TextMatchCondition n _ _ | RegexCondition n _ =>
      ∃ f, schema_field s n = Some f ∧ f_supports_contains f = true
  | ListComprehensionCondition _ n _ _ =>
      ∃ f, schema_field s n = Some f ∧ f_kind f = FieldKindJSONList
  | ConstantCondition _ => True
  end.

(** Case analysis on the guards of a run that returned a value, from the
    outermost in. *)
Ltac run_step H :=
  lazymatch type of H with
  | Err _ = Ok _ => discriminate H
  | (_ ≫= _) = Ok _ => apply bind_Ok in H as (? & ? & H)
  | wrap_err _ _ = Ok _ => apply wrap_err_Ok in H
  | match ?x with _ => _ end = Ok _ => destruct x eqn:?
  end.
Ltac run H := repeat (run_step H; cbv beta iota in H).

Section well_formed.
Context `{GoPlatform}.

Lemma getIdentName_Ok e n : getIdentName e = Ok n → e = EIdent n.
Proof. destruct e; cbn; naive_solver. Qed.

Lemma buildTimestampAccessor_wf t fn args pc v :
  isTimestampAccessor fn = true →
  buildTimestampAccessor t fn args pc = Ok v → wf_value (pc_schema pc) v.
Proof. unfold buildTimestampAccessor. intros Ha Hb. run Hb; injection Hb as <-; cbn; eauto. Qed.

Lemma buildValueExpr_wf : ∀ e pc v,
  buildValueExpr e pc = Ok v → wf_value (pc_schema pc) v.
Proof.
  fix IH 1. intros e pc v. destruct e as [c|n|[t fn args]| | |];
    cbn [buildValueExpr getIdentName get_ident].
  - intros Hb. run Hb; by injection Hb as <-.
  - intros Hb. run Hb; injection Hb as <-; [done|by eexists].
  - intros Hb. run Hb;
      lazymatch type of Hb with
      | buildTimestampAccessor _ _ _ _ = Ok _ =>
          eapply buildTimestampAccessor_wf; eassumption
      | Ok (LiteralValue _) = Ok _ => injection Hb as <-; exact I
      | _ => injection Hb as <-; split; [reflexivity|]; eapply IH; eassumption
      end.
  - intros Hb. run Hb; by injection Hb as <-.
  - intros Hb. run Hb; by injection Hb as <-.
  - intros Hb. run Hb; by injection Hb as <-.
Qed.

(** *** One lemma per builder *)

Lemma check_allowed_operator_Ok left op pc :
  check_allowed_operator left op pc = Ok tt →
  match left with FieldRef n => op_allowed (pc_schema pc) n op | _ => True end.
Proof.
  destruct left as [n| | |]; cbn [check_allowed_operator]; try done.
  destruct (schema_field (pc_schema pc) n) as [f|] eqn:Hf; [|discriminate].
  intros (g & Hg & Ha)%bind_Ok.
  assert (resolve_alias (pc_schema pc) n = Some g) as Hr.
  { unfold resolve_alias, schema_field in *. rewrite Hf in Hg |- *. cbn in Hg |- *.
    destruct (decide _); run Hg; simplify_eq; done. }
  exists g. split; [done|]. unfold allows.
  destruct (f_allowed_ops g) as [ops|]; [|done].
  destruct (ops !! op); [by eexists|discriminate].
Qed.

(** The cases of a successful comparison. *)
Lemma buildComparisonCondition_Ok t fn args pc cond :
  buildComparisonCondition (Call t fn args) pc = Ok cond →
  ∃ a b op left right,
    args = [a; b] ∧ toComparisonOperator fn = Ok op ∧
    buildValueExpr a pc = Ok left ∧ buildValueExpr b pc = Ok right ∧
    ((∃ l r k, left = LiteralValue l ∧ right = LiteralValue r ∧
               compareLiterals l op r = Ok k ∧ cond = ConstantCondition k) ∨
     (is_literal left = true ∧ is_literal right = false ∧
      check_allowed_operator right (mirrorComparisonOperator op) pc = Ok tt ∧
      cond = ComparisonCondition right (mirrorComparisonOperator op) left) ∨
     (is_literal left = false ∧ check_allowed_operator left op pc = Ok tt ∧
      cond = ComparisonCondition left op right)).
Proof.
  unfold buildComparisonCondition. cbn [call_args call_function].
  destruct args as [|a [|b [|]]]; try discriminate. intros Hb.
  apply bind_Ok in Hb as (op & Hop & Hb). apply bind_Ok in Hb as (left & Hl & Hb).
  apply bind_Ok in Hb as (right & Hr & Hb).
  exists a, b, op, left, right. split_and!; [done..|].
  destruct left as [n|l|f vs|n acc] eqn:El, right as [n'|r|f' vs'|n' acc'] eqn:Er;
    cbv beta iota zeta in Hb; apply bind_Ok in Hb as ([] & Hc & Hb); simplify_eq;
    first [left; by eauto 10|right; left; by eauto|right; right; by eauto].
Qed.

Lemma buildComparisonCondition_wf c pc cond :
  buildComparisonCondition c pc = Ok cond → wf_condition (pc_schema pc) cond.
Proof.
  destruct c as [t fn args].
  intros (a&b&op&l&r&->&_&Hl%buildValueExpr_wf&Hr%buildValueExpr_wf&Hcases)
    %buildComparisonCondition_Ok.
  destruct Hcases as [(?&?&?&_&_&_&->)|[(_&?&Hc&->)|(?&Hc&->)]];
    [done|apply check_allowed_operator_Ok in Hc; by split_and!..].
Qed.

Lemma build_element_in_wf a b pc cond :
  build_element_in a b pc = Ok cond → wf_condition (pc_schema pc) cond.
Proof.
  unfold build_element_in. intros Hb. run Hb. injection Hb as <-.
  split; [by eapply buildValueExpr_wf|by eexists].
Qed.

Lemma check_in_identifier_Ok n s :
  check_in_identifier n s = Ok tt → is_Some (resolve_alias s n).
Proof.
  unfold check_in_identifier, resolve_alias, schema_field.
  destruct (s_fields s !! n) as [f|]; [|discriminate]. cbn.
  destruct (decide _); [|by eexists]. destruct (s_fields s !! _); [by eexists|discriminate].
Qed.

Lemma buildInCondition_wf c pc cond :
  buildInCondition c pc = Ok cond → wf_condition (pc_schema pc) cond.
Proof.
  unfold buildInCondition. destruct (call_args c) as [|a [|b [|]]]; try discriminate.
  destruct (getIdentName a) as [n|]; [|apply build_element_in_wf].
  intros (u & Hn & Hb)%bind_Ok. destruct (get_list b) as [els|];
    [|by eapply build_element_in_wf].
  apply bind_Ok in Hb as (vs & Hvs & [= <-]). split.
  - exists n. split; [done|]. destruct u. by apply check_in_identifier_Ok.
  - clear Hn. revert vs Hvs. induction els as [|e els IH]; intros vs Hvs.
    + injection Hvs as <-. constructor.
    + cbn [mapM] in Hvs. apply bind_Ok in Hvs as (v & Hv & Hvs).
      apply bind_Ok in Hvs as (vs' & Hvs & [= <-]).
      constructor; [by eapply buildValueExpr_wf|by apply IH].
Qed.

Lemma text_match_operands_Ok c s m1 m2 m3 m4 m5 n str :
  text_match_operands c s m1 m2 m3 m4 m5 = Ok (n, str) →
  ∃ f, schema_field s n = Some f ∧ f_supports_contains f = true.
Proof.
  unfold text_match_operands. intros Hb. run Hb. injection Hb as <- <-.
  eexists. split; [done|]. by destruct (f_supports_contains _).
Qed.

Lemma combineConditions_wf s op conds cond :
  Forall (wf_condition s) conds → combineConditions op conds = Ok cond → wf_condition s cond.
Proof.
  destruct conds as [|c cs]; [discriminate|]. intros [Hc Hcs]%Forall_cons [= <-].
  revert c Hc. induction Hcs as [|d cs Hd _ IH]; intros c Hc; [done|]. by apply IH.
Qed.

Lemma set_condition_wf s fn n values cond :
  is_Some (schema_field s n) → set_condition fn n values = Ok cond → wf_condition s cond.
Proof.
  intros Hn.
  assert (∀ vs, Forall (wf_condition s) (mapConditions vs (membership n))) as Hmem.
  { intros vs. apply Forall_map, Forall_true. intros v. by split. }
  unfold set_condition. intros Hb. run Hb; try by injection Hb as <-.
  - eapply combineConditions_wf, Hb. apply Hmem.
  - eapply combineConditions_wf, Hb. apply Hmem.
  - injection Hb as <-. split; [eapply combineConditions_wf; [|eassumption]; apply Hmem|]. done.
Qed.

Lemma buildSetCondition_wf c pc cond :
  buildSetCondition c pc = Ok cond → wf_condition (pc_schema pc) cond.
Proof.
  unfold buildSetCondition. intros Hb. run Hb. eapply set_condition_wf, Hb. by eexists.
Qed.

Lemma buildComprehensionCondition_wf comp s cond :
  buildComprehensionCondition comp s = Ok cond → wf_condition s cond.
Proof.
  unfold buildComprehensionCondition. destruct comp. intros Hb. run Hb.
  injection Hb as <-. by eexists.
Qed.

Lemma buildLeafCall_wf c pc cond :
  buildLeafCall c pc = Ok cond → wf_condition (pc_schema pc) cond.
Proof.
  unfold buildLeafCall, buildTextMatchCondition, buildMatchesCondition.
  intros Hb. run Hb;
    lazymatch type of Hb with
    | buildComparisonCondition _ _ = _ => by eapply buildComparisonCondition_wf
    | buildInCondition _ _ = _ => by eapply buildInCondition_wf
    | buildSetCondition _ _ = _ => by eapply buildSetCondition_wf
    | _ => injection Hb as <-; try done; by eapply text_match_operands_Ok
    end.
Qed.

Lemma buildCondition_wf : ∀ e pc cond,
  buildCondition e pc = Ok cond → wf_condition (pc_schema pc) cond.
Proof.
  fix IH 1. intros e pc cond. destruct e as [c|n|[t fn args]|l|comp|]; cbn [buildCondition].
  - intros Hb. run Hb. by injection Hb as <-.
  - unfold buildIdentCondition. intros Hb. run Hb. injection Hb as <-. by eexists.
  - cbn [buildCallCondition]. intros Hb. run Hb;
      lazymatch type of Hb with
      | buildLeafCall _ _ = _ => eapply buildLeafCall_wf; exact Hb
      | _ => injection Hb as <-
      end.
    + split; eapply IH; eassumption.
    + split; eapply IH; eassumption.
    + cbn [wf_condition]. eapply IH; eassumption.
  - discriminate.
  - apply buildComprehensionCondition_wf.
  - discriminate.
Qed.
End well_formed.

(** C23. The condition tree of a filter is well formed against the schema: every
    field it names exists, a comparison never has a literal on its left and
    uses an operator its field allows, text matching and regular expressions
    apply to fields that support them, boolean identifiers are boolean fields,
    and comprehensions range over JSON lists. *)
Theorem compile_well_formed `{GoPlatform} e pc cond :
  buildCondition e pc = Ok cond → wf_condition (pc_schema pc) cond.
Proof. apply buildCondition_wf. Qed.

Definition example_context : parseContext := mkParseContext NewSchema (mkTime 0 0 UTC).

(** [5 <= creator_id], rejected, and [!(creator_id == 5)]. *)
Definition example_creator (fn : string) : expr :=
  ECall (Call None fn [EConst (CInt64 5); EIdent "creator_id"]).

Lemma compile_well_formed_witness :
  wf_condition NewSchema
    (NotCondition (ComparisonCondition (FieldRef "creator_id") CompareEq (LiteralValue (VInt64 5)))).
Proof.
  apply (compile_well_formed (H := {| f64_out_of_range := λ _, 0%Z |})
           (ECall (Call None "!_" [example_creator "_==_"])) example_context).
  vm_compute. reflexivity.
Defined.

(** ** No run-time panic *)

Fixpoint is_panic (e : error) : bool :=
  match e with Panic _ => true | Wrap e _ => is_panic e | Errorf _ _ => false end.

Definition NoPanic {A} (m : result error A) : Prop := ∀ e, m = Err e → is_panic e = false.

Section no_panic_rules.
Lemma no_panic_Ok {A} (a : A) : NoPanic (Ok a).
Proof. by intros ?. Qed.
Lemma no_panic_Errorf {A} f xs : NoPanic (A := A) (Err (Errorf f xs)).
Proof. by intros ? [= <-]. Qed.
Lemma no_panic_bind {A B} (m : result error A) (f : A → result error B) :
  NoPanic m → (∀ a, m = Ok a → NoPanic (f a)) → NoPanic (m ≫= f).
Proof. intros Hm Hf e [He|(a & Ha & He)]%bind_Err; [by apply Hm|by eapply Hf]. Qed.
Lemma no_panic_wrap {A} msg (m : result error A) : NoPanic m → NoPanic (wrap_err msg m).
Proof. intros Hm. destruct m; [done|]. intros ? [= <-]. by apply (Hm e). Qed.
Lemma no_panic_mapM {A B} (f : A → result error B) l :
  (∀ a, NoPanic (f a)) → NoPanic (mapM f l).
Proof.
  intros Hf. induction l as [|a l IH]; [done|]. cbn [mapM].
  apply no_panic_bind; [done|]. intros ? _. apply no_panic_bind; [done|].
  intros ? _. apply no_panic_Ok.
Qed.
End no_panic_rules.

Create HintDb no_panic discriminated.
#[export] Hint Resolve no_panic_Ok no_panic_Errorf : no_panic.

(** Follow the guards of a builder; what is left are the calls it makes. *)
Ltac no_panic_step :=
  lazymatch goal with
  | |- NoPanic (Ok _) => apply no_panic_Ok
  | |- NoPanic (Err _) => apply no_panic_Errorf
  | |- NoPanic (_ ≫= _) => apply no_panic_bind; [|intros ? ?]
  | |- NoPanic (wrap_err _ _) => apply no_panic_wrap
  | |- NoPanic (mapM _ _) => apply no_panic_mapM; intros ?
  | |- NoPanic (match ?x with _ => _ end) => destruct x eqn:?
  | |- NoPanic _ => solve [auto with no_panic nocore]
  end.
Ltac no_panic := repeat (no_panic_step; cbv beta iota zeta).

Section no_panic.
Context `{GoPlatform}.

Lemma getIdentName_no_panic e : NoPanic (getIdentName e).
Proof. unfold getIdentName. no_panic. Qed.
Lemma getConstValue_no_panic e : NoPanic (getConstValue e).
Proof. destruct e as [[]| | | | |]; cbn; no_panic. Qed.
#[local] Hint Resolve getIdentName_no_panic getConstValue_no_panic : no_panic.

Lemma evaluateBoolExpr_no_panic : ∀ e, NoPanic (evaluateBoolExpr e).
Proof.
  fix IH 1. intros e. destruct e as [[]|n|[t fn args]|l|comp|];
    cbn [evaluateBoolExpr getConstValue]; no_panic; apply IH.
Qed.

Lemma evaluateTimestamp_no_panic c : NoPanic (evaluateTimestamp c).
Proof. unfold evaluateTimestamp. no_panic. Qed.
Lemma evaluateDuration_no_panic c : NoPanic (evaluateDuration c).
Proof. unfold evaluateDuration. no_panic. Qed.
Lemma fold_arithmetic_no_panic fn l r : NoPanic (fold_arithmetic fn l r).
Proof.
  unfold fold_arithmetic, GoInt.quot64, GoInt.rem64.
  destruct (r =? 0)%Z; no_panic.
Qed.
#[local] Hint Resolve evaluateBoolExpr_no_panic evaluateTimestamp_no_panic
  evaluateDuration_no_panic fold_arithmetic_no_panic : no_panic.

Lemma evaluateNumeric_no_panic : ∀ e now, NoPanic (evaluateNumeric e now).
Proof.
  fix IH 1. intros e now. destruct e as [[]|n|[t fn args]|l|comp|];
    cbn [evaluateNumeric getConstValue]; no_panic; apply IH.
Qed.

Lemma buildTimestampAccessor_no_panic t fn args pc :
  NoPanic (buildTimestampAccessor t fn args pc).
Proof. unfold buildTimestampAccessor. no_panic. Qed.
#[local] Hint Resolve evaluateNumeric_no_panic buildTimestampAccessor_no_panic : no_panic.

Lemma buildValueExpr_no_panic : ∀ e pc, NoPanic (buildValueExpr e pc).
Proof.
  fix IH 1. intros e pc. destruct e as [[]|n|[t fn args]|l|comp|];
    cbn [buildValueExpr getConstValue getIdentName get_ident]; no_panic; apply IH.
Qed.
#[local] Hint Resolve buildValueExpr_no_panic : no_panic.

Lemma buildComparisonCondition_no_panic c pc : NoPanic (buildComparisonCondition c pc).
Proof.
  unfold buildComparisonCondition, toComparisonOperator, compareLiterals,
    check_allowed_operator. no_panic.
Qed.
Lemma build_element_in_no_panic a b pc : NoPanic (build_element_in a b pc).
Proof. unfold build_element_in. no_panic. Qed.
#[local] Hint Resolve buildComparisonCondition_no_panic build_element_in_no_panic : no_panic.
Lemma buildInCondition_no_panic c pc : NoPanic (buildInCondition c pc).
Proof. unfold buildInCondition, check_in_identifier. no_panic. Qed.
Lemma text_match_operands_no_panic c s m1 m2 m3 m4 m5 :
  NoPanic (text_match_operands c s m1 m2 m3 m4 m5).
Proof. unfold text_match_operands. no_panic. Qed.

(** [conds[0]] is only read from a list that has a first element. *)
Lemma combineConditions_no_panic op v vs f :
  NoPanic (combineConditions op (mapConditions (v :: vs) f)).
Proof. apply no_panic_Ok. Qed.
#[local] Hint Resolve buildInCondition_no_panic text_match_operands_no_panic
  combineConditions_no_panic : no_panic.

Lemma buildSetCondition_no_panic c pc : NoPanic (buildSetCondition c pc).
Proof. unfold buildSetCondition, set_elements, set_condition. no_panic. Qed.

Lemma iter_method_argument_no_panic c v n : NoPanic (iter_method_argument c v n).
Proof. unfold iter_method_argument. no_panic. Qed.
#[local] Hint Resolve buildSetCondition_no_panic iter_method_argument_no_panic : no_panic.
Lemma extractPredicate_no_panic comp : NoPanic (extractPredicate comp).
Proof.
  unfold extractPredicate, buildEqualsPredicate, buildStartsWithPredicate,
    buildEndsWithPredicate, buildContainsPredicate. destruct comp. no_panic.
Qed.
#[local] Hint Resolve extractPredicate_no_panic : no_panic.
Lemma buildComprehensionCondition_no_panic comp s :
  NoPanic (buildComprehensionCondition comp s).
Proof.
  unfold buildComprehensionCondition, detectComprehensionKind. destruct comp. no_panic.
Qed.
Lemma buildLeafCall_no_panic c pc : NoPanic (buildLeafCall c pc).
Proof.
  unfold buildLeafCall, buildTextMatchCondition, buildMatchesCondition, evaluateBool. no_panic.
Qed.
#[local] Hint Resolve buildComprehensionCondition_no_panic buildLeafCall_no_panic : no_panic.

Lemma buildCondition_no_panic : ∀ e pc, NoPanic (buildCondition e pc).
Proof.
  fix IH 1. intros e pc. destruct e as [[]|n|[t fn args]|l|comp|];
    cbn [buildCondition buildCallCondition getConstValue]; unfold buildIdentCondition;
    no_panic; apply IH.
Qed.
End no_panic.

(** Compiling a filter never panics: whatever tree cel-go returns, the
    builders answer with a condition or an error value; in particular
    [combineConditions] never indexes an empty slice. *)
Theorem compile_never_panics `{GoPlatform} e pc :
  match buildCondition e pc with Ok _ => True | Err err => is_panic err = false end.
Proof.
  destruct (buildCondition e pc) eqn:Hb; [done|]. by apply (buildCondition_no_panic e pc).
Qed.
