(* ===== verification/FilterMeaning.v ===== *)
(** What the rewritings of the parser mean: constant folding against exact
    integer arithmetic, operand swapping, and the set operations against the
    sets of strings they speak about. *)
From S2P Require Import Prelude GoLib GoTime FilterIR FilterParser FilterParserFacts.

(** ** Constant folding *)

Definition in_int64 (z : Z) : bool := (GoInt.min_int64 <=? z)%Z && (z <=? GoInt.max_int64)%Z.

(** The exact value of an arithmetic expression over integer constants, when it
    and all its intermediate values fit in an [int64].  Division truncates
    towards zero, as in CEL and Go. *)
Fixpoint exact_value (e : expr) : option Z :=
  match e with
  | EConst (CInt64 z) => if in_int64 z then Some z else None
  | ECall (Call _ fn [a; b]) =>
      x ← exact_value a;
      y ← exact_value b;
      z ← (if String.eqb fn "_+_" then Some (x + y)%Z
           else if String.eqb fn "_-_" then Some (x - y)%Z
           else if String.eqb fn "_*_" then Some (x * y)%Z
           else if String.eqb fn "_/_" then if (y =? 0)%Z then None else Some (Z.quot x y)
           else if String.eqb fn "_%_" then if (y =? 0)%Z then None else Some (Z.rem x y)
           else None);
      if in_int64 z then Some z else None
  | _ => None
  end.

Section folding.
Context `{GoPlatform}.

Lemma in_int64_id z : in_int64 z = true → GoInt.int64 z = z.
Proof.
  unfold in_int64. intros [?%Z.leb_le ?%Z.leb_le]%andb_true_iff. by apply GoInt.int64_id.
Qed.

Lemma fold_arithmetic_exact fn x y z :
  (if String.eqb fn "_+_" then Some (x + y)%Z
   else if String.eqb fn "_-_" then Some (x - y)%Z
   else if String.eqb fn "_*_" then Some (x * y)%Z
   else if String.eqb fn "_/_" then if (y =? 0)%Z then None else Some (Z.quot x y)
   else if String.eqb fn "_%_" then if (y =? 0)%Z then None else Some (Z.rem x y)
   else None) = Some z →
  in_int64 z = true →
  is_arithmetic fn = true ∧ fold_arithmetic fn x y = Ok (Some z).
Proof.
  unfold is_arithmetic, fold_arithmetic, GoInt.add64, GoInt.sub64, GoInt.mul64,
    GoInt.quot64, GoInt.rem64.
  intros Hz Hi%in_int64_id.
  destruct (String.eqb fn "_+_"); [simplify_eq; by rewrite Hi|].
  destruct (String.eqb fn "_-_"); [simplify_eq; by rewrite Hi|].
  destruct (String.eqb fn "_*_"); [simplify_eq; by rewrite Hi|].
  destruct (String.eqb fn "_/_"); [destruct (y =? 0)%Z; simplify_eq; cbn; by rewrite Hi|].
  destruct (String.eqb fn "_%_"); [|done].
  destruct (y =? 0)%Z; simplify_eq; cbn; by rewrite Hi.
Qed.

Lemma arithmetic_not_special fn :
  is_arithmetic fn = true →
  String.eqb fn "timestamp" = false ∧ String.eqb fn "duration" = false.
Proof.
  unfold is_arithmetic.
  rewrite !orb_true_iff, !String.eqb_eq. by intros [[[[->| ->]| ->]| ->]| ->].
Qed.

Lemma evaluateNumeric_exact : ∀ e now z,
  exact_value e = Some z → evaluateNumeric e now = Ok (Some z).
Proof.
  fix IH 1. intros e now z.
  destruct e as [[]|n|[t fn [|a [|b [|]]]]|l|comp|]; try discriminate;
    cbn [exact_value evaluateNumeric getConstValue].
  - destruct (in_int64 _); [by intros [= ->]|discriminate].
  - intros Hz.
    apply bind_Some in Hz as (x & Ha & Hz). apply bind_Some in Hz as (y & Hb & Hz).
    apply bind_Some in Hz as (z' & Hm & Hz).
    destruct (in_int64 z') eqn:Hi; [|discriminate]. injection Hz as ->.
    destruct (fold_arithmetic_exact fn x y z Hm Hi) as [Hop Hf].
    destruct (arithmetic_not_special fn Hop) as [-> ->]. rewrite Hop.
    rewrite (IH a now x Ha). cbn. rewrite (IH b now y Hb). cbn. done.
Qed.
End folding.

(** Constant folding is exact: an arithmetic expression over integer
    constants whose intermediate values fit in 64 bits is folded to its
    mathematical value, wherever a value is expected. *)
Theorem constant_folding_exact `{GoPlatform} e pc z :
  exact_value e = Some z →
  evaluateNumeric e (pc_now pc) = Ok (Some z) ∧
  buildValueExpr e pc = Ok (LiteralValue (VInt64 z)).
Proof.
  intros He. pose proof (evaluateNumeric_exact e (pc_now pc) z He) as Hn.
  split; [done|].
  destruct e as [[]|n|[t fn [|a [|b [|]]]]|l|comp|]; try discriminate.
  - cbn in He. destruct (in_int64 _); [by injection He as ->|done].
  - cbn [buildValueExpr getIdentName get_ident getConstValue]. by rewrite Hn.
Qed.

(** [2 * 3600 - -7 / 2]. *)
Definition example_arithmetic : expr :=
  ECall (Call None "_-_"
    [ECall (Call None "_*_" [EConst (CInt64 2); EConst (CInt64 3600)]);
     ECall (Call None "_/_" [EConst (CInt64 (-7)); EConst (CInt64 2)])]).

Lemma constant_folding_exact_witness :
  exact_value example_arithmetic = Some 7203%Z ∧
  evaluateNumeric (H := {| f64_out_of_range := λ _, 0%Z |}) example_arithmetic
    (pc_now example_context) = Ok (Some 7203%Z) ∧
  buildValueExpr (H := {| f64_out_of_range := λ _, 0%Z |}) example_arithmetic
    example_context = Ok (LiteralValue (VInt64 7203)).
Proof.
  split; [reflexivity|].
  apply (constant_folding_exact (H := {| f64_out_of_range := λ _, 0%Z |})). reflexivity.
Defined.

(** ** Literal comparisons *)

(** Two integer literals are compared as 64-bit floats, so distinct
    integers beyond 2^53 compare equal when a filter is folded:
    [9007199254740993 == 9007199254740992] is the constant true. *)
Theorem integer_literals_compared_as_floats `{GoPlatform} pc :
  buildComparisonCondition
    (Call None "_==_" [EConst (CInt64 9007199254740993); EConst (CInt64 9007199254740992)]) pc
  = Ok (ConstantCondition true).
Proof. reflexivity. Qed.

(** ** Comparisons *)

(** The truth of a comparison over some ordered carrier. *)
Definition compare {V} (eqb ltb leb : V → V → bool) (op : ComparisonOperator) (x y : V) : bool :=
  match op with
  | CompareEq => eqb x y
  | CompareNeq => negb (eqb x y)
  | CompareLt => ltb x y
  | CompareLte => leb x y
  | CompareGt => ltb y x
  | CompareGte => leb y x
  end.

Lemma compare_mirror {V} (eqb ltb leb : V → V → bool) op x y :
  (∀ a b, eqb a b = eqb b a) →
  compare eqb ltb leb (mirrorComparisonOperator op) y x = compare eqb ltb leb op x y.
Proof. intros Hs. destruct op; cbn; by rewrite ?(Hs y x). Qed.

(** A comparison keeps its meaning when it is built: two literals are
    decided at once, and otherwise the condition compares the same two operands
    under the same relation, whichever of them ends up on the left; the operand
    on the left is never a literal and its field allows the operator used. *)
Theorem comparison_preserved `{GoPlatform} {V} (eqb ltb leb : V → V → bool)
    (value_of : ValueExpr → V) t fn a b pc cond :
  (∀ x y, eqb x y = eqb y x) →
  buildComparisonCondition (Call t fn [a; b]) pc = Ok cond →
  ∃ op x y,
    toComparisonOperator fn = Ok op ∧ buildValueExpr a pc = Ok x ∧ buildValueExpr b pc = Ok y ∧
    match cond with
    | ConstantCondition k =>
        ∃ l r, x = LiteralValue l ∧ y = LiteralValue r ∧ compareLiterals l op r = Ok k
    | ComparisonCondition l op' r =>
        is_literal l = false ∧
        match l with FieldRef n => op_allowed (pc_schema pc) n op' | _ => True end ∧
        compare eqb ltb leb op' (value_of l) (value_of r)
        = compare eqb ltb leb op (value_of x) (value_of y)
    | _ => False
    end.
Proof.
  intros Hs (a' & b' & op & x & y & [= <- <-] & Hop & Hx & Hy & Hc)
    %buildComparisonCondition_Ok.
  exists op, x, y. split_and!; [done..|].
  destruct Hc as [(l & r & k & -> & -> & Hk & ->)|[(_ & Hl & Ha & ->)|(Hl & Ha & ->)]].
  - by exists l, r.
  - apply check_allowed_operator_Ok in Ha. split_and!; [done..|]. by apply compare_mirror.
  - by apply check_allowed_operator_Ok in Ha.
Qed.

Lemma comparison_preserved_witness :
  ∃ op x y,
    toComparisonOperator "_!=_" = Ok op ∧
    buildValueExpr (H := {| f64_out_of_range := λ _, 0%Z |}) (EConst (CInt64 5)) example_context = Ok x ∧
    buildValueExpr (H := {| f64_out_of_range := λ _, 0%Z |}) (EIdent "creator_id") example_context = Ok y ∧
    is_literal (FieldRef "creator_id") = false ∧
    op_allowed NewSchema "creator_id" CompareNeq ∧
    compare Z.eqb Z.ltb Z.leb CompareNeq 7%Z 5%Z = compare Z.eqb Z.ltb Z.leb op
      (match x with FieldRef _ => 7%Z | _ => 5%Z end)
      (match y with FieldRef _ => 7%Z | _ => 5%Z end).
Proof.
  apply (comparison_preserved (H := {| f64_out_of_range := λ _, 0%Z |}) Z.eqb Z.ltb Z.leb
    (λ e, match e with FieldRef _ => 7%Z | _ => 5%Z end) None "_!=_"
    (EConst (CInt64 5)) (EIdent "creator_id") example_context
    (ComparisonCondition (FieldRef "creator_id") CompareNeq (LiteralValue (VInt64 5)))).
  - intros x y. apply Z.eqb_sym.
  - vm_compute. reflexivity.
Defined.

(** ** Set operations *)

(** Truth of the conditions the set operations are built from, on a row whose
    list fields hold [tags]. *)
Fixpoint set_holds (tags : string → list string) (c : Condition) : Prop :=
  match c with
  | LogicalCondition LogicalAnd l r => set_holds tags l ∧ set_holds tags r
  | LogicalCondition LogicalOr l r => set_holds tags l ∨ set_holds tags r
  | NotCondition e => ¬ set_holds tags e
  | ConstantCondition b => b = true
  | ElementInCondition (LiteralValue (VString s)) f => s ∈ tags f
  | ComparisonCondition (FunctionValue fn [FieldRef f]) CompareEq (LiteralValue (VInt64 n)) =>
      fn = "size" ∧ Z.of_nat (length (tags f)) = n
  | _ => False
  end.

Section sets.
Context (tags : string → list string).

Lemma combineConditions_holds op v vs n :
  ∃ cond, combineConditions op (mapConditions (v :: vs) (membership n)) = Ok cond ∧
    (set_holds tags cond ↔
     match op with
     | LogicalAnd => ∀ s, s ∈ v :: vs → s ∈ tags n
     | LogicalOr => ∃ s, s ∈ v :: vs ∧ s ∈ tags n
     end).
Proof.
  eexists. split; [reflexivity|].
  assert (∀ l acc,
    set_holds tags (fold_left (λ a d, LogicalCondition op a d)
      (mapConditions l (membership n)) acc) ↔
    match op with
    | LogicalAnd => set_holds tags acc ∧ (∀ s, s ∈ l → s ∈ tags n)
    | LogicalOr => set_holds tags acc ∨ (∃ s, s ∈ l ∧ s ∈ tags n)
    end) as Hfold.
  { induction l as [|w l IH]; intros acc; cbn [mapConditions map fold_left].
    - destruct op; set_solver.
    - fold (mapConditions l (membership n)). rewrite IH. clear IH.
      destruct op; cbn [set_holds membership]; set_solver. }
  specialize (Hfold vs (membership n v)). unfold mapConditions in *. rewrite Hfold.
  destruct op; cbn [set_holds membership]; set_solver.
Qed.

Lemma distinct_from_spec values : ∀ seen,
  NoDup (distinct_from seen values) ∧
  ∀ s, s ∈ distinct_from seen values ↔ s ∈ values ∧ s ∉ seen.
Proof.
  induction values as [|v vs IH]; intros seen; cbn [distinct_from].
  - split; [constructor|]. set_solver.
  - destruct (decide (v ∈ seen)) as [Hv|Hv].
    + destruct (IH seen) as [Hn Hs]. split; [done|]. intros s. rewrite Hs. set_solver.
    + destruct (IH ({[v]} ∪ seen)) as [Hn Hs]. split.
      * constructor; [|done]. rewrite Hs. set_solver.
      * intros s. rewrite elem_of_cons, Hs. destruct (decide (s = v)); set_solver.
Qed.

(** Two duplicate-free lists of one length, one included in the other, have
    the same elements. *)
Lemma NoDup_included_length (l k : list string) :
  NoDup l → NoDup k → (∀ s, s ∈ l → s ∈ k) → length k = length l → ∀ s, s ∈ k → s ∈ l.
Proof.
  intros Hl Hk Hi Hlen s Hs.
  assert (l ≡ₚ k) as Hp.
  { apply submseteq_length_Permutation; [by apply NoDup_submseteq|lia]. }
  by rewrite Hp.
Qed.

Lemma sets_equivalent_holds n values :
  NoDup (tags n) →
  ∃ cond, set_condition "sets.equivalent" n values = Ok cond ∧
    (set_holds tags cond ↔ ∀ s, s ∈ tags n ↔ s ∈ values).
Proof.
  intros Hnd. unfold set_condition. cbn -[distinctStrings combineConditions mapConditions].
  destruct (distinct_from_spec values ∅) as [Hd Hs]. fold (distinctStrings values) in Hd, Hs.
  destruct (distinctStrings values) as [|v vs] eqn:He.
  - eexists. split; [reflexivity|]. cbn. split.
    + intros [_ Hlen]. assert (tags n = []) as -> by (apply nil_length_inv; lia).
      intros s. specialize (Hs s). set_solver.
    + intros Heq. split; [done|]. destruct (tags n) as [|s l] eqn:Ht; [done|].
      specialize (Hs s). specialize (Heq s). set_solver.
  - destruct (combineConditions_holds LogicalAnd v vs n) as (c & Hc & Hholds).
    rewrite Hc. eexists. split; [reflexivity|]. cbn [set_holds sizeEquals].
    rewrite Hholds. split.
    + intros (Hin & _ & Hlen) s. split.
      * intros Ht. apply (Hs s). eapply NoDup_included_length; [exact Hd|exact Hnd|done|lia|done].
      * intros Hv. apply Hin, Hs. set_solver.
    + intros Heq. split_and!; [|done|].
      * intros s Hv. apply Heq. by apply Hs.
      * f_equal. apply Permutation_length, NoDup_Permutation; [done..|].
        intros s. rewrite Heq, Hs. set_solver.
Qed.
End sets.

(** [sets.contains], [sets.intersects] and [sets.equivalent] on a JSON list
    field and a list of string literals are always accepted, and the conditions
    they are rewritten to hold exactly when the tags of the row include all the
    literals, include one of them, or are the same set; the row's tags are
    duplicate-free, as the code documents. *)
Theorem set_operations_meaning `{GoPlatform} tags t n fd values pc :
  schema_field (pc_schema pc) n = Some fd → f_kind fd = FieldKindJSONList →
  NoDup (tags n) →
  let args := [EIdent n; EList (EConst ∘ CString <$> values)] in
  (∃ c, buildSetCondition (Call t "sets.contains" args) pc = Ok c ∧
        (set_holds tags c ↔ ∀ s, s ∈ values → s ∈ tags n)) ∧
  (∃ c, buildSetCondition (Call t "sets.intersects" args) pc = Ok c ∧
        (set_holds tags c ↔ ∃ s, s ∈ values ∧ s ∈ tags n)) ∧
  (∃ c, buildSetCondition (Call t "sets.equivalent" args) pc = Ok c ∧
        (set_holds tags c ↔ ∀ s, s ∈ tags n ↔ s ∈ values)).
Proof.
  intros Hf Hk Hnd args.
  assert (set_elements (EConst ∘ CString <$> values) = Ok values) as Hels.
  { clear. unfold set_elements. induction values as [|v vs IH]; [done|].
    cbn -[mapM] in IH |- *. cbn [mapM]. cbn. cbn in IH. by rewrite IH. }
  assert (∀ fn, buildSetCondition (Call t fn args) pc = set_condition fn n values) as Heq.
  { intros fn. unfold buildSetCondition. cbn [call_args args].
    cbn [getIdentName get_ident wrap_err mbind result_bind]. rewrite Hf.
    rewrite decide_True by done. cbn [get_list]. rewrite Hels. done. }
  rewrite !Heq. split_and!.
  - unfold set_condition. cbn -[combineConditions mapConditions]. destruct values as [|v vs].
    + eexists. split; [reflexivity|]. cbn. set_solver.
    + apply (combineConditions_holds tags LogicalAnd).
  - unfold set_condition. cbn -[combineConditions mapConditions]. destruct values as [|v vs].
    + eexists. split; [reflexivity|]. cbn. set_solver.
    + apply (combineConditions_holds tags LogicalOr).
  - by apply sets_equivalent_holds.
Qed.

Lemma set_operations_meaning_witness :
  ∃ c, buildSetCondition
         (Call None "sets.equivalent" [EIdent "tags"; EList (EConst ∘ CString <$> ["work"; "home"; "work"])])
         example_context = Ok c ∧
       (set_holds (λ _, ["home"; "work"]) c ↔
        ∀ s, s ∈ ["home"; "work"] ↔ s ∈ ["work"; "home"; "work"]).
Proof.
  apply (set_operations_meaning (H := {| f64_out_of_range := λ _, 0%Z |})
    (λ _, ["home"; "work"]) None "tags"
    (set_path (set_column (zero_field "tags" FieldKindJSONList FieldTypeString) "memo" "payload")
       ["tags"]) ["work"; "home"; "work"] example_context).
  - vm_compute. reflexivity.
  - reflexivity.
  - apply (bool_decide_unpack _). vm_compute. exact I.
Defined.
