(* ===== verification/Store.v ===== *)
(** * The tables of the store

    The rows of the database as the Go structs of [store/*.go] describe them,
    the sentinel errors of the package, and transactions.  A table is a finite
    map from its primary key; a SQL statement is modelled by what it computes
    on the tables.  A driver method that opens a transaction is a computation
    on the database that may fail: the deferred [Rollback] drops its changes
    exactly when it returns an error ([run]). *)
From S2P Require Import Prelude GoLib.
From stdpp Require Export gmap sorting.

(** ** Enumerations: Go string types *)

Definition RowStatus := string.
Definition Normal : RowStatus := "NORMAL".
Definition Archived : RowStatus := "ARCHIVED".

Definition SpaceMemberStatus := string.
Definition SpaceMemberStatusInvited : SpaceMemberStatus := "INVITED".
Definition SpaceMemberStatusActive : SpaceMemberStatus := "ACTIVE".

Definition SpaceMemberRole := string.
Definition SpaceMemberRoleAdmin : SpaceMemberRole := "ADMIN".
Definition SpaceMemberRoleUser : SpaceMemberRole := "USER".

(** [SpaceMemberRole.IsActiveMember]. *)
Definition IsActiveMember (r : SpaceMemberRole) : bool :=
  String.eqb r SpaceMemberRoleAdmin || String.eqb r SpaceMemberRoleUser.

Definition Visibility := string.
Definition Public : Visibility := "PUBLIC".
Definition Protected : Visibility := "PROTECTED".
Definition Private : Visibility := "PRIVATE".
Definition SpaceAudience : Visibility := "SPACE".

Definition isValidVisibility (v : Visibility) : bool :=
  String.eqb v Public || String.eqb v Protected || String.eqb v Private
  || String.eqb v SpaceAudience.

(** ** Sentinel errors *)

Definition ErrLastSpaceAdmin := errorf0 "cannot remove the last space admin".
Definition ErrSpacePermissionDenied := errorf0 "space permission denied".
Definition ErrSpaceMemberNotActive := errorf0 "space member user is not active".
Definition ErrSpaceAlreadyExists := errorf0 "space already exists".
Definition ErrSpaceMemberAlreadyExists := errorf0 "space member already exists".
Definition ErrSpaceNotFound := errorf0 "space not found".
Definition ErrSpaceMemberNotFound := errorf0 "space member not found".
Definition ErrSpaceInvitationNotFound := errorf0 "space invitation not found".
Definition ErrUserHasSpaceMembership := errorf0 "user still has space memberships".
Definition ErrMemoSpaceNotWritable := errorf0 "memo space is not writable".
Definition ErrMemoSpaceMembershipRequired := errorf0 "active space membership required".
Definition ErrMemoPermissionDenied := errorf0 "memo mutation permission denied".
Definition ErrMemoShareConflict := errorf0 "active memo share conflicts with audience".
Definition ErrMemoMutationConflict := errorf0 "memo state changed".
(** [sql.ErrNoRows] and the constraint errors of the database. *)
Definition ErrNoRows := errorf0 "sql: no rows in result set".
Definition ErrUnique := errorf0 "UNIQUE constraint failed".
Definition ErrCheck := errorf0 "CHECK constraint failed".
Definition ErrSyntax := errorf0 "SQL syntax error".

(** ** Rows *)

Record User := mkUser {
  us_username : string; us_role : string; us_email : string; us_nickname : string;
  us_password_hash : string; us_avatar_url : string; us_description : string;
  us_created_ts : Z; us_updated_ts : Z; us_row_status : RowStatus;
}.

Record space_row := mkSpaceRow { sr_uid : string; sr_title : string; sr_description : string }.

(** [store.Space], the value the API sees. *)
Record Space := mkSpace {
  sp_id : Z; sp_uid : string; sp_title : string; sp_description : string;
  sp_current_user_role : SpaceMemberRole; sp_member_count : Z;
}.

Record member_row := mkMember { mb_status : SpaceMemberStatus; mb_role : SpaceMemberRole }.

(** [store.SpaceMember] and [store.SpaceInvitation]. *)
Record SpaceMember := mkSpaceMember { sm_space : Z; sm_user : Z; sm_role : SpaceMemberRole }.

Record Memo := mkMemo {
  mm_uid : string; mm_creator : Z; mm_created_ts : Z; mm_updated_ts : Z;
  mm_row_status : RowStatus; mm_content : string; mm_visibility : Visibility;
  mm_pinned : bool; mm_payload : string; mm_space : option Z;
}.

Record MemoShare := mkShare {
  sh_uid : string; sh_memo : Z; sh_creator : Z; sh_created_ts : Z; sh_expires_ts : option Z;
}.

Record Reaction := mkReaction {
  re_creator : Z; re_memo : Z; re_type : string; re_created_ts : Z }.

(** An attachment; the blob is a list of bytes as text. *)
Record Attachment := mkAttachment {
  at_uid : string; at_creator : Z; at_memo : option Z;
  at_storage_type : string; at_reference : string; at_payload : string;
  at_filename : string; at_type : string; at_size : Z; at_blob : string;
  at_created_ts : Z; at_updated_ts : Z;
}.

Record DB := mkDB {
  users : gmap Z User;
  spaces : gmap Z space_row;
  members : gmap (Z * Z) member_row;
  memos : gmap Z Memo;
  shares : gmap Z MemoShare;
  reactions : gmap Z Reaction;
  attachments : gmap Z Attachment;
  (** [memo_relation]: memo, related memo, type *)
  relations : gset (Z * Z * string);
  (** [inbox]: sender, receiver *)
  inboxes : gmap Z (Z * Z);
  (** [user_identity]: the user of an identity *)
  identities : gmap Z Z;
  user_settings : gmap (Z * string) string;
  (** the AUTOINCREMENT counters of [user], [space], [memo], [memo_share],
      [attachment] and [reaction]: the next id to hand out *)
  next_user : Z; next_space : Z; next_memo : Z; next_share : Z;
  next_attachment : Z; next_reaction : Z;
}.

Definition empty_db : DB := mkDB ∅ ∅ ∅ ∅ ∅ ∅ ∅ ∅ ∅ ∅ ∅ 1 1 1 1 1 1.

Definition set_users (f : gmap Z User → gmap Z User) (db : DB) : DB :=
  mkDB (f (users db)) (spaces db) (members db) (memos db) (shares db) (reactions db)
    (attachments db) (relations db) (inboxes db) (identities db) (user_settings db)
    (next_user db) (next_space db) (next_memo db) (next_share db)
    (next_attachment db) (next_reaction db).
Definition set_spaces (f : gmap Z space_row → gmap Z space_row) (db : DB) : DB :=
  mkDB (users db) (f (spaces db)) (members db) (memos db) (shares db) (reactions db)
    (attachments db) (relations db) (inboxes db) (identities db) (user_settings db)
    (next_user db) (next_space db) (next_memo db) (next_share db)
    (next_attachment db) (next_reaction db).
Definition set_members (f : gmap (Z * Z) member_row → gmap (Z * Z) member_row) (db : DB) : DB :=
  mkDB (users db) (spaces db) (f (members db)) (memos db) (shares db) (reactions db)
    (attachments db) (relations db) (inboxes db) (identities db) (user_settings db)
    (next_user db) (next_space db) (next_memo db) (next_share db)
    (next_attachment db) (next_reaction db).
Definition set_memos (f : gmap Z Memo → gmap Z Memo) (db : DB) : DB :=
  mkDB (users db) (spaces db) (members db) (f (memos db)) (shares db) (reactions db)
    (attachments db) (relations db) (inboxes db) (identities db) (user_settings db)
    (next_user db) (next_space db) (next_memo db) (next_share db)
    (next_attachment db) (next_reaction db).
Definition set_shares (f : gmap Z MemoShare → gmap Z MemoShare) (db : DB) : DB :=
  mkDB (users db) (spaces db) (members db) (memos db) (f (shares db)) (reactions db)
    (attachments db) (relations db) (inboxes db) (identities db) (user_settings db)
    (next_user db) (next_space db) (next_memo db) (next_share db)
    (next_attachment db) (next_reaction db).
Definition set_reactions (f : gmap Z Reaction → gmap Z Reaction) (db : DB) : DB :=
  mkDB (users db) (spaces db) (members db) (memos db) (shares db) (f (reactions db))
    (attachments db) (relations db) (inboxes db) (identities db) (user_settings db)
    (next_user db) (next_space db) (next_memo db) (next_share db)
    (next_attachment db) (next_reaction db).
Definition set_attachments (f : gmap Z Attachment → gmap Z Attachment) (db : DB) : DB :=
  mkDB (users db) (spaces db) (members db) (memos db) (shares db) (reactions db)
    (f (attachments db)) (relations db) (inboxes db) (identities db) (user_settings db)
    (next_user db) (next_space db) (next_memo db) (next_share db)
    (next_attachment db) (next_reaction db).
Definition set_relations (f : gset (Z * Z * string) → gset (Z * Z * string)) (db : DB) : DB :=
  mkDB (users db) (spaces db) (members db) (memos db) (shares db) (reactions db)
    (attachments db) (f (relations db)) (inboxes db) (identities db) (user_settings db)
    (next_user db) (next_space db) (next_memo db) (next_share db)
    (next_attachment db) (next_reaction db).
Definition set_inboxes (f : gmap Z (Z * Z) → gmap Z (Z * Z)) (db : DB) : DB :=
  mkDB (users db) (spaces db) (members db) (memos db) (shares db) (reactions db)
    (attachments db) (relations db) (f (inboxes db)) (identities db) (user_settings db)
    (next_user db) (next_space db) (next_memo db) (next_share db)
    (next_attachment db) (next_reaction db).
Definition set_identities (f : gmap Z Z → gmap Z Z) (db : DB) : DB :=
  mkDB (users db) (spaces db) (members db) (memos db) (shares db) (reactions db)
    (attachments db) (relations db) (inboxes db) (f (identities db)) (user_settings db)
    (next_user db) (next_space db) (next_memo db) (next_share db)
    (next_attachment db) (next_reaction db).
Definition set_settings (f : gmap (Z * string) string → gmap (Z * string) string) (db : DB) : DB :=
  mkDB (users db) (spaces db) (members db) (memos db) (shares db) (reactions db)
    (attachments db) (relations db) (inboxes db) (identities db) (f (user_settings db))
    (next_user db) (next_space db) (next_memo db) (next_share db)
    (next_attachment db) (next_reaction db).
Definition set_next (nu ns nm nh : Z) (db : DB) : DB :=
  mkDB (users db) (spaces db) (members db) (memos db) (shares db) (reactions db)
    (attachments db) (relations db) (inboxes db) (identities db) (user_settings db)
    nu ns nm nh (next_attachment db) (next_reaction db).
Definition set_next_attachment (n : Z) (db : DB) : DB :=
  mkDB (users db) (spaces db) (members db) (memos db) (shares db) (reactions db)
    (attachments db) (relations db) (inboxes db) (identities db) (user_settings db)
    (next_user db) (next_space db) (next_memo db) (next_share db) n (next_reaction db).
Definition set_next_reaction (n : Z) (db : DB) : DB :=
  mkDB (users db) (spaces db) (members db) (memos db) (shares db) (reactions db)
    (attachments db) (relations db) (inboxes db) (identities db) (user_settings db)
    (next_user db) (next_space db) (next_memo db) (next_share db) (next_attachment db) n.

(** Databases with the same tables and counters are equal. *)
Lemma DB_ext d1 d2 :
  users d1 = users d2 → spaces d1 = spaces d2 → members d1 = members d2 → memos d1 = memos d2 →
  shares d1 = shares d2 → reactions d1 = reactions d2 → attachments d1 = attachments d2 →
  relations d1 = relations d2 → inboxes d1 = inboxes d2 → identities d1 = identities d2 →
  user_settings d1 = user_settings d2 → next_user d1 = next_user d2 →
  next_space d1 = next_space d2 → next_memo d1 = next_memo d2 → next_share d1 = next_share d2 →
  next_attachment d1 = next_attachment d2 → next_reaction d1 = next_reaction d2 →
  d1 = d2.
Proof. destruct d1, d2. cbn. by intros; subst. Qed.

(** ** Transactions *)

Definition Tx (A : Type) : Type := SE DB error A.

Definition query {A} (q : DB → A) : Tx A := λ db, Ok (q db, db).
Definition exec (f : DB → DB) : Tx unit := λ db, Ok (tt, f db).
Definition require (b : bool) (e : error) : Tx unit := if b then mret tt else se_err e.

(** Commit on success, roll back on error. *)
Definition run {A} (m : Tx A) (db : DB) : result error A * DB :=
  match m db with
  | Ok (a, db') => (Ok a, db')
  | Err e => (Err e, db)
  end.

(** ** Common sub-queries *)

(** [SELECT row_status FROM user WHERE id = ?]. *)
Definition user_status (db : DB) (id : Z) : option RowStatus := us_row_status <$> users db !! id.

Definition active_user (db : DB) (id : Z) : Prop := user_status db id = Some Normal.
#[export] Instance active_user_dec db id : Decision (active_user db id).
Proof. unfold active_user. apply _. Defined.

Definition space_exists (db : DB) (s : Z) : bool := bool_decide (is_Some (spaces db !! s)).

(** [space_member] joined with [user]: an ACTIVE row of a NORMAL user. *)
Definition active_member_role (db : DB) (s u : Z) : option SpaceMemberRole :=
  m ← members db !! (s, u);
  if decide (mb_status m = SpaceMemberStatusActive ∧ active_user db u)
  then Some (mb_role m) else None.

(** [SELECT COUNT( * )] over the ACTIVE members of a space with a NORMAL user
    whose role satisfies [P]. *)
Definition count_members (db : DB) (s : Z) (P : SpaceMemberRole → bool) : nat :=
  size (filter (λ kv, kv.1.1 = s ∧ mb_status kv.2 = SpaceMemberStatusActive ∧
                      P (mb_role kv.2) = true ∧ active_user db kv.1.2) (members db)).

Definition is_admin (r : SpaceMemberRole) : bool := String.eqb r SpaceMemberRoleAdmin.

(** The rows of [DELETE FROM t WHERE c] that stay: those not satisfying [c]. *)
Definition delete_where {K V} `{Countable K} (c : K → V → bool) (t : gmap K V) : gmap K V :=
  filter (λ kv, c kv.1 kv.2 = false) t.

(** An optional equality filter of a [Find] struct. *)
Definition matches_opt {A} `{EqDecision A} (o : option A) (x : A) : bool :=
  match o with Some y => bool_decide (x = y) | None => true end.

(** [SELECT ... WHERE c ORDER BY r]: the selected rows in the given order. *)
Definition select {K V} `{Countable K} (c : K → V → bool) (R : relation (K * V))
    `{!RelDecision R} (t : gmap K V) : list (K * V) :=
  merge_sort R (map_to_list (filter (λ kv, c kv.1 kv.2 = true) t)).

Lemma elem_of_select {K V} `{Countable K} (c : K → V → bool) (R : relation (K * V))
    `{!RelDecision R} (t : gmap K V) k v :
  (k, v) ∈ select c R t ↔ t !! k = Some v ∧ c k v = true.
Proof.
  unfold select. rewrite merge_sort_Permutation, elem_of_map_to_list, map_lookup_filter_Some.
  done.
Qed.

(** [LIMIT l OFFSET o] as the drivers print it: no limit unless one is given,
    a negative limit is no limit and a negative offset is zero. *)
Definition limit_offset {A} (limit offset : option Z) (l : list A) : list A :=
  match limit with
  | None => l
  | Some n =>
      let rest := drop (Z.to_nat (default 0%Z offset)) l in
      if (n <? 0)%Z then rest else take (Z.to_nat n) rest
  end.
