(* ===== verification/SpaceStore.v ===== *)
(** * Spaces, memberships and invitations

    [store/space.go] and the SQLite driver's [space.go], [space_delete.go],
    with the user operations that touch memberships ([user.go],
    [user_delete.go]).  Driver methods are in Module [Driver]; the store
    methods of the same names, which validate their arguments first, follow. *)
From S2P Require Import Prelude GoLib Store.

Record UpdateSpaceReq := mkUpdateSpace {
  us_id : Z; us_title : option string; us_desc : option string }.
Record DeleteSpaceReq := mkDeleteSpace { ds_id : Z; ds_actor : Z }.
Record FindSpace := mkFindSpace {
  fs_id : option Z; fs_id_list : list Z; fs_uid : option string;
  fs_member_user : option Z; fs_limit : option Z; fs_offset : option Z }.
Record FindSpaceMember := mkFindSpaceMember {
  fm_space : option Z; fm_user : option Z; fm_viewer : option Z;
  fm_limit : option Z; fm_offset : option Z }.

(** The [ORDER BY] clauses. *)
Definition by_id_desc (a b : Z * space_row) : Prop := (b.1 ≤ a.1)%Z.
Definition by_user_asc (a b : (Z * Z) * member_row) : Prop := (a.1.2 ≤ b.1.2)%Z.
Definition by_space_desc_user_asc (a b : (Z * Z) * member_row) : Prop :=
  (b.1.1 < a.1.1)%Z ∨ (a.1.1 = b.1.1 ∧ (a.1.2 ≤ b.1.2)%Z).
#[export] Instance by_id_desc_dec : RelDecision by_id_desc.
Proof. unfold by_id_desc. intros ??. apply _. Defined.
#[export] Instance by_user_asc_dec : RelDecision by_user_asc.
Proof. unfold by_user_asc. intros ??. apply _. Defined.
#[export] Instance by_space_desc_user_asc_dec : RelDecision by_space_desc_user_asc.
Proof. unfold by_space_desc_user_asc. intros ??. apply _. Defined.

Module Driver.
(** [requireSQLiteActiveUser]. *)
Definition requireActiveUser (u : Z) : Tx unit :=
  status ← query (λ db, user_status db u);
  match status with
  | None => se_err ErrSpaceMemberNotActive
  | Some st => require (String.eqb st Normal) ErrSpaceMemberNotActive
  end.

(** [authorizeSQLiteSpaceAdmin]. *)
Definition authorizeSpaceAdmin (s actor : Z) : Tx unit :=
  exists_ ← query (λ db, space_exists db s);
  if negb exists_ then se_err ErrSpaceNotFound
  else
    role ← query (λ db, active_member_role db s actor);
    match role with
    | None => se_err ErrSpacePermissionDenied
    | Some r => require (is_admin r) ErrSpacePermissionDenied
    end.

(** [INSERT INTO space_member], with the primary key and the CHECK on [role]. *)
Definition insert_member (s u : Z) (m : member_row) (on_unique : error) : Tx unit :=
  taken ← query (λ db, members db !! (s, u));
  match taken with
  | Some _ => se_err on_unique
  | None =>
      _ ← require (IsActiveMember (mb_role m)) ErrCheck;
      exec (set_members <[(s, u) := m]>)
  end.

Definition uid_taken (db : DB) (uid : string) : bool :=
  bool_decide (map_Exists (λ _ row, sr_uid row = uid) (spaces db)).

Definition CreateSpace (create : Space) (creator : Z) : Tx Space :=
  _ ← requireActiveUser creator;
  taken ← query (λ db, uid_taken db (sp_uid create));
  if (taken : bool) then se_err ErrSpaceAlreadyExists
  else
    id ← query next_space;
    _ ← exec (λ db, set_next (next_user db) (id + 1) (next_memo db) (next_share db)
                (set_spaces <[id := mkSpaceRow (sp_uid create) (sp_title create)
                                      (sp_description create)]> db));
    _ ← insert_member id creator (mkMember SpaceMemberStatusActive SpaceMemberRoleAdmin)
          (Wrap ErrUnique "failed to create initial space admin");
    mret (mkSpace id (sp_uid create) (sp_title create) (sp_description create)
            SpaceMemberRoleAdmin 1).

(** The viewer columns of [ListSpaces] and [populateSQLiteSpaceSummary]. *)
Definition space_summary (db : DB) (s u : Z) : option (SpaceMemberRole * Z) :=
  role ← active_member_role db s u;
  if IsActiveMember role then Some (role, Z.of_nat (count_members db s IsActiveMember))
  else None.

Definition populateSpaceSummary (s u : Z) : Tx (SpaceMemberRole * Z) :=
  summary ← query (λ db, space_summary db s u);
  match summary with
  | Some r => mret r
  | None => se_err (Wrap ErrNoRows "failed to populate SQLite space summary")
  end.

Definition ListSpaces (find : FindSpace) : Tx (list Space) :=
  query (λ db,
    let rows := select (λ id row,
        matches_opt (fs_id find) id &&
        match fs_id_list find with [] => true | l => bool_decide (id ∈ l) end &&
        matches_opt (fs_uid find) (sr_uid row)) by_id_desc (spaces db) in
    let summarised := omap (λ kv : Z * space_row,
        match fs_member_user find with
        | None => Some (mkSpace kv.1 (sr_uid kv.2) (sr_title kv.2) (sr_description kv.2) "" 0)
        | Some u =>
            '(role, count) ← space_summary db kv.1 u;
            Some (mkSpace kv.1 (sr_uid kv.2) (sr_title kv.2) (sr_description kv.2) role count)
        end) rows in
    limit_offset (fs_limit find) (fs_offset find) summarised).

Definition UpdateSpace (update : UpdateSpaceReq) (actor : Z) : Tx Space :=
  _ ← authorizeSpaceAdmin (us_id update) actor;
  _ ← require (match us_title update, us_desc update with None, None => false | _, _ => true end)
        ErrSyntax;
  row ← query (λ db, spaces db !! us_id update);
  match row with
  | None => se_err ErrNoRows
  | Some row =>
      let row' := mkSpaceRow (sr_uid row) (default (sr_title row) (us_title update))
                    (default (sr_description row) (us_desc update)) in
      _ ← exec (set_spaces <[us_id update := row']>);
      '(role, count) ← populateSpaceSummary (us_id update) actor;
      mret (mkSpace (us_id update) (sr_uid row') (sr_title row') (sr_description row') role count)
  end.

Definition CreateSpaceInvitation (create : SpaceMember) (actor : Z) : Tx SpaceMember :=
  _ ← authorizeSpaceAdmin (sm_space create) actor;
  _ ← requireActiveUser (sm_user create);
  _ ← insert_member (sm_space create) (sm_user create)
        (mkMember SpaceMemberStatusInvited (sm_role create)) ErrSpaceMemberAlreadyExists;
  mret create.

(** A viewer of [ListSpaceMembers] is an active member of the space. *)
Definition is_viewer (db : DB) (s v : Z) : bool :=
  match active_member_role db s v with Some r => IsActiveMember r | None => false end.

Definition member_of_row (kv : (Z * Z) * member_row) : SpaceMember :=
  mkSpaceMember kv.1.1 kv.1.2 (mb_role kv.2).

Definition ListSpaceMembers (find : FindSpaceMember) : Tx (list SpaceMember) :=
  query (λ db,
    let rows := select (λ k m,
        bool_decide (mb_status m = SpaceMemberStatusActive) && IsActiveMember (mb_role m) &&
        space_exists db k.1 && bool_decide (active_user db k.2) &&
        matches_opt (fm_space find) k.1 && matches_opt (fm_user find) k.2 &&
        match fm_viewer find with Some v => is_viewer db k.1 v | None => true end)
      by_user_asc (members db) in
    limit_offset (fm_limit find) (fm_offset find) (map member_of_row rows)).

(** An invitation is visible to its invitee, and to the active administrators
    of its space. *)
Definition ListSpaceInvitations (find : FindSpaceMember) : Tx (list SpaceMember) :=
  query (λ db,
    let rows := select (λ k m,
        bool_decide (mb_status m = SpaceMemberStatusInvited) && IsActiveMember (mb_role m) &&
        space_exists db k.1 && bool_decide (is_Some (users db !! k.2)) &&
        matches_opt (fm_space find) k.1 && matches_opt (fm_user find) k.2 &&
        match fm_viewer find with
        | Some v => bool_decide (k.2 = v ∧ active_user db v) ||
                    bool_decide (active_member_role db k.1 v = Some SpaceMemberRoleAdmin)
        | None => true
        end)
      by_space_desc_user_asc (members db) in
    limit_offset (fm_limit find) (fm_offset find) (map member_of_row rows)).

Definition AcceptSpaceInvitation (s u actor : Z) : Tx SpaceMember :=
  if negb (u =? actor)%Z then se_err ErrSpacePermissionDenied
  else
    _ ← requireActiveUser u;
    row ← query (λ db, members db !! (s, u));
    match row with
    | Some m =>
        if decide (mb_status m = SpaceMemberStatusInvited ∧ IsActiveMember (mb_role m) = true)
        then
          _ ← exec (set_members <[(s, u) := mkMember SpaceMemberStatusActive (mb_role m)]>);
          mret (mkSpaceMember s u (mb_role m))
        else se_err ErrSpaceInvitationNotFound
    | None => se_err ErrSpaceInvitationNotFound
    end.

(** [DELETE FROM space_member WHERE space_id AND user_id AND status = 'INVITED'],
    which must affect a row. *)
Definition delete_invitation (s u : Z) : Tx unit :=
  row ← query (λ db, members db !! (s, u));
  match row with
  | Some m =>
      if decide (mb_status m = SpaceMemberStatusInvited)
      then exec (set_members (delete (s, u)))
      else se_err ErrSpaceInvitationNotFound
  | None => se_err ErrSpaceInvitationNotFound
  end.

Definition DeclineSpaceInvitation (s u actor : Z) : Tx unit :=
  if negb (u =? actor)%Z then se_err ErrSpacePermissionDenied
  else _ ← requireActiveUser u; delete_invitation s u.

Definition RevokeSpaceInvitation (s u actor : Z) : Tx unit :=
  _ ← authorizeSpaceAdmin s actor; delete_invitation s u.

Definition admin_count (s : Z) : Tx nat := query (λ db, count_members db s is_admin).

Definition UpdateSpaceMember (s u : Z) (role : option SpaceMemberRole) (actor : Z)
  : Tx SpaceMember :=
  _ ← authorizeSpaceAdmin s actor;
  _ ← requireActiveUser u;
  row ← query (λ db, members db !! (s, u));
  match row with
  | Some m =>
      if decide (mb_status m = SpaceMemberStatusActive) then
        _ ← (match role with
             | Some r =>
                 if is_admin (mb_role m) && negb (is_admin r) then
                   count ← admin_count s; require (1 <? count)%nat ErrLastSpaceAdmin
                 else mret tt
             | None => mret tt
             end);
        match role with
        | Some r =>
            _ ← require (IsActiveMember r) ErrCheck;
            _ ← exec (set_members <[(s, u) := mkMember SpaceMemberStatusActive r]>);
            mret (mkSpaceMember s u r)
        | None => se_err ErrSyntax
        end
      else se_err ErrSpaceMemberNotFound
  | None => se_err ErrSpaceMemberNotFound
  end.

Definition DeleteSpaceMember (s u actor : Z) : Tx unit :=
  exists_ ← query (λ db, space_exists db s);
  if negb exists_ then se_err ErrSpaceNotFound
  else
    _ ← (if (actor =? u)%Z then mret tt
         else
           role ← query (λ db, active_member_role db s actor);
           match role with
           | None => se_err ErrSpacePermissionDenied
           | Some r => require (is_admin r) ErrSpacePermissionDenied
           end);
    row ← query (λ db, members db !! (s, u));
    match row with
    | Some m =>
        if decide (mb_status m = SpaceMemberStatusActive) then
          target ← query (λ db, user_status db u);
          _ ← (if is_admin (mb_role m) && bool_decide (target = Some Normal) then
                 count ← admin_count s; require (1 <? count)%nat ErrLastSpaceAdmin
               else mret tt);
          exec (set_members (delete (s, u)))
        else se_err ErrSpaceMemberNotFound
    | None => se_err ErrSpaceMemberNotFound
    end.

(** ** Deleting a set of memos: [space_delete.go] and [user_delete.go] *)

(** [deleteUserBatches] with [size > 0]: at most [fuel] batches; there is one
    per element at most. *)
Fixpoint batches_from {A} (fuel size : nat) (values : list A) : list (list A) :=
  match fuel, values with
  | _, [] | 0%nat, _ => []
  | S fuel, _ => take size values :: batches_from fuel size (drop size values)
  end.
Definition deleteUserBatches {A} (values : list A) (size : nat) : list (list A) :=
  match values with
  | [] => []
  | _ =>
      let size := match size with 0%nat => length values | _ => size end in
      batches_from (length values) size values
  end.
Definition deleteUserBatchSize : nat := 500.

(** One [DELETE ... WHERE key IN (batch)] per batch. *)
Definition exec_batches (f : list Z → DB → DB) (ids : list Z) : Tx unit :=
  exec (λ db, fold_left (λ d batch, f batch d) (deleteUserBatches ids deleteUserBatchSize) db).

Definition deleteMemosTx : list Z → Tx unit :=
  exec_batches (λ ids, set_memos (delete_where (λ id _, bool_decide (id ∈ ids)))).
Definition deleteReactionsByMemoIDsTx : list Z → Tx unit :=
  exec_batches (λ ids, set_reactions (delete_where (λ _ r, bool_decide (re_memo r ∈ ids)))).
Definition deleteAttachmentsByIDsTx : list Z → Tx unit :=
  exec_batches (λ ids, set_attachments (delete_where (λ id _, bool_decide (id ∈ ids)))).
Definition deleteMemoSetShares : list Z → Tx unit :=
  exec_batches (λ ids, set_shares (delete_where (λ _ s, bool_decide (sh_memo s ∈ ids)))).
Definition deleteMemoRelationsTx : list Z → Tx unit :=
  exec_batches (λ ids, set_relations
    (filter (λ r, ¬ (r.1.1 ∈ ids ∨ r.1.2 ∈ ids)))).

(** The attachments of the memos, each once: [appendDeleteUserAttachments]
    skips the ids it has seen. *)
Definition bound_to (ids : list Z) (memo : option Z) : bool :=
  match memo with Some m => bool_decide (m ∈ ids) | None => false end.
Definition memo_attachments (ids : list Z) (db : DB) : list (Z * Attachment) :=
  map_to_list (filter (λ kv, bound_to ids (at_memo kv.2) = true) (attachments db)).

Definition deleteMemoSetTx (ids : list Z) : Tx (list (Z * Attachment)) :=
  ats ← query (memo_attachments ids);
  _ ← deleteMemoSetShares ids;
  _ ← deleteMemosTx ids;
  _ ← deleteReactionsByMemoIDsTx ids;
  _ ← deleteAttachmentsByIDsTx (map fst ats);
  _ ← deleteMemoRelationsTx ids;
  mret ats.

(** [requireSQLiteSpaceDeleteAdmin]. *)
Definition requireSpaceDeleteAdmin (del : DeleteSpaceReq) : Tx unit :=
  status ← query (λ db, user_status db (ds_actor del));
  _ ← require (bool_decide (status = Some Normal)) ErrSpacePermissionDenied;
  exists_ ← query (λ db, space_exists db (ds_id del));
  _ ← require exists_ ErrSpaceNotFound;
  row ← query (λ db, members db !! (ds_id del, ds_actor del));
  match row with
  | Some m =>
      require (bool_decide (mb_status m = SpaceMemberStatusActive) && is_admin (mb_role m))
        ErrSpacePermissionDenied
  | None => se_err ErrSpacePermissionDenied
  end.

(** [listSQLiteSpaceDeleteMemoIDs]. *)
Definition space_memo_ids (s : Z) (db : DB) : list Z :=
  merge_sort Z.le (map fst (map_to_list (filter (λ kv, mm_space kv.2 = Some s) (memos db)))).

Definition DeleteSpace (del : DeleteSpaceReq) : Tx (list (Z * Attachment)) :=
  _ ← requireSpaceDeleteAdmin del;
  ids ← query (space_memo_ids (ds_id del));
  ats ← deleteMemoSetTx ids;
  _ ← exec (set_members (delete_where (λ k _, (k.1 =? ds_id del)%Z)));
  _ ← exec (set_spaces (delete (ds_id del)));
  mret ats.

(** ** Users *)

Definition CreateUser (create : User) (now : Z) : Tx Z :=
  taken ← query (λ db, bool_decide (map_Exists (λ _ u, us_username u = us_username create) (users db)));
  _ ← require (negb taken) ErrUnique;
  id ← query next_user;
  _ ← exec (λ db, set_next (id + 1) (next_space db) (next_memo db) (next_share db)
        (set_users <[id := mkUser (us_username create) (us_role create) (us_email create)
          (us_nickname create) (us_password_hash create) (us_avatar_url create) "" now now Normal]>
          db));
  mret id.

(** [validateSQLiteUserArchive]: no space may lose its last active ADMIN. *)
Definition other_admin (db : DB) (s u : Z) : bool :=
  bool_decide (map_Exists (λ k m,
    k.1 = s ∧ k.2 ≠ u ∧ mb_status m = SpaceMemberStatusActive ∧ is_admin (mb_role m) = true ∧
    active_user db k.2) (members db)).
Definition would_lose_admin (db : DB) (u : Z) : bool :=
  bool_decide (map_Exists (λ k m,
    k.2 = u ∧ mb_status m = SpaceMemberStatusActive ∧ is_admin (mb_role m) = true ∧
    other_admin db k.1 u = false) (members db)).
Definition validateUserArchive (u : Z) : Tx unit :=
  status ← query (λ db, user_status db u);
  match status with
  | None => se_err ErrNoRows
  | Some st =>
      if negb (String.eqb st Normal) then mret tt
      else lose ← query (λ db, would_lose_admin db u); require (negb lose) ErrLastSpaceAdmin
  end.

Record UpdateUserReq := mkUpdateUser {
  uu_id : Z; uu_updated_ts : option Z; uu_row_status : option RowStatus;
  uu_username : option string; uu_email : option string; uu_nickname : option string;
  uu_avatar_url : option string; uu_password_hash : option string;
  uu_description : option string; uu_role : option string;
}.

Definition updated_user (u : UpdateUserReq) (row : User) : User :=
  mkUser (default (us_username row) (uu_username u)) (default (us_role row) (uu_role u))
    (default (us_email row) (uu_email u)) (default (us_nickname row) (uu_nickname u))
    (default (us_password_hash row) (uu_password_hash u))
    (default (us_avatar_url row) (uu_avatar_url u))
    (default (us_description row) (uu_description u)) (us_created_ts row)
    (default (us_updated_ts row) (uu_updated_ts u))
    (default (us_row_status row) (uu_row_status u)).

Definition sets_something (u : UpdateUserReq) : bool :=
  match uu_updated_ts u, uu_row_status u, uu_username u, uu_email u, uu_nickname u,
        uu_avatar_url u, uu_password_hash u, uu_description u, uu_role u with
  | None, None, None, None, None, None, None, None, None => false
  | _, _, _, _, _, _, _, _, _ => true
  end.

Definition UpdateUser (u : UpdateUserReq) : Tx User :=
  _ ← (match uu_row_status u with
       | Some st => if String.eqb st Archived then validateUserArchive (uu_id u) else mret tt
       | None => mret tt
       end);
  _ ← require (sets_something u) ErrSyntax;
  row ← query (λ db, users db !! uu_id u);
  match row with
  | None => se_err ErrNoRows
  | Some row =>
      let row' := updated_user u row in
      taken ← query (λ db, bool_decide (map_Exists (λ id v,
                 id ≠ uu_id u ∧ us_username v = us_username row') (users db)));
      _ ← require (negb taken) ErrUnique;
      _ ← require (String.eqb (us_row_status row') Normal || String.eqb (us_row_status row') Archived)
            ErrCheck;
      _ ← exec (set_users <[uu_id u := row']>);
      mret row'
  end.

(** [collectDeleteUserTargets]. *)
Record deleteUserTargetSet := mkTargets {
  tg_memos : list Z; tg_attachments : list (Z * Attachment);
  tg_settings : list string; tg_inboxes : list Z }.

Definition user_memo_ids (u : Z) (db : DB) : list Z :=
  merge_sort Z.le (map fst (map_to_list (filter (λ kv, mm_creator kv.2 = u) (memos db)))).

Definition collectDeleteUserTargets (u : Z) (db : DB) : deleteUserTargetSet :=
  let ids := user_memo_ids u db in
  mkTargets ids
    (map_to_list (filter (λ kv, at_creator kv.2 = u ∨ bound_to ids (at_memo kv.2) = true)
      (attachments db)))
    (map (λ kv, kv.1.2) (map_to_list (filter (λ kv, kv.1.1 = u) (user_settings db))))
    (map fst (map_to_list (filter (λ kv, kv.2.1 = u ∨ kv.2.2 = u) (inboxes db)))).

(** [deleteUserTargetsTx]. *)
Definition deleteUserTargetsTx (u : Z) (t : deleteUserTargetSet) : Tx unit :=
  _ ← deleteMemosTx (tg_memos t);
  _ ← deleteReactionsByMemoIDsTx (tg_memos t);
  _ ← deleteAttachmentsByIDsTx (map fst (tg_attachments t));
  _ ← exec (set_reactions (delete_where (λ _ r, (re_creator r =? u)%Z)));
  _ ← exec (set_shares (delete_where (λ _ s, (sh_creator s =? u)%Z)));
  _ ← deleteMemoSetShares (tg_memos t);
  _ ← exec_batches (λ ids, set_inboxes (delete_where (λ id _, bool_decide (id ∈ ids)))) (tg_inboxes t);
  _ ← exec (set_identities (delete_where (λ _ v, (v =? u)%Z)));
  _ ← exec (set_settings (delete_where (λ k _, (k.1 =? u)%Z)));
  _ ← deleteMemoRelationsTx (tg_memos t);
  exec (set_users (delete u)).

(** [DeleteUser]; [failpoint] is the test hook of the context. *)
Definition DeleteUser (u : Z) (failpoint : bool) : Tx (list (Z * Attachment) * list string) :=
  row ← query (λ db, users db !! u);
  match row with
  | None => mret ([], [])
  | Some _ =>
      member ← query (λ db, bool_decide (map_Exists (λ k m,
                 k.2 = u ∧ mb_status m ≠ SpaceMemberStatusInvited) (members db)));
      _ ← require (negb member) ErrUserHasSpaceMembership;
      _ ← exec (set_members (delete_where (λ k m,
            bool_decide (k.2 = u ∧ mb_status m = SpaceMemberStatusInvited))));
      t ← query (collectDeleteUserTargets u);
      _ ← deleteUserTargetsTx u t;
      _ ← require (negb failpoint) (errorf0 "delete user failpoint before commit");
      mret (tg_attachments t, tg_settings t)
  end.
End Driver.

(** ** The store methods: argument checks, then the driver *)

(** [base.UIDMatcher]: [^[a-zA-Z0-9](?:[a-zA-Z0-9-]{0,34}[a-zA-Z0-9])?$]. *)
Definition is_alnum (c : ascii) : bool :=
  let n := N_of_ascii c in
  ((48 <=? n) && (n <=? 57) || (65 <=? n) && (n <=? 90) || (97 <=? n) && (n <=? 122))%N.
Definition UIDMatcher (s : string) : bool :=
  let l := Str.to_list s in
  match l, last l with
  | c :: _, Some z =>
      is_alnum c && is_alnum z && forallb (λ c, is_alnum c || Ascii.eqb c "-") l
        && (length l <=? 36)%nat
  | _, _ => false
  end.

Definition CreateSpace (create : Space) (creator : Z) : Tx Space :=
  if negb (UIDMatcher (sp_uid create)) then se_err (errorf0 "invalid uid")
  else if String.eqb (Str.trim_space (sp_title create)) "" then
    se_err (errorf0 "space title is required")
  else Driver.CreateSpace create creator.

Definition GetSpace (find : FindSpace) : Tx (option Space) :=
  l ← Driver.ListSpaces find; mret (head l).

Definition UpdateSpace (update : UpdateSpaceReq) (actor : Z) : Tx Space :=
  match us_title update with
  | Some t =>
      if String.eqb (Str.trim_space t) "" then se_err (errorf0 "space title is required")
      else Driver.UpdateSpace update actor
  | None =>
      match us_desc update with
      | None => se_err (errorf0 "space update requires at least one field")
      | Some _ => Driver.UpdateSpace update actor
      end
  end.

Definition DeleteSpace (del : DeleteSpaceReq) : Tx (list (Z * Attachment)) :=
  if (ds_id del <=? 0)%Z || (ds_actor del <=? 0)%Z then
    se_err (errorf0 "space deletion requires space and actor")
  else Driver.DeleteSpace del.

Definition GetSpaceMember (find : FindSpaceMember) : Tx (option SpaceMember) :=
  l ← Driver.ListSpaceMembers find; mret (head l).

Definition UpdateSpaceMember (s u : Z) (role : option SpaceMemberRole) (actor : Z)
  : Tx SpaceMember :=
  match role with
  | None => se_err (errorf0 "space member role is required")
  | Some r =>
      if negb (IsActiveMember r) then se_err (errorf0 "invalid space member role")
      else Driver.UpdateSpaceMember s u role actor
  end.

Definition positive3 (a b c : Z) : bool := ((0 <? a) && (0 <? b) && (0 <? c))%Z.

Definition DeleteSpaceMember (s u actor : Z) : Tx unit :=
  if positive3 s u actor then Driver.DeleteSpaceMember s u actor
  else se_err (errorf0 "space member deletion requires space, user, and actor").

Definition CreateSpaceInvitation (create : SpaceMember) (actor : Z) : Tx SpaceMember :=
  if positive3 (sm_space create) (sm_user create) actor then
    if negb (IsActiveMember (sm_role create)) then se_err (errorf0 "invalid space invitation role")
    else Driver.CreateSpaceInvitation create actor
  else se_err (errorf0 "space invitation requires space, user, and actor").

Definition GetSpaceInvitation (find : FindSpaceMember) : Tx (option SpaceMember) :=
  l ← Driver.ListSpaceInvitations find; mret (head l).

Definition AcceptSpaceInvitation (s u actor : Z) : Tx SpaceMember :=
  if positive3 s u actor then
    if negb (u =? actor)%Z then se_err ErrSpacePermissionDenied
    else Driver.AcceptSpaceInvitation s u actor
  else se_err (errorf0 "space invitation acceptance requires space, user, and actor").

Definition DeclineSpaceInvitation (s u actor : Z) : Tx unit :=
  if positive3 s u actor then
    if negb (u =? actor)%Z then se_err ErrSpacePermissionDenied
    else Driver.DeclineSpaceInvitation s u actor
  else se_err (errorf0 "space invitation decline requires space, user, and actor").

Definition RevokeSpaceInvitation (s u actor : Z) : Tx unit :=
  if positive3 s u actor then Driver.RevokeSpaceInvitation s u actor
  else se_err (errorf0 "space invitation revocation requires space, user, and actor").
