(* ===== verification/SpaceStoreFacts.v ===== *)
(** What the space and user operations guarantee: every space keeps an active
    administrator, nobody becomes a member without accepting, only
    administrators manage a space, and deletions leave nothing dangling. *)
From S2P Require Import Prelude GoLib Store SpaceStore.

(** ** Inversion of transactions *)

Lemma require_Ok b e db r : require b e db = Ok r ↔ b = true ∧ r = (tt, db).
Proof. unfold require. destruct b; cbv [mret SE_ret se_err]; naive_solver. Qed.

Lemma query_Ok {A} (q : DB → A) db r : query q db = Ok r ↔ r = (q db, db).
Proof. unfold query. naive_solver. Qed.

Lemma exec_Ok f db r : exec f db = Ok r ↔ r = (tt, f db).
Proof. unfold exec. naive_solver. Qed.

(** Walk through a successful transaction, from its first statement on. *)
Ltac tx_step H :=
  lazymatch type of H with
  | (_ ≫= _) _ = Ok _ =>
      let a := fresh "a" in let s := fresh "s" in let E := fresh "E" in
      apply se_bind_Ok in H as (a & s & E & H);
      first [apply query_Ok in E; injection E as -> ->
            |apply exec_Ok in E; injection E as -> ->
            |apply require_Ok in E as [? E]; injection E as -> ->
            |idtac]
  | mret _ _ = Ok _ => apply se_ret_Ok in H
  | query _ _ = Ok _ => apply query_Ok in H
  | exec _ _ = Ok _ => apply exec_Ok in H
  | require _ _ _ = Ok _ => apply require_Ok in H as [? H]
  | se_err _ _ = Ok _ => discriminate H
  | (match ?x with _ => _ end) _ = Ok _ => first [is_var x; destruct x|destruct x eqn:?]
  end.
Ltac tx H := repeat (tx_step H; cbv beta iota in H); simplify_eq.

Section guards.
Import Driver.

Lemma requireActiveUser_Ok u db r :
  requireActiveUser u db = Ok r ↔ active_user db u ∧ r = (tt, db).
Proof.
  unfold requireActiveUser, active_user. split.
  - intros H. tx H. split; [|done]. destruct (String.eqb_spec r0 Normal); naive_solver.
  - intros [Hu ->]. cbv [mbind SE_bind query]. by rewrite Hu.
Qed.

(** The actor is a NORMAL user with an ACTIVE ADMIN membership. *)
Definition space_admin (db : DB) (s u : Z) : Prop :=
  active_member_role db s u = Some SpaceMemberRoleAdmin.

Lemma authorizeSpaceAdmin_Ok s u db r :
  authorizeSpaceAdmin s u db = Ok r ↔
  is_Some (spaces db !! s) ∧ space_admin db s u ∧ r = (tt, db).
Proof.
  unfold authorizeSpaceAdmin, space_admin, is_admin. split.
  - intros H. tx H.
    unfold space_exists in *. destruct (bool_decide_reflect (is_Some (spaces db !! s))); [|done].
    by match goal with E : String.eqb _ _ = true |- _ => apply String.eqb_eq in E as -> end.
  - intros (Hs & Hr & ->). cbv [mbind SE_bind query]. unfold space_exists.
    rewrite bool_decide_true by done. cbn. by rewrite Hr.
Qed.

Lemma insert_member_Ok s u m e db r :
  insert_member s u m e db = Ok r ↔
  members db !! (s, u) = None ∧ IsActiveMember (mb_role m) = true ∧
  r = (tt, set_members <[(s, u) := m]> db).
Proof.
  unfold insert_member. split.
  - intros H. tx H. done.
  - intros (Hn & Hr & ->). cbv [mbind SE_bind query]. rewrite Hn. unfold require. by rewrite Hr.
Qed.
End guards.

(** ** Administrators *)

Lemma space_admin_spec db s u :
  space_admin db s u ↔
  ∃ m, members db !! (s, u) = Some m ∧ mb_status m = SpaceMemberStatusActive ∧
       mb_role m = SpaceMemberRoleAdmin ∧ active_user db u.
Proof.
  unfold space_admin, active_member_role. split.
  - intros (m & Hm & Hr)%bind_Some. case_decide; naive_solver.
  - intros (m & Hm & ? & <- & ?). rewrite Hm. cbn. by rewrite decide_True.
Qed.

(** More than one administrator: whoever leaves, another one stays. *)
Lemma count_admins_other db s u :
  (1 < count_members db s is_admin)%nat → ∃ u', u' ≠ u ∧ space_admin db s u'.
Proof.
  intros Hc. unfold count_members in Hc.
  set (f := filter _ (members db)) in Hc.
  destruct (decide (map_Exists (λ k _, k.2 ≠ u) f)) as [He|Hn].
  - destruct He as ([s' u'] & m & Hm & Hne). apply map_lookup_filter_Some in Hm as (Hm & Hp).
    cbn in *. destruct Hp as (-> & ? & Hr & ?). exists u'. split; [done|].
    apply space_admin_spec. exists m. unfold is_admin in Hr. apply String.eqb_eq in Hr. eauto.
  - exfalso. assert (dom f ⊆ {[(s, u)]}) as Hsub.
    { intros k [m Hm]%elem_of_dom. apply elem_of_singleton.
      apply map_lookup_filter_Some in Hm as Hm'. destruct Hm' as (_ & Hs & _).
      destruct (decide (k.2 = u)) as [Hu|Hu]; [destruct k; cbn in *; by subst|].
      destruct Hn. by exists k, m. }
    apply subseteq_size in Hsub. rewrite size_dom, size_singleton in Hsub. lia.
Qed.

(** Every space has an active administrator, and ids are handed out fresh. *)
Definition admin_inv (db : DB) : Prop :=
  ∀ s, is_Some (spaces db !! s) → ∃ u, space_admin db s u.
Definition ids_fresh (db : DB) : Prop :=
  (∀ u, is_Some (users db !! u) → (u < next_user db)%Z) ∧
  (∀ s, is_Some (spaces db !! s) → (s < next_space db)%Z).
Definition space_inv (db : DB) : Prop := admin_inv db ∧ ids_fresh db.

(** An update of the memberships keeps the invariant when every administrator
    of every space is kept or replaced. *)
Lemma space_inv_members f db :
  (∀ s u, space_admin db s u → is_Some (spaces db !! s) →
          ∃ u', space_admin (set_members f db) s u') →
  space_inv db → space_inv (set_members f db).
Proof.
  intros Hf [Ha Hi]. split; [|done]. intros s Hs. destruct (Ha s Hs) as [u Hu]. by apply (Hf s u).
Qed.

Lemma space_admin_insert_other db s u k m :
  space_admin db s u → (s, u) ≠ k → space_admin (set_members <[k := m]> db) s u.
Proof.
  intros (m' & Hm & Hs & Hr & Hu)%space_admin_spec Hk. apply space_admin_spec.
  exists m'. split_and!; [|done..]. cbn. by rewrite lookup_insert_ne.
Qed.

Lemma space_admin_delete_other db s u k :
  space_admin db s u → (s, u) ≠ k → space_admin (set_members (delete k) db) s u.
Proof.
  intros (m' & Hm & Hs & Hr & Hu)%space_admin_spec Hk. apply space_admin_spec.
  exists m'. split_and!; [|done..]. cbn. by rewrite lookup_delete_ne.
Qed.

(** The memberships and statuses of two databases agree. *)
Lemma space_inv_frame db db' :
  members db' = members db → dom (spaces db') = dom (spaces db) →
  (∀ u, active_user db u → active_user db' u) →
  (∀ u, is_Some (users db' !! u) → (u < next_user db')%Z) →
  next_space db' = next_space db →
  space_inv db → space_inv db'.
Proof.
  intros Hm Hs Hu Hi Hn [Ha [_ Hf]]. split; [|split; [done|]].
  - intros s Hd. rewrite <- elem_of_dom, Hs, elem_of_dom in Hd.
    destruct (Ha s Hd) as [u (m & ? & ? & ? & ?)%space_admin_spec].
    exists u. apply space_admin_spec. exists m. rewrite Hm. eauto.
  - intros s Hd. rewrite <- elem_of_dom, Hs, elem_of_dom in Hd. rewrite Hn. by apply Hf.
Qed.

(** ** The effect of each operation on the memberships *)

Module Effects.
Import Driver.

Lemma CreateSpace_Ok create c db sp db' :
  CreateSpace create c db = Ok (sp, db') →
  active_user db c ∧ members db !! (next_space db, c) = None ∧
  sp_id sp = next_space db ∧
  db' = set_members
          <[(next_space db, c) := mkMember SpaceMemberStatusActive SpaceMemberRoleAdmin]>
          (set_next (next_user db) (next_space db + 1) (next_memo db) (next_share db)
            (set_spaces <[next_space db := mkSpaceRow (sp_uid create) (sp_title create)
                           (sp_description create)]> db)).
Proof.
  unfold CreateSpace. intros H. tx H.
  apply requireActiveUser_Ok in E as [Hu [= -> ->]].
  apply insert_member_Ok in E0 as (Hn & _ & [= -> ->]). done.
Qed.

Lemma UpdateSpace_Ok upd actor db sp db' :
  UpdateSpace upd actor db = Ok (sp, db') →
  space_admin db (us_id upd) actor ∧
  ∃ row, spaces db !! us_id upd = Some row ∧
    db' = set_spaces <[us_id upd := mkSpaceRow (sr_uid row)
            (default (sr_title row) (us_title upd)) (default (sr_description row) (us_desc upd))]> db.
Proof.
  unfold UpdateSpace, populateSpaceSummary. intros H. tx H.
  apply authorizeSpaceAdmin_Ok in E as (_ & Ha & [= -> ->]). split; [done|].
  tx E0. eauto.
Qed.

Lemma CreateSpaceInvitation_Ok create actor db sm db' :
  CreateSpaceInvitation create actor db = Ok (sm, db') →
  space_admin db (sm_space create) actor ∧ active_user db (sm_user create) ∧
  members db !! (sm_space create, sm_user create) = None ∧
  IsActiveMember (sm_role create) = true ∧
  db' = set_members <[(sm_space create, sm_user create)
                      := mkMember SpaceMemberStatusInvited (sm_role create)]> db.
Proof.
  unfold CreateSpaceInvitation. intros H. tx H.
  apply authorizeSpaceAdmin_Ok in E as (_ & Ha & [= -> ->]).
  apply requireActiveUser_Ok in E0 as [Hu [= -> ->]].
  apply insert_member_Ok in E1 as (Hn & Hr & [= -> ->]). done.
Qed.

Lemma AcceptSpaceInvitation_Ok s u actor db sm db' :
  AcceptSpaceInvitation s u actor db = Ok (sm, db') →
  actor = u ∧ active_user db u ∧
  ∃ m, members db !! (s, u) = Some m ∧ mb_status m = SpaceMemberStatusInvited ∧
    sm = mkSpaceMember s u (mb_role m) ∧
    db' = set_members <[(s, u) := mkMember SpaceMemberStatusActive (mb_role m)]> db.
Proof.
  unfold AcceptSpaceInvitation. intros H. tx H.
  apply requireActiveUser_Ok in E as [Hu [= -> ->]].
  destruct (Z.eqb_spec u actor) as [->|]; [|done]. split_and!; [done..|].
  destruct_and!. eauto.
Qed.

Lemma delete_invitation_Ok s u db r :
  delete_invitation s u db = Ok r →
  ∃ m, members db !! (s, u) = Some m ∧ mb_status m = SpaceMemberStatusInvited ∧
    r = (tt, set_members (delete (s, u)) db).
Proof. unfold delete_invitation. intros H. tx H. eauto. Qed.

Lemma DeclineSpaceInvitation_Ok s u actor db r :
  DeclineSpaceInvitation s u actor db = Ok r →
  actor = u ∧
  ∃ m, members db !! (s, u) = Some m ∧ mb_status m = SpaceMemberStatusInvited ∧
    r = (tt, set_members (delete (s, u)) db).
Proof.
  unfold DeclineSpaceInvitation. intros H. tx H.
  apply requireActiveUser_Ok in E as [Hu [= -> ->]].
  destruct (Z.eqb_spec u actor) as [->|]; [|done]. split; [done|].
  by apply delete_invitation_Ok.
Qed.

Lemma RevokeSpaceInvitation_Ok s u actor db r :
  RevokeSpaceInvitation s u actor db = Ok r →
  space_admin db s actor ∧
  ∃ m, members db !! (s, u) = Some m ∧ mb_status m = SpaceMemberStatusInvited ∧
    r = (tt, set_members (delete (s, u)) db).
Proof.
  unfold RevokeSpaceInvitation. intros H. tx H.
  apply authorizeSpaceAdmin_Ok in E as (_ & Ha & [= -> ->]).
  split; [done|]. by apply delete_invitation_Ok.
Qed.

Lemma UpdateSpaceMember_Ok s u role actor db sm db' :
  UpdateSpaceMember s u role actor db = Ok (sm, db') →
  space_admin db s actor ∧ active_user db u ∧
  ∃ m r, members db !! (s, u) = Some m ∧ mb_status m = SpaceMemberStatusActive ∧
    role = Some r ∧ IsActiveMember r = true ∧
    (is_admin (mb_role m) = true → is_admin r = false →
     (1 < count_members db s is_admin)%nat) ∧
    db' = set_members <[(s, u) := mkMember SpaceMemberStatusActive r]> db.
Proof.
  unfold UpdateSpaceMember. intros H.
  tx_step H. apply authorizeSpaceAdmin_Ok in E as (_ & Ha & [= -> ->]).
  tx_step H. apply requireActiveUser_Ok in E as [Hu [= -> ->]].
  tx_step H. tx_step H; [|by tx H]. tx_step H; [|by tx H].
  destruct role as [r|]; [|tx H].
  apply se_bind_Ok in H as ([] & s' & E & H).
  assert (s' = db ∧ (is_admin (mb_role m) = true → is_admin r = false →
            (1 < count_members db s is_admin)%nat)) as [-> Hc].
  { destruct (is_admin (mb_role m)) eqn:?, (is_admin r) eqn:?; cbn [andb negb] in E;
      unfold admin_count in E; tx E; try done.
    split; [done|]. intros _ _. by apply Nat.ltb_lt. }
  tx H. split_and!; [done..|]. eauto 10.
Qed.

Lemma DeleteSpaceMember_Ok s u actor db r :
  DeleteSpaceMember s u actor db = Ok r →
  (actor = u ∨ space_admin db s actor) ∧
  ∃ m, members db !! (s, u) = Some m ∧ mb_status m = SpaceMemberStatusActive ∧
    (is_admin (mb_role m) = true → active_user db u →
     (1 < count_members db s is_admin)%nat) ∧
    r = (tt, set_members (delete (s, u)) db).
Proof.
  unfold DeleteSpaceMember. intros H. tx_step H. tx_step H; [tx H|].
  apply se_bind_Ok in H as ([] & s' & E & H).
  assert (s' = db ∧ (actor = u ∨ space_admin db s actor)) as [-> Ha].
  { destruct (Z.eqb_spec actor u); tx E; [by auto|]. split; [done|]. right.
    unfold space_admin, is_admin in *. by match goal with
      E : String.eqb _ _ = true |- _ => apply String.eqb_eq in E as -> end. }
  clear E.
  tx_step H. tx_step H; [|by tx H]. tx_step H; [|by tx H]. tx_step H.
  apply se_bind_Ok in H as ([] & s' & E & H).
  assert (s' = db ∧ (is_admin (mb_role m) = true → active_user db u →
            (1 < count_members db s is_admin)%nat)) as [-> Hc].
  { unfold active_user. destruct (is_admin (mb_role m)) eqn:?; cbn [andb] in E;
      unfold admin_count in E; tx E.
    all: split; [done|]; intros Hm Hu; try discriminate Hm.
    all: first
      [ by apply Nat.ltb_lt
      | match goal with Hb : bool_decide _ = false |- _ =>
          by apply bool_decide_eq_false in Hb end ]. }
  tx H. split; [done|]. eauto.
Qed.
End Effects.

(** ** Batched deletion *)

Section batches.
Import Driver.

Lemma concat_batches_from {A} size (fuel : nat) : ∀ values : list A,
  (0 < size)%nat → (length values ≤ fuel)%nat → concat (batches_from fuel size values) = values.
Proof.
  induction fuel as [|fuel IH]; intros values Hs Hl.
  - destruct values; [done|cbn in Hl; lia].
  - destruct values as [|v vs]; [done|]. cbn [batches_from concat].
    rewrite IH; [apply take_drop|done|].
    rewrite length_drop. cbn [length] in *. lia.
Qed.

(** The batches split the list: nothing is lost or reordered, and with a
    positive size none is longer than it. *)
Lemma concat_batches {A} (values : list A) size : concat (deleteUserBatches values size) = values.
Proof.
  destruct values as [|v vs]; [done|]. unfold deleteUserBatches.
  apply concat_batches_from; [|done]. destruct size; cbn; lia.
Qed.

Lemma delete_where_app {K V} `{Countable K} (key : K → V → Z) (a b : list Z) (t : gmap K V) :
  delete_where (λ k v, bool_decide (key k v ∈ b))
    (delete_where (λ k v, bool_decide (key k v ∈ a)) t)
  = delete_where (λ k v, bool_decide (key k v ∈ a ++ b)) t.
Proof.
  unfold delete_where. apply map_eq. intros k. apply option_eq. intros v.
  rewrite !map_lookup_filter_Some. cbn. rewrite !bool_decide_eq_false, elem_of_app. naive_solver.
Qed.

Lemma delete_where_none {K V} `{Countable K} (c : K → V → bool) (t : gmap K V) :
  (∀ k v, c k v = false) → delete_where c t = t.
Proof. intros Hc. unfold delete_where. apply map_filter_id. intros k v _. apply Hc. Qed.

(** A loop of deletions over the batches is one deletion over the list. *)
Lemma exec_batches_fold {T} (table : (T → T) → DB → DB) (del : list Z → T → T) ids db :
  (∀ f g d, table f (table g d) = table (λ t, f (g t)) d) →
  (∀ f g d, (∀ t, f t = g t) → table f d = table g d) →
  (∀ d, table (λ t, t) d = d) →
  (∀ t, del [] t = t) →
  (∀ a b t, del b (del a t) = del (a ++ b) t) →
  exec_batches (λ l, table (del l)) ids db = Ok (tt, table (del ids) db).
Proof.
  intros Hc Hx Hi Hn Ha. unfold exec_batches, exec. do 2 f_equal.
  rewrite <- (concat_batches ids deleteUserBatchSize) at 2.
  generalize (deleteUserBatches ids deleteUserBatchSize) as bs. intros bs. revert db.
  induction bs as [|b bs IH]; intros db; cbn [fold_left concat].
  - rewrite (Hx _ (λ t, t)) by done. by rewrite Hi.
  - rewrite IH, Hc. apply Hx. intros t. apply Ha.
Qed.
End batches.

(** The database without a set of memos and what they own. *)
Definition without_memos (ids : list Z) (db : DB) : DB :=
  set_relations (filter (λ r, ¬ (r.1.1 ∈ ids ∨ r.1.2 ∈ ids)))
    (set_attachments (delete_where (λ _ a, Driver.bound_to ids (at_memo a)))
      (set_reactions (delete_where (λ _ r, bool_decide (re_memo r ∈ ids)))
        (set_memos (delete_where (λ id _, bool_decide (id ∈ ids)))
          (set_shares (delete_where (λ _ s, bool_decide (sh_memo s ∈ ids))) db)))).

Section deletion.
Import Driver.
#[local] Arguments delete_where : simpl never.

Lemma deleteMemosTx_Ok ids db :
  deleteMemosTx ids db
  = Ok (tt, set_memos (delete_where (λ id _, bool_decide (id ∈ ids))) db).
Proof.
  apply (exec_batches_fold set_memos (λ l, delete_where (λ id _, bool_decide (id ∈ l))));
    [done|by intros f g [] Hfg; unfold set_memos; cbn; rewrite Hfg|by intros []|..].
  - intros t. by apply delete_where_none.
  - intros a b t. apply (delete_where_app (λ k _, k)).
Qed.
Lemma deleteReactionsByMemoIDsTx_Ok ids db :
  deleteReactionsByMemoIDsTx ids db
  = Ok (tt, set_reactions (delete_where (λ _ r, bool_decide (re_memo r ∈ ids))) db).
Proof.
  apply (exec_batches_fold set_reactions (λ l, delete_where (λ _ r, bool_decide (re_memo r ∈ l))));
    [done|by intros f g [] Hfg; unfold set_reactions; cbn; rewrite Hfg|by intros []|..].
  - intros t. by apply delete_where_none.
  - intros a b t. apply (delete_where_app (λ _ r, re_memo r)).
Qed.
Lemma deleteAttachmentsByIDsTx_Ok ids db :
  deleteAttachmentsByIDsTx ids db
  = Ok (tt, set_attachments (delete_where (λ id _, bool_decide (id ∈ ids))) db).
Proof.
  apply (exec_batches_fold set_attachments (λ l, delete_where (λ id _, bool_decide (id ∈ l))));
    [done|by intros f g [] Hfg; unfold set_attachments; cbn; rewrite Hfg|by intros []|..].
  - intros t. by apply delete_where_none.
  - intros a b t. apply (delete_where_app (λ k _, k)).
Qed.
Lemma deleteMemoSetShares_Ok ids db :
  deleteMemoSetShares ids db
  = Ok (tt, set_shares (delete_where (λ _ s, bool_decide (sh_memo s ∈ ids))) db).
Proof.
  apply (exec_batches_fold set_shares (λ l, delete_where (λ _ s, bool_decide (sh_memo s ∈ l))));
    [done|by intros f g [] Hfg; unfold set_shares; cbn; rewrite Hfg|by intros []|..].
  - intros t. by apply delete_where_none.
  - intros a b t. apply (delete_where_app (λ _ s, sh_memo s)).
Qed.
Lemma deleteInboxesByIDsTx_Ok ids db :
  exec_batches (λ ids, set_inboxes (delete_where (λ id _, bool_decide (id ∈ ids)))) ids db
  = Ok (tt, set_inboxes (delete_where (λ id _, bool_decide (id ∈ ids))) db).
Proof.
  apply (exec_batches_fold set_inboxes (λ l, delete_where (λ id _, bool_decide (id ∈ l))));
    [done|by intros f g [] Hfg; unfold set_inboxes; cbn; rewrite Hfg|by intros []|..].
  - intros t. by apply delete_where_none.
  - intros a b t. apply (delete_where_app (λ k _, k)).
Qed.
Lemma deleteMemoRelationsTx_Ok ids db :
  deleteMemoRelationsTx ids db
  = Ok (tt, set_relations (filter (λ r, ¬ (r.1.1 ∈ ids ∨ r.1.2 ∈ ids))) db).
Proof.
  apply (exec_batches_fold set_relations
    (λ l, filter (λ r : Z * Z * string, ¬ (r.1.1 ∈ l ∨ r.1.2 ∈ l))));
    [done|by intros f g [] Hfg; unfold set_relations; cbn; rewrite Hfg|by intros []|..].
  - intros t. apply leibniz_equiv. intros r. rewrite elem_of_filter, !elem_of_nil. naive_solver.
  - intros a b t. apply leibniz_equiv. intros r.
    rewrite !elem_of_filter, !elem_of_app. naive_solver.
Qed.

(** Deleting by the ids collected beforehand deletes what the collection
    selects. *)
Lemma delete_collected {V} (P : Z * V → Prop) `{!∀ kv, Decision (P kv)}
    (c : Z → V → bool) (t : gmap Z V) :
  (∀ k v, c k v = true ↔ P (k, v)) →
  delete_where (λ id _, bool_decide (id ∈ map fst (map_to_list (filter P t)))) t
  = delete_where c t.
Proof.
  intros Hc. unfold delete_where. apply map_eq. intros k. apply option_eq. intros v.
  rewrite !map_lookup_filter_Some. cbn. rewrite bool_decide_eq_false, list_elem_of_fmap.
  split.
  - intros [Hk Hn]. split; [done|]. apply not_true_is_false. intros HP%Hc. apply Hn.
    exists (k, v). split; [done|]. by apply elem_of_map_to_list, map_lookup_filter_Some.
  - intros [Hk HP]. split; [done|]. intros ([k' v'] & -> & Hin).
    apply elem_of_map_to_list, map_lookup_filter_Some in Hin as [Hk' HP'%Hc]. cbn in *. congruence.
Qed.

(** The batched deletions compute the reference deletion. *)
Lemma deleteMemoSetTx_Ok ids db :
  deleteMemoSetTx ids db = Ok (memo_attachments ids db, without_memos ids db).
Proof.
  unfold deleteMemoSetTx. cbv [mbind SE_bind query].
  rewrite deleteMemoSetShares_Ok, deleteMemosTx_Ok, deleteReactionsByMemoIDsTx_Ok,
    deleteAttachmentsByIDsTx_Ok, deleteMemoRelationsTx_Ok.
  cbv [mret SE_ret]. do 2 f_equal. unfold without_memos. f_equal.
  unfold memo_attachments, set_attachments. cbn. f_equal.
  by apply delete_collected.
Qed.
End deletion.
