(* ===== verification/SpaceSafety.v ===== *)
(** Safety of the space and user operations over every sequence of requests:
    a space always keeps an active administrator, and active memberships are
    only created by their user's consent. *)
From S2P Require Import Prelude GoLib Store SpaceStore SpaceStoreFacts.

(** ** Requests *)

Inductive space_op :=
| OpCreateSpace (create : Space) (creator : Z)
| OpUpdateSpace (update : UpdateSpaceReq) (actor : Z)
| OpDeleteSpace (del : DeleteSpaceReq)
| OpInvite (create : SpaceMember) (actor : Z)
| OpAccept (s u actor : Z)
| OpDecline (s u actor : Z)
| OpRevoke (s u actor : Z)
| OpUpdateMember (s u : Z) (role : option SpaceMemberRole) (actor : Z)
| OpDeleteMember (s u actor : Z)
| OpCreateUser (create : User) (now : Z)
| OpUpdateUser (update : Driver.UpdateUserReq)
| OpDeleteUser (u : Z) (failpoint : bool).

Definition fail {A} (r : result error A) : option error :=
  match r with Ok _ => None | Err e => Some e end.

(** Serve one request: the error if any, and the database afterwards. *)
Definition serve (o : space_op) (db : DB) : option error * DB :=
  let ans {A} (m : Tx A) := (fail (run m db).1, (run m db).2) in
  match o with
  | OpCreateSpace c u => ans (CreateSpace c u)
  | OpUpdateSpace upd a => ans (UpdateSpace upd a)
  | OpDeleteSpace d => ans (DeleteSpace d)
  | OpInvite c a => ans (CreateSpaceInvitation c a)
  | OpAccept s u a => ans (AcceptSpaceInvitation s u a)
  | OpDecline s u a => ans (DeclineSpaceInvitation s u a)
  | OpRevoke s u a => ans (RevokeSpaceInvitation s u a)
  | OpUpdateMember s u r a => ans (UpdateSpaceMember s u r a)
  | OpDeleteMember s u a => ans (DeleteSpaceMember s u a)
  | OpCreateUser u now => ans (Driver.CreateUser u now)
  | OpUpdateUser u => ans (Driver.UpdateUser u)
  | OpDeleteUser u fp => ans (Driver.DeleteUser u fp)
  end.

(** A sequence of requests, each one served by a transaction. *)
Fixpoint serve_all (os : list space_op) (db : DB) : DB :=
  match os with [] => db | o :: os => serve_all os (serve o db).2 end.

(** ** The remaining effects *)

Module UserEffects.
Import Driver.

Lemma DeleteSpace_Ok del db ats db' :
  DeleteSpace del db = Ok (ats, db') →
  space_admin db (ds_id del) (ds_actor del) ∧ is_Some (spaces db !! ds_id del) ∧
  ats = memo_attachments (space_memo_ids (ds_id del) db) db ∧
  db' = set_spaces (delete (ds_id del))
          (set_members (delete_where (λ k _, (k.1 =? ds_id del)%Z))
            (without_memos (space_memo_ids (ds_id del) db) db)).
Proof.
  unfold DeleteSpace. intros H. tx_step H.
  assert (s = db ∧ space_admin db (ds_id del) (ds_actor del) ∧ is_Some (spaces db !! ds_id del))
    as (-> & Ha & Hs).
  { unfold requireSpaceDeleteAdmin in E. tx E. split; [done|].
    rewrite !andb_true_iff in *. destruct_and!. split.
    - apply space_admin_spec. eexists. split; [eassumption|].
      rewrite bool_decide_eq_true in *. unfold is_admin in *.
      rewrite String.eqb_eq in *. eauto.
    - unfold space_exists in *. by rewrite bool_decide_eq_true in *. }
  clear E. tx_step H. tx_step H. rewrite deleteMemoSetTx_Ok in E. injection E as <- <-.
  tx H. done.
Qed.

Lemma CreateUser_Ok c now db r :
  CreateUser c now db = Ok r →
  ∃ row, us_row_status row = Normal ∧
    r = (next_user db, set_next (next_user db + 1) (next_space db) (next_memo db)
                         (next_share db) (set_users <[next_user db := row]> db)).
Proof. unfold CreateUser. intros H. tx H. eexists. by split; [|reflexivity]. Qed.

Lemma other_admin_spec db s u :
  other_admin db s u = true → ∃ u', u' ≠ u ∧ space_admin db s u'.
Proof.
  unfold other_admin. rewrite bool_decide_eq_true.
  intros ([s' u'] & m & Hm & Hs & Hne & ? & Hr & ?). cbn in *. subst s'.
  exists u'. split; [done|].
  apply space_admin_spec. exists m. unfold is_admin in Hr. apply String.eqb_eq in Hr. eauto.
Qed.

Lemma would_lose_admin_false db s u :
  would_lose_admin db u = false → space_admin db s u → ∃ u', u' ≠ u ∧ space_admin db s u'.
Proof.
  unfold would_lose_admin. rewrite bool_decide_eq_false.
  intros Hn (m & Hm & Hs & Hr & Hu)%space_admin_spec.
  destruct (other_admin db s u) eqn:Ho; [by apply other_admin_spec|].
  destruct Hn. exists (s, u), m. unfold is_admin. by rewrite Hr.
Qed.

(** A user update replaces one row; if it ends an active user's activity, no
    space depends on that user. *)
Lemma UpdateUser_Ok upd db u db' :
  UpdateUser upd db = Ok (u, db') →
  ∃ row, users db !! uu_id upd = Some row ∧ u = updated_user upd row ∧
    db' = set_users <[uu_id upd := u]> db ∧
    (active_user db (uu_id upd) → us_row_status u ≠ Normal →
     would_lose_admin db (uu_id upd) = false).
Proof.
  unfold UpdateUser. intros H.
  apply se_bind_Ok in H as ([] & s' & E & H).
  assert (s' = db ∧ (uu_row_status upd = Some Archived → active_user db (uu_id upd) →
            would_lose_admin db (uu_id upd) = false)) as [-> Hl].
  { unfold active_user. destruct (uu_row_status upd) as [st|]; [|by tx E].
    destruct (String.eqb_spec st Archived) as [Hst|Hst];
      [|tx E; split; [done|]; intros [= Ha]; congruence].
    unfold validateUserArchive in E. tx E; (split; [done|]); intros _ Hu.
    - rewrite Hu in *. naive_solver.
    - by destruct (would_lose_admin db (uu_id upd)). }
  clear E. tx H.
  match goal with Hr : users db !! _ = Some ?r |- _ => exists r; rename Hr into Hrow end.
  split_and!; [done..|].
  intros Hu Hst. apply Hl; [|done].
  match goal with Hc : _ || _ = true |- _ =>
    apply orb_true_iff in Hc as [Hc|Hc]; apply String.eqb_eq in Hc end; [done|].
  unfold active_user, user_status in Hu. rewrite Hrow in Hu. cbn in *.
  destruct (uu_row_status upd) as [st|]; cbn in *; [congruence|].
  injection Hu as Hu. by rewrite Hu in Hst.
Qed.

(** *** Deleting a user *)

Definition invitation_of (u : Z) (k : Z * Z) (m : member_row) : bool :=
  bool_decide (k.2 = u ∧ mb_status m = SpaceMemberStatusInvited).

(** The database without a user and everything that refers to the user or to
    the user's memos. *)
Definition without_user (u : Z) (db : DB) : DB :=
  let ids := user_memo_ids u db in
  mkDB (delete u (users db)) (spaces db)
    (delete_where (invitation_of u) (members db))
    (delete_where (λ _ m, (mm_creator m =? u)%Z) (memos db))
    (delete_where (λ _ s, (sh_creator s =? u)%Z || bool_decide (sh_memo s ∈ ids)) (shares db))
    (delete_where (λ _ r, (re_creator r =? u)%Z || bool_decide (re_memo r ∈ ids)) (reactions db))
    (delete_where (λ _ a, (at_creator a =? u)%Z || bound_to ids (at_memo a)) (attachments db))
    (filter (λ r, ¬ (r.1.1 ∈ ids ∨ r.1.2 ∈ ids)) (relations db))
    (delete_where (λ _ i, (i.1 =? u)%Z || (i.2 =? u)%Z) (inboxes db))
    (delete_where (λ _ v, (v =? u)%Z) (identities db))
    (delete_where (λ k _, (k.1 =? u)%Z) (user_settings db))
    (next_user db) (next_space db) (next_memo db) (next_share db)
    (next_attachment db) (next_reaction db).

Lemma elem_of_user_memo_ids u db id :
  id ∈ user_memo_ids u db ↔ ∃ m, memos db !! id = Some m ∧ mm_creator m = u.
Proof.
  unfold user_memo_ids. rewrite merge_sort_Permutation, list_elem_of_fmap. split.
  - intros ([k m] & -> & Hin). apply elem_of_map_to_list, map_lookup_filter_Some in Hin as [??].
    eauto.
  - intros (m & Hm & Hc). exists (id, m). split; [done|].
    by apply elem_of_map_to_list, map_lookup_filter_Some.
Qed.

(** Two deletions in a row, in either order. *)
Lemma delete_where_or {K V} `{Countable K} (c d e : K → V → bool) (t : gmap K V) :
  (∀ k v, e k v = c k v || d k v) →
  delete_where c (delete_where d t) = delete_where e t.
Proof.
  intros He. unfold delete_where. apply map_eq; intros k; apply option_eq; intros v;
    rewrite !map_lookup_filter_Some; cbn; rewrite He, orb_false_iff; tauto.
Qed.
Lemma delete_where_or' {K V} `{Countable K} (c d e : K → V → bool) (t : gmap K V) :
  (∀ k v, e k v = c k v || d k v) →
  delete_where d (delete_where c t) = delete_where e t.
Proof. intros He. apply delete_where_or. intros k v. by rewrite He, orb_comm. Qed.

Lemma delete_where_own_memos u db :
  delete_where (λ id _, bool_decide (id ∈ user_memo_ids u db)) (memos db)
  = delete_where (λ _ m, (mm_creator m =? u)%Z) (memos db).
Proof.
  unfold delete_where. apply map_eq. intros k. apply option_eq. intros m.
  rewrite !map_lookup_filter_Some. cbn. rewrite bool_decide_eq_false, elem_of_user_memo_ids.
  rewrite Z.eqb_neq. split.
  - intros [Hk Hn]. split; [done|]. intros Hc. apply Hn. eauto.
  - intros [Hk Hn]. split; [done|]. intros (m' & Hm' & Hc). congruence.
Qed.

Lemma deleteUserTargetsTx_Ok u db :
  deleteUserTargetsTx u (collectDeleteUserTargets u db)
    (set_members (delete_where (invitation_of u)) db)
  = Ok (tt, without_user u db).
Proof.
  unfold deleteUserTargetsTx, collectDeleteUserTargets.
  cbn [tg_memos tg_attachments tg_settings tg_inboxes].
  cbv [mbind SE_bind exec].
  rewrite deleteMemosTx_Ok, deleteReactionsByMemoIDsTx_Ok, deleteAttachmentsByIDsTx_Ok,
    deleteMemoSetShares_Ok, deleteInboxesByIDsTx_Ok, deleteMemoRelationsTx_Ok.
  do 2 f_equal. apply DB_ext; cbn -[delete_where user_memo_ids map_to_list]; try reflexivity.
  - apply delete_where_own_memos.
  - by apply delete_where_or'.
  - by apply delete_where_or.
  - apply delete_collected. intros k v. rewrite orb_true_iff, Z.eqb_eq. done.
  - apply delete_collected. intros k v. rewrite orb_true_iff, !Z.eqb_eq. done.
Qed.

Lemma DeleteUser_Ok u fp db r db' :
  DeleteUser u fp db = Ok (r, db') →
  (users db !! u = None ∧ db' = db ∧ r = ([], [])) ∨
  (is_Some (users db !! u) ∧ fp = false ∧
   (∀ s m, members db !! (s, u) = Some m → mb_status m = SpaceMemberStatusInvited) ∧
   r = (tg_attachments (collectDeleteUserTargets u db),
        tg_settings (collectDeleteUserTargets u db)) ∧
   db' = without_user u db).
Proof.
  unfold DeleteUser. intros H. tx_step H. tx_step H; [right|left; by tx H].
  tx_step H. tx_step H. tx_step H. tx_step H.
  apply se_bind_Ok in H as (? & ? & E & H).
  match type of E with ?l = _ =>
    change l with (deleteUserTargetsTx u (collectDeleteUserTargets u db)
      (set_members (delete_where (invitation_of u)) db)) in E end.
  rewrite deleteUserTargetsTx_Ok in E. injection E as <- <-. tx H.
  split_and!; [eauto|by destruct fp| |done..].
  intros s m Hm. apply dec_stable. intros Hn.
  match goal with Hm : negb (bool_decide _) = true |- _ =>
    apply negb_true_iff, bool_decide_eq_false in Hm; apply Hm end.
  by exists (s, u), m.
Qed.
End UserEffects.

(** ** Administrators are never lost *)

Section invariant.
Import Driver Effects UserEffects.

Lemma space_admin_key db s u k m :
  members db !! k = Some m →
  mb_status m ≠ SpaceMemberStatusActive ∨ is_admin (mb_role m) = false →
  space_admin db s u → (s, u) ≠ k.
Proof.
  intros Hk Hm (m' & Hm' & Hs & Hr & Hu)%space_admin_spec Heq. subst k. simplify_eq.
  unfold is_admin in Hm. rewrite Hr in Hm. by destruct Hm.
Qed.

Lemma space_inv_delete_invitation db s u m :
  members db !! (s, u) = Some m → mb_status m = SpaceMemberStatusInvited →
  space_inv db → space_inv (set_members (delete (s, u)) db).
Proof.
  intros Hm Hs. apply space_inv_members. intros s' u' Ha _. exists u'.
  apply space_admin_delete_other; [done|].
  eapply space_admin_key; [exact Hm| |exact Ha]. left. by rewrite Hs.
Qed.

Lemma space_inv_CreateSpace create c db r :
  Driver.CreateSpace create c db = Ok r → space_inv db → space_inv r.2.
Proof.
  destruct r as [sp db']. intros (Hc & Hn & _ & ->)%CreateSpace_Ok [Ha [Hu Hs]]. cbn.
  split; [|split].
  - intros s Hd. cbn in Hd. destruct (decide (s = next_space db)) as [->|Hne].
    + exists c. apply space_admin_spec. eexists. cbn. rewrite lookup_insert_eq. done.
    + rewrite lookup_insert_ne in Hd by done. destruct (Ha s Hd) as [u Hadm].
      exists u. apply space_admin_insert_other; [done|]. congruence.
  - exact Hu.
  - intros s Hd. cbn in *. destruct (decide (s = next_space db)) as [->|Hne]; [lia|].
    rewrite lookup_insert_ne in Hd by done. specialize (Hs s Hd). lia.
Qed.

Lemma space_inv_UpdateSpaceMember s u role actor db r :
  Driver.UpdateSpaceMember s u role actor db = Ok r → space_inv db → space_inv r.2.
Proof.
  destruct r as [sm db'].
  intros (_ & Hu & m & ro & Hm & Hst & -> & Hro & Hc & ->)%UpdateSpaceMember_Ok. cbn.
  apply space_inv_members. intros s' u' Ha _.
  destruct (decide ((s', u') = (s, u))) as [[= -> ->]|Hne].
  - destruct (is_admin ro) eqn:Hr.
    + exists u. apply space_admin_spec. eexists. cbn. rewrite lookup_insert_eq.
      split_and!; [done..| |done]. cbn. unfold is_admin in Hr. by apply String.eqb_eq in Hr.
    + apply space_admin_spec in Ha as (m' & Hm' & _ & Hr' & _). simplify_eq.
      destruct (count_admins_other db s u) as (u' & Hne & Ha).
      { apply Hc; [|done]. unfold is_admin. by rewrite Hr'. }
      exists u'. apply space_admin_insert_other; [done|]. congruence.
  - exists u'. by apply space_admin_insert_other.
Qed.

Lemma space_inv_DeleteSpaceMember s u actor db r :
  Driver.DeleteSpaceMember s u actor db = Ok r → space_inv db → space_inv r.2.
Proof.
  intros (_ & m & Hm & Hst & Hc & ->)%DeleteSpaceMember_Ok. cbn.
  apply space_inv_members. intros s' u' Ha _.
  destruct (decide ((s', u') = (s, u))) as [[= -> ->]|Hne].
  - apply space_admin_spec in Ha as (m' & Hm' & _ & Hr' & Hu). simplify_eq.
    destruct (count_admins_other db s u) as (u' & Hne & Ha).
    { apply Hc; [|done]. unfold is_admin. by rewrite Hr'. }
    exists u'. apply space_admin_delete_other; [done|]. congruence.
  - exists u'. by apply space_admin_delete_other.
Qed.

Lemma space_inv_DeleteSpace del db r :
  Driver.DeleteSpace del db = Ok r → space_inv db → space_inv r.2.
Proof.
  destruct r as [ats db']. intros (_ & _ & _ & ->)%DeleteSpace_Ok [Ha [Hu Hs]]. cbn.
  split; [|split].
  - intros s Hd. cbn in Hd. apply lookup_delete_is_Some in Hd as [Hne Hd].
    destruct (Ha s Hd) as [u (m & Hm & ? & ? & ?)%space_admin_spec].
    exists u. apply space_admin_spec. exists m. split_and!; [|done..]. cbn.
    apply map_lookup_filter_Some. split; [done|]. cbn. apply Z.eqb_neq. congruence.
  - exact Hu.
  - intros s Hd. cbn in Hd. apply lookup_delete_is_Some in Hd as [_ Hd]. by apply Hs.
Qed.

Lemma active_user_set_users db f u :
  active_user (set_users f db) u ↔ us_row_status <$> f (users db) !! u = Some Normal.
Proof. done. Qed.

Lemma space_inv_UpdateUser upd db r :
  Driver.UpdateUser upd db = Ok r → space_inv db → space_inv r.2.
Proof.
  destruct r as [u db']. intros (row & Hrow & -> & -> & Hl)%UpdateUser_Ok [Ha [Hu Hs]]. cbn.
  set (id := uu_id upd) in *. set (u := updated_user upd row) in *.
  split; [|split].
  - intros s Hd. destruct (Ha s Hd) as [v Hv].
    assert (∃ v', space_admin db s v' ∧ (v' ≠ id ∨ us_row_status u = Normal)) as (v' & Hv' & Hor).
    { destruct (decide (v = id)) as [->|]; [|by eauto].
      destruct (decide (us_row_status u = Normal)); [by eauto|].
      apply space_admin_spec in Hv as Hv'. destruct Hv' as (_ & _ & _ & _ & Hact).
      destruct (would_lose_admin_false db s id) as (v' & Hne & Hv'); [by apply Hl|done|].
      eauto. }
    exists v'. apply space_admin_spec in Hv' as (m & Hm & Hst & Hr & Hact).
    apply space_admin_spec. exists m. split_and!; [done..|].
    apply active_user_set_users. destruct (decide (v' = id)) as [->|Hne].
    + rewrite lookup_insert_eq. destruct Hor as [?|Hor]; [done|].
      change (Some (us_row_status u) = Some Normal). by rewrite Hor.
    + by rewrite lookup_insert_ne.
  - intros v Hd. cbn in *. destruct (decide (v = id)) as [->|]; [by apply Hu|].
    rewrite lookup_insert_ne in Hd by done. by apply Hu.
  - exact Hs.
Qed.

Lemma space_inv_DeleteUser u fp db r :
  Driver.DeleteUser u fp db = Ok r → space_inv db → space_inv r.2.
Proof.
  destruct r as [a db'].
  intros [(_ & -> & _)|(_ & _ & Hinv & _ & ->)]%DeleteUser_Ok; [done|].
  intros [Ha [Hu Hs]]. cbn. split; [|split; [|exact Hs]].
  - intros s Hd. destruct (Ha s Hd) as [v (m & Hm & Hst & Hr & Hact)%space_admin_spec].
    exists v. apply space_admin_spec. exists m.
    assert (v ≠ u) as Hne by (intros ->; rewrite (Hinv s m Hm) in Hst; discriminate Hst).
    split_and!; [|done..|].
    + cbn. apply map_lookup_filter_Some. split; [done|].
      apply bool_decide_eq_false. cbn. by intros [-> _].
    + unfold active_user, user_status. cbn. by rewrite lookup_delete_ne.
  - intros v Hd. cbn in Hd. apply lookup_delete_is_Some in Hd as [_ Hd]. by apply Hu.
Qed.

Lemma space_inv_CreateUser c now db r :
  Driver.CreateUser c now db = Ok r → space_inv db → space_inv r.2.
Proof.
  intros (row & Hrow & ->)%CreateUser_Ok Hinv. cbn.
  destruct (Hinv) as [_ [Hu _]].
  assert (users db !! next_user db = None) as Hfresh.
  { destruct (users db !! next_user db) eqn:E; [|done].
    specialize (Hu (next_user db) ltac:(by eexists)). lia. }
  apply (space_inv_frame db); [reflexivity|reflexivity| | |reflexivity|exact Hinv].
  - intros v Hv. apply active_user_set_users. rewrite lookup_insert_ne; [done|].
    intros <-. unfold active_user, user_status in Hv. by rewrite Hfresh in Hv.
  - intros v Hd. cbn in *. destruct (decide (v = next_user db)) as [->|]; [lia|].
    rewrite lookup_insert_ne in Hd by done. specialize (Hu v Hd). lia.
Qed.
End invariant.

(** ** Serving requests *)

(** The store methods only add checks in front of the driver methods. *)
Ltac strip E :=
  unfold CreateSpace, UpdateSpace, DeleteSpace, CreateSpaceInvitation, AcceptSpaceInvitation,
    DeclineSpaceInvitation, RevokeSpaceInvitation, UpdateSpaceMember, DeleteSpaceMember in E;
  repeat (tx_step E; cbv beta iota in E).

Lemma run_state {A} (m : Tx A) db :
  (run m db).2 = match m db with Ok r => r.2 | Err _ => db end.
Proof. unfold run. by destruct (m db) as [[]|]. Qed.

(** The cases of a request: an error, or the success of a driver method. *)
Ltac serve_cases o :=
  destruct o; cbn [serve snd]; rewrite !run_state;
  let E := fresh "E" in
  match goal with |- context [match ?m with _ => _ end] => destruct m as [[ret db']|] eqn:E end;
  cbn [snd]; [strip E|].

Lemma serve_space_inv o db : space_inv db → space_inv (serve o db).2.
Proof.
  intros Hinv. serve_cases o; try exact Hinv.
  - by apply space_inv_CreateSpace in E.
  - apply Effects.UpdateSpace_Ok in E as (_ & row & Hrow & ->).
    apply (space_inv_frame db); [done| |done|apply Hinv|done|done].
    cbn. rewrite dom_insert_L. assert (us_id update ∈ dom (spaces db)); [|set_solver].
    apply elem_of_dom. by eexists.
  - apply Effects.UpdateSpace_Ok in E as (_ & row & Hrow & ->).
    apply (space_inv_frame db); [done| |done|apply Hinv|done|done].
    cbn. rewrite dom_insert_L. assert (us_id update ∈ dom (spaces db)); [|set_solver].
    apply elem_of_dom. by eexists.
  - by apply space_inv_DeleteSpace in E.
  - apply Effects.CreateSpaceInvitation_Ok in E as (_ & _ & Hn & _ & ->).
    revert Hinv. apply space_inv_members. intros s u Ha _. exists u.
    apply space_admin_insert_other; [done|]. intros [= -> ->].
    apply space_admin_spec in Ha as (? & ? & _). congruence.
  - apply Effects.AcceptSpaceInvitation_Ok in E as (_ & _ & m & Hm & Hs & _ & ->).
    revert Hinv. apply space_inv_members. intros s' u' Ha _. exists u'.
    apply space_admin_insert_other; [done|].
    eapply space_admin_key; [exact Hm| |exact Ha]. left. by rewrite Hs.
  - apply Effects.DeclineSpaceInvitation_Ok in E as (_ & m & Hm & Hs & [= _ ->]).
    by eapply space_inv_delete_invitation.
  - apply Effects.RevokeSpaceInvitation_Ok in E as (_ & m & Hm & Hs & [= _ ->]).
    by eapply space_inv_delete_invitation.
  - by apply space_inv_UpdateSpaceMember in E.
  - by apply space_inv_DeleteSpaceMember in E.
  - by apply space_inv_CreateUser in E.
  - by apply space_inv_UpdateUser in E.
  - by apply space_inv_DeleteUser in E.
Qed.

Lemma serve_all_space_inv os db : space_inv db → space_inv (serve_all os db).
Proof.
  revert db. induction os as [|o os IH]; intros db Hinv; [done|].
  apply IH. by apply serve_space_inv.
Qed.

Lemma empty_space_inv : space_inv empty_db.
Proof. split; [|split]; intros ? [? Hx]; cbn in Hx; by rewrite lookup_empty in Hx. Qed.

(** C1. Whatever requests are served, in whatever order and whether they
    succeed or fail, every space has an ACTIVE administrator whose account is
    not archived: demotions, departures, archivals and deletions that would
    take the last one away are refused. *)
Theorem spaces_keep_active_admin os s :
  is_Some (spaces (serve_all os empty_db) !! s) →
  ∃ u, space_admin (serve_all os empty_db) s u.
Proof. apply (serve_all_space_inv os _ empty_space_inv). Qed.

(** Two users; the first one creates a space, invites the second one as an
    administrator, and leaves after the invitation is accepted. *)
Definition example_user (name : string) : User :=
  mkUser name "USER" "" "" "" "" "" 0 0 Normal.
Definition example_requests : list space_op := [
  OpCreateUser (example_user "ada") 10;
  OpCreateUser (example_user "bob") 11;
  OpCreateSpace (mkSpace 0 "team" "Team" "" "" 0) 1;
  OpDeleteMember 1 1 1;
  OpInvite (mkSpaceMember 1 2 SpaceMemberRoleAdmin) 1;
  OpDeleteMember 1 1 1;
  OpAccept 1 2 2;
  OpDeleteMember 1 1 1;
  OpUpdateUser (Driver.mkUpdateUser 2 None (Some Archived) None None None None None None None)
].

Lemma spaces_keep_active_admin_witness :
  members (serve_all example_requests empty_db)
    = {[ (1, 2)%Z := mkMember SpaceMemberStatusActive SpaceMemberRoleAdmin ]} ∧
  ∃ u, space_admin (serve_all example_requests empty_db) 1 u.
Proof.
  split; [vm_compute; reflexivity|].
  apply (spaces_keep_active_admin example_requests 1). vm_compute. by eexists.
Defined.

(** ** Consent and authority *)

Definition active_in (db : DB) (s u : Z) : Prop :=
  ∃ m, members db !! (s, u) = Some m ∧ mb_status m = SpaceMemberStatusActive.

(** Who may change the relationship of user [u] with space [s]: the user, by
    accepting, declining, leaving or creating the space; an active
    administrator of the space; and the deletion of the account, which only
    removes an invitation. *)
Definition may_change_member (o : space_op) (db : DB) (s u : Z) : Prop :=
  match o with
  | OpCreateSpace _ c => c = u ∧ s = next_space db
  | OpDeleteSpace d => ds_id d = s ∧ space_admin db s (ds_actor d)
  | OpInvite c a =>
      sm_space c = s ∧ sm_user c = u ∧ members db !! (s, u) = None ∧ space_admin db s a
  | OpAccept s' u' a | OpDecline s' u' a => s' = s ∧ u' = u ∧ a = u
  | OpRevoke s' u' a => s' = s ∧ u' = u ∧ ¬ active_in db s u ∧ space_admin db s a
  | OpUpdateMember s' u' _ a => s' = s ∧ u' = u ∧ active_in db s u ∧ space_admin db s a
  | OpDeleteMember s' u' a => s' = s ∧ u' = u ∧ (a = u ∨ space_admin db s a)
  | OpDeleteUser u' _ => u' = u ∧ ¬ active_in db s u
  | _ => False
  end.

Lemma lookup_update_ne {A} (t t' : gmap (Z * Z) A) (k k' : Z * Z) :
  (k ≠ k' → t' !! k = t !! k) → t' !! k ≠ t !! k → k = k'.
Proof. intros He Hn. destruct (decide (k = k')); [done|]. by destruct Hn, He. Qed.

Lemma invited_not_active db s u m :
  members db !! (s, u) = Some m → mb_status m = SpaceMemberStatusInvited → ¬ active_in db s u.
Proof. intros Hm Hs (m' & Hm' & Hs'). simplify_eq. rewrite Hs in Hs'. discriminate. Qed.

Lemma member_change_cases o db s u :
  members (serve o db).2 !! (s, u) ≠ members db !! (s, u) → may_change_member o db s u.
Proof.
  serve_cases o; try done.
  - apply Effects.CreateSpace_Ok in E as (_ & _ & _ & ->). intros Hn.
    apply (lookup_update_ne _ _ _ (next_space db, creator)) in Hn; [by injection Hn as -> ->|].
    intros Hk. cbn. by rewrite lookup_insert_ne.
  - apply Effects.UpdateSpace_Ok in E as (_ & row & _ & ->). done.
  - apply Effects.UpdateSpace_Ok in E as (_ & row & _ & ->). done.
  - apply UserEffects.DeleteSpace_Ok in E as (Ha & _ & _ & ->). cbn. intros Hn.
    destruct (decide (ds_id del = s)) as [<-|Hne]; [done|]. destruct Hn.
    unfold delete_where. apply option_eq. intros m. rewrite map_lookup_filter_Some. cbn.
    rewrite Z.eqb_neq. naive_solver.
  - apply Effects.CreateSpaceInvitation_Ok in E as (Ha & _ & Hnone & _ & ->). intros Hn.
    apply (lookup_update_ne _ _ _ (sm_space create, sm_user create)) in Hn.
    + injection Hn as -> ->. done.
    + intros Hk. cbn. by rewrite lookup_insert_ne.
  - apply Effects.AcceptSpaceInvitation_Ok in E as (-> & _ & m & _ & _ & _ & ->). intros Hn.
    apply (lookup_update_ne _ _ _ (s0, u0)) in Hn; [by injection Hn as -> ->|].
    intros Hk. cbn. by rewrite lookup_insert_ne.
  - apply Effects.DeclineSpaceInvitation_Ok in E as (-> & m & _ & _ & [= _ ->]). intros Hn.
    apply (lookup_update_ne _ _ _ (s0, u0)) in Hn; [by injection Hn as -> ->|].
    intros Hk. cbn. by rewrite lookup_delete_ne.
  - apply Effects.RevokeSpaceInvitation_Ok in E as (Ha & m & Hm & Hs & [= _ ->]). intros Hn.
    apply (lookup_update_ne _ _ _ (s0, u0)) in Hn.
    + injection Hn as -> ->. split_and!; [done..| |done]. by eapply invited_not_active.
    + intros Hk. cbn. by rewrite lookup_delete_ne.
  - apply Effects.UpdateSpaceMember_Ok in E as (Ha & _ & m & r & Hm & Hs & _ & _ & _ & ->).
    intros Hn. apply (lookup_update_ne _ _ _ (s0, u0)) in Hn.
    + injection Hn as -> ->. split_and!; [done..|by exists m|done].
    + intros Hk. cbn. by rewrite lookup_insert_ne.
  - apply Effects.DeleteSpaceMember_Ok in E as (Ha & m & _ & _ & _ & [= _ ->]). intros Hn.
    apply (lookup_update_ne _ _ _ (s0, u0)) in Hn; [by injection Hn as -> ->|].
    intros Hk. cbn. by rewrite lookup_delete_ne.
  - apply UserEffects.CreateUser_Ok in E as (row & _ & [= _ ->]). done.
  - apply UserEffects.UpdateUser_Ok in E as (row & _ & _ & -> & _). done.
  - apply UserEffects.DeleteUser_Ok in E as [(_ & -> & _)|(_ & _ & Hinv & _ & ->)]; [done|].
    cbn. intros Hn. destruct (decide (u0 = u)) as [->|Hne].
    + split; [done|]. intros (m & Hm & Hs). rewrite (Hinv s m Hm) in Hs. discriminate.
    + destruct Hn. unfold delete_where. apply option_eq. intros m.
      rewrite map_lookup_filter_Some. cbn. unfold UserEffects.invitation_of.
      rewrite bool_decide_eq_false. naive_solver.
Qed.

(** C24. The relationship of a user with a space changes only by a request of
    the user or of an active administrator of the space (and when the account
    of an invited user is deleted); an administrator can neither touch the
    membership of someone who has not accepted, other than to invite and to
    revoke, nor overwrite an existing relationship by an invitation. *)
Theorem member_changes_authorized o db s u :
  members (serve o db).2 !! (s, u) ≠ members db !! (s, u) → may_change_member o db s u.
Proof. apply member_change_cases. Qed.

Definition invited_db : DB := serve_all (take 5 example_requests) empty_db.

Lemma member_changes_authorized_witness :
  members (serve (OpRevoke 1 2 1) invited_db).2 !! (1, 2)%Z = None ∧
  (1 = 1 ∧ 2 = 2 ∧ ¬ active_in invited_db 1 2 ∧ space_admin invited_db 1 1)%Z.
Proof.
  split; [vm_compute; reflexivity|].
  apply (member_changes_authorized (OpRevoke 1 2 1) invited_db 1 2). vm_compute. discriminate.
Defined.

(** Nobody becomes an ACTIVE member of a space without asking for it: a
    request that activates a membership is the acceptance, by that very user, of
    a pending invitation, whose role it keeps, or the creation of the space by
    that user. *)
Theorem membership_by_consent o db s u :
  ¬ active_in db s u → active_in (serve o db).2 s u →
  (o = OpAccept s u u ∧
   ∃ m, members db !! (s, u) = Some m ∧ mb_status m = SpaceMemberStatusInvited ∧
        members (serve o db).2 !! (s, u) = Some (mkMember SpaceMemberStatusActive (mb_role m))) ∨
  (∃ create, o = OpCreateSpace create u ∧ s = next_space db).
Proof.
  intros Hna Ha.
  assert (members (serve o db).2 !! (s, u) ≠ members db !! (s, u)) as Hne.
  { destruct Ha as (m & Hm & Hs). intros Heq. apply Hna. exists m. by rewrite <- Heq. }
  pose proof (member_change_cases o db s u Hne) as Hmay.
  destruct o; cbn [may_change_member] in Hmay; try done.
  - destruct Hmay as [-> ->]. right. eauto.
  - destruct Hmay as [<- _]. destruct Ha as (m & Hm & _). revert Hm Hne. cbn [serve snd].
    rewrite run_state. destruct (DeleteSpace del db) as [[r db']|] eqn:E; [|done]. strip E.
    apply UserEffects.DeleteSpace_Ok in E as (_ & _ & _ & ->). cbn. intros Hm.
    apply map_lookup_filter_Some in Hm as [_ Hm]. cbn in Hm. by rewrite Z.eqb_refl in Hm.
  - destruct Hmay as (<- & <- & Hn & _). destruct Ha as (m & Hm & Hs). revert Hm Hne. cbn [serve snd].
    rewrite run_state. destruct (CreateSpaceInvitation create actor db) as [[r db']|] eqn:E; [|done].
    strip E. apply Effects.CreateSpaceInvitation_Ok in E as (_ & _ & _ & _ & ->). cbn.
    rewrite lookup_insert_eq. intros [= <-]. discriminate Hs.
  - destruct Hmay as (-> & -> & ->). left. split; [done|]. revert Ha Hne. cbn [serve snd].
    rewrite run_state. destruct (AcceptSpaceInvitation s u u db) as [[r db']|] eqn:E; [|done].
    strip E. apply Effects.AcceptSpaceInvitation_Ok in E as (_ & _ & m & Hm & Hs & _ & ->). cbn.
    intros _ _. exists m. by rewrite lookup_insert_eq.
  - destruct Hmay as (-> & -> & ->). destruct Ha as (m & Hm & _). revert Hm Hne. cbn [serve snd].
    rewrite run_state. destruct (DeclineSpaceInvitation s u u db) as [[r db']|] eqn:E; [|done].
    strip E. apply Effects.DeclineSpaceInvitation_Ok in E as (_ & m' & _ & _ & [= _ ->]). cbn.
    by rewrite lookup_delete_eq.
  - destruct Hmay as (-> & -> & _). destruct Ha as (m & Hm & _). revert Hm Hne. cbn [serve snd].
    rewrite run_state. destruct (RevokeSpaceInvitation s u actor db) as [[r db']|] eqn:E; [|done].
    strip E. apply Effects.RevokeSpaceInvitation_Ok in E as (_ & m' & _ & _ & [= _ ->]). cbn.
    by rewrite lookup_delete_eq.
  - by destruct Hmay as (_ & _ & Hact & _).
  - destruct Hmay as (-> & -> & _). destruct Ha as (m & Hm & _). revert Hm Hne. cbn [serve snd].
    rewrite run_state. destruct (DeleteSpaceMember s u actor db) as [[r db']|] eqn:E; [|done].
    strip E. apply Effects.DeleteSpaceMember_Ok in E as (_ & m' & _ & _ & _ & [= _ ->]). cbn.
    by rewrite lookup_delete_eq.
  - destruct Hmay as [-> _]. destruct Ha as (m & Hm & Hs). revert Hm Hne. cbn [serve snd].
    rewrite run_state. destruct (Driver.DeleteUser u failpoint db) as [[r db']|] eqn:E; [|done].
    apply UserEffects.DeleteUser_Ok in E as [(_ & -> & _)|(_ & _ & Hinv & _ & ->)]; [done|]. cbn.
    intros [Hm _]%map_lookup_filter_Some. rewrite (Hinv s m Hm) in Hs. discriminate Hs.
Qed.

Lemma membership_by_consent_witness :
  (OpAccept 1 2 2 = OpAccept 1 2 2 ∧
   ∃ m, members invited_db !! (1, 2)%Z = Some m ∧ mb_status m = SpaceMemberStatusInvited ∧
        members (serve (OpAccept 1 2 2) invited_db).2 !! (1, 2)%Z
        = Some (mkMember SpaceMemberStatusActive (mb_role m))) ∨
  (∃ create, OpAccept 1 2 2 = OpCreateSpace create 2 ∧ 1%Z = next_space invited_db).
Proof.
  apply (membership_by_consent (OpAccept 1 2 2) invited_db 1 2).
  - intros (m & Hm & Hs). vm_compute in Hm. injection Hm as <-. discriminate Hs.
  - eexists. split; [vm_compute; reflexivity|reflexivity].
Defined.

(** ** The last administrator *)

Lemma count_admins_two db s u u' :
  u' ≠ u → space_admin db s u → space_admin db s u' → (1 < count_members db s is_admin)%nat.
Proof.
  intros Hne Hu Hu'. unfold count_members. set (f := filter _ (members db)).
  assert (∀ v, space_admin db s v → (s, v) ∈ dom f) as Hin.
  { intros v (m & Hm & Hs & Hr & Ha)%space_admin_spec. apply elem_of_dom. exists m.
    apply map_lookup_filter_Some. split; [done|]. cbn. unfold is_admin. by rewrite Hr. }
  assert ({[(s, u); (s, u')]} ⊆ dom f) as Hsub by (apply Hin in Hu, Hu'; set_solver).
  apply subseteq_size in Hsub. rewrite size_dom in Hsub.
  rewrite size_union in Hsub by set_solver. rewrite !size_singleton in Hsub. lia.
Qed.

Lemma last_admin_count db s u :
  space_admin db s u →
  ((1 <? count_members db s is_admin)%nat = false ↔ ∀ u', space_admin db s u' → u' = u).
Proof.
  intros Hu. rewrite Nat.ltb_ge. split.
  - intros Hc u' Hu'. destruct (decide (u' = u)) as [|Hne]; [done|].
    pose proof (count_admins_two db s u u' Hne Hu Hu'). lia.
  - intros Hall. destruct (decide (1 < count_members db s is_admin)%nat) as [Hc|]; [|lia].
    destruct (count_admins_other db s u Hc) as (u' & Hne & Hu'). destruct Hne. by apply Hall.
Qed.

(** C25. The protection of the last administrator is exact: an administrator
    who leaves or is demoted to a regular member is refused with
    [ErrLastSpaceAdmin] if no other active administrator exists, and
    otherwise the request succeeds. *)
Theorem last_admin_refused_exactly db s u :
  (0 < s)%Z → (0 < u)%Z → is_Some (spaces db !! s) → space_admin db s u →
  let refused {A} (m : Tx A) := (run m db).1 = Err ErrLastSpaceAdmin in
  let last := ∀ u', space_admin db s u' → u' = u in
  (last → refused (DeleteSpaceMember s u u) ∧
          refused (UpdateSpaceMember s u (Some SpaceMemberRoleUser) u)) ∧
  (¬ last → (run (DeleteSpaceMember s u u) db).1 = Ok tt ∧
            (run (UpdateSpaceMember s u (Some SpaceMemberRoleUser) u) db).1
            = Ok (mkSpaceMember s u SpaceMemberRoleUser)).
Proof.
  intros Hs Hu Hsp Ha refused last.
  pose proof (last_admin_count db s u Ha) as Hlast. fold last in Hlast.
  assert ((last → (1 <? count_members db s is_admin)%nat = false) ∧
          (¬ last → (1 <? count_members db s is_admin)%nat = true)) as [Hl Hnl].
  { split; [by apply Hlast|]. intros Hn. apply not_false_is_true. intros Hc. by apply Hn, Hlast. }
  clear Hlast. apply space_admin_spec in Ha as Ha'. destruct Ha' as (m & Hm & Hst & Hr & Hact).
  assert (is_admin (mb_role m) = true) as Hadm by (unfold is_admin; by rewrite Hr).
  assert (DeleteSpaceMember s u u db =
    if (1 <? count_members db s is_admin)%nat then Ok (tt, set_members (delete (s, u)) db)
    else Err ErrLastSpaceAdmin) as Hdel.
  { unfold DeleteSpaceMember, positive3. rewrite !(proj2 (Z.ltb_lt _ _)) by done. cbn [andb].
    unfold Driver.DeleteSpaceMember, space_exists. cbv [mbind SE_bind query].
    rewrite bool_decide_true by done. cbn [negb]. rewrite Z.eqb_refl. cbv [mret SE_ret].
    rewrite Hm, decide_True by done. rewrite Hadm.
    unfold active_user in Hact. rewrite bool_decide_true by done. cbn [andb].
    unfold Driver.admin_count, query, require.
    destruct (1 <? count_members db s is_admin)%nat; done. }
  assert (UpdateSpaceMember s u (Some SpaceMemberRoleUser) u db =
    if (1 <? count_members db s is_admin)%nat
    then Ok (mkSpaceMember s u SpaceMemberRoleUser,
             set_members <[(s, u) := mkMember SpaceMemberStatusActive SpaceMemberRoleUser]> db)
    else Err ErrLastSpaceAdmin) as Hup.
  { unfold UpdateSpaceMember.
    change (negb (IsActiveMember SpaceMemberRoleUser)) with false. cbv beta iota.
    unfold Driver.UpdateSpaceMember. cbv [mbind SE_bind query].
    rewrite (proj2 (authorizeSpaceAdmin_Ok s u db (tt, db))) by done.
    rewrite (proj2 (requireActiveUser_Ok u db (tt, db))) by done.
    rewrite Hm, decide_True by done. rewrite Hadm.
    change (is_admin SpaceMemberRoleUser) with false. cbn [negb andb].
    unfold Driver.admin_count, query, require.
    destruct (1 <? count_members db s is_admin)%nat; reflexivity. }
  unfold refused, run. split; intros Hx.
  - apply Hl in Hx. rewrite Hdel, Hup, Hx. done.
  - apply Hnl in Hx. rewrite Hdel, Hup, Hx. done.
Qed.

Lemma last_admin_refused_exactly_witness :
  (run (DeleteSpaceMember 1 1 1) invited_db).1 = Err ErrLastSpaceAdmin.
Proof.
  refine (proj1 (proj1 (last_admin_refused_exactly invited_db 1 1 _ _ _ _) _)).
  - lia.
  - lia.
  - vm_compute. by eexists.
  - vm_compute. reflexivity.
  - intros u' (m & Hm & Hs & _)%space_admin_spec.
    assert (members invited_db = {[ (1, 1)%Z := mkMember SpaceMemberStatusActive SpaceMemberRoleAdmin;
      (1, 2)%Z := mkMember SpaceMemberStatusInvited SpaceMemberRoleAdmin ]}) as Heq
      by (vm_compute; reflexivity).
    rewrite Heq in Hm.
    apply lookup_insert_Some in Hm as [[[= <-] <-]|[_ Hm]]; [done|].
    apply lookup_singleton_Some in Hm as [[= <-] <-]. discriminate Hs.
Defined.
