(* ===== verification/Statements.v ===== *)
(** * Transactions as sequences of statements

    On PostgreSQL the driver's transactions run at the level READ COMMITTED and
    overlap.  A transaction is therefore a tree of SQL statements here: what runs
    next depends on what a statement answered.  Alone it is a function on the
    database, like the transactions of [Store]; among others it takes one
    statement at a time:

    - a statement reads what is committed when it runs, with the changes its own
      transaction has made;
    - [SELECT ... FOR UPDATE] locks the rows it finds and a changing statement the
      rows it changes, unique keys included; a statement that needs a row another
      transaction has locked waits, so it is not enabled;
    - a commit publishes the changes and releases the locks, a rollback drops them;
    - a sequence never goes back.

    A program logic of the rely-guarantee kind follows, for invariants of the
    committed database under every interleaving. *)
From S2P Require Import Prelude GoLib Store.

(** ** Statements *)

(** What a lock is on: a row by its primary key, or the entry of a unique index. *)
Inductive Row := RUser (u : Z) | RUserName (name : string) | RSpace (s : Z) | RSpaceUid (uid : string) | RMember (k : Z * Z).
#[export] Instance row_eq_dec : EqDecision Row.
Proof. solve_decision. Defined.

(** What a statement changes, row by row; [Elsewhere] is a change of tables other
    than [user], [space] and [space_member]. *)
Inductive Write :=
| PutUser (u : Z) (row : User)
| DropUser (u : Z)
| PutSpace (s : Z) (row : space_row)
| DropSpace (s : Z)
| PutMember (k : Z * Z) (m : member_row)
| DropMember (k : Z * Z)
| Elsewhere (f : DB → DB).

Definition apply_write (w : Write) : DB → DB :=
  match w with
  | PutUser u row => set_users <[u := row]>
  | DropUser u => set_users (delete u)
  | PutSpace s row => set_spaces <[s := row]>
  | DropSpace s => set_spaces (delete s)
  | PutMember k m => set_members <[k := m]>
  | DropMember k => set_members (delete k)
  | Elsewhere f => f
  end.
Definition apply_all (ws : list Write) (db : DB) : DB := fold_left (λ db w, apply_write w db) ws db.

Definition rows_of (w : Write) : list Row :=
  match w with
  | PutUser u row => [RUser u; RUserName (us_username row)]
  | DropUser u => [RUser u]
  | PutSpace s row => [RSpace s; RSpaceUid (sr_uid row)]
  | DropSpace s => [RSpace s]
  | PutMember k _ | DropMember k => [RMember k]
  | Elsewhere _ => []
  end.

Inductive Sequence := SeqUser | SeqSpace.
Definition seq_value (q : Sequence) (db : DB) : Z := match q with SeqUser => next_user db | SeqSpace => next_space db end.
Definition seq_next (q : Sequence) (db : DB) : DB :=
  match q with
  | SeqUser => set_next (next_user db + 1) (next_space db) (next_memo db) (next_share db) db
  | SeqSpace => set_next (next_user db) (next_space db + 1) (next_memo db) (next_share db) db
  end.

(** A transaction: it ends with a commit or, at an error, a rollback. *)
Inductive Prog (A : Type) : Type :=
| Finish (r : result error A)
| Select {X : Type} (locks : DB → list Row) (q : DB → X) (k : X → Prog A)
| Change {X : Type} (stmt : DB → X * list Write) (k : X → Prog A)
| Draw (q : Sequence) (k : Z → Prog A).
Arguments Finish {A} r.
Arguments Select {A X} locks q k.
Arguments Change {A X} stmt k.
Arguments Draw {A} q k.

#[export] Instance prog_ret : MRet Prog := λ A a, Finish (Ok a).
#[export] Instance prog_bind : MBind Prog := λ A B f, fix go p :=
  match p with
  | Finish (Ok a) => f a
  | Finish (Err e) => Finish (Err e)
  | Select locks q k => Select locks q (λ x, go (k x))
  | Change stmt k => Change stmt (λ x, go (k x))
  | Draw q k => Draw q (λ x, go (k x))
  end.

Definition raise {A} (e : error) : Prog A := Finish (Err e).
Definition unless (b : bool) (e : error) : Prog unit := if b then mret tt else raise e.
Definition fetch {X} (q : DB → X) : Prog X := Select (λ _, []) q (λ x, Finish (Ok x)).
(** [SELECT ... FOR UPDATE] of one row by its key. *)
Definition fetch_for_update {X} (r : Row) (q : DB → option X) : Prog (option X) :=
  Select (λ db, if q db then [r] else []) q (λ x, Finish (Ok x)).
Definition change {X} (stmt : DB → X * list Write) : Prog X := Change stmt (λ x, Finish (Ok x)).
Definition draw (q : Sequence) : Prog Z := Draw q (λ x, Finish (Ok x)).
(** A change of other tables that nothing depends on. *)
Definition elsewhere (f : DB → DB) : Prog unit := change (λ _, (tt, [Elsewhere f])).

(** [errors.Wrap] of a whole call. *)
Fixpoint wrapped {A} (msg : string) (p : Prog A) : Prog A :=
  match p with
  | Finish r => Finish (wrap_err msg r)
  | Select locks q k => Select locks q (λ x, wrapped msg (k x))
  | Change stmt k => Change stmt (λ x, wrapped msg (k x))
  | Draw q k => Draw q (λ x, wrapped msg (k x))
  end.

(** ** Alone *)

(** [db] with the sequences of [db']. *)
Definition with_sequences (db' db : DB) : DB :=
  set_next (next_user db') (next_space db') (next_memo db') (next_share db') db.

(** From [db], reached from [start] inside the transaction. *)
Fixpoint alone_from {A} (p : Prog A) (start db : DB) : result error A * DB :=
  match p with
  | Finish (Ok a) => (Ok a, db)
  | Finish (Err e) => (Err e, with_sequences db start)
  | Select _ q k => alone_from (k (q db)) start db
  | Change stmt k => let '(x, ws) := stmt db in alone_from (k x) start (apply_all ws db)
  | Draw q k => alone_from (k (seq_value q db)) start (seq_next q db)
  end.
Definition alone {A} (p : Prog A) (db : DB) : result error A * DB := alone_from p db db.

(** ** Among others *)

(** A transaction under way, with its changes and locks, or at its end. *)
Inductive Txn :=
| Running (p : Prog unit) (pending : list Write) (held : list Row)
| Ended (r : result error unit).

Definition held_by (t : Txn) : list Row := match t with Running _ _ held => held | Ended _ => [] end.

(** No other transaction has locked any of the rows. *)
Definition free (ts : list Txn) (i : nat) (rows : list Row) : bool :=
  forallb (λ r, forallb (λ t, negb (bool_decide (r ∈ held_by t))) (take i ts ++ drop (S i) ts)) rows.

(** The next statement of the [i]-th transaction, unless it must wait. *)
Definition advance (i : nat) (c : DB * list Txn) : option (DB * list Txn) :=
  let '(db, ts) := c in
  match ts !! i with
  | Some (Running p ws held) =>
      let view := apply_all ws db in
      match p with
      | Finish (Ok r) => Some (view, <[i := Ended (Ok r)]> ts)
      | Finish (Err e) => Some (db, <[i := Ended (Err e)]> ts)
      | Select locks q k =>
          let rows := locks view in
          if free ts i rows then Some (db, <[i := Running (k (q view)) ws (rows ++ held)]> ts) else None
      | Change stmt k =>
          let '(x, ws') := stmt view in
          let rows := flat_map rows_of ws' in
          if free ts i rows then Some (db, <[i := Running (k x) (ws ++ ws') (rows ++ held)]> ts) else None
      | Draw q k => Some (seq_next q db, <[i := Running (k (seq_value q db)) ws held]> ts)
      end
  | _ => None
  end.

(** Steps of the transactions in the given order. *)
Fixpoint interleave (schedule : list nat) (c : DB * list Txn) : option (DB * list Txn) :=
  match schedule with
  | [] => Some c
  | i :: schedule => c' ← advance i c; interleave schedule c'
  end.

Definition begin (p : Prog unit) : Txn := Running p [] [].

(** [p] neither locks nor changes a row of [user], [space] or [space_member]. *)
Fixpoint quiet {A} (harmless : (DB → DB) → Prop) (p : Prog A) : Prop :=
  match p with
  | Finish _ => True
  | Select locks q k => (∀ db, locks db = []) ∧ ∀ x, quiet harmless (k x)
  | Change stmt k =>
      (∀ db, Forall (λ w, match w with Elsewhere f => harmless f | _ => False end) (stmt db).2) ∧
      ∀ x, quiet harmless (k x)
  | Draw _ _ => False
  end.

Lemma quiet_bind harmless {A B} (p : Prog A) (f : A → Prog B) :
  quiet harmless p → (∀ a, quiet harmless (f a)) → quiet harmless (p ≫= f).
Proof. intros Hp Hf. induction p as [[]|X locks q k IH|X stmt k IH|q k IH]; cbn in *; naive_solver. Qed.

Lemma quiet_wrapped harmless {A} msg (p : Prog A) : quiet harmless p → quiet harmless (wrapped msg p).
Proof. intros Hp. induction p as [[]|X locks q k IH|X stmt k IH|q k IH]; cbn in *; naive_solver. Qed.

(** ** Invariants under interference *)

Section logic.
Context (Inv : DB → Prop) (Rely : list Row → DB → DB → Prop).
Hypothesis rely_refl : ∀ held db, Rely held db db.
Hypothesis rely_trans : ∀ held db1 db2 db3, Rely held db1 db2 → Rely held db2 db3 → Rely held db1 db3.
Hypothesis draw_ok : ∀ q held db, Inv db → Inv (seq_next q db) ∧ Rely held db (seq_next q db).

(** With the changes [ws] and the locks [held], from [db] on and whatever the
    others commit that respects the locks: if [p] ends without an error, then in
    [Q]. *)
Fixpoint wp {A} (p : Prog A) (Q : A → list Write → list Row → DB → Prop) (ws : list Write) (held : list Row) (db : DB) : Prop :=
  match p with
  | Finish (Ok a) => Q a ws held db
  | Finish (Err _) => True
  | Select locks q k => ∀ db', Rely held db db' → Inv db' →
      wp (k (q (apply_all ws db'))) Q ws (locks (apply_all ws db') ++ held) db'
  | Change stmt k => ∀ db', Rely held db db' → Inv db' →
      wp (k (stmt (apply_all ws db')).1) Q (ws ++ (stmt (apply_all ws db')).2)
        (flat_map rows_of (stmt (apply_all ws db')).2 ++ held) db'
  | Draw q k => ∀ db', Rely held db db' → Inv db' → wp (k (seq_value q db')) Q ws held (seq_next q db')
  end.

(** The changes may be committed: they keep the invariant and respect the locks of
    others. *)
Definition commits (ws : list Write) (held : list Row) (db : DB) : Prop :=
  ∀ db', Rely held db db' → Inv db' →
    Inv (apply_all ws db') ∧ ∀ held', held' ## held → Rely held' db' (apply_all ws db').

Definition safe {A} (p : Prog A) : list Write → list Row → DB → Prop := wp p (λ _, commits).

Lemma safe_rely {A} (p : Prog A) ws held db db' : safe p ws held db → Rely held db db' → safe p ws held db'.
Proof. destruct p as [[]| | |]; cbn; try done; intros Hs Hr db'' ? ?; apply Hs; try done; by eapply rely_trans. Qed.

Lemma wp_mono {A} (p : Prog A) (Q Q' : A → list Write → list Row → DB → Prop) ws held db :
  wp p Q ws held db → (∀ a ws held db, Q a ws held db → Q' a ws held db) → wp p Q' ws held db.
Proof.
  intros Hp HQ. revert ws held db Hp. induction p as [[]|X locks q k IH|X stmt k IH|q k IH]; intros ws held db; cbn; auto.
Qed.

Lemma wp_bind {A B} (p : Prog A) (f : A → Prog B) Q ws held db :
  wp p (λ a, wp (f a) Q) ws held db → wp (p ≫= f) Q ws held db.
Proof.
  revert ws held db. induction p as [[]|X locks q k IH|X stmt k IH|q k IH]; intros ws held db; cbn; auto.
Qed.

Lemma wp_wrapped {A} msg (p : Prog A) Q ws held db : wp p Q ws held db → wp (wrapped msg p) Q ws held db.
Proof.
  revert ws held db. induction p as [[]|X locks q k IH|X stmt k IH|q k IH]; intros ws held db; cbn; auto.
Qed.

Lemma wp_unless (b : bool) e (Q : unit → list Write → list Row → DB → Prop) ws held db :
  (b = true → Q tt ws held db) → wp (unless b e) Q ws held db.
Proof. intros HQ. unfold unless. destruct b; cbn; auto. Qed.

Lemma wp_quiet harmless {A} (p : Prog A) Q ws held db :
  quiet harmless p → Inv db →
  (∀ a fs db', Forall harmless fs → Rely held db db' → Inv db' → Q a (ws ++ (Elsewhere <$> fs)) held db') →
  wp p Q ws held db.
Proof.
  revert ws db. induction p as [[a|e]|X locks q k IH|X stmt k IH|q k IH]; intros ws db Hq Hinv HQ; cbn in *.
  - specialize (HQ a [] db). cbn in HQ. rewrite app_nil_r in HQ. by apply HQ.
  - done.
  - destruct Hq as [Hl Hq]. intros db' Hr Hi. rewrite Hl. apply IH; [done..|].
    intros a fs db'' Hf Hr' Hi'. apply HQ; [done| |done]. by eapply rely_trans.
  - destruct Hq as [Hs Hq]. intros db' Hr Hi. destruct (stmt (apply_all ws db')) as [x ws'] eqn:E.
    specialize (Hs (apply_all ws db')). rewrite E in Hs. cbn in *.
    assert (∃ fs, ws' = Elsewhere <$> fs ∧ Forall harmless fs) as (fs & -> & Hfs).
    { clear -Hs. induction Hs as [|[] ws' Hw _ (fs & -> & Hfs)]; try done; [by exists []|].
      exists (f :: fs). split; [done|by constructor]. }
    assert (flat_map rows_of (Elsewhere <$> fs) = []) as -> by (clear; by induction fs).
    apply IH; [done..|]. intros a fs' db'' Hf Hr' Hi'. rewrite <- (assoc_L (++)), <- fmap_app.
    apply HQ; [by apply Forall_app|by eapply rely_trans|done].
  - done.
Qed.

Definition txn_safe (db : DB) (t : Txn) : Prop :=
  match t with Running p ws held => safe p ws held db | Ended _ => True end.

(** The invariant holds, the transactions are safe and hold different locks. *)
Record config_safe (c : DB * list Txn) : Prop := mkConfigSafe {
  cs_inv : Inv c.1;
  cs_safe : ∀ i t, c.2 !! i = Some t → txn_safe c.1 t;
  cs_locks : ∀ i j t t', c.2 !! i = Some t → c.2 !! j = Some t' → i ≠ j → held_by t ## held_by t' }.

Lemma free_spec ts i rows : free ts i rows = true →
  ∀ j t, j ≠ i → ts !! j = Some t → rows ## held_by t.
Proof.
  unfold free. intros Hf j t Hij Hj r Hr Hh. rewrite forallb_forall in Hf.
  specialize (Hf r (proj1 (list_elem_of_In _ _) Hr)). rewrite forallb_forall in Hf.
  assert (In t (take i ts ++ drop (S i) ts)) as Hin.
  { apply list_elem_of_In, elem_of_app. destruct (decide (j < i)%nat).
    - left. apply list_elem_of_lookup. exists j. by rewrite lookup_take_lt.
    - right. apply list_elem_of_lookup. exists (j - S i)%nat. rewrite lookup_drop. rewrite <- Hj. f_equal. lia. }
  apply Hf in Hin. by rewrite negb_true_iff, bool_decide_eq_false in Hin.
Qed.

(** A transaction takes a step and the others see the database they may. *)
Lemma config_safe_step db ts i p ws held db' t' :
  config_safe (db, ts) → ts !! i = Some (Running p ws held) →
  Inv db' → txn_safe db' t' →
  (∀ held', held' ## held → Rely held' db db') →
  (∀ j t, j ≠ i → ts !! j = Some t → held_by t' ## held_by t) →
  config_safe (db', <[i := t']> ts).
Proof.
  intros [_ Hs Hl] Hi Hinv Ht' Hr Hd. cbn in *. split; cbn; [done|..].
  - intros j t. destruct (decide (j = i)) as [->|Hj].
    { rewrite list_lookup_insert_eq by (by eapply lookup_lt_Some). by intros [= <-]. }
    rewrite list_lookup_insert_ne by done. intros Ht. specialize (Hs _ _ Ht).
    destruct t as [p2 ws2 held2|]; [|done]. cbn in *. eapply safe_rely; [done|]. apply Hr.
    intros r Hr2 Hr1. exact (Hl _ _ _ _ Hi Ht ltac:(done) r Hr1 Hr2).
  - intros j1 j2 t1 t2. destruct (decide (j1 = i)) as [->|H1], (decide (j2 = i)) as [->|H2]; try done.
    + rewrite list_lookup_insert_eq by (by eapply lookup_lt_Some). rewrite list_lookup_insert_ne by done.
      intros [= <-] ? _. by eapply Hd.
    + rewrite list_lookup_insert_ne by done. rewrite list_lookup_insert_eq by (by eapply lookup_lt_Some).
      intros ? [= <-] _ r Hr1 Hr2. by eapply (Hd j1).
    + rewrite !list_lookup_insert_ne by done. apply Hl.
Qed.

Lemma advance_safe i c c' : config_safe c → advance i c = Some c' → config_safe c'.
Proof.
  destruct c as [db ts]. intros Hc. unfold advance. destruct (ts !! i) as [[p ws held|]|] eqn:Hi; [|done..].
  pose proof (cs_safe _ Hc _ _ Hi) as Hs. pose proof (cs_inv _ Hc) as Hinv. cbn in Hs, Hinv.
  assert (∀ j t, j ≠ i → ts !! j = Some t → held ## held_by t) as Hheld.
  { intros j t Hj Ht. apply (cs_locks _ Hc i j (Running p ws held) t Hi Ht). done. }
  assert (∀ rows, free ts i rows = true → ∀ j t, j ≠ i → ts !! j = Some t → (rows ++ held) ## held_by t) as Hfree.
  { intros rows Hf j t Hj Ht r [Hr|Hr]%elem_of_app; [by eapply free_spec|by eapply Hheld]. }
  destruct p as [[[]|e]|X locks q k|X stmt k|q k]; cbn in Hs.
  - intros [= <-]. destruct (Hs db (rely_refl _ _) Hinv) as [Hi' Hg]. eapply config_safe_step; eauto; try done.
    all: by intros ? ? ? ? ? Hr%not_elem_of_nil.
  - intros [= <-]. eapply config_safe_step; eauto; try done.
    all: by intros ? ? ? ? ? Hr%not_elem_of_nil.
  - destruct (free _ _ _) eqn:Hf; [|done]. intros [= <-]. eapply config_safe_step; eauto. by apply Hs.
  - specialize (Hs db (rely_refl _ _) Hinv). destruct (stmt (apply_all ws db)) as [x ws'] eqn:Estmt. cbn in Hs.
    destruct (free _ _ _) eqn:Hf; [|done]. intros [= <-]. eapply config_safe_step; eauto.
  - intros [= <-]. eapply config_safe_step; eauto; [by apply draw_ok|by apply Hs|]. intros. by apply draw_ok.
Qed.

(** Whatever the interleaving, the committed database keeps the invariant. *)
Lemma interleave_safe schedule c c' : config_safe c → interleave schedule c = Some c' → config_safe c'.
Proof.
  revert c. induction schedule as [|i schedule IH]; intros c Hc; cbn; [by intros [= <-]|].
  destruct (advance i c) as [c1|] eqn:E; [|done]. cbn. apply IH. by eapply advance_safe.
Qed.

Lemma begin_safe db ps : Inv db → (∀ p, p ∈ ps → safe p [] [] db) → config_safe (db, begin <$> ps).
Proof.
  intros Hinv Hp. split; cbn; [done|..].
  - intros i t Ht. apply list_lookup_fmap_Some in Ht as (p & -> & Hin). apply Hp. by eapply list_elem_of_lookup_2.
  - intros i j t t' Ht _ _. apply list_lookup_fmap_Some in Ht as (p & -> & _). intros r Hr. by apply not_elem_of_nil in Hr.
Qed.
End logic.

#[global] Arguments prog_bind : simpl never.
