(* ===== verification/PostgresSpace.v ===== *)
(** * The PostgreSQL driver: spaces, memberships and users

    [store/db/postgres/space.go], [space_delete.go], [user_delete.go] and the
    writing methods of [user.go], statement by statement.  The queries are those
    of the SQLite driver in another dialect; the order of the checks, the locks and
    what a unique violation costs are its own. *)
From S2P Require Import Prelude GoLib Store SpaceStore SpaceSafety Statements.

(** What PostgreSQL answers to [LIMIT] or [OFFSET] with a negative number. *)
Definition ErrNegativeLimit := errorf0 "LIMIT must not be negative".

Definition appendPostgresLimit {A} (limit offset : option Z) (l : list A) : result error (list A) :=
  match limit with
  | None => Ok l
  | Some n =>
      if (n <? 0)%Z || (default 0 offset <? 0)%Z then Err ErrNegativeLimit
      else Ok (take (Z.to_nat n) (drop (Z.to_nat (default 0%Z offset)) l))
  end.

Module Postgres.
Import Driver.

(** ** Reading and locking users, spaces and members *)

(** [readPostgresUserStatuses]: each user once. *)
Fixpoint readPostgresUserStatuses (statuses : gmap Z RowStatus) (userIDs : list Z) : Prog (gmap Z RowStatus) :=
  match userIDs with
  | [] => mret statuses
  | userID :: userIDs =>
      match statuses !! userID with
      | Some _ => readPostgresUserStatuses statuses userIDs
      | None =>
          status ← fetch (λ db, user_status db userID);
          readPostgresUserStatuses (match status with Some st => <[userID := st]> statuses | None => statuses end) userIDs
      end
  end.

Definition is_normal (statuses : gmap Z RowStatus) (userID : Z) : bool :=
  bool_decide (statuses !! userID = Some Normal).

Definition requirePostgresActiveUsers (userIDs : list Z) : Prog unit :=
  statuses ← readPostgresUserStatuses ∅ userIDs;
  unless (forallb (is_normal statuses) userIDs) ErrSpaceMemberNotActive.
Definition requirePostgresActiveUser (userID : Z) : Prog unit := requirePostgresActiveUsers [userID].

Definition lockPostgresActiveUser (userID : Z) : Prog unit :=
  status ← fetch_for_update (RUser userID) (λ db, user_status db userID);
  match status with
  | None => raise ErrSpaceMemberNotActive
  | Some st => unless (String.eqb st Normal) ErrSpaceMemberNotActive
  end.

Definition lockPostgresSpace (spaceID : Z) : Prog unit :=
  row ← fetch_for_update (RSpace spaceID) (λ db, spaces db !! spaceID);
  match row with None => raise ErrSpaceNotFound | Some _ => mret tt end.

Definition authorizePostgresSpaceAdmin (spaceID actorUserID : Z) : Prog unit :=
  stored ← fetch (λ db, spaces db !! spaceID);
  match stored with
  | None => raise ErrSpaceNotFound
  | Some _ =>
      role ← fetch (λ db, active_member_role db spaceID actorUserID);
      match role with
      | None => raise ErrSpacePermissionDenied
      | Some r => unless (is_admin r) ErrSpacePermissionDenied
      end
  end.

(** An ACTIVE row. *)
Definition active_row (k : Z * Z) (db : DB) : option member_row :=
  m ← members db !! k; if bool_decide (mb_status m = SpaceMemberStatusActive) then Some m else None.
Definition getPostgresSpaceMember (spaceID userID : Z) : Prog (option member_row) :=
  fetch (active_row (spaceID, userID)).

(** [INSERT INTO space_member], with the primary key and the CHECK on [role]. *)
Definition insert_member (k : Z * Z) (m : member_row) (on_unique : error) : Prog unit :=
  r ← change (λ db,
        match members db !! k with
        | Some _ => (Err on_unique, [])
        | None => if IsActiveMember (mb_role m) then (Ok tt, [PutMember k m]) else (Err ErrCheck, [])
        end);
  Finish r.

(** [DELETE FROM space_member WHERE space_id AND user_id AND status = 'INVITED']. *)
Definition delete_invitation (spaceID userID : Z) : Prog unit :=
  deleted ← change (λ db,
              match members db !! (spaceID, userID) with
              | Some m => if bool_decide (mb_status m = SpaceMemberStatusInvited)
                          then (true, [DropMember (spaceID, userID)]) else (false, [])
              | None => (false, [])
              end);
  unless deleted ErrSpaceInvitationNotFound.

(** ** Spaces *)

Definition CreateSpace (create : Space) (creatorID : Z) : Prog Space :=
  _ ← lockPostgresActiveUser creatorID;
  id ← draw SeqSpace;
  inserted ← change (λ db,
               if uid_taken db (sp_uid create) then (false, [])
               else (true, [PutSpace id (mkSpaceRow (sp_uid create) (sp_title create) (sp_description create))]));
  _ ← unless inserted ErrSpaceAlreadyExists;
  _ ← insert_member (id, creatorID) (mkMember SpaceMemberStatusActive SpaceMemberRoleAdmin) ErrUnique;
  mret (mkSpace id (sp_uid create) (sp_title create) (sp_description create) SpaceMemberRoleAdmin 1).

Definition ListSpaces (find : FindSpace) : Prog (list Space) :=
  r ← fetch (λ db,
    let rows := select (λ id row,
        matches_opt (fs_id find) id &&
        match fs_id_list find with [] => true | l => bool_decide (id ∈ l) end &&
        matches_opt (fs_uid find) (sr_uid row)) by_id_desc (spaces db) in
    appendPostgresLimit (fs_limit find) (fs_offset find)
      (omap (λ kv : Z * space_row,
        match fs_member_user find with
        | None => Some (mkSpace kv.1 (sr_uid kv.2) (sr_title kv.2) (sr_description kv.2) "" 0)
        | Some u =>
            '(role, count) ← space_summary db kv.1 u;
            Some (mkSpace kv.1 (sr_uid kv.2) (sr_title kv.2) (sr_description kv.2) role count)
        end) rows));
  Finish r.

Definition populatePostgresSpaceSummary (spaceID userID : Z) : Prog (SpaceMemberRole * Z) :=
  summary ← fetch (λ db, space_summary db spaceID userID);
  match summary with
  | Some r => mret r
  | None => raise (Wrap ErrNoRows "failed to populate PostgreSQL space summary")
  end.

Definition UpdateSpace (update : UpdateSpaceReq) (actorUserID : Z) : Prog Space :=
  _ ← requirePostgresActiveUsers [actorUserID];
  _ ← authorizePostgresSpaceAdmin (us_id update) actorUserID;
  _ ← unless (match us_title update, us_desc update with None, None => false | _, _ => true end) ErrSyntax;
  row ← change (λ db,
          match spaces db !! us_id update with
          | None => (None, [])
          | Some row =>
              let row := mkSpaceRow (sr_uid row) (default (sr_title row) (us_title update))
                           (default (sr_description row) (us_desc update)) in
              (Some row, [PutSpace (us_id update) row])
          end);
  match row with
  | None => raise ErrNoRows
  | Some row =>
      '(role, count) ← populatePostgresSpaceSummary (us_id update) actorUserID;
      mret (mkSpace (us_id update) (sr_uid row) (sr_title row) (sr_description row) role count)
  end.

(** ** Invitations *)

Definition CreateSpaceInvitation (create : SpaceMember) (actorUserID : Z) : Prog SpaceMember :=
  _ ← authorizePostgresSpaceAdmin (sm_space create) actorUserID;
  _ ← lockPostgresSpace (sm_space create);
  _ ← lockPostgresActiveUser (sm_user create);
  _ ← insert_member (sm_space create, sm_user create) (mkMember SpaceMemberStatusInvited (sm_role create))
        ErrSpaceMemberAlreadyExists;
  mret create.

Definition ListSpaceMembers (find : FindSpaceMember) : Prog (list SpaceMember) :=
  r ← fetch (λ db,
    appendPostgresLimit (fm_limit find) (fm_offset find)
      (member_of_row <$> select (λ k m,
        bool_decide (mb_status m = SpaceMemberStatusActive) && IsActiveMember (mb_role m) &&
        space_exists db k.1 && bool_decide (active_user db k.2) &&
        matches_opt (fm_space find) k.1 && matches_opt (fm_user find) k.2 &&
        match fm_viewer find with Some v => is_viewer db k.1 v | None => true end)
      by_user_asc (members db)));
  Finish r.

Definition ListSpaceInvitations (find : FindSpaceMember) : Prog (list SpaceMember) :=
  r ← fetch (λ db,
    appendPostgresLimit (fm_limit find) (fm_offset find)
      (member_of_row <$> select (λ k m,
        bool_decide (mb_status m = SpaceMemberStatusInvited) && IsActiveMember (mb_role m) &&
        space_exists db k.1 && bool_decide (is_Some (users db !! k.2)) &&
        matches_opt (fm_space find) k.1 && matches_opt (fm_user find) k.2 &&
        match fm_viewer find with
        | Some v => bool_decide (k.2 = v ∧ active_user db v) ||
                    bool_decide (active_member_role db k.1 v = Some SpaceMemberRoleAdmin)
        | None => true
        end)
      by_space_desc_user_asc (members db)));
  Finish r.

Definition AcceptSpaceInvitation (spaceID userID actorUserID : Z) : Prog SpaceMember :=
  if negb (userID =? actorUserID)%Z then raise ErrSpacePermissionDenied
  else
    _ ← lockPostgresActiveUser userID;
    role ← change (λ db,
             match members db !! (spaceID, userID) with
             | Some m =>
                 if bool_decide (mb_status m = SpaceMemberStatusInvited) && IsActiveMember (mb_role m)
                 then (Some (mb_role m), [PutMember (spaceID, userID) (mkMember SpaceMemberStatusActive (mb_role m))])
                 else (None, [])
             | None => (None, [])
             end);
    match role with
    | None => raise ErrSpaceInvitationNotFound
    | Some role => mret (mkSpaceMember spaceID userID role)
    end.

Definition DeclineSpaceInvitation (spaceID userID actorUserID : Z) : Prog unit :=
  if negb (userID =? actorUserID)%Z then raise ErrSpacePermissionDenied
  else _ ← requirePostgresActiveUser userID; delete_invitation spaceID userID.

Definition RevokeSpaceInvitation (spaceID userID actorUserID : Z) : Prog unit :=
  _ ← authorizePostgresSpaceAdmin spaceID actorUserID; delete_invitation spaceID userID.

(** ** Members *)

(** The [COUNT] over the active administrators, without a lock. *)
Definition admin_count (spaceID : Z) : Prog nat := fetch (λ db, count_members db spaceID is_admin).

Definition UpdateSpaceMember (spaceID userID : Z) (role : option SpaceMemberRole) (actorUserID : Z) : Prog SpaceMember :=
  _ ← authorizePostgresSpaceAdmin spaceID actorUserID;
  _ ← requirePostgresActiveUser userID;
  current ← getPostgresSpaceMember spaceID userID;
  match current with
  | None => raise ErrSpaceMemberNotFound
  | Some current =>
      _ ← (if is_admin (mb_role current) && match role with Some r => negb (is_admin r) | None => false end then
             count ← admin_count spaceID; unless (negb (count <=? 1)%nat) ErrLastSpaceAdmin
           else mret tt);
      match role with
      | None => raise ErrSyntax
      | Some r =>
          updated ← change (λ db,
                      match active_row (spaceID, userID) db with
                      | None => (Err ErrNoRows, [])
                      | Some _ =>
                          if IsActiveMember r then
                            (Ok tt, [PutMember (spaceID, userID) (mkMember SpaceMemberStatusActive r)])
                          else (Err ErrCheck, [])
                      end);
          _ ← Finish updated;
          mret (mkSpaceMember spaceID userID r)
      end
  end.

Definition DeleteSpaceMember (spaceID userID actorUserID : Z) : Prog unit :=
  userStatuses ← readPostgresUserStatuses ∅ [actorUserID; userID];
  if negb (actorUserID =? userID)%Z && negb (is_normal userStatuses actorUserID) then raise ErrSpacePermissionDenied
  else
    space ← fetch (λ db, spaces db !! spaceID);
    match space with
    | None => raise ErrSpaceNotFound
    | Some _ =>
        _ ← (if (actorUserID =? userID)%Z then mret tt
             else
               actor ← getPostgresSpaceMember spaceID actorUserID;
               match actor with
               | None => raise ErrSpacePermissionDenied
               | Some m => unless (is_admin (mb_role m)) ErrSpacePermissionDenied
               end);
        member ← getPostgresSpaceMember spaceID userID;
        match member with
        | None => raise ErrSpaceMemberNotFound
        | Some member =>
            _ ← (if is_admin (mb_role member) && is_normal userStatuses userID then
                   count ← admin_count spaceID; unless (negb (count <=? 1)%nat) ErrLastSpaceAdmin
                 else mret tt);
            change (λ db,
              (tt, match active_row (spaceID, userID) db with Some _ => [DropMember (spaceID, userID)] | None => [] end))
        end
    end.

(** ** Deleting memos *)

(** One statement per batch of ids. *)
Fixpoint each_batch (f : list Z → DB → DB) (batches : list (list Z)) : Prog unit :=
  match batches with
  | [] => mret tt
  | batch :: batches => _ ← elsewhere (f batch); each_batch f batches
  end.
Definition in_batches (f : list Z → DB → DB) (ids : list Z) : Prog unit :=
  each_batch f (deleteUserBatches ids deleteUserBatchSize).

Definition deleteMemosTx : list Z → Prog unit :=
  in_batches (λ ids, set_memos (delete_where (λ id _, bool_decide (id ∈ ids)))).
Definition deleteReactionsByMemoIDsTx : list Z → Prog unit :=
  in_batches (λ ids, set_reactions (delete_where (λ _ r, bool_decide (re_memo r ∈ ids)))).
Definition deleteAttachmentsByIDsTx : list Z → Prog unit :=
  in_batches (λ ids, set_attachments (delete_where (λ id _, bool_decide (id ∈ ids)))).
Definition deletePostgresMemoSetShares : list Z → Prog unit :=
  in_batches (λ ids, set_shares (delete_where (λ _ s, bool_decide (sh_memo s ∈ ids)))).
Definition deleteMemoRelationsTx : list Z → Prog unit :=
  in_batches (λ ids, set_relations (filter (λ r, ¬ (r.1.1 ∈ ids ∨ r.1.2 ∈ ids)))).

(** [appendDeleteUserAttachments]: the rows of a query that were not seen. *)
Definition appendDeleteUserAttachments (rows attachments : list (Z * Attachment)) : list (Z * Attachment) :=
  fold_left (λ seen kv, if bool_decide (kv.1 ∈ seen.*1) then seen else seen ++ [kv]) rows attachments.

(** [ORDER BY id]. *)
Definition by_attachment_id (a b : Z * Attachment) : Prop := (a.1 ≤ b.1)%Z.
#[export] Instance by_attachment_id_dec : RelDecision by_attachment_id.
Proof. unfold by_attachment_id. intros ??. apply _. Defined.

Fixpoint attachments_of_batches (attachments : list (Z * Attachment)) (batches : list (list Z))
  : Prog (list (Z * Attachment)) :=
  match batches with
  | [] => mret attachments
  | batch :: batches =>
      rows ← fetch (λ db, merge_sort by_attachment_id (memo_attachments batch db));
      attachments_of_batches (appendDeleteUserAttachments rows attachments) batches
  end.
Definition listPostgresMemoSetAttachments (memoIDs : list Z) : Prog (list (Z * Attachment)) :=
  attachments_of_batches [] (deleteUserBatches memoIDs deleteUserBatchSize).

Definition deletePostgresMemoSetTx (memoIDs : list Z) : Prog (list (Z * Attachment)) :=
  attachments ← wrapped "failed to collect memo attachments" (listPostgresMemoSetAttachments memoIDs);
  _ ← deletePostgresMemoSetShares memoIDs;
  _ ← deleteMemosTx memoIDs;
  _ ← deleteReactionsByMemoIDsTx memoIDs;
  _ ← deleteAttachmentsByIDsTx attachments.*1;
  _ ← deleteMemoRelationsTx memoIDs;
  mret attachments.

Definition listPostgresSpaceDeleteMemoIDs (spaceID : Z) : Prog (list Z) := fetch (space_memo_ids spaceID).

Definition requirePostgresSpaceDeleteAdmin (del : DeleteSpaceReq) : Prog unit :=
  actorStatus ← fetch (λ db, user_status db (ds_actor del));
  match actorStatus with
  | None => raise ErrSpacePermissionDenied
  | Some st =>
      _ ← unless (String.eqb st Normal) ErrSpacePermissionDenied;
      _ ← lockPostgresSpace (ds_id del);
      actor ← getPostgresSpaceMember (ds_id del) (ds_actor del);
      match actor with
      | None => raise ErrSpacePermissionDenied
      | Some m => unless (is_admin (mb_role m)) ErrSpacePermissionDenied
      end
  end.

(** The rows a [DELETE FROM space_member WHERE] finds. *)
Definition drop_members (c : Z * Z → member_row → bool) (db : DB) : list Write :=
  DropMember <$> (map_to_list (filter (λ kv, c kv.1 kv.2 = true) (members db))).*1.

Definition DeleteSpace (del : DeleteSpaceReq) : Prog (list (Z * Attachment)) :=
  _ ← requirePostgresSpaceDeleteAdmin del;
  memoIDs ← listPostgresSpaceDeleteMemoIDs (ds_id del);
  attachments ← wrapped "failed to delete assigned memo set" (deletePostgresMemoSetTx memoIDs);
  _ ← change (λ db, (tt, drop_members (λ k _, (k.1 =? ds_id del)%Z) db));
  deleted ← change (λ db, match spaces db !! ds_id del with Some _ => (true, [DropSpace (ds_id del)]) | None => (false, []) end);
  _ ← unless deleted ErrSpaceNotFound;
  mret attachments.

(** ** Users *)

(** [insertUser]; [now] is the default of the time columns. *)
Definition CreateUser (create : User) (now : Z) : Prog Z :=
  id ← draw SeqUser;
  inserted ← change (λ db,
    if bool_decide (map_Exists (λ _ u, us_username u = us_username create) (users db)) then (false, [])
    else (true, [PutUser id (mkUser (us_username create) (us_role create) (us_email create) (us_nickname create)
                   (us_password_hash create) (us_avatar_url create) "" now now Normal)]));
  _ ← unless inserted ErrUnique;
  mret id.

(** A space exists of which the user is the only active administrator. *)
Definition only_admin (u : Z) (db : DB) : bool :=
  bool_decide (active_user db u) &&
  bool_decide (map_Exists (λ k m,
    k.2 = u ∧ mb_status m = SpaceMemberStatusActive ∧ is_admin (mb_role m) = true ∧
    is_Some (spaces db !! k.1) ∧ other_admin db k.1 u = false) (members db)).
Definition validatePostgresUserArchive (u : Z) : Prog unit :=
  isLastActiveAdmin ← fetch (only_admin u);
  unless (negb isLastActiveAdmin) ErrLastSpaceAdmin.

Definition UpdateUser (update : UpdateUserReq) : Prog User :=
  _ ← (match uu_row_status update with
       | Some st => if String.eqb st Archived then validatePostgresUserArchive (uu_id update) else mret tt
       | None => mret tt
       end);
  _ ← unless (sets_something update) ErrSyntax;
  updated ← change (λ db,
    match users db !! uu_id update with
    | None => (Err ErrNoRows, [])
    | Some row =>
        let row := updated_user update row in
        if bool_decide (map_Exists (λ id v, id ≠ uu_id update ∧ us_username v = us_username row) (users db))
        then (Err ErrUnique, []) else (Ok row, [PutUser (uu_id update) row])
    end);
  Finish updated.

Definition listDeleteUserMemos (u : Z) : Prog (list Z) := fetch (user_memo_ids u).
Definition listDeleteUserAttachments (u : Z) (memoIDs : list Z) : Prog (list (Z * Attachment)) :=
  rows ← fetch (λ db, map_to_list (filter (λ kv, at_creator kv.2 = u) (attachments db)));
  attachments_of_batches (appendDeleteUserAttachments rows []) (deleteUserBatches memoIDs deleteUserBatchSize).
Definition listDeleteUserSettingKeys (u : Z) : Prog (list string) :=
  fetch (λ db, map (λ kv, kv.1.2) (map_to_list (filter (λ kv, kv.1.1 = u) (user_settings db)))).
Definition listDeleteUserInboxIDs (u : Z) : Prog (list Z) :=
  fetch (λ db, map fst (map_to_list (filter (λ kv, kv.2.1 = u ∨ kv.2.2 = u) (inboxes db)))).

Definition collectDeleteUserTargets (u : Z) : Prog deleteUserTargetSet :=
  memoIDs ← listDeleteUserMemos u;
  attachments ← listDeleteUserAttachments u memoIDs;
  userSettingKeys ← listDeleteUserSettingKeys u;
  inboxIDs ← listDeleteUserInboxIDs u;
  mret (mkTargets memoIDs attachments userSettingKeys inboxIDs).

Definition deleteReactionsByCreatorTx (u : Z) : Prog unit :=
  elsewhere (set_reactions (delete_where (λ _ r, (re_creator r =? u)%Z))).
Definition deleteMemoSharesTx (u : Z) (memoIDs : list Z) : Prog unit :=
  _ ← elsewhere (set_shares (delete_where (λ _ s, (sh_creator s =? u)%Z)));
  in_batches (λ ids, set_shares (delete_where (λ _ s, bool_decide (sh_memo s ∈ ids)))) memoIDs.
Definition deleteInboxesByIDsTx : list Z → Prog unit :=
  in_batches (λ ids, set_inboxes (delete_where (λ id _, bool_decide (id ∈ ids)))).
Definition deleteUserIdentitiesTx (u : Z) : Prog unit :=
  elsewhere (set_identities (delete_where (λ _ v, (v =? u)%Z))).
Definition deleteUserSettingsTx (u : Z) : Prog unit :=
  elsewhere (set_settings (delete_where (λ k _, (k.1 =? u)%Z))).
Definition deleteUserRowTx (u : Z) : Prog unit := change (λ _, (tt, [DropUser u])).

Definition deleteUserTargetsTx (u : Z) (targets : deleteUserTargetSet) : Prog unit :=
  _ ← deleteMemosTx (tg_memos targets);
  _ ← deleteReactionsByMemoIDsTx (tg_memos targets);
  _ ← deleteAttachmentsByIDsTx (tg_attachments targets).*1;
  _ ← deleteReactionsByCreatorTx u;
  _ ← deleteMemoSharesTx u (tg_memos targets);
  _ ← deleteInboxesByIDsTx (tg_inboxes targets);
  _ ← deleteUserIdentitiesTx u;
  _ ← deleteUserSettingsTx u;
  _ ← deleteMemoRelationsTx (tg_memos targets);
  deleteUserRowTx u.

Definition DeleteUser (u : Z) (failpoint : bool) : Prog (list (Z * Attachment) * list string) :=
  row ← fetch_for_update (RUser u) (λ db, users db !! u);
  match row with
  | None => mret ([], [])
  | Some _ =>
      membershipCount ← fetch (λ db,
        size (filter (λ kv, kv.1.2 = u ∧ mb_status kv.2 ≠ SpaceMemberStatusInvited) (members db)));
      _ ← unless (Nat.eqb membershipCount 0) ErrUserHasSpaceMembership;
      _ ← change (λ db, (tt, drop_members (λ k m, bool_decide (k.2 = u ∧ mb_status m = SpaceMemberStatusInvited)) db));
      targets ← wrapped "failed to collect delete user targets" (collectDeleteUserTargets u);
      _ ← wrapped "failed to delete user targets" (deleteUserTargetsTx u targets);
      _ ← unless (negb failpoint) (errorf0 "delete user failpoint before commit");
      mret (tg_attachments targets, tg_settings targets)
  end.

(** ** Requests *)

(** A request of [SpaceSafety] as a transaction of this driver, without its answer. *)
Definition perform (o : space_op) : Prog unit :=
  let ignore {A} (p : Prog A) : Prog unit := _ ← p; mret tt in
  match o with
  | OpCreateSpace c u => ignore (CreateSpace c u)
  | OpUpdateSpace upd a => ignore (UpdateSpace upd a)
  | OpDeleteSpace d => ignore (DeleteSpace d)
  | OpInvite c a => ignore (CreateSpaceInvitation c a)
  | OpAccept s u a => ignore (AcceptSpaceInvitation s u a)
  | OpDecline s u a => ignore (DeclineSpaceInvitation s u a)
  | OpRevoke s u a => ignore (RevokeSpaceInvitation s u a)
  | OpUpdateMember s u r a => ignore (UpdateSpaceMember s u r a)
  | OpDeleteMember s u a => ignore (DeleteSpaceMember s u a)
  | OpCreateUser u now => ignore (CreateUser u now)
  | OpUpdateUser u => ignore (UpdateUser u)
  | OpDeleteUser u fp => ignore (DeleteUser u fp)
  end.
End Postgres.

(** ** An example: Ada and Bob are the administrators of a space *)

Definition two_admins_db : DB :=
  mkDB {[ 1%Z := example_user "ada"; 2%Z := example_user "bob"; 3%Z := example_user "carol" ]} {[ 1%Z := mkSpaceRow "team" "Team" "" ]}
    {[ (1, 1)%Z := mkMember SpaceMemberStatusActive SpaceMemberRoleAdmin;
       (1, 2)%Z := mkMember SpaceMemberStatusActive SpaceMemberRoleAdmin ]}
    ∅ ∅ ∅ ∅ ∅ ∅ ∅ ∅ 4 2 1 1 1 1.
