(* ===== verification/PostgresOrphans.v ===== *)
(** * No membership outlives its space or its user on PostgreSQL

    The driver's comments promise that creation and deletion lock the same parent
    rows, so that overlapping transactions leave no orphan.  Here every interleaving
    of the statements of any number of its transactions is considered. *)
From S2P Require Import Prelude GoLib Store SpaceStore SpaceSafety Statements PostgresSpace.

(** Every membership and invitation has its space and its user. *)
Definition no_orphans (db : DB) : Prop :=
  ∀ s u m, members db !! (s, u) = Some m → is_Some (spaces db !! s) ∧ is_Some (users db !! u).

(** What the others may have committed, for who holds these locks: the rows locked
    are as they were, a locked space or user gets no new membership, and an
    invitation of a locked user remains one. *)
Record undisturbed (held : list Row) (db db' : DB) : Prop := mkUndisturbed {
  un_user : ∀ u, RUser u ∈ held → users db' !! u = users db !! u;
  un_space : ∀ s, RSpace s ∈ held → spaces db' !! s = spaces db !! s;
  un_member : ∀ k, RMember k ∈ held → members db' !! k = members db !! k;
  un_members_space : ∀ s u m', RSpace s ∈ held → members db' !! (s, u) = Some m' → is_Some (members db !! (s, u));
  un_members_user : ∀ s u m', RUser u ∈ held → members db' !! (s, u) = Some m' →
    ∃ m, members db !! (s, u) = Some m ∧
      (mb_status m = SpaceMemberStatusInvited → mb_status m' = SpaceMemberStatusInvited) }.

Lemma undisturbed_refl held db : undisturbed held db db.
Proof. split; eauto. Qed.

Lemma undisturbed_trans held db1 db2 db3 :
  undisturbed held db1 db2 → undisturbed held db2 db3 → undisturbed held db1 db3.
Proof.
  intros [A1 A2 A3 A4 A5] [B1 B2 B3 B4 B5]. split.
  - intros u Hu. by rewrite B1, A1.
  - intros s Hs. by rewrite B2, A2.
  - intros k Hk. by rewrite B3, A3.
  - intros s u m' Hs Hm. destruct (B4 _ _ _ Hs Hm) as [m Hm1]. by eapply A4.
  - intros s u m' Hu Hm. destruct (B5 _ _ _ Hu Hm) as (m & Hm1 & Hi).
    destruct (A5 _ _ _ Hu Hm1) as (m0 & Hm0 & Hi0). eauto.
Qed.

Lemma draw_undisturbed q held db : no_orphans db → no_orphans (seq_next q db) ∧ undisturbed held db (seq_next q db).
Proof. intros H. destruct q; (split; [exact H|split; cbn; eauto]). Qed.

Abbreviation wp := (Statements.wp no_orphans undisturbed).
Abbreviation commits := (Statements.commits no_orphans undisturbed).

(** A change that leaves users, spaces and members alone. *)
Definition harmless (f : DB → DB) : Prop :=
  ∀ db, users (f db) = users db ∧ spaces (f db) = spaces db ∧ members (f db) = members db.

Lemma apply_all_app ws1 ws2 db : apply_all (ws1 ++ ws2) db = apply_all ws2 (apply_all ws1 db).
Proof. apply fold_left_app. Qed.

Lemma apply_harmless fs db : Forall harmless fs →
  users (apply_all (Elsewhere <$> fs) db) = users db ∧ spaces (apply_all (Elsewhere <$> fs) db) = spaces db ∧
  members (apply_all (Elsewhere <$> fs) db) = members db.
Proof.
  intros Hf. revert db. induction Hf as [|f fs Hf _ IH]; intros db; [done|].
  change (apply_all (Elsewhere <$> (f :: fs)) db) with (apply_all (Elsewhere <$> fs) (f db)).
  destruct (IH (f db)) as (-> & -> & ->). apply Hf.
Qed.

(** ** Which changes may be committed *)

(** Changes of what is there already, or of rows locked: the three tables after
    them, by cases. *)
Lemma commits_intro ws held db :
  (∀ db', undisturbed held db db' → no_orphans db' →
     no_orphans (apply_all ws db') ∧
     (∀ u, RUser u ∉ held → users (apply_all ws db') !! u = users db' !! u) ∧
     (∀ s, RSpace s ∉ held → spaces (apply_all ws db') !! s = spaces db' !! s) ∧
     (∀ k, RMember k ∉ held → members (apply_all ws db') !! k = members db' !! k) ∧
     (∀ s u m', members (apply_all ws db') !! (s, u) = Some m' → is_Some (members db' !! (s, u)) ∨ (RSpace s ∈ held ∧ RUser u ∈ held)) ∧
     (∀ s u m m', members db' !! (s, u) = Some m → members (apply_all ws db') !! (s, u) = Some m' →
        mb_status m = SpaceMemberStatusInvited → mb_status m' = SpaceMemberStatusInvited ∨ RUser u ∈ held)) →
  commits ws held db.
Proof.
  intros H db' Hr Hi. destruct (H db' Hr Hi) as (H1 & H2 & H3 & H4 & H5 & H6). split; [done|].
  intros held' Hd. assert (∀ r, r ∈ held' → r ∉ held) as Hn by (intros r ? ?; by eapply Hd). split; auto.
  - intros s u m' Hs Hm. destruct (H5 _ _ _ Hm) as [?|[Hs' _]]; [done|]. by destruct (Hn _ Hs).
  - intros s u m' Hu Hm. destruct (H5 _ _ _ Hm) as [[m Hm0]|[_ Hu']]; [|by destruct (Hn _ Hu)].
    exists m. split; [done|]. intros Hinv. destruct (H6 _ _ _ _ Hm0 Hm Hinv) as [?|Hu']; [done|by destruct (Hn _ Hu)].
Qed.

(** Nothing changed in the three tables. *)
Lemma commits_nothing fs held db : Forall harmless fs → commits (Elsewhere <$> fs) held db.
Proof.
  intros Hf. apply commits_intro. intros db' _ Hi. destruct (apply_harmless fs db' Hf) as (Eu & Es & Em).
  unfold no_orphans. rewrite Eu, Es, Em. split_and!; auto; try done; intros; simplify_eq; eauto.
Qed.

(** A row of a user or space was rewritten. *)
Lemma commits_put_user u row held db : RUser u ∈ held → commits [PutUser u row] held db.
Proof.
  intros Hu. apply commits_intro. intros db' _ Hi. cbn. split_and!; try done; intros; simplify_eq; eauto.
  - intros s v m Hm. destruct (Hi s v m Hm) as [? [row0 ?]]. split; [done|]. cbn.
    destruct (decide (v = u)) as [->|]; [rewrite lookup_insert_eq|rewrite lookup_insert_ne by done]; eauto.
  - rewrite lookup_insert_ne; [done|]. by intros ->.
Qed.

Lemma commits_put_space s row held db : RSpace s ∈ held → commits [PutSpace s row] held db.
Proof.
  intros Hs. apply commits_intro. intros db' _ Hi. cbn. split_and!; try done; intros; simplify_eq; eauto.
  - intros t v m Hm. destruct (Hi t v m Hm) as [[row0 ?] ?]. split; [|done]. cbn.
    destruct (decide (t = s)) as [->|]; [rewrite lookup_insert_eq|rewrite lookup_insert_ne by done]; eauto.
  - rewrite lookup_insert_ne; [done|]. by intros ->.
Qed.

Lemma commits_drop_member k held db : RMember k ∈ held → commits [DropMember k] held db.
Proof.
  intros Hk. apply commits_intro. intros db' _ Hi. cbn. split_and!; try done.
  - intros t v m. cbn. rewrite lookup_delete_Some. intros [_ Hm]. by eapply Hi.
  - intros k' Hk'. rewrite lookup_delete_ne; [done|]. by intros ->.
  - intros t v m'. rewrite lookup_delete_Some. intros [_ Hm]. eauto.
  - intros t v m m' Hm. rewrite lookup_delete_Some. intros [_ Hm']. simplify_eq. auto.
Qed.

(** A membership is changed that is there, or inserted with its parents locked. *)
Lemma commits_put_member s u m held db :
  RMember (s, u) ∈ held →
  ((∃ m0, members db !! (s, u) = Some m0 ∧ (mb_status m0 ≠ SpaceMemberStatusInvited ∨ RUser u ∈ held)) ∨
   (RSpace s ∈ held ∧ RUser u ∈ held ∧ is_Some (spaces db !! s) ∧ is_Some (users db !! u))) →
  commits [PutMember (s, u) m] held db.
Proof.
  intros Hk Hwhy. apply commits_intro. intros db' Hr Hi. cbn. split_and!; try done.
  - intros t v m'. cbn. rewrite lookup_insert_Some. intros [[E <-]|[_ Hm]]; [|by eapply Hi].
    injection E as <- <-. destruct Hwhy as [(m0 & Hm0 & _)|(H1 & H2 & H3 & H4)].
    + apply (Hi s u m0). by rewrite (un_member _ _ _ Hr).
    + by rewrite (un_space _ _ _ Hr), (un_user _ _ _ Hr).
  - intros k' Hk'. rewrite lookup_insert_ne; [done|]. by intros <-.
  - intros t v m'. rewrite lookup_insert_Some. intros [[E <-]|[_ Hm]]; [|eauto]. injection E as <- <-.
    destruct Hwhy as [(m0 & Hm0 & _)|(? & ? & _)]; [left|by right]. rewrite (un_member _ _ _ Hr) by done. eauto.
  - intros t v m1 m' Hm1. rewrite lookup_insert_Some. intros [[E <-]|[_ Hm]] Hinv; [|by simplify_eq; left].
    injection E as <- <-. right. destruct Hwhy as [(m0 & Hm0 & Hu)|(? & ? & _)]; [|done].
    rewrite (un_member _ _ _ Hr) in Hm1 by done. simplify_eq. destruct Hu; [done|done].
Qed.

(** ** Statements that change none of the three tables *)

Module Quiet.
Import Postgres.

Section quiet.
Context {h : (DB → DB) → Prop}.

Lemma quiet_ret {A} (a : A) : quiet h (mret a).
Proof. exact I. Qed.
Lemma quiet_raise {A} e : quiet h (raise e : Prog A).
Proof. exact I. Qed.
Lemma quiet_unless b e : quiet h (unless b e).
Proof. by destruct b. Qed.
Lemma quiet_fetch {X} (q : DB → X) : quiet h (fetch q).
Proof. done. Qed.
Lemma quiet_elsewhere f : h f → quiet h (elsewhere f).
Proof. cbn. intros Hf. split; [|done]. intros _. by constructor. Qed.
End quiet.

Create HintDb quiet.
#[export] Hint Resolve quiet_ret quiet_raise quiet_unless quiet_fetch quiet_elsewhere : quiet.

(** Through binds, matches and conditionals. *)
Ltac quiet := repeat first
  [ progress auto with quiet
  | apply quiet_bind; [|intros ?]
  | apply quiet_wrapped
  | match goal with |- context [match ?x with _ => _ end] => destruct x end ].

Section quiet_calls.
Context {h : (DB → DB) → Prop}.

Lemma quiet_statuses statuses ids : quiet h (readPostgresUserStatuses statuses ids).
Proof. revert statuses. induction ids as [|u ids IH]; intros statuses; cbn [readPostgresUserStatuses]; quiet. Qed.
#[local] Hint Resolve quiet_statuses : quiet.
Lemma quiet_require ids : quiet h (requirePostgresActiveUsers ids).
Proof. unfold requirePostgresActiveUsers. quiet. Qed.
Lemma quiet_authorize s u : quiet h (authorizePostgresSpaceAdmin s u).
Proof. unfold authorizePostgresSpaceAdmin. quiet. Qed.
Lemma quiet_in_batches f ids : (∀ batch, h (f batch)) → quiet h (in_batches f ids).
Proof.
  intros Hf. unfold in_batches. generalize (Driver.deleteUserBatches ids Driver.deleteUserBatchSize) as l.
  induction l as [|b l IH]; cbn [each_batch]; quiet.
Qed.
Lemma quiet_attachments ats batches : quiet h (attachments_of_batches ats batches).
Proof. revert ats. induction batches as [|b l IH]; intros ats; cbn [attachments_of_batches]; quiet. Qed.
End quiet_calls.
#[export] Hint Resolve quiet_statuses quiet_require quiet_authorize quiet_in_batches quiet_attachments : quiet.

Lemma harmless_fields f : (∀ db, users (f db) = users db) → (∀ db, spaces (f db) = spaces db) →
  (∀ db, members (f db) = members db) → harmless f.
Proof. intros ? ? ? db. auto. Qed.
#[export] Hint Extern 1 (harmless _) => (apply harmless_fields; reflexivity) : quiet.

Lemma quiet_memo_set ids : quiet harmless (deletePostgresMemoSetTx ids).
Proof.
  unfold deletePostgresMemoSetTx, deletePostgresMemoSetShares, deleteMemosTx, deleteReactionsByMemoIDsTx,
    deleteAttachmentsByIDsTx, deleteMemoRelationsTx, listPostgresMemoSetAttachments. quiet.
Qed.
Lemma quiet_targets u : quiet harmless (collectDeleteUserTargets u).
Proof.
  unfold collectDeleteUserTargets, listDeleteUserMemos, listDeleteUserAttachments, listDeleteUserSettingKeys,
    listDeleteUserInboxIDs. quiet.
Qed.
#[export] Hint Resolve quiet_memo_set quiet_targets : quiet.
End Quiet.
Import Postgres Quiet.

(** ** The transactions *)

(** Read on, with the locks and changes so far. *)
Lemma wp_quietly {A} (p : Prog A) Q held db :
  quiet harmless p → no_orphans db →
  (∀ a fs db', Forall harmless fs → undisturbed held db db' → no_orphans db' → Q a (Elsewhere <$> fs) held db') →
  wp p Q [] held db.
Proof. intros Hp Hi HQ. by eapply (Statements.wp_quiet no_orphans undisturbed undisturbed_refl undisturbed_trans). Qed.

(** Reading only. *)
Lemma wp_read {A} (p : Prog A) Q held db :
  quiet (λ _, False) p → no_orphans db →
  (∀ a db', undisturbed held db db' → no_orphans db' → Q a [] held db') → wp p Q [] held db.
Proof.
  intros Hp Hi HQ. eapply (Statements.wp_quiet no_orphans undisturbed undisturbed_refl undisturbed_trans); [done..|].
  intros a fs db' Hf Hr Hi'. destruct Hf as [|? ? []]. by apply HQ.
Qed.

Lemma wp_lock_user u Q held db :
  (∀ db', undisturbed held db db' → no_orphans db' → active_user db' u → Q tt [] (RUser u :: held) db') →
  wp (lockPostgresActiveUser u) Q [] held db.
Proof.
  intros HQ. apply wp_bind. cbn. intros db' Hr Hi. destruct (user_status db' u) as [st|] eqn:E; [|done]. cbn.
  apply wp_unless. intros Hst%String.eqb_eq. apply HQ; [done..|]. unfold active_user. by rewrite E, Hst.
Qed.

Lemma wp_lock_space s Q held db :
  (∀ db', undisturbed held db db' → no_orphans db' → is_Some (spaces db' !! s) → Q tt [] (RSpace s :: held) db') →
  wp (lockPostgresSpace s) Q [] held db.
Proof.
  intros HQ. apply wp_bind. cbn. intros db' Hr Hi. destruct (spaces db' !! s) eqn:E; [|done]. cbn.
  apply HQ; eauto.
Qed.

(** One changing statement without earlier changes. *)
Lemma wp_change {X} (stmt : DB → X * list Write) Q held db :
  (∀ db', undisturbed held db db' → no_orphans db' →
     Q (stmt db').1 (stmt db').2 (flat_map rows_of (stmt db').2 ++ held) db') →
  wp (change stmt) Q [] held db.
Proof. intros HQ db' Hr Hi. by apply HQ. Qed.

Lemma commits_none held db : commits [] held db.
Proof. exact (commits_nothing [] held db (Forall_nil_2 _)). Qed.

Lemma active_user_lookup db u : active_user db u → is_Some (users db !! u).
Proof. unfold active_user, user_status. destruct (users db !! u); [eauto|done]. Qed.

Lemma wp_delete_invitation s u held db :
  wp (delete_invitation s u) (λ _, commits) [] held db.
Proof.
  apply wp_bind, wp_change. intros db' Hr Hi. destruct (members db' !! (s, u)) as [m|]; [|done].
  case_bool_decide; [|done]. cbn. apply commits_drop_member. by left.
Qed.

Lemma wp_insert_member s u m e held db :
  RSpace s ∈ held → RUser u ∈ held → is_Some (spaces db !! s) → is_Some (users db !! u) →
  wp (insert_member (s, u) m e) (λ _, commits) [] held db.
Proof.
  intros Hs Hu Hse Hue. apply wp_bind, wp_change. intros db' Hr Hi.
  destruct (members db' !! (s, u)); [done|]. destruct (IsActiveMember (mb_role m)); [|done]. cbn.
  apply commits_put_member; [by left|right]. split_and!; [by right|by right|..].
  - by rewrite (un_space _ _ _ Hr).
  - by rewrite (un_user _ _ _ Hr).
Qed.


(** Read only, then go on. *)
Ltac reads := apply wp_bind, wp_read; [quiet|done|].

Lemma wp_CreateSpaceInvitation create actor db : no_orphans db →
  wp (CreateSpaceInvitation create actor) (λ _, commits) [] [] db.
Proof.
  intros Hi. unfold CreateSpaceInvitation. reads. intros _ db1 _ Hi1.
  apply wp_bind, wp_lock_space. intros db2 _ Hi2 Hs.
  apply wp_bind, wp_lock_user. intros db3 Hr3 Hi3 Hu.
  apply wp_bind. eapply wp_mono; [apply wp_insert_member|done].
  - by right; left.
  - by left.
  - rewrite (un_space _ _ _ Hr3); [done|by left].
  - by apply active_user_lookup.
Qed.

Lemma wp_CreateSpace create creator db : no_orphans db → wp (CreateSpace create creator) (λ _, commits) [] [] db.
Proof.
  intros Hi. unfold CreateSpace. apply wp_bind, wp_lock_user. intros db1 _ Hi1 Hu1.
  apply wp_bind. intros db2 Hr2 Hi2. apply wp_bind, wp_change.
  intros db3 Hr3 Hi3. set (id := seq_value SeqSpace db2). destruct (Driver.uid_taken db3 (sp_uid create)); [done|].
  cbn [fst snd flat_map rows_of app]. apply wp_bind, wp_unless. intros _.
  set (row := mkSpaceRow _ _ _).
  apply wp_bind, wp_bind. intros db4 Hr4 Hi4. cbn [apply_all fold_left apply_write].
  destruct (members _ !! (id, creator)) as [|] eqn:Hnew; [done|]. cbn.
  assert (is_Some (users db4 !! creator)) as Hu4.
  { apply active_user_lookup in Hu1. rewrite (un_user _ _ _ Hr4), (un_user _ _ _ Hr3) by set_solver.
    destruct Hr2 as [Hr2 _ _ _ _]. rewrite <- (Hr2 creator) in Hu1 by set_solver. done. }
  apply commits_intro. intros db5 Hr5 Hi5. cbn. split_and!; try done.
  - intros t v m. cbn. rewrite lookup_insert_Some. intros [[E <-]|[_ Hm]].
    + injection E as <- <-. split; [rewrite lookup_insert_eq; eauto|].
      rewrite (un_user _ _ _ Hr5); [done|set_solver].
    + destruct (Hi5 t v m Hm) as [[r Ht] ?]. split; [|done].
      destruct (decide (t = id)) as [->|]; [rewrite lookup_insert_eq|rewrite lookup_insert_ne by done]; eauto.
  - intros t Ht. rewrite lookup_insert_ne; [done|]. intros <-. set_solver.
  - intros k Hk. rewrite lookup_insert_ne; [done|]. intros <-. set_solver.
  - intros t v m'. rewrite lookup_insert_Some. intros [[E <-]|[_ Hm]]; [|eauto]. injection E as <- <-. right. set_solver.
  - intros t v m m' Hm. rewrite lookup_insert_Some. intros [[E <-]|[_ Hm']] Hinv; [|simplify_eq; auto].
    injection E as <- <-. right. set_solver.
Qed.

Lemma wp_UpdateSpace update actor db : no_orphans db → wp (UpdateSpace update actor) (λ _, commits) [] [] db.
Proof.
  intros Hi. unfold UpdateSpace. reads. intros _ db1 _ Hi1. reads. intros _ db2 _ Hi2. reads. intros _ db3 _ Hi3.
  apply wp_bind, wp_change. intros db4 _ Hi4. destruct (spaces db4 !! us_id update) as [row|]; [|done].
  cbn [fst snd flat_map rows_of app]. apply wp_bind. intros db5 _ Hi5.
  cbn. destruct (Driver.space_summary _ _ _) as [[]|]; [|done]. cbn. apply commits_put_space. by left.
Qed.

Lemma wp_AcceptSpaceInvitation s u actor db : no_orphans db →
  wp (AcceptSpaceInvitation s u actor) (λ _, commits) [] [] db.
Proof.
  intros Hi. unfold AcceptSpaceInvitation. destruct (negb _); [done|].
  apply wp_bind, wp_lock_user. intros db1 _ Hi1 Hu. apply wp_bind, wp_change. intros db2 Hr2 Hi2.
  destruct (members db2 !! (s, u)) as [m|] eqn:Em; [|done]. destruct (_ && _); [|done]. cbn.
  apply commits_put_member; [by left|left]. exists m. split; [done|]. right. by right; left.
Qed.

Lemma wp_DeclineSpaceInvitation s u actor db : no_orphans db →
  wp (DeclineSpaceInvitation s u actor) (λ _, commits) [] [] db.
Proof.
  intros Hi. unfold DeclineSpaceInvitation. destruct (negb _); [done|]. reads. intros _ db1 _ Hi1.
  apply wp_delete_invitation.
Qed.

Lemma wp_RevokeSpaceInvitation s u actor db : no_orphans db →
  wp (RevokeSpaceInvitation s u actor) (λ _, commits) [] [] db.
Proof. intros Hi. unfold RevokeSpaceInvitation. reads. intros _ db1 _ Hi1. apply wp_delete_invitation. Qed.

Lemma active_row_lookup k db m : active_row k db = Some m →
  members db !! k = Some m ∧ mb_status m = SpaceMemberStatusActive.
Proof.
  unfold active_row. destruct (members db !! k) as [m'|]; [|done]. cbn. case_bool_decide; [|done]. by intros [= <-].
Qed.

Lemma wp_UpdateSpaceMember s u role actor db : no_orphans db →
  wp (UpdateSpaceMember s u role actor) (λ _, commits) [] [] db.
Proof.
  intros Hi. unfold UpdateSpaceMember, requirePostgresActiveUser. reads. intros _ db1 _ Hi1. reads. intros _ db2 _ Hi2.
  unfold getPostgresSpaceMember. reads. intros [current|] db3 _ Hi3; [|done].
  unfold admin_count. reads. intros _ db4 _ Hi4. destruct role as [r|]; [|done].
  apply wp_bind, wp_change. intros db5 _ Hi5. destruct (active_row (s, u) db5) as [m|] eqn:Em; [|done].
  destruct (IsActiveMember r); [|done]. cbn. apply active_row_lookup in Em as [Em Hst].
  apply commits_put_member; [by left|left]. exists m. split; [done|]. left. by rewrite Hst.
Qed.

Lemma wp_DeleteSpaceMember s u actor db : no_orphans db →
  wp (DeleteSpaceMember s u actor) (λ _, commits) [] [] db.
Proof.
  intros Hi. unfold DeleteSpaceMember, getPostgresSpaceMember, admin_count. reads. intros statuses db1 _ Hi1.
  destruct (_ && _); [done|]. reads. intros [row|] db2 _ Hi2; [|done]. reads. intros _ db3 _ Hi3.
  reads. intros [member|] db4 _ Hi4; [|done]. reads. intros _ db5 _ Hi5. apply wp_change. intros db6 _ Hi6. cbn.
  destruct (active_row (s, u) db6); [|apply commits_none]. apply commits_drop_member. by left.
Qed.

(** ** Deletions *)

Lemma apply_drops ks db :
  users (apply_all (DropMember <$> ks) db) = users db ∧ spaces (apply_all (DropMember <$> ks) db) = spaces db ∧
  ∀ k, members (apply_all (DropMember <$> ks) db) !! k = if decide (k ∈ ks) then None else members db !! k.
Proof.
  revert db. induction ks as [|k0 ks IH]; intros db; [split_and!; [done..|]; intros k; rewrite decide_False; [done|apply not_elem_of_nil]|].
  change (apply_all (DropMember <$> (k0 :: ks)) db) with (apply_all (DropMember <$> ks) (set_members (delete k0) db)).
  destruct (IH (set_members (delete k0) db)) as (-> & -> & Hm). split_and!; [done..|]. intros k. rewrite Hm.
  destruct (decide (k ∈ ks)) as [Hk|Hk]; [by rewrite decide_True by (by right)|].
  cbn. destruct (decide (k = k0)) as [->|Hne].
  - rewrite lookup_delete_eq, decide_True; [done|by left].
  - rewrite lookup_delete_ne, decide_False; [done| |done]. by intros [?|?]%elem_of_cons.
Qed.

(** The changes of a deletion: other tables, the memberships of the parent, the
    parent. *)
Definition deletion (fs1 : list (DB → DB)) (ks : list (Z * Z)) (fs2 : list (DB → DB)) : list Write :=
  (Elsewhere <$> fs1) ++ (DropMember <$> ks) ++ (Elsewhere <$> fs2).

Lemma apply_deletion fs1 ks fs2 db : Forall harmless fs1 → Forall harmless fs2 →
  users (apply_all (deletion fs1 ks fs2) db) = users db ∧ spaces (apply_all (deletion fs1 ks fs2) db) = spaces db ∧
  ∀ k, members (apply_all (deletion fs1 ks fs2) db) !! k = if decide (k ∈ ks) then None else members db !! k.
Proof.
  intros H1 H2. unfold deletion. rewrite !apply_all_app.
  destruct (apply_harmless fs1 db H1) as (Eu1 & Es1 & Em1). set (d1 := apply_all (Elsewhere <$> fs1) db) in *.
  destruct (apply_drops ks d1) as (Eu2 & Es2 & Em2). set (d2 := apply_all (DropMember <$> ks) d1) in *.
  destruct (apply_harmless fs2 d2 H2) as (-> & -> & ->). rewrite Eu2, Es2, Eu1, Es1.
  split_and!; [done..|]. intros k. by rewrite Em2, Em1.
Qed.

Lemma commits_deletion fs1 ks fs2 held db : Forall harmless fs1 → Forall harmless fs2 →
  (∀ k, k ∈ ks → RMember k ∈ held) → commits (deletion fs1 ks fs2) held db.
Proof.
  intros H1 H2 Hks. apply commits_intro. intros db' _ Hi.
  destruct (apply_deletion fs1 ks fs2 db' H1 H2) as (Eu & Es & Em). unfold no_orphans. rewrite Eu, Es.
  assert (∀ k m, members (apply_all (deletion fs1 ks fs2) db') !! k = Some m → members db' !! k = Some m) as Hsub.
  { intros k m. rewrite Em. by destruct (decide _). }
  split_and!; auto; try done.
  - intros s u m Hm. by eapply Hi, Hsub.
  - intros k Hk. rewrite Em, decide_False; [done|]. auto.
  - intros s u m' Hm%Hsub. eauto.
  - intros s u m m' Hm Hm'%Hsub. simplify_eq. auto.
Qed.

(** A space goes with its memberships, a user when all of theirs were dropped. *)
Lemma commits_drop_space fs1 ks s held db : Forall harmless fs1 → RSpace s ∈ held →
  (∀ k, k ∈ ks → RMember k ∈ held) → (∀ u, is_Some (members db !! (s, u)) → (s, u) ∈ ks) →
  commits (deletion fs1 ks [] ++ [DropSpace s]) held db.
Proof.
  intros H1 Hs Hks Hall. apply commits_intro. intros db' Hr Hi. rewrite apply_all_app.
  destruct (apply_deletion fs1 ks [] db' H1 (Forall_nil_2 _)) as (Eu & Es & Em).
  set (d := apply_all (deletion fs1 ks []) db') in *. cbn. unfold no_orphans. cbn. rewrite Eu, Es.
  assert (∀ k m, members d !! k = Some m → members db' !! k = Some m) as Hsub.
  { intros k m. rewrite Em. by destruct (decide _). }
  split_and!; auto; try done.
  - intros t u m Hm. destruct (Hi t u m (Hsub _ _ Hm)) as [? ?]. split; [|done]. rewrite lookup_delete_ne; [done|].
    intros <-. rewrite Em in Hm. case_decide as Hk; [done|]. apply Hk, Hall.
    eapply (un_members_space _ _ _ Hr); [done|]. exact Hm.
  - intros t Ht. rewrite lookup_delete_ne; [done|]. by intros <-.
  - intros k Hk. rewrite Em, decide_False; [done|]. auto.
  - intros t u m' Hm%Hsub. eauto.
  - intros t u m m' Hm Hm'%Hsub. simplify_eq. auto.
Qed.

Lemma commits_drop_user fs1 ks fs2 u held db : Forall harmless fs1 → Forall harmless fs2 → RUser u ∈ held →
  (∀ k, k ∈ ks → RMember k ∈ held) → (∀ s, is_Some (members db !! (s, u)) → (s, u) ∈ ks) →
  commits (deletion fs1 ks fs2 ++ [DropUser u]) held db.
Proof.
  intros H1 H2 Hu Hks Hall. apply commits_intro. intros db' Hr Hi. rewrite apply_all_app.
  destruct (apply_deletion fs1 ks fs2 db' H1 H2) as (Eu & Es & Em).
  set (d := apply_all (deletion fs1 ks fs2) db') in *. cbn. unfold no_orphans. cbn. rewrite Eu, Es.
  assert (∀ k m, members d !! k = Some m → members db' !! k = Some m) as Hsub.
  { intros k m. rewrite Em. by destruct (decide _). }
  split_and!; auto; try done.
  - intros s v m Hm. destruct (Hi s v m (Hsub _ _ Hm)) as [? ?]. split; [done|]. rewrite lookup_delete_ne; [done|].
    intros <-. rewrite Em in Hm. case_decide as Hk; [done|]. apply Hk, Hall.
    destruct (un_members_user _ _ _ Hr s u m Hu Hm) as (m0 & ? & _). eauto.
  - intros v Hv. rewrite lookup_delete_ne; [done|]. by intros <-.
  - intros k Hk. rewrite Em, decide_False; [done|]. auto.
  - intros s v m' Hm%Hsub. eauto.
  - intros s v m m' Hm Hm'%Hsub. simplify_eq. auto.
Qed.

Lemma drop_members_rows c db : flat_map rows_of (drop_members c db) =
  RMember <$> (map_to_list (filter (λ kv, c kv.1 kv.2 = true) (members db))).*1.
Proof.
  unfold drop_members. generalize ((map_to_list (filter (λ kv, c kv.1 kv.2 = true) (members db))).*1) as l.
  induction l as [|k l IH]; [done|]. cbn. by f_equal.
Qed.

(** The rows a deletion of members finds. *)
Lemma elem_of_found (c : Z * Z → member_row → bool) (ms : gmap (Z * Z) member_row) k :
  k ∈ (map_to_list (filter (λ kv, c kv.1 kv.2 = true) ms)).*1 ↔ ∃ m, ms !! k = Some m ∧ c k m = true.
Proof.
  rewrite list_elem_of_fmap. split.
  - intros ([k' m] & -> & Hm). apply elem_of_map_to_list, map_lookup_filter_Some in Hm. eauto.
  - intros (m & Hm & Hc). exists (k, m). split; [done|]. by apply elem_of_map_to_list, map_lookup_filter_Some.
Qed.

Lemma wp_DeleteSpace del db : no_orphans db → wp (DeleteSpace del) (λ _, commits) [] [] db.
Proof.
  intros Hi. unfold DeleteSpace, requirePostgresSpaceDeleteAdmin, getPostgresSpaceMember, listPostgresSpaceDeleteMemoIDs.
  set (s := ds_id del). apply wp_bind. reads. intros [st|] db1 _ Hi1; [|done]. apply wp_bind, wp_unless. intros _.
  apply wp_bind, wp_lock_space. intros db2 _ Hi2 _. reads. intros [m|] db3 _ Hi3; [|done].
  apply wp_unless. intros _. reads. intros ids db4 _ Hi4.
  apply wp_bind, wp_quietly; [quiet|done|]. intros ats fs db5 Hfs _ Hi5.
  apply wp_bind. intros db6 Hr6 Hi6. cbn [fst snd]. rewrite drop_members_rows.
  destruct (apply_harmless fs db6 Hfs) as (_ & _ & Em). unfold drop_members. rewrite Em.
  set (ks := (map_to_list (filter _ (members db6))).*1).
  apply wp_bind. intros db7 Hr7 Hi7. destruct (spaces _ !! s); [|done]. cbn [fst snd flat_map rows_of app].
  apply wp_bind, wp_unless. intros _.
  replace (((Elsewhere <$> fs) ++ (DropMember <$> ks)) ++ [DropSpace s]) with (deletion fs ks [] ++ [DropSpace s]).
  2: { unfold deletion. cbn. by rewrite app_nil_r. }
  apply commits_drop_space; [done|by left| |].
  - intros k Hk. right. apply elem_of_app. left. by apply list_elem_of_fmap_2.
  - intros u [m' Hm']. destruct (un_members_space _ _ _ Hr7 s u m') as [m0 Hm0]; [set_solver|done|].
    apply (elem_of_found (λ k _, (k.1 =? s)%Z)). exists m0. split; [done|]. cbn. apply Z.eqb_refl.
Qed.

Lemma wp_CreateUser create now db : no_orphans db → wp (CreateUser create now) (λ _, commits) [] [] db.
Proof.
  intros Hi. unfold CreateUser. apply wp_bind. intros db1 _ Hi1. apply wp_bind, wp_change. intros db2 _ Hi2.
  case_bool_decide; [done|]. cbn. apply commits_put_user. by left.
Qed.

Lemma wp_UpdateUser update db : no_orphans db → wp (UpdateUser update) (λ _, commits) [] [] db.
Proof.
  intros Hi. unfold UpdateUser, validatePostgresUserArchive. reads. intros _ db1 _ Hi1. reads. intros _ db2 _ Hi2.
  apply wp_bind, wp_change. intros db3 _ Hi3. destruct (users db3 !! Driver.uu_id update); [|done].
  cbn zeta. case_bool_decide; [done|]. cbn. apply commits_put_user. by left.
Qed.

(** In the deletion of a user who is locked and whose memberships are dropped. *)
Definition all_dropped (u : Z) (ks : list (Z * Z)) (db : DB) : Prop := ∀ s, is_Some (members db !! (s, u)) → (s, u) ∈ ks.

Lemma all_dropped_undisturbed u ks held db db' :
  RUser u ∈ held → undisturbed held db db' → all_dropped u ks db → all_dropped u ks db'.
Proof. intros Hu Hr Hall s [m Hm]. destruct (un_members_user _ _ _ Hr s u m Hu Hm) as (m0 & ? & _). eauto. Qed.

Lemma wp_more {A} (p : Prog A) Q u ks fs held db :
  quiet harmless p → no_orphans db → RUser u ∈ held → Forall harmless fs → all_dropped u ks db →
  (∀ a fs' db', Forall harmless fs' → no_orphans db' → all_dropped u ks db' → Q a (deletion [] ks fs') held db') →
  wp p Q (deletion [] ks fs) held db.
Proof.
  intros Hp Hi Hu Hfs Hall HQ.
  apply (Statements.wp_quiet no_orphans undisturbed undisturbed_refl undisturbed_trans harmless); [done..|].
  intros a fs' db' Hf Hr Hi'.
  replace (deletion [] ks fs ++ (Elsewhere <$> fs')) with (deletion [] ks (fs ++ fs')).
  2: { unfold deletion. cbn. by rewrite fmap_app, (assoc_L (++)). }
  apply HQ; [by apply Forall_app|done|]. by eapply all_dropped_undisturbed.
Qed.

Lemma wp_deleteUserTargetsTx u targets ks fs held db :
  no_orphans db → RUser u ∈ held → Forall harmless fs → all_dropped u ks db → (∀ k, k ∈ ks → RMember k ∈ held) →
  wp (deleteUserTargetsTx u targets) (λ _, commits) (deletion [] ks fs) held db.
Proof.
  intros Hi Hu Hfs Hall Hks.
  unfold deleteUserTargetsTx, deleteMemosTx, deleteReactionsByMemoIDsTx, deleteAttachmentsByIDsTx, deleteReactionsByCreatorTx,
    deleteMemoSharesTx, deleteInboxesByIDsTx, deleteUserIdentitiesTx, deleteUserSettingsTx, deleteMemoRelationsTx.
  do 9 (apply wp_bind, (wp_more _ _ u); [quiet|done..|]; clear dependent fs; clear dependent db; intros _ fs db Hfs Hi Hall).
  intros db' Hr Hi'. cbn [fst snd flat_map rows_of app]. eapply commits_drop_user; [constructor|done|by left| |].
  - intros k Hk. right. auto.
  - by eapply all_dropped_undisturbed.
Qed.

Lemma wp_DeleteUser u failpoint db : no_orphans db → wp (DeleteUser u failpoint) (λ _, commits) [] [] db.
Proof.
  intros Hi. unfold DeleteUser. apply wp_bind. intros db1 _ Hi1. cbn [apply_all fold_left].
  destruct (users db1 !! u); [|apply commits_none]. cbn [app].
  apply wp_bind. intros db2 _ Hi2. cbn [apply_all fold_left]. apply wp_bind, wp_unless. intros Hnone%Nat.eqb_eq.
  apply wp_bind, wp_change. intros db3 Hr3 Hi3. cbn [fst snd]. rewrite drop_members_rows. unfold drop_members.
  set (ks := (map_to_list (filter _ (members db3))).*1). set (held := (RMember <$> ks) ++ _).
  assert (RUser u ∈ held) as Hu by (apply elem_of_app; right; by left).
  assert (all_dropped u ks db3) as Hall.
  { intros s [m Hm]. destruct (un_members_user _ _ _ Hr3 s u m) as (m0 & Hm0 & Hinv); [by left|done|].
    refine (proj2 (elem_of_found (λ k m, bool_decide (k.2 = u ∧ mb_status m = SpaceMemberStatusInvited)) (members db3) (s, u)) _).
    exists m. split; [done|].
    apply bool_decide_eq_true. split; [done|]. apply Hinv.
    destruct (decide (mb_status m0 = SpaceMemberStatusInvited)) as [|Hne]; [done|].
    apply map_size_empty_inv in Hnone. exfalso.
    assert (filter (λ kv, kv.1.2 = u ∧ mb_status kv.2 ≠ SpaceMemberStatusInvited) (members db2) !! (s, u) = Some m0) as Hf
      by (by apply map_lookup_filter_Some).
    by rewrite Hnone in Hf. }
  assert (∀ k, k ∈ ks → RMember k ∈ held) as Hks by (intros k Hk; apply elem_of_app; left; by apply list_elem_of_fmap_2).
  replace (DropMember <$> ks) with (deletion [] ks []) by (unfold deletion; cbn; apply app_nil_r).
  apply wp_bind, (wp_more _ _ u); [quiet|done..|]. intros targets fs db4 Hfs Hi4 Hall4.
  apply wp_bind, wp_wrapped. eapply wp_mono; [by apply wp_deleteUserTargetsTx|]. intros ? ws held2 db5 Hc.
  apply wp_bind, wp_unless. by intros _.
Qed.

(** ** Every interleaving *)

Lemma wp_perform o db : no_orphans db → wp (perform o) (λ _, commits) [] [] db.
Proof.
  intros Hi. destruct o; cbn [perform]; apply wp_bind.
  all: first [ by apply wp_CreateSpace | by apply wp_UpdateSpace | by apply wp_DeleteSpace
             | by apply wp_CreateSpaceInvitation | by apply wp_AcceptSpaceInvitation | by apply wp_DeclineSpaceInvitation
             | by apply wp_RevokeSpaceInvitation | by apply wp_UpdateSpaceMember | by apply wp_DeleteSpaceMember
             | by apply wp_CreateUser | by apply wp_UpdateUser | by apply wp_DeleteUser ].
Qed.

(** C10. On PostgreSQL, creation and deletion leave no orphan.  However the statements
    of any number of transactions of the driver - spaces made, changed and deleted,
    invitations, acceptances and refusals, role changes and departures, users made,
    changed, archived and deleted - are interleaved at READ COMMITTED, whatever the
    locks make wait, in every database that is committed on the way each membership
    and invitation has its space and its user. *)
Theorem postgres_leaves_no_orphans ops schedule db db' ts :
  no_orphans db →
  interleave schedule (db, begin <$> (perform <$> ops)) = Some (db', ts) →
  no_orphans db'.
Proof.
  intros Hi Hs.
  apply (interleave_safe no_orphans undisturbed undisturbed_refl undisturbed_trans
    (λ q held, draw_undisturbed q held)) in Hs; [by apply cs_inv in Hs|].
  apply begin_safe; [done|]. intros p Hp. apply list_elem_of_fmap in Hp as (o & -> & _). by apply wp_perform.
Qed.

(** Carol is invited while she is deleted: the deletion waits for the invitation's
    lock, and finds the invitation. *)
Definition invited_and_deleted : list space_op :=
  [OpInvite (mkSpaceMember 1 3 SpaceMemberRoleUser) 1; OpDeleteUser 3 false].

Lemma no_orphans_two_admins : no_orphans two_admins_db.
Proof.
  assert (map_Forall (λ k _, is_Some (spaces two_admins_db !! k.1) ∧ is_Some (users two_admins_db !! k.2)) (members two_admins_db)) as H
    by (refine (bool_decide_eq_true_1 _ _); by vm_compute).
  intros s u m Hm. exact (H (s, u) m Hm).
Qed.

Lemma postgres_leaves_no_orphans_witness :
  interleave [0; 0; 0; 0; 1]%nat (two_admins_db, begin <$> (perform <$> invited_and_deleted)) = None ∧
  ∃ db' ts, interleave (replicate 6 0 ++ replicate 13 1)%nat (two_admins_db, begin <$> (perform <$> invited_and_deleted)) =
    Some (db', ts) ∧ no_orphans db'.
Proof.
  split; [by vm_compute|].
  destruct (interleave (replicate 6 0 ++ replicate 13 1)%nat (two_admins_db, begin <$> (perform <$> invited_and_deleted)))
    as [[db' ts]|] eqn:E; [|by vm_compute in E].
  exists db', ts. split; [done|]. exact (postgres_leaves_no_orphans _ _ _ _ _ no_orphans_two_admins E).
Defined.
