(* ===== verification/PostgresRace.v ===== *)
(** * The last administrators of a space on PostgreSQL

    The driver counts the active administrators of a space without a lock and
    removes or demotes one afterwards.  At READ COMMITTED two administrators who
    leave at the same time both count two. *)
From S2P Require Import Prelude GoLib Store SpaceStore SpaceStoreFacts SpaceSafety Statements PostgresSpace.
Import Postgres.

(** The change that ends a departure, and the commit after it. *)
Definition departs (s u : Z) : Prog unit :=
  Change (λ db, (tt, match active_row (s, u) db with Some _ => [DropMember (s, u)] | None => [] end)) (λ _, Finish (Ok tt)).

(** [n] statements that only read. *)
Fixpoint read_on {A} (n : nat) (p : Prog A) (db : DB) : Prog A :=
  match n, p with
  | S n, Select _ q k => read_on n (k (q db)) db
  | _, _ => p
  end.

Lemma admin_facts db s u : space_admin db s u →
  user_status db u = Some Normal ∧ ∃ m, members db !! (s, u) = Some m ∧
    active_row (s, u) db = Some m ∧ is_admin (mb_role m) = true.
Proof.
  intros (m & Hm & Hs & Hr & Hu)%space_admin_spec. split; [exact Hu|]. exists m. unfold active_row. rewrite Hm. cbn.
  rewrite bool_decide_true by done. unfold is_admin. rewrite Hr. by rewrite String.eqb_refl.
Qed.

(** The four readings of a departure: it goes on if another administrator counts. *)
Lemma departure_reads db s u : is_Some (spaces db !! s) → space_admin db s u →
  read_on 4 (perform (OpDeleteMember s u u)) db =
    (if (count_members db s is_admin <=? 1)%nat then raise ErrLastSpaceAdmin else departs s u).
Proof.
  intros [row Hs] Hu. destruct (admin_facts db s u Hu) as (Hst & m & Hm & Ha & Hr).
  unfold perform, DeleteSpaceMember, getPostgresSpaceMember, admin_count. cbv [mbind prog_bind mret prog_ret fetch].
  cbn [readPostgresUserStatuses]. rewrite lookup_empty. cbv [mbind prog_bind fetch]. cbn [read_on]. rewrite Hst.
  cbn [readPostgresUserStatuses]. rewrite lookup_insert_eq. cbv [mret prog_ret].
  rewrite Z.eqb_refl. cbn [negb andb]. rewrite Hs, Ha, Hr.
  assert (is_normal (<[u:=Normal]> ∅) u = true) as ->
    by (unfold is_normal; rewrite lookup_insert_eq; by apply bool_decide_eq_true).
  cbn. by destruct (count_members db s is_admin <=? 1)%nat.
Qed.

Lemma departs_two db s u v : is_Some (spaces db !! s) → u ≠ v → space_admin db s u → space_admin db s v →
  read_on 4 (perform (OpDeleteMember s u u)) db = departs s u.
Proof.
  intros Hs Hne Hu Hv. rewrite departure_reads by done.
  pose proof (count_admins_two db s u v (not_eq_sym Hne) Hu Hv). by rewrite (proj2 (Nat.leb_gt _ _)) by lia.
Qed.

(** Readings without a lock run through, alone and among others. *)
Fixpoint reads {A} (n : nat) (p : Prog A) (db : DB) : Prop :=
  match n, p with
  | S n, Select locks q k => locks db = [] ∧ reads n (k (q db)) db
  | S _, _ => False
  | 0%nat, _ => True
  end.

Lemma interleave_reads n i p db ts : reads n p db → ts !! i = Some (begin p) →
  interleave (replicate n i) (db, ts) = Some (db, <[i := begin (read_on n p db)]> ts).
Proof.
  revert p ts. induction n as [|n IH]; intros p ts; cbn [reads replicate read_on interleave].
  { intros _ Hi. by rewrite list_insert_id by done. }
  destruct p as [|X locks q k| |]; try done. intros [Hl Hr] Hi. unfold advance. rewrite Hi. cbn [begin apply_all fold_left].
  rewrite Hl. cbn. rewrite (IH (k (q db))); [|done|].
  - by rewrite list_insert_insert_eq.
  - rewrite list_lookup_insert_eq; [done|]. by eapply lookup_lt_Some.
Qed.

Lemma alone_reads {A} n (p : Prog A) start db : alone_from p start db = alone_from (read_on n p db) start db.
Proof. revert p. induction n as [|n IH]; intros p; [by destruct p|]. destruct p; cbn; done. Qed.

Lemma departure_only_reads db s u : is_Some (spaces db !! s) → space_admin db s u →
  reads 4 (perform (OpDeleteMember s u u)) db.
Proof.
  intros [row Hs] Hu. destruct (admin_facts db s u Hu) as (Hst & m & Hm & Ha & Hr).
  unfold perform, DeleteSpaceMember, getPostgresSpaceMember, admin_count. cbv [mbind prog_bind mret prog_ret fetch].
  cbn [readPostgresUserStatuses]. rewrite lookup_empty. cbv [mbind prog_bind fetch]. cbn [reads]. rewrite Hst.
  cbn [readPostgresUserStatuses]. rewrite lookup_insert_eq. cbv [mret prog_ret].
  rewrite Z.eqb_refl. cbn [negb andb]. rewrite Hs, Ha, Hr.
  assert (is_normal (<[u:=Normal]> ∅) u = true) as ->
    by (unfold is_normal; rewrite lookup_insert_eq; by apply bool_decide_eq_true).
  by cbn.
Qed.

Lemma interleave_app l1 l2 c : interleave (l1 ++ l2) c = (interleave l1 c ≫= interleave l2).
Proof. revert c. induction l1 as [|i l1 IH]; intros c; [done|]. cbn. destruct (advance i c); [apply IH|done]. Qed.

Definition without (s u : Z) (db : DB) : DB := set_members (delete (s, u)) db.

Lemma space_admin_without db s u t w : space_admin (without s u db) t w → space_admin db t w ∧ (t, w) ≠ (s, u).
Proof.
  intros (m & Hm & ?)%space_admin_spec. cbn in Hm. apply lookup_delete_Some in Hm as [Hne Hm].
  split; [|done]. apply space_admin_spec. eauto.
Qed.

Lemma free_nothing ts i rows : Forall (λ t, held_by t = []) ts → free ts i rows = true.
Proof.
  intros Hts. unfold free. apply forallb_forall. intros r _. apply forallb_forall. intros t Ht%list_elem_of_In.
  assert (t ∈ ts) as Hin.
  { rewrite <- (take_drop i ts). apply elem_of_app in Ht as [?|Ht]; apply elem_of_app; [by left|right].
    rewrite <- Nat.add_1_r, <- drop_drop in Ht. by eapply subseteq_drop. }
  rewrite Forall_forall in Hts. by rewrite (Hts t Hin).
Qed.

(** A departure that has read changes and commits. *)
Lemma departs_step i db ts s u m : active_row (s, u) db = Some m → Forall (λ t, held_by t = []) ts →
  ts !! i = Some (begin (departs s u)) →
  interleave [i; i] (db, ts) = Some (without s u db, <[i := Ended (Ok tt)]> ts).
Proof.
  intros Hm Hts Hi.
  assert (advance i (db, ts) = Some (db, <[i := Running (Finish (Ok tt)) [DropMember (s, u)] [RMember (s, u)]]> ts)) as E.
  { unfold advance. rewrite Hi. cbn [begin departs apply_all fold_left]. rewrite Hm. by rewrite free_nothing. }
  cbn [interleave]. rewrite E. cbn [mbind option_bind]. unfold advance.
  rewrite list_lookup_insert_eq by (by eapply lookup_lt_Some). cbn. by rewrite list_insert_insert_eq.
Qed.

(** Both have read, one changes and commits, then the other. *)
Lemma two_depart db s u v mu mv : u ≠ v → active_row (s, u) db = Some mu → active_row (s, v) db = Some mv →
  interleave [0; 0; 1; 1]%nat (db, [begin (departs s u); begin (departs s v)]) =
    Some (without s v (without s u db), [Ended (Ok tt); Ended (Ok tt)]).
Proof.
  intros Hne Hu Hv. change [0; 0; 1; 1]%nat with ([0; 0] ++ [1; 1])%nat. rewrite interleave_app.
  rewrite (departs_step 0 db _ s u mu) by (repeat constructor; done). cbn [mbind option_bind].
  rewrite (departs_step 1 _ _ s v mv); [done| |repeat constructor; done|done].
  unfold active_row in *. cbn. rewrite lookup_delete_ne; [done|]. by intros [= ?].
Qed.

(** C12. The last administrators of a space can leave it together on PostgreSQL.
    Whenever a space has exactly two active administrators, the statements of their
    departures can be interleaved so that both succeed, and the space is left
    without any: the count that protects the last administrator takes no lock.  One
    after the other, the second is refused. *)
Theorem postgres_last_admins_may_leave db s u v :
  is_Some (spaces db !! s) → u ≠ v → space_admin db s u → space_admin db s v →
  (∀ w, space_admin db s w → w = u ∨ w = v) →
  (∃ schedule db',
     interleave schedule (db, begin <$> (perform <$> [OpDeleteMember s u u; OpDeleteMember s v v])) =
       Some (db', [Ended (Ok tt); Ended (Ok tt)]) ∧
     is_Some (spaces db' !! s) ∧ ∀ w, ¬ space_admin db' s w) ∧
  ∃ db1, alone (perform (OpDeleteMember s u u)) db = (Ok tt, db1) ∧
    alone (perform (OpDeleteMember s v v)) db1 = (Err ErrLastSpaceAdmin, db1).
Proof.
  intros Hs Hne Hu Hv Honly.
  destruct (admin_facts db s u Hu) as (_ & mu & _ & Hmu & _), (admin_facts db s v Hv) as (_ & mv & _ & Hmv & _).
  split.
  - exists (replicate 4 0%nat ++ replicate 4 1%nat ++ [0; 0; 1; 1]%nat), (without s v (without s u db)). split_and!.
    + rewrite interleave_app, (interleave_reads 4 0 (perform (OpDeleteMember s u u))); [|by apply departure_only_reads|done].
      cbn [mbind option_bind]. rewrite interleave_app, (interleave_reads 4 1 (perform (OpDeleteMember s v v)));
        [|by apply departure_only_reads|done].
      cbn [mbind option_bind]. rewrite (departs_two db s u v), (departs_two db s v u) by done. by eapply two_depart.
    + done.
    + intros w [[Hw Hn2]%space_admin_without Hn1]%space_admin_without. by destruct (Honly w Hw); subst.
  - exists (without s u db). unfold alone. split.
    + rewrite (alone_reads 4), (departs_two db s u v) by done. cbn. by rewrite Hmu.
    + assert (space_admin (without s u db) s v) as Hv'.
      { apply space_admin_spec in Hv as (m & Hm & ?). apply space_admin_spec. exists m. split; [|done].
        cbn. rewrite lookup_delete_ne; [done|]. by intros [= ?]. }
      rewrite (alone_reads 4), departure_reads by done.
      assert ((1 <? count_members (without s u db) s is_admin)%nat = false) as Hc%Nat.ltb_ge.
      { apply (last_admin_count _ _ v Hv'). intros w [Hw Hn]%space_admin_without. by destruct (Honly w Hw); subst. }
      by rewrite (proj2 (Nat.leb_le _ _)).
Qed.

Lemma postgres_last_admins_may_leave_witness : ∃ schedule db',
  interleave schedule (two_admins_db, begin <$> (perform <$> [OpDeleteMember 1 1 1; OpDeleteMember 1 2 2])) =
    Some (db', [Ended (Ok tt); Ended (Ok tt)]) ∧ ∀ w, ¬ space_admin db' 1 w.
Proof.
  destruct (postgres_last_admins_may_leave two_admins_db 1 1 2) as [(schedule & db' & H1 & _ & H2) _].
  - by eexists.
  - done.
  - by vm_compute.
  - by vm_compute.
  - intros w (m & Hm & _)%space_admin_spec. cbn in Hm. apply lookup_insert_Some in Hm as [[E _]|[_ Hm]].
    + left. congruence.
    + apply lookup_singleton_Some in Hm as [E _]. right. congruence.
  - by exists schedule, db'.
Defined.
