(* ===== verification/PostgresAgrees.v ===== *)
(** * The two drivers compared

    A transaction of the PostgreSQL driver that runs alone does what the
    transaction of the SQLite driver does, but for three kinds of requests
    ([differs]): two that the drivers refuse with different errors, and a change
    of a user to a status that only SQLite refuses.  The statements differ in
    order and number; they are compared step by step where they correspond. *)
From S2P Require Import Prelude GoLib Store SpaceStore SpaceStoreFacts SpaceSafety Statements PostgresSpace PostgresOrphans.

(** ** Running alone *)

(** The statements of a transaction, without its end. *)
Fixpoint play {A} (p : Prog A) (db : DB) : result error A * DB :=
  match p with
  | Finish r => (r, db)
  | Select _ q k => play (k (q db)) db
  | Change stmt k => play (k (stmt db).1) (apply_all (stmt db).2 db)
  | Draw q k => play (k (seq_value q db)) (seq_next q db)
  end.

Lemma alone_play {A} (p : Prog A) start db :
  alone_from p start db =
  match play p db with (Ok a, d) => (Ok a, d) | (Err e, d) => (Err e, with_sequences d start) end.
Proof.
  revert db. induction p as [[a|e]|X locks q k IH|X stmt k IH|q k IH]; intros db; cbn; auto.
  rewrite <- IH. by destruct (stmt db).
Qed.

Lemma play_bind {A B} (p : Prog A) (f : A → Prog B) db :
  play (p ≫= f) db = match play p db with (Ok a, d) => play (f a) d | (Err e, d) => (Err e, d) end.
Proof.
  revert db. induction p as [[a|e]|X locks q k IH|X stmt k IH|q k IH]; intros db; [done|done|..].
  all: apply IH.
Qed.

Lemma play_wrapped {A} msg (p : Prog A) db : play (wrapped msg p) db = (wrap_err msg (play p db).1, (play p db).2).
Proof. revert db. induction p as [r|X locks q k IH|X stmt k IH|q k IH]; intros db; [done|..]. all: apply IH. Qed.

(** [p] ends as [m] does: with the same error, or in the same database. *)
Definition agrees {A B} (p : Prog A) (m : Tx B) (db : DB) : Prop :=
  match m db with
  | Ok (_, d) => ∃ a, play p db = (Ok a, d)
  | Err e => ∃ d, play p db = (Err e, d)
  end.

(** The SQLite side, statement by statement. *)
Lemma run_bind {A B} (m : Tx A) (f : A → Tx B) db :
  (m ≫= f) db = match m db with Ok (a, d) => f a d | Err e => Err e end.
Proof. cbv [mbind SE_bind]. by destruct (m db) as [[]|]. Qed.
Lemma run_query {A} (q : DB → A) db : query q db = Ok (q db, db).
Proof. done. Qed.
Lemma run_exec f db : exec f db = Ok (tt, f db).
Proof. done. Qed.
Lemma run_ret {A} (a : A) db : (mret a : Tx A) db = Ok (a, db).
Proof. done. Qed.
Lemma run_err {A} e db : (se_err e : Tx A) db = Err e.
Proof. done. Qed.
Lemma run_require b e db : require b e db = if b then Ok (tt, db) else Err e.
Proof. by destruct b. Qed.
Lemma play_unless b e db : play (unless b e) db = (if b then Ok tt else Err e, db).
Proof. by destruct b. Qed.

(** Compute both. *)
Ltac go :=
  repeat first
    [progress (rewrite ?play_bind, ?play_wrapped, ?play_unless, ?run_bind, ?run_query, ?run_exec, ?run_ret, ?run_err, ?run_require)
    |progress cbn [play fetch fetch_for_update change draw elsewhere raise mret prog_ret fst snd negb andb]
    |progress cbv beta iota].
Ltac ends := solve [cbv beta iota; eauto | cbn; eauto | go; eauto].

(** ** Guards and single statements *)

Module Agreement.
Import Postgres.

Lemma active_user_bool u db :
  bool_decide (active_user db u) = match user_status db u with Some st => String.eqb st Normal | None => false end.
Proof.
  case_bool_decide as Hu; unfold active_user in Hu; destruct (user_status db u) as [st|]; try done.
  - by simplify_eq.
  - symmetry. apply String.eqb_neq. congruence.
Qed.

#[local] Instance space_admin_dec db s u : Decision (space_admin db s u).
Proof. unfold space_admin. apply _. Defined.

Lemma space_admin_bool s u db :
  bool_decide (space_admin db s u) = match active_member_role db s u with Some r => is_admin r | None => false end.
Proof.
  case_bool_decide as Hu; unfold space_admin in Hu; destruct (active_member_role db s u) as [r|]; try done.
  - by simplify_eq.
  - symmetry. apply String.eqb_neq. congruence.
Qed.

Lemma space_admin_active db s u : space_admin db s u → active_user db u.
Proof.
  unfold space_admin, active_member_role. destruct (members db !! (s, u)); [|done]. cbn.
  case_decide; [tauto|done].
Qed.

Lemma play_lock_user u db :
  play (lockPostgresActiveUser u) db =
  (if bool_decide (active_user db u) then Ok tt else Err ErrSpaceMemberNotActive, db).
Proof.
  rewrite active_user_bool. unfold lockPostgresActiveUser. go. destruct (user_status db u) as [st|]; [|done].
  unfold unless. by destruct (String.eqb st Normal).
Qed.

Lemma play_lock_space s db :
  play (lockPostgresSpace s) db = (if space_exists db s then Ok tt else Err ErrSpaceNotFound, db).
Proof. unfold lockPostgresSpace, space_exists. go. by destruct (spaces db !! s). Qed.

Lemma play_authorize s u db :
  play (authorizePostgresSpaceAdmin s u) db =
  (if space_exists db s then
     if bool_decide (space_admin db s u) then Ok tt else Err ErrSpacePermissionDenied
   else Err ErrSpaceNotFound, db).
Proof.
  rewrite space_admin_bool. unfold authorizePostgresSpaceAdmin, space_exists. go. destruct (spaces db !! s); [|done]. go.
  destruct (active_member_role db s u) as [r|]; [|done]. unfold unless. by destruct (is_admin r).
Qed.

Lemma run_require_active u db :
  Driver.requireActiveUser u db = if bool_decide (active_user db u) then Ok (tt, db) else Err ErrSpaceMemberNotActive.
Proof.
  rewrite active_user_bool. unfold Driver.requireActiveUser. cbv [mbind SE_bind query].
  destruct (user_status db u) as [st|]; [|done]. unfold require. by destruct (String.eqb st Normal).
Qed.

Lemma run_authorize s u db :
  Driver.authorizeSpaceAdmin s u db =
  if space_exists db s then if bool_decide (space_admin db s u) then Ok (tt, db) else Err ErrSpacePermissionDenied
  else Err ErrSpaceNotFound.
Proof.
  rewrite space_admin_bool. unfold Driver.authorizeSpaceAdmin. cbv [mbind SE_bind query].
  destruct (space_exists db s); [|done]. cbn.
  destruct (active_member_role db s u) as [r|]; [|done]. unfold require. by destruct (is_admin r).
Qed.

(** The statuses of two users, or of one. *)
Lemma play_statuses u v db : ∃ statuses, play (readPostgresUserStatuses ∅ [u; v]) db = (Ok statuses, db) ∧
  statuses !! u = user_status db u ∧ statuses !! v = user_status db v.
Proof.
  cbn [readPostgresUserStatuses]. rewrite lookup_empty. go. destruct (decide (u = v)) as [->|Hne].
  - destruct (user_status db v) as [st|] eqn:Ev; rewrite ?lookup_insert_eq, ?lookup_empty; go; rewrite ?Ev.
    all: eexists; split; [done|]; by rewrite ?lookup_insert_eq, ?lookup_empty.
  - destruct (user_status db u) as [st|] eqn:Eu; rewrite ?lookup_insert_ne, ?lookup_empty by done; go;
      destruct (user_status db v) as [st'|] eqn:Ev.
    all: eexists; split; [done|].
    all: by rewrite ?lookup_insert_eq, ?(lookup_insert_ne _ v u), ?(lookup_insert_ne _ u v), ?lookup_insert_eq, ?lookup_empty by done.
Qed.

Lemma play_require_user u db :
  play (requirePostgresActiveUser u) db =
  (if bool_decide (active_user db u) then Ok tt else Err ErrSpaceMemberNotActive, db).
Proof.
  rewrite active_user_bool. unfold requirePostgresActiveUser, requirePostgresActiveUsers. cbn [readPostgresUserStatuses].
  rewrite lookup_empty. go. destruct (user_status db u) as [st|]; unfold is_normal; cbn; rewrite ?lookup_insert_eq, ?lookup_empty.
  - unfold unless. rewrite andb_true_r. destruct (String.eqb_spec st Normal) as [->|Hn]; [done|].
    by rewrite bool_decide_false by congruence.
  - done.
Qed.

(** The rows of a membership. *)
Lemma play_member s u db : play (getPostgresSpaceMember s u) db = (Ok (active_row (s, u) db), db).
Proof. done. Qed.

Lemma play_insert_member s u m e db :
  play (insert_member (s, u) m e) db =
  match members db !! (s, u) with
  | Some _ => (Err e, db)
  | None => if IsActiveMember (mb_role m) then (Ok tt, set_members <[(s, u) := m]> db) else (Err ErrCheck, db)
  end.
Proof. unfold insert_member. go. destruct (members db !! (s, u)); [done|]. by destruct (IsActiveMember (mb_role m)). Qed.

Lemma run_insert_member s u m e db :
  Driver.insert_member s u m e db =
  match members db !! (s, u) with
  | Some _ => Err e
  | None => if IsActiveMember (mb_role m) then Ok (tt, set_members <[(s, u) := m]> db) else Err ErrCheck
  end.
Proof.
  unfold Driver.insert_member. cbv [mbind SE_bind query]. destruct (members db !! (s, u)); [done|].
  unfold require. by destruct (IsActiveMember (mb_role m)).
Qed.

(** ** The requests on spaces and memberships *)

Lemma agrees_CreateSpace create creator db : no_orphans db → ids_fresh db →
  agrees (CreateSpace create creator) (Driver.CreateSpace create creator) db.
Proof.
  intros Hn [_ Hf]. unfold agrees, Driver.CreateSpace, CreateSpace. go. rewrite run_require_active. go.
  rewrite play_lock_user. case_bool_decide; [|ends]. go.
  replace (Driver.uid_taken (seq_next SeqSpace db) (sp_uid create)) with (Driver.uid_taken db (sp_uid create)) by done.
  destruct (Driver.uid_taken db (sp_uid create)); [ends|]. go. rewrite run_insert_member, play_insert_member. cbn.
  assert (members db !! (next_space db, creator) = None) as ->.
  { destruct (members db !! (next_space db, creator)) eqn:Em; [|done].
    destruct (Hn _ _ _ Em) as [Hs%Hf _]. lia. }
  cbn. eauto.
Qed.

Lemma agrees_UpdateSpace update actor db : active_user db actor →
  agrees (UpdateSpace update actor) (Driver.UpdateSpace update actor) db.
Proof.
  intros Ha. unfold agrees, Driver.UpdateSpace, UpdateSpace. go. rewrite run_authorize. go.
  change (requirePostgresActiveUsers [actor]) with (requirePostgresActiveUser actor).
  rewrite play_require_user, (bool_decide_true (active_user db actor)) by done. go. rewrite play_authorize.
  destruct (space_exists db (us_id update)) eqn:Es; [|ends]. case_bool_decide as Had; [|ends]. go.
  destruct (us_title update) as [t|], (us_desc update) as [t'|]; [..|ends]; go.
  all: destruct (spaces db !! us_id update) as [row|] eqn:Er; go; [|eauto].
  all: unfold Driver.populateSpaceSummary, populatePostgresSpaceSummary; go.
  all: unfold apply_all; cbn [fold_left apply_write].
  all: change (Driver.space_summary (set_spaces ?f db)) with (Driver.space_summary db).
  all: unfold Driver.space_summary; rewrite Had; cbn; eauto.
Qed.

(** An inactive actor learns that first on PostgreSQL. *)
Lemma differ_UpdateSpace update actor db : ¬ active_user db actor →
  play (UpdateSpace update actor) db = (Err ErrSpaceMemberNotActive, db) ∧
  Driver.UpdateSpace update actor db =
    Err (if space_exists db (us_id update) then ErrSpacePermissionDenied else ErrSpaceNotFound).
Proof.
  intros Ha. unfold Driver.UpdateSpace, UpdateSpace. go. rewrite run_authorize. go.
  change (requirePostgresActiveUsers [actor]) with (requirePostgresActiveUser actor).
  rewrite play_require_user, (bool_decide_false (active_user db actor)) by done. split; [done|].
  destruct (space_exists db (us_id update)); [|done].
  rewrite bool_decide_false; [done|]. intros Hadm. by apply Ha, (space_admin_active _ _ _ Hadm).
Qed.

Lemma agrees_CreateSpaceInvitation create actor db :
  agrees (CreateSpaceInvitation create actor) (Driver.CreateSpaceInvitation create actor) db.
Proof.
  unfold agrees, Driver.CreateSpaceInvitation, CreateSpaceInvitation. go. rewrite run_authorize. go. rewrite play_authorize.
  destruct (space_exists db (sm_space create)) eqn:Es; [|ends]. case_bool_decide; [|ends]. go.
  rewrite play_lock_space, Es. go. rewrite run_require_active, play_lock_user. case_bool_decide; [|ends]. go.
  rewrite run_insert_member, play_insert_member. destruct (members db !! _); [ends|]. destruct (IsActiveMember _); cbn; eauto.
Qed.

Lemma agrees_AcceptSpaceInvitation s u actor db :
  agrees (AcceptSpaceInvitation s u actor) (Driver.AcceptSpaceInvitation s u actor) db.
Proof.
  unfold agrees, Driver.AcceptSpaceInvitation, AcceptSpaceInvitation. destruct (negb _); [ends|]. go.
  rewrite run_require_active. go. rewrite play_lock_user. case_bool_decide; [|ends]. go.
  destruct (members db !! (s, u)) as [m|]; [|ends]. case_decide as Hm.
  - destruct Hm as [Hm Hr]. rewrite (bool_decide_true (mb_status m = _)), Hr by done. ends.
  - destruct (bool_decide_reflect (mb_status m = SpaceMemberStatusInvited)), (IsActiveMember (mb_role m)); cbn; eauto. naive_solver.
Qed.

Lemma agrees_delete_invitation s u db : agrees (delete_invitation s u) (Driver.delete_invitation s u) db.
Proof.
  unfold agrees, Driver.delete_invitation, delete_invitation. go.
  destruct (members db !! (s, u)) as [m|]; [|ends].
  case_decide as Hm; [rewrite bool_decide_true by done|rewrite bool_decide_false by done]; cbn; eauto.
Qed.

Lemma agrees_DeclineSpaceInvitation s u actor db :
  agrees (DeclineSpaceInvitation s u actor) (Driver.DeclineSpaceInvitation s u actor) db.
Proof.
  unfold Driver.DeclineSpaceInvitation, DeclineSpaceInvitation. destruct (negb _); [ends|].
  unfold agrees. go. rewrite run_require_active. go. rewrite play_require_user.
  case_bool_decide; [apply agrees_delete_invitation|ends].
Qed.

Lemma agrees_RevokeSpaceInvitation s u actor db :
  agrees (RevokeSpaceInvitation s u actor) (Driver.RevokeSpaceInvitation s u actor) db.
Proof.
  unfold agrees, Driver.RevokeSpaceInvitation, RevokeSpaceInvitation. go. rewrite run_authorize. go. rewrite play_authorize.
  destruct (space_exists db s) eqn:Es; [|ends]. case_bool_decide; [|ends]. apply agrees_delete_invitation.
Qed.

(** The membership the SQLite statement reads with its status and compares. *)
Lemma active_row_spec k db :
  active_row k db = match members db !! k with
                    | Some m => if decide (mb_status m = SpaceMemberStatusActive) then Some m else None
                    | None => None
                    end.
Proof.
  unfold active_row. destruct (members db !! k) as [m|]; [|done]. cbn.
  by case_decide; [rewrite bool_decide_true|rewrite bool_decide_false].
Qed.

Lemma play_admin_count s db : play (admin_count s) db = (Ok (count_members db s is_admin), db).
Proof. done. Qed.

Lemma agrees_UpdateSpaceMember s u role actor db :
  agrees (UpdateSpaceMember s u role actor) (Driver.UpdateSpaceMember s u role actor) db.
Proof.
  unfold agrees, Driver.UpdateSpaceMember, UpdateSpaceMember, Driver.admin_count. go. rewrite run_authorize, play_authorize.
  destruct (space_exists db s) eqn:Es; [|ends]. case_bool_decide; [|ends]. go.
  rewrite run_require_active, play_require_user. case_bool_decide; [|ends]. go.
  rewrite play_member. go. rewrite active_row_spec. destruct (members db !! (s, u)) as [m|] eqn:Em; [|ends].
  case_decide as Hm; [|ends]. go.
  assert (Hrow : ∀ db', members db' = members db → active_row (s, u) db' = Some m).
  { intros db' Hdb. unfold active_row. by rewrite Hdb, Em; cbn; rewrite bool_decide_true. }
  destruct role as [r|]; go.
  - destruct (is_admin (mb_role m) && negb (is_admin r)); go; rewrite ?play_admin_count; go.
    + rewrite <- Nat.ltb_antisym. destruct (1 <? _)%nat; [|ends]. go. rewrite Hrow by done. destruct (IsActiveMember r); ends.
    + rewrite Hrow by done. destruct (IsActiveMember r); ends.
  - rewrite andb_false_r. go. ends.
Qed.

(** The administrator, for whom the driver has read that they are active. *)
Lemma active_row_admin s u db : active_user db u →
  match active_row (s, u) db with Some m => is_admin (mb_role m) | None => false end = bool_decide (space_admin db s u).
Proof.
  intros Hu. rewrite space_admin_bool. unfold active_row, active_member_role.
  destruct (members db !! (s, u)) as [m|]; [|done]. cbn. case_bool_decide.
  - by rewrite decide_True.
  - rewrite decide_False; [done|]. tauto.
Qed.

(** The end of [DeleteSpaceMember], for a user who may delete the membership. *)
Definition leave (s u : Z) (normal : bool) : Prog unit :=
  member ← getPostgresSpaceMember s u;
  match member with
  | None => raise ErrSpaceMemberNotFound
  | Some member =>
      _ ← (if is_admin (mb_role member) && normal then
             count ← admin_count s; unless (negb (count <=? 1)%nat) ErrLastSpaceAdmin
           else mret tt);
      change (λ db, (tt, match active_row (s, u) db with Some _ => [DropMember (s, u)] | None => [] end))
  end.
Definition leave_sqlite (s u : Z) : Tx unit :=
  row ← query (λ db, members db !! (s, u));
  match row with
  | Some m =>
      if decide (mb_status m = SpaceMemberStatusActive) then
        target ← query (λ db, user_status db u);
        _ ← (if is_admin (mb_role m) && bool_decide (target = Some Normal) then
               count ← Driver.admin_count s; require (1 <? count)%nat ErrLastSpaceAdmin
             else mret tt);
        exec (set_members (delete (s, u)))
      else se_err ErrSpaceMemberNotFound
  | None => se_err ErrSpaceMemberNotFound
  end.

Lemma agrees_leave s u db : agrees (leave s u (bool_decide (user_status db u = Some Normal))) (leave_sqlite s u) db.
Proof.
  unfold agrees, leave, leave_sqlite, Driver.admin_count. go. rewrite play_member. go. rewrite active_row_spec.
  destruct (members db !! (s, u)) as [m|] eqn:Em; [|ends]. case_decide as Hm; [|ends]. go.
  assert (active_row (s, u) db = Some m) as Hrow.
  { unfold active_row. rewrite Em. cbn. by rewrite bool_decide_true. }
  destruct (is_admin (mb_role m) && _); go; rewrite ?play_admin_count; go; rewrite Hrow; [|ends].
  rewrite <- Nat.ltb_antisym. destruct (1 <? _)%nat; ends.
Qed.

Lemma agrees_DeleteSpaceMember s u actor db : actor = u ∨ active_user db actor →
  agrees (DeleteSpaceMember s u actor) (Driver.DeleteSpaceMember s u actor) db.
Proof.
  intros Ha. unfold agrees, Driver.DeleteSpaceMember, DeleteSpaceMember. go.
  destruct (play_statuses actor u db) as (statuses & Hst & Hactor & Hu). rewrite Hst. go.
  assert (is_normal statuses u = bool_decide (user_status db u = Some Normal)) as ->.
  { unfold is_normal. apply bool_decide_ext. by rewrite Hu. }
  pose proof (agrees_leave s u db) as Hleave. unfold agrees in Hleave.
  destruct (Z.eqb_spec actor u) as [->|Hne]; go.
  - unfold space_exists. destruct (spaces db !! s) eqn:Es; [|ends]. go. exact Hleave.
  - destruct Ha as [?|Ha]; [done|]. assert (is_normal statuses actor = true) as ->.
    { unfold is_normal. rewrite Hactor. by apply bool_decide_eq_true. }
    go. unfold space_exists. destruct (spaces db !! s) eqn:Es; [|ends]. rewrite (bool_decide_true (is_Some _)) by eauto.
    go. rewrite play_member. go. pose proof (active_row_admin s actor db Ha) as Hadm. rewrite space_admin_bool in Hadm.
    destruct (active_row (s, actor) db) as [m|], (active_member_role db s actor) as [r|]; go; rewrite ?Hadm.
    + destruct (is_admin r); [exact Hleave|ends].
    + ends.
    + rewrite <- Hadm. ends.
    + ends.
Qed.

(** An inactive actor is denied before the space is looked up on PostgreSQL. *)
Lemma differ_DeleteSpaceMember s u actor db : actor ≠ u → ¬ active_user db actor →
  play (DeleteSpaceMember s u actor) db = (Err ErrSpacePermissionDenied, db) ∧
  Driver.DeleteSpaceMember s u actor db =
    Err (if space_exists db s then ErrSpacePermissionDenied else ErrSpaceNotFound).
Proof.
  intros Hne Ha. unfold Driver.DeleteSpaceMember, DeleteSpaceMember. go.
  destruct (play_statuses actor u db) as (statuses & -> & Hactor & _). go.
  assert (is_normal statuses actor = false) as ->.
  { unfold is_normal. rewrite Hactor. by apply bool_decide_eq_false. }
  rewrite (proj2 (Z.eqb_neq actor u) Hne). go. split; [done|]. destruct (space_exists db s); [|done]. go.
  destruct (active_member_role db s actor) as [r|] eqn:Er; go; [|done].
  destruct (is_admin r) eqn:Hr; [|done]. exfalso. apply Ha, (space_admin_active db s).
  apply (bool_decide_eq_true_1 _). by rewrite space_admin_bool, Er.
Qed.

(** ** Users *)

Lemma agrees_CreateUser create now db : agrees (CreateUser create now) (Driver.CreateUser create now) db.
Proof.
  unfold agrees, Driver.CreateUser, CreateUser. go. change (users (seq_next SeqUser db)) with (users db).
  destruct (bool_decide (map_Exists _ (users db))); ends.
Qed.

Lemma only_admin_spec u db : no_orphans db →
  only_admin u db = bool_decide (active_user db u) && Driver.would_lose_admin db u.
Proof.
  intros Hn. unfold only_admin, Driver.would_lose_admin. f_equal. apply bool_decide_ext.
  split; intros ([s v] & m & Hm & Hp); exists (s, v), m; destruct_and!; split; [done|tauto|done|].
  split_and!; [done..| |done]. by eapply Hn.
Qed.

(** The archiving check, which asks for the row first on SQLite. *)
Lemma agrees_validate u db : no_orphans db → is_Some (users db !! u) →
  agrees (validatePostgresUserArchive u) (Driver.validateUserArchive u) db.
Proof.
  intros Hn [row Hu]. unfold agrees, Driver.validateUserArchive, validatePostgresUserArchive. go.
  rewrite only_admin_spec, active_user_bool by done. unfold user_status. rewrite Hu. cbn.
  destruct (String.eqb (us_row_status row) Normal); [|ends]. cbn. go. destruct (Driver.would_lose_admin db u); ends.
Qed.

Definition username_taken (update : Driver.UpdateUserReq) (row : User) (db : DB) : bool :=
  bool_decide (map_Exists (λ id v, id ≠ Driver.uu_id update ∧ us_username v = us_username row) (users db)).

Definition known (status : string) : bool := String.eqb status Normal || String.eqb status Archived.

(** Nothing else is wrong with the update, but the status is not one the CHECK of
    SQLite's schema knows. *)
Definition unknown_status (update : Driver.UpdateUserReq) (row : User) (db : DB) : bool :=
  Driver.sets_something update && negb (username_taken update (Driver.updated_user update row) db) &&
  negb (known (us_row_status (Driver.updated_user update row))).

Definition known_status (update : Driver.UpdateUserReq) (db : DB) : Prop :=
  ∀ row, users db !! Driver.uu_id update = Some row → unknown_status update row db = false.

(** What follows the archiving check. *)
Lemma agrees_update_row update db : known_status update db →
  agrees
    (_ ← unless (Driver.sets_something update) ErrSyntax;
     updated ← change (λ db,
       match users db !! Driver.uu_id update with
       | None => (Err ErrNoRows, [])
       | Some row =>
           let row := Driver.updated_user update row in
           if bool_decide (map_Exists (λ id v, id ≠ Driver.uu_id update ∧ us_username v = us_username row) (users db))
           then (Err ErrUnique, []) else (Ok row, [PutUser (Driver.uu_id update) row])
       end);
     Finish updated)
    (_ ← require (Driver.sets_something update) ErrSyntax;
     row ← query (λ db, users db !! Driver.uu_id update);
     match row with
     | None => se_err ErrNoRows
     | Some row =>
         let row' := Driver.updated_user update row in
         taken ← query (λ db, bool_decide (map_Exists (λ id v,
                    id ≠ Driver.uu_id update ∧ us_username v = us_username row') (users db)));
         _ ← require (negb taken) ErrUnique;
         _ ← require (String.eqb (us_row_status row') Normal || String.eqb (us_row_status row') Archived) ErrCheck;
         _ ← exec (set_users <[Driver.uu_id update := row']>);
         mret row'
     end) db.
Proof.
  intros Hk. unfold agrees. go. destruct (Driver.sets_something update) eqn:Es; [|ends]. go.
  destruct (users db !! Driver.uu_id update) as [row|] eqn:Er; [|ends]. go.
  specialize (Hk row Er). unfold unknown_status, username_taken, known in Hk. rewrite Es in Hk. cbn [andb] in Hk.
  destruct (bool_decide (map_Exists _ _)); [ends|]. go. cbn [andb] in Hk.
  apply negb_false_iff in Hk. rewrite Hk. ends.
Qed.

Lemma agrees_UpdateUser update db : no_orphans db → known_status update db →
  agrees (UpdateUser update) (Driver.UpdateUser update) db.
Proof.
  intros Hn Hk. pose proof (agrees_update_row update db Hk) as Hrow. unfold agrees, Driver.UpdateUser, UpdateUser in *.
  rewrite play_bind, run_bind. destruct (Driver.uu_row_status update) as [st|] eqn:Est; [|exact Hrow].
  destruct (String.eqb st Archived); [|exact Hrow].
  destruct (users db !! Driver.uu_id update) as [row|] eqn:Eu.
  - pose proof (agrees_validate _ db Hn (mk_is_Some _ _ Eu)) as Hv. unfold agrees in Hv.
    destruct (Driver.validateUserArchive _ db) as [[[] d]|e] eqn:Ev.
    + assert (d = db) as ->.
      { unfold Driver.validateUserArchive in Ev. by tx Ev. }
      destruct Hv as [[] ->]. exact Hrow.
    + destruct Hv as [d ->]. eauto.
  - unfold Driver.validateUserArchive, validatePostgresUserArchive. go. rewrite only_admin_spec, active_user_bool by done.
    unfold user_status. rewrite Eu. cbn [fmap option_fmap option_map andb negb]. go.
    assert (Driver.sets_something update = true) as ->.
    { unfold Driver.sets_something. rewrite Est. by destruct (Driver.uu_updated_ts update). }
    go. ends.
Qed.

(** A status that only SQLite refuses. *)
Lemma differ_UpdateUser update row db :
  users db !! Driver.uu_id update = Some row → unknown_status update row db = true →
  play (UpdateUser update) db =
    (Ok (Driver.updated_user update row), set_users <[Driver.uu_id update := Driver.updated_user update row]> db) ∧
  Driver.UpdateUser update db = Err ErrCheck.
Proof.
  intros Hu Hk. unfold unknown_status, username_taken in Hk.
  apply andb_true_iff in Hk as [[Hs Ht]%andb_true_iff Hk]. apply negb_true_iff in Ht, Hk.
  unfold UpdateUser, Driver.UpdateUser.
  assert (match Driver.uu_row_status update with
          | Some st => if String.eqb st Archived then False else True | None => True end) as Hst.
  { unfold known, Driver.updated_user in Hk. destruct (Driver.uu_row_status update) as [st|]; [|done].
    cbn in Hk. apply orb_false_iff in Hk as [_ Hk]. by rewrite Hk. }
  destruct (Driver.uu_row_status update) as [st|]; [destruct (String.eqb st Archived); [done|]|].
  all: go; rewrite Hs; go; rewrite Hu; go; rewrite Ht; go.
  all: unfold known in Hk; rewrite Hk; go; done.
Qed.

(** ** Batches *)

Lemma play_in_batches f ids db d : Driver.exec_batches f ids db = Ok (tt, d) → play (in_batches f ids) db = (Ok tt, d).
Proof.
  unfold Driver.exec_batches, in_batches, exec. intros [= <-].
  generalize (Driver.deleteUserBatches ids Driver.deleteUserBatchSize) as batches.
  intros batches. revert db. induction batches as [|batch batches IH]; intros db; [done|]. cbn [each_batch fold_left]. go. apply IH.
Qed.

Lemma apply_drop_members c db : apply_all (drop_members c db) db = set_members (delete_where c) db.
Proof.
  unfold drop_members. destruct (apply_drops (map_to_list (filter (λ kv, c kv.1 kv.2 = true) (members db))).*1 db) as (_ & _ & Hm).
  set (ks := (map_to_list _).*1) in *.
  assert (∀ ks db, apply_all (DropMember <$> ks) db = set_members (λ _, members (apply_all (DropMember <$> ks) db)) db) as ->.
  { clear. intros ks. induction ks as [|k ks IH]; intros db; [by destruct db|].
    change (apply_all (DropMember <$> (k :: ks)) db) with (apply_all (DropMember <$> ks) (set_members (delete k) db)).
    rewrite IH at 1. done. }
  unfold set_members. f_equal. apply map_eq. intros k. rewrite Hm. unfold delete_where. apply option_eq. intros m.
  rewrite map_lookup_filter_Some. cbn. case_decide as Hk.
  - split; [done|]. intros [Hm' Hc]. unfold ks in Hk.
    apply list_elem_of_fmap in Hk as ([k' m'] & -> & (Hl & Ht)%elem_of_map_to_list%map_lookup_filter_Some). cbn in *. congruence.
  - split; [|tauto]. intros Hm'. split; [done|]. apply not_true_is_false. intros Hc. apply Hk.
    apply list_elem_of_fmap. exists (k, m). split; [done|]. by apply elem_of_map_to_list, map_lookup_filter_Some.
Qed.

(** ** Deleting memos *)

Lemma seen_attachments rows attachments id :
  id ∈ (appendDeleteUserAttachments rows attachments).*1 ↔ id ∈ attachments.*1 ∨ id ∈ rows.*1.
Proof.
  unfold appendDeleteUserAttachments. revert attachments. induction rows as [|[id' a] rows IH]; intros attachments; cbn.
  { split; [by left|]. intros [?|H]; [done|]. by apply not_elem_of_nil in H. }
  rewrite IH, elem_of_cons. case_bool_decide as Hin; cbn in *.
  - split; [naive_solver|]. intros [?|[->|?]]; auto.
  - rewrite fmap_app, elem_of_app. cbn. rewrite list_elem_of_singleton. tauto.
Qed.

Lemma elem_of_memo_attachments ids db id :
  id ∈ (Driver.memo_attachments ids db).*1 ↔ ∃ a, attachments db !! id = Some a ∧ Driver.bound_to ids (at_memo a) = true.
Proof.
  unfold Driver.memo_attachments. rewrite list_elem_of_fmap. split.
  - intros ([id' a] & -> & (Ha & Hb)%elem_of_map_to_list%map_lookup_filter_Some). eauto.
  - intros (a & Ha & Hb). exists (id, a). split; [done|]. by apply elem_of_map_to_list, map_lookup_filter_Some.
Qed.

Lemma bound_to_app ids ids' memo : Driver.bound_to (ids ++ ids') memo = Driver.bound_to ids memo || Driver.bound_to ids' memo.
Proof.
  unfold Driver.bound_to. destruct memo as [m|]; [|done]. apply Bool.eq_iff_eq_true.
  by rewrite orb_true_iff, !bool_decide_eq_true, elem_of_app.
Qed.

Lemma play_attachments seen batches db : ∃ found,
  play (attachments_of_batches seen batches) db = (Ok found, db) ∧
  ∀ id, id ∈ found.*1 ↔ id ∈ seen.*1 ∨ ∃ a, attachments db !! id = Some a ∧ Driver.bound_to (concat batches) (at_memo a) = true.
Proof.
  revert seen. induction batches as [|batch batches IH]; intros seen.
  { exists seen. split; [done|]. intros id. split; [by left|]. intros [?|(a & _ & H)]; [done|].
    exfalso. cbn in H. unfold Driver.bound_to in H. destruct (at_memo a); [|done]. by apply bool_decide_eq_true, not_elem_of_nil in H. }
  cbn [attachments_of_batches concat]. go. destruct (IH (appendDeleteUserAttachments (merge_sort by_attachment_id (Driver.memo_attachments batch db)) seen)) as (found & Hp & Hf).
  exists found. split; [done|]. intros id. rewrite Hf, seen_attachments, merge_sort_Permutation, elem_of_memo_attachments.
  setoid_rewrite bound_to_app. setoid_rewrite orb_true_iff. naive_solver.
Qed.

(** Deleting by collected ids. *)
Lemma delete_found {V} (c : Z → V → bool) (t : gmap Z V) (found : list Z) :
  (∀ id, id ∈ found ↔ ∃ v, t !! id = Some v ∧ c id v = true) →
  delete_where (λ id _, bool_decide (id ∈ found)) t = delete_where c t.
Proof.
  intros Hf. unfold delete_where. apply map_eq. intros id. apply option_eq. intros v.
  rewrite !map_lookup_filter_Some. cbn. rewrite bool_decide_eq_false, Hf. split.
  - intros [Hv Hn]. split; [done|]. apply not_true_is_false. eauto.
  - intros [Hv Hn]. split; [done|]. intros (v' & Hv' & Hc). congruence.
Qed.

#[local] Arguments delete_where : simpl never.

Lemma play_deleteMemosTx ids db :
  play (deleteMemosTx ids) db = (Ok tt, set_memos (delete_where (λ id _, bool_decide (id ∈ ids))) db).
Proof. apply play_in_batches, deleteMemosTx_Ok. Qed.
Lemma play_deleteReactionsByMemoIDsTx ids db :
  play (deleteReactionsByMemoIDsTx ids) db = (Ok tt, set_reactions (delete_where (λ _ r, bool_decide (re_memo r ∈ ids))) db).
Proof. apply play_in_batches, deleteReactionsByMemoIDsTx_Ok. Qed.
Lemma play_deleteAttachmentsByIDsTx ids db :
  play (deleteAttachmentsByIDsTx ids) db = (Ok tt, set_attachments (delete_where (λ id _, bool_decide (id ∈ ids))) db).
Proof. apply play_in_batches, deleteAttachmentsByIDsTx_Ok. Qed.
Lemma play_deleteShares ids db :
  play (deletePostgresMemoSetShares ids) db = (Ok tt, set_shares (delete_where (λ _ s, bool_decide (sh_memo s ∈ ids))) db).
Proof. apply play_in_batches, deleteMemoSetShares_Ok. Qed.
Lemma play_deleteInboxesByIDsTx ids db :
  play (deleteInboxesByIDsTx ids) db = (Ok tt, set_inboxes (delete_where (λ id _, bool_decide (id ∈ ids))) db).
Proof. apply play_in_batches, deleteInboxesByIDsTx_Ok. Qed.
Lemma play_deleteMemoRelationsTx ids db :
  play (deleteMemoRelationsTx ids) db = (Ok tt, set_relations (filter (λ r, ¬ (r.1.1 ∈ ids ∨ r.1.2 ∈ ids))) db).
Proof. apply play_in_batches, deleteMemoRelationsTx_Ok. Qed.

Lemma play_memo_set ids db : ∃ found, play (deletePostgresMemoSetTx ids) db = (Ok found, without_memos ids db).
Proof.
  unfold deletePostgresMemoSetTx, listPostgresMemoSetAttachments.
  destruct (play_attachments [] (Driver.deleteUserBatches ids Driver.deleteUserBatchSize) db) as (found & Hp & Hf).
  exists found. go. rewrite Hp. unfold wrap_err. go.
  rewrite play_deleteShares. go. rewrite play_deleteMemosTx. go. rewrite play_deleteReactionsByMemoIDsTx. go.
  rewrite play_deleteAttachmentsByIDsTx. go. rewrite play_deleteMemoRelationsTx. go. f_equal.
  unfold without_memos. f_equal. unfold set_attachments. cbn. f_equal.
  apply delete_found. intros id. rewrite Hf, concat_batches. cbn. setoid_rewrite elem_of_nil. naive_solver.
Qed.

Lemma agrees_DeleteSpace del db : agrees (DeleteSpace del) (Driver.DeleteSpace del) db.
Proof.
  unfold agrees, Driver.DeleteSpace, DeleteSpace, Driver.requireSpaceDeleteAdmin, requirePostgresSpaceDeleteAdmin. go.
  unfold listPostgresSpaceDeleteMemoIDs.
  destruct (user_status db (ds_actor del)) as [st|] eqn:Est; [|rewrite bool_decide_false by done; ends].
  destruct (String.eqb_spec st Normal) as [->|Hst]; [|rewrite bool_decide_false by congruence; ends].
  rewrite bool_decide_true by done. go. rewrite play_lock_space.
  destruct (space_exists db (ds_id del)) eqn:Es; [|ends]. go. rewrite play_member. go. rewrite active_row_spec.
  destruct (members db !! (ds_id del, ds_actor del)) as [m|]; [|ends]. 
  case_decide as Hm; [rewrite bool_decide_true by done|rewrite bool_decide_false by done; ends].
  go. destruct (is_admin (mb_role m)); [|ends]. go. rewrite deleteMemoSetTx_Ok.
  destruct (play_memo_set (Driver.space_memo_ids (ds_id del) db) db) as [found ->]. unfold wrap_err. go.
  rewrite apply_drop_members. go. unfold without_memos. cbn. 
  unfold space_exists in Es. apply bool_decide_eq_true in Es as [row Hrow]. rewrite Hrow. go. eauto.
Qed.

(** ** Deleting a user *)

(** The rows of [collectDeleteUserTargets], but the attachments in another order. *)
Lemma play_collect u db : ∃ targets, play (collectDeleteUserTargets u) db = (Ok targets, db) ∧
  Driver.tg_memos targets = Driver.user_memo_ids u db ∧
  Driver.tg_inboxes targets = Driver.tg_inboxes (Driver.collectDeleteUserTargets u db) ∧
  ∀ id, id ∈ (Driver.tg_attachments targets).*1 ↔
    ∃ a, attachments db !! id = Some a ∧
         ((at_creator a =? u)%Z || Driver.bound_to (Driver.user_memo_ids u db) (at_memo a)) = true.
Proof.
  unfold collectDeleteUserTargets, listDeleteUserMemos, listDeleteUserAttachments, listDeleteUserSettingKeys, listDeleteUserInboxIDs.
  go. edestruct (play_attachments (appendDeleteUserAttachments (map_to_list (filter (λ kv, at_creator kv.2 = u) (attachments db))) [])
    (Driver.deleteUserBatches (Driver.user_memo_ids u db) Driver.deleteUserBatchSize) db) as (found & -> & Hf).
  go. eexists. split; [done|]. cbn [Driver.tg_memos Driver.tg_inboxes Driver.tg_attachments]. split_and!; [done..|].
  intros id. rewrite Hf, seen_attachments, concat_batches.
  setoid_rewrite orb_true_iff. setoid_rewrite Z.eqb_eq. split.
  - intros [[?%not_elem_of_nil|([id' a] & -> & (Ha & Hc)%elem_of_map_to_list%map_lookup_filter_Some)%list_elem_of_fmap]|(a & Ha & Hb)]; eauto; done.
  - intros (a & Ha & [Hc|Hb]); [left; right|right; eauto].
    apply list_elem_of_fmap. exists (id, a). split; [done|]. by apply elem_of_map_to_list, map_lookup_filter_Some.
Qed.

Lemma play_targets u db targets db' : db' = set_members (delete_where (UserEffects.invitation_of u)) db →
  Driver.tg_memos targets = Driver.user_memo_ids u db →
  Driver.tg_inboxes targets = Driver.tg_inboxes (Driver.collectDeleteUserTargets u db) →
  (∀ id, id ∈ (Driver.tg_attachments targets).*1 ↔
    ∃ a, attachments db !! id = Some a ∧
         ((at_creator a =? u)%Z || Driver.bound_to (Driver.user_memo_ids u db) (at_memo a)) = true) →
  play (deleteUserTargetsTx u targets) db' = (Ok tt, UserEffects.without_user u db).
Proof.
  intros -> Hm Hi Ha. unfold deleteUserTargetsTx, deleteReactionsByCreatorTx, deleteMemoSharesTx, deleteUserIdentitiesTx,
    deleteUserSettingsTx, deleteUserRowTx.
  fold (deletePostgresMemoSetShares (Driver.tg_memos targets)).
  rewrite play_bind, play_deleteMemosTx. go. rewrite play_deleteReactionsByMemoIDsTx. go.
  rewrite play_deleteAttachmentsByIDsTx. go. rewrite play_deleteShares. go. rewrite play_deleteInboxesByIDsTx. go.
  rewrite play_deleteMemoRelationsTx. go. f_equal. rewrite Hm, Hi. unfold apply_all. cbn [fold_left apply_write].
  apply DB_ext; cbn -[delete_where Driver.user_memo_ids map_to_list]; try reflexivity.
  - apply UserEffects.delete_where_own_memos.
  - by apply UserEffects.delete_where_or'.
  - by apply UserEffects.delete_where_or.
  - by apply delete_found.
  - apply delete_collected. intros k v. rewrite orb_true_iff, !Z.eqb_eq. done.
Qed.

Lemma agrees_DeleteUser u failpoint db : agrees (DeleteUser u failpoint) (Driver.DeleteUser u failpoint) db.
Proof.
  unfold agrees, Driver.DeleteUser, DeleteUser. go. destruct (users db !! u); [|ends]. go.
  set (memberships := filter _ (members db)).
  assert (Nat.eqb (size memberships) 0 = negb (bool_decide (map_Exists (λ k m, k.2 = u ∧ mb_status m ≠ SpaceMemberStatusInvited) (members db)))) as ->.
  { apply Bool.eq_iff_eq_true. rewrite negb_true_iff, bool_decide_eq_false, Nat.eqb_eq, map_size_empty_iff.
    unfold memberships. split.
    - intros He (k & m & Hm & Hp). assert (filter (λ kv, kv.1.2 = u ∧ mb_status kv.2 ≠ SpaceMemberStatusInvited) (members db) !! k = Some m) as Hf.
      { by apply map_lookup_filter_Some. }
      by rewrite He in Hf.
    - intros Hn. apply map_empty. intros k. apply eq_None_not_Some. intros [m [Hm Hp]%map_lookup_filter_Some].
      apply Hn. by exists k, m. }
  destruct (negb _); [|ends]. go. rewrite apply_drop_members.
  fold (UserEffects.invitation_of u). set (db1 := set_members (delete_where (UserEffects.invitation_of u)) db).
  destruct (play_collect u db1) as (targets & -> & Hm & Hi & Ha). unfold wrap_err. go.
  rewrite (play_targets u db targets db1) by done. go.
  change (Driver.collectDeleteUserTargets u db1) with (Driver.collectDeleteUserTargets u db).
  rewrite UserEffects.deleteUserTargetsTx_Ok. destruct (negb failpoint); ends.
Qed.
End Agreement.

(** ** Every request *)

(** The request as the SQLite driver serves it, without its answer. *)
Definition sqlite (o : space_op) : Tx unit :=
  let ignore {A} (m : Tx A) : Tx unit := _ ← m; mret tt in
  match o with
  | OpCreateSpace c u => ignore (Driver.CreateSpace c u)
  | OpUpdateSpace upd a => ignore (Driver.UpdateSpace upd a)
  | OpDeleteSpace d => ignore (Driver.DeleteSpace d)
  | OpInvite c a => ignore (Driver.CreateSpaceInvitation c a)
  | OpAccept s u a => ignore (Driver.AcceptSpaceInvitation s u a)
  | OpDecline s u a => ignore (Driver.DeclineSpaceInvitation s u a)
  | OpRevoke s u a => ignore (Driver.RevokeSpaceInvitation s u a)
  | OpUpdateMember s u r a => ignore (Driver.UpdateSpaceMember s u r a)
  | OpDeleteMember s u a => ignore (Driver.DeleteSpaceMember s u a)
  | OpCreateUser u now => ignore (Driver.CreateUser u now)
  | OpUpdateUser u => ignore (Driver.UpdateUser u)
  | OpDeleteUser u fp => ignore (Driver.DeleteUser u fp)
  end.

(** The requests that the drivers serve differently, with what SQLite and
    PostgreSQL do. *)
Inductive differs (db : DB) : space_op → result error unit * DB → result error unit * DB → Prop :=
| update_by_inactive update actor :
    ¬ active_user db actor →
    differs db (OpUpdateSpace update actor)
      (Err (if space_exists db (us_id update) then ErrSpacePermissionDenied else ErrSpaceNotFound), db)
      (Err ErrSpaceMemberNotActive, db)
| removal_by_inactive s u actor :
    actor ≠ u → ¬ active_user db actor → space_exists db s = false →
    differs db (OpDeleteMember s u actor) (Err ErrSpaceNotFound, db) (Err ErrSpacePermissionDenied, db)
| status_unknown update row :
    users db !! Driver.uu_id update = Some row → Agreement.unknown_status update row db = true →
    differs db (OpUpdateUser update) (Err ErrCheck, db)
      (Ok tt, set_users <[Driver.uu_id update := Driver.updated_user update row]> db).

Lemma agrees_ignore {A B} (p : Prog A) (m : Tx B) db :
  agrees p m db → agrees (_ ← p; mret tt : Prog unit) (_ ← m; mret tt : Tx unit) db.
Proof.
  unfold agrees. rewrite run_bind, play_bind. destruct (m db) as [[b d]|e]; intros [x ->]; cbn; eauto.
Qed.

(** The request is one of those, with these outcomes, or the drivers agree. *)
Lemma differs_or_agrees o db : no_orphans db → ids_fresh db →
  (∃ e d, differs db o (Err e, db) d ∧ sqlite o db = Err e ∧ play (Postgres.perform o) db = d) ∨
  (∀ s d, ¬ differs db o s d) ∧ agrees (Postgres.perform o) (sqlite o) db.
Proof.
  intros Hn Hf.
  assert (∀ (e : error) d, differs db o (Err e, db) d → sqlite o db = Err e → play (Postgres.perform o) db = d →
    ∃ e d, differs db o (Err e, db) d ∧ sqlite o db = Err e ∧ play (Postgres.perform o) db = d) as Hdiff by eauto.
  destruct o as [c u|upd a|del|c a|s u a|s u a|s u a|s u r a|s u a|u now|upd|u fp];
    cbn [Postgres.perform sqlite] in *;
    try (right; split; [by inversion 1|apply agrees_ignore;
      first [by apply Agreement.agrees_CreateSpace|apply Agreement.agrees_DeleteSpace
            |apply Agreement.agrees_CreateSpaceInvitation|apply Agreement.agrees_AcceptSpaceInvitation
            |apply Agreement.agrees_DeclineSpaceInvitation|apply Agreement.agrees_RevokeSpaceInvitation
            |apply Agreement.agrees_UpdateSpaceMember|apply Agreement.agrees_CreateUser|apply Agreement.agrees_DeleteUser]]).
  - destruct (decide (active_user db a)) as [Ha|Ha].
    + right. split; [by inversion 1|]. by apply agrees_ignore, Agreement.agrees_UpdateSpace.
    + left. destruct (Agreement.differ_UpdateSpace upd a db Ha) as [Hp Hs].
      eapply Hdiff; [by apply update_by_inactive|by rewrite run_bind, Hs|by rewrite play_bind, Hp].
  - destruct (decide (a = u)) as [He|Hne]; [|destruct (decide (active_user db a)) as [Ha|Ha]].
    + right. split; [by inversion 1|]. apply agrees_ignore, Agreement.agrees_DeleteSpaceMember. by left.
    + right. split; [by inversion 1|]. apply agrees_ignore, Agreement.agrees_DeleteSpaceMember. by right.
    + destruct (Agreement.differ_DeleteSpaceMember s u a db Hne Ha) as [Hp Hs].
      destruct (space_exists db s) eqn:Es.
      * right. split; [inversion 1; congruence|]. apply agrees_ignore. unfold agrees. rewrite Hs. eauto.
      * left. eapply Hdiff; [by apply removal_by_inactive|by rewrite run_bind, Hs|by rewrite play_bind, Hp].
  - destruct (users db !! Driver.uu_id upd) as [row|] eqn:Eu;
      [destruct (Agreement.unknown_status upd row db) eqn:Ek|].
    + left. destruct (Agreement.differ_UpdateUser upd row db Eu Ek) as [Hp Hs].
      eapply Hdiff; [by apply status_unknown|by rewrite run_bind, Hs|by rewrite play_bind, Hp].
    + right. split; [inversion 1; congruence|]. apply agrees_ignore, Agreement.agrees_UpdateUser; [done|].
      intros row' ?. by simplify_eq.
    + right. split; [inversion 1; congruence|]. apply agrees_ignore, Agreement.agrees_UpdateUser; [done|].
      intros row' ?. by simplify_eq.
Qed.

(** C11. A request on spaces, memberships or users that runs alone on PostgreSQL,
    in a database whose memberships belong to spaces and users that exist and
    whose ids are below the sequences, ends as on SQLite, in the same database or
    with the same error and the database as it was up to the sequences, unless
    it is one of three: an update of a space by an inactive actor, told so on
    PostgreSQL where SQLite denies permission or does not find the space; the
    removal of another user from a space that does not exist by an inactive actor,
    denied on PostgreSQL and not found on SQLite, neither changing anything; and
    an otherwise valid change of a user to a status other than NORMAL and
    ARCHIVED, written by PostgreSQL, whose schema has no CHECK on it, and refused
    by SQLite.  What is proved of the SQLite driver thus holds of the PostgreSQL
    driver for the other requests as long as transactions do not overlap. *)
Theorem postgres_agrees_with_sqlite o db : no_orphans db → ids_fresh db →
  (∃ on_sqlite on_postgres, differs db o on_sqlite on_postgres ∧
    run (sqlite o) db = on_sqlite ∧ alone (Postgres.perform o) db = on_postgres) ∨
  (∀ on_sqlite on_postgres, ¬ differs db o on_sqlite on_postgres) ∧
  (alone (Postgres.perform o) db).1 = (run (sqlite o) db).1 ∧
  (is_ok (run (sqlite o) db).1 = true → (alone (Postgres.perform o) db).2 = (run (sqlite o) db).2) ∧
  (is_ok (run (sqlite o) db).1 = false → with_sequences db (alone (Postgres.perform o) db).2 = db).
Proof.
  intros Hn Hf. unfold run, alone. rewrite alone_play.
  destruct (differs_or_agrees o db Hn Hf) as [(e & d & Hd & Hs & Hp)|[Hno Ha]].
  - left. do 2 eexists. split; [exact Hd|]. rewrite Hs, Hp. split; [done|].
    inversion Hd; subst; [by destruct db..|done].
  - right. split; [done|]. unfold agrees in Ha. destruct (sqlite o db) as [[[] d]|e].
    + destruct Ha as [[] ->]. done.
    + destruct Ha as [d ->]. split_and!; [done|done|]. intros _. by destruct db.
Qed.

Lemma postgres_agrees_with_sqlite_witness :
  (alone (Postgres.perform (OpDeleteMember 1 2 1)) two_admins_db).1 = Ok tt ∧
  (alone (Postgres.perform (OpDeleteMember 1 2 1)) two_admins_db).2 = (run (sqlite (OpDeleteMember 1 2 1)) two_admins_db).2 ∧
  (alone (Postgres.perform (OpDeleteUser 1 false)) two_admins_db).1 = Err ErrUserHasSpaceMembership ∧
  (alone (Postgres.perform (OpUpdateSpace (mkUpdateSpace 1 (Some "x") None) 9)) two_admins_db).1 = Err ErrSpaceMemberNotActive.
Proof.
  assert (ids_fresh two_admins_db) as Hf.
  { split; intros k [v Hv]; revert k v Hv; [change (map_Forall (λ u _, (u < next_user two_admins_db)%Z) (users two_admins_db))
      |change (map_Forall (λ s _, (s < next_space two_admins_db)%Z) (spaces two_admins_db))];
      refine (bool_decide_eq_true_1 _ _); by vm_compute. }
  destruct (postgres_agrees_with_sqlite (OpDeleteMember 1 2 1) two_admins_db no_orphans_two_admins Hf)
    as [(? & ? & Hd & _)|(_ & H1 & H2 & _)].
  { inversion Hd. discriminate. }
  destruct (postgres_agrees_with_sqlite (OpDeleteUser 1 false) two_admins_db no_orphans_two_admins Hf)
    as [(? & ? & Hd & _)|(_ & H3 & _)]; [inversion Hd|].
  destruct (postgres_agrees_with_sqlite (OpUpdateSpace (mkUpdateSpace 1 (Some "x") None) 9) two_admins_db
    no_orphans_two_admins Hf) as [(? & ? & Hd & _ & H4)|(Hno & _)].
  2: { exfalso. eapply Hno, update_by_inactive. vm_compute. discriminate. }
  split_and!.
  - rewrite H1. by vm_compute.
  - apply H2. by vm_compute.
  - rewrite H3. by vm_compute.
  - rewrite H4. by inversion Hd.
Defined.
