(* ===== verification/Deletion.v ===== *)
(** Deleting a space or a user removes exactly what belongs to it: no row of any
    table refers to a deleted memo, user or space, and everything else stays. *)
From S2P Require Import Prelude GoLib Store SpaceStore SpaceStoreFacts SpaceSafety.

(** ** References to memos *)

(** No row other than the memo's own refers to a memo of [gone]. *)
Definition no_reference (gone : Z → Prop) (db : DB) : Prop :=
  (∀ id m, memos db !! id = Some m → ¬ gone id) ∧
  (∀ id s, shares db !! id = Some s → ¬ gone (sh_memo s)) ∧
  (∀ id r, reactions db !! id = Some r → ¬ gone (re_memo r)) ∧
  (∀ id a m, attachments db !! id = Some a → at_memo a = Some m → ¬ gone m) ∧
  (∀ r, r ∈ relations db → ¬ gone r.1.1 ∧ ¬ gone r.1.2).

(** The rows of [db] that do not refer to [gone] are those of [db']. *)
Definition same_except (gone : Z → Prop) (db db' : DB) : Prop :=
  (∀ id m, memos db !! id = Some m → ¬ gone id → memos db' !! id = Some m) ∧
  (∀ id s, shares db !! id = Some s → ¬ gone (sh_memo s) → shares db' !! id = Some s) ∧
  (∀ id r, reactions db !! id = Some r → ¬ gone (re_memo r) → reactions db' !! id = Some r) ∧
  (∀ id a, attachments db !! id = Some a → (∀ m, at_memo a = Some m → ¬ gone m) →
           attachments db' !! id = Some a) ∧
  (∀ r, r ∈ relations db → ¬ gone r.1.1 → ¬ gone r.1.2 → r ∈ relations db').

Lemma bound_to_spec ids a :
  Driver.bound_to ids a = true ↔ ∃ m, a = Some m ∧ m ∈ ids.
Proof.
  unfold Driver.bound_to. destruct a as [m|]; [rewrite bool_decide_eq_true|]; naive_solver.
Qed.

Lemma delete_where_lookup {K V} `{Countable K} (c : K → V → bool) (t : gmap K V) k v :
  delete_where c t !! k = Some v ↔ t !! k = Some v ∧ c k v = false.
Proof. unfold delete_where. by rewrite map_lookup_filter_Some. Qed.

Lemma without_memos_no_reference ids gone db :
  (∀ id, gone id ↔ id ∈ ids) → no_reference gone (without_memos ids db).
Proof.
  intros Hg. unfold no_reference, without_memos. cbn -[delete_where].
  split_and!; setoid_rewrite Hg.
  - intros id m [_ ?%bool_decide_eq_false]%delete_where_lookup. done.
  - intros id s [_ ?%bool_decide_eq_false]%delete_where_lookup. done.
  - intros id r [_ ?%bool_decide_eq_false]%delete_where_lookup. done.
  - intros id a m [_ Hb]%delete_where_lookup Ha Hm.
    rewrite (proj2 (bound_to_spec ids (at_memo a))) in Hb by eauto. done.
  - intros r [Hr _]%elem_of_filter. tauto.
Qed.

Lemma without_memos_same_except ids gone db :
  (∀ id, gone id ↔ id ∈ ids) → same_except gone db (without_memos ids db).
Proof.
  intros Hg. unfold same_except, without_memos. cbn -[delete_where].
  split_and!; setoid_rewrite Hg; try setoid_rewrite delete_where_lookup.
  - intros id m Hm Hn. by rewrite bool_decide_eq_false.
  - intros id s Hs Hn. by rewrite bool_decide_eq_false.
  - intros id r Hr Hn. by rewrite bool_decide_eq_false.
  - intros id a Ha Hn. split; [done|]. apply not_true_is_false.
    intros (m & Hm & Hin)%bound_to_spec. by apply (Hn m).
  - intros r Hr H1 H2. apply elem_of_filter. tauto.
Qed.

Lemma elem_of_space_memo_ids s db id :
  id ∈ Driver.space_memo_ids s db ↔ ∃ m, memos db !! id = Some m ∧ mm_space m = Some s.
Proof.
  unfold Driver.space_memo_ids. rewrite merge_sort_Permutation, list_elem_of_fmap. split.
  - intros ([k m] & -> & Hin). apply elem_of_map_to_list, map_lookup_filter_Some in Hin as [??].
    eauto.
  - intros (m & Hm & Hc). exists (id, m). split; [done|].
    by apply elem_of_map_to_list, map_lookup_filter_Some.
Qed.

(** ** Spaces *)

(** C27. Deleting a space is the privilege of an active administrator; it
    removes the space, its memberships and invitations, the memos placed in it
    and every row that refers to one of these memos.  Nothing else changes, and
    the returned attachments are exactly the deleted ones. *)
Theorem delete_space_exact del db ats db' :
  DeleteSpace del db = Ok (ats, db') →
  let s := ds_id del in
  let gone id := ∃ m, memos db !! id = Some m ∧ mm_space m = Some s in
  space_admin db s (ds_actor del) ∧
  spaces db' = delete s (spaces db) ∧
  (∀ k, members db' !! k = if decide (k.1 = s) then None else members db !! k) ∧
  no_reference gone db' ∧ same_except gone db db' ∧
  (∀ id a, (id, a) ∈ ats ↔ attachments db !! id = Some a ∧ ∃ m, at_memo a = Some m ∧ gone m) ∧
  users db' = users db ∧ inboxes db' = inboxes db ∧ identities db' = identities db ∧
  user_settings db' = user_settings db.
Proof.
  intros E s gone. unfold DeleteSpace in E. tx_step E; [discriminate E|].
  apply UserEffects.DeleteSpace_Ok in E as (Ha & _ & -> & ->).
  assert (∀ id, gone id ↔ id ∈ Driver.space_memo_ids s db) as Hg
    by (intros id; by rewrite elem_of_space_memo_ids).
  split_and!; try done.
  - intros k. cbn. apply option_eq. intros m. rewrite delete_where_lookup, Z.eqb_neq.
    case_decide; naive_solver.
  - apply (without_memos_no_reference (Driver.space_memo_ids s db) gone db Hg).
  - apply (without_memos_same_except (Driver.space_memo_ids s db) gone db Hg).
  - intros id a. unfold Driver.memo_attachments.
    rewrite elem_of_map_to_list, map_lookup_filter_Some. cbn.
    rewrite bound_to_spec. by setoid_rewrite Hg.
Qed.

(** A space of two memos, one shared and commented, next to a private memo. *)
Definition example_memo (creator : Z) (v : Visibility) (space : option Z) : Memo :=
  mkMemo "m" creator 0 0 Normal "text" v false "{}" space.
Definition space_db : DB :=
  mkDB {[ 1%Z := example_user "ada"; 2%Z := example_user "bob" ]}
    {[ 5%Z := mkSpaceRow "team" "Team" "" ]}
    {[ (5, 1)%Z := mkMember SpaceMemberStatusActive SpaceMemberRoleAdmin;
       (5, 2)%Z := mkMember SpaceMemberStatusInvited SpaceMemberRoleUser ]}
    {[ 1%Z := example_memo 1 SpaceAudience (Some 5%Z); 2%Z := example_memo 2 Public (Some 5%Z);
       3%Z := example_memo 2 Private None ]}
    {[ 1%Z := mkShare "s" 2 2 0 None ]}
    {[ 1%Z := mkReaction 1 2 "+1" 0; 2%Z := mkReaction 1 3 "+1" 0 ]}
    {[ 1%Z := mkAttachment "a" 1 (Some 1%Z) "" "" "" "" "" 0 "" 0 0; 2%Z := mkAttachment "b" 1 None "" "" "" "" "" 0 "" 0 0 ]}
    {[ (3, 2, "REFERENCE")%Z ]} ∅ ∅ ∅ 3 6 4 2 3 3.

Lemma delete_space_exact_witness :
  ∃ ats db', DeleteSpace (mkDeleteSpace 5 1) space_db = Ok (ats, db') ∧
    spaces db' = delete 5%Z (spaces space_db) ∧
    no_reference (λ id, ∃ m, memos space_db !! id = Some m ∧ mm_space m = Some 5%Z) db'.
Proof.
  destruct (DeleteSpace (mkDeleteSpace 5 1) space_db) as [[ats db']|] eqn:E;
    [|exfalso; revert E; vm_compute; discriminate].
  exists ats, db'. split; [reflexivity|].
  destruct (delete_space_exact (mkDeleteSpace 5 1) space_db ats db' E) as (_ & ? & _ & ? & _).
  by split.
Defined.

(** ** Users *)

Lemma without_user_no_reference u db :
  no_reference (λ id, ∃ m, memos db !! id = Some m ∧ mm_creator m = u)
    (UserEffects.without_user u db).
Proof.
  unfold no_reference, UserEffects.without_user. cbn -[delete_where].
  setoid_rewrite <- UserEffects.elem_of_user_memo_ids.
  split_and!.
  - intros id m [Hm Hc]%delete_where_lookup (m' & Hm' & Hc')%UserEffects.elem_of_user_memo_ids.
    apply Z.eqb_neq in Hc. congruence.
  - intros id s [_ [_ ?%bool_decide_eq_false]%orb_false_iff]%delete_where_lookup. done.
  - intros id r [_ [_ ?%bool_decide_eq_false]%orb_false_iff]%delete_where_lookup. done.
  - intros id a m [_ [_ Hb]%orb_false_iff]%delete_where_lookup Ha Hm.
    rewrite (proj2 (bound_to_spec _ (at_memo a))) in Hb by eauto. done.
  - intros r [Hr _]%elem_of_filter. tauto.
Qed.

(** C26. Deleting an account leaves nothing dangling: afterwards no row of any
    table refers to the user, nor to a memo the user created.  The deletion is
    refused while the user is a member of a space, it is idempotent, and it
    takes nothing from other users except what hangs on the deleted memos. *)
Theorem delete_user_exact u db :
  match Driver.DeleteUser u false db with
  | Err e =>
      e = ErrUserHasSpaceMembership ∧ is_Some (users db !! u) ∧
      ∃ s m, members db !! (s, u) = Some m ∧ mb_status m ≠ SpaceMemberStatusInvited
  | Ok (_, db') =>
      users db !! u = None ∧ db' = db ∨
      users db' = delete u (users db) ∧
      (∀ s, members db' !! (s, u) = None) ∧
      (∀ s v, v ≠ u → members db' !! (s, v) = members db !! (s, v)) ∧
      no_reference (λ id, ∃ m, memos db !! id = Some m ∧ mm_creator m = u) db' ∧
      (∀ id m, memos db !! id = Some m → mm_creator m ≠ u → memos db' !! id = Some m) ∧
      (∀ id s, shares db' !! id = Some s → sh_creator s ≠ u) ∧
      (∀ id r, reactions db' !! id = Some r → re_creator r ≠ u) ∧
      (∀ id a, attachments db' !! id = Some a → at_creator a ≠ u) ∧
      (∀ id i, inboxes db' !! id = Some i → i.1 ≠ u ∧ i.2 ≠ u) ∧
      (∀ id v, identities db' !! id = Some v → v ≠ u) ∧
      (∀ k, user_settings db' !! (u, k) = None) ∧
      spaces db' = spaces db
  end.
Proof.
  destruct (Driver.DeleteUser u false db) as [[r db']|e] eqn:E.
  - apply UserEffects.DeleteUser_Ok in E as [(Hn & -> & _)|(_ & _ & Hinv & _ & ->)]; [by left|].
    right. split_and!; try done; cbn -[delete_where].
    + intros s. apply eq_None_not_Some. intros [m [Hm Hi]%delete_where_lookup].
      unfold UserEffects.invitation_of in Hi. apply bool_decide_eq_false in Hi.
      apply Hi. split; [done|]. by eapply Hinv.
    + intros s v Hne. apply option_eq. intros m. rewrite delete_where_lookup.
      unfold UserEffects.invitation_of. rewrite bool_decide_eq_false. cbn. naive_solver.
    + apply without_user_no_reference.
    + intros id m Hm Hc. apply delete_where_lookup. by rewrite Z.eqb_neq.
    + by intros id s [_ [?%Z.eqb_neq _]%orb_false_iff]%delete_where_lookup.
    + by intros id r' [_ [?%Z.eqb_neq _]%orb_false_iff]%delete_where_lookup.
    + by intros id a [_ [?%Z.eqb_neq _]%orb_false_iff]%delete_where_lookup.
    + by intros id i [_ [?%Z.eqb_neq ?%Z.eqb_neq]%orb_false_iff]%delete_where_lookup.
    + by intros id v [_ ?%Z.eqb_neq]%delete_where_lookup.
    + intros k. apply eq_None_not_Some. intros [v [_ Hk]%delete_where_lookup].
      cbn in Hk. by rewrite Z.eqb_refl in Hk.
  - revert E. unfold Driver.DeleteUser. cbv [mbind SE_bind query].
    destruct (users db !! u) as [row|] eqn:Hrow; [|done].
    unfold require. case_bool_decide as Hm; cbn [negb].
    + intros [= <-]. split_and!; [done|by eexists|].
      destruct Hm as ([s v] & m & Hm & <- & Hs). eauto.
    + cbv [mret SE_ret exec].
      pose proof (UserEffects.deleteUserTargetsTx_Ok u db) as Ht.
      match type of Ht with ?l = _ =>
        intros E; match type of E with context [Driver.deleteUserTargetsTx ?a ?b ?c] =>
          change (Driver.deleteUserTargetsTx a b c) with l in E end end.
      rewrite Ht in E. discriminate E.
Qed.
