(* ===== verification/MemoStore.v ===== *)
(** * Memos, their audience, and shares

    [store/memo.go], [store/memo_share.go], [store/memo_delete_policy.go] and
    the SQLite driver's [memo.go], [memo_policy.go], [memo_share.go],
    [memo_delete_policy.go] and [applyMemoUpdate] ([memo_attachment.go]).
    [protojson.Marshal] of a payload is third-party: a payload is its text. *)
From S2P Require Import Prelude GoLib Store SpaceStore.

(** ** Requests and policies *)

Record MemoWritePolicy := mkPolicy {
  po_actor : Z; po_lifecycle_only : bool; po_creating_share : bool }.

Record UpdateMemoReq := mkUpdateMemo {
  um_id : Z; um_uid : option string; um_created_ts : option Z; um_updated_ts : option Z;
  um_row_status : option RowStatus; um_content : option string;
  um_visibility : option Visibility; um_pinned : option bool; um_payload : option string;
  um_space : option Z; um_clear_space : bool; um_policy : option MemoWritePolicy }.

Record MemoWriteSnapshot := mkSnapshot {
  sn_creator : Z; sn_row_status : RowStatus; sn_space : option Z; sn_visibility : Visibility;
  sn_source_exists : bool; sn_source_member : bool;
  sn_target_exists : bool; sn_target_member : bool; sn_has_active_share : bool }.

(** [sameMemoSpace]. *)
Definition sameMemoSpace (l r : option Z) : bool :=
  match l, r with
  | Some a, Some b => (a =? b)%Z
  | None, None => true
  | _, _ => false
  end.

(** [validateMemoWritePolicy]. *)
Definition validateMemoWritePolicy (p : option MemoWritePolicy) : result error unit :=
  match p with
  | None => Ok tt
  | Some p =>
      if (po_actor p <=? 0)%Z then Err (errorf0 "memo write policy requires actor")
      else if po_lifecycle_only p && po_creating_share p then
        Err (errorf0 "memo write policy has conflicting actions")
      else Ok tt
  end.

(** [isLifecycleOnlyMemoUpdate]. *)
Definition isLifecycleOnlyMemoUpdate (u : option UpdateMemoReq) : bool :=
  match u with
  | None => false
  | Some u =>
      if negb (um_clear_space u) && bool_decide (um_space u = None) then false
      else if um_clear_space u && bool_decide (um_space u ≠ None) then false
      else bool_decide (um_uid u = None) && bool_decide (um_created_ts u = None)
        && bool_decide (um_updated_ts u = None) && bool_decide (um_row_status u = None)
        && bool_decide (um_content u = None) && bool_decide (um_pinned u = None)
        && bool_decide (um_payload u = None)
  end.

(** The placement and audience an update leads to. *)
Definition result_space (u : option UpdateMemoReq) (sn : MemoWriteSnapshot) : option Z :=
  match u with
  | Some u =>
      match um_space u with
      | Some s => Some s
      | None => if um_clear_space u then None else sn_space sn
      end
  | None => sn_space sn
  end.
Definition result_visibility (u : option UpdateMemoReq) (sn : MemoWriteSnapshot) : Visibility :=
  match u with Some u => default (sn_visibility sn) (um_visibility u) | None => sn_visibility sn end.

(** A sequence of guards: the first one that fires decides the error. *)
Fixpoint first_error (guards : list (bool * error)) : result error unit :=
  match guards with
  | [] => Ok tt
  | (true, e) :: _ => Err e
  | (false, _) :: gs => first_error gs
  end.

(** [ValidateMemoWriteSnapshot] on a policy and a snapshot that are present. *)
Definition ValidateMemoWriteSnapshot (p : MemoWritePolicy) (u : option UpdateMemoReq)
    (sn : MemoWriteSnapshot) : result error unit :=
  _ ← validateMemoWritePolicy (Some p);
  let target := match u with Some u => um_space u | None => None end in
  let new_visibility := match u with Some u => um_visibility u | None => None end in
  let placement_changed := negb (sameMemoSpace (result_space u sn) (sn_space sn)) in
  first_error [
    (negb (sn_creator sn =? po_actor p)%Z, ErrMemoPermissionDenied);
    (negb (String.eqb (sn_row_status sn) Normal) && negb (String.eqb (sn_row_status sn) Archived),
     ErrMemoMutationConflict);
    (po_creating_share p && negb (String.eqb (sn_row_status sn) Normal), ErrMemoMutationConflict);
    (negb (isValidVisibility (sn_visibility sn)), ErrMemoMutationConflict);
    (po_lifecycle_only p && negb (isLifecycleOnlyMemoUpdate u), ErrMemoSpaceMembershipRequired);
    (bool_decide (sn_space sn ≠ None) && negb (sn_source_exists sn), ErrMemoSpaceNotWritable);
    (bool_decide (sn_space sn ≠ None) && negb (po_lifecycle_only p) && negb (sn_source_member sn),
     ErrMemoSpaceMembershipRequired);
    (bool_decide (target ≠ None) && negb (sn_target_exists sn), ErrMemoSpaceNotWritable);
    (bool_decide (target ≠ None) && negb (sn_target_member sn), ErrMemoSpaceMembershipRequired);
    (negb (isValidVisibility (result_visibility u sn)), ErrMemoMutationConflict);
    (placement_changed && String.eqb (sn_visibility sn) SpaceAudience
       && bool_decide (new_visibility = None), ErrMemoMutationConflict);
    (po_lifecycle_only p && negb placement_changed, ErrMemoSpaceMembershipRequired);
    (String.eqb (result_visibility u sn) SpaceAudience && bool_decide (result_space u sn = None),
     ErrMemoSpaceNotWritable);
    (po_creating_share p && String.eqb (result_visibility u sn) SpaceAudience, ErrMemoShareConflict);
    (bool_decide (new_visibility = Some SpaceAudience) && sn_has_active_share sn,
     ErrMemoShareConflict)
  ].

(** ** The driver *)

Module MemoDriver.
(** [sqliteSpaceMemberActive]. *)
Definition spaceMemberActive (db : DB) (s u : Z) : bool :=
  match members db !! (s, u) with
  | Some m => String.eqb (mb_status m) SpaceMemberStatusActive && IsActiveMember (mb_role m)
  | None => false
  end.

(** [sqliteMemoPolicySpaceState]: exists, member. *)
Definition memoPolicySpaceState (db : DB) (s u : Z) : bool * bool :=
  if space_exists db s then (true, spaceMemberActive db s u) else (false, false).

(** [expires_ts IS NULL OR expires_ts > now]. *)
Definition share_active (now : Z) (sh : MemoShare) : bool :=
  match sh_expires_ts sh with None => true | Some e => (now <? e)%Z end.
Definition has_active_share (db : DB) (now memo : Z) : bool :=
  bool_decide (map_Exists (λ _ sh, sh_memo sh = memo ∧ share_active now sh = true) (shares db)).

(** The snapshot [validateSQLiteMemoWritePolicy] and
    [populateSQLiteMemoPolicySpaceState] read. *)
Definition snapshot (db : DB) (now actor id : Z) (m : Memo) (u : option UpdateMemoReq)
  : MemoWriteSnapshot :=
  let source := match mm_space m with
                | Some s => memoPolicySpaceState db s actor
                | None => (false, false)
                end in
  let target := match u with
                | Some u => match um_space u with
                            | Some s => memoPolicySpaceState db s actor
                            | None => (false, false)
                            end
                | None => (false, false)
                end in
  let to_space := match u with
                  | Some u => bool_decide (um_visibility u = Some SpaceAudience)
                  | None => false
                  end in
  mkSnapshot (mm_creator m) (mm_row_status m) (mm_space m) (mm_visibility m)
    source.1 source.2 target.1 target.2 (to_space && has_active_share db now id).

(** [validateSQLiteMemoWritePolicy]. *)
Definition validateWritePolicy (now id : Z) (p : MemoWritePolicy) (u : option UpdateMemoReq)
  : Tx unit :=
  status ← query (λ db, user_status db (po_actor p));
  if negb (bool_decide (status = Some Normal)) then se_err ErrMemoSpaceMembershipRequired
  else
    row ← query (λ db, memos db !! id);
    match row with
    | None => se_err ErrMemoMutationConflict
    | Some m =>
        sn ← query (λ db, snapshot db now (po_actor p) id m u);
        se_lift (ValidateMemoWriteSnapshot p u sn)
    end.

(** [applyMemoUpdate]: the new row. *)
Definition updated_memo (u : UpdateMemoReq) (m : Memo) : Memo :=
  mkMemo (default (mm_uid m) (um_uid u)) (mm_creator m)
    (default (mm_created_ts m) (um_created_ts u)) (default (mm_updated_ts m) (um_updated_ts u))
    (default (mm_row_status m) (um_row_status u)) (default (mm_content m) (um_content u))
    (default (mm_visibility m) (um_visibility u)) (default (mm_pinned m) (um_pinned u))
    (default (mm_payload m) (um_payload u))
    (if um_clear_space u then None
     else match um_space u with Some s => Some s | None => mm_space m end).

Definition valid_row_status (s : RowStatus) : bool :=
  String.eqb s Normal || String.eqb s Archived.

Definition memo_uid_taken (db : DB) (id : Z) (uid : string) : bool :=
  bool_decide (map_Exists (λ i m, i ≠ id ∧ mm_uid m = uid) (memos db)).

(** The UPDATE, with the constraints of the table; without a matching row it
    does nothing. *)
Definition applyMemoUpdate (u : UpdateMemoReq) : Tx unit :=
  row ← query (λ db, memos db !! um_id u);
  match row with
  | None => mret tt
  | Some m =>
      let m' := updated_memo u m in
      taken ← query (λ db, memo_uid_taken db (um_id u) (mm_uid m'));
      _ ← require (negb taken) (Wrap ErrUnique "failed to update memo");
      _ ← require (valid_row_status (mm_row_status m') && isValidVisibility (mm_visibility m'))
            (Wrap ErrCheck "failed to update memo");
      exec (set_memos <[um_id u := m']>)
  end.

Definition UpdateMemo (now : Z) (u : UpdateMemoReq) : Tx unit :=
  match um_policy u with
  | None => applyMemoUpdate u
  | Some p =>
      _ ← validateWritePolicy now (um_id u) p (Some u);
      applyMemoUpdate u
  end.

(** [validateSQLiteMemoSpaceMember]. *)
Definition validateMemoSpaceMember (s u : Z) : Tx unit :=
  exists_ ← query (λ db, space_exists db s);
  _ ← require exists_ ErrMemoSpaceNotWritable;
  role ← query (λ db, active_member_role db s u);
  require (match role with Some r => IsActiveMember r | None => false end)
    ErrMemoSpaceMembershipRequired.

(** [validateSQLiteMemoCreate]. *)
Definition validateMemoCreateTx (create : Memo) : Tx unit :=
  status ← query (λ db, user_status db (mm_creator create));
  _ ← require (bool_decide (status = Some Normal)) ErrMemoSpaceMembershipRequired;
  match mm_space create with
  | Some s => validateMemoSpaceMember s (mm_creator create)
  | None => mret tt
  end.

(** The row [insertSQLiteMemo] writes: a zero timestamp takes the default of the
    column. *)
Definition memo_row (now : Z) (create : Memo) : Memo :=
  let or_now t := if (t =? 0)%Z then now else t in
  mkMemo (mm_uid create) (mm_creator create) (or_now (mm_created_ts create))
    (or_now (mm_updated_ts create)) Normal (mm_content create)
    (mm_visibility create) false (mm_payload create) (mm_space create).

(** [insertSQLiteMemo]. *)
Definition insertMemo (now : Z) (create : Memo) : Tx Z :=
  taken ← query (λ db, bool_decide (map_Exists (λ _ m, mm_uid m = mm_uid create) (memos db)));
  _ ← require (negb taken) ErrUnique;
  _ ← require (isValidVisibility (mm_visibility create)) ErrCheck;
  id ← query next_memo;
  _ ← exec (λ db, set_next (next_user db) (next_space db) (id + 1) (next_share db)
              (set_memos <[id := memo_row now create]> db));
  mret id.

Definition CreateMemo (now : Z) (create : Memo) : Tx Z :=
  _ ← validateMemoCreateTx create; insertMemo now create.

(** [createSQLiteMemoShare]. *)
Definition insertMemoShare (now : Z) (create : MemoShare) : Tx Z :=
  taken ← query (λ db, bool_decide (map_Exists (λ _ s, sh_uid s = sh_uid create) (shares db)));
  _ ← require (negb taken) ErrUnique;
  id ← query next_share;
  let row := mkShare (sh_uid create) (sh_memo create) (sh_creator create) now
               (sh_expires_ts create) in
  _ ← exec (λ db, set_next (next_user db) (next_space db) (next_memo db) (id + 1)
              (set_shares <[id := row]> db));
  mret id.

Definition CreateMemoShare (now : Z) (create : MemoShare) (p : option MemoWritePolicy) : Tx Z :=
  match p with
  | None => insertMemoShare now create
  | Some p =>
      _ ← validateWritePolicy now (sh_memo create) p None;
      insertMemoShare now create
  end.

(** [sqliteMemoShareDeleteWhere] with the memo of an authorized deletion. *)
Definition share_selected (id : option Z) (uid : option string) (memo : option Z)
    (i : Z) (s : MemoShare) : bool :=
  matches_opt id i && matches_opt uid (sh_uid s) && matches_opt memo (sh_memo s).

Definition DeleteMemoShare (now : Z) (id : option Z) (uid : option string) (memo : Z)
    (p : option MemoWritePolicy) : Tx unit :=
  match p with
  | Some p =>
      _ ← validateWritePolicy now memo p None;
      count ← query (λ db, size (filter (λ kv, share_selected id uid (Some memo) kv.1 kv.2 = true)
                                  (shares db)));
      _ ← exec (set_shares (delete_where (share_selected id uid (Some memo))));
      require (Nat.eqb count 1) ErrMemoMutationConflict
  | None => exec (set_shares (delete_where (share_selected id uid None)))
  end.

(** [GetMemoShare] by the UID of the share. *)
Definition GetMemoShareByUID (db : DB) (uid : string) : option MemoShare :=
  snd <$> head (map_to_list (filter (λ kv, sh_uid kv.2 = uid) (shares db))).

(** [store.MemoDeleteActorCanRead]. *)
Definition MemoDeleteActorCanRead (status : RowStatus) (v : Visibility) (space : option Z)
    (space_exists actor_member : bool) : bool :=
  if negb (valid_row_status status) then false
  else if String.eqb v Public || String.eqb v Protected || String.eqb v Private then true
  else if String.eqb v SpaceAudience then bool_decide (space ≠ None) && space_exists && actor_member
  else false.

Definition DeleteMemoWithPolicy (id actor : Z) : Tx (bool * list (Z * Attachment)) :=
  status ← query (λ db, user_status db actor);
  _ ← require (bool_decide (status = Some Normal)) ErrMemoPermissionDenied;
  row ← query (λ db, memos db !! id);
  match row with
  | None => se_err ErrMemoMutationConflict
  | Some m =>
      _ ← require (mm_creator m =? actor)%Z ErrMemoPermissionDenied;
      state ← query (λ db, match mm_space m with
                           | Some s => memoPolicySpaceState db s actor
                           | None => (false, false)
                           end);
      ats ← Driver.deleteMemoSetTx [id];
      mret (MemoDeleteActorCanRead (mm_row_status m) (mm_visibility m) (mm_space m)
              state.1 state.2, ats)
  end.
End MemoDriver.

(** ** The store methods *)

(** [validateMemoCreate]. *)
Definition validateMemoCreate (create : Memo) : result error unit :=
  if negb (UIDMatcher (mm_uid create)) then Err (errorf0 "invalid uid")
  else if negb (isValidVisibility (mm_visibility create)) then Err (errorf0 "invalid visibility")
  else if String.eqb (mm_visibility create) SpaceAudience && bool_decide (mm_space create = None) then
    Err (errorf0 "SPACE visibility requires a space")
  else Ok tt.

Definition CreateMemo (now : Z) (create : Memo) : Tx Z :=
  _ ← se_lift (validateMemoCreate create); MemoDriver.CreateMemo now create.

Definition UpdateMemo (now : Z) (u : UpdateMemoReq) : Tx unit :=
  if match um_uid u with Some uid => negb (UIDMatcher uid) | None => false end then
    se_err (errorf0 "invalid uid")
  else if match um_visibility u with Some v => negb (isValidVisibility v) | None => false end then
    se_err (errorf0 "invalid visibility")
  else if um_clear_space u && bool_decide (um_visibility u = Some SpaceAudience) then
    se_err (errorf0 "SPACE visibility requires a space")
  else
    _ ← se_lift (validateMemoWritePolicy (um_policy u));
    MemoDriver.UpdateMemo now u.

Definition CreateMemoShare (now : Z) (create : MemoShare) (p : option MemoWritePolicy) : Tx Z :=
  _ ← se_lift (validateMemoWritePolicy p); MemoDriver.CreateMemoShare now create p.

Definition DeleteMemoShare (now : Z) (id : option Z) (uid : option string) (memo : option Z)
    (p : option MemoWritePolicy) : Tx unit :=
  if bool_decide (id = None) && bool_decide (uid = None) then
    se_err (errorf0 "memo share deletion requires id or uid")
  else
    _ ← se_lift (validateMemoWritePolicy p);
    match p, memo with
    | None, _ => MemoDriver.DeleteMemoShare now id uid 0 None
    | Some _, Some m =>
        if (m <=? 0)%Z then se_err (errorf0 "authorized memo share deletion requires memo")
        else MemoDriver.DeleteMemoShare now id uid m p
    | Some _, None => se_err (errorf0 "authorized memo share deletion requires memo")
    end.

Definition DeleteMemoWithPolicy (id actor : Z) : Tx (bool * list (Z * Attachment)) :=
  if (id <=? 0)%Z || (actor <=? 0)%Z then se_err (errorf0 "memo deletion requires memo and actor")
  else MemoDriver.DeleteMemoWithPolicy id actor.

(** [isMemoShareExpired] and [getActiveMemoShare] of the API: memo_share_service.go. *)
Definition isMemoShareExpired (now : Z) (sh : MemoShare) : bool :=
  match sh_expires_ts sh with Some e => (e <? now)%Z | None => false end.
Definition getActiveMemoShare (now : Z) (uid : string) : Tx (option MemoShare) :=
  query (λ db, match MemoDriver.GetMemoShareByUID db uid with
               | Some sh => if isMemoShareExpired now sh then None else Some sh
               | None => None
               end).
