(* ===== verification/MemoStoreFacts.v ===== *)
(** What the memo write check says of a snapshot it accepts, and the effects of
    the memo operations of [MemoStore]. *)
From S2P Require Import Prelude GoLib Store SpaceStore SpaceStoreFacts MemoStore.
Import MemoDriver.

(** ** The snapshot check *)

Lemma first_error_Ok gs : first_error gs = Ok tt ↔ Forall (λ g : bool * error, g.1 = false) gs.
Proof.
  induction gs as [|[[] e] gs IH]; cbn; [by split; [constructor|]| |].
  - split; [discriminate|]. intros Hf. by inversion Hf.
  - rewrite IH, Forall_cons. naive_solver.
Qed.

Lemma se_lift_Ok' {A} (m : result error A) (db : DB) r :
  se_lift m db = Ok r → m = Ok r.1 ∧ r.2 = db.
Proof. unfold se_lift. destruct m; [|done]. by intros [= <-]. Qed.

(** What a snapshot that passes the check says. *)
Record write_allowed (p : MemoWritePolicy) (u : option UpdateMemoReq) (sn : MemoWriteSnapshot)
  : Prop := {
  wa_author : sn_creator sn = po_actor p;
  wa_share_normal : po_creating_share p = true → sn_row_status sn = Normal;
  wa_lifecycle : po_lifecycle_only p = true →
    isLifecycleOnlyMemoUpdate u = true ∧ sameMemoSpace (result_space u sn) (sn_space sn) = false;
  wa_source : sn_space sn ≠ None →
    sn_source_exists sn = true ∧ (po_lifecycle_only p = true ∨ sn_source_member sn = true);
  wa_target : (∃ s, result_space u sn = Some s ∧
                 match u with Some u => um_space u = Some s | None => False end) →
    sn_target_exists sn = true ∧ sn_target_member sn = true;
  wa_space : result_visibility u sn = SpaceAudience → result_space u sn ≠ None;
  wa_audience : sn_visibility sn = SpaceAudience →
    sameMemoSpace (result_space u sn) (sn_space sn) = false →
    match u with Some u => um_visibility u ≠ None | None => False end;
  wa_share : po_creating_share p = true → result_visibility u sn ≠ SpaceAudience;
  wa_no_share : match u with Some u => um_visibility u = Some SpaceAudience | None => False end →
    sn_has_active_share sn = false;
}.

(** Turn a boolean guard that did not fire into a fact. *)
Ltac unguard H :=
  lazymatch type of H with
  | _ && _ = false => apply andb_false_iff in H as [H|H]; unguard H
  | negb _ = false => apply negb_false_iff in H; unguard H
  | negb _ = true => apply negb_true_iff in H; unguard H
  | bool_decide _ = false => apply bool_decide_eq_false in H; unguard H
  | ¬ (_ ≠ _) => apply dec_stable in H; unguard H
  | bool_decide _ = true => apply bool_decide_eq_true in H
  | String.eqb _ _ = true => apply String.eqb_eq in H
  | String.eqb _ _ = false => apply String.eqb_neq in H
  | Z.eqb _ _ = true => apply Z.eqb_eq in H
  | _ => idtac
  end.

Lemma ValidateMemoWriteSnapshot_Ok p u sn :
  ValidateMemoWriteSnapshot p u sn = Ok tt → write_allowed p u sn.
Proof.
  unfold ValidateMemoWriteSnapshot. intros (?&_&H)%bind_Ok.
  apply first_error_Ok in H. repeat rewrite Forall_cons in H. cbn [fst] in H.
  destruct H as (H1&_&H3&_&H5&H6&H7&H8&H9&_&H11&H12&H13&H14&H15&_).
  split.
  - by unguard H1.
  - intros Hp. rewrite Hp in H3. by unguard H3.
  - intros Hp. rewrite Hp in H5, H12. unguard H5; [done|]. by unguard H12.
  - intros Hs. split; [by unguard H6|]. destruct (po_lifecycle_only p); [by left|right].
    by unguard H7.
  - intros (s & _ & Hu). destruct u as [u|]; [|done].
    split; [unguard H8|unguard H9]; congruence.
  - intros Hv. unguard H13; congruence.
  - intros Hv Hc. rewrite Hc, Hv in H11. cbn [negb andb] in H11. unguard H11; [done|].
    destruct u; congruence.
  - intros Hp. rewrite Hp in H14. by unguard H14.
  - intros Hv. destruct u as [u|]; [|done]. unguard H15; congruence.
Qed.

(** ** Effects of the memo operations *)

Lemma validateWritePolicy_Ok now id p u db r :
  validateWritePolicy now id p u db = Ok r →
  r = (tt, db) ∧ active_user db (po_actor p) ∧
  ∃ m, memos db !! id = Some m ∧ write_allowed p u (snapshot db now (po_actor p) id m u).
Proof.
  unfold validateWritePolicy. intros H.
  tx_step H. tx_step H; [discriminate H|]. tx_step H. tx_step H; [|discriminate H]. tx_step H.
  destruct r as [[] s]. apply se_lift_Ok' in H as [Hv Hs]. cbn in Hv, Hs. subst s.
  split; [done|]. split.
  - apply negb_false_iff, bool_decide_eq_true in Heqb. done.
  - eexists. split; [done|]. by apply ValidateMemoWriteSnapshot_Ok.
Qed.

Lemma applyMemoUpdate_Ok u db r :
  applyMemoUpdate u db = Ok r →
  (memos db !! um_id u = None ∧ r = (tt, db)) ∨
  (∃ m, memos db !! um_id u = Some m ∧
        r = (tt, set_memos <[um_id u := updated_memo u m]> db)).
Proof. unfold applyMemoUpdate. intros H. tx H; [right|left]; eauto. Qed.

Lemma UpdateMemo_policy_Ok now u p db r :
  um_policy u = Some p → UpdateMemo now u db = Ok r →
  active_user db (po_actor p) ∧
  ∃ m, memos db !! um_id u = Some m ∧
    write_allowed p (Some u) (snapshot db now (po_actor p) (um_id u) m (Some u)) ∧
    r = (tt, set_memos <[um_id u := updated_memo u m]> db).
Proof.
  unfold UpdateMemo. intros ->. intros ([] & s & Hv & Ha)%se_bind_Ok.
  apply validateWritePolicy_Ok in Hv as ([= ->] & Hu & m & Hm & Hw).
  split; [done|]. exists m. split_and!; [done..|].
  apply applyMemoUpdate_Ok in Ha as [[Hn _]|(m' & Hm' & ->)]; congruence.
Qed.

(** The store method only adds checks of its arguments. *)
Lemma store_UpdateMemo_Ok now u db r :
  MemoStore.UpdateMemo now u db = Ok r →
  UpdateMemo now u db = Ok r ∧
  (∀ v, um_visibility u = Some v → isValidVisibility v = true) ∧
  (um_clear_space u = true → um_visibility u ≠ Some SpaceAudience).
Proof.
  unfold MemoStore.UpdateMemo. intros H.
  destruct (match um_uid u with Some _ => _ | None => _ end); [discriminate H|].
  destruct (match um_visibility u with Some _ => _ | None => _ end) eqn:Hv; [discriminate H|].
  destruct (um_clear_space u && _) eqn:Hc; [discriminate H|].
  apply se_bind_Ok in H as ([] & s & Hp & H). apply se_lift_Ok' in Hp as [_ Hs]. cbn in Hs. subst s.
  split_and!; [done|..].
  - intros v Hu. rewrite Hu in Hv. by apply negb_false_iff in Hv.
  - intros Hcl. rewrite Hcl in Hc. by apply bool_decide_eq_false in Hc.
Qed.
