(* ===== verification/ResourceName.v ===== *)
(** * Resource names

    [server/router/api/v1/resource_name.go], with [util.ConvertStringToInt32];
    [base.UIDMatcher] is in [SpaceStore].
    [shortuuid.New] and [util.GenUUID] draw random identifiers: they are
    parameters. *)
From S2P Require Import Prelude GoLib Store SpaceStore.

Definition InstanceSettingNamePrefix := "instance/settings/".
Definition UserNamePrefix := "users/".
Definition MemoNamePrefix := "memos/".
Definition MemoShareNamePrefix := "shares/".
Definition AttachmentNamePrefix := "attachments/".
Definition ReactionNamePrefix := "reactions/".
Definition InboxNamePrefix := "inboxes/".
Definition IdentityProviderNamePrefix := "identity-providers/".
Definition SpaceNamePrefix := "spaces/".
Definition SpaceMemberNamePrefix := "members/".
Definition SpaceInvitationNamePrefix := "invitations/".

Definition invalid_request (name : string) : error := Errorf "invalid request %q" [name].

(** The loop over the prefixes: two parts each. *)
Fixpoint check_tokens (name : string) (parts prefixes : list string)
  : result error (list string) :=
  match prefixes, parts with
  | [], _ => Ok []
  | p :: ps, a :: b :: parts =>
      if negb (String.eqb (a +:+ "/") p) then
        Err (Errorf "invalid prefix %q in request %q" [p; name])
      else if String.eqb b "" then
        Err (Errorf "invalid request %q with empty prefix %q" [name; p])
      else ts ← check_tokens name parts ps; Ok (b :: ts)
  | _ :: _, _ => Err (Panic "index out of range")
  end.

Definition GetNameParentTokens (name : string) (prefixes : list string)
  : result error (list string) :=
  let parts := Str.split_on "/" name in
  if negb (Nat.eqb (length parts) (2 * length prefixes)) then Err (invalid_request name)
  else check_tokens name parts prefixes.

(** [tokens[i]]. *)
Definition token (ts : list string) (i : nat) : result error string :=
  match ts !! i with Some t => Ok t | None => Err (Panic "index out of range") end.

Definition ConvertStringToInt32 (src : string) : option Z := Strconv.parse_int 32 src.

Definition ExtractInstanceSettingKeyFromName (name : string) : result error string :=
  if negb (Str.has_prefix InstanceSettingNamePrefix name) then
    Err (Errorf "invalid instance setting name: expected prefix %q, got %q"
           [InstanceSettingNamePrefix; name])
  else
    let key := String.substring (String.length InstanceSettingNamePrefix)
                 (String.length name) name in
    if String.eqb key "" then
      Err (Errorf "invalid instance setting name: empty setting key in %q" [name])
    else if Str.contains_byte "/" key then
      Err (Errorf "invalid instance setting name: setting key cannot contain '/' in %q" [name])
    else Ok key.

Definition extract1 (prefix name : string) : result error string :=
  ts ← GetNameParentTokens name [prefix]; token ts 0.
Definition extract_int32 (prefix what name : string) : result error Z :=
  t ← extract1 prefix name;
  match ConvertStringToInt32 t with
  | Some id => Ok id
  | None => Err (Errorf what [t])
  end.
Definition extract2 (p1 p2 name : string) : result error (string * string) :=
  ts ← GetNameParentTokens name [p1; p2];
  a ← token ts 0; b ← token ts 1; Ok (a, b).

Definition ExtractUserIDFromName := extract_int32 UserNamePrefix "invalid user ID %q".
Definition ExtractMemoUIDFromName := extract1 MemoNamePrefix.
Definition buildMemoName (uid : string) : string := MemoNamePrefix +:+ uid.
Definition ExtractSpaceUIDFromName := extract1 SpaceNamePrefix.
Definition ExtractSpaceMemberTokensFromName := extract2 SpaceNamePrefix SpaceMemberNamePrefix.
Definition ExtractSpaceInvitationTokensFromName :=
  extract2 SpaceNamePrefix SpaceInvitationNamePrefix.
Definition ExtractAttachmentUIDFromName := extract1 AttachmentNamePrefix.
Definition ExtractMemoReactionIDFromName (name : string) : result error (string * Z) :=
  '(memo, r) ← extract2 MemoNamePrefix ReactionNamePrefix name;
  match ConvertStringToInt32 r with
  | Some id => Ok (memo, id)
  | None => Err (Errorf "invalid reaction ID %q" [r])
  end.
Definition ExtractInboxIDFromName := extract_int32 InboxNamePrefix "invalid inbox ID %q".
Definition ExtractIdentityProviderUIDFromName := extract1 IdentityProviderNamePrefix.

(** [ValidateAndGenerateUID] and [ValidateAndGenerateSpaceUID]; [new] is the
    identifier drawn. *)
Definition ValidateAndGenerateUID (new provided : string) : result error string :=
  let uid := Str.trim_space provided in
  if String.eqb uid "" then Ok new
  else if negb (UIDMatcher uid) then
    Err (errorf0 "invalid UID: must be 1-36 characters, contain only letters, digits, or hyphens, and start and end with a letter or digit")
  else Ok uid.
Definition ValidateAndGenerateSpaceUID (new_uuid provided : string) : result error string :=
  if String.eqb (Str.trim_space provided) "" then Ok new_uuid
  else ValidateAndGenerateUID "" provided.

(** ** Names and tokens *)

(** The name of a resource: its prefixes and tokens in turn. *)
Fixpoint build_name (prefixes tokens : list string) : string :=
  match prefixes, tokens with
  | [p], [t] => p +:+ t
  | p :: ps, t :: ts => p +:+ t +:+ "/" +:+ build_name ps ts
  | _, _ => ""
  end.

Definition no_slash (s : string) : Prop := Str.contains_byte "/" s = false.
Definition valid_token (t : string) : Prop := t ≠ "" ∧ no_slash t.
(** A prefix is a word without slashes followed by one. *)
Definition valid_prefix (p : string) : Prop := ∃ w, p = w +:+ "/" ∧ no_slash w.

Section splitting.
#[local] Arguments String.append : simpl nomatch.

Lemma split_on_no_slash s : no_slash s → Str.split_on "/" s = [s].
Proof. apply Str.split_on_clean. Qed.

Lemma split_slash_app w s :
  no_slash w → Str.split_on "/" (w +:+ "/" +:+ s) = w :: Str.split_on "/" s.
Proof. apply Str.split_on_app. Qed.

Lemma split_on_parts s : Forall no_slash (Str.split_on "/" s).
Proof.
  induction s as [|c s IH]; [by repeat constructor|]. cbn -[Ascii.eqb].
  destruct (Ascii.eqb c "/") eqn:Hc; [by constructor|].
  destruct (Str.split_on "/" s) as [|w ws].
  { constructor; [|constructor]. unfold no_slash. cbn -[Ascii.eqb]. by rewrite Hc. }
  apply Forall_cons in IH as [Hw Hws]. constructor; [|done].
  unfold no_slash. cbn -[Ascii.eqb]. by rewrite Hc.
Qed.

Lemma join_split s : Str.join "/" (Str.split_on "/" s) = s.
Proof.
  induction s as [|c s IH]; [done|]. cbn -[Ascii.eqb Str.join].
  destruct (Ascii.eqb_spec c "/") as [->|_].
  - destruct (Str.split_on "/" s) as [|w ws] eqn:E; [|cbn in IH |- *; by rewrite IH].
    by destruct s; cbn -[Ascii.eqb] in E; repeat case_match.
  - destruct (Str.split_on "/" s) as [|w [|w' ws]]; cbn in IH |- *; by rewrite IH.
Qed.
End splitting.

Lemma prefix_word p w : p = w +:+ "/" → ∀ a, String.eqb (a +:+ "/") p = true ↔ a = w.
Proof.
  intros -> a. rewrite String.eqb_eq. split; [|by intros ->].
  revert w. induction a as [|c a IH]; intros [|c' w]; cbn; [done| | |].
  - intros [= <- Hw]. by destruct w.
  - intros [= -> Ha]. by destruct a.
  - intros [= -> Ha]. f_equal. by apply IH.
Qed.

Lemma GetNameParentTokens_build ps ts :
  length ps = length ts → ps ≠ [] → Forall valid_prefix ps → Forall valid_token ts →
  GetNameParentTokens (build_name ps ts) ps = Ok ts.
Proof.
  intros Hlen Hne Hps Hts.
  assert (∀ name, length (Str.split_on "/" (build_name ps ts)) = (2 * length ps)%nat ∧
    check_tokens name (Str.split_on "/" (build_name ps ts)) ps = Ok ts) as Hall.
  { revert ts Hlen Hts. induction Hps as [|p ps (w & -> & Hw) Hps IH]; [done|].
    intros [|t ts] Hlen Hts; [done|]. apply Forall_cons in Hts as [[Ht1 Ht2] Hts].
    injection Hlen as Hlen. clear Hne. intros name.
    assert (String.eqb (w +:+ "/") (w +:+ "/") = true) as Hwe by apply String.eqb_refl.
    apply String.eqb_neq in Ht1 as Ht3.
    destruct ps as [|p' ps], ts as [|t' ts]; try done.
    - cbn [build_name]. rewrite <- Str.app_assoc, split_slash_app, split_on_no_slash by done.
      split; [done|]. cbn [check_tokens]. by rewrite Hwe, Ht3.
    - change (build_name ((w +:+ "/") :: p' :: ps) (t :: t' :: ts))
        with ((w +:+ "/") +:+ t +:+ "/" +:+ build_name (p' :: ps) (t' :: ts)).
      rewrite <- Str.app_assoc, split_slash_app, split_slash_app by done.
      destruct (IH ltac:(done) (t' :: ts) Hlen Hts name) as [Hl Hc].
      split; [cbn [length] in *; lia|].
      remember (Str.split_on "/" (build_name (p' :: ps) (t' :: ts))) as parts.
      cbn [check_tokens]. rewrite Hwe, Ht3. cbn [negb]. by rewrite Hc. }
  unfold GetNameParentTokens. destruct (Hall (build_name ps ts)) as [-> ->].
  by rewrite Nat.eqb_refl.
Qed.

Lemma check_tokens_Ok name ps : ∀ parts ts,
  ps ≠ [] → length parts = (2 * length ps)%nat → Forall no_slash parts →
  check_tokens name parts ps = Ok ts →
  length ts = length ps ∧ Forall valid_token ts ∧ Str.join "/" parts = build_name ps ts.
Proof.
  induction ps as [|p ps IH]; intros parts ts Hne Hlen Hparts Hc; [done|].
  destruct parts as [|a [|b parts]]; [cbn in Hlen; lia..|]. cbn [check_tokens] in Hc.
  destruct (String.eqb_spec (a +:+ "/") p) as [<-|]; [|done]. cbn [negb] in Hc.
  destruct (String.eqb_spec b "") as [|Hb]; [done|].
  apply bind_Ok in Hc as (ts' & Hc & [= <-]).
  apply Forall_cons in Hparts as [_ [Hnb Hparts]%Forall_cons].
  destruct ps as [|p' ps].
  - destruct parts; [|cbn in Hlen; lia]. injection Hc as <-.
    split_and!; [done|by repeat constructor|]. cbn. by rewrite <- Str.app_assoc.
  - destruct (IH parts ts' ltac:(done)) as (Hl & Hv & Hj); [cbn in *; lia|done..|].
    split_and!; [cbn in *; lia|by constructor|].
    destruct parts as [|x parts]; [cbn in Hlen; lia|].
    change (Str.join "/" (a :: b :: x :: parts))
      with (a +:+ "/" +:+ b +:+ "/" +:+ Str.join "/" (x :: parts)).
    rewrite Hj. destruct ts' as [|t' ts']; [done|].
    change (build_name ((a +:+ "/") :: p' :: ps) (b :: t' :: ts'))
      with ((a +:+ "/") +:+ b +:+ "/" +:+ build_name (p' :: ps) (t' :: ts')).
    by rewrite <- Str.app_assoc.
Qed.

Lemma GetNameParentTokens_iff ps ts name :
  ps ≠ [] → Forall valid_prefix ps →
  (GetNameParentTokens name ps = Ok ts ↔
   name = build_name ps ts ∧ length ts = length ps ∧ Forall valid_token ts).
Proof.
  intros Hne Hps. split.
  - unfold GetNameParentTokens. destruct (Nat.eqb_spec (length (Str.split_on "/" name)) (2 * length ps));
      [|done]. cbn [negb]. intros Hc.
    destruct (check_tokens_Ok name ps _ ts Hne e (split_on_parts name) Hc) as (Hl & Hv & Hj).
    by rewrite join_split in Hj.
  - intros (-> & Hl & Hv). by apply GetNameParentTokens_build.
Qed.

(** Resource names and their tokens determine each other: a name is accepted
    with some tokens exactly when it is the concatenation of the prefixes and
    these tokens, and the tokens are non-empty and have no slash.  So no two
    names denote one resource, and parsing never fails on a name the server
    builds. *)
Theorem resource_name_roundtrip ps ts name :
  ps ≠ [] → Forall valid_prefix ps →
  (GetNameParentTokens name ps = Ok ts ↔
   name = build_name ps ts ∧ length ts = length ps ∧ Forall valid_token ts).
Proof. apply GetNameParentTokens_iff. Qed.

Lemma resource_name_roundtrip_witness :
  GetNameParentTokens "spaces/team/members/ada" [SpaceNamePrefix; SpaceMemberNamePrefix]
  = Ok ["team"; "ada"].
Proof.
  apply (resource_name_roundtrip [SpaceNamePrefix; SpaceMemberNamePrefix] ["team"; "ada"]).
  - done.
  - repeat constructor; [by exists "spaces"|by exists "members"].
  - repeat constructor; done.
Defined.

(** A name with one prefix and one token. *)
Lemma extract1_Ok prefix name uid :
  valid_prefix prefix → extract1 prefix name = Ok uid → name = prefix +:+ uid ∧ valid_token uid.
Proof.
  unfold extract1. intros Hp H. inv_ok.
  match goal with H : GetNameParentTokens _ _ = Ok ?ts |- _ =>
    apply GetNameParentTokens_iff in H as (-> & Hl & Hv); [|done|by constructor];
    destruct ts as [|t [|]]; [done| |done] end.
  inversion Hv. unfold token in *. cbn in *. simplify_eq. done.
Qed.
