(* ===== verification/MemoAccess.v ===== *)
(** * Reading memos

    [server/access/memo.go], [server/access/memo_resolve.go],
    [server/router/api/v1/memo_access.go], the read predicate of the SQLite
    driver ([memo_access.go]), [fetchCurrentUser] and the part of
    [GetSharedMemo] that decides what a share token opens. *)
From S2P Require Import Prelude GoLib Store SpaceStore MemoStore ResourceName.

(** ** The decision *)

Inductive MemoReadDenial :=
| MemoReadDenialNone | MemoReadDenialNotFound
| MemoReadDenialUnauthenticated | MemoReadDenialPermission.
Inductive MemoReadClass := MemoReadClassPrivate | MemoReadClassPublic.

#[export] Instance MemoReadDenial_eq_dec : EqDecision MemoReadDenial.
Proof. solve_decision. Defined.

Record MemoReadDecision := mkDecision { de_denial : MemoReadDenial; de_class : MemoReadClass }.

(** A decision literal that leaves [Class] or [Denial] out has its zero value. *)
Definition deny (d : MemoReadDenial) : MemoReadDecision := mkDecision d MemoReadClassPrivate.
Definition allow (c : MemoReadClass) : MemoReadDecision := mkDecision MemoReadDenialNone c.

Definition Allowed (d : MemoReadDecision) : bool :=
  bool_decide (de_denial d = MemoReadDenialNone).

(** A row with its id: [*store.Memo] and [*store.User]. *)
Record MemoReadContext := mkContext {
  rc_memo : option (Z * Memo);
  rc_viewer : option (Z * User);
  rc_allow_anonymous : bool;
  rc_shared_memo : option Z;
  rc_creator_valid : bool;
  rc_space_valid : bool;
  rc_viewer_space_member : bool;
}.

Definition viewer_active (ctx : MemoReadContext) : bool :=
  match rc_viewer ctx with Some (_, u) => String.eqb (us_row_status u) Normal | None => false end.

Definition CheckMemoReadContext (ctx : MemoReadContext) : MemoReadDecision :=
  match rc_memo ctx with
  | None => deny MemoReadDenialNotFound
  | Some (id, memo) =>
      let v := mm_visibility memo in
      let viewerActive := viewer_active ctx in
      let viewerIsAuthor :=
        viewerActive && match rc_viewer ctx with Some (u, _) => (u =? mm_creator memo)%Z
                        | None => false end in
      if negb (rc_creator_valid ctx) then deny MemoReadDenialNotFound
      else if negb (isValidVisibility v) then deny MemoReadDenialNotFound
      else if String.eqb v SpaceAudience
                && (bool_decide (mm_space memo = None) || negb (rc_space_valid ctx)) then
        deny MemoReadDenialNotFound
      else if String.eqb (mm_row_status memo) Archived && negb viewerIsAuthor then
        deny MemoReadDenialNotFound
      else if negb (String.eqb (mm_row_status memo) Normal)
                && negb (String.eqb (mm_row_status memo) Archived) then
        deny MemoReadDenialNotFound
      else if bool_decide (rc_shared_memo ctx = Some id) && negb (String.eqb v SpaceAudience) then
        allow MemoReadClassPrivate
      else if String.eqb v Public then
        if rc_allow_anonymous ctx then allow MemoReadClassPublic
        else if viewerActive then allow MemoReadClassPrivate
        else deny MemoReadDenialUnauthenticated
      else if String.eqb v Protected then
        if viewerActive then allow MemoReadClassPrivate else deny MemoReadDenialUnauthenticated
      else if String.eqb v Private then
        if negb viewerActive then deny MemoReadDenialUnauthenticated
        else if negb viewerIsAuthor then deny MemoReadDenialPermission
        else allow MemoReadClassPrivate
      else if String.eqb v SpaceAudience then
        if negb viewerActive then deny MemoReadDenialUnauthenticated
        else if rc_viewer_space_member ctx then allow MemoReadClassPrivate
        else deny MemoReadDenialPermission
      else deny MemoReadDenialNotFound
  end.

(** ** Resolving the context from a store *)

(** The store subset the resolution needs, as an interface. *)
Class MemoReadStore := {
  rs_GetUser : Z → result error (option (Z * User));
  rs_GetSpace : Z → result error (option Space);
  rs_GetSpaceMember : Z → Z → result error (option SpaceMember);
}.

Record MemoReadFacts := mkFacts {
  rf_memo : option (Z * Memo); rf_creator_valid : bool; rf_space_valid : bool }.

Section resolve.
Context `{MemoReadStore}.

Definition ResolveMemoReadFacts (memo : option (Z * Memo)) : result error MemoReadFacts :=
  match memo with
  | None => Ok (mkFacts None false false)
  | Some (_, m) =>
      creator ← rs_GetUser (mm_creator m);
      let creatorValid := match creator with
        | Some (id, c) => (id =? mm_creator m)%Z
            && (String.eqb (us_row_status c) Normal || String.eqb (us_row_status c) Archived)
        | None => false
        end in
      match mm_space m with
      | None => Ok (mkFacts memo creatorValid true)
      | Some s =>
          space ← rs_GetSpace s;
          Ok (mkFacts memo creatorValid (bool_decide (is_Some space)))
      end
  end.

Definition WithViewer (f : MemoReadFacts) (viewer : option (Z * User)) (allowAnonymous : bool)
    (shared : option Z) : result error MemoReadContext :=
  let ctx member := mkContext (rf_memo f) viewer allowAnonymous shared
                      (rf_creator_valid f) (rf_space_valid f) member in
  match rf_memo f with
  | None => Ok (ctx false)
  | Some (_, m) =>
      match mm_space m with
      | None => Ok (ctx false)
      | Some s =>
          if negb (rf_space_valid f) then Ok (ctx false)
          else
            match viewer with
            | None => Ok (ctx false)
            | Some (u, row) =>
                if negb (String.eqb (us_row_status row) Normal) then Ok (ctx false)
                else
                  membership ← rs_GetSpaceMember s u;
                  Ok (ctx (match membership with
                           | Some m => IsActiveMember (sm_role m)
                           | None => false
                           end))
            end
      end
  end.

Definition ResolveMemoReadContext (memo : option (Z * Memo)) (viewer : option (Z * User))
    (allowAnonymous : bool) (shared : option Z) : result error MemoReadContext :=
  facts ← ResolveMemoReadFacts memo;
  WithViewer facts viewer allowAnonymous shared.
End resolve.

(** [*store.Store] as a [MemoReadStore]: the finders with the arguments used.
    (The user cache in front of [GetUser] is transparent here.) *)
Definition find_space_id (s : Z) : FindSpace := mkFindSpace (Some s) [] None None None None.
Definition find_space_uid (uid : string) : FindSpace :=
  mkFindSpace None [] (Some uid) None None None.
Definition find_member (s u : Z) : FindSpaceMember :=
  mkFindSpaceMember (Some s) (Some u) None None None.

Definition eval_tx {A} (m : Tx A) (db : DB) : result error A := (run m db).1.

#[export] Instance db_read_store (db : DB) : MemoReadStore := {
  rs_GetUser id := Ok (match users db !! id with Some u => Some (id, u) | None => None end);
  rs_GetSpace s := eval_tx (GetSpace (find_space_id s)) db;
  rs_GetSpaceMember s u := eval_tx (GetSpaceMember (find_member s u)) db;
}.

(** ** The API layer *)

(** [fetchCurrentUser] with the user id of the authenticated request, 0 if none. *)
Definition fetchCurrentUser (db : DB) (userID : Z) : result error (option (Z * User)) :=
  if (userID =? 0)%Z then Ok None
  else match users db !! userID with
       | None => Err (Errorf "user %d not found" [itoa userID])
       | Some u => if String.eqb (us_row_status u) Normal then Ok (Some (userID, u)) else Ok None
       end.

(** [anonymous] is the answer of [AllowsAnonymousAccess]. *)
Definition buildMemoReadContext (db : DB) (userID : Z) (anonymous : bool)
    (memo : option (Z * Memo)) (shared : option Z) : result error MemoReadContext :=
  match fetchCurrentUser db userID with
  | Err _ => Err (errorf0 "failed to get user")
  | Ok viewer =>
      let allowAnonymous := match viewer with None => anonymous | Some _ => false end in
      match memo with
      | None => Err (errorf0 "memo not found")
      | Some _ =>
          match ResolveMemoReadContext (H := db_read_store db) memo viewer allowAnonymous shared with
          | Ok ctx => Ok ctx
          | Err _ => Err (errorf0 "failed to resolve memo access")
          end
      end
  end.

(** gRPC status codes; [Unknown] is the code of an error without a status. *)
Inductive code := NotFound | Unauthenticated | PermissionDenied | InvalidArgument | Internal
  | FailedPrecondition | AlreadyExists | Unknown.

(** [memoAccessDecisionError]. *)
Definition memoAccessDecisionError (d : MemoReadDecision) : option (code * string) :=
  match de_denial d with
  | MemoReadDenialNone => None
  | MemoReadDenialNotFound => Some (NotFound, "memo not found")
  | MemoReadDenialUnauthenticated => Some (Unauthenticated, "user not authenticated")
  | MemoReadDenialPermission => Some (PermissionDenied, "permission denied")
  end.

Record MemoAccessScope := mkScope {
  as_user : option Z; as_allow_public : bool; as_allow_protected : bool }.

Definition newMemoAccessScope (currentUser : option (Z * User)) (allowPublic : bool)
  : MemoAccessScope :=
  mkScope (fst <$> currentUser) allowPublic (bool_decide (is_Some currentUser)).

Definition resolveMemoAccessScope (db : DB) (userID : Z) (anonymous : bool)
  : result error MemoAccessScope :=
  match fetchCurrentUser db userID with
  | Err e => Err (Wrap e "failed to get current user")
  | Ok currentUser =>
      let allowPublic := match currentUser with None => anonymous | Some _ => true end in
      Ok (newMemoAccessScope currentUser allowPublic)
  end.

(** [sqliteMemoAccessPredicate]: the truth of each clause it writes, on a memo
    row; the clauses of a list are joined by OR. *)
Definition sqliteMemoAccessPredicate (access : MemoAccessScope) (db : DB) (memo : Memo) : bool :=
  let v := mm_visibility memo in
  let publicClauses := if as_allow_public access then [String.eqb v Public] else [] in
  let userClauses :=
    match as_user access with
    | None => []
    | Some u =>
        let private := String.eqb v Private && (mm_creator memo =? u)%Z in
        let protected := if as_allow_protected access then [String.eqb v Protected] else [] in
        let space := String.eqb v SpaceAudience &&
          match mm_space memo with
          | Some s => MemoDriver.spaceMemberActive db s u
          | None => false
          end in
        [bool_decide (active_user db u) && existsb id ([private] ++ protected ++ [space])]
    end in
  match publicClauses ++ userClauses with
  | [] => false
  | clauses =>
      let validMemo := isValidVisibility v
        && match user_status db (mm_creator memo) with
           | Some st => String.eqb st Normal || String.eqb st Archived
           | None => false
           end
        && (negb (String.eqb v SpaceAudience) ||
            match mm_space memo with Some s => space_exists db s | None => false end) in
      let validState := String.eqb (mm_row_status memo) Normal ||
        match as_user access with
        | Some u => String.eqb (mm_row_status memo) Archived && (mm_creator memo =? u)%Z
        | None => false
        end in
      existsb id clauses && validMemo && validState
  end.

(** [GetSharedMemo] up to the conversion of the memo for the response. *)
Definition GetSharedMemo (db : DB) (now : Z) (userID : Z) (anonymous : bool) (token : string)
  : option (Z * Memo) :=
  match eval_tx (getActiveMemoShare now token) db with
  | Ok (Some sh) =>
      match memos db !! sh_memo sh with
      | Some m =>
          if negb (String.eqb (mm_row_status m) Normal)
             || String.eqb (mm_visibility m) SpaceAudience then None
          else
            match buildMemoReadContext db userID anonymous (Some (sh_memo sh, m))
                    (Some (sh_memo sh)) with
            | Ok ctx => if Allowed (CheckMemoReadContext ctx) then Some (sh_memo sh, m) else None
            | Err _ => None
            end
      | None => None
      end
  | _ => None
  end.

(** [checkAttachmentPermission] of the file server: the class of the answer or
    an HTTP status.  [current] is what the authenticator makes of the request's
    credentials, [shareToken] the query parameter, empty if absent. *)
Definition checkAttachmentPermission (db : DB) (now : Z) (anonymous : bool)
    (current : result error (option (Z * User))) (shareToken : string) (attachment : Attachment)
  : result Z MemoReadClass :=
  match at_memo attachment with
  | None =>
      match current with
      | Err _ => Err 500%Z
      | Ok None => Err 401%Z
      | Ok (Some (u, _)) =>
          if negb (u =? at_creator attachment)%Z then Err 403%Z else Ok MemoReadClassPrivate
      end
  | Some id =>
      match memos db !! id with
      | None => Err 404%Z
      | Some memo =>
          let sharedMemoID :=
            if String.eqb shareToken "" then None
            else match MemoDriver.GetMemoShareByUID db shareToken with
                 | Some ms => if isMemoShareExpired now ms then None else Some (sh_memo ms)
                 | None => None
                 end in
          match ResolveMemoReadFacts (H := db_read_store db) (Some (id, memo)) with
          | Err _ => Err 500%Z
          | Ok facts =>
              match WithViewer (H := db_read_store db) facts None anonymous sharedMemoID with
              | Err _ => Err 500%Z
              | Ok anonymousContext =>
                  let anonymousDecision := CheckMemoReadContext anonymousContext in
                  if Allowed anonymousDecision then Ok (de_class anonymousDecision)
                  else
                    match current with
                    | Err _ => Err 500%Z
                    | Ok user =>
                        match WithViewer (H := db_read_store db) facts user anonymous sharedMemoID with
                        | Err _ => Err 500%Z
                        | Ok readContext =>
                            let decision := CheckMemoReadContext readContext in
                            match de_denial decision with
                            | MemoReadDenialNone => Ok (de_class decision)
                            | MemoReadDenialNotFound => Err 404%Z
                            | MemoReadDenialUnauthenticated => Err 401%Z
                            | MemoReadDenialPermission => Err 403%Z
                            end
                        end
                    end
              end
          end
      end
  end.

(** [isActiveSpaceMember]. *)
Definition isActiveSpaceMember (db : DB) (s u : Z) : result error bool :=
  match users db !! u with
  | None => Ok false
  | Some row =>
      if negb (String.eqb (us_row_status row) Normal) then Ok false
      else
        membership ← eval_tx (GetSpaceMember (find_member s u)) db;
        Ok (match membership with Some m => IsActiveMember (sm_role m) | None => false end)
  end.

(** [resolveWritableSpaceByName]. *)
Definition resolveWritableSpaceByName (db : DB) (name : string) (userID : Z)
  : result (code * string) Space :=
  match ExtractSpaceUIDFromName name with
  | Err _ => Err (InvalidArgument, "invalid space name: %v")
  | Ok uid =>
      match eval_tx (GetSpace (find_space_uid uid)) db with
      | Err _ => Err (Internal, "failed to get space")
      | Ok None => Err (NotFound, "space not found")
      | Ok (Some space) =>
          match isActiveSpaceMember db (sp_id space) userID with
          | Err _ => Err (Internal, "failed to resolve space membership")
          | Ok false => Err (NotFound, "space not found")
          | Ok true => Ok space
          end
      end
  end.

(** [requireAssignedMemoWritable]. *)
Definition requireAssignedMemoWritable (db : DB) (memo : Memo) (userID : Z)
  : result (code * string) unit :=
  match mm_space memo with
  | None => Ok tt
  | Some s =>
      match eval_tx (GetSpace (find_space_id s)) db with
      | Err _ => Err (Internal, "failed to get memo space")
      | Ok None => Err (FailedPrecondition, "memo has invalid space placement")
      | Ok (Some space) =>
          match isActiveSpaceMember db (sp_id space) userID with
          | Err _ => Err (Internal, "failed to resolve space membership")
          | Ok false => Err (PermissionDenied, "active space membership is required")
          | Ok true => Ok tt
          end
      end
  end.

(** [sameOptionalInt32]. *)
Definition sameOptionalInt32 (l r : option Z) : bool := sameMemoSpace l r.

(** The sentinel an error is, through its wrappers ([errors.Is]). *)
Fixpoint error_is (e sentinel : error) : bool :=
  match e with
  | Wrap e' _ => error_is e' sentinel
  | Errorf f _ => match sentinel with Errorf g _ => String.eqb f g | _ => false end
  | Panic _ => false
  end.

(** [mapMemoWriteError]. *)
Definition mapMemoWriteError (e : error) (operation : string) : code * string :=
  if error_is e ErrMemoMutationConflict then (FailedPrecondition, "memo state changed: %v")
  else if error_is e ErrMemoSpaceNotWritable then
    (FailedPrecondition, "memo space is no longer writable")
  else if error_is e ErrMemoSpaceMembershipRequired || error_is e ErrMemoPermissionDenied then
    (PermissionDenied, "permission denied")
  else if error_is e ErrMemoShareConflict then
    (FailedPrecondition, "revoke active shares before using the SPACE audience")
  else (Internal, operation +:+ ": %v").
