(* ===== verification/MemoAccessFacts.v ===== *)
(** Reading memos: the decision of the API against a declarative policy, and the
    SQL predicate of the lists against the decision. *)
From S2P Require Import Prelude GoLib Store SpaceStore SpaceStoreFacts MemoStore ResourceName MemoAccess.

(** ** Finders by key *)

(** A selection that only accepts one key. *)
Lemma select_one {K V} `{Countable K} (c : K → V → bool) (R : relation (K * V))
    `{!RelDecision R} (t : gmap K V) k :
  (∀ k' v, c k' v = true → k' = k) →
  select c R t = match t !! k with Some v => if c k v then [(k, v)] else [] | None => [] end.
Proof.
  intros Hk. unfold select.
  assert (filter (λ kv, c kv.1 kv.2 = true) t =
    match t !! k with Some v => if c k v then {[k := v]} else ∅ | None => ∅ end) as ->.
  { apply map_eq. intros k'. apply option_eq. intros v. rewrite map_lookup_filter_Some. cbn.
    destruct (t !! k) as [w|] eqn:Hw.
    - destruct (c k w) eqn:Hc.
      + rewrite lookup_singleton_Some. split; [|naive_solver].
        intros [Hv Hcv]. apply Hk in Hcv as ->. split; congruence.
      + rewrite lookup_empty. split; [|done]. intros [Hv Hcv].
        apply Hk in Hcv as Heq. subst. congruence.
    - rewrite lookup_empty. split; [|done]. intros [Hv Hcv].
      apply Hk in Hcv as Heq. subst. congruence. }
  destruct (t !! k) as [w|]; [destruct (c k w)|];
    rewrite ?map_to_list_singleton, ?map_to_list_empty; done.
Qed.

Lemma GetSpace_id db s :
  eval_tx (GetSpace (find_space_id s)) db
  = Ok ((λ row, mkSpace s (sr_uid row) (sr_title row) (sr_description row) "" 0)
          <$> spaces db !! s).
Proof.
  unfold eval_tx, run, GetSpace, Driver.ListSpaces. cbv [mbind SE_bind query mret SE_ret].
  cbn -[select]. rewrite (select_one _ _ _ s).
  - destruct (spaces db !! s) as [row|]; [|done]. cbn. by rewrite bool_decide_true.
  - intros k row Hc. rewrite !andb_true_iff, bool_decide_eq_true in Hc. by destruct Hc as [[? _] _].
Qed.

(** The lookup of one membership: an ACTIVE row with a known role, of a NORMAL
    user, in an existing space. *)
Lemma GetSpaceMember_key db s u :
  eval_tx (GetSpaceMember (find_member s u)) db =
  Ok (match members db !! (s, u) with
      | Some m => if MemoDriver.spaceMemberActive db s u && space_exists db s
                     && bool_decide (active_user db u)
                  then Some (mkSpaceMember s u (mb_role m)) else None
      | None => None
      end).
Proof.
  unfold eval_tx, run, GetSpaceMember, Driver.ListSpaceMembers.
  cbv [mbind SE_bind query mret SE_ret]. cbn -[select]. rewrite (select_one _ _ _ (s, u)).
  - unfold MemoDriver.spaceMemberActive.
    destruct (members db !! (s, u)) as [m|] eqn:Hm; [|done]. cbn.
    rewrite (bool_decide_true (s = s)), (bool_decide_true (u = u)), !andb_true_r by done.
    assert (bool_decide (mb_status m = SpaceMemberStatusActive)
            = String.eqb (mb_status m) SpaceMemberStatusActive) as ->.
    { case_bool_decide as Hs; [by rewrite Hs|]. symmetry. by apply String.eqb_neq. }
    by destruct (_ && _).
  - intros [k1 k2] m Hc. cbn in Hc.
    rewrite !andb_true_iff, !bool_decide_eq_true in Hc. destruct Hc as [[[_ ->] ->] _]. done.
Qed.

(** ** The decision *)

(** Who may read a memo, stated once: the memo has a valid creator and state,
    and its audience admits the reader. *)
Definition audience_admits (ctx : MemoReadContext) (id : Z) (m : Memo) : Prop :=
  let v := mm_visibility m in
  (rc_shared_memo ctx = Some id ∧ v ≠ SpaceAudience ∧ isValidVisibility v = true) ∨
  (v = Public ∧ (rc_allow_anonymous ctx = true ∨ viewer_active ctx = true)) ∨
  (v = Protected ∧ viewer_active ctx = true) ∨
  (v = Private ∧ viewer_active ctx = true ∧ fst <$> rc_viewer ctx = Some (mm_creator m)) ∨
  (v = SpaceAudience ∧ viewer_active ctx = true ∧ rc_viewer_space_member ctx = true).

Definition may_read (ctx : MemoReadContext) : Prop :=
  ∃ id m, rc_memo ctx = Some (id, m) ∧ rc_creator_valid ctx = true ∧
    (mm_visibility m = SpaceAudience → mm_space m ≠ None ∧ rc_space_valid ctx = true) ∧
    (mm_row_status m = Normal ∨
     mm_row_status m = Archived ∧ viewer_active ctx = true ∧
       fst <$> rc_viewer ctx = Some (mm_creator m)) ∧
    audience_admits ctx id m.

Lemma viewer_is_author ctx m :
  viewer_active ctx && match rc_viewer ctx with Some (u, _) => (u =? mm_creator m)%Z | None => false end
    = true ↔
  viewer_active ctx = true ∧ fst <$> rc_viewer ctx = Some (mm_creator m).
Proof.
  rewrite andb_true_iff. destruct (rc_viewer ctx) as [[u row]|]; cbn; [|naive_solver].
  rewrite Z.eqb_eq. naive_solver.
Qed.

Lemma valid_visibility_cases v :
  isValidVisibility v = true ↔ v = Public ∨ v = Protected ∨ v = Private ∨ v = SpaceAudience.
Proof. unfold isValidVisibility. rewrite !orb_true_iff, !String.eqb_eq. tauto. Qed.

Lemma decision_policy ctx : Allowed (CheckMemoReadContext ctx) = true ↔ may_read ctx.
Proof.
  unfold may_read, CheckMemoReadContext, Allowed.
  destruct (rc_memo ctx) as [[id m]|]; [|rewrite bool_decide_eq_true; naive_solver].
  pose proof (viewer_is_author ctx m) as Hauth.
  remember (viewer_active ctx && _) as author eqn:Heq. clear Heq.
  destruct (rc_creator_valid ctx); cbn [negb]; [|rewrite bool_decide_eq_true; naive_solver].
  assert (isValidVisibility (mm_visibility m) = false → ¬ audience_admits ctx id m) as Hinvalid.
  { intros Hv Ha. assert (isValidVisibility (mm_visibility m) = true); [|congruence].
    apply valid_visibility_cases. unfold audience_admits in Ha.
    rewrite valid_visibility_cases in Ha. naive_solver. }
  destruct (isValidVisibility (mm_visibility m)) eqn:Hv; cbn [negb];
    [|rewrite bool_decide_eq_true; naive_solver]. clear Hinvalid.
  apply valid_visibility_cases in Hv as Hcases.
  split.
  - intros Ha. exists id, m. split; [done|]. split; [done|]. revert Ha.
    destruct (String.eqb (mm_visibility m) SpaceAudience && _) eqn:Hsp;
      [by rewrite bool_decide_eq_true|].
    destruct (String.eqb (mm_row_status m) Archived && negb author) eqn:Har;
      [by rewrite bool_decide_eq_true|].
    destruct (negb (String.eqb (mm_row_status m) Normal) && _) eqn:Hst;
      [by rewrite bool_decide_eq_true|].
    intros Ha. split_and!.
    + intros Hvs. rewrite Hvs in Hsp. cbn in Hsp. apply orb_false_iff in Hsp as [H1 H2].
      apply bool_decide_eq_false in H1. by apply negb_false_iff in H2.
    + destruct (String.eqb_spec (mm_row_status m) Normal); [by left|right].
      destruct (String.eqb_spec (mm_row_status m) Archived); [|done]. cbn in Har.
      apply negb_false_iff in Har. by apply Hauth in Har.
    + unfold audience_admits. rewrite Hv.
      destruct (bool_decide_reflect (rc_shared_memo ctx = Some id)) as [Hsh|Hsh];
        destruct Hcases as [Hx|[Hx|[Hx|Hx]]]; rewrite Hx in *; cbn in Ha; try by left.
      all: right.
      all: destruct (viewer_active ctx); cbn in Ha; try discriminate Ha.
      all: try (destruct (rc_allow_anonymous ctx); [|discriminate Ha]).
      all: try (destruct author; [destruct (proj1 Hauth eq_refl) as [_ ?]|discriminate Ha]).
      all: try (destruct (rc_viewer_space_member ctx); [|discriminate Ha]).
      all: naive_solver.
  - intros (id' & m' & [= <- <-] & _ & Hsp & Hst & Had).
    assert (String.eqb (mm_visibility m) SpaceAudience
      && (bool_decide (mm_space m = None) || negb (rc_space_valid ctx)) = false) as ->.
    { destruct (String.eqb_spec (mm_visibility m) SpaceAudience) as [Hvs|]; [|done].
      destruct (Hsp Hvs) as [? ->]. by rewrite bool_decide_false. }
    assert (String.eqb (mm_row_status m) Archived && negb author = false) as ->.
    { destruct Hst as [->|(_ & Hx)]; [done|]. apply Hauth in Hx as ->. apply andb_false_r. }
    assert (negb (String.eqb (mm_row_status m) Normal)
      && negb (String.eqb (mm_row_status m) Archived) = false) as ->
      by (destruct Hst as [->|[-> _]]; done).
    unfold audience_admits in Had. rewrite Hv in Had.
    destruct (bool_decide_reflect (rc_shared_memo ctx = Some id)) as [Hsh|Hsh];
      destruct Hcases as [Hx|[Hx|[Hx|Hx]]]; rewrite Hx in *; cbn; try done.
    all: destruct Had as [(? & ? & ?)|[(? & ?)|[(? & ?)|[(? & Hx')|(? & ? & ?)]]]];
      try discriminate; try done.
    all: repeat match goal with H : _ ∨ _ |- _ => destruct H end.
    all: repeat match goal with H : ?x = true |- context [?x] => rewrite H end; try done.
    all: try (by destruct (rc_allow_anonymous ctx)).
    all: apply Hauth in Hx' as Ha'; destruct Hx' as [-> _]; by rewrite Ha'.
Qed.

(** C19. The read decision is exactly the documented policy: it fails closed on a
    missing memo, an invalid creator, an unknown audience or state and a SPACE
    memo without its space; an archived memo is its author's only; a share opens
    just the memo it names and never a SPACE memo; and otherwise the audience
    decides. *)
Theorem read_decision_is_policy ctx : Allowed (CheckMemoReadContext ctx) = true ↔ may_read ctx.
Proof. apply decision_policy. Qed.

(** ** The context read from the store *)

Definition creator_valid (db : DB) (m : Memo) : bool :=
  match user_status db (mm_creator m) with
  | Some st => String.eqb st Normal || String.eqb st Archived
  | None => false
  end.
Definition placement_valid (db : DB) (m : Memo) : bool :=
  match mm_space m with Some s => space_exists db s | None => true end.
Definition viewer_member (db : DB) (viewer : option (Z * User)) (m : Memo) : bool :=
  match mm_space m, viewer with
  | Some s, Some (u, row) =>
      space_exists db s && String.eqb (us_row_status row) Normal
        && MemoDriver.spaceMemberActive db s u && bool_decide (active_user db u)
  | _, _ => false
  end.

Lemma resolve_context db id m viewer anonymous shared :
  ResolveMemoReadContext (H := db_read_store db) (Some (id, m)) viewer anonymous shared =
  Ok (mkContext (Some (id, m)) viewer anonymous shared (creator_valid db m)
        (placement_valid db m) (viewer_member db viewer m)).
Proof.
  unfold ResolveMemoReadContext, ResolveMemoReadFacts, WithViewer, creator_valid,
    placement_valid, viewer_member, user_status.
  cbn [rs_GetUser rs_GetSpace rs_GetSpaceMember db_read_store mbind result_bind].
  assert (∀ c : Z * User, (mm_creator m =? mm_creator m)%Z = true) as Hid
    by (intros _; apply Z.eqb_refl).
  destruct (mm_space m) as [s|] eqn:Hms; cbn [mbind result_bind rf_memo].
  - rewrite GetSpace_id. cbn [mbind result_bind rf_memo rf_space_valid rf_creator_valid].
    rewrite Hms.
    assert (bool_decide (is_Some ((λ row, mkSpace s (sr_uid row) (sr_title row)
      (sr_description row) "" 0) <$> spaces db !! s)) = space_exists db s) as ->.
    { unfold space_exists. apply bool_decide_ext. by rewrite fmap_is_Some. }
    destruct (space_exists db s) eqn:Hs; cbn [negb];
      [|destruct viewer as [[u row]|], (users db !! mm_creator m); cbn;
        rewrite ?Z.eqb_refl; done].
    destruct viewer as [[u row]|];
      [|destruct (users db !! mm_creator m); cbn; rewrite ?Z.eqb_refl; done].
    destruct (String.eqb (us_row_status row) Normal); cbn [negb];
      [|destruct (users db !! mm_creator m); cbn; rewrite ?Z.eqb_refl; done].
    rewrite GetSpaceMember_key. cbn [mbind result_bind]. rewrite Hs.
    assert (match match members db !! (s, u) with
        | Some mb => if MemoDriver.spaceMemberActive db s u && true && bool_decide (active_user db u)
                     then Some (mkSpaceMember s u (mb_role mb)) else None
        | None => None
        end with Some mb => IsActiveMember (sm_role mb) | None => false end
      = MemoDriver.spaceMemberActive db s u && bool_decide (active_user db u)) as ->.
    { unfold MemoDriver.spaceMemberActive. destruct (members db !! (s, u)) as [mb|]; [|done].
      destruct (String.eqb (mb_status mb) _), (IsActiveMember (mb_role mb)) eqn:Hr,
        (bool_decide (active_user db u)); cbn; done. }
    destruct (users db !! mm_creator m); cbn -[active_user]; rewrite ?Z.eqb_refl; done.
  - rewrite Hms.
    destruct viewer as [[u row]|], (users db !! mm_creator m); cbn; rewrite ?Z.eqb_refl; done.
Qed.

(** The user a request acts for. *)
Lemma fetchCurrentUser_cases db userID :
  (∃ e, fetchCurrentUser db userID = Err e) ∨
  fetchCurrentUser db userID = Ok None ∨
  (∃ row, fetchCurrentUser db userID = Ok (Some (userID, row)) ∧
          users db !! userID = Some row ∧ us_row_status row = Normal).
Proof.
  unfold fetchCurrentUser. destruct (userID =? 0)%Z; [by right; left|].
  destruct (users db !! userID) as [row|]; [|left; eauto].
  destruct (String.eqb_spec (us_row_status row) Normal); [right; right; eauto|by right; left].
Qed.

Lemma existsb_id_app l1 l2 : existsb id (l1 ++ l2) = existsb id l1 || existsb id l2.
Proof. apply existsb_app. Qed.

(** The predicate of an anonymous reader. *)
Lemma predicate_anonymous db anonymous m :
  sqliteMemoAccessPredicate (newMemoAccessScope None anonymous) db m
  = anonymous && String.eqb (mm_visibility m) Public && creator_valid db m
      && String.eqb (mm_row_status m) Normal.
Proof.
  unfold sqliteMemoAccessPredicate, newMemoAccessScope, creator_valid. cbn.
  destruct anonymous; cbn; [|done]. rewrite orb_false_r.
  destruct (String.eqb_spec (mm_visibility m) Public) as [->|]; cbn; [|done].
  by rewrite orb_false_r, andb_true_r.
Qed.

(** What an active user may read, as one formula. *)
Definition user_reads (db : DB) (u : Z) (m : Memo) : bool :=
  (String.eqb (mm_visibility m) Public
   || (String.eqb (mm_visibility m) Private && (mm_creator m =? u)%Z)
   || String.eqb (mm_visibility m) Protected
   || (String.eqb (mm_visibility m) SpaceAudience
       && match mm_space m with Some s => MemoDriver.spaceMemberActive db s u && space_exists db s
          | None => false end))
  && creator_valid db m
  && (String.eqb (mm_row_status m) Normal
      || String.eqb (mm_row_status m) Archived && (mm_creator m =? u)%Z).

(** The predicate of an active user. *)
Lemma predicate_user db u row m :
  users db !! u = Some row → us_row_status row = Normal →
  sqliteMemoAccessPredicate (newMemoAccessScope (Some (u, row)) true) db m = user_reads db u m.
Proof.
  intros Hu Hs. unfold user_reads.
  assert (bool_decide (active_user db u) = true) as Hact.
  { apply bool_decide_true. unfold active_user, user_status. rewrite Hu. cbn. by rewrite Hs. }
  unfold sqliteMemoAccessPredicate, newMemoAccessScope. fold (creator_valid db m).
  cbn [as_user as_allow_public as_allow_protected fmap option_fmap option_map fst].
  rewrite Hact, (bool_decide_true (is_Some _)) by by eexists.
  cbn [app existsb id andb]. unfold isValidVisibility. rewrite !orb_false_r.
  destruct (mm_space m) as [s|];
    [destruct (MemoDriver.spaceMemberActive db s u), (space_exists db s)|];
    destruct (String.eqb_spec (mm_visibility m) Public) as [->|];
    try (destruct (String.eqb_spec (mm_visibility m) Private) as [->|]);
    try (destruct (String.eqb_spec (mm_visibility m) Protected) as [->|]);
    try (destruct (String.eqb_spec (mm_visibility m) SpaceAudience) as [->|]);
    cbn; rewrite ?andb_true_r, ?andb_false_r, ?orb_false_r; cbn; try done;
    try (by destruct (mm_creator m =? u)%Z);
    by destruct (mm_visibility m =? SpaceAudience)%string, (creator_valid db m).
Qed.

Lemma eq_true_iff (a b : bool) : (a = true ↔ b = true) → a = b.
Proof. destruct a, b; naive_solver. Qed.

(** The decision for an active user. *)
Lemma decision_user db u row anonymous id m :
  users db !! u = Some row → us_row_status row = Normal →
  Allowed (CheckMemoReadContext (mkContext (Some (id, m)) (Some (u, row)) anonymous None
    (creator_valid db m) (placement_valid db m) (viewer_member db (Some (u, row)) m)))
  = user_reads db u m.
Proof.
  intros Hrow Hst. symmetry. apply eq_true_iff. unfold user_reads.
  rewrite decision_policy. unfold may_read, audience_admits, viewer_active, viewer_member.
  cbn. rewrite Hst. cbn.
  assert (bool_decide (active_user db u) = true) as Hact.
  { apply bool_decide_true. unfold active_user, user_status. rewrite Hrow. cbn. by rewrite Hst. }
  rewrite Hact. unfold placement_valid.
  rewrite !andb_true_iff, !orb_true_iff, !andb_true_iff, !String.eqb_eq, !Z.eqb_eq. split.
  + intros [[Hv Hc] Hs]. exists id, m. split; [done|]. split; [done|].
    split; [|split].
    * intros Hsp. rewrite Hsp in Hv. destruct Hv as [[[?|[? _]]|?]|[_ Hm]]; try discriminate.
      destruct (mm_space m); [|done]. split; [done|]. by apply andb_true_iff in Hm as [_ ->].
    * destruct Hs as [?|[? ->]]; [by left|by right].
    * right. destruct Hv as [[[?|[? ->]]|?]|[? Hm]]; [tauto..|].
      right; right; right. split; [done|]. split; [done|]. destruct (mm_space m); [|done].
      by apply andb_true_iff in Hm as [-> ->].
  + intros (id' & m' & [= <- <-] & Hc & Hsp & Hs & Ha). split; [split; [|done]|].
    * destruct Ha as [(? & _)|[(? & _)|[(? & _)|[(? & _ & Ha)|(? & _ & Hm)]]]];
        [done|tauto|tauto|left; left; right; split; congruence|].
      right. split; [done|]. destruct (mm_space m); [|done].
      rewrite !andb_true_iff in Hm. by destruct Hm as [[[-> _] ->] _].
    * destruct Hs as [|(? & _ & [= ->])]; tauto.
Qed.

Lemma predicate_agrees_with_decision db userID anonymous id m :
  match resolveMemoAccessScope db userID anonymous,
        buildMemoReadContext db userID anonymous (Some (id, m)) None with
  | Ok scope, Ok ctx =>
      sqliteMemoAccessPredicate scope db m = Allowed (CheckMemoReadContext ctx)
  | Err _, Err _ => True
  | _, _ => False
  end.
Proof.
  unfold resolveMemoAccessScope, buildMemoReadContext.
  destruct (fetchCurrentUser_cases db userID) as [[e ->]|[->|(row & -> & Hrow & Hst)]];
    [done|rewrite resolve_context..].
  - rewrite predicate_anonymous. apply eq_true_iff. rewrite decision_policy.
    unfold may_read, audience_admits, viewer_active. cbn.
    rewrite !andb_true_iff, !String.eqb_eq. split.
    + intros [[[-> Hv] Hc] Hs]. exists id, m. rewrite Hv.
      split; [done|]. split; [done|]. split; [done|]. split; [by left|].
      right; left. split; [done|by left].
    + intros (id' & m' & [= <- <-] & Hc & _ & Hs & Ha).
      assert (mm_row_status m = Normal) by (by destruct Hs as [|(_ & ? & _)]).
      destruct Ha as [(? & _)|[(? & [?|?])|[(_ & ?)|[(_ & ? & _)|(_ & ? & _)]]]]; by try done.
  - rewrite (predicate_user db userID row m Hrow Hst). symmetry. by apply decision_user.
Qed.

(** C20. Lists and single reads agree: for every request and every memo, the SQL
    predicate that filters a list admits the memo exactly when reading that memo
    on its own is allowed; both fail for the same requests.  So a list neither
    leaks a memo nor hides a readable one. *)
Theorem list_predicate_agrees_with_decision db userID anonymous id m :
  match resolveMemoAccessScope db userID anonymous,
        buildMemoReadContext db userID anonymous (Some (id, m)) None with
  | Ok scope, Ok ctx =>
      sqliteMemoAccessPredicate scope db m = Allowed (CheckMemoReadContext ctx)
  | Err _, Err _ => True
  | _, _ => False
  end.
Proof. apply predicate_agrees_with_decision. Qed.

(** ** Shares *)

(** A share token opens a memo exactly when a share with that token exists,
    has not passed its expiry (at the expiry second itself it is still valid) and
    names the memo, the memo is NORMAL, has a valid creator and an audience other
    than SPACE: a token never reveals an archived memo, a SPACE memo or any memo
    but the one it was made for, whoever presents it. *)
Theorem shared_memo_exact db now userID anonymous token id m :
  GetSharedMemo db now userID anonymous token = Some (id, m) ↔
  (∃ sh, MemoDriver.GetMemoShareByUID db token = Some sh ∧ sh_memo sh = id ∧
         (∀ e, sh_expires_ts sh = Some e → (now ≤ e)%Z)) ∧
  memos db !! id = Some m ∧ mm_row_status m = Normal ∧
  (mm_visibility m = Public ∨ mm_visibility m = Protected ∨ mm_visibility m = Private) ∧
  creator_valid db m = true ∧ is_ok (fetchCurrentUser db userID) = true.
Proof.
  unfold GetSharedMemo, getActiveMemoShare, eval_tx, run, query.
  destruct (MemoDriver.GetMemoShareByUID db token) as [sh|]; [|naive_solver].
  assert (isMemoShareExpired now sh = false ↔ ∀ e, sh_expires_ts sh = Some e → (now ≤ e)%Z) as Hexp.
  { unfold isMemoShareExpired. destruct (sh_expires_ts sh) as [e|]; [|naive_solver].
    rewrite Z.ltb_ge. split; [by intros ? ? [= <-]|eauto]. }
  destruct (isMemoShareExpired now sh).
  { split; [done|]. intros ((sh' & [= <-] & _ & Hx) & _). by apply Hexp in Hx. }
  apply proj1 in Hexp. specialize (Hexp eq_refl).
  cbn [fst]. destruct (memos db !! sh_memo sh) as [m'|] eqn:Hm; cbn [fst].
  2:{ split; [done|]. intros ((sh' & [= <-] & <- & _) & Hm' & _). congruence. }
  unfold buildMemoReadContext.
  assert (∀ ctx, rc_memo ctx = Some (sh_memo sh, m') → rc_shared_memo ctx = Some (sh_memo sh) →
    rc_creator_valid ctx = creator_valid db m' → mm_row_status m' = Normal →
    mm_visibility m' ≠ SpaceAudience →
    Allowed (CheckMemoReadContext ctx) = isValidVisibility (mm_visibility m') && creator_valid db m')
    as Hdec.
  { intros ctx H1 H2 H3 Hn Hs. unfold CheckMemoReadContext. rewrite H1, H2, H3, Hn. cbn.
    destruct (creator_valid db m'), (isValidVisibility (mm_visibility m')); try done. cbn.
    rewrite (proj2 (String.eqb_neq _ _) Hs). cbn. by rewrite bool_decide_true. }
  assert ((∃ sh0, Some sh = Some sh0 ∧ sh_memo sh0 = id ∧
      (∀ e, sh_expires_ts sh0 = Some e → (now ≤ e)%Z)) ↔ sh_memo sh = id) as ->
    by naive_solver.
  destruct (String.eqb_spec (mm_row_status m') Normal) as [Hn|Hn]; cbn [negb orb].
  2:{ split; [done|]. intros (<- & ? & ? & _). congruence. }
  destruct (String.eqb_spec (mm_visibility m') SpaceAudience) as [Hs|Hs].
  { split; [done|]. intros (<- & Hm' & _ & Hv & _).
    rewrite Hm in Hm'. injection Hm' as <-. rewrite Hs in Hv. naive_solver. }
  pose proof (valid_visibility_cases (mm_visibility m')) as Hvv.
  destruct (fetchCurrentUser db userID) as [viewer|]; [|naive_solver].
  rewrite resolve_context, Hdec by done.
  destruct (isValidVisibility (mm_visibility m')) eqn:Hv, (creator_valid db m') eqn:Hc; cbn.
  - split; [intros [= <- <-]; naive_solver|]. intros (<- & ? & _). congruence.
  - split; [done|]. intros (<- & ? & _ & _ & ? & _). congruence.
  - split; [done|]. intros (<- & Hm' & _ & ? & _).
    assert (m = m') as -> by congruence. assert (false = true) by (apply Hvv; tauto). done.
  - split; [done|]. intros (<- & ? & _ & _ & ? & _). congruence.
Qed.

(** ** Attachments of memos *)

(** The class of a decision is PUBLIC in one case only. *)
Lemma public_class ctx id m :
  rc_memo ctx = Some (id, m) →
  Allowed (CheckMemoReadContext ctx) = true ∧
  de_class (CheckMemoReadContext ctx) = MemoReadClassPublic ↔
  rc_creator_valid ctx = true ∧ mm_visibility m = Public ∧ rc_allow_anonymous ctx = true ∧
  rc_shared_memo ctx ≠ Some id ∧
  (mm_row_status m = Normal ∨ mm_row_status m = Archived ∧ viewer_active ctx = true ∧
     fst <$> rc_viewer ctx = Some (mm_creator m)).
Proof.
  intros Hm. rewrite decision_policy. unfold may_read. rewrite Hm. split.
  - intros [(id' & m' & [= <- <-] & Hc & Hsp & Hst & _) Hcl]. revert Hcl.
    unfold CheckMemoReadContext. rewrite Hm, Hc. cbn [negb].
    repeat match goal with
    | |- context [if ?b then _ else _] => destruct b eqn:?; try (intros Hx; discriminate Hx)
    end. intros _.
    repeat match goal with
    | H : String.eqb _ _ = true |- _ => apply String.eqb_eq in H
    | H : String.eqb _ _ = false |- _ => apply String.eqb_neq in H
    | H : bool_decide _ && _ = false |- _ => rewrite andb_false_iff, bool_decide_eq_false in H
    end.
    split; [done|]. split; [done|]. split; [done|]. split; [|done].
    match goal with H : _ ≠ _ ∨ negb (String.eqb ?v _) = false, H' : ?v = _ |- _ =>
      rewrite H' in H; destruct H as [|Hx]; [done|discriminate Hx] end.
  - intros (Hc & Hv & Ha & Hsh & Hst). split.
    + exists id, m. rewrite Hv. split; [done|]. split; [done|]. split; [done|].
      split; [done|]. right; left. rewrite Hv. split; [done|by left].
    + unfold CheckMemoReadContext. rewrite Hm, Hc, Hv. cbn [negb].
      pose proof (viewer_is_author ctx m) as Hauth.
      rewrite (bool_decide_false _ Hsh), Ha. cbn.
      destruct Hst as [->|[-> Hx]]; cbn; [done|]. by rewrite (proj2 Hauth Hx).
Qed.

Lemma with_viewer_context db id m viewer anonymous shared facts :
  ResolveMemoReadFacts (H := db_read_store db) (Some (id, m)) = Ok facts →
  WithViewer (H := db_read_store db) facts viewer anonymous shared =
  Ok (mkContext (Some (id, m)) viewer anonymous shared (creator_valid db m)
        (placement_valid db m) (viewer_member db viewer m)).
Proof.
  intros Hf. rewrite <- resolve_context. unfold ResolveMemoReadContext. by rewrite Hf.
Qed.

Lemma facts_resolve db id m :
  ∃ facts, ResolveMemoReadFacts (H := db_read_store db) (Some (id, m)) = Ok facts.
Proof.
  pose proof (resolve_context db id m None false None) as H.
  unfold ResolveMemoReadContext in H. apply bind_Ok in H as (f & Hf & _). eauto.
Qed.

(** When the file server lets everyone cache an attachment: exactly for a
    PUBLIC memo of a valid creator on an instance open to anonymous readers, not
    asked for through a share of that memo, which is NORMAL - or which is
    ARCHIVED and whose author asks.  The last case is a memo that is not readable
    without credentials, although the class is documented as meaning just that. *)
Theorem public_attachment_class_exact db now anonymous current token att :
  checkAttachmentPermission db now anonymous current token att = Ok MemoReadClassPublic ↔
  ∃ id m, at_memo att = Some id ∧ memos db !! id = Some m ∧ creator_valid db m = true ∧
    mm_visibility m = Public ∧ anonymous = true ∧
    (∀ sh, token ≠ "" → MemoDriver.GetMemoShareByUID db token = Some sh →
           isMemoShareExpired now sh = false → sh_memo sh ≠ id) ∧
    (mm_row_status m = Normal ∨
     mm_row_status m = Archived ∧
       ∃ row, current = Ok (Some (mm_creator m, row)) ∧ us_row_status row = Normal).
Proof.
  unfold checkAttachmentPermission. destruct (at_memo att) as [id|].
  2:{ split; [|naive_solver]. destruct current as [[[u ?]|]|]; [destruct (negb _)|..]; done. }
  destruct (memos db !! id) as [m|] eqn:Hm; [|split; naive_solver].
  set (shared := if String.eqb token "" then _ else _).
  assert (shared ≠ Some id ↔
    (∀ sh, token ≠ "" → MemoDriver.GetMemoShareByUID db token = Some sh →
           isMemoShareExpired now sh = false → sh_memo sh ≠ id)) as Hsh.
  { unfold shared. destruct (String.eqb_spec token ""); [naive_solver|].
    destruct (MemoDriver.GetMemoShareByUID db token) as [sh|]; [|naive_solver].
    destruct (isMemoShareExpired now sh) eqn:Hx; split.
    - intros _ sh' _ [= <-]. congruence.
    - done.
    - intros Hid sh' _ [= <-] _. congruence.
    - intros Hid [= Heq]. by apply (Hid sh). }
  destruct (facts_resolve db id m) as [facts Hf]. rewrite Hf.
  rewrite (with_viewer_context _ _ _ _ _ _ _ Hf).
  set (ctx0 := mkContext _ None _ _ _ _ _).
  assert (Allowed (CheckMemoReadContext ctx0) = true ∧
          de_class (CheckMemoReadContext ctx0) = MemoReadClassPublic ↔
          creator_valid db m = true ∧ mm_visibility m = Public ∧ anonymous = true ∧
          shared ≠ Some id ∧ (mm_row_status m = Normal ∨ mm_row_status m = Archived ∧
            false = true ∧ None = Some (mm_creator m))) as H0
    by exact (public_class ctx0 id m eq_refl).
  transitivity (creator_valid db m = true ∧ mm_visibility m = Public ∧ anonymous = true ∧
    shared ≠ Some id ∧ (mm_row_status m = Normal ∨ mm_row_status m = Archived ∧
       ∃ row, current = Ok (Some (mm_creator m, row)) ∧ us_row_status row = Normal)).
  2:{ rewrite Hsh. naive_solver. }
  destruct (Allowed (CheckMemoReadContext ctx0)) eqn:Ha0.
  - assert (mm_row_status m = Normal) as Hn.
    { apply decision_policy in Ha0 as (? & ? & [= <- <-] & _ & _ & Hst & _).
      destruct Hst as [|(_ & Hx & _)]; [done|discriminate Hx]. }
    split; [intros [= Hc]; destruct (proj1 H0 (conj eq_refl Hc)); naive_solver|].
    intros (? & ? & ? & ? & _). f_equal. apply H0. naive_solver.
  - destruct current as [user|e].
    2:{ split; [done|]. intros (? & ? & ? & ? & [?|(_ & ? & ? & _)]); [|done].
        assert (false = true ∧ de_class (CheckMemoReadContext ctx0) = MemoReadClassPublic)
          as [? _]; [|done]. apply H0. tauto. }
    rewrite (with_viewer_context _ _ _ _ _ _ _ Hf).
    set (ctx := mkContext _ user _ _ _ _ _).
    pose proof (public_class ctx id m eq_refl) as H1. unfold Allowed in H1.
    rewrite bool_decide_eq_true in H1.
    transitivity (de_denial (CheckMemoReadContext ctx) = MemoReadDenialNone ∧
                  de_class (CheckMemoReadContext ctx) = MemoReadClassPublic).
    { destruct (de_denial (CheckMemoReadContext ctx)); split; try (by intros []); try done.
      - by intros [= ->].
      - by intros [_ ->]. }
    rewrite H1. unfold ctx, viewer_active. cbn.
    do 4 apply and_iff_compat_l. apply or_iff_compat_l, and_iff_compat_l. destruct user as [[u row]|]; cbn; rewrite ?String.eqb_eq; split.
    + intros [? [= ->]]. by exists row.
    + intros (row' & [= -> ->] & ?). done.
    + by intros [? _].
    + by intros (row' & ? & _).
Qed.
