(* ===== verification/FilterAccess.v ===== *)
(** * Filters over spaces

    [server/router/api/v1/filter_access.go]: a filter may only tell spaces
    apart that the user belongs to, and only by a non-negated equality. *)
From S2P Require Import Prelude GoLib GoTime FilterIR FilterParser FilterRender FilterRenderBool Store SpaceStore SpaceStoreFacts MemoStore ResourceName MemoAccess MemoAccessFacts.

(** ** The code *)

Fixpoint valueReferencesSpace (v : ValueExpr) : bool :=
  match v with
  | FieldRef name => String.eqb name "space"
  | FunctionValue _ args =>
      (fix any (l : list ValueExpr) : bool :=
         match l with [] => false | a :: l => valueReferencesSpace a || any l end) args
  | FieldAccessorValue field _ => String.eqb field "space"
  | LiteralValue _ => false
  end.

Definition err_space_equality := errorf0 "space only supports a non-negated equality comparison".
Definition err_space_name := errorf0 "space must be compared with a resource name or null".
Definition err_space_in := errorf0 "space does not support the in operator".

(** The names collected so far are threaded through; the caller drops them on an
    error. *)
Fixpoint collectSpaceFilterNames (c : Condition) (negated : bool) (names : gset string)
  : result error (gset string) :=
  match c with
  | LogicalCondition _ l r =>
      names ← collectSpaceFilterNames l negated names;
      collectSpaceFilterNames r negated names
  | NotCondition e => collectSpaceFilterNames e true names
  | ComparisonCondition l op r =>
      if negb (valueReferencesSpace l) && negb (valueReferencesSpace r) then Ok names
      else
        match l with
        | FieldRef n =>
            if negb (String.eqb n "space") || negated || negb (bool_decide (op = CompareEq)) then
              Err err_space_equality
            else
              match r with
              | LiteralValue VNil => Ok names
              | LiteralValue (VString name) => Ok ({[name]} ∪ names)
              | _ => Err err_space_name
              end
        | _ => Err err_space_equality
        end
  | InCondition l values =>
      if valueReferencesSpace l || existsb valueReferencesSpace values
      then Err err_space_in else Ok names
  | ElementInCondition e field =>
      if String.eqb field "space" || valueReferencesSpace e then Err err_space_in else Ok names
  | FieldPredicateCondition field =>
      if String.eqb field "space" then Err err_space_name else Ok names
  | TextMatchCondition field _ _ =>
      if String.eqb field "space" then Err (errorf0 "space does not support text matching")
      else Ok names
  | RegexCondition field _ =>
      if String.eqb field "space" then Err (errorf0 "space does not support regular expressions")
      else Ok names
  | ListComprehensionCondition _ field _ _ =>
      if String.eqb field "space" then Err (errorf0 "space does not support list operations")
      else Ok names
  | ConstantCondition _ => Ok names
  end.

(** [slices.Sort] on strings: byte order. *)
Definition string_le (a b : string) : Prop := String.leb a b = true.
#[export] Instance string_le_dec : RelDecision string_le.
Proof. unfold string_le. solve_decision. Defined.
Definition sort_strings (l : list string) : list string := merge_sort string_le l.

Section validate.
Context `{GoPlatform} (cel_compile : Schema → string → result error expr).

Fixpoint resolve_names (db : DB) (userID : Z) (names : list string)
  : result (code * string) unit :=
  match names with
  | [] => Ok tt
  | n :: names => _ ← resolveWritableSpaceByName db n userID; resolve_names db userID names
  end.

Definition validateFilterSpaceAccess (db : DB) (filterText : string) (engine : Engine)
    (dialect : DialectName) (user : option Z) : result (code * string) unit :=
  match Compile cel_compile engine filterText with
  | Err _ => Err (InvalidArgument, "invalid filter: %v")
  | Ok program =>
      match program_render program (mkRenderOptions dialect 0) with
      | Err _ => Err (InvalidArgument, "invalid filter: %v")
      | Ok _ =>
          match collectSpaceFilterNames (p_condition program) false ∅ with
          | Err _ => Err (InvalidArgument, "invalid filter: %v")
          | Ok names =>
              if bool_decide (names = ∅) then Ok tt
              else match user with
                   | None => Err (Unauthenticated, "user not authenticated")
                   | Some u => resolve_names db u (sort_strings (elements names))
                   end
          end
      end
  end.

Definition validateMemoFilterForUser (db : DB) (now : Time) (filterText : string)
    (dialect : DialectName) (user : option Z) : result (code * string) unit :=
  validateFilterSpaceAccess db filterText (mkEngine NewSchema now) dialect user.
Definition validateAttachmentFilterForUser (db : DB) (now : Time) (filterText : string)
    (dialect : DialectName) (user : option Z) : result (code * string) unit :=
  validateFilterSpaceAccess db filterText (mkEngine NewAttachmentSchema now) dialect user.
End validate.

(** ** What a filter can observe *)

(** The fields a value or a condition mentions. *)
Fixpoint value_fields (v : ValueExpr) : list string :=
  match v with
  | FieldRef n => [n]
  | LiteralValue _ => []
  | FunctionValue _ args =>
      (fix all (l : list ValueExpr) : list string :=
         match l with [] => [] | a :: l => value_fields a ++ all l end) args
  | FieldAccessorValue f _ => [f]
  end.
Definition leaf_fields (c : Condition) : list string :=
  match c with
  | ComparisonCondition l _ r => value_fields l ++ value_fields r
  | InCondition l vs => value_fields l ++ mjoin (value_fields <$> vs)
  | ElementInCondition e f => f :: value_fields e
  | FieldPredicateCondition f | TextMatchCondition f _ _ | RegexCondition f _
  | ListComprehensionCondition _ f _ _ => [f]
  | _ => []
  end.

(** The truth of a condition on a row whose [space] column expression is [sp]:
    [None] is SQL's NULL, for a memo in no space; [Some ""] a dangling placement.
    A leaf over other fields has some truth of its own, and [space == null] is
    rendered as [IS NULL]. *)
Section meaning.
Context (leaf : option string → Condition → tri).

Definition tri_of (b : bool) : tri := if b then TTrue else TFalse.

Fixpoint holds (sp : option string) (c : Condition) : tri :=
  match c with
  | LogicalCondition LogicalAnd l r => tri_and (holds sp l) (holds sp r)
  | LogicalCondition LogicalOr l r => tri_or (holds sp l) (holds sp r)
  | NotCondition e => tri_not (holds sp e)
  | ConstantCondition b => tri_of b
  | ComparisonCondition (FieldRef n) CompareEq (LiteralValue v) as c =>
      if String.eqb n "space" then
        match v, sp with
        | VNil, _ => tri_of (bool_decide (sp = None))
        | VString _, None => TNull
        | VString name, Some s => tri_of (String.eqb s name)
        | _, _ => leaf sp c
        end
      else leaf sp c
  | _ => leaf sp c
  end.
End meaning.

(** Leaves that do not mention the space do not depend on it. *)
Definition space_blind (leaf : option string → Condition → tri) : Prop :=
  ∀ c sp sp', "space" ∉ leaf_fields c → leaf sp c = leaf sp' c.

(** ** Lemmas on the traversal *)

Lemma valueReferencesSpace_false v :
  valueReferencesSpace v = false ↔ "space" ∉ value_fields v.
Proof.
  induction v as [n|v|n args IH|f a] using ValueExpr_nested_ind;
    cbn [valueReferencesSpace value_fields].
  - rewrite String.eqb_neq. set_solver.
  - set_solver.
  - induction IH as [|x l Hx _ IHl]; [set_solver|].
    rewrite orb_false_iff, elem_of_app, Hx, IHl. tauto.
  - rewrite String.eqb_neq. set_solver.
Qed.

Lemma existsb_references vs :
  existsb valueReferencesSpace vs = false ↔ "space" ∉ mjoin (value_fields <$> vs).
Proof.
  induction vs as [|v vs IH]; [set_solver|]. cbn.
  rewrite orb_false_iff, elem_of_app, valueReferencesSpace_false. cbn in IH. rewrite IH. tauto.
Qed.

(** What an accepted leaf is: blind to the space, or an equality with a
    collected name or with null, outside every negation. *)
Definition is_branch (c : Condition) : bool :=
  match c with LogicalCondition _ _ _ | NotCondition _ => true | _ => false end.

Lemma collect_leaf c negated names names' :
  is_branch c = false → collectSpaceFilterNames c negated names = Ok names' →
  ("space" ∉ leaf_fields c ∧ names' = names) ∨
  (negated = false ∧
    ((c = ComparisonCondition (FieldRef "space") CompareEq (LiteralValue VNil) ∧ names' = names) ∨
     (∃ n, c = ComparisonCondition (FieldRef "space") CompareEq (LiteralValue (VString n)) ∧
           names' = {[n]} ∪ names))).
Proof.
  intros Hb H. destruct c as [| |f|l op r|l vs|e f|f ? ?|f ?|b|k f ? ?]; try discriminate Hb;
    cbn [collectSpaceFilterNames leaf_fields] in *; clear Hb.
  all: try (destruct (String.eqb_spec f "space"); [discriminate H|];
    injection H as <-; left; split; [set_solver|done]).
  - destruct (valueReferencesSpace l) eqn:Hl, (valueReferencesSpace r) eqn:Hr; cbn [negb andb] in H.
    4:{ injection H as <-. apply valueReferencesSpace_false in Hl, Hr. left. set_solver. }
    all: right; destruct l as [n| | |]; try discriminate H;
      destruct (String.eqb_spec n "space") as [->|]; cbn [negb orb] in H; [|discriminate H];
      destruct negated; cbn [orb] in H; [discriminate H|];
      destruct op; cbn in H; try discriminate H;
      destruct r as [|[]| |]; try discriminate H; injection H as <-; eauto.
  - destruct (valueReferencesSpace l) eqn:Hl; cbn [orb] in H; [discriminate H|].
    destruct (existsb valueReferencesSpace vs) eqn:Hvs; [discriminate H|]. injection H as <-.
    apply valueReferencesSpace_false in Hl. apply existsb_references in Hvs. left. set_solver.
  - destruct (String.eqb_spec f "space"); cbn [orb] in H; [discriminate H|].
    destruct (valueReferencesSpace e) eqn:He; [discriminate H|]. injection H as <-.
    apply valueReferencesSpace_false in He. left. set_solver.
  - injection H as <-. left. set_solver.
Qed.

(** The names grow along the traversal. *)
Lemma collect_grows c : ∀ negated names names',
  collectSpaceFilterNames c negated names = Ok names' → names ⊆ names'.
Proof.
  induction c as [op l IHl r IHr|e IHe| | | | | | | |]; intros negated names names' H;
    [cbn in H; inv_ok; etrans; [by eapply IHl|by eapply IHr]|cbn in H; eauto|..].
  all: apply collect_leaf in H; [|reflexivity]; destruct H as [[_ ->]|[_ [[_ ->]|(n & _ & ->)]]]; set_solver.
Qed.

Section observation.
Context (leaf : option string → Condition → tri) (Hblind : space_blind leaf).

Lemma holds_blind c sp sp' :
  is_branch c = false → "space" ∉ leaf_fields c → holds leaf sp c = holds leaf sp' c.
Proof.
  intros Hb Hf. pose proof (Hblind c sp sp' Hf) as Heq.
  destruct c as [| | |l op r| | | | | |]; try discriminate Hb; cbn [holds]; try done.
  destruct l as [n| | |]; try done. destruct op; try done. destruct r; try done.
  cbn in Hf. destruct (String.eqb_spec n "space"); [set_solver|done].
Qed.

(** Below a negation the space is not mentioned at all. *)
Lemma negated_blind c names names' sp sp' :
  collectSpaceFilterNames c true names = Ok names' → holds leaf sp c = holds leaf sp' c.
Proof.
  revert names names'. induction c as [op l IHl r IHr|e IHe| | | | | | | |]; intros names names' H.
  1:{ cbn in H. inv_ok. cbn. destruct op; f_equal; eauto. }
  1:{ cbn in H. cbn. f_equal. eauto. }
  all: apply collect_leaf in H; [|reflexivity]; destruct H as [[Hf _]|[? _]]; [by apply holds_blind|discriminate].
Qed.

Lemma unnamed_blind c negated names names' s s' :
  collectSpaceFilterNames c negated names = Ok names' → s ∉ names' → s' ∉ names' →
  holds leaf (Some s) c = holds leaf (Some s') c.
Proof.
  revert negated names names'.
  induction c as [op l IHl r IHr|e IHe| | | | | | | |]; intros negated names names' H Hs Hs'.
  1:{ cbn in H. inv_ok. match goal with H : collectSpaceFilterNames r _ _ = _ |- _ =>
        apply collect_grows in H as Hg end.
      cbn. destruct op; f_equal; [eapply IHl|eapply IHr|eapply IHl|eapply IHr];
        eauto; set_solver. }
  1:{ cbn in H. cbn. f_equal. eauto. }
  all: apply collect_leaf in H; [|reflexivity]; destruct H as [[Hf _]|[_ [[-> _]|(n & -> & ->)]]];
    [by apply holds_blind|done|].
  all: cbn; f_equal; transitivity false; [|symmetry]; apply String.eqb_neq; set_solver.
Qed.

(** Truth only grows when a memo moves from an unnamed space to any space. *)
Lemma unnamed_positive c names names' s s' :
  collectSpaceFilterNames c false names = Ok names' → s ∉ names' →
  (holds leaf (Some s) c = TTrue → holds leaf (Some s') c = TTrue).
Proof.
  revert names names'.
  induction c as [op l IHl r IHr|e IHe| | | | | | | |]; intros names names' H Hs.
  1:{ cbn in H. inv_ok. match goal with H : collectSpaceFilterNames r _ _ = _ |- _ =>
        apply collect_grows in H as Hg end.
      assert (holds leaf (Some s) l = TTrue → holds leaf (Some s') l = TTrue)
        by (eapply IHl; eauto; set_solver).
      assert (holds leaf (Some s) r = TTrue → holds leaf (Some s') r = TTrue)
        by (eapply IHr; eauto).
      cbn. destruct op, (holds leaf (Some s) l), (holds leaf (Some s) r); cbn;
        intros; simplify_eq; repeat match goal with
        | H : TTrue = TTrue → _ |- _ => specialize (H eq_refl); rewrite H end;
        try done; by destruct (holds leaf (Some s') l). }
  1:{ cbn in H. cbn. by rewrite (negated_blind e names names' (Some s) (Some s') H). }
  all: apply collect_leaf in H; [|reflexivity]; destruct H as [[Hf _]|[_ [[-> _]|(n & -> & ->)]]];
    [by rewrite (holds_blind _ (Some s) (Some s'))|done|].
  all: cbn; rewrite (proj2 (String.eqb_neq s n)) by set_solver; done.
Qed.
End observation.

(** ** Resolution of a space name *)

(** The space a name resolves to for a user: it exists under that name and the
    user, NORMAL, is an ACTIVE member with a known role. *)
Definition own_space (db : DB) (u : Z) (name : string) : Prop :=
  ∃ sid row role, spaces db !! sid = Some row ∧ name = SpaceNamePrefix +:+ sr_uid row ∧
    active_member_role db sid u = Some role ∧ IsActiveMember role = true.

Lemma GetSpace_uid db uid space :
  eval_tx (GetSpace (find_space_uid uid)) db = Ok (Some space) →
  ∃ row, spaces db !! sp_id space = Some row ∧ sr_uid row = uid.
Proof.
  unfold eval_tx, run, GetSpace, Driver.ListSpaces. cbv [mbind SE_bind query mret SE_ret].
  cbn -[select]. destruct (select _ _ (spaces db)) as [|[k row] l] eqn:Hsel; [done|].
  intros [= <-]. cbn. exists row.
  assert ((k, row) ∈ (k, row) :: l) as Hin by left. rewrite <- Hsel in Hin.
  apply elem_of_select in Hin as [Hk Hc]. split; [done|].
  cbn in Hc.
  by apply bool_decide_eq_true in Hc.
Qed.

Lemma isActiveSpaceMember_true db s u :
  isActiveSpaceMember db s u = Ok true →
  ∃ role, active_member_role db s u = Some role ∧ IsActiveMember role = true.
Proof.
  unfold isActiveSpaceMember. destruct (users db !! u) as [row|] eqn:Hu; [|done].
  destruct (String.eqb_spec (us_row_status row) Normal) as [Hn|]; [|done]. cbn [negb].
  rewrite GetSpaceMember_key. cbn [mbind result_bind].
  destruct (members db !! (s, u)) as [m|] eqn:Hm; [|done]. unfold MemoDriver.spaceMemberActive.
  rewrite Hm. destruct (String.eqb_spec (mb_status m) SpaceMemberStatusActive) as [Hs|]; [|done].
  cbn [andb]. destruct (IsActiveMember (mb_role m)) eqn:Hr; [|done]. cbn [andb].
  intros _. exists (mb_role m). split; [|done]. unfold active_member_role. rewrite Hm. cbn.
  rewrite decide_True; [done|]. split; [done|]. unfold active_user, user_status. rewrite Hu. cbn.
  by rewrite Hn.
Qed.

Lemma resolveWritableSpaceByName_own db name u space :
  resolveWritableSpaceByName db name u = Ok space → own_space db u name.
Proof.
  unfold resolveWritableSpaceByName.
  destruct (ExtractSpaceUIDFromName name) as [uid|] eqn:Hn; [|done].
  apply extract1_Ok in Hn as [-> _]; [|by exists "spaces"].
  destruct (eval_tx (GetSpace _) db) as [[sp|]|] eqn:Hg; [|done..].
  apply GetSpace_uid in Hg as (row & Hrow & <-).
  destruct (isActiveSpaceMember db (sp_id sp) u) as [[]|] eqn:Ha; [|done..].
  apply isActiveSpaceMember_true in Ha as (role & ? & ?). intros _.
  exists (sp_id sp), row, role. done.
Qed.

Lemma resolve_names_own db u names :
  resolve_names db u names = Ok tt → ∀ n, n ∈ names → own_space db u n.
Proof.
  induction names as [|n names IH]; [set_solver|]. cbn. intros H. inv_ok.
  intros n'. rewrite elem_of_cons. intros [->|Hn]; [|by apply IH].
  by eapply resolveWritableSpaceByName_own.
Qed.

Lemma validate_names `{GoPlatform} cel db f e d user :
  validateFilterSpaceAccess cel db f e d user = Ok tt →
  ∃ p names, Compile cel e f = Ok p ∧
    collectSpaceFilterNames (p_condition p) false ∅ = Ok names ∧
    ∀ n, n ∈ names → ∃ u, user = Some u ∧ own_space db u n.
Proof.
  unfold validateFilterSpaceAccess. destruct (Compile cel e f) as [p|]; [|done].
  destruct (program_render _ _); [|done].
  destruct (collectSpaceFilterNames _ _ _) as [names|] eqn:Hcol; [|done].
  intros Hv. exists p, names. split; [done|]. split; [done|]. intros n Hn.
  destruct (bool_decide_reflect (names = ∅)); [set_solver|]. destruct user as [u|]; [|done].
  exists u. split; [done|]. eapply resolve_names_own; [exact Hv|].
  unfold sort_strings. rewrite merge_sort_Permutation. by apply elem_of_elements.
Qed.


(** An accepted filter uses spaces positively: when it selects a memo of a
    space the user does not own, it selects the same memo in every space, so a
    match never says which foreign space a memo is not in. *)
Theorem accepted_filter_uses_spaces_positively `{GoPlatform} cel db f e d user leaf :
  validateFilterSpaceAccess cel db f e d user = Ok tt →
  space_blind leaf →
  ∃ p, Compile cel e f = Ok p ∧
    ∀ s s', (∀ u, user = Some u → ¬ own_space db u s) →
            holds leaf (Some s) (p_condition p) = TTrue →
            holds leaf (Some s') (p_condition p) = TTrue.
Proof.
  intros (p & names & Hp & Hc & Hown)%validate_names Hb. exists p. split; [done|].
  intros s s' Hs. eapply unnamed_positive; [done|exact Hc|].
  intros (u & -> & ?)%Hown. by eapply Hs.
Qed.

(** ** Witnesses: a member of [spaces/team] filters on it *)

Definition team_db : DB :=
  set_members (λ _, {[(1%Z, 7%Z) := mkMember SpaceMemberStatusActive SpaceMemberRoleUser]})
    (set_spaces (λ _, {[1%Z := mkSpaceRow "team" "Team" ""]})
      (set_users (λ _, {[7%Z := mkUser "ada" "USER" "" "" "" "" "" 0 0 Normal]}) empty_db)).
(** [space == "spaces/team" || pinned]. *)
Definition team_filter : expr :=
  ECall (Call None "_||_"
    [ECall (Call None "_==_" [EIdent "space"; EConst (CString "spaces/team")]); EIdent "pinned"]).
Definition team_cel (_ : Schema) (_ : string) : result error expr := Ok team_filter.
Definition pinned_leaf (_ : option string) (c : Condition) : tri :=
  match c with FieldPredicateCondition "pinned" => TTrue | _ => TFalse end.
Definition team_engine : Engine := mkEngine NewSchema (mkTime 0 0 UTC).


Lemma accepted_filter_uses_spaces_positively_witness :
  ∃ p, Compile (H := {| f64_out_of_range := λ _, 0%Z |}) team_cel team_engine "f" = Ok p ∧
    ∀ s s', (∀ u, Some 7%Z = Some u → ¬ own_space team_db u s) →
            holds pinned_leaf (Some s) (p_condition p) = TTrue →
            holds pinned_leaf (Some s') (p_condition p) = TTrue.
Proof.
  apply (accepted_filter_uses_spaces_positively (H := {| f64_out_of_range := λ _, 0%Z |})
    team_cel team_db "f" team_engine DialectSQLite (Some 7%Z) pinned_leaf).
  - vm_compute. reflexivity.
  - intros c sp sp' _. reflexivity.
Defined.
