(* ===== verification/AttachmentStore.v ===== *)
(** * Attachments in the store

    [store/attachment.go] and [store/attachment_delete.go] with the SQLite
    driver's [attachment.go] and [attachment_delete.go]: creating, renaming and
    deleting attachment rows under a policy, and the access clause of the lists.
    The files behind the rows (local disk, S3) are I/O and not modelled; payloads
    are their text. *)
From S2P Require Import Prelude GoLib Store SpaceStore MemoStore MemoAccess.

(** ** Requests *)

Record UpdateAttachmentReq := mkUpdateAttachment {
  ua_id : Z; ua_uid : option string; ua_updated_ts : option Z; ua_filename : option string;
  ua_memo : option Z; ua_payload : option string; ua_policy : option MemoWritePolicy }.

(** [dp_expected] is a Go map, possibly nil. *)
Record AttachmentDeletionPolicy := mkDeletionPolicy {
  dp_actor : Z; dp_expected : option (gmap Z string) }.

(** The loop over a sorted list of ids: each positive, none twice. *)
Fixpoint check_sorted_ids (not_positive duplicate : string) (previous : option Z) (ids : list Z)
  : result error unit :=
  match ids with
  | [] => Ok tt
  | id :: ids =>
      if (id <=? 0)%Z then Err (errorf0 not_positive)
      else if bool_decide (previous = Some id) then Err (errorf0 duplicate)
      else check_sorted_ids not_positive duplicate (Some id) ids
  end.

(** [slices.Sort] on ids. *)
Definition sort_ids (ids : list Z) : list Z := merge_sort Z.le ids.

(** [normalizeAttachmentDelete] on a policy that is present. *)
Definition normalizeAttachmentDelete (policy : AttachmentDeletionPolicy) (ids : list Z)
  : result error (AttachmentDeletionPolicy * list Z) :=
  if (dp_actor policy <=? 0)%Z || bool_decide (ids = []) then
    Err (errorf0 "attachment deletion requires policy and attachment IDs")
  else
    let ids := sort_ids ids in
    _ ← check_sorted_ids "attachment deletion IDs must be positive"
          "duplicate attachment deletion ID" None ids;
    if bool_decide (∃ id, id ∈ dom (default ∅ (dp_expected policy)) ∧ (id ≤ 0)%Z) then
      Err (errorf0 "attachment deletion memo IDs must be positive")
    else Ok (policy, ids).

(** [ValidateAttachmentDeletionMemoSnapshots]. *)
Definition ValidateAttachmentDeletionMemoSnapshots (memoIDs : list Z)
    (expected : option (gmap Z string)) : result error unit :=
  let expected := default ∅ expected in
  if negb (Nat.eqb (length memoIDs) (size expected)) then Err ErrMemoMutationConflict
  else if forallb (λ id, bool_decide (is_Some (expected !! id))) memoIDs then Ok tt
  else Err ErrMemoMutationConflict.

(** The loop of [ValidateAttachmentMutationTargets] over the rows found. *)
Fixpoint mutation_targets (actor : Z) (expected seen memoIDs : gset Z)
    (attachments : list (Z * Attachment)) : result error (gset Z) :=
  match attachments with
  | [] => Ok memoIDs
  | (id, a) :: attachments =>
      if (id <=? 0)%Z then Err ErrMemoMutationConflict
      else if negb (bool_decide (id ∈ expected)) then Err ErrMemoMutationConflict
      else if bool_decide (id ∈ seen) then Err ErrMemoMutationConflict
      else if negb (at_creator a =? actor)%Z then Err ErrMemoPermissionDenied
      else
        match at_memo a with
        | Some m =>
            if (m <=? 0)%Z then Err ErrMemoMutationConflict
            else mutation_targets actor expected ({[id]} ∪ seen) ({[m]} ∪ memoIDs) attachments
        | None => mutation_targets actor expected ({[id]} ∪ seen) memoIDs attachments
        end
  end.

(** [ValidateAttachmentMutationTargets]. *)
Definition ValidateAttachmentMutationTargets (actor : Z) (ids : list Z)
    (attachments : list (Z * Attachment)) : result error (list Z) :=
  if (actor <=? 0)%Z || bool_decide (ids = []) || negb (Nat.eqb (length attachments) (length ids))
  then Err ErrMemoMutationConflict
  else if existsb (λ id, (id <=? 0)%Z) ids then Err ErrMemoMutationConflict
  else
    memoIDs ← mutation_targets actor (list_to_set ids) ∅ ∅ attachments;
    Ok (sort_ids (elements memoIDs)).

(** ** The driver *)

Module AttachmentDriver.
Definition by_id_asc (a b : Z * Attachment) : Prop := (a.1 ≤ b.1)%Z.
#[export] Instance by_id_asc_dec : RelDecision by_id_asc.
Proof. unfold by_id_asc. intros ??. apply _. Defined.

(** [appendDeleteUserAttachments] with the query of one batch. *)
Definition append_attachments (db : DB) (acc : list (Z * Attachment)) (batch : list Z)
  : list (Z * Attachment) :=
  acc ++ filter (λ kv, kv.1 ∉ acc.*1)
    (select (λ id _, bool_decide (id ∈ batch)) by_id_asc (attachments db)).

(** [listSQLiteAttachmentSnapshots]. *)
Definition listAttachmentSnapshots (ids : list Z) (db : DB) : list (Z * Attachment) :=
  fold_left (append_attachments db) (Driver.deleteUserBatches ids Driver.deleteUserBatchSize) [].

(** The loop of [authorizeSQLiteAttachmentMutation] over the memos. *)
Fixpoint authorize_memos (actor : Z) (expected : option (gmap Z string)) (memoIDs : list Z)
  : Tx unit :=
  match memoIDs with
  | [] => mret tt
  | id :: memoIDs =>
      row ← query (λ db, memos db !! id);
      match row with
      | None => se_err ErrMemoMutationConflict
      | Some m =>
          _ ← require (match expected with
                       | Some e => String.eqb (mm_content m) (default "" (e !! id))
                       | None => true
                       end) ErrMemoMutationConflict;
          source ← query (λ db, match mm_space m with
                                | Some s => MemoDriver.memoPolicySpaceState db s actor
                                | None => (false, false)
                                end);
          _ ← se_lift (ValidateMemoWriteSnapshot (mkPolicy actor false false) None
                (mkSnapshot (mm_creator m) (mm_row_status m) (mm_space m) (mm_visibility m)
                   source.1 source.2 false false false));
          authorize_memos actor expected memoIDs
      end
  end.

(** [authorizeSQLiteAttachmentMutation]. *)
Definition authorizeAttachmentMutation (actor : Z) (memoIDs : list Z)
    (expected : option (gmap Z string)) : Tx unit :=
  status ← query (λ db, user_status db actor);
  _ ← require (bool_decide (status = Some Normal)) ErrMemoPermissionDenied;
  authorize_memos actor expected memoIDs.

(** The rows are deleted one by one, and each must still be there. *)
Fixpoint delete_rows (ids : list Z) : Tx unit :=
  match ids with
  | [] => mret tt
  | id :: ids =>
      row ← query (λ db, attachments db !! id);
      _ ← require (bool_decide (is_Some row)) ErrMemoMutationConflict;
      _ ← exec (set_attachments (delete id));
      delete_rows ids
  end.

Definition DeleteAttachmentsWithPolicy (policy : AttachmentDeletionPolicy) (ids : list Z)
  : Tx unit :=
  _ ← require (0 <? dp_actor policy)%Z ErrMemoPermissionDenied;
  rows ← query (listAttachmentSnapshots ids);
  memoIDs ← se_lift (ValidateAttachmentMutationTargets (dp_actor policy) ids rows);
  _ ← se_lift (ValidateAttachmentDeletionMemoSnapshots memoIDs (dp_expected policy));
  _ ← authorizeAttachmentMutation (dp_actor policy) memoIDs (dp_expected policy);
  delete_rows ids.

Definition attachment_uid_taken (db : DB) (id : Z) (uid : string) : bool :=
  bool_decide (map_Exists (λ i a, i ≠ id ∧ at_uid a = uid) (attachments db)).

(** [insertSQLiteAttachment]: the timestamps are the defaults of the columns. *)
Definition insertAttachment (now : Z) (create : Attachment) : Tx Z :=
  id ← query next_attachment;
  taken ← query (λ db, attachment_uid_taken db id (at_uid create));
  _ ← require (negb taken) ErrUnique;
  let row := mkAttachment (at_uid create) (at_creator create) (at_memo create)
    (at_storage_type create) (at_reference create) (at_payload create) (at_filename create)
    (at_type create) (at_size create) (at_blob create) now now in
  _ ← exec (λ db, set_next_attachment (id + 1) (set_attachments <[id := row]> db));
  mret id.

Definition CreateAttachment (now : Z) (create : Attachment) (policy : option MemoWritePolicy)
  : Tx Z :=
  match policy with
  | None => insertAttachment now create
  | Some p =>
      match at_memo create with
      | None => se_err ErrMemoPermissionDenied
      | Some memo =>
          _ ← require (at_creator create =? po_actor p)%Z ErrMemoPermissionDenied;
          _ ← MemoDriver.validateWritePolicy now memo p None;
          insertAttachment now create
      end
  end.

Definition updated_attachment (u : UpdateAttachmentReq) (a : Attachment) : Attachment :=
  mkAttachment (default (at_uid a) (ua_uid u)) (at_creator a)
    (match ua_memo u with Some m => Some m | None => at_memo a end)
    (at_storage_type a) (at_reference a) (default (at_payload a) (ua_payload u))
    (default (at_filename a) (ua_filename u)) (at_type a) (at_size a) (at_blob a)
    (at_created_ts a) (default (at_updated_ts a) (ua_updated_ts u)).

(** [applySQLiteAttachmentUpdate]; without a matching row it does nothing. *)
Definition applyAttachmentUpdate (u : UpdateAttachmentReq) : Tx unit :=
  row ← query (λ db, attachments db !! ua_id u);
  match row with
  | None => mret tt
  | Some a =>
      let a' := updated_attachment u a in
      taken ← query (λ db, attachment_uid_taken db (ua_id u) (at_uid a'));
      _ ← require (negb taken) (Wrap ErrUnique "failed to update attachment");
      exec (set_attachments <[ua_id u := a']>)
  end.

Definition UpdateAttachment (u : UpdateAttachmentReq) : Tx unit :=
  match ua_policy u with
  | None => applyAttachmentUpdate u
  | Some p =>
      _ ← require (bool_decide (ua_memo u = None)) ErrMemoMutationConflict;
      rows ← query (listAttachmentSnapshots [ua_id u]);
      memoIDs ← se_lift (ValidateAttachmentMutationTargets (po_actor p) [ua_id u] rows);
      _ ← authorizeAttachmentMutation (po_actor p) memoIDs None;
      applyAttachmentUpdate u
  end.

(** [DeleteAttachments] of the driver, for trusted callers. *)
Definition DeleteAttachments (ids : list Z) : Tx unit :=
  exec (λ db, fold_left (λ d id, set_attachments (delete id) d) ids db).

(** The clause [ListAttachments] writes for an access scope, on a row joined
    with its memo. *)
Definition attachment_access_clause (access : MemoAccessScope) (db : DB) (a : Attachment) : bool :=
  let unlinked :=
    match as_user access with
    | Some u => bool_decide (at_memo a = None) && bool_decide (active_user db u)
                && (at_creator a =? u)%Z
    | None => false
    end in
  let linked :=
    match at_memo a with
    | Some id => match memos db !! id with
                 | Some memo => sqliteMemoAccessPredicate access db memo
                 | None => false
                 end
    | None => false
    end in
  unlinked || linked.
End AttachmentDriver.

(** ** The store methods *)

Definition CreateAttachment (now : Z) (create : Attachment) (policy : option MemoWritePolicy)
  : Tx Z :=
  if negb (UIDMatcher (at_uid create)) then se_err (errorf0 "invalid uid")
  else
    _ ← se_lift (validateMemoWritePolicy policy);
    match policy with
    | Some p =>
        if bool_decide (at_memo create = None) then
          se_err (errorf0 "attachment write policy requires a memo")
        else if negb (at_creator create =? po_actor p)%Z then se_err ErrMemoPermissionDenied
        else AttachmentDriver.CreateAttachment now create policy
    | None => AttachmentDriver.CreateAttachment now create policy
    end.

Definition UpdateAttachment (u : UpdateAttachmentReq) : Tx unit :=
  if match ua_uid u with Some uid => negb (UIDMatcher uid) | None => false end then
    se_err (errorf0 "invalid uid")
  else
    _ ← se_lift (validateMemoWritePolicy (ua_policy u));
    if bool_decide (ua_policy u ≠ None) && bool_decide (ua_memo u ≠ None) then
      se_err (errorf0 "policy-bearing attachment updates cannot change memo binding")
    else AttachmentDriver.UpdateAttachment u.

Definition DeleteAttachmentsWithPolicy (policy : AttachmentDeletionPolicy) (ids : list Z)
  : Tx unit :=
  '(policy, ids) ← se_lift (normalizeAttachmentDelete policy ids);
  AttachmentDriver.DeleteAttachmentsWithPolicy policy ids.
