(* ===== verification/MemoMutation.v ===== *)
(** * Memo mutations, relations, comments and reactions

    [store/memo_attachment.go], [memo_comment.go], [memo_relation.go],
    [reaction.go] and [reaction_policy.go] with the SQLite files of the same
    names and [memo_relation_policy.go].  One transaction creates or updates a
    memo together with its attachments, its references and, for a comment, the
    immutable link to its context; reactions are rows of their own. *)
From S2P Require Import Prelude GoLib Store SpaceStore MemoStore AttachmentStore.

(** ** Requests and snapshots *)

Definition MemoRelationReference : string := "REFERENCE".
Definition MemoRelationComment : string := "COMMENT".

Record MemoRelation := mkRelation { rl_memo : Z; rl_related : Z; rl_type : string }.

Record MemoAttachmentBinding := mkBinding {
  mb_id : Z; mb_uid : string; mb_updated_ts : Z; mb_was_bound : bool }.

(** Bindings and relations are Go pointers, possibly nil. *)
Record MemoMutation := mkMutation {
  mu_create : option Memo; mu_comment_context : option Z; mu_memo : Z; mu_creator : Z;
  mu_expected_content : string; mu_update : option UpdateMemoReq;
  mu_bindings : list (option MemoAttachmentBinding); mu_removed : list Z; mu_required : list Z;
  mu_replace : bool; mu_relations : list (option MemoRelation);
  mu_policy : option MemoWritePolicy }.

Record MemoCommentAuthorizationSnapshot := mkParticipation {
  pa_actor : Z; pa_actor_active : bool; pa_id : Z; pa_creator : Z; pa_row_status : RowStatus;
  pa_visibility : Visibility; pa_space : option Z; pa_space_exists : bool;
  pa_member_active : bool }.

(** [ValidateMemoCommentAuthorization] on a snapshot that is present. *)
Definition ValidateMemoCommentAuthorization (sn : MemoCommentAuthorizationSnapshot)
  : result error unit :=
  let v := pa_visibility sn in
  first_error [
    ((pa_actor sn <=? 0)%Z || negb (pa_actor_active sn), ErrMemoPermissionDenied);
    ((pa_id sn <=? 0)%Z || negb (String.eqb (pa_row_status sn) Normal)
       || negb (isValidVisibility v), ErrMemoSpaceNotWritable);
    (bool_decide (pa_space sn = None) && String.eqb v SpaceAudience, ErrMemoSpaceNotWritable);
    (bool_decide (pa_space sn ≠ None) && negb (pa_space_exists sn), ErrMemoSpaceNotWritable);
    (bool_decide (pa_space sn ≠ None) && negb (pa_member_active sn), ErrMemoSpaceMembershipRequired);
    (String.eqb v Private && negb (pa_creator sn =? pa_actor sn)%Z, ErrMemoPermissionDenied)
  ].

Record MemoRelationEndpointSnapshot := mkEndpoint {
  en_actor : Z; en_actor_active : bool; en_id : Z; en_creator : Z; en_row_status : RowStatus;
  en_visibility : Visibility; en_space : option Z; en_space_exists : bool;
  en_member_active : bool }.

(** [ValidateMemoRelationEndpointRead] on a snapshot that is present. *)
Definition ValidateMemoRelationEndpointRead (sn : MemoRelationEndpointSnapshot)
  : result error unit :=
  let v := en_visibility sn in
  let author := (en_creator sn =? en_actor sn)%Z in
  first_error [
    (negb (en_actor_active sn), ErrMemoPermissionDenied);
    ((en_id sn <=? 0)%Z, ErrMemoMutationConflict);
    (negb (String.eqb (en_row_status sn) Normal) && negb (String.eqb (en_row_status sn) Archived),
     ErrMemoMutationConflict);
    (String.eqb (en_row_status sn) Archived && negb author, ErrMemoPermissionDenied);
    (negb (isValidVisibility v), ErrMemoMutationConflict);
    (String.eqb v SpaceAudience
       && (bool_decide (en_space sn = None) || negb (en_space_exists sn)), ErrMemoMutationConflict);
    (String.eqb v Private && negb author, ErrMemoPermissionDenied);
    (String.eqb v SpaceAudience && negb (en_member_active sn), ErrMemoPermissionDenied)
  ].

(** ** Reactions: requests *)

Record ReactionReq := mkReactionReq {
  rq_creator : Z; rq_memo : Z; rq_type : string; rq_policy : option Z }.

Record DeleteReactionReq := mkDeleteReaction {
  dr_id : option Z; dr_memo : option Z; dr_actor : option Z; dr_policy : option Z }.

Definition ErrReactionMemoNotFound := errorf0 "reaction memo not found".
Definition ErrReactionPermissionDenied := errorf0 "reaction mutation permission denied".

(** [validateReactionWritePolicy]; the policy is the id of its actor. *)
Definition validateReactionWritePolicy (creator memo : Z) (policy : option Z) : result error unit :=
  match policy with
  | None => Ok tt
  | Some actor =>
      if (creator <=? 0)%Z || (memo <=? 0)%Z || (actor <=? 0)%Z then
        Err (errorf0 "reaction write policy requires reaction, actor, and memo")
      else if negb (creator =? actor)%Z then Err ErrReactionPermissionDenied
      else Ok tt
  end.

(** [ValidateReactionWriteParticipation] on a policy and snapshot that are present. *)
Definition ValidateReactionWriteParticipation (creator memo actor : Z)
    (sn : MemoCommentAuthorizationSnapshot) : result error unit :=
  _ ← validateReactionWritePolicy creator memo (Some actor);
  if negb (pa_actor sn =? actor)%Z then Err ErrReactionPermissionDenied
  else if negb (pa_actor_active sn) then Err ErrReactionPermissionDenied
  else if negb (pa_id sn =? memo)%Z then Err ErrMemoMutationConflict
  else ValidateMemoCommentAuthorization sn.

(** ** The driver *)

Module MutationDriver.
(** [loadSQLiteMemoParticipation]; [None] is [sql.ErrNoRows] for the memo. *)
Definition loadMemoParticipation (memo actor : Z) (db : DB)
  : result error (option MemoCommentAuthorizationSnapshot) :=
  match user_status db actor with
  | None => Err ErrMemoPermissionDenied
  | Some st =>
      match memos db !! memo with
      | None => Ok None
      | Some m =>
          let space := match mm_space m with
                       | Some s => (space_exists db s, MemoDriver.spaceMemberActive db s actor)
                       | None => (false, false)
                       end in
          Ok (Some (mkParticipation actor (String.eqb st Normal) memo (mm_creator m)
                      (mm_row_status m) (mm_visibility m) (mm_space m) space.1 space.2))
      end
  end.

(** [authorizeSQLiteMemoComment]. *)
Definition authorizeMemoComment (context actor : Z) : Tx unit :=
  loaded ← query (loadMemoParticipation context actor);
  sn ← se_lift loaded;
  match sn with
  | None => se_err ErrMemoSpaceNotWritable
  | Some sn => se_lift (ValidateMemoCommentAuthorization sn)
  end.

(** [sqliteRelationAuthorizationEndpointIDs]. *)
Definition relation_endpoints (mu : MemoMutation) : gset Z :=
  (if bool_decide (mu_create mu = None) && (0 <? mu_memo mu)%Z then {[mu_memo mu]}
   else match mu_comment_context mu with Some c => {[c]} | None => ∅ end)
  ∪ list_to_set (omap (λ r : option MemoRelation, rl_related <$> r) (mu_relations mu)).
Definition relationAuthorizationEndpointIDs (mu : MemoMutation) : list Z :=
  sort_ids (elements (relation_endpoints mu)).

(** The snapshot [validateSQLiteMemoRelationEndpoints] takes of an endpoint. *)
Definition endpoint_snapshot (db : DB) (actor : Z) (active : bool) (id : Z) (m : Memo)
  : MemoRelationEndpointSnapshot :=
  let space := match mm_space m with
               | Some s => MemoDriver.memoPolicySpaceState db s actor
               | None => (false, false)
               end in
  mkEndpoint actor active id (mm_creator m) (mm_row_status m) (mm_visibility m) (mm_space m)
    space.1 space.2.

(** Its loop. *)
Fixpoint validate_endpoints (actor : Z) (active : bool) (ids : list Z) : Tx unit :=
  match ids with
  | [] => mret tt
  | id :: ids =>
      row ← query (λ db, memos db !! id);
      match row with
      | None => se_err ErrMemoMutationConflict
      | Some m =>
          sn ← query (λ db, endpoint_snapshot db actor active id m);
          _ ← se_lift (ValidateMemoRelationEndpointRead sn);
          validate_endpoints actor active ids
      end
  end.

(** [validateSQLiteMemoRelationEndpoints]. *)
Definition validateMemoRelationEndpoints (mu : MemoMutation) : Tx unit :=
  if negb (mu_replace mu) && bool_decide (mu_comment_context mu = None) then mret tt
  else
    status ← query (λ db, user_status db (mu_creator mu));
    match status with
    | None => se_err ErrMemoPermissionDenied
    | Some st =>
        validate_endpoints (mu_creator mu) (String.eqb st Normal)
          (relationAuthorizationEndpointIDs mu)
    end.

(** [insertSQLiteMemoCommentRelation], with the UNIQUE constraint. *)
Definition insertMemoCommentRelation (memo context : Z) : Tx unit :=
  if (memo <=? 0)%Z || (context <=? 0)%Z || (memo =? context)%Z then
    se_err (errorf0 "invalid COMMENT relation")
  else
    taken ← query (λ db, bool_decide ((memo, context, MemoRelationComment) ∈ relations db));
    _ ← require (negb taken) (Wrap ErrUnique "failed to insert COMMENT relation");
    exec (set_relations (λ rs, {[(memo, context, MemoRelationComment)]} ∪ rs)).

(** The inserts of [replaceMemoReferenceRelations]: an existing row stays. *)
Fixpoint insert_references (memo : Z) (rels : list (option MemoRelation)) : Tx unit :=
  match rels with
  | [] => mret tt
  | None :: _ => se_err (errorf0 "invalid memo reference relation mutation")
  | Some r :: rels =>
      _ ← require ((rl_memo r =? memo)%Z && String.eqb (rl_type r) MemoRelationReference)
            (errorf0 "invalid memo reference relation mutation");
      _ ← exec (set_relations (λ rs, {[(rl_memo r, rl_related r, rl_type r)]} ∪ rs));
      insert_references memo rels
  end.

Definition references_of (memo : Z) (r : Z * Z * string) : Prop :=
  r.1.1 = memo ∧ r.2 = MemoRelationReference.
#[export] Instance references_of_dec memo r : Decision (references_of memo r).
Proof. unfold references_of. apply _. Defined.

Definition replaceMemoReferenceRelations (memo : Z) (rels : list (option MemoRelation)) : Tx unit :=
  _ ← exec (set_relations (filter (λ r, ¬ references_of memo r)));
  insert_references memo rels.

(** The attachments to remove must be the creator's and bound to the memo. *)
Definition removable (memo creator : Z) (a : Attachment) : bool :=
  (at_creator a =? creator)%Z && bool_decide (at_memo a = Some memo).

Definition bind_row (memo updated_ts : Z) (a : Attachment) : Attachment :=
  mkAttachment (at_uid a) (at_creator a) (Some memo) (at_storage_type a) (at_reference a)
    (at_payload a) (at_filename a) (at_type a) (at_size a) (at_blob a) (at_created_ts a) updated_ts.

Definition conflict (message : string) : error := Wrap ErrMemoMutationConflict message.

(** The loop over the bindings. *)
Fixpoint bind_attachments (memo creator : Z) (bs : list (option MemoAttachmentBinding)) : Tx unit :=
  match bs with
  | [] => mret tt
  | None :: _ => se_err (Panic "nil attachment binding")
  | Some b :: bs =>
      row ← query (λ db, attachments db !! mb_id b);
      match row with
      | None => se_err (conflict ("attachment " +:+ mb_uid b +:+ " no longer exists"))
      | Some a =>
          _ ← (if mb_was_bound b then
                 require (bool_decide (at_memo a = Some memo))
                   (conflict ("attachment " +:+ mb_uid b +:+ " is no longer bound to the memo"))
               else
                 require ((at_creator a =? creator)%Z && bool_decide (at_memo a = None))
                   (conflict ("attachment " +:+ mb_uid b +:+ " is no longer available")));
          _ ← exec (set_attachments <[mb_id b := bind_row memo (mb_updated_ts b) a]>);
          bind_attachments memo creator bs
      end
  end.

(** [DELETE FROM attachment WHERE id = ? AND memo_id = ?], one row each. *)
Fixpoint remove_attachments (memo : Z) (ids : list Z) : Tx unit :=
  match ids with
  | [] => mret tt
  | id :: ids =>
      row ← query (λ db, attachments db !! id);
      _ ← require (match row with Some a => bool_decide (at_memo a = Some memo) | None => false end)
            (conflict "attachment is no longer bound to the memo");
      _ ← exec (set_attachments (delete id));
      remove_attachments memo ids
  end.

Fixpoint verify_required (memo : Z) (ids : list Z) : Tx unit :=
  match ids with
  | [] => mret tt
  | id :: ids =>
      row ← query (λ db, attachments db !! id);
      _ ← require (match row with Some a => bool_decide (at_memo a = Some memo) | None => false end)
            (conflict "a referenced attachment is no longer bound to the memo");
      verify_required memo ids
  end.

(** The fields the driver sets once the memo exists. *)
Definition created_mutation (mu : MemoMutation) (id : Z) (create : Memo) : MemoMutation :=
  mkMutation (mu_create mu) (mu_comment_context mu) id (mm_creator create) (mm_content create)
    (mu_update mu) (mu_bindings mu) (mu_removed mu) (mu_required mu) (mu_replace mu)
    ((λ r : option MemoRelation, (λ r, mkRelation id (rl_related r) (rl_type r)) <$> r)
       <$> mu_relations mu)
    (mu_policy mu).

(** The part of [ApplyMemoMutation] that creates the memo. *)
Definition create_part (now : Z) (mu : MemoMutation) : Tx MemoMutation :=
  match mu_create mu with
  | None => mret mu
  | Some create =>
      _ ← MemoDriver.validateMemoCreateTx create;
      _ ← match mu_comment_context mu with
          | Some c => authorizeMemoComment c (mm_creator create)
          | None => mret tt
          end;
      id ← MemoDriver.insertMemo now create;
      _ ← match mu_comment_context mu with
          | Some c => insertMemoCommentRelation id c
          | None => mret tt
          end;
      mret (created_mutation mu id create)
  end.

Definition mutation_policy (mu : MemoMutation) : option MemoWritePolicy :=
  match mu_policy mu with
  | Some p => Some p
  | None => match mu_update mu with Some u => um_policy u | None => None end
  end.

(** The check against the state the API prepared the mutation on. *)
Definition check_memo_state (mu : MemoMutation) : Tx unit :=
  row ← query (λ db, memos db !! mu_memo mu);
  match row with
  | None => se_err (conflict "memo no longer exists")
  | Some m =>
      require ((mm_creator m =? mu_creator mu)%Z && String.eqb (mm_content m) (mu_expected_content mu))
        (conflict "memo changed while applying mutation")
  end.

(** Attachments: read the ones to remove, bind, remove, verify. *)
Definition attachment_part (mu : MemoMutation) : Tx unit :=
  removed ← query (AttachmentDriver.listAttachmentSnapshots (mu_removed mu));
  _ ← require (Nat.eqb (length removed) (length (mu_removed mu)))
        (conflict "removed attachment no longer exists");
  _ ← require (forallb (λ kv, removable (mu_memo mu) (mu_creator mu) kv.2) removed)
        (conflict "attachment is no longer removable from the memo");
  _ ← bind_attachments (mu_memo mu) (mu_creator mu) (mu_bindings mu);
  _ ← remove_attachments (mu_memo mu) removed.*1;
  verify_required (mu_memo mu) (mu_required mu).

Definition update_part (mu : MemoMutation) : Tx unit :=
  match mu_update mu with
  | None => mret tt
  | Some u =>
      _ ← require (um_id u =? mu_memo mu)%Z
            (errorf0 "memo update target does not match attachment mutation");
      MemoDriver.applyMemoUpdate u
  end.

(** [ApplyMemoMutation]: the id of the memo. *)
Definition ApplyMemoMutation (now : Z) (mu : MemoMutation) : Tx Z :=
  _ ← validateMemoRelationEndpoints mu;
  mu ← create_part now mu;
  _ ← match mutation_policy mu with
      | Some p => MemoDriver.validateWritePolicy now (mu_memo mu) p (mu_update mu)
      | None => mret tt
      end;
  _ ← check_memo_state mu;
  _ ← attachment_part mu;
  _ ← update_part mu;
  _ ← (if mu_replace mu then replaceMemoReferenceRelations (mu_memo mu) (mu_relations mu)
       else mret tt);
  mret (mu_memo mu).

(** [UpsertMemoRelation], [DeleteMemoRelation]. *)
Definition UpsertMemoRelation (r : MemoRelation) : Tx MemoRelation :=
  _ ← exec (set_relations (λ rs, {[(rl_memo r, rl_related r, rl_type r)]} ∪ rs)); mret r.
Definition relation_selected (memo related : option Z) (type : string) (r : Z * Z * string) : bool :=
  matches_opt memo r.1.1 && matches_opt related r.1.2 && String.eqb r.2 type.
Definition DeleteMemoRelation (memo related : option Z) (type : string) : Tx unit :=
  exec (set_relations (filter (λ r, relation_selected memo related type r = false))).

(** [validateSQLiteReactionWritePolicy]. *)
Definition reactionWritePolicy (creator memo actor : Z) : Tx unit :=
  loaded ← query (loadMemoParticipation memo actor);
  match loaded with
  | Err e => se_err (Wrap e "failed to read reaction participation")
  | Ok None => se_err ErrReactionMemoNotFound
  | Ok (Some sn) => se_lift (ValidateReactionWriteParticipation creator memo actor sn)
  end.

(** [upsertSQLiteReaction]: [INSERT ... SELECT] from the memo, with the UNIQUE
    constraint of the table. *)
Definition insertReaction (now : Z) (q : ReactionReq) : Tx Z :=
  found ← query (λ db, bool_decide (is_Some (memos db !! rq_memo q)));
  _ ← require found (Wrap ErrReactionMemoNotFound "failed to create reaction");
  taken ← query (λ db, bool_decide (map_Exists (λ _ r, re_creator r = rq_creator q
                        ∧ re_memo r = rq_memo q ∧ re_type r = rq_type q) (reactions db)));
  _ ← require (negb taken) ErrUnique;
  id ← query next_reaction;
  _ ← exec (λ db, set_next_reaction (id + 1)
              (set_reactions <[id := mkReaction (rq_creator q) (rq_memo q) (rq_type q) now]> db));
  mret id.

Definition UpsertReaction (now : Z) (q : ReactionReq) : Tx Z :=
  match rq_policy q with
  | None => insertReaction now q
  | Some actor =>
      _ ← reactionWritePolicy (rq_creator q) (rq_memo q) actor;
      insertReaction now q
  end.

(** [deleteReactionAsCreator]; the store method has checked that an id is there,
    and a memo with a policy. *)
Definition deleteReactionAsCreator (id actor : Z) (memo policy : option Z) : Tx unit :=
  _ ← match policy with
      | Some p => reactionWritePolicy actor (default 0%Z memo) p
      | None => mret tt
      end;
  row ← query (λ db, reactions db !! id);
  match row with
  | None => mret tt
  | Some r =>
      _ ← require ((re_creator r =? actor)%Z && matches_opt memo (re_memo r))
            ErrReactionPermissionDenied;
      exec (set_reactions (delete id))
  end.

Definition DeleteReaction (d : DeleteReactionReq) : Tx unit :=
  match dr_actor d with
  | Some actor => deleteReactionAsCreator (default 0%Z (dr_id d)) actor (dr_memo d) (dr_policy d)
  | None =>
      if bool_decide (dr_id d = None) && bool_decide (dr_memo d = None) then mret tt
      else exec (set_reactions (delete_where
             (λ i r, matches_opt (dr_id d) i && matches_opt (dr_memo d) (re_memo r))))
  end.
End MutationDriver.

(** ** The store methods *)

(** The loop over the references of a mutation. *)
Fixpoint check_references (mu : MemoMutation) (seen : gset Z) (rels : list (option MemoRelation))
  : result error unit :=
  match rels with
  | [] => Ok tt
  | r :: rels =>
      match r with
      | None => Err (errorf0 "only REFERENCE memo relations may be mutated")
      | Some r =>
          _ ← first_error [
            ((rl_related r <=? 0)%Z || negb (String.eqb (rl_type r) MemoRelationReference),
             errorf0 "only REFERENCE memo relations may be mutated");
            (bool_decide (mu_create mu = None) && negb (rl_memo r =? mu_memo mu)%Z,
             errorf0 "reference relation source does not match memo mutation");
            ((0 <? mu_memo mu)%Z && (rl_related r =? mu_memo mu)%Z,
             errorf0 "reflexive memo relations are not allowed");
            (bool_decide (rl_related r ∈ seen), errorf0 "duplicate memo reference relation")
          ];
          check_references mu ({[rl_related r]} ∪ seen) rels
      end
  end.

(** The checks of a mutation that creates its memo, and the fields it sets. *)
Definition check_create (mu : MemoMutation) : result error MemoMutation :=
  match mu_create mu with
  | None => Ok mu
  | Some create =>
      _ ← first_error [
        (bool_decide (is_Some (mu_update mu)) || bool_decide (is_Some (mu_policy mu))
           || negb (bool_decide (mu_removed mu = [])),
         errorf0 "memo creation mutation cannot update or remove existing state");
        ((mm_creator create <=? 0)%Z, errorf0 "memo creation mutation requires creator")
      ];
      _ ← validateMemoCreate create;
      if match mu_comment_context mu with Some c => (c <=? 0)%Z | None => false end then
        Err (errorf0 "comment creation mutation requires a valid context memo")
      else
        Ok (mkMutation (mu_create mu) (mu_comment_context mu) (mu_memo mu) (mm_creator create)
              (mm_content create) (mu_update mu) (mu_bindings mu) (mu_removed mu) (mu_required mu)
              (mu_replace mu) (mu_relations mu) (mu_policy mu))
  end.

Definition sort_removed (mu : MemoMutation) : MemoMutation :=
  mkMutation (mu_create mu) (mu_comment_context mu) (mu_memo mu) (mu_creator mu)
    (mu_expected_content mu) (mu_update mu) (mu_bindings mu) (sort_ids (mu_removed mu))
    (mu_required mu) (mu_replace mu) (mu_relations mu) (mu_policy mu).

Definition lifecycle_only (policy : option MemoWritePolicy) : bool :=
  match policy with Some p => po_lifecycle_only p | None => false end.

(** [Store.ApplyMemoMutation]: the checks, and the mutation as passed on. *)
Definition check_mutation (mu : MemoMutation) : result error MemoMutation :=
  mu ← check_create mu;
  _ ← validateMemoWritePolicy (mu_policy mu);
  let mu := sort_removed mu in
  _ ← check_sorted_ids "removed attachment IDs must be positive" "duplicate removed attachment ID"
        None (mu_removed mu);
  _ ← first_error [
    (existsb (λ b : option MemoAttachmentBinding,
        match b with Some b => bool_decide (mb_id b ∈ mu_removed mu) | None => false end)
        (mu_bindings mu),
     errorf0 "attachment cannot be both bound and removed");
    (existsb (λ id, bool_decide (id ∈ mu_removed mu)) (mu_required mu),
     errorf0 "attachment cannot be both required and removed");
    (lifecycle_only (mu_policy mu)
       && (negb (bool_decide (mu_bindings mu = [])) || negb (bool_decide (mu_removed mu = []))
           || negb (bool_decide (mu_required mu = [])) || mu_replace mu),
     ErrMemoSpaceMembershipRequired);
    (mu_replace mu && (mu_creator mu <=? 0)%Z,
     errorf0 "reference relation mutation requires an actor")
  ];
  _ ← (if mu_replace mu then check_references mu ∅ (mu_relations mu) else Ok tt);
  Ok mu.

Definition ApplyMemoMutation (now : Z) (mu : MemoMutation) : Tx Z :=
  mu ← se_lift (check_mutation mu); MutationDriver.ApplyMemoMutation now mu.

(** [ValidateMemoRelationDelete] on a deletion that is present. *)
Definition ValidateMemoRelationDelete (memo related : option Z) (type : option string)
  : result error unit :=
  if negb (bool_decide (type = Some MemoRelationReference)) then
    Err (errorf0 "only REFERENCE memo relations may be deleted")
  else if bool_decide (memo = None) && bool_decide (related = None) then
    Err (errorf0 "memo relation deletion requires an endpoint")
  else if match memo with Some m => (m <=? 0)%Z | None => false end
          || match related with Some m => (m <=? 0)%Z | None => false end then
    Err (errorf0 "memo relation deletion has an invalid endpoint")
  else Ok tt.

Definition UpsertMemoRelation (r : MemoRelation) : Tx MemoRelation :=
  if negb (String.eqb (rl_type r) MemoRelationReference) then
    se_err (errorf0 "only REFERENCE memo relations may be persisted")
  else MutationDriver.UpsertMemoRelation r.

Definition DeleteMemoRelation (memo related : option Z) (type : option string) : Tx unit :=
  _ ← se_lift (ValidateMemoRelationDelete memo related type);
  MutationDriver.DeleteMemoRelation memo related (default "" type).

Definition UpsertReaction (now : Z) (q : ReactionReq) : Tx Z :=
  _ ← se_lift (validateReactionWritePolicy (rq_creator q) (rq_memo q) (rq_policy q));
  MutationDriver.UpsertReaction now q.

Definition DeleteReaction (d : DeleteReactionReq) : Tx unit :=
  match dr_actor d with
  | None => MutationDriver.DeleteReaction d
  | Some actor =>
      if (actor <=? 0)%Z || match dr_id d with Some id => (id <=? 0)%Z | None => true end then
        se_err (errorf0 "authorized reaction deletion requires reaction and actor")
      else
        match dr_policy d with
        | None => MutationDriver.DeleteReaction d
        | Some p =>
            match dr_memo d with
            | Some m =>
                if (m <=? 0)%Z then
                  se_err (errorf0 "authorized reaction deletion policy requires memo")
                else
                  _ ← se_lift (validateReactionWritePolicy actor m (Some p));
                  MutationDriver.DeleteReaction d
            | None => se_err (errorf0 "authorized reaction deletion policy requires memo")
            end
        end
  end.
