(* ===== verification/ParticipationFacts.v ===== *)
(** Who may refer to a memo, comment on it or react to it, against who may read
    it: the checks of [MemoMutation] against the decision of [MemoAccess]. *)
From S2P Require Import Prelude GoLib Store SpaceStore SpaceStoreFacts SpaceSafety MemoStore MemoStoreFacts.
From S2P Require Import MemoAccess MemoAccessFacts AttachmentStore MemoMutation.
Import MutationDriver.

(** Reading decided by the API layer for the request of user [u]. *)
Definition can_read (db : DB) (u id : Z) (m : Memo) : Prop :=
  ∃ ctx, buildMemoReadContext db u false (Some (id, m)) None = Ok ctx ∧
         Allowed (CheckMemoReadContext ctx) = true.

Lemma can_read_user db u id m :
  active_user db u → u ≠ 0%Z → can_read db u id m ↔ user_reads db u m = true.
Proof.
  unfold active_user, user_status. intros Ha Hu.
  destruct (users db !! u) as [row|] eqn:Hrow; [|discriminate Ha]. injection Ha as Hst.
  rewrite <- (decision_user db u row false id m Hrow Hst).
  unfold can_read, buildMemoReadContext, fetchCurrentUser.
  rewrite (proj2 (Z.eqb_neq _ _) Hu), Hrow, (proj2 (String.eqb_eq _ _) Hst), resolve_context.
  split; [by intros (ctx & [= <-] & ?)|by eexists].
Qed.

(** A memo in a space has its members; membership matters only in a space that exists. *)
Definition member_of_space (db : DB) (u : Z) (m : Memo) : bool :=
  match mm_space m with
  | Some s => space_exists db s && MemoDriver.spaceMemberActive db s u
  | None => true
  end.

Lemma first_error_bool gs :
  first_error gs = Ok tt ↔ forallb (λ g : bool * error, negb g.1) gs = true.
Proof.
  rewrite first_error_Ok. induction gs as [|[[] e] gs IH]; cbn; [by split| |].
  - split; [by intros [? _]%Forall_cons|done].
  - rewrite Forall_cons, IH. naive_solver.
Qed.

Lemma eq_iff_true (a b : bool) : a = b → (a = true ↔ b = true).
Proof. by intros ->. Qed.

(** Case analysis on the row status and the visibility of a memo. *)
Ltac memo_cases m :=
  let v s := (let H := fresh in destruct (String.eqb_spec (mm_visibility m) s) as [H|];
                [rewrite ?H; reflexivity|]) in
  let st := fresh in
  destruct (String.eqb_spec (mm_row_status m) Normal) as [st|];
    [rewrite ?st
    |destruct (String.eqb_spec (mm_row_status m) Archived) as [st|]; [rewrite ?st|]];
  v Public; v Protected; v Private; v SpaceAudience; reflexivity.

(** The two checks as formulas. *)
Lemma endpoint_check db u id m :
  active_user db u → (0 < id)%Z → creator_valid db m = true →
  ValidateMemoRelationEndpointRead (endpoint_snapshot db u true id m) = Ok tt ↔
  user_reads db u m = true.
Proof.
  intros Ha Hid Hc. unfold ValidateMemoRelationEndpointRead, endpoint_snapshot. cbn [en_id en_actor
    en_actor_active en_creator en_row_status en_visibility en_space en_space_exists en_member_active].
  rewrite (proj2 (Z.leb_gt _ _) Hid). unfold MemoDriver.memoPolicySpaceState, user_reads, isValidVisibility.
  rewrite Hc, first_error_bool. apply eq_iff_true.
  destruct (mm_space m) as [s|];
    [destruct (space_exists db s), (MemoDriver.spaceMemberActive db s u)|];
    destruct (mm_creator m =? u)%Z; memo_cases m.
Qed.

Lemma participation_check db u id m :
  active_user db u → (0 < u)%Z → (0 < id)%Z → memos db !! id = Some m → creator_valid db m = true →
  (∃ sn, loadMemoParticipation id u db = Ok (Some sn) ∧
         ValidateMemoCommentAuthorization sn = Ok tt) ↔
  user_reads db u m && String.eqb (mm_row_status m) Normal && member_of_space db u m = true.
Proof.
  intros Ha Hu Hid Hm Hc. unfold loadMemoParticipation. rewrite Ha, Hm. cbn [option_map].
  transitivity (ValidateMemoCommentAuthorization
    (mkParticipation u true id (mm_creator m) (mm_row_status m) (mm_visibility m) (mm_space m)
      (match mm_space m with Some s => (space_exists db s, MemoDriver.spaceMemberActive db s u)
       | None => (false, false) end).1
      (match mm_space m with Some s => (space_exists db s, MemoDriver.spaceMemberActive db s u)
       | None => (false, false) end).2) = Ok tt).
  { split; [by intros (sn & [= <-] & ?)|by eexists]. }
  unfold ValidateMemoCommentAuthorization, user_reads, member_of_space, isValidVisibility.
  cbn [pa_actor pa_actor_active pa_id pa_creator pa_row_status pa_visibility pa_space
       pa_space_exists pa_member_active].
  rewrite (proj2 (Z.leb_gt _ _) Hid), (proj2 (Z.leb_gt _ _) Hu), Hc, first_error_bool.
  apply eq_iff_true. destruct (mm_space m) as [s|];
    [destruct (space_exists db s), (MemoDriver.spaceMemberActive db s u)|];
    destruct (mm_creator m =? u)%Z; memo_cases m.
Qed.

Lemma scope_user db u :
  active_user db u → u ≠ 0%Z → ∃ row,
    resolveMemoAccessScope db u false = Ok (newMemoAccessScope (Some (u, row)) true) ∧
    users db !! u = Some row ∧ us_row_status row = Normal.
Proof.
  unfold active_user, user_status, resolveMemoAccessScope, fetchCurrentUser. intros Ha Hu.
  destruct (users db !! u) as [row|]; [|discriminate Ha]. injection Ha as Hst. exists row.
  by rewrite (proj2 (Z.eqb_neq _ _) Hu), (proj2 (String.eqb_eq _ _) Hst).
Qed.

(** One notion of reading for everything that hangs on a memo.  For an
    active user: a memo may be referenced exactly when the API lets the user
    read it; a comment or reaction is accepted exactly when the user may read the
    memo, the memo is not archived and, if it is in a space, the user is an active
    member of that space (whatever the audience); and the attachment lists show
    the attachments of exactly the memos the user may read, and of the unlinked
    attachments the user's own. *)
Theorem participation_within_reading db u id m :
  active_user db u → (0 < u)%Z → (0 < id)%Z → memos db !! id = Some m → creator_valid db m = true →
  (ValidateMemoRelationEndpointRead (endpoint_snapshot db u true id m) = Ok tt ↔ can_read db u id m) ∧
  ((∃ sn, loadMemoParticipation id u db = Ok (Some sn) ∧ ValidateMemoCommentAuthorization sn = Ok tt) ↔
     can_read db u id m ∧ mm_row_status m = Normal ∧
     ∀ s, mm_space m = Some s → space_exists db s = true ∧ MemoDriver.spaceMemberActive db s u = true) ∧
  ∃ scope, resolveMemoAccessScope db u false = Ok scope ∧
    ∀ a, (at_memo a = Some id →
            AttachmentDriver.attachment_access_clause scope db a = true ↔ can_read db u id m) ∧
         (at_memo a = None →
            AttachmentDriver.attachment_access_clause scope db a = true ↔ at_creator a = u).
Proof.
  intros Ha Hu Hid Hm Hc. assert (u ≠ 0%Z) as Hu' by lia. split; [|split].
  - by rewrite can_read_user, endpoint_check.
  - rewrite can_read_user, participation_check, !andb_true_iff, String.eqb_eq by done.
    unfold member_of_space. destruct (mm_space m) as [s|].
    + rewrite andb_true_iff. naive_solver.
    + naive_solver.
  - destruct (scope_user db u Ha Hu') as (row & Hs & Hrow & Hst). eexists. split; [exact Hs|].
    intros a. unfold AttachmentDriver.attachment_access_clause. cbn [as_user newMemoAccessScope fmap
      option_fmap option_map fst]. split; intros ->.
    + rewrite Hm. cbn. rewrite can_read_user by done.
      by rewrite <- (predicate_user db u row m Hrow Hst).
    + rewrite (bool_decide_true (active_user db u)) by done. cbn.
      by rewrite orb_false_r, Z.eqb_eq.
Qed.

(** The author of a PUBLIC memo in a space may still read it after leaving the
    space, but no longer comment on it. *)
Definition public_left_db : DB :=
  mkDB {[ 1%Z := example_user "ada"; 2%Z := example_user "bob" ]}
    {[ 5%Z := mkSpaceRow "team" "Team" "" ]}
    {[ (5, 1)%Z := mkMember SpaceMemberStatusActive SpaceMemberRoleAdmin ]}
    {[ 1%Z := mkMemo "m" 2 0 0 Normal "text" Public false "{}" (Some 5%Z) ]}
    ∅ ∅ ∅ ∅ ∅ ∅ ∅ 3 6 2 1 1 1.

Lemma participation_within_reading_witness :
  let m := mkMemo "m" 2 0 0 Normal "text" Public false "{}" (Some 5%Z) in
  can_read public_left_db 2 1 m ∧
  ¬ ∃ sn, loadMemoParticipation 1 2 public_left_db = Ok (Some sn) ∧
          ValidateMemoCommentAuthorization sn = Ok tt.
Proof.
  cbn zeta.
  destruct (participation_within_reading public_left_db 2 1
    (mkMemo "m" 2 0 0 Normal "text" Public false "{}" (Some 5%Z))) as (H1 & H2 & _);
    [vm_compute; reflexivity|reflexivity|reflexivity|vm_compute; reflexivity|
     vm_compute; reflexivity|].
  split; [apply H1; vm_compute; reflexivity|].
  intros H. apply H2 in H as (_ & _ & Hs). specialize (Hs 5%Z eq_refl) as [_ Hs].
  revert Hs. vm_compute. discriminate.
Defined.
