(* ===== verification/MutationFacts.v ===== *)
(** What one memo mutation does: the effects of the steps of
    [ApplyMemoMutation], and of the whole. *)
From S2P Require Import Prelude GoLib Store SpaceStore SpaceStoreFacts SpaceSafety MemoStore MemoStoreFacts.
From S2P Require Import AttachmentStore MemoMutation.
Import MutationDriver AttachmentDriver.

(** ** Reading attachments in batches *)

Lemma listAttachmentSnapshots_spec ids db :
  NoDup (listAttachmentSnapshots ids db).*1 ∧
  ∀ id a, (id, a) ∈ listAttachmentSnapshots ids db ↔ id ∈ ids ∧ attachments db !! id = Some a.
Proof.
  unfold listAttachmentSnapshots.
  pose proof (concat_batches ids Driver.deleteUserBatchSize) as Hc. revert Hc.
  generalize (Driver.deleteUserBatches ids Driver.deleteUserBatchSize). intros bs <-.
  assert (∀ acc old, NoDup acc.*1 →
    (∀ id a, (id, a) ∈ acc ↔ id ∈ old ∧ attachments db !! id = Some a) →
    NoDup (fold_left (append_attachments db) bs acc).*1 ∧
    ∀ id a, (id, a) ∈ fold_left (append_attachments db) bs acc ↔
      id ∈ old ++ concat bs ∧ attachments db !! id = Some a) as H.
  { induction bs as [|b bs IH]; intros acc old Hn Hacc; cbn [fold_left concat].
    { rewrite app_nil_r. done. }
    rewrite (assoc_L (++)). apply IH.
    - unfold append_attachments. rewrite fmap_app. apply NoDup_app. split; [done|]. split.
      + intros id Hid Hf. apply list_elem_of_fmap in Hf as ([id' a] & -> & Hf).
        apply list_elem_of_filter in Hf as [Hf _]. done.
      + apply NoDup_fmap_fst.
        * intros k a1 a2. rewrite !list_elem_of_filter, !elem_of_select.
          intros [_ [H1 _]] [_ [H2 _]]. congruence.
        * apply NoDup_filter. unfold select. rewrite merge_sort_Permutation.
          apply NoDup_map_to_list.
    - intros id a. unfold append_attachments.
      rewrite !elem_of_app, list_elem_of_filter, elem_of_select, bool_decide_eq_true, Hacc. cbn.
      split; [naive_solver|]. intros [[Ho|Hb] Ha]; [naive_solver|].
      destruct (decide (id ∈ acc.*1)) as [Hi|Hi]; [left|right; naive_solver].
      apply list_elem_of_fmap in Hi as ([id' a'] & -> & Hi). cbn in *.
      apply Hacc in Hi as Hi'. destruct Hi'. split; [done|done]. }
  apply (H [] []); [constructor|]. intros id a. split; [by intros ?%not_elem_of_nil|by intros [?%not_elem_of_nil _]].
Qed.

(** ** The loops *)

Lemma set_attachments_ext f g h db :
  f (h (attachments db)) = g (attachments db) →
  set_attachments f (set_attachments h db) = set_attachments g db.
Proof. intros H. unfold set_attachments. cbn. by rewrite H. Qed.

(** The attachments table after the bindings. *)
Definition bind_rows (memo : Z) (bs : list (option MemoAttachmentBinding))
    (t : gmap Z Attachment) : gmap Z Attachment :=
  fold_left (λ t b, match b with
                    | Some b => alter (bind_row memo (mb_updated_ts b)) (mb_id b) t
                    | None => t
                    end) bs t.

Definition bound_ids (bs : list (option MemoAttachmentBinding)) : list Z :=
  omap (λ b : option MemoAttachmentBinding, mb_id <$> b) bs.

Lemma bind_rows_lookup memo bs : ∀ t id,
  (id ∉ bound_ids bs ∧ bind_rows memo bs t !! id = t !! id) ∨
  (id ∈ bound_ids bs ∧
   match t !! id with
   | Some a => ∃ ts, bind_rows memo bs t !! id = Some (bind_row memo ts a)
   | None => bind_rows memo bs t !! id = None
   end).
Proof.
  unfold bind_rows. induction bs as [|[b|] bs IH]; intros t id.
  - left. split; [apply not_elem_of_nil|done].
  - cbn [fold_left bound_ids omap list_omap fmap option_fmap option_map].
    specialize (IH (alter (bind_row memo (mb_updated_ts b)) (mb_id b) t) id).
    destruct (decide (id = mb_id b)) as [->|Hne].
    + right. split; [by left|]. rewrite lookup_alter_eq in IH.
      destruct IH as [[_ ->]|[_ H]]; destruct (t !! mb_id b) as [a|]; cbn in *; eauto.
    + rewrite lookup_alter_ne in IH by done. destruct IH as [[Hn ->]|[Hi H]].
      * left. split; [|done]. by intros [?|?]%elem_of_cons.
      * right. split; [by right|done].
  - cbn [fold_left bound_ids omap list_omap fmap option_fmap option_map]. apply IH.
Qed.

(** What a binding asks of the row: bound already, or free and the creator's. *)
Definition bindable (memo creator : Z) (a : Attachment) : Prop :=
  at_memo a = Some memo ∨ at_memo a = None ∧ at_creator a = creator.

Lemma bind_attachments_Ok memo creator bs : ∀ db r,
  bind_attachments memo creator bs db = Ok r →
  r = (tt, set_attachments (bind_rows memo bs) db) ∧
  ∀ id, id ∈ bound_ids bs → ∃ a, attachments db !! id = Some a ∧ bindable memo creator a.
Proof.
  induction bs as [|[b|] bs IH]; intros db r; cbn [bind_attachments]; intros H.
  - tx_step H. subst r. split; [by destruct db|]. intros id ?%not_elem_of_nil. done.
  - tx_step H. destruct (attachments db !! mb_id b) as [a|] eqn:Ha; [|discriminate H].
    apply se_bind_Ok in H as ([] & s & Hb & H).
    assert (s = db ∧ bindable memo creator a) as [-> Hbind].
    { destruct (mb_was_bound b); apply require_Ok in Hb as [Hc [= <-]].
      - apply bool_decide_eq_true in Hc. by split; [|left].
      - apply andb_true_iff in Hc as [Hc1%Z.eqb_eq Hc2%bool_decide_eq_true]. by split; [|right]. }
    tx_step H. apply IH in H as [-> Hids]. split.
    + f_equal. apply set_attachments_ext. unfold bind_rows. cbn [fold_left]. f_equal.
      apply map_eq. intros k. destruct (decide (k = mb_id b)) as [->|Hne].
      * by rewrite lookup_insert_eq, lookup_alter_eq, Ha.
      * by rewrite lookup_insert_ne, lookup_alter_ne by done.
    + intros id. cbn. intros [->|Hi]%elem_of_cons; [by exists a|].
      destruct (Hids id Hi) as (a' & Ha' & Hb'). cbn in Ha'.
      destruct (decide (id = mb_id b)) as [->|Hne]; [by exists a|].
      rewrite lookup_insert_ne in Ha' by done. by exists a'.
  - discriminate H.
Qed.

Definition drop_rows (ids : list Z) (t : gmap Z Attachment) : gmap Z Attachment :=
  fold_left (λ t id, delete id t) ids t.

Lemma drop_rows_lookup ids : ∀ t id,
  drop_rows ids t !! id = if decide (id ∈ ids) then None else t !! id.
Proof.
  unfold drop_rows. induction ids as [|i ids IH]; intros t id; cbn [fold_left].
  - by rewrite decide_False by apply not_elem_of_nil.
  - rewrite IH. destruct (decide (id = i)) as [->|Hne].
    + rewrite (decide_True (P := i ∈ i :: ids)) by by left.
      rewrite lookup_delete_eq. by destruct (decide _).
    + rewrite lookup_delete_ne by done. apply decide_ext. rewrite elem_of_cons. tauto.
Qed.

Lemma remove_attachments_Ok memo ids : ∀ db r,
  remove_attachments memo ids db = Ok r → r = (tt, set_attachments (drop_rows ids) db).
Proof.
  induction ids as [|i ids IH]; intros db r; cbn [remove_attachments]; intros H.
  - tx_step H. subst r. by destruct db.
  - tx_step H. tx_step H. tx_step H. apply IH in H as ->. done.
Qed.

Lemma delete_rows_Ok ids : ∀ db r,
  delete_rows ids db = Ok r → r = (tt, set_attachments (drop_rows ids) db).
Proof.
  induction ids as [|i ids IH]; intros db r; cbn [delete_rows]; intros H.
  - tx_step H. subst r. by destruct db.
  - tx_step H. tx_step H. tx_step H. apply IH in H as ->. done.
Qed.

Lemma verify_required_Ok memo ids : ∀ db r,
  verify_required memo ids db = Ok r →
  r = (tt, db) ∧ ∀ id, id ∈ ids → ∃ a, attachments db !! id = Some a ∧ at_memo a = Some memo.
Proof.
  induction ids as [|i ids IH]; intros db r; cbn [verify_required]; intros H.
  - tx_step H. split; [done|]. intros id ?%not_elem_of_nil. done.
  - tx_step H. tx_step H. apply IH in H as [-> Hids]. split; [done|].
    intros id [->|Hi]%elem_of_cons; [|by apply Hids].
    destruct (attachments db !! i) as [a|]; [|done]. exists a. apply bool_decide_eq_true in H0. done.
Qed.

Definition reference_row (memo : Z) (r : MemoRelation) : Z * Z * string :=
  (memo, rl_related r, MemoRelationReference).

Lemma insert_references_Ok memo rels : ∀ db r,
  insert_references memo rels db = Ok r →
  r.2 = set_relations (λ rs, list_to_set (reference_row memo <$> omap id rels) ∪ rs) db.
Proof.
  induction rels as [|[rl|] rels IH]; intros db r; cbn [insert_references]; intros H.
  - tx_step H. subst r. cbn. unfold set_relations. rewrite (left_id_L ∅ (∪)). by destruct db.
  - tx_step H. tx_step H. apply IH in H as ->. apply andb_true_iff in H0 as [H1%Z.eqb_eq H2%String.eqb_eq].
    unfold set_relations. cbn. f_equal. rewrite H1, H2. unfold reference_row. set_solver.
  - discriminate H.
Qed.

Lemma replace_references_Ok memo rels db r :
  replaceMemoReferenceRelations memo rels db = Ok r →
  r.2 = set_relations (λ rs, list_to_set (reference_row memo <$> omap id rels)
                               ∪ filter (λ r, ¬ references_of memo r) rs) db.
Proof. unfold replaceMemoReferenceRelations. intros H. tx_step H. by apply insert_references_Ok in H as ->. Qed.

(** Endpoints that pass are memos the actor may refer to. *)
Definition endpoint_ok (db : DB) (actor : Z) (active : bool) (id : Z) : Prop :=
  ∃ m, memos db !! id = Some m ∧
    ValidateMemoRelationEndpointRead (endpoint_snapshot db actor active id m) = Ok tt.

Lemma validate_endpoints_Ok actor active ids : ∀ db r,
  validate_endpoints actor active ids db = Ok r →
  r = (tt, db) ∧ ∀ id, id ∈ ids → endpoint_ok db actor active id.
Proof.
  induction ids as [|i ids IH]; intros db r; cbn [validate_endpoints]; intros H.
  - tx_step H. split; [done|]. intros id ?%not_elem_of_nil. done.
  - tx_step H. destruct (memos db !! i) as [m|] eqn:Hm; [|discriminate H]. tx_step H.
    apply se_bind_Ok in H as ([] & s & Hv & H). apply se_lift_Ok' in Hv as [Hv Hs].
    cbn in Hv, Hs. subst s. apply IH in H as [-> Hids]. split; [done|].
    intros id [->|Hi]%elem_of_cons; [|by apply Hids]. by exists m.
Qed.

(** ** The parts *)

(** The database with a new memo. *)
Definition with_memo (now : Z) (create : Memo) (db : DB) : DB :=
  set_next (next_user db) (next_space db) (next_memo db + 1) (next_share db)
    (set_memos <[next_memo db := MemoDriver.memo_row now create]> db).

Lemma insertMemo_Ok now create db r :
  MemoDriver.insertMemo now create db = Ok r → r = (next_memo db, with_memo now create db).
Proof. unfold MemoDriver.insertMemo. intros H. by tx H. Qed.

Lemma validateMemoCreateTx_Ok create db r :
  MemoDriver.validateMemoCreateTx create db = Ok r →
  r = (tt, db) ∧ active_user db (mm_creator create) ∧
  ∀ s, mm_space create = Some s →
    space_exists db s = true ∧ MemoDriver.spaceMemberActive db s (mm_creator create) = true.
Proof.
  unfold MemoDriver.validateMemoCreateTx, MemoDriver.validateMemoSpaceMember. intros H.
  tx_step H. tx_step H. apply bool_decide_eq_true in H0.
  destruct (mm_space create) as [s|].
  - tx_step H. tx_step H. tx_step H. apply require_Ok in H as [Hr ->].
    split; [done|]. split; [done|]. intros ? [= <-]. split; [done|].
    unfold active_member_role in Hr. unfold MemoDriver.spaceMemberActive.
    destruct (members db !! (s, mm_creator create)) as [mb|]; [|done]. cbn in Hr.
    destruct (decide _) as [[Hst _]|]; [|done]. by rewrite Hst, Hr.
  - tx_step H. done.
Qed.

(** The actor may comment on the context memo. *)
Definition may_comment (db : DB) (context actor : Z) : Prop :=
  ∃ sn, loadMemoParticipation context actor db = Ok (Some sn) ∧
        ValidateMemoCommentAuthorization sn = Ok tt.

Lemma authorizeMemoComment_Ok context actor db r :
  authorizeMemoComment context actor db = Ok r → r = (tt, db) ∧ may_comment db context actor.
Proof.
  unfold authorizeMemoComment. intros H. tx_step H.
  apply se_bind_Ok in H as (sn & s & Hl & H). apply se_lift_Ok' in Hl as [Hl Hs]. cbn in Hl, Hs. subst s.
  destruct sn as [sn|]; [|discriminate H]. destruct r as [[] s].
  apply se_lift_Ok' in H as [Hv Hs]. cbn in Hv, Hs. subst s. split; [done|]. by exists sn.
Qed.

(** The link of a new comment to its context. *)
Definition comment_rows (id : Z) (context : option Z) : gset (Z * Z * string) :=
  match context with Some c => {[(id, c, MemoRelationComment)]} | None => ∅ end.

Lemma insert_comment_Ok id context db r :
  insertMemoCommentRelation id context db = Ok r →
  r = (tt, set_relations (λ rs, comment_rows id (Some context) ∪ rs) db).
Proof.
  unfold insertMemoCommentRelation. intros H. destruct (_ || _ || _); [discriminate H|].
  tx_step H. tx_step H. tx_step H. done.
Qed.

(** The database after the first part of a mutation. *)
Definition created (now : Z) (mu : MemoMutation) (db : DB) : DB :=
  match mu_create mu with
  | Some c => set_relations (λ rs, comment_rows (next_memo db) (mu_comment_context mu) ∪ rs)
                (with_memo now c db)
  | None => db
  end.

Definition create_allowed (mu : MemoMutation) (db : DB) : Prop :=
  match mu_create mu with
  | Some c => active_user db (mm_creator c) ∧
      (∀ s, mm_space c = Some s →
         space_exists db s = true ∧ MemoDriver.spaceMemberActive db s (mm_creator c) = true) ∧
      (∀ context, mu_comment_context mu = Some context → may_comment db context (mm_creator c))
  | None => True
  end.

Lemma set_relations_empty db : set_relations (λ rs, ∅ ∪ rs) db = db.
Proof. unfold set_relations. rewrite (left_id_L ∅ (∪)). by destruct db. Qed.

Lemma create_part_Ok now mu db r :
  create_part now mu db = Ok r →
  r = (match mu_create mu with Some c => created_mutation mu (next_memo db) c | None => mu end,
       created now mu db) ∧ create_allowed mu db.
Proof.
  unfold create_part, created, create_allowed. destruct (mu_create mu) as [c|]; intros H;
    [|by tx_step H].
  apply se_bind_Ok in H as ([] & s & Hv & H).
  apply validateMemoCreateTx_Ok in Hv as ([= ->] & Hu & Hsp).
  apply se_bind_Ok in H as ([] & s & Hc & H).
  assert (s = db ∧ ∀ context, mu_comment_context mu = Some context →
            may_comment db context (mm_creator c)) as [-> Hcom].
  { destruct (mu_comment_context mu) as [context|].
    - apply authorizeMemoComment_Ok in Hc as ([= ->] & ?). split; [done|]. by intros ? [= <-].
    - tx_step Hc. injection Hc as ->. done. }
  apply se_bind_Ok in H as (id & s & Hi & H). apply insertMemo_Ok in Hi. injection Hi as -> ->.
  apply se_bind_Ok in H as ([] & s & Hr & H).
  assert (s = set_relations (λ rs, comment_rows (next_memo db) (mu_comment_context mu) ∪ rs)
                (with_memo now c db)) as ->.
  { destruct (mu_comment_context mu) as [context|].
    - by apply insert_comment_Ok in Hr as [= ->].
    - tx_step Hr. injection Hr as ->. by rewrite set_relations_empty. }
  tx_step H. subst r. done.
Qed.

(** The mutation once its memo exists, and the memo's author. *)
Definition placed (mu : MemoMutation) (db : DB) : MemoMutation :=
  match mu_create mu with Some c => created_mutation mu (next_memo db) c | None => mu end.
Definition target (mu : MemoMutation) (db : DB) : Z := mu_memo (placed mu db).
Definition author (mu : MemoMutation) (db : DB) : Z := mu_creator (placed mu db).

Lemma attachment_part_Ok mu db r :
  attachment_part mu db = Ok r →
  ∃ removed, r = (tt, set_attachments (λ t, drop_rows removed (bind_rows (mu_memo mu) (mu_bindings mu) t)) db) ∧
    (∀ k, k ∈ mu_removed mu → k ∈ removed) ∧
    (∀ k, k ∈ removed → k ∈ mu_removed mu ∧ ∃ a, attachments db !! k = Some a ∧
       at_creator a = mu_creator mu ∧ at_memo a = Some (mu_memo mu)) ∧
    (∀ k, k ∈ bound_ids (mu_bindings mu) → ∃ a, attachments db !! k = Some a ∧
       bindable (mu_memo mu) (mu_creator mu) a) ∧
    (∀ k, k ∈ mu_required mu → ∃ a, attachments r.2 !! k = Some a ∧ at_memo a = Some (mu_memo mu)).
Proof.
  unfold attachment_part. intros H. tx_step H. tx_step H. tx_step H.
  apply se_bind_Ok in H as ([] & s & Hb & H). apply bind_attachments_Ok in Hb as [[= ->] Hb].
  apply se_bind_Ok in H as ([] & s & Hr & H). apply remove_attachments_Ok in Hr. injection Hr as ->.
  apply verify_required_Ok in H as [-> Hq].
  destruct (listAttachmentSnapshots_spec (mu_removed mu) db) as [Hn Hl].
  exists (listAttachmentSnapshots (mu_removed mu) db).*1. split; [done|].
  apply Nat.eqb_eq in H0. split; [|split; [|split; [exact Hb|exact Hq]]].
  - assert ((listAttachmentSnapshots (mu_removed mu) db).*1 ≡ₚ mu_removed mu) as Hp.
    { apply submseteq_length_Permutation; [|by rewrite length_fmap, H0].
      apply NoDup_submseteq; [done|]. intros k Hk. apply list_elem_of_fmap in Hk as ([k' a] & -> & Hk).
      by apply Hl in Hk as [? _]. }
    intros k Hk. by rewrite Hp.
  - intros k Hk. apply list_elem_of_fmap in Hk as ([k' a] & -> & Hk). cbn.
    apply Hl in Hk as Hk'. destruct Hk' as [Hk1 Hk2]. split; [done|]. exists a. split; [done|].
    rewrite forallb_forall in H1. specialize (H1 (k', a)).
    rewrite <- list_elem_of_In in H1. specialize (H1 Hk). cbn in H1. unfold removable in H1.
    apply andb_true_iff in H1 as [Hc%Z.eqb_eq Hm%bool_decide_eq_true]. done.
Qed.

Lemma update_part_Ok mu db r :
  update_part mu db = Ok r →
  match mu_update mu with
  | None => r = (tt, db)
  | Some u => um_id u = mu_memo mu ∧
      ((memos db !! um_id u = None ∧ r = (tt, db)) ∨
       ∃ m, memos db !! um_id u = Some m ∧
            r = (tt, set_memos <[um_id u := MemoDriver.updated_memo u m]> db))
  end.
Proof.
  unfold update_part. destruct (mu_update mu) as [u|]; intros H; [|by tx_step H].
  tx_step H. apply Z.eqb_eq in H0. split; [done|]. by apply applyMemoUpdate_Ok.
Qed.

(** What the state of the memo must be when the attachments are touched. *)
Lemma check_memo_state_Ok mu db r :
  check_memo_state mu db = Ok r →
  r = (tt, db) ∧ ∃ m, memos db !! mu_memo mu = Some m ∧
    mm_creator m = mu_creator mu ∧ mm_content m = mu_expected_content mu.
Proof.
  unfold check_memo_state. intros H. tx_step H.
  destruct (memos db !! mu_memo mu) as [m|] eqn:Hm; [|discriminate H]. tx_step H.
  apply andb_true_iff in H0 as [H1%Z.eqb_eq H2%String.eqb_eq]. split; [done|]. by exists m.
Qed.

Lemma validateMemoRelationEndpoints_Ok mu db r :
  validateMemoRelationEndpoints mu db = Ok r →
  r = (tt, db) ∧
  (mu_replace mu = true ∨ mu_comment_context mu ≠ None →
   ∀ id, id ∈ relation_endpoints mu →
     endpoint_ok db (mu_creator mu) (bool_decide (active_user db (mu_creator mu))) id).
Proof.
  unfold validateMemoRelationEndpoints. intros H.
  destruct (negb (mu_replace mu) && _) eqn:Hb.
  - tx_step H. subst r. split; [done|]. apply andb_true_iff in Hb as [Hb1%negb_true_iff Hb2%bool_decide_eq_true].
    intros [?|?]; congruence.
  - tx_step H. destruct (user_status db (mu_creator mu)) as [st|] eqn:Hst; [|discriminate H].
    apply validate_endpoints_Ok in H as [-> Hids]. split; [done|]. intros _ id Hid.
    assert (bool_decide (active_user db (mu_creator mu)) = String.eqb st Normal) as ->.
    { destruct (String.eqb_spec st Normal) as [->|]; [by apply bool_decide_true|].
      apply bool_decide_false. unfold active_user. congruence. }
    apply Hids. unfold relationAuthorizationEndpointIDs, sort_ids.
    rewrite merge_sort_Permutation. by apply elem_of_elements.
Qed.

(** The tables a mutation never touches. *)
Definition same_other_tables (db db' : DB) : Prop :=
  users db' = users db ∧ spaces db' = spaces db ∧ members db' = members db ∧
  shares db' = shares db ∧ reactions db' = reactions db ∧ inboxes db' = inboxes db ∧
  identities db' = identities db ∧ user_settings db' = user_settings db ∧
  next_attachment db' = next_attachment db ∧ next_reaction db' = next_reaction db.

(** The effect of a mutation on the memo [id] by [actor].  The memo: created, or
    found in the expected state and updated.  The attachments: the removed ones
    were the actor's and on this memo, the bound ones were on this memo or the
    actor's and free, the required ones are on it, all others are untouched.
    The relations: the references of the memo are replaced if asked for, the
    link to the context of a comment is added, all others stay. *)
Record mutation_effect (now : Z) (mu : MemoMutation) (actor id : Z) (db db' : DB) : Prop := {
  me_other_memos k : k ≠ id → memos db' !! k = memos db !! k;
  me_memo : match mu_create mu with
    | Some c => id = next_memo db ∧ actor = mm_creator c ∧ active_user db actor ∧
        memos db' !! id = Some (MemoDriver.memo_row now c)
    | None => id = mu_memo mu ∧ actor = mu_creator mu ∧ ∃ m, memos db !! id = Some m ∧
        mm_creator m = actor ∧ mm_content m = mu_expected_content mu ∧
        memos db' !! id =
          Some (match mu_update mu with Some u => MemoDriver.updated_memo u m | None => m end)
    end;
  me_removed k : k ∈ mu_removed mu → attachments db' !! k = None ∧
    ∃ a, attachments db !! k = Some a ∧ at_creator a = actor ∧ at_memo a = Some id;
  me_bound k : k ∈ bound_ids (mu_bindings mu) → ∃ a ts, attachments db !! k = Some a ∧
    bindable id actor a ∧ attachments db' !! k = Some (bind_row id ts a);
  me_required k : k ∈ mu_required mu → ∃ a, attachments db' !! k = Some a ∧ at_memo a = Some id;
  me_attachments k : k ∉ mu_removed mu → k ∉ bound_ids (mu_bindings mu) →
    attachments db' !! k = attachments db !! k;
  me_relations r : r ∈ relations db' ↔
    (if mu_replace mu then
       (∃ rl, Some rl ∈ mu_relations mu ∧ r = reference_row id rl) ∨
       (¬ references_of id r ∧ r ∈ relations db)
     else r ∈ relations db) ∨
    (mu_create mu ≠ None ∧ r ∈ comment_rows id (mu_comment_context mu));
  me_other_tables : same_other_tables db db';
  me_next : next_memo db' = (if mu_create mu is Some _ then (next_memo db + 1)%Z else next_memo db);
}.

(** The mutation as the store method passes it on. *)
Definition checked (mu : MemoMutation) : MemoMutation :=
  sort_removed (match mu_create mu with
                | Some c => mkMutation (mu_create mu) (mu_comment_context mu) (mu_memo mu)
                    (mm_creator c) (mm_content c) (mu_update mu) (mu_bindings mu)
                    (mu_removed mu) (mu_required mu) (mu_replace mu) (mu_relations mu)
                    (mu_policy mu)
                | None => mu
                end).

(** The removed attachments are not also bound. *)
Lemma check_mutation_Ok mu mu' :
  check_mutation mu = Ok mu' →
  mu' = checked mu ∧
  (mu_create mu ≠ None → mu_update mu = None ∧ mu_removed mu = [] ∧ mu_policy mu = None) ∧
  (∀ c, mu_create mu = Some c → validateMemoCreate c = Ok tt) ∧
  (∀ k, k ∈ mu_removed mu → k ∉ bound_ids (mu_bindings mu)).
Proof.
  unfold check_mutation. intros (mu1 & Hc & H)%bind_Ok.
  assert (mu1 = match mu_create mu with
                | Some c => mkMutation (mu_create mu) (mu_comment_context mu) (mu_memo mu)
                    (mm_creator c) (mm_content c) (mu_update mu) (mu_bindings mu)
                    (mu_removed mu) (mu_required mu) (mu_replace mu) (mu_relations mu)
                    (mu_policy mu)
                | None => mu end ∧
    (mu_create mu ≠ None → mu_update mu = None ∧ mu_removed mu = [] ∧ mu_policy mu = None) ∧
    (∀ c, mu_create mu = Some c → validateMemoCreate c = Ok tt)) as (-> & Hnew & Hval).
  { unfold check_create in Hc. destruct (mu_create mu) as [c|]; [|by injection Hc as <-].
    apply bind_Ok in Hc as ([] & Hg & Hc). apply bind_Ok in Hc as ([] & Hv & Hc).
    destruct (match mu_comment_context mu with Some _ => _ | None => _ end); [discriminate Hc|].
    injection Hc as <-. apply first_error_Ok in Hg. rewrite !Forall_cons in Hg. cbn in Hg.
    destruct Hg as (Hg & _ & _). rewrite !orb_false_iff, !bool_decide_eq_false in Hg.
    destruct Hg as [[Hu Hp] Hr]. unguard Hr. split; [done|]. split; [|by intros ? [= <-]].
    intros _. split_and!; [|done|]; apply eq_None_not_Some; done. }
  apply bind_Ok in H as ([] & _ & H). apply bind_Ok in H as ([] & _ & H).
  apply bind_Ok in H as ([] & Hg & H). apply bind_Ok in H as ([] & _ & H). injection H as <-.
  split; [done|]. split; [done|]. split; [done|].
  apply first_error_Ok in Hg. rewrite !Forall_cons in Hg. cbn in Hg. destruct Hg as (Hg & _).
  intros k Hk Hb. apply not_true_iff_false in Hg. apply Hg. apply existsb_exists.
  apply list_elem_of_omap in Hb as (b & Hb & Hbk). destruct b as [b|]; [|discriminate Hbk].
  injection Hbk as <-. exists (Some b). split.
  - apply list_elem_of_In. by destruct (mu_create mu).
  - apply bool_decide_eq_true. unfold sort_ids. rewrite merge_sort_Permutation.
    by destruct (mu_create mu).
Qed.

(** ** The whole transaction *)

Definition replaced (mu : MemoMutation) (db : DB) : DB :=
  if mu_replace mu then
    set_relations (λ rs, list_to_set (reference_row (mu_memo mu) <$> omap id (mu_relations mu))
                           ∪ filter (λ r, ¬ references_of (mu_memo mu) r) rs) db
  else db.

Definition updated (mu : MemoMutation) (db : DB) : DB :=
  match mu_update mu with
  | Some u => set_memos (alter (MemoDriver.updated_memo u) (um_id u)) db
  | None => db
  end.

Definition attached (removed : list Z) (mu : MemoMutation) : DB → DB :=
  set_attachments (λ t, drop_rows removed (bind_rows (mu_memo mu) (mu_bindings mu) t)).

(** What a successful transaction has checked. *)
Record mutation_checked (now : Z) (mu : MemoMutation) (removed : list Z) (db : DB) : Prop := {
  mc_endpoints : mu_replace mu = true ∨ mu_comment_context mu ≠ None →
    ∀ id, id ∈ relation_endpoints mu →
      endpoint_ok db (mu_creator mu) (bool_decide (active_user db (mu_creator mu))) id;
  mc_create : create_allowed mu db;
  mc_policy p : mutation_policy (placed mu db) = Some p →
    active_user (created now mu db) (po_actor p) ∧
    ∃ m, memos (created now mu db) !! target mu db = Some m ∧
      write_allowed p (mu_update mu) (MemoDriver.snapshot (created now mu db) now (po_actor p)
                                        (target mu db) m (mu_update mu));
  mc_memo : ∃ m, memos (created now mu db) !! target mu db = Some m ∧ mm_creator m = author mu db ∧
    mm_content m = mu_expected_content (placed mu db);
  mc_removed k : k ∈ removed ↔ k ∈ mu_removed mu;
  mc_removable k : k ∈ mu_removed mu → ∃ a, attachments db !! k = Some a ∧
    at_creator a = author mu db ∧ at_memo a = Some (target mu db);
  mc_bindable k : k ∈ bound_ids (mu_bindings mu) → ∃ a, attachments db !! k = Some a ∧
    bindable (target mu db) (author mu db) a;
  mc_required k : k ∈ mu_required mu → ∃ a,
    drop_rows removed (bind_rows (target mu db) (mu_bindings mu) (attachments db)) !! k = Some a ∧
    at_memo a = Some (target mu db);
  mc_update u : mu_update mu = Some u → um_id u = target mu db;
}.

Lemma placed_fields mu db :
  mu_create (placed mu db) = mu_create mu ∧ mu_update (placed mu db) = mu_update mu ∧
  mu_bindings (placed mu db) = mu_bindings mu ∧ mu_removed (placed mu db) = mu_removed mu ∧
  mu_required (placed mu db) = mu_required mu ∧ mu_replace (placed mu db) = mu_replace mu.
Proof. unfold placed. by destruct (mu_create mu) eqn:E; cbn; rewrite ?E. Qed.

Lemma alter_present {A} (f : A → A) (t : gmap Z A) k x :
  t !! k = Some x → alter f k t = <[k := f x]> t.
Proof.
  intros Hx. apply map_eq. intros j. destruct (decide (j = k)) as [->|Hne].
  - by rewrite lookup_alter_eq, lookup_insert_eq, Hx.
  - by rewrite lookup_alter_ne, lookup_insert_ne.
Qed.

Lemma alter_absent {A} (f : A → A) (t : gmap Z A) k : t !! k = None → alter f k t = t.
Proof.
  intros Hx. apply map_eq. intros j. destruct (decide (j = k)) as [->|Hne].
  - by rewrite lookup_alter_eq, Hx.
  - by rewrite lookup_alter_ne.
Qed.

Lemma updated_Ok mu db r : update_part mu db = Ok r →
  r = (tt, updated mu db) ∧ ∀ u, mu_update mu = Some u → um_id u = mu_memo mu.
Proof.
  intros H%update_part_Ok. unfold updated. destruct (mu_update mu) as [u|]; [|by subst].
  destruct H as [Hid H]. split; [|by intros ? [= <-]].
  destruct H as [[Hn ->]|(m & Hm & ->)]; unfold set_memos.
  - rewrite alter_absent by done. by destruct db.
  - by rewrite (alter_present _ _ _ m).
Qed.

Lemma ApplyMemoMutation_Ok now mu db r :
  MutationDriver.ApplyMemoMutation now mu db = Ok r →
  ∃ removed, mutation_checked now mu removed db ∧
    r = (target mu db,
         replaced (placed mu db) (updated mu (attached removed (placed mu db) (created now mu db)))).
Proof.
  unfold MutationDriver.ApplyMemoMutation. intros H.
  apply se_bind_Ok in H as ([] & s & He & H). apply validateMemoRelationEndpoints_Ok in He as [[= ->] He].
  apply se_bind_Ok in H as (mu0 & s & Hc & H). apply create_part_Ok in Hc as [[= -> ->] Hc].
  fold (placed mu db) in H. destruct (placed_fields mu db) as (_ & Eu & Eb & Er & Eq & Ep).
  apply se_bind_Ok in H as ([] & s & Hp & H).
  assert (s = created now mu db ∧ ∀ p, mutation_policy (placed mu db) = Some p →
    active_user (created now mu db) (po_actor p) ∧
    ∃ m, memos (created now mu db) !! target mu db = Some m ∧
      write_allowed p (mu_update mu) (MemoDriver.snapshot (created now mu db) now (po_actor p)
                                        (target mu db) m (mu_update mu))) as [-> Hpol].
  { rewrite <- Eu. destruct (mutation_policy (placed mu db)) as [p|].
    - apply validateWritePolicy_Ok in Hp as ([= ->] & Hu & Hw). split; [done|]. by intros ? [= <-].
    - tx_step Hp. by injection Hp as ->. }
  clear Hp. apply se_bind_Ok in H as ([] & s & Hm & H).
  apply check_memo_state_Ok in Hm as [[= ->] Hm].
  apply se_bind_Ok in H as ([] & s & Ha & H).
  apply attachment_part_Ok in Ha as (removed & [= ->] & Hr1 & Hr2 & Hb & Hq).
  apply se_bind_Ok in H as ([] & s & Hup & H). apply updated_Ok in Hup as [[= ->] Hup].
  apply se_bind_Ok in H as ([] & s & Hrel & H). tx_step H. subst r.
  assert (attachments (created now mu db) = attachments db) as Eat.
  { unfold created. by destruct (mu_create mu). }
  rewrite Eu, ?Eb, ?Er, ?Eq, ?Ep, ?Eat in *. exists removed. split.
  - split; [exact He|exact Hc|exact Hpol|exact Hm| |apply Hr2 || idtac|exact Hb| |exact Hup].
    + intros k. split; [apply Hr2|apply Hr1].
    + intros k Hk. by apply Hr2, Hr1.
    + intros k Hk. destruct (Hq k Hk) as (a & Ha & ?). exists a. by cbn in Ha; rewrite Eat in Ha.
  - f_equal. unfold replaced, attached, updated in *. rewrite Ep, Eb, Eu in *.
    destruct (mu_replace mu).
    + by apply replace_references_Ok in Hrel.
    + tx_step Hrel. by injection Hrel as <-.
Qed.

(** The actor a mutation acts for. *)
Definition actor_of (mu : MemoMutation) : Z :=
  match mu_create mu with Some c => mm_creator c | None => mu_creator mu end.

Lemma checked_fields mu db :
  mu_create (checked mu) = mu_create mu ∧ mu_update (checked mu) = mu_update mu ∧
  mu_bindings (checked mu) = mu_bindings mu ∧ mu_removed (checked mu) = sort_ids (mu_removed mu) ∧
  mu_required (checked mu) = mu_required mu ∧ mu_replace (checked mu) = mu_replace mu ∧
  mu_relations (checked mu) = mu_relations mu ∧ mu_comment_context (checked mu) = mu_comment_context mu ∧
  mu_creator (checked mu) = actor_of mu ∧ author (checked mu) db = actor_of mu ∧
  target (checked mu) db = (if mu_create mu then next_memo db else mu_memo mu) ∧
  mutation_policy (placed (checked mu) db) = mutation_policy mu ∧
  mu_expected_content (placed (checked mu) db)
    = (if mu_create mu is Some c then mm_content c else mu_expected_content mu).
Proof.
  unfold checked, author, target, placed, actor_of, mutation_policy.
  destruct mu as [[c|] ????????????]; done.
Qed.

Lemma endpoint_active db actor b id : endpoint_ok db actor b id → endpoint_ok db actor true id.
Proof.
  intros H. enough (b = true) as <-; [done|]. destruct H as (m & _ & Hv). unfold ValidateMemoRelationEndpointRead in Hv.
  apply first_error_Ok in Hv. rewrite Forall_cons in Hv. cbn in Hv. destruct Hv as [Hv _].
  by apply negb_false_iff in Hv.
Qed.

Lemma related_endpoint mu rl :
  Some rl ∈ mu_relations mu → rl_related rl ∈ relation_endpoints mu.
Proof.
  intros Hr. unfold relation_endpoints. apply elem_of_union. right. apply elem_of_list_to_set.
  apply list_elem_of_omap. by exists (Some rl).
Qed.

Lemma reference_rows id rels r :
  r ∈ list_to_set (C := gset (Z * Z * string)) (reference_row id <$> omap (λ o : option MemoRelation, o) rels) ↔
  ∃ rl, Some rl ∈ rels ∧ r = reference_row id rl.
Proof.
  rewrite elem_of_list_to_set, list_elem_of_fmap. split.
  - intros (rl & -> & Hrl). apply list_elem_of_omap in Hrl as (o & Ho & ->). by exists rl.
  - intros (rl & Hrl & ->). exists rl. split; [done|]. apply list_elem_of_omap. by exists (Some rl).
Qed.

Lemma reference_rows_created i id (rels : list (option MemoRelation)) :
  reference_row id <$> omap (λ o : option MemoRelation, o)
    ((λ r : option MemoRelation, (λ r, mkRelation i (rl_related r) (rl_type r)) <$> r) <$> rels)
  = reference_row id <$> omap (λ o, o) rels.
Proof. induction rels as [|[rl|] rels IH]; cbn; [done| |done]. f_equal. apply IH. Qed.

(** The tables after a mutation. *)
Section final.
Context (now : Z) (mu : MemoMutation) (removed : list Z) (db : DB).
Let final := replaced (placed mu db) (updated mu (attached removed (placed mu db) (created now mu db))).

Lemma final_memos :
  memos final = match mu_update mu with
                | Some u => alter (MemoDriver.updated_memo u) (um_id u) (memos (created now mu db))
                | None => memos (created now mu db)
                end.
Proof. unfold final, replaced, updated. by destruct (mu_replace _), (mu_update mu). Qed.

Lemma final_attachments :
  attachments final = drop_rows removed (bind_rows (target mu db) (mu_bindings mu) (attachments db)).
Proof.
  unfold final, replaced, updated, attached, created, target, placed.
  destruct (mu_create mu); cbn; by destruct (mu_replace mu), (mu_update mu).
Qed.

Lemma final_relations :
  relations final =
  let rs := match mu_create mu with
            | Some _ => comment_rows (next_memo db) (mu_comment_context mu) ∪ relations db
            | None => relations db
            end in
  if mu_replace mu then
    list_to_set (reference_row (target mu db) <$> omap (λ o : option MemoRelation, o) (mu_relations mu))
    ∪ filter (λ r, ¬ references_of (target mu db) r) rs
  else rs.
Proof.
  unfold final, replaced, updated, attached, created, target, placed.
  destruct (mu_create mu); cbn; destruct (mu_replace mu), (mu_update mu); cbn; try done.
  all: by rewrite reference_rows_created.
Qed.

Lemma final_others : same_other_tables db final.
Proof.
  unfold final, replaced, updated, created. by destruct (mu_create mu), (mu_replace _), (mu_update mu).
Qed.
End final.

Lemma comment_not_reference id context r :
  r ∈ comment_rows id context → ¬ references_of id r.
Proof.
  unfold comment_rows, references_of. destruct context as [c|]; [|set_solver].
  intros ->%elem_of_singleton [_ Ht]. discriminate Ht.
Qed.

Lemma effect_of_checked now mu removed db :
  mutation_checked now mu removed db → (mu_create mu ≠ None → mu_update mu = None) →
  (mu_create mu ≠ None → author mu db = actor_of mu) →
  (∀ k, k ∈ mu_removed mu → k ∉ bound_ids (mu_bindings mu)) →
  mutation_effect now mu (author mu db) (target mu db) db
    (replaced (placed mu db) (updated mu (attached removed (placed mu db) (created now mu db)))).
Proof.
  intros Hck Hnew Hau Hdisj. split; rewrite ?final_memos, ?final_attachments.
  - intros k Hk. destruct (mu_update mu) as [u|] eqn:Hu.
    + rewrite (mc_update _ _ _ _ Hck u Hu), lookup_alter_ne by done. unfold created, target, placed in *.
      destruct (mu_create mu); [by specialize (Hnew ltac:(done))|done].
    + unfold created, target, placed in *. destruct (mu_create mu); [|done]. cbn in *.
      by rewrite lookup_insert_ne.
  - destruct (mc_memo _ _ _ _ Hck) as (m & Hm & Hc & Hco). unfold created, target, author, placed, actor_of in *.
    destruct (mu_create mu) as [c|] eqn:Hcr.
    + rewrite Hnew by done. pose proof (mc_create _ _ _ _ Hck) as Hcr'. unfold create_allowed in Hcr'.
      rewrite Hcr in Hcr'. destruct Hcr' as (Hact & _).
      cbn in *. split_and!; [done..|]. by rewrite lookup_insert_eq.
    + split; [done|]. split; [done|]. exists m. split_and!; try done.
      destruct (mu_update mu) as [u|] eqn:Hu; [|done].
      pose proof (mc_update _ _ _ _ Hck u Hu) as Hid. unfold target, placed in Hid.
      rewrite Hcr in Hid. by rewrite Hid, lookup_alter_eq, Hm.
  - intros k Hk. split; [|by apply (mc_removable _ _ _ _ Hck)].
    rewrite drop_rows_lookup, decide_True; [done|by apply (mc_removed _ _ _ _ Hck)].
  - intros k Hk. destruct (mc_bindable _ _ _ _ Hck k Hk) as (a & Ha & Hb).
    destruct (bind_rows_lookup (target mu db) (mu_bindings mu) (attachments db) k) as [[? _]|[_ H]]; [done|].
    rewrite Ha in H. destruct H as (ts & H). exists a, ts. split; [done|]. split; [done|].
    rewrite drop_rows_lookup, decide_False; [done|]. rewrite (mc_removed _ _ _ _ Hck).
    intros Hr. by apply (Hdisj k).
  - apply (mc_required _ _ _ _ Hck).
  - intros k Hr Hb. rewrite drop_rows_lookup, decide_False by by rewrite (mc_removed _ _ _ _ Hck).
    by destruct (bind_rows_lookup (target mu db) (mu_bindings mu) (attachments db) k) as [[_ ->]|[? _]].
  - intros r. rewrite final_relations. cbn zeta.
    destruct (mu_replace mu); [rewrite elem_of_union, reference_rows, elem_of_filter|];
      unfold target, placed; destruct (mu_create mu) as [c|]; cbn; rewrite ?elem_of_union.
    + pose proof (comment_not_reference (next_memo db) (mu_comment_context mu) r). naive_solver.
    + naive_solver.
    + naive_solver.
    + naive_solver.
  - apply final_others.
  - unfold replaced, updated, created.
    destruct (mu_create mu), (mu_replace _), (mu_update _); reflexivity.
Qed.

Lemma effect_unchecked now mu actor id db db' :
  mutation_effect now (checked mu) actor id db db' → mutation_effect now mu actor id db db'.
Proof.
  assert (∀ k, k ∈ sort_ids (mu_removed mu) ↔ k ∈ mu_removed mu) as Hs.
  { intros k. unfold sort_ids. by rewrite merge_sort_Permutation. }
  destruct (checked_fields mu db) as (E1 & E2 & E3 & E4 & E5 & E6 & E7 & E8 & E9 & E10 & E11 & E12 & E13).
  intros [H1 H2 H3 H4 H5 H6 H7 H8 H9]. rewrite ?E1, ?E2, ?E3, ?E4, ?E5, ?E6, ?E7, ?E8, ?E9 in *.
  split; try done.
  - clear -H2. unfold checked, actor_of in H2. destruct mu as [[c|] ????????????]; cbn in *; done.
  - intros k Hk. apply H3. by apply Hs.
  - intros k Hk. apply H6. by rewrite Hs.
Qed.

Lemma ApplyMemoMutation_effect now mu db id db' :
  MemoMutation.ApplyMemoMutation now mu db = Ok (id, db') →
  mutation_effect now mu (actor_of mu) id db db' ∧
  (mu_replace mu = true → ∀ rl, Some rl ∈ mu_relations mu →
     endpoint_ok db (actor_of mu) true (rl_related rl)) ∧
  (∀ c context, mu_create mu = Some c → mu_comment_context mu = Some context →
     may_comment db context (mm_creator c)) ∧
  (∀ p, mutation_policy mu = Some p → po_actor p = actor_of mu ∧ active_user db (po_actor p)).
Proof.
  unfold MemoMutation.ApplyMemoMutation. intros H.
  apply se_bind_Ok in H as (mu' & s & Hc & H). apply se_lift_Ok' in Hc as [Hc Hs]. cbn in Hc, Hs. subst s.
  apply check_mutation_Ok in Hc as (-> & Hnew & _ & Hdisj).
  apply ApplyMemoMutation_Ok in H as (removed & Hck & [= -> ->]).
  destruct (checked_fields mu db) as
    (E1 & E2 & E3 & E4 & E5 & E6 & E7 & E8 & E9 & E10 & E11 & E12 & E13).
  split; [|split; [|split]].
  - rewrite <- E10. apply effect_unchecked.
    apply effect_of_checked; [done|..]; rewrite ?E1, ?E2, ?E3, ?E4.
    + intros Hc. by destruct (Hnew Hc).
    + intros Hc. rewrite E10. unfold actor_of. rewrite E1. by destruct (mu_create mu).
    + intros k. unfold sort_ids. rewrite merge_sort_Permutation. apply Hdisj.
  - intros Hr rl Hrl. pose proof (mc_endpoints _ _ _ _ Hck) as He. rewrite E6, E9 in He.
    eapply endpoint_active, (He (or_introl Hr)), related_endpoint. by rewrite E7.
  - intros c context Hc Hcx. pose proof (mc_create _ _ _ _ Hck) as Hcr. unfold create_allowed in Hcr.
    rewrite E1, Hc in Hcr. destruct Hcr as (_ & _ & Hcr). apply Hcr. by rewrite E8.
  - intros p Hp. rewrite <- E12 in Hp. destruct (mc_policy _ _ _ _ Hck p Hp) as (Ha & m & Hm & Hw).
    destruct (mc_memo _ _ _ _ Hck) as (m' & Hm' & Hc & _).
    rewrite Hm in Hm'. injection Hm' as <-. apply wa_author in Hw. cbn in Hw. split; [congruence|].
    revert Ha. unfold active_user, user_status, created. by destruct (mu_create (checked mu)).
Qed.

(** C16. A memo mutation does all of what it is asked for, or nothing.  When it
    succeeds, the memo is created or updated in the state the request expected;
    the removed attachments were the actor's and on this memo and are gone, the
    bound ones were on the memo already or free and the actor's - an attachment is
    never taken from another memo - and every required one is on the memo in the
    end; the references are replaced as a set, comment links of other memos are
    never touched; and nothing else in the database changes.  The actor is active
    and may read every memo referred to, may comment on the context, and owns the
    memo when a policy demands it. *)
Theorem mutation_exact now mu db id db' :
  MemoMutation.ApplyMemoMutation now mu db = Ok (id, db') →
  mutation_effect now mu (actor_of mu) id db db' ∧
  (mu_replace mu = true → ∀ rl, Some rl ∈ mu_relations mu →
     endpoint_ok db (actor_of mu) true (rl_related rl)) ∧
  (∀ c context, mu_create mu = Some c → mu_comment_context mu = Some context →
     may_comment db context (mm_creator c)) ∧
  (∀ p, mutation_policy mu = Some p → po_actor p = actor_of mu ∧ active_user db (po_actor p)).
Proof. apply ApplyMemoMutation_effect. Qed.

(** Ada's memo 1 drops attachment 2, takes the free attachment 1 and refers to
    Bob's public memo instead of its old reference. *)
Definition mutation_db : DB :=
  mkDB {[ 1%Z := example_user "ada"; 2%Z := example_user "bob" ]} ∅ ∅
    {[ 1%Z := mkMemo "a" 1 0 0 Normal "old" Private false "{}" None;
       2%Z := mkMemo "b" 2 0 0 Normal "text" Public false "{}" None ]}
    ∅ ∅
    {[ 1%Z := mkAttachment "x" 1 None "" "" "" "" "" 0 "" 0 0;
       2%Z := mkAttachment "y" 1 (Some 1%Z) "" "" "" "" "" 0 "" 0 0 ]}
    {[ (1, 9, "REFERENCE")%Z ]} ∅ ∅ ∅ 3 1 3 1 3 1.
Definition edit : MemoMutation :=
  mkMutation None None 1 1 "old"
    (Some (mkUpdateMemo 1 None None None None (Some "new") None None None None false None))
    [Some (mkBinding 1 "x" 7 false)] [2%Z] [1%Z] true
    [Some (mkRelation 1 2 MemoRelationReference)] (Some (mkPolicy 1 false false)).

Lemma mutation_exact_witness :
  ∃ db', MemoMutation.ApplyMemoMutation 9 edit mutation_db = Ok (1%Z, db') ∧
    mutation_effect 9 edit 1 1 mutation_db db' ∧
    (1, 2, "REFERENCE")%Z ∈ relations db' ∧ attachments db' !! 2%Z = None.
Proof.
  destruct (MemoMutation.ApplyMemoMutation 9 edit mutation_db) as [[id db']|] eqn:E;
    [|exfalso; revert E; vm_compute; discriminate].
  destruct (mutation_exact 9 edit mutation_db id db' E) as (He & _).
  assert (id = 1%Z) as -> by by destruct (me_memo _ _ _ _ _ _ He) as (-> & _).
  exists db'. split; [reflexivity|]. split; [exact He|]. split.
  - apply (me_relations _ _ _ _ _ _ He). left. left. exists (mkRelation 1 2 MemoRelationReference).
    split; [by left|reflexivity].
  - apply (me_removed _ _ _ _ _ _ He). by left.
Defined.
