(* ===== verification/History.v ===== *)
(** * Histories of requests

    The requests that change memos, their shares, attachments, references,
    comments and reactions, next to the requests on spaces and users of
    [SpaceSafety]: one step per request, in any order, each served in a
    transaction at some time of a clock. *)
From S2P Require Import Prelude GoLib Store SpaceStore SpaceStoreFacts SpaceSafety MemoStore MemoStoreFacts.
From S2P Require Import AttachmentStore MemoMutation MutationFacts.

Inductive memo_op :=
| OpCreateMemo (create : Memo)
| OpUpdateMemo (update : UpdateMemoReq)
| OpMutateMemo (mutation : MemoMutation)
| OpShareMemo (create : MemoShare) (actor : Z)
| OpUnshareMemo (id : option Z) (uid : option string) (memo : option Z)
    (policy : option MemoWritePolicy)
| OpDeleteMemo (id actor : Z)
| OpCreateAttachment (create : Attachment) (policy : option MemoWritePolicy)
| OpUpdateAttachment (update : UpdateAttachmentReq)
| OpDeleteAttachments (policy : AttachmentDeletionPolicy) (ids : list Z)
| OpReact (reaction : ReactionReq)
| OpUnreact (deletion : DeleteReactionReq)
| OpSpace (o : space_op).

Definition memo_serve (now : Z) (o : memo_op) (db : DB) : DB :=
  match o with
  | OpCreateMemo create => (run (MemoStore.CreateMemo now create) db).2
  | OpUpdateMemo u => (run (MemoStore.UpdateMemo now u) db).2
  | OpMutateMemo mu => (run (MemoMutation.ApplyMemoMutation now mu) db).2
  | OpShareMemo create actor =>
      (run (MemoStore.CreateMemoShare now create (Some (mkPolicy actor false true))) db).2
  | OpUnshareMemo id uid memo p => (run (MemoStore.DeleteMemoShare now id uid memo p) db).2
  | OpDeleteMemo id actor => (run (MemoStore.DeleteMemoWithPolicy id actor) db).2
  | OpCreateAttachment create p => (run (AttachmentStore.CreateAttachment now create p) db).2
  | OpUpdateAttachment u => (run (AttachmentStore.UpdateAttachment u) db).2
  | OpDeleteAttachments p ids => (run (AttachmentStore.DeleteAttachmentsWithPolicy p ids) db).2
  | OpReact q => (run (MemoMutation.UpsertReaction now q) db).2
  | OpUnreact d => (run (MemoMutation.DeleteReaction d) db).2
  | OpSpace o => (serve o db).2
  end.

(** Requests with the time they are served at. *)
Fixpoint memo_serve_all (os : list (Z * memo_op)) (db : DB) : DB :=
  match os with [] => db | (now, o) :: os => memo_serve_all os (memo_serve now o db) end.

(** An update that touches neither placement nor audience, as the background job
    that recomputes payloads sends it. *)
Definition in_place (u : UpdateMemoReq) : Prop :=
  um_visibility u = None ∧ um_space u = None ∧ um_clear_space u = false.

(** What the API sends: updates and mutations under a policy (or in place), which
    do not both name a space and clear the placement; attachments linked to a memo
    only under a policy. *)
Definition api_op (o : memo_op) : Prop :=
  match o with
  | OpUpdateMemo u =>
      (um_policy u ≠ None ∨ in_place u) ∧ (um_clear_space u = true → um_space u = None)
  | OpMutateMemo mu =>
      (mu_create mu = None → MutationDriver.mutation_policy mu ≠ None) ∧
      ∀ u, mu_update mu = Some u → um_clear_space u = true → um_space u = None
  | OpCreateAttachment create p => p = None → at_memo create = None
  | OpUpdateAttachment u => ua_policy u ≠ None
  | _ => True
  end.

Fixpoint clock_from (now : Z) (os : list (Z * memo_op)) : Prop :=
  match os with [] => True | (t, _) :: os => (now ≤ t)%Z ∧ clock_from t os end.

(** An invariant of the state that every request of the API preserves holds
    after every history. *)
Lemma memo_serve_all_invariant (I : DB → Prop) os : ∀ db,
  (∀ now o db, api_op o → I db → I (memo_serve now o db)) →
  Forall (λ o : Z * memo_op, api_op o.2) os → I db → I (memo_serve_all os db).
Proof.
  induction os as [|[t o] os IH]; intros db Hstep Hapi Hdb; [done|].
  apply Forall_cons in Hapi as [Ho Hos]. apply IH; [done..|]. by apply Hstep.
Qed.

(** ** Effects of the requests on attachments and reactions *)

Import AttachmentDriver MutationDriver.

Lemma insertAttachment_Ok now create db r :
  insertAttachment now create db = Ok r →
  ∃ a, at_memo a = at_memo create ∧ at_creator a = at_creator create ∧
    r = (next_attachment db, set_next_attachment (next_attachment db + 1)
                               (set_attachments <[next_attachment db := a]> db)).
Proof. unfold insertAttachment. intros H. tx H. eexists. split_and!; [..|reflexivity]; reflexivity. Qed.

Lemma CreateAttachment_Ok now create p db r :
  AttachmentStore.CreateAttachment now create p db = Ok r →
  (p = None ∨ ∃ id m, at_memo create = Some id ∧ memos db !! id = Some m ∧
     mm_creator m = at_creator create) ∧
  ∃ a, at_memo a = at_memo create ∧ at_creator a = at_creator create ∧
    r.2 = set_next_attachment (next_attachment db + 1)
            (set_attachments <[next_attachment db := a]> db).
Proof.
  unfold AttachmentStore.CreateAttachment, CreateAttachment. intros H.
  tx_step H; [discriminate H|]. apply se_bind_Ok in H as ([] & s & Hv & H).
  apply se_lift_Ok' in Hv as [_ Hs]. cbn in Hs. subst s. destruct p as [p|].
  - tx_step H; [discriminate H|]. tx_step H; [discriminate H|].
    destruct (at_memo create) as [m|] eqn:Hm; [|discriminate H]. tx_step H.
    apply Z.eqb_eq in H0. apply se_bind_Ok in H as ([] & s & Hw & H).
    apply validateWritePolicy_Ok in Hw as ([= ->] & _ & row & Hrow & Hw).
    apply wa_author in Hw. cbn in Hw.
    apply insertAttachment_Ok in H as (a & Ha & Hc & ->). rewrite Hm in Ha.
    split; [right; exists m, row; split_and!; congruence|]. by exists a.
  - apply insertAttachment_Ok in H as (a & Ha & Hc & ->). split; [by left|]. by exists a.
Qed.

Lemma authorize_memos_Ok actor expected ids : ∀ db r,
  authorize_memos actor expected ids db = Ok r → r = (tt, db).
Proof.
  induction ids as [|i ids IH]; intros db r; cbn [authorize_memos]; intros H; [by tx_step H|].
  tx_step H. destruct (memos db !! i) as [m|]; [|discriminate H]. tx_step H. tx_step H.
  apply se_bind_Ok in H as ([] & s & Hl & H). apply se_lift_Ok' in Hl as [_ Hs]. cbn in Hs. subst s.
  by apply IH in H.
Qed.

Lemma authorizeAttachmentMutation_Ok actor ids expected db r :
  authorizeAttachmentMutation actor ids expected db = Ok r → r = (tt, db) ∧ active_user db actor.
Proof.
  unfold authorizeAttachmentMutation. intros H. tx_step H. tx_step H.
  apply bool_decide_eq_true in H0. by apply authorize_memos_Ok in H as ->.
Qed.

(** An update keeps creator and memo of the row. *)
Lemma UpdateAttachment_Ok u db r :
  ua_policy u ≠ None → AttachmentStore.UpdateAttachment u db = Ok r →
  r.2 = db ∨ ∃ a a', attachments db !! ua_id u = Some a ∧ at_memo a' = at_memo a ∧
    at_creator a' = at_creator a ∧ r.2 = set_attachments <[ua_id u := a']> db.
Proof.
  unfold AttachmentStore.UpdateAttachment, UpdateAttachment. intros Hp H.
  tx_step H; [discriminate H|]. apply se_bind_Ok in H as ([] & s & Hv & H).
  apply se_lift_Ok' in Hv as [_ Hs]. cbn in Hs. subst s. tx_step H; [discriminate H|].
  destruct (ua_policy u) as [p|]; [|done]. tx_step H. apply bool_decide_eq_true in H0. tx_step H.
  apply se_bind_Ok in H as (ids & s & Hl & H). apply se_lift_Ok' in Hl as [_ Hs]. cbn in Hs. subst s.
  apply se_bind_Ok in H as ([] & s & Ha & H). apply authorizeAttachmentMutation_Ok in Ha as [[= ->] _].
  unfold applyAttachmentUpdate in H. tx_step H.
  destruct (attachments db !! ua_id u) as [a|] eqn:Ha; [|tx_step H; subst r; by left].
  tx_step H. tx_step H. tx_step H. subst r. right. exists a, (updated_attachment u a).
  unfold updated_attachment. cbn. rewrite H0. done.
Qed.

Lemma DeleteAttachments_Ok p ids db r :
  AttachmentStore.DeleteAttachmentsWithPolicy p ids db = Ok r →
  ∃ gone, r.2 = set_attachments (drop_rows gone) db.
Proof.
  unfold AttachmentStore.DeleteAttachmentsWithPolicy, DeleteAttachmentsWithPolicy. intros H.
  apply se_bind_Ok in H as ([p' ids'] & s & Hn & H). apply se_lift_Ok' in Hn as [_ Hs]. cbn in Hs. subst s.
  tx_step H. tx_step H.
  apply se_bind_Ok in H as (ms & s & Hl & H). apply se_lift_Ok' in Hl as [_ Hs]. cbn in Hs. subst s.
  apply se_bind_Ok in H as ([] & s & Hl & H). apply se_lift_Ok' in Hl as [_ Hs]. cbn in Hs. subst s.
  apply se_bind_Ok in H as ([] & s & Ha & H). apply authorizeAttachmentMutation_Ok in Ha as [[= ->] _].
  apply delete_rows_Ok in H as ->. by eexists.
Qed.

Lemma reactionWritePolicy_Ok creator memo actor db r :
  reactionWritePolicy creator memo actor db = Ok r →
  r = (tt, db) ∧ creator = actor ∧ may_comment db memo actor.
Proof.
  unfold reactionWritePolicy. intros H. tx_step H.
  destruct (loadMemoParticipation memo actor db) as [[sn|]|e] eqn:Hl; try discriminate H.
  destruct r as [[] s]. apply se_lift_Ok' in H as [Hv Hs]. cbn [fst snd] in Hv, Hs. subst s.
  unfold ValidateReactionWriteParticipation in Hv. apply bind_Ok in Hv as ([] & Hc & Hv).
  destruct (negb (pa_actor sn =? actor)%Z); [discriminate|].
  destruct (negb (pa_actor_active sn)); [discriminate|].
  destruct (negb (pa_id sn =? memo)%Z); [discriminate|].
  split; [done|]. split; [|by exists sn]. unfold validateReactionWritePolicy in Hc.
  destruct (_ || _ || _); [discriminate|].
  destruct (Z.eqb_spec creator actor); [done|discriminate].
Qed.

(** A reaction is a new row on a memo that exists, its creator's first of the
    type; under a policy the creator is the actor, who may take part. *)
Lemma UpsertReaction_Ok now q db r :
  MemoMutation.UpsertReaction now q db = Ok r →
  r = (next_reaction db, set_next_reaction (next_reaction db + 1)
        (set_reactions <[next_reaction db := mkReaction (rq_creator q) (rq_memo q) (rq_type q) now]> db)) ∧
  is_Some (memos db !! rq_memo q) ∧
  (∀ i x, reactions db !! i = Some x →
     ¬ (re_creator x = rq_creator q ∧ re_memo x = rq_memo q ∧ re_type x = rq_type q)) ∧
  (∀ p, rq_policy q = Some p → rq_creator q = p ∧ may_comment db (rq_memo q) p).
Proof.
  unfold MemoMutation.UpsertReaction, UpsertReaction. intros H.
  apply se_bind_Ok in H as ([] & s & Hv & H). apply se_lift_Ok' in Hv as [_ Hs]. cbn in Hs. subst s.
  assert (insertReaction now q db = Ok r ∧
          ∀ p, rq_policy q = Some p → rq_creator q = p ∧ may_comment db (rq_memo q) p) as [Hi Hp].
  { destruct (rq_policy q) as [p|]; [|done]. apply se_bind_Ok in H as ([] & s & Hw & H).
    apply reactionWritePolicy_Ok in Hw as ([= ->] & ? & ?). split; [done|]. by intros ? [= <-]. }
  clear H. unfold insertReaction in Hi. tx_step Hi. tx_step Hi. tx_step Hi. tx_step Hi. tx_step Hi.
  tx_step Hi. tx_step Hi. subst r. apply bool_decide_eq_true in H. split; [done|]. split; [done|].
  split; [|done]. intros i x Hx Hsame. apply negb_true_iff, bool_decide_eq_false in H0.
  apply H0. by exists i, x.
Qed.

(** Deleting reactions only removes rows. *)
Lemma DeleteReaction_Ok d db r :
  MemoMutation.DeleteReaction d db = Ok r →
  ∃ t, t ⊆ reactions db ∧ r.2 = set_reactions (λ _, t) db.
Proof.
  assert (∀ x : () * DB, Ok (E := error) (tt, db) = Ok x → ∃ t, t ⊆ reactions db ∧ x.2 = set_reactions (λ _, t) db) as Hsame.
  { intros x [= <-]. exists (reactions db). split; [done|]. by destruct db. }
  assert (∀ x, MutationDriver.DeleteReaction d db = Ok x →
          ∃ t, t ⊆ reactions db ∧ x.2 = set_reactions (λ _, t) db) as Hdriver.
  { intros x H. unfold MutationDriver.DeleteReaction, deleteReactionAsCreator in H.
    destruct (dr_actor d) as [actor|].
    - apply se_bind_Ok in H as ([] & s & Hw & H).
      assert (s = db) as ->.
      { destruct (dr_policy d); [by apply reactionWritePolicy_Ok in Hw as ([= ->] & _)|].
        by injection Hw as ->. }
      tx_step H. destruct (reactions db !! default 0%Z (dr_id d)); [|by apply Hsame].
      tx_step H. tx_step H. subst x. eexists. split; [apply delete_subseteq|done].
    - destruct (_ && _); [by apply Hsame|]. tx_step H. subst x. eexists.
      split; [|reflexivity]. unfold delete_where. apply map_filter_subseteq. }
  unfold MemoMutation.DeleteReaction. intros H. destruct (dr_actor d) as [actor|]; [|by apply Hdriver].
  destruct (_ || _); [discriminate H|]. destruct (dr_policy d) as [p|]; [|by apply Hdriver].
  destruct (dr_memo d) as [m|]; [|discriminate H]. destruct (_ <=? _)%Z; [discriminate H|].
  apply se_bind_Ok in H as ([] & s & Hv & H). apply se_lift_Ok' in Hv as [_ Hs]. cbn in Hs. subst s.
  by apply Hdriver.
Qed.

(** ** What a request can do to the memos and what hangs on them *)

(** Tables of memos and of rows attached to memos are the same, and no user is lost. *)
Record tables_same (db db' : DB) : Prop := {
  ts_users u : is_Some (users db !! u) → is_Some (users db' !! u);
  ts_memos : memos db' = memos db;
  ts_shares : shares db' = shares db;
  ts_reactions : reactions db' = reactions db;
  ts_attachments : attachments db' = attachments db;
  ts_relations : relations db' = relations db;
  ts_next_memo : next_memo db' = next_memo db;
  ts_next_reaction : next_reaction db' = next_reaction db;
  ts_next_attachment : next_attachment db' = next_attachment db;
}.

Lemma tables_same_refl db : tables_same db db.
Proof. done. Qed.
#[export] Hint Resolve tables_same_refl : core.

Inductive content_change (now : Z) (db : DB) : DB → Prop :=
| change_nothing db' : tables_same db db' → content_change now db db'
| change_memos_deleted ids db' :
    tables_same (without_memos ids db) db' → content_change now db db'
| change_user_deleted u : content_change now db (UserEffects.without_user u db)
| change_memo_created c :
    validateMemoCreate c = Ok tt → active_user db (mm_creator c) →
    content_change now db (with_memo now c db)
| change_memo_updated u m :
    memos db !! um_id u = Some m →
    ((∃ p, write_allowed p (Some u) (MemoDriver.snapshot db now (po_actor p) (um_id u) m (Some u)))
       ∧ (um_clear_space u = true → um_space u = None) ∨ in_place u) →
    content_change now db (set_memos <[um_id u := MemoDriver.updated_memo u m]> db)
| change_memo_mutated mu id db' :
    api_op (OpMutateMemo mu) → MemoMutation.ApplyMemoMutation now mu db = Ok (id, db') →
    content_change now db db'
| change_memo_shared sh actor m :
    memos db !! sh_memo sh = Some m →
    write_allowed (mkPolicy actor false true) None (MemoDriver.snapshot db now actor (sh_memo sh) m None) →
    content_change now db (set_next (next_user db) (next_space db) (next_memo db) (next_share db + 1)
                             (set_shares <[next_share db := sh]> db))
| change_shares_deleted c : content_change now db (set_shares (delete_where c) db)
| change_attachment_created a :
    (∀ id, at_memo a = Some id → ∃ m, memos db !! id = Some m ∧ mm_creator m = at_creator a) →
    content_change now db (set_next_attachment (next_attachment db + 1)
                             (set_attachments <[next_attachment db := a]> db))
| change_attachment_updated i a a' :
    attachments db !! i = Some a → at_memo a' = at_memo a → at_creator a' = at_creator a →
    content_change now db (set_attachments <[i := a']> db)
| change_attachments_deleted ids : content_change now db (set_attachments (drop_rows ids) db)
| change_reaction_created x :
    is_Some (memos db !! re_memo x) →
    (∀ i y, reactions db !! i = Some y →
       ¬ (re_creator y = re_creator x ∧ re_memo y = re_memo x ∧ re_type y = re_type x)) →
    content_change now db (set_next_reaction (next_reaction db + 1)
                             (set_reactions <[next_reaction db := x]> db))
| change_reactions_deleted t : t ⊆ reactions db → content_change now db (set_reactions (λ _, t) db).

Lemma users_insert {A} u (row : A) (t : gmap Z A) k : is_Some (t !! k) → is_Some (<[u := row]> t !! k).
Proof. rewrite lookup_insert_is_Some. destruct (decide (u = k)); tauto. Qed.

(** Requests on spaces and users leave memos alone but for the deletions. *)
Lemma space_change now o db : content_change now db (serve o db).2.
Proof.
  serve_cases o; try (by apply change_nothing).
  - apply Effects.CreateSpace_Ok in E as (_ & _ & _ & ->). by apply change_nothing.
  - apply Effects.UpdateSpace_Ok in E as (_ & row & _ & ->). by apply change_nothing.
  - apply Effects.UpdateSpace_Ok in E as (_ & row & _ & ->). by apply change_nothing.
  - apply UserEffects.DeleteSpace_Ok in E as (_ & _ & _ & ->). by eapply change_memos_deleted.
  - apply Effects.CreateSpaceInvitation_Ok in E as (_ & _ & _ & _ & ->). by apply change_nothing.
  - apply Effects.AcceptSpaceInvitation_Ok in E as (_ & _ & m & _ & _ & _ & ->). by apply change_nothing.
  - apply Effects.DeclineSpaceInvitation_Ok in E as (_ & m & _ & _ & [= _ ->]). by apply change_nothing.
  - apply Effects.RevokeSpaceInvitation_Ok in E as (_ & m & _ & _ & [= _ ->]). by apply change_nothing.
  - apply Effects.UpdateSpaceMember_Ok in E as (_ & _ & m & r & _ & _ & _ & _ & _ & ->). by apply change_nothing.
  - apply Effects.DeleteSpaceMember_Ok in E as (_ & m & _ & _ & _ & [= _ ->]). by apply change_nothing.
  - apply UserEffects.CreateUser_Ok in E as (row & _ & [= _ ->]).
    apply change_nothing. split; [|done..]. intros k. apply users_insert.
  - apply UserEffects.UpdateUser_Ok in E as (row & _ & _ & -> & _).
    apply change_nothing. split; [|done..]. intros k. apply users_insert.
  - apply UserEffects.DeleteUser_Ok in E as [(_ & -> & _)|(_ & _ & _ & _ & ->)];
      [by apply change_nothing|apply change_user_deleted].
Qed.

Lemma CreateMemo_change now create db r :
  MemoStore.CreateMemo now create db = Ok r → content_change now db r.2.
Proof.
  unfold MemoStore.CreateMemo, MemoDriver.CreateMemo. intros H.
  apply se_bind_Ok in H as ([] & s & Hv & H). apply se_lift_Ok' in Hv as [Hv Hs]. cbn in Hv, Hs. subst s.
  apply se_bind_Ok in H as ([] & s & Ht & H). apply validateMemoCreateTx_Ok in Ht as ([= ->] & Hu & _).
  apply insertMemo_Ok in H as ->. by apply change_memo_created.
Qed.

Lemma UpdateMemo_change now u db r :
  api_op (OpUpdateMemo u) → MemoStore.UpdateMemo now u db = Ok r → content_change now db r.2.
Proof.
  intros [Hp Hc] (E & _ & _)%store_UpdateMemo_Ok. destruct (um_policy u) as [p|] eqn:Hpol.
  - pose proof (UpdateMemo_policy_Ok now u p db r Hpol E) as (_ & m & Hm & Hw & ->).
    apply change_memo_updated; [done|]. left. split; [by exists p|done].
  - unfold MemoDriver.UpdateMemo in E. rewrite Hpol in E. destruct Hp as [?|Hp]; [done|].
    apply applyMemoUpdate_Ok in E as [[_ ->]|(m & Hm & ->)]; [by apply change_nothing|].
    apply change_memo_updated; [done|by right].
Qed.

Lemma CreateMemoShare_change now create actor db r :
  MemoStore.CreateMemoShare now create (Some (mkPolicy actor false true)) db = Ok r →
  content_change now db r.2.
Proof.
  unfold MemoStore.CreateMemoShare, MemoDriver.CreateMemoShare, MemoDriver.insertMemoShare. intros H.
  apply se_bind_Ok in H as ([] & s & Hv & H). apply se_lift_Ok' in Hv as [_ Hs]. cbn in Hs. subst s.
  apply se_bind_Ok in H as ([] & s & Hw & H).
  apply validateWritePolicy_Ok in Hw as ([= ->] & _ & m & Hm & Hw).
  tx H. by eapply change_memo_shared.
Qed.

Lemma DeleteMemoShare_change now id uid memo p db r :
  MemoStore.DeleteMemoShare now id uid memo p db = Ok r → content_change now db r.2.
Proof.
  unfold MemoStore.DeleteMemoShare, MemoDriver.DeleteMemoShare. intros H.
  tx_step H; [discriminate H|].
  apply se_bind_Ok in H as ([] & s & Hv & H). apply se_lift_Ok' in Hv as [_ Hs]. cbn in Hs. subst s.
  destruct p as [p|].
  - destruct memo as [memo|]; [|discriminate H]. tx_step H; [discriminate H|].
    apply se_bind_Ok in H as ([] & s & Hw & H).
    apply validateWritePolicy_Ok in Hw as ([= ->] & _). tx H. apply change_shares_deleted.
  - tx H. apply change_shares_deleted.
Qed.

Lemma DeleteMemo_change now id actor db r :
  MemoStore.DeleteMemoWithPolicy id actor db = Ok r → content_change now db r.2.
Proof.
  unfold MemoStore.DeleteMemoWithPolicy, MemoDriver.DeleteMemoWithPolicy. intros H.
  tx_step H; [discriminate H|]. tx_step H. tx_step H. tx_step H. tx_step H; [|discriminate H].
  tx_step H. tx_step H. apply se_bind_Ok in H as (ats & s & Hd & H).
  rewrite deleteMemoSetTx_Ok in Hd. injection Hd as <- <-. tx H. by eapply change_memos_deleted.
Qed.

(** Every request of the API is one of the changes. *)
Lemma memo_serve_change now o db : api_op o → content_change now db (memo_serve now o db).
Proof.
  intros Hapi. destruct o as [create|u|mu|create actor|id uid memo p|id actor|create p|u|p ids|q|d|o];
    cbn [memo_serve]; rewrite ?run_state; [..|apply space_change];
    match goal with |- content_change _ _ (match ?m with _ => _ end) =>
      destruct m as [r|] eqn:E; [|by apply change_nothing] end.
  - by eapply CreateMemo_change.
  - by eapply UpdateMemo_change.
  - destruct r as [id db']. by eapply change_memo_mutated.
  - by eapply CreateMemoShare_change.
  - by eapply DeleteMemoShare_change.
  - by eapply DeleteMemo_change.
  - apply CreateAttachment_Ok in E as (Hp & a & Hm & Hc & ->). apply change_attachment_created.
    intros id Hid. rewrite Hm in Hid. rewrite Hc. destruct Hp as [Hp|(k & m & Hk & Hrow & Hcr)].
    + by rewrite (Hapi Hp) in Hid.
    + exists m. rewrite Hk in Hid. by injection Hid as <-.
  - apply (UpdateAttachment_Ok u db r Hapi) in E as [->|(a & a' & Ha & Em & Ec & ->)];
      [by apply change_nothing|by eapply change_attachment_updated].
  - apply DeleteAttachments_Ok in E as (gone & ->). apply change_attachments_deleted.
  - apply UpsertReaction_Ok in E as (-> & Hm & Hnew & _). by apply change_reaction_created.
  - apply DeleteReaction_Ok in E as (t & Ht & ->). by apply change_reactions_deleted.
Qed.
