(* ===== verification/MemoSafety.v ===== *)
(** What the memo write policies guarantee: only the author writes, within the
    spaces the author belongs to, a lifecycle update moves a memo and nothing
    else, and a memo for the members of a space always has a space and never an
    active share. *)
From S2P Require Import Prelude GoLib Store SpaceStore SpaceStoreFacts SpaceSafety MemoStore MemoStoreFacts.
From S2P Require Import AttachmentStore MemoMutation MutationFacts History.
Import MemoDriver.

(** ** Updates *)

(** A transport-facing memo update that succeeds is the write of its
    author: the actor is an active user and the creator of the memo, is an active
    member of the space the memo is in (unless the update only moves or withdraws
    it) and of the space it goes to, and exactly the named fields of that memo
    change; a lifecycle-only update leaves content and metadata as they were. *)
Theorem memo_update_authorized now u p db db' :
  um_policy u = Some p → MemoStore.UpdateMemo now u db = Ok (tt, db') →
  ∃ m, memos db !! um_id u = Some m ∧ mm_creator m = po_actor p ∧
    active_user db (po_actor p) ∧
    (∀ s, mm_space m = Some s →
       is_Some (spaces db !! s) ∧
       (po_lifecycle_only p = true ∨ spaceMemberActive db s (po_actor p) = true)) ∧
    (∀ s, um_space u = Some s →
       is_Some (spaces db !! s) ∧ spaceMemberActive db s (po_actor p) = true) ∧
    db' = set_memos <[um_id u := updated_memo u m]> db ∧
    (po_lifecycle_only p = true →
       updated_memo u m = mkMemo (mm_uid m) (mm_creator m) (mm_created_ts m) (mm_updated_ts m)
         (mm_row_status m) (mm_content m) (default (mm_visibility m) (um_visibility u))
         (mm_pinned m) (mm_payload m) (if um_clear_space u then None else um_space u)).
Proof.
  intros Hp (H & _ & _)%store_UpdateMemo_Ok.
  apply (UpdateMemo_policy_Ok now u p db _ Hp) in H as (Hu & m & Hm & Hw & [= ->]).
  exists m. destruct Hw as [Hau _ Hlife Hsrc Htgt _ _ _ _]. cbn in Hau.
  split_and!; try done.
  - intros s Hs. destruct Hsrc as [He Hor]; [by cbn; rewrite Hs|]. cbn in He, Hor.
    rewrite Hs in He, Hor. unfold memoPolicySpaceState, space_exists in He, Hor.
    case_bool_decide; [|done]. split; [done|]. exact Hor.
  - intros s Hs. destruct Htgt as [He Hor]; [exists s; cbn; by rewrite Hs|]. cbn in He, Hor.
    rewrite Hs in He, Hor. unfold memoPolicySpaceState, space_exists in He, Hor.
    by case_bool_decide.
  - intros Hl. destruct (Hlife Hl) as [Hlu _]. unfold isLifecycleOnlyMemoUpdate in Hlu.
    unfold updated_memo. destruct (um_clear_space u), (um_space u); cbn in Hlu; try discriminate Hlu;
      rewrite !andb_true_iff, !bool_decide_eq_true in Hlu; destruct_and!;
      repeat match goal with E : _ u = None |- _ => rewrite E end; reflexivity.
Qed.

Definition withdraw : UpdateMemoReq :=
  mkUpdateMemo 1 None None None None None (Some Private) None None None true
    (Some (mkPolicy 2 true false)).
(** A memo of user 2 in the space 5, which the user is no longer a member of. *)
Definition left_db : DB :=
  mkDB {[ 1%Z := example_user "ada"; 2%Z := example_user "bob" ]}
    {[ 5%Z := mkSpaceRow "team" "Team" "" ]}
    {[ (5, 1)%Z := mkMember SpaceMemberStatusActive SpaceMemberRoleAdmin ]}
    {[ 1%Z := mkMemo "m" 2 0 0 Normal "text" SpaceAudience false "{}" (Some 5%Z) ]}
    ∅ ∅ ∅ ∅ ∅ ∅ ∅ 3 6 2 1 1 1.

Lemma memo_update_authorized_witness :
  ∃ db', MemoStore.UpdateMemo 100 withdraw left_db = Ok (tt, db') ∧
    ∃ m, memos left_db !! 1%Z = Some m ∧ mm_creator m = 2%Z ∧
         db' = set_memos <[1%Z := updated_memo withdraw m]> left_db.
Proof.
  destruct (MemoStore.UpdateMemo 100 withdraw left_db) as [[[] db']|] eqn:E;
    [|exfalso; revert E; vm_compute; discriminate].
  exists db'. split; [reflexivity|].
  destruct (memo_update_authorized 100 withdraw (mkPolicy 2 true false) left_db db' eq_refl E)
    as (m & ? & ? & _ & _ & _ & ? & _).
  by exists m.
Defined.

(** The write check and the update disagree about an update that both names
    a space and clears the placement: it is checked as a move to that space and
    applied as a withdrawal, and leaves a memo for the members of a space
    without a space. *)
Theorem conflicting_placement_breaks_audience :
  ∃ now u p db db' m,
    um_policy u = Some p ∧ MemoStore.UpdateMemo now u db = Ok (tt, db') ∧
    memos db' !! um_id u = Some m ∧ mm_visibility m = SpaceAudience ∧ mm_space m = None.
Proof.
  set (u := mkUpdateMemo 1 None None None None (Some "new text") None None None (Some 5%Z) true
              (Some (mkPolicy 1 false false))).
  set (db := mkDB {[ 1%Z := example_user "ada" ]}
    {[ 5%Z := mkSpaceRow "team" "Team" "" ]}
    {[ (5, 1)%Z := mkMember SpaceMemberStatusActive SpaceMemberRoleAdmin ]}
    {[ 1%Z := mkMemo "m" 1 0 0 Normal "text" SpaceAudience false "{}" (Some 5%Z) ]}
    ∅ ∅ ∅ ∅ ∅ ∅ ∅ 2 6 2 1 1 1).
  exists 100%Z, u, (mkPolicy 1 false false), db.
  eexists (set_memos <[1%Z := updated_memo u
    (mkMemo "m" 1 0 0 Normal "text" SpaceAudience false "{}" (Some 5%Z))]> db), _.
  split; [done|]. split; [vm_compute; reflexivity|].
  split; [vm_compute; reflexivity|]. done.
Qed.

(** ** Memos for the members of a space *)

(** A SPACE memo has a space and, at time [now], no active share. *)
Record audience_inv (now : Z) (db : DB) : Prop := {
  ai_space : ∀ id m, memos db !! id = Some m → mm_visibility m = SpaceAudience →
    mm_space m ≠ None;
  ai_share : ∀ id m i sh, memos db !! id = Some m → mm_visibility m = SpaceAudience →
    shares db !! i = Some sh → sh_memo sh = id → share_active now sh = false;
  ai_memo_ids : ∀ id, is_Some (memos db !! id) → (id < next_memo db)%Z;
  ai_share_ids : ∀ i sh, shares db !! i = Some sh → (sh_memo sh < next_memo db)%Z;
}.

(** Expired shares stay expired. *)
Lemma share_active_mono now now' sh :
  (now ≤ now')%Z → share_active now sh = false → share_active now' sh = false.
Proof. unfold share_active. destruct (sh_expires_ts sh); [|done]. rewrite !Z.ltb_ge. lia. Qed.

Lemma audience_inv_mono now now' db :
  (now ≤ now')%Z → audience_inv now db → audience_inv now' db.
Proof. intros Hle [H1 H2 H3 H4]. split; eauto using share_active_mono. Qed.

(** Removing memos and shares keeps the invariant. *)
Lemma audience_inv_shrink now db db' :
  memos db' ⊆ memos db → shares db' ⊆ shares db → next_memo db' = next_memo db →
  audience_inv now db → audience_inv now db'.
Proof.
  intros Hm Hs Hn [H1 H2 H3 H4]. split.
  - intros id m Hi. apply (H1 id m). by eapply lookup_weaken.
  - intros id m i sh Hi Hv Hsh. apply (H2 id m i sh); [|done|]; by eapply lookup_weaken.
  - intros id [m Hi]. rewrite Hn. apply H3. eapply lookup_weaken in Hi; [|done]. by eexists.
  - intros i sh Hi. rewrite Hn. apply (H4 i sh). by eapply lookup_weaken.
Qed.

Lemma delete_where_subseteq {K V} `{Countable K} (c : K → V → bool) (t : gmap K V) :
  delete_where c t ⊆ t.
Proof. unfold delete_where. apply map_filter_subseteq. Qed.

Lemma without_memos_audience now ids db :
  audience_inv now db → audience_inv now (without_memos ids db).
Proof. apply audience_inv_shrink; [apply delete_where_subseteq..|done]. Qed.

Lemma audience_inv_updated now u p m db :
  memos db !! um_id u = Some m →
  write_allowed p (Some u) (snapshot db now (po_actor p) (um_id u) m (Some u)) →
  (um_clear_space u = true → um_space u = None) →
  audience_inv now db → audience_inv now (set_memos <[um_id u := updated_memo u m]> db).
Proof.
  intros Hm [_ _ _ _ _ Hspace _ _ Hshare] Hc [H1 H2 H3 H4]. cbn in Hspace, Hshare. split.
  - intros id m' Hi Hv. cbn in Hi.
    apply lookup_insert_Some in Hi as [[<- <-]|[_ Hi]]; [|by eapply H1].
    cbn in Hv |- *. specialize (Hspace Hv).
    destruct (um_clear_space u), (um_space u); try done. by rewrite Hc in *.
  - intros id m' i sh Hi Hv Hs Hid. cbn in Hi, Hs.
    apply lookup_insert_Some in Hi as [[<- <-]|[_ Hi]]; [|by eapply H2].
    cbn in Hv. destruct (um_visibility u) as [v|] eqn:Hvis; cbn in Hv; [|by eapply H2].
    subst v. specialize (Hshare eq_refl). rewrite bool_decide_true in Hshare by done.
    cbn in Hshare. unfold has_active_share in Hshare. apply bool_decide_eq_false in Hshare.
    apply not_true_is_false. intros Ha. apply Hshare. by exists i, sh.
  - intros id Hi. cbn in *. apply H3. destruct (decide (id = um_id u)) as [->|Hne]; [by eexists|].
    by rewrite lookup_insert_ne in Hi.
  - done.
Qed.

Lemma audience_inv_with_memo now create db :
  validateMemoCreate create = Ok tt → audience_inv now db → audience_inv now (with_memo now create db).
Proof.
  intros Hv [I1 I2 I3 I4].
  assert (memos db !! next_memo db = None) as Hfresh.
  { apply eq_None_not_Some. intros Hi. specialize (I3 _ Hi). lia. }
  split; cbn.
  - intros id m [[<- <-]|[_ Hi]]%lookup_insert_Some; [|by eapply I1].
    cbn. intros Hvis. unfold validateMemoCreate in Hv.
    destruct (negb (UIDMatcher _)); [discriminate|].
    destruct (negb (isValidVisibility _)); [discriminate|].
    rewrite Hvis in Hv. destruct (mm_space create); [done|discriminate Hv].
  - intros id m i sh [[<- <-]|[_ Hi]]%lookup_insert_Some Hvis Hsh Hid; [|by eapply I2].
    specialize (I4 i sh Hsh). lia.
  - intros id Hi. destruct (decide (id = next_memo db)) as [->|Hne]; [lia|].
    rewrite lookup_insert_ne in Hi by done. specialize (I3 id Hi). lia.
  - intros i sh Hsh. specialize (I4 i sh Hsh). lia.
Qed.

(** States with the same memos and shares. *)
Lemma audience_inv_same now db db' :
  memos db' = memos db → shares db' = shares db → next_memo db' = next_memo db →
  audience_inv now db → audience_inv now db'.
Proof. intros Hm Hs. apply audience_inv_shrink; by rewrite ?Hm, ?Hs. Qed.

Lemma audience_inv_in_place now u m db :
  memos db !! um_id u = Some m → in_place u →
  audience_inv now db → audience_inv now (set_memos <[um_id u := updated_memo u m]> db).
Proof.
  intros Hm (Hv & Hs & Hc) [H1 H2 H3 H4]. split; cbn; [| | |done].
  - intros id m' [[<- <-]|[_ Hi]]%lookup_insert_Some; [|by eapply H1].
    unfold updated_memo. cbn. rewrite Hv, Hs, Hc. cbn. by eapply H1.
  - intros id m' i sh [[<- <-]|[_ Hi]]%lookup_insert_Some; [|by eapply H2].
    unfold updated_memo. cbn. rewrite Hv. cbn. by eapply H2.
  - intros id Hi. apply H3. destruct (decide (id = um_id u)) as [->|Hne]; [by eexists|].
    by rewrite lookup_insert_ne in Hi.
Qed.

(** A mutation creates or updates its memo like the requests of its own. *)
Lemma audience_inv_mutation now mu db r :
  (mu_create mu = None → MutationDriver.mutation_policy mu ≠ None) →
  (∀ u, mu_update mu = Some u → um_clear_space u = true → um_space u = None) →
  MemoMutation.ApplyMemoMutation now mu db = Ok r → audience_inv now db → audience_inv now r.2.
Proof.
  unfold MemoMutation.ApplyMemoMutation. intros Hpol Hcl H Hinv.
  apply se_bind_Ok in H as (mu' & s & Hc & H). apply se_lift_Ok' in Hc as [Hc Hs]. cbn in Hc, Hs. subst s.
  apply check_mutation_Ok in Hc as (-> & Hnew & Hval & _).
  destruct (checked_fields mu db) as (E1 & E2 & _ & _ & _ & _ & _ & _ & _ & _ & E11 & E12 & _).
  apply ApplyMemoMutation_Ok in H as (removed & Hck & ->). cbn [snd].
  assert (audience_inv now (created now (checked mu) db)) as Hcr.
  { unfold created. rewrite E1. destruct (mu_create mu) as [c|]; [|done].
    apply (audience_inv_same now (with_memo now c db)); [done..|].
    apply audience_inv_with_memo; [by apply Hval|done]. }
  apply (audience_inv_same now (updated (checked mu) (created now (checked mu) db))).
  - rewrite final_memos. unfold updated. by destruct (mu_update (checked mu)).
  - rewrite (proj1 (proj2 (proj2 (proj2 (final_others now (checked mu) removed db))))).
    unfold updated, created. by destruct (mu_update (checked mu)), (mu_create (checked mu)).
  - unfold replaced, updated. by destruct (mu_replace _), (mu_update (checked mu)),
      (mu_update (placed (checked mu) db)) eqn:Hu.
  - unfold updated. rewrite E2. destruct (mu_update mu) as [u|] eqn:Hu; [|done].
    destruct (mu_create mu) as [c|] eqn:Hcreate; [by destruct (Hnew ltac:(done))|].
    destruct (MutationDriver.mutation_policy mu) as [p|] eqn:Hp; [|by destruct Hpol].
    destruct (mc_policy _ _ _ _ Hck p E12) as (_ & m & Hm & Hw). rewrite E2 in Hw.
    pose proof (mc_update _ _ _ _ Hck u E2) as Hid. rewrite <- Hid in Hm, Hw. unfold set_memos.
    rewrite (alter_present _ _ _ m Hm). apply (audience_inv_updated now u p m); [done|done| |done].
    by apply Hcl.
Qed.

Lemma audience_inv_shared now sh actor m db :
  memos db !! sh_memo sh = Some m →
  write_allowed (mkPolicy actor false true) None (snapshot db now actor (sh_memo sh) m None) →
  audience_inv now db →
  audience_inv now (set_next (next_user db) (next_space db) (next_memo db) (next_share db + 1)
                      (set_shares <[next_share db := sh]> db)).
Proof.
  intros Hm Hw [I1 I2 I3 I4]. split; cbn; [exact I1| |exact I3|].
  - intros id m' i sh' Hi Hvis [[<- <-]|[_ Hsh]]%lookup_insert_Some Hid; [|by eapply I2].
    subst id. simplify_eq. by destruct (wa_share _ _ _ Hw eq_refl).
  - intros i sh' [[<- <-]|[_ Hsh]]%lookup_insert_Some; [|by eapply I4]. apply I3. by eexists.
Qed.

Lemma audience_inv_tables now db db' :
  tables_same db db' → audience_inv now db → audience_inv now db'.
Proof. intros []. by apply audience_inv_same. Qed.

Lemma audience_inv_change now db db' :
  content_change now db db' → audience_inv now db → audience_inv now db'.
Proof.
  intros Hch Hinv. destruct Hch as [db' Ht|ids db' Ht|u|c Hv _|u m Hm Hok|mu id db' [Hp Hc] E
    |sh actor m Hm Hw|c|a _|i a a' _ _ _|ids|x _ _|t _].
  - by eapply audience_inv_tables.
  - eapply audience_inv_tables; [done|]. by apply without_memos_audience.
  - revert Hinv. apply audience_inv_shrink; [apply delete_where_subseteq..|done].
  - by apply audience_inv_with_memo.
  - destruct Hok as [[[p Hw] Hc]|Hin]; [by eapply audience_inv_updated|by apply audience_inv_in_place].
  - by apply (audience_inv_mutation now mu db (id, db')).
  - by eapply audience_inv_shared.
  - revert Hinv. apply audience_inv_shrink; [done|apply delete_where_subseteq|done].
  - by apply (audience_inv_same now db).
  - by apply (audience_inv_same now db).
  - by apply (audience_inv_same now db).
  - by apply (audience_inv_same now db).
  - by apply (audience_inv_same now db).
Qed.

Lemma empty_audience_inv now : audience_inv now empty_db.
Proof.
  split.
  - intros id m Hx. cbn in Hx. by rewrite lookup_empty in Hx.
  - intros id m i sh Hx. cbn in Hx. by rewrite lookup_empty in Hx.
  - intros id [m Hx]. cbn in Hx. by rewrite lookup_empty in Hx.
  - intros i sh Hx. cbn in Hx. by rewrite lookup_empty in Hx.
Qed.

(** The time of the last request. *)
Definition last_time (now : Z) (os : list (Z * memo_op)) : Z :=
  match last os with Some (t, _) => t | None => now end.

Lemma audience_inv_final os : ∀ now db,
  clock_from now os → Forall (λ o, api_op o.2) os → audience_inv now db →
  audience_inv (last_time now os) (memo_serve_all os db).
Proof.
  induction os as [|[t o] os IH]; intros now db Hclk Hapi Hinv; [done|].
  destruct Hclk as [Hle Hclk]. apply Forall_cons in Hapi as [Ho Hos].
  assert (last_time now ((t, o) :: os) = last_time t os) as ->.
  { unfold last_time. rewrite last_cons. by destruct (last os) as [[]|]. }
  apply IH; [done..|]. eapply audience_inv_change; [by apply memo_serve_change|]. by eapply audience_inv_mono.
Qed.

(** C2. Over every history of API requests with a clock that does not run
    backwards, a memo with the SPACE audience is placed in a space and no share
    link of it is active: neither sharing such a memo, nor giving a shared memo
    that audience, nor recreating an id, gets around the rule. *)
Theorem space_memos_never_shared os now id m :
  clock_from now os → Forall (λ o, api_op o.2) os →
  let db := memo_serve_all os empty_db in
  memos db !! id = Some m → mm_visibility m = SpaceAudience →
  mm_space m ≠ None ∧
  ∀ i sh, shares db !! i = Some sh → sh_memo sh = id →
          share_active (last_time now os) sh = false.
Proof.
  intros Hclk Hapi db Hm Hv.
  pose proof (audience_inv_final os now empty_db Hclk Hapi (empty_audience_inv now)) as [H1 H2 _ _].
  fold db in H1, H2. split; [by eapply H1|]. intros i sh Hs Hid. by eapply H2.
Qed.

(** A shared memo can only become a memo of the space once its share expired. *)
Definition example_history : list (Z * memo_op) := [
  (10, OpSpace (OpCreateUser (example_user "ada") 10));
  (11, OpSpace (OpCreateSpace (mkSpace 0 "team" "Team" "" "" 0) 1));
  (12, OpCreateMemo (mkMemo "note" 1 0 0 "" "text" Public false "{}" (Some 1)));
  (13, OpShareMemo (mkShare "tok" 1 1 0 (Some 50)) 1);
  (20, OpUpdateMemo (mkUpdateMemo 1 None None None None None (Some SpaceAudience) None None None false
         (Some (mkPolicy 1 false false))));
  (60, OpUpdateMemo (mkUpdateMemo 1 None None None None None (Some SpaceAudience) None None None false
         (Some (mkPolicy 1 false false))));
  (61, OpShareMemo (mkShare "tok2" 1 1 0 None) 1)
]%Z.

Lemma space_memos_never_shared_witness :
  let db := memo_serve_all example_history empty_db in
  mm_visibility <$> memos db !! 1%Z = Some SpaceAudience ∧
  ∀ i sh, shares db !! i = Some sh → sh_memo sh = 1%Z → share_active 61 sh = false.
Proof.
  split; [vm_compute; reflexivity|].
  refine (proj2 (space_memos_never_shared example_history 0 1
    (mkMemo "note" 1 12 12 Normal "text" SpaceAudience false "{}" (Some 1%Z)) _ _ _ _)).
  - cbn. lia.
  - repeat constructor; done.
  - vm_compute. reflexivity.
  - reflexivity.
Defined.
