(* ===== verification/ReferenceSafety.v ===== *)
(** What hangs on a memo - shares, reactions, attachments, references, comments -
    always hangs on a memo that exists, although the schema has no foreign keys
    for most of it; and an attachment never changes its owner or leaves its memo
    for another. *)
From S2P Require Import Prelude GoLib Store SpaceStore SpaceStoreFacts SpaceSafety MemoStore MemoStoreFacts.
From S2P Require Import AttachmentStore MemoMutation MutationFacts History.

(** ** The invariant *)

Definition memo_exists (db : DB) (id : Z) : Prop := is_Some (memos db !! id).

Record ref_inv (db : DB) : Prop := {
  ri_memo_ids id : memo_exists db id → (id < next_memo db)%Z;
  ri_authors id m : memos db !! id = Some m → is_Some (users db !! mm_creator m);
  ri_shares i sh : shares db !! i = Some sh → memo_exists db (sh_memo sh);
  ri_reactions i r : reactions db !! i = Some r → memo_exists db (re_memo r);
  ri_reaction_ids i : is_Some (reactions db !! i) → (i < next_reaction db)%Z;
  ri_once i j x y : reactions db !! i = Some x → reactions db !! j = Some y →
    re_creator x = re_creator y → re_memo x = re_memo y → re_type x = re_type y → i = j;
  ri_attachments i a id : attachments db !! i = Some a → at_memo a = Some id →
    ∃ m, memos db !! id = Some m ∧ mm_creator m = at_creator a;
  ri_relations r : r ∈ relations db → memo_exists db r.1.1 ∧ memo_exists db r.1.2;
}.

(** Changes that keep the memos and their authors, and add no row that refers to
    a memo. *)
Record ref_frame (db db' : DB) : Prop := {
  rf_users : ∀ u, is_Some (users db !! u) → is_Some (users db' !! u);
  rf_memos id m : memos db !! id = Some m → ∃ m', memos db' !! id = Some m' ∧ mm_creator m' = mm_creator m;
  rf_old id m' : memos db' !! id = Some m' → ∃ m, memos db !! id = Some m ∧ mm_creator m' = mm_creator m;
  rf_shares : shares db' ⊆ shares db;
  rf_reactions : reactions db' ⊆ reactions db;
  rf_attachments i a' : attachments db' !! i = Some a' → ∃ a, attachments db !! i = Some a ∧
    at_memo a' = at_memo a ∧ at_creator a' = at_creator a;
  rf_relations : relations db' ⊆ relations db;
  rf_next : (next_memo db ≤ next_memo db')%Z ∧ (next_reaction db ≤ next_reaction db')%Z;
}.

Lemma ref_inv_frame db db' : ref_frame db db' → ref_inv db → ref_inv db'.
Proof.
  intros [Fu Fm Fo Fs Fr Fa Frel [Fn1 Fn2]] [I1 I2 I3 I4 I5 I6 I7 I8].
  assert (∀ id, memo_exists db id → memo_exists db' id) as Hex.
  { intros id [m Hm]. destruct (Fm id m Hm) as (m' & ? & _). by exists m'. }
  split.
  - intros id [m' Hm']. destruct (Fo id m' Hm') as (m & Hm & _). specialize (I1 id (ex_intro _ m Hm)). lia.
  - intros id m' Hm'. destruct (Fo id m' Hm') as (m & Hm & ->). by apply Fu, (I2 id).
  - intros i sh Hi. by eapply Hex, I3, lookup_weaken.
  - intros i r Hi. by eapply Hex, I4, lookup_weaken.
  - intros i [r Hi]. eapply lookup_weaken in Hi; [|done]. specialize (I5 i (ex_intro _ r Hi)). lia.
  - intros i j x y Hi Hj. eapply I6; by eapply lookup_weaken.
  - intros i a' id Hi Hid. destruct (Fa i a' Hi) as (a & Ha & Em & Ec). rewrite Em in Hid. rewrite Ec.
    destruct (I7 i a id Ha Hid) as (m & Hm & <-). destruct (Fm id m Hm) as (m' & ? & ?). by exists m'.
  - intros r Hr. destruct (I8 r (Frel r Hr)). split; by apply Hex.
Qed.

Lemma ref_frame_same db db' :
  (∀ u, is_Some (users db !! u) → is_Some (users db' !! u)) →
  memos db' = memos db → shares db' = shares db → reactions db' = reactions db →
  attachments db' = attachments db → relations db' = relations db →
  next_memo db' = next_memo db → next_reaction db' = next_reaction db → ref_frame db db'.
Proof.
  intros Hu Hm Hs Hr Ha Hrel Hn1 Hn2. split; rewrite ?Hm, ?Hs, ?Hr, ?Ha, ?Hrel, ?Hn1, ?Hn2; eauto; lia.
Qed.

(** ** Deletions *)

Lemma without_memos_ref ids db : ref_inv db → ref_inv (without_memos ids db).
Proof.
  intros [I1 I2 I3 I4 I5 I6 I7 I8].
  assert (∀ id, memo_exists db id → id ∉ ids → memo_exists (without_memos ids db) id) as Hex.
  { intros id [m Hm] Hid. exists m. cbn. apply map_lookup_filter_Some. split; [done|].
    by apply bool_decide_eq_false. }
  split; cbn.
  - intros id [m Hm]. cbn in Hm. apply map_lookup_filter_Some in Hm as [Hm _].
    apply I1. by exists m.
  - intros id m [Hm _]%map_lookup_filter_Some. by apply (I2 id).
  - intros i sh [Hi Hn]%map_lookup_filter_Some. cbn in Hn. apply bool_decide_eq_false in Hn.
    by apply Hex; [apply (I3 i)|].
  - intros i r [Hi Hn]%map_lookup_filter_Some. cbn in Hn. apply bool_decide_eq_false in Hn.
    by apply Hex; [apply (I4 i)|].
  - intros i [r [Hi _]%map_lookup_filter_Some]. apply I5. by exists r.
  - intros i j x y [Hi _]%map_lookup_filter_Some [Hj _]%map_lookup_filter_Some. by apply I6.
  - intros i a id [Hi Hn]%map_lookup_filter_Some Hid. cbn in Hn.
    destruct (I7 i a id Hi Hid) as (m & Hm & Hc). exists m. split; [|done].
    apply map_lookup_filter_Some. split; [done|]. cbn. unfold Driver.bound_to in Hn. by rewrite Hid in Hn.
  - intros r [Hr Hin]%elem_of_filter. destruct (I8 r Hin). split; apply Hex; tauto.
Qed.

Lemma without_user_ref u db : ref_inv db → ref_inv (UserEffects.without_user u db).
Proof.
  intros [I1 I2 I3 I4 I5 I6 I7 I8].
  assert (∀ id m, memos db !! id = Some m → mm_creator m ≠ u →
            memos (UserEffects.without_user u db) !! id = Some m) as Hmemo.
  { intros id m Hm Hc. cbn. apply map_lookup_filter_Some. split; [done|]. by apply Z.eqb_neq. }
  assert (∀ id, memo_exists db id → id ∉ Driver.user_memo_ids u db →
            memo_exists (UserEffects.without_user u db) id) as Hex.
  { intros id [m Hm] Hid. exists m. apply Hmemo; [done|]. intros Hc. apply Hid.
    apply UserEffects.elem_of_user_memo_ids. by exists m. }
  split.
  - intros id [m Hm]. apply map_lookup_filter_Some in Hm as [Hm _]. apply I1. by exists m.
  - intros id m [Hm Hc]%map_lookup_filter_Some. cbn in Hc. apply Z.eqb_neq in Hc.
    cbn. rewrite lookup_delete_ne by done. by apply (I2 id).
  - intros i sh [Hi Hn]%map_lookup_filter_Some. cbn in Hn. apply orb_false_iff in Hn as [_ Hn].
    apply bool_decide_eq_false in Hn. by apply Hex; [apply (I3 i)|].
  - intros i r [Hi Hn]%map_lookup_filter_Some. cbn in Hn. apply orb_false_iff in Hn as [_ Hn].
    apply bool_decide_eq_false in Hn. by apply Hex; [apply (I4 i)|].
  - intros i [r [Hi _]%map_lookup_filter_Some]. apply I5. by exists r.
  - intros i j x y [Hi _]%map_lookup_filter_Some [Hj _]%map_lookup_filter_Some. by apply I6.
  - intros i a id [Hi Hn]%map_lookup_filter_Some Hid. cbn in Hn.
    apply orb_false_iff in Hn as [Hn%Z.eqb_neq _].
    destruct (I7 i a id Hi Hid) as (m & Hm & Hc). exists m. split; [|done]. apply Hmemo; [done|congruence].
  - intros r [Hr Hin]%elem_of_filter. destruct (I8 r Hin). split; apply Hex; tauto.
Qed.

(** ** Insertions *)

Lemma with_memo_ref now c db :
  active_user db (mm_creator c) → ref_inv db → ref_inv (with_memo now c db).
Proof.
  intros Hu [I1 I2 I3 I4 I5 I6 I7 I8].
  assert (memos db !! next_memo db = None) as Hfresh.
  { apply eq_None_not_Some. intros Hi. specialize (I1 _ Hi). lia. }
  assert (∀ id, memo_exists db id → memo_exists (with_memo now c db) id) as Hex.
  { intros id Hi. unfold memo_exists. cbn. destruct (decide (id = next_memo db)) as [->|Hne].
    - rewrite lookup_insert_eq. by eexists.
    - by rewrite lookup_insert_ne. }
  split; try done.
  - intros id Hi. unfold memo_exists in Hi. cbn in *. destruct (decide (id = next_memo db)) as [->|Hne]; [lia|].
    rewrite lookup_insert_ne in Hi by done. specialize (I1 id Hi). lia.
  - intros id m. cbn. intros [[<- <-]|[_ Hm]]%lookup_insert_Some; [|by apply (I2 id)].
    unfold active_user, user_status in Hu. cbn. by destruct (users db !! mm_creator c).
  - intros i sh Hi. by eapply Hex, I3.
  - intros i r Hi. by eapply Hex, I4.
  - intros i a id Hi Hid. destruct (I7 i a id Hi Hid) as (m & Hm & Hc). exists m. split; [|done].
    cbn. rewrite lookup_insert_ne; [done|]. congruence.
  - intros r Hr. destruct (I8 r Hr). split; by apply Hex.
Qed.

Lemma share_ref i sh n db :
  memo_exists db (sh_memo sh) → ref_inv db →
  ref_inv (set_next (next_user db) (next_space db) (next_memo db) n (set_shares <[i := sh]> db)).
Proof.
  intros Hsh [I1 I2 I3 I4 I5 I6 I7 I8]. split; try done.
  intros j s. cbn. intros [[<- <-]|[_ Hj]]%lookup_insert_Some; [done|]. by apply (I3 j).
Qed.

Lemma reaction_ref x db :
  memo_exists db (re_memo x) →
  (∀ i y, reactions db !! i = Some y →
     ¬ (re_creator y = re_creator x ∧ re_memo y = re_memo x ∧ re_type y = re_type x)) →
  ref_inv db →
  ref_inv (set_next_reaction (next_reaction db + 1) (set_reactions <[next_reaction db := x]> db)).
Proof.
  intros Hx Hnew [I1 I2 I3 I4 I5 I6 I7 I8]. split; try done.
  - intros i y. cbn. intros [[<- <-]|[_ Hi]]%lookup_insert_Some; [done|]. by apply (I4 i).
  - intros i. cbn. intros [y [[<- <-]|[_ Hi]]%lookup_insert_Some]; [lia|].
    specialize (I5 i (ex_intro _ y Hi)). lia.
  - intros i j y z. cbn.
    intros [[<- <-]|[_ Hi]]%lookup_insert_Some [[<- <-]|[_ Hj]]%lookup_insert_Some Hc Hm Ht;
      [done| | |by eapply I6].
    + by destruct (Hnew j z Hj).
    + by destruct (Hnew i y Hi).
Qed.

Lemma attachment_ref i a n db :
  (∀ id, at_memo a = Some id → ∃ m, memos db !! id = Some m ∧ mm_creator m = at_creator a) →
  ref_inv db → ref_inv (set_next_attachment n (set_attachments <[i := a]> db)).
Proof.
  intros Ha [I1 I2 I3 I4 I5 I6 I7 I8]. split; try done.
  intros j b id. cbn. intros [[<- <-]|[_ Hj]]%lookup_insert_Some; [by apply Ha|]. by apply (I7 j).
Qed.

(** ** The requests *)

Lemma mutation_ref now mu db id db' :
  MemoMutation.ApplyMemoMutation now mu db = Ok (id, db') → ref_inv db → ref_inv db'.
Proof.
  intros (He & Hend & Hcom & _)%ApplyMemoMutation_effect [I1 I2 I3 I4 I5 I6 I7 I8].
  pose proof (me_other_tables _ _ _ _ _ _ He) as (Eu & _ & _ & Es & Er & _ & _ & _ & _ & En).
  assert (Hmemo : ∃ m', memos db' !! id = Some m' ∧ is_Some (users db !! mm_creator m') ∧
            mm_creator m' = actor_of mu ∧ (id < next_memo db')%Z ∧ (next_memo db ≤ next_memo db')%Z ∧
            ∀ m, memos db !! id = Some m → mm_creator m' = mm_creator m).
  { pose proof (me_memo _ _ _ _ _ _ He) as Hm. rewrite (me_next _ _ _ _ _ _ He). unfold actor_of in *.
    destruct (mu_create mu) as [c|].
    - destruct Hm as (-> & _ & Hact & Hm). eexists. split_and!; [done| |done|lia|lia|].
      + cbn. unfold active_user, user_status in Hact. by destruct (users db !! mm_creator c).
      + intros m Hold. specialize (I1 _ (ex_intro _ m Hold)). lia.
    - destruct Hm as (-> & _ & m & Hm & Hc & _ & Hm'). specialize (I1 _ (ex_intro _ m Hm)).
      specialize (I2 _ m Hm).
      eexists. split_and!; [exact Hm'| | |done|lia|]; destruct (mu_update mu); try done;
        by intros ? [= <-]%(eq_trans (eq_sym Hm)). }
  destruct Hmemo as (m' & Hm' & Hau & Hact & Hlt & Hnext & Hcr).
  assert (Hex : ∀ k, memo_exists db k → memo_exists db' k).
  { intros k [m Hk]. destruct (decide (k = id)) as [->|Hne]; [by exists m'|].
    exists m. by rewrite (me_other_memos _ _ _ _ _ _ He). }
  split.
  - intros k [m Hk]. destruct (decide (k = id)) as [->|Hne]; [done|].
    rewrite (me_other_memos _ _ _ _ _ _ He) in Hk by done. specialize (I1 k (ex_intro _ m Hk)). lia.
  - intros k m Hk. rewrite Eu. destruct (decide (k = id)) as [->|Hne]; [congruence|].
    rewrite (me_other_memos _ _ _ _ _ _ He) in Hk by done. by apply (I2 k).
  - rewrite Es. intros i sh Hi. by eapply Hex, I3.
  - rewrite Er. intros i r Hi. by eapply Hex, I4.
  - rewrite Er, En. apply I5.
  - rewrite Er. apply I6.
  - intros i a k Hi Hk.
    enough (k = id ∧ at_creator a = actor_of mu ∨
            attachments db !! i = Some a) as [[-> Ha]|Hold].
    { exists m'. split; [done|]. congruence. }
    { destruct (I7 i a k Hold Hk) as (m & Hm & Hc). destruct (decide (k = id)) as [->|Hne].
      - exists m'. split; [done|]. by rewrite (Hcr m Hm).
      - exists m. by rewrite (me_other_memos _ _ _ _ _ _ He). }
    destruct (decide (i ∈ mu_removed mu)) as [Hr|Hr].
    { apply (me_removed _ _ _ _ _ _ He) in Hr as [Hr _]. congruence. }
    destruct (decide (i ∈ bound_ids (mu_bindings mu))) as [Hb|Hb].
    + left. destruct (me_bound _ _ _ _ _ _ He i Hb) as (a0 & ts & Ha0 & Hbind & Ha).
      rewrite Ha in Hi. injection Hi as <-. cbn in Hk. injection Hk as <-. split; [done|]. cbn.
      destruct Hbind as [Hb0|[_ Hb0]]; [|done].
      destruct (I7 i a0 id Ha0 Hb0) as (m & Hm & Hc). by rewrite <- Hc, <- (Hcr m Hm).
    + right. by rewrite <- (me_attachments _ _ _ _ _ _ He).
  - intros r Hr. apply (me_relations _ _ _ _ _ _ He) in Hr.
    assert (Hold : r ∈ relations db → memo_exists db' r.1.1 ∧ memo_exists db' r.1.2).
    { intros Ho. destruct (I8 r Ho). split; by apply Hex. }
    destruct Hr as [Hr|[Hc Hr]].
    + destruct (mu_replace mu); [|by apply Hold].
      destruct Hr as [(rl & Hrl & ->)|[_ Hr]]; [|by apply Hold]. cbn. split; [by exists m'|].
      destruct (Hend eq_refl rl Hrl) as (m & Hm & _). apply Hex. by exists m.
    + destruct (mu_create mu) as [c|]; [|done]. unfold comment_rows in Hr.
      destruct (mu_comment_context mu) as [x|]; [|set_solver].
      apply elem_of_singleton in Hr as ->. cbn. split; [by exists m'|].
      destruct (Hcom c x eq_refl eq_refl) as (sn & Hl & _). apply Hex.
      unfold MutationDriver.loadMemoParticipation in Hl.
      destruct (user_status _ _); [|discriminate]. unfold memo_exists.
      by destruct (memos db !! x).
Qed.

(** Rewriting a memo keeps its author. *)
Lemma updated_memo_ref u m db :
  memos db !! um_id u = Some m → ref_inv db →
  ref_inv (set_memos <[um_id u := MemoDriver.updated_memo u m]> db).
Proof.
  intros Hm. apply ref_inv_frame. split; cbn; eauto; try done.
  - intros k x Hx. destruct (decide (k = um_id u)) as [->|Hne].
    + eexists. rewrite lookup_insert_eq. split; [done|]. cbn. congruence.
    + exists x. by rewrite lookup_insert_ne.
  - intros k x. intros [[<- <-]|[_ Hx]]%lookup_insert_Some; [by exists m|by exists x].
Qed.

Lemma ref_tables db db' : tables_same db db' → ref_inv db → ref_inv db'.
Proof. intros []. by apply ref_inv_frame, ref_frame_same. Qed.

Lemma change_ref now db db' : content_change now db db' → ref_inv db → ref_inv db'.
Proof.
  intros Hch Hinv. destruct Hch as [db' Ht|ids db' Ht|u|c _ Hu|u m Hm _|mu id db' _ E
    |sh actor m Hm _|c|a Ha|i a a' Ha Em Ec|ids|x Hm Hnew|t Ht].
  - by eapply ref_tables.
  - eapply ref_tables; [done|]. by apply without_memos_ref.
  - by apply without_user_ref.
  - by apply with_memo_ref.
  - by apply updated_memo_ref.
  - by eapply mutation_ref.
  - apply share_ref; [by exists m|done].
  - revert Hinv. apply ref_inv_frame. split; cbn; eauto; try done.
    unfold delete_where. apply map_filter_subseteq.
  - by apply attachment_ref.
  - revert Hinv. apply ref_inv_frame. split; cbn; eauto; try done. intros j x.
    intros [[<- <-]|[_ Hx]]%lookup_insert_Some; [by exists a|by exists x].
  - revert Hinv. apply ref_inv_frame. split; cbn; eauto; try done. intros i x.
    rewrite drop_rows_lookup. destruct (decide _); [done|]. by exists x.
  - by apply reaction_ref.
  - revert Hinv. apply ref_inv_frame. split; cbn; eauto; done.
Qed.

Lemma empty_ref : ref_inv empty_db.
Proof.
  split; cbn.
  - intros id [m Hx]. cbn in Hx. by rewrite lookup_empty in Hx.
  - intros id m Hx. by rewrite lookup_empty in Hx.
  - intros i sh Hx. by rewrite lookup_empty in Hx.
  - intros i r Hx. by rewrite lookup_empty in Hx.
  - intros i [r Hx]. by rewrite lookup_empty in Hx.
  - intros i j x y Hx. by rewrite lookup_empty in Hx.
  - intros i a id Hx. by rewrite lookup_empty in Hx.
  - set_solver.
Qed.

(** C17. Over every history of API requests - memos, mutations, shares,
    attachments, reactions, spaces, users, in any order - every memo has an author
    that exists; every share, reaction, reference, comment link and bound
    attachment hangs on a memo that exists, the attachment on one of its own
    creator; ids are never reused; and nobody reacts twice with the same type on
    one memo.  Deletions of a memo, a space or a user take everything along that
    would dangle. *)
Theorem references_never_dangle os :
  Forall (λ o : Z * memo_op, api_op o.2) os → ref_inv (memo_serve_all os empty_db).
Proof.
  intros Hapi. apply memo_serve_all_invariant; [|done|apply empty_ref].
  intros now o db Ho. eapply change_ref. by apply memo_serve_change.
Qed.

(** Ada and Bob write, Bob reacts to and comments on Ada's memo, which takes an
    attachment; then Ada deletes the memo. *)
Definition reference_history : list (Z * memo_op) := [
  (10, OpSpace (OpCreateUser (example_user "ada") 10));
  (11, OpSpace (OpCreateUser (example_user "bob") 11));
  (12, OpCreateMemo (mkMemo "note" 1 0 0 "" "text" Public false "{}" None));
  (13, OpCreateAttachment (mkAttachment "file" 1 None "" "" "" "a.txt" "text/plain" 3 "abc" 0 0) None);
  (14, OpMutateMemo (mkMutation None None 1 1 "text" None [Some (mkBinding 1 "file" 14 false)]
         [] [] false [] (Some (mkPolicy 1 false false))));
  (15, OpReact (mkReactionReq 2 1 "heart" (Some 2)));
  (16, OpMutateMemo (mkMutation (Some (mkMemo "reply" 2 0 0 "" "hello" Public false "{}" None))
         (Some 1) 0 0 "" None [] [] [] false [] None))
]%Z.
Definition reference_deletion : list (Z * memo_op) := [(20, OpDeleteMemo 1 1)]%Z.

Lemma references_never_dangle_witness :
  ref_inv (memo_serve_all (reference_history ++ reference_deletion) empty_db) ∧
  (let db := memo_serve_all reference_history empty_db in
   (at_memo <$> attachments db !! 1%Z, re_memo <$> reactions db !! 1%Z,
    bool_decide ((2, 1, MemoRelationComment)%Z ∈ relations db))
   = (Some (Some 1%Z), Some 1%Z, true)).
Proof.
  split; [|vm_compute; reflexivity].
  apply references_never_dangle. repeat constructor; done.
Defined.

(** ** Attachments keep their owner and their memo *)

(** From one state to a later one: old ids are not given out again, and an
    attachment that survives has its creator, and its memo if it had one. *)
Record attachments_kept (db db' : DB) : Prop := {
  ak_next : (next_attachment db ≤ next_attachment db')%Z;
  ak_row i a' : attachments db' !! i = Some a' → (i < next_attachment db)%Z →
    ∃ a, attachments db !! i = Some a ∧ at_creator a' = at_creator a ∧
         ∀ m, at_memo a = Some m → at_memo a' = Some m;
}.

#[global] Instance attachments_kept_preorder : PreOrder attachments_kept.
Proof.
  split.
  - intros db. split; [lia|]. intros i a Ha _. by exists a.
  - intros x y z [N1 R1] [N2 R2]. split; [lia|]. intros i a Ha Hi.
    destruct (R2 i a Ha ltac:(lia)) as (b & Hb & Hc & Hm).
    destruct (R1 i b Hb Hi) as (c & ? & ? & Hm').
    exists c. split_and!; [done|congruence|]. intros m Hcm. by apply Hm, Hm'.
Qed.

Lemma kept_subset db db' :
  attachments db' ⊆ attachments db → next_attachment db' = next_attachment db →
  attachments_kept db db'.
Proof.
  intros Ha Hn. split; [lia|]. intros i a Hi _. exists a.
  split; [by eapply lookup_weaken|done].
Qed.

Lemma kept_same db db' :
  attachments db' = attachments db → next_attachment db' = next_attachment db →
  attachments_kept db db'.
Proof. intros Ha. apply kept_subset. by rewrite Ha. Qed.

Lemma mutation_kept now mu db id db' :
  MemoMutation.ApplyMemoMutation now mu db = Ok (id, db') → attachments_kept db db'.
Proof.
  intros (He & _)%ApplyMemoMutation_effect.
  pose proof (me_other_tables _ _ _ _ _ _ He) as (_ & _ & _ & _ & _ & _ & _ & _ & En & _).
  split; [lia|]. intros i a Hi _.
  destruct (decide (i ∈ mu_removed mu)) as [Hr|Hr].
  { apply (me_removed _ _ _ _ _ _ He) in Hr as [Hr _]. congruence. }
  destruct (decide (i ∈ bound_ids (mu_bindings mu))) as [Hb|Hb].
  - destruct (me_bound _ _ _ _ _ _ He i Hb) as (a0 & ts & Ha0 & Hbind & Ha).
    exists a0. simplify_eq. split_and!; [done..|]. intros m Hm. destruct Hbind as [Hx|[Hx _]]; [|congruence].
    cbn. congruence.
  - exists a. by rewrite <- (me_attachments _ _ _ _ _ _ He).
Qed.

Lemma change_kept now db db' :
  (∀ i, is_Some (attachments db !! i) → (i < next_attachment db)%Z) →
  content_change now db db' → attachments_kept db db'.
Proof.
  intros Hids Hch. destruct Hch as [db' []|ids db' []|u|c _ _|u m _ _|mu id db' _ E
    |sh actor m _ _|c|a _|i a a' Ha Em Ec|ids|x _ _|t _]; try by apply kept_same.
  - apply kept_subset; [rewrite ts_attachments|done]. apply map_filter_subseteq.
  - apply kept_subset; [apply map_filter_subseteq|done].
  - by eapply mutation_kept.
  - split; cbn; [lia|]. intros i b [[<- _]|[_ Hb]]%lookup_insert_Some Hi; [lia|by exists b].
  - split; cbn; [lia|]. intros j b [[<- <-]|[_ Hb]]%lookup_insert_Some Hi; [|by exists b].
    exists a. split_and!; [done..|]. by rewrite Em.
  - apply kept_subset; [|done]. apply map_subseteq_spec. intros i b. cbn. rewrite drop_rows_lookup.
    by destruct (decide _).
Qed.

Lemma change_attachment_ids now db db' :
  content_change now db db' → (∀ i, is_Some (attachments db !! i) → (i < next_attachment db)%Z) →
  ∀ i, is_Some (attachments db' !! i) → (i < next_attachment db')%Z.
Proof.
  intros Hch Hids i [a' Hi].
  destruct (decide (i < next_attachment db)%Z) as [Hlt|Hge].
  { pose proof (ak_next _ _ (change_kept now db db' Hids Hch)). lia. }
  destruct Hch as [db' []|ids db' []|u|c _ _|u m _ _|mu id db' _ E
    |sh actor m _ _|c|a _|j a b Ha _ _|ids|x _ _|t _]; cbn in *; try (by apply Hids; eexists).
  - rewrite ts_next_attachment. apply Hids. rewrite <- ts_attachments. by eexists.
  - rewrite ts_next_attachment. apply Hids. rewrite ts_attachments in Hi.
    apply map_lookup_filter_Some in Hi as [Hi _]. by eexists.
  - apply map_lookup_filter_Some in Hi as [Hi _]. apply Hids. by eexists.
  - apply ApplyMemoMutation_effect in E as (He & _).
    pose proof (me_other_tables _ _ _ _ _ _ He) as (_ & _ & _ & _ & _ & _ & _ & _ & En & _).
    rewrite En. apply Hids.
    destruct (decide (i ∈ mu_removed mu)) as [Hr|Hr].
    { apply (me_removed _ _ _ _ _ _ He) in Hr as [Hr _]. congruence. }
    destruct (decide (i ∈ bound_ids (mu_bindings mu))) as [Hb|Hb].
    + destruct (me_bound _ _ _ _ _ _ He i Hb) as (a0 & ts & Ha0 & _). by exists a0.
    + exists a'. by rewrite <- (me_attachments _ _ _ _ _ _ He).
  - apply lookup_insert_Some in Hi as [[<- _]|[_ Hi]]; [lia|]. specialize (Hids i (ex_intro _ a' Hi)). lia.
  - apply Hids. apply lookup_insert_Some in Hi as [[<- _]|[_ Hi]]; by eexists.
  - rewrite drop_rows_lookup in Hi. destruct (decide _); [done|]. apply Hids. by eexists.
Qed.

Definition attachment_ids (db : DB) : Prop :=
  ∀ i, is_Some (attachments db !! i) → (i < next_attachment db)%Z.

Lemma history_kept os : ∀ db,
  Forall (λ o : Z * memo_op, api_op o.2) os → attachment_ids db →
  attachment_ids (memo_serve_all os db) ∧ attachments_kept db (memo_serve_all os db).
Proof.
  induction os as [|[t o] os IH]; intros db Hapi Hids; [done|].
  apply Forall_cons in Hapi as [Ho Hos]. pose proof (memo_serve_change t o db Ho) as Hch.
  destruct (IH (memo_serve t o db) Hos) as [H1 H2]; [exact (change_attachment_ids t db _ Hch Hids)|].
  split; [done|]. etrans; [by eapply change_kept|done].
Qed.

Lemma memo_serve_all_app os1 os2 db :
  memo_serve_all (os1 ++ os2) db = memo_serve_all os2 (memo_serve_all os1 db).
Proof. revert db. induction os1 as [|[t o] os1 IH]; intros db; [done|]. apply IH. Qed.

(** C18. Nobody takes over an attachment: whatever requests follow, an attachment
    that is still there has the creator it had, and once it is on a memo it is on
    that memo; a mutation of another memo, by whomever, cannot bind it, and the id
    of a deleted attachment is not given out again. *)
Theorem attachments_never_stolen os1 os2 i a :
  Forall (λ o : Z * memo_op, api_op o.2) (os1 ++ os2) →
  let db := memo_serve_all os1 empty_db in
  let db' := memo_serve_all (os1 ++ os2) empty_db in
  ((i < next_attachment db)%Z → attachments db !! i = None → attachments db' !! i = None) ∧
  (attachments db !! i = Some a → ∀ a', attachments db' !! i = Some a' →
     at_creator a' = at_creator a ∧ ∀ m, at_memo a = Some m → at_memo a' = Some m).
Proof.
  intros [H1 H2]%Forall_app db db'. subst db'. rewrite memo_serve_all_app.
  assert (attachment_ids empty_db) as H0.
  { intros j [b Hx]. cbn in Hx. by rewrite lookup_empty in Hx. }
  destruct (history_kept os1 empty_db H1 H0) as [Hids _]. fold db in Hids |- *.
  destruct (history_kept os2 db H2 Hids) as [_ [_ Hrow]]. split.
  - intros Hlt Hnone. apply eq_None_not_Some. intros [a' Ha'].
    destruct (Hrow i a' Ha' Hlt) as (b & Hb & _). congruence.
  - intros Ha a' Ha'. destruct (Hrow i a' Ha') as (b & Hb & Hc & Hm); [apply Hids; by eexists|].
    simplify_eq. done.
Qed.

(** Bob tries to bind Ada's attachment to his own memo: the request is refused. *)
Definition theft : list (Z * memo_op) := [
  (20, OpMutateMemo (mkMutation None None 2 2 "hello" None [Some (mkBinding 1 "file" 20 false)]
         [] [] false [] (Some (mkPolicy 2 false false))));
  (21, OpMutateMemo (mkMutation None None 1 1 "text" None [Some (mkBinding 1 "file" 21 true)]
         [] [1] false [] (Some (mkPolicy 1 false false))))
]%Z.

Lemma attachments_never_stolen_witness :
  let db' := memo_serve_all (reference_history ++ theft) empty_db in
  ∃ a', attachments db' !! 1%Z = Some a' ∧ at_creator a' = 1%Z ∧ at_memo a' = Some 1%Z ∧
        at_updated_ts a' = 21%Z.
Proof.
  intros db'. eexists. split; [vm_compute; reflexivity|].
  destruct (proj2 (attachments_never_stolen reference_history theft 1
    (mkAttachment "file" 1 (Some 1) "" "" "" "a.txt" "text/plain" 3 "abc" 13 14)%Z
    ltac:(repeat constructor; done)) ltac:(vm_compute; reflexivity)
    (mkAttachment "file" 1 (Some 1) "" "" "" "a.txt" "text/plain" 3 "abc" 13 21)%Z
    ltac:(vm_compute; reflexivity)) as [Hc Hm].
  split; [exact Hc|]. split; [exact (Hm 1%Z eq_refl)|reflexivity].
Defined.
