(* ===== verification/UserSettings.v ===== *)
(** * User settings and the caches before the database

    [store/user_setting.go] with [store/db/sqlite/user_setting.go], and the
    cached reads and writes of [store/user.go]: refresh tokens, personal access
    tokens, webhooks and saved views of a user are lists inside one setting each,
    changed by reading the list, through the cache, and writing it back.

    The caches are finite maps from which entries may vanish at any time
    ([evict]): [Cache] shows that a read of the cache returns the last value
    written or nothing.  A cached setting is shared by its readers; the only
    method that writes into a list it has read is [UpdateUserWebhook]
    ([replace_in_place]).  [protojson], which turns settings into text, is the
    parameter [ProtoJSON]. *)
From S2P Require Import Prelude GoLib Store SpaceStore.
From Stdlib Require Import SpecFloat.

(** ** Data: the messages of [proto/store/user_setting.proto] *)

Inductive SettingKey :=
| KEY_UNSPECIFIED | GENERAL | MEMO_VIEWS | WEBHOOKS | REFRESH_TOKENS | PERSONAL_ACCESS_TOKENS | TAGS.

#[export] Instance SettingKey_eq_dec : EqDecision SettingKey.
Proof. solve_decision. Defined.

Definition key_string (k : SettingKey) : string :=
  match k with
  | KEY_UNSPECIFIED => "KEY_UNSPECIFIED"
  | GENERAL => "GENERAL"
  | MEMO_VIEWS => "MEMO_VIEWS"
  | WEBHOOKS => "WEBHOOKS"
  | REFRESH_TOKENS => "REFRESH_TOKENS"
  | PERSONAL_ACCESS_TOKENS => "PERSONAL_ACCESS_TOKENS"
  | TAGS => "TAGS"
  end.

(** [storepb.UserSetting_Key_value[s]]: unknown names are 0. *)
Definition key_of_string (s : string) : SettingKey :=
  default KEY_UNSPECIFIED (find (λ k, String.eqb (key_string k) s)
    [GENERAL; MEMO_VIEWS; WEBHOOKS; REFRESH_TOKENS; PERSONAL_ACCESS_TOKENS; TAGS]).

#[global] Arguments key_of_string : simpl never.

#[export] Instance SettingKey_countable : Countable SettingKey.
Proof.
  refine (inj_countable' key_string
    (λ s, key_of_string s) _). by intros [].
Defined.

(** Times are nanoseconds since the epoch; an unset timestamp is [None]. *)
Record ClientInfo := mkClientInfo {
  ci_user_agent : string; ci_ip_address : string; ci_device_type : string;
  ci_os : string; ci_browser : string }.
Record RefreshToken := mkRefreshToken {
  rt_id : string; rt_expires_at : option Z; rt_created_at : option Z;
  rt_client : ClientInfo; rt_description : string }.
Record PersonalAccessToken := mkPAT {
  pat_id : string; pat_hash : string; pat_description : string;
  pat_expires_at : option Z; pat_created_at : option Z; pat_last_used_at : option Z }.
Record MemoView := mkView { mv_id : string; mv_title : string; mv_filter : string }.
Record Webhook := mkWebhook {
  wh_id : string; wh_title : string; wh_url : string; wh_signing_secret : string }.
Record GeneralUserSetting := mkGeneral {
  gs_locale : string; gs_memo_visibility : string; gs_theme : string;
  gs_save_media_metadata : bool }.
(** [google.type.Color]. *)
Record Color := mkColor {
  co_red : spec_float; co_green : spec_float; co_blue : spec_float; co_alpha : option spec_float }.
Record UserTagMetadata := mkTagMetadata {
  tm_background_color : option Color; tm_blur_content : bool }.

#[export] Instance client_eq_dec : EqDecision ClientInfo.
Proof. solve_decision. Defined.
#[export] Instance refresh_eq_dec : EqDecision RefreshToken.
Proof. solve_decision. Defined.
#[export] Instance pat_eq_dec : EqDecision PersonalAccessToken.
Proof. solve_decision. Defined.
#[export] Instance view_eq_dec : EqDecision MemoView.
Proof. solve_decision. Defined.
#[export] Instance webhook_eq_dec : EqDecision Webhook.
Proof. solve_decision. Defined.
#[export] Instance general_eq_dec : EqDecision GeneralUserSetting.
Proof. solve_decision. Defined.

Inductive SettingValue :=
| VGeneral (g : GeneralUserSetting)
| VMemoViews (l : list MemoView)
| VWebhooks (l : list Webhook)
| VRefreshTokens (l : list RefreshToken)
| VPersonalAccessTokens (l : list PersonalAccessToken)
| VTags (tags : gmap string UserTagMetadata).

Definition kind (v : SettingValue) : SettingKey :=
  match v with
  | VGeneral _ => GENERAL
  | VMemoViews _ => MEMO_VIEWS
  | VWebhooks _ => WEBHOOKS
  | VRefreshTokens _ => REFRESH_TOKENS
  | VPersonalAccessTokens _ => PERSONAL_ACCESS_TOKENS
  | VTags _ => TAGS
  end.

(** [storepb.UserSetting]; the value is of the kind the key says. *)
Record UserSetting := mkSetting { st_user : Z; st_key : SettingKey; st_value : SettingValue }.

(** [store.UserSetting], the row. *)
Record RawSetting := mkRaw { raw_user : Z; raw_key : SettingKey; raw_value : string }.

(** ** Conversion *)

Class ProtoJSON := {
  Marshal : SettingValue → result error string;
  Unmarshal : SettingKey → string → result error SettingValue;
  Unmarshal_Marshal v s : Marshal v = Ok s → Unmarshal (kind v) s = Ok v;
  Unmarshal_kind k s v : Unmarshal k s = Ok v → kind v = k;
}.

Section settings.
Context `{ProtoJSON}.

Definition convertUserSettingFromRaw (raw : RawSetting) : result error (option UserSetting) :=
  match raw_key raw with
  | KEY_UNSPECIFIED => Ok None
  | TAGS =>
      v ← wrap_err "unmarshal tags user setting" (Unmarshal TAGS (raw_value raw));
      Ok (Some (mkSetting (raw_user raw) TAGS v))
  | k =>
      v ← Unmarshal k (raw_value raw);
      Ok (Some (mkSetting (raw_user raw) k v))
  end.

Definition convertUserSettingToRaw (s : UserSetting) : result error RawSetting :=
  match st_key s with
  | KEY_UNSPECIFIED =>
      Err (Errorf "unsupported user setting key: %v" [key_string (st_key s)])
  | TAGS =>
      text ← wrap_err "marshal tags user setting" (Marshal (st_value s));
      Ok (mkRaw (st_user s) TAGS text)
  | k =>
      text ← Marshal (st_value s);
      Ok (mkRaw (st_user s) k text)
  end.

(** ** State *)

(** A user with its id, as the cache keeps it. *)
Record StoreState := mkState {
  db : DB;
  userCache : gmap Z User;
  userSettingCache : gmap (Z * SettingKey) UserSetting;
}.

Definition set_db (f : DB → DB) (st : StoreState) : StoreState :=
  mkState (f (db st)) (userCache st) (userSettingCache st).
Definition set_user_cache (f : gmap Z User → gmap Z User) (st : StoreState) : StoreState :=
  mkState (db st) (f (userCache st)) (userSettingCache st).
Definition set_setting_cache (f : gmap (Z * SettingKey) UserSetting → gmap (Z * SettingKey) UserSetting)
    (st : StoreState) : StoreState :=
  mkState (db st) (userCache st) (f (userSettingCache st)).

(** Changes of the caches stay when a method fails. *)
Definition ST (A : Type) : Type := StoreState → result error A * StoreState.

#[export] Instance ST_ret : MRet ST := λ A a st, (Ok a, st).
#[export] Instance ST_bind : MBind ST := λ A B f m st,
  match m st with (Ok a, st') => f a st' | (Err e, st') => (Err e, st') end.

Lemma st_bind {A B} (m : ST A) (f : A → ST B) st :
  (m ≫= f) st = match m st with (Ok a, st') => f a st' | (Err e, st') => (Err e, st') end.
Proof. reflexivity. Qed.

Definition st_err {A} (e : error) : ST A := λ st, (Err e, st).
Definition st_lift {A} (m : result error A) : ST A := λ st, (m, st).
Definition st_wrap {A} (msg : string) (m : ST A) : ST A :=
  λ st, let '(r, st') := m st in (wrap_err msg r, st').
Definition modify (f : StoreState → StoreState) : ST unit := λ st, (Ok tt, f st).
Definition read {A} (q : StoreState → A) : ST A := λ st, (Ok (q st), st).

(** One transaction of the driver. *)
Definition driver {A} (m : Tx A) : ST A :=
  λ st, let '(r, db') := run m (db st) in (r, set_db (λ _, db') st).

(** ** The driver *)

Definition cache_setting (s : UserSetting) : ST unit :=
  modify (set_setting_cache <[(st_user s, st_key s) := s]>).

Definition matches_setting (user : option Z) (key : SettingKey) (k : Z * string) : bool :=
  (bool_decide (key = KEY_UNSPECIFIED) || String.eqb k.2 (key_string key)) && matches_opt user k.1.

(** [DB.ListUserSettings]. *)
Definition list_rows (user : option Z) (key : SettingKey) (d : DB) : list RawSetting :=
  (λ kv : (Z * string) * string, mkRaw kv.1.1 (key_of_string kv.1.2) kv.2)
    <$> map_to_list (filter (λ kv, matches_setting user key kv.1 = true) (user_settings d)).

(** [DB.UpsertUserSetting]; [up] is whether the database takes the write. *)
Definition upsert_row (up : bool) (raw : RawSetting) : Tx unit :=
  _ ← require up (errorf0 "database write failed");
  exec (set_settings <[(raw_user raw, key_string (raw_key raw)) := raw_value raw]>).

(** [DB.DeleteUserSettings]. *)
Definition delete_rows_of (user : option Z) (key : SettingKey) : Tx unit :=
  exec (set_settings (delete_where (λ k _, matches_setting user key k))).

(** [DB.GetUserByPATHash]: the SQL looks for the hash among the tokens of each
    row; protojson leaves an empty hash out. *)
Definition has_hash (hash : string) (raw : string) : bool :=
  match Unmarshal PERSONAL_ACCESS_TOKENS raw with
  | Ok (VPersonalAccessTokens l) =>
      negb (String.eqb hash "") && existsb (λ t, String.eqb (pat_hash t) hash) l
  | _ => false
  end.
Definition pat_rows (hash : string) (d : DB) : list (Z * string) :=
  omap (λ kv : (Z * string) * string,
    if String.eqb kv.1.2 (key_string PERSONAL_ACCESS_TOKENS) && has_hash hash kv.2
    then Some (kv.1.1, kv.2) else None) (map_to_list (user_settings d)).
Definition driver_GetUserByPATHash (hash : string) (d : DB) : result error (Z * PersonalAccessToken) :=
  match pat_rows hash d with
  | [] => Err ErrNoRows
  | (user, raw) :: _ =>
      v ← Unmarshal PERSONAL_ACCESS_TOKENS raw;
      match v with
      | VPersonalAccessTokens l =>
          match find (λ t, String.eqb (pat_hash t) hash) l with
          | Some t => Ok (user, t)
          | None => Err (errorf0 "PAT not found")
          end
      | _ => Err (errorf0 "PAT not found")
      end
  end.

(** ** Settings of the store *)

Definition UpsertUserSetting (up : bool) (upsert : UserSetting) : ST UserSetting :=
  raw ← st_lift (convertUserSettingToRaw upsert);
  _ ← driver (upsert_row up raw);
  setting ← st_lift (convertUserSettingFromRaw raw);
  match setting with
  | None => st_err (errorf0 "unexpected nil user setting")
  | Some s => _ ← cache_setting s; mret s
  end.

(** The loop of [ListUserSettings]. *)
Fixpoint convert_rows (rows : list RawSetting) : ST (list UserSetting) :=
  match rows with
  | [] => mret []
  | raw :: rows =>
      setting ← st_lift (convertUserSettingFromRaw raw);
      match setting with
      | None => convert_rows rows
      | Some s => _ ← cache_setting s; l ← convert_rows rows; mret (s :: l)
      end
  end.
Definition ListUserSettings (user : option Z) (key : SettingKey) : ST (list UserSetting) :=
  rows ← read (λ st, list_rows user key (db st));
  convert_rows rows.

Definition GetUserSetting (user : option Z) (key : SettingKey) : ST (option UserSetting) :=
  cached ← read (λ st, u ← user; userSettingCache st !! (u, key));
  match cached with
  | Some s => mret (Some s)
  | None =>
      l ← ListUserSettings user key;
      match l with
      | [] => mret None
      | [s] => _ ← cache_setting s; mret (Some s)
      | _ => st_err (Errorf "expected 1 user setting, but got %d" [itoa (Z.of_nat (length l))])
      end
  end.

Definition DeleteUserSettings (user : option Z) (key : SettingKey) : ST unit :=
  existing ← ListUserSettings user key;
  _ ← driver (delete_rows_of user key);
  modify (set_setting_cache (λ c, fold_left (λ c s, delete (st_user s, st_key s) c) existing c)).

(** ** Users *)

(** The returned user is [create], completed from the new row. *)
Definition CreateUser (create : User) (now : Z) : ST (Z * User) :=
  id ← driver (Driver.CreateUser create now);
  row ← read (λ st, users (db st) !! id);
  match row with
  | None => st_err ErrNoRows
  | Some u =>
      let u := mkUser (us_username u) (us_role u) (us_email u) (us_nickname u)
        (us_password_hash u) (us_avatar_url u) (us_description create) (us_created_ts u)
        (us_updated_ts u) (us_row_status u) in
      _ ← modify (set_user_cache <[id := u]>); mret (id, u)
  end.

Definition UpdateUser (update : Driver.UpdateUserReq) : ST User :=
  u ← driver (Driver.UpdateUser update);
  _ ← modify (set_user_cache <[Driver.uu_id update := u]>);
  mret u.

(** [GetUser] with an id: [ListUsers] caches what it finds. *)
Definition GetUser (id : Z) : ST (option User) :=
  cached ← read (λ st, userCache st !! id);
  match cached with
  | Some u => mret (Some u)
  | None =>
      row ← read (λ st, users (db st) !! id);
      match row with
      | None => mret None
      | Some u => _ ← modify (set_user_cache <[id := u]>); mret (Some u)
      end
  end.

(** [deleteUserCache]. *)
Definition deleteUserCache (user : Z) (keys : list string) (st : StoreState) : StoreState :=
  set_setting_cache (λ c, fold_left (λ c k, delete (user, key_of_string k) c) keys c)
    (set_user_cache (delete user) st).

Definition DeleteUser (user : Z) (failpoint : bool) : ST unit :=
  result ← driver (Driver.DeleteUser user failpoint);
  modify (deleteUserCache user result.2).

Definition GetUserByPATHash (hash : string) : ST (Z * User * PersonalAccessToken) :=
  found ← read (λ st, driver_GetUserByPATHash hash (db st));
  result ← st_lift found;
  user ← GetUser result.1;
  match user with
  | None => st_err (errorf0 "user not found for PAT")
  | Some u => mret (result.1, u, result.2)
  end.

(** ** The lists inside settings *)

(** A getter of the oneof on a setting of its own kind. *)
Definition GetRefreshTokens (s : UserSetting) : list RefreshToken :=
  match st_value s with VRefreshTokens l => l | _ => [] end.
Definition GetPersonalAccessTokens (s : UserSetting) : list PersonalAccessToken :=
  match st_value s with VPersonalAccessTokens l => l | _ => [] end.
Definition GetWebhooks (s : UserSetting) : list Webhook :=
  match st_value s with VWebhooks l => l | _ => [] end.
Definition GetMemoViews (s : UserSetting) : list MemoView :=
  match st_value s with VMemoViews l => l | _ => [] end.

Definition from_setting {A} (get : UserSetting → list A) (s : option UserSetting) : list A :=
  match s with None => [] | Some s => get s end.

Definition GetUserRefreshTokens (user : Z) : ST (list RefreshToken) :=
  s ← GetUserSetting (Some user) REFRESH_TOKENS; mret (from_setting GetRefreshTokens s).

Definition AddUserRefreshToken (up : bool) (user : Z) (token : RefreshToken) : ST unit :=
  tokens ← GetUserRefreshTokens user;
  _ ← UpsertUserSetting up (mkSetting user REFRESH_TOKENS (VRefreshTokens (tokens ++ [token])));
  mret tt.

Definition RemoveUserRefreshToken (up : bool) (user : Z) (id : string) : ST unit :=
  tokens ← GetUserRefreshTokens user;
  let kept := filter (λ t, rt_id t ≠ id) tokens in
  _ ← UpsertUserSetting up (mkSetting user REFRESH_TOKENS (VRefreshTokens kept));
  mret tt.

Definition GetUserRefreshTokenByID (user : Z) (id : string) : ST (option RefreshToken) :=
  tokens ← GetUserRefreshTokens user;
  mret (find (λ t, String.eqb (rt_id t) id) tokens).

Definition GetUserPersonalAccessTokens (user : Z) : ST (list PersonalAccessToken) :=
  s ← GetUserSetting (Some user) PERSONAL_ACCESS_TOKENS;
  mret (from_setting GetPersonalAccessTokens s).

Definition AddUserPersonalAccessToken (up : bool) (user : Z) (token : PersonalAccessToken) : ST unit :=
  tokens ← GetUserPersonalAccessTokens user;
  _ ← UpsertUserSetting up
        (mkSetting user PERSONAL_ACCESS_TOKENS (VPersonalAccessTokens (tokens ++ [token])));
  mret tt.

Definition RemoveUserPersonalAccessToken (up : bool) (user : Z) (id : string) : ST unit :=
  tokens ← GetUserPersonalAccessTokens user;
  let kept := filter (λ t, pat_id t ≠ id) tokens in
  _ ← UpsertUserSetting up (mkSetting user PERSONAL_ACCESS_TOKENS (VPersonalAccessTokens kept));
  mret tt.

(** [UpdatePATLastUsed]: the first token with the id; an older time never
    overwrites a newer one.  [None] is no write. *)
Definition later_use (used : option Z) (t : PersonalAccessToken) : bool :=
  match used, pat_last_used_at t with
  | Some new, Some old => negb (old <? new)%Z
  | _, _ => false
  end.
Fixpoint touch_pat (id : string) (used : option Z) (tokens : list PersonalAccessToken)
  : option (list PersonalAccessToken) :=
  match tokens with
  | [] => None
  | t :: tokens =>
      if String.eqb (pat_id t) id then
        if later_use used t then None
        else Some (mkPAT (pat_id t) (pat_hash t) (pat_description t) (pat_expires_at t)
                     (pat_created_at t) used :: tokens)
      else (t ::.) <$> touch_pat id used tokens
  end.
Definition UpdatePATLastUsed (up : bool) (user : Z) (id : string) (used : option Z) : ST unit :=
  tokens ← GetUserPersonalAccessTokens user;
  match touch_pat id used tokens with
  | None => mret tt
  | Some tokens' =>
      _ ← UpsertUserSetting up
            (mkSetting user PERSONAL_ACCESS_TOKENS (VPersonalAccessTokens tokens'));
      mret tt
  end.

Definition GetUserWebhooks (user : Z) : ST (list Webhook) :=
  s ← GetUserSetting (Some user) WEBHOOKS; mret (from_setting GetWebhooks s).

Definition add_webhook (w : Webhook) (l : list Webhook) : list Webhook :=
  let updated := (λ e, if String.eqb (wh_id e) (wh_id w) then w else e) <$> l in
  if existsb (λ e, String.eqb (wh_id e) (wh_id w)) l then updated else updated ++ [w].
Definition AddUserWebhook (up : bool) (user : Z) (w : Webhook) : ST unit :=
  l ← GetUserWebhooks user;
  _ ← UpsertUserSetting up (mkSetting user WEBHOOKS (VWebhooks (add_webhook w l)));
  mret tt.

Definition RemoveUserWebhook (up : bool) (user : Z) (id : string) : ST unit :=
  l ← GetUserWebhooks user;
  let kept := filter (λ w, wh_id w ≠ id) l in
  _ ← UpsertUserSetting up (mkSetting user WEBHOOKS (VWebhooks kept));
  mret tt.

(** [webhooks[i] = webhook] at the first match, in the list the cache holds. *)
Fixpoint replace_webhook (w : Webhook) (l : list Webhook) : list Webhook :=
  match l with
  | [] => []
  | e :: l => if String.eqb (wh_id e) (wh_id w) then w :: l else e :: replace_webhook w l
  end.
Definition replaced_setting (w : Webhook) (s : UserSetting) : UserSetting :=
  mkSetting (st_user s) (st_key s) (VWebhooks (replace_webhook w (GetWebhooks s))).
Definition replace_in_place (user : Z) (w : Webhook) : ST unit :=
  modify (set_setting_cache (alter (replaced_setting w) (user, WEBHOOKS))).
Definition UpdateUserWebhook (up : bool) (user : Z) (w : Webhook) : ST unit :=
  l ← GetUserWebhooks user;
  _ ← replace_in_place user w;
  _ ← UpsertUserSetting up (mkSetting user WEBHOOKS (VWebhooks (replace_webhook w l)));
  mret tt.

Definition GetUserMemoViews (user : Z) : ST (list MemoView) :=
  s ← st_wrap "get memo views user setting" (GetUserSetting (Some user) MEMO_VIEWS);
  mret (from_setting GetMemoViews s).

Definition upsertUserMemoViews (up : bool) (user : Z) (l : list MemoView) : ST unit :=
  _ ← st_wrap "upsert memo views user setting"
        (UpsertUserSetting up (mkSetting user MEMO_VIEWS (VMemoViews l)));
  mret tt.

Definition AddUserMemoView (up : bool) (user : Z) (v : MemoView) : ST unit :=
  l ← st_wrap "get existing memo views" (GetUserMemoViews user);
  st_wrap "add memo view" (upsertUserMemoViews up user (l ++ [v])).

(** Every view with the id is rewritten; the last of them is returned. *)
Definition updated_view (title filter : option string) (v : MemoView) : MemoView :=
  mkView (mv_id v) (default (mv_title v) title) (default (mv_filter v) filter).
Definition UpdateUserMemoView (up : bool) (user : Z) (id : string) (title filter : option string)
  : ST (option MemoView) :=
  l ← st_wrap "get existing memo views" (GetUserMemoViews user);
  let views := (λ v, if String.eqb (mv_id v) id then updated_view title filter v else v) <$> l in
  match last (base.filter (λ v, mv_id v = id) l) with
  | None => mret None
  | Some v =>
      _ ← st_wrap "update memo view" (upsertUserMemoViews up user views);
      mret (Some (updated_view title filter v))
  end.

Definition RemoveUserMemoView (up : bool) (user : Z) (id : string) : ST bool :=
  l ← st_wrap "get existing memo views" (GetUserMemoViews user);
  if existsb (λ v, String.eqb (mv_id v) id) l then
    _ ← st_wrap "remove memo view" (upsertUserMemoViews up user (filter (λ v, mv_id v ≠ id) l));
    mret true
  else mret false.

(** Entries of the caches expire or are evicted. *)
Definition evict (us : list Z) (ks : list (Z * SettingKey)) (st : StoreState) : StoreState :=
  set_setting_cache (filter (λ kv, kv.1 ∉ ks)) (set_user_cache (filter (λ kv, kv.1 ∉ us)) st).
End settings.
