(* ===== verification/PlainCodec.v ===== *)
(** An executable codec for settings, which shows that the laws of [ProtoJSON] can
    hold: the text is the binary numeral of the encoding of the value.  Tag
    settings, with their floats, are refused. *)
From S2P Require Import Prelude GoLib Store UserSettings.

Fixpoint bits (p : positive) : string :=
  match p with
  | xH => ""
  | xO p => String "0" (bits p)
  | xI p => String "1" (bits p)
  end.
Fixpoint unbits (s : string) : option positive :=
  match s with
  | EmptyString => Some xH
  | String c s => if Ascii.eqb c "0" then xO <$> unbits s
                  else if Ascii.eqb c "1" then xI <$> unbits s else None
  end.

Lemma unbits_bits p : unbits (bits p) = Some p.
Proof. induction p as [p IH|p IH|]; cbn; by rewrite ?IH. Qed.

#[local] Instance client_countable : Countable ClientInfo.
Proof.
  refine (inj_countable'
    (λ c, (ci_user_agent c, ci_ip_address c, ci_device_type c, ci_os c, ci_browser c))
    (λ '(a, b, c, d, e), mkClientInfo a b c d e) ltac:(by intros [])).
Defined.
#[local] Instance refresh_countable : Countable RefreshToken.
Proof.
  refine (inj_countable'
    (λ t, (rt_id t, rt_expires_at t, rt_created_at t, rt_client t, rt_description t))
    (λ '(a, b, c, d, e), mkRefreshToken a b c d e) ltac:(by intros [])).
Defined.
#[local] Instance pat_countable : Countable PersonalAccessToken.
Proof.
  refine (inj_countable'
    (λ t, (pat_id t, pat_hash t, pat_description t, pat_expires_at t, pat_created_at t, pat_last_used_at t))
    (λ '(a, b, c, d, e, f), mkPAT a b c d e f) ltac:(by intros [])).
Defined.
#[local] Instance view_countable : Countable MemoView.
Proof.
  refine (inj_countable' (λ v, (mv_id v, mv_title v, mv_filter v))
    (λ '(a, b, c), mkView a b c) ltac:(by intros [])).
Defined.
#[local] Instance webhook_countable : Countable Webhook.
Proof.
  refine (inj_countable' (λ w, (wh_id w, wh_title w, wh_url w, wh_signing_secret w))
    (λ '(a, b, c, d), mkWebhook a b c d) ltac:(by intros [])).
Defined.
#[local] Instance general_countable : Countable GeneralUserSetting.
Proof.
  refine (inj_countable'
    (λ g, (gs_locale g, gs_memo_visibility g, gs_theme g, gs_save_media_metadata g))
    (λ '(a, b, c, d), mkGeneral a b c d) ltac:(by intros [])).
Defined.

Definition plain_marshal (v : SettingValue) : result error string :=
  match v with
  | VGeneral g => Ok (bits (encode g))
  | VMemoViews l => Ok (bits (encode l))
  | VWebhooks l => Ok (bits (encode l))
  | VRefreshTokens l => Ok (bits (encode l))
  | VPersonalAccessTokens l => Ok (bits (encode l))
  | VTags _ => Err (errorf0 "tags are not supported")
  end.

Definition decoded {A} `{Countable A} (mk : A → SettingValue) (s : string) : result error SettingValue :=
  match unbits s ≫= decode with
  | Some a => Ok (mk a)
  | None => Err (errorf0 "syntax error")
  end.

Definition plain_unmarshal (k : SettingKey) (s : string) : result error SettingValue :=
  match k with
  | GENERAL => decoded VGeneral s
  | MEMO_VIEWS => decoded VMemoViews s
  | WEBHOOKS => decoded VWebhooks s
  | REFRESH_TOKENS => decoded VRefreshTokens s
  | PERSONAL_ACCESS_TOKENS => decoded VPersonalAccessTokens s
  | _ => Err (errorf0 "syntax error")
  end.

#[export] Instance plain_codec : ProtoJSON.
Proof.
  refine {| Marshal := plain_marshal; Unmarshal := plain_unmarshal |}.
  - intros [] s [= <-]; cbn; unfold decoded; rewrite unbits_bits; cbn; by rewrite decode_encode.
  - intros [] s v; cbn; unfold decoded; try done;
      match goal with |- context [match ?o with Some _ => _ | None => _ end] => destruct o end;
      naive_solver.
Defined.

Example plain_codec_runs :
  let v := VPersonalAccessTokens [mkPAT "id" "hash" "" (Some 5%Z) None None] in
  match Marshal v with Ok s => Unmarshal PERSONAL_ACCESS_TOKENS s | Err e => Err e end = Ok v.
Proof. vm_compute. reflexivity. Qed.
