(* ===== verification/UserSettingsFacts.v ===== *)
(** Cached settings against the database: as long as requests come one after the
    other, every list behaves as if it were changed in place, whatever the caches
    drop; and what goes wrong when a read and a write overlap. *)
From S2P Require Import Prelude GoLib Store SpaceStore SpaceStoreFacts SpaceSafety UserSettings.

Section facts.
Context `{ProtoJSON}.

(** ** What is stored *)

Definition stored (d : DB) (u : Z) (k : SettingKey) : option SettingValue :=
  raw ← user_settings d !! (u, key_string k);
  match Unmarshal k raw with Ok v => Some v | Err _ => None end.

(** The caches agree with the database, and every row can be read. *)
Record settings_inv (st : StoreState) : Prop := {
  si_user u row : userCache st !! u = Some row → users (db st) !! u = Some row;
  si_setting u k s : userSettingCache st !! (u, k) = Some s →
    k ≠ KEY_UNSPECIFIED ∧ st_user s = u ∧ st_key s = k ∧ stored (db st) u k = Some (st_value s);
  si_rows u key raw : user_settings (db st) !! (u, key) = Some raw →
    ∃ k v, key = key_string k ∧ k ≠ KEY_UNSPECIFIED ∧ Unmarshal k raw = Ok v;
}.

Lemma key_of_key_string k : key_of_string (key_string k) = k.
Proof. by destruct k. Qed.

#[global] Instance key_string_inj : Inj (=) (=) key_string.
Proof. intros k1 k2 E. by rewrite <- (key_of_key_string k1), E, key_of_key_string. Qed.

Lemma matches_one u k key :
  k ≠ KEY_UNSPECIFIED → matches_setting (Some u) k key = true ↔ key = (u, key_string k).
Proof.
  intros Hk. unfold matches_setting, matches_opt. destruct key as [u' key]. cbn.
  rewrite andb_true_iff, orb_true_iff, !bool_decide_eq_true, String.eqb_eq. naive_solver.
Qed.

Lemma filter_one {V} (m : gmap (Z * string) V) (P : (Z * string) * V → Prop)
    `{∀ x, Decision (P x)} i :
  (∀ kv, P kv ↔ kv.1 = i) →
  filter P m = match m !! i with Some x => {[i := x]} | None => ∅ end.
Proof.
  intros HP. apply map_eq. intros j. apply option_eq. intros y.
  rewrite map_lookup_filter_Some, HP. cbn. destruct (m !! i) as [x|] eqn:E.
  - rewrite lookup_singleton_Some. naive_solver.
  - rewrite lookup_empty. naive_solver.
Qed.

Lemma list_rows_one u k d :
  k ≠ KEY_UNSPECIFIED →
  list_rows (Some u) k d =
    match user_settings d !! (u, key_string k) with Some raw => [mkRaw u k raw] | None => [] end.
Proof.
  intros Hk. unfold list_rows. rewrite (filter_one _ _ (u, key_string k)).
  - destruct (user_settings d !! _); [|by rewrite map_to_list_empty].
    rewrite map_to_list_singleton. cbn. by rewrite key_of_key_string.
  - intros kv. by apply matches_one.
Qed.

Lemma from_raw u k raw v :
  k ≠ KEY_UNSPECIFIED → Unmarshal k raw = Ok v →
  convertUserSettingFromRaw (mkRaw u k raw) = Ok (Some (mkSetting u k v)).
Proof. intros Hk Hv. unfold convertUserSettingFromRaw. cbn. destruct k; try done; by rewrite Hv. Qed.

Lemma to_raw u k v :
  k ≠ KEY_UNSPECIFIED →
  convertUserSettingToRaw (mkSetting u k v) =
    match Marshal v with
    | Ok s => Ok (mkRaw u k s)
    | Err e => Err (if decide (k = TAGS) then Wrap e "marshal tags user setting" else e)
    end.
Proof. intros Hk. unfold convertUserSettingToRaw. cbn. destruct k; try done; by destruct (Marshal v). Qed.

(** ** Reading *)

Lemma cache_setting_inv st u k v :
  settings_inv st → k ≠ KEY_UNSPECIFIED → stored (db st) u k = Some v →
  settings_inv (set_setting_cache <[(u, k) := mkSetting u k v]> st).
Proof.
  intros [I1 I2 I3] Hk Hv. split; [done| |done]. intros u' k' s. cbn.
  intros [[[= <- <-] <-]|[_ Hs]]%lookup_insert_Some; [done|by apply I2].
Qed.

(** A read answers what is stored, through the cache or not, and leaves it in
    the cache. *)
Lemma GetUserSetting_spec st u k :
  settings_inv st → k ≠ KEY_UNSPECIFIED →
  ∃ st', GetUserSetting (Some u) k st = (Ok (mkSetting u k <$> stored (db st) u k), st') ∧
    db st' = db st ∧ settings_inv st' ∧
    userSettingCache st' !! (u, k) = mkSetting u k <$> stored (db st) u k.
Proof.
  intros Hinv Hk. unfold GetUserSetting. rewrite st_bind. cbn [read mbind option_bind].
  destruct (userSettingCache st !! (u, k)) as [s|] eqn:Hc.
  - destruct (si_setting _ Hinv u k s Hc) as (_ & Hu & Hkey & Hv). exists st. rewrite Hv. cbn.
    destruct s as [u' k' v]. cbn in *. subst. by split_and!.
  - unfold ListUserSettings. rewrite !st_bind. cbn [read]. rewrite list_rows_one by done.
    unfold stored. destruct (user_settings (db st) !! (u, key_string k)) as [raw|] eqn:Hr.
    + destruct (si_rows _ Hinv _ _ _ Hr) as (k' & v & <-%(inj key_string) & _ & Hv).
      assert (stored (db st) u k = Some v) as Hst by (unfold stored; rewrite Hr; cbn; by rewrite Hv).
      cbn [convert_rows]. rewrite st_bind. unfold st_lift. rewrite (from_raw _ _ _ v) by done. cbn.
      rewrite Hv. eexists. split; [reflexivity|]. cbn. split; [done|].
      split; [|by rewrite lookup_insert_eq].
      apply cache_setting_inv; [|done|done]. by apply cache_setting_inv.
    + cbn. exists st. split_and!; try done.
Qed.

(** ** Writing *)

Lemma stored_upsert d u k v raw u' k' :
  Marshal v = Ok raw → kind v = k →
  stored (set_settings <[(u, key_string k) := raw]> d) u' k' =
  if decide ((u', k') = (u, k)) then Some v else stored d u' k'.
Proof.
  intros Hm Hkind. unfold stored. cbn. destruct (decide ((u', k') = (u, k))) as [[= -> ->]|Hne].
  - rewrite lookup_insert_eq. cbn. rewrite <- Hkind at 1. by rewrite (Unmarshal_Marshal v raw Hm).
  - rewrite lookup_insert_ne; [done|]. intros [= -> ?%(inj key_string)]. by subst.
Qed.

Lemma driver_upsert raw st :
  driver (upsert_row true raw) st =
    (Ok tt, set_db (set_settings <[(raw_user raw, key_string (raw_key raw)) := raw_value raw]>) st).
Proof. reflexivity. Qed.

(** The accounts are untouched. *)
Definition same_users (d d' : DB) : Prop := users d' = users d ∧ next_user d' = next_user d.

(** A write fails and changes nothing, or stores and caches the value. *)
Lemma UpsertUserSetting_spec up st u v :
  settings_inv st →
  (∃ e, UpsertUserSetting up (mkSetting u (kind v) v) st = (Err e, st) ∧
        (up = false ∨ ∃ e', Marshal v = Err e')) ∨
  ∃ st', UpsertUserSetting up (mkSetting u (kind v) v) st = (Ok (mkSetting u (kind v) v), st') ∧
    settings_inv st' ∧ same_users (db st) (db st') ∧
    ∀ u' k, stored (db st') u' k =
            if decide ((u', k) = (u, kind v)) then Some v else stored (db st) u' k.
Proof.
  intros Hinv. assert (kind v ≠ KEY_UNSPECIFIED) as Hk by by destruct v.
  unfold UpsertUserSetting. rewrite st_bind. unfold st_lift. rewrite to_raw by done.
  destruct (Marshal v) as [raw|e] eqn:Hm; [|left; eexists; split; [done|right; by eexists]].
  destruct up.
  2: { left. unfold driver, upsert_row, run. cbn. eexists. split; [|by left]. by destruct st. }
  right. unfold driver, upsert_row, run. cbn.
  rewrite (from_raw _ _ _ v) by (done || by apply Unmarshal_Marshal). cbn.
  eexists. split; [reflexivity|]. split; [|split; [done|]].
  2: { intros u' k. by apply stored_upsert. }
  destruct Hinv as [I1 I2 I3]. split; cbn; [done| |].
  - intros u' k s. intros [[[= <- <-] <-]|[Hne Hs]]%lookup_insert_Some; cbn.
    + rewrite (stored_upsert _ _ _ v) by done. by rewrite decide_True.
    + rewrite (stored_upsert _ _ _ v) by done. rewrite decide_False by congruence. by apply I2.
  - intros u' key raw'. intros [[[= <- <-] <-]|[_ Hr]]%lookup_insert_Some; [|by eapply I3].
    exists (kind v), v. split; [done|]. split; [done|]. by apply Unmarshal_Marshal.
Qed.
(** ** Changes of the lists *)

Definition settings_view := Z → SettingKey → option SettingValue.

Definition upd (u : Z) (k : SettingKey) (v : SettingValue) (w : settings_view) : settings_view :=
  λ u' k', if decide ((u', k') = (u, k)) then Some v else w u' k'.

(** The outcome of a method: its success stores [w], its failure changes nothing,
    and the caches agree with the database either way. *)
Definition outcome {A} (m : ST A) (st : StoreState) (w : A → settings_view) : Prop :=
  ∃ r st', m st = (r, st') ∧ settings_inv st' ∧ same_users (db st) (db st') ∧
    ∀ u k, stored (db st') u k = match r with Ok a => w a u k | Err _ => stored (db st) u k end.

Lemma outcome_upsert up st u v :
  settings_inv st →
  outcome (UpsertUserSetting up (mkSetting u (kind v) v)) st (λ _, upd u (kind v) v (stored (db st))).
Proof.
  intros Hinv. destruct (UpsertUserSetting_spec up st u v Hinv) as [(e & E & _)|(st' & E & ? & ? & ?)];
    unfold outcome; rewrite E.
  - by eexists _, _.
  - eexists _, _. split; [done|]. done.
Qed.

Lemma outcome_ret {A} (a : A) st : settings_inv st → outcome (mret a) st (λ _, stored (db st)).
Proof. intros Hinv. by exists (Ok a), st. Qed.

Lemma outcome_bind_ret {A B} (m : ST A) (b : A → B) st w :
  outcome m st (λ _, w) → outcome (a ← m; mret (b a)) st (λ _, w).
Proof.
  intros (r & st' & E & Hi & Hu & Hw). exists (b <$> r), st'. rewrite st_bind, E.
  destruct r; by split_and!.
Qed.

Lemma outcome_wrap {A} msg (m : ST A) st w :
  outcome m st (λ _, w) → outcome (st_wrap msg m) st (λ _, w).
Proof.
  intros (r & st' & E & Hi & Hu & Hw). exists (wrap_err msg r), st'. unfold st_wrap. rewrite E.
  destruct r; by split_and!.
Qed.

(** What a read method followed by another method does. *)
Lemma outcome_get {A} u k (m : option UserSetting → ST A) st w :
  settings_inv st → k ≠ KEY_UNSPECIFIED →
  (∀ st', settings_inv st' → db st' = db st →
     userSettingCache st' !! (u, k) = mkSetting u k <$> stored (db st) u k →
     outcome (m (mkSetting u k <$> stored (db st) u k)) st' w) →
  outcome (s ← GetUserSetting (Some u) k; m s) st w.
Proof.
  intros Hinv Hk Hm. destruct (GetUserSetting_spec st u k Hinv Hk) as (st' & E & Hdb & Hinv' & Hc).
  destruct (Hm st' Hinv' Hdb Hc) as (r & st2 & E2 & ? & Hu & Hw). exists r, st2.
  rewrite st_bind, E. rewrite Hdb in Hu, Hw. by split_and!.
Qed.

Definition refresh_tokens (d : DB) (u : Z) : list RefreshToken :=
  from_setting GetRefreshTokens (mkSetting u REFRESH_TOKENS <$> stored d u REFRESH_TOKENS).
Definition pats (d : DB) (u : Z) : list PersonalAccessToken :=
  from_setting GetPersonalAccessTokens
    (mkSetting u PERSONAL_ACCESS_TOKENS <$> stored d u PERSONAL_ACCESS_TOKENS).
Definition webhooks (d : DB) (u : Z) : list Webhook :=
  from_setting GetWebhooks (mkSetting u WEBHOOKS <$> stored d u WEBHOOKS).
Definition memo_views (d : DB) (u : Z) : list MemoView :=
  from_setting GetMemoViews (mkSetting u MEMO_VIEWS <$> stored d u MEMO_VIEWS).

(** Reading a list and writing it back changed. *)
Lemma outcome_edit {A} up st u k (get : UserSetting → list A) (mk : list A → SettingValue)
    (f : list A → list A) :
  (∀ l, kind (mk l) = k) → k ≠ KEY_UNSPECIFIED → settings_inv st →
  outcome (s ← GetUserSetting (Some u) k;
           _ ← UpsertUserSetting up (mkSetting u k (mk (f (from_setting get s)))); mret tt) st
    (λ _, upd u k (mk (f (from_setting get (mkSetting u k <$> stored (db st) u k))))
            (stored (db st))).
Proof.
  intros Hk Hu Hinv. apply outcome_get; [done..|]. intros st' Hinv' Hdb _. apply outcome_bind_ret.
  pose proof (outcome_upsert up st' u
    (mk (f (from_setting get (mkSetting u k <$> stored (db st) u k)))) Hinv') as Ho.
  rewrite Hk, Hdb in Ho. exact Ho.
Qed.

Lemma outcome_eq {A} (m m' : ST A) st w : m st = m' st → outcome m' st w → outcome m st w.
Proof. unfold outcome. by intros ->. Qed.

Ltac run_get :=
  cbv beta delta [GetUserRefreshTokens GetUserPersonalAccessTokens GetUserWebhooks GetUserMemoViews];
  rewrite ?st_bind; unfold st_wrap; rewrite ?st_bind;
  destruct (GetUserSetting _ _ _) as [[?|?] ?]; try reflexivity; cbn.

Lemma AddUserRefreshToken_spec up st u t :
  settings_inv st →
  outcome (AddUserRefreshToken up u t) st
    (λ _, upd u REFRESH_TOKENS (VRefreshTokens (refresh_tokens (db st) u ++ [t])) (stored (db st))).
Proof.
  intros Hinv. eapply outcome_eq; [|by apply (outcome_edit up st u _ GetRefreshTokens VRefreshTokens (λ l, l ++ [t]))].
  unfold AddUserRefreshToken. by run_get.
Qed.

Lemma RemoveUserRefreshToken_spec up st u id :
  settings_inv st →
  outcome (RemoveUserRefreshToken up u id) st
    (λ _, upd u REFRESH_TOKENS
            (VRefreshTokens (filter (λ t, rt_id t ≠ id) (refresh_tokens (db st) u))) (stored (db st))).
Proof.
  intros Hinv. eapply outcome_eq;
    [|by apply (outcome_edit up st u _ GetRefreshTokens VRefreshTokens (filter (λ t, rt_id t ≠ id)))].
  unfold RemoveUserRefreshToken. by run_get.
Qed.

Lemma AddUserPersonalAccessToken_spec up st u t :
  settings_inv st →
  outcome (AddUserPersonalAccessToken up u t) st
    (λ _, upd u PERSONAL_ACCESS_TOKENS (VPersonalAccessTokens (pats (db st) u ++ [t])) (stored (db st))).
Proof.
  intros Hinv. eapply outcome_eq;
    [|by apply (outcome_edit up st u _ GetPersonalAccessTokens VPersonalAccessTokens (λ l, l ++ [t]))].
  unfold AddUserPersonalAccessToken. by run_get.
Qed.

Lemma RemoveUserPersonalAccessToken_spec up st u id :
  settings_inv st →
  outcome (RemoveUserPersonalAccessToken up u id) st
    (λ _, upd u PERSONAL_ACCESS_TOKENS
            (VPersonalAccessTokens (filter (λ t, pat_id t ≠ id) (pats (db st) u))) (stored (db st))).
Proof.
  intros Hinv. eapply outcome_eq;
    [|by apply (outcome_edit up st u _ GetPersonalAccessTokens VPersonalAccessTokens (filter (λ t, pat_id t ≠ id)))].
  unfold RemoveUserPersonalAccessToken. by run_get.
Qed.

Lemma AddUserWebhook_spec up st u w :
  settings_inv st →
  outcome (AddUserWebhook up u w) st
    (λ _, upd u WEBHOOKS (VWebhooks (add_webhook w (webhooks (db st) u))) (stored (db st))).
Proof.
  intros Hinv. eapply outcome_eq; [|by apply (outcome_edit up st u _ GetWebhooks VWebhooks (add_webhook w))].
  unfold AddUserWebhook. by run_get.
Qed.

Lemma RemoveUserWebhook_spec up st u id :
  settings_inv st →
  outcome (RemoveUserWebhook up u id) st
    (λ _, upd u WEBHOOKS (VWebhooks (filter (λ w, wh_id w ≠ id) (webhooks (db st) u))) (stored (db st))).
Proof.
  intros Hinv. eapply outcome_eq;
    [|by apply (outcome_edit up st u _ GetWebhooks VWebhooks (filter (λ w, wh_id w ≠ id)))].
  unfold RemoveUserWebhook. by run_get.
Qed.

Lemma UpdatePATLastUsed_spec up st u id used :
  settings_inv st →
  outcome (UpdatePATLastUsed up u id used) st
    (λ _, match touch_pat id used (pats (db st) u) with
          | Some l => upd u PERSONAL_ACCESS_TOKENS (VPersonalAccessTokens l) (stored (db st))
          | None => stored (db st)
          end).
Proof.
  intros Hinv. eapply (outcome_eq _ (s ← GetUserSetting (Some u) PERSONAL_ACCESS_TOKENS;
    match touch_pat id used (from_setting GetPersonalAccessTokens s) with
    | None => mret tt
    | Some l => _ ← UpsertUserSetting up (mkSetting u PERSONAL_ACCESS_TOKENS (VPersonalAccessTokens l)); mret tt
    end)).
  { unfold UpdatePATLastUsed. by run_get. }
  apply outcome_get; [done..|]. intros st' Hinv' Hdb _. unfold pats.
  destruct (touch_pat _ _ _) as [l|].
  - apply outcome_bind_ret. rewrite <- Hdb.
    exact (outcome_upsert up st' u (VPersonalAccessTokens l) Hinv').
  - rewrite <- Hdb. by apply outcome_ret.
Qed.

Lemma memo_views_write up st u l :
  settings_inv st →
  outcome (upsertUserMemoViews up u l) st (λ _, upd u MEMO_VIEWS (VMemoViews l) (stored (db st))).
Proof.
  intros Hinv. unfold upsertUserMemoViews. apply outcome_bind_ret, outcome_wrap.
  exact (outcome_upsert up st u (VMemoViews l) Hinv).
Qed.

(** A method on the views: read, decide, write. *)
Lemma outcome_views {A} st u (m : list MemoView → ST A) (w : A → settings_view) :
  settings_inv st →
  (∀ st', settings_inv st' → db st' = db st → outcome (m (memo_views (db st) u)) st' w) →
  outcome (l ← st_wrap "get existing memo views" (GetUserMemoViews u); m l) st w.
Proof.
  intros Hinv Hm. destruct (GetUserSetting_spec st u MEMO_VIEWS Hinv) as (st' & E & Hdb & Hinv' & _); [done|].
  destruct (Hm st' Hinv' Hdb) as (r & st2 & E2 & ? & Hu & Hw). exists r, st2.
  unfold st_wrap, GetUserMemoViews. rewrite !st_bind. unfold st_wrap. rewrite E. cbn.
  rewrite Hdb in Hu, Hw. by split_and!.
Qed.

Lemma AddUserMemoView_spec up st u v :
  settings_inv st →
  outcome (AddUserMemoView up u v) st
    (λ _, upd u MEMO_VIEWS (VMemoViews (memo_views (db st) u ++ [v])) (stored (db st))).
Proof.
  intros Hinv. apply outcome_views; [done|]. intros st' Hinv' Hdb. rewrite <- Hdb.
  by apply outcome_wrap, memo_views_write.
Qed.

Definition edit_view (id : string) (title filter : option string) (v : MemoView) : MemoView :=
  if String.eqb (mv_id v) id then updated_view title filter v else v.

Definition has_view (id : string) (l : list MemoView) : bool :=
  existsb (λ v, String.eqb (mv_id v) id) l.

Lemma last_filter_view (id : string) (l : list MemoView) :
  is_Some (last (filter (λ v, mv_id v = id) l)) ↔ has_view id l = true.
Proof.
  unfold has_view. induction l as [|v l IH]; [split; [by intros []|done]|].
  cbn [existsb]. rewrite filter_cons. destruct (String.eqb_spec (mv_id v) id) as [Hv|Hv].
  - rewrite decide_True by done. rewrite last_cons. split; [done|]. intros _. by destruct (last _); eexists.
  - by rewrite decide_False.
Qed.

Lemma UpdateUserMemoView_spec up st u id title flt :
  settings_inv st →
  outcome (UpdateUserMemoView up u id title flt) st
    (λ _, if has_view id (memo_views (db st) u)
          then upd u MEMO_VIEWS (VMemoViews (edit_view id title flt <$> memo_views (db st) u))
                 (stored (db st))
          else stored (db st)).
Proof.
  intros Hinv. apply outcome_views; [done|]. intros st' Hinv' Hdb. rewrite <- Hdb.
  pose proof (last_filter_view id (memo_views (db st') u)) as Hl.
  destruct (last (filter _ _)) as [v|].
  - rewrite (proj1 Hl) by by eexists.
    apply (outcome_bind_ret _ (λ _, Some (updated_view title flt v))), outcome_wrap.
    exact (memo_views_write up st' u (edit_view id title flt <$> memo_views (db st') u) Hinv').
  - destruct (has_view _ _); [by destruct (proj2 Hl eq_refl)|]. by exists (Ok None), st'.
Qed.

Lemma RemoveUserMemoView_spec up st u id :
  settings_inv st →
  outcome (RemoveUserMemoView up u id) st
    (λ _, if has_view id (memo_views (db st) u)
          then upd u MEMO_VIEWS (VMemoViews (filter (λ v, mv_id v ≠ id) (memo_views (db st) u)))
                 (stored (db st))
          else stored (db st)).
Proof.
  intros Hinv. apply outcome_views; [done|]. intros st' Hinv' Hdb. rewrite <- Hdb.
  fold (has_view id (memo_views (db st') u)). destruct (has_view _ _); [|by exists (Ok false), st'].
  apply (outcome_bind_ret _ (λ _, true)), outcome_wrap.
  exact (memo_views_write up st' u (filter (λ v, mv_id v ≠ id) (memo_views (db st') u)) Hinv').
Qed.

(** ** The update of a webhook, which writes into the cached list *)

Lemma insert_over_alter {A} (f : A → A) (k : Z * SettingKey) (x : A) (m : gmap (Z * SettingKey) A) :
  <[k := x]> (alter f k m) = <[k := x]> m.
Proof.
  apply map_eq. intros j. destruct (decide (j = k)) as [->|Hne].
  - by rewrite !lookup_insert_eq.
  - by rewrite !lookup_insert_ne, lookup_alter_ne.
Qed.

Lemma UpsertUserSetting_over up st u v f :
  UpsertUserSetting up (mkSetting u (kind v) v)
    (set_setting_cache (alter f (u, kind v)) st) =
  match UpsertUserSetting up (mkSetting u (kind v) v) st with
  | (Ok s, st') => (Ok s, st')
  | (Err e, _) => (Err e, set_setting_cache (alter f (u, kind v)) st)
  end.
Proof.
  assert (kind v ≠ KEY_UNSPECIFIED) as Hk by by destruct v.
  unfold UpsertUserSetting. rewrite !st_bind. unfold st_lift. rewrite to_raw by done.
  destruct (Marshal v) as [raw|e] eqn:Hm; [|done].
  rewrite !st_bind. destruct up; [|done]. rewrite !driver_upsert, !st_bind.
  cbn [raw_user raw_key raw_value]. rewrite (from_raw _ _ _ v) by (done || by apply Unmarshal_Marshal).
  rewrite !st_bind. unfold cache_setting, modify, set_setting_cache, set_db. cbn.
  by rewrite insert_over_alter.
Qed.

(** If it fails, the database is as before, but the cache is not. *)
Lemma UpdateUserWebhook_spec up st u w :
  settings_inv st →
  ∃ r st', UpdateUserWebhook up u w st = (r, st') ∧ same_users (db st) (db st') ∧
    match r with
    | Ok _ => settings_inv st' ∧ ∀ u' k, stored (db st') u' k =
        upd u WEBHOOKS (VWebhooks (replace_webhook w (webhooks (db st) u))) (stored (db st)) u' k
    | Err _ => db st' = db st
    end.
Proof.
  intros Hinv. destruct (GetUserSetting_spec st u WEBHOOKS Hinv) as (st1 & E & Hdb & Hinv1 & _); [done|].
  unfold UpdateUserWebhook, GetUserWebhooks. rewrite !st_bind, E. cbn [mret ST_ret].
  unfold replace_in_place, modify. rewrite !st_bind. fold (webhooks (db st) u).
  set (l := replace_webhook w _).
  pose proof (UpsertUserSetting_over up st1 u (VWebhooks l) (replaced_setting w)) as Ho.
  cbn [kind] in Ho. rewrite Ho. clear Ho.
  destruct (UpsertUserSetting_spec up st1 u (VWebhooks l) Hinv1)
    as [(e & E1 & _)|(st2 & E1 & Hinv2 & Hu & Hw)]; cbn in E1; rewrite E1.
  - eexists _, _. split; [reflexivity|]. cbn. by rewrite Hdb.
  - eexists _, _. split; [reflexivity|]. rewrite Hdb in Hu, Hw. split_and!; [done..|].
    intros u' k. by rewrite Hw.
Qed.
End facts.
