(* ===== verification/SettingsSafety.v ===== *)
(** Histories of requests on settings, tokens and users: one after the other they
    behave like changes of plain lists, whatever the caches drop.  Overlapping
    requests do not: a read that overlaps a write can leave the old list in the
    cache, from where the next write stores it again. *)
From S2P Require Import Prelude GoLib Store SpaceStore SpaceStoreFacts SpaceSafety UserSettings UserSettingsFacts.

Section histories.
Context `{ProtoJSON}.

(** ** Listing and deleting *)

Lemma convert_rows_spec rows : ∀ st,
  settings_inv st →
  Forall (λ r, raw_key r ≠ KEY_UNSPECIFIED ∧ ∃ v, Unmarshal (raw_key r) (raw_value r) = Ok v ∧
            stored (db st) (raw_user r) (raw_key r) = Some v) rows →
  ∃ l st', convert_rows rows st = (Ok l, st') ∧ db st' = db st ∧ settings_inv st' ∧
    (λ s, (st_user s, st_key s)) <$> l = (λ r, (raw_user r, raw_key r)) <$> rows.
Proof.
  induction rows as [|r rows IH]; intros st Hinv Hrows; cbn [convert_rows].
  { by exists [], st. }
  apply Forall_cons in Hrows as [(Hk & v & Hv & Hst) Hrows]. destruct r as [u k raw]. cbn in *.
  destruct (IH (set_setting_cache <[(u, k) := mkSetting u k v]> st)) as (l & st' & E & Hdb & Hinv' & Hl).
  { by apply cache_setting_inv. }
  { exact Hrows. }
  exists (mkSetting u k v :: l), st'. rewrite st_bind. unfold st_lift.
  rewrite (from_raw _ _ _ v) by done. rewrite !st_bind. unfold cache_setting, modify.
  cbn [st_user st_key]. rewrite st_bind, E. split_and!; [done..|]. cbn. by rewrite Hl.
Qed.

Lemma list_rows_ok st user key :
  settings_inv st →
  Forall (λ r, raw_key r ≠ KEY_UNSPECIFIED ∧ ∃ v, Unmarshal (raw_key r) (raw_value r) = Ok v ∧
            stored (db st) (raw_user r) (raw_key r) = Some v) (list_rows user key (db st)).
Proof.
  intros Hinv. apply Forall_forall. intros r Hr. unfold list_rows in Hr.
  apply list_elem_of_fmap in Hr as ([[u ks] raw] & -> & Hr). cbn.
  apply elem_of_map_to_list, map_lookup_filter_Some in Hr as [Hr _].
  destruct (si_rows _ Hinv _ _ _ Hr) as (k & v & -> & Hk & Hv). rewrite key_of_key_string.
  split; [done|]. exists v. split; [done|]. unfold stored. rewrite Hr. cbn. by rewrite Hv.
Qed.

Lemma list_rows_keys user key d u k :
  (u, k) ∈ ((λ r, (raw_user r, raw_key r)) <$> list_rows user key d) ↔
  ∃ ks raw, user_settings d !! (u, ks) = Some raw ∧ matches_setting user key (u, ks) = true ∧
            k = key_of_string ks.
Proof.
  unfold list_rows. rewrite list_elem_of_fmap. setoid_rewrite list_elem_of_fmap. split.
  - intros (r & [= -> ->] & ([[u' ks] raw] & -> & Hr)). cbn in *.
    apply elem_of_map_to_list, map_lookup_filter_Some in Hr as [Hr Hm]. by exists ks, raw.
  - intros (ks & raw & Hr & Hm & ->). exists (mkRaw u (key_of_string ks) raw). split; [done|].
    exists (u, ks, raw). split; [done|]. apply elem_of_map_to_list, map_lookup_filter_Some. done.
Qed.

Lemma fold_delete_lookup {A B} (f : B → Z * SettingKey) (l : list B) : ∀ (m : gmap (Z * SettingKey) A) i,
  fold_left (λ c x, delete (f x) c) l m !! i = if decide (i ∈ f <$> l) then None else m !! i.
Proof.
  induction l as [|x l IH]; intros m i; cbn [fold_left fmap list_fmap].
  - by rewrite decide_False by apply not_elem_of_nil.
  - rewrite IH. destruct (decide (i = f x)) as [->|Hne].
    + rewrite (decide_True (P := f x ∈ f x :: _)) by by left. rewrite lookup_delete_eq.
      by destruct (decide _).
    + rewrite lookup_delete_ne by done. apply decide_ext. rewrite elem_of_cons. tauto.
Qed.

(** Rows that are gone are forgotten by the cache, the others stay. *)
Lemma drop_rows_inv st gone f :
  settings_inv st →
  (∀ u ks, f (user_settings (db st)) !! (u, ks) =
     if gone u ks : bool then None else user_settings (db st) !! (u, ks)) →
  ∀ cache, (∀ u k, cache !! (u, k) = if gone u (key_string k) then None
                                     else userSettingCache st !! (u, k)) →
  settings_inv (mkState (set_settings f (db st)) (userCache st) cache) ∧
  ∀ u k, stored (set_settings f (db st)) u k = if gone u (key_string k) then None else stored (db st) u k.
Proof.
  intros [I1 I2 I3] Hf cache Hc.
  assert (∀ u k, stored (set_settings f (db st)) u k =
                 if gone u (key_string k) then None else stored (db st) u k) as Hst.
  { intros u k. unfold stored. cbn. rewrite Hf. by destruct (gone _ _). }
  split; [|done]. split; cbn; [done| |].
  - intros u k s. rewrite Hc, Hst. destruct (gone _ _); [done|]. apply I2.
  - intros u ks raw. rewrite Hf. destruct (gone _ _); [done|]. apply I3.
Qed.

Lemma delete_where_eq (c : Z * string → bool) (t : gmap (Z * string) string) i :
  delete_where (λ k _, c k) t !! i = if c i then None else t !! i.
Proof.
  unfold delete_where. apply option_eq. intros x. rewrite map_lookup_filter_Some. cbn.
  destruct (c i); naive_solver.
Qed.

Lemma DeleteUserSettings_spec st user key :
  settings_inv st →
  outcome (DeleteUserSettings user key) st
    (λ _ u k, if matches_setting user key (u, key_string k) then None else stored (db st) u k).
Proof.
  intros Hinv. destruct (convert_rows_spec (list_rows user key (db st)) st Hinv (list_rows_ok _ _ _ Hinv))
    as (l & st1 & E & Hdb & Hinv1 & Hl).
  unfold outcome, DeleteUserSettings, ListUserSettings. rewrite !st_bind. cbn [read]. rewrite E.
  eexists _, _. split; [reflexivity|]. cbn.
  destruct (drop_rows_inv st1 (λ u ks, matches_setting user key (u, ks))
    (delete_where (λ k _, matches_setting user key k)) Hinv1
    ltac:(intros; by rewrite delete_where_eq)
    (fold_left (λ c s, delete (st_user s, st_key s) c) l (userSettingCache st1))) as [Hinv2 Hst].
  - intros u k. rewrite (fold_delete_lookup (λ s, (st_user s, st_key s))). rewrite Hl.
    destruct (matches_setting user key (u, key_string k)) eqn:Hm.
    + destruct (decide _) as [|Hn]; [done|]. apply eq_None_not_Some. intros [s Hs].
      destruct (si_setting _ Hinv1 u k s Hs) as (_ & _ & _ & Hv). apply Hn, list_rows_keys.
      rewrite Hdb in Hv. unfold stored in Hv. destruct (user_settings (db st) !! _) as [raw|] eqn:Hr; [|done].
      exists (key_string k), raw. by rewrite key_of_key_string.
    + rewrite decide_False; [done|]. rewrite list_rows_keys. intros (ks & raw & Hr & Hm' & ->).
      destruct (si_rows _ Hinv _ _ _ Hr) as (k & _ & -> & _). rewrite key_of_key_string in Hm. congruence.
  - rewrite Hdb in *. split; [exact Hinv2|]. split; [done|]. intros u k. by rewrite Hst.
Qed.

(** ** Users *)

Lemma settings_inv_users st f g :
  settings_inv st → user_settings (f (db st)) = user_settings (db st) →
  (∀ u row, g (userCache st) !! u = Some row → users (f (db st)) !! u = Some row) →
  settings_inv (set_user_cache g (set_db f st)).
Proof.
  intros [I1 I2 I3] Hs Hu. split; cbn; [done| |].
  - intros u k s Hc. unfold stored. rewrite Hs. by apply I2.
  - intros u ks raw. rewrite Hs. apply I3.
Qed.

Lemma stored_same d d' u k : user_settings d' = user_settings d → stored d' u k = stored d u k.
Proof. unfold stored. by intros ->. Qed.

Lemma CreateUser_spec st create now :
  settings_inv st → us_description create = "" →
  (∀ u, is_Some (users (db st) !! u) → (u < next_user (db st))%Z) →
  ∃ r st', CreateUser create now st = (r, st') ∧ settings_inv st' ∧
    (∀ u k, stored (db st') u k = stored (db st) u k) ∧
    (∀ u row, users (db st) !! u = Some row → users (db st') !! u = Some row) ∧
    (∀ u, is_Some (users (db st') !! u) → (u < next_user (db st'))%Z).
Proof.
  intros Hinv Hd Hids. unfold CreateUser. rewrite st_bind. unfold driver, run.
  destruct (Driver.CreateUser create now (db st)) as [[id d]|e] eqn:E.
  2: { exists (Err e), st. split; [by destruct st|]. by split_and!. }
  unfold Driver.CreateUser in E. tx E.
  rewrite st_bind. cbn [read set_db db users set_users set_next]. rewrite lookup_insert_eq. cbn. eexists _, _. split; [reflexivity|].
  assert (∀ u r, users (db st) !! u = Some r → u ≠ next_user (db st)) as Hfresh.
  { intros u r Hr ->. specialize (Hids _ (ex_intro _ r Hr)). lia. }
  split_and!.
  - refine (settings_inv_users st (λ d, _) _ Hinv _ _); [done|]. cbn. rewrite Hd. intros u r.
    intros [[<- <-]|[Hne Hr]]%lookup_insert_Some; [by rewrite lookup_insert_eq|].
    rewrite lookup_insert_ne by done. by apply (si_user _ Hinv).
  - done.
  - cbn. intros u r Hr. rewrite lookup_insert_ne; [done|]. by specialize (Hfresh u r Hr).
  - cbn. intros u [r Hr]. apply lookup_insert_Some in Hr as [[<- _]|[_ Hr]]; [lia|].
    specialize (Hids u (ex_intro _ r Hr)). lia.
Qed.

Lemma UpdateUser_spec st upd :
  settings_inv st →
  ∃ r st', UpdateUser upd st = (r, st') ∧ settings_inv st' ∧
    (∀ u k, stored (db st') u k = stored (db st) u k) ∧
    (∀ u, is_Some (users (db st') !! u) → is_Some (users (db st) !! u)) ∧
    next_user (db st') = next_user (db st).
Proof.
  intros Hinv. unfold UpdateUser. rewrite st_bind. unfold driver, run.
  destruct (Driver.UpdateUser upd (db st)) as [[row d]|e] eqn:E.
  2: { exists (Err e), st. split; [by destruct st|]. by split_and!. }
  apply UserEffects.UpdateUser_Ok in E as (old & Hold & _ & -> & _).
  eexists _, _. split; [reflexivity|]. cbn. split_and!; [|done| |done].
  - refine (settings_inv_users st (λ d, _) _ Hinv _ _); [done|]. cbn. intros u r.
    intros [[<- <-]|[Hne Hr]]%lookup_insert_Some; [by rewrite lookup_insert_eq|].
    rewrite lookup_insert_ne by done. by apply (si_user _ Hinv).
  - intros u [r Hr]. apply lookup_insert_Some in Hr as [[<- _]|[_ Hr]]; by eexists.
Qed.

Lemma GetUser_spec st u :
  settings_inv st →
  ∃ st', GetUser u st = (Ok (users (db st) !! u), st') ∧ settings_inv st' ∧ db st' = db st.
Proof.
  intros Hinv. unfold GetUser. rewrite st_bind. cbn [read].
  destruct (userCache st !! u) as [row|] eqn:Hc.
  - rewrite (si_user _ Hinv u row Hc). by exists st.
  - rewrite st_bind. cbn [read]. destruct (users (db st) !! u) as [row|] eqn:Hu; [|by exists st].
    eexists. split; [reflexivity|]. split; [|by destruct st].
    refine (settings_inv_users st (λ d, d) _ Hinv _ _); [done|]. cbn. intros u' r.
    intros [[<- <-]|[_ Hr]]%lookup_insert_Some; [done|]. by apply (si_user _ Hinv).
Qed.

Lemma DeleteUser_spec st u fp :
  settings_inv st →
  ∃ r st', DeleteUser u fp st = (r, st') ∧ settings_inv st' ∧
    (∀ u' k, stored (db st') u' k = match r with
       | Ok _ => if bool_decide (u' = u ∧ is_Some (users (db st) !! u)) then None
                 else stored (db st) u' k
       | Err _ => stored (db st) u' k
       end) ∧
    (∀ u', is_Some (users (db st') !! u') → is_Some (users (db st) !! u')) ∧
    next_user (db st') = next_user (db st).
Proof.
  intros Hinv. unfold DeleteUser. rewrite st_bind. unfold driver, run.
  destruct (Driver.DeleteUser u fp (db st)) as [[res d]|e] eqn:E.
  2: { exists (Err e), st. split; [by destruct st|]. by split_and!. }
  apply UserEffects.DeleteUser_Ok in E as [(Hnone & -> & ->)|(Hsome & _ & _ & -> & ->)].
  - eexists _, _. split; [reflexivity|]. cbn. split_and!; [|intros u' k|done..].
    + destruct Hinv as [I1 I2 I3]. split; cbn; [|done..].
      intros u' r [_ Hr]%lookup_delete_Some. by apply I1.
    + rewrite bool_decide_false; [done|]. intros [_ [r Hr]]. congruence.
  - eexists _, _. split; [reflexivity|]. unfold deleteUserCache. cbn.
    set (keys := (λ kv : (Z * string) * string, kv.1.2) <$>
                   map_to_list (filter (λ kv, kv.1.1 = u) (user_settings (db st)))).
    destruct (drop_rows_inv st (λ u' _, (u' =? u)%Z) (delete_where (λ k _, (k.1 =? u)%Z)) Hinv
      ltac:(intros; by rewrite (delete_where_eq (λ k, (k.1 =? u)%Z)))
      (fold_left (λ c k, delete (u, key_of_string k) c) keys (userSettingCache st))) as [Hinv' Hst].
    { intros u' k. rewrite (fold_delete_lookup (λ k, (u, key_of_string k))).
      destruct (Z.eqb_spec u' u) as [->|Hne].
      - destruct (decide _) as [|Hn]; [done|]. apply eq_None_not_Some. intros [s Hs].
        destruct (si_setting _ Hinv u k s Hs) as (_ & _ & _ & Hv). apply Hn.
        unfold stored in Hv. destruct (user_settings (db st) !! _) as [raw|] eqn:Hr; [|done].
        apply list_elem_of_fmap. exists (key_string k). rewrite key_of_key_string. split; [done|].
        apply list_elem_of_fmap. exists (u, key_string k, raw). split; [done|].
        by apply elem_of_map_to_list, map_lookup_filter_Some.
      - rewrite decide_False; [done|]. intros (k' & [= -> _] & _)%list_elem_of_fmap. done. }
    split_and!; [| | |done].
    + destruct Hinv' as [I1 I2 I3], Hinv as [J1 _ _]. split; cbn; [|exact I2|exact I3].
      intros u' r [Hne Hr]%lookup_delete_Some. rewrite lookup_delete_ne by done. by apply J1.
    + intros u' k. etrans; [exact (Hst u' k)|]. cbn.
      destruct (Z.eqb_spec u' u) as [->|Hne]; [by rewrite bool_decide_true|].
      rewrite bool_decide_false; [done|]. by intros [? _].
    + intros u' [r [_ Hr]%lookup_delete_Some]. by eexists.
Qed.

Lemma evict_spec us ks st :
  settings_inv st → settings_inv (evict us ks st) ∧ db (evict us ks st) = db st.
Proof.
  intros [I1 I2 I3]. split; [|done]. split; cbn; [| |done].
  - intros u r [Hr _]%map_lookup_filter_Some. by apply I1.
  - intros u k s [Hs _]%map_lookup_filter_Some. by apply I2.
Qed.

(** ** Histories *)

Inductive setting_op :=
| OpRead (u : Z) (k : SettingKey)
| OpPutGeneral (u : Z) (g : GeneralUserSetting)
| OpPutTags (u : Z) (tags : gmap string UserTagMetadata)
| OpDeleteSettings (user : option Z) (k : SettingKey)
| OpAddRefreshToken (u : Z) (t : RefreshToken)
| OpRemoveRefreshToken (u : Z) (id : string)
| OpAddPAT (u : Z) (t : PersonalAccessToken)
| OpRemovePAT (u : Z) (id : string)
| OpUsePAT (u : Z) (id : string) (used : option Z)
| OpAddWebhook (u : Z) (w : Webhook)
| OpUpdateWebhook (u : Z) (w : Webhook)
| OpRemoveWebhook (u : Z) (id : string)
| OpAddView (u : Z) (v : MemoView)
| OpUpdateView (u : Z) (id : string) (title filter : option string)
| OpRemoveView (u : Z) (id : string)
| OpCreateUser (create : User) (now : Z)
| OpUpdateUser (upd : Driver.UpdateUserReq)
| OpDeleteUser (u : Z) (failpoint : bool)
| OpGetUser (u : Z)
| OpEvict (us : list Z) (ks : list (Z * SettingKey)).

Definition discard {A} (m : ST A) : ST unit := _ ← m; mret tt.

(** [up] is whether the database takes the write of the request, if any. *)
Definition serve_setting (up : bool) (o : setting_op) : ST unit :=
  match o with
  | OpRead u k => discard (GetUserSetting (Some u) k)
  | OpPutGeneral u g => discard (UpsertUserSetting up (mkSetting u GENERAL (VGeneral g)))
  | OpPutTags u tags => discard (UpsertUserSetting up (mkSetting u TAGS (VTags tags)))
  | OpDeleteSettings user k => DeleteUserSettings user k
  | OpAddRefreshToken u t => AddUserRefreshToken up u t
  | OpRemoveRefreshToken u id => RemoveUserRefreshToken up u id
  | OpAddPAT u t => AddUserPersonalAccessToken up u t
  | OpRemovePAT u id => RemoveUserPersonalAccessToken up u id
  | OpUsePAT u id used => UpdatePATLastUsed up u id used
  | OpAddWebhook u w => AddUserWebhook up u w
  | OpUpdateWebhook u w => UpdateUserWebhook up u w
  | OpRemoveWebhook u id => RemoveUserWebhook up u id
  | OpAddView u v => AddUserMemoView up u v
  | OpUpdateView u id title flt => discard (UpdateUserMemoView up u id title flt)
  | OpRemoveView u id => discard (RemoveUserMemoView up u id)
  | OpCreateUser create now => discard (CreateUser create now)
  | OpUpdateUser upd => discard (UpdateUser upd)
  | OpDeleteUser u fp => DeleteUser u fp
  | OpGetUser u => discard (GetUser u)
  | OpEvict us ks => modify (evict us ks)
  end.

(** The settings after a request that succeeds, as plain lists. *)
Definition after_op (o : setting_op) (d : DB) : settings_view :=
  let now := stored d in
  match o with
  | OpPutGeneral u g => upd u GENERAL (VGeneral g) now
  | OpPutTags u tags => upd u TAGS (VTags tags) now
  | OpDeleteSettings user k => λ u' k', if matches_setting user k (u', key_string k') then None else now u' k'
  | OpAddRefreshToken u t => upd u REFRESH_TOKENS (VRefreshTokens (refresh_tokens d u ++ [t])) now
  | OpRemoveRefreshToken u id =>
      upd u REFRESH_TOKENS (VRefreshTokens (filter (λ t, rt_id t ≠ id) (refresh_tokens d u))) now
  | OpAddPAT u t => upd u PERSONAL_ACCESS_TOKENS (VPersonalAccessTokens (pats d u ++ [t])) now
  | OpRemovePAT u id =>
      upd u PERSONAL_ACCESS_TOKENS (VPersonalAccessTokens (filter (λ t, pat_id t ≠ id) (pats d u))) now
  | OpUsePAT u id used =>
      match touch_pat id used (pats d u) with
      | Some l => upd u PERSONAL_ACCESS_TOKENS (VPersonalAccessTokens l) now
      | None => now
      end
  | OpAddWebhook u w => upd u WEBHOOKS (VWebhooks (add_webhook w (webhooks d u))) now
  | OpUpdateWebhook u w => upd u WEBHOOKS (VWebhooks (replace_webhook w (webhooks d u))) now
  | OpRemoveWebhook u id => upd u WEBHOOKS (VWebhooks (filter (λ w, wh_id w ≠ id) (webhooks d u))) now
  | OpAddView u v => upd u MEMO_VIEWS (VMemoViews (memo_views d u ++ [v])) now
  | OpUpdateView u id title flt =>
      if has_view id (memo_views d u)
      then upd u MEMO_VIEWS (VMemoViews (edit_view id title flt <$> memo_views d u)) now else now
  | OpRemoveView u id =>
      if has_view id (memo_views d u)
      then upd u MEMO_VIEWS (VMemoViews (filter (λ v, mv_id v ≠ id) (memo_views d u))) now else now
  | OpDeleteUser u _ => λ u' k, if bool_decide (u' = u ∧ is_Some (users d !! u)) then None else now u' k
  | _ => now
  end.

(** Keys are real ones, and new users have no description, as in the API. *)
Definition op_ok (o : setting_op) : Prop :=
  match o with
  | OpRead _ k => k ≠ KEY_UNSPECIFIED
  | OpCreateUser create _ => us_description create = ""
  | _ => True
  end.

(** An update of a webhook that fails leaves its webhook in the cache. *)
Definition leaves_clean (up : bool) (o : setting_op) (st : StoreState) : Prop :=
  match o with
  | OpUpdateWebhook _ _ => is_ok (serve_setting up o st).1 = true
  | _ => True
  end.

Inductive reached : StoreState → Prop :=
| reached_empty : reached (mkState empty_db ∅ ∅)
| reached_step st up o :
    reached st → op_ok o → leaves_clean up o st → reached (serve_setting up o st).2.

Definition fresh_users (d : DB) : Prop := ∀ u, is_Some (users d !! u) → (u < next_user d)%Z.

(** What serving a request comes to. *)
Definition served (up : bool) (o : setting_op) (st : StoreState) : Prop :=
  ∃ r st', serve_setting up o st = (r, st') ∧
    (leaves_clean up o st → settings_inv st') ∧ fresh_users (db st') ∧
    ∀ u k, stored (db st') u k = match r with Ok _ => after_op o (db st) u k | Err _ => stored (db st) u k end.

Lemma outcome_served {A} up o st (m : ST A) w :
  serve_setting up o = discard m ∨ (∃ m' : ST unit, serve_setting up o = m' ∧ ∀ st, discard m st = m' st) →
  fresh_users (db st) → outcome m st w →
  (∀ a u k, w a u k = after_op o (db st) u k) → served up o st.
Proof.
  intros Hm Hf (r & st' & E & Hi & [Hu Hn] & Hw) Hafter.
  assert (serve_setting up o st = (match r with Ok _ => Ok tt | Err e => Err e end, st')) as Es.
  { assert (discard m st = (match r with Ok _ => Ok tt | Err e => Err e end, st')) as Ed.
    { unfold discard. rewrite st_bind, E. by destruct r. }
    destruct Hm as [->|(m' & -> & Hm)]; [done|by rewrite <- Hm]. }
  eexists _, _. split; [exact Es|]. split; [done|]. split.
  - intros u Hi'. rewrite Hu in Hi'. rewrite Hn. by apply Hf.
  - intros u k. rewrite Hw. destruct r as [a|]; [apply Hafter|done].
Qed.

Lemma discard_unit (m : ST unit) st : discard m st = m st.
Proof. unfold discard. rewrite st_bind. by destruct (m st) as [[[]|] ?]. Qed.

Lemma outcome_served_unit up o st w :
  fresh_users (db st) → outcome (serve_setting up o) st w →
  (∀ a u k, w a u k = after_op o (db st) u k) → served up o st.
Proof.
  intros Hf Ho. apply (outcome_served up o st (serve_setting up o)); [|done|done].
  right. eexists. split; [done|]. intros st'. apply discard_unit.
Qed.

Lemma outcome_read st u k :
  settings_inv st → k ≠ KEY_UNSPECIFIED →
  outcome (GetUserSetting (Some u) k) st (λ _, stored (db st)).
Proof.
  intros Hi Hk. destruct (GetUserSetting_spec st u k Hi Hk) as (st' & E & Hdb & Hi' & _).
  exists (Ok (mkSetting u k <$> stored (db st) u k)), st'. rewrite Hdb. by split_and!.
Qed.

(** Requests on the lists. *)
Lemma serve_list_spec up o st :
  settings_inv st → fresh_users (db st) → op_ok o →
  match o with OpUpdateWebhook _ _ | OpCreateUser _ _ | OpUpdateUser _ | OpDeleteUser _ _ | OpGetUser _ | OpEvict _ _ => True
  | _ => served up o st end.
Proof.
  intros Hi Hf Hok. destruct o as [u k|u g|u tags|user k|u t|u id|u t|u id|u id used|u w|u w|u id|u v|u id title flt|u id| | | | |];
    try done.
  - eapply outcome_served; [by left|done|by apply outcome_read|done].
  - eapply outcome_served; [by left|done|exact (outcome_upsert up st u (VGeneral g) Hi)|done].
  - eapply outcome_served; [by left|done|exact (outcome_upsert up st u (VTags tags) Hi)|done].
  - eapply outcome_served_unit; [done|by apply DeleteUserSettings_spec|done].
  - eapply outcome_served_unit; [done|by apply AddUserRefreshToken_spec|done].
  - eapply outcome_served_unit; [done|by apply RemoveUserRefreshToken_spec|done].
  - eapply outcome_served_unit; [done|by apply AddUserPersonalAccessToken_spec|done].
  - eapply outcome_served_unit; [done|by apply RemoveUserPersonalAccessToken_spec|done].
  - eapply outcome_served_unit; [done|by apply UpdatePATLastUsed_spec|done].
  - eapply outcome_served_unit; [done|by apply AddUserWebhook_spec|done].
  - eapply outcome_served_unit; [done|by apply RemoveUserWebhook_spec|done].
  - eapply outcome_served_unit; [done|by apply AddUserMemoView_spec|done].
  - eapply outcome_served; [by left|done|by apply UpdateUserMemoView_spec|done].
  - eapply outcome_served; [by left|done|by apply RemoveUserMemoView_spec|done].
Qed.

(** Requests on accounts, and the rest. *)
Lemma serve_setting_spec up o st :
  settings_inv st → fresh_users (db st) → op_ok o → served up o st.
Proof.
  intros Hi Hf Hok. pose proof (serve_list_spec up o st Hi Hf Hok) as Hlist.
  destruct o as [u k|u g|u tags|user k|u t|u id|u t|u id|u id used|u w|u w|u id|u v|u id title flt|u id
    |create now|upd|u fp|u|us ks]; try exact Hlist; clear Hlist; unfold served; cbn [serve_setting].
  - destruct (UpdateUserWebhook_spec up st u w Hi) as (r & st' & E & [Hu Hn] & Hw).
    exists r, st'. split; [done|]. split; [|split].
    + cbn. rewrite E. by destruct r; [destruct Hw|].
    + intros u' Hu'. rewrite Hn. apply Hf. by rewrite <- Hu.
    + intros u' k. destruct r; [apply Hw|by rewrite Hw].
  - destruct (CreateUser_spec st create now Hi Hok Hf) as (r & st' & E & Hi' & Hs & _ & Hf').
    unfold discard. rewrite st_bind, E. destruct r as [a|e]; eexists _, _; (split; [reflexivity|]);
      by split_and!.
  - destruct (UpdateUser_spec st upd Hi) as (r & st' & E & Hi' & Hs & Hu & Hn).
    assert (fresh_users (db st')) as Hf' by (intros u Hu'; rewrite Hn; by apply Hf, Hu).
    unfold discard. rewrite st_bind, E. destruct r as [a|e]; eexists _, _; (split; [reflexivity|]);
      by split_and!.
  - destruct (DeleteUser_spec st u fp Hi) as (r & st' & E & Hi' & Hs & Hu & Hn).
    exists r, st'. split_and!; [done|done| |done]. intros u' Hu'. rewrite Hn. by apply Hf, Hu.
  - destruct (GetUser_spec st u Hi) as (st' & E & Hi' & Hdb).
    unfold discard. rewrite st_bind, E. eexists _, _. split; [reflexivity|].
    rewrite Hdb. by split_and!.
  - destruct (evict_spec us ks st Hi) as [Hi' Hdb]. eexists _, _. split; [reflexivity|].
    by split_and!.
Qed.

Lemma reached_inv st : reached st → settings_inv st ∧ fresh_users (db st).
Proof.
  induction 1 as [|st up o _ [Hi Hf] Hok Hclean].
  - split; [split; cbn|intros u [r Hr]]; try done; intros u; cbn in *; intros; simplify_map_eq.
  - destruct (serve_setting_spec up o st Hi Hf Hok) as (r & st' & E & Hi' & Hf' & _).
    rewrite E. split; [by apply Hi'|done].
Qed.

(** C33. Settings, tokens, webhooks and views behave as plain lists in the
    database, whatever the caches keep or drop.  After any history of requests,
    each served after the other, in which settings are read under real keys, users
    are created without a description, and no update of a webhook fails, a read of
    a setting or a user answers what the database holds (after a failed update of a
    webhook it does not: [SettingsRace.failed_webhook_update_shows]); and a further request either fails and changes no setting or
    succeeds and changes exactly the list it is about: a token is appended,
    the tokens with an id removed, the first one with an id marked as used unless
    by an older time, a webhook replaced or appended, and so on; deleting a user
    deletes all of the user's settings. *)
Theorem settings_refine_lists st :
  reached st →
  (∀ u k, k ≠ KEY_UNSPECIFIED → ∃ st', db st' = db st ∧
     GetUserSetting (Some u) k st = (Ok (mkSetting u k <$> stored (db st) u k), st')) ∧
  (∀ u, ∃ st', db st' = db st ∧ GetUser u st = (Ok (users (db st) !! u), st')) ∧
  ∀ up o, op_ok o → ∀ u k,
    stored (db (serve_setting up o st).2) u k =
      if is_ok (serve_setting up o st).1 then after_op o (db st) u k else stored (db st) u k.
Proof.
  intros [Hi Hf]%reached_inv. split; [|split].
  - intros u k Hk. destruct (GetUserSetting_spec st u k Hi Hk) as (st' & E & Hdb & _). by exists st'.
  - intros u. destruct (GetUser_spec st u Hi) as (st' & E & _ & Hdb). by exists st'.
  - intros up o Hok u k. destruct (serve_setting_spec up o st Hi Hf Hok) as (r & st' & E & _ & _ & Hw).
    rewrite E. cbn. rewrite Hw. by destruct r.
Qed.
End histories.

(** ** An example *)

From S2P Require Import PlainCodec.

(** Ada has two personal access tokens; the caches have dropped them. *)
Definition two_tokens : StoreState :=
  (serve_setting true (OpEvict [] [(1%Z, PERSONAL_ACCESS_TOKENS)])
    (serve_setting true (OpAddPAT 1 (mkPAT "b" "hash-b" "" None None None))
      (serve_setting true (OpAddPAT 1 (mkPAT "a" "hash-a" "" None None None))
        (serve_setting true (OpCreateUser (example_user "ada") 1) (mkState empty_db ∅ ∅)).2).2).2).2.

Lemma two_tokens_reached : reached two_tokens.
Proof. do 4 (apply reached_step; [|done|done]). apply reached_empty. Qed.

Lemma settings_refine_lists_witness :
  stored (db two_tokens) 1 PERSONAL_ACCESS_TOKENS =
    Some (VPersonalAccessTokens [mkPAT "a" "hash-a" "" None None None; mkPAT "b" "hash-b" "" None None None]) ∧
  ∀ u k, stored (db (serve_setting true (OpRemovePAT 1 "a") two_tokens).2) u k =
    upd 1 PERSONAL_ACCESS_TOKENS (VPersonalAccessTokens [mkPAT "b" "hash-b" "" None None None])
      (stored (db two_tokens)) u k.
Proof.
  split; [vm_compute; reflexivity|]. intros u k.
  rewrite (proj2 (proj2 (settings_refine_lists two_tokens two_tokens_reached)) true (OpRemovePAT 1 "a") I u k).
  vm_compute (is_ok _). unfold after_op.
  replace (filter (λ t, pat_id t ≠ "a") (pats (db two_tokens) 1))
    with [mkPAT "b" "hash-b" "" None None None] by (vm_compute; reflexivity).
  reflexivity.
Defined.
