(* ===== verification/UserAgent.v ===== *)
(** What a handler makes of the headers of a request: the description of the
    client ([extractClientInfo], [parseUserAgent]) and whether the request came
    over TLS ([isSecureRequest]), from [auth_service_session.go].  Slices are
    checked: out of range they panic.  The case tables of [unicode] are the
    parameter [GoUnicode]. *)
From S2P Require Import Prelude GoLib GoTime GoText Store UserSettings.
Import Text.

(** The incoming gRPC metadata, by key. *)
Record Metadata := mkMetadata {
  md_user_agent : list string; md_origin : list string; md_forwarded_for : list string;
  md_forwarded_proto : list string; md_real_ip : list string; md_forwarded : list string;
  md_cookie : list string }.

(** ** parseUserAgent *)

Definition set_device (d : string) (c : ClientInfo) : ClientInfo :=
  mkClientInfo (ci_user_agent c) (ci_ip_address c) d (ci_os c) (ci_browser c).
Definition set_os (o : string) (c : ClientInfo) : ClientInfo :=
  mkClientInfo (ci_user_agent c) (ci_ip_address c) (ci_device_type c) o (ci_browser c).
Definition set_browser (b : string) (c : ClientInfo) : ClientInfo :=
  mkClientInfo (ci_user_agent c) (ci_ip_address c) (ci_device_type c) (ci_os c) b.

Definition device_type (ua : string) : string :=
  if contains ua "ipad" || contains ua "tablet" then "tablet"
  else if contains ua "mobile" || contains ua "android" || contains ua "iphone" || contains ua "ipod"
          || contains ua "windows phone" || contains ua "blackberry" then "mobile"
  else "desktop".

(** The version after [marker], up to the first of [ends]; if there is no end,
    up to the end of the text when [open].  [None]: no version. *)
Fixpoint find_end (ends : list string) (rest : string) : option nat :=
  match ends with
  | [] => None
  | e :: ends => match index e rest with Some i => Some i | None => find_end ends rest end
  end.
Definition version_at (ua : string) (marker : string) (idx : nat) (ends : list string) (open : bool)
  : result error (option string) :=
  let versionStart := (idx + String.length marker)%nat in
  rest ← slice_from versionStart ua;
  let versionEnd := match find_end ends rest with
    | Some i => Some i
    | None => if open then Some (String.length ua - versionStart)%nat else None
    end in
  match versionEnd with
  | None => Ok None
  | Some n => v ← slice versionStart (versionStart + n) ua; Ok (Some v)
  end.

(** The name alone where there is no marker or no version. *)
Definition named_version (ua name marker : string) (ends : list string) (open dots : bool)
  : result error string :=
  match index marker ua with
  | None => Ok name
  | Some idx =>
      v ← version_at ua marker idx ends open;
      match v with
      | None => Ok name
      | Some v => Ok (name +:+ " " +:+ (if dots then replace_byte "_" "." v else v))
      end
  end.

(** [None]: the system is left as it was. *)
Definition operating_system (ua : string) : result error (option string) :=
  if contains ua "iphone os" || contains ua "cpu os" then
    match index "cpu os " ua with
    | Some _ => Some <$> named_version ua "iOS" "cpu os " [" "] false true
    | None => Some <$> named_version ua "iOS" "iphone os " [" "] false true
    end
  else if contains ua "android" then Some <$> named_version ua "Android" "android " [";"; ")"] false false
  else if contains ua "windows nt 10.0" then Ok (Some "Windows 10/11")
  else if contains ua "windows nt 6.3" then Ok (Some "Windows 8.1")
  else if contains ua "windows nt 6.1" then Ok (Some "Windows 7")
  else if contains ua "windows" then Ok (Some "Windows")
  else if contains ua "mac os x" then Some <$> named_version ua "macOS" "mac os x " [";"; ")"] false true
  else if contains ua "linux" then Ok (Some "Linux")
  else if contains ua "cros" then Ok (Some "Chrome OS")
  else Ok None.

Definition browser (ua : string) : result error (option string) :=
  if contains ua "edg/" then Some <$> named_version ua "Edge" "edg/" [" "] true false
  else if contains ua "chrome/" && negb (contains ua "edg") then
    Some <$> named_version ua "Chrome" "chrome/" [" "] true false
  else if contains ua "firefox/" then Some <$> named_version ua "Firefox" "firefox/" [" "] true false
  else if contains ua "safari/" && negb (contains ua "chrome") && negb (contains ua "edg") then
    Some <$> named_version ua "Safari" "version/" [" "] true false
  else if contains ua "opera/" || contains ua "opr/" then Ok (Some "Opera")
  else Ok None.

Section client.
Context `{GoUnicode}.

Definition parseUserAgent (userAgent : string) (c : ClientInfo) : result error ClientInfo :=
  if String.eqb userAgent "" then Ok c
  else
    let ua := ToLower userAgent in
    let c := set_device (device_type ua) c in
    os ← operating_system ua;
    b ← browser ua;
    let c := match os with Some o => set_os o c | None => c end in
    Ok (match b with Some b => set_browser b c | None => c end).

Definition extractClientInfo (md : option Metadata) : result error ClientInfo :=
  let c := mkClientInfo "" "" "" "" "" in
  match md with
  | None => Ok c
  | Some md =>
      c ← match md_user_agent md with
          | ua :: _ => parseUserAgent ua (mkClientInfo ua "" "" "" "")
          | [] => Ok c
          end;
      let ip := match md_forwarded_for md with
        | f :: _ => Str.trim_space (default "" (head (Str.split_on "," f)))
        | [] => default "" (head (md_real_ip md))
        end in
      Ok (mkClientInfo (ci_user_agent c) ip (ci_device_type c) (ci_os c) (ci_browser c))
  end.

(** ** isSecureRequest *)

Definition isSecureRequest (md : option Metadata) : bool :=
  match md with
  | None => false
  | Some md =>
      existsb (λ value, existsb (λ proto, equal_fold "https" (Str.trim_space proto)) (Str.split_on "," value))
        (md_forwarded_proto md) ||
      existsb (λ value, contains (ToLower value) "proto=https") (md_forwarded md) ||
      existsb (λ value, Str.has_prefix "https://" (ToLower (Str.trim_space value))) (md_origin md)
  end.
End client.

(** ** Lemmas *)

Lemma substring_drop_length n s : (n ≤ String.length s)%nat → String.length (Str.drop n s) = (String.length s - n)%nat.
Proof.
  revert n. induction s as [|c s IH]; intros [|n] Hn; cbn in *; try done. apply IH. lia.
Qed.

Lemma prefix_length p : ∀ s, String.prefix p s = true → (String.length p ≤ String.length s)%nat.
Proof.
  induction p as [|c p IH]; intros [|d s]; cbn; try done; [lia|].
  destruct (ascii_dec c d); [|done]. intros Hp%IH. lia.
Qed.

Lemma index_bound sub : ∀ s i, index sub s = Some i → (i + String.length sub ≤ String.length s)%nat.
Proof.
  induction s as [|c s IH]; intros i; cbn [index]; destruct (String.prefix sub _) eqn:Hp.
  1, 3: intros [= <-]; apply prefix_length in Hp; cbn in *; lia.
  - done.
  - intros (j & Hj & ->)%fmap_Some. apply IH in Hj. cbn. lia.
Qed.

Lemma find_end_bound ends rest i : find_end ends rest = Some i → (i ≤ String.length rest)%nat.
Proof.
  induction ends as [|e ends IH]; [done|]. cbn. destruct (index e rest) as [j|] eqn:Hj; [|done].
  intros [= <-]. apply index_bound in Hj. lia.
Qed.

Lemma version_at_ok ua marker idx ends open :
  index marker ua = Some idx → is_ok (version_at ua marker idx ends open) = true.
Proof.
  intros Hidx%index_bound. unfold version_at, slice_from.
  rewrite (proj2 (Nat.leb_le _ _)) by lia. cbn [mbind result_bind].
  assert (∀ n, (n ≤ String.length ua - (idx + String.length marker))%nat →
    is_ok (v ← slice (idx + String.length marker) (idx + String.length marker + n) ua; Ok (Some v)) = true) as Hs.
  { intros n Hn. unfold slice. by rewrite !(proj2 (Nat.leb_le _ _)) by lia. }
  destruct (find_end ends _) as [n|] eqn:Hn.
  - apply find_end_bound in Hn. rewrite substring_drop_length in Hn by lia. by apply Hs.
  - destruct open; [by apply Hs|done].
Qed.

Lemma named_version_ok ua name marker ends open dots :
  is_ok (named_version ua name marker ends open dots) = true.
Proof.
  unfold named_version. destruct (index marker ua) as [idx|] eqn:Hidx; [|done].
  pose proof (version_at_ok ua marker idx ends open Hidx) as Hv.
  destruct (version_at _ _ _ _ _) as [[v|]|]; done.
Qed.

Lemma fmap_is_ok {A B} (f : A → B) (m : result error A) : is_ok (f <$> m) = is_ok m.
Proof. by destruct m. Qed.

Lemma operating_system_ok ua : is_ok (operating_system ua) = true.
Proof.
  unfold operating_system.
  repeat (destruct (_ || _) || destruct (contains _ _)); try (destruct (index _ _));
    rewrite ?fmap_is_ok, ?named_version_ok; done.
Qed.

Lemma browser_ok ua : is_ok (browser ua) = true.
Proof.
  unfold browser.
  repeat (destruct (_ && _) || destruct (_ || _) || destruct (contains _ _));
    rewrite ?fmap_is_ok, ?named_version_ok; done.
Qed.

(** No header makes the description of the client slice out of range. *)
Lemma extractClientInfo_ok `{GoUnicode} md : is_ok (extractClientInfo md) = true.
Proof.
  destruct md as [[[|ua l] og ff fp ri fw ck]|]; [done| |done]. cbn -[parseUserAgent].
  assert (is_ok (parseUserAgent ua (mkClientInfo ua "" "" "" "")) = true) as Hok.
  { unfold parseUserAgent. destruct (String.eqb ua ""); [done|].
    pose proof (operating_system_ok (ToLower ua)). pose proof (browser_ok (ToLower ua)).
    by destruct (operating_system _), (browser _). }
  by destruct (parseUserAgent _ _).
Qed.
