(* ===== verification/Auth.v ===== *)
(** * Authentication of requests

    [server/auth]: signed access and refresh tokens, personal access tokens, and
    the resolution of the credentials of a request into a user.  The JWT library
    is the parameter [JWT], with the documented behaviour of signing and parsing
    as its laws; the server's [secret] and the clock [now], in nanoseconds, are
    arguments, and every look at the clock of one request answers the same time.
    Recording the use of a personal access token runs in a goroutine of its own:
    it is the request [OpUsePAT] of [SettingsSafety]. *)
From S2P Require Import Prelude GoLib GoTime GoText Sha256 ResourceName Store SpaceStore UserSettings.

(** ** token.go *)

Definition Issuer := "memos".
Definition KeyID := "v1".
Definition AccessTokenAudienceName := "user.access-token".
Definition AccessTokenDuration : Z := (15 * Time.minute)%Z.
Definition RefreshTokenDuration : Z := (30 * 24 * 60 * Time.minute)%Z.
Definition RefreshTokenAudienceName := "user.refresh-token".
Definition RefreshTokenCookieName := "memos_refresh".
Definition PersonalAccessTokenPrefix := "memos_pat_".

(** The header of a token and [jwt.RegisteredClaims]; dates are in seconds. *)
Record Header := mkHeader { hd_alg : string; hd_kid : option string }.
Record RegisteredClaims := mkRegistered {
  rc_issuer : string; rc_audience : list string; rc_subject : string;
  rc_issued_at : option Z; rc_not_before : option Z; rc_expires_at : option Z }.
(** What a token carries: the registered claims and the other members by their
    JSON names. *)
Record TokenClaims := mkTokenClaims {
  tc_registered : RegisteredClaims; tc_members : list (string * string) }.

(** What the parser checks, without leeway. *)
Definition claims_valid (issuer audience : string) (now : Z) (c : TokenClaims) : Prop :=
  let r := tc_registered c in
  rc_issuer r = issuer ∧ audience ∈ rc_audience r ∧
  (∀ e, rc_expires_at r = Some e → (now < e * Time.second)%Z) ∧
  (∀ n, rc_not_before r = Some n → (n * Time.second ≤ now)%Z).

(** The compact form of a token: base64url text, whose first byte is the brace of
    a JSON object, and dots. *)
Definition compact (tok : string) : Prop :=
  Str.has_prefix "ey" tok = true ∧ Cookie.all_bytes Cookie.is_token_byte tok = true.

(** [golang-jwt]: signing with HS256 and a key of bytes does not fail; a token that
    was signed decodes to what was signed and verifies
    with its key; [ParseWithClaims] accepts the tokens that verify with the key
    its [Keyfunc] answers for their header and whose claims are valid. *)
Class JWT := {
  NewNumericDate : Z → Z;
  SignedString : Header → TokenClaims → string → result error string;
  ParseWithClaims : string → (Header → result error string) → string → string → Z →
                    result error TokenClaims;
  decoded : string → option (Header * TokenClaims);
  verifies : string → string → bool;
  NewNumericDate_seconds t :
    (NewNumericDate t * Time.second ≤ t < NewNumericDate t * Time.second + Time.second)%Z;
  SignedString_ok h c key : ∃ tok, SignedString h c key = Ok tok;
  SignedString_spec h c key tok :
    SignedString h c key = Ok tok → decoded tok = Some (h, c) ∧ verifies tok key = true ∧ compact tok;
  ParseWithClaims_spec tok kf issuer audience now c :
    ParseWithClaims tok kf issuer audience now = Ok c ↔
    ∃ h key, decoded tok = Some (h, c) ∧ kf h = Ok key ∧ verifies tok key = true ∧
             claims_valid issuer audience now c;
}.

Record AccessTokenClaims := mkAccessClaims {
  ac_type : string; ac_role : string; ac_status : string; ac_username : string;
  ac_registered : RegisteredClaims }.
Record RefreshTokenClaims := mkRefreshClaims {
  rf_type : string; rf_token_id : string; rf_registered : RegisteredClaims }.

(** The JSON names of the struct tags; a member that is not there leaves "". *)
Definition member (c : TokenClaims) (name : string) : string :=
  match find (λ m : string * string, String.eqb m.1 name) (tc_members c) with
  | Some m => m.2
  | None => ""
  end.
Definition access_members (c : AccessTokenClaims) : TokenClaims :=
  mkTokenClaims (ac_registered c)
    [("type", ac_type c); ("role", ac_role c); ("status", ac_status c); ("username", ac_username c)].
Definition access_claims (c : TokenClaims) : AccessTokenClaims :=
  mkAccessClaims (member c "type") (member c "role") (member c "status") (member c "username")
    (tc_registered c).
Definition refresh_members (c : RefreshTokenClaims) : TokenClaims :=
  mkTokenClaims (rf_registered c) [("type", rf_type c); ("tid", rf_token_id c)].
Definition refresh_claims (c : TokenClaims) : RefreshTokenClaims :=
  mkRefreshClaims (member c "type") (member c "tid") (tc_registered c).

(** [HS256] under the key id. *)
Definition HS256 := "HS256".
Definition token_header : Header := mkHeader HS256 (Some KeyID).

Definition verifyJWTKeyFunc (secret : string) (h : Header) : result error string :=
  if negb (String.eqb (hd_alg h) HS256) then Err (Errorf "unexpected signing method: %v" [hd_alg h])
  else match hd_kid h with
       | Some kid => if String.eqb kid KeyID then Ok secret else Err (Errorf "unexpected kid: %v" [kid])
       | None => Err (Errorf "unexpected kid: %v" ["<nil>"])
       end.

Section tokens.
Context `{JWT}.

(** [generateToken]; no expiration is [None]. *)
Definition generateToken (username : string) (user : Z) (audience : string) (expires : option Z)
    (secret : string) (now : Z) : result error string :=
  SignedString token_header
    (mkTokenClaims (mkRegistered Issuer [audience] (itoa user) (Some (NewNumericDate now)) None
       (NewNumericDate <$> expires)) [("name", username)]) secret.
Definition GenerateAccessToken (username : string) (user : Z) (expires : option Z)
    (secret : string) (now : Z) : result error string :=
  generateToken username user AccessTokenAudienceName expires secret now.

Definition GenerateAccessTokenV2 (user : Z) (username role status secret : string) (now : Z)
  : result error (string * Z) :=
  let expiresAt := (now + AccessTokenDuration)%Z in
  tok ← SignedString token_header
    (access_members (mkAccessClaims "access" role status username
       (mkRegistered Issuer [AccessTokenAudienceName] (itoa user) (Some (NewNumericDate now)) None
          (Some (NewNumericDate expiresAt))))) secret;
  Ok (tok, expiresAt).

Definition GenerateRefreshToken (user : Z) (id secret : string) (now : Z) : result error (string * Z) :=
  let expiresAt := (now + RefreshTokenDuration)%Z in
  tok ← SignedString token_header
    (refresh_members (mkRefreshClaims "refresh" id
       (mkRegistered Issuer [RefreshTokenAudienceName] (itoa user) (Some (NewNumericDate now)) None
          (Some (NewNumericDate expiresAt))))) secret;
  Ok (tok, expiresAt).

Definition ParseAccessTokenV2 (tok secret : string) (now : Z) : result error AccessTokenClaims :=
  c ← ParseWithClaims tok (verifyJWTKeyFunc secret) Issuer AccessTokenAudienceName now;
  let claims := access_claims c in
  if negb (String.eqb (ac_type claims) "access")
  then Err (errorf0 "invalid token type: expected access token") else Ok claims.

Definition ParseRefreshToken (tok secret : string) (now : Z) : result error RefreshTokenClaims :=
  c ← ParseWithClaims tok (verifyJWTKeyFunc secret) Issuer RefreshTokenAudienceName now;
  let claims := refresh_claims c in
  if negb (String.eqb (rf_type claims) "refresh")
  then Err (errorf0 "invalid token type: expected refresh token") else Ok claims.
End tokens.

(** [random] is the answer of [util.RandomString], [uuid] the one of [GenUUID]. *)
Definition GeneratePersonalAccessToken (random : result error string) (uuid : string) : string :=
  match random with
  | Err _ => PersonalAccessTokenPrefix +:+ uuid
  | Ok s => PersonalAccessTokenPrefix +:+ s
  end.
Definition HashPersonalAccessToken (token : string) : string :=
  Hex.EncodeToString (Sha256.Sum256 token).
#[global] Arguments HashPersonalAccessToken : simpl never.

(** ** extract.go *)

Definition ExtractBearerToken (authHeader : string) : string :=
  if String.eqb authHeader "" then ""
  else match Str.fields authHeader with
       | [scheme; token] => if Text.equal_fold "bearer" scheme then token else ""
       | _ => ""
       end.

Definition ExtractRefreshTokenFromCookie (cookieHeader : string) : string :=
  if String.eqb cookieHeader "" then ""
  else default "" (Cookie.cookie RefreshTokenCookieName cookieHeader).

(** ** authenticator.go *)

Record UserClaims := mkUserClaims {
  uc_user_id : Z; uc_username : string; uc_role : string; uc_status : string }.

(** Whether a row may act: it is there and not archived. *)
Definition not_archived (u : User) : bool := negb (String.eqb (us_row_status u) Archived).

(** [t.AsTime().Before(now)] of an optional expiry. *)
Definition expired (expires : option Z) (now : Z) : bool :=
  match expires with Some t => (t <? now)%Z | None => false end.

Section authenticator.
Context `{ProtoJSON} `{JWT}.
Variable secret : string.

Definition subject_id (subject : string) : result error Z :=
  match ConvertStringToInt32 subject with
  | Some id => Ok id
  | None => Err (Wrap (Errorf "strconv.ParseInt: parsing %q" [subject]) "invalid user ID in token")
  end.

Definition AuthenticateByAccessTokenV2 (tok : string) (now : Z) : result error UserClaims :=
  claims ← wrap_err "invalid access token" (ParseAccessTokenV2 tok secret now);
  id ← subject_id (rc_subject (ac_registered claims));
  Ok (mkUserClaims id (ac_username claims) (ac_role claims) (ac_status claims)).

Definition AuthenticateByRefreshToken (tok : string) (now : Z) : ST (Z * User * string) :=
  claims ← st_lift (wrap_err "invalid refresh token" (ParseRefreshToken tok secret now));
  id ← st_lift (subject_id (rc_subject (rf_registered claims)));
  token ← st_wrap "failed to get refresh token" (GetUserRefreshTokenByID id (rf_token_id claims));
  match token with
  | None => st_err (errorf0 "refresh token revoked")
  | Some t =>
      if expired (rt_expires_at t) now then st_err (errorf0 "refresh token expired") else
      user ← st_wrap "failed to get user" (GetUser id);
      match user with
      | None => st_err (errorf0 "user not found")
      | Some u =>
          if not_archived u then mret (id, u, rf_token_id claims)
          else st_err (errorf0 "user is archived")
      end
  end.

Definition AuthenticateByPAT (token : string) (now : Z) : ST (Z * User * PersonalAccessToken) :=
  if negb (Str.has_prefix PersonalAccessTokenPrefix token) then st_err (errorf0 "invalid PAT format")
  else
    result ← st_wrap "invalid PAT" (GetUserByPATHash (HashPersonalAccessToken token));
    let '(id, u, pat) := result in
    if expired (pat_expires_at pat) now then st_err (errorf0 "PAT expired")
    else if negb (not_archived u) then st_err (errorf0 "user is archived")
    else mret (id, u, pat).

(** [bearerAuth]: the user, with the claims or the token that proved it. *)
Record bearerAuth := mkBearer {
  ba_user : Z * User; ba_claims : option UserClaims; ba_pat : option PersonalAccessToken }.
Record AuthResult := mkAuthResult {
  ar_user : option (Z * User); ar_claims : option UserClaims; ar_access_token : string }.

(** A failure that only means that there is no identity. *)
Definition ignore_err {A} (m : ST A) : ST (option A) :=
  λ st, let '(r, st') := m st in (Ok (match r with Ok a => Some a | Err _ => None end), st').

Definition resolveBearer (token : string) (now : Z) : ST (option bearerAuth) :=
  if String.eqb token "" then mret None
  else if negb (Str.has_prefix PersonalAccessTokenPrefix token) then
    match AuthenticateByAccessTokenV2 token now with
    | Err _ => mret None
    | Ok claims =>
        user ← GetUser (uc_user_id claims);
        match user with
        | Some u =>
            if not_archived u then mret (Some (mkBearer (uc_user_id claims, u) (Some claims) None))
            else mret None
        | None => mret None
        end
    end
  else
    found ← ignore_err (AuthenticateByPAT token now);
    match found with
    | Some (id, u, pat) => mret (Some (mkBearer (id, u) None (Some pat)))
    | None => mret None
    end.

Definition AuthenticateToUser (authHeader cookieHeader : string) (now : Z) : ST (option (Z * User)) :=
  bearer ← resolveBearer (ExtractBearerToken authHeader) now;
  match bearer with
  | Some b => mret (Some (ba_user b))
  | None =>
      if String.eqb cookieHeader "" then mret None
      else
        let tok := ExtractRefreshTokenFromCookie cookieHeader in
        if String.eqb tok "" then mret None
        else found ← AuthenticateByRefreshToken tok now; mret (Some found.1)
  end.

Definition Authenticate (authHeader : string) (now : Z) : ST (option AuthResult) :=
  let token := ExtractBearerToken authHeader in
  bearer ← ignore_err (resolveBearer token now);
  match bearer with
  | Some (Some b) =>
      match ba_pat b with
      | Some _ => mret (Some (mkAuthResult (Some (ba_user b)) None token))
      | None => mret (Some (mkAuthResult None (ba_claims b) token))
      end
  | _ => mret None
  end.
End authenticator.

(** ** context.go *)

(** The values of the context keys. *)
Record AuthContext := mkAuthContext {
  ctx_user_id : option Z; ctx_access_token : option string; ctx_claims : option UserClaims }.
Definition Background : AuthContext := mkAuthContext None None None.

Definition GetUserID (ctx : AuthContext) : Z := default 0%Z (ctx_user_id ctx).
Definition GetAccessToken (ctx : AuthContext) : string := default "" (ctx_access_token ctx).
Definition GetUserClaims (ctx : AuthContext) : option UserClaims := ctx_claims ctx.

Definition SetUserInContext (ctx : AuthContext) (user : Z) (accessToken : string) : AuthContext :=
  mkAuthContext (Some user)
    (if String.eqb accessToken "" then ctx_access_token ctx else Some accessToken) (ctx_claims ctx).
Definition SetUserClaimsInContext (ctx : AuthContext) (claims : UserClaims) : AuthContext :=
  mkAuthContext (ctx_user_id ctx) (ctx_access_token ctx) (Some claims).

Definition ApplyToContext (ctx : AuthContext) (result : option AuthResult) : AuthContext :=
  match result with
  | None => ctx
  | Some r =>
      match ar_claims r with
      | Some claims =>
          let ctx := SetUserClaimsInContext ctx claims in
          mkAuthContext (Some (uc_user_id claims)) (ctx_access_token ctx) (ctx_claims ctx)
      | None =>
          match ar_user r with
          | Some (id, _) => SetUserInContext ctx id (ar_access_token r)
          | None => ctx
          end
      end
  end.
