(* ===== verification/PlainJWT.v ===== *)
(** An executable token library, which shows that the laws of [JWT] can hold: a
    token is the numeral of the encoding of its header, its claims and its key.
    It is as forgeable as it is readable. *)
From S2P Require Import Prelude GoLib GoTime GoText Store UserSettings PlainCodec Auth.

#[local] Instance header_eq_dec : EqDecision Header.
Proof. solve_decision. Defined.
#[local] Instance header_countable : Countable Header.
Proof.
  refine (inj_countable' (λ h, (hd_alg h, hd_kid h)) (λ '(a, b), mkHeader a b) ltac:(by intros [])).
Defined.
#[local] Instance registered_eq_dec : EqDecision RegisteredClaims.
Proof. solve_decision. Defined.
#[local] Instance registered_countable : Countable RegisteredClaims.
Proof.
  refine (inj_countable'
    (λ r, (rc_issuer r, rc_audience r, rc_subject r, rc_issued_at r, rc_not_before r, rc_expires_at r))
    (λ '(a, b, c, d, e, f), mkRegistered a b c d e f) ltac:(by intros [])).
Defined.
#[local] Instance claims_eq_dec : EqDecision TokenClaims.
Proof. solve_decision. Defined.
#[local] Instance claims_countable : Countable TokenClaims.
Proof.
  refine (inj_countable' (λ c, (tc_registered c, tc_members c))
    (λ '(a, b), mkTokenClaims a b) ltac:(by intros [])).
Defined.

Definition plain_token (h : Header) (c : TokenClaims) (key : string) : string :=
  "ey" +:+ bits (encode (h, c, key)).
Definition plain_parts (tok : string) : option (Header * TokenClaims * string) :=
  if Str.has_prefix "ey" tok then unbits (Str.drop 2 tok) ≫= decode else None.

Lemma plain_parts_token h c key : plain_parts (plain_token h c key) = Some (h, c, key).
Proof.
  assert (∀ x, Str.has_prefix "ey" ("ey" +:+ x) = true ∧ Str.drop 2 ("ey" +:+ x) = x) as Hx by (intros []; done).
  unfold plain_parts, plain_token. destruct (Hx (bits (encode (h, c, key)))) as [-> ->].
  rewrite unbits_bits. cbn [mbind option_bind]. by rewrite decode_encode.
Qed.

Definition claims_valid_b (issuer audience : string) (now : Z) (c : TokenClaims) : bool :=
  let r := tc_registered c in
  String.eqb (rc_issuer r) issuer && bool_decide (audience ∈ rc_audience r) &&
  match rc_expires_at r with Some e => (now <? e * Time.second)%Z | None => true end &&
  match rc_not_before r with Some n => (n * Time.second <=? now)%Z | None => true end.

Lemma claims_valid_b_spec issuer audience now c :
  claims_valid_b issuer audience now c = true ↔ claims_valid issuer audience now c.
Proof.
  unfold claims_valid_b, claims_valid. rewrite !andb_true_iff, String.eqb_eq, bool_decide_eq_true.
  destruct (rc_expires_at _), (rc_not_before _); rewrite ?Z.ltb_lt, ?Z.leb_le; naive_solver.
Qed.

Definition plain_parse (tok : string) (kf : Header → result error string) (issuer audience : string)
    (now : Z) : result error TokenClaims :=
  match plain_parts tok with
  | Some (h, c, key) =>
      expected ← kf h;
      if String.eqb key expected && claims_valid_b issuer audience now c then Ok c
      else Err (errorf0 "token is invalid")
  | None => Err (errorf0 "token is malformed")
  end.

Lemma bits_digits p : Cookie.all_bytes Cookie.is_token_byte (bits p) = true.
Proof. by induction p. Qed.

#[export] Instance plain_jwt : JWT.
Proof.
  refine {| NewNumericDate t := (t / Time.second)%Z;
            SignedString h c key := Ok (plain_token h c key);
            ParseWithClaims := plain_parse;
            decoded tok := fst <$> plain_parts tok;
            verifies tok key := match plain_parts tok with
                                | Some (_, k) => String.eqb k key
                                | None => false
                                end |}.
  - intros t. pose proof (Z.div_mod t Time.second ltac:(done)).
    pose proof (Z.mod_pos_bound t Time.second ltac:(done)). lia.
  - intros h c key. by eexists.
  - intros h c key tok [= <-]. rewrite plain_parts_token. cbn [fmap option_fmap option_map fst].
    rewrite String.eqb_refl. split_and!; [done..|]. unfold plain_token. split; [by destruct (bits _)|].
    rewrite all_bytes_app. by rewrite bits_digits.
  - intros tok kf issuer audience now c. unfold plain_parse. split.
    + destruct (plain_parts tok) as [[[h' c'] key']|]; [|done]. cbn.
      destruct (kf h') as [key|e] eqn:Hk; [|done]. cbn.
      destruct (_ && _) eqn:Hv; [|done]. apply andb_true_iff in Hv as [Hkey Hc%claims_valid_b_spec].
      intros [= ->]. by exists h', key.
    + intros (h & key & Hd & Hk & Hv & Hc%claims_valid_b_spec).
      destruct (plain_parts tok) as [[[h' c'] key']|]; [|done]. injection Hd as -> ->.
      cbn. rewrite Hk. cbn. by rewrite Hv, Hc.
Defined.
