(* ===== verification/AuthService.v ===== *)
(** * Access control of the RPC methods, sessions and personal access tokens

    [server/router/api/v1]: the table of public methods and the check every
    request passes ([acl_config.go], [authz.go], the interceptors and the gateway
    middleware of [v1.go]); signing in and out, and the rotation of refresh
    tokens ([auth_service.go], [auth_service_session.go]); the handlers of
    personal access tokens.  Handlers run in [ST]; a write of theirs is taken by
    the database or not ([up]).  Password hashes ([bcrypt]), random identifiers,
    the answer of the instance settings and of the identity provider are
    arguments. *)
From S2P Require Import Prelude GoLib GoTime GoText ResourceName Store SpaceStore UserSettings Auth.
From S2P Require Import MemoAccess UserAgent.

(** ** acl_config.go *)

Definition PublicMethods : list string := [
  "/memos.api.v1.AuthService/SignIn";
  "/memos.api.v1.AuthService/RefreshToken";
  "/memos.api.v1.InstanceService/GetInstanceProfile";
  "/memos.api.v1.InstanceService/GetInstanceSetting";
  "/memos.api.v1.InstanceService/BatchGetInstanceSettings";
  "/memos.api.v1.UserService/CreateUser";
  "/memos.api.v1.UserService/GetUser";
  "/memos.api.v1.UserService/BatchGetUsers";
  "/memos.api.v1.UserService/GetUserAvatar";
  "/memos.api.v1.UserService/GetUserStats";
  "/memos.api.v1.UserService/ListAllUserStats";
  "/memos.api.v1.IdentityProviderService/ListIdentityProviders";
  "/memos.api.v1.MemoService/GetMemo";
  "/memos.api.v1.MemoService/ListMemos";
  "/memos.api.v1.MemoService/ListMemoComments";
  "/memos.api.v1.MemoService/ListMemoAttachments";
  "/memos.api.v1.MemoService/ListMemoReactions";
  "/memos.api.v1.MemoService/ListMemoRelations";
  "/memos.api.v1.MemoService/GetLinkMetadata";
  "/memos.api.v1.MemoService/BatchGetLinkMetadata";
  "/memos.api.v1.AttachmentService/GetAttachment";
  "/memos.api.v1.MemoService/GetSharedMemo" ].
Definition IsPublicMethod (procedure : string) : bool := bool_decide (procedure ∈ PublicMethods).

Definition AuthBootstrapMethods : list string := [
  "/memos.api.v1.AuthService/SignIn";
  "/memos.api.v1.AuthService/RefreshToken";
  "/memos.api.v1.InstanceService/GetInstanceProfile";
  "/memos.api.v1.InstanceService/GetInstanceSetting";
  "/memos.api.v1.InstanceService/BatchGetInstanceSettings";
  "/memos.api.v1.IdentityProviderService/ListIdentityProviders";
  "/memos.api.v1.UserService/CreateUser";
  "/memos.api.v1.MemoService/GetSharedMemo" ].
Definition IsAuthBootstrapMethod (procedure : string) : bool :=
  bool_decide (procedure ∈ AuthBootstrapMethods).

(** ** authz.go and the interceptors *)

(** [status.Errorf] and [connect.NewError]. *)
Definition code_name (c : code) : string :=
  match c with
  | NotFound => "NotFound" | Unauthenticated => "Unauthenticated"
  | PermissionDenied => "PermissionDenied" | InvalidArgument => "InvalidArgument"
  | Internal => "Internal" | FailedPrecondition => "FailedPrecondition"
  | AlreadyExists => "AlreadyExists" | Unknown => "Unknown"
  end.
Definition status (c : code) (message : string) : error := Wrap (errorf0 message) (code_name c).

Definition ErrUnauthenticated := errorf0 "authentication required".

(** [allows] is the answer of [AllowsAnonymousAccess]. *)
Definition CheckAccess (allows : result error bool) (procedure : string) (caller : option AuthResult)
  : result error unit :=
  match caller with
  | Some _ => Ok tt
  | None =>
      if negb (IsPublicMethod procedure) then Err ErrUnauthenticated
      else if IsAuthBootstrapMethod procedure then Ok tt
      else
        allowsAnonymous ← wrap_err "failed to resolve instance access policy" allows;
        if allowsAnonymous : bool then Ok tt else Err ErrUnauthenticated
  end.

(** [errors.Is(err, ErrUnauthenticated)]. *)
Fixpoint is_unauthenticated (e : error) : bool :=
  match e with
  | Errorf f [] => String.eqb f "authentication required"
  | Wrap e _ => is_unauthenticated e
  | _ => false
  end.
Definition newAuthorizationConnectError (e : error) : error :=
  if is_unauthenticated e then status Unauthenticated "authentication required"
  else status Internal "failed to resolve API access policy".

(** [writeGatewayAuthorizationError]: the HTTP status. *)
Definition writeGatewayAuthorizationError (e : error) : Z :=
  if is_unauthenticated e then 401%Z else 500%Z.

Section authorizer.
Context `{ProtoJSON} `{JWT}.
Variable secret : string.

(** [AuthInterceptor.WrapUnary]: the context the handler runs in. *)
Definition AuthInterceptor (allows : result error bool) (authHeader procedure : string) (now : Z)
  : ST AuthContext :=
  caller ← Authenticate secret authHeader now;
  match CheckAccess allows procedure caller with
  | Err e => st_err (newAuthorizationConnectError e)
  | Ok _ => mret (ApplyToContext Background caller)
  end.

(** The middleware of the gateway; [procedure] is empty for a path that no
    binding matches. *)
Definition gatewayAuthMiddleware (allows : result error bool) (authHeader procedure : string) (now : Z)
  : ST (Z + AuthContext) :=
  caller ← Authenticate secret authHeader now;
  match CheckAccess allows procedure caller with
  | Err e => mret (inl (writeGatewayAuthorizationError e))
  | Ok _ => mret (inr (ApplyToContext Background caller))
  end.
End authorizer.

(** [MetadataInterceptor.WrapUnary]: the headers a handler can see. *)
Definition header_metadata (header : string → string) : Metadata :=
  let get name := if String.eqb (header name) "" then [] else [header name] in
  mkMetadata (get "User-Agent") (get "Origin") (get "X-Forwarded-For") (get "X-Forwarded-Proto")
    (get "X-Real-Ip") (get "Forwarded") (get "Cookie").

(** ** Users behind names and requests *)

(** [BuildUserName] and [parseUsernameFromName]. *)
Definition BuildUserName (username : string) : string := UserNamePrefix +:+ username.
Definition parseUsernameFromName (name : string) : result error string :=
  username ← extract1 UserNamePrefix name;
  if String.eqb username "" then Err (Errorf "invalid user name %q" [name]) else Ok username.

(** [GetUser] with a username: the rows of the name, newest first; [username] is
    UNIQUE. *)
Definition users_named (username : string) (d : DB) : list (Z * User) :=
  map_to_list (filter (λ kv, us_username kv.2 = username) (users d)).
Definition GetUserByUsername (username : string) : ST (option (Z * User)) :=
  rows ← read (λ st, users_named username (db st));
  _ ← modify (set_user_cache (λ c, fold_left (λ c kv, <[kv.1 := kv.2]> c) rows c));
  mret (head rows).

Definition ResolveUserByName (name : string) : ST (option (Z * User)) :=
  username ← st_lift (parseUsernameFromName name);
  st_wrap "resolve user by name: GetUser failed" (GetUserByUsername username).
Definition resolveUserFromName (name : string) : ST (Z * User) :=
  user ← ResolveUserByName name;
  match user with
  | Some u => mret u
  | None => st_err (Errorf "user not found: %s" [name])
  end.

(** An error turned into a status. *)
Definition st_status {A} (c : code) (message : string) (m : ST A) : ST A :=
  λ st, match m st with
        | (Ok a, st') => (Ok a, st')
        | (Err e, st') => (Err (Wrap (Wrap e message) (code_name c)), st')
        end.
Definition st_fail {A} (c : code) (message : string) : ST A := st_err (status c message).

Definition isActiveCurrentUser (u : User) : bool := String.eqb (us_row_status u) Normal.

(** [fetchCurrentUser] through the cache. *)
Definition fetchCurrentUser (ctx : AuthContext) : ST (option (Z * User)) :=
  let userID := GetUserID ctx in
  if (userID =? 0)%Z then mret None
  else
    user ← GetUser userID;
    match user with
    | None => st_err (Errorf "user %d not found" [itoa userID])
    | Some u => mret (if isActiveCurrentUser u then Some (userID, u) else None)
    end.

Definition RoleAdmin := "ADMIN".
Definition RoleUser := "USER".

Definition authorizeUserResourceAccess (ctx : AuthContext) (user : Z) (allowAdmin : bool)
  : ST (Z * User) :=
  currentUser ← st_status Internal "failed to get current user" (fetchCurrentUser ctx);
  match currentUser with
  | None => st_fail Unauthenticated "user not authenticated"
  | Some (id, u) =>
      if (id =? user)%Z || (allowAdmin && String.eqb (us_role u) RoleAdmin) then mret (id, u)
      else st_fail PermissionDenied "permission denied"
  end.

(** ** Sessions *)

(** [buildRefreshTokenCookie]; no expiry is the zero time. *)
Definition buildRefreshTokenCookie `{Text.GoUnicode} (md : option Metadata) (token : string)
    (expires : option Z) : string :=
  let attrs := [RefreshTokenCookieName +:+ "=" +:+ token; "Path=/"; "HttpOnly";
    "Expires=" +:+ match expires with
                   | None => "Thu, 01 Jan 1970 00:00:00 GMT"
                   | Some t => CookieDate.format (Time.of_nanos t UTC)
                   end] in
  Str.join "; " (app attrs (if isSecureRequest md then ["SameSite=Lax"; "Secure"] else ["SameSite=Lax"])).
Definition clearAuthCookies `{Text.GoUnicode} (md : option Metadata) : string :=
  buildRefreshTokenCookie md "" None.

(** An access token, its expiry, and the cookie that is set. *)
Record Session := mkSession {
  se_access_token : string; se_expires_at : Z; se_set_cookie : string }.

(** The refresh token of the first cookie header. *)
Definition cookie_token (md : option Metadata) : string :=
  match md with
  | Some md => match md_cookie md with c :: _ => ExtractRefreshTokenFromCookie c | [] => "" end
  | None => ""
  end.

Section sessions.
Context `{ProtoJSON} `{JWT} `{Text.GoUnicode}.
Variable secret : string.

(** A new refresh token, its record, and the cookie; [uuid] is [util.GenUUID()]. *)
Definition new_refresh_token (md : option Metadata) (user : Z) (uuid : string) (now : Z)
  : ST (string * Z * RefreshToken) :=
  made ← st_status Internal "failed to generate refresh token"
           (st_lift (GenerateRefreshToken user uuid secret now));
  client ← st_lift (extractClientInfo md);
  mret (made.1, made.2, mkRefreshToken uuid (Some made.2) (Some now) client "").

Definition new_access_token (u : Z * User) (now : Z) : ST (string * Z) :=
  st_status Internal "failed to generate access token"
    (st_lift (GenerateAccessTokenV2 u.1 (us_username u.2) (us_role u.2) (us_row_status u.2) secret now)).

(** A failure to store the refresh token is only logged. *)
Definition doSignIn (up : bool) (md : option Metadata) (uuid : string) (now : Z) (u : Z * User)
  : ST Session :=
  '(token, expires, record) ← new_refresh_token md u.1 uuid now;
  _ ← ignore_err (AddUserRefreshToken up u.1 record);
  access ← new_access_token u now;
  mret (mkSession access.1 access.2 (buildRefreshTokenCookie md token (Some expires))).

(** How the caller proves who it is: with a password, or with what the identity
    provider vouches for ([resolveSSOIdentity] and [resolveSSOUser]). *)
Inductive Credentials :=
| PasswordCredentials (username password : string)
| SsoCredentials (resolve : ST (Z * User))
| NoCredentials.

(** [compare hash password] is [bcrypt.CompareHashAndPassword], [disallow] the
    setting [DisallowPasswordAuth] of the instance. *)
Definition check_password (compare : string → string → bool) (disallow : result error bool)
    (username password : string) : ST (Z * User) :=
  user ← st_status Internal "failed to get user" (GetUserByUsername username);
  match user with
  | None => st_fail InvalidArgument "unmatched username and password"
  | Some (id, u) =>
      if negb (compare (us_password_hash u) password)
      then st_fail InvalidArgument "unmatched username and password"
      else
        disallowed ← st_status Internal "failed to get instance general setting" (st_lift disallow);
        if disallowed && String.eqb (us_role u) RoleUser
        then st_fail PermissionDenied "password signin is not allowed"
        else mret (id, u)
  end.

Definition SignIn (compare : string → string → bool) (disallow : result error bool) (up : bool)
    (md : option Metadata) (uuid : string) (now : Z) (c : Credentials) : ST (Z * User * Session) :=
  existing ← match c with
    | PasswordCredentials username password => check_password compare disallow username password
    | SsoCredentials resolve => resolve
    | NoCredentials => st_fail InvalidArgument "invalid credentials"
    end;
  if String.eqb (us_row_status existing.2) Archived
  then st_err (Wrap (Errorf "user has been archived with username %s" [us_username existing.2])
                (code_name PermissionDenied))
  else
    session ← st_status Internal "failed to sign in" (doSignIn up md uuid now existing);
    mret (existing, session).

(** The answer is the cookie that clears the session. *)
Definition SignOut (up : bool) (ctx : AuthContext) (md : option Metadata) (now : Z) : ST string :=
  _ ← match GetUserClaims ctx with
      | None => mret None
      | Some claims =>
          let refreshToken := cookie_token md in
          if String.eqb refreshToken "" then mret None
          else match ParseRefreshToken refreshToken secret now with
               | Ok refreshClaims =>
                   ignore_err (RemoveUserRefreshToken up (uc_user_id claims) (rf_token_id refreshClaims))
               | Err _ => mret None
               end
      end;
  mret (clearAuthCookies md).

(** [up1] and [up2]: the database takes the new token, drops the old one. *)
Definition RefreshToken (up1 up2 : bool) (md : option Metadata) (uuid : string) (now : Z) : ST Session :=
  let refreshToken := cookie_token md in
  if String.eqb refreshToken "" then st_fail Unauthenticated "refresh token not found"
  else
    '(id, u, oldTokenID) ← st_status Unauthenticated "invalid refresh token"
                             (AuthenticateByRefreshToken secret refreshToken now);
    '(token, expires, record) ← new_refresh_token md id uuid now;
    _ ← st_status Internal "failed to store refresh token" (AddUserRefreshToken up1 id record);
    _ ← ignore_err (RemoveUserRefreshToken up2 id oldTokenID);
    access ← new_access_token (id, u) now;
    mret (mkSession access.1 access.2 (buildRefreshTokenCookie md token (Some expires))).

(** The error also comes with a cookie that clears the session. *)
Definition GetCurrentUser (ctx : AuthContext) : ST (Z * User) :=
  user ← st_status Unauthenticated "failed to get current user" (fetchCurrentUser ctx);
  match user with
  | None => st_fail Unauthenticated "user not found"
  | Some u => mret u
  end.

(** ** Personal access tokens *)

Record PersonalAccessTokenInfo := mkPATInfo {
  pi_name : string; pi_description : string;
  pi_expires_at : option Z; pi_created_at : option Z; pi_last_used_at : option Z }.

Definition pat_name (username id : string) : string :=
  BuildUserName username +:+ "/personalAccessTokens/" +:+ id.

Definition ListPersonalAccessTokens (ctx : AuthContext) (parent : string)
  : ST (list PersonalAccessTokenInfo) :=
  user ← st_status InvalidArgument "invalid user name" (resolveUserFromName parent);
  _ ← authorizeUserResourceAccess ctx user.1 true;
  tokens ← st_status Internal "failed to get access tokens" (GetUserPersonalAccessTokens user.1);
  mret ((λ t, mkPATInfo (pat_name (us_username user.2) (pat_id t)) (pat_description t)
                (pat_expires_at t) (pat_created_at t) (pat_last_used_at t)) <$> tokens).

(** [uuid] and [uuid2] are the answers of [util.GenUUID], [random] the one of
    [util.RandomString]; [add_days] is [time.AddDate] in the zone of the server. *)
Definition CreatePersonalAccessToken (up : bool) (ctx : AuthContext) (parent description : string)
    (expiresInDays : Z) (uuid : string) (random : result error string) (uuid2 : string)
    (add_days : Z → Z → Z) (now : Z) : ST (PersonalAccessTokenInfo * string) :=
  user ← st_status InvalidArgument "invalid user name" (resolveUserFromName parent);
  _ ← authorizeUserResourceAccess ctx user.1 false;
  let token := GeneratePersonalAccessToken random uuid2 in
  let expiresAt := if (0 <? expiresInDays)%Z then Some (add_days now expiresInDays) else None in
  let record := mkPAT uuid (HashPersonalAccessToken token) description expiresAt (Some now) None in
  _ ← st_status Internal "failed to create access token" (AddUserPersonalAccessToken up user.1 record);
  mret (mkPATInfo (pat_name (us_username user.2) uuid) description expiresAt (Some now) None, token).

Definition DeletePersonalAccessToken (up : bool) (ctx : AuthContext) (name : string) : ST unit :=
  match Str.split_on "/" name with
  | [p0; username; p2; id] =>
      if String.eqb p0 "users" && String.eqb p2 "personalAccessTokens" then
        user ← st_status InvalidArgument "invalid user name" (resolveUserFromName (BuildUserName username));
        _ ← authorizeUserResourceAccess ctx user.1 false;
        st_status Internal "failed to delete access token"
          (RemoveUserPersonalAccessToken up user.1 id)
      else st_fail InvalidArgument "invalid personal access token name"
  | _ => st_fail InvalidArgument "invalid personal access token name"
  end.
End sessions.

(** A name that parses is the name of its user. *)
Lemma parseUsername_Ok name u : parseUsernameFromName name = Ok u → name = BuildUserName u.
Proof.
  unfold parseUsernameFromName. intros (t & Ht & Hu)%bind_Ok. apply extract1_Ok in Ht as [-> _]; [|by exists "users"].
  by destruct (String.eqb t ""); [|injection Hu as ->].
Qed.
