(* ===== verification/AuthFacts.v ===== *)
(** Authentication: which tokens prove which identity, which requests are
    admitted, and what sessions and personal access tokens go through. *)
From S2P Require Import Prelude GoLib GoTime GoText Sha256 ResourceName Store SpaceStore SpaceStoreFacts SpaceSafety.
From S2P Require Import UserSettings PlainCodec UserSettingsFacts SettingsSafety UserAgent Auth PlainJWT AuthService.

Section auth_facts.
Context `{ProtoJSON} `{JWT} `{Text.GoUnicode}.
Variable secret : string.

(** ** What a token proves *)

Lemma keyfunc_spec h key : verifyJWTKeyFunc secret h = Ok key ↔ h = token_header ∧ key = secret.
Proof.
  unfold verifyJWTKeyFunc, token_header. destruct h as [alg kid]. cbn.
  destruct (String.eqb_spec alg HS256) as [->|Hne]; cbn; [|naive_solver].
  destruct kid as [kid|]; [|naive_solver].
  destruct (String.eqb_spec kid KeyID) as [->|Hne]; naive_solver.
Qed.

(** A token of the server of the given kind, valid at [now], with its claims. *)
Definition token_of (audience type : string) (tok : string) (now : Z) (c : TokenClaims) : Prop :=
  decoded tok = Some (token_header, c) ∧ verifies tok secret = true ∧
  claims_valid Issuer audience now c ∧ member c "type" = type.

Lemma ParseAccessTokenV2_spec tok now claims :
  ParseAccessTokenV2 tok secret now = Ok claims ↔
  ∃ c, token_of AccessTokenAudienceName "access" tok now c ∧ claims = access_claims c.
Proof.
  unfold ParseAccessTokenV2. rewrite bind_Ok. setoid_rewrite ParseWithClaims_spec.
  setoid_rewrite keyfunc_spec. unfold token_of. split.
  - intros (c & (h & key & Hd & [-> ->] & Hv & Hc) & E).
    destruct (String.eqb_spec (ac_type (access_claims c)) "access"); [|done]. injection E as <-. by exists c.
  - intros (c & (Hd & Hv & Hc & Ht) & ->). exists c. split; [by eexists _, _|]. cbn. by rewrite Ht.
Qed.

Lemma ParseRefreshToken_spec tok now claims :
  ParseRefreshToken tok secret now = Ok claims ↔
  ∃ c, token_of RefreshTokenAudienceName "refresh" tok now c ∧ claims = refresh_claims c.
Proof.
  unfold ParseRefreshToken. rewrite bind_Ok. setoid_rewrite ParseWithClaims_spec.
  setoid_rewrite keyfunc_spec. unfold token_of. split.
  - intros (c & (h & key & Hd & [-> ->] & Hv & Hc) & E).
    destruct (String.eqb_spec (rf_type (refresh_claims c)) "refresh"); [|done]. injection E as <-. by exists c.
  - intros (c & (Hd & Hv & Hc & Ht) & ->). exists c. split; [by eexists _, _|]. cbn. by rewrite Ht.
Qed.

Definition subject_is (c : TokenClaims) (u : Z) : Prop :=
  ConvertStringToInt32 (rc_subject (tc_registered c)) = Some u.

(** A user who may act. *)
Definition may_act (d : DB) (u : Z) : Prop :=
  ∃ row, users d !! u = Some row ∧ us_row_status row ≠ Archived.

(** [tok] proves to be [u]: a personal access token of [u], or an access token
    the server signed for [u]; not expired, and [u] not archived. *)
Definition proves (d : DB) (now : Z) (tok : string) (u : Z) : Prop :=
  may_act d u ∧
  if Str.has_prefix PersonalAccessTokenPrefix tok
  then ∃ t, t ∈ pats d u ∧ pat_hash t = HashPersonalAccessToken tok ∧ expired (pat_expires_at t) now = false
  else tok ≠ "" ∧ ∃ c, token_of AccessTokenAudienceName "access" tok now c ∧ subject_is c u.

(** Different personal access tokens have different hashes. *)
Definition unique_hashes (d : DB) : Prop := ∀ u1 u2 t1 t2,
  t1 ∈ pats d u1 → t2 ∈ pats d u2 → pat_hash t1 = pat_hash t2 → u1 = u2 ∧ t1 = t2.

Lemma not_archived_spec row : not_archived row = true ↔ us_row_status row ≠ Archived.
Proof. unfold not_archived. by rewrite negb_true_iff, String.eqb_neq. Qed.

(** ** Looking up a personal access token *)

Lemma pat_row st u raw :
  settings_inv st → user_settings (db st) !! (u, key_string PERSONAL_ACCESS_TOKENS) = Some raw →
  Unmarshal PERSONAL_ACCESS_TOKENS raw = Ok (VPersonalAccessTokens (pats (db st) u)).
Proof.
  intros Hi Hr. destruct (si_rows _ Hi _ _ _ Hr) as (k & v & <-%(inj key_string) & _ & Hv).
  unfold pats, stored. rewrite Hr. cbn. rewrite Hv. pose proof (Unmarshal_kind _ _ _ Hv) as Hk.
  by destruct v.
Qed.

Lemma elem_of_pat_rows st hash u raw :
  settings_inv st →
  (u, raw) ∈ pat_rows hash (db st) ↔
  user_settings (db st) !! (u, key_string PERSONAL_ACCESS_TOKENS) = Some raw ∧
  hash ≠ "" ∧ ∃ t, t ∈ pats (db st) u ∧ pat_hash t = hash.
Proof.
  intros Hi. unfold pat_rows. rewrite list_elem_of_omap. split.
  - intros ([[u' k] raw'] & Hin & E). cbn [fst snd] in E. apply elem_of_map_to_list in Hin.
    destruct (String.eqb_spec k (key_string PERSONAL_ACCESS_TOKENS)) as [->|]; [|done]. cbn [andb] in E.
    destruct (has_hash hash raw') eqn:Hh; [|done]. injection E as -> ->. split; [done|].
    unfold has_hash in Hh. rewrite (pat_row st u raw Hi Hin) in Hh.
    apply andb_true_iff in Hh as [Hne (t & Ht & E)%existsb_exists].
    apply negb_true_iff, String.eqb_neq in Hne. split; [done|]. exists t.
    by rewrite list_elem_of_In, <- String.eqb_eq.
  - intros (Hr & Hne & t & Ht & E). exists (u, key_string PERSONAL_ACCESS_TOKENS, raw).
    rewrite elem_of_map_to_list. split; [done|]. cbn [fst snd]. rewrite String.eqb_refl.
    unfold has_hash. rewrite (pat_row st u raw Hi Hr), (proj2 (String.eqb_neq hash "")) by done. cbn.
    assert (existsb (λ t0, String.eqb (pat_hash t0) hash) (pats (db st) u) = true) as ->; [|done].
    apply existsb_exists. exists t. rewrite <- list_elem_of_In. by rewrite E, String.eqb_refl.
Qed.

Lemma GetUserByPATHash_spec st hash :
  settings_inv st → hash ≠ "" →
  match driver_GetUserByPATHash hash (db st) with
  | Ok (u, t) => t ∈ pats (db st) u ∧ pat_hash t = hash
  | Err _ => ∀ u t, t ∈ pats (db st) u → pat_hash t ≠ hash
  end.
Proof.
  intros Hi Hne. unfold driver_GetUserByPATHash.
  destruct (pat_rows hash (db st)) as [|[u raw] rows] eqn:Hrows.
  - intros u t Ht E. pose proof Ht as Hp. unfold pats, stored in Hp.
    destruct (user_settings (db st) !! (u, key_string PERSONAL_ACCESS_TOKENS)) as [raw|] eqn:Hr; cbn in Hp;
      [|by apply not_elem_of_nil in Hp].
    assert ((u, raw) ∈ pat_rows hash (db st)) as Hin by (apply elem_of_pat_rows; naive_solver).
    rewrite Hrows in Hin. by apply not_elem_of_nil in Hin.
  - assert ((u, raw) ∈ pat_rows hash (db st)) as Hin by (rewrite Hrows; left).
    apply elem_of_pat_rows in Hin as (Hr & _ & t & Ht & E); [|done].
    rewrite (pat_row st u raw Hi Hr). cbn.
    destruct (find (λ t0, String.eqb (pat_hash t0) hash) (pats (db st) u)) as [t'|] eqn:Hf.
    + apply find_some in Hf as [Hin' E'%String.eqb_eq]. by rewrite list_elem_of_In.
    + apply list_elem_of_In in Ht. eapply find_none in Hf; [|exact Ht]. cbn in Hf.
      by rewrite E, String.eqb_refl in Hf.
Qed.

Lemma store_GetUserByPATHash_spec st hash :
  settings_inv st → unique_hashes (db st) → hash ≠ "" →
  ∃ r st', GetUserByPATHash hash st = (r, st') ∧ db st' = db st ∧ settings_inv st' ∧
    match r with
    | Ok (u, row, t) => t ∈ pats (db st) u ∧ pat_hash t = hash ∧ users (db st) !! u = Some row
    | Err _ => ∀ u t, t ∈ pats (db st) u → pat_hash t = hash → users (db st) !! u = None
    end.
Proof.
  intros Hi Hu Hne. unfold GetUserByPATHash. rewrite st_bind. cbn [read].
  pose proof (GetUserByPATHash_spec st hash Hi Hne) as Hg. rewrite st_bind. unfold st_lift.
  destruct (driver_GetUserByPATHash hash (db st)) as [[u t]|e].
  2: { eexists _, st. split; [reflexivity|]. split_and!; try done. intros u t Ht E. by destruct (Hg u t). }
  destruct Hg as [Ht E]. rewrite st_bind. cbn [fst].
  destruct (GetUser_spec st u Hi) as (st' & -> & Hi' & Hdb).
  destruct (users (db st) !! u) as [row|] eqn:Hrow; eexists _, st'; (split; [reflexivity|]);
    split_and!; try done. intros u' t' Ht' E'. destruct (Hu u u' t t') as [<- _]; congruence.
Qed.

Lemma AuthenticateByPAT_spec st tok now :
  settings_inv st → unique_hashes (db st) → Str.has_prefix PersonalAccessTokenPrefix tok = true →
  ∃ r st', AuthenticateByPAT tok now st = (r, st') ∧ db st' = db st ∧ settings_inv st' ∧
    match r with
    | Ok (u, row, t) =>
        t ∈ pats (db st) u ∧ pat_hash t = HashPersonalAccessToken tok ∧
        expired (pat_expires_at t) now = false ∧
        users (db st) !! u = Some row ∧ us_row_status row ≠ Archived
    | Err _ => ∀ u t, may_act (db st) u → t ∈ pats (db st) u →
        pat_hash t = HashPersonalAccessToken tok → expired (pat_expires_at t) now ≠ false
    end.
Proof.
  intros Hi Hu Hpat. unfold AuthenticateByPAT. rewrite Hpat. cbn [negb]. rewrite st_bind. unfold st_wrap.
  destruct (store_GetUserByPATHash_spec st _ Hi Hu (hash_nonempty tok : HashPersonalAccessToken tok ≠ ""))
    as (r & st' & E & Hdb & Hi' & Hr). rewrite E. destruct r as [[[u row] t]|e]; cbn [wrap_err].
  2: { eexists _, st'. split; [reflexivity|]. split_and!; try done.
       intros u t (row & Hrow & _) Ht Eh. rewrite (Hr u t) in Hrow; done. }
  destruct Hr as (Ht & Eh & Hrow).
  assert (∀ u' t', t' ∈ pats (db st) u' → pat_hash t' = HashPersonalAccessToken tok → u' = u ∧ t' = t) as Hsame.
  { intros u' t' Ht' E'. destruct (Hu u u' t t') as [<- <-]; [congruence..|done]. }
  destruct (expired (pat_expires_at t) now) eqn:Hexp.
  { eexists _, st'. split; [reflexivity|]. split_and!; try done.
    intros u' t' _ Ht' E'. destruct (Hsame u' t' Ht' E') as [-> ->]. congruence. }
  destruct (not_archived row) eqn:Hna; cbn [negb]; eexists _, st'; (split; [reflexivity|]); split_and!; try done.
  - by apply not_archived_spec.
  - intros u' t' (row' & Hr' & Ha) Ht' E'. destruct (Hsame u' t' Ht' E') as [-> ->].
    rewrite Hrow in Hr'. injection Hr' as <-. apply not_archived_spec in Ha. congruence.
Qed.

(** ** Resolving a bearer token *)

(** What [resolveBearer] may answer for a token that proves [u]. *)
Definition bearer_of (d : DB) (b : bearerAuth) (u : Z) : Prop :=
  (ba_user b).1 = u ∧ users d !! u = Some (ba_user b).2 ∧
  match ba_pat b with
  | Some _ => ba_claims b = None
  | None => ∃ c, ba_claims b = Some c ∧ uc_user_id c = u
  end.

Lemma AuthenticateByAccessTokenV2_spec tok now :
  match AuthenticateByAccessTokenV2 secret tok now with
  | Ok claims => ∃ c, token_of AccessTokenAudienceName "access" tok now c ∧ subject_is c (uc_user_id claims)
  | Err _ => ∀ c u, token_of AccessTokenAudienceName "access" tok now c → ¬ subject_is c u
  end.
Proof.
  unfold AuthenticateByAccessTokenV2. destruct (ParseAccessTokenV2 tok secret now) as [claims|e] eqn:Hp; cbn.
  - apply ParseAccessTokenV2_spec in Hp as (c & Hc & ->). cbn. unfold subject_id.
    destruct (ConvertStringToInt32 _) as [u|] eqn:Hu; cbn; [by exists c|].
    intros c' u (Hd' & _) Hs. destruct Hc as (Hd & _). rewrite Hd in Hd'. injection Hd' as <-.
    unfold subject_is in Hs. congruence.
  - intros c u Hc Hs. assert (ParseAccessTokenV2 tok secret now = Ok (access_claims c)) as E.
    { apply ParseAccessTokenV2_spec. by exists c. } congruence.
Qed.

Lemma token_claims_unique audience type now now' tok c c' :
  token_of audience type tok now c → token_of audience type tok now' c' → c = c'.
Proof. intros (Hd & _) (Hd' & _). congruence. Qed.

Lemma resolveBearer_spec st tok now :
  settings_inv st → unique_hashes (db st) →
  ∃ r st', resolveBearer secret tok now st = (Ok r, st') ∧ db st' = db st ∧ settings_inv st' ∧
    match r with
    | Some b => ∃ u, proves (db st) now tok u ∧ bearer_of (db st) b u
    | None => ∀ u, ¬ proves (db st) now tok u
    end.
Proof.
  intros Hi Hu. unfold resolveBearer, proves. destruct (String.eqb_spec tok "") as [->|Hne].
  { exists None, st. split_and!; try done. by intros u [_ [? _]]. }
  destruct (Str.has_prefix PersonalAccessTokenPrefix tok) eqn:Hpat; cbn [negb].
  - (* a personal access token *)
    destruct (AuthenticateByPAT_spec st tok now Hi Hu Hpat) as (r & st' & E & Hdb & Hi' & Hr).
    rewrite st_bind. unfold ignore_err. rewrite E. destruct r as [[[u row] t]|e].
    + destruct Hr as (Ht & Ehash & Hexp & Hrow & Hna).
      eexists _, st'. split; [reflexivity|]. split_and!; try done.
      exists u. split; [|done]. split; [by exists row|by exists t].
    + exists None, st'. split_and!; try done. intros u [Hm (t & Ht & Ehash & Hexp)].
      by apply (Hr u t).
  - (* an access token *)
    pose proof (AuthenticateByAccessTokenV2_spec tok now) as Ha.
    destruct (AuthenticateByAccessTokenV2 secret tok now) as [claims|e].
    2: { exists None, st. split_and!; try done. intros u (_ & _ & c & Hc & Hs). by apply (Ha c u). }
    destruct Ha as (c & Hc & Hs). rewrite st_bind.
    destruct (GetUser_spec st (uc_user_id claims) Hi) as (st' & -> & Hi' & Hdb).
    assert (∀ u c', token_of AccessTokenAudienceName "access" tok now c' → subject_is c' u →
              u = uc_user_id claims) as Huniq.
    { intros u c' Hc' Hs'. rewrite <- (token_claims_unique _ _ _ _ _ _ _ Hc Hc') in Hs'.
      unfold subject_is in *. congruence. }
    destruct (users (db st) !! uc_user_id claims) as [row|] eqn:Hrow;
      [destruct (not_archived row) eqn:Hna|].
    + eexists _, st'. split; [reflexivity|]. rewrite Hdb. split_and!; try done.
      exists (uc_user_id claims). split; [|split_and!; [done..|by exists claims]].
      split; [exists row; by rewrite <- not_archived_spec|split; [done|by exists c]].
    + exists None, st'. rewrite Hdb. split_and!; try done.
      intros u ((row' & Hr & Hx) & _ & c' & Hc' & Hs'). rewrite (Huniq u c' Hc' Hs') in Hr.
      rewrite Hrow in Hr. injection Hr as <-. apply not_archived_spec in Hx. congruence.
    + exists None, st'. rewrite Hdb. split_and!; try done.
      intros u ((row' & Hr & Hx) & _ & c' & Hc' & Hs'). rewrite (Huniq u c' Hc' Hs') in Hr. congruence.
Qed.

(** ** Admission *)

(** Whether a request without credentials may reach a method. *)
Definition open_to_all (allows : result error bool) (procedure : string) : Prop :=
  procedure ∈ PublicMethods ∧ (procedure ∈ AuthBootstrapMethods ∨ allows = Ok true).

Lemma CheckAccess_anonymous allows procedure :
  CheckAccess allows procedure None = Ok tt ↔ open_to_all allows procedure.
Proof.
  unfold CheckAccess, open_to_all, IsPublicMethod, IsAuthBootstrapMethod.
  case_bool_decide; cbn; [|naive_solver]. case_bool_decide; cbn; [naive_solver|].
  destruct allows as [[]|]; cbn; naive_solver.
Qed.

Lemma Authenticate_spec st authHeader now :
  settings_inv st → unique_hashes (db st) →
  ∃ r st', Authenticate secret authHeader now st = (Ok r, st') ∧ db st' = db st ∧ settings_inv st' ∧
    match r with
    | Some a => ∃ u, proves (db st) now (ExtractBearerToken authHeader) u ∧
                     ctx_user_id (ApplyToContext Background (Some a)) = Some u
    | None => ∀ u, ¬ proves (db st) now (ExtractBearerToken authHeader) u
    end.
Proof.
  intros Hi Hu. destruct (resolveBearer_spec st (ExtractBearerToken authHeader) now Hi Hu)
    as (r & st' & E & Hdb & Hi' & Hr).
  unfold Authenticate. rewrite st_bind. unfold ignore_err. rewrite E.
  destruct r as [[u claims [t|]]|].
  - eexists _, st'. split; [reflexivity|]. split_and!; try done. destruct Hr as (v & Hp & Hv & _ & _).
    exists v. split; [done|]. cbn in *. destruct u as [u row]. cbn in *. by rewrite Hv.
  - eexists _, st'. split; [reflexivity|]. split_and!; try done.
    destruct Hr as (v & Hp & _ & _ & c & Hc & Hid). exists v. split; [done|]. cbn in *.
    rewrite Hc. cbn. by rewrite Hid.
  - eexists _, st'. split; [reflexivity|]. by split_and!.
Qed.

(** C29. Requests are admitted exactly: the handler of a request runs as a user when
    the bearer token proves to be that user - a personal access token stored for the
    user, or an access token the server signed, either not expired, and the user
    there and not archived; it runs without a user when the token proves nothing and
    the method is public and, unless it is one of the methods needed to sign in, the
    instance lets anonymous callers in; otherwise the request is refused.  The two
    transports decide alike, and authenticating changes no data. *)
Theorem requests_admitted_exactly st allows authHeader procedure now :
  reached st → unique_hashes (db st) →
  ∃ r st', AuthInterceptor secret allows authHeader procedure now st = (r, st') ∧ db st' = db st ∧
    (gatewayAuthMiddleware secret allows authHeader procedure now st).1 =
      Ok (match r with Ok ctx => inr ctx | Err e => inl (if is_unauthenticated e then 401%Z else 500%Z) end) ∧
    match r with
    | Ok ctx => (∃ u, proves (db st) now (ExtractBearerToken authHeader) u ∧ ctx_user_id ctx = Some u) ∨
                ((∀ u, ¬ proves (db st) now (ExtractBearerToken authHeader) u) ∧
                 open_to_all allows procedure ∧ ctx = Background)
    | Err _ => (∀ u, ¬ proves (db st) now (ExtractBearerToken authHeader) u) ∧ ¬ open_to_all allows procedure
    end.
Proof.
  intros [Hi _]%reached_inv Hu.
  destruct (Authenticate_spec st authHeader now Hi Hu) as (r & st' & E & Hdb & _ & Hr).
  unfold AuthInterceptor, gatewayAuthMiddleware. rewrite !st_bind, E.
  pose proof (CheckAccess_anonymous allows procedure) as Hopen. destruct r as [a|].
  - eexists _, st'. split; [reflexivity|]. split_and!; try done. left. exact Hr.
  - destruct (CheckAccess allows procedure None) as [[]|e]; (eexists _, st'; split; [reflexivity|]; split; [done|]; split).
    + done.
    + right. split_and!; [done| |done]. by apply Hopen.
    + unfold newAuthorizationConnectError, writeGatewayAuthorizationError. cbn.
      by destruct (is_unauthenticated e).
    + split; [done|]. by intros ?%Hopen.
Qed.

(** ** Tokens the server signs *)

(** The end of a token that carries the date [t], in whole seconds. *)
Definition token_end (t : Z) : Z := (NewNumericDate t * Time.second)%Z.

Lemma subject_itoa u : GoInt.is_int32 u → ConvertStringToInt32 (itoa u) = Some u.
Proof.
  unfold GoInt.is_int32, GoInt.min_int32, GoInt.max_int32. intros Hu. apply parse_int_itoa. lia.
Qed.

Lemma signed_token audience type tok key now e u members c :
  SignedString token_header c secret = Ok tok →
  c = mkTokenClaims (mkRegistered Issuer [audience] (itoa u) (Some now) None (Some e)) members →
  member c "type" = type → GoInt.is_int32 u → key = secret →
  compact tok ∧ ∀ now' c', token_of audience type tok now' c' ↔ c' = c ∧ (now' < e * Time.second)%Z.
Proof.
  intros (Hd & Hv & Hc)%SignedString_spec -> Ht Hu _. split; [done|]. intros now' c'.
  unfold token_of, claims_valid. rewrite Hd. split.
  - intros ([= <-] & _ & (_ & _ & He & _) & _). split; [done|]. by apply He.
  - intros [-> He]. cbn in *. split_and!; try done; [by left|]. by intros e' [= <-].
Qed.

Lemma GenerateAccessTokenV2_spec u name role stat now tok e :
  GenerateAccessTokenV2 u name role stat secret now = Ok (tok, e) → GoInt.is_int32 u →
  e = (now + AccessTokenDuration)%Z ∧ compact tok ∧
  ∀ now' v, (∃ c, token_of AccessTokenAudienceName "access" tok now' c ∧ subject_is c v) ↔
            v = u ∧ (now' < token_end e)%Z.
Proof.
  unfold GenerateAccessTokenV2. cbn zeta. intros Hg Hu. apply bind_Ok in Hg as (tok' & Hs & [= <- <-]).
  destruct (signed_token AccessTokenAudienceName "access" tok' secret _ _ u _ _ Hs eq_refl eq_refl Hu eq_refl) as [Hc Ht].
  split_and!; [done..|]. intros now' v. unfold token_end. split.
  - intros (c & [-> He]%Ht & Hsub). unfold subject_is in Hsub. cbn in Hsub.
    rewrite subject_itoa in Hsub by done. split; [congruence|done].
  - intros [-> He]. eexists. split; [by apply Ht|]. by apply subject_itoa.
Qed.

Lemma GenerateRefreshToken_spec u id now tok e :
  GenerateRefreshToken u id secret now = Ok (tok, e) → GoInt.is_int32 u →
  e = (now + RefreshTokenDuration)%Z ∧ compact tok ∧
  ∀ now' v i, (∃ c, token_of RefreshTokenAudienceName "refresh" tok now' c ∧ subject_is c v ∧ member c "tid" = i) ↔
              v = u ∧ i = id ∧ (now' < token_end e)%Z.
Proof.
  unfold GenerateRefreshToken. cbn zeta. intros Hg Hu. apply bind_Ok in Hg as (tok' & Hs & [= <- <-]).
  destruct (signed_token RefreshTokenAudienceName "refresh" tok' secret _ _ u _ _ Hs eq_refl eq_refl Hu eq_refl) as [Hc Ht].
  split_and!; [done..|]. intros now' v i. unfold token_end. split.
  - intros (c & [-> He]%Ht & Hsub & Hid). unfold subject_is in Hsub. cbn in Hsub, Hid.
    rewrite subject_itoa in Hsub by done. split_and!; [congruence|done|done].
  - intros (-> & -> & He). eexists. split; [by apply Ht|]. split; [by apply subject_itoa|done].
Qed.

(** ** Refresh tokens *)

Lemma refresh_tokens_spec st u :
  settings_inv st →
  ∃ st', GetUserRefreshTokens u st = (Ok (refresh_tokens (db st) u), st') ∧ db st' = db st ∧ settings_inv st'.
Proof.
  intros Hi. unfold GetUserRefreshTokens. rewrite st_bind.
  destruct (GetUserSetting_spec st u REFRESH_TOKENS Hi) as (st' & -> & Hdb & Hi' & _); [done|].
  exists st'. split; [|done]. unfold refresh_tokens. by destruct (stored (db st) u REFRESH_TOKENS).
Qed.

(** The refresh token [tok] opens a session of [u], whose record has the id [id]. *)
Definition refreshes (d : DB) (now : Z) (tok : string) (u : Z) (row : User) (id : string) : Prop :=
  (∃ c, token_of RefreshTokenAudienceName "refresh" tok now c ∧ subject_is c u ∧ member c "tid" = id) ∧
  (∃ t, find (λ t, String.eqb (rt_id t) id) (refresh_tokens d u) = Some t ∧ expired (rt_expires_at t) now = false) ∧
  users d !! u = Some row ∧ us_row_status row ≠ Archived.

Lemma AuthenticateByRefreshToken_spec st tok now :
  settings_inv st →
  ∃ r st', AuthenticateByRefreshToken secret tok now st = (r, st') ∧ db st' = db st ∧ settings_inv st' ∧
    ∀ u row id, r = Ok (u, row, id) ↔ refreshes (db st) now tok u row id.
Proof.
  intros Hi. unfold AuthenticateByRefreshToken. rewrite st_bind. unfold st_lift at 1.
  destruct (ParseRefreshToken tok secret now) as [claims|e] eqn:Hp; cbn [wrap_err].
  2: { eexists _, st. split; [reflexivity|]. split_and!; [done..|]. intros u row id. split; [done|].
       intros ((c & Hc & _) & _). assert (ParseRefreshToken tok secret now = Ok (refresh_claims c)) as E
         by (apply ParseRefreshToken_spec; by exists c). congruence. }
  apply ParseRefreshToken_spec in Hp as (c & Hc & ->). rewrite st_bind. unfold st_lift.
  unfold subject_id. change (rc_subject (rf_registered (refresh_claims c))) with (rc_subject (tc_registered c)).
  assert (∀ c', token_of RefreshTokenAudienceName "refresh" tok now c' → c' = c) as Huniq
    by (intros c' Hc'; by eapply token_claims_unique).
  destruct (ConvertStringToInt32 _) as [u|] eqn:Hsub.
  2: { eexists _, st. split; [reflexivity|]. split_and!; [done..|]. intros u row id. split; [done|].
       intros ((c' & ->%Huniq & Hs & _) & _). unfold subject_is in Hs. congruence. }
  unfold GetUserRefreshTokenByID, st_wrap. rewrite !st_bind.
  destruct (refresh_tokens_spec st u Hi) as (st1 & -> & Hdb1 & Hi1). cbn [wrap_err mret ST_ret].
  change (rf_token_id (refresh_claims c)) with (member c "tid").
  assert (∀ v row id, refreshes (db st) now tok v row id → v = u ∧ id = member c "tid") as Hvu.
  { intros v row id ((c' & ->%Huniq & Hs & Hid) & _). unfold subject_is in Hs. split; congruence. }
  destruct (find _ (refresh_tokens (db st) u)) as [t|] eqn:Hf.
  2: { eexists _, st1. split; [reflexivity|]. split_and!; [done..|]. intros v row id. split; [done|].
       intros Hr. destruct (Hvu _ _ _ Hr) as [-> ->]. destruct Hr as (_ & (t & Ht & _) & _). congruence. }
  destruct (expired (rt_expires_at t) now) eqn:Hexp.
  { eexists _, st1. split; [reflexivity|]. split_and!; [done..|]. intros v row id. split; [done|].
    intros Hr. destruct (Hvu _ _ _ Hr) as [-> ->]. destruct Hr as (_ & (t' & Ht & Hx) & _). congruence. }
  rewrite st_bind. destruct (GetUser_spec st1 u Hi1) as (st2 & -> & Hi2 & Hdb2). cbn [wrap_err].
  rewrite Hdb1 in *. destruct (users (db st) !! u) as [row|] eqn:Hrow.
  2: { eexists _, st2. split; [reflexivity|]. split_and!; [done..|]. intros v row id. split; [done|].
       intros Hr. destruct (Hvu _ _ _ Hr) as [-> ->]. destruct Hr as (_ & _ & Hr & _). congruence. }
  destruct (not_archived row) eqn:Hna.
  - eexists _, st2. split; [reflexivity|]. split_and!; [done..|]. intros v row' id. split.
    + intros [= <- <- <-]. split_and!; [by exists c|by exists t|done|by apply not_archived_spec].
    + intros Hr. destruct (Hvu _ _ _ Hr) as [-> ->]. destruct Hr as (_ & _ & Hr & _). congruence.
  - eexists _, st2. split; [reflexivity|]. split_and!; [done..|]. intros v row' id. split; [done|].
    intros Hr. destruct (Hvu _ _ _ Hr) as [-> ->]. destruct Hr as (_ & _ & Hr & Ha).
    rewrite Hrow in Hr. injection Hr as <-. apply not_archived_spec in Ha. congruence.
Qed.
End auth_facts.

(** ** Examples *)

#[export] Instance ascii_case : Text.GoUnicode :=
  {| Text.ToLower := Str.replace_bytes (λ c, String (Text.lower_byte c) "") |}.

(** Ada, who is user 1, with a refresh token and a personal access token. *)
Definition ada_session : UserSettings.RefreshToken :=
  mkRefreshToken "r1" (Some (0 + RefreshTokenDuration)%Z) (Some 0%Z) (mkClientInfo "" "" "" "" "") "".
Definition ada_pat : PersonalAccessToken :=
  mkPAT "p1" (HashPersonalAccessToken "memos_pat_abc") "" None (Some 0%Z) None.
Definition ada_state : StoreState :=
  (serve_setting true (OpAddPAT 1 ada_pat)
    (serve_setting true (OpAddRefreshToken 1 ada_session)
      (serve_setting true (OpCreateUser (example_user "ada") 1) (mkState empty_db ∅ ∅)).2).2).2.
Definition ada_token : string :=
  match GenerateRefreshToken 1 "r1" "secret" 0 with Ok (tok, _) => tok | Err _ => "" end.
Definition ada_metadata : option Metadata :=
  Some (mkMetadata ["curl"] [] [] ["https"] [] [] [cookie_header [("theme", "dark"); (RefreshTokenCookieName, ada_token)]]).

Lemma ada_reached : reached ada_state.
Proof. do 3 (apply reached_step; [|done|done]). apply reached_empty. Qed.


Lemma pats_stored d d' : (∀ v k, stored d' v k = stored d v k) → ∀ v, pats d' v = pats d v.
Proof. intros E v. unfold pats. by rewrite E. Qed.

Lemma pats_after_session st t v :
  reached st → pats (db (serve_setting true (OpAddRefreshToken 1 t) st).2) v = pats (db st) v.
Proof.
  intros [Hi Hf]%reached_inv.
  destruct (serve_setting_spec true (OpAddRefreshToken 1 t) st Hi Hf I) as (r & st' & -> & _ & _ & Hw).
  unfold pats. cbn [snd]. rewrite Hw. destruct r; [|done]. cbn [after_op]. unfold upd.
  by rewrite decide_False by congruence.
Qed.

Lemma pats_after_add st t v t' :
  reached st → (∀ v, pats (db st) v = []) →
  t' ∈ pats (db (serve_setting true (OpAddPAT 1 t) st).2) v → v = 1%Z ∧ t' = t.
Proof.
  intros [Hi Hf]%reached_inv Hnone.
  destruct (serve_setting_spec true (OpAddPAT 1 t) st Hi Hf I) as (r & st' & -> & _ & _ & Hw).
  cbn [snd]. destruct r as [a|e]; cbn [after_op] in Hw.
  - destruct (decide (v = 1%Z)) as [->|Hne].
    + unfold pats at 1. rewrite Hw, Hnone. unfold upd. rewrite decide_True by done.
      cbn. by intros ?%list_elem_of_singleton.
    + unfold pats at 1. rewrite Hw. unfold upd. rewrite decide_False by congruence.
      change (t' ∈ pats (db st) v → v = 1%Z ∧ t' = t). rewrite Hnone. by intros ?%not_elem_of_nil.
  - rewrite (pats_stored _ _ Hw), Hnone. by intros ?%not_elem_of_nil.
Qed.

Lemma ada_pats u t : t ∈ pats (db ada_state) u → u = 1%Z ∧ t = ada_pat.
Proof.
  apply pats_after_add; [do 2 (apply reached_step; [|done|done]); apply reached_empty|].
  intros v. rewrite pats_after_session; [reflexivity|]. apply reached_step; [apply reached_empty|done|done].
Qed.

Lemma ada_unique_hashes : unique_hashes (db ada_state).
Proof. by intros u1 u2 t1 t2 [-> ->]%ada_pats [-> ->]%ada_pats _. Qed.

Definition ada_row : User := mkUser "ada" "USER" "" "" "" "" "" 1 1 Normal.
Lemma ada_users u row : users (db ada_state) !! u = Some row ↔ u = 1%Z ∧ row = ada_row.
Proof.
  replace (users (db ada_state)) with ({[1%Z := ada_row]} : gmap Z User) by (vm_compute; reflexivity).
  rewrite lookup_singleton_Some. naive_solver.
Qed.

Lemma requests_admitted_exactly_witness :
  let admitted header procedure :=
    (AuthInterceptor "secret" (Ok false) header procedure 10 ada_state).1 in
  admitted "Bearer memos_pat_abc" "/memos.api.v1.MemoService/ListMemos" =
    Ok (mkAuthContext (Some 1%Z) (Some "memos_pat_abc") None) ∧
  is_ok (admitted "" "/memos.api.v1.MemoService/ListMemos") = false ∧
  ¬ open_to_all (Ok false) "/memos.api.v1.MemoService/ListMemos".
Proof.
  intros admitted. split; [vm_compute; reflexivity|].
  assert (is_ok (admitted "" "/memos.api.v1.MemoService/ListMemos") = false) as Ha by (vm_compute; reflexivity).
  split; [exact Ha|].
  destruct (requests_admitted_exactly "secret" ada_state (Ok false) "" "/memos.api.v1.MemoService/ListMemos" 10
    ada_reached ada_unique_hashes) as (r & st' & E & _ & _ & Hr).
  unfold admitted in Ha. rewrite E in Ha. destruct r; [done|]. by destruct Hr.
Defined.
