(* ===== verification/SettingsRace.v ===== *)
(** * Overlapping requests on the personal access tokens of a user

    The methods of [UserSettings] that change the tokens hold [patMu] throughout;
    those that only read them ([ListPersonalAccessTokens]) do not.  Here each
    method is cut into the steps other goroutines can come between: taking the
    lock, looking into the cache, querying the database, filling the cache,
    writing, caching what was written, and releasing the lock. *)
From S2P Require Import Prelude GoLib Store SpaceStore SpaceStoreFacts SpaceSafety UserSettings.
From S2P Require Import UserSettingsFacts SettingsSafety Sha256 Auth AuthFacts.
#[local] Open Scope nat_scope.

(** ** The steps *)

Section race.
Context `{ProtoJSON}.

(** A read, or a change of the list: [None] where nothing is written. *)
Inductive pat_op :=
| PatRead
| PatEdit (f : list PersonalAccessToken → option (list PersonalAccessToken)).

Definition add_pat (t : PersonalAccessToken) : pat_op := PatEdit (λ l, Some (l ++ [t])).
Definition remove_pat (id : string) : pat_op := PatEdit (λ l, Some (filter (λ t, pat_id t ≠ id) l)).
Definition use_pat (id : string) (used : option Z) : pat_op := PatEdit (touch_pat id used).

Inductive thread :=
| TLock (o : pat_op)
| TLookup (o : pat_op)
| TQuery (o : pat_op)
| TFill (o : pat_op) (rows : list RawSetting)
| TWrite (f : list PersonalAccessToken → option (list PersonalAccessToken)) (l : list PersonalAccessToken)
| TCache (s : UserSetting)
| TUnlock
| TDone (read : option (list PersonalAccessToken))
| TFailed.

(** The store and whether [patMu] is held. *)
Definition world : Type := StoreState * bool.

Definition start (o : pat_op) : thread :=
  match o with PatRead => TLookup PatRead | PatEdit _ => TLock o end.

(** After the list has been read. *)
Definition got (o : pat_op) (s : option UserSetting) : thread :=
  let l := from_setting GetPersonalAccessTokens s in
  match o with PatRead => TDone (Some l) | PatEdit f => TWrite f l end.

(** The lock is released on failure, too. *)
Definition failed (o : pat_op) : thread :=
  match o with PatRead => TFailed | PatEdit _ => TUnlock end.

Definition thread_step (u : Z) (t : thread) (w : world) : option (thread * world) :=
  let '(st, held) := w in
  match t with
  | TLock o => if held then None else Some (TLookup o, (st, true))
  | TLookup o =>
      Some (match userSettingCache st !! (u, PERSONAL_ACCESS_TOKENS) with
            | Some s => got o (Some s)
            | None => TQuery o
            end, w)
  | TQuery o => Some (TFill o (list_rows (Some u) PERSONAL_ACCESS_TOKENS (db st)), w)
  | TFill o rows =>
      match convert_rows rows st with
      | (Ok [], st') => Some (got o None, (st', held))
      | (Ok [s], st') => Some (got o (Some s), ((cache_setting s st').2, held))
      | (_, st') => Some (failed o, (st', held))
      end
  | TWrite f l =>
      match f l with
      | None => Some (TUnlock, w)
      | Some l' =>
          match convertUserSettingToRaw (mkSetting u PERSONAL_ACCESS_TOKENS (VPersonalAccessTokens l')) with
          | Err _ => Some (TUnlock, w)
          | Ok raw =>
              let '(_, st') := driver (upsert_row true raw) st in
              match convertUserSettingFromRaw raw with
              | Ok (Some s) => Some (TCache s, (st', held))
              | _ => Some (TUnlock, (st', held))
              end
          end
      end
  | TCache s => Some (TUnlock, ((cache_setting s st).2, held))
  | TUnlock => Some (TDone None, (st, false))
  | TDone _ | TFailed => None
  end.

(** [order] says which goroutine takes the next step; one that cannot is passed over. *)
Fixpoint interleave (u : Z) (order : list nat) (ts : list thread) (w : world) : list thread * world :=
  match order with
  | [] => (ts, w)
  | i :: order =>
      match ts !! i with
      | None => interleave u order ts w
      | Some t =>
          match thread_step u t w with
          | None => interleave u order ts w
          | Some (t', w') => interleave u order (<[i := t']> ts) w'
          end
      end
  end.

(** ** Changes alone are serialized *)

Definition edit := list PersonalAccessToken → option (list PersonalAccessToken).

(** A change that is declined, or whose list cannot be stored, leaves the list. *)
Definition apply_edit (l : list PersonalAccessToken) (f : edit) : list PersonalAccessToken :=
  match f l with
  | Some l' => if is_ok (Marshal (VPersonalAccessTokens l')) then l' else l
  | None => l
  end.

(** What holds of the goroutine inside the lock. *)
Definition inside (u : Z) (f : edit) (t : thread) (st : StoreState) : Prop :=
  match t with
  | TLookup o | TQuery o => o = PatEdit f ∧ settings_inv st
  | TFill o rows => o = PatEdit f ∧ settings_inv st ∧
      rows = list_rows (Some u) PERSONAL_ACCESS_TOKENS (db st)
  | TWrite g l => g = f ∧ settings_inv st ∧ l = pats (db st) u
  | TCache s => settings_inv (cache_setting s st).2
  | TUnlock => settings_inv st
  | _ => False
  end.

(** Whether it has passed its write. *)
Definition written (t : thread) : bool :=
  match t with TCache _ | TUnlock | TDone _ => true | _ => false end.

(** [log]: the goroutines past their write, in order; [inner]: the one inside
    the lock. *)
Record serial (u : Z) (fs : list edit) (init : list PersonalAccessToken)
    (ts : list thread) (w : world) (inner : option nat) (log : list nat) : Prop := {
  se_held : w.2 = bool_decide (is_Some inner);
  se_free : inner = None → settings_inv w.1;
  se_thread i f t : fs !! i = Some f → ts !! i = Some t →
    (written t = true ↔ i ∈ log) ∧
    if decide (inner = Some i) then inside u f t w.1
    else t = TLock (PatEdit f) ∨ t = TDone None;
  se_length : length ts = length fs;
  se_inner i : inner = Some i → i < length fs;
  se_log : NoDup log ∧ ∀ i, i ∈ log → i < length fs;
  se_list : pats (db w.1) u = fold_left apply_edit (omap (fs !!.) log) init;
}.

Lemma serial_start u fs st :
  settings_inv st → serial u fs (pats (db st) u) ((start ∘ PatEdit) <$> fs) (st, false) None [].
Proof.
  intros Hi. split; cbn; try done.
  - intros i f t Hf Ht. apply list_lookup_fmap_Some in Ht as (g & -> & Hg).
    pose proof (eq_trans (eq_sym Hf) Hg) as [= <-]. cbn.
    split; [|by left]. split; [done|]. by intros ?%not_elem_of_nil.
  - by rewrite length_fmap.
  - split; [constructor|]. by intros i ?%not_elem_of_nil.
Qed.

(** The goroutine inside takes a step that does not leave the lock: only its own
    place in the list of goroutines changes. *)
Lemma serial_inside u fs init ts st held i log f t t' st' log' :
  serial u fs init ts (st, held) (Some i) log →
  fs !! i = Some f → ts !! i = Some t → inside u f t' st' →
  (log' = log ∧ written t' = written t ∧ pats (db st') u = pats (db st) u ∨
   log' = log ++ [i] ∧ written t = false ∧ written t' = true ∧
     pats (db st') u = apply_edit (pats (db st) u) f) →
  serial u fs init (<[i := t']> ts) (st', held) (Some i) log'.
Proof.
  intros [Sh _ St Sl Sin [Snd Slog] Sp] Hf Ht Hin Hlog. cbn in *.
  assert (i < length ts) as Hlt by by eapply lookup_lt_Some.
  destruct (St i f t Hf Ht) as [Hw _]. split; cbn; try done.
  - intros j g s Hg Hs. destruct (decide (j = i)) as [->|Hne].
    + rewrite list_lookup_insert_eq in Hs by done. injection Hs as <-. rewrite Hf in Hg. injection Hg as <-.
      rewrite decide_True by done. split; [|done].
      destruct Hlog as [(-> & -> & _)|(-> & _ & -> & _)]; [done|].
      rewrite elem_of_app, list_elem_of_singleton. tauto.
    + rewrite list_lookup_insert_ne in Hs by done. destruct (St j g s Hg Hs) as [Hj Hj'].
      rewrite decide_False in Hj' |- * by congruence. split; [|done].
      destruct Hlog as [(-> & _)|(-> & _)]; [done|].
      rewrite elem_of_app, list_elem_of_singleton. naive_solver.
  - by rewrite length_insert.
  - destruct Hlog as [(-> & _)|(-> & Hwf & _)]; [done|]. split.
    + apply NoDup_app. split; [done|]. split; [|by apply NoDup_singleton].
      intros j Hj ->%list_elem_of_singleton. apply Hw in Hj. congruence.
    + intros j [Hj| ->%list_elem_of_singleton]%elem_of_app; [by apply Slog|]. by rewrite <- Sl.
  - destruct Hlog as [(-> & _ & ->)|(-> & _ & _ & ->)]; [done|].
    rewrite omap_app. cbn. rewrite Hf. cbn. by rewrite fold_left_app, <- Sp.
Qed.

Lemma fill_spec st u k :
  settings_inv st → k ≠ KEY_UNSPECIFIED →
  convert_rows (list_rows (Some u) k (db st)) st =
    match stored (db st) u k with
    | Some v => (Ok [mkSetting u k v], (cache_setting (mkSetting u k v) st).2)
    | None => (Ok [], st)
    end.
Proof.
  intros Hi Hk. rewrite list_rows_one by done. unfold stored.
  destruct (user_settings (db st) !! (u, key_string k)) as [raw|] eqn:Hr; [|done].
  destruct (si_rows _ Hi _ _ _ Hr) as (k' & v & <-%(inj key_string) & _ & Hv). cbn. rewrite Hv.
  rewrite st_bind. unfold st_lift. by rewrite (from_raw _ _ _ v).
Qed.

Lemma cached_pats st u s :
  settings_inv st → userSettingCache st !! (u, PERSONAL_ACCESS_TOKENS) = Some s →
  GetPersonalAccessTokens s = pats (db st) u.
Proof. intros Hi (_ & _ & _ & Hv)%(si_setting _ Hi). unfold pats. by rewrite Hv. Qed.

(** The write of a change. *)
Lemma write_spec st u l' raw :
  settings_inv st → Marshal (VPersonalAccessTokens l') = Ok raw →
  let s := mkSetting u PERSONAL_ACCESS_TOKENS (VPersonalAccessTokens l') in
  let st' := (driver (upsert_row true (mkRaw u PERSONAL_ACCESS_TOKENS raw)) st).2 in
  convertUserSettingFromRaw (mkRaw u PERSONAL_ACCESS_TOKENS raw) = Ok (Some s) ∧
  settings_inv (cache_setting s st').2 ∧ pats (db st') u = l'.
Proof.
  intros Hi Hm s st'. assert (convertUserSettingFromRaw (mkRaw u PERSONAL_ACCESS_TOKENS raw) = Ok (Some s)) as Hc.
  { apply from_raw; [done|]. by apply (Unmarshal_Marshal (VPersonalAccessTokens l')). }
  assert (UpsertUserSetting true s st = (Ok s, (cache_setting s st').2)) as Hu.
  { unfold UpsertUserSetting. rewrite st_bind. unfold st_lift, s. rewrite to_raw, Hm by done.
    rewrite !st_bind, driver_upsert, st_bind. by rewrite Hc. }
  destruct (UpsertUserSetting_spec true st u (VPersonalAccessTokens l') Hi)
    as [(e & E & [?|[e' He]])|(st2 & E & Hi2 & _ & Hw)]; [done|congruence|].
  cbn [kind] in E. fold s in E. rewrite Hu in E. injection E as <-. split; [done|]. split; [done|].
  unfold pats. change (db st') with (db (cache_setting s st').2). rewrite Hw. by rewrite decide_True.
Qed.

Ltac stay := cbn; split_and!; try done; left; by split_and!.
Ltac past_write := cbn; split_and!; try done; right; by split_and!.

Lemma inside_step u f t st held t' st' held' :
  inside u f t st → t ≠ TUnlock → thread_step u t (st, held) = Some (t', (st', held')) →
  inside u f t' st' ∧ held' = held ∧
  (written t' = written t ∧ pats (db st') u = pats (db st) u ∨
   written t = false ∧ written t' = true ∧ pats (db st') u = apply_edit (pats (db st) u) f).
Proof.
  intros Hin Hne Hstep. destruct t as [o|o|o|o rows|g l|s| |r|]; cbn in Hin; try done; cbn [thread_step] in Hstep.
  - destruct Hin as [-> Hi]. injection Hstep as <- <- <-.
    destruct (userSettingCache st !! _) as [s|] eqn:Hc; [|stay].
    cbn. rewrite (cached_pats st u s) by done. stay.
  - destruct Hin as [-> Hi]. injection Hstep as <- <- <-. stay.
  - destruct Hin as (-> & Hi & ->). rewrite fill_spec in Hstep by done.
    destruct (stored (db st) u PERSONAL_ACCESS_TOKENS) as [v|] eqn:Hv; cbn in Hstep;
      injection Hstep as <- <- <-; cbn.
    + unfold pats in *. cbn in *. rewrite Hv. split; [|split; [done|by left]]. split; [done|].
      split; [|done]. apply (cache_setting_inv (set_setting_cache _ st) u _ v); [|done|done].
      by apply cache_setting_inv.
    + unfold pats. rewrite Hv. stay.
  - destruct Hin as (-> & Hi & ->). unfold apply_edit. destruct (f (pats (db st) u)) as [l'|].
    2: { injection Hstep as <- <- <-. past_write. }
    rewrite to_raw in Hstep by done. destruct (Marshal _) as [raw|e] eqn:Hm; cbn [is_ok].
    2: { injection Hstep as <- <- <-. past_write. }
    destruct (write_spec st u l' raw Hi Hm) as (Hc & Hi' & Hp).
    rewrite driver_upsert in *. rewrite Hc in Hstep. injection Hstep as <- <- <-. cbn in *. past_write.
  - injection Hstep as <- <- <-. stay.
Qed.

(** Taking and releasing the lock. *)
Lemma serial_relock u fs init ts st held held' inner inner' log i f t t' :
  serial u fs init ts (st, held) inner log → fs !! i = Some f → ts !! i = Some t →
  inner = Some i ∧ inner' = None ∨ inner = None ∧ inner' = Some i →
  held' = bool_decide (is_Some inner') → written t' = written t → settings_inv st →
  (if decide (inner' = Some i) then inside u f t' st else t' = TDone None) →
  serial u fs init (<[i := t']> ts) (st, held') inner' log.
Proof.
  intros [Sh _ St Sl Sin Slog Sp] Hf Ht Hin Hheld Hw Hi Ht'. cbn in *.
  assert (i < length ts) as Hlt by by eapply lookup_lt_Some.
  destruct (St i f t Hf Ht) as [Hlog _]. split; cbn; try done.
  - intros j g s Hg Hs. destruct (decide (j = i)) as [->|Hne].
    + rewrite list_lookup_insert_eq in Hs by done. injection Hs as <-.
      pose proof (eq_trans (eq_sym Hf) Hg) as [= <-]. rewrite Hw. split; [done|].
      destruct (decide (inner' = Some i)); [done|by right].
    + rewrite list_lookup_insert_ne in Hs by done. destruct (St j g s Hg Hs) as [Hj Hj'].
      split; [done|]. rewrite decide_False by (destruct Hin as [[-> ->]|[-> ->]]; congruence).
      rewrite decide_False in Hj' by (destruct Hin as [[-> ->]|[-> ->]]; congruence). done.
  - by rewrite length_insert.
  - intros j ->. destruct Hin as [[_ ?]|[_ [= ->]]]; [done|]. by rewrite <- Sl.
Qed.

Lemma serial_step u fs init ts w inner log i t t' w' :
  serial u fs init ts w inner log → ts !! i = Some t → thread_step u t w = Some (t', w') →
  ∃ inner' log', serial u fs init (<[i := t']> ts) w' inner' log'.
Proof.
  intros Hs Ht Hstep. destruct w as [st held], w' as [st' held'].
  assert (is_Some (fs !! i)) as [f Hf].
  { apply lookup_lt_is_Some. rewrite <- (se_length _ _ _ _ _ _ _ Hs). by eapply lookup_lt_Some. }
  destruct (se_thread _ _ _ _ _ _ _ Hs i f t Hf Ht) as [Hw Hth].
  destruct (decide (inner = Some i)) as [->|Hne].
  - destruct t as [o|o|o|o rows|g l|s| |r|] eqn:Et; cbn in Hth; try done.
    6: { injection Hstep as <- <- <-. exists None, log.
         eapply (serial_relock u fs init ts st held false (Some i) None); eauto. by rewrite decide_False. }
    all: destruct (inside_step u f t st held t' st' held') as (Hin & -> & Hcase); subst t; [done|done|done|].
    all: destruct Hcase as [[? ?]|(? & ? & ?)]; eexists (Some i), _;
        (eapply (serial_inside _ _ _ _ st); [exact Hs|exact Hf|exact Ht|exact Hin|]); [left|right]; eauto.
  - destruct Hth as [-> | ->]; [|done]. cbn in Hstep. destruct held eqn:Hheld; [done|].
    injection Hstep as <- <- <-. pose proof (se_held _ _ _ _ _ _ _ Hs) as Hh. cbn in Hh.
    symmetry in Hh. apply bool_decide_eq_false, eq_None_not_Some in Hh as ->.
    pose proof (se_free _ _ _ _ _ _ _ Hs eq_refl) as Hi. exists (Some i), log.
    eapply (serial_relock u fs init ts st false true None (Some i)); eauto.
    by rewrite decide_True.
Qed.

Lemma serial_interleave u fs init order : ∀ ts w inner log,
  serial u fs init ts w inner log →
  ∃ inner' log', let '(ts', w') := interleave u order ts w in serial u fs init ts' w' inner' log'.
Proof.
  induction order as [|i order IH]; intros ts w inner log Hs; cbn [interleave]; [by exists inner, log|].
  destruct (ts !! i) as [t|] eqn:Ht; [|by eapply IH].
  destruct (thread_step u t w) as [[t' w']|] eqn:E; [|by eapply IH].
  destruct (serial_step u fs init ts w inner log i t t' w' Hs Ht E) as (inner' & log' & Hs').
  by eapply IH.
Qed.

Definition finished (t : thread) : bool :=
  match t with TDone _ | TFailed => true | _ => false end.

Lemma omap_seq {A} (l : list A) : omap (l !!.) (seq 0 (length l)) = l.
Proof.
  assert (∀ x (m : list A) k, omap ((x :: m) !!.) (map S k) = omap (m !!.) k) as Hs.
  { intros x m k. induction k as [|j k IH]; [done|]. cbn. destruct (m !! j); by rewrite IH. }
  induction l as [|x l IH]; [done|]. cbn [length seq]. rewrite <- seq_shift.
  change (x :: omap ((x :: l) !!.) (map S (seq 0 (length l))) = x :: l). by rewrite Hs, IH.
Qed.

(** The lock makes overlapping changes serial.  Goroutines that change the
    personal access tokens of a user - adding, removing, marking as used, each cut
    into its look at the cache, its query, its write and its release of the
    lock - leave, once all are done and in whatever order their steps came, the
    tokens that some order of the whole changes leaves, each change done once;
    and the cache agrees with the database. *)
Theorem locked_changes_serialize u fs order st ts w :
  settings_inv st →
  interleave u order ((start ∘ PatEdit) <$> fs) (st, false) = (ts, w) →
  forallb finished ts = true →
  settings_inv w.1 ∧ w.2 = false ∧
  ∃ fs', fs' ≡ₚ fs ∧ pats (db w.1) u = fold_left apply_edit fs' (pats (db st) u).
Proof.
  intros Hi E Hfin.
  destruct (serial_interleave u fs _ order _ _ _ _ (serial_start u fs st Hi)) as (inner & log & Hs).
  rewrite E in Hs. clear E.
  assert (∀ i, i < length fs → inner ≠ Some i ∧ i ∈ log) as Hall.
  { intros i Hlt. assert (is_Some (fs !! i)) as [f Hf] by by apply lookup_lt_is_Some.
    assert (is_Some (ts !! i)) as [t Ht].
    { apply lookup_lt_is_Some. by rewrite (se_length _ _ _ _ _ _ _ Hs). }
    destruct (se_thread _ _ _ _ _ _ _ Hs i f t Hf Ht) as [Hw Hth].
    rewrite forallb_forall in Hfin. specialize (Hfin t).
    rewrite <- list_elem_of_In in Hfin. specialize (Hfin (list_elem_of_lookup_2 _ _ _ Ht)).
    destruct (decide (inner = Some i)); [by destruct t|]. split; [done|]. apply Hw.
    by destruct Hth as [-> | ->]. }
  assert (inner = None) as ->.
  { destruct inner as [i|]; [|done].
    by destruct (Hall i (se_inner _ _ _ _ _ _ _ Hs i eq_refl)). }
  destruct (se_log _ _ _ _ _ _ _ Hs) as [Hnd Hlog].
  split; [by apply (se_free _ _ _ _ _ _ _ Hs)|]. split; [apply (se_held _ _ _ _ _ _ _ Hs)|].
  exists (omap (fs !!.) log). split; [|apply (se_list _ _ _ _ _ _ _ Hs)].
  transitivity (omap (fs !!.) (seq 0 (length fs))); [|by rewrite omap_seq].
  apply omap_Permutation, NoDup_Permutation; [done|apply NoDup_seq|].
  intros i. rewrite elem_of_seq. split; [intros Hin; split; [lia|exact (Hlog i Hin)]|].
  intros [_ Hlt]. by apply Hall.
Qed.
(** ** Reads break it *)

Lemma interleave_cons u i order ts w t t' w' :
  ts !! i = Some t → thread_step u t w = Some (t', w') →
  interleave u (i :: order) ts w = interleave u order (<[i := t']> ts) w'.
Proof. intros Ht Hs. cbn [interleave]. by rewrite Ht, Hs. Qed.

(** Filling the cache with rows found earlier, whatever has been written since. *)
Lemma step_fill u o st v now held :
  settings_inv st → stored (db st) u PERSONAL_ACCESS_TOKENS = Some v →
  let s := mkSetting u PERSONAL_ACCESS_TOKENS v in
  thread_step u (TFill o (list_rows (Some u) PERSONAL_ACCESS_TOKENS (db st))) (now, held) =
    Some (got o (Some s), (set_setting_cache <[(u, PERSONAL_ACCESS_TOKENS) := s]>
                            (set_setting_cache <[(u, PERSONAL_ACCESS_TOKENS) := s]> now), held)).
Proof.
  intros Hi Hv s. cbn [thread_step]. rewrite list_rows_one by done. unfold stored in Hv.
  destruct (user_settings (db st) !! (u, key_string PERSONAL_ACCESS_TOKENS)) as [raw|] eqn:Hr; [|done].
  cbn in Hv. destruct (si_rows _ Hi _ _ _ Hr) as (k & v' & <-%(inj key_string) & _ & Hv').
  rewrite Hv' in Hv. injection Hv as ->. cbn [convert_rows].
  rewrite st_bind. unfold st_lift. rewrite (from_raw _ _ _ v) by done. done.
Qed.

(** The state after a list has been written and cached. *)
Definition after_write (u : Z) (l : list PersonalAccessToken) (raw : string) (st : StoreState) : StoreState :=
  (cache_setting (mkSetting u PERSONAL_ACCESS_TOKENS (VPersonalAccessTokens l))
     (driver (upsert_row true (mkRaw u PERSONAL_ACCESS_TOKENS raw)) st).2).2.

Lemma after_write_spec u l raw st :
  settings_inv st → Marshal (VPersonalAccessTokens l) = Ok raw →
  settings_inv (after_write u l raw st) ∧ pats (db (after_write u l raw st)) u = l ∧
  users (db (after_write u l raw st)) = users (db st) ∧
  ∀ v, v ≠ u → pats (db (after_write u l raw st)) v = pats (db st) v.
Proof.
  intros Hi Hm. destruct (write_spec st u l raw Hi Hm) as (Hc & Hi' & Hp). unfold after_write.
  split_and!; [done|done|done|]. intros v Hne. rewrite driver_upsert. unfold pats.
  change (db (cache_setting _ _).2) with (set_settings <[(u, key_string PERSONAL_ACCESS_TOKENS) := raw]> (db st)).
  rewrite (stored_upsert _ _ _ (VPersonalAccessTokens l) raw) by done. by rewrite decide_False by congruence.
Qed.

(** What the cache held of this user before does not matter to it. *)
Lemma after_write_stale u l raw st s :
  after_write u l raw (set_setting_cache <[(u, PERSONAL_ACCESS_TOKENS) := s]> st) = after_write u l raw st.
Proof.
  unfold after_write. rewrite !driver_upsert. unfold cache_setting, modify, set_setting_cache.
  cbn [fst snd st_user st_key set_db db userCache userSettingCache]. by rewrite insert_insert_eq.
Qed.

(** A goroutine that has read the list writes, caches and releases the lock. *)
Lemma interleave_write u i order ts f l l' raw st held :
  ts !! i = Some (TWrite f l) → f l = Some l' → Marshal (VPersonalAccessTokens l') = Ok raw →
  interleave u (i :: i :: i :: order) ts (st, held) =
  interleave u order (<[i := TDone None]> ts) (after_write u l' raw st, false).
Proof.
  intros Ht Hf Hm. assert (i < length ts) as Hlt by by eapply lookup_lt_Some.
  set (s := mkSetting u PERSONAL_ACCESS_TOKENS (VPersonalAccessTokens l')).
  assert (convertUserSettingFromRaw (mkRaw u PERSONAL_ACCESS_TOKENS raw) = Ok (Some s)) as Hc.
  { apply from_raw; [done|]. by apply (Unmarshal_Marshal (VPersonalAccessTokens l')). }
  erewrite interleave_cons; [|exact Ht|].
  2: { cbn [thread_step]. rewrite Hf, to_raw, Hm by done. rewrite driver_upsert, Hc. reflexivity. }
  erewrite interleave_cons; [|by rewrite list_lookup_insert_eq|reflexivity].
  rewrite list_insert_insert_eq.
  erewrite interleave_cons; [|by rewrite list_lookup_insert_eq|reflexivity].
  by rewrite list_insert_insert_eq.
Qed.

(** Nobody else has a token with this hash. *)
Definition sole_hash (d : DB) (u : Z) (t : PersonalAccessToken) : Prop :=
  ∀ v t', t' ∈ pats d v → pat_hash t' = pat_hash t → v = u ∧ t' = t.

Lemma elem_of_touch id used l l' t :
  touch_pat id used l = Some l' → pat_id t ≠ id →
  (t ∈ l → t ∈ l') ∧ ∀ t', t' ∈ l' → t' ∈ l ∨ ∃ s, s ∈ l ∧ pat_id s = id ∧ pat_hash t' = pat_hash s.
Proof.
  revert l'. induction l as [|x l IH]; intros l'; cbn [touch_pat]; [done|].
  destruct (String.eqb_spec (pat_id x) id) as [Hx|Hx].
  - destruct (later_use used x); [done|]. intros [= <-] Ht. split.
    + intros [->|Hin]%elem_of_cons; [done|by right].
    + intros t' [->|Hin]%elem_of_cons; [|left; by right]. right. exists x. by split_and!; [left|..].
  - destruct (touch_pat id used l) as [l2|]; [|done]. intros [= <-] Ht.
    destruct (IH l2 eq_refl Ht) as [Hin Hback]. split.
    + intros [->|?]%elem_of_cons; [by left|right; auto].
    + intros t' [->|Ht']%elem_of_cons; [left; by left|].
      destruct (Hback t' Ht') as [?|(s & ? & ? & ?)]; [left; by right|right; exists s; split_and!; [by right|done..]].
Qed.

(** The token is not accepted, or proves to be its owner. *)
Lemma pat_refused st t tok now :
  settings_inv st → (∀ v t', t' ∈ pats (db st) v → pat_hash t' ≠ pat_hash t) →
  HashPersonalAccessToken tok = pat_hash t → is_ok (AuthenticateByPAT tok now st).1 = false.
Proof.
  intros Hi Hno Ht. unfold AuthenticateByPAT. destruct (negb _); [done|]. rewrite st_bind. unfold st_wrap.
  unfold GetUserByPATHash. rewrite st_bind. cbn [read]. rewrite st_bind. unfold st_lift.
  pose proof (GetUserByPATHash_spec st (HashPersonalAccessToken tok) Hi (hash_nonempty tok)) as Hg.
  destruct (driver_GetUserByPATHash _ _) as [[v t']|]; [|done].
  destruct Hg as [Hin E]. exfalso. apply (Hno v t' Hin). congruence.
Qed.

Lemma pat_accepted st u t row tok now :
  settings_inv st → sole_hash (db st) u t → t ∈ pats (db st) u → users (db st) !! u = Some row →
  us_row_status row ≠ Archived → expired (pat_expires_at t) now = false →
  Str.has_prefix PersonalAccessTokenPrefix tok = true → HashPersonalAccessToken tok = pat_hash t →
  (AuthenticateByPAT tok now st).1 = Ok (u, row, t).
Proof.
  intros Hi Hsole Hin Hrow Ha Hx Hp Ht. unfold AuthenticateByPAT. rewrite Hp. cbn [negb].
  rewrite st_bind. unfold st_wrap, GetUserByPATHash. rewrite st_bind. cbn [read]. rewrite st_bind. unfold st_lift.
  pose proof (GetUserByPATHash_spec st (HashPersonalAccessToken tok) Hi (hash_nonempty tok)) as Hg.
  destruct (driver_GetUserByPATHash _ _) as [[v t']|].
  2: { exfalso. by apply (Hg u t Hin). }
  destruct Hg as [Hin' E]. destruct (Hsole v t' Hin') as [-> ->]; [congruence|].
  rewrite st_bind. cbn [fst]. destruct (GetUser_spec st u Hi) as (st2 & -> & _ & _). rewrite Hrow. cbn.
  rewrite Hx. apply not_archived_spec in Ha. by rewrite Ha.
Qed.

(** The goroutine that lists the tokens reads the database; the removal runs from
    its lock to its end; then the list is put into the cache; then the use runs. *)
Definition until_removed : list nat := [0; 0; 1; 1; 1; 1; 1; 1; 1].
Definition then_used : list nat := [0; 2; 2; 2; 2; 2].

Lemma removal_runs u st v t o k kept raw :
  settings_inv st → userSettingCache st !! (u, PERSONAL_ACCESS_TOKENS) = None →
  stored (db st) u PERSONAL_ACCESS_TOKENS = Some v →
  filter (λ x, pat_id x ≠ t) (pats (db st) u) = kept → Marshal (VPersonalAccessTokens kept) = Ok raw →
  let s := mkSetting u PERSONAL_ACCESS_TOKENS v in
  interleave u until_removed [TLookup PatRead; TLock (remove_pat t); TLock (use_pat o k)] (st, false) =
    ([TFill PatRead (list_rows (Some u) PERSONAL_ACCESS_TOKENS (db st)); TDone None; TLock (use_pat o k)],
     (after_write u kept raw (set_setting_cache <[(u, PERSONAL_ACCESS_TOKENS) := s]>
        (set_setting_cache <[(u, PERSONAL_ACCESS_TOKENS) := s]> st)), false)).
Proof.
  intros Hi Hc Hv Hk Hm s. unfold until_removed.
  erewrite interleave_cons; [|reflexivity|cbn [thread_step]; rewrite Hc; reflexivity].
  erewrite interleave_cons; [|reflexivity|reflexivity].
  erewrite interleave_cons; [|reflexivity|reflexivity].
  erewrite interleave_cons; [|reflexivity|cbn [thread_step]; rewrite Hc; reflexivity].
  erewrite interleave_cons; [|reflexivity|reflexivity].
  erewrite interleave_cons; [|reflexivity|by apply (step_fill u _ st v)].
  assert (GetPersonalAccessTokens s = pats (db st) u) as Hl by (unfold pats; by rewrite Hv).
  erewrite (interleave_write u 1 []); [reflexivity|reflexivity| |exact Hm].
  change (Some (filter (λ x, pat_id x ≠ t) (GetPersonalAccessTokens s)) = Some kept). by rewrite Hl, Hk.
Qed.

Lemma use_runs u st v st2 t o k l' raw :
  settings_inv st → stored (db st) u PERSONAL_ACCESS_TOKENS = Some v →
  touch_pat o k (pats (db st) u) = Some l' → Marshal (VPersonalAccessTokens l') = Ok raw →
  interleave u then_used
    [TFill PatRead (list_rows (Some u) PERSONAL_ACCESS_TOKENS (db st)); t; TLock (use_pat o k)] (st2, false) =
    ([TDone (Some (pats (db st) u)); t; TDone None], (after_write u l' raw st2, false)).
Proof.
  intros Hi Hv Ht Hm. unfold then_used.
  assert (GetPersonalAccessTokens (mkSetting u PERSONAL_ACCESS_TOKENS v) = pats (db st) u) as Hl
    by (unfold pats; by rewrite Hv).
  erewrite interleave_cons; [|reflexivity|by apply (step_fill u _ st v)].
  erewrite interleave_cons; [|reflexivity|reflexivity].
  erewrite interleave_cons; [|reflexivity|].
  2: { cbn [thread_step set_setting_cache userSettingCache]. rewrite lookup_insert_eq. reflexivity. }
  erewrite (interleave_write u 2 []); [|reflexivity| |exact Hm].
  2: { change (touch_pat o k (GetPersonalAccessTokens (mkSetting u PERSONAL_ACCESS_TOKENS v)) = Some l').
       by rewrite Hl. }
  rewrite !after_write_stale. rewrite <- Hl. reflexivity.
Qed.

(** C34. A revoked token can come back.  Take any state in which the caches
    agree with the database and do not hold the tokens of a user [u], a token [t] of
    [u] whose hash no other token has, another token of [u] whose use is to be
    recorded, and lists that can be encoded.  A goroutine that only lists the tokens does not take the lock, so
    there is an interleaving of a listing, the removal of [t] and the use of the
    other token in which the removal returns, [t] is out of the database and
    refused, but the listing then puts the old list into the cache, and the
    use, which reads the cache, writes it back: all goroutines are done, [t] is
    in the database again, and, unless it has expired or [u] is archived, it
    authenticates as [u] again. *)
Theorem revoked_token_returns u st t other used l' :
  settings_inv st → userSettingCache st !! (u, PERSONAL_ACCESS_TOKENS) = None →
  t ∈ pats (db st) u → sole_hash (db st) u t → pat_id t ≠ other →
  touch_pat other used (pats (db st) u) = Some l' →
  is_ok (Marshal (VPersonalAccessTokens (filter (λ x, pat_id x ≠ pat_id t) (pats (db st) u)))) = true →
  is_ok (Marshal (VPersonalAccessTokens l')) = true →
  ∃ before after,
    let '(ts1, w1) := interleave u before (start <$> [PatRead; remove_pat (pat_id t); use_pat other used]) (st, false) in
    let '(ts2, w2) := interleave u after ts1 w1 in
    ts1 !! 1 = Some (TDone None) ∧
    pats (db w1.1) u = filter (λ x, pat_id x ≠ pat_id t) (pats (db st) u) ∧
    forallb finished ts2 = true ∧ pats (db w2.1) u = l' ∧ t ∈ l' ∧
    ∀ tok now, Str.has_prefix PersonalAccessTokenPrefix tok = true → HashPersonalAccessToken tok = pat_hash t →
      is_ok (AuthenticateByPAT tok now w1.1).1 = false ∧
      ∀ row, users (db st) !! u = Some row → us_row_status row ≠ Archived →
        expired (pat_expires_at t) now = false → (AuthenticateByPAT tok now w2.1).1 = Ok (u, row, t).
Proof.
  intros Hi Hc Hin Hsole Hne Ht Hok1 Hok2. exists until_removed, then_used.
  assert (∃ v, stored (db st) u PERSONAL_ACCESS_TOKENS = Some v) as [v Hv].
  { unfold pats in Hin. destruct (stored _ _ _) as [v|]; [eauto|]. by apply not_elem_of_nil in Hin. }
  destruct (Marshal (VPersonalAccessTokens (filter _ _))) as [raw1|] eqn:Hm1; [|done].
  destruct (Marshal (VPersonalAccessTokens l')) as [raw2|] eqn:Hm2; [|done].
  set (kept := filter _ _) in *.
  change (start <$> _) with [TLookup PatRead; TLock (remove_pat (pat_id t)); TLock (use_pat other used)].
  rewrite (removal_runs u st v (pat_id t) other used kept raw1) by done.
  rewrite (use_runs u st v _ _ other used l' raw2) by done. cbn [fst].
  set (s := mkSetting u PERSONAL_ACCESS_TOKENS v).
  set (st0 := set_setting_cache _ (set_setting_cache _ st)).
  assert (settings_inv st0) as Hi0.
  { apply cache_setting_inv; [by apply cache_setting_inv|done|done]. }
  destruct (after_write_spec u kept raw1 st0 Hi0 Hm1) as (Hi1 & Hp1 & Hu1 & Ho1).
  destruct (after_write_spec u l' raw2 _ Hi1 Hm2) as (Hi2 & Hp2 & Hu2 & Ho2).
  destruct (elem_of_touch other used _ _ t Ht Hne) as [Hkeep Hback].
  split_and!; [done|done|done|done|by apply Hkeep|]. intros tok now Hpre Hhash. split.
  - apply (pat_refused _ t); [done| |done]. intros w t' Ht' E. destruct (decide (w = u)) as [->|Hw].
    + rewrite Hp1 in Ht'. apply list_elem_of_filter in Ht' as [Hid Ht'].
      destruct (Hsole u t' Ht' E) as [_ ->]. done.
    + rewrite Ho1 in Ht' by done. by destruct (Hsole w t' Ht' E).
  - intros row Hrow Ha Hx. apply pat_accepted; try done.
    + intros w t' Ht' E. destruct (decide (w = u)) as [->|Hw].
      * rewrite Hp2 in Ht'. destruct (Hback t' Ht') as [Ht''|(x & Hx' & Hid & Hh)]; [by apply Hsole|].
        exfalso. destruct (Hsole u x Hx') as [_ ->]; congruence.
      * rewrite Ho2, Ho1 in Ht' by done. by apply Hsole.
    + rewrite Hp2. by apply Hkeep.
Qed.
End race.

(** ** Examples *)

From S2P Require Import PlainCodec.

Definition two_changes : list edit :=
  [(λ l, Some (filter (λ t, pat_id t ≠ "a") l)); touch_pat "b" (Some 9%Z)].
Definition two_changes_order : list nat := [0; 1; 0; 0; 0; 1; 0; 0; 0; 1; 1; 1; 1; 1; 1].

Lemma locked_changes_serialize_witness :
  let '(ts, w) := interleave 1 two_changes_order ((start ∘ PatEdit) <$> two_changes) (two_tokens, false) in
  pats (db w.1) 1 = [mkPAT "b" "hash-b" "" None None (Some 9%Z)] ∧
  ∃ fs', fs' ≡ₚ two_changes ∧
    pats (db w.1) 1 = fold_left apply_edit fs' (pats (db two_tokens) 1).
Proof.
  destruct (interleave 1 two_changes_order ((start ∘ PatEdit) <$> two_changes) (two_tokens, false))
    as [ts w] eqn:E.
  split; [replace w with (ts, w).2 by reflexivity; rewrite <- E; vm_compute; reflexivity|].
  apply (locked_changes_serialize 1 two_changes two_changes_order two_tokens ts w
           (proj1 (reached_inv two_tokens two_tokens_reached)) E).
  replace ts with (ts, w).1 by reflexivity. rewrite <- E. vm_compute. reflexivity.
Defined.

(** Ada's first token is the one the text "memos_pat_abc" proves; the caches have
    dropped the tokens. *)
Definition ada_other : PersonalAccessToken := mkPAT "b" "hash-b" "" None None None.
Definition ada_tokens : StoreState :=
  (serve_setting true (OpEvict [] [(1%Z, PERSONAL_ACCESS_TOKENS)])
    (serve_setting true (OpAddPAT 1 ada_other) ada_state).2).2.

Lemma ada_tokens_reached : reached ada_tokens.
Proof. do 2 (apply reached_step; [|done|done]). apply ada_reached. Qed.

Lemma added_pats st u t keys v x :
  reached st →
  x ∈ pats (db (serve_setting true (OpEvict [] keys) (serve_setting true (OpAddPAT u t) st).2).2) v →
  x ∈ pats (db st) v ∨ v = u ∧ x = t.
Proof.
  intros [Hi Hf]%reached_inv.
  destruct (serve_setting_spec true (OpAddPAT u t) st Hi Hf I) as (r & st' & -> & _ & _ & Hw).
  change (x ∈ pats (db st') v → x ∈ pats (db st) v ∨ v = u ∧ x = t).
  unfold pats at 1. rewrite Hw. destruct r as [a|]; [|by left]. cbn [after_op]. unfold upd.
  case_decide as Hd; [|by left]. injection Hd as ->.
  intros [Hin|Hin%list_elem_of_singleton]%elem_of_app; auto.
Qed.

Lemma ada_tokens_pats u t : t ∈ pats (db ada_tokens) u → u = 1%Z ∧ (t = ada_pat ∨ t = ada_other).
Proof. intros [[-> ->]%ada_pats|[-> ->]]%added_pats; [auto..|apply ada_reached]. Qed.

Lemma revoked_token_returns_witness :
  ∃ before after,
    let '(ts1, w1) := interleave 1 before (start <$> [PatRead; remove_pat (pat_id ada_pat); use_pat "b" (Some 9%Z)])
                        (ada_tokens, false) in
    let '(ts2, w2) := interleave 1 after ts1 w1 in
    ts1 !! 1 = Some (TDone None) ∧ forallb finished ts2 = true ∧
    is_ok (AuthenticateByPAT "memos_pat_abc" 5 w1.1).1 = false ∧
    (AuthenticateByPAT "memos_pat_abc" 5 w2.1).1 = Ok (1%Z, ada_row, ada_pat).
Proof.
  destruct (revoked_token_returns 1 ada_tokens ada_pat "b" (Some 9%Z)
    [ada_pat; mkPAT "b" "hash-b" "" None None (Some 9%Z)]) as (before & after & Hrun).
  - exact (proj1 (reached_inv _ ada_tokens_reached)).
  - vm_compute. reflexivity.
  - replace (pats (db ada_tokens) 1) with [ada_pat; ada_other] by (vm_compute; reflexivity). by left.
  - assert (String.eqb (pat_hash ada_other) (pat_hash ada_pat) = false) as Hh%String.eqb_neq
      by (vm_compute; reflexivity).
    intros v t' [-> [-> | ->]]%ada_tokens_pats E; [by split|]. by destruct Hh.
  - discriminate.
  - vm_compute. reflexivity.
  - vm_compute. reflexivity.
  - vm_compute. reflexivity.
  - exists before, after. revert Hrun.
    destruct (interleave 1 before _ _) as [ts1 w1]. destruct (interleave 1 after ts1 w1) as [ts2 w2]. intros Hrun.
    destruct Hrun as (H1 & _ & H2 & _ & _ & Ha). destruct (Ha "memos_pat_abc" 5%Z eq_refl eq_refl) as [Hb Hc].
    split_and!; [done..|]. apply Hc; [|discriminate|reflexivity]. vm_compute. reflexivity.
Defined.

(** An update of a webhook that the database refuses is shown by later reads. *)
Lemma failed_webhook_update_shows :
  let w := mkWebhook "w" "" "https://old" "" in
  let w' := mkWebhook "w" "" "https://new" "" in
  let st := (serve_setting true (OpAddWebhook 1 w) two_tokens).2 in
  reached st ∧
  is_ok (UpdateUserWebhook false 1 w' st).1 = false ∧
  let st' := (UpdateUserWebhook false 1 w' st).2 in
  webhooks (db st') 1 = [w] ∧ (GetUserWebhooks 1 st').1 = Ok [w'].
Proof.
  cbn zeta. split; [apply reached_step; [apply two_tokens_reached|done|done]|].
  vm_compute. done.
Qed.
