(* ===== verification/SessionFacts.v ===== *)
(** Sessions and personal access tokens: signing in, the rotation of refresh
    tokens, and who may make, list and revoke personal access tokens. *)
From S2P Require Import Prelude GoLib GoTime GoText Sha256 ResourceName Store SpaceStore SpaceStoreFacts SpaceSafety.
From S2P Require Import UserSettings PlainCodec UserSettingsFacts SettingsSafety MemoAccess UserAgent Auth PlainJWT AuthService AuthFacts.

Section session_facts.
Context `{ProtoJSON} `{JWT} `{Text.GoUnicode}.
Variable secret : string.

(** ** New tokens *)

Lemma new_refresh_token_spec md u uuid now st :
  ∃ tok client, GenerateRefreshToken u uuid secret now = Ok (tok, (now + RefreshTokenDuration)%Z) ∧
    new_refresh_token secret md u uuid now st =
      (Ok (tok, (now + RefreshTokenDuration)%Z,
           mkRefreshToken uuid (Some (now + RefreshTokenDuration)%Z) (Some now) client ""), st).
Proof.
  destruct (SignedString_ok token_header
    (refresh_members (mkRefreshClaims "refresh" uuid
       (mkRegistered Issuer [RefreshTokenAudienceName] (itoa u) (Some (NewNumericDate now)) None
          (Some (NewNumericDate (now + RefreshTokenDuration)%Z))))) secret) as [tok Hs].
  assert (GenerateRefreshToken u uuid secret now = Ok (tok, (now + RefreshTokenDuration)%Z)) as Hg.
  { unfold GenerateRefreshToken. cbn zeta. by rewrite Hs. }
  pose proof (extractClientInfo_ok md) as Hc. destruct (extractClientInfo md) as [client|] eqn:Ec; [|done].
  exists tok, client. split; [done|]. unfold new_refresh_token. rewrite st_bind. unfold st_status, st_lift.
  rewrite Hg, st_bind, Ec. done.
Qed.

Lemma new_access_token_spec u row now st :
  ∃ tok, GenerateAccessTokenV2 u (us_username row) (us_role row) (us_row_status row) secret now =
           Ok (tok, (now + AccessTokenDuration)%Z) ∧
    new_access_token secret (u, row) now st = (Ok (tok, (now + AccessTokenDuration)%Z), st).
Proof.
  destruct (SignedString_ok token_header
    (access_members (mkAccessClaims "access" (us_role row) (us_row_status row) (us_username row)
       (mkRegistered Issuer [AccessTokenAudienceName] (itoa u) (Some (NewNumericDate now)) None
          (Some (NewNumericDate (now + AccessTokenDuration)%Z))))) secret) as [tok Hs].
  assert (GenerateAccessTokenV2 u (us_username row) (us_role row) (us_row_status row) secret now =
    Ok (tok, (now + AccessTokenDuration)%Z)) as Hg.
  { unfold GenerateAccessTokenV2. cbn zeta. by rewrite Hs. }
  exists tok. split; [done|]. unfold new_access_token, st_status, st_lift. cbn [fst snd]. by rewrite Hg.
Qed.

(** What a session is worth over the database [d]: its access token proves to be
    [u], and its cookie carries a refresh token whose record is [id]. *)
Record session_of (s : Session) (md : option Metadata) (d : DB) (u : Z) (row : User) (id : string)
    (now : Z) : Prop := {
  so_access now' : proves secret d now' (se_access_token s) u ↔ (now' < token_end (se_expires_at s))%Z;
  so_expires : se_expires_at s = (now + AccessTokenDuration)%Z;
  so_cookie : ∃ tok, se_set_cookie s = buildRefreshTokenCookie md tok (Some (now + RefreshTokenDuration)%Z) ∧
    compact tok ∧
    ((∃ t, find (λ t, String.eqb (rt_id t) id) (refresh_tokens d u) = Some t ∧
           rt_expires_at t = Some (now + RefreshTokenDuration)%Z) →
     ∀ now', refreshes secret d now' tok u row id ↔ (now' < token_end (now + RefreshTokenDuration))%Z);
}.

Lemma token_end_le t : (token_end t ≤ t)%Z.
Proof. unfold token_end. pose proof (NewNumericDate_seconds t). lia. Qed.

Lemma compact_not_pat tok : compact tok →
  Str.has_prefix PersonalAccessTokenPrefix tok = false ∧ tok ≠ "".
Proof.
  intros [Hp _]. unfold Str.has_prefix, PersonalAccessTokenPrefix in *.
  destruct tok as [|a tok]; [done|]. cbn [String.prefix] in *.
  by destruct (ascii_dec "e" a) as [<-|].
Qed.

Lemma session_made md d u row id now access refresh :
  GoInt.is_int32 u → users d !! u = Some row → us_row_status row ≠ Archived →
  GenerateAccessTokenV2 u (us_username row) (us_role row) (us_row_status row) secret now =
    Ok (access, (now + AccessTokenDuration)%Z) →
  GenerateRefreshToken u id secret now = Ok (refresh, (now + RefreshTokenDuration)%Z) →
  session_of (mkSession access (now + AccessTokenDuration)%Z
    (buildRefreshTokenCookie md refresh (Some (now + RefreshTokenDuration)%Z))) md d u row id now.
Proof.
  intros Hu Hrow Ha Hacc Href.
  destruct (GenerateAccessTokenV2_spec secret _ _ _ _ _ _ _ Hacc Hu) as (_ & Hc & Hproves).
  destruct (GenerateRefreshToken_spec secret _ _ _ _ _ Href Hu) as (_ & Hc' & Hrefreshes).
  split; cbn; [|done|].
  - intros now'. destruct (compact_not_pat _ Hc) as [Hp Hne]. unfold proves. rewrite Hp.
    rewrite (Hproves now' u). split; [by intros (_ & _ & _ & ?)|]. intros He. split_and!; try done. by exists row.
  - exists refresh. split_and!; [done..|]. intros (t & Ht & Hexp) now'. unfold refreshes. rewrite Hrefreshes. split.
    + by intros ((_ & _ & ?) & _).
    + intros He. split_and!; try done. exists t. split; [done|]. unfold expired. rewrite Hexp.
      apply Z.ltb_ge. pose proof (token_end_le (now + RefreshTokenDuration)). lia.
Qed.

Lemma find_app {A} (f : A → bool) (l k : list A) :
  find f (l ++ k) = match find f l with Some x => Some x | None => find f k end.
Proof. induction l as [|x l IH]; [done|]. cbn. by destruct (f x). Qed.

Lemma find_filter_ne (l : list UserSettings.RefreshToken) old id :
  old ≠ id → find (λ t, String.eqb (rt_id t) id) (filter (λ t, rt_id t ≠ old) l) =
             find (λ t, String.eqb (rt_id t) id) l.
Proof.
  intros Hne. induction l as [|t l IH]; [done|]. rewrite filter_cons. cbn [find].
  destruct (decide (rt_id t ≠ old)) as [Ht|Ht]; cbn [find]; [by rewrite IH|].
  apply dec_stable in Ht. rewrite IH. by rewrite (proj2 (String.eqb_neq (rt_id t) id)) by congruence.
Qed.

Lemma find_filter_gone (l : list UserSettings.RefreshToken) id :
  find (λ t, String.eqb (rt_id t) id) (filter (λ t, rt_id t ≠ id) l) = None.
Proof.
  induction l as [|t l IH]; [done|]. rewrite filter_cons. destruct (decide (rt_id t ≠ id)) as [Ht|Ht]; [|done].
  cbn. by rewrite IH, (proj2 (String.eqb_neq _ _) Ht).
Qed.

Lemma find_fresh (l : list UserSettings.RefreshToken) id :
  id ∉ rt_id <$> l → find (λ t, String.eqb (rt_id t) id) l = None.
Proof.
  induction l as [|t l IH]; [done|]. cbn. intros [Hne Hl]%not_elem_of_cons.
  rewrite (proj2 (String.eqb_neq (rt_id t) id)) by congruence. by apply IH.
Qed.

Lemma find_id (l : list UserSettings.RefreshToken) id t :
  find (λ t, String.eqb (rt_id t) id) l = Some t → id ∈ rt_id <$> l.
Proof.
  intros [Hin E%String.eqb_eq]%find_some. apply list_elem_of_fmap. exists t.
  by rewrite list_elem_of_In.
Qed.

(** ** Writes of a list that succeed *)

Lemma upd_refresh_tokens d u l w :
  (∀ v k, stored d v k = upd u REFRESH_TOKENS (VRefreshTokens l) w v k) → refresh_tokens d u = l.
Proof. intros E. unfold refresh_tokens. rewrite E. unfold upd. by rewrite decide_True. Qed.

(** A write succeeds when the value can be encoded ([protojson] refuses text that
    is not UTF-8) and the database takes it. *)
Lemma UpsertUserSetting_ok up st u v :
  is_ok (UpsertUserSetting up (mkSetting u (kind v) v) st).1 = up && is_ok (Marshal v).
Proof.
  assert (kind v ≠ KEY_UNSPECIFIED) as Hk by by destruct v.
  unfold UpsertUserSetting. rewrite st_bind. unfold st_lift. rewrite to_raw by done.
  destruct (Marshal v) as [raw|e] eqn:Hm; [|by destruct up].
  destruct up; [|done]. unfold driver, upsert_row, run. cbn.
  by rewrite (from_raw _ _ _ v) by (done || by apply Unmarshal_Marshal).
Qed.

Definition without (id : string) (l : list UserSettings.RefreshToken) : list UserSettings.RefreshToken :=
  filter (λ t, rt_id t ≠ id) l.

(** Whether the removal of a record, whose failure is only logged, took place. *)
Definition removal (up : bool) (id : string) (l : list UserSettings.RefreshToken) : bool :=
  up && is_ok (Marshal (VRefreshTokens (without id l))).

Lemma RemoveUserRefreshToken_ok up st u id :
  settings_inv st →
  is_ok (RemoveUserRefreshToken up u id st).1 = removal up id (refresh_tokens (db st) u).
Proof.
  intros Hi. unfold RemoveUserRefreshToken. rewrite st_bind.
  destruct (refresh_tokens_spec st u Hi) as (st' & -> & _ & Hi'). rewrite st_bind.
  pose proof (UpsertUserSetting_ok up st' u (VRefreshTokens (without id (refresh_tokens (db st) u)))) as Hok.
  cbn [kind] in Hok. unfold removal. rewrite <- Hok.
  unfold without. by destruct (UpsertUserSetting _ _ st') as [[?|?] ?].
Qed.

(** ** Rotation *)

Lemma subject_int32 c u : subject_is c u → GoInt.is_int32 u.
Proof. intros Hs%Strconv.parse_int_range. exact Hs. Qed.

(** What [RefreshToken] does when it succeeds. *)
Lemma RefreshToken_Ok up1 up2 st md uuid now s st' :
  settings_inv st → RefreshToken secret up1 up2 md uuid now st = (Ok s, st') →
  ∃ u row old record, refreshes secret (db st) now (cookie_token md) u row old ∧
    rt_id record = uuid ∧ rt_expires_at record = Some (now + RefreshTokenDuration)%Z ∧
    settings_inv st' ∧ same_users (db st) (db st') ∧
    (∀ v k, stored (db st') v k = upd u REFRESH_TOKENS
       (VRefreshTokens (if removal up2 old (refresh_tokens (db st) u ++ [record])
                        then without old (refresh_tokens (db st) u ++ [record])
                        else refresh_tokens (db st) u ++ [record]))
       (stored (db st)) v k) ∧
    session_of s md (db st') u row uuid now.
Proof.
  intros Hi. unfold RefreshToken. destruct (String.eqb_spec (cookie_token md) "") as [|Hne]; [done|].
  rewrite st_bind. unfold st_status at 1.
  destruct (AuthenticateByRefreshToken_spec secret st (cookie_token md) now Hi) as (r & st1 & -> & Hdb1 & Hi1 & Hr).
  destruct r as [[[u row] old]|e]; [|done]. pose proof (proj1 (Hr u row old) eq_refl) as Href.
  pose proof Href as ((c & _ & Hu%subject_int32 & _) & _ & Hrow & Ha).
  rewrite st_bind. destruct (new_refresh_token_spec md u uuid now st1) as (tok & client & Hg & ->).
  set (record := mkRefreshToken uuid _ _ _ _). rewrite st_bind. unfold st_status at 1.
  destruct (AddUserRefreshToken_spec up1 st1 u record Hi1) as (r2 & st2 & -> & Hi2 & [Hu2 Hn2] & Hw2).
  destruct r2 as [[]|e]; [|done]. rewrite st_bind. unfold ignore_err.
  assert (refresh_tokens (db st2) u = refresh_tokens (db st) u ++ [record]) as Hl2.
  { unfold refresh_tokens at 1. rewrite Hw2, Hdb1. unfold upd. by rewrite decide_True. }
  pose proof (RemoveUserRefreshToken_ok up2 st2 u old Hi2) as Hok. rewrite Hl2 in Hok.
  destruct (RemoveUserRefreshToken_spec up2 st2 u old Hi2) as (r3 & st3 & E3 & Hi3 & [Hu3 Hn3] & Hw3).
  rewrite E3 in Hok |- *. cbn in Hok. rewrite st_bind.
  destruct (new_access_token_spec u row now st3) as (acc & Hacc & ->). cbn [fst snd].
  assert (users (db st3) = users (db st) ∧ next_user (db st3) = next_user (db st)) as [Hus Hns].
  { rewrite Hu3, Hn3, Hu2, Hn2, Hdb1. done. }
  intros [= <- <-]. exists u, row, old, record. split_and!; [done..| |].
  - intros v k. rewrite Hw3, <- Hok. destruct r3 as [[]|e]; cbn [is_ok]; unfold upd in *; rewrite ?Hl2.
    + case_decide; [done|]. rewrite Hw2, Hdb1. by rewrite decide_False.
    + rewrite Hw2, Hdb1. done.
  - apply session_made; try done. by rewrite Hus.
Qed.

(** A presented refresh token is judged by the rows of the database. *)
Lemma authenticate_refresh st tok now r st' :
  settings_inv st → AuthenticateByRefreshToken secret tok now st = (r, st') →
  ∀ u row id, r = Ok (u, row, id) ↔ refreshes secret (db st) now tok u row id.
Proof.
  intros Hi E. destruct (AuthenticateByRefreshToken_spec secret st tok now Hi) as (r' & st2 & E' & _ & _ & Hr).
  rewrite E in E'. by injection E' as <- <-.
Qed.

(** What became of the old token: gone, or as good as it was. *)
Lemma old_token_gone d d' now tok u row old l :
  refreshes secret d now tok u row old → refresh_tokens d' u = without old l →
  ∀ now' v row' id, ¬ refreshes secret d' now' tok v row' id.
Proof.
  intros ((c & (Hd & _) & Hsc & Hi1) & _) Hl now' v row' id ((c' & (Hd' & _) & Hs' & Hi2) & (t & Ht & _) & _).
  rewrite Hd in Hd'. injection Hd' as <-.
  assert (v = u) as -> by (unfold subject_is in *; congruence).
  rewrite Hl, <- Hi2, Hi1 in Ht. unfold without in Ht. by rewrite find_filter_gone in Ht.
Qed.

Lemma old_token_kept d d' now tok u row old record :
  refreshes secret d now tok u row old → users d' = users d →
  refresh_tokens d' u = refresh_tokens d u ++ [record] →
  ∀ now', refreshes secret d' now' tok u row old ↔ refreshes secret d now' tok u row old.
Proof.
  intros (_ & (t & Ht & _) & _) Hus Hl now'. unfold refreshes. rewrite Hus, Hl, find_app, Ht. done.
Qed.

Lemma find_without_kept (l : list UserSettings.RefreshToken) old id (removed : bool) :
  old ≠ id → find (λ t, String.eqb (rt_id t) id) (if removed then without old l else l) =
             find (λ t, String.eqb (rt_id t) id) l.
Proof. intros Hne. destruct removed; [by apply find_filter_ne|done]. Qed.

(** C30. A refresh rotates the session.  When [RefreshToken] answers, the refresh
    token of the request was one of an existing user who is not archived, the
    user's list of refresh tokens has gained the new record, and no other setting
    and no account has changed.  The removal of the old record, whose failure is
    only logged, took place exactly when the shortened list could be encoded and
    the database took it: then the old refresh token is refused in the state that
    results, whenever it is presented; otherwise it stays in the list and as good as
    it was.  In both cases the new one, in the cookie of the answer, opens sessions
    of the same user for thirty days if its id, drawn at random, was not in the list
    before, and the access token of the answer proves to be the
    user for fifteen minutes, in whole seconds. *)
Theorem refresh_rotates up1 up2 st md uuid now s st' :
  reached st → RefreshToken secret up1 up2 md uuid now st = (Ok s, st') →
  ∃ u row old record, refreshes secret (db st) now (cookie_token md) u row old ∧
    rt_id record = uuid ∧ users (db st') = users (db st) ∧
    let all := refresh_tokens (db st) u ++ [record] in
    let removed := removal up2 old all in
    (∀ v k, stored (db st') v k = upd u REFRESH_TOKENS
       (VRefreshTokens (if removed then without old all else all)) (stored (db st)) v k) ∧
    (∀ now' r st'', AuthenticateByRefreshToken secret (cookie_token md) now' st' = (r, st'') →
       if removed then is_ok r = false
       else r = Ok (u, row, old) ↔ refreshes secret (db st) now' (cookie_token md) u row old) ∧
    (uuid ∉ rt_id <$> refresh_tokens (db st) u →
     ∃ tok, se_set_cookie s = buildRefreshTokenCookie md tok (Some (now + RefreshTokenDuration)%Z) ∧
       ∀ now' r st'', AuthenticateByRefreshToken secret tok now' st' = (r, st'') →
         (r = Ok (u, row, uuid) ↔ (now' < token_end (now + RefreshTokenDuration))%Z)) ∧
    se_expires_at s = (now + AccessTokenDuration)%Z ∧
    ∀ now', proves secret (db st') now' (se_access_token s) u ↔ (now' < token_end (se_expires_at s))%Z.
Proof.
  intros [Hi _]%reached_inv E.
  destruct (RefreshToken_Ok up1 up2 st md uuid now s st' Hi E)
    as (u & row & old & record & Href & Hid & Hexp & Hi' & [Hus Hns] & Hw & [Hacc Hse (tok & Hck & Hc & Hnew)]).
  exists u, row, old, record. cbv zeta. pose proof (upd_refresh_tokens _ _ _ _ Hw) as Hl. split_and!; try done.
  - intros now' r st'' Ea. pose proof (authenticate_refresh _ _ _ _ _ Hi' Ea) as Hr.
    destruct (removal _ _ _).
    + destruct r as [[[v row'] id]|]; [|done]. exfalso.
      by eapply old_token_gone, (proj1 (Hr v row' id)).
    + rewrite Hr. by eapply old_token_kept.
  - intros Hfresh. exists tok. split; [done|]. intros now' r st'' Ea.
    rewrite (authenticate_refresh _ _ _ _ _ Hi' Ea). apply Hnew. exists record. split; [|done].
    rewrite Hl, find_without_kept; [|intros ->; destruct Href as (_ & (t & Ht & _) & _); by apply find_id in Ht].
    rewrite find_app, find_fresh by done. cbn. by rewrite Hid, String.eqb_refl.
Qed.

(** ** Users by name *)

(** [username] is UNIQUE, and the ids are [int32]. *)
Definition unique_names (d : DB) : Prop := ∀ u v ru rv,
  users d !! u = Some ru → users d !! v = Some rv → us_username ru = us_username rv → u = v.
Definition small_ids (d : DB) : Prop := ∀ u, is_Some (users d !! u) → GoInt.is_int32 u.

Lemma elem_of_users_named name d u row :
  (u, row) ∈ users_named name d ↔ users d !! u = Some row ∧ us_username row = name.
Proof.
  unfold users_named. rewrite elem_of_map_to_list, map_lookup_filter_Some. naive_solver.
Qed.

Lemma GetUserByUsername_spec st name :
  settings_inv st →
  ∃ r st', GetUserByUsername name st = (Ok r, st') ∧ db st' = db st ∧ settings_inv st' ∧
    match r with
    | Some (u, row) => users (db st) !! u = Some row ∧ us_username row = name
    | None => ∀ u row, users (db st) !! u = Some row → us_username row ≠ name
    end.
Proof.
  intros Hi. unfold GetUserByUsername. rewrite st_bind. cbn [read]. rewrite st_bind. unfold modify.
  eexists _, _. split; [reflexivity|]. split; [by destruct st|]. split.
  - refine (settings_inv_users st (λ d, d) _ Hi _ _); [done|]. intros u row.
    assert (∀ (l : list (Z * User)) (c : gmap Z User), (∀ p, p ∈ l → users (db st) !! p.1 = Some p.2) →
      (∀ u row, c !! u = Some row → users (db st) !! u = Some row) →
      ∀ u row, fold_left (λ c kv, <[kv.1 := kv.2]> c) l c !! u = Some row → users (db st) !! u = Some row) as Hfold.
    { induction l as [|[v rv] l IH]; intros c Hl Hc; [done|]. cbn. apply IH.
      - intros p Hp. apply Hl. by right.
      - intros u' row'. rewrite lookup_insert_Some. intros [[<- <-]|[_ Hr]]; [|by apply Hc].
        apply (Hl (v, rv)). by left. }
    apply Hfold; [|apply (si_user _ Hi)]. intros [v rv] Hp. by apply elem_of_users_named in Hp as [? _].
  - destruct (users_named name (db st)) as [|[u row] l] eqn:El; cbn.
    + intros u row Hr E. assert ((u, row) ∈ users_named name (db st)) as Hin by by apply elem_of_users_named.
      rewrite El in Hin. by apply not_elem_of_nil in Hin.
    + apply elem_of_users_named. rewrite El. left.
Qed.

(** ** Signing in *)

Lemma doSignIn_spec up md uuid now u row st :
  settings_inv st → GoInt.is_int32 u → users (db st) !! u = Some row → us_row_status row ≠ Archived →
  ∃ s st' record, doSignIn secret up md uuid now (u, row) st = (Ok s, st') ∧ settings_inv st' ∧
    same_users (db st) (db st') ∧ session_of s md (db st') u row uuid now ∧
    rt_id record = uuid ∧ rt_expires_at record = Some (now + RefreshTokenDuration)%Z ∧
    ((∀ v k, stored (db st') v k = upd u REFRESH_TOKENS
        (VRefreshTokens (refresh_tokens (db st) u ++ [record])) (stored (db st)) v k) ∨
     (∀ v k, stored (db st') v k = stored (db st) v k)).
Proof.
  intros Hi Hu Hrow Ha. unfold doSignIn. cbn [fst snd]. rewrite st_bind.
  destruct (new_refresh_token_spec md u uuid now st) as (tok & client & Hg & ->).
  set (record := mkRefreshToken uuid _ _ _ _). rewrite st_bind. unfold ignore_err.
  destruct (AddUserRefreshToken_spec up st u record Hi) as (r & st2 & -> & Hi2 & [Hu2 Hn2] & Hw2).
  rewrite st_bind. destruct (new_access_token_spec u row now st2) as (acc & Hacc & ->). cbn [fst snd].
  eexists _, st2, record. split; [reflexivity|]. split_and!; try done.
  - apply session_made; try done. by rewrite Hu2.
  - destruct r; [by left|by right].
Qed.

(** Who may sign in with a name and a password. *)
Definition may_sign_in (compare : string → string → bool) (disallow : result error bool) (d : DB)
    (name password : string) (u : Z) (row : User) : Prop :=
  users d !! u = Some row ∧ us_username row = name ∧ compare (us_password_hash row) password = true ∧
  (∃ b, disallow = Ok b ∧ (b = true → us_role row ≠ RoleUser)) ∧ us_row_status row ≠ Archived.

Lemma check_password_spec compare disallow name password st :
  settings_inv st → unique_names (db st) →
  ∃ r st', check_password compare disallow name password st = (r, st') ∧ db st' = db st ∧ settings_inv st' ∧
    ∀ u row, us_row_status row ≠ Archived →
      (r = Ok (u, row) ↔ may_sign_in compare disallow (db st) name password u row).
Proof.
  intros Hi Hn. unfold check_password. rewrite st_bind. unfold st_status at 1.
  destruct (GetUserByUsername_spec st name Hi) as (r & st1 & -> & Hdb & Hi1 & Hr).
  destruct r as [[u row]|].
  2: { eexists _, st1. split; [reflexivity|]. split_and!; [done..|]. intros u row _. split; [done|].
       intros (Hrow & Hname & _). by destruct (Hr u row). }
  destruct Hr as [Hrow Hname].
  assert (∀ v rv, users (db st) !! v = Some rv → us_username rv = name → v = u ∧ rv = row) as Hsame.
  { intros v rv Hv Ev. assert (v = u) as -> by (eapply Hn; [exact Hv|exact Hrow|congruence]). split; congruence. }
  destruct (compare (us_password_hash row) password) eqn:Hc; cbn [negb].
  2: { eexists _, st1. split; [reflexivity|]. split_and!; [done..|]. intros v rv _. split; [done|].
       intros (Hv & Ev & Hcv & _). destruct (Hsame v rv Hv Ev) as [-> ->]. congruence. }
  rewrite st_bind. unfold st_status, st_lift. destruct disallow as [b|e].
  2: { eexists _, st1. split; [reflexivity|]. split_and!; [done..|]. intros v rv _. split; [done|].
       by intros (_ & _ & _ & (b & ? & _) & _). }
  destruct (b && String.eqb (us_role row) RoleUser) eqn:Hb.
  - eexists _, st1. split; [reflexivity|]. split_and!; [done..|]. intros v rv _. split; [done|].
    intros (Hv & Ev & _ & (b' & [= <-] & Hrole) & _). destruct (Hsame v rv Hv Ev) as [-> ->].
    apply andb_true_iff in Hb as [-> Hb%String.eqb_eq]. by destruct (Hrole eq_refl).
  - eexists _, st1. split; [reflexivity|]. split_and!; [done..|]. intros v rv Ha. split.
    + intros [= <- <-]. split_and!; try done. exists b. split; [done|]. intros ->.
      by apply String.eqb_neq.
    + intros (Hv & Ev & _). by destruct (Hsame v rv Hv Ev) as [-> ->].
Qed.

(** C31. Signing in with a password succeeds exactly for the user of that name whose
    password hash accepts it, who is not archived and, where the instance disallows
    password sign-in, is not a plain user; a refusal changes nothing.  The session
    that is opened is the user's: its access token proves to be the user for fifteen
    minutes, and its cookie refreshes for thirty days provided that the record of
    the refresh token was stored - a failure to store it is only logged. *)
Theorem sign_in_exact compare disallow up md uuid now name password st :
  reached st → unique_names (db st) → small_ids (db st) →
  ∃ r st', SignIn secret compare disallow up md uuid now (PasswordCredentials name password) st = (r, st') ∧
    users (db st') = users (db st) ∧
    match r with
    | Ok (u, row, s) =>
        may_sign_in compare disallow (db st) name password u row ∧
        session_of s md (db st') u row uuid now ∧
        ((∃ record, rt_id record = uuid ∧ rt_expires_at record = Some (now + RefreshTokenDuration)%Z ∧
          ∀ v k, stored (db st') v k = upd u REFRESH_TOKENS
            (VRefreshTokens (refresh_tokens (db st) u ++ [record])) (stored (db st)) v k) ∨
         ∀ v k, stored (db st') v k = stored (db st) v k)
    | Err _ => (∀ u row, ¬ may_sign_in compare disallow (db st) name password u row) ∧ db st' = db st
    end.
Proof.
  intros [Hi _]%reached_inv Hn Hids. unfold SignIn. rewrite st_bind.
  destruct (check_password_spec compare disallow name password st Hi Hn) as (r & st1 & -> & Hdb & Hi1 & Hr).
  destruct r as [[u row]|e]; cbn [snd].
  2: { eexists _, st1. split; [reflexivity|]. rewrite Hdb. split_and!; [done| |done].
       intros u row Hm. pose proof Hm as (_ & _ & _ & _ & Ha). by apply Hr in Hm. }
  destruct (String.eqb_spec (us_row_status row) Archived) as [Harch|Ha].
  { eexists _, st1. split; [reflexivity|]. rewrite Hdb. split_and!; [done| |done].
    intros v rv Hm. pose proof Hm as (_ & _ & _ & _ & Ha). apply Hr in Hm; [|done]. congruence. }
  pose proof (proj1 (Hr u row Ha) eq_refl) as Hm. pose proof Hm as (Hrow & _).
  rewrite st_bind. unfold st_status.
  destruct (doSignIn_spec up md uuid now u row st1 Hi1) as (s & st2 & record & -> & Hi2 & [Hu2 _] & Hs & Hid & Hexp & Hw);
    [apply Hids; by eexists|by rewrite Hdb|done|].
  eexists _, st2. split; [reflexivity|]. rewrite Hdb in *. split; [done|]. split_and!; [done..|].
  destruct Hw as [Hw|Hw]; [left; by exists record|by right].
Qed.
(** ** Personal access tokens *)

(** The caller is active and is [u] or, where administrators may, one of them. *)
Definition acts_on (d : DB) (ctx : AuthContext) (u : Z) (allowAdmin : bool) : Prop :=
  GetUserID ctx ≠ 0%Z ∧ ∃ row, users d !! GetUserID ctx = Some row ∧ us_row_status row = Normal ∧
  (GetUserID ctx = u ∨ allowAdmin = true ∧ us_role row = RoleAdmin).

Lemma authorize_spec st ctx u allowAdmin :
  settings_inv st →
  ∃ r st', authorizeUserResourceAccess ctx u allowAdmin st = (r, st') ∧ db st' = db st ∧ settings_inv st' ∧
    (is_ok r = true ↔ acts_on (db st) ctx u allowAdmin).
Proof.
  intros Hi. unfold authorizeUserResourceAccess, fetchCurrentUser, acts_on. rewrite st_bind. unfold st_status.
  destruct (Z.eqb_spec (GetUserID ctx) 0) as [E0|Hne].
  { eexists _, st. split; [reflexivity|]. split_and!; [done..|]. cbn. split; [done|]. by intros [? _]. }
  rewrite st_bind. destruct (GetUser_spec st (GetUserID ctx) Hi) as (st1 & -> & Hi1 & Hdb).
  destruct (users (db st) !! GetUserID ctx) as [row|].
  2: { eexists _, st1. split; [reflexivity|]. split_and!; [done..|]. cbn. split; [done|]. by intros (_ & row & ? & _). }
  unfold isActiveCurrentUser. cbn. destruct (String.eqb_spec (us_row_status row) Normal) as [Hs|Hs].
  2: { eexists _, st1. split; [reflexivity|]. split_and!; [done..|]. cbn. split; [done|].
       intros (_ & row' & [= <-] & ? & _). done. }
  destruct (Z.eqb_spec (GetUserID ctx) u) as [Eu|Hu]; cbn.
  { eexists _, st1. split; [reflexivity|]. split_and!; [done..|]. cbn. split; [|done].
    intros _. split; [done|]. exists row. auto. }
  destruct allowAdmin; cbn.
  2: { eexists _, st1. split; [reflexivity|]. split_and!; [done..|]. cbn. split; [done|].
       by intros (_ & row' & [= <-] & _ & [?|[? _]]). }
  destruct (String.eqb_spec (us_role row) RoleAdmin) as [Hr|Hr];
    (eexists _, st1; split; [reflexivity|]; split_and!; [done..|]; cbn; split; try done).
  - intros _. split; [done|]. exists row. auto.
  - by intros (_ & row' & [= <-] & _ & [?|[_ ?]]).
Qed.

Lemma resolveUserFromName_spec st name :
  settings_inv st →
  ∃ r st', resolveUserFromName name st = (r, st') ∧ db st' = db st ∧ settings_inv st' ∧
    ∀ u row, r = Ok (u, row) → users (db st) !! u = Some row ∧ name = BuildUserName (us_username row).
Proof.
  intros Hi. unfold resolveUserFromName, ResolveUserByName. rewrite !st_bind. unfold st_lift.
  destruct (parseUsernameFromName name) as [username|e] eqn:Hp; [|by eexists _, st].
  unfold st_wrap. destruct (GetUserByUsername_spec st username Hi) as (r & st1 & -> & Hdb & Hi1 & Hr).
  unfold parseUsernameFromName in Hp. apply bind_Ok in Hp as (t & Ht & E).
  apply extract1_Ok in Ht as [-> _]; [|by exists "users"].
  destruct (String.eqb t ""); [done|]. injection E as ->. destruct r as [[u row]|]; cbn.
  - eexists _, st1. split; [reflexivity|]. split_and!; [done..|]. intros v rv [= <- <-].
    destruct Hr as [? <-]. done.
  - eexists _, st1. split; [reflexivity|]. by split_and!.
Qed.

Lemma upd_pats d u l w :
  (∀ v k, stored d v k = upd u PERSONAL_ACCESS_TOKENS (VPersonalAccessTokens l) w v k) → pats d u = l.
Proof. intros E. unfold pats. rewrite E. unfold upd. by rewrite decide_True. Qed.

Lemma upd_other_pats d d' u l v :
  (∀ v k, stored d' v k = upd u PERSONAL_ACCESS_TOKENS (VPersonalAccessTokens l) (stored d) v k) →
  v ≠ u → pats d' v = pats d v.
Proof.
  intros E Hv. unfold pats. rewrite E. unfold upd. rewrite decide_False; [done|]. by intros [= ->].
Qed.

(** The user behind a request on tokens, and that the caller may act on it. *)
Lemma pat_target {A} st ctx parent allowAdmin (k : Z * User → ST A) r st' :
  settings_inv st →
  (user ← st_status InvalidArgument "invalid user name" (resolveUserFromName parent);
   _ ← authorizeUserResourceAccess ctx user.1 allowAdmin; k user) st = (Ok r, st') →
  ∃ u row st1, users (db st) !! u = Some row ∧ parent = BuildUserName (us_username row) ∧
    acts_on (db st) ctx u allowAdmin ∧ db st1 = db st ∧ settings_inv st1 ∧ k (u, row) st1 = (Ok r, st').
Proof.
  intros Hi. rewrite st_bind. unfold st_status.
  destruct (resolveUserFromName_spec st parent Hi) as (r1 & st1 & -> & Hdb1 & Hi1 & Hr1).
  destruct r1 as [[u row]|]; [|done]. destruct (Hr1 u row eq_refl) as [Hrow ->].
  rewrite st_bind. cbn [fst].
  destruct (authorize_spec st1 ctx u allowAdmin Hi1) as (r2 & st2 & -> & Hdb2 & Hi2 & Ha).
  destruct r2 as [a|]; [|done]. intros E. exists u, row, st2. rewrite Hdb1 in *.
  split_and!; try done. by apply Ha.
Qed.

Lemma acts_on_self d ctx u : acts_on d ctx u false → GetUserID ctx = u ∧ may_act d u.
Proof.
  intros (_ & row & Hrow & Hs & [<-|[? _]]); [|done]. split; [done|]. exists row. split; [done|].
  rewrite Hs. done.
Qed.

Lemma generated_prefix random uuid :
  Str.has_prefix PersonalAccessTokenPrefix (GeneratePersonalAccessToken random uuid) = true.
Proof.
  assert (∀ p s, String.prefix p (p +:+ s) = true) as Hp.
  { induction p as [|c p IH]; intros s; [by destruct s|]. change ((String c p) +:+ s) with (String c (p +:+ s)).
    cbn [String.prefix]. rewrite IH. by destruct (ascii_dec c c). }
  unfold GeneratePersonalAccessToken. destruct random; apply Hp.
Qed.

(** A token of a new hash keeps hashes apart. *)
Lemma unique_hashes_add d d' u t :
  unique_hashes d → (∀ v t', t' ∈ pats d v → pat_hash t' ≠ pat_hash t) →
  (∀ v k, stored d' v k = upd u PERSONAL_ACCESS_TOKENS (VPersonalAccessTokens (pats d u ++ [t])) (stored d) v k) →
  unique_hashes d'.
Proof.
  intros Huni Hfresh Hw. assert (∀ v t', t' ∈ pats d' v → t' ∈ pats d v ∨ v = u ∧ t' = t) as Hin.
  { intros v t' Hv. destruct (decide (v = u)) as [->|Hne].
    - rewrite (upd_pats _ _ _ _ Hw) in Hv. apply elem_of_app in Hv as [?|E%list_elem_of_singleton]; auto.
    - rewrite (upd_other_pats _ _ _ _ _ Hw Hne) in Hv. by left. }
  intros u1 u2 t1 t2 [H1'|[-> ->]]%Hin [H2'|[-> ->]]%Hin E.
  - by apply Huni.
  - by destruct (Hfresh u1 t1).
  - by destruct (Hfresh u2 t2).
  - done.
Qed.

(** C32. Personal access tokens are their owner's.  A token is made, or revoked, only
    by a request of the active user it belongs to; the list of a user's tokens is
    also shown to administrators.  A new token whose hash is new proves to be its
    owner, and nobody else, until it expires; a revoked token proves nothing.  No
    other setting changes. *)
Theorem personal_access_tokens_lifecycle st ctx :
  reached st →
  (∀ up parent description days uuid random uuid2 add_days now info tok st',
     CreatePersonalAccessToken up ctx parent description days uuid random uuid2 add_days now st =
       (Ok (info, tok), st') →
     ∃ u row record, users (db st) !! u = Some row ∧ parent = BuildUserName (us_username row) ∧
       acts_on (db st) ctx u false ∧ pat_id record = uuid ∧ pat_hash record = HashPersonalAccessToken tok ∧
       (∀ v k, stored (db st') v k = upd u PERSONAL_ACCESS_TOKENS
          (VPersonalAccessTokens (pats (db st) u ++ [record])) (stored (db st)) v k) ∧
       (unique_hashes (db st) → (∀ v t, t ∈ pats (db st) v → pat_hash t ≠ pat_hash record) →
        unique_hashes (db st') ∧
        ∀ now' v, proves secret (db st') now' tok v ↔ v = u ∧ expired (pi_expires_at info) now' = false)) ∧
  (∀ up name st', DeletePersonalAccessToken up ctx name st = (Ok tt, st') →
     ∃ u row id, users (db st) !! u = Some row ∧ name = pat_name (us_username row) id ∧
       acts_on (db st) ctx u false ∧
       (∀ v k, stored (db st') v k = upd u PERSONAL_ACCESS_TOKENS
          (VPersonalAccessTokens (filter (λ t, pat_id t ≠ id) (pats (db st) u))) (stored (db st)) v k) ∧
       ∀ tok now', Str.has_prefix PersonalAccessTokenPrefix tok = true →
         (∀ t, t ∈ pats (db st) u → pat_hash t = HashPersonalAccessToken tok → pat_id t = id) →
         ¬ proves secret (db st') now' tok u) ∧
  (∀ parent l st', ListPersonalAccessTokens ctx parent st = (Ok l, st') →
     ∃ u row, users (db st) !! u = Some row ∧ parent = BuildUserName (us_username row) ∧
       acts_on (db st) ctx u true ∧ db st' = db st ∧
       l = (λ t, mkPATInfo (pat_name (us_username row) (pat_id t)) (pat_description t)
              (pat_expires_at t) (pat_created_at t) (pat_last_used_at t)) <$> pats (db st) u).
Proof.
  intros [Hi _]%reached_inv. split; [|split].
  - intros up parent description days uuid random uuid2 add_days now info tok st' E.
    apply (pat_target st ctx parent false _ (info, tok) st' Hi) in E
      as (u & row & st1 & Hrow & -> & Ha & Hdb1 & Hi1 & E).
    set (token := GeneratePersonalAccessToken random uuid2) in E. cbn [fst snd] in E.
    set (record := mkPAT uuid (HashPersonalAccessToken token) description _ _ _) in E.
    rewrite st_bind in E. unfold st_status in E.
    destruct (AddUserPersonalAccessToken_spec up st1 u record Hi1) as (r & st2 & E2 & Hi2 & [Hu2 _] & Hw).
    rewrite E2 in E. destruct r; [|done]. injection E as <- <- <-. rewrite Hdb1 in *.
    exists u, row, record. split_and!; [done..|]. intros Huni Hfresh.
    destruct (acts_on_self _ _ _ Ha) as [_ Hm]. split; [by eapply unique_hashes_add|].
    intros now' v. unfold proves, token. rewrite generated_prefix. fold token. split.
    + intros (_ & t & Ht & Eh & Hx). destruct (decide (v = u)) as [->|Hne].
      * rewrite (upd_pats _ _ _ _ Hw) in Ht. apply elem_of_app in Ht as [Ht|E%list_elem_of_singleton].
        { by destruct (Hfresh u t). }
        by subst t.
      * rewrite (upd_other_pats _ _ _ _ _ Hw Hne) in Ht. by destruct (Hfresh v t).
    + intros [-> Hx]. split; [unfold may_act; by rewrite Hu2|]. exists record. split; [|done].
      rewrite (upd_pats _ _ _ _ Hw). apply elem_of_app. right. by apply list_elem_of_singleton.
  - intros up name st' E. unfold DeletePersonalAccessToken in E.
    destruct (Str.split_on "/" name) as [|p0 [|username [|p2 [|id [|]]]]] eqn:Hsplit; try done.
    destruct (String.eqb_spec p0 "users") as [->|]; [|done].
    destruct (String.eqb_spec p2 "personalAccessTokens") as [->|]; [|done]. cbn [andb] in E.
    apply (pat_target st ctx _ false (λ user, st_status Internal "failed to delete access token"
      (RemoveUserPersonalAccessToken up user.1 id)) tt st' Hi) in E
      as (u & row & st1 & Hrow & Hname & Ha & Hdb1 & Hi1 & E).
    unfold st_status in E. cbn [fst] in E.
    destruct (RemoveUserPersonalAccessToken_spec up st1 u id Hi1) as (r & st2 & E2 & Hi2 & [Hu2 _] & Hw).
    rewrite E2 in E. destruct r as [[]|]; [|done]. injection E as <-. rewrite Hdb1 in *.
    assert (username = us_username row) as -> by (unfold BuildUserName in Hname; by apply (inj _) in Hname).
    exists u, row, id. split_and!; try done.
    + rewrite <- (join_split name), Hsplit. reflexivity.
    + intros tok now' Hp Hid (_ & Hproof). rewrite Hp in Hproof. destruct Hproof as (t & Ht & Eh & _).
      rewrite (upd_pats _ _ _ _ Hw) in Ht. apply list_elem_of_filter in Ht as [Hne Ht]. by apply Hne, Hid.
  - intros parent l st' E.
    apply (pat_target st ctx parent true _ l st' Hi) in E as (u & row & st1 & Hrow & -> & Ha & Hdb1 & Hi1 & E).
    rewrite st_bind in E. unfold st_status, GetUserPersonalAccessTokens in E. rewrite st_bind in E.
    destruct (GetUserSetting_spec st1 u PERSONAL_ACCESS_TOKENS Hi1) as (st2 & E2 & Hdb2 & Hi2 & _); [done|].
    cbn [fst] in E. rewrite E2 in E. injection E as <- <-. exists u, row. rewrite Hdb2, Hdb1. by split_and!.
Qed.
(** Signing out ends the session.  A request with an access token and with the
    refresh token of the same user in its cookie leaves that refresh token refused,
    whenever it is presented, if the shortened list could be encoded and the
    database took it (a failure is ignored), and clears the cookie; a request that
    came with a personal access token only clears the cookie and leaves every
    session alone. *)
Theorem sign_out_ends_session up st ctx md now cookie st' :
  reached st → SignOut secret up ctx md now st = (Ok cookie, st') →
  cookie = clearAuthCookies md ∧ users (db st') = users (db st) ∧
  (ctx_claims ctx = None → db st' = db st) ∧
  ∀ claims row id, ctx_claims ctx = Some claims →
    refreshes secret (db st) now (cookie_token md) (uc_user_id claims) row id → cookie_token md ≠ "" →
    removal up id (refresh_tokens (db st) (uc_user_id claims)) = true →
    ∀ now' r st'', AuthenticateByRefreshToken secret (cookie_token md) now' st' = (r, st'') → is_ok r = false.
Proof.
  intros [Hi _]%reached_inv E. unfold SignOut, GetUserClaims in E. rewrite st_bind in E.
  destruct (ctx_claims ctx) as [claims|]; [|by injection E as <- <-].
  destruct (String.eqb_spec (cookie_token md) "") as [Ee|Hne]; [by injection E as <- <-|].
  destruct (ParseRefreshToken (cookie_token md) secret now) as [rc|e] eqn:Hp.
  2: { injection E as <- <-. split_and!; [done..|]. intros claims' row id [= <-] ((c & Hc & _) & _).
       assert (ParseRefreshToken (cookie_token md) secret now = Ok (refresh_claims c)) as E
         by (apply ParseRefreshToken_spec; by exists c). congruence. }
  unfold ignore_err in E. pose proof (RemoveUserRefreshToken_ok up st (uc_user_id claims) (rf_token_id rc) Hi) as Hok.
  destruct (RemoveUserRefreshToken_spec up st (uc_user_id claims) (rf_token_id rc) Hi)
    as (r & st1 & E1 & Hi1 & [Hu1 _] & Hw).
  rewrite E1 in E, Hok. cbn in Hok. injection E as <- <-. split_and!; [done..|].
  intros claims' row id [= <-] Href _ Hrem now' ra st'' Ea.
  assert (rf_token_id rc = id) as Hrc.
  { apply ParseRefreshToken_spec in Hp as (c & Hc & ->). destruct Href as ((c1 & Hc1 & _ & Hid) & _).
    rewrite <- (token_claims_unique _ _ _ _ _ _ _ _ Hc Hc1) in Hid. exact Hid. }
  rewrite Hrc in Hok, Hw. rewrite Hrem in Hok. destruct r as [[]|]; [|done].
  pose proof (authenticate_refresh _ _ _ _ _ Hi1 Ea) as Hr. destruct ra as [[[v row'] id']|]; [|done]. exfalso.
  eapply old_token_gone; [exact Href| |by apply (proj1 (Hr v row' id'))].
  apply (upd_refresh_tokens _ _ _ _ Hw).
Qed.
End session_facts.

(** Cookies come back as they were set: whatever pairs of names and values a
    browser sends, up to three thousand, the refresh token that is read is the value
    of the first pair of its name, and none if there is none; and the header that
    sets a refresh token the server signed starts with such a pair, is for HTTP only
    and, exactly for requests over TLS, says [Secure]. *)
Theorem refresh_cookie_roundtrip `{Text.GoUnicode} md tok expires l :
  compact tok → Forall cookie_ok l → (length l ≤ 3000)%nat →
  ExtractRefreshTokenFromCookie (cookie_header l) =
    default "" (head (filter (λ p, p.1 = RefreshTokenCookieName) l).*2) ∧
  cookie_ok (RefreshTokenCookieName, tok) ∧
  ∃ attrs, buildRefreshTokenCookie md tok expires =
      Str.join "; " (cookie_pair (RefreshTokenCookieName, tok) :: attrs) ∧
    "HttpOnly" ∈ attrs ∧ ("Secure" ∈ attrs ↔ isSecureRequest md = true).
Proof.
  intros [_ Hc] Hl Hlen. split; [|split].
  - unfold ExtractRefreshTokenFromCookie. unfold Cookie.cookie. rewrite read_cookies_header by done.
    destruct (String.eqb_spec (cookie_header l) "") as [E|_]; [|done].
    destruct l as [|p l]; [done|]. exfalso. apply Forall_cons in Hl as [Hp _].
    destruct (pair_clean p Hp) as (_ & _ & Hne). apply Hne.
    destruct l as [|q l]; [exact E|].
    change (cookie_pair p +:+ "; " +:+ cookie_header (q :: l) = "") in E. by destruct (cookie_pair p).
  - split; [done|]. cbn [snd]. revert Hc. apply all_bytes_impl, byte_impl. vm_compute. reflexivity.
  - unfold buildRefreshTokenCookie. eexists. split; [reflexivity|]. split; [set_solver|].
    destruct (isSecureRequest md); split; try done; [set_solver|].
    rewrite !elem_of_cons. intros [?|[?|[E|[?|?%not_elem_of_nil]]]]; done.
Qed.

(** ** Examples *)

Lemma refresh_rotates_witness :
  match RefreshToken (H1 := ascii_case) "secret" true true ada_metadata "r2" 5 ada_state,
        RefreshToken (H1 := ascii_case) "secret" true false ada_metadata "r2" 5 ada_state with
  | (Ok s, st'), (Ok s2, st2) =>
      rt_id <$> refresh_tokens (db st') 1 = ["r2"] ∧ rt_id <$> refresh_tokens (db st2) 1 = ["r1"; "r2"] ∧
      ∀ now' r st'', AuthenticateByRefreshToken "secret" (cookie_token ada_metadata) now' st' = (r, st'') →
        is_ok r = false
  | _, _ => False
  end.
Proof.
  assert (is_ok (RefreshToken (H1 := ascii_case) "secret" true true ada_metadata "r2" 5 ada_state).1 = true)
    as Hok by (vm_compute; reflexivity).
  assert (rt_id <$> refresh_tokens
      (db (RefreshToken (H1 := ascii_case) "secret" true true ada_metadata "r2" 5 ada_state).2) 1 = ["r2"])
    as Hl by (vm_compute; reflexivity).
  assert (is_ok (RefreshToken (H1 := ascii_case) "secret" true false ada_metadata "r2" 5 ada_state).1 = true)
    as Hok2 by (vm_compute; reflexivity).
  assert (rt_id <$> refresh_tokens
      (db (RefreshToken (H1 := ascii_case) "secret" true false ada_metadata "r2" 5 ada_state).2) 1 = ["r1"; "r2"])
    as Hl2 by (vm_compute; reflexivity).
  destruct (RefreshToken (H1 := ascii_case) "secret" true true ada_metadata "r2" 5 ada_state) as [r st'] eqn:E.
  destruct (RefreshToken (H1 := ascii_case) "secret" true false ada_metadata "r2" 5 ada_state) as [r2 st2].
  destruct r as [s|]; [|done]. destruct r2 as [s2|]; [|done]. split_and!; [exact Hl|exact Hl2|].
  destruct (refresh_rotates (H1 := ascii_case) "secret" true true ada_state ada_metadata "r2" 5 s st' ada_reached E)
    as (u & row & old & record & _ & _ & _ & _ & Hold & _). exact Hold.
Defined.

Lemma sign_in_exact_witness :
  let compare (hash password : string) := String.eqb password "open" in
  ∃ s st', SignIn (H1 := ascii_case) "secret" compare (Ok false) true ada_metadata "r3" 7
      (PasswordCredentials "ada" "open") ada_state = (Ok s, st').
Proof.
  intros compare.
  destruct (sign_in_exact (H1 := ascii_case) "secret" compare (Ok false) true ada_metadata "r3" 7 "ada" "open"
    ada_state ada_reached) as (r & st' & E & _ & Hr).
  - intros u v ru rv [-> _]%ada_users [-> _]%ada_users _. done.
  - intros u [row [-> _]%ada_users]. done.
  - destruct r as [s|e]; [by exists s, st'|]. destruct Hr as [Hno _]. exfalso.
    clear E. apply (Hno 1%Z ada_row). unfold may_sign_in, compare. repeat split; try reflexivity.
    + exists false. split; [reflexivity|discriminate].
    + discriminate.
Defined.

Lemma personal_access_tokens_lifecycle_witness :
  let ctx := mkAuthContext (Some 1%Z) None None in
  match DeletePersonalAccessToken true ctx "users/ada/personalAccessTokens/p1" ada_state with
  | (Ok _, st') => ∀ now', ¬ proves "secret" (db st') now' "memos_pat_abc" 1
  | _ => False
  end.
Proof.
  intros ctx. destruct (DeletePersonalAccessToken true ctx "users/ada/personalAccessTokens/p1" ada_state)
    as [r st'] eqn:E.
  assert (r = Ok tt) as ->.
  { replace r with (r, st').1 by reflexivity. rewrite <- E. vm_compute. reflexivity. }
  intros now'. destruct (personal_access_tokens_lifecycle "secret" ada_state ctx ada_reached) as (_ & Hdel & _).
  destruct (Hdel true _ st' E) as (u & row & id & Hrow & Hname & _ & _ & Hgone).
  apply ada_users in Hrow as [-> ->]. assert (id = "p1") as -> by (unfold pat_name in Hname; by injection Hname).
  apply Hgone; [done|]. by intros t [_ ->]%ada_pats _.
Defined.

Lemma sign_out_ends_session_witness :
  let ctx := mkAuthContext (Some 1%Z) None (Some (mkUserClaims 1 "ada" "USER" "NORMAL")) in
  match SignOut (H1 := ascii_case) "secret" true ctx ada_metadata 3 ada_state with
  | (Ok _, st') => ∀ now' r st'',
      AuthenticateByRefreshToken "secret" (cookie_token ada_metadata) now' st' = (r, st'') → is_ok r = false
  | _ => False
  end.
Proof.
  intros ctx.
  assert (is_ok (SignOut (H1 := ascii_case) "secret" true ctx ada_metadata 3 ada_state).1 = true) as Hok
    by (vm_compute; reflexivity).
  destruct (SignOut (H1 := ascii_case) "secret" true ctx ada_metadata 3 ada_state) as [r st'] eqn:E.
  destruct r as [cookie|]; [|done]. intros now' r st'' Ea.
  destruct (sign_out_ends_session (H1 := ascii_case) "secret" true ada_state ctx ada_metadata 3 cookie st'
    ada_reached E) as (_ & _ & _ & Hend).
  assert ((AuthenticateByRefreshToken "secret" (cookie_token ada_metadata) 3 ada_state).1 = Ok (1%Z, ada_row, "r1"))
    as Hra1 by (vm_compute; reflexivity).
  destruct (AuthenticateByRefreshToken_spec "secret" ada_state (cookie_token ada_metadata) 3
    (proj1 (reached_inv _ ada_reached))) as (ra & sta & Era & _ & _ & Hra).
  rewrite Era in Hra1. cbn [fst] in Hra1. subst ra.
  eapply (Hend _ ada_row "r1" eq_refl); [by apply Hra| |reflexivity|exact Ea]. apply String.eqb_neq. vm_compute. reflexivity.
Defined.

Lemma refresh_cookie_roundtrip_witness :
  ExtractRefreshTokenFromCookie (cookie_header [("theme", "dark"); (RefreshTokenCookieName, "eyJ.a.b")]) = "eyJ.a.b" ∧
  cookie_ok (RefreshTokenCookieName, "eyJ.a.b").
Proof.
  destruct (refresh_cookie_roundtrip (H := ascii_case) None "eyJ.a.b" None
    [("theme", "dark"); (RefreshTokenCookieName, "eyJ.a.b")]) as (E & Hok & _).
  - split; reflexivity.
  - repeat constructor.
  - cbn. lia.
  - split; [exact E|exact Hok].
Defined.
