(* ===== verification/Scheduler.v ===== *)
(** * The cron scheduler

    [internal/scheduler]: [parser.go] (cron expressions, the next run of a
    schedule), [job.go] and the registration, start and stop of [scheduler.go].
    The goroutines that wait for the next run and the middleware are not
    modelled. *)
From S2P Require Import Prelude GoLib GoTime.
Open Scope Z_scope.

(** ** Field matchers *)

Inductive fieldMatcher :=
| wildcardMatcher
| exactMatcher (value : Z)
| rangeMatcher (start end_ : Z)
| listMatcher (values : list Z)
| stepMatcher (step min max : Z).

#[export] Instance fieldMatcher_eq_dec : EqDecision fieldMatcher.
Proof. solve_decision. Defined.

(** The [%] of a step matcher: its step is at least 1 for every matcher
    [parseField] makes (see [wf_matcher]), so it does not panic. *)
Definition field_matches (m : fieldMatcher) (value : Z) : bool :=
  match m with
  | wildcardMatcher => true
  | exactMatcher v => value =? v
  | rangeMatcher a b => (a <=? value) && (value <=? b)
  | listMatcher vs => bool_decide (value ∈ vs)
  | stepMatcher step min max =>
      if (value <? min) || (max <? value) then false
      else Z.rem (value - min) step =? 0
  end.

Definition in_bounds (min max v : Z) : bool := (min <=? v) && (v <=? max).

(** One element of a list field. *)
Definition parse_list_value (min max : Z) (p : string) : result error Z :=
  match Strconv.atoi (Str.trim_space p) with
  | Some val => if in_bounds min max val then Ok val else Err (Errorf "invalid list value: %s" [p])
  | None => Err (Errorf "invalid list value: %s" [p])
  end.

Definition parseField (field : string) (min max : Z) : result error fieldMatcher :=
  if String.eqb field "*" then Ok wildcardMatcher
  else if Str.has_prefix "*/" field then
    match Strconv.atoi (Str.drop 2 field) with
    | Some step =>
        if (step <? 1) || (max <? step) then Err (Errorf "invalid step value: %s" [field])
        else Ok (stepMatcher step min max)
    | None => Err (Errorf "invalid step value: %s" [field])
    end
  else if Str.contains_byte "," field then
    values ← mapM (parse_list_value min max) (Str.split_on "," field);
    Ok (listMatcher values)
  else if Str.contains_byte "-" field then
    match Str.split_on "-" field with
    | [a; b] =>
        match Strconv.atoi (Str.trim_space a), Strconv.atoi (Str.trim_space b) with
        | Some start, Some end_ =>
            if (start <? min) || (max <? end_) || (end_ <? start)
            then Err (Errorf "invalid range: %s" [field])
            else Ok (rangeMatcher start end_)
        | _, _ => Err (Errorf "invalid range: %s" [field])
        end
    | _ => Err (Errorf "invalid range: %s" [field])
    end
  else
    match Strconv.atoi field with
    | Some val =>
        if in_bounds min max val then Ok (exactMatcher val)
        else Err (Errorf "invalid value: %s (must be between %d and %d)" [field; itoa min; itoa max])
    | None => Err (Errorf "invalid value: %s (must be between %d and %d)" [field; itoa min; itoa max])
    end.

(** ** Schedules *)

Record Schedule := mkSchedule {
  seconds : fieldMatcher; minutes : fieldMatcher; hours : fieldMatcher;
  days : fieldMatcher; months : fieldMatcher; weekdays : fieldMatcher; hasSecs : bool }.

(** The five fields after the seconds. *)
Definition parse_rest (secs : fieldMatcher) (hasSecs : bool) (mi h d mo wd : string)
  : result error Schedule :=
  m ← wrap_err "invalid minutes field" (parseField mi 0 59);
  hh ← wrap_err "invalid hours field" (parseField h 0 23);
  dd ← wrap_err "invalid days field" (parseField d 1 31);
  mm ← wrap_err "invalid months field" (parseField mo 1 12);
  ww ← wrap_err "invalid weekdays field" (parseField wd 0 7);
  Ok (mkSchedule secs m hh dd mm ww hasSecs).

Definition ParseCronExpression (expr : string) : result error Schedule :=
  if String.eqb expr "" then Err (errorf0 "empty cron expression")
  else
    match Str.fields expr with
    | [mi; h; d; mo; wd] => parse_rest (exactMatcher 0) false mi h d mo wd
    | [se; mi; h; d; mo; wd] =>
        secs ← wrap_err "invalid seconds field" (parseField se 0 59);
        parse_rest secs true mi h d mo wd
    | fs => Err (Errorf "invalid cron expression: expected 5 or 6 fields, got %d"
                   [itoa (Z.of_nat (length fs))])
    end.

(** [Schedule.matches]. *)
Definition schedule_matches (s : Schedule) (t : Time) : bool :=
  field_matches (seconds s) (Time.sec t) && field_matches (minutes s) (Time.min t) &&
  field_matches (hours s) (Time.hour t) && field_matches (months s) (Time.month t) &&
  (field_matches (days s) (Time.day t) || field_matches (weekdays s) (Time.weekday t)).

(** ** The next run *)

Inductive outcome := Found (t : Time) | Stopped | Running (t : Time).

(** One pass of the loop of [Next]. *)
Definition visit (s : Schedule) (d : Z) (maxTime t : Time) : outcome :=
  if Time.before t maxTime then
    if schedule_matches s t then Found t else Running (Time.add t d)
  else Stopped.

(** At most [fuel] passes; the fuel is binary, so that four years of seconds
    cost nothing before they are used. *)
Fixpoint iterate (fuel : positive) (f : Time → outcome) (t : Time) : outcome :=
  match fuel with
  | xH => f t
  | xO p => match iterate p f t with Running t => iterate p f t | o => o end
  | xI p =>
      match iterate p f t with
      | Running t => match iterate p f t with Running t => f t | o => o end
      | o => o
      end
  end.

Definition unit_of (s : Schedule) : Z := if hasSecs s then Time.second else Time.minute.
Definition start_of (s : Schedule) (from : Time) : Time :=
  Time.truncate (Time.add from (unit_of s)) (unit_of s).
Definition horizon (s : Schedule) (from : Time) : Time := Time.add_years (start_of s from) 4.

(** One pass more than there are candidates before the horizon. *)
Definition next_fuel (s : Schedule) (from : Time) : positive :=
  Z.to_pos ((Time.nanos (horizon s from) - Time.nanos (start_of s from)) / unit_of s + 2).

Definition Next (s : Schedule) (from : Time) : Time :=
  match iterate (next_fuel s from) (visit s (unit_of s) (horizon s from)) (start_of s from) with
  | Found t => t
  | _ => Time.zero
  end.

(** ** Jobs and the scheduler's state *)

(** A job; [job_handler] tells whether a handler is set. *)
Record Job := mkJob {
  job_name : string; job_schedule : string; job_timezone : string; job_handler : bool }.

(** [Job.Validate]. *)
Definition Validate (j : Job) : result error unit :=
  if String.eqb (job_name j) "" then Err (errorf0 "job name is required")
  else if String.eqb (job_schedule j) "" then Err (errorf0 "job schedule is required")
  else
    _ ← wrap_err "invalid cron expression" (ParseCronExpression (job_schedule j));
    if negb (job_handler j) then Err (errorf0 "job handler is required") else Ok tt.

(** [stopped]: [stopCh] is closed.  [started] counts the job goroutines
    launched so far. *)
Record Scheduler := mkScheduler {
  jobs : gmap string Job; running : bool; stopped : bool; started : nat }.

Definition New : Scheduler := mkScheduler ∅ false false 0.

Definition Register (job : option Job) (s : Scheduler) : result error Scheduler :=
  match job with
  | None => Err (errorf0 "job cannot be nil")
  | Some j =>
      _ ← wrap_err "invalid job" (Validate j);
      match jobs s !! job_name j with
      | Some _ => Err (Errorf "job with name %q already registered" [job_name j])
      | None => Ok (mkScheduler (<[job_name j := j]> (jobs s)) (running s) (stopped s) (started s))
      end
  end.

(** The loop of [Start]; Go visits the map in an unspecified order, which the
    outcome only depends on when a schedule does not parse. *)
Fixpoint launch (l : list (string * Job)) (started : nat) : result error nat :=
  match l with
  | [] => Ok started
  | (_, j) :: l =>
      _ ← wrap_err "failed to parse schedule for job %q" (ParseCronExpression (job_schedule j));
      launch l (S started)
  end.

Definition Start (s : Scheduler) : result error Scheduler :=
  if running s then Err (errorf0 "scheduler already running")
  else
    n ← launch (map_to_list (jobs s)) (started s);
    Ok (mkScheduler (jobs s) true (stopped s) n).

(** [Stop] up to the wait for the running jobs: closing a closed channel
    panics. *)
Definition Stop (s : Scheduler) : result error Scheduler :=
  if negb (running s) then Err (errorf0 "scheduler not running")
  else if stopped s then Err (Panic "close of closed channel")
  else Ok (mkScheduler (jobs s) false true (started s)).
