(* ===== verification/SchedulerFacts.v ===== *)
(** The scheduler: the next run is the first due time, cron expressions are read
    back as printed, and what the day and weekday fields do. *)
From S2P Require Import Prelude GoLib GoTime GoText Scheduler.
Open Scope Z_scope.

(** ** The search of [Next] *)

(** The passes in unary. *)
Fixpoint steps (n : nat) (f : Time → outcome) (t : Time) : outcome :=
  match n with
  | O => Running t
  | S n => match f t with Running t => steps n f t | o => o end
  end.

Lemma steps_add f n m t :
  steps (n + m) f t = match steps n f t with Running t => steps m f t | o => o end.
Proof.
  revert t. induction n as [|n IH]; intros t; [done|]. cbn. destruct (f t); [done..|apply IH].
Qed.

Lemma iterate_steps p f t : iterate p f t = steps (Pos.to_nat p) f t.
Proof.
  revert t. induction p as [p IH|p IH|]; intros t; cbn [iterate].
  - replace (Pos.to_nat p~1) with (Pos.to_nat p + (Pos.to_nat p + 1))%nat by lia.
    rewrite steps_add, IH. destruct (steps (Pos.to_nat p) f t) as [t1| |t1]; [done..|].
    rewrite steps_add, IH. destruct (steps (Pos.to_nat p) f t1) as [t2| |t2]; [done..|].
    cbn. by destruct (f t2).
  - replace (Pos.to_nat p~0) with (Pos.to_nat p + Pos.to_nat p)%nat by lia.
    rewrite steps_add, IH. destruct (steps (Pos.to_nat p) f t) as [t1| |t1]; [done..|]. apply IH.
  - change (Pos.to_nat 1) with 1%nat. cbn. by destruct (f t).
Qed.

Lemma nanos_of_nanos n loc : Time.nanos (Time.of_nanos n loc) = n.
Proof.
  unfold Time.nanos, Time.of_nanos, Time.second. cbn [t_unix t_nsec].
  rewrite Z.mul_comm. symmetry. apply Z.div_mod. lia.
Qed.

Lemma add_of_nanos n loc d : Time.add (Time.of_nanos n loc) d = Time.of_nanos (n + d) loc.
Proof. unfold Time.add. by rewrite nanos_of_nanos. Qed.

Section search.
Context (s : Schedule) (d : Z) (maxTime : Time) (n0 : Z) (loc : Location).

Definition candidate (i : nat) : Time := Time.of_nanos (n0 + Z.of_nat i * d) loc.
Definition due_at (i : nat) : Prop :=
  Time.before (candidate i) maxTime = true ∧ schedule_matches s (candidate i) = true.

Lemma add_candidate i : Time.add (candidate i) d = candidate (S i).
Proof. unfold candidate. rewrite add_of_nanos. f_equal. lia. Qed.

Lemma steps_visit n k :
  match steps n (visit s d maxTime) (candidate k) with
  | Found t => ∃ i, (k ≤ i < k + n)%nat ∧ t = candidate i ∧ due_at i ∧
                    ∀ j, (k ≤ j < i)%nat → ¬ due_at j
  | Stopped => ∃ i, (k ≤ i < k + n)%nat ∧ Time.before (candidate i) maxTime = false ∧
                    ∀ j, (k ≤ j < i)%nat → ¬ due_at j
  | Running t => t = candidate (k + n) ∧
                 ∀ j, (k ≤ j < k + n)%nat → Time.before (candidate j) maxTime = true
  end.
Proof.
  revert k. induction n as [|n IH]; intros k.
  { cbn. split; [f_equal; lia|lia]. }
  cbn [steps]. unfold visit at 1.
  destruct (Time.before (candidate k) maxTime) eqn:Hb.
  2:{ exists k. split; [lia|]. split; [done|lia]. }
  destruct (schedule_matches s (candidate k)) eqn:Hm.
  { exists k. split; [lia|]. split; [done|]. split; [done|lia]. }
  rewrite add_candidate. specialize (IH (S k)).
  assert (∀ i, (∀ j, (S k ≤ j < i)%nat → ¬ due_at j) → ∀ j, (k ≤ j < i)%nat → ¬ due_at j) as Hk.
  { intros i Hi j Hj. destruct (decide (j = k)) as [->|]; [|apply Hi; lia].
    unfold due_at. rewrite Hm. by intros []. }
  destruct (steps n _ _) as [t| |t].
  - destruct IH as (i & ? & ? & ? & ?). exists i. split; [lia|]. eauto.
  - destruct IH as (i & ? & ? & ?). exists i. split; [lia|]. eauto.
  - destruct IH as [-> IH]. split; [f_equal; lia|]. intros j Hj.
    destruct (decide (j = k)) as [->|]; [done|apply IH; lia].
Qed.

Lemma before_candidate_mono i j :
  0 < d → (i ≤ j)%nat → Time.before (candidate j) maxTime = true →
  Time.before (candidate i) maxTime = true.
Proof.
  unfold Time.before, candidate. rewrite !nanos_of_nanos, !Z.ltb_lt. intros. nia.
Qed.

(** With enough passes the search ends, at the first due candidate if any. *)
Lemma search_first (fuel : positive) :
  0 < d → Time.nanos maxTime ≤ n0 + (Z.pos fuel - 1) * d →
  match iterate fuel (visit s d maxTime) (candidate 0) with
  | Found t => ∃ i, t = candidate i ∧ due_at i ∧ ∀ j, (j < i)%nat → ¬ due_at j
  | Stopped => ∀ i, ¬ due_at i
  | Running _ => False
  end.
Proof.
  intros Hd Hf. rewrite iterate_steps.
  pose proof (steps_visit (Pos.to_nat fuel) 0) as H.
  destruct (steps _ _ _) as [t| |t].
  - destruct H as (i & _ & -> & Hi & Hj). exists i. split; [done|]. split; [done|].
    intros j ?. apply Hj. lia.
  - destruct H as (i & _ & Hb & Hj). intros k Hk. destruct (decide (k < i)%nat) as [?|?].
    + eapply Hj; [|done]. lia.
    + destruct Hk as [Hk _]. apply (before_candidate_mono i k) in Hk; [congruence|done|lia].
  - destruct H as [_ H]. specialize (H (pred (Pos.to_nat fuel)) ltac:(lia)).
    unfold Time.before, candidate in H. rewrite nanos_of_nanos, Z.ltb_lt in H.
    pose proof (positive_nat_Z fuel).
    replace (Z.of_nat (pred (Pos.to_nat fuel))) with (Z.pos fuel - 1) in H by lia. nia.
Qed.
End search.

(** ** The first due time *)

(** The times [Next] may answer: whole units strictly after [from], in its
    location, before the horizon, that match. *)
Definition on_unit (s : Schedule) (u : Time) : Prop :=
  (Time.nanos u - Time.unix_zero * Time.second) mod unit_of s = 0.
Definition due (s : Schedule) (from u : Time) : Prop :=
  t_loc u = t_loc from ∧ 0 ≤ t_nsec u < Time.second ∧ on_unit s u ∧
  Time.nanos from < Time.nanos u ∧ Time.before u (horizon s from) = true ∧
  schedule_matches s u = true.

Lemma unit_pos s : 0 < unit_of s.
Proof. unfold unit_of. destruct (hasSecs s); unfold Time.minute, Time.second; lia. Qed.

Lemma start_of_nanos s from :
  start_of s from = Time.of_nanos (Time.nanos (start_of s from)) (t_loc from).
Proof.
  unfold start_of at 1, Time.truncate. f_equal. unfold start_of, Time.truncate.
  by rewrite nanos_of_nanos.
Qed.

Lemma to_pos_max x : Z.pos (Z.to_pos x) = Z.max 1 x.
Proof. destruct x; cbn; lia. Qed.

Lemma fuel_enough s from :
  Time.nanos (horizon s from) ≤
  Time.nanos (start_of s from) + (Z.pos (next_fuel s from) - 1) * unit_of s.
Proof.
  unfold next_fuel. rewrite to_pos_max. pose proof (unit_pos s) as Hd.
  set (diff := Time.nanos (horizon s from) - Time.nanos (start_of s from)).
  pose proof (Z.div_mod diff (unit_of s) ltac:(lia)).
  pose proof (Z.mod_pos_bound diff (unit_of s) Hd). nia.
Qed.

Lemma of_nanos_nanos u : 0 ≤ t_nsec u < Time.second → Time.of_nanos (Time.nanos u) (t_loc u) = u.
Proof.
  destruct u as [sec ns loc]. unfold Time.of_nanos, Time.nanos. cbn. intros H. f_equal.
  - rewrite Z.div_add_l by (unfold Time.second; lia). rewrite Z.div_small; lia.
  - rewrite Z.add_comm, Z.mod_add by (unfold Time.second; lia). by apply Z.mod_small.
Qed.

(** The search starts at the least whole unit after [from]. *)
Lemma start_spec s from :
  let n0 := Time.nanos (start_of s from) in
  let z := Time.unix_zero * Time.second in
  Time.nanos from < n0 ≤ Time.nanos from + unit_of s ∧ (n0 - z) mod unit_of s = 0.
Proof.
  intros n0 z. pose proof (unit_pos s) as Hd. unfold n0, start_of, Time.truncate, Time.add.
  rewrite !nanos_of_nanos. fold z. set (x := Time.nanos from + unit_of s).
  pose proof (Z.mod_pos_bound (x - z) (unit_of s) Hd). split; [lia|].
  replace (x - (x - z) mod unit_of s - z) with ((x - z) - (x - z) mod unit_of s) by lia.
  by rewrite Zminus_mod, Zmod_mod, Z.sub_diag.
Qed.

Lemma due_candidate s from u :
  due s from u ↔
  ∃ i, u = candidate (unit_of s) (Time.nanos (start_of s from)) (t_loc from) i ∧
       due_at s (unit_of s) (horizon s from) (Time.nanos (start_of s from)) (t_loc from) i.
Proof.
  destruct (start_spec s from) as [Hs Hm]. pose proof (unit_pos s) as Hd.
  set (n0 := Time.nanos (start_of s from)) in *. split.
  - intros (Hl & Hn & Hu & Hf & Hb & Hmt). unfold on_unit in Hu.
    apply Z.mod_divide in Hu as [a Ha]; [|lia]. apply Z.mod_divide in Hm as [b Hbq]; [|lia].
    assert (b ≤ a) by nia. exists (Z.to_nat (a - b)).
    assert (u = candidate (unit_of s) n0 (t_loc from) (Z.to_nat (a - b))) as Heq.
    { unfold candidate. rewrite <- (of_nanos_nanos u Hn), Hl. f_equal.
      rewrite Z2Nat.id by lia. nia. }
    split; [done|]. unfold due_at. by rewrite <- Heq.
  - intros (i & -> & Hb & Hmt). unfold due. split; [done|].
    split; [apply Z.mod_pos_bound; unfold Time.second; lia|].
    split; [|split; [unfold candidate; rewrite nanos_of_nanos; nia|done]].
    unfold on_unit, candidate. rewrite nanos_of_nanos.
    replace (n0 + Z.of_nat i * unit_of s - Time.unix_zero * Time.second)
      with (n0 - Time.unix_zero * Time.second + Z.of_nat i * unit_of s) by lia.
    by rewrite Z.mod_add by lia.
Qed.

Lemma Next_cases s from :
  (due s from (Next s from) ∧
   ∀ u, due s from u → Time.nanos (Next s from) ≤ Time.nanos u) ∨
  (Next s from = Time.zero ∧ ∀ u, ¬ due s from u).
Proof.
  pose proof (unit_pos s) as Hd. unfold Next.
  set (n0 := Time.nanos (start_of s from)).
  replace (start_of s from) with (candidate (unit_of s) n0 (t_loc from) 0).
  2:{ unfold candidate. rewrite start_of_nanos. f_equal. unfold n0. lia. }
  pose proof (search_first s (unit_of s) (horizon s from) n0 (t_loc from) (next_fuel s from) Hd)
    as H.
  specialize (H (fuel_enough s from)).
  destruct (iterate _ _ _) as [t| |t].
  - left. destruct H as (i & -> & Hi & Hj).
    split; [by apply due_candidate; exists i|]. intros u (j & -> & Hdue)%due_candidate.
    unfold candidate. rewrite !nanos_of_nanos.
    destruct (decide (j < i)%nat); [by apply Hj in Hdue|]. nia.
  - right. split; [done|]. intros u (i & _ & Hi)%due_candidate. by eapply H in Hi.
  - right. exfalso. apply H.
Qed.

(** C35. The next run of a job is the first due time: the least whole minute (or
    second, for six fields) strictly after [from], within four years, that the
    schedule matches; if there is none, [Next] answers the zero time.  In
    particular the search always ends. *)
Theorem next_run_is_first_due s from :
  (due s from (Next s from) ∧
   ∀ u, due s from u → Time.nanos (Next s from) ≤ Time.nanos u) ∨
  (Next s from = Time.zero ∧ ∀ u, ¬ due s from u).
Proof. apply Next_cases. Qed.

(** ** Cron expressions *)

Definition wf_matcher (min max : Z) (m : fieldMatcher) : Prop :=
  match m with
  | wildcardMatcher => True
  | exactMatcher v => min ≤ v ≤ max
  | rangeMatcher a b => min ≤ a ∧ a ≤ b ∧ b ≤ max
  | listMatcher vs => (2 ≤ length vs)%nat ∧ Forall (λ v, min ≤ v ≤ max) vs
  | stepMatcher n lo hi => 1 ≤ n ≤ max ∧ lo = min ∧ hi = max
  end.

Definition print_matcher (m : fieldMatcher) : string :=
  match m with
  | wildcardMatcher => "*"
  | exactMatcher v => itoa v
  | rangeMatcher a b => itoa a +:+ "-" +:+ itoa b
  | listMatcher vs => Str.join "," (itoa <$> vs)
  | stepMatcher n _ _ => "*/" +:+ itoa n
  end.

(** The numerals that occur in an expression, checked one by one. *)
Definition small (v : Z) : Prop := 0 ≤ v < 64.

Definition plain_numeral (v : Z) : bool :=
  let s := itoa v in
  bool_decide (Strconv.atoi s = Some v) && String.eqb (Str.trim_space s) s &&
  negb (Str.contains_byte "*" s) && negb (Str.contains_byte "," s) && negb (Str.contains_byte "-" s) &&
  forallb (λ c, (33 <=? byte_of c) && (byte_of c <? 128)) (Str.to_list s) &&
  negb (String.eqb s "").

Lemma small_numeral v : small v → plain_numeral v = true.
Proof.
  intros Hv. assert (forallb plain_numeral (seqZ 0 64) = true) as H by (vm_compute; reflexivity).
  rewrite forallb_forall in H. apply H. apply list_elem_of_In, elem_of_seqZ. unfold small in Hv. lia.
Qed.

Lemma numeral_spec v : small v →
  Strconv.atoi (itoa v) = Some v ∧ Str.trim_space (itoa v) = itoa v ∧
  Str.contains_byte "*" (itoa v) = false ∧ Str.contains_byte "," (itoa v) = false ∧
  Str.contains_byte "-" (itoa v) = false ∧
  Forall (λ c, 33 ≤ byte_of c < 128) (Str.to_list (itoa v)) ∧ itoa v ≠ "".
Proof.
  intros H%small_numeral. unfold plain_numeral in H. cbv zeta in H.
  rewrite !andb_true_iff, !negb_true_iff, bool_decide_eq_true, !String.eqb_eq, !String.eqb_neq,
    forallb_forall in H.
  destruct H as [[[[[[? ?] ?] ?] ?] Hf] ?]. split_and!; try done.
  apply Forall_forall. intros c Hc%list_elem_of_In%Hf. apply andb_true_iff in Hc. lia.
Qed.

Lemma parse_list_value_itoa min max v :
  small v → min ≤ v ≤ max → parse_list_value min max (itoa v) = Ok v.
Proof.
  intros (Ha & Ht & _)%numeral_spec Hv. unfold parse_list_value. rewrite Ht, Ha.
  unfold in_bounds. by rewrite !(proj2 (Z.leb_le _ _)) by lia.
Qed.

Lemma in_bounds_spec min max v : in_bounds min max v = true ↔ min ≤ v ≤ max.
Proof. unfold in_bounds. rewrite andb_true_iff, !Z.leb_le. lia. Qed.

Lemma contains_join_comma v w vs :
  Str.contains_byte "," (Str.join "," (itoa <$> v :: w :: vs)) = true.
Proof.
  change (Str.join "," (itoa <$> v :: w :: vs))
    with (itoa v +:+ "," +:+ Str.join "," (itoa <$> w :: vs)).
  rewrite !Str.contains_byte_app. cbn [Str.contains_byte]. rewrite Ascii.eqb_refl.
  by rewrite orb_true_r.
Qed.

Lemma no_star s :
  Str.contains_byte "*" s = false → s ≠ "*" ∧ Str.has_prefix "*/" s = false.
Proof.
  intros H. split; [by intros ->|]. destruct s as [|c s]; [done|].
  cbn -[Ascii.eqb] in H. apply orb_false_iff in H as [H _].
  unfold Str.has_prefix. cbn -[ascii_dec]. destruct (ascii_dec "*" c) as [<-|]; [|done].
  by rewrite Ascii.eqb_refl in H.
Qed.

Lemma join_clean b sep ws :
  Forall (λ w, Str.contains_byte b w = false) ws → Str.contains_byte b sep = false →
  Str.contains_byte b (Str.join sep ws) = false.
Proof.
  intros Hws Hsep. induction Hws as [|w ws Hw _ IH]; [done|].
  destruct ws as [|w' ws]; [done|].
  change (Str.join sep (w :: w' :: ws)) with (w +:+ sep +:+ Str.join sep (w' :: ws)).
  by rewrite !Str.contains_byte_app, Hw, Hsep, IH.
Qed.

Lemma numerals_clean vs :
  Forall small vs →
  Forall (λ w, Str.contains_byte "," w = false) (itoa <$> vs) ∧
  Forall (λ w, Str.contains_byte "*" w = false) (itoa <$> vs).
Proof.
  intros Hvs. split; apply Forall_fmap; (eapply Forall_impl; [exact Hvs|]);
    intros v Hv; by apply numeral_spec in Hv as (_ & _ & ? & ? & _).
Qed.

Lemma parse_list_values min max vs :
  0 ≤ min → max < 64 → Forall (λ v, min ≤ v ≤ max) vs →
  mapM (parse_list_value min max) (itoa <$> vs) = Ok vs.
Proof.
  intros ? ? Hvs. induction Hvs as [|v vs Hv _ IH]; [done|].
  cbn [fmap list_fmap mapM]. rewrite parse_list_value_itoa by (unfold small; lia).
  cbn in IH |- *. by rewrite IH.
Qed.

Lemma parseField_print min max m :
  0 ≤ min → max < 64 → wf_matcher min max m → parseField (print_matcher m) min max = Ok m.
Proof.
  intros Hmin Hmax Hm. destruct m as [|v|a b|vs|n lo hi]; cbn in Hm.
  - done.
  - destruct (numeral_spec v ltac:(unfold small; lia)) as (Ha & _ & Hs & Hc & Hd & _).
    apply no_star in Hs as [Hs Hp]. unfold parseField. cbn [print_matcher].
    rewrite (proj2 (String.eqb_neq _ _) Hs), Hp, Hc, Hd, Ha.
    by rewrite (proj2 (in_bounds_spec _ _ _) Hm).
  - destruct (numeral_spec a ltac:(unfold small; lia)) as (Ha & Hta & Hsa & Hca & Hda & _).
    destruct (numeral_spec b ltac:(unfold small; lia)) as (Hb & Htb & Hsb & Hcb & Hdb & _).
    unfold parseField. cbn [print_matcher].
    assert (Str.contains_byte "*" (itoa a +:+ "-" +:+ itoa b) = false) as [Hs Hp]%no_star.
    { by rewrite !Str.contains_byte_app, Hsa, Hsb. }
    rewrite (proj2 (String.eqb_neq _ _) Hs), Hp, !Str.contains_byte_app, Hca, Hcb, Hda.
    cbn [orb Str.contains_byte Ascii.eqb Bool.eqb].
    change ("-" +:+ itoa b) with (String "-" (itoa b)).
    rewrite Str.split_on_app, Str.split_on_clean by done. rewrite Hta, Htb, Ha, Hb.
    rewrite !(proj2 (Z.ltb_ge _ _)) by lia. done.
  - destruct Hm as [Hl Hvs]. destruct vs as [|v [|w vs]]; [cbn in Hl; lia..|].
    destruct (numerals_clean (v :: w :: vs)) as [Hc Hs].
    { eapply Forall_impl; [exact Hvs|]. unfold small. cbn. intros ?. lia. }
    unfold parseField. cbn [print_matcher].
    destruct (no_star (Str.join "," (itoa <$> v :: w :: vs))) as [Hs1 Hs2].
    { by apply join_clean. }
    rewrite (proj2 (String.eqb_neq _ _) Hs1), Hs2, contains_join_comma.
    change (itoa <$> v :: w :: vs) with (itoa v :: (itoa <$> w :: vs)).
    rewrite (Str.split_on_join "," (itoa v) (itoa <$> w :: vs)) by exact Hc.
    change (itoa v :: (itoa <$> w :: vs)) with (itoa <$> v :: w :: vs).
    by rewrite parse_list_values.
  - destruct Hm as (Hn & -> & ->).
    destruct (numeral_spec n ltac:(unfold small; lia)) as (Ha & _).
    unfold parseField. cbn [print_matcher].
    change (String.eqb ("*/" +:+ itoa n) "*") with false.
    change (Str.has_prefix "*/" ("*/" +:+ itoa n)) with (String.prefix "" (itoa n)).
    change (Str.drop 2 ("*/" +:+ itoa n)) with (itoa n).
    replace (String.prefix "" (itoa n)) with true by (by destruct (itoa n)).
    rewrite Ha, !(proj2 (Z.ltb_ge _ _)) by lia. done.
Qed.

Lemma in_bounds_list_value min max p v : parse_list_value min max p = Ok v → min ≤ v ≤ max.
Proof.
  unfold parse_list_value. destruct (Strconv.atoi _); [|done].
  destruct (in_bounds _ _ _) eqn:H; [|done]. intros [= <-]. by apply in_bounds_spec.
Qed.

Lemma mapM_list_values min max ps vs :
  mapM (parse_list_value min max) ps = Ok vs →
  length vs = length ps ∧ Forall (λ v, min ≤ v ≤ max) vs.
Proof.
  revert vs. induction ps as [|p ps IH]; intros vs H; cbn in H; [by injection H as <-|].
  apply bind_Ok in H as (v & Hv & H). apply bind_Ok in H as (vs' & Hvs & H).
  injection H as <-. apply IH in Hvs as [Hl ?]. split; [cbn; by rewrite Hl|].
  constructor; [by eapply in_bounds_list_value|done].
Qed.

Lemma split_on_length b s : Str.contains_byte b s = true → (2 ≤ length (Str.split_on b s))%nat.
Proof.
  induction s as [|c s IH]; [done|]. cbn -[Ascii.eqb].
  destruct (Ascii.eqb c b); cbn [orb].
  - intros _. destruct (Str.split_on b s) eqn:Hs; [|cbn; lia].
    destruct s; cbn -[Ascii.eqb] in Hs; repeat case_match; done.
  - intros H%IH. destruct (Str.split_on b s); cbn in H |- *; lia.
Qed.

Lemma parseField_wf field min max m :
  parseField field min max = Ok m → wf_matcher min max m.
Proof.
  unfold parseField. intros H.
  destruct (String.eqb field "*"); [by injection H as <-|].
  destruct (Str.has_prefix "*/" field).
  { destruct (Strconv.atoi _) as [n|]; [|done]. destruct (_ || _) eqn:Hn; [done|].
    injection H as <-. apply orb_false_iff in Hn. cbn. lia. }
  destruct (Str.contains_byte "," field) eqn:Hc.
  { apply bind_Ok in H as (vs & Hvs & H). injection H as <-.
    apply mapM_list_values in Hvs as [Hl Hvs]. apply split_on_length in Hc.
    cbn. split; [lia|done]. }
  destruct (Str.contains_byte "-" field).
  { destruct (Str.split_on "-" field) as [|a [|b [|]]]; try done.
    destruct (Strconv.atoi (Str.trim_space a)) as [x|]; [|done].
    destruct (Strconv.atoi (Str.trim_space b)) as [y|]; [|done].
    destruct (_ || _) eqn:Hr; [done|]. injection H as <-.
    rewrite !orb_false_iff in Hr. cbn. lia. }
  destruct (Strconv.atoi field) as [v|]; [|done].
  destruct (in_bounds min max v) eqn:Hv; [|done]. injection H as <-. by apply in_bounds_spec.
Qed.

(** *** Whole expressions *)

Definition wf_schedule (s : Schedule) : Prop :=
  (if hasSecs s then wf_matcher 0 59 (seconds s) else seconds s = exactMatcher 0) ∧
  wf_matcher 0 59 (minutes s) ∧ wf_matcher 0 23 (hours s) ∧ wf_matcher 1 31 (days s) ∧
  wf_matcher 1 12 (months s) ∧ wf_matcher 0 7 (weekdays s).

Definition print_schedule (s : Schedule) : string :=
  Str.join " " (print_matcher <$>
    (if hasSecs s then [seconds s] else []) ++
    [minutes s; hours s; days s; months s; weekdays s]).

#[local] Arguments String.append : simpl nomatch.

Lemma print_matcher_visible min max m :
  0 ≤ min → max < 64 → wf_matcher min max m →
  visible (print_matcher m) ∧ print_matcher m ≠ "".
Proof.
  intros ? ? Hm.
  assert (∀ v, small v → visible (itoa v) ∧ itoa v ≠ "") as Hnum.
  { intros v Hv. apply numeral_spec in Hv as (_ & _ & _ & _ & _ & ? & ?). done. }
  assert (∀ a s, visible a → a ≠ "" → a +:+ s ≠ "") as Happ by (intros [] ?; done).
  destruct m as [|v|a b|vs|n lo hi]; cbn in Hm |- *.
  - split; [repeat constructor; done|done].
  - apply Hnum. unfold small. lia.
  - destruct (Hnum a), (Hnum b); [unfold small; lia..|]. split; [|by apply Happ].
    apply visible_app; [done|]. apply (visible_app "-"); [repeat constructor; done|done].
  - destruct Hm as [Hl Hvs]. assert (Forall (λ v, visible (itoa v) ∧ itoa v ≠ "") vs) as Hvs'.
    { eapply Forall_impl; [exact Hvs|]. intros v Hv. apply Hnum. unfold small. cbn in Hv. lia. }
    split.
    + apply visible_join; [repeat constructor; done|]. apply Forall_fmap.
      eapply Forall_impl; [exact Hvs'|]. by intros ? [].
    + destruct vs as [|v [|w vs]]; [cbn in Hl; lia..|]. inversion Hvs' as [|? ? [? ?]].
      by apply Happ.
  - split; [|done]. apply (visible_app "*/"); [repeat constructor; done|].
    apply Hnum. unfold small. lia.
Qed.

Lemma print_fields_visible s :
  wf_schedule s →
  Forall (λ w, visible w ∧ w ≠ "") (print_matcher <$>
    (if hasSecs s then [seconds s] else []) ++
    [minutes s; hours s; days s; months s; weekdays s]).
Proof.
  intros (Hse & Hmi & Hh & Hd & Hmo & Hw).
  assert (Forall (λ w, visible w ∧ w ≠ "")
    (print_matcher <$> [minutes s; hours s; days s; months s; weekdays s])) as Hrest.
  { repeat apply Forall_cons_2; [..|by constructor];
      (eapply print_matcher_visible; [| |eassumption]; lia). }
  destruct (hasSecs s); [|done]. constructor; [|done].
  eapply print_matcher_visible; [| |exact Hse]; lia.
Qed.

Lemma parse_rest_print secs hs m h d mo w :
  wf_matcher 0 59 m → wf_matcher 0 23 h → wf_matcher 1 31 d → wf_matcher 1 12 mo →
  wf_matcher 0 7 w →
  parse_rest secs hs (print_matcher m) (print_matcher h) (print_matcher d) (print_matcher mo)
    (print_matcher w) = Ok (mkSchedule secs m h d mo w hs).
Proof.
  intros. unfold parse_rest. by rewrite !parseField_print by (done || lia).
Qed.

Lemma parse_rest_wf secs hs mi h d mo w s :
  parse_rest secs hs mi h d mo w = Ok s →
  seconds s = secs ∧ hasSecs s = hs ∧ wf_matcher 0 59 (minutes s) ∧ wf_matcher 0 23 (hours s) ∧
  wf_matcher 1 31 (days s) ∧ wf_matcher 1 12 (months s) ∧ wf_matcher 0 7 (weekdays s).
Proof.
  unfold parse_rest. intros H. inv_ok. cbn.
  repeat match goal with H : parseField _ _ _ = Ok _ |- _ => apply parseField_wf in H end. done.
Qed.

Lemma fields_nonempty expr w ws : Str.fields expr = w :: ws → String.eqb expr "" = false.
Proof. by destruct expr. Qed.

(** Cron expressions are read back as printed: every well-formed schedule -
    fields in their ranges, ranges not empty, lists of two values or more, steps
    of at least one - is what its printed form parses to, and every schedule an
    expression parses to is well formed (so a step never divides by zero). *)
Theorem cron_roundtrip s :
  (wf_schedule s → ParseCronExpression (print_schedule s) = Ok s) ∧
  (∀ expr, ParseCronExpression expr = Ok s → wf_schedule s).
Proof.
  split.
  - intros Hs. pose proof (print_fields_visible s Hs) as Hv.
    destruct Hs as (Hse & ? & ? & ? & ? & ?).
    destruct s as [se mi h d mo w [|]]; cbn [hasSecs seconds minutes hours days months weekdays] in *;
      unfold ParseCronExpression.
    + assert (Str.fields (print_schedule (mkSchedule se mi h d mo w true))
              = print_matcher <$> [se; mi; h; d; mo; w]) as Hf by exact (fields_join _ _ Hv).
      rewrite (fields_nonempty _ _ _ Hf), Hf. cbn [fmap list_fmap].
      rewrite parseField_print by (done || lia). cbn [wrap_err mbind result_bind].
      by apply parse_rest_print.
    + assert (Str.fields (print_schedule (mkSchedule se mi h d mo w false))
              = print_matcher <$> [mi; h; d; mo; w]) as Hf by exact (fields_join _ _ Hv).
      rewrite (fields_nonempty _ _ _ Hf), Hf, Hse. by apply parse_rest_print.
  - intros expr. unfold ParseCronExpression, wf_schedule. destruct (String.eqb expr ""); [done|].
    destruct (Str.fields expr) as [|a [|b [|c [|e [|f [|g [|]]]]]]]; try done; intros H.
    + apply parse_rest_wf in H as (-> & -> & ?). done.
    + inv_ok. apply parse_rest_wf in H as (-> & -> & ?). split; [|done].
      by eapply parseField_wf.
Qed.

(** ** Days and weekdays *)

Lemma weekday_range t : 0 ≤ Time.weekday t < 7.
Proof. apply Z.mod_pos_bound. lia. Qed.

(** The day of the year, counted from March, is at most 365. *)
Definition march_day (doe : Z) : Z :=
  let yoe := (doe - doe / 1460 + doe / 36524 - doe / 146096) / 365 in
  doe - (365 * yoe + yoe / 4 - yoe / 100).

Lemma march_day_range doe : 0 ≤ doe < 146097 → 0 ≤ march_day doe ≤ 365.
Proof. intros H. unfold march_day. cbv zeta. Z.to_euclidean_division_equations. lia. Qed.

Lemma february_days n y d : Civil.civil_from_days n = (y, 2, d) → d ≤ 29.
Proof.
  unfold Civil.civil_from_days. cbv zeta.
  set (doe := n + 719468 - (n + 719468) / 146097 * 146097).
  assert (0 ≤ doe < 146097) as Hd.
  { unfold doe. pose proof (Z.mod_pos_bound (n + 719468) 146097 ltac:(lia)).
    rewrite Z.mod_eq in * by lia. lia. }
  pose proof (march_day_range doe Hd) as Hm. unfold march_day in Hm.
  set (doy := doe - _) in *. intros [= _ Hmo Hday]. cbv zeta in Hm. fold doy in Hm.
  destruct ((5 * doy + 2) / 153 <? 10) eqn:Hmp; [apply Z.ltb_lt in Hmp|apply Z.ltb_ge in Hmp].
  - pose proof (Z.div_pos (5 * doy + 2) 153). lia.
  - assert ((5 * doy + 2) / 153 = 11) as Heq by lia. rewrite Heq in Hday.
    change ((153 * 11 + 2) / 5) with 337 in Hday. lia.
Qed.

Lemma no_thirtieth_of_february t :
  schedule_matches (mkSchedule (exactMatcher 0) (exactMatcher 0) (exactMatcher 0)
    (exactMatcher 30) (exactMatcher 2) (exactMatcher 7) false) t = false.
Proof.
  apply not_true_iff_false. unfold schedule_matches.
  cbn [seconds minutes hours days months weekdays field_matches].
  rewrite !andb_true_iff, orb_true_iff, !Z.eqb_eq. intros [[_ Hmo] [Hda|Hwd]].
  - unfold Time.month, Time.day in *. destruct (Time.civil t) as [[y m] d] eqn:Hc. subst.
    apply february_days in Hc. lia.
  - pose proof (weekday_range t). lia.
Qed.

(** How the day fields depart from cron.  The day and weekday fields are
    alternatives also when one of them is "*", and then the other is ignored:
    "0 0 1 * *", meant for the first of every month, runs every midnight (after
    10:00 on 1 January 2025 next on 2 January), and so does "0 0 * * 0".  The
    weekday 7, which the parser accepts as Sunday, matches no day.  And an
    accepted expression may have no next run: for "0 0 30 2 7" [Next] always
    answers the zero time, which lies in the past. *)
Theorem cron_day_fields :
  (∀ s t, days s = wildcardMatcher ∨ weekdays s = wildcardMatcher →
     schedule_matches s t = schedule_matches
       (mkSchedule (seconds s) (minutes s) (hours s) wildcardMatcher (months s) wildcardMatcher
          (hasSecs s)) t) ∧
  (∃ s, ParseCronExpression "0 0 1 * *" = Ok s ∧
     Next s (Time.date 2025 1 1 10 0 0 0 UTC) = Time.date 2025 1 2 0 0 0 0 UTC) ∧
  (∃ m, parseField "7" 0 7 = Ok m ∧ ∀ t, field_matches m (Time.weekday t) = false) ∧
  ∃ s, ParseCronExpression "0 0 30 2 7" = Ok s ∧ ∀ from, Next s from = Time.zero.
Proof.
  split; [|split; [|split]].
  - intros s t Hw. unfold schedule_matches. cbn. destruct Hw as [->| ->]; [done|].
    by rewrite orb_true_r.
  - eexists. split; [vm_compute; reflexivity|]. vm_compute. reflexivity.
  - exists (exactMatcher 7). split; [reflexivity|]. intros t.
    pose proof (weekday_range t). apply Z.eqb_neq. lia.
  - eexists. split; [vm_compute; reflexivity|]. intros from.
    destruct (Next_cases (mkSchedule (exactMatcher 0) (exactMatcher 0) (exactMatcher 0)
      (exactMatcher 30) (exactMatcher 2) (exactMatcher 7) false) from) as [[Hdue _]|[H _]];
      [|exact H]. exfalso. destruct Hdue as (_ & _ & _ & _ & _ & Hm).
    by rewrite no_thirtieth_of_february in Hm.
Qed.

(** ** The life of a scheduler *)

(** The states a scheduler can be in: what its methods lead to from a new one. *)
Inductive reachable : Scheduler → Prop :=
| reachable_New : reachable New
| reachable_Register s j s' : reachable s → Register j s = Ok s' → reachable s'
| reachable_Start s s' : reachable s → Start s = Ok s' → reachable s'
| reachable_Stop s s' : reachable s → Stop s = Ok s' → reachable s'.

Definition schedules_parse (s : Scheduler) : Prop :=
  map_Forall (λ n j, job_name j = n ∧ is_ok (ParseCronExpression (job_schedule j)) = true) (jobs s).

Lemma reachable_parse s : reachable s → schedules_parse s.
Proof.
  induction 1 as [|s j s' _ IH Ho|s s' _ IH Ho|s s' _ IH Ho].
  - apply map_Forall_empty.
  - destruct j as [j|]; [|done]. cbn in Ho. apply bind_Ok in Ho as (u & Hv%wrap_err_Ok & Ho).
    destruct (jobs s !! job_name j); [done|]. injection Ho as <-.
    apply map_Forall_insert_2; [|done]. cbn. split; [done|].
    unfold Validate in Hv. destruct (String.eqb (job_name j) ""); [done|].
    destruct (String.eqb (job_schedule j) ""); [done|].
    destruct (ParseCronExpression (job_schedule j)); [done|discriminate Hv].
  - unfold Start in Ho. destruct (running s); [done|]. apply bind_Ok in Ho as (n & _ & Ho).
    by injection Ho as <-.
  - unfold Stop in Ho. destruct (running s), (stopped s); cbn in Ho; try done.
    by injection Ho as <-.
Qed.

Lemma launch_all l n :
  Forall (λ nj : string * Job, is_ok (ParseCronExpression (job_schedule nj.2)) = true) l →
  launch l n = Ok (n + length l)%nat.
Proof.
  intros Hl. revert n. induction Hl as [|[k j] l Hj _ IH]; intros n; cbn; [by rewrite Nat.add_0_r|].
  cbn in Hj. destruct (ParseCronExpression (job_schedule j)); [|done]. cbn.
  rewrite IH. f_equal. lia.
Qed.

Lemma Register_ok_iff j s :
  is_ok (Register (Some j) s) = true ↔
    job_name j ≠ "" ∧ is_ok (ParseCronExpression (job_schedule j)) = true ∧
    job_handler j = true ∧ jobs s !! job_name j = None.
Proof.
  unfold Register, Validate.
  destruct (String.eqb_spec (job_name j) ""); [naive_solver|].
  destruct (String.eqb_spec (job_schedule j) "") as [->|]; [naive_solver|].
  destruct (ParseCronExpression (job_schedule j)); [|naive_solver]. cbn.
  destruct (job_handler j); [|naive_solver]. cbn.
  destruct (jobs s !! job_name j); naive_solver.
Qed.

(** Registration makes starting safe: a job that is not named, has a bad
    schedule, no handler, or a name already taken is refused by [Register], so
    that in every state a scheduler can reach [Start] launches one goroutine per
    registered job and is refused only while the scheduler runs.  But a
    scheduler cannot be restarted: [Start] is accepted after [Stop], the channel
    that stops the jobs stays closed, and the next [Stop] panics. *)
Theorem scheduler_lifecycle :
  (∀ s, reachable s →
     Start s = (if running s then Err (errorf0 "scheduler already running")
                else Ok (mkScheduler (jobs s) true (stopped s) (started s + size (jobs s)))) ∧
     ∀ j, is_ok (Register (Some j) s) = true ↔
          job_name j ≠ "" ∧ is_ok (ParseCronExpression (job_schedule j)) = true ∧
          job_handler j = true ∧ jobs s !! job_name j = None) ∧
  ∀ s0 s1 s2, reachable s0 → Stop s0 = Ok s1 → Start s1 = Ok s2 →
    Stop s2 = Err (Panic "close of closed channel").
Proof.
  split.
  - intros s Hr%reachable_parse. split; [|intros j; apply Register_ok_iff].
    unfold Start. destruct (running s); [done|].
    rewrite launch_all; [cbn; by rewrite length_map_to_list|].
    apply Forall_forall. intros [k j] Hj%elem_of_map_to_list. by apply (Hr k j) in Hj as [_ ?].
  - intros s0 s1 s2 _ H1 H2. unfold Stop in H1. destruct (running s0), (stopped s0); cbn in H1; try done.
    injection H1 as <-. unfold Start in H2. cbn in H2. apply bind_Ok in H2 as (n & _ & H2).
    by injection H2 as <-.
Qed.

Definition nightly : Job := mkJob "nightly" "0 0 * * *" "" true.

(** The restart does happen: register, start, stop, start and stop. *)
Example restart_panics :
  (s0 ← Register (Some nightly) New; s1 ← Start s0; s2 ← Stop s1; s3 ← Start s2; Stop s3)
  = Err (Panic "close of closed channel").
Proof. vm_compute. reflexivity. Qed.
