(* ===== verification/TagTables.v ===== *)
(** * Unicode tables of tag recognition

    [internal/markdown/parser/tag_unicode_tables.go]: the ranges of the
    properties XID_Continue and Default_Ignorable_Code_Point and of the combining
    marks, and the fully qualified emoji sequences, of Unicode 17.  A sequence is
    written by its code points; [TagScan] encodes it. *)
From S2P Require Import Prelude.
#[local] Open Scope Z_scope.

Record codePointRange := mkRange { lo : Z; hi : Z }.

Definition unicode17XIDContinue : list codePointRange :=
 [mkRange 0x0030 0x0039; mkRange 0x0041 0x005A; mkRange 0x005F 0x005F; mkRange 0x0061 0x007A;
  mkRange 0x00AA 0x00AA; mkRange 0x00B5 0x00B5; mkRange 0x00B7 0x00B7; mkRange 0x00BA 0x00BA;
  mkRange 0x00C0 0x00D6; mkRange 0x00D8 0x00F6; mkRange 0x00F8 0x02C1; mkRange 0x02C6 0x02D1;
  mkRange 0x02E0 0x02E4; mkRange 0x02EC 0x02EC; mkRange 0x02EE 0x02EE; mkRange 0x0300 0x0374;
  mkRange 0x0376 0x0377; mkRange 0x037B 0x037D; mkRange 0x037F 0x037F; mkRange 0x0386 0x038A;
  mkRange 0x038C 0x038C; mkRange 0x038E 0x03A1; mkRange 0x03A3 0x03F5; mkRange 0x03F7 0x0481;
  mkRange 0x0483 0x0487; mkRange 0x048A 0x052F; mkRange 0x0531 0x0556; mkRange 0x0559 0x0559;
  mkRange 0x0560 0x0588; mkRange 0x0591 0x05BD; mkRange 0x05BF 0x05BF; mkRange 0x05C1 0x05C2;
  mkRange 0x05C4 0x05C5; mkRange 0x05C7 0x05C7; mkRange 0x05D0 0x05EA; mkRange 0x05EF 0x05F2;
  mkRange 0x0610 0x061A; mkRange 0x0620 0x0669; mkRange 0x066E 0x06D3; mkRange 0x06D5 0x06DC;
  mkRange 0x06DF 0x06E8; mkRange 0x06EA 0x06FC; mkRange 0x06FF 0x06FF; mkRange 0x0710 0x074A;
  mkRange 0x074D 0x07B1; mkRange 0x07C0 0x07F5; mkRange 0x07FA 0x07FA; mkRange 0x07FD 0x07FD;
  mkRange 0x0800 0x082D; mkRange 0x0840 0x085B; mkRange 0x0860 0x086A; mkRange 0x0870 0x0887;
  mkRange 0x0889 0x088F; mkRange 0x0897 0x08E1; mkRange 0x08E3 0x0963; mkRange 0x0966 0x096F;
  mkRange 0x0971 0x0983; mkRange 0x0985 0x098C; mkRange 0x098F 0x0990; mkRange 0x0993 0x09A8;
  mkRange 0x09AA 0x09B0; mkRange 0x09B2 0x09B2; mkRange 0x09B6 0x09B9; mkRange 0x09BC 0x09C4;
  mkRange 0x09C7 0x09C8; mkRange 0x09CB 0x09CE; mkRange 0x09D7 0x09D7; mkRange 0x09DC 0x09DD;
  mkRange 0x09DF 0x09E3; mkRange 0x09E6 0x09F1; mkRange 0x09FC 0x09FC; mkRange 0x09FE 0x09FE;
  mkRange 0x0A01 0x0A03; mkRange 0x0A05 0x0A0A; mkRange 0x0A0F 0x0A10; mkRange 0x0A13 0x0A28;
  mkRange 0x0A2A 0x0A30; mkRange 0x0A32 0x0A33; mkRange 0x0A35 0x0A36; mkRange 0x0A38 0x0A39;
  mkRange 0x0A3C 0x0A3C; mkRange 0x0A3E 0x0A42; mkRange 0x0A47 0x0A48; mkRange 0x0A4B 0x0A4D;
  mkRange 0x0A51 0x0A51; mkRange 0x0A59 0x0A5C; mkRange 0x0A5E 0x0A5E; mkRange 0x0A66 0x0A75;
  mkRange 0x0A81 0x0A83; mkRange 0x0A85 0x0A8D; mkRange 0x0A8F 0x0A91; mkRange 0x0A93 0x0AA8;
  mkRange 0x0AAA 0x0AB0; mkRange 0x0AB2 0x0AB3; mkRange 0x0AB5 0x0AB9; mkRange 0x0ABC 0x0AC5;
  mkRange 0x0AC7 0x0AC9; mkRange 0x0ACB 0x0ACD; mkRange 0x0AD0 0x0AD0; mkRange 0x0AE0 0x0AE3;
  mkRange 0x0AE6 0x0AEF; mkRange 0x0AF9 0x0AFF; mkRange 0x0B01 0x0B03; mkRange 0x0B05 0x0B0C;
  mkRange 0x0B0F 0x0B10; mkRange 0x0B13 0x0B28; mkRange 0x0B2A 0x0B30; mkRange 0x0B32 0x0B33;
  mkRange 0x0B35 0x0B39; mkRange 0x0B3C 0x0B44; mkRange 0x0B47 0x0B48; mkRange 0x0B4B 0x0B4D;
  mkRange 0x0B55 0x0B57; mkRange 0x0B5C 0x0B5D; mkRange 0x0B5F 0x0B63; mkRange 0x0B66 0x0B6F;
  mkRange 0x0B71 0x0B71; mkRange 0x0B82 0x0B83; mkRange 0x0B85 0x0B8A; mkRange 0x0B8E 0x0B90;
  mkRange 0x0B92 0x0B95; mkRange 0x0B99 0x0B9A; mkRange 0x0B9C 0x0B9C; mkRange 0x0B9E 0x0B9F;
  mkRange 0x0BA3 0x0BA4; mkRange 0x0BA8 0x0BAA; mkRange 0x0BAE 0x0BB9; mkRange 0x0BBE 0x0BC2;
  mkRange 0x0BC6 0x0BC8; mkRange 0x0BCA 0x0BCD; mkRange 0x0BD0 0x0BD0; mkRange 0x0BD7 0x0BD7;
  mkRange 0x0BE6 0x0BEF; mkRange 0x0C00 0x0C0C; mkRange 0x0C0E 0x0C10; mkRange 0x0C12 0x0C28;
  mkRange 0x0C2A 0x0C39; mkRange 0x0C3C 0x0C44; mkRange 0x0C46 0x0C48; mkRange 0x0C4A 0x0C4D;
  mkRange 0x0C55 0x0C56; mkRange 0x0C58 0x0C5A; mkRange 0x0C5C 0x0C5D; mkRange 0x0C60 0x0C63;
  mkRange 0x0C66 0x0C6F; mkRange 0x0C80 0x0C83; mkRange 0x0C85 0x0C8C; mkRange 0x0C8E 0x0C90;
  mkRange 0x0C92 0x0CA8; mkRange 0x0CAA 0x0CB3; mkRange 0x0CB5 0x0CB9; mkRange 0x0CBC 0x0CC4;
  mkRange 0x0CC6 0x0CC8; mkRange 0x0CCA 0x0CCD; mkRange 0x0CD5 0x0CD6; mkRange 0x0CDC 0x0CDE;
  mkRange 0x0CE0 0x0CE3; mkRange 0x0CE6 0x0CEF; mkRange 0x0CF1 0x0CF3; mkRange 0x0D00 0x0D0C;
  mkRange 0x0D0E 0x0D10; mkRange 0x0D12 0x0D44; mkRange 0x0D46 0x0D48; mkRange 0x0D4A 0x0D4E;
  mkRange 0x0D54 0x0D57; mkRange 0x0D5F 0x0D63; mkRange 0x0D66 0x0D6F; mkRange 0x0D7A 0x0D7F;
  mkRange 0x0D81 0x0D83; mkRange 0x0D85 0x0D96; mkRange 0x0D9A 0x0DB1; mkRange 0x0DB3 0x0DBB;
  mkRange 0x0DBD 0x0DBD; mkRange 0x0DC0 0x0DC6; mkRange 0x0DCA 0x0DCA; mkRange 0x0DCF 0x0DD4;
  mkRange 0x0DD6 0x0DD6; mkRange 0x0DD8 0x0DDF; mkRange 0x0DE6 0x0DEF; mkRange 0x0DF2 0x0DF3;
  mkRange 0x0E01 0x0E3A; mkRange 0x0E40 0x0E4E; mkRange 0x0E50 0x0E59; mkRange 0x0E81 0x0E82;
  mkRange 0x0E84 0x0E84; mkRange 0x0E86 0x0E8A; mkRange 0x0E8C 0x0EA3; mkRange 0x0EA5 0x0EA5;
  mkRange 0x0EA7 0x0EBD; mkRange 0x0EC0 0x0EC4; mkRange 0x0EC6 0x0EC6; mkRange 0x0EC8 0x0ECE;
  mkRange 0x0ED0 0x0ED9; mkRange 0x0EDC 0x0EDF; mkRange 0x0F00 0x0F00; mkRange 0x0F18 0x0F19;
  mkRange 0x0F20 0x0F29; mkRange 0x0F35 0x0F35; mkRange 0x0F37 0x0F37; mkRange 0x0F39 0x0F39;
  mkRange 0x0F3E 0x0F47; mkRange 0x0F49 0x0F6C; mkRange 0x0F71 0x0F84; mkRange 0x0F86 0x0F97;
  mkRange 0x0F99 0x0FBC; mkRange 0x0FC6 0x0FC6; mkRange 0x1000 0x1049; mkRange 0x1050 0x109D;
  mkRange 0x10A0 0x10C5; mkRange 0x10C7 0x10C7; mkRange 0x10CD 0x10CD; mkRange 0x10D0 0x10FA;
  mkRange 0x10FC 0x1248; mkRange 0x124A 0x124D; mkRange 0x1250 0x1256; mkRange 0x1258 0x1258;
  mkRange 0x125A 0x125D; mkRange 0x1260 0x1288; mkRange 0x128A 0x128D; mkRange 0x1290 0x12B0;
  mkRange 0x12B2 0x12B5; mkRange 0x12B8 0x12BE; mkRange 0x12C0 0x12C0; mkRange 0x12C2 0x12C5;
  mkRange 0x12C8 0x12D6; mkRange 0x12D8 0x1310; mkRange 0x1312 0x1315; mkRange 0x1318 0x135A;
  mkRange 0x135D 0x135F; mkRange 0x1369 0x1371; mkRange 0x1380 0x138F; mkRange 0x13A0 0x13F5;
  mkRange 0x13F8 0x13FD; mkRange 0x1401 0x166C; mkRange 0x166F 0x167F; mkRange 0x1681 0x169A;
  mkRange 0x16A0 0x16EA; mkRange 0x16EE 0x16F8; mkRange 0x1700 0x1715; mkRange 0x171F 0x1734;
  mkRange 0x1740 0x1753; mkRange 0x1760 0x176C; mkRange 0x176E 0x1770; mkRange 0x1772 0x1773;
  mkRange 0x1780 0x17D3; mkRange 0x17D7 0x17D7; mkRange 0x17DC 0x17DD; mkRange 0x17E0 0x17E9;
  mkRange 0x180B 0x180D; mkRange 0x180F 0x1819; mkRange 0x1820 0x1878; mkRange 0x1880 0x18AA;
  mkRange 0x18B0 0x18F5; mkRange 0x1900 0x191E; mkRange 0x1920 0x192B; mkRange 0x1930 0x193B;
  mkRange 0x1946 0x196D; mkRange 0x1970 0x1974; mkRange 0x1980 0x19AB; mkRange 0x19B0 0x19C9;
  mkRange 0x19D0 0x19DA; mkRange 0x1A00 0x1A1B; mkRange 0x1A20 0x1A5E; mkRange 0x1A60 0x1A7C;
  mkRange 0x1A7F 0x1A89; mkRange 0x1A90 0x1A99; mkRange 0x1AA7 0x1AA7; mkRange 0x1AB0 0x1ABD;
  mkRange 0x1ABF 0x1ADD; mkRange 0x1AE0 0x1AEB; mkRange 0x1B00 0x1B4C; mkRange 0x1B50 0x1B59;
  mkRange 0x1B6B 0x1B73; mkRange 0x1B80 0x1BF3; mkRange 0x1C00 0x1C37; mkRange 0x1C40 0x1C49;
  mkRange 0x1C4D 0x1C7D; mkRange 0x1C80 0x1C8A; mkRange 0x1C90 0x1CBA; mkRange 0x1CBD 0x1CBF;
  mkRange 0x1CD0 0x1CD2; mkRange 0x1CD4 0x1CFA; mkRange 0x1D00 0x1F15; mkRange 0x1F18 0x1F1D;
  mkRange 0x1F20 0x1F45; mkRange 0x1F48 0x1F4D; mkRange 0x1F50 0x1F57; mkRange 0x1F59 0x1F59;
  mkRange 0x1F5B 0x1F5B; mkRange 0x1F5D 0x1F5D; mkRange 0x1F5F 0x1F7D; mkRange 0x1F80 0x1FB4;
  mkRange 0x1FB6 0x1FBC; mkRange 0x1FBE 0x1FBE; mkRange 0x1FC2 0x1FC4; mkRange 0x1FC6 0x1FCC;
  mkRange 0x1FD0 0x1FD3; mkRange 0x1FD6 0x1FDB; mkRange 0x1FE0 0x1FEC; mkRange 0x1FF2 0x1FF4;
  mkRange 0x1FF6 0x1FFC; mkRange 0x200C 0x200D; mkRange 0x203F 0x2040; mkRange 0x2054 0x2054;
  mkRange 0x2071 0x2071; mkRange 0x207F 0x207F; mkRange 0x2090 0x209C; mkRange 0x20D0 0x20DC;
  mkRange 0x20E1 0x20E1; mkRange 0x20E5 0x20F0; mkRange 0x2102 0x2102; mkRange 0x2107 0x2107;
  mkRange 0x210A 0x2113; mkRange 0x2115 0x2115; mkRange 0x2118 0x211D; mkRange 0x2124 0x2124;
  mkRange 0x2126 0x2126; mkRange 0x2128 0x2128; mkRange 0x212A 0x2139; mkRange 0x213C 0x213F;
  mkRange 0x2145 0x2149; mkRange 0x214E 0x214E; mkRange 0x2160 0x2188; mkRange 0x2C00 0x2CE4;
  mkRange 0x2CEB 0x2CF3; mkRange 0x2D00 0x2D25; mkRange 0x2D27 0x2D27; mkRange 0x2D2D 0x2D2D;
  mkRange 0x2D30 0x2D67; mkRange 0x2D6F 0x2D6F; mkRange 0x2D7F 0x2D96; mkRange 0x2DA0 0x2DA6;
  mkRange 0x2DA8 0x2DAE; mkRange 0x2DB0 0x2DB6; mkRange 0x2DB8 0x2DBE; mkRange 0x2DC0 0x2DC6;
  mkRange 0x2DC8 0x2DCE; mkRange 0x2DD0 0x2DD6; mkRange 0x2DD8 0x2DDE; mkRange 0x2DE0 0x2DFF;
  mkRange 0x3005 0x3007; mkRange 0x3021 0x302F; mkRange 0x3031 0x3035; mkRange 0x3038 0x303C;
  mkRange 0x3041 0x3096; mkRange 0x3099 0x309A; mkRange 0x309D 0x309F; mkRange 0x30A1 0x30FF;
  mkRange 0x3105 0x312F; mkRange 0x3131 0x318E; mkRange 0x31A0 0x31BF; mkRange 0x31F0 0x31FF;
  mkRange 0x3400 0x4DBF; mkRange 0x4E00 0xA48C; mkRange 0xA4D0 0xA4FD; mkRange 0xA500 0xA60C;
  mkRange 0xA610 0xA62B; mkRange 0xA640 0xA66F; mkRange 0xA674 0xA67D; mkRange 0xA67F 0xA6F1;
  mkRange 0xA717 0xA71F; mkRange 0xA722 0xA788; mkRange 0xA78B 0xA7DC; mkRange 0xA7F1 0xA827;
  mkRange 0xA82C 0xA82C; mkRange 0xA840 0xA873; mkRange 0xA880 0xA8C5; mkRange 0xA8D0 0xA8D9;
  mkRange 0xA8E0 0xA8F7; mkRange 0xA8FB 0xA8FB; mkRange 0xA8FD 0xA92D; mkRange 0xA930 0xA953;
  mkRange 0xA960 0xA97C; mkRange 0xA980 0xA9C0; mkRange 0xA9CF 0xA9D9; mkRange 0xA9E0 0xA9FE;
  mkRange 0xAA00 0xAA36; mkRange 0xAA40 0xAA4D; mkRange 0xAA50 0xAA59; mkRange 0xAA60 0xAA76;
  mkRange 0xAA7A 0xAAC2; mkRange 0xAADB 0xAADD; mkRange 0xAAE0 0xAAEF; mkRange 0xAAF2 0xAAF6;
  mkRange 0xAB01 0xAB06; mkRange 0xAB09 0xAB0E; mkRange 0xAB11 0xAB16; mkRange 0xAB20 0xAB26;
  mkRange 0xAB28 0xAB2E; mkRange 0xAB30 0xAB5A; mkRange 0xAB5C 0xAB69; mkRange 0xAB70 0xABEA;
  mkRange 0xABEC 0xABED; mkRange 0xABF0 0xABF9; mkRange 0xAC00 0xD7A3; mkRange 0xD7B0 0xD7C6;
  mkRange 0xD7CB 0xD7FB; mkRange 0xF900 0xFA6D; mkRange 0xFA70 0xFAD9; mkRange 0xFB00 0xFB06;
  mkRange 0xFB13 0xFB17; mkRange 0xFB1D 0xFB28; mkRange 0xFB2A 0xFB36; mkRange 0xFB38 0xFB3C;
  mkRange 0xFB3E 0xFB3E; mkRange 0xFB40 0xFB41; mkRange 0xFB43 0xFB44; mkRange 0xFB46 0xFBB1;
  mkRange 0xFBD3 0xFC5D; mkRange 0xFC64 0xFD3D; mkRange 0xFD50 0xFD8F; mkRange 0xFD92 0xFDC7;
  mkRange 0xFDF0 0xFDF9; mkRange 0xFE00 0xFE0F; mkRange 0xFE20 0xFE2F; mkRange 0xFE33 0xFE34;
  mkRange 0xFE4D 0xFE4F; mkRange 0xFE71 0xFE71; mkRange 0xFE73 0xFE73; mkRange 0xFE77 0xFE77;
  mkRange 0xFE79 0xFE79; mkRange 0xFE7B 0xFE7B; mkRange 0xFE7D 0xFE7D; mkRange 0xFE7F 0xFEFC;
  mkRange 0xFF10 0xFF19; mkRange 0xFF21 0xFF3A; mkRange 0xFF3F 0xFF3F; mkRange 0xFF41 0xFF5A;
  mkRange 0xFF65 0xFFBE; mkRange 0xFFC2 0xFFC7; mkRange 0xFFCA 0xFFCF; mkRange 0xFFD2 0xFFD7;
  mkRange 0xFFDA 0xFFDC; mkRange 0x10000 0x1000B; mkRange 0x1000D 0x10026;
  mkRange 0x10028 0x1003A; mkRange 0x1003C 0x1003D; mkRange 0x1003F 0x1004D;
  mkRange 0x10050 0x1005D; mkRange 0x10080 0x100FA; mkRange 0x10140 0x10174;
  mkRange 0x101FD 0x101FD; mkRange 0x10280 0x1029C; mkRange 0x102A0 0x102D0;
  mkRange 0x102E0 0x102E0; mkRange 0x10300 0x1031F; mkRange 0x1032D 0x1034A;
  mkRange 0x10350 0x1037A; mkRange 0x10380 0x1039D; mkRange 0x103A0 0x103C3;
  mkRange 0x103C8 0x103CF; mkRange 0x103D1 0x103D5; mkRange 0x10400 0x1049D;
  mkRange 0x104A0 0x104A9; mkRange 0x104B0 0x104D3; mkRange 0x104D8 0x104FB;
  mkRange 0x10500 0x10527; mkRange 0x10530 0x10563; mkRange 0x10570 0x1057A;
  mkRange 0x1057C 0x1058A; mkRange 0x1058C 0x10592; mkRange 0x10594 0x10595;
  mkRange 0x10597 0x105A1; mkRange 0x105A3 0x105B1; mkRange 0x105B3 0x105B9;
  mkRange 0x105BB 0x105BC; mkRange 0x105C0 0x105F3; mkRange 0x10600 0x10736;
  mkRange 0x10740 0x10755; mkRange 0x10760 0x10767; mkRange 0x10780 0x10785;
  mkRange 0x10787 0x107B0; mkRange 0x107B2 0x107BA; mkRange 0x10800 0x10805;
  mkRange 0x10808 0x10808; mkRange 0x1080A 0x10835; mkRange 0x10837 0x10838;
  mkRange 0x1083C 0x1083C; mkRange 0x1083F 0x10855; mkRange 0x10860 0x10876;
  mkRange 0x10880 0x1089E; mkRange 0x108E0 0x108F2; mkRange 0x108F4 0x108F5;
  mkRange 0x10900 0x10915; mkRange 0x10920 0x10939; mkRange 0x10940 0x10959;
  mkRange 0x10980 0x109B7; mkRange 0x109BE 0x109BF; mkRange 0x10A00 0x10A03;
  mkRange 0x10A05 0x10A06; mkRange 0x10A0C 0x10A13; mkRange 0x10A15 0x10A17;
  mkRange 0x10A19 0x10A35; mkRange 0x10A38 0x10A3A; mkRange 0x10A3F 0x10A3F;
  mkRange 0x10A60 0x10A7C; mkRange 0x10A80 0x10A9C; mkRange 0x10AC0 0x10AC7;
  mkRange 0x10AC9 0x10AE6; mkRange 0x10B00 0x10B35; mkRange 0x10B40 0x10B55;
  mkRange 0x10B60 0x10B72; mkRange 0x10B80 0x10B91; mkRange 0x10C00 0x10C48;
  mkRange 0x10C80 0x10CB2; mkRange 0x10CC0 0x10CF2; mkRange 0x10D00 0x10D27;
  mkRange 0x10D30 0x10D39; mkRange 0x10D40 0x10D65; mkRange 0x10D69 0x10D6D;
  mkRange 0x10D6F 0x10D85; mkRange 0x10E80 0x10EA9; mkRange 0x10EAB 0x10EAC;
  mkRange 0x10EB0 0x10EB1; mkRange 0x10EC2 0x10EC7; mkRange 0x10EFA 0x10F1C;
  mkRange 0x10F27 0x10F27; mkRange 0x10F30 0x10F50; mkRange 0x10F70 0x10F85;
  mkRange 0x10FB0 0x10FC4; mkRange 0x10FE0 0x10FF6; mkRange 0x11000 0x11046;
  mkRange 0x11066 0x11075; mkRange 0x1107F 0x110BA; mkRange 0x110C2 0x110C2;
  mkRange 0x110D0 0x110E8; mkRange 0x110F0 0x110F9; mkRange 0x11100 0x11134;
  mkRange 0x11136 0x1113F; mkRange 0x11144 0x11147; mkRange 0x11150 0x11173;
  mkRange 0x11176 0x11176; mkRange 0x11180 0x111C4; mkRange 0x111C9 0x111CC;
  mkRange 0x111CE 0x111DA; mkRange 0x111DC 0x111DC; mkRange 0x11200 0x11211;
  mkRange 0x11213 0x11237; mkRange 0x1123E 0x11241; mkRange 0x11280 0x11286;
  mkRange 0x11288 0x11288; mkRange 0x1128A 0x1128D; mkRange 0x1128F 0x1129D;
  mkRange 0x1129F 0x112A8; mkRange 0x112B0 0x112EA; mkRange 0x112F0 0x112F9;
  mkRange 0x11300 0x11303; mkRange 0x11305 0x1130C; mkRange 0x1130F 0x11310;
  mkRange 0x11313 0x11328; mkRange 0x1132A 0x11330; mkRange 0x11332 0x11333;
  mkRange 0x11335 0x11339; mkRange 0x1133B 0x11344; mkRange 0x11347 0x11348;
  mkRange 0x1134B 0x1134D; mkRange 0x11350 0x11350; mkRange 0x11357 0x11357;
  mkRange 0x1135D 0x11363; mkRange 0x11366 0x1136C; mkRange 0x11370 0x11374;
  mkRange 0x11380 0x11389; mkRange 0x1138B 0x1138B; mkRange 0x1138E 0x1138E;
  mkRange 0x11390 0x113B5; mkRange 0x113B7 0x113C0; mkRange 0x113C2 0x113C2;
  mkRange 0x113C5 0x113C5; mkRange 0x113C7 0x113CA; mkRange 0x113CC 0x113D3;
  mkRange 0x113E1 0x113E2; mkRange 0x11400 0x1144A; mkRange 0x11450 0x11459;
  mkRange 0x1145E 0x11461; mkRange 0x11480 0x114C5; mkRange 0x114C7 0x114C7;
  mkRange 0x114D0 0x114D9; mkRange 0x11580 0x115B5; mkRange 0x115B8 0x115C0;
  mkRange 0x115D8 0x115DD; mkRange 0x11600 0x11640; mkRange 0x11644 0x11644;
  mkRange 0x11650 0x11659; mkRange 0x11680 0x116B8; mkRange 0x116C0 0x116C9;
  mkRange 0x116D0 0x116E3; mkRange 0x11700 0x1171A; mkRange 0x1171D 0x1172B;
  mkRange 0x11730 0x11739; mkRange 0x11740 0x11746; mkRange 0x11800 0x1183A;
  mkRange 0x118A0 0x118E9; mkRange 0x118FF 0x11906; mkRange 0x11909 0x11909;
  mkRange 0x1190C 0x11913; mkRange 0x11915 0x11916; mkRange 0x11918 0x11935;
  mkRange 0x11937 0x11938; mkRange 0x1193B 0x11943; mkRange 0x11950 0x11959;
  mkRange 0x119A0 0x119A7; mkRange 0x119AA 0x119D7; mkRange 0x119DA 0x119E1;
  mkRange 0x119E3 0x119E4; mkRange 0x11A00 0x11A3E; mkRange 0x11A47 0x11A47;
  mkRange 0x11A50 0x11A99; mkRange 0x11A9D 0x11A9D; mkRange 0x11AB0 0x11AF8;
  mkRange 0x11B60 0x11B67; mkRange 0x11BC0 0x11BE0; mkRange 0x11BF0 0x11BF9;
  mkRange 0x11C00 0x11C08; mkRange 0x11C0A 0x11C36; mkRange 0x11C38 0x11C40;
  mkRange 0x11C50 0x11C59; mkRange 0x11C72 0x11C8F; mkRange 0x11C92 0x11CA7;
  mkRange 0x11CA9 0x11CB6; mkRange 0x11D00 0x11D06; mkRange 0x11D08 0x11D09;
  mkRange 0x11D0B 0x11D36; mkRange 0x11D3A 0x11D3A; mkRange 0x11D3C 0x11D3D;
  mkRange 0x11D3F 0x11D47; mkRange 0x11D50 0x11D59; mkRange 0x11D60 0x11D65;
  mkRange 0x11D67 0x11D68; mkRange 0x11D6A 0x11D8E; mkRange 0x11D90 0x11D91;
  mkRange 0x11D93 0x11D98; mkRange 0x11DA0 0x11DA9; mkRange 0x11DB0 0x11DDB;
  mkRange 0x11DE0 0x11DE9; mkRange 0x11EE0 0x11EF6; mkRange 0x11F00 0x11F10;
  mkRange 0x11F12 0x11F3A; mkRange 0x11F3E 0x11F42; mkRange 0x11F50 0x11F5A;
  mkRange 0x11FB0 0x11FB0; mkRange 0x12000 0x12399; mkRange 0x12400 0x1246E;
  mkRange 0x12480 0x12543; mkRange 0x12F90 0x12FF0; mkRange 0x13000 0x1342F;
  mkRange 0x13440 0x13455; mkRange 0x13460 0x143FA; mkRange 0x14400 0x14646;
  mkRange 0x16100 0x16139; mkRange 0x16800 0x16A38; mkRange 0x16A40 0x16A5E;
  mkRange 0x16A60 0x16A69; mkRange 0x16A70 0x16ABE; mkRange 0x16AC0 0x16AC9;
  mkRange 0x16AD0 0x16AED; mkRange 0x16AF0 0x16AF4; mkRange 0x16B00 0x16B36;
  mkRange 0x16B40 0x16B43; mkRange 0x16B50 0x16B59; mkRange 0x16B63 0x16B77;
  mkRange 0x16B7D 0x16B8F; mkRange 0x16D40 0x16D6C; mkRange 0x16D70 0x16D79;
  mkRange 0x16E40 0x16E7F; mkRange 0x16EA0 0x16EB8; mkRange 0x16EBB 0x16ED3;
  mkRange 0x16F00 0x16F4A; mkRange 0x16F4F 0x16F87; mkRange 0x16F8F 0x16F9F;
  mkRange 0x16FE0 0x16FE1; mkRange 0x16FE3 0x16FE4; mkRange 0x16FF0 0x16FF6;
  mkRange 0x17000 0x18CD5; mkRange 0x18CFF 0x18D1E; mkRange 0x18D80 0x18DF2;
  mkRange 0x1AFF0 0x1AFF3; mkRange 0x1AFF5 0x1AFFB; mkRange 0x1AFFD 0x1AFFE;
  mkRange 0x1B000 0x1B122; mkRange 0x1B132 0x1B132; mkRange 0x1B150 0x1B152;
  mkRange 0x1B155 0x1B155; mkRange 0x1B164 0x1B167; mkRange 0x1B170 0x1B2FB;
  mkRange 0x1BC00 0x1BC6A; mkRange 0x1BC70 0x1BC7C; mkRange 0x1BC80 0x1BC88;
  mkRange 0x1BC90 0x1BC99; mkRange 0x1BC9D 0x1BC9E; mkRange 0x1CCF0 0x1CCF9;
  mkRange 0x1CF00 0x1CF2D; mkRange 0x1CF30 0x1CF46; mkRange 0x1D165 0x1D169;
  mkRange 0x1D16D 0x1D172; mkRange 0x1D17B 0x1D182; mkRange 0x1D185 0x1D18B;
  mkRange 0x1D1AA 0x1D1AD; mkRange 0x1D242 0x1D244; mkRange 0x1D400 0x1D454;
  mkRange 0x1D456 0x1D49C; mkRange 0x1D49E 0x1D49F; mkRange 0x1D4A2 0x1D4A2;
  mkRange 0x1D4A5 0x1D4A6; mkRange 0x1D4A9 0x1D4AC; mkRange 0x1D4AE 0x1D4B9;
  mkRange 0x1D4BB 0x1D4BB; mkRange 0x1D4BD 0x1D4C3; mkRange 0x1D4C5 0x1D505;
  mkRange 0x1D507 0x1D50A; mkRange 0x1D50D 0x1D514; mkRange 0x1D516 0x1D51C;
  mkRange 0x1D51E 0x1D539; mkRange 0x1D53B 0x1D53E; mkRange 0x1D540 0x1D544;
  mkRange 0x1D546 0x1D546; mkRange 0x1D54A 0x1D550; mkRange 0x1D552 0x1D6A5;
  mkRange 0x1D6A8 0x1D6C0; mkRange 0x1D6C2 0x1D6DA; mkRange 0x1D6DC 0x1D6FA;
  mkRange 0x1D6FC 0x1D714; mkRange 0x1D716 0x1D734; mkRange 0x1D736 0x1D74E;
  mkRange 0x1D750 0x1D76E; mkRange 0x1D770 0x1D788; mkRange 0x1D78A 0x1D7A8;
  mkRange 0x1D7AA 0x1D7C2; mkRange 0x1D7C4 0x1D7CB; mkRange 0x1D7CE 0x1D7FF;
  mkRange 0x1DA00 0x1DA36; mkRange 0x1DA3B 0x1DA6C; mkRange 0x1DA75 0x1DA75;
  mkRange 0x1DA84 0x1DA84; mkRange 0x1DA9B 0x1DA9F; mkRange 0x1DAA1 0x1DAAF;
  mkRange 0x1DF00 0x1DF1E; mkRange 0x1DF25 0x1DF2A; mkRange 0x1E000 0x1E006;
  mkRange 0x1E008 0x1E018; mkRange 0x1E01B 0x1E021; mkRange 0x1E023 0x1E024;
  mkRange 0x1E026 0x1E02A; mkRange 0x1E030 0x1E06D; mkRange 0x1E08F 0x1E08F;
  mkRange 0x1E100 0x1E12C; mkRange 0x1E130 0x1E13D; mkRange 0x1E140 0x1E149;
  mkRange 0x1E14E 0x1E14E; mkRange 0x1E290 0x1E2AE; mkRange 0x1E2C0 0x1E2F9;
  mkRange 0x1E4D0 0x1E4F9; mkRange 0x1E5D0 0x1E5FA; mkRange 0x1E6C0 0x1E6DE;
  mkRange 0x1E6E0 0x1E6F5; mkRange 0x1E6FE 0x1E6FF; mkRange 0x1E7E0 0x1E7E6;
  mkRange 0x1E7E8 0x1E7EB; mkRange 0x1E7ED 0x1E7EE; mkRange 0x1E7F0 0x1E7FE;
  mkRange 0x1E800 0x1E8C4; mkRange 0x1E8D0 0x1E8D6; mkRange 0x1E900 0x1E94B;
  mkRange 0x1E950 0x1E959; mkRange 0x1EE00 0x1EE03; mkRange 0x1EE05 0x1EE1F;
  mkRange 0x1EE21 0x1EE22; mkRange 0x1EE24 0x1EE24; mkRange 0x1EE27 0x1EE27;
  mkRange 0x1EE29 0x1EE32; mkRange 0x1EE34 0x1EE37; mkRange 0x1EE39 0x1EE39;
  mkRange 0x1EE3B 0x1EE3B; mkRange 0x1EE42 0x1EE42; mkRange 0x1EE47 0x1EE47;
  mkRange 0x1EE49 0x1EE49; mkRange 0x1EE4B 0x1EE4B; mkRange 0x1EE4D 0x1EE4F;
  mkRange 0x1EE51 0x1EE52; mkRange 0x1EE54 0x1EE54; mkRange 0x1EE57 0x1EE57;
  mkRange 0x1EE59 0x1EE59; mkRange 0x1EE5B 0x1EE5B; mkRange 0x1EE5D 0x1EE5D;
  mkRange 0x1EE5F 0x1EE5F; mkRange 0x1EE61 0x1EE62; mkRange 0x1EE64 0x1EE64;
  mkRange 0x1EE67 0x1EE6A; mkRange 0x1EE6C 0x1EE72; mkRange 0x1EE74 0x1EE77;
  mkRange 0x1EE79 0x1EE7C; mkRange 0x1EE7E 0x1EE7E; mkRange 0x1EE80 0x1EE89;
  mkRange 0x1EE8B 0x1EE9B; mkRange 0x1EEA1 0x1EEA3; mkRange 0x1EEA5 0x1EEA9;
  mkRange 0x1EEAB 0x1EEBB; mkRange 0x1FBF0 0x1FBF9; mkRange 0x20000 0x2A6DF;
  mkRange 0x2A700 0x2B81D; mkRange 0x2B820 0x2CEAD; mkRange 0x2CEB0 0x2EBE0;
  mkRange 0x2EBF0 0x2EE5D; mkRange 0x2F800 0x2FA1D; mkRange 0x30000 0x3134A;
  mkRange 0x31350 0x33479; mkRange 0xE0100 0xE01EF].

Definition unicode17DefaultIgnorable : list codePointRange :=
 [mkRange 0x00AD 0x00AD; mkRange 0x034F 0x034F; mkRange 0x061C 0x061C; mkRange 0x115F 0x1160;
  mkRange 0x17B4 0x17B5; mkRange 0x180B 0x180F; mkRange 0x200B 0x200F; mkRange 0x202A 0x202E;
  mkRange 0x2060 0x206F; mkRange 0x3164 0x3164; mkRange 0xFE00 0xFE0F; mkRange 0xFEFF 0xFEFF;
  mkRange 0xFFA0 0xFFA0; mkRange 0xFFF0 0xFFF8; mkRange 0x1BCA0 0x1BCA3; mkRange 0x1D173 0x1D17A;
  mkRange 0xE0000 0xE0FFF].

Definition unicode17CombiningMarks : list codePointRange :=
 [mkRange 0x0300 0x036F; mkRange 0x0483 0x0487; mkRange 0x0591 0x05BD; mkRange 0x05BF 0x05BF;
  mkRange 0x05C1 0x05C2; mkRange 0x05C4 0x05C5; mkRange 0x05C7 0x05C7; mkRange 0x0610 0x061A;
  mkRange 0x064B 0x065F; mkRange 0x0670 0x0670; mkRange 0x06D6 0x06DC; mkRange 0x06DF 0x06E4;
  mkRange 0x06E7 0x06E8; mkRange 0x06EA 0x06ED; mkRange 0x0711 0x0711; mkRange 0x0730 0x074A;
  mkRange 0x07A6 0x07B0; mkRange 0x07EB 0x07F3; mkRange 0x07FD 0x07FD; mkRange 0x0816 0x0819;
  mkRange 0x081B 0x0823; mkRange 0x0825 0x0827; mkRange 0x0829 0x082D; mkRange 0x0859 0x085B;
  mkRange 0x0897 0x089F; mkRange 0x08CA 0x08E1; mkRange 0x08E3 0x0903; mkRange 0x093A 0x093C;
  mkRange 0x093E 0x094F; mkRange 0x0951 0x0957; mkRange 0x0962 0x0963; mkRange 0x0981 0x0983;
  mkRange 0x09BC 0x09BC; mkRange 0x09BE 0x09C4; mkRange 0x09C7 0x09C8; mkRange 0x09CB 0x09CD;
  mkRange 0x09D7 0x09D7; mkRange 0x09E2 0x09E3; mkRange 0x09FE 0x09FE; mkRange 0x0A01 0x0A03;
  mkRange 0x0A3C 0x0A3C; mkRange 0x0A3E 0x0A42; mkRange 0x0A47 0x0A48; mkRange 0x0A4B 0x0A4D;
  mkRange 0x0A51 0x0A51; mkRange 0x0A70 0x0A71; mkRange 0x0A75 0x0A75; mkRange 0x0A81 0x0A83;
  mkRange 0x0ABC 0x0ABC; mkRange 0x0ABE 0x0AC5; mkRange 0x0AC7 0x0AC9; mkRange 0x0ACB 0x0ACD;
  mkRange 0x0AE2 0x0AE3; mkRange 0x0AFA 0x0AFF; mkRange 0x0B01 0x0B03; mkRange 0x0B3C 0x0B3C;
  mkRange 0x0B3E 0x0B44; mkRange 0x0B47 0x0B48; mkRange 0x0B4B 0x0B4D; mkRange 0x0B55 0x0B57;
  mkRange 0x0B62 0x0B63; mkRange 0x0B82 0x0B82; mkRange 0x0BBE 0x0BC2; mkRange 0x0BC6 0x0BC8;
  mkRange 0x0BCA 0x0BCD; mkRange 0x0BD7 0x0BD7; mkRange 0x0C00 0x0C04; mkRange 0x0C3C 0x0C3C;
  mkRange 0x0C3E 0x0C44; mkRange 0x0C46 0x0C48; mkRange 0x0C4A 0x0C4D; mkRange 0x0C55 0x0C56;
  mkRange 0x0C62 0x0C63; mkRange 0x0C81 0x0C83; mkRange 0x0CBC 0x0CBC; mkRange 0x0CBE 0x0CC4;
  mkRange 0x0CC6 0x0CC8; mkRange 0x0CCA 0x0CCD; mkRange 0x0CD5 0x0CD6; mkRange 0x0CE2 0x0CE3;
  mkRange 0x0CF3 0x0CF3; mkRange 0x0D00 0x0D03; mkRange 0x0D3B 0x0D3C; mkRange 0x0D3E 0x0D44;
  mkRange 0x0D46 0x0D48; mkRange 0x0D4A 0x0D4D; mkRange 0x0D57 0x0D57; mkRange 0x0D62 0x0D63;
  mkRange 0x0D81 0x0D83; mkRange 0x0DCA 0x0DCA; mkRange 0x0DCF 0x0DD4; mkRange 0x0DD6 0x0DD6;
  mkRange 0x0DD8 0x0DDF; mkRange 0x0DF2 0x0DF3; mkRange 0x0E31 0x0E31; mkRange 0x0E34 0x0E3A;
  mkRange 0x0E47 0x0E4E; mkRange 0x0EB1 0x0EB1; mkRange 0x0EB4 0x0EBC; mkRange 0x0EC8 0x0ECE;
  mkRange 0x0F18 0x0F19; mkRange 0x0F35 0x0F35; mkRange 0x0F37 0x0F37; mkRange 0x0F39 0x0F39;
  mkRange 0x0F3E 0x0F3F; mkRange 0x0F71 0x0F84; mkRange 0x0F86 0x0F87; mkRange 0x0F8D 0x0F97;
  mkRange 0x0F99 0x0FBC; mkRange 0x0FC6 0x0FC6; mkRange 0x102B 0x103E; mkRange 0x1056 0x1059;
  mkRange 0x105E 0x1060; mkRange 0x1062 0x1064; mkRange 0x1067 0x106D; mkRange 0x1071 0x1074;
  mkRange 0x1082 0x108D; mkRange 0x108F 0x108F; mkRange 0x109A 0x109D; mkRange 0x135D 0x135F;
  mkRange 0x1712 0x1715; mkRange 0x1732 0x1734; mkRange 0x1752 0x1753; mkRange 0x1772 0x1773;
  mkRange 0x17B4 0x17D3; mkRange 0x17DD 0x17DD; mkRange 0x180B 0x180D; mkRange 0x180F 0x180F;
  mkRange 0x1885 0x1886; mkRange 0x18A9 0x18A9; mkRange 0x1920 0x192B; mkRange 0x1930 0x193B;
  mkRange 0x1A17 0x1A1B; mkRange 0x1A55 0x1A5E; mkRange 0x1A60 0x1A7C; mkRange 0x1A7F 0x1A7F;
  mkRange 0x1AB0 0x1ABD; mkRange 0x1ABF 0x1ADD; mkRange 0x1AE0 0x1AEB; mkRange 0x1B00 0x1B04;
  mkRange 0x1B34 0x1B44; mkRange 0x1B6B 0x1B73; mkRange 0x1B80 0x1B82; mkRange 0x1BA1 0x1BAD;
  mkRange 0x1BE6 0x1BF3; mkRange 0x1C24 0x1C37; mkRange 0x1CD0 0x1CD2; mkRange 0x1CD4 0x1CE8;
  mkRange 0x1CED 0x1CED; mkRange 0x1CF4 0x1CF4; mkRange 0x1CF7 0x1CF9; mkRange 0x1DC0 0x1DFF;
  mkRange 0x20D0 0x20DC; mkRange 0x20E1 0x20E1; mkRange 0x20E5 0x20F0; mkRange 0x2CEF 0x2CF1;
  mkRange 0x2D7F 0x2D7F; mkRange 0x2DE0 0x2DFF; mkRange 0x302A 0x302F; mkRange 0x3099 0x309A;
  mkRange 0xA66F 0xA66F; mkRange 0xA674 0xA67D; mkRange 0xA69E 0xA69F; mkRange 0xA6F0 0xA6F1;
  mkRange 0xA802 0xA802; mkRange 0xA806 0xA806; mkRange 0xA80B 0xA80B; mkRange 0xA823 0xA827;
  mkRange 0xA82C 0xA82C; mkRange 0xA880 0xA881; mkRange 0xA8B4 0xA8C5; mkRange 0xA8E0 0xA8F1;
  mkRange 0xA8FF 0xA8FF; mkRange 0xA926 0xA92D; mkRange 0xA947 0xA953; mkRange 0xA980 0xA983;
  mkRange 0xA9B3 0xA9C0; mkRange 0xA9E5 0xA9E5; mkRange 0xAA29 0xAA36; mkRange 0xAA43 0xAA43;
  mkRange 0xAA4C 0xAA4D; mkRange 0xAA7B 0xAA7D; mkRange 0xAAB0 0xAAB0; mkRange 0xAAB2 0xAAB4;
  mkRange 0xAAB7 0xAAB8; mkRange 0xAABE 0xAABF; mkRange 0xAAC1 0xAAC1; mkRange 0xAAEB 0xAAEF;
  mkRange 0xAAF5 0xAAF6; mkRange 0xABE3 0xABEA; mkRange 0xABEC 0xABED; mkRange 0xFB1E 0xFB1E;
  mkRange 0xFE00 0xFE0F; mkRange 0xFE20 0xFE2F; mkRange 0x101FD 0x101FD; mkRange 0x102E0 0x102E0;
  mkRange 0x10376 0x1037A; mkRange 0x10A01 0x10A03; mkRange 0x10A05 0x10A06;
  mkRange 0x10A0C 0x10A0F; mkRange 0x10A38 0x10A3A; mkRange 0x10A3F 0x10A3F;
  mkRange 0x10AE5 0x10AE6; mkRange 0x10D24 0x10D27; mkRange 0x10D69 0x10D6D;
  mkRange 0x10EAB 0x10EAC; mkRange 0x10EFA 0x10EFF; mkRange 0x10F46 0x10F50;
  mkRange 0x10F82 0x10F85; mkRange 0x11000 0x11002; mkRange 0x11038 0x11046;
  mkRange 0x11070 0x11070; mkRange 0x11073 0x11074; mkRange 0x1107F 0x11082;
  mkRange 0x110B0 0x110BA; mkRange 0x110C2 0x110C2; mkRange 0x11100 0x11102;
  mkRange 0x11127 0x11134; mkRange 0x11145 0x11146; mkRange 0x11173 0x11173;
  mkRange 0x11180 0x11182; mkRange 0x111B3 0x111C0; mkRange 0x111C9 0x111CC;
  mkRange 0x111CE 0x111CF; mkRange 0x1122C 0x11237; mkRange 0x1123E 0x1123E;
  mkRange 0x11241 0x11241; mkRange 0x112DF 0x112EA; mkRange 0x11300 0x11303;
  mkRange 0x1133B 0x1133C; mkRange 0x1133E 0x11344; mkRange 0x11347 0x11348;
  mkRange 0x1134B 0x1134D; mkRange 0x11357 0x11357; mkRange 0x11362 0x11363;
  mkRange 0x11366 0x1136C; mkRange 0x11370 0x11374; mkRange 0x113B8 0x113C0;
  mkRange 0x113C2 0x113C2; mkRange 0x113C5 0x113C5; mkRange 0x113C7 0x113CA;
  mkRange 0x113CC 0x113D0; mkRange 0x113D2 0x113D2; mkRange 0x113E1 0x113E2;
  mkRange 0x11435 0x11446; mkRange 0x1145E 0x1145E; mkRange 0x114B0 0x114C3;
  mkRange 0x115AF 0x115B5; mkRange 0x115B8 0x115C0; mkRange 0x115DC 0x115DD;
  mkRange 0x11630 0x11640; mkRange 0x116AB 0x116B7; mkRange 0x1171D 0x1172B;
  mkRange 0x1182C 0x1183A; mkRange 0x11930 0x11935; mkRange 0x11937 0x11938;
  mkRange 0x1193B 0x1193E; mkRange 0x11940 0x11940; mkRange 0x11942 0x11943;
  mkRange 0x119D1 0x119D7; mkRange 0x119DA 0x119E0; mkRange 0x119E4 0x119E4;
  mkRange 0x11A01 0x11A0A; mkRange 0x11A33 0x11A39; mkRange 0x11A3B 0x11A3E;
  mkRange 0x11A47 0x11A47; mkRange 0x11A51 0x11A5B; mkRange 0x11A8A 0x11A99;
  mkRange 0x11B60 0x11B67; mkRange 0x11C2F 0x11C36; mkRange 0x11C38 0x11C3F;
  mkRange 0x11C92 0x11CA7; mkRange 0x11CA9 0x11CB6; mkRange 0x11D31 0x11D36;
  mkRange 0x11D3A 0x11D3A; mkRange 0x11D3C 0x11D3D; mkRange 0x11D3F 0x11D45;
  mkRange 0x11D47 0x11D47; mkRange 0x11D8A 0x11D8E; mkRange 0x11D90 0x11D91;
  mkRange 0x11D93 0x11D97; mkRange 0x11EF3 0x11EF6; mkRange 0x11F00 0x11F01;
  mkRange 0x11F03 0x11F03; mkRange 0x11F34 0x11F3A; mkRange 0x11F3E 0x11F42;
  mkRange 0x11F5A 0x11F5A; mkRange 0x13440 0x13440; mkRange 0x13447 0x13455;
  mkRange 0x1611E 0x1612F; mkRange 0x16AF0 0x16AF4; mkRange 0x16B30 0x16B36;
  mkRange 0x16F4F 0x16F4F; mkRange 0x16F51 0x16F87; mkRange 0x16F8F 0x16F92;
  mkRange 0x16FE4 0x16FE4; mkRange 0x16FF0 0x16FF1; mkRange 0x1BC9D 0x1BC9E;
  mkRange 0x1CF00 0x1CF2D; mkRange 0x1CF30 0x1CF46; mkRange 0x1D165 0x1D169;
  mkRange 0x1D16D 0x1D172; mkRange 0x1D17B 0x1D182; mkRange 0x1D185 0x1D18B;
  mkRange 0x1D1AA 0x1D1AD; mkRange 0x1D242 0x1D244; mkRange 0x1DA00 0x1DA36;
  mkRange 0x1DA3B 0x1DA6C; mkRange 0x1DA75 0x1DA75; mkRange 0x1DA84 0x1DA84;
  mkRange 0x1DA9B 0x1DA9F; mkRange 0x1DAA1 0x1DAAF; mkRange 0x1E000 0x1E006;
  mkRange 0x1E008 0x1E018; mkRange 0x1E01B 0x1E021; mkRange 0x1E023 0x1E024;
  mkRange 0x1E026 0x1E02A; mkRange 0x1E08F 0x1E08F; mkRange 0x1E130 0x1E136;
  mkRange 0x1E2AE 0x1E2AE; mkRange 0x1E2EC 0x1E2EF; mkRange 0x1E4EC 0x1E4EF;
  mkRange 0x1E5EE 0x1E5EF; mkRange 0x1E6E3 0x1E6E3; mkRange 0x1E6E6 0x1E6E6;
  mkRange 0x1E6EE 0x1E6EF; mkRange 0x1E6F5 0x1E6F5; mkRange 0x1E8D0 0x1E8D6;
  mkRange 0x1E944 0x1E94A; mkRange 0xE0100 0xE01EF].

Definition maxEmoji17SequenceBytes : nat := 35.

Definition emoji17Sequences : list (list Z) :=
 [[0x23; 0xfe0f; 0x20e3]; [0x2a; 0xfe0f; 0x20e3]; [0x30; 0xfe0f; 0x20e3]; [0x31; 0xfe0f; 0x20e3];
  [0x32; 0xfe0f; 0x20e3]; [0x33; 0xfe0f; 0x20e3]; [0x34; 0xfe0f; 0x20e3]; [0x35; 0xfe0f; 0x20e3];
  [0x36; 0xfe0f; 0x20e3]; [0x37; 0xfe0f; 0x20e3]; [0x38; 0xfe0f; 0x20e3]; [0x39; 0xfe0f; 0x20e3];
  [0xa9; 0xfe0f]; [0xae; 0xfe0f]; [0x203c; 0xfe0f]; [0x2049; 0xfe0f]; [0x2122; 0xfe0f];
  [0x2139; 0xfe0f]; [0x2194; 0xfe0f]; [0x2195; 0xfe0f]; [0x2196; 0xfe0f]; [0x2197; 0xfe0f];
  [0x2198; 0xfe0f]; [0x2199; 0xfe0f]; [0x21a9; 0xfe0f]; [0x21aa; 0xfe0f]; [0x231a]; [0x231b];
  [0x2328; 0xfe0f]; [0x23cf; 0xfe0f]; [0x23e9]; [0x23ea]; [0x23eb]; [0x23ec]; [0x23ed; 0xfe0f];
  [0x23ee; 0xfe0f]; [0x23ef; 0xfe0f]; [0x23f0]; [0x23f1; 0xfe0f]; [0x23f2; 0xfe0f]; [0x23f3];
  [0x23f8; 0xfe0f]; [0x23f9; 0xfe0f]; [0x23fa; 0xfe0f]; [0x24c2; 0xfe0f]; [0x25aa; 0xfe0f];
  [0x25ab; 0xfe0f]; [0x25b6; 0xfe0f]; [0x25c0; 0xfe0f]; [0x25fb; 0xfe0f]; [0x25fc; 0xfe0f];
  [0x25fd]; [0x25fe]; [0x2600; 0xfe0f]; [0x2601; 0xfe0f]; [0x2602; 0xfe0f]; [0x2603; 0xfe0f];
  [0x2604; 0xfe0f]; [0x260e; 0xfe0f]; [0x2611; 0xfe0f]; [0x2614]; [0x2615]; [0x2618; 0xfe0f];
  [0x261d; 0xfe0f]; [0x261d; 0x1f3fb]; [0x261d; 0x1f3fc]; [0x261d; 0x1f3fd]; [0x261d; 0x1f3fe];
  [0x261d; 0x1f3ff]; [0x2620; 0xfe0f]; [0x2622; 0xfe0f]; [0x2623; 0xfe0f]; [0x2626; 0xfe0f];
  [0x262a; 0xfe0f]; [0x262e; 0xfe0f]; [0x262f; 0xfe0f]; [0x2638; 0xfe0f]; [0x2639; 0xfe0f];
  [0x263a; 0xfe0f]; [0x2640; 0xfe0f]; [0x2642; 0xfe0f]; [0x2648]; [0x2649]; [0x264a]; [0x264b];
  [0x264c]; [0x264d]; [0x264e]; [0x264f]; [0x2650]; [0x2651]; [0x2652]; [0x2653];
  [0x265f; 0xfe0f]; [0x2660; 0xfe0f]; [0x2663; 0xfe0f]; [0x2665; 0xfe0f]; [0x2666; 0xfe0f];
  [0x2668; 0xfe0f]; [0x267b; 0xfe0f]; [0x267e; 0xfe0f]; [0x267f]; [0x2692; 0xfe0f]; [0x2693];
  [0x2694; 0xfe0f]; [0x2695; 0xfe0f]; [0x2696; 0xfe0f]; [0x2697; 0xfe0f]; [0x2699; 0xfe0f];
  [0x269b; 0xfe0f]; [0x269c; 0xfe0f]; [0x26a0; 0xfe0f]; [0x26a1]; [0x26a7; 0xfe0f]; [0x26aa];
  [0x26ab]; [0x26b0; 0xfe0f]; [0x26b1; 0xfe0f]; [0x26bd]; [0x26be]; [0x26c4]; [0x26c5];
  [0x26c8; 0xfe0f]; [0x26ce]; [0x26cf; 0xfe0f]; [0x26d1; 0xfe0f]; [0x26d3; 0xfe0f];
  [0x26d3; 0xfe0f; 0x200d; 0x1f4a5]; [0x26d4]; [0x26e9; 0xfe0f]; [0x26ea]; [0x26f0; 0xfe0f];
  [0x26f1; 0xfe0f]; [0x26f2]; [0x26f3]; [0x26f4; 0xfe0f]; [0x26f5]; [0x26f7; 0xfe0f];
  [0x26f8; 0xfe0f]; [0x26f9; 0xfe0f]; [0x26f9; 0xfe0f; 0x200d; 0x2640; 0xfe0f];
  [0x26f9; 0xfe0f; 0x200d; 0x2642; 0xfe0f]; [0x26f9; 0x1f3fb];
  [0x26f9; 0x1f3fb; 0x200d; 0x2640; 0xfe0f]; [0x26f9; 0x1f3fb; 0x200d; 0x2642; 0xfe0f];
  [0x26f9; 0x1f3fc]; [0x26f9; 0x1f3fc; 0x200d; 0x2640; 0xfe0f];
  [0x26f9; 0x1f3fc; 0x200d; 0x2642; 0xfe0f]; [0x26f9; 0x1f3fd];
  [0x26f9; 0x1f3fd; 0x200d; 0x2640; 0xfe0f]; [0x26f9; 0x1f3fd; 0x200d; 0x2642; 0xfe0f];
  [0x26f9; 0x1f3fe]; [0x26f9; 0x1f3fe; 0x200d; 0x2640; 0xfe0f];
  [0x26f9; 0x1f3fe; 0x200d; 0x2642; 0xfe0f]; [0x26f9; 0x1f3ff];
  [0x26f9; 0x1f3ff; 0x200d; 0x2640; 0xfe0f]; [0x26f9; 0x1f3ff; 0x200d; 0x2642; 0xfe0f]; [0x26fa];
  [0x26fd]; [0x2702; 0xfe0f]; [0x2705]; [0x2708; 0xfe0f]; [0x2709; 0xfe0f]; [0x270a];
  [0x270a; 0x1f3fb]; [0x270a; 0x1f3fc]; [0x270a; 0x1f3fd]; [0x270a; 0x1f3fe]; [0x270a; 0x1f3ff];
  [0x270b]; [0x270b; 0x1f3fb]; [0x270b; 0x1f3fc]; [0x270b; 0x1f3fd]; [0x270b; 0x1f3fe];
  [0x270b; 0x1f3ff]; [0x270c; 0xfe0f]; [0x270c; 0x1f3fb]; [0x270c; 0x1f3fc]; [0x270c; 0x1f3fd];
  [0x270c; 0x1f3fe]; [0x270c; 0x1f3ff]; [0x270d; 0xfe0f]; [0x270d; 0x1f3fb]; [0x270d; 0x1f3fc];
  [0x270d; 0x1f3fd]; [0x270d; 0x1f3fe]; [0x270d; 0x1f3ff]; [0x270f; 0xfe0f]; [0x2712; 0xfe0f];
  [0x2714; 0xfe0f]; [0x2716; 0xfe0f]; [0x271d; 0xfe0f]; [0x2721; 0xfe0f]; [0x2728];
  [0x2733; 0xfe0f]; [0x2734; 0xfe0f]; [0x2744; 0xfe0f]; [0x2747; 0xfe0f]; [0x274c]; [0x274e];
  [0x2753]; [0x2754]; [0x2755]; [0x2757]; [0x2763; 0xfe0f]; [0x2764; 0xfe0f];
  [0x2764; 0xfe0f; 0x200d; 0x1f525]; [0x2764; 0xfe0f; 0x200d; 0x1fa79]; [0x2795]; [0x2796];
  [0x2797]; [0x27a1; 0xfe0f]; [0x27b0]; [0x27bf]; [0x2934; 0xfe0f]; [0x2935; 0xfe0f];
  [0x2b05; 0xfe0f]; [0x2b06; 0xfe0f]; [0x2b07; 0xfe0f]; [0x2b1b]; [0x2b1c]; [0x2b50]; [0x2b55];
  [0x3030; 0xfe0f]; [0x303d; 0xfe0f]; [0x3297; 0xfe0f]; [0x3299; 0xfe0f]; [0x1f004]; [0x1f0cf];
  [0x1f170; 0xfe0f]; [0x1f171; 0xfe0f]; [0x1f17e; 0xfe0f]; [0x1f17f; 0xfe0f]; [0x1f18e];
  [0x1f191]; [0x1f192]; [0x1f193]; [0x1f194]; [0x1f195]; [0x1f196]; [0x1f197]; [0x1f198];
  [0x1f199]; [0x1f19a]; [0x1f1e6; 0x1f1e8]; [0x1f1e6; 0x1f1e9]; [0x1f1e6; 0x1f1ea];
  [0x1f1e6; 0x1f1eb]; [0x1f1e6; 0x1f1ec]; [0x1f1e6; 0x1f1ee]; [0x1f1e6; 0x1f1f1];
  [0x1f1e6; 0x1f1f2]; [0x1f1e6; 0x1f1f4]; [0x1f1e6; 0x1f1f6]; [0x1f1e6; 0x1f1f7];
  [0x1f1e6; 0x1f1f8]; [0x1f1e6; 0x1f1f9]; [0x1f1e6; 0x1f1fa]; [0x1f1e6; 0x1f1fc];
  [0x1f1e6; 0x1f1fd]; [0x1f1e6; 0x1f1ff]; [0x1f1e7; 0x1f1e6]; [0x1f1e7; 0x1f1e7];
  [0x1f1e7; 0x1f1e9]; [0x1f1e7; 0x1f1ea]; [0x1f1e7; 0x1f1eb]; [0x1f1e7; 0x1f1ec];
  [0x1f1e7; 0x1f1ed]; [0x1f1e7; 0x1f1ee]; [0x1f1e7; 0x1f1ef]; [0x1f1e7; 0x1f1f1];
  [0x1f1e7; 0x1f1f2]; [0x1f1e7; 0x1f1f3]; [0x1f1e7; 0x1f1f4]; [0x1f1e7; 0x1f1f6];
  [0x1f1e7; 0x1f1f7]; [0x1f1e7; 0x1f1f8]; [0x1f1e7; 0x1f1f9]; [0x1f1e7; 0x1f1fb];
  [0x1f1e7; 0x1f1fc]; [0x1f1e7; 0x1f1fe]; [0x1f1e7; 0x1f1ff]; [0x1f1e8; 0x1f1e6];
  [0x1f1e8; 0x1f1e8]; [0x1f1e8; 0x1f1e9]; [0x1f1e8; 0x1f1eb]; [0x1f1e8; 0x1f1ec];
  [0x1f1e8; 0x1f1ed]; [0x1f1e8; 0x1f1ee]; [0x1f1e8; 0x1f1f0]; [0x1f1e8; 0x1f1f1];
  [0x1f1e8; 0x1f1f2]; [0x1f1e8; 0x1f1f3]; [0x1f1e8; 0x1f1f4]; [0x1f1e8; 0x1f1f5];
  [0x1f1e8; 0x1f1f6]; [0x1f1e8; 0x1f1f7]; [0x1f1e8; 0x1f1fa]; [0x1f1e8; 0x1f1fb];
  [0x1f1e8; 0x1f1fc]; [0x1f1e8; 0x1f1fd]; [0x1f1e8; 0x1f1fe]; [0x1f1e8; 0x1f1ff];
  [0x1f1e9; 0x1f1ea]; [0x1f1e9; 0x1f1ec]; [0x1f1e9; 0x1f1ef]; [0x1f1e9; 0x1f1f0];
  [0x1f1e9; 0x1f1f2]; [0x1f1e9; 0x1f1f4]; [0x1f1e9; 0x1f1ff]; [0x1f1ea; 0x1f1e6];
  [0x1f1ea; 0x1f1e8]; [0x1f1ea; 0x1f1ea]; [0x1f1ea; 0x1f1ec]; [0x1f1ea; 0x1f1ed];
  [0x1f1ea; 0x1f1f7]; [0x1f1ea; 0x1f1f8]; [0x1f1ea; 0x1f1f9]; [0x1f1ea; 0x1f1fa];
  [0x1f1eb; 0x1f1ee]; [0x1f1eb; 0x1f1ef]; [0x1f1eb; 0x1f1f0]; [0x1f1eb; 0x1f1f2];
  [0x1f1eb; 0x1f1f4]; [0x1f1eb; 0x1f1f7]; [0x1f1ec; 0x1f1e6]; [0x1f1ec; 0x1f1e7];
  [0x1f1ec; 0x1f1e9]; [0x1f1ec; 0x1f1ea]; [0x1f1ec; 0x1f1eb]; [0x1f1ec; 0x1f1ec];
  [0x1f1ec; 0x1f1ed]; [0x1f1ec; 0x1f1ee]; [0x1f1ec; 0x1f1f1]; [0x1f1ec; 0x1f1f2];
  [0x1f1ec; 0x1f1f3]; [0x1f1ec; 0x1f1f5]; [0x1f1ec; 0x1f1f6]; [0x1f1ec; 0x1f1f7];
  [0x1f1ec; 0x1f1f8]; [0x1f1ec; 0x1f1f9]; [0x1f1ec; 0x1f1fa]; [0x1f1ec; 0x1f1fc];
  [0x1f1ec; 0x1f1fe]; [0x1f1ed; 0x1f1f0]; [0x1f1ed; 0x1f1f2]; [0x1f1ed; 0x1f1f3];
  [0x1f1ed; 0x1f1f7]; [0x1f1ed; 0x1f1f9]; [0x1f1ed; 0x1f1fa]; [0x1f1ee; 0x1f1e8];
  [0x1f1ee; 0x1f1e9]; [0x1f1ee; 0x1f1ea]; [0x1f1ee; 0x1f1f1]; [0x1f1ee; 0x1f1f2];
  [0x1f1ee; 0x1f1f3]; [0x1f1ee; 0x1f1f4]; [0x1f1ee; 0x1f1f6]; [0x1f1ee; 0x1f1f7];
  [0x1f1ee; 0x1f1f8]; [0x1f1ee; 0x1f1f9]; [0x1f1ef; 0x1f1ea]; [0x1f1ef; 0x1f1f2];
  [0x1f1ef; 0x1f1f4]; [0x1f1ef; 0x1f1f5]; [0x1f1f0; 0x1f1ea]; [0x1f1f0; 0x1f1ec];
  [0x1f1f0; 0x1f1ed]; [0x1f1f0; 0x1f1ee]; [0x1f1f0; 0x1f1f2]; [0x1f1f0; 0x1f1f3];
  [0x1f1f0; 0x1f1f5]; [0x1f1f0; 0x1f1f7]; [0x1f1f0; 0x1f1fc]; [0x1f1f0; 0x1f1fe];
  [0x1f1f0; 0x1f1ff]; [0x1f1f1; 0x1f1e6]; [0x1f1f1; 0x1f1e7]; [0x1f1f1; 0x1f1e8];
  [0x1f1f1; 0x1f1ee]; [0x1f1f1; 0x1f1f0]; [0x1f1f1; 0x1f1f7]; [0x1f1f1; 0x1f1f8];
  [0x1f1f1; 0x1f1f9]; [0x1f1f1; 0x1f1fa]; [0x1f1f1; 0x1f1fb]; [0x1f1f1; 0x1f1fe];
  [0x1f1f2; 0x1f1e6]; [0x1f1f2; 0x1f1e8]; [0x1f1f2; 0x1f1e9]; [0x1f1f2; 0x1f1ea];
  [0x1f1f2; 0x1f1eb]; [0x1f1f2; 0x1f1ec]; [0x1f1f2; 0x1f1ed]; [0x1f1f2; 0x1f1f0];
  [0x1f1f2; 0x1f1f1]; [0x1f1f2; 0x1f1f2]; [0x1f1f2; 0x1f1f3]; [0x1f1f2; 0x1f1f4];
  [0x1f1f2; 0x1f1f5]; [0x1f1f2; 0x1f1f6]; [0x1f1f2; 0x1f1f7]; [0x1f1f2; 0x1f1f8];
  [0x1f1f2; 0x1f1f9]; [0x1f1f2; 0x1f1fa]; [0x1f1f2; 0x1f1fb]; [0x1f1f2; 0x1f1fc];
  [0x1f1f2; 0x1f1fd]; [0x1f1f2; 0x1f1fe]; [0x1f1f2; 0x1f1ff]; [0x1f1f3; 0x1f1e6];
  [0x1f1f3; 0x1f1e8]; [0x1f1f3; 0x1f1ea]; [0x1f1f3; 0x1f1eb]; [0x1f1f3; 0x1f1ec];
  [0x1f1f3; 0x1f1ee]; [0x1f1f3; 0x1f1f1]; [0x1f1f3; 0x1f1f4]; [0x1f1f3; 0x1f1f5];
  [0x1f1f3; 0x1f1f7]; [0x1f1f3; 0x1f1fa]; [0x1f1f3; 0x1f1ff]; [0x1f1f4; 0x1f1f2];
  [0x1f1f5; 0x1f1e6]; [0x1f1f5; 0x1f1ea]; [0x1f1f5; 0x1f1eb]; [0x1f1f5; 0x1f1ec];
  [0x1f1f5; 0x1f1ed]; [0x1f1f5; 0x1f1f0]; [0x1f1f5; 0x1f1f1]; [0x1f1f5; 0x1f1f2];
  [0x1f1f5; 0x1f1f3]; [0x1f1f5; 0x1f1f7]; [0x1f1f5; 0x1f1f8]; [0x1f1f5; 0x1f1f9];
  [0x1f1f5; 0x1f1fc]; [0x1f1f5; 0x1f1fe]; [0x1f1f6; 0x1f1e6]; [0x1f1f7; 0x1f1ea];
  [0x1f1f7; 0x1f1f4]; [0x1f1f7; 0x1f1f8]; [0x1f1f7; 0x1f1fa]; [0x1f1f7; 0x1f1fc];
  [0x1f1f8; 0x1f1e6]; [0x1f1f8; 0x1f1e7]; [0x1f1f8; 0x1f1e8]; [0x1f1f8; 0x1f1e9];
  [0x1f1f8; 0x1f1ea]; [0x1f1f8; 0x1f1ec]; [0x1f1f8; 0x1f1ed]; [0x1f1f8; 0x1f1ee];
  [0x1f1f8; 0x1f1ef]; [0x1f1f8; 0x1f1f0]; [0x1f1f8; 0x1f1f1]; [0x1f1f8; 0x1f1f2];
  [0x1f1f8; 0x1f1f3]; [0x1f1f8; 0x1f1f4]; [0x1f1f8; 0x1f1f7]; [0x1f1f8; 0x1f1f8];
  [0x1f1f8; 0x1f1f9]; [0x1f1f8; 0x1f1fb]; [0x1f1f8; 0x1f1fd]; [0x1f1f8; 0x1f1fe];
  [0x1f1f8; 0x1f1ff]; [0x1f1f9; 0x1f1e6]; [0x1f1f9; 0x1f1e8]; [0x1f1f9; 0x1f1e9];
  [0x1f1f9; 0x1f1eb]; [0x1f1f9; 0x1f1ec]; [0x1f1f9; 0x1f1ed]; [0x1f1f9; 0x1f1ef];
  [0x1f1f9; 0x1f1f0]; [0x1f1f9; 0x1f1f1]; [0x1f1f9; 0x1f1f2]; [0x1f1f9; 0x1f1f3];
  [0x1f1f9; 0x1f1f4]; [0x1f1f9; 0x1f1f7]; [0x1f1f9; 0x1f1f9]; [0x1f1f9; 0x1f1fb];
  [0x1f1f9; 0x1f1fc]; [0x1f1f9; 0x1f1ff]; [0x1f1fa; 0x1f1e6]; [0x1f1fa; 0x1f1ec];
  [0x1f1fa; 0x1f1f2]; [0x1f1fa; 0x1f1f3]; [0x1f1fa; 0x1f1f8]; [0x1f1fa; 0x1f1fe];
  [0x1f1fa; 0x1f1ff]; [0x1f1fb; 0x1f1e6]; [0x1f1fb; 0x1f1e8]; [0x1f1fb; 0x1f1ea];
  [0x1f1fb; 0x1f1ec]; [0x1f1fb; 0x1f1ee]; [0x1f1fb; 0x1f1f3]; [0x1f1fb; 0x1f1fa];
  [0x1f1fc; 0x1f1eb]; [0x1f1fc; 0x1f1f8]; [0x1f1fd; 0x1f1f0]; [0x1f1fe; 0x1f1ea];
  [0x1f1fe; 0x1f1f9]; [0x1f1ff; 0x1f1e6]; [0x1f1ff; 0x1f1f2]; [0x1f1ff; 0x1f1fc]; [0x1f201];
  [0x1f202; 0xfe0f]; [0x1f21a]; [0x1f22f]; [0x1f232]; [0x1f233]; [0x1f234]; [0x1f235]; [0x1f236];
  [0x1f237; 0xfe0f]; [0x1f238]; [0x1f239]; [0x1f23a]; [0x1f250]; [0x1f251]; [0x1f300]; [0x1f301];
  [0x1f302]; [0x1f303]; [0x1f304]; [0x1f305]; [0x1f306]; [0x1f307]; [0x1f308]; [0x1f309];
  [0x1f30a]; [0x1f30b]; [0x1f30c]; [0x1f30d]; [0x1f30e]; [0x1f30f]; [0x1f310]; [0x1f311];
  [0x1f312]; [0x1f313]; [0x1f314]; [0x1f315]; [0x1f316]; [0x1f317]; [0x1f318]; [0x1f319];
  [0x1f31a]; [0x1f31b]; [0x1f31c]; [0x1f31d]; [0x1f31e]; [0x1f31f]; [0x1f320]; [0x1f321; 0xfe0f];
  [0x1f324; 0xfe0f]; [0x1f325; 0xfe0f]; [0x1f326; 0xfe0f]; [0x1f327; 0xfe0f]; [0x1f328; 0xfe0f];
  [0x1f329; 0xfe0f]; [0x1f32a; 0xfe0f]; [0x1f32b; 0xfe0f]; [0x1f32c; 0xfe0f]; [0x1f32d];
  [0x1f32e]; [0x1f32f]; [0x1f330]; [0x1f331]; [0x1f332]; [0x1f333]; [0x1f334]; [0x1f335];
  [0x1f336; 0xfe0f]; [0x1f337]; [0x1f338]; [0x1f339]; [0x1f33a]; [0x1f33b]; [0x1f33c]; [0x1f33d];
  [0x1f33e]; [0x1f33f]; [0x1f340]; [0x1f341]; [0x1f342]; [0x1f343]; [0x1f344];
  [0x1f344; 0x200d; 0x1f7eb]; [0x1f345]; [0x1f346]; [0x1f347]; [0x1f348]; [0x1f349]; [0x1f34a];
  [0x1f34b]; [0x1f34b; 0x200d; 0x1f7e9]; [0x1f34c]; [0x1f34d]; [0x1f34e]; [0x1f34f]; [0x1f350];
  [0x1f351]; [0x1f352]; [0x1f353]; [0x1f354]; [0x1f355]; [0x1f356]; [0x1f357]; [0x1f358];
  [0x1f359]; [0x1f35a]; [0x1f35b]; [0x1f35c]; [0x1f35d]; [0x1f35e]; [0x1f35f]; [0x1f360];
  [0x1f361]; [0x1f362]; [0x1f363]; [0x1f364]; [0x1f365]; [0x1f366]; [0x1f367]; [0x1f368];
  [0x1f369]; [0x1f36a]; [0x1f36b]; [0x1f36c]; [0x1f36d]; [0x1f36e]; [0x1f36f]; [0x1f370];
  [0x1f371]; [0x1f372]; [0x1f373]; [0x1f374]; [0x1f375]; [0x1f376]; [0x1f377]; [0x1f378];
  [0x1f379]; [0x1f37a]; [0x1f37b]; [0x1f37c]; [0x1f37d; 0xfe0f]; [0x1f37e]; [0x1f37f]; [0x1f380];
  [0x1f381]; [0x1f382]; [0x1f383]; [0x1f384]; [0x1f385]; [0x1f385; 0x1f3fb]; [0x1f385; 0x1f3fc];
  [0x1f385; 0x1f3fd]; [0x1f385; 0x1f3fe]; [0x1f385; 0x1f3ff]; [0x1f386]; [0x1f387]; [0x1f388];
  [0x1f389]; [0x1f38a]; [0x1f38b]; [0x1f38c]; [0x1f38d]; [0x1f38e]; [0x1f38f]; [0x1f390];
  [0x1f391]; [0x1f392]; [0x1f393]; [0x1f396; 0xfe0f]; [0x1f397; 0xfe0f]; [0x1f399; 0xfe0f];
  [0x1f39a; 0xfe0f]; [0x1f39b; 0xfe0f]; [0x1f39e; 0xfe0f]; [0x1f39f; 0xfe0f]; [0x1f3a0];
  [0x1f3a1]; [0x1f3a2]; [0x1f3a3]; [0x1f3a4]; [0x1f3a5]; [0x1f3a6]; [0x1f3a7]; [0x1f3a8];
  [0x1f3a9]; [0x1f3aa]; [0x1f3ab]; [0x1f3ac]; [0x1f3ad]; [0x1f3ae]; [0x1f3af]; [0x1f3b0];
  [0x1f3b1]; [0x1f3b2]; [0x1f3b3]; [0x1f3b4]; [0x1f3b5]; [0x1f3b6]; [0x1f3b7]; [0x1f3b8];
  [0x1f3b9]; [0x1f3ba]; [0x1f3bb]; [0x1f3bc]; [0x1f3bd]; [0x1f3be]; [0x1f3bf]; [0x1f3c0];
  [0x1f3c1]; [0x1f3c2]; [0x1f3c2; 0x1f3fb]; [0x1f3c2; 0x1f3fc]; [0x1f3c2; 0x1f3fd];
  [0x1f3c2; 0x1f3fe]; [0x1f3c2; 0x1f3ff]; [0x1f3c3]; [0x1f3c3; 0x200d; 0x2640; 0xfe0f];
  [0x1f3c3; 0x200d; 0x2640; 0xfe0f; 0x200d; 0x27a1; 0xfe0f]; [0x1f3c3; 0x200d; 0x2642; 0xfe0f];
  [0x1f3c3; 0x200d; 0x2642; 0xfe0f; 0x200d; 0x27a1; 0xfe0f]; [0x1f3c3; 0x200d; 0x27a1; 0xfe0f];
  [0x1f3c3; 0x1f3fb]; [0x1f3c3; 0x1f3fb; 0x200d; 0x2640; 0xfe0f];
  [0x1f3c3; 0x1f3fb; 0x200d; 0x2640; 0xfe0f; 0x200d; 0x27a1; 0xfe0f];
  [0x1f3c3; 0x1f3fb; 0x200d; 0x2642; 0xfe0f];
  [0x1f3c3; 0x1f3fb; 0x200d; 0x2642; 0xfe0f; 0x200d; 0x27a1; 0xfe0f];
  [0x1f3c3; 0x1f3fb; 0x200d; 0x27a1; 0xfe0f]; [0x1f3c3; 0x1f3fc];
  [0x1f3c3; 0x1f3fc; 0x200d; 0x2640; 0xfe0f];
  [0x1f3c3; 0x1f3fc; 0x200d; 0x2640; 0xfe0f; 0x200d; 0x27a1; 0xfe0f];
  [0x1f3c3; 0x1f3fc; 0x200d; 0x2642; 0xfe0f];
  [0x1f3c3; 0x1f3fc; 0x200d; 0x2642; 0xfe0f; 0x200d; 0x27a1; 0xfe0f];
  [0x1f3c3; 0x1f3fc; 0x200d; 0x27a1; 0xfe0f]; [0x1f3c3; 0x1f3fd];
  [0x1f3c3; 0x1f3fd; 0x200d; 0x2640; 0xfe0f];
  [0x1f3c3; 0x1f3fd; 0x200d; 0x2640; 0xfe0f; 0x200d; 0x27a1; 0xfe0f];
  [0x1f3c3; 0x1f3fd; 0x200d; 0x2642; 0xfe0f];
  [0x1f3c3; 0x1f3fd; 0x200d; 0x2642; 0xfe0f; 0x200d; 0x27a1; 0xfe0f];
  [0x1f3c3; 0x1f3fd; 0x200d; 0x27a1; 0xfe0f]; [0x1f3c3; 0x1f3fe];
  [0x1f3c3; 0x1f3fe; 0x200d; 0x2640; 0xfe0f];
  [0x1f3c3; 0x1f3fe; 0x200d; 0x2640; 0xfe0f; 0x200d; 0x27a1; 0xfe0f];
  [0x1f3c3; 0x1f3fe; 0x200d; 0x2642; 0xfe0f];
  [0x1f3c3; 0x1f3fe; 0x200d; 0x2642; 0xfe0f; 0x200d; 0x27a1; 0xfe0f];
  [0x1f3c3; 0x1f3fe; 0x200d; 0x27a1; 0xfe0f]; [0x1f3c3; 0x1f3ff];
  [0x1f3c3; 0x1f3ff; 0x200d; 0x2640; 0xfe0f];
  [0x1f3c3; 0x1f3ff; 0x200d; 0x2640; 0xfe0f; 0x200d; 0x27a1; 0xfe0f];
  [0x1f3c3; 0x1f3ff; 0x200d; 0x2642; 0xfe0f];
  [0x1f3c3; 0x1f3ff; 0x200d; 0x2642; 0xfe0f; 0x200d; 0x27a1; 0xfe0f];
  [0x1f3c3; 0x1f3ff; 0x200d; 0x27a1; 0xfe0f]; [0x1f3c4]; [0x1f3c4; 0x200d; 0x2640; 0xfe0f];
  [0x1f3c4; 0x200d; 0x2642; 0xfe0f]; [0x1f3c4; 0x1f3fb];
  [0x1f3c4; 0x1f3fb; 0x200d; 0x2640; 0xfe0f]; [0x1f3c4; 0x1f3fb; 0x200d; 0x2642; 0xfe0f];
  [0x1f3c4; 0x1f3fc]; [0x1f3c4; 0x1f3fc; 0x200d; 0x2640; 0xfe0f];
  [0x1f3c4; 0x1f3fc; 0x200d; 0x2642; 0xfe0f]; [0x1f3c4; 0x1f3fd];
  [0x1f3c4; 0x1f3fd; 0x200d; 0x2640; 0xfe0f]; [0x1f3c4; 0x1f3fd; 0x200d; 0x2642; 0xfe0f];
  [0x1f3c4; 0x1f3fe]; [0x1f3c4; 0x1f3fe; 0x200d; 0x2640; 0xfe0f];
  [0x1f3c4; 0x1f3fe; 0x200d; 0x2642; 0xfe0f]; [0x1f3c4; 0x1f3ff];
  [0x1f3c4; 0x1f3ff; 0x200d; 0x2640; 0xfe0f]; [0x1f3c4; 0x1f3ff; 0x200d; 0x2642; 0xfe0f];
  [0x1f3c5]; [0x1f3c6]; [0x1f3c7]; [0x1f3c7; 0x1f3fb]; [0x1f3c7; 0x1f3fc]; [0x1f3c7; 0x1f3fd];
  [0x1f3c7; 0x1f3fe]; [0x1f3c7; 0x1f3ff]; [0x1f3c8]; [0x1f3c9]; [0x1f3ca];
  [0x1f3ca; 0x200d; 0x2640; 0xfe0f]; [0x1f3ca; 0x200d; 0x2642; 0xfe0f]; [0x1f3ca; 0x1f3fb];
  [0x1f3ca; 0x1f3fb; 0x200d; 0x2640; 0xfe0f]; [0x1f3ca; 0x1f3fb; 0x200d; 0x2642; 0xfe0f];
  [0x1f3ca; 0x1f3fc]; [0x1f3ca; 0x1f3fc; 0x200d; 0x2640; 0xfe0f];
  [0x1f3ca; 0x1f3fc; 0x200d; 0x2642; 0xfe0f]; [0x1f3ca; 0x1f3fd];
  [0x1f3ca; 0x1f3fd; 0x200d; 0x2640; 0xfe0f]; [0x1f3ca; 0x1f3fd; 0x200d; 0x2642; 0xfe0f];
  [0x1f3ca; 0x1f3fe]; [0x1f3ca; 0x1f3fe; 0x200d; 0x2640; 0xfe0f];
  [0x1f3ca; 0x1f3fe; 0x200d; 0x2642; 0xfe0f]; [0x1f3ca; 0x1f3ff];
  [0x1f3ca; 0x1f3ff; 0x200d; 0x2640; 0xfe0f]; [0x1f3ca; 0x1f3ff; 0x200d; 0x2642; 0xfe0f];
  [0x1f3cb; 0xfe0f]; [0x1f3cb; 0xfe0f; 0x200d; 0x2640; 0xfe0f];
  [0x1f3cb; 0xfe0f; 0x200d; 0x2642; 0xfe0f]; [0x1f3cb; 0x1f3fb];
  [0x1f3cb; 0x1f3fb; 0x200d; 0x2640; 0xfe0f]; [0x1f3cb; 0x1f3fb; 0x200d; 0x2642; 0xfe0f];
  [0x1f3cb; 0x1f3fc]; [0x1f3cb; 0x1f3fc; 0x200d; 0x2640; 0xfe0f];
  [0x1f3cb; 0x1f3fc; 0x200d; 0x2642; 0xfe0f]; [0x1f3cb; 0x1f3fd];
  [0x1f3cb; 0x1f3fd; 0x200d; 0x2640; 0xfe0f]; [0x1f3cb; 0x1f3fd; 0x200d; 0x2642; 0xfe0f];
  [0x1f3cb; 0x1f3fe]; [0x1f3cb; 0x1f3fe; 0x200d; 0x2640; 0xfe0f];
  [0x1f3cb; 0x1f3fe; 0x200d; 0x2642; 0xfe0f]; [0x1f3cb; 0x1f3ff];
  [0x1f3cb; 0x1f3ff; 0x200d; 0x2640; 0xfe0f]; [0x1f3cb; 0x1f3ff; 0x200d; 0x2642; 0xfe0f];
  [0x1f3cc; 0xfe0f]; [0x1f3cc; 0xfe0f; 0x200d; 0x2640; 0xfe0f];
  [0x1f3cc; 0xfe0f; 0x200d; 0x2642; 0xfe0f]; [0x1f3cc; 0x1f3fb];
  [0x1f3cc; 0x1f3fb; 0x200d; 0x2640; 0xfe0f]; [0x1f3cc; 0x1f3fb; 0x200d; 0x2642; 0xfe0f];
  [0x1f3cc; 0x1f3fc]; [0x1f3cc; 0x1f3fc; 0x200d; 0x2640; 0xfe0f];
  [0x1f3cc; 0x1f3fc; 0x200d; 0x2642; 0xfe0f]; [0x1f3cc; 0x1f3fd];
  [0x1f3cc; 0x1f3fd; 0x200d; 0x2640; 0xfe0f]; [0x1f3cc; 0x1f3fd; 0x200d; 0x2642; 0xfe0f];
  [0x1f3cc; 0x1f3fe]; [0x1f3cc; 0x1f3fe; 0x200d; 0x2640; 0xfe0f];
  [0x1f3cc; 0x1f3fe; 0x200d; 0x2642; 0xfe0f]; [0x1f3cc; 0x1f3ff];
  [0x1f3cc; 0x1f3ff; 0x200d; 0x2640; 0xfe0f]; [0x1f3cc; 0x1f3ff; 0x200d; 0x2642; 0xfe0f];
  [0x1f3cd; 0xfe0f]; [0x1f3ce; 0xfe0f]; [0x1f3cf]; [0x1f3d0]; [0x1f3d1]; [0x1f3d2]; [0x1f3d3];
  [0x1f3d4; 0xfe0f]; [0x1f3d5; 0xfe0f]; [0x1f3d6; 0xfe0f]; [0x1f3d7; 0xfe0f]; [0x1f3d8; 0xfe0f];
  [0x1f3d9; 0xfe0f]; [0x1f3da; 0xfe0f]; [0x1f3db; 0xfe0f]; [0x1f3dc; 0xfe0f]; [0x1f3dd; 0xfe0f];
  [0x1f3de; 0xfe0f]; [0x1f3df; 0xfe0f]; [0x1f3e0]; [0x1f3e1]; [0x1f3e2]; [0x1f3e3]; [0x1f3e4];
  [0x1f3e5]; [0x1f3e6]; [0x1f3e7]; [0x1f3e8]; [0x1f3e9]; [0x1f3ea]; [0x1f3eb]; [0x1f3ec];
  [0x1f3ed]; [0x1f3ee]; [0x1f3ef]; [0x1f3f0]; [0x1f3f3; 0xfe0f];
  [0x1f3f3; 0xfe0f; 0x200d; 0x26a7; 0xfe0f]; [0x1f3f3; 0xfe0f; 0x200d; 0x1f308]; [0x1f3f4];
  [0x1f3f4; 0x200d; 0x2620; 0xfe0f];
  [0x1f3f4; 0xe0067; 0xe0062; 0xe0065; 0xe006e; 0xe0067; 0xe007f];
  [0x1f3f4; 0xe0067; 0xe0062; 0xe0073; 0xe0063; 0xe0074; 0xe007f];
  [0x1f3f4; 0xe0067; 0xe0062; 0xe0077; 0xe006c; 0xe0073; 0xe007f]; [0x1f3f5; 0xfe0f];
  [0x1f3f7; 0xfe0f]; [0x1f3f8]; [0x1f3f9]; [0x1f3fa]; [0x1f400]; [0x1f401]; [0x1f402]; [0x1f403];
  [0x1f404]; [0x1f405]; [0x1f406]; [0x1f407]; [0x1f408]; [0x1f408; 0x200d; 0x2b1b]; [0x1f409];
  [0x1f40a]; [0x1f40b]; [0x1f40c]; [0x1f40d]; [0x1f40e]; [0x1f40f]; [0x1f410]; [0x1f411];
  [0x1f412]; [0x1f413]; [0x1f414]; [0x1f415]; [0x1f415; 0x200d; 0x1f9ba]; [0x1f416]; [0x1f417];
  [0x1f418]; [0x1f419]; [0x1f41a]; [0x1f41b]; [0x1f41c]; [0x1f41d]; [0x1f41e]; [0x1f41f];
  [0x1f420]; [0x1f421]; [0x1f422]; [0x1f423]; [0x1f424]; [0x1f425]; [0x1f426];
  [0x1f426; 0x200d; 0x2b1b]; [0x1f426; 0x200d; 0x1f525]; [0x1f427]; [0x1f428]; [0x1f429];
  [0x1f42a]; [0x1f42b]; [0x1f42c]; [0x1f42d]; [0x1f42e]; [0x1f42f]; [0x1f430]; [0x1f431];
  [0x1f432]; [0x1f433]; [0x1f434]; [0x1f435]; [0x1f436]; [0x1f437]; [0x1f438]; [0x1f439];
  [0x1f43a]; [0x1f43b]; [0x1f43b; 0x200d; 0x2744; 0xfe0f]; [0x1f43c]; [0x1f43d]; [0x1f43e];
  [0x1f43f; 0xfe0f]; [0x1f440]; [0x1f441; 0xfe0f]; [0x1f441; 0xfe0f; 0x200d; 0x1f5e8; 0xfe0f];
  [0x1f442]; [0x1f442; 0x1f3fb]; [0x1f442; 0x1f3fc]; [0x1f442; 0x1f3fd]; [0x1f442; 0x1f3fe];
  [0x1f442; 0x1f3ff]; [0x1f443]; [0x1f443; 0x1f3fb]; [0x1f443; 0x1f3fc]; [0x1f443; 0x1f3fd];
  [0x1f443; 0x1f3fe]; [0x1f443; 0x1f3ff]; [0x1f444]; [0x1f445]; [0x1f446]; [0x1f446; 0x1f3fb];
  [0x1f446; 0x1f3fc]; [0x1f446; 0x1f3fd]; [0x1f446; 0x1f3fe]; [0x1f446; 0x1f3ff]; [0x1f447];
  [0x1f447; 0x1f3fb]; [0x1f447; 0x1f3fc]; [0x1f447; 0x1f3fd]; [0x1f447; 0x1f3fe];
  [0x1f447; 0x1f3ff]; [0x1f448]; [0x1f448; 0x1f3fb]; [0x1f448; 0x1f3fc]; [0x1f448; 0x1f3fd];
  [0x1f448; 0x1f3fe]; [0x1f448; 0x1f3ff]; [0x1f449]; [0x1f449; 0x1f3fb]; [0x1f449; 0x1f3fc];
  [0x1f449; 0x1f3fd]; [0x1f449; 0x1f3fe]; [0x1f449; 0x1f3ff]; [0x1f44a]; [0x1f44a; 0x1f3fb];
  [0x1f44a; 0x1f3fc]; [0x1f44a; 0x1f3fd]; [0x1f44a; 0x1f3fe]; [0x1f44a; 0x1f3ff]; [0x1f44b];
  [0x1f44b; 0x1f3fb]; [0x1f44b; 0x1f3fc]; [0x1f44b; 0x1f3fd]; [0x1f44b; 0x1f3fe];
  [0x1f44b; 0x1f3ff]; [0x1f44c]; [0x1f44c; 0x1f3fb]; [0x1f44c; 0x1f3fc]; [0x1f44c; 0x1f3fd];
  [0x1f44c; 0x1f3fe]; [0x1f44c; 0x1f3ff]; [0x1f44d]; [0x1f44d; 0x1f3fb]; [0x1f44d; 0x1f3fc];
  [0x1f44d; 0x1f3fd]; [0x1f44d; 0x1f3fe]; [0x1f44d; 0x1f3ff]; [0x1f44e]; [0x1f44e; 0x1f3fb];
  [0x1f44e; 0x1f3fc]; [0x1f44e; 0x1f3fd]; [0x1f44e; 0x1f3fe]; [0x1f44e; 0x1f3ff]; [0x1f44f];
  [0x1f44f; 0x1f3fb]; [0x1f44f; 0x1f3fc]; [0x1f44f; 0x1f3fd]; [0x1f44f; 0x1f3fe];
  [0x1f44f; 0x1f3ff]; [0x1f450]; [0x1f450; 0x1f3fb]; [0x1f450; 0x1f3fc]; [0x1f450; 0x1f3fd];
  [0x1f450; 0x1f3fe]; [0x1f450; 0x1f3ff]; [0x1f451]; [0x1f452]; [0x1f453]; [0x1f454]; [0x1f455];
  [0x1f456]; [0x1f457]; [0x1f458]; [0x1f459]; [0x1f45a]; [0x1f45b]; [0x1f45c]; [0x1f45d];
  [0x1f45e]; [0x1f45f]; [0x1f460]; [0x1f461]; [0x1f462]; [0x1f463]; [0x1f464]; [0x1f465];
  [0x1f466]; [0x1f466; 0x1f3fb]; [0x1f466; 0x1f3fc]; [0x1f466; 0x1f3fd]; [0x1f466; 0x1f3fe];
  [0x1f466; 0x1f3ff]; [0x1f467]; [0x1f467; 0x1f3fb]; [0x1f467; 0x1f3fc]; [0x1f467; 0x1f3fd];
  [0x1f467; 0x1f3fe]; [0x1f467; 0x1f3ff]; [0x1f468]; [0x1f468; 0x200d; 0x2695; 0xfe0f];
  [0x1f468; 0x200d; 0x2696; 0xfe0f]; [0x1f468; 0x200d; 0x2708; 0xfe0f];
  [0x1f468; 0x200d; 0x2764; 0xfe0f; 0x200d; 0x1f468];
  [0x1f468; 0x200d; 0x2764; 0xfe0f; 0x200d; 0x1f48b; 0x200d; 0x1f468];
  [0x1f468; 0x200d; 0x1f33e]; [0x1f468; 0x200d; 0x1f373]; [0x1f468; 0x200d; 0x1f37c];
  [0x1f468; 0x200d; 0x1f393]; [0x1f468; 0x200d; 0x1f3a4]; [0x1f468; 0x200d; 0x1f3a8];
  [0x1f468; 0x200d; 0x1f3eb]; [0x1f468; 0x200d; 0x1f3ed]; [0x1f468; 0x200d; 0x1f466];
  [0x1f468; 0x200d; 0x1f466; 0x200d; 0x1f466]; [0x1f468; 0x200d; 0x1f467];
  [0x1f468; 0x200d; 0x1f467; 0x200d; 0x1f466]; [0x1f468; 0x200d; 0x1f467; 0x200d; 0x1f467];
  [0x1f468; 0x200d; 0x1f468; 0x200d; 0x1f466];
  [0x1f468; 0x200d; 0x1f468; 0x200d; 0x1f466; 0x200d; 0x1f466];
  [0x1f468; 0x200d; 0x1f468; 0x200d; 0x1f467];
  [0x1f468; 0x200d; 0x1f468; 0x200d; 0x1f467; 0x200d; 0x1f466];
  [0x1f468; 0x200d; 0x1f468; 0x200d; 0x1f467; 0x200d; 0x1f467];
  [0x1f468; 0x200d; 0x1f469; 0x200d; 0x1f466];
  [0x1f468; 0x200d; 0x1f469; 0x200d; 0x1f466; 0x200d; 0x1f466];
  [0x1f468; 0x200d; 0x1f469; 0x200d; 0x1f467];
  [0x1f468; 0x200d; 0x1f469; 0x200d; 0x1f467; 0x200d; 0x1f466];
  [0x1f468; 0x200d; 0x1f469; 0x200d; 0x1f467; 0x200d; 0x1f467]; [0x1f468; 0x200d; 0x1f4bb];
  [0x1f468; 0x200d; 0x1f4bc]; [0x1f468; 0x200d; 0x1f527]; [0x1f468; 0x200d; 0x1f52c];
  [0x1f468; 0x200d; 0x1f680]; [0x1f468; 0x200d; 0x1f692]; [0x1f468; 0x200d; 0x1f9af];
  [0x1f468; 0x200d; 0x1f9af; 0x200d; 0x27a1; 0xfe0f]; [0x1f468; 0x200d; 0x1f9b0];
  [0x1f468; 0x200d; 0x1f9b1]; [0x1f468; 0x200d; 0x1f9b2]; [0x1f468; 0x200d; 0x1f9b3];
  [0x1f468; 0x200d; 0x1f9bc]; [0x1f468; 0x200d; 0x1f9bc; 0x200d; 0x27a1; 0xfe0f];
  [0x1f468; 0x200d; 0x1f9bd]; [0x1f468; 0x200d; 0x1f9bd; 0x200d; 0x27a1; 0xfe0f];
  [0x1f468; 0x1f3fb]; [0x1f468; 0x1f3fb; 0x200d; 0x2695; 0xfe0f];
  [0x1f468; 0x1f3fb; 0x200d; 0x2696; 0xfe0f]; [0x1f468; 0x1f3fb; 0x200d; 0x2708; 0xfe0f];
  [0x1f468; 0x1f3fb; 0x200d; 0x2764; 0xfe0f; 0x200d; 0x1f468; 0x1f3fb];
  [0x1f468; 0x1f3fb; 0x200d; 0x2764; 0xfe0f; 0x200d; 0x1f468; 0x1f3fc];
  [0x1f468; 0x1f3fb; 0x200d; 0x2764; 0xfe0f; 0x200d; 0x1f468; 0x1f3fd];
  [0x1f468; 0x1f3fb; 0x200d; 0x2764; 0xfe0f; 0x200d; 0x1f468; 0x1f3fe];
  [0x1f468; 0x1f3fb; 0x200d; 0x2764; 0xfe0f; 0x200d; 0x1f468; 0x1f3ff];
  [0x1f468; 0x1f3fb; 0x200d; 0x2764; 0xfe0f; 0x200d; 0x1f48b; 0x200d; 0x1f468; 0x1f3fb];
  [0x1f468; 0x1f3fb; 0x200d; 0x2764; 0xfe0f; 0x200d; 0x1f48b; 0x200d; 0x1f468; 0x1f3fc];
  [0x1f468; 0x1f3fb; 0x200d; 0x2764; 0xfe0f; 0x200d; 0x1f48b; 0x200d; 0x1f468; 0x1f3fd];
  [0x1f468; 0x1f3fb; 0x200d; 0x2764; 0xfe0f; 0x200d; 0x1f48b; 0x200d; 0x1f468; 0x1f3fe];
  [0x1f468; 0x1f3fb; 0x200d; 0x2764; 0xfe0f; 0x200d; 0x1f48b; 0x200d; 0x1f468; 0x1f3ff];
  [0x1f468; 0x1f3fb; 0x200d; 0x1f33e]; [0x1f468; 0x1f3fb; 0x200d; 0x1f373];
  [0x1f468; 0x1f3fb; 0x200d; 0x1f37c]; [0x1f468; 0x1f3fb; 0x200d; 0x1f393];
  [0x1f468; 0x1f3fb; 0x200d; 0x1f3a4]; [0x1f468; 0x1f3fb; 0x200d; 0x1f3a8];
  [0x1f468; 0x1f3fb; 0x200d; 0x1f3eb]; [0x1f468; 0x1f3fb; 0x200d; 0x1f3ed];
  [0x1f468; 0x1f3fb; 0x200d; 0x1f430; 0x200d; 0x1f468; 0x1f3fc];
  [0x1f468; 0x1f3fb; 0x200d; 0x1f430; 0x200d; 0x1f468; 0x1f3fd];
  [0x1f468; 0x1f3fb; 0x200d; 0x1f430; 0x200d; 0x1f468; 0x1f3fe];
  [0x1f468; 0x1f3fb; 0x200d; 0x1f430; 0x200d; 0x1f468; 0x1f3ff];
  [0x1f468; 0x1f3fb; 0x200d; 0x1f4bb]; [0x1f468; 0x1f3fb; 0x200d; 0x1f4bc];
  [0x1f468; 0x1f3fb; 0x200d; 0x1f527]; [0x1f468; 0x1f3fb; 0x200d; 0x1f52c];
  [0x1f468; 0x1f3fb; 0x200d; 0x1f680]; [0x1f468; 0x1f3fb; 0x200d; 0x1f692];
  [0x1f468; 0x1f3fb; 0x200d; 0x1f91d; 0x200d; 0x1f468; 0x1f3fc];
  [0x1f468; 0x1f3fb; 0x200d; 0x1f91d; 0x200d; 0x1f468; 0x1f3fd];
  [0x1f468; 0x1f3fb; 0x200d; 0x1f91d; 0x200d; 0x1f468; 0x1f3fe];
  [0x1f468; 0x1f3fb; 0x200d; 0x1f91d; 0x200d; 0x1f468; 0x1f3ff];
  [0x1f468; 0x1f3fb; 0x200d; 0x1f9af];
  [0x1f468; 0x1f3fb; 0x200d; 0x1f9af; 0x200d; 0x27a1; 0xfe0f];
  [0x1f468; 0x1f3fb; 0x200d; 0x1f9b0]; [0x1f468; 0x1f3fb; 0x200d; 0x1f9b1];
  [0x1f468; 0x1f3fb; 0x200d; 0x1f9b2]; [0x1f468; 0x1f3fb; 0x200d; 0x1f9b3];
  [0x1f468; 0x1f3fb; 0x200d; 0x1f9bc];
  [0x1f468; 0x1f3fb; 0x200d; 0x1f9bc; 0x200d; 0x27a1; 0xfe0f];
  [0x1f468; 0x1f3fb; 0x200d; 0x1f9bd];
  [0x1f468; 0x1f3fb; 0x200d; 0x1f9bd; 0x200d; 0x27a1; 0xfe0f];
  [0x1f468; 0x1f3fb; 0x200d; 0x1faef; 0x200d; 0x1f468; 0x1f3fc];
  [0x1f468; 0x1f3fb; 0x200d; 0x1faef; 0x200d; 0x1f468; 0x1f3fd];
  [0x1f468; 0x1f3fb; 0x200d; 0x1faef; 0x200d; 0x1f468; 0x1f3fe];
  [0x1f468; 0x1f3fb; 0x200d; 0x1faef; 0x200d; 0x1f468; 0x1f3ff]; [0x1f468; 0x1f3fc];
  [0x1f468; 0x1f3fc; 0x200d; 0x2695; 0xfe0f]; [0x1f468; 0x1f3fc; 0x200d; 0x2696; 0xfe0f];
  [0x1f468; 0x1f3fc; 0x200d; 0x2708; 0xfe0f];
  [0x1f468; 0x1f3fc; 0x200d; 0x2764; 0xfe0f; 0x200d; 0x1f468; 0x1f3fb];
  [0x1f468; 0x1f3fc; 0x200d; 0x2764; 0xfe0f; 0x200d; 0x1f468; 0x1f3fc];
  [0x1f468; 0x1f3fc; 0x200d; 0x2764; 0xfe0f; 0x200d; 0x1f468; 0x1f3fd];
  [0x1f468; 0x1f3fc; 0x200d; 0x2764; 0xfe0f; 0x200d; 0x1f468; 0x1f3fe];
  [0x1f468; 0x1f3fc; 0x200d; 0x2764; 0xfe0f; 0x200d; 0x1f468; 0x1f3ff];
  [0x1f468; 0x1f3fc; 0x200d; 0x2764; 0xfe0f; 0x200d; 0x1f48b; 0x200d; 0x1f468; 0x1f3fb];
  [0x1f468; 0x1f3fc; 0x200d; 0x2764; 0xfe0f; 0x200d; 0x1f48b; 0x200d; 0x1f468; 0x1f3fc];
  [0x1f468; 0x1f3fc; 0x200d; 0x2764; 0xfe0f; 0x200d; 0x1f48b; 0x200d; 0x1f468; 0x1f3fd];
  [0x1f468; 0x1f3fc; 0x200d; 0x2764; 0xfe0f; 0x200d; 0x1f48b; 0x200d; 0x1f468; 0x1f3fe];
  [0x1f468; 0x1f3fc; 0x200d; 0x2764; 0xfe0f; 0x200d; 0x1f48b; 0x200d; 0x1f468; 0x1f3ff];
  [0x1f468; 0x1f3fc; 0x200d; 0x1f33e]; [0x1f468; 0x1f3fc; 0x200d; 0x1f373];
  [0x1f468; 0x1f3fc; 0x200d; 0x1f37c]; [0x1f468; 0x1f3fc; 0x200d; 0x1f393];
  [0x1f468; 0x1f3fc; 0x200d; 0x1f3a4]; [0x1f468; 0x1f3fc; 0x200d; 0x1f3a8];
  [0x1f468; 0x1f3fc; 0x200d; 0x1f3eb]; [0x1f468; 0x1f3fc; 0x200d; 0x1f3ed];
  [0x1f468; 0x1f3fc; 0x200d; 0x1f430; 0x200d; 0x1f468; 0x1f3fb];
  [0x1f468; 0x1f3fc; 0x200d; 0x1f430; 0x200d; 0x1f468; 0x1f3fd];
  [0x1f468; 0x1f3fc; 0x200d; 0x1f430; 0x200d; 0x1f468; 0x1f3fe];
  [0x1f468; 0x1f3fc; 0x200d; 0x1f430; 0x200d; 0x1f468; 0x1f3ff];
  [0x1f468; 0x1f3fc; 0x200d; 0x1f4bb]; [0x1f468; 0x1f3fc; 0x200d; 0x1f4bc];
  [0x1f468; 0x1f3fc; 0x200d; 0x1f527]; [0x1f468; 0x1f3fc; 0x200d; 0x1f52c];
  [0x1f468; 0x1f3fc; 0x200d; 0x1f680]; [0x1f468; 0x1f3fc; 0x200d; 0x1f692];
  [0x1f468; 0x1f3fc; 0x200d; 0x1f91d; 0x200d; 0x1f468; 0x1f3fb];
  [0x1f468; 0x1f3fc; 0x200d; 0x1f91d; 0x200d; 0x1f468; 0x1f3fd];
  [0x1f468; 0x1f3fc; 0x200d; 0x1f91d; 0x200d; 0x1f468; 0x1f3fe];
  [0x1f468; 0x1f3fc; 0x200d; 0x1f91d; 0x200d; 0x1f468; 0x1f3ff];
  [0x1f468; 0x1f3fc; 0x200d; 0x1f9af];
  [0x1f468; 0x1f3fc; 0x200d; 0x1f9af; 0x200d; 0x27a1; 0xfe0f];
  [0x1f468; 0x1f3fc; 0x200d; 0x1f9b0]; [0x1f468; 0x1f3fc; 0x200d; 0x1f9b1];
  [0x1f468; 0x1f3fc; 0x200d; 0x1f9b2]; [0x1f468; 0x1f3fc; 0x200d; 0x1f9b3];
  [0x1f468; 0x1f3fc; 0x200d; 0x1f9bc];
  [0x1f468; 0x1f3fc; 0x200d; 0x1f9bc; 0x200d; 0x27a1; 0xfe0f];
  [0x1f468; 0x1f3fc; 0x200d; 0x1f9bd];
  [0x1f468; 0x1f3fc; 0x200d; 0x1f9bd; 0x200d; 0x27a1; 0xfe0f];
  [0x1f468; 0x1f3fc; 0x200d; 0x1faef; 0x200d; 0x1f468; 0x1f3fb];
  [0x1f468; 0x1f3fc; 0x200d; 0x1faef; 0x200d; 0x1f468; 0x1f3fd];
  [0x1f468; 0x1f3fc; 0x200d; 0x1faef; 0x200d; 0x1f468; 0x1f3fe];
  [0x1f468; 0x1f3fc; 0x200d; 0x1faef; 0x200d; 0x1f468; 0x1f3ff]; [0x1f468; 0x1f3fd];
  [0x1f468; 0x1f3fd; 0x200d; 0x2695; 0xfe0f]; [0x1f468; 0x1f3fd; 0x200d; 0x2696; 0xfe0f];
  [0x1f468; 0x1f3fd; 0x200d; 0x2708; 0xfe0f];
  [0x1f468; 0x1f3fd; 0x200d; 0x2764; 0xfe0f; 0x200d; 0x1f468; 0x1f3fb];
  [0x1f468; 0x1f3fd; 0x200d; 0x2764; 0xfe0f; 0x200d; 0x1f468; 0x1f3fc];
  [0x1f468; 0x1f3fd; 0x200d; 0x2764; 0xfe0f; 0x200d; 0x1f468; 0x1f3fd];
  [0x1f468; 0x1f3fd; 0x200d; 0x2764; 0xfe0f; 0x200d; 0x1f468; 0x1f3fe];
  [0x1f468; 0x1f3fd; 0x200d; 0x2764; 0xfe0f; 0x200d; 0x1f468; 0x1f3ff];
  [0x1f468; 0x1f3fd; 0x200d; 0x2764; 0xfe0f; 0x200d; 0x1f48b; 0x200d; 0x1f468; 0x1f3fb];
  [0x1f468; 0x1f3fd; 0x200d; 0x2764; 0xfe0f; 0x200d; 0x1f48b; 0x200d; 0x1f468; 0x1f3fc];
  [0x1f468; 0x1f3fd; 0x200d; 0x2764; 0xfe0f; 0x200d; 0x1f48b; 0x200d; 0x1f468; 0x1f3fd];
  [0x1f468; 0x1f3fd; 0x200d; 0x2764; 0xfe0f; 0x200d; 0x1f48b; 0x200d; 0x1f468; 0x1f3fe];
  [0x1f468; 0x1f3fd; 0x200d; 0x2764; 0xfe0f; 0x200d; 0x1f48b; 0x200d; 0x1f468; 0x1f3ff];
  [0x1f468; 0x1f3fd; 0x200d; 0x1f33e]; [0x1f468; 0x1f3fd; 0x200d; 0x1f373];
  [0x1f468; 0x1f3fd; 0x200d; 0x1f37c]; [0x1f468; 0x1f3fd; 0x200d; 0x1f393];
  [0x1f468; 0x1f3fd; 0x200d; 0x1f3a4]; [0x1f468; 0x1f3fd; 0x200d; 0x1f3a8];
  [0x1f468; 0x1f3fd; 0x200d; 0x1f3eb]; [0x1f468; 0x1f3fd; 0x200d; 0x1f3ed];
  [0x1f468; 0x1f3fd; 0x200d; 0x1f430; 0x200d; 0x1f468; 0x1f3fb];
  [0x1f468; 0x1f3fd; 0x200d; 0x1f430; 0x200d; 0x1f468; 0x1f3fc];
  [0x1f468; 0x1f3fd; 0x200d; 0x1f430; 0x200d; 0x1f468; 0x1f3fe];
  [0x1f468; 0x1f3fd; 0x200d; 0x1f430; 0x200d; 0x1f468; 0x1f3ff];
  [0x1f468; 0x1f3fd; 0x200d; 0x1f4bb]; [0x1f468; 0x1f3fd; 0x200d; 0x1f4bc];
  [0x1f468; 0x1f3fd; 0x200d; 0x1f527]; [0x1f468; 0x1f3fd; 0x200d; 0x1f52c];
  [0x1f468; 0x1f3fd; 0x200d; 0x1f680]; [0x1f468; 0x1f3fd; 0x200d; 0x1f692];
  [0x1f468; 0x1f3fd; 0x200d; 0x1f91d; 0x200d; 0x1f468; 0x1f3fb];
  [0x1f468; 0x1f3fd; 0x200d; 0x1f91d; 0x200d; 0x1f468; 0x1f3fc];
  [0x1f468; 0x1f3fd; 0x200d; 0x1f91d; 0x200d; 0x1f468; 0x1f3fe];
  [0x1f468; 0x1f3fd; 0x200d; 0x1f91d; 0x200d; 0x1f468; 0x1f3ff];
  [0x1f468; 0x1f3fd; 0x200d; 0x1f9af];
  [0x1f468; 0x1f3fd; 0x200d; 0x1f9af; 0x200d; 0x27a1; 0xfe0f];
  [0x1f468; 0x1f3fd; 0x200d; 0x1f9b0]; [0x1f468; 0x1f3fd; 0x200d; 0x1f9b1];
  [0x1f468; 0x1f3fd; 0x200d; 0x1f9b2]; [0x1f468; 0x1f3fd; 0x200d; 0x1f9b3];
  [0x1f468; 0x1f3fd; 0x200d; 0x1f9bc];
  [0x1f468; 0x1f3fd; 0x200d; 0x1f9bc; 0x200d; 0x27a1; 0xfe0f];
  [0x1f468; 0x1f3fd; 0x200d; 0x1f9bd];
  [0x1f468; 0x1f3fd; 0x200d; 0x1f9bd; 0x200d; 0x27a1; 0xfe0f];
  [0x1f468; 0x1f3fd; 0x200d; 0x1faef; 0x200d; 0x1f468; 0x1f3fb];
  [0x1f468; 0x1f3fd; 0x200d; 0x1faef; 0x200d; 0x1f468; 0x1f3fc];
  [0x1f468; 0x1f3fd; 0x200d; 0x1faef; 0x200d; 0x1f468; 0x1f3fe];
  [0x1f468; 0x1f3fd; 0x200d; 0x1faef; 0x200d; 0x1f468; 0x1f3ff]; [0x1f468; 0x1f3fe];
  [0x1f468; 0x1f3fe; 0x200d; 0x2695; 0xfe0f]; [0x1f468; 0x1f3fe; 0x200d; 0x2696; 0xfe0f];
  [0x1f468; 0x1f3fe; 0x200d; 0x2708; 0xfe0f];
  [0x1f468; 0x1f3fe; 0x200d; 0x2764; 0xfe0f; 0x200d; 0x1f468; 0x1f3fb];
  [0x1f468; 0x1f3fe; 0x200d; 0x2764; 0xfe0f; 0x200d; 0x1f468; 0x1f3fc];
  [0x1f468; 0x1f3fe; 0x200d; 0x2764; 0xfe0f; 0x200d; 0x1f468; 0x1f3fd];
  [0x1f468; 0x1f3fe; 0x200d; 0x2764; 0xfe0f; 0x200d; 0x1f468; 0x1f3fe];
  [0x1f468; 0x1f3fe; 0x200d; 0x2764; 0xfe0f; 0x200d; 0x1f468; 0x1f3ff];
  [0x1f468; 0x1f3fe; 0x200d; 0x2764; 0xfe0f; 0x200d; 0x1f48b; 0x200d; 0x1f468; 0x1f3fb];
  [0x1f468; 0x1f3fe; 0x200d; 0x2764; 0xfe0f; 0x200d; 0x1f48b; 0x200d; 0x1f468; 0x1f3fc];
  [0x1f468; 0x1f3fe; 0x200d; 0x2764; 0xfe0f; 0x200d; 0x1f48b; 0x200d; 0x1f468; 0x1f3fd];
  [0x1f468; 0x1f3fe; 0x200d; 0x2764; 0xfe0f; 0x200d; 0x1f48b; 0x200d; 0x1f468; 0x1f3fe];
  [0x1f468; 0x1f3fe; 0x200d; 0x2764; 0xfe0f; 0x200d; 0x1f48b; 0x200d; 0x1f468; 0x1f3ff];
  [0x1f468; 0x1f3fe; 0x200d; 0x1f33e]; [0x1f468; 0x1f3fe; 0x200d; 0x1f373];
  [0x1f468; 0x1f3fe; 0x200d; 0x1f37c]; [0x1f468; 0x1f3fe; 0x200d; 0x1f393];
  [0x1f468; 0x1f3fe; 0x200d; 0x1f3a4]; [0x1f468; 0x1f3fe; 0x200d; 0x1f3a8];
  [0x1f468; 0x1f3fe; 0x200d; 0x1f3eb]; [0x1f468; 0x1f3fe; 0x200d; 0x1f3ed];
  [0x1f468; 0x1f3fe; 0x200d; 0x1f430; 0x200d; 0x1f468; 0x1f3fb];
  [0x1f468; 0x1f3fe; 0x200d; 0x1f430; 0x200d; 0x1f468; 0x1f3fc];
  [0x1f468; 0x1f3fe; 0x200d; 0x1f430; 0x200d; 0x1f468; 0x1f3fd];
  [0x1f468; 0x1f3fe; 0x200d; 0x1f430; 0x200d; 0x1f468; 0x1f3ff];
  [0x1f468; 0x1f3fe; 0x200d; 0x1f4bb]; [0x1f468; 0x1f3fe; 0x200d; 0x1f4bc];
  [0x1f468; 0x1f3fe; 0x200d; 0x1f527]; [0x1f468; 0x1f3fe; 0x200d; 0x1f52c];
  [0x1f468; 0x1f3fe; 0x200d; 0x1f680]; [0x1f468; 0x1f3fe; 0x200d; 0x1f692];
  [0x1f468; 0x1f3fe; 0x200d; 0x1f91d; 0x200d; 0x1f468; 0x1f3fb];
  [0x1f468; 0x1f3fe; 0x200d; 0x1f91d; 0x200d; 0x1f468; 0x1f3fc];
  [0x1f468; 0x1f3fe; 0x200d; 0x1f91d; 0x200d; 0x1f468; 0x1f3fd];
  [0x1f468; 0x1f3fe; 0x200d; 0x1f91d; 0x200d; 0x1f468; 0x1f3ff];
  [0x1f468; 0x1f3fe; 0x200d; 0x1f9af];
  [0x1f468; 0x1f3fe; 0x200d; 0x1f9af; 0x200d; 0x27a1; 0xfe0f];
  [0x1f468; 0x1f3fe; 0x200d; 0x1f9b0]; [0x1f468; 0x1f3fe; 0x200d; 0x1f9b1];
  [0x1f468; 0x1f3fe; 0x200d; 0x1f9b2]; [0x1f468; 0x1f3fe; 0x200d; 0x1f9b3];
  [0x1f468; 0x1f3fe; 0x200d; 0x1f9bc];
  [0x1f468; 0x1f3fe; 0x200d; 0x1f9bc; 0x200d; 0x27a1; 0xfe0f];
  [0x1f468; 0x1f3fe; 0x200d; 0x1f9bd];
  [0x1f468; 0x1f3fe; 0x200d; 0x1f9bd; 0x200d; 0x27a1; 0xfe0f];
  [0x1f468; 0x1f3fe; 0x200d; 0x1faef; 0x200d; 0x1f468; 0x1f3fb];
  [0x1f468; 0x1f3fe; 0x200d; 0x1faef; 0x200d; 0x1f468; 0x1f3fc];
  [0x1f468; 0x1f3fe; 0x200d; 0x1faef; 0x200d; 0x1f468; 0x1f3fd];
  [0x1f468; 0x1f3fe; 0x200d; 0x1faef; 0x200d; 0x1f468; 0x1f3ff]; [0x1f468; 0x1f3ff];
  [0x1f468; 0x1f3ff; 0x200d; 0x2695; 0xfe0f]; [0x1f468; 0x1f3ff; 0x200d; 0x2696; 0xfe0f];
  [0x1f468; 0x1f3ff; 0x200d; 0x2708; 0xfe0f];
  [0x1f468; 0x1f3ff; 0x200d; 0x2764; 0xfe0f; 0x200d; 0x1f468; 0x1f3fb];
  [0x1f468; 0x1f3ff; 0x200d; 0x2764; 0xfe0f; 0x200d; 0x1f468; 0x1f3fc];
  [0x1f468; 0x1f3ff; 0x200d; 0x2764; 0xfe0f; 0x200d; 0x1f468; 0x1f3fd];
  [0x1f468; 0x1f3ff; 0x200d; 0x2764; 0xfe0f; 0x200d; 0x1f468; 0x1f3fe];
  [0x1f468; 0x1f3ff; 0x200d; 0x2764; 0xfe0f; 0x200d; 0x1f468; 0x1f3ff];
  [0x1f468; 0x1f3ff; 0x200d; 0x2764; 0xfe0f; 0x200d; 0x1f48b; 0x200d; 0x1f468; 0x1f3fb];
  [0x1f468; 0x1f3ff; 0x200d; 0x2764; 0xfe0f; 0x200d; 0x1f48b; 0x200d; 0x1f468; 0x1f3fc];
  [0x1f468; 0x1f3ff; 0x200d; 0x2764; 0xfe0f; 0x200d; 0x1f48b; 0x200d; 0x1f468; 0x1f3fd];
  [0x1f468; 0x1f3ff; 0x200d; 0x2764; 0xfe0f; 0x200d; 0x1f48b; 0x200d; 0x1f468; 0x1f3fe];
  [0x1f468; 0x1f3ff; 0x200d; 0x2764; 0xfe0f; 0x200d; 0x1f48b; 0x200d; 0x1f468; 0x1f3ff];
  [0x1f468; 0x1f3ff; 0x200d; 0x1f33e]; [0x1f468; 0x1f3ff; 0x200d; 0x1f373];
  [0x1f468; 0x1f3ff; 0x200d; 0x1f37c]; [0x1f468; 0x1f3ff; 0x200d; 0x1f393];
  [0x1f468; 0x1f3ff; 0x200d; 0x1f3a4]; [0x1f468; 0x1f3ff; 0x200d; 0x1f3a8];
  [0x1f468; 0x1f3ff; 0x200d; 0x1f3eb]; [0x1f468; 0x1f3ff; 0x200d; 0x1f3ed];
  [0x1f468; 0x1f3ff; 0x200d; 0x1f430; 0x200d; 0x1f468; 0x1f3fb];
  [0x1f468; 0x1f3ff; 0x200d; 0x1f430; 0x200d; 0x1f468; 0x1f3fc];
  [0x1f468; 0x1f3ff; 0x200d; 0x1f430; 0x200d; 0x1f468; 0x1f3fd];
  [0x1f468; 0x1f3ff; 0x200d; 0x1f430; 0x200d; 0x1f468; 0x1f3fe];
  [0x1f468; 0x1f3ff; 0x200d; 0x1f4bb]; [0x1f468; 0x1f3ff; 0x200d; 0x1f4bc];
  [0x1f468; 0x1f3ff; 0x200d; 0x1f527]; [0x1f468; 0x1f3ff; 0x200d; 0x1f52c];
  [0x1f468; 0x1f3ff; 0x200d; 0x1f680]; [0x1f468; 0x1f3ff; 0x200d; 0x1f692];
  [0x1f468; 0x1f3ff; 0x200d; 0x1f91d; 0x200d; 0x1f468; 0x1f3fb];
  [0x1f468; 0x1f3ff; 0x200d; 0x1f91d; 0x200d; 0x1f468; 0x1f3fc];
  [0x1f468; 0x1f3ff; 0x200d; 0x1f91d; 0x200d; 0x1f468; 0x1f3fd];
  [0x1f468; 0x1f3ff; 0x200d; 0x1f91d; 0x200d; 0x1f468; 0x1f3fe];
  [0x1f468; 0x1f3ff; 0x200d; 0x1f9af];
  [0x1f468; 0x1f3ff; 0x200d; 0x1f9af; 0x200d; 0x27a1; 0xfe0f];
  [0x1f468; 0x1f3ff; 0x200d; 0x1f9b0]; [0x1f468; 0x1f3ff; 0x200d; 0x1f9b1];
  [0x1f468; 0x1f3ff; 0x200d; 0x1f9b2]; [0x1f468; 0x1f3ff; 0x200d; 0x1f9b3];
  [0x1f468; 0x1f3ff; 0x200d; 0x1f9bc];
  [0x1f468; 0x1f3ff; 0x200d; 0x1f9bc; 0x200d; 0x27a1; 0xfe0f];
  [0x1f468; 0x1f3ff; 0x200d; 0x1f9bd];
  [0x1f468; 0x1f3ff; 0x200d; 0x1f9bd; 0x200d; 0x27a1; 0xfe0f];
  [0x1f468; 0x1f3ff; 0x200d; 0x1faef; 0x200d; 0x1f468; 0x1f3fb];
  [0x1f468; 0x1f3ff; 0x200d; 0x1faef; 0x200d; 0x1f468; 0x1f3fc];
  [0x1f468; 0x1f3ff; 0x200d; 0x1faef; 0x200d; 0x1f468; 0x1f3fd];
  [0x1f468; 0x1f3ff; 0x200d; 0x1faef; 0x200d; 0x1f468; 0x1f3fe]; [0x1f469];
  [0x1f469; 0x200d; 0x2695; 0xfe0f]; [0x1f469; 0x200d; 0x2696; 0xfe0f];
  [0x1f469; 0x200d; 0x2708; 0xfe0f]; [0x1f469; 0x200d; 0x2764; 0xfe0f; 0x200d; 0x1f468];
  [0x1f469; 0x200d; 0x2764; 0xfe0f; 0x200d; 0x1f469];
  [0x1f469; 0x200d; 0x2764; 0xfe0f; 0x200d; 0x1f48b; 0x200d; 0x1f468];
  [0x1f469; 0x200d; 0x2764; 0xfe0f; 0x200d; 0x1f48b; 0x200d; 0x1f469];
  [0x1f469; 0x200d; 0x1f33e]; [0x1f469; 0x200d; 0x1f373]; [0x1f469; 0x200d; 0x1f37c];
  [0x1f469; 0x200d; 0x1f393]; [0x1f469; 0x200d; 0x1f3a4]; [0x1f469; 0x200d; 0x1f3a8];
  [0x1f469; 0x200d; 0x1f3eb]; [0x1f469; 0x200d; 0x1f3ed]; [0x1f469; 0x200d; 0x1f466];
  [0x1f469; 0x200d; 0x1f466; 0x200d; 0x1f466]; [0x1f469; 0x200d; 0x1f467];
  [0x1f469; 0x200d; 0x1f467; 0x200d; 0x1f466]; [0x1f469; 0x200d; 0x1f467; 0x200d; 0x1f467];
  [0x1f469; 0x200d; 0x1f469; 0x200d; 0x1f466];
  [0x1f469; 0x200d; 0x1f469; 0x200d; 0x1f466; 0x200d; 0x1f466];
  [0x1f469; 0x200d; 0x1f469; 0x200d; 0x1f467];
  [0x1f469; 0x200d; 0x1f469; 0x200d; 0x1f467; 0x200d; 0x1f466];
  [0x1f469; 0x200d; 0x1f469; 0x200d; 0x1f467; 0x200d; 0x1f467]; [0x1f469; 0x200d; 0x1f4bb];
  [0x1f469; 0x200d; 0x1f4bc]; [0x1f469; 0x200d; 0x1f527]; [0x1f469; 0x200d; 0x1f52c];
  [0x1f469; 0x200d; 0x1f680]; [0x1f469; 0x200d; 0x1f692]; [0x1f469; 0x200d; 0x1f9af];
  [0x1f469; 0x200d; 0x1f9af; 0x200d; 0x27a1; 0xfe0f]; [0x1f469; 0x200d; 0x1f9b0];
  [0x1f469; 0x200d; 0x1f9b1]; [0x1f469; 0x200d; 0x1f9b2]; [0x1f469; 0x200d; 0x1f9b3];
  [0x1f469; 0x200d; 0x1f9bc]; [0x1f469; 0x200d; 0x1f9bc; 0x200d; 0x27a1; 0xfe0f];
  [0x1f469; 0x200d; 0x1f9bd]; [0x1f469; 0x200d; 0x1f9bd; 0x200d; 0x27a1; 0xfe0f];
  [0x1f469; 0x1f3fb]; [0x1f469; 0x1f3fb; 0x200d; 0x2695; 0xfe0f];
  [0x1f469; 0x1f3fb; 0x200d; 0x2696; 0xfe0f]; [0x1f469; 0x1f3fb; 0x200d; 0x2708; 0xfe0f];
  [0x1f469; 0x1f3fb; 0x200d; 0x2764; 0xfe0f; 0x200d; 0x1f468; 0x1f3fb];
  [0x1f469; 0x1f3fb; 0x200d; 0x2764; 0xfe0f; 0x200d; 0x1f468; 0x1f3fc];
  [0x1f469; 0x1f3fb; 0x200d; 0x2764; 0xfe0f; 0x200d; 0x1f468; 0x1f3fd];
  [0x1f469; 0x1f3fb; 0x200d; 0x2764; 0xfe0f; 0x200d; 0x1f468; 0x1f3fe];
  [0x1f469; 0x1f3fb; 0x200d; 0x2764; 0xfe0f; 0x200d; 0x1f468; 0x1f3ff];
  [0x1f469; 0x1f3fb; 0x200d; 0x2764; 0xfe0f; 0x200d; 0x1f469; 0x1f3fb];
  [0x1f469; 0x1f3fb; 0x200d; 0x2764; 0xfe0f; 0x200d; 0x1f469; 0x1f3fc];
  [0x1f469; 0x1f3fb; 0x200d; 0x2764; 0xfe0f; 0x200d; 0x1f469; 0x1f3fd];
  [0x1f469; 0x1f3fb; 0x200d; 0x2764; 0xfe0f; 0x200d; 0x1f469; 0x1f3fe];
  [0x1f469; 0x1f3fb; 0x200d; 0x2764; 0xfe0f; 0x200d; 0x1f469; 0x1f3ff];
  [0x1f469; 0x1f3fb; 0x200d; 0x2764; 0xfe0f; 0x200d; 0x1f48b; 0x200d; 0x1f468; 0x1f3fb];
  [0x1f469; 0x1f3fb; 0x200d; 0x2764; 0xfe0f; 0x200d; 0x1f48b; 0x200d; 0x1f468; 0x1f3fc];
  [0x1f469; 0x1f3fb; 0x200d; 0x2764; 0xfe0f; 0x200d; 0x1f48b; 0x200d; 0x1f468; 0x1f3fd];
  [0x1f469; 0x1f3fb; 0x200d; 0x2764; 0xfe0f; 0x200d; 0x1f48b; 0x200d; 0x1f468; 0x1f3fe];
  [0x1f469; 0x1f3fb; 0x200d; 0x2764; 0xfe0f; 0x200d; 0x1f48b; 0x200d; 0x1f468; 0x1f3ff];
  [0x1f469; 0x1f3fb; 0x200d; 0x2764; 0xfe0f; 0x200d; 0x1f48b; 0x200d; 0x1f469; 0x1f3fb];
  [0x1f469; 0x1f3fb; 0x200d; 0x2764; 0xfe0f; 0x200d; 0x1f48b; 0x200d; 0x1f469; 0x1f3fc];
  [0x1f469; 0x1f3fb; 0x200d; 0x2764; 0xfe0f; 0x200d; 0x1f48b; 0x200d; 0x1f469; 0x1f3fd];
  [0x1f469; 0x1f3fb; 0x200d; 0x2764; 0xfe0f; 0x200d; 0x1f48b; 0x200d; 0x1f469; 0x1f3fe];
  [0x1f469; 0x1f3fb; 0x200d; 0x2764; 0xfe0f; 0x200d; 0x1f48b; 0x200d; 0x1f469; 0x1f3ff];
  [0x1f469; 0x1f3fb; 0x200d; 0x1f33e]; [0x1f469; 0x1f3fb; 0x200d; 0x1f373];
  [0x1f469; 0x1f3fb; 0x200d; 0x1f37c]; [0x1f469; 0x1f3fb; 0x200d; 0x1f393];
  [0x1f469; 0x1f3fb; 0x200d; 0x1f3a4]; [0x1f469; 0x1f3fb; 0x200d; 0x1f3a8];
  [0x1f469; 0x1f3fb; 0x200d; 0x1f3eb]; [0x1f469; 0x1f3fb; 0x200d; 0x1f3ed];
  [0x1f469; 0x1f3fb; 0x200d; 0x1f430; 0x200d; 0x1f469; 0x1f3fc];
  [0x1f469; 0x1f3fb; 0x200d; 0x1f430; 0x200d; 0x1f469; 0x1f3fd];
  [0x1f469; 0x1f3fb; 0x200d; 0x1f430; 0x200d; 0x1f469; 0x1f3fe];
  [0x1f469; 0x1f3fb; 0x200d; 0x1f430; 0x200d; 0x1f469; 0x1f3ff];
  [0x1f469; 0x1f3fb; 0x200d; 0x1f4bb]; [0x1f469; 0x1f3fb; 0x200d; 0x1f4bc];
  [0x1f469; 0x1f3fb; 0x200d; 0x1f527]; [0x1f469; 0x1f3fb; 0x200d; 0x1f52c];
  [0x1f469; 0x1f3fb; 0x200d; 0x1f680]; [0x1f469; 0x1f3fb; 0x200d; 0x1f692];
  [0x1f469; 0x1f3fb; 0x200d; 0x1f91d; 0x200d; 0x1f468; 0x1f3fc];
  [0x1f469; 0x1f3fb; 0x200d; 0x1f91d; 0x200d; 0x1f468; 0x1f3fd];
  [0x1f469; 0x1f3fb; 0x200d; 0x1f91d; 0x200d; 0x1f468; 0x1f3fe];
  [0x1f469; 0x1f3fb; 0x200d; 0x1f91d; 0x200d; 0x1f468; 0x1f3ff];
  [0x1f469; 0x1f3fb; 0x200d; 0x1f91d; 0x200d; 0x1f469; 0x1f3fc];
  [0x1f469; 0x1f3fb; 0x200d; 0x1f91d; 0x200d; 0x1f469; 0x1f3fd];
  [0x1f469; 0x1f3fb; 0x200d; 0x1f91d; 0x200d; 0x1f469; 0x1f3fe];
  [0x1f469; 0x1f3fb; 0x200d; 0x1f91d; 0x200d; 0x1f469; 0x1f3ff];
  [0x1f469; 0x1f3fb; 0x200d; 0x1f9af];
  [0x1f469; 0x1f3fb; 0x200d; 0x1f9af; 0x200d; 0x27a1; 0xfe0f];
  [0x1f469; 0x1f3fb; 0x200d; 0x1f9b0]; [0x1f469; 0x1f3fb; 0x200d; 0x1f9b1];
  [0x1f469; 0x1f3fb; 0x200d; 0x1f9b2]; [0x1f469; 0x1f3fb; 0x200d; 0x1f9b3];
  [0x1f469; 0x1f3fb; 0x200d; 0x1f9bc];
  [0x1f469; 0x1f3fb; 0x200d; 0x1f9bc; 0x200d; 0x27a1; 0xfe0f];
  [0x1f469; 0x1f3fb; 0x200d; 0x1f9bd];
  [0x1f469; 0x1f3fb; 0x200d; 0x1f9bd; 0x200d; 0x27a1; 0xfe0f];
  [0x1f469; 0x1f3fb; 0x200d; 0x1faef; 0x200d; 0x1f469; 0x1f3fc];
  [0x1f469; 0x1f3fb; 0x200d; 0x1faef; 0x200d; 0x1f469; 0x1f3fd];
  [0x1f469; 0x1f3fb; 0x200d; 0x1faef; 0x200d; 0x1f469; 0x1f3fe];
  [0x1f469; 0x1f3fb; 0x200d; 0x1faef; 0x200d; 0x1f469; 0x1f3ff]; [0x1f469; 0x1f3fc];
  [0x1f469; 0x1f3fc; 0x200d; 0x2695; 0xfe0f]; [0x1f469; 0x1f3fc; 0x200d; 0x2696; 0xfe0f];
  [0x1f469; 0x1f3fc; 0x200d; 0x2708; 0xfe0f];
  [0x1f469; 0x1f3fc; 0x200d; 0x2764; 0xfe0f; 0x200d; 0x1f468; 0x1f3fb];
  [0x1f469; 0x1f3fc; 0x200d; 0x2764; 0xfe0f; 0x200d; 0x1f468; 0x1f3fc];
  [0x1f469; 0x1f3fc; 0x200d; 0x2764; 0xfe0f; 0x200d; 0x1f468; 0x1f3fd];
  [0x1f469; 0x1f3fc; 0x200d; 0x2764; 0xfe0f; 0x200d; 0x1f468; 0x1f3fe];
  [0x1f469; 0x1f3fc; 0x200d; 0x2764; 0xfe0f; 0x200d; 0x1f468; 0x1f3ff];
  [0x1f469; 0x1f3fc; 0x200d; 0x2764; 0xfe0f; 0x200d; 0x1f469; 0x1f3fb];
  [0x1f469; 0x1f3fc; 0x200d; 0x2764; 0xfe0f; 0x200d; 0x1f469; 0x1f3fc];
  [0x1f469; 0x1f3fc; 0x200d; 0x2764; 0xfe0f; 0x200d; 0x1f469; 0x1f3fd];
  [0x1f469; 0x1f3fc; 0x200d; 0x2764; 0xfe0f; 0x200d; 0x1f469; 0x1f3fe];
  [0x1f469; 0x1f3fc; 0x200d; 0x2764; 0xfe0f; 0x200d; 0x1f469; 0x1f3ff];
  [0x1f469; 0x1f3fc; 0x200d; 0x2764; 0xfe0f; 0x200d; 0x1f48b; 0x200d; 0x1f468; 0x1f3fb];
  [0x1f469; 0x1f3fc; 0x200d; 0x2764; 0xfe0f; 0x200d; 0x1f48b; 0x200d; 0x1f468; 0x1f3fc];
  [0x1f469; 0x1f3fc; 0x200d; 0x2764; 0xfe0f; 0x200d; 0x1f48b; 0x200d; 0x1f468; 0x1f3fd];
  [0x1f469; 0x1f3fc; 0x200d; 0x2764; 0xfe0f; 0x200d; 0x1f48b; 0x200d; 0x1f468; 0x1f3fe];
  [0x1f469; 0x1f3fc; 0x200d; 0x2764; 0xfe0f; 0x200d; 0x1f48b; 0x200d; 0x1f468; 0x1f3ff];
  [0x1f469; 0x1f3fc; 0x200d; 0x2764; 0xfe0f; 0x200d; 0x1f48b; 0x200d; 0x1f469; 0x1f3fb];
  [0x1f469; 0x1f3fc; 0x200d; 0x2764; 0xfe0f; 0x200d; 0x1f48b; 0x200d; 0x1f469; 0x1f3fc];
  [0x1f469; 0x1f3fc; 0x200d; 0x2764; 0xfe0f; 0x200d; 0x1f48b; 0x200d; 0x1f469; 0x1f3fd];
  [0x1f469; 0x1f3fc; 0x200d; 0x2764; 0xfe0f; 0x200d; 0x1f48b; 0x200d; 0x1f469; 0x1f3fe];
  [0x1f469; 0x1f3fc; 0x200d; 0x2764; 0xfe0f; 0x200d; 0x1f48b; 0x200d; 0x1f469; 0x1f3ff];
  [0x1f469; 0x1f3fc; 0x200d; 0x1f33e]; [0x1f469; 0x1f3fc; 0x200d; 0x1f373];
  [0x1f469; 0x1f3fc; 0x200d; 0x1f37c]; [0x1f469; 0x1f3fc; 0x200d; 0x1f393];
  [0x1f469; 0x1f3fc; 0x200d; 0x1f3a4]; [0x1f469; 0x1f3fc; 0x200d; 0x1f3a8];
  [0x1f469; 0x1f3fc; 0x200d; 0x1f3eb]; [0x1f469; 0x1f3fc; 0x200d; 0x1f3ed];
  [0x1f469; 0x1f3fc; 0x200d; 0x1f430; 0x200d; 0x1f469; 0x1f3fb];
  [0x1f469; 0x1f3fc; 0x200d; 0x1f430; 0x200d; 0x1f469; 0x1f3fd];
  [0x1f469; 0x1f3fc; 0x200d; 0x1f430; 0x200d; 0x1f469; 0x1f3fe];
  [0x1f469; 0x1f3fc; 0x200d; 0x1f430; 0x200d; 0x1f469; 0x1f3ff];
  [0x1f469; 0x1f3fc; 0x200d; 0x1f4bb]; [0x1f469; 0x1f3fc; 0x200d; 0x1f4bc];
  [0x1f469; 0x1f3fc; 0x200d; 0x1f527]; [0x1f469; 0x1f3fc; 0x200d; 0x1f52c];
  [0x1f469; 0x1f3fc; 0x200d; 0x1f680]; [0x1f469; 0x1f3fc; 0x200d; 0x1f692];
  [0x1f469; 0x1f3fc; 0x200d; 0x1f91d; 0x200d; 0x1f468; 0x1f3fb];
  [0x1f469; 0x1f3fc; 0x200d; 0x1f91d; 0x200d; 0x1f468; 0x1f3fd];
  [0x1f469; 0x1f3fc; 0x200d; 0x1f91d; 0x200d; 0x1f468; 0x1f3fe];
  [0x1f469; 0x1f3fc; 0x200d; 0x1f91d; 0x200d; 0x1f468; 0x1f3ff];
  [0x1f469; 0x1f3fc; 0x200d; 0x1f91d; 0x200d; 0x1f469; 0x1f3fb];
  [0x1f469; 0x1f3fc; 0x200d; 0x1f91d; 0x200d; 0x1f469; 0x1f3fd];
  [0x1f469; 0x1f3fc; 0x200d; 0x1f91d; 0x200d; 0x1f469; 0x1f3fe];
  [0x1f469; 0x1f3fc; 0x200d; 0x1f91d; 0x200d; 0x1f469; 0x1f3ff];
  [0x1f469; 0x1f3fc; 0x200d; 0x1f9af];
  [0x1f469; 0x1f3fc; 0x200d; 0x1f9af; 0x200d; 0x27a1; 0xfe0f];
  [0x1f469; 0x1f3fc; 0x200d; 0x1f9b0]; [0x1f469; 0x1f3fc; 0x200d; 0x1f9b1];
  [0x1f469; 0x1f3fc; 0x200d; 0x1f9b2]; [0x1f469; 0x1f3fc; 0x200d; 0x1f9b3];
  [0x1f469; 0x1f3fc; 0x200d; 0x1f9bc];
  [0x1f469; 0x1f3fc; 0x200d; 0x1f9bc; 0x200d; 0x27a1; 0xfe0f];
  [0x1f469; 0x1f3fc; 0x200d; 0x1f9bd];
  [0x1f469; 0x1f3fc; 0x200d; 0x1f9bd; 0x200d; 0x27a1; 0xfe0f];
  [0x1f469; 0x1f3fc; 0x200d; 0x1faef; 0x200d; 0x1f469; 0x1f3fb];
  [0x1f469; 0x1f3fc; 0x200d; 0x1faef; 0x200d; 0x1f469; 0x1f3fd];
  [0x1f469; 0x1f3fc; 0x200d; 0x1faef; 0x200d; 0x1f469; 0x1f3fe];
  [0x1f469; 0x1f3fc; 0x200d; 0x1faef; 0x200d; 0x1f469; 0x1f3ff]; [0x1f469; 0x1f3fd];
  [0x1f469; 0x1f3fd; 0x200d; 0x2695; 0xfe0f]; [0x1f469; 0x1f3fd; 0x200d; 0x2696; 0xfe0f];
  [0x1f469; 0x1f3fd; 0x200d; 0x2708; 0xfe0f];
  [0x1f469; 0x1f3fd; 0x200d; 0x2764; 0xfe0f; 0x200d; 0x1f468; 0x1f3fb];
  [0x1f469; 0x1f3fd; 0x200d; 0x2764; 0xfe0f; 0x200d; 0x1f468; 0x1f3fc];
  [0x1f469; 0x1f3fd; 0x200d; 0x2764; 0xfe0f; 0x200d; 0x1f468; 0x1f3fd];
  [0x1f469; 0x1f3fd; 0x200d; 0x2764; 0xfe0f; 0x200d; 0x1f468; 0x1f3fe];
  [0x1f469; 0x1f3fd; 0x200d; 0x2764; 0xfe0f; 0x200d; 0x1f468; 0x1f3ff];
  [0x1f469; 0x1f3fd; 0x200d; 0x2764; 0xfe0f; 0x200d; 0x1f469; 0x1f3fb];
  [0x1f469; 0x1f3fd; 0x200d; 0x2764; 0xfe0f; 0x200d; 0x1f469; 0x1f3fc];
  [0x1f469; 0x1f3fd; 0x200d; 0x2764; 0xfe0f; 0x200d; 0x1f469; 0x1f3fd];
  [0x1f469; 0x1f3fd; 0x200d; 0x2764; 0xfe0f; 0x200d; 0x1f469; 0x1f3fe];
  [0x1f469; 0x1f3fd; 0x200d; 0x2764; 0xfe0f; 0x200d; 0x1f469; 0x1f3ff];
  [0x1f469; 0x1f3fd; 0x200d; 0x2764; 0xfe0f; 0x200d; 0x1f48b; 0x200d; 0x1f468; 0x1f3fb];
  [0x1f469; 0x1f3fd; 0x200d; 0x2764; 0xfe0f; 0x200d; 0x1f48b; 0x200d; 0x1f468; 0x1f3fc];
  [0x1f469; 0x1f3fd; 0x200d; 0x2764; 0xfe0f; 0x200d; 0x1f48b; 0x200d; 0x1f468; 0x1f3fd];
  [0x1f469; 0x1f3fd; 0x200d; 0x2764; 0xfe0f; 0x200d; 0x1f48b; 0x200d; 0x1f468; 0x1f3fe];
  [0x1f469; 0x1f3fd; 0x200d; 0x2764; 0xfe0f; 0x200d; 0x1f48b; 0x200d; 0x1f468; 0x1f3ff];
  [0x1f469; 0x1f3fd; 0x200d; 0x2764; 0xfe0f; 0x200d; 0x1f48b; 0x200d; 0x1f469; 0x1f3fb];
  [0x1f469; 0x1f3fd; 0x200d; 0x2764; 0xfe0f; 0x200d; 0x1f48b; 0x200d; 0x1f469; 0x1f3fc];
  [0x1f469; 0x1f3fd; 0x200d; 0x2764; 0xfe0f; 0x200d; 0x1f48b; 0x200d; 0x1f469; 0x1f3fd];
  [0x1f469; 0x1f3fd; 0x200d; 0x2764; 0xfe0f; 0x200d; 0x1f48b; 0x200d; 0x1f469; 0x1f3fe];
  [0x1f469; 0x1f3fd; 0x200d; 0x2764; 0xfe0f; 0x200d; 0x1f48b; 0x200d; 0x1f469; 0x1f3ff];
  [0x1f469; 0x1f3fd; 0x200d; 0x1f33e]; [0x1f469; 0x1f3fd; 0x200d; 0x1f373];
  [0x1f469; 0x1f3fd; 0x200d; 0x1f37c]; [0x1f469; 0x1f3fd; 0x200d; 0x1f393];
  [0x1f469; 0x1f3fd; 0x200d; 0x1f3a4]; [0x1f469; 0x1f3fd; 0x200d; 0x1f3a8];
  [0x1f469; 0x1f3fd; 0x200d; 0x1f3eb]; [0x1f469; 0x1f3fd; 0x200d; 0x1f3ed];
  [0x1f469; 0x1f3fd; 0x200d; 0x1f430; 0x200d; 0x1f469; 0x1f3fb];
  [0x1f469; 0x1f3fd; 0x200d; 0x1f430; 0x200d; 0x1f469; 0x1f3fc];
  [0x1f469; 0x1f3fd; 0x200d; 0x1f430; 0x200d; 0x1f469; 0x1f3fe];
  [0x1f469; 0x1f3fd; 0x200d; 0x1f430; 0x200d; 0x1f469; 0x1f3ff];
  [0x1f469; 0x1f3fd; 0x200d; 0x1f4bb]; [0x1f469; 0x1f3fd; 0x200d; 0x1f4bc];
  [0x1f469; 0x1f3fd; 0x200d; 0x1f527]; [0x1f469; 0x1f3fd; 0x200d; 0x1f52c];
  [0x1f469; 0x1f3fd; 0x200d; 0x1f680]; [0x1f469; 0x1f3fd; 0x200d; 0x1f692];
  [0x1f469; 0x1f3fd; 0x200d; 0x1f91d; 0x200d; 0x1f468; 0x1f3fb];
  [0x1f469; 0x1f3fd; 0x200d; 0x1f91d; 0x200d; 0x1f468; 0x1f3fc];
  [0x1f469; 0x1f3fd; 0x200d; 0x1f91d; 0x200d; 0x1f468; 0x1f3fe];
  [0x1f469; 0x1f3fd; 0x200d; 0x1f91d; 0x200d; 0x1f468; 0x1f3ff];
  [0x1f469; 0x1f3fd; 0x200d; 0x1f91d; 0x200d; 0x1f469; 0x1f3fb];
  [0x1f469; 0x1f3fd; 0x200d; 0x1f91d; 0x200d; 0x1f469; 0x1f3fc];
  [0x1f469; 0x1f3fd; 0x200d; 0x1f91d; 0x200d; 0x1f469; 0x1f3fe];
  [0x1f469; 0x1f3fd; 0x200d; 0x1f91d; 0x200d; 0x1f469; 0x1f3ff];
  [0x1f469; 0x1f3fd; 0x200d; 0x1f9af];
  [0x1f469; 0x1f3fd; 0x200d; 0x1f9af; 0x200d; 0x27a1; 0xfe0f];
  [0x1f469; 0x1f3fd; 0x200d; 0x1f9b0]; [0x1f469; 0x1f3fd; 0x200d; 0x1f9b1];
  [0x1f469; 0x1f3fd; 0x200d; 0x1f9b2]; [0x1f469; 0x1f3fd; 0x200d; 0x1f9b3];
  [0x1f469; 0x1f3fd; 0x200d; 0x1f9bc];
  [0x1f469; 0x1f3fd; 0x200d; 0x1f9bc; 0x200d; 0x27a1; 0xfe0f];
  [0x1f469; 0x1f3fd; 0x200d; 0x1f9bd];
  [0x1f469; 0x1f3fd; 0x200d; 0x1f9bd; 0x200d; 0x27a1; 0xfe0f];
  [0x1f469; 0x1f3fd; 0x200d; 0x1faef; 0x200d; 0x1f469; 0x1f3fb];
  [0x1f469; 0x1f3fd; 0x200d; 0x1faef; 0x200d; 0x1f469; 0x1f3fc];
  [0x1f469; 0x1f3fd; 0x200d; 0x1faef; 0x200d; 0x1f469; 0x1f3fe];
  [0x1f469; 0x1f3fd; 0x200d; 0x1faef; 0x200d; 0x1f469; 0x1f3ff]; [0x1f469; 0x1f3fe];
  [0x1f469; 0x1f3fe; 0x200d; 0x2695; 0xfe0f]; [0x1f469; 0x1f3fe; 0x200d; 0x2696; 0xfe0f];
  [0x1f469; 0x1f3fe; 0x200d; 0x2708; 0xfe0f];
  [0x1f469; 0x1f3fe; 0x200d; 0x2764; 0xfe0f; 0x200d; 0x1f468; 0x1f3fb];
  [0x1f469; 0x1f3fe; 0x200d; 0x2764; 0xfe0f; 0x200d; 0x1f468; 0x1f3fc];
  [0x1f469; 0x1f3fe; 0x200d; 0x2764; 0xfe0f; 0x200d; 0x1f468; 0x1f3fd];
  [0x1f469; 0x1f3fe; 0x200d; 0x2764; 0xfe0f; 0x200d; 0x1f468; 0x1f3fe];
  [0x1f469; 0x1f3fe; 0x200d; 0x2764; 0xfe0f; 0x200d; 0x1f468; 0x1f3ff];
  [0x1f469; 0x1f3fe; 0x200d; 0x2764; 0xfe0f; 0x200d; 0x1f469; 0x1f3fb];
  [0x1f469; 0x1f3fe; 0x200d; 0x2764; 0xfe0f; 0x200d; 0x1f469; 0x1f3fc];
  [0x1f469; 0x1f3fe; 0x200d; 0x2764; 0xfe0f; 0x200d; 0x1f469; 0x1f3fd];
  [0x1f469; 0x1f3fe; 0x200d; 0x2764; 0xfe0f; 0x200d; 0x1f469; 0x1f3fe];
  [0x1f469; 0x1f3fe; 0x200d; 0x2764; 0xfe0f; 0x200d; 0x1f469; 0x1f3ff];
  [0x1f469; 0x1f3fe; 0x200d; 0x2764; 0xfe0f; 0x200d; 0x1f48b; 0x200d; 0x1f468; 0x1f3fb];
  [0x1f469; 0x1f3fe; 0x200d; 0x2764; 0xfe0f; 0x200d; 0x1f48b; 0x200d; 0x1f468; 0x1f3fc];
  [0x1f469; 0x1f3fe; 0x200d; 0x2764; 0xfe0f; 0x200d; 0x1f48b; 0x200d; 0x1f468; 0x1f3fd];
  [0x1f469; 0x1f3fe; 0x200d; 0x2764; 0xfe0f; 0x200d; 0x1f48b; 0x200d; 0x1f468; 0x1f3fe];
  [0x1f469; 0x1f3fe; 0x200d; 0x2764; 0xfe0f; 0x200d; 0x1f48b; 0x200d; 0x1f468; 0x1f3ff];
  [0x1f469; 0x1f3fe; 0x200d; 0x2764; 0xfe0f; 0x200d; 0x1f48b; 0x200d; 0x1f469; 0x1f3fb];
  [0x1f469; 0x1f3fe; 0x200d; 0x2764; 0xfe0f; 0x200d; 0x1f48b; 0x200d; 0x1f469; 0x1f3fc];
  [0x1f469; 0x1f3fe; 0x200d; 0x2764; 0xfe0f; 0x200d; 0x1f48b; 0x200d; 0x1f469; 0x1f3fd];
  [0x1f469; 0x1f3fe; 0x200d; 0x2764; 0xfe0f; 0x200d; 0x1f48b; 0x200d; 0x1f469; 0x1f3fe];
  [0x1f469; 0x1f3fe; 0x200d; 0x2764; 0xfe0f; 0x200d; 0x1f48b; 0x200d; 0x1f469; 0x1f3ff];
  [0x1f469; 0x1f3fe; 0x200d; 0x1f33e]; [0x1f469; 0x1f3fe; 0x200d; 0x1f373];
  [0x1f469; 0x1f3fe; 0x200d; 0x1f37c]; [0x1f469; 0x1f3fe; 0x200d; 0x1f393];
  [0x1f469; 0x1f3fe; 0x200d; 0x1f3a4]; [0x1f469; 0x1f3fe; 0x200d; 0x1f3a8];
  [0x1f469; 0x1f3fe; 0x200d; 0x1f3eb]; [0x1f469; 0x1f3fe; 0x200d; 0x1f3ed];
  [0x1f469; 0x1f3fe; 0x200d; 0x1f430; 0x200d; 0x1f469; 0x1f3fb];
  [0x1f469; 0x1f3fe; 0x200d; 0x1f430; 0x200d; 0x1f469; 0x1f3fc];
  [0x1f469; 0x1f3fe; 0x200d; 0x1f430; 0x200d; 0x1f469; 0x1f3fd];
  [0x1f469; 0x1f3fe; 0x200d; 0x1f430; 0x200d; 0x1f469; 0x1f3ff];
  [0x1f469; 0x1f3fe; 0x200d; 0x1f4bb]; [0x1f469; 0x1f3fe; 0x200d; 0x1f4bc];
  [0x1f469; 0x1f3fe; 0x200d; 0x1f527]; [0x1f469; 0x1f3fe; 0x200d; 0x1f52c];
  [0x1f469; 0x1f3fe; 0x200d; 0x1f680]; [0x1f469; 0x1f3fe; 0x200d; 0x1f692];
  [0x1f469; 0x1f3fe; 0x200d; 0x1f91d; 0x200d; 0x1f468; 0x1f3fb];
  [0x1f469; 0x1f3fe; 0x200d; 0x1f91d; 0x200d; 0x1f468; 0x1f3fc];
  [0x1f469; 0x1f3fe; 0x200d; 0x1f91d; 0x200d; 0x1f468; 0x1f3fd];
  [0x1f469; 0x1f3fe; 0x200d; 0x1f91d; 0x200d; 0x1f468; 0x1f3ff];
  [0x1f469; 0x1f3fe; 0x200d; 0x1f91d; 0x200d; 0x1f469; 0x1f3fb];
  [0x1f469; 0x1f3fe; 0x200d; 0x1f91d; 0x200d; 0x1f469; 0x1f3fc];
  [0x1f469; 0x1f3fe; 0x200d; 0x1f91d; 0x200d; 0x1f469; 0x1f3fd];
  [0x1f469; 0x1f3fe; 0x200d; 0x1f91d; 0x200d; 0x1f469; 0x1f3ff];
  [0x1f469; 0x1f3fe; 0x200d; 0x1f9af];
  [0x1f469; 0x1f3fe; 0x200d; 0x1f9af; 0x200d; 0x27a1; 0xfe0f];
  [0x1f469; 0x1f3fe; 0x200d; 0x1f9b0]; [0x1f469; 0x1f3fe; 0x200d; 0x1f9b1];
  [0x1f469; 0x1f3fe; 0x200d; 0x1f9b2]; [0x1f469; 0x1f3fe; 0x200d; 0x1f9b3];
  [0x1f469; 0x1f3fe; 0x200d; 0x1f9bc];
  [0x1f469; 0x1f3fe; 0x200d; 0x1f9bc; 0x200d; 0x27a1; 0xfe0f];
  [0x1f469; 0x1f3fe; 0x200d; 0x1f9bd];
  [0x1f469; 0x1f3fe; 0x200d; 0x1f9bd; 0x200d; 0x27a1; 0xfe0f];
  [0x1f469; 0x1f3fe; 0x200d; 0x1faef; 0x200d; 0x1f469; 0x1f3fb];
  [0x1f469; 0x1f3fe; 0x200d; 0x1faef; 0x200d; 0x1f469; 0x1f3fc];
  [0x1f469; 0x1f3fe; 0x200d; 0x1faef; 0x200d; 0x1f469; 0x1f3fd];
  [0x1f469; 0x1f3fe; 0x200d; 0x1faef; 0x200d; 0x1f469; 0x1f3ff]; [0x1f469; 0x1f3ff];
  [0x1f469; 0x1f3ff; 0x200d; 0x2695; 0xfe0f]; [0x1f469; 0x1f3ff; 0x200d; 0x2696; 0xfe0f];
  [0x1f469; 0x1f3ff; 0x200d; 0x2708; 0xfe0f];
  [0x1f469; 0x1f3ff; 0x200d; 0x2764; 0xfe0f; 0x200d; 0x1f468; 0x1f3fb];
  [0x1f469; 0x1f3ff; 0x200d; 0x2764; 0xfe0f; 0x200d; 0x1f468; 0x1f3fc];
  [0x1f469; 0x1f3ff; 0x200d; 0x2764; 0xfe0f; 0x200d; 0x1f468; 0x1f3fd];
  [0x1f469; 0x1f3ff; 0x200d; 0x2764; 0xfe0f; 0x200d; 0x1f468; 0x1f3fe];
  [0x1f469; 0x1f3ff; 0x200d; 0x2764; 0xfe0f; 0x200d; 0x1f468; 0x1f3ff];
  [0x1f469; 0x1f3ff; 0x200d; 0x2764; 0xfe0f; 0x200d; 0x1f469; 0x1f3fb];
  [0x1f469; 0x1f3ff; 0x200d; 0x2764; 0xfe0f; 0x200d; 0x1f469; 0x1f3fc];
  [0x1f469; 0x1f3ff; 0x200d; 0x2764; 0xfe0f; 0x200d; 0x1f469; 0x1f3fd];
  [0x1f469; 0x1f3ff; 0x200d; 0x2764; 0xfe0f; 0x200d; 0x1f469; 0x1f3fe];
  [0x1f469; 0x1f3ff; 0x200d; 0x2764; 0xfe0f; 0x200d; 0x1f469; 0x1f3ff];
  [0x1f469; 0x1f3ff; 0x200d; 0x2764; 0xfe0f; 0x200d; 0x1f48b; 0x200d; 0x1f468; 0x1f3fb];
  [0x1f469; 0x1f3ff; 0x200d; 0x2764; 0xfe0f; 0x200d; 0x1f48b; 0x200d; 0x1f468; 0x1f3fc];
  [0x1f469; 0x1f3ff; 0x200d; 0x2764; 0xfe0f; 0x200d; 0x1f48b; 0x200d; 0x1f468; 0x1f3fd];
  [0x1f469; 0x1f3ff; 0x200d; 0x2764; 0xfe0f; 0x200d; 0x1f48b; 0x200d; 0x1f468; 0x1f3fe];
  [0x1f469; 0x1f3ff; 0x200d; 0x2764; 0xfe0f; 0x200d; 0x1f48b; 0x200d; 0x1f468; 0x1f3ff];
  [0x1f469; 0x1f3ff; 0x200d; 0x2764; 0xfe0f; 0x200d; 0x1f48b; 0x200d; 0x1f469; 0x1f3fb];
  [0x1f469; 0x1f3ff; 0x200d; 0x2764; 0xfe0f; 0x200d; 0x1f48b; 0x200d; 0x1f469; 0x1f3fc];
  [0x1f469; 0x1f3ff; 0x200d; 0x2764; 0xfe0f; 0x200d; 0x1f48b; 0x200d; 0x1f469; 0x1f3fd];
  [0x1f469; 0x1f3ff; 0x200d; 0x2764; 0xfe0f; 0x200d; 0x1f48b; 0x200d; 0x1f469; 0x1f3fe];
  [0x1f469; 0x1f3ff; 0x200d; 0x2764; 0xfe0f; 0x200d; 0x1f48b; 0x200d; 0x1f469; 0x1f3ff];
  [0x1f469; 0x1f3ff; 0x200d; 0x1f33e]; [0x1f469; 0x1f3ff; 0x200d; 0x1f373];
  [0x1f469; 0x1f3ff; 0x200d; 0x1f37c]; [0x1f469; 0x1f3ff; 0x200d; 0x1f393];
  [0x1f469; 0x1f3ff; 0x200d; 0x1f3a4]; [0x1f469; 0x1f3ff; 0x200d; 0x1f3a8];
  [0x1f469; 0x1f3ff; 0x200d; 0x1f3eb]; [0x1f469; 0x1f3ff; 0x200d; 0x1f3ed];
  [0x1f469; 0x1f3ff; 0x200d; 0x1f430; 0x200d; 0x1f469; 0x1f3fb];
  [0x1f469; 0x1f3ff; 0x200d; 0x1f430; 0x200d; 0x1f469; 0x1f3fc];
  [0x1f469; 0x1f3ff; 0x200d; 0x1f430; 0x200d; 0x1f469; 0x1f3fd];
  [0x1f469; 0x1f3ff; 0x200d; 0x1f430; 0x200d; 0x1f469; 0x1f3fe];
  [0x1f469; 0x1f3ff; 0x200d; 0x1f4bb]; [0x1f469; 0x1f3ff; 0x200d; 0x1f4bc];
  [0x1f469; 0x1f3ff; 0x200d; 0x1f527]; [0x1f469; 0x1f3ff; 0x200d; 0x1f52c];
  [0x1f469; 0x1f3ff; 0x200d; 0x1f680]; [0x1f469; 0x1f3ff; 0x200d; 0x1f692];
  [0x1f469; 0x1f3ff; 0x200d; 0x1f91d; 0x200d; 0x1f468; 0x1f3fb];
  [0x1f469; 0x1f3ff; 0x200d; 0x1f91d; 0x200d; 0x1f468; 0x1f3fc];
  [0x1f469; 0x1f3ff; 0x200d; 0x1f91d; 0x200d; 0x1f468; 0x1f3fd];
  [0x1f469; 0x1f3ff; 0x200d; 0x1f91d; 0x200d; 0x1f468; 0x1f3fe];
  [0x1f469; 0x1f3ff; 0x200d; 0x1f91d; 0x200d; 0x1f469; 0x1f3fb];
  [0x1f469; 0x1f3ff; 0x200d; 0x1f91d; 0x200d; 0x1f469; 0x1f3fc];
  [0x1f469; 0x1f3ff; 0x200d; 0x1f91d; 0x200d; 0x1f469; 0x1f3fd];
  [0x1f469; 0x1f3ff; 0x200d; 0x1f91d; 0x200d; 0x1f469; 0x1f3fe];
  [0x1f469; 0x1f3ff; 0x200d; 0x1f9af];
  [0x1f469; 0x1f3ff; 0x200d; 0x1f9af; 0x200d; 0x27a1; 0xfe0f];
  [0x1f469; 0x1f3ff; 0x200d; 0x1f9b0]; [0x1f469; 0x1f3ff; 0x200d; 0x1f9b1];
  [0x1f469; 0x1f3ff; 0x200d; 0x1f9b2]; [0x1f469; 0x1f3ff; 0x200d; 0x1f9b3];
  [0x1f469; 0x1f3ff; 0x200d; 0x1f9bc];
  [0x1f469; 0x1f3ff; 0x200d; 0x1f9bc; 0x200d; 0x27a1; 0xfe0f];
  [0x1f469; 0x1f3ff; 0x200d; 0x1f9bd];
  [0x1f469; 0x1f3ff; 0x200d; 0x1f9bd; 0x200d; 0x27a1; 0xfe0f];
  [0x1f469; 0x1f3ff; 0x200d; 0x1faef; 0x200d; 0x1f469; 0x1f3fb];
  [0x1f469; 0x1f3ff; 0x200d; 0x1faef; 0x200d; 0x1f469; 0x1f3fc];
  [0x1f469; 0x1f3ff; 0x200d; 0x1faef; 0x200d; 0x1f469; 0x1f3fd];
  [0x1f469; 0x1f3ff; 0x200d; 0x1faef; 0x200d; 0x1f469; 0x1f3fe]; [0x1f46a]; [0x1f46b];
  [0x1f46b; 0x1f3fb]; [0x1f46b; 0x1f3fc]; [0x1f46b; 0x1f3fd]; [0x1f46b; 0x1f3fe];
  [0x1f46b; 0x1f3ff]; [0x1f46c]; [0x1f46c; 0x1f3fb]; [0x1f46c; 0x1f3fc]; [0x1f46c; 0x1f3fd];
  [0x1f46c; 0x1f3fe]; [0x1f46c; 0x1f3ff]; [0x1f46d]; [0x1f46d; 0x1f3fb]; [0x1f46d; 0x1f3fc];
  [0x1f46d; 0x1f3fd]; [0x1f46d; 0x1f3fe]; [0x1f46d; 0x1f3ff]; [0x1f46e];
  [0x1f46e; 0x200d; 0x2640; 0xfe0f]; [0x1f46e; 0x200d; 0x2642; 0xfe0f]; [0x1f46e; 0x1f3fb];
  [0x1f46e; 0x1f3fb; 0x200d; 0x2640; 0xfe0f]; [0x1f46e; 0x1f3fb; 0x200d; 0x2642; 0xfe0f];
  [0x1f46e; 0x1f3fc]; [0x1f46e; 0x1f3fc; 0x200d; 0x2640; 0xfe0f];
  [0x1f46e; 0x1f3fc; 0x200d; 0x2642; 0xfe0f]; [0x1f46e; 0x1f3fd];
  [0x1f46e; 0x1f3fd; 0x200d; 0x2640; 0xfe0f]; [0x1f46e; 0x1f3fd; 0x200d; 0x2642; 0xfe0f];
  [0x1f46e; 0x1f3fe]; [0x1f46e; 0x1f3fe; 0x200d; 0x2640; 0xfe0f];
  [0x1f46e; 0x1f3fe; 0x200d; 0x2642; 0xfe0f]; [0x1f46e; 0x1f3ff];
  [0x1f46e; 0x1f3ff; 0x200d; 0x2640; 0xfe0f]; [0x1f46e; 0x1f3ff; 0x200d; 0x2642; 0xfe0f];
  [0x1f46f]; [0x1f46f; 0x200d; 0x2640; 0xfe0f]; [0x1f46f; 0x200d; 0x2642; 0xfe0f];
  [0x1f46f; 0x1f3fb]; [0x1f46f; 0x1f3fb; 0x200d; 0x2640; 0xfe0f];
  [0x1f46f; 0x1f3fb; 0x200d; 0x2642; 0xfe0f]; [0x1f46f; 0x1f3fc];
  [0x1f46f; 0x1f3fc; 0x200d; 0x2640; 0xfe0f]; [0x1f46f; 0x1f3fc; 0x200d; 0x2642; 0xfe0f];
  [0x1f46f; 0x1f3fd]; [0x1f46f; 0x1f3fd; 0x200d; 0x2640; 0xfe0f];
  [0x1f46f; 0x1f3fd; 0x200d; 0x2642; 0xfe0f]; [0x1f46f; 0x1f3fe];
  [0x1f46f; 0x1f3fe; 0x200d; 0x2640; 0xfe0f]; [0x1f46f; 0x1f3fe; 0x200d; 0x2642; 0xfe0f];
  [0x1f46f; 0x1f3ff]; [0x1f46f; 0x1f3ff; 0x200d; 0x2640; 0xfe0f];
  [0x1f46f; 0x1f3ff; 0x200d; 0x2642; 0xfe0f]; [0x1f470]; [0x1f470; 0x200d; 0x2640; 0xfe0f];
  [0x1f470; 0x200d; 0x2642; 0xfe0f]; [0x1f470; 0x1f3fb];
  [0x1f470; 0x1f3fb; 0x200d; 0x2640; 0xfe0f]; [0x1f470; 0x1f3fb; 0x200d; 0x2642; 0xfe0f];
  [0x1f470; 0x1f3fc]; [0x1f470; 0x1f3fc; 0x200d; 0x2640; 0xfe0f];
  [0x1f470; 0x1f3fc; 0x200d; 0x2642; 0xfe0f]; [0x1f470; 0x1f3fd];
  [0x1f470; 0x1f3fd; 0x200d; 0x2640; 0xfe0f]; [0x1f470; 0x1f3fd; 0x200d; 0x2642; 0xfe0f];
  [0x1f470; 0x1f3fe]; [0x1f470; 0x1f3fe; 0x200d; 0x2640; 0xfe0f];
  [0x1f470; 0x1f3fe; 0x200d; 0x2642; 0xfe0f]; [0x1f470; 0x1f3ff];
  [0x1f470; 0x1f3ff; 0x200d; 0x2640; 0xfe0f]; [0x1f470; 0x1f3ff; 0x200d; 0x2642; 0xfe0f];
  [0x1f471]; [0x1f471; 0x200d; 0x2640; 0xfe0f]; [0x1f471; 0x200d; 0x2642; 0xfe0f];
  [0x1f471; 0x1f3fb]; [0x1f471; 0x1f3fb; 0x200d; 0x2640; 0xfe0f];
  [0x1f471; 0x1f3fb; 0x200d; 0x2642; 0xfe0f]; [0x1f471; 0x1f3fc];
  [0x1f471; 0x1f3fc; 0x200d; 0x2640; 0xfe0f]; [0x1f471; 0x1f3fc; 0x200d; 0x2642; 0xfe0f];
  [0x1f471; 0x1f3fd]; [0x1f471; 0x1f3fd; 0x200d; 0x2640; 0xfe0f];
  [0x1f471; 0x1f3fd; 0x200d; 0x2642; 0xfe0f]; [0x1f471; 0x1f3fe];
  [0x1f471; 0x1f3fe; 0x200d; 0x2640; 0xfe0f]; [0x1f471; 0x1f3fe; 0x200d; 0x2642; 0xfe0f];
  [0x1f471; 0x1f3ff]; [0x1f471; 0x1f3ff; 0x200d; 0x2640; 0xfe0f];
  [0x1f471; 0x1f3ff; 0x200d; 0x2642; 0xfe0f]; [0x1f472]; [0x1f472; 0x1f3fb]; [0x1f472; 0x1f3fc];
  [0x1f472; 0x1f3fd]; [0x1f472; 0x1f3fe]; [0x1f472; 0x1f3ff]; [0x1f473];
  [0x1f473; 0x200d; 0x2640; 0xfe0f]; [0x1f473; 0x200d; 0x2642; 0xfe0f]; [0x1f473; 0x1f3fb];
  [0x1f473; 0x1f3fb; 0x200d; 0x2640; 0xfe0f]; [0x1f473; 0x1f3fb; 0x200d; 0x2642; 0xfe0f];
  [0x1f473; 0x1f3fc]; [0x1f473; 0x1f3fc; 0x200d; 0x2640; 0xfe0f];
  [0x1f473; 0x1f3fc; 0x200d; 0x2642; 0xfe0f]; [0x1f473; 0x1f3fd];
  [0x1f473; 0x1f3fd; 0x200d; 0x2640; 0xfe0f]; [0x1f473; 0x1f3fd; 0x200d; 0x2642; 0xfe0f];
  [0x1f473; 0x1f3fe]; [0x1f473; 0x1f3fe; 0x200d; 0x2640; 0xfe0f];
  [0x1f473; 0x1f3fe; 0x200d; 0x2642; 0xfe0f]; [0x1f473; 0x1f3ff];
  [0x1f473; 0x1f3ff; 0x200d; 0x2640; 0xfe0f]; [0x1f473; 0x1f3ff; 0x200d; 0x2642; 0xfe0f];
  [0x1f474]; [0x1f474; 0x1f3fb]; [0x1f474; 0x1f3fc]; [0x1f474; 0x1f3fd]; [0x1f474; 0x1f3fe];
  [0x1f474; 0x1f3ff]; [0x1f475]; [0x1f475; 0x1f3fb]; [0x1f475; 0x1f3fc]; [0x1f475; 0x1f3fd];
  [0x1f475; 0x1f3fe]; [0x1f475; 0x1f3ff]; [0x1f476]; [0x1f476; 0x1f3fb]; [0x1f476; 0x1f3fc];
  [0x1f476; 0x1f3fd]; [0x1f476; 0x1f3fe]; [0x1f476; 0x1f3ff]; [0x1f477];
  [0x1f477; 0x200d; 0x2640; 0xfe0f]; [0x1f477; 0x200d; 0x2642; 0xfe0f]; [0x1f477; 0x1f3fb];
  [0x1f477; 0x1f3fb; 0x200d; 0x2640; 0xfe0f]; [0x1f477; 0x1f3fb; 0x200d; 0x2642; 0xfe0f];
  [0x1f477; 0x1f3fc]; [0x1f477; 0x1f3fc; 0x200d; 0x2640; 0xfe0f];
  [0x1f477; 0x1f3fc; 0x200d; 0x2642; 0xfe0f]; [0x1f477; 0x1f3fd];
  [0x1f477; 0x1f3fd; 0x200d; 0x2640; 0xfe0f]; [0x1f477; 0x1f3fd; 0x200d; 0x2642; 0xfe0f];
  [0x1f477; 0x1f3fe]; [0x1f477; 0x1f3fe; 0x200d; 0x2640; 0xfe0f];
  [0x1f477; 0x1f3fe; 0x200d; 0x2642; 0xfe0f]; [0x1f477; 0x1f3ff];
  [0x1f477; 0x1f3ff; 0x200d; 0x2640; 0xfe0f]; [0x1f477; 0x1f3ff; 0x200d; 0x2642; 0xfe0f];
  [0x1f478]; [0x1f478; 0x1f3fb]; [0x1f478; 0x1f3fc]; [0x1f478; 0x1f3fd]; [0x1f478; 0x1f3fe];
  [0x1f478; 0x1f3ff]; [0x1f479]; [0x1f47a]; [0x1f47b]; [0x1f47c]; [0x1f47c; 0x1f3fb];
  [0x1f47c; 0x1f3fc]; [0x1f47c; 0x1f3fd]; [0x1f47c; 0x1f3fe]; [0x1f47c; 0x1f3ff]; [0x1f47d];
  [0x1f47e]; [0x1f47f]; [0x1f480]; [0x1f481]; [0x1f481; 0x200d; 0x2640; 0xfe0f];
  [0x1f481; 0x200d; 0x2642; 0xfe0f]; [0x1f481; 0x1f3fb];
  [0x1f481; 0x1f3fb; 0x200d; 0x2640; 0xfe0f]; [0x1f481; 0x1f3fb; 0x200d; 0x2642; 0xfe0f];
  [0x1f481; 0x1f3fc]; [0x1f481; 0x1f3fc; 0x200d; 0x2640; 0xfe0f];
  [0x1f481; 0x1f3fc; 0x200d; 0x2642; 0xfe0f]; [0x1f481; 0x1f3fd];
  [0x1f481; 0x1f3fd; 0x200d; 0x2640; 0xfe0f]; [0x1f481; 0x1f3fd; 0x200d; 0x2642; 0xfe0f];
  [0x1f481; 0x1f3fe]; [0x1f481; 0x1f3fe; 0x200d; 0x2640; 0xfe0f];
  [0x1f481; 0x1f3fe; 0x200d; 0x2642; 0xfe0f]; [0x1f481; 0x1f3ff];
  [0x1f481; 0x1f3ff; 0x200d; 0x2640; 0xfe0f]; [0x1f481; 0x1f3ff; 0x200d; 0x2642; 0xfe0f];
  [0x1f482]; [0x1f482; 0x200d; 0x2640; 0xfe0f]; [0x1f482; 0x200d; 0x2642; 0xfe0f];
  [0x1f482; 0x1f3fb]; [0x1f482; 0x1f3fb; 0x200d; 0x2640; 0xfe0f];
  [0x1f482; 0x1f3fb; 0x200d; 0x2642; 0xfe0f]; [0x1f482; 0x1f3fc];
  [0x1f482; 0x1f3fc; 0x200d; 0x2640; 0xfe0f]; [0x1f482; 0x1f3fc; 0x200d; 0x2642; 0xfe0f];
  [0x1f482; 0x1f3fd]; [0x1f482; 0x1f3fd; 0x200d; 0x2640; 0xfe0f];
  [0x1f482; 0x1f3fd; 0x200d; 0x2642; 0xfe0f]; [0x1f482; 0x1f3fe];
  [0x1f482; 0x1f3fe; 0x200d; 0x2640; 0xfe0f]; [0x1f482; 0x1f3fe; 0x200d; 0x2642; 0xfe0f];
  [0x1f482; 0x1f3ff]; [0x1f482; 0x1f3ff; 0x200d; 0x2640; 0xfe0f];
  [0x1f482; 0x1f3ff; 0x200d; 0x2642; 0xfe0f]; [0x1f483]; [0x1f483; 0x1f3fb]; [0x1f483; 0x1f3fc];
  [0x1f483; 0x1f3fd]; [0x1f483; 0x1f3fe]; [0x1f483; 0x1f3ff]; [0x1f484]; [0x1f485];
  [0x1f485; 0x1f3fb]; [0x1f485; 0x1f3fc]; [0x1f485; 0x1f3fd]; [0x1f485; 0x1f3fe];
  [0x1f485; 0x1f3ff]; [0x1f486]; [0x1f486; 0x200d; 0x2640; 0xfe0f];
  [0x1f486; 0x200d; 0x2642; 0xfe0f]; [0x1f486; 0x1f3fb];
  [0x1f486; 0x1f3fb; 0x200d; 0x2640; 0xfe0f]; [0x1f486; 0x1f3fb; 0x200d; 0x2642; 0xfe0f];
  [0x1f486; 0x1f3fc]; [0x1f486; 0x1f3fc; 0x200d; 0x2640; 0xfe0f];
  [0x1f486; 0x1f3fc; 0x200d; 0x2642; 0xfe0f]; [0x1f486; 0x1f3fd];
  [0x1f486; 0x1f3fd; 0x200d; 0x2640; 0xfe0f]; [0x1f486; 0x1f3fd; 0x200d; 0x2642; 0xfe0f];
  [0x1f486; 0x1f3fe]; [0x1f486; 0x1f3fe; 0x200d; 0x2640; 0xfe0f];
  [0x1f486; 0x1f3fe; 0x200d; 0x2642; 0xfe0f]; [0x1f486; 0x1f3ff];
  [0x1f486; 0x1f3ff; 0x200d; 0x2640; 0xfe0f]; [0x1f486; 0x1f3ff; 0x200d; 0x2642; 0xfe0f];
  [0x1f487]; [0x1f487; 0x200d; 0x2640; 0xfe0f]; [0x1f487; 0x200d; 0x2642; 0xfe0f];
  [0x1f487; 0x1f3fb]; [0x1f487; 0x1f3fb; 0x200d; 0x2640; 0xfe0f];
  [0x1f487; 0x1f3fb; 0x200d; 0x2642; 0xfe0f]; [0x1f487; 0x1f3fc];
  [0x1f487; 0x1f3fc; 0x200d; 0x2640; 0xfe0f]; [0x1f487; 0x1f3fc; 0x200d; 0x2642; 0xfe0f];
  [0x1f487; 0x1f3fd]; [0x1f487; 0x1f3fd; 0x200d; 0x2640; 0xfe0f];
  [0x1f487; 0x1f3fd; 0x200d; 0x2642; 0xfe0f]; [0x1f487; 0x1f3fe];
  [0x1f487; 0x1f3fe; 0x200d; 0x2640; 0xfe0f]; [0x1f487; 0x1f3fe; 0x200d; 0x2642; 0xfe0f];
  [0x1f487; 0x1f3ff]; [0x1f487; 0x1f3ff; 0x200d; 0x2640; 0xfe0f];
  [0x1f487; 0x1f3ff; 0x200d; 0x2642; 0xfe0f]; [0x1f488]; [0x1f489]; [0x1f48a]; [0x1f48b];
  [0x1f48c]; [0x1f48d]; [0x1f48e]; [0x1f48f]; [0x1f48f; 0x1f3fb]; [0x1f48f; 0x1f3fc];
  [0x1f48f; 0x1f3fd]; [0x1f48f; 0x1f3fe]; [0x1f48f; 0x1f3ff]; [0x1f490]; [0x1f491];
  [0x1f491; 0x1f3fb]; [0x1f491; 0x1f3fc]; [0x1f491; 0x1f3fd]; [0x1f491; 0x1f3fe];
  [0x1f491; 0x1f3ff]; [0x1f492]; [0x1f493]; [0x1f494]; [0x1f495]; [0x1f496]; [0x1f497];
  [0x1f498]; [0x1f499]; [0x1f49a]; [0x1f49b]; [0x1f49c]; [0x1f49d]; [0x1f49e]; [0x1f49f];
  [0x1f4a0]; [0x1f4a1]; [0x1f4a2]; [0x1f4a3]; [0x1f4a4]; [0x1f4a5]; [0x1f4a6]; [0x1f4a7];
  [0x1f4a8]; [0x1f4a9]; [0x1f4aa]; [0x1f4aa; 0x1f3fb]; [0x1f4aa; 0x1f3fc]; [0x1f4aa; 0x1f3fd];
  [0x1f4aa; 0x1f3fe]; [0x1f4aa; 0x1f3ff]; [0x1f4ab]; [0x1f4ac]; [0x1f4ad]; [0x1f4ae]; [0x1f4af];
  [0x1f4b0]; [0x1f4b1]; [0x1f4b2]; [0x1f4b3]; [0x1f4b4]; [0x1f4b5]; [0x1f4b6]; [0x1f4b7];
  [0x1f4b8]; [0x1f4b9]; [0x1f4ba]; [0x1f4bb]; [0x1f4bc]; [0x1f4bd]; [0x1f4be]; [0x1f4bf];
  [0x1f4c0]; [0x1f4c1]; [0x1f4c2]; [0x1f4c3]; [0x1f4c4]; [0x1f4c5]; [0x1f4c6]; [0x1f4c7];
  [0x1f4c8]; [0x1f4c9]; [0x1f4ca]; [0x1f4cb]; [0x1f4cc]; [0x1f4cd]; [0x1f4ce]; [0x1f4cf];
  [0x1f4d0]; [0x1f4d1]; [0x1f4d2]; [0x1f4d3]; [0x1f4d4]; [0x1f4d5]; [0x1f4d6]; [0x1f4d7];
  [0x1f4d8]; [0x1f4d9]; [0x1f4da]; [0x1f4db]; [0x1f4dc]; [0x1f4dd]; [0x1f4de]; [0x1f4df];
  [0x1f4e0]; [0x1f4e1]; [0x1f4e2]; [0x1f4e3]; [0x1f4e4]; [0x1f4e5]; [0x1f4e6]; [0x1f4e7];
  [0x1f4e8]; [0x1f4e9]; [0x1f4ea]; [0x1f4eb]; [0x1f4ec]; [0x1f4ed]; [0x1f4ee]; [0x1f4ef];
  [0x1f4f0]; [0x1f4f1]; [0x1f4f2]; [0x1f4f3]; [0x1f4f4]; [0x1f4f5]; [0x1f4f6]; [0x1f4f7];
  [0x1f4f8]; [0x1f4f9]; [0x1f4fa]; [0x1f4fb]; [0x1f4fc]; [0x1f4fd; 0xfe0f]; [0x1f4ff]; [0x1f500];
  [0x1f501]; [0x1f502]; [0x1f503]; [0x1f504]; [0x1f505]; [0x1f506]; [0x1f507]; [0x1f508];
  [0x1f509]; [0x1f50a]; [0x1f50b]; [0x1f50c]; [0x1f50d]; [0x1f50e]; [0x1f50f]; [0x1f510];
  [0x1f511]; [0x1f512]; [0x1f513]; [0x1f514]; [0x1f515]; [0x1f516]; [0x1f517]; [0x1f518];
  [0x1f519]; [0x1f51a]; [0x1f51b]; [0x1f51c]; [0x1f51d]; [0x1f51e]; [0x1f51f]; [0x1f520];
  [0x1f521]; [0x1f522]; [0x1f523]; [0x1f524]; [0x1f525]; [0x1f526]; [0x1f527]; [0x1f528];
  [0x1f529]; [0x1f52a]; [0x1f52b]; [0x1f52c]; [0x1f52d]; [0x1f52e]; [0x1f52f]; [0x1f530];
  [0x1f531]; [0x1f532]; [0x1f533]; [0x1f534]; [0x1f535]; [0x1f536]; [0x1f537]; [0x1f538];
  [0x1f539]; [0x1f53a]; [0x1f53b]; [0x1f53c]; [0x1f53d]; [0x1f549; 0xfe0f]; [0x1f54a; 0xfe0f];
  [0x1f54b]; [0x1f54c]; [0x1f54d]; [0x1f54e]; [0x1f550]; [0x1f551]; [0x1f552]; [0x1f553];
  [0x1f554]; [0x1f555]; [0x1f556]; [0x1f557]; [0x1f558]; [0x1f559]; [0x1f55a]; [0x1f55b];
  [0x1f55c]; [0x1f55d]; [0x1f55e]; [0x1f55f]; [0x1f560]; [0x1f561]; [0x1f562]; [0x1f563];
  [0x1f564]; [0x1f565]; [0x1f566]; [0x1f567]; [0x1f56f; 0xfe0f]; [0x1f570; 0xfe0f];
  [0x1f573; 0xfe0f]; [0x1f574; 0xfe0f]; [0x1f574; 0x1f3fb]; [0x1f574; 0x1f3fc];
  [0x1f574; 0x1f3fd]; [0x1f574; 0x1f3fe]; [0x1f574; 0x1f3ff]; [0x1f575; 0xfe0f];
  [0x1f575; 0xfe0f; 0x200d; 0x2640; 0xfe0f]; [0x1f575; 0xfe0f; 0x200d; 0x2642; 0xfe0f];
  [0x1f575; 0x1f3fb]; [0x1f575; 0x1f3fb; 0x200d; 0x2640; 0xfe0f];
  [0x1f575; 0x1f3fb; 0x200d; 0x2642; 0xfe0f]; [0x1f575; 0x1f3fc];
  [0x1f575; 0x1f3fc; 0x200d; 0x2640; 0xfe0f]; [0x1f575; 0x1f3fc; 0x200d; 0x2642; 0xfe0f];
  [0x1f575; 0x1f3fd]; [0x1f575; 0x1f3fd; 0x200d; 0x2640; 0xfe0f];
  [0x1f575; 0x1f3fd; 0x200d; 0x2642; 0xfe0f]; [0x1f575; 0x1f3fe];
  [0x1f575; 0x1f3fe; 0x200d; 0x2640; 0xfe0f]; [0x1f575; 0x1f3fe; 0x200d; 0x2642; 0xfe0f];
  [0x1f575; 0x1f3ff]; [0x1f575; 0x1f3ff; 0x200d; 0x2640; 0xfe0f];
  [0x1f575; 0x1f3ff; 0x200d; 0x2642; 0xfe0f]; [0x1f576; 0xfe0f]; [0x1f577; 0xfe0f];
  [0x1f578; 0xfe0f]; [0x1f579; 0xfe0f]; [0x1f57a]; [0x1f57a; 0x1f3fb]; [0x1f57a; 0x1f3fc];
  [0x1f57a; 0x1f3fd]; [0x1f57a; 0x1f3fe]; [0x1f57a; 0x1f3ff]; [0x1f587; 0xfe0f];
  [0x1f58a; 0xfe0f]; [0x1f58b; 0xfe0f]; [0x1f58c; 0xfe0f]; [0x1f58d; 0xfe0f]; [0x1f590; 0xfe0f];
  [0x1f590; 0x1f3fb]; [0x1f590; 0x1f3fc]; [0x1f590; 0x1f3fd]; [0x1f590; 0x1f3fe];
  [0x1f590; 0x1f3ff]; [0x1f595]; [0x1f595; 0x1f3fb]; [0x1f595; 0x1f3fc]; [0x1f595; 0x1f3fd];
  [0x1f595; 0x1f3fe]; [0x1f595; 0x1f3ff]; [0x1f596]; [0x1f596; 0x1f3fb]; [0x1f596; 0x1f3fc];
  [0x1f596; 0x1f3fd]; [0x1f596; 0x1f3fe]; [0x1f596; 0x1f3ff]; [0x1f5a4]; [0x1f5a5; 0xfe0f];
  [0x1f5a8; 0xfe0f]; [0x1f5b1; 0xfe0f]; [0x1f5b2; 0xfe0f]; [0x1f5bc; 0xfe0f]; [0x1f5c2; 0xfe0f];
  [0x1f5c3; 0xfe0f]; [0x1f5c4; 0xfe0f]; [0x1f5d1; 0xfe0f]; [0x1f5d2; 0xfe0f]; [0x1f5d3; 0xfe0f];
  [0x1f5dc; 0xfe0f]; [0x1f5dd; 0xfe0f]; [0x1f5de; 0xfe0f]; [0x1f5e1; 0xfe0f]; [0x1f5e3; 0xfe0f];
  [0x1f5e8; 0xfe0f]; [0x1f5ef; 0xfe0f]; [0x1f5f3; 0xfe0f]; [0x1f5fa; 0xfe0f]; [0x1f5fb];
  [0x1f5fc]; [0x1f5fd]; [0x1f5fe]; [0x1f5ff]; [0x1f600]; [0x1f601]; [0x1f602]; [0x1f603];
  [0x1f604]; [0x1f605]; [0x1f606]; [0x1f607]; [0x1f608]; [0x1f609]; [0x1f60a]; [0x1f60b];
  [0x1f60c]; [0x1f60d]; [0x1f60e]; [0x1f60f]; [0x1f610]; [0x1f611]; [0x1f612]; [0x1f613];
  [0x1f614]; [0x1f615]; [0x1f616]; [0x1f617]; [0x1f618]; [0x1f619]; [0x1f61a]; [0x1f61b];
  [0x1f61c]; [0x1f61d]; [0x1f61e]; [0x1f61f]; [0x1f620]; [0x1f621]; [0x1f622]; [0x1f623];
  [0x1f624]; [0x1f625]; [0x1f626]; [0x1f627]; [0x1f628]; [0x1f629]; [0x1f62a]; [0x1f62b];
  [0x1f62c]; [0x1f62d]; [0x1f62e]; [0x1f62e; 0x200d; 0x1f4a8]; [0x1f62f]; [0x1f630]; [0x1f631];
  [0x1f632]; [0x1f633]; [0x1f634]; [0x1f635]; [0x1f635; 0x200d; 0x1f4ab]; [0x1f636];
  [0x1f636; 0x200d; 0x1f32b; 0xfe0f]; [0x1f637]; [0x1f638]; [0x1f639]; [0x1f63a]; [0x1f63b];
  [0x1f63c]; [0x1f63d]; [0x1f63e]; [0x1f63f]; [0x1f640]; [0x1f641]; [0x1f642];
  [0x1f642; 0x200d; 0x2194; 0xfe0f]; [0x1f642; 0x200d; 0x2195; 0xfe0f]; [0x1f643]; [0x1f644];
  [0x1f645]; [0x1f645; 0x200d; 0x2640; 0xfe0f]; [0x1f645; 0x200d; 0x2642; 0xfe0f];
  [0x1f645; 0x1f3fb]; [0x1f645; 0x1f3fb; 0x200d; 0x2640; 0xfe0f];
  [0x1f645; 0x1f3fb; 0x200d; 0x2642; 0xfe0f]; [0x1f645; 0x1f3fc];
  [0x1f645; 0x1f3fc; 0x200d; 0x2640; 0xfe0f]; [0x1f645; 0x1f3fc; 0x200d; 0x2642; 0xfe0f];
  [0x1f645; 0x1f3fd]; [0x1f645; 0x1f3fd; 0x200d; 0x2640; 0xfe0f];
  [0x1f645; 0x1f3fd; 0x200d; 0x2642; 0xfe0f]; [0x1f645; 0x1f3fe];
  [0x1f645; 0x1f3fe; 0x200d; 0x2640; 0xfe0f]; [0x1f645; 0x1f3fe; 0x200d; 0x2642; 0xfe0f];
  [0x1f645; 0x1f3ff]; [0x1f645; 0x1f3ff; 0x200d; 0x2640; 0xfe0f];
  [0x1f645; 0x1f3ff; 0x200d; 0x2642; 0xfe0f]; [0x1f646]; [0x1f646; 0x200d; 0x2640; 0xfe0f];
  [0x1f646; 0x200d; 0x2642; 0xfe0f]; [0x1f646; 0x1f3fb];
  [0x1f646; 0x1f3fb; 0x200d; 0x2640; 0xfe0f]; [0x1f646; 0x1f3fb; 0x200d; 0x2642; 0xfe0f];
  [0x1f646; 0x1f3fc]; [0x1f646; 0x1f3fc; 0x200d; 0x2640; 0xfe0f];
  [0x1f646; 0x1f3fc; 0x200d; 0x2642; 0xfe0f]; [0x1f646; 0x1f3fd];
  [0x1f646; 0x1f3fd; 0x200d; 0x2640; 0xfe0f]; [0x1f646; 0x1f3fd; 0x200d; 0x2642; 0xfe0f];
  [0x1f646; 0x1f3fe]; [0x1f646; 0x1f3fe; 0x200d; 0x2640; 0xfe0f];
  [0x1f646; 0x1f3fe; 0x200d; 0x2642; 0xfe0f]; [0x1f646; 0x1f3ff];
  [0x1f646; 0x1f3ff; 0x200d; 0x2640; 0xfe0f]; [0x1f646; 0x1f3ff; 0x200d; 0x2642; 0xfe0f];
  [0x1f647]; [0x1f647; 0x200d; 0x2640; 0xfe0f]; [0x1f647; 0x200d; 0x2642; 0xfe0f];
  [0x1f647; 0x1f3fb]; [0x1f647; 0x1f3fb; 0x200d; 0x2640; 0xfe0f];
  [0x1f647; 0x1f3fb; 0x200d; 0x2642; 0xfe0f]; [0x1f647; 0x1f3fc];
  [0x1f647; 0x1f3fc; 0x200d; 0x2640; 0xfe0f]; [0x1f647; 0x1f3fc; 0x200d; 0x2642; 0xfe0f];
  [0x1f647; 0x1f3fd]; [0x1f647; 0x1f3fd; 0x200d; 0x2640; 0xfe0f];
  [0x1f647; 0x1f3fd; 0x200d; 0x2642; 0xfe0f]; [0x1f647; 0x1f3fe];
  [0x1f647; 0x1f3fe; 0x200d; 0x2640; 0xfe0f]; [0x1f647; 0x1f3fe; 0x200d; 0x2642; 0xfe0f];
  [0x1f647; 0x1f3ff]; [0x1f647; 0x1f3ff; 0x200d; 0x2640; 0xfe0f];
  [0x1f647; 0x1f3ff; 0x200d; 0x2642; 0xfe0f]; [0x1f648]; [0x1f649]; [0x1f64a]; [0x1f64b];
  [0x1f64b; 0x200d; 0x2640; 0xfe0f]; [0x1f64b; 0x200d; 0x2642; 0xfe0f]; [0x1f64b; 0x1f3fb];
  [0x1f64b; 0x1f3fb; 0x200d; 0x2640; 0xfe0f]; [0x1f64b; 0x1f3fb; 0x200d; 0x2642; 0xfe0f];
  [0x1f64b; 0x1f3fc]; [0x1f64b; 0x1f3fc; 0x200d; 0x2640; 0xfe0f];
  [0x1f64b; 0x1f3fc; 0x200d; 0x2642; 0xfe0f]; [0x1f64b; 0x1f3fd];
  [0x1f64b; 0x1f3fd; 0x200d; 0x2640; 0xfe0f]; [0x1f64b; 0x1f3fd; 0x200d; 0x2642; 0xfe0f];
  [0x1f64b; 0x1f3fe]; [0x1f64b; 0x1f3fe; 0x200d; 0x2640; 0xfe0f];
  [0x1f64b; 0x1f3fe; 0x200d; 0x2642; 0xfe0f]; [0x1f64b; 0x1f3ff];
  [0x1f64b; 0x1f3ff; 0x200d; 0x2640; 0xfe0f]; [0x1f64b; 0x1f3ff; 0x200d; 0x2642; 0xfe0f];
  [0x1f64c]; [0x1f64c; 0x1f3fb]; [0x1f64c; 0x1f3fc]; [0x1f64c; 0x1f3fd]; [0x1f64c; 0x1f3fe];
  [0x1f64c; 0x1f3ff]; [0x1f64d]; [0x1f64d; 0x200d; 0x2640; 0xfe0f];
  [0x1f64d; 0x200d; 0x2642; 0xfe0f]; [0x1f64d; 0x1f3fb];
  [0x1f64d; 0x1f3fb; 0x200d; 0x2640; 0xfe0f]; [0x1f64d; 0x1f3fb; 0x200d; 0x2642; 0xfe0f];
  [0x1f64d; 0x1f3fc]; [0x1f64d; 0x1f3fc; 0x200d; 0x2640; 0xfe0f];
  [0x1f64d; 0x1f3fc; 0x200d; 0x2642; 0xfe0f]; [0x1f64d; 0x1f3fd];
  [0x1f64d; 0x1f3fd; 0x200d; 0x2640; 0xfe0f]; [0x1f64d; 0x1f3fd; 0x200d; 0x2642; 0xfe0f];
  [0x1f64d; 0x1f3fe]; [0x1f64d; 0x1f3fe; 0x200d; 0x2640; 0xfe0f];
  [0x1f64d; 0x1f3fe; 0x200d; 0x2642; 0xfe0f]; [0x1f64d; 0x1f3ff];
  [0x1f64d; 0x1f3ff; 0x200d; 0x2640; 0xfe0f]; [0x1f64d; 0x1f3ff; 0x200d; 0x2642; 0xfe0f];
  [0x1f64e]; [0x1f64e; 0x200d; 0x2640; 0xfe0f]; [0x1f64e; 0x200d; 0x2642; 0xfe0f];
  [0x1f64e; 0x1f3fb]; [0x1f64e; 0x1f3fb; 0x200d; 0x2640; 0xfe0f];
  [0x1f64e; 0x1f3fb; 0x200d; 0x2642; 0xfe0f]; [0x1f64e; 0x1f3fc];
  [0x1f64e; 0x1f3fc; 0x200d; 0x2640; 0xfe0f]; [0x1f64e; 0x1f3fc; 0x200d; 0x2642; 0xfe0f];
  [0x1f64e; 0x1f3fd]; [0x1f64e; 0x1f3fd; 0x200d; 0x2640; 0xfe0f];
  [0x1f64e; 0x1f3fd; 0x200d; 0x2642; 0xfe0f]; [0x1f64e; 0x1f3fe];
  [0x1f64e; 0x1f3fe; 0x200d; 0x2640; 0xfe0f]; [0x1f64e; 0x1f3fe; 0x200d; 0x2642; 0xfe0f];
  [0x1f64e; 0x1f3ff]; [0x1f64e; 0x1f3ff; 0x200d; 0x2640; 0xfe0f];
  [0x1f64e; 0x1f3ff; 0x200d; 0x2642; 0xfe0f]; [0x1f64f]; [0x1f64f; 0x1f3fb]; [0x1f64f; 0x1f3fc];
  [0x1f64f; 0x1f3fd]; [0x1f64f; 0x1f3fe]; [0x1f64f; 0x1f3ff]; [0x1f680]; [0x1f681]; [0x1f682];
  [0x1f683]; [0x1f684]; [0x1f685]; [0x1f686]; [0x1f687]; [0x1f688]; [0x1f689]; [0x1f68a];
  [0x1f68b]; [0x1f68c]; [0x1f68d]; [0x1f68e]; [0x1f68f]; [0x1f690]; [0x1f691]; [0x1f692];
  [0x1f693]; [0x1f694]; [0x1f695]; [0x1f696]; [0x1f697]; [0x1f698]; [0x1f699]; [0x1f69a];
  [0x1f69b]; [0x1f69c]; [0x1f69d]; [0x1f69e]; [0x1f69f]; [0x1f6a0]; [0x1f6a1]; [0x1f6a2];
  [0x1f6a3]; [0x1f6a3; 0x200d; 0x2640; 0xfe0f]; [0x1f6a3; 0x200d; 0x2642; 0xfe0f];
  [0x1f6a3; 0x1f3fb]; [0x1f6a3; 0x1f3fb; 0x200d; 0x2640; 0xfe0f];
  [0x1f6a3; 0x1f3fb; 0x200d; 0x2642; 0xfe0f]; [0x1f6a3; 0x1f3fc];
  [0x1f6a3; 0x1f3fc; 0x200d; 0x2640; 0xfe0f]; [0x1f6a3; 0x1f3fc; 0x200d; 0x2642; 0xfe0f];
  [0x1f6a3; 0x1f3fd]; [0x1f6a3; 0x1f3fd; 0x200d; 0x2640; 0xfe0f];
  [0x1f6a3; 0x1f3fd; 0x200d; 0x2642; 0xfe0f]; [0x1f6a3; 0x1f3fe];
  [0x1f6a3; 0x1f3fe; 0x200d; 0x2640; 0xfe0f]; [0x1f6a3; 0x1f3fe; 0x200d; 0x2642; 0xfe0f];
  [0x1f6a3; 0x1f3ff]; [0x1f6a3; 0x1f3ff; 0x200d; 0x2640; 0xfe0f];
  [0x1f6a3; 0x1f3ff; 0x200d; 0x2642; 0xfe0f]; [0x1f6a4]; [0x1f6a5]; [0x1f6a6]; [0x1f6a7];
  [0x1f6a8]; [0x1f6a9]; [0x1f6aa]; [0x1f6ab]; [0x1f6ac]; [0x1f6ad]; [0x1f6ae]; [0x1f6af];
  [0x1f6b0]; [0x1f6b1]; [0x1f6b2]; [0x1f6b3]; [0x1f6b4]; [0x1f6b4; 0x200d; 0x2640; 0xfe0f];
  [0x1f6b4; 0x200d; 0x2642; 0xfe0f]; [0x1f6b4; 0x1f3fb];
  [0x1f6b4; 0x1f3fb; 0x200d; 0x2640; 0xfe0f]; [0x1f6b4; 0x1f3fb; 0x200d; 0x2642; 0xfe0f];
  [0x1f6b4; 0x1f3fc]; [0x1f6b4; 0x1f3fc; 0x200d; 0x2640; 0xfe0f];
  [0x1f6b4; 0x1f3fc; 0x200d; 0x2642; 0xfe0f]; [0x1f6b4; 0x1f3fd];
  [0x1f6b4; 0x1f3fd; 0x200d; 0x2640; 0xfe0f]; [0x1f6b4; 0x1f3fd; 0x200d; 0x2642; 0xfe0f];
  [0x1f6b4; 0x1f3fe]; [0x1f6b4; 0x1f3fe; 0x200d; 0x2640; 0xfe0f];
  [0x1f6b4; 0x1f3fe; 0x200d; 0x2642; 0xfe0f]; [0x1f6b4; 0x1f3ff];
  [0x1f6b4; 0x1f3ff; 0x200d; 0x2640; 0xfe0f]; [0x1f6b4; 0x1f3ff; 0x200d; 0x2642; 0xfe0f];
  [0x1f6b5]; [0x1f6b5; 0x200d; 0x2640; 0xfe0f]; [0x1f6b5; 0x200d; 0x2642; 0xfe0f];
  [0x1f6b5; 0x1f3fb]; [0x1f6b5; 0x1f3fb; 0x200d; 0x2640; 0xfe0f];
  [0x1f6b5; 0x1f3fb; 0x200d; 0x2642; 0xfe0f]; [0x1f6b5; 0x1f3fc];
  [0x1f6b5; 0x1f3fc; 0x200d; 0x2640; 0xfe0f]; [0x1f6b5; 0x1f3fc; 0x200d; 0x2642; 0xfe0f];
  [0x1f6b5; 0x1f3fd]; [0x1f6b5; 0x1f3fd; 0x200d; 0x2640; 0xfe0f];
  [0x1f6b5; 0x1f3fd; 0x200d; 0x2642; 0xfe0f]; [0x1f6b5; 0x1f3fe];
  [0x1f6b5; 0x1f3fe; 0x200d; 0x2640; 0xfe0f]; [0x1f6b5; 0x1f3fe; 0x200d; 0x2642; 0xfe0f];
  [0x1f6b5; 0x1f3ff]; [0x1f6b5; 0x1f3ff; 0x200d; 0x2640; 0xfe0f];
  [0x1f6b5; 0x1f3ff; 0x200d; 0x2642; 0xfe0f]; [0x1f6b6]; [0x1f6b6; 0x200d; 0x2640; 0xfe0f];
  [0x1f6b6; 0x200d; 0x2640; 0xfe0f; 0x200d; 0x27a1; 0xfe0f]; [0x1f6b6; 0x200d; 0x2642; 0xfe0f];
  [0x1f6b6; 0x200d; 0x2642; 0xfe0f; 0x200d; 0x27a1; 0xfe0f]; [0x1f6b6; 0x200d; 0x27a1; 0xfe0f];
  [0x1f6b6; 0x1f3fb]; [0x1f6b6; 0x1f3fb; 0x200d; 0x2640; 0xfe0f];
  [0x1f6b6; 0x1f3fb; 0x200d; 0x2640; 0xfe0f; 0x200d; 0x27a1; 0xfe0f];
  [0x1f6b6; 0x1f3fb; 0x200d; 0x2642; 0xfe0f];
  [0x1f6b6; 0x1f3fb; 0x200d; 0x2642; 0xfe0f; 0x200d; 0x27a1; 0xfe0f];
  [0x1f6b6; 0x1f3fb; 0x200d; 0x27a1; 0xfe0f]; [0x1f6b6; 0x1f3fc];
  [0x1f6b6; 0x1f3fc; 0x200d; 0x2640; 0xfe0f];
  [0x1f6b6; 0x1f3fc; 0x200d; 0x2640; 0xfe0f; 0x200d; 0x27a1; 0xfe0f];
  [0x1f6b6; 0x1f3fc; 0x200d; 0x2642; 0xfe0f];
  [0x1f6b6; 0x1f3fc; 0x200d; 0x2642; 0xfe0f; 0x200d; 0x27a1; 0xfe0f];
  [0x1f6b6; 0x1f3fc; 0x200d; 0x27a1; 0xfe0f]; [0x1f6b6; 0x1f3fd];
  [0x1f6b6; 0x1f3fd; 0x200d; 0x2640; 0xfe0f];
  [0x1f6b6; 0x1f3fd; 0x200d; 0x2640; 0xfe0f; 0x200d; 0x27a1; 0xfe0f];
  [0x1f6b6; 0x1f3fd; 0x200d; 0x2642; 0xfe0f];
  [0x1f6b6; 0x1f3fd; 0x200d; 0x2642; 0xfe0f; 0x200d; 0x27a1; 0xfe0f];
  [0x1f6b6; 0x1f3fd; 0x200d; 0x27a1; 0xfe0f]; [0x1f6b6; 0x1f3fe];
  [0x1f6b6; 0x1f3fe; 0x200d; 0x2640; 0xfe0f];
  [0x1f6b6; 0x1f3fe; 0x200d; 0x2640; 0xfe0f; 0x200d; 0x27a1; 0xfe0f];
  [0x1f6b6; 0x1f3fe; 0x200d; 0x2642; 0xfe0f];
  [0x1f6b6; 0x1f3fe; 0x200d; 0x2642; 0xfe0f; 0x200d; 0x27a1; 0xfe0f];
  [0x1f6b6; 0x1f3fe; 0x200d; 0x27a1; 0xfe0f]; [0x1f6b6; 0x1f3ff];
  [0x1f6b6; 0x1f3ff; 0x200d; 0x2640; 0xfe0f];
  [0x1f6b6; 0x1f3ff; 0x200d; 0x2640; 0xfe0f; 0x200d; 0x27a1; 0xfe0f];
  [0x1f6b6; 0x1f3ff; 0x200d; 0x2642; 0xfe0f];
  [0x1f6b6; 0x1f3ff; 0x200d; 0x2642; 0xfe0f; 0x200d; 0x27a1; 0xfe0f];
  [0x1f6b6; 0x1f3ff; 0x200d; 0x27a1; 0xfe0f]; [0x1f6b7]; [0x1f6b8]; [0x1f6b9]; [0x1f6ba];
  [0x1f6bb]; [0x1f6bc]; [0x1f6bd]; [0x1f6be]; [0x1f6bf]; [0x1f6c0]; [0x1f6c0; 0x1f3fb];
  [0x1f6c0; 0x1f3fc]; [0x1f6c0; 0x1f3fd]; [0x1f6c0; 0x1f3fe]; [0x1f6c0; 0x1f3ff]; [0x1f6c1];
  [0x1f6c2]; [0x1f6c3]; [0x1f6c4]; [0x1f6c5]; [0x1f6cb; 0xfe0f]; [0x1f6cc]; [0x1f6cc; 0x1f3fb];
  [0x1f6cc; 0x1f3fc]; [0x1f6cc; 0x1f3fd]; [0x1f6cc; 0x1f3fe]; [0x1f6cc; 0x1f3ff];
  [0x1f6cd; 0xfe0f]; [0x1f6ce; 0xfe0f]; [0x1f6cf; 0xfe0f]; [0x1f6d0]; [0x1f6d1]; [0x1f6d2];
  [0x1f6d5]; [0x1f6d6]; [0x1f6d7]; [0x1f6d8]; [0x1f6dc]; [0x1f6dd]; [0x1f6de]; [0x1f6df];
  [0x1f6e0; 0xfe0f]; [0x1f6e1; 0xfe0f]; [0x1f6e2; 0xfe0f]; [0x1f6e3; 0xfe0f]; [0x1f6e4; 0xfe0f];
  [0x1f6e5; 0xfe0f]; [0x1f6e9; 0xfe0f]; [0x1f6eb]; [0x1f6ec]; [0x1f6f0; 0xfe0f];
  [0x1f6f3; 0xfe0f]; [0x1f6f4]; [0x1f6f5]; [0x1f6f6]; [0x1f6f7]; [0x1f6f8]; [0x1f6f9]; [0x1f6fa];
  [0x1f6fb]; [0x1f6fc]; [0x1f7e0]; [0x1f7e1]; [0x1f7e2]; [0x1f7e3]; [0x1f7e4]; [0x1f7e5];
  [0x1f7e6]; [0x1f7e7]; [0x1f7e8]; [0x1f7e9]; [0x1f7ea]; [0x1f7eb]; [0x1f7f0]; [0x1f90c];
  [0x1f90c; 0x1f3fb]; [0x1f90c; 0x1f3fc]; [0x1f90c; 0x1f3fd]; [0x1f90c; 0x1f3fe];
  [0x1f90c; 0x1f3ff]; [0x1f90d]; [0x1f90e]; [0x1f90f]; [0x1f90f; 0x1f3fb]; [0x1f90f; 0x1f3fc];
  [0x1f90f; 0x1f3fd]; [0x1f90f; 0x1f3fe]; [0x1f90f; 0x1f3ff]; [0x1f910]; [0x1f911]; [0x1f912];
  [0x1f913]; [0x1f914]; [0x1f915]; [0x1f916]; [0x1f917]; [0x1f918]; [0x1f918; 0x1f3fb];
  [0x1f918; 0x1f3fc]; [0x1f918; 0x1f3fd]; [0x1f918; 0x1f3fe]; [0x1f918; 0x1f3ff]; [0x1f919];
  [0x1f919; 0x1f3fb]; [0x1f919; 0x1f3fc]; [0x1f919; 0x1f3fd]; [0x1f919; 0x1f3fe];
  [0x1f919; 0x1f3ff]; [0x1f91a]; [0x1f91a; 0x1f3fb]; [0x1f91a; 0x1f3fc]; [0x1f91a; 0x1f3fd];
  [0x1f91a; 0x1f3fe]; [0x1f91a; 0x1f3ff]; [0x1f91b]; [0x1f91b; 0x1f3fb]; [0x1f91b; 0x1f3fc];
  [0x1f91b; 0x1f3fd]; [0x1f91b; 0x1f3fe]; [0x1f91b; 0x1f3ff]; [0x1f91c]; [0x1f91c; 0x1f3fb];
  [0x1f91c; 0x1f3fc]; [0x1f91c; 0x1f3fd]; [0x1f91c; 0x1f3fe]; [0x1f91c; 0x1f3ff]; [0x1f91d];
  [0x1f91d; 0x1f3fb]; [0x1f91d; 0x1f3fc]; [0x1f91d; 0x1f3fd]; [0x1f91d; 0x1f3fe];
  [0x1f91d; 0x1f3ff]; [0x1f91e]; [0x1f91e; 0x1f3fb]; [0x1f91e; 0x1f3fc]; [0x1f91e; 0x1f3fd];
  [0x1f91e; 0x1f3fe]; [0x1f91e; 0x1f3ff]; [0x1f91f]; [0x1f91f; 0x1f3fb]; [0x1f91f; 0x1f3fc];
  [0x1f91f; 0x1f3fd]; [0x1f91f; 0x1f3fe]; [0x1f91f; 0x1f3ff]; [0x1f920]; [0x1f921]; [0x1f922];
  [0x1f923]; [0x1f924]; [0x1f925]; [0x1f926]; [0x1f926; 0x200d; 0x2640; 0xfe0f];
  [0x1f926; 0x200d; 0x2642; 0xfe0f]; [0x1f926; 0x1f3fb];
  [0x1f926; 0x1f3fb; 0x200d; 0x2640; 0xfe0f]; [0x1f926; 0x1f3fb; 0x200d; 0x2642; 0xfe0f];
  [0x1f926; 0x1f3fc]; [0x1f926; 0x1f3fc; 0x200d; 0x2640; 0xfe0f];
  [0x1f926; 0x1f3fc; 0x200d; 0x2642; 0xfe0f]; [0x1f926; 0x1f3fd];
  [0x1f926; 0x1f3fd; 0x200d; 0x2640; 0xfe0f]; [0x1f926; 0x1f3fd; 0x200d; 0x2642; 0xfe0f];
  [0x1f926; 0x1f3fe]; [0x1f926; 0x1f3fe; 0x200d; 0x2640; 0xfe0f];
  [0x1f926; 0x1f3fe; 0x200d; 0x2642; 0xfe0f]; [0x1f926; 0x1f3ff];
  [0x1f926; 0x1f3ff; 0x200d; 0x2640; 0xfe0f]; [0x1f926; 0x1f3ff; 0x200d; 0x2642; 0xfe0f];
  [0x1f927]; [0x1f928]; [0x1f929]; [0x1f92a]; [0x1f92b]; [0x1f92c]; [0x1f92d]; [0x1f92e];
  [0x1f92f]; [0x1f930]; [0x1f930; 0x1f3fb]; [0x1f930; 0x1f3fc]; [0x1f930; 0x1f3fd];
  [0x1f930; 0x1f3fe]; [0x1f930; 0x1f3ff]; [0x1f931]; [0x1f931; 0x1f3fb]; [0x1f931; 0x1f3fc];
  [0x1f931; 0x1f3fd]; [0x1f931; 0x1f3fe]; [0x1f931; 0x1f3ff]; [0x1f932]; [0x1f932; 0x1f3fb];
  [0x1f932; 0x1f3fc]; [0x1f932; 0x1f3fd]; [0x1f932; 0x1f3fe]; [0x1f932; 0x1f3ff]; [0x1f933];
  [0x1f933; 0x1f3fb]; [0x1f933; 0x1f3fc]; [0x1f933; 0x1f3fd]; [0x1f933; 0x1f3fe];
  [0x1f933; 0x1f3ff]; [0x1f934]; [0x1f934; 0x1f3fb]; [0x1f934; 0x1f3fc]; [0x1f934; 0x1f3fd];
  [0x1f934; 0x1f3fe]; [0x1f934; 0x1f3ff]; [0x1f935]; [0x1f935; 0x200d; 0x2640; 0xfe0f];
  [0x1f935; 0x200d; 0x2642; 0xfe0f]; [0x1f935; 0x1f3fb];
  [0x1f935; 0x1f3fb; 0x200d; 0x2640; 0xfe0f]; [0x1f935; 0x1f3fb; 0x200d; 0x2642; 0xfe0f];
  [0x1f935; 0x1f3fc]; [0x1f935; 0x1f3fc; 0x200d; 0x2640; 0xfe0f];
  [0x1f935; 0x1f3fc; 0x200d; 0x2642; 0xfe0f]; [0x1f935; 0x1f3fd];
  [0x1f935; 0x1f3fd; 0x200d; 0x2640; 0xfe0f]; [0x1f935; 0x1f3fd; 0x200d; 0x2642; 0xfe0f];
  [0x1f935; 0x1f3fe]; [0x1f935; 0x1f3fe; 0x200d; 0x2640; 0xfe0f];
  [0x1f935; 0x1f3fe; 0x200d; 0x2642; 0xfe0f]; [0x1f935; 0x1f3ff];
  [0x1f935; 0x1f3ff; 0x200d; 0x2640; 0xfe0f]; [0x1f935; 0x1f3ff; 0x200d; 0x2642; 0xfe0f];
  [0x1f936]; [0x1f936; 0x1f3fb]; [0x1f936; 0x1f3fc]; [0x1f936; 0x1f3fd]; [0x1f936; 0x1f3fe];
  [0x1f936; 0x1f3ff]; [0x1f937]; [0x1f937; 0x200d; 0x2640; 0xfe0f];
  [0x1f937; 0x200d; 0x2642; 0xfe0f]; [0x1f937; 0x1f3fb];
  [0x1f937; 0x1f3fb; 0x200d; 0x2640; 0xfe0f]; [0x1f937; 0x1f3fb; 0x200d; 0x2642; 0xfe0f];
  [0x1f937; 0x1f3fc]; [0x1f937; 0x1f3fc; 0x200d; 0x2640; 0xfe0f];
  [0x1f937; 0x1f3fc; 0x200d; 0x2642; 0xfe0f]; [0x1f937; 0x1f3fd];
  [0x1f937; 0x1f3fd; 0x200d; 0x2640; 0xfe0f]; [0x1f937; 0x1f3fd; 0x200d; 0x2642; 0xfe0f];
  [0x1f937; 0x1f3fe]; [0x1f937; 0x1f3fe; 0x200d; 0x2640; 0xfe0f];
  [0x1f937; 0x1f3fe; 0x200d; 0x2642; 0xfe0f]; [0x1f937; 0x1f3ff];
  [0x1f937; 0x1f3ff; 0x200d; 0x2640; 0xfe0f]; [0x1f937; 0x1f3ff; 0x200d; 0x2642; 0xfe0f];
  [0x1f938]; [0x1f938; 0x200d; 0x2640; 0xfe0f]; [0x1f938; 0x200d; 0x2642; 0xfe0f];
  [0x1f938; 0x1f3fb]; [0x1f938; 0x1f3fb; 0x200d; 0x2640; 0xfe0f];
  [0x1f938; 0x1f3fb; 0x200d; 0x2642; 0xfe0f]; [0x1f938; 0x1f3fc];
  [0x1f938; 0x1f3fc; 0x200d; 0x2640; 0xfe0f]; [0x1f938; 0x1f3fc; 0x200d; 0x2642; 0xfe0f];
  [0x1f938; 0x1f3fd]; [0x1f938; 0x1f3fd; 0x200d; 0x2640; 0xfe0f];
  [0x1f938; 0x1f3fd; 0x200d; 0x2642; 0xfe0f]; [0x1f938; 0x1f3fe];
  [0x1f938; 0x1f3fe; 0x200d; 0x2640; 0xfe0f]; [0x1f938; 0x1f3fe; 0x200d; 0x2642; 0xfe0f];
  [0x1f938; 0x1f3ff]; [0x1f938; 0x1f3ff; 0x200d; 0x2640; 0xfe0f];
  [0x1f938; 0x1f3ff; 0x200d; 0x2642; 0xfe0f]; [0x1f939]; [0x1f939; 0x200d; 0x2640; 0xfe0f];
  [0x1f939; 0x200d; 0x2642; 0xfe0f]; [0x1f939; 0x1f3fb];
  [0x1f939; 0x1f3fb; 0x200d; 0x2640; 0xfe0f]; [0x1f939; 0x1f3fb; 0x200d; 0x2642; 0xfe0f];
  [0x1f939; 0x1f3fc]; [0x1f939; 0x1f3fc; 0x200d; 0x2640; 0xfe0f];
  [0x1f939; 0x1f3fc; 0x200d; 0x2642; 0xfe0f]; [0x1f939; 0x1f3fd];
  [0x1f939; 0x1f3fd; 0x200d; 0x2640; 0xfe0f]; [0x1f939; 0x1f3fd; 0x200d; 0x2642; 0xfe0f];
  [0x1f939; 0x1f3fe]; [0x1f939; 0x1f3fe; 0x200d; 0x2640; 0xfe0f];
  [0x1f939; 0x1f3fe; 0x200d; 0x2642; 0xfe0f]; [0x1f939; 0x1f3ff];
  [0x1f939; 0x1f3ff; 0x200d; 0x2640; 0xfe0f]; [0x1f939; 0x1f3ff; 0x200d; 0x2642; 0xfe0f];
  [0x1f93a]; [0x1f93c]; [0x1f93c; 0x200d; 0x2640; 0xfe0f]; [0x1f93c; 0x200d; 0x2642; 0xfe0f];
  [0x1f93c; 0x1f3fb]; [0x1f93c; 0x1f3fb; 0x200d; 0x2640; 0xfe0f];
  [0x1f93c; 0x1f3fb; 0x200d; 0x2642; 0xfe0f]; [0x1f93c; 0x1f3fc];
  [0x1f93c; 0x1f3fc; 0x200d; 0x2640; 0xfe0f]; [0x1f93c; 0x1f3fc; 0x200d; 0x2642; 0xfe0f];
  [0x1f93c; 0x1f3fd]; [0x1f93c; 0x1f3fd; 0x200d; 0x2640; 0xfe0f];
  [0x1f93c; 0x1f3fd; 0x200d; 0x2642; 0xfe0f]; [0x1f93c; 0x1f3fe];
  [0x1f93c; 0x1f3fe; 0x200d; 0x2640; 0xfe0f]; [0x1f93c; 0x1f3fe; 0x200d; 0x2642; 0xfe0f];
  [0x1f93c; 0x1f3ff]; [0x1f93c; 0x1f3ff; 0x200d; 0x2640; 0xfe0f];
  [0x1f93c; 0x1f3ff; 0x200d; 0x2642; 0xfe0f]; [0x1f93d]; [0x1f93d; 0x200d; 0x2640; 0xfe0f];
  [0x1f93d; 0x200d; 0x2642; 0xfe0f]; [0x1f93d; 0x1f3fb];
  [0x1f93d; 0x1f3fb; 0x200d; 0x2640; 0xfe0f]; [0x1f93d; 0x1f3fb; 0x200d; 0x2642; 0xfe0f];
  [0x1f93d; 0x1f3fc]; [0x1f93d; 0x1f3fc; 0x200d; 0x2640; 0xfe0f];
  [0x1f93d; 0x1f3fc; 0x200d; 0x2642; 0xfe0f]; [0x1f93d; 0x1f3fd];
  [0x1f93d; 0x1f3fd; 0x200d; 0x2640; 0xfe0f]; [0x1f93d; 0x1f3fd; 0x200d; 0x2642; 0xfe0f];
  [0x1f93d; 0x1f3fe]; [0x1f93d; 0x1f3fe; 0x200d; 0x2640; 0xfe0f];
  [0x1f93d; 0x1f3fe; 0x200d; 0x2642; 0xfe0f]; [0x1f93d; 0x1f3ff];
  [0x1f93d; 0x1f3ff; 0x200d; 0x2640; 0xfe0f]; [0x1f93d; 0x1f3ff; 0x200d; 0x2642; 0xfe0f];
  [0x1f93e]; [0x1f93e; 0x200d; 0x2640; 0xfe0f]; [0x1f93e; 0x200d; 0x2642; 0xfe0f];
  [0x1f93e; 0x1f3fb]; [0x1f93e; 0x1f3fb; 0x200d; 0x2640; 0xfe0f];
  [0x1f93e; 0x1f3fb; 0x200d; 0x2642; 0xfe0f]; [0x1f93e; 0x1f3fc];
  [0x1f93e; 0x1f3fc; 0x200d; 0x2640; 0xfe0f]; [0x1f93e; 0x1f3fc; 0x200d; 0x2642; 0xfe0f];
  [0x1f93e; 0x1f3fd]; [0x1f93e; 0x1f3fd; 0x200d; 0x2640; 0xfe0f];
  [0x1f93e; 0x1f3fd; 0x200d; 0x2642; 0xfe0f]; [0x1f93e; 0x1f3fe];
  [0x1f93e; 0x1f3fe; 0x200d; 0x2640; 0xfe0f]; [0x1f93e; 0x1f3fe; 0x200d; 0x2642; 0xfe0f];
  [0x1f93e; 0x1f3ff]; [0x1f93e; 0x1f3ff; 0x200d; 0x2640; 0xfe0f];
  [0x1f93e; 0x1f3ff; 0x200d; 0x2642; 0xfe0f]; [0x1f93f]; [0x1f940]; [0x1f941]; [0x1f942];
  [0x1f943]; [0x1f944]; [0x1f945]; [0x1f947]; [0x1f948]; [0x1f949]; [0x1f94a]; [0x1f94b];
  [0x1f94c]; [0x1f94d]; [0x1f94e]; [0x1f94f]; [0x1f950]; [0x1f951]; [0x1f952]; [0x1f953];
  [0x1f954]; [0x1f955]; [0x1f956]; [0x1f957]; [0x1f958]; [0x1f959]; [0x1f95a]; [0x1f95b];
  [0x1f95c]; [0x1f95d]; [0x1f95e]; [0x1f95f]; [0x1f960]; [0x1f961]; [0x1f962]; [0x1f963];
  [0x1f964]; [0x1f965]; [0x1f966]; [0x1f967]; [0x1f968]; [0x1f969]; [0x1f96a]; [0x1f96b];
  [0x1f96c]; [0x1f96d]; [0x1f96e]; [0x1f96f]; [0x1f970]; [0x1f971]; [0x1f972]; [0x1f973];
  [0x1f974]; [0x1f975]; [0x1f976]; [0x1f977]; [0x1f977; 0x1f3fb]; [0x1f977; 0x1f3fc];
  [0x1f977; 0x1f3fd]; [0x1f977; 0x1f3fe]; [0x1f977; 0x1f3ff]; [0x1f978]; [0x1f979]; [0x1f97a];
  [0x1f97b]; [0x1f97c]; [0x1f97d]; [0x1f97e]; [0x1f97f]; [0x1f980]; [0x1f981]; [0x1f982];
  [0x1f983]; [0x1f984]; [0x1f985]; [0x1f986]; [0x1f987]; [0x1f988]; [0x1f989]; [0x1f98a];
  [0x1f98b]; [0x1f98c]; [0x1f98d]; [0x1f98e]; [0x1f98f]; [0x1f990]; [0x1f991]; [0x1f992];
  [0x1f993]; [0x1f994]; [0x1f995]; [0x1f996]; [0x1f997]; [0x1f998]; [0x1f999]; [0x1f99a];
  [0x1f99b]; [0x1f99c]; [0x1f99d]; [0x1f99e]; [0x1f99f]; [0x1f9a0]; [0x1f9a1]; [0x1f9a2];
  [0x1f9a3]; [0x1f9a4]; [0x1f9a5]; [0x1f9a6]; [0x1f9a7]; [0x1f9a8]; [0x1f9a9]; [0x1f9aa];
  [0x1f9ab]; [0x1f9ac]; [0x1f9ad]; [0x1f9ae]; [0x1f9af]; [0x1f9b4]; [0x1f9b5];
  [0x1f9b5; 0x1f3fb]; [0x1f9b5; 0x1f3fc]; [0x1f9b5; 0x1f3fd]; [0x1f9b5; 0x1f3fe];
  [0x1f9b5; 0x1f3ff]; [0x1f9b6]; [0x1f9b6; 0x1f3fb]; [0x1f9b6; 0x1f3fc]; [0x1f9b6; 0x1f3fd];
  [0x1f9b6; 0x1f3fe]; [0x1f9b6; 0x1f3ff]; [0x1f9b7]; [0x1f9b8];
  [0x1f9b8; 0x200d; 0x2640; 0xfe0f]; [0x1f9b8; 0x200d; 0x2642; 0xfe0f]; [0x1f9b8; 0x1f3fb];
  [0x1f9b8; 0x1f3fb; 0x200d; 0x2640; 0xfe0f]; [0x1f9b8; 0x1f3fb; 0x200d; 0x2642; 0xfe0f];
  [0x1f9b8; 0x1f3fc]; [0x1f9b8; 0x1f3fc; 0x200d; 0x2640; 0xfe0f];
  [0x1f9b8; 0x1f3fc; 0x200d; 0x2642; 0xfe0f]; [0x1f9b8; 0x1f3fd];
  [0x1f9b8; 0x1f3fd; 0x200d; 0x2640; 0xfe0f]; [0x1f9b8; 0x1f3fd; 0x200d; 0x2642; 0xfe0f];
  [0x1f9b8; 0x1f3fe]; [0x1f9b8; 0x1f3fe; 0x200d; 0x2640; 0xfe0f];
  [0x1f9b8; 0x1f3fe; 0x200d; 0x2642; 0xfe0f]; [0x1f9b8; 0x1f3ff];
  [0x1f9b8; 0x1f3ff; 0x200d; 0x2640; 0xfe0f]; [0x1f9b8; 0x1f3ff; 0x200d; 0x2642; 0xfe0f];
  [0x1f9b9]; [0x1f9b9; 0x200d; 0x2640; 0xfe0f]; [0x1f9b9; 0x200d; 0x2642; 0xfe0f];
  [0x1f9b9; 0x1f3fb]; [0x1f9b9; 0x1f3fb; 0x200d; 0x2640; 0xfe0f];
  [0x1f9b9; 0x1f3fb; 0x200d; 0x2642; 0xfe0f]; [0x1f9b9; 0x1f3fc];
  [0x1f9b9; 0x1f3fc; 0x200d; 0x2640; 0xfe0f]; [0x1f9b9; 0x1f3fc; 0x200d; 0x2642; 0xfe0f];
  [0x1f9b9; 0x1f3fd]; [0x1f9b9; 0x1f3fd; 0x200d; 0x2640; 0xfe0f];
  [0x1f9b9; 0x1f3fd; 0x200d; 0x2642; 0xfe0f]; [0x1f9b9; 0x1f3fe];
  [0x1f9b9; 0x1f3fe; 0x200d; 0x2640; 0xfe0f]; [0x1f9b9; 0x1f3fe; 0x200d; 0x2642; 0xfe0f];
  [0x1f9b9; 0x1f3ff]; [0x1f9b9; 0x1f3ff; 0x200d; 0x2640; 0xfe0f];
  [0x1f9b9; 0x1f3ff; 0x200d; 0x2642; 0xfe0f]; [0x1f9ba]; [0x1f9bb]; [0x1f9bb; 0x1f3fb];
  [0x1f9bb; 0x1f3fc]; [0x1f9bb; 0x1f3fd]; [0x1f9bb; 0x1f3fe]; [0x1f9bb; 0x1f3ff]; [0x1f9bc];
  [0x1f9bd]; [0x1f9be]; [0x1f9bf]; [0x1f9c0]; [0x1f9c1]; [0x1f9c2]; [0x1f9c3]; [0x1f9c4];
  [0x1f9c5]; [0x1f9c6]; [0x1f9c7]; [0x1f9c8]; [0x1f9c9]; [0x1f9ca]; [0x1f9cb]; [0x1f9cc];
  [0x1f9cd]; [0x1f9cd; 0x200d; 0x2640; 0xfe0f]; [0x1f9cd; 0x200d; 0x2642; 0xfe0f];
  [0x1f9cd; 0x1f3fb]; [0x1f9cd; 0x1f3fb; 0x200d; 0x2640; 0xfe0f];
  [0x1f9cd; 0x1f3fb; 0x200d; 0x2642; 0xfe0f]; [0x1f9cd; 0x1f3fc];
  [0x1f9cd; 0x1f3fc; 0x200d; 0x2640; 0xfe0f]; [0x1f9cd; 0x1f3fc; 0x200d; 0x2642; 0xfe0f];
  [0x1f9cd; 0x1f3fd]; [0x1f9cd; 0x1f3fd; 0x200d; 0x2640; 0xfe0f];
  [0x1f9cd; 0x1f3fd; 0x200d; 0x2642; 0xfe0f]; [0x1f9cd; 0x1f3fe];
  [0x1f9cd; 0x1f3fe; 0x200d; 0x2640; 0xfe0f]; [0x1f9cd; 0x1f3fe; 0x200d; 0x2642; 0xfe0f];
  [0x1f9cd; 0x1f3ff]; [0x1f9cd; 0x1f3ff; 0x200d; 0x2640; 0xfe0f];
  [0x1f9cd; 0x1f3ff; 0x200d; 0x2642; 0xfe0f]; [0x1f9ce]; [0x1f9ce; 0x200d; 0x2640; 0xfe0f];
  [0x1f9ce; 0x200d; 0x2640; 0xfe0f; 0x200d; 0x27a1; 0xfe0f]; [0x1f9ce; 0x200d; 0x2642; 0xfe0f];
  [0x1f9ce; 0x200d; 0x2642; 0xfe0f; 0x200d; 0x27a1; 0xfe0f]; [0x1f9ce; 0x200d; 0x27a1; 0xfe0f];
  [0x1f9ce; 0x1f3fb]; [0x1f9ce; 0x1f3fb; 0x200d; 0x2640; 0xfe0f];
  [0x1f9ce; 0x1f3fb; 0x200d; 0x2640; 0xfe0f; 0x200d; 0x27a1; 0xfe0f];
  [0x1f9ce; 0x1f3fb; 0x200d; 0x2642; 0xfe0f];
  [0x1f9ce; 0x1f3fb; 0x200d; 0x2642; 0xfe0f; 0x200d; 0x27a1; 0xfe0f];
  [0x1f9ce; 0x1f3fb; 0x200d; 0x27a1; 0xfe0f]; [0x1f9ce; 0x1f3fc];
  [0x1f9ce; 0x1f3fc; 0x200d; 0x2640; 0xfe0f];
  [0x1f9ce; 0x1f3fc; 0x200d; 0x2640; 0xfe0f; 0x200d; 0x27a1; 0xfe0f];
  [0x1f9ce; 0x1f3fc; 0x200d; 0x2642; 0xfe0f];
  [0x1f9ce; 0x1f3fc; 0x200d; 0x2642; 0xfe0f; 0x200d; 0x27a1; 0xfe0f];
  [0x1f9ce; 0x1f3fc; 0x200d; 0x27a1; 0xfe0f]; [0x1f9ce; 0x1f3fd];
  [0x1f9ce; 0x1f3fd; 0x200d; 0x2640; 0xfe0f];
  [0x1f9ce; 0x1f3fd; 0x200d; 0x2640; 0xfe0f; 0x200d; 0x27a1; 0xfe0f];
  [0x1f9ce; 0x1f3fd; 0x200d; 0x2642; 0xfe0f];
  [0x1f9ce; 0x1f3fd; 0x200d; 0x2642; 0xfe0f; 0x200d; 0x27a1; 0xfe0f];
  [0x1f9ce; 0x1f3fd; 0x200d; 0x27a1; 0xfe0f]; [0x1f9ce; 0x1f3fe];
  [0x1f9ce; 0x1f3fe; 0x200d; 0x2640; 0xfe0f];
  [0x1f9ce; 0x1f3fe; 0x200d; 0x2640; 0xfe0f; 0x200d; 0x27a1; 0xfe0f];
  [0x1f9ce; 0x1f3fe; 0x200d; 0x2642; 0xfe0f];
  [0x1f9ce; 0x1f3fe; 0x200d; 0x2642; 0xfe0f; 0x200d; 0x27a1; 0xfe0f];
  [0x1f9ce; 0x1f3fe; 0x200d; 0x27a1; 0xfe0f]; [0x1f9ce; 0x1f3ff];
  [0x1f9ce; 0x1f3ff; 0x200d; 0x2640; 0xfe0f];
  [0x1f9ce; 0x1f3ff; 0x200d; 0x2640; 0xfe0f; 0x200d; 0x27a1; 0xfe0f];
  [0x1f9ce; 0x1f3ff; 0x200d; 0x2642; 0xfe0f];
  [0x1f9ce; 0x1f3ff; 0x200d; 0x2642; 0xfe0f; 0x200d; 0x27a1; 0xfe0f];
  [0x1f9ce; 0x1f3ff; 0x200d; 0x27a1; 0xfe0f]; [0x1f9cf]; [0x1f9cf; 0x200d; 0x2640; 0xfe0f];
  [0x1f9cf; 0x200d; 0x2642; 0xfe0f]; [0x1f9cf; 0x1f3fb];
  [0x1f9cf; 0x1f3fb; 0x200d; 0x2640; 0xfe0f]; [0x1f9cf; 0x1f3fb; 0x200d; 0x2642; 0xfe0f];
  [0x1f9cf; 0x1f3fc]; [0x1f9cf; 0x1f3fc; 0x200d; 0x2640; 0xfe0f];
  [0x1f9cf; 0x1f3fc; 0x200d; 0x2642; 0xfe0f]; [0x1f9cf; 0x1f3fd];
  [0x1f9cf; 0x1f3fd; 0x200d; 0x2640; 0xfe0f]; [0x1f9cf; 0x1f3fd; 0x200d; 0x2642; 0xfe0f];
  [0x1f9cf; 0x1f3fe]; [0x1f9cf; 0x1f3fe; 0x200d; 0x2640; 0xfe0f];
  [0x1f9cf; 0x1f3fe; 0x200d; 0x2642; 0xfe0f]; [0x1f9cf; 0x1f3ff];
  [0x1f9cf; 0x1f3ff; 0x200d; 0x2640; 0xfe0f]; [0x1f9cf; 0x1f3ff; 0x200d; 0x2642; 0xfe0f];
  [0x1f9d0]; [0x1f9d1]; [0x1f9d1; 0x200d; 0x2695; 0xfe0f]; [0x1f9d1; 0x200d; 0x2696; 0xfe0f];
  [0x1f9d1; 0x200d; 0x2708; 0xfe0f]; [0x1f9d1; 0x200d; 0x1f33e]; [0x1f9d1; 0x200d; 0x1f373];
  [0x1f9d1; 0x200d; 0x1f37c]; [0x1f9d1; 0x200d; 0x1f384]; [0x1f9d1; 0x200d; 0x1f393];
  [0x1f9d1; 0x200d; 0x1f3a4]; [0x1f9d1; 0x200d; 0x1f3a8]; [0x1f9d1; 0x200d; 0x1f3eb];
  [0x1f9d1; 0x200d; 0x1f3ed]; [0x1f9d1; 0x200d; 0x1f4bb]; [0x1f9d1; 0x200d; 0x1f4bc];
  [0x1f9d1; 0x200d; 0x1f527]; [0x1f9d1; 0x200d; 0x1f52c]; [0x1f9d1; 0x200d; 0x1f680];
  [0x1f9d1; 0x200d; 0x1f692]; [0x1f9d1; 0x200d; 0x1f91d; 0x200d; 0x1f9d1];
  [0x1f9d1; 0x200d; 0x1f9af]; [0x1f9d1; 0x200d; 0x1f9af; 0x200d; 0x27a1; 0xfe0f];
  [0x1f9d1; 0x200d; 0x1f9b0]; [0x1f9d1; 0x200d; 0x1f9b1]; [0x1f9d1; 0x200d; 0x1f9b2];
  [0x1f9d1; 0x200d; 0x1f9b3]; [0x1f9d1; 0x200d; 0x1f9bc];
  [0x1f9d1; 0x200d; 0x1f9bc; 0x200d; 0x27a1; 0xfe0f]; [0x1f9d1; 0x200d; 0x1f9bd];
  [0x1f9d1; 0x200d; 0x1f9bd; 0x200d; 0x27a1; 0xfe0f];
  [0x1f9d1; 0x200d; 0x1f9d1; 0x200d; 0x1f9d2];
  [0x1f9d1; 0x200d; 0x1f9d1; 0x200d; 0x1f9d2; 0x200d; 0x1f9d2]; [0x1f9d1; 0x200d; 0x1f9d2];
  [0x1f9d1; 0x200d; 0x1f9d2; 0x200d; 0x1f9d2]; [0x1f9d1; 0x200d; 0x1fa70]; [0x1f9d1; 0x1f3fb];
  [0x1f9d1; 0x1f3fb; 0x200d; 0x2695; 0xfe0f]; [0x1f9d1; 0x1f3fb; 0x200d; 0x2696; 0xfe0f];
  [0x1f9d1; 0x1f3fb; 0x200d; 0x2708; 0xfe0f];
  [0x1f9d1; 0x1f3fb; 0x200d; 0x2764; 0xfe0f; 0x200d; 0x1f48b; 0x200d; 0x1f9d1; 0x1f3fc];
  [0x1f9d1; 0x1f3fb; 0x200d; 0x2764; 0xfe0f; 0x200d; 0x1f48b; 0x200d; 0x1f9d1; 0x1f3fd];
  [0x1f9d1; 0x1f3fb; 0x200d; 0x2764; 0xfe0f; 0x200d; 0x1f48b; 0x200d; 0x1f9d1; 0x1f3fe];
  [0x1f9d1; 0x1f3fb; 0x200d; 0x2764; 0xfe0f; 0x200d; 0x1f48b; 0x200d; 0x1f9d1; 0x1f3ff];
  [0x1f9d1; 0x1f3fb; 0x200d; 0x2764; 0xfe0f; 0x200d; 0x1f9d1; 0x1f3fc];
  [0x1f9d1; 0x1f3fb; 0x200d; 0x2764; 0xfe0f; 0x200d; 0x1f9d1; 0x1f3fd];
  [0x1f9d1; 0x1f3fb; 0x200d; 0x2764; 0xfe0f; 0x200d; 0x1f9d1; 0x1f3fe];
  [0x1f9d1; 0x1f3fb; 0x200d; 0x2764; 0xfe0f; 0x200d; 0x1f9d1; 0x1f3ff];
  [0x1f9d1; 0x1f3fb; 0x200d; 0x1f33e]; [0x1f9d1; 0x1f3fb; 0x200d; 0x1f373];
  [0x1f9d1; 0x1f3fb; 0x200d; 0x1f37c]; [0x1f9d1; 0x1f3fb; 0x200d; 0x1f384];
  [0x1f9d1; 0x1f3fb; 0x200d; 0x1f393]; [0x1f9d1; 0x1f3fb; 0x200d; 0x1f3a4];
  [0x1f9d1; 0x1f3fb; 0x200d; 0x1f3a8]; [0x1f9d1; 0x1f3fb; 0x200d; 0x1f3eb];
  [0x1f9d1; 0x1f3fb; 0x200d; 0x1f3ed];
  [0x1f9d1; 0x1f3fb; 0x200d; 0x1f430; 0x200d; 0x1f9d1; 0x1f3fc];
  [0x1f9d1; 0x1f3fb; 0x200d; 0x1f430; 0x200d; 0x1f9d1; 0x1f3fd];
  [0x1f9d1; 0x1f3fb; 0x200d; 0x1f430; 0x200d; 0x1f9d1; 0x1f3fe];
  [0x1f9d1; 0x1f3fb; 0x200d; 0x1f430; 0x200d; 0x1f9d1; 0x1f3ff];
  [0x1f9d1; 0x1f3fb; 0x200d; 0x1f4bb]; [0x1f9d1; 0x1f3fb; 0x200d; 0x1f4bc];
  [0x1f9d1; 0x1f3fb; 0x200d; 0x1f527]; [0x1f9d1; 0x1f3fb; 0x200d; 0x1f52c];
  [0x1f9d1; 0x1f3fb; 0x200d; 0x1f680]; [0x1f9d1; 0x1f3fb; 0x200d; 0x1f692];
  [0x1f9d1; 0x1f3fb; 0x200d; 0x1f91d; 0x200d; 0x1f9d1; 0x1f3fb];
  [0x1f9d1; 0x1f3fb; 0x200d; 0x1f91d; 0x200d; 0x1f9d1; 0x1f3fc];
  [0x1f9d1; 0x1f3fb; 0x200d; 0x1f91d; 0x200d; 0x1f9d1; 0x1f3fd];
  [0x1f9d1; 0x1f3fb; 0x200d; 0x1f91d; 0x200d; 0x1f9d1; 0x1f3fe];
  [0x1f9d1; 0x1f3fb; 0x200d; 0x1f91d; 0x200d; 0x1f9d1; 0x1f3ff];
  [0x1f9d1; 0x1f3fb; 0x200d; 0x1f9af];
  [0x1f9d1; 0x1f3fb; 0x200d; 0x1f9af; 0x200d; 0x27a1; 0xfe0f];
  [0x1f9d1; 0x1f3fb; 0x200d; 0x1f9b0]; [0x1f9d1; 0x1f3fb; 0x200d; 0x1f9b1];
  [0x1f9d1; 0x1f3fb; 0x200d; 0x1f9b2]; [0x1f9d1; 0x1f3fb; 0x200d; 0x1f9b3];
  [0x1f9d1; 0x1f3fb; 0x200d; 0x1f9bc];
  [0x1f9d1; 0x1f3fb; 0x200d; 0x1f9bc; 0x200d; 0x27a1; 0xfe0f];
  [0x1f9d1; 0x1f3fb; 0x200d; 0x1f9bd];
  [0x1f9d1; 0x1f3fb; 0x200d; 0x1f9bd; 0x200d; 0x27a1; 0xfe0f];
  [0x1f9d1; 0x1f3fb; 0x200d; 0x1fa70];
  [0x1f9d1; 0x1f3fb; 0x200d; 0x1faef; 0x200d; 0x1f9d1; 0x1f3fc];
  [0x1f9d1; 0x1f3fb; 0x200d; 0x1faef; 0x200d; 0x1f9d1; 0x1f3fd];
  [0x1f9d1; 0x1f3fb; 0x200d; 0x1faef; 0x200d; 0x1f9d1; 0x1f3fe];
  [0x1f9d1; 0x1f3fb; 0x200d; 0x1faef; 0x200d; 0x1f9d1; 0x1f3ff]; [0x1f9d1; 0x1f3fc];
  [0x1f9d1; 0x1f3fc; 0x200d; 0x2695; 0xfe0f]; [0x1f9d1; 0x1f3fc; 0x200d; 0x2696; 0xfe0f];
  [0x1f9d1; 0x1f3fc; 0x200d; 0x2708; 0xfe0f];
  [0x1f9d1; 0x1f3fc; 0x200d; 0x2764; 0xfe0f; 0x200d; 0x1f48b; 0x200d; 0x1f9d1; 0x1f3fb];
  [0x1f9d1; 0x1f3fc; 0x200d; 0x2764; 0xfe0f; 0x200d; 0x1f48b; 0x200d; 0x1f9d1; 0x1f3fd];
  [0x1f9d1; 0x1f3fc; 0x200d; 0x2764; 0xfe0f; 0x200d; 0x1f48b; 0x200d; 0x1f9d1; 0x1f3fe];
  [0x1f9d1; 0x1f3fc; 0x200d; 0x2764; 0xfe0f; 0x200d; 0x1f48b; 0x200d; 0x1f9d1; 0x1f3ff];
  [0x1f9d1; 0x1f3fc; 0x200d; 0x2764; 0xfe0f; 0x200d; 0x1f9d1; 0x1f3fb];
  [0x1f9d1; 0x1f3fc; 0x200d; 0x2764; 0xfe0f; 0x200d; 0x1f9d1; 0x1f3fd];
  [0x1f9d1; 0x1f3fc; 0x200d; 0x2764; 0xfe0f; 0x200d; 0x1f9d1; 0x1f3fe];
  [0x1f9d1; 0x1f3fc; 0x200d; 0x2764; 0xfe0f; 0x200d; 0x1f9d1; 0x1f3ff];
  [0x1f9d1; 0x1f3fc; 0x200d; 0x1f33e]; [0x1f9d1; 0x1f3fc; 0x200d; 0x1f373];
  [0x1f9d1; 0x1f3fc; 0x200d; 0x1f37c]; [0x1f9d1; 0x1f3fc; 0x200d; 0x1f384];
  [0x1f9d1; 0x1f3fc; 0x200d; 0x1f393]; [0x1f9d1; 0x1f3fc; 0x200d; 0x1f3a4];
  [0x1f9d1; 0x1f3fc; 0x200d; 0x1f3a8]; [0x1f9d1; 0x1f3fc; 0x200d; 0x1f3eb];
  [0x1f9d1; 0x1f3fc; 0x200d; 0x1f3ed];
  [0x1f9d1; 0x1f3fc; 0x200d; 0x1f430; 0x200d; 0x1f9d1; 0x1f3fb];
  [0x1f9d1; 0x1f3fc; 0x200d; 0x1f430; 0x200d; 0x1f9d1; 0x1f3fd];
  [0x1f9d1; 0x1f3fc; 0x200d; 0x1f430; 0x200d; 0x1f9d1; 0x1f3fe];
  [0x1f9d1; 0x1f3fc; 0x200d; 0x1f430; 0x200d; 0x1f9d1; 0x1f3ff];
  [0x1f9d1; 0x1f3fc; 0x200d; 0x1f4bb]; [0x1f9d1; 0x1f3fc; 0x200d; 0x1f4bc];
  [0x1f9d1; 0x1f3fc; 0x200d; 0x1f527]; [0x1f9d1; 0x1f3fc; 0x200d; 0x1f52c];
  [0x1f9d1; 0x1f3fc; 0x200d; 0x1f680]; [0x1f9d1; 0x1f3fc; 0x200d; 0x1f692];
  [0x1f9d1; 0x1f3fc; 0x200d; 0x1f91d; 0x200d; 0x1f9d1; 0x1f3fb];
  [0x1f9d1; 0x1f3fc; 0x200d; 0x1f91d; 0x200d; 0x1f9d1; 0x1f3fc];
  [0x1f9d1; 0x1f3fc; 0x200d; 0x1f91d; 0x200d; 0x1f9d1; 0x1f3fd];
  [0x1f9d1; 0x1f3fc; 0x200d; 0x1f91d; 0x200d; 0x1f9d1; 0x1f3fe];
  [0x1f9d1; 0x1f3fc; 0x200d; 0x1f91d; 0x200d; 0x1f9d1; 0x1f3ff];
  [0x1f9d1; 0x1f3fc; 0x200d; 0x1f9af];
  [0x1f9d1; 0x1f3fc; 0x200d; 0x1f9af; 0x200d; 0x27a1; 0xfe0f];
  [0x1f9d1; 0x1f3fc; 0x200d; 0x1f9b0]; [0x1f9d1; 0x1f3fc; 0x200d; 0x1f9b1];
  [0x1f9d1; 0x1f3fc; 0x200d; 0x1f9b2]; [0x1f9d1; 0x1f3fc; 0x200d; 0x1f9b3];
  [0x1f9d1; 0x1f3fc; 0x200d; 0x1f9bc];
  [0x1f9d1; 0x1f3fc; 0x200d; 0x1f9bc; 0x200d; 0x27a1; 0xfe0f];
  [0x1f9d1; 0x1f3fc; 0x200d; 0x1f9bd];
  [0x1f9d1; 0x1f3fc; 0x200d; 0x1f9bd; 0x200d; 0x27a1; 0xfe0f];
  [0x1f9d1; 0x1f3fc; 0x200d; 0x1fa70];
  [0x1f9d1; 0x1f3fc; 0x200d; 0x1faef; 0x200d; 0x1f9d1; 0x1f3fb];
  [0x1f9d1; 0x1f3fc; 0x200d; 0x1faef; 0x200d; 0x1f9d1; 0x1f3fd];
  [0x1f9d1; 0x1f3fc; 0x200d; 0x1faef; 0x200d; 0x1f9d1; 0x1f3fe];
  [0x1f9d1; 0x1f3fc; 0x200d; 0x1faef; 0x200d; 0x1f9d1; 0x1f3ff]; [0x1f9d1; 0x1f3fd];
  [0x1f9d1; 0x1f3fd; 0x200d; 0x2695; 0xfe0f]; [0x1f9d1; 0x1f3fd; 0x200d; 0x2696; 0xfe0f];
  [0x1f9d1; 0x1f3fd; 0x200d; 0x2708; 0xfe0f];
  [0x1f9d1; 0x1f3fd; 0x200d; 0x2764; 0xfe0f; 0x200d; 0x1f48b; 0x200d; 0x1f9d1; 0x1f3fb];
  [0x1f9d1; 0x1f3fd; 0x200d; 0x2764; 0xfe0f; 0x200d; 0x1f48b; 0x200d; 0x1f9d1; 0x1f3fc];
  [0x1f9d1; 0x1f3fd; 0x200d; 0x2764; 0xfe0f; 0x200d; 0x1f48b; 0x200d; 0x1f9d1; 0x1f3fe];
  [0x1f9d1; 0x1f3fd; 0x200d; 0x2764; 0xfe0f; 0x200d; 0x1f48b; 0x200d; 0x1f9d1; 0x1f3ff];
  [0x1f9d1; 0x1f3fd; 0x200d; 0x2764; 0xfe0f; 0x200d; 0x1f9d1; 0x1f3fb];
  [0x1f9d1; 0x1f3fd; 0x200d; 0x2764; 0xfe0f; 0x200d; 0x1f9d1; 0x1f3fc];
  [0x1f9d1; 0x1f3fd; 0x200d; 0x2764; 0xfe0f; 0x200d; 0x1f9d1; 0x1f3fe];
  [0x1f9d1; 0x1f3fd; 0x200d; 0x2764; 0xfe0f; 0x200d; 0x1f9d1; 0x1f3ff];
  [0x1f9d1; 0x1f3fd; 0x200d; 0x1f33e]; [0x1f9d1; 0x1f3fd; 0x200d; 0x1f373];
  [0x1f9d1; 0x1f3fd; 0x200d; 0x1f37c]; [0x1f9d1; 0x1f3fd; 0x200d; 0x1f384];
  [0x1f9d1; 0x1f3fd; 0x200d; 0x1f393]; [0x1f9d1; 0x1f3fd; 0x200d; 0x1f3a4];
  [0x1f9d1; 0x1f3fd; 0x200d; 0x1f3a8]; [0x1f9d1; 0x1f3fd; 0x200d; 0x1f3eb];
  [0x1f9d1; 0x1f3fd; 0x200d; 0x1f3ed];
  [0x1f9d1; 0x1f3fd; 0x200d; 0x1f430; 0x200d; 0x1f9d1; 0x1f3fb];
  [0x1f9d1; 0x1f3fd; 0x200d; 0x1f430; 0x200d; 0x1f9d1; 0x1f3fc];
  [0x1f9d1; 0x1f3fd; 0x200d; 0x1f430; 0x200d; 0x1f9d1; 0x1f3fe];
  [0x1f9d1; 0x1f3fd; 0x200d; 0x1f430; 0x200d; 0x1f9d1; 0x1f3ff];
  [0x1f9d1; 0x1f3fd; 0x200d; 0x1f4bb]; [0x1f9d1; 0x1f3fd; 0x200d; 0x1f4bc];
  [0x1f9d1; 0x1f3fd; 0x200d; 0x1f527]; [0x1f9d1; 0x1f3fd; 0x200d; 0x1f52c];
  [0x1f9d1; 0x1f3fd; 0x200d; 0x1f680]; [0x1f9d1; 0x1f3fd; 0x200d; 0x1f692];
  [0x1f9d1; 0x1f3fd; 0x200d; 0x1f91d; 0x200d; 0x1f9d1; 0x1f3fb];
  [0x1f9d1; 0x1f3fd; 0x200d; 0x1f91d; 0x200d; 0x1f9d1; 0x1f3fc];
  [0x1f9d1; 0x1f3fd; 0x200d; 0x1f91d; 0x200d; 0x1f9d1; 0x1f3fd];
  [0x1f9d1; 0x1f3fd; 0x200d; 0x1f91d; 0x200d; 0x1f9d1; 0x1f3fe];
  [0x1f9d1; 0x1f3fd; 0x200d; 0x1f91d; 0x200d; 0x1f9d1; 0x1f3ff];
  [0x1f9d1; 0x1f3fd; 0x200d; 0x1f9af];
  [0x1f9d1; 0x1f3fd; 0x200d; 0x1f9af; 0x200d; 0x27a1; 0xfe0f];
  [0x1f9d1; 0x1f3fd; 0x200d; 0x1f9b0]; [0x1f9d1; 0x1f3fd; 0x200d; 0x1f9b1];
  [0x1f9d1; 0x1f3fd; 0x200d; 0x1f9b2]; [0x1f9d1; 0x1f3fd; 0x200d; 0x1f9b3];
  [0x1f9d1; 0x1f3fd; 0x200d; 0x1f9bc];
  [0x1f9d1; 0x1f3fd; 0x200d; 0x1f9bc; 0x200d; 0x27a1; 0xfe0f];
  [0x1f9d1; 0x1f3fd; 0x200d; 0x1f9bd];
  [0x1f9d1; 0x1f3fd; 0x200d; 0x1f9bd; 0x200d; 0x27a1; 0xfe0f];
  [0x1f9d1; 0x1f3fd; 0x200d; 0x1fa70];
  [0x1f9d1; 0x1f3fd; 0x200d; 0x1faef; 0x200d; 0x1f9d1; 0x1f3fb];
  [0x1f9d1; 0x1f3fd; 0x200d; 0x1faef; 0x200d; 0x1f9d1; 0x1f3fc];
  [0x1f9d1; 0x1f3fd; 0x200d; 0x1faef; 0x200d; 0x1f9d1; 0x1f3fe];
  [0x1f9d1; 0x1f3fd; 0x200d; 0x1faef; 0x200d; 0x1f9d1; 0x1f3ff]; [0x1f9d1; 0x1f3fe];
  [0x1f9d1; 0x1f3fe; 0x200d; 0x2695; 0xfe0f]; [0x1f9d1; 0x1f3fe; 0x200d; 0x2696; 0xfe0f];
  [0x1f9d1; 0x1f3fe; 0x200d; 0x2708; 0xfe0f];
  [0x1f9d1; 0x1f3fe; 0x200d; 0x2764; 0xfe0f; 0x200d; 0x1f48b; 0x200d; 0x1f9d1; 0x1f3fb];
  [0x1f9d1; 0x1f3fe; 0x200d; 0x2764; 0xfe0f; 0x200d; 0x1f48b; 0x200d; 0x1f9d1; 0x1f3fc];
  [0x1f9d1; 0x1f3fe; 0x200d; 0x2764; 0xfe0f; 0x200d; 0x1f48b; 0x200d; 0x1f9d1; 0x1f3fd];
  [0x1f9d1; 0x1f3fe; 0x200d; 0x2764; 0xfe0f; 0x200d; 0x1f48b; 0x200d; 0x1f9d1; 0x1f3ff];
  [0x1f9d1; 0x1f3fe; 0x200d; 0x2764; 0xfe0f; 0x200d; 0x1f9d1; 0x1f3fb];
  [0x1f9d1; 0x1f3fe; 0x200d; 0x2764; 0xfe0f; 0x200d; 0x1f9d1; 0x1f3fc];
  [0x1f9d1; 0x1f3fe; 0x200d; 0x2764; 0xfe0f; 0x200d; 0x1f9d1; 0x1f3fd];
  [0x1f9d1; 0x1f3fe; 0x200d; 0x2764; 0xfe0f; 0x200d; 0x1f9d1; 0x1f3ff];
  [0x1f9d1; 0x1f3fe; 0x200d; 0x1f33e]; [0x1f9d1; 0x1f3fe; 0x200d; 0x1f373];
  [0x1f9d1; 0x1f3fe; 0x200d; 0x1f37c]; [0x1f9d1; 0x1f3fe; 0x200d; 0x1f384];
  [0x1f9d1; 0x1f3fe; 0x200d; 0x1f393]; [0x1f9d1; 0x1f3fe; 0x200d; 0x1f3a4];
  [0x1f9d1; 0x1f3fe; 0x200d; 0x1f3a8]; [0x1f9d1; 0x1f3fe; 0x200d; 0x1f3eb];
  [0x1f9d1; 0x1f3fe; 0x200d; 0x1f3ed];
  [0x1f9d1; 0x1f3fe; 0x200d; 0x1f430; 0x200d; 0x1f9d1; 0x1f3fb];
  [0x1f9d1; 0x1f3fe; 0x200d; 0x1f430; 0x200d; 0x1f9d1; 0x1f3fc];
  [0x1f9d1; 0x1f3fe; 0x200d; 0x1f430; 0x200d; 0x1f9d1; 0x1f3fd];
  [0x1f9d1; 0x1f3fe; 0x200d; 0x1f430; 0x200d; 0x1f9d1; 0x1f3ff];
  [0x1f9d1; 0x1f3fe; 0x200d; 0x1f4bb]; [0x1f9d1; 0x1f3fe; 0x200d; 0x1f4bc];
  [0x1f9d1; 0x1f3fe; 0x200d; 0x1f527]; [0x1f9d1; 0x1f3fe; 0x200d; 0x1f52c];
  [0x1f9d1; 0x1f3fe; 0x200d; 0x1f680]; [0x1f9d1; 0x1f3fe; 0x200d; 0x1f692];
  [0x1f9d1; 0x1f3fe; 0x200d; 0x1f91d; 0x200d; 0x1f9d1; 0x1f3fb];
  [0x1f9d1; 0x1f3fe; 0x200d; 0x1f91d; 0x200d; 0x1f9d1; 0x1f3fc];
  [0x1f9d1; 0x1f3fe; 0x200d; 0x1f91d; 0x200d; 0x1f9d1; 0x1f3fd];
  [0x1f9d1; 0x1f3fe; 0x200d; 0x1f91d; 0x200d; 0x1f9d1; 0x1f3fe];
  [0x1f9d1; 0x1f3fe; 0x200d; 0x1f91d; 0x200d; 0x1f9d1; 0x1f3ff];
  [0x1f9d1; 0x1f3fe; 0x200d; 0x1f9af];
  [0x1f9d1; 0x1f3fe; 0x200d; 0x1f9af; 0x200d; 0x27a1; 0xfe0f];
  [0x1f9d1; 0x1f3fe; 0x200d; 0x1f9b0]; [0x1f9d1; 0x1f3fe; 0x200d; 0x1f9b1];
  [0x1f9d1; 0x1f3fe; 0x200d; 0x1f9b2]; [0x1f9d1; 0x1f3fe; 0x200d; 0x1f9b3];
  [0x1f9d1; 0x1f3fe; 0x200d; 0x1f9bc];
  [0x1f9d1; 0x1f3fe; 0x200d; 0x1f9bc; 0x200d; 0x27a1; 0xfe0f];
  [0x1f9d1; 0x1f3fe; 0x200d; 0x1f9bd];
  [0x1f9d1; 0x1f3fe; 0x200d; 0x1f9bd; 0x200d; 0x27a1; 0xfe0f];
  [0x1f9d1; 0x1f3fe; 0x200d; 0x1fa70];
  [0x1f9d1; 0x1f3fe; 0x200d; 0x1faef; 0x200d; 0x1f9d1; 0x1f3fb];
  [0x1f9d1; 0x1f3fe; 0x200d; 0x1faef; 0x200d; 0x1f9d1; 0x1f3fc];
  [0x1f9d1; 0x1f3fe; 0x200d; 0x1faef; 0x200d; 0x1f9d1; 0x1f3fd];
  [0x1f9d1; 0x1f3fe; 0x200d; 0x1faef; 0x200d; 0x1f9d1; 0x1f3ff]; [0x1f9d1; 0x1f3ff];
  [0x1f9d1; 0x1f3ff; 0x200d; 0x2695; 0xfe0f]; [0x1f9d1; 0x1f3ff; 0x200d; 0x2696; 0xfe0f];
  [0x1f9d1; 0x1f3ff; 0x200d; 0x2708; 0xfe0f];
  [0x1f9d1; 0x1f3ff; 0x200d; 0x2764; 0xfe0f; 0x200d; 0x1f48b; 0x200d; 0x1f9d1; 0x1f3fb];
  [0x1f9d1; 0x1f3ff; 0x200d; 0x2764; 0xfe0f; 0x200d; 0x1f48b; 0x200d; 0x1f9d1; 0x1f3fc];
  [0x1f9d1; 0x1f3ff; 0x200d; 0x2764; 0xfe0f; 0x200d; 0x1f48b; 0x200d; 0x1f9d1; 0x1f3fd];
  [0x1f9d1; 0x1f3ff; 0x200d; 0x2764; 0xfe0f; 0x200d; 0x1f48b; 0x200d; 0x1f9d1; 0x1f3fe];
  [0x1f9d1; 0x1f3ff; 0x200d; 0x2764; 0xfe0f; 0x200d; 0x1f9d1; 0x1f3fb];
  [0x1f9d1; 0x1f3ff; 0x200d; 0x2764; 0xfe0f; 0x200d; 0x1f9d1; 0x1f3fc];
  [0x1f9d1; 0x1f3ff; 0x200d; 0x2764; 0xfe0f; 0x200d; 0x1f9d1; 0x1f3fd];
  [0x1f9d1; 0x1f3ff; 0x200d; 0x2764; 0xfe0f; 0x200d; 0x1f9d1; 0x1f3fe];
  [0x1f9d1; 0x1f3ff; 0x200d; 0x1f33e]; [0x1f9d1; 0x1f3ff; 0x200d; 0x1f373];
  [0x1f9d1; 0x1f3ff; 0x200d; 0x1f37c]; [0x1f9d1; 0x1f3ff; 0x200d; 0x1f384];
  [0x1f9d1; 0x1f3ff; 0x200d; 0x1f393]; [0x1f9d1; 0x1f3ff; 0x200d; 0x1f3a4];
  [0x1f9d1; 0x1f3ff; 0x200d; 0x1f3a8]; [0x1f9d1; 0x1f3ff; 0x200d; 0x1f3eb];
  [0x1f9d1; 0x1f3ff; 0x200d; 0x1f3ed];
  [0x1f9d1; 0x1f3ff; 0x200d; 0x1f430; 0x200d; 0x1f9d1; 0x1f3fb];
  [0x1f9d1; 0x1f3ff; 0x200d; 0x1f430; 0x200d; 0x1f9d1; 0x1f3fc];
  [0x1f9d1; 0x1f3ff; 0x200d; 0x1f430; 0x200d; 0x1f9d1; 0x1f3fd];
  [0x1f9d1; 0x1f3ff; 0x200d; 0x1f430; 0x200d; 0x1f9d1; 0x1f3fe];
  [0x1f9d1; 0x1f3ff; 0x200d; 0x1f4bb]; [0x1f9d1; 0x1f3ff; 0x200d; 0x1f4bc];
  [0x1f9d1; 0x1f3ff; 0x200d; 0x1f527]; [0x1f9d1; 0x1f3ff; 0x200d; 0x1f52c];
  [0x1f9d1; 0x1f3ff; 0x200d; 0x1f680]; [0x1f9d1; 0x1f3ff; 0x200d; 0x1f692];
  [0x1f9d1; 0x1f3ff; 0x200d; 0x1f91d; 0x200d; 0x1f9d1; 0x1f3fb];
  [0x1f9d1; 0x1f3ff; 0x200d; 0x1f91d; 0x200d; 0x1f9d1; 0x1f3fc];
  [0x1f9d1; 0x1f3ff; 0x200d; 0x1f91d; 0x200d; 0x1f9d1; 0x1f3fd];
  [0x1f9d1; 0x1f3ff; 0x200d; 0x1f91d; 0x200d; 0x1f9d1; 0x1f3fe];
  [0x1f9d1; 0x1f3ff; 0x200d; 0x1f91d; 0x200d; 0x1f9d1; 0x1f3ff];
  [0x1f9d1; 0x1f3ff; 0x200d; 0x1f9af];
  [0x1f9d1; 0x1f3ff; 0x200d; 0x1f9af; 0x200d; 0x27a1; 0xfe0f];
  [0x1f9d1; 0x1f3ff; 0x200d; 0x1f9b0]; [0x1f9d1; 0x1f3ff; 0x200d; 0x1f9b1];
  [0x1f9d1; 0x1f3ff; 0x200d; 0x1f9b2]; [0x1f9d1; 0x1f3ff; 0x200d; 0x1f9b3];
  [0x1f9d1; 0x1f3ff; 0x200d; 0x1f9bc];
  [0x1f9d1; 0x1f3ff; 0x200d; 0x1f9bc; 0x200d; 0x27a1; 0xfe0f];
  [0x1f9d1; 0x1f3ff; 0x200d; 0x1f9bd];
  [0x1f9d1; 0x1f3ff; 0x200d; 0x1f9bd; 0x200d; 0x27a1; 0xfe0f];
  [0x1f9d1; 0x1f3ff; 0x200d; 0x1fa70];
  [0x1f9d1; 0x1f3ff; 0x200d; 0x1faef; 0x200d; 0x1f9d1; 0x1f3fb];
  [0x1f9d1; 0x1f3ff; 0x200d; 0x1faef; 0x200d; 0x1f9d1; 0x1f3fc];
  [0x1f9d1; 0x1f3ff; 0x200d; 0x1faef; 0x200d; 0x1f9d1; 0x1f3fd];
  [0x1f9d1; 0x1f3ff; 0x200d; 0x1faef; 0x200d; 0x1f9d1; 0x1f3fe]; [0x1f9d2]; [0x1f9d2; 0x1f3fb];
  [0x1f9d2; 0x1f3fc]; [0x1f9d2; 0x1f3fd]; [0x1f9d2; 0x1f3fe]; [0x1f9d2; 0x1f3ff]; [0x1f9d3];
  [0x1f9d3; 0x1f3fb]; [0x1f9d3; 0x1f3fc]; [0x1f9d3; 0x1f3fd]; [0x1f9d3; 0x1f3fe];
  [0x1f9d3; 0x1f3ff]; [0x1f9d4]; [0x1f9d4; 0x200d; 0x2640; 0xfe0f];
  [0x1f9d4; 0x200d; 0x2642; 0xfe0f]; [0x1f9d4; 0x1f3fb];
  [0x1f9d4; 0x1f3fb; 0x200d; 0x2640; 0xfe0f]; [0x1f9d4; 0x1f3fb; 0x200d; 0x2642; 0xfe0f];
  [0x1f9d4; 0x1f3fc]; [0x1f9d4; 0x1f3fc; 0x200d; 0x2640; 0xfe0f];
  [0x1f9d4; 0x1f3fc; 0x200d; 0x2642; 0xfe0f]; [0x1f9d4; 0x1f3fd];
  [0x1f9d4; 0x1f3fd; 0x200d; 0x2640; 0xfe0f]; [0x1f9d4; 0x1f3fd; 0x200d; 0x2642; 0xfe0f];
  [0x1f9d4; 0x1f3fe]; [0x1f9d4; 0x1f3fe; 0x200d; 0x2640; 0xfe0f];
  [0x1f9d4; 0x1f3fe; 0x200d; 0x2642; 0xfe0f]; [0x1f9d4; 0x1f3ff];
  [0x1f9d4; 0x1f3ff; 0x200d; 0x2640; 0xfe0f]; [0x1f9d4; 0x1f3ff; 0x200d; 0x2642; 0xfe0f];
  [0x1f9d5]; [0x1f9d5; 0x1f3fb]; [0x1f9d5; 0x1f3fc]; [0x1f9d5; 0x1f3fd]; [0x1f9d5; 0x1f3fe];
  [0x1f9d5; 0x1f3ff]; [0x1f9d6]; [0x1f9d6; 0x200d; 0x2640; 0xfe0f];
  [0x1f9d6; 0x200d; 0x2642; 0xfe0f]; [0x1f9d6; 0x1f3fb];
  [0x1f9d6; 0x1f3fb; 0x200d; 0x2640; 0xfe0f]; [0x1f9d6; 0x1f3fb; 0x200d; 0x2642; 0xfe0f];
  [0x1f9d6; 0x1f3fc]; [0x1f9d6; 0x1f3fc; 0x200d; 0x2640; 0xfe0f];
  [0x1f9d6; 0x1f3fc; 0x200d; 0x2642; 0xfe0f]; [0x1f9d6; 0x1f3fd];
  [0x1f9d6; 0x1f3fd; 0x200d; 0x2640; 0xfe0f]; [0x1f9d6; 0x1f3fd; 0x200d; 0x2642; 0xfe0f];
  [0x1f9d6; 0x1f3fe]; [0x1f9d6; 0x1f3fe; 0x200d; 0x2640; 0xfe0f];
  [0x1f9d6; 0x1f3fe; 0x200d; 0x2642; 0xfe0f]; [0x1f9d6; 0x1f3ff];
  [0x1f9d6; 0x1f3ff; 0x200d; 0x2640; 0xfe0f]; [0x1f9d6; 0x1f3ff; 0x200d; 0x2642; 0xfe0f];
  [0x1f9d7]; [0x1f9d7; 0x200d; 0x2640; 0xfe0f]; [0x1f9d7; 0x200d; 0x2642; 0xfe0f];
  [0x1f9d7; 0x1f3fb]; [0x1f9d7; 0x1f3fb; 0x200d; 0x2640; 0xfe0f];
  [0x1f9d7; 0x1f3fb; 0x200d; 0x2642; 0xfe0f]; [0x1f9d7; 0x1f3fc];
  [0x1f9d7; 0x1f3fc; 0x200d; 0x2640; 0xfe0f]; [0x1f9d7; 0x1f3fc; 0x200d; 0x2642; 0xfe0f];
  [0x1f9d7; 0x1f3fd]; [0x1f9d7; 0x1f3fd; 0x200d; 0x2640; 0xfe0f];
  [0x1f9d7; 0x1f3fd; 0x200d; 0x2642; 0xfe0f]; [0x1f9d7; 0x1f3fe];
  [0x1f9d7; 0x1f3fe; 0x200d; 0x2640; 0xfe0f]; [0x1f9d7; 0x1f3fe; 0x200d; 0x2642; 0xfe0f];
  [0x1f9d7; 0x1f3ff]; [0x1f9d7; 0x1f3ff; 0x200d; 0x2640; 0xfe0f];
  [0x1f9d7; 0x1f3ff; 0x200d; 0x2642; 0xfe0f]; [0x1f9d8]; [0x1f9d8; 0x200d; 0x2640; 0xfe0f];
  [0x1f9d8; 0x200d; 0x2642; 0xfe0f]; [0x1f9d8; 0x1f3fb];
  [0x1f9d8; 0x1f3fb; 0x200d; 0x2640; 0xfe0f]; [0x1f9d8; 0x1f3fb; 0x200d; 0x2642; 0xfe0f];
  [0x1f9d8; 0x1f3fc]; [0x1f9d8; 0x1f3fc; 0x200d; 0x2640; 0xfe0f];
  [0x1f9d8; 0x1f3fc; 0x200d; 0x2642; 0xfe0f]; [0x1f9d8; 0x1f3fd];
  [0x1f9d8; 0x1f3fd; 0x200d; 0x2640; 0xfe0f]; [0x1f9d8; 0x1f3fd; 0x200d; 0x2642; 0xfe0f];
  [0x1f9d8; 0x1f3fe]; [0x1f9d8; 0x1f3fe; 0x200d; 0x2640; 0xfe0f];
  [0x1f9d8; 0x1f3fe; 0x200d; 0x2642; 0xfe0f]; [0x1f9d8; 0x1f3ff];
  [0x1f9d8; 0x1f3ff; 0x200d; 0x2640; 0xfe0f]; [0x1f9d8; 0x1f3ff; 0x200d; 0x2642; 0xfe0f];
  [0x1f9d9]; [0x1f9d9; 0x200d; 0x2640; 0xfe0f]; [0x1f9d9; 0x200d; 0x2642; 0xfe0f];
  [0x1f9d9; 0x1f3fb]; [0x1f9d9; 0x1f3fb; 0x200d; 0x2640; 0xfe0f];
  [0x1f9d9; 0x1f3fb; 0x200d; 0x2642; 0xfe0f]; [0x1f9d9; 0x1f3fc];
  [0x1f9d9; 0x1f3fc; 0x200d; 0x2640; 0xfe0f]; [0x1f9d9; 0x1f3fc; 0x200d; 0x2642; 0xfe0f];
  [0x1f9d9; 0x1f3fd]; [0x1f9d9; 0x1f3fd; 0x200d; 0x2640; 0xfe0f];
  [0x1f9d9; 0x1f3fd; 0x200d; 0x2642; 0xfe0f]; [0x1f9d9; 0x1f3fe];
  [0x1f9d9; 0x1f3fe; 0x200d; 0x2640; 0xfe0f]; [0x1f9d9; 0x1f3fe; 0x200d; 0x2642; 0xfe0f];
  [0x1f9d9; 0x1f3ff]; [0x1f9d9; 0x1f3ff; 0x200d; 0x2640; 0xfe0f];
  [0x1f9d9; 0x1f3ff; 0x200d; 0x2642; 0xfe0f]; [0x1f9da]; [0x1f9da; 0x200d; 0x2640; 0xfe0f];
  [0x1f9da; 0x200d; 0x2642; 0xfe0f]; [0x1f9da; 0x1f3fb];
  [0x1f9da; 0x1f3fb; 0x200d; 0x2640; 0xfe0f]; [0x1f9da; 0x1f3fb; 0x200d; 0x2642; 0xfe0f];
  [0x1f9da; 0x1f3fc]; [0x1f9da; 0x1f3fc; 0x200d; 0x2640; 0xfe0f];
  [0x1f9da; 0x1f3fc; 0x200d; 0x2642; 0xfe0f]; [0x1f9da; 0x1f3fd];
  [0x1f9da; 0x1f3fd; 0x200d; 0x2640; 0xfe0f]; [0x1f9da; 0x1f3fd; 0x200d; 0x2642; 0xfe0f];
  [0x1f9da; 0x1f3fe]; [0x1f9da; 0x1f3fe; 0x200d; 0x2640; 0xfe0f];
  [0x1f9da; 0x1f3fe; 0x200d; 0x2642; 0xfe0f]; [0x1f9da; 0x1f3ff];
  [0x1f9da; 0x1f3ff; 0x200d; 0x2640; 0xfe0f]; [0x1f9da; 0x1f3ff; 0x200d; 0x2642; 0xfe0f];
  [0x1f9db]; [0x1f9db; 0x200d; 0x2640; 0xfe0f]; [0x1f9db; 0x200d; 0x2642; 0xfe0f];
  [0x1f9db; 0x1f3fb]; [0x1f9db; 0x1f3fb; 0x200d; 0x2640; 0xfe0f];
  [0x1f9db; 0x1f3fb; 0x200d; 0x2642; 0xfe0f]; [0x1f9db; 0x1f3fc];
  [0x1f9db; 0x1f3fc; 0x200d; 0x2640; 0xfe0f]; [0x1f9db; 0x1f3fc; 0x200d; 0x2642; 0xfe0f];
  [0x1f9db; 0x1f3fd]; [0x1f9db; 0x1f3fd; 0x200d; 0x2640; 0xfe0f];
  [0x1f9db; 0x1f3fd; 0x200d; 0x2642; 0xfe0f]; [0x1f9db; 0x1f3fe];
  [0x1f9db; 0x1f3fe; 0x200d; 0x2640; 0xfe0f]; [0x1f9db; 0x1f3fe; 0x200d; 0x2642; 0xfe0f];
  [0x1f9db; 0x1f3ff]; [0x1f9db; 0x1f3ff; 0x200d; 0x2640; 0xfe0f];
  [0x1f9db; 0x1f3ff; 0x200d; 0x2642; 0xfe0f]; [0x1f9dc]; [0x1f9dc; 0x200d; 0x2640; 0xfe0f];
  [0x1f9dc; 0x200d; 0x2642; 0xfe0f]; [0x1f9dc; 0x1f3fb];
  [0x1f9dc; 0x1f3fb; 0x200d; 0x2640; 0xfe0f]; [0x1f9dc; 0x1f3fb; 0x200d; 0x2642; 0xfe0f];
  [0x1f9dc; 0x1f3fc]; [0x1f9dc; 0x1f3fc; 0x200d; 0x2640; 0xfe0f];
  [0x1f9dc; 0x1f3fc; 0x200d; 0x2642; 0xfe0f]; [0x1f9dc; 0x1f3fd];
  [0x1f9dc; 0x1f3fd; 0x200d; 0x2640; 0xfe0f]; [0x1f9dc; 0x1f3fd; 0x200d; 0x2642; 0xfe0f];
  [0x1f9dc; 0x1f3fe]; [0x1f9dc; 0x1f3fe; 0x200d; 0x2640; 0xfe0f];
  [0x1f9dc; 0x1f3fe; 0x200d; 0x2642; 0xfe0f]; [0x1f9dc; 0x1f3ff];
  [0x1f9dc; 0x1f3ff; 0x200d; 0x2640; 0xfe0f]; [0x1f9dc; 0x1f3ff; 0x200d; 0x2642; 0xfe0f];
  [0x1f9dd]; [0x1f9dd; 0x200d; 0x2640; 0xfe0f]; [0x1f9dd; 0x200d; 0x2642; 0xfe0f];
  [0x1f9dd; 0x1f3fb]; [0x1f9dd; 0x1f3fb; 0x200d; 0x2640; 0xfe0f];
  [0x1f9dd; 0x1f3fb; 0x200d; 0x2642; 0xfe0f]; [0x1f9dd; 0x1f3fc];
  [0x1f9dd; 0x1f3fc; 0x200d; 0x2640; 0xfe0f]; [0x1f9dd; 0x1f3fc; 0x200d; 0x2642; 0xfe0f];
  [0x1f9dd; 0x1f3fd]; [0x1f9dd; 0x1f3fd; 0x200d; 0x2640; 0xfe0f];
  [0x1f9dd; 0x1f3fd; 0x200d; 0x2642; 0xfe0f]; [0x1f9dd; 0x1f3fe];
  [0x1f9dd; 0x1f3fe; 0x200d; 0x2640; 0xfe0f]; [0x1f9dd; 0x1f3fe; 0x200d; 0x2642; 0xfe0f];
  [0x1f9dd; 0x1f3ff]; [0x1f9dd; 0x1f3ff; 0x200d; 0x2640; 0xfe0f];
  [0x1f9dd; 0x1f3ff; 0x200d; 0x2642; 0xfe0f]; [0x1f9de]; [0x1f9de; 0x200d; 0x2640; 0xfe0f];
  [0x1f9de; 0x200d; 0x2642; 0xfe0f]; [0x1f9df]; [0x1f9df; 0x200d; 0x2640; 0xfe0f];
  [0x1f9df; 0x200d; 0x2642; 0xfe0f]; [0x1f9e0]; [0x1f9e1]; [0x1f9e2]; [0x1f9e3]; [0x1f9e4];
  [0x1f9e5]; [0x1f9e6]; [0x1f9e7]; [0x1f9e8]; [0x1f9e9]; [0x1f9ea]; [0x1f9eb]; [0x1f9ec];
  [0x1f9ed]; [0x1f9ee]; [0x1f9ef]; [0x1f9f0]; [0x1f9f1]; [0x1f9f2]; [0x1f9f3]; [0x1f9f4];
  [0x1f9f5]; [0x1f9f6]; [0x1f9f7]; [0x1f9f8]; [0x1f9f9]; [0x1f9fa]; [0x1f9fb]; [0x1f9fc];
  [0x1f9fd]; [0x1f9fe]; [0x1f9ff]; [0x1fa70]; [0x1fa71]; [0x1fa72]; [0x1fa73]; [0x1fa74];
  [0x1fa75]; [0x1fa76]; [0x1fa77]; [0x1fa78]; [0x1fa79]; [0x1fa7a]; [0x1fa7b]; [0x1fa7c];
  [0x1fa80]; [0x1fa81]; [0x1fa82]; [0x1fa83]; [0x1fa84]; [0x1fa85]; [0x1fa86]; [0x1fa87];
  [0x1fa88]; [0x1fa89]; [0x1fa8a]; [0x1fa8e]; [0x1fa8f]; [0x1fa90]; [0x1fa91]; [0x1fa92];
  [0x1fa93]; [0x1fa94]; [0x1fa95]; [0x1fa96]; [0x1fa97]; [0x1fa98]; [0x1fa99]; [0x1fa9a];
  [0x1fa9b]; [0x1fa9c]; [0x1fa9d]; [0x1fa9e]; [0x1fa9f]; [0x1faa0]; [0x1faa1]; [0x1faa2];
  [0x1faa3]; [0x1faa4]; [0x1faa5]; [0x1faa6]; [0x1faa7]; [0x1faa8]; [0x1faa9]; [0x1faaa];
  [0x1faab]; [0x1faac]; [0x1faad]; [0x1faae]; [0x1faaf]; [0x1fab0]; [0x1fab1]; [0x1fab2];
  [0x1fab3]; [0x1fab4]; [0x1fab5]; [0x1fab6]; [0x1fab7]; [0x1fab8]; [0x1fab9]; [0x1faba];
  [0x1fabb]; [0x1fabc]; [0x1fabd]; [0x1fabe]; [0x1fabf]; [0x1fac0]; [0x1fac1]; [0x1fac2];
  [0x1fac3]; [0x1fac3; 0x1f3fb]; [0x1fac3; 0x1f3fc]; [0x1fac3; 0x1f3fd]; [0x1fac3; 0x1f3fe];
  [0x1fac3; 0x1f3ff]; [0x1fac4]; [0x1fac4; 0x1f3fb]; [0x1fac4; 0x1f3fc]; [0x1fac4; 0x1f3fd];
  [0x1fac4; 0x1f3fe]; [0x1fac4; 0x1f3ff]; [0x1fac5]; [0x1fac5; 0x1f3fb]; [0x1fac5; 0x1f3fc];
  [0x1fac5; 0x1f3fd]; [0x1fac5; 0x1f3fe]; [0x1fac5; 0x1f3ff]; [0x1fac6]; [0x1fac8]; [0x1facd];
  [0x1face]; [0x1facf]; [0x1fad0]; [0x1fad1]; [0x1fad2]; [0x1fad3]; [0x1fad4]; [0x1fad5];
  [0x1fad6]; [0x1fad7]; [0x1fad8]; [0x1fad9]; [0x1fada]; [0x1fadb]; [0x1fadc]; [0x1fadf];
  [0x1fae0]; [0x1fae1]; [0x1fae2]; [0x1fae3]; [0x1fae4]; [0x1fae5]; [0x1fae6]; [0x1fae7];
  [0x1fae8]; [0x1fae9]; [0x1faea]; [0x1faef]; [0x1faf0]; [0x1faf0; 0x1f3fb]; [0x1faf0; 0x1f3fc];
  [0x1faf0; 0x1f3fd]; [0x1faf0; 0x1f3fe]; [0x1faf0; 0x1f3ff]; [0x1faf1]; [0x1faf1; 0x1f3fb];
  [0x1faf1; 0x1f3fb; 0x200d; 0x1faf2; 0x1f3fc]; [0x1faf1; 0x1f3fb; 0x200d; 0x1faf2; 0x1f3fd];
  [0x1faf1; 0x1f3fb; 0x200d; 0x1faf2; 0x1f3fe]; [0x1faf1; 0x1f3fb; 0x200d; 0x1faf2; 0x1f3ff];
  [0x1faf1; 0x1f3fc]; [0x1faf1; 0x1f3fc; 0x200d; 0x1faf2; 0x1f3fb];
  [0x1faf1; 0x1f3fc; 0x200d; 0x1faf2; 0x1f3fd]; [0x1faf1; 0x1f3fc; 0x200d; 0x1faf2; 0x1f3fe];
  [0x1faf1; 0x1f3fc; 0x200d; 0x1faf2; 0x1f3ff]; [0x1faf1; 0x1f3fd];
  [0x1faf1; 0x1f3fd; 0x200d; 0x1faf2; 0x1f3fb]; [0x1faf1; 0x1f3fd; 0x200d; 0x1faf2; 0x1f3fc];
  [0x1faf1; 0x1f3fd; 0x200d; 0x1faf2; 0x1f3fe]; [0x1faf1; 0x1f3fd; 0x200d; 0x1faf2; 0x1f3ff];
  [0x1faf1; 0x1f3fe]; [0x1faf1; 0x1f3fe; 0x200d; 0x1faf2; 0x1f3fb];
  [0x1faf1; 0x1f3fe; 0x200d; 0x1faf2; 0x1f3fc]; [0x1faf1; 0x1f3fe; 0x200d; 0x1faf2; 0x1f3fd];
  [0x1faf1; 0x1f3fe; 0x200d; 0x1faf2; 0x1f3ff]; [0x1faf1; 0x1f3ff];
  [0x1faf1; 0x1f3ff; 0x200d; 0x1faf2; 0x1f3fb]; [0x1faf1; 0x1f3ff; 0x200d; 0x1faf2; 0x1f3fc];
  [0x1faf1; 0x1f3ff; 0x200d; 0x1faf2; 0x1f3fd]; [0x1faf1; 0x1f3ff; 0x200d; 0x1faf2; 0x1f3fe];
  [0x1faf2]; [0x1faf2; 0x1f3fb]; [0x1faf2; 0x1f3fc]; [0x1faf2; 0x1f3fd]; [0x1faf2; 0x1f3fe];
  [0x1faf2; 0x1f3ff]; [0x1faf3]; [0x1faf3; 0x1f3fb]; [0x1faf3; 0x1f3fc]; [0x1faf3; 0x1f3fd];
  [0x1faf3; 0x1f3fe]; [0x1faf3; 0x1f3ff]; [0x1faf4]; [0x1faf4; 0x1f3fb]; [0x1faf4; 0x1f3fc];
  [0x1faf4; 0x1f3fd]; [0x1faf4; 0x1f3fe]; [0x1faf4; 0x1f3ff]; [0x1faf5]; [0x1faf5; 0x1f3fb];
  [0x1faf5; 0x1f3fc]; [0x1faf5; 0x1f3fd]; [0x1faf5; 0x1f3fe]; [0x1faf5; 0x1f3ff]; [0x1faf6];
  [0x1faf6; 0x1f3fb]; [0x1faf6; 0x1f3fc]; [0x1faf6; 0x1f3fd]; [0x1faf6; 0x1f3fe];
  [0x1faf6; 0x1f3ff]; [0x1faf7]; [0x1faf7; 0x1f3fb]; [0x1faf7; 0x1f3fc]; [0x1faf7; 0x1f3fd];
  [0x1faf7; 0x1f3fe]; [0x1faf7; 0x1f3ff]; [0x1faf8]; [0x1faf8; 0x1f3fb]; [0x1faf8; 0x1f3fc];
  [0x1faf8; 0x1f3fd]; [0x1faf8; 0x1f3fe]; [0x1faf8; 0x1f3ff]].
