(* ===== verification/TagScan.v ===== *)
(** * Tags and mentions in text

    [internal/markdown/parser/tag.go] and [mention.go], which find the tags and
    mentions of one run of literal text, with [internal/base/username.go] and the
    functions of [unicode/utf8] they use.  A [[]byte] is a list of bytes, and
    [source[pos:]] is an argument of its own.  A loop that advances [pos] by the
    length of what it has just read recurses on the bytes ahead: its argument
    [skip] counts those it has read already. *)
From stdpp Require Import gmap sets strings list.
From S2P Require Import Prelude GoLib TagTables.

Abbreviation bytes := (list Ascii.ascii).

(** ** [unicode/utf8] *)

Definition RuneError : Z := 0xFFFD.

Definition in_range (lo hi c : Z) : bool := ((lo <=? c) && (c <=? hi))%Z.

(** The second byte a first byte of a multi-byte sequence accepts, and the length
    of the sequence ([utf8.first] and [utf8.acceptRanges]). *)
Definition first_byte (b : Z) : option (nat * Z * Z) :=
  if in_range 0xC2 0xDF b then Some (2%nat, 0x80, 0xBF)%Z
  else if (b =? 0xE0)%Z then Some (3%nat, 0xA0, 0xBF)%Z
  else if (b =? 0xED)%Z then Some (3%nat, 0x80, 0x9F)%Z
  else if in_range 0xE1 0xEF b then Some (3%nat, 0x80, 0xBF)%Z
  else if (b =? 0xF0)%Z then Some (4%nat, 0x90, 0xBF)%Z
  else if (b =? 0xF4)%Z then Some (4%nat, 0x80, 0x8F)%Z
  else if in_range 0xF1 0xF3 b then Some (4%nat, 0x80, 0xBF)%Z
  else None.

Definition mask_x (c : Z) : Z := Z.land c 0x3F.

(** [utf8.DecodeRune]: the rune and its width, [(RuneError, 1)] for an invalid
    encoding and [(RuneError, 0)] for no bytes at all. *)
Definition DecodeRune (p : bytes) : Z * nat :=
  match p with
  | [] => (RuneError, 0%nat)
  | c0 :: p =>
      let b0 := byte_of c0 in
      if (b0 <? 0x80)%Z then (b0, 1%nat) else
      match first_byte b0, p with
      | Some (n, lo, hi), c1 :: p =>
          let b1 := byte_of c1 in
          if negb (in_range lo hi b1) then (RuneError, 1%nat)
          else if Nat.eqb n 2 then (Z.lor (Z.shiftl (Z.land b0 0x1F) 6) (mask_x b1), 2%nat)
          else match p with
               | c2 :: p =>
                   let b2 := byte_of c2 in
                   if negb (in_range 0x80 0xBF b2) then (RuneError, 1%nat)
                   else if Nat.eqb n 3 then
                     (Z.lor (Z.lor (Z.shiftl (Z.land b0 0x0F) 12) (Z.shiftl (mask_x b1) 6)) (mask_x b2), 3%nat)
                   else match p with
                        | c3 :: _ =>
                            let b3 := byte_of c3 in
                            if negb (in_range 0x80 0xBF b3) then (RuneError, 1%nat)
                            else (Z.lor (Z.lor (Z.lor (Z.shiftl (Z.land b0 0x07) 18)
                                                      (Z.shiftl (mask_x b1) 12))
                                               (Z.shiftl (mask_x b2) 6)) (mask_x b3), 4%nat)
                        | [] => (RuneError, 1%nat)
                        end
               | [] => (RuneError, 1%nat)
               end
      | _, _ => (RuneError, 1%nat)
      end
  end.

(** [r == utf8.RuneError && size == 1]. *)
Definition invalid (d : Z * nat) : bool := (d.1 =? RuneError)%Z && Nat.eqb d.2 1.

Definition byte (z : Z) : Ascii.ascii := Ascii.ascii_of_N (Z.to_N z).
Definition continuation (r shift : Z) : Ascii.ascii := byte (Z.lor 0x80 (mask_x (Z.shiftr r shift))).

(** The encoding of a code point in a Go string literal. *)
Definition encode_rune (r : Z) : bytes :=
  if (r <? 0x80)%Z then [byte r]
  else if (r <? 0x800)%Z then [byte (Z.lor 0xC0 (Z.shiftr r 6)); continuation r 0]
  else if (r <? 0x10000)%Z then
    [byte (Z.lor 0xE0 (Z.shiftr r 12)); continuation r 6; continuation r 0]
  else [byte (Z.lor 0xF0 (Z.shiftr r 18)); continuation r 12; continuation r 6; continuation r 0].

Definition encode (rs : list Z) : bytes := mjoin (encode_rune <$> rs).

(** ** Unicode properties *)

(** The binary search narrows [low, high) to nothing in at most as many steps as
    it is wide. *)
Fixpoint search_range (steps : nat) (ranges : list codePointRange) (r : Z) (low high : nat) : bool :=
  match steps with
  | O => false
  | S steps =>
      if Nat.ltb low high then
        let middle := (low + (high - low) / 2)%nat in
        match ranges !! middle with
        | None => false
        | Some current =>
            if (r <? lo current)%Z then search_range steps ranges r low middle
            else if (hi current <? r)%Z then search_range steps ranges r (middle + 1) high
            else true
        end
      else false
  end.

Definition containsCodePoint (ranges : list codePointRange) (r : Z) : bool :=
  search_range (length ranges) ranges r 0 (length ranges).

Definition isXIDContinue (r : Z) : bool := containsCodePoint unicode17XIDContinue r.
Definition isDefaultIgnorable (r : Z) : bool := containsCodePoint unicode17DefaultIgnorable r.
Definition isCombiningMark (r : Z) : bool := containsCodePoint unicode17CombiningMarks r.

Definition rune_of (c : Ascii.ascii) : Z := byte_of c.

Definition is_extension (r : Z) : bool :=
  ((r =? rune_of "-") || (r =? rune_of "+") || (r =? rune_of "&"))%Z.

Definition isSegmentStarter (r : Z) : bool :=
  is_extension r || (isXIDContinue r && negb (isCombiningMark r) && negb (isDefaultIgnorable r)).

Definition isSegmentContinuation (r : Z) : bool :=
  is_extension r || (isXIDContinue r && negb (isDefaultIgnorable r)).

Definition isApostropheJoiner (r : Z) : bool := ((r =? rune_of "'") || (r =? 0x2019))%Z.

(** ** Emoji *)

Definition emoji17FullyQualified : gmap bytes unit :=
  list_to_map ((λ rs, (encode rs, tt)) <$> emoji17Sequences).
#[global] Opaque emoji17FullyQualified.

(** [_, ok := emoji17FullyQualified[s]]. *)
Definition is_emoji (s : bytes) : bool :=
  match emoji17FullyQualified !! s with Some _ => true | None => false end.

(** From [pos] on, with [ahead] the bytes of [source] from there. *)
Fixpoint emoji_from (skip : nat) (ahead source : bytes) (limit pos found : nat) : nat :=
  match ahead with
  | [] => found
  | _ :: next =>
      match skip with
      | S skip => emoji_from skip next source limit pos found
      | O =>
          if Nat.ltb pos limit then
            let d := DecodeRune ahead in
            if invalid d then found
            else
              let pos := (pos + d.2)%nat in
              if Nat.ltb limit pos then found
              else
                let found := if is_emoji (take pos source) then pos else found in
                emoji_from (d.2 - 1) next source limit pos found
          else found
      end
  end.

Definition matchFullyQualifiedEmoji (source : bytes) : nat :=
  emoji_from 0 source source (Nat.min (length source) maxEmoji17SequenceBytes) 0 0.

Definition startsNonCombiningXIDContinuation (source : bytes) : bool :=
  match source with
  | [] => false
  | _ =>
      if Nat.ltb 0 (matchFullyQualifiedEmoji source) then false
      else
        let d := DecodeRune source in
        if invalid d then false
        else isXIDContinue d.1 && negb (isCombiningMark d.1) && negb (isDefaultIgnorable d.1)
  end.

(** ** Tags *)

(** The functions of [goldmark/util] that the scanner calls. *)
Class Goldmark := {
  IsPunct : Ascii.ascii → bool;
  IsAlphaNumeric : Ascii.ascii → bool;
  LookUpHTML5EntityByName : bytes → bool }.

Record TagMatch := mkTag { tg_start : nat; tg_end : nat; tg_value : bytes }.

Section scanner.
Context `{Goldmark}.

(** How many of the first [max] bytes satisfy [p] before one does not. *)
Fixpoint span (p : Ascii.ascii → bool) (max : nat) (s : bytes) : nat :=
  match max, s with
  | S max, c :: s => if p c then S (span p max s) else 0
  | _, _ => 0
  end.

Definition is_hex_digit (c : Ascii.ascii) : bool :=
  let b := byte_of c in
  Str.is_digit c || in_range (rune_of "a") (rune_of "f") b || in_range (rune_of "A") (rune_of "F") b.

(** [start] bytes, digits up to [max], and the semicolon. *)
Definition numeric_reference (p : Ascii.ascii → bool) (max start : nat) (source : bytes) : nat :=
  let pos := (start + span p max (drop start source))%nat in
  if Nat.ltb start pos && bool_decide (source !! pos = Some ";"%char) then pos + 1 else 0.

Definition characterReferenceLength (source : bytes) : nat :=
  if Nat.ltb (length source) 3 || negb (bool_decide (source !! 0%nat = Some "&"%char)) then 0
  else if bool_decide (source !! 1%nat = Some "#"%char) then
    if bool_decide (source !! 2%nat = Some "x"%char) || bool_decide (source !! 2%nat = Some "X"%char)
    then numeric_reference is_hex_digit 6 3 source
    else numeric_reference Str.is_digit 7 2 source
  else
    let pos := (1 + span IsAlphaNumeric 32 (drop 1 source))%nat in
    if Nat.eqb pos 1 || negb (bool_decide (source !! pos = Some ";"%char)) then 0
    else if LookUpHTML5EntityByName (drop 1 (take pos source)) then pos + 1
    else 0.

(** [source[pos] == '&' && characterReferenceLength(source[pos:]) > 0]. *)
Definition at_reference (ahead : bytes) : bool :=
  match ahead with
  | c :: _ => Ascii.eqb c "&" && Nat.ltb 0 (characterReferenceLength ahead)
  | [] => false
  end.

(** The loop [starter]: the position after the first byte of the value, the
    value so far, and [previousWasXIDContinuation]. *)
Fixpoint segment_starter (skip : nat) (ahead : bytes) (pos : nat) : option (nat * bytes * bool) :=
  match ahead with
  | [] => None
  | _ :: next =>
      match skip with
      | S skip => segment_starter skip next pos
      | O =>
          if at_reference ahead then None
          else
            let emojiLength := matchFullyQualifiedEmoji ahead in
            if Nat.ltb 0 emojiLength then Some ((pos + emojiLength)%nat, take emojiLength ahead, false)
            else
              let d := DecodeRune ahead in
              let r := d.1 in
              if invalid d then None
              else if isDefaultIgnorable r then segment_starter (d.2 - 1) next (pos + d.2)
              else if isXIDContinue r && isCombiningMark r then segment_starter (d.2 - 1) next (pos + d.2)
              else if isSegmentStarter r then
                Some ((pos + d.2)%nat, take d.2 ahead, isXIDContinue r && negb (isDefaultIgnorable r))
              else None
      end
  end.

(** The second loop: the position where it stops and the value. *)
Fixpoint segment_rest (skip : nat) (ahead : bytes) (pos : nat) (value : bytes) (previous : bool) : nat * bytes :=
  match ahead with
  | [] => (pos, value)
  | _ :: next =>
      match skip with
      | S skip => segment_rest skip next pos value previous
      | O =>
          if at_reference ahead then (pos, value)
          else
            let emojiLength := matchFullyQualifiedEmoji ahead in
            if Nat.ltb 0 emojiLength then
              segment_rest (emojiLength - 1) next (pos + emojiLength) (value ++ take emojiLength ahead) false
            else
              let d := DecodeRune ahead in
              let r := d.1 in
              if invalid d then (pos, value)
              else if isDefaultIgnorable r then segment_rest (d.2 - 1) next (pos + d.2) value false
              else if isApostropheJoiner r && previous && startsNonCombiningXIDContinuation (drop d.2 ahead)
              then segment_rest (d.2 - 1) next (pos + d.2) (value ++ take d.2 ahead) false
              else if isSegmentContinuation r then
                segment_rest (d.2 - 1) next (pos + d.2) (value ++ take d.2 ahead)
                  (isXIDContinue r && negb (isDefaultIgnorable r))
              else (pos, value)
      end
  end.

Definition scanTagSegment (source : bytes) : option (nat * bytes) :=
  match segment_starter 0 source 0 with
  | None => None
  | Some (pos, value, previous) => Some (segment_rest 0 (drop pos source) pos value previous)
  end.

(** From [consumed] on. *)
Fixpoint segments_from (skip : nat) (ahead : bytes) (consumed : nat) (value : bytes) : nat * bytes :=
  match ahead with
  | [] => (consumed, value)
  | c :: next =>
      match skip with
      | S skip => segments_from skip next consumed value
      | O =>
          if Ascii.eqb c "/" then
            match scanTagSegment next with
            | None => (consumed, value)
            | Some (segmentLength, segmentValue) =>
                segments_from segmentLength next (consumed + (1 + segmentLength))
                  (value ++ "/"%char :: segmentValue)
            end
          else (consumed, value)
      end
  end.

Definition scanTagIdentifier (source : bytes) : option (nat * bytes) :=
  match scanTagSegment source with
  | None => None
  | Some (consumed, value) => Some (segments_from 0 (drop consumed source) consumed value)
  end.

(** [source[pos] == '\\' && pos+1 < len(source) && util.IsPunct(source[pos+1])]. *)
Definition at_escape (ahead : bytes) : bool :=
  match ahead with
  | c :: c1 :: _ => Ascii.eqb c "\" && IsPunct c1
  | _ => false
  end.

Fixpoint tags_from (skip : nat) (ahead : bytes) (pos : nat) : list TagMatch :=
  match ahead with
  | [] => []
  | c :: next =>
      match skip with
      | S skip => tags_from skip next pos
      | O =>
          let emojiLength := matchFullyQualifiedEmoji ahead in
          let referenceLength := characterReferenceLength ahead in
          if Nat.ltb 0 emojiLength then tags_from (emojiLength - 1) next (pos + emojiLength)
          else if Nat.ltb 0 referenceLength then tags_from (referenceLength - 1) next (pos + referenceLength)
          else if at_escape ahead then tags_from 1 next (pos + 2)
          else if negb (Ascii.eqb c "#") then
            let size := (DecodeRune ahead).2 in tags_from (size - 1) next (pos + size)
          else
            match scanTagIdentifier next with
            | None => tags_from 0 next (pos + 1)
            | Some (consumed, value) =>
                let stop := (pos + consumed + 1)%nat in
                mkTag pos stop value :: tags_from consumed next stop
            end
      end
  end.

Definition FindTagMatches (source : bytes) : list TagMatch := tags_from 0 source 0.
End scanner.

(** ** Usernames and mentions *)

Definition isASCIILetter (char : Ascii.ascii) : bool :=
  in_range (rune_of "A") (rune_of "Z") (byte_of char) || in_range (rune_of "a") (rune_of "z") (byte_of char).
Definition isASCIIDigit (char : Ascii.ascii) : bool := in_range (rune_of "0") (rune_of "9") (byte_of char).
Definition isASCIIAlphanumeric (char : Ascii.ascii) : bool := isASCIILetter char || isASCIIDigit char.
Definition IsUsernameCharacter (char : Ascii.ascii) : bool := isASCIIAlphanumeric char || Ascii.eqb char "-".

Definition MaxUsernameLength : nat := 36.

Definition is_alphanumeric_at (o : option Ascii.ascii) : bool :=
  match o with Some c => isASCIIAlphanumeric c | None => false end.

Definition IsValidUsername (username : bytes) : bool :=
  if Nat.eqb (length username) 0 || Nat.ltb MaxUsernameLength (length username)
     || negb (is_alphanumeric_at (head username)) || negb (is_alphanumeric_at (last username))
  then false
  else forallb IsUsernameCharacter username.

Record MentionMatch := mkMention { mn_start : nat; mn_end : nat; mn_username : bytes }.

Definition hasMentionLeftBoundary (source : bytes) (pos : nat) (runHasLeftBoundary : bool) : bool :=
  match pos with
  | O => runHasLeftBoundary
  | S before => match source !! before with Some c => negb (IsUsernameCharacter c) | None => true end
  end.

(** The bytes the inner loop passes over. *)
Fixpoint username_length (s : bytes) : nat :=
  match s with
  | c :: s => if IsUsernameCharacter c then S (username_length s) else 0
  | [] => 0
  end.

Section mentions.
Context `{Goldmark} (source : bytes) (runHasLeftBoundary : bool).

Fixpoint mentions_from (skip : nat) (ahead : bytes) (pos : nat) : list MentionMatch :=
  match ahead with
  | [] => []
  | c :: next =>
      match skip with
      | S skip => mentions_from skip next pos
      | O =>
          if at_escape ahead then mentions_from 1 next (pos + 2)
          else if negb (Ascii.eqb c "@") || negb (hasMentionLeftBoundary source pos runHasLeftBoundary)
          then mentions_from 0 next (pos + 1)
          else
            let stop := (pos + 1 + username_length next)%nat in
            let username := take (username_length next) next in
            (if IsValidUsername username then [mkMention pos stop username] else []) ++
            mentions_from (username_length next) next stop
      end
  end.

Definition FindMentionMatches : list MentionMatch := mentions_from 0 source 0.
End mentions.
