(* ===== verification/TagFacts.v ===== *)
(** * Facts about tags

    Decoding of runes, the binary search in the tables, the longest emoji, and
    what they make of tags: where tags lie, that a tag's value is a tag again, and
    that tags are found word by word. *)
From stdpp Require Import gmap sets strings list.
From S2P Require Import Prelude GoLib TagTables TagScan.
#[local] Open Scope Z_scope.

(** ** Definitions the statements use *)

Definition ASCII (c : Ascii.ascii) : Prop := byte_of c < 0x80.

(** The bytes of one valid rune. *)
Definition chunk (r : Z) (c : bytes) : Prop :=
  DecodeRune c = (r, length c) ∧ c ≠ [] ∧ invalid (DecodeRune c) = false.

Definition in_ranges (ranges : list codePointRange) (r : Z) : bool :=
  existsb (λ g, (lo g <=? r) && (r <=? hi g)) ranges.

(** Ascending and disjoint ranges. *)
Fixpoint ascending (from : Z) (ranges : list codePointRange) : bool :=
  match ranges with
  | [] => true
  | g :: ranges => (from <? lo g) && (lo g <=? hi g) && ascending (hi g) ranges
  end.

(** [take n source] is an emoji of [source]. *)
Definition emoji_prefix (source : bytes) (n : nat) : Prop :=
  (n ≤ length source)%nat ∧ is_emoji (take n source) = true.

Definition emoji_heads : gmap Z unit :=
  list_to_map (omap (λ rs, match rs with r :: _ => Some (r, tt) | [] => None end) emoji17Sequences).
#[global] Opaque emoji_heads.

Definition is_emoji_head (r : Z) : bool := match emoji_heads !! r with Some _ => true | None => false end.

(** The runes a value, or what follows an atom of it, can begin with. *)
Definition fresh_rune (r : Z) : bool :=
  isSegmentContinuation r || isApostropheJoiner r || (r =? rune_of "/") || is_emoji_head r.

Definition base_rune (r : Z) : bool :=
  isSegmentContinuation r || isApostropheJoiner r || (r =? rune_of "#").

Definition rune_ok (r : Z) : bool :=
  let d := DecodeRune (encode_rune r) in
  (d.1 =? r) && Nat.eqb d.2 (length (encode_rune r)) && negb (Nat.eqb d.2 0) && negb (invalid d).

(** What is checked of the rest [rs] of a sequence that begins with [before]. *)
Fixpoint no_merge (before rs : list Z) : bool :=
  match rs with
  | [] => true
  | r :: rs' =>
      (match before with
       | [] => true
       | r0 :: tail =>
           negb ((is_emoji (encode before) || (match tail with [] => base_rune r0 | _ => false end))
                 && fresh_rune r)
       end) && no_merge (before ++ [r]) rs'
  end.

Definition sequence_ok (rs : list Z) : bool :=
  match rs with [] => false | r0 :: _ => negb (r0 =? rune_of "/") end
  && forallb (λ c, (0x20 <? byte_of c) && negb (Ascii.eqb c ";")) (encode rs)
  && forallb rune_ok rs && Nat.leb (length (encode rs)) maxEmoji17SequenceBytes && no_merge [] rs.

Lemma tables_ascending :
  ascending (-1) unicode17XIDContinue && ascending (-1) unicode17DefaultIgnorable
  && ascending (-1) unicode17CombiningMarks = true.
Proof. vm_compute. reflexivity. Qed.

Lemma sequences_ok : forallb sequence_ok emoji17Sequences = true.
Proof. vm_compute. reflexivity. Qed.

(** ** Runes *)

Ltac decode_cases p :=
  destruct p as [|? [|? [|? [|? ?]]]]; cbn [DecodeRune take drop length app fst snd];
  repeat (case_match; cbn [DecodeRune take drop length app fst snd invalid] in *; simplify_eq).

Lemma first_byte_spec b n l h : first_byte b = Some (n, l, h) → 0x80 ≤ l ∧ n ∈ [2; 3; 4]%nat.
Proof.
  unfold first_byte. intros Hb.
  repeat (case_match; simplify_eq); (split; [lia | set_solver]).
Qed.

Lemma decode_size p : p ≠ [] → (1 ≤ (DecodeRune p).2 ≤ length p)%nat.
Proof. intros Hp. decode_cases p; try done; lia. Qed.

Lemma invalid_one r : invalid (r, 1%nat) = false → r ≠ RuneError.
Proof. unfold invalid. cbn. rewrite andb_true_r. lia. Qed.

Lemma decode_app p t : p ≠ [] → invalid (DecodeRune p) = false → DecodeRune (p ++ t) = DecodeRune p.
Proof. intros Hp Hv. decode_cases p; try done. Qed.

Lemma decode_take p : p ≠ [] → invalid (DecodeRune p) = false →
  chunk (DecodeRune p).1 (take (DecodeRune p).2 p).
Proof.
  intros Hp Hv. unfold chunk. decode_cases p; try done.
Qed.

(** A byte below 0x80 ends every rune before it. *)
Lemma decode_stop p c t : p ≠ [] → ASCII c → DecodeRune (p ++ c :: t) = DecodeRune p.
Proof.
  intros Hp Hc. unfold ASCII in Hc.
  decode_cases p; try done;
    try match goal with H : first_byte _ = Some _ |- _ => apply first_byte_spec in H as [? ?] end;
    exfalso; unfold in_range in *; lia.
Qed.

Lemma decode_ascii c t : ASCII c → DecodeRune (c :: t) = (byte_of c, 1%nat).
Proof. intros Hc. unfold ASCII in Hc. cbn. case_match; [done | lia]. Qed.

(** ** The binary search *)

Lemma ascending_bounds ranges : ∀ from i g, ascending from ranges = true → ranges !! i = Some g →
  from < lo g ≤ hi g.
Proof.
  induction ranges as [|h ranges IH]; intros from i g Ha Hi; [done|].
  cbn in Ha. rewrite !andb_true_iff in Ha. destruct Ha as [[H1 H2] H3].
  destruct i as [|i]; cbn in Hi; simplify_eq; [lia|].
  specialize (IH _ _ _ H3 Hi). lia.
Qed.

Lemma ascending_ordered ranges : ∀ from i j g h, ascending from ranges = true →
  (i < j)%nat → ranges !! i = Some g → ranges !! j = Some h → hi g < lo h.
Proof.
  induction ranges as [|k ranges IH]; intros from i j g h Ha Hij Hi Hj; [done|].
  cbn in Ha. rewrite !andb_true_iff in Ha. destruct Ha as [_ H3].
  destruct j as [|j]; [lia|]. destruct i as [|i]; cbn in Hi, Hj; simplify_eq.
  - by destruct (ascending_bounds _ _ _ _ H3 Hj).
  - eapply (IH _ i j); eauto. lia.
Qed.

Lemma in_ranges_spec ranges r :
  in_ranges ranges r = true ↔ ∃ i g, ranges !! i = Some g ∧ lo g ≤ r ≤ hi g.
Proof.
  unfold in_ranges. rewrite existsb_exists. split.
  - intros (g & Hin & Hg). apply list_elem_of_In, list_elem_of_lookup in Hin as [i Hi].
    exists i, g. split; [done | lia].
  - intros (i & g & Hi & Hg). exists g. split; [by eapply list_elem_of_In, list_elem_of_lookup_2 | lia].
Qed.

(** Whatever lies in a range lies in one between [low] and [high]. *)
Lemma search_range_spec ranges r from (Ha : ascending from ranges = true) : ∀ steps low high,
  (high - low ≤ steps)%nat → (high ≤ length ranges)%nat →
  search_range steps ranges r low high = true ↔
  ∃ i g, ranges !! i = Some g ∧ (low ≤ i < high)%nat ∧ lo g ≤ r ≤ hi g.
Proof.
  induction steps as [|steps IH]; intros low high Hs Hh; cbn [search_range].
  { split; [done | intros (? & ? & _ & ? & _); lia]. }
  case_match eqn:Hlt; [|apply Nat.ltb_ge in Hlt; split; [done | intros (? & ? & _ & ? & _); lia]].
  apply Nat.ltb_lt in Hlt. set (mid := (low + (high - low) / 2)%nat).
  assert (low ≤ mid < high)%nat as Hmid.
  { unfold mid. pose proof (Nat.div_lt (high - low) 2). lia. }
  destruct (ranges !! mid) as [g|] eqn:Hg; [|apply lookup_ge_None in Hg; lia].
  pose proof (ascending_bounds _ _ _ _ Ha Hg).
  destruct (Z.ltb_spec r (lo g)); [|destruct (Z.ltb_spec (hi g) r)].
  - rewrite IH by lia. split; intros (i & h & Hi & Hr & Hb); exists i, h; (split; [done|]); (split; [|done]); [lia|].
    destruct (decide (i < mid)%nat) as [?|Hge]; [lia|].
    destruct (decide (i = mid)) as [->|]; [simplify_eq; lia|].
    pose proof (ascending_ordered _ _ mid i _ _ Ha ltac:(lia) Hg Hi). lia.
  - rewrite IH by lia. split; intros (i & h & Hi & Hr & Hb); exists i, h; (split; [done|]); (split; [|done]); [lia|].
    destruct (decide (mid < i)%nat) as [?|Hge]; [lia|].
    destruct (decide (i = mid)) as [->|]; [simplify_eq; lia|].
    pose proof (ascending_ordered _ _ i mid _ _ Ha ltac:(lia) Hi Hg). lia.
  - split; [|done]. intros _. exists mid, g. split; [done | lia].
Qed.

(** The search answers whether a range holds the rune. *)
Lemma containsCodePoint_spec ranges r from : ascending from ranges = true →
  containsCodePoint ranges r = in_ranges ranges r.
Proof.
  intros Ha. apply Bool.eq_true_iff_eq. unfold containsCodePoint.
  rewrite (search_range_spec _ _ _ Ha), in_ranges_spec by lia.
  split; intros (i & g & Hi & Hr); exists i, g; [tauto|].
  split; [done|]. split; [apply lookup_lt_Some in Hi; lia | done].
Qed.

(** ** The longest emoji *)

Lemma sequence_elem rs : rs ∈ emoji17Sequences → sequence_ok rs = true.
Proof.
  intros Hin. pose proof sequences_ok as Hok.
  rewrite forallb_forall in Hok. apply Hok. by apply list_elem_of_In.
Qed.

Lemma is_emoji_spec s : is_emoji s = true ↔ ∃ rs, rs ∈ emoji17Sequences ∧ s = encode rs.
Proof.
  unfold is_emoji. #[local] Transparent emoji17FullyQualified. unfold emoji17FullyQualified.
  generalize emoji17Sequences. intros l.
  destruct (_ !! s) as [u|] eqn:Hs.
  - apply elem_of_list_to_map_2, list_elem_of_fmap in Hs as (rs & Hrs & Hin). simplify_eq.
    split; [|done]. intros _. by exists rs.
  - apply not_elem_of_list_to_map in Hs. split; [done|]. intros (rs & Hin & ->). exfalso.
    apply Hs. rewrite <- list_fmap_compose. apply list_elem_of_fmap. by exists rs.
Qed.
#[global] Opaque emoji17FullyQualified.

Lemma is_emoji_head_spec r rs : r :: rs ∈ emoji17Sequences → is_emoji_head r = true.
Proof.
  unfold is_emoji_head. #[local] Transparent emoji_heads. unfold emoji_heads.
  generalize emoji17Sequences. intros l Hin.
  destruct (_ !! r) as [u|] eqn:Hs; [done|]. exfalso.
  apply not_elem_of_list_to_map in Hs. apply Hs, list_elem_of_fmap.
  exists (r, tt). split; [done|]. apply list_elem_of_omap. by exists (r :: rs).
Qed.
#[global] Opaque emoji_heads.

(** Proofs reason with the search; only evaluation unfolds it. *)
#[global] Opaque containsCodePoint.

(** * Values of tags

    The emoji at the front of a text is the longest one; joining the pieces of a
    value never makes another emoji of them; so the scanner reads a value back as
    it wrote it. *)
#[local] Open Scope nat_scope.

(** ** Sequences of runes *)

Lemma encode_nil : encode [] = [].
Proof. done. Qed.

Lemma encode_cons r rs : encode (r :: rs) = encode_rune r ++ encode rs.
Proof. done. Qed.

Lemma encode_app rs1 rs2 : encode (rs1 ++ rs2) = encode rs1 ++ encode rs2.
Proof. unfold encode. by rewrite fmap_app, join_app. Qed.

Lemma rune_ok_chunk r : rune_ok r = true → chunk r (encode_rune r).
Proof.
  unfold rune_ok, chunk. destruct (DecodeRune _) as [r' n] eqn:Hd. cbn.
  rewrite !andb_true_iff, !negb_true_iff, Z.eqb_eq, Nat.eqb_eq, Nat.eqb_neq.
  intros [[[-> ->] Hn] Hv]. split_and!; [done | | done]. intros He. by rewrite He in Hn.
Qed.

Lemma chunk_app r c t : chunk r c → DecodeRune (c ++ t) = (r, length c).
Proof. intros (Hd & Hne & Hv). by rewrite decode_app, Hd. Qed.

Lemma chunk_valid r c t : chunk r c → invalid (DecodeRune (c ++ t)) = false.
Proof. intros Hc. rewrite (chunk_app _ _ _ Hc). destruct Hc as (Hd & _ & Hv). by rewrite Hd in Hv. Qed.

Lemma chunk_inj r r' c c' t t' : chunk r c → chunk r' c' → c ++ t = c' ++ t' → r = r' ∧ c = c' ∧ t = t'.
Proof.
  intros H1 H2 E. pose proof (chunk_app _ _ t H1) as D1. pose proof (chunk_app _ _ t' H2) as D2.
  rewrite E, D2 in D1. simplify_eq.
  apply app_inj_1 in E as [-> ->]; [|done]. by split_and!.
Qed.

(** Two texts of valid runes at the front of one text: one extends the other. *)
Lemma encode_prefix rs1 : ∀ rs2 t1 t2, forallb rune_ok rs1 = true → forallb rune_ok rs2 = true →
  encode rs1 ++ t1 = encode rs2 ++ t2 →
  (∃ rs, rs1 = rs2 ++ rs ∧ t2 = encode rs ++ t1) ∨ (∃ rs, rs2 = rs1 ++ rs ∧ t1 = encode rs ++ t2).
Proof.
  induction rs1 as [|r rs1 IH]; intros rs2 t1 t2 Hr1 Hr2 E; [right; by exists rs2|].
  destruct rs2 as [|r2 rs2]; [left; by exists (r :: rs1)|].
  cbn [forallb] in Hr1, Hr2. apply andb_true_iff in Hr1 as [H1 Hr1], Hr2 as [H2 Hr2].
  rewrite !encode_cons, <- !(assoc_L (++)) in E.
  apply rune_ok_chunk in H1, H2. destruct (chunk_inj _ _ _ _ _ _ H1 H2 E) as (-> & _ & E').
  destruct (IH _ _ _ Hr1 Hr2 E') as [(rs & -> & ->) | (rs & -> & ->)]; [left | right]; by exists rs.
Qed.

Record sequence_facts (rs : list Z) : Prop := {
  sf_nonempty : rs ≠ [];
  sf_head : ∀ rs', rs ≠ rune_of "/" :: rs';
  sf_bytes : ∀ c, c ∈ encode rs → (0x20 < byte_of c)%Z ∧ c ≠ ";"%char;
  sf_runes : forallb rune_ok rs = true;
  sf_short : length (encode rs) ≤ maxEmoji17SequenceBytes;
  sf_no_merge : no_merge [] rs = true }.

Lemma sequence_facts_of rs : rs ∈ emoji17Sequences → sequence_facts rs.
Proof.
  intros Hin%sequence_elem. unfold sequence_ok in Hin.
  rewrite !andb_true_iff in Hin. destruct Hin as [[[[Hn Hb] Hr] Hs%Nat.leb_le] Hm].
  split; [| | |done..].
  - by destruct rs.
  - by intros rs' ->.
  - intros c Hc%list_elem_of_In. rewrite forallb_forall in Hb. specialize (Hb c Hc).
    apply andb_true_iff in Hb as [? Hb%negb_true_iff%Ascii.eqb_neq]. split; [lia | done].
Qed.

Lemma no_merge_at rs : ∀ before rs1 r rs2, no_merge before rs = true → rs = rs1 ++ r :: rs2 →
  no_merge (before ++ rs1) (r :: rs2) = true.
Proof.
  induction rs as [|r0 rs IH]; intros before rs1 r rs2 Hm E; [by destruct rs1|].
  destruct rs1 as [|r1 rs1]; cbn in E; simplify_eq; [by rewrite app_nil_r|].
  cbn [no_merge] in Hm. apply andb_true_iff in Hm as [_ Hm].
  specialize (IH _ rs1 r rs2 Hm eq_refl). by rewrite <- (assoc_L (++)) in IH.
Qed.

(** ** The longest emoji *)

Lemma emoji_from_skip k : ∀ ahead source limit pos found,
  emoji_from k ahead source limit pos found = emoji_from 0 (drop k ahead) source limit pos found.
Proof. induction k; intros [|c ahead] **; try done. apply IHk. Qed.

(** One step of the loop. *)
Lemma emoji_from_eq ahead source limit pos found : ahead ≠ [] →
  emoji_from 0 ahead source limit pos found =
  if Nat.ltb pos limit then
    let d := DecodeRune ahead in
    if invalid d then found
    else if Nat.ltb limit (pos + d.2) then found
    else emoji_from 0 (drop d.2 ahead) source limit (pos + d.2)
           (if is_emoji (take (pos + d.2) source) then pos + d.2 else found)
  else found.
Proof.
  intros Hne. pose proof (decode_size ahead Hne). destruct ahead as [|c next]; [done|].
  cbn [emoji_from]. case_match; [|done]. cbv zeta. case_match; [done|]. case_match; [done|].
  rewrite emoji_from_skip. destruct (DecodeRune (c :: next)).2 eqn:E; [lia|]. cbn [Nat.sub drop].
  by rewrite Nat.sub_0_r.
Qed.

Lemma emoji_from_sound n : ∀ ahead source limit pos found, length ahead ≤ n → limit ≤ length source →
  let m := emoji_from 0 ahead source limit pos found in m = found ∨ emoji_prefix source m.
Proof.
  induction n as [|n IH]; intros ahead source limit pos found Hn Hl; cbv zeta.
  { destruct ahead; [by left | cbn in Hn; lia]. }
  destruct (decide (ahead = [])) as [->|Hne]; [by left|].
  rewrite emoji_from_eq by done. case_match; [|by left]. cbv zeta. case_match; [by left|].
  case_match eqn:Hlim; [by left|]. apply Nat.ltb_ge in Hlim.
  pose proof (decode_size ahead Hne).
  destruct (IH (drop (DecodeRune ahead).2 ahead) source limit (pos + (DecodeRune ahead).2)
              (if is_emoji (take (pos + (DecodeRune ahead).2) source) then pos + (DecodeRune ahead).2 else found))
    as [E | ?]; [rewrite length_drop; lia | done | | by right].
  rewrite E. case_match eqn:He; [right; split; [lia | done] | by left].
Qed.

Lemma emoji_from_mono n : ∀ ahead source limit pos found, length ahead ≤ n → found ≤ pos →
  found ≤ emoji_from 0 ahead source limit pos found.
Proof.
  induction n as [|n IH]; intros ahead source limit pos found Hn Hp.
  { destruct ahead; [done | cbn in Hn; lia]. }
  destruct (decide (ahead = [])) as [->|Hne]; [done|].
  rewrite emoji_from_eq by done. case_match; [|done]. cbv zeta. case_match; [done|]. case_match; [done|].
  pose proof (decode_size ahead Hne).
  etrans; [|apply IH; [rewrite length_drop; lia | case_match; lia]]. case_match; lia.
Qed.

(** The loop passes every boundary of an encoded text within the limit. *)
Lemma emoji_from_reaches rs : ∀ source t limit pos found,
  forallb rune_ok rs = true → rs ≠ [] → pos + length (encode rs) ≤ limit → found ≤ pos →
  emoji_prefix source (pos + length (encode rs)) →
  pos + length (encode rs) ≤ emoji_from 0 (encode rs ++ t) source limit pos found.
Proof.
  induction rs as [|r rs IH]; intros source t limit pos found Hok Hne Hl Hp He; [by destruct Hne|].
  cbn [forallb] in Hok. apply andb_true_iff in Hok as [Hr%rune_ok_chunk Hok].
  rewrite encode_cons, length_app in *. rewrite <- (assoc_L (++)).
  assert (encode_rune r ++ encode rs ++ t ≠ []) as Hne'.
  { destruct Hr as (_ & Hr & _). by destruct (encode_rune r). }
  assert (1 ≤ length (encode_rune r)) by (destruct Hr as (_ & Hr & _); destruct (encode_rune r); [done | cbn; lia]).
  rewrite emoji_from_eq by done. cbv zeta. rewrite (chunk_valid _ _ _ Hr), (chunk_app _ _ _ Hr). cbn [snd].
  destruct (Nat.ltb_spec pos limit); [|lia]. destruct (Nat.ltb_spec limit (pos + length (encode_rune r))); [lia|].
  rewrite drop_app_length. destruct rs as [|r2 rs].
  - rewrite encode_nil, Nat.add_0_r in *. rewrite (proj2 He). by apply (emoji_from_mono (length t)).
  - rewrite Nat.add_assoc in *. apply IH; [done | done | lia | case_match; lia | done].
Qed.

Lemma emoji_prefix_sequence source n : emoji_prefix source n →
  ∃ rs t, rs ∈ emoji17Sequences ∧ source = encode rs ++ t ∧ n = length (encode rs).
Proof.
  intros [Hn (rs & Hin & E)%is_emoji_spec]. exists rs, (drop n source). split; [done|].
  rewrite <- E, take_drop. split; [done|]. rewrite length_take. lia.
Qed.

Lemma sequence_emoji_prefix rs t : rs ∈ emoji17Sequences → emoji_prefix (encode rs ++ t) (length (encode rs)).
Proof.
  intros Hin. split; [rewrite length_app; lia|]. rewrite take_app_length. apply is_emoji_spec. by exists rs.
Qed.

(** No longer emoji begins the text. *)
Lemma match_longest source n : emoji_prefix source n → n ≤ matchFullyQualifiedEmoji source.
Proof.
  intros He. pose proof He as He'. apply emoji_prefix_sequence in He as (rs & t & Hin & -> & ->).
  apply sequence_facts_of in Hin as [Hne _ _ Hr Hs _]. unfold matchFullyQualifiedEmoji.
  apply (emoji_from_reaches rs _ t _ 0 0); [done | done | rewrite length_app; lia | done | done].
Qed.

Lemma match_emoji source : matchFullyQualifiedEmoji source ≠ 0 →
  emoji_prefix source (matchFullyQualifiedEmoji source).
Proof.
  intros Hne. unfold matchFullyQualifiedEmoji in *.
  destruct (emoji_from_sound (length source) source source
              (Nat.min (length source) maxEmoji17SequenceBytes) 0 0) as [E | ?]; [done | lia | done | done].
Qed.

Lemma emoji_prefix_pos source n : emoji_prefix source n → n ≠ 0.
Proof.
  intros (rs & t & Hin & -> & ->)%emoji_prefix_sequence.
  apply sequence_facts_of in Hin as [Hne _ _ Hr _ _]. destruct rs as [|r rs]; [done|].
  cbn [forallb] in Hr. apply andb_true_iff in Hr as [(_ & Hc & _)%rune_ok_chunk _].
  rewrite encode_cons, length_app. destruct (encode_rune r); [done | cbn; lia].
Qed.

(** The emoji found is the only one that is at least as long as all others. *)
Lemma match_unique source n :
  (n = 0 ∨ emoji_prefix source n) → (∀ m, emoji_prefix source m → m ≤ n) →
  matchFullyQualifiedEmoji source = n.
Proof.
  intros Hn Hmax. destruct (decide (matchFullyQualifiedEmoji source = 0)) as [E|Hne].
  - rewrite E. destruct Hn as [->|Hn]; [done|]. apply match_longest in Hn. lia.
  - apply match_emoji, Hmax in Hne as Hle. destruct Hn as [->|Hn]; [lia|]. apply match_longest in Hn. lia.
Qed.

(** ** Atoms

    A value is made of atoms: emoji and single runes. *)

Definition emoji (a : bytes) : Prop := ∃ rs, rs ∈ emoji17Sequences ∧ a = encode rs.

(** Nothing, or a rune that an atom or a slash begins with. *)
Definition fresh (w : bytes) : Prop :=
  w = [] ∨ (invalid (DecodeRune w) = false ∧ fresh_rune (DecodeRune w).1 = true).

Lemma is_emoji_false a : is_emoji a = false ↔ ¬ emoji a.
Proof.
  unfold emoji. rewrite <- (is_emoji_spec a). destruct (is_emoji a); intuition congruence.
Qed.

Lemma fresh_chunk r a t : chunk r a → fresh_rune r = true → fresh (a ++ t).
Proof.
  intros Ha Hr. right. by rewrite (chunk_valid _ _ _ Ha), (chunk_app _ _ _ Ha).
Qed.

Lemma fresh_emoji a t : emoji a → fresh (a ++ t).
Proof.
  intros (rs & Hin & ->). pose proof (sequence_facts_of _ Hin) as [Hne _ _ Hr _ _].
  destruct rs as [|r rs]; [by destruct Hne|].
  cbn [forallb] in Hr. apply andb_true_iff in Hr as [Hr%rune_ok_chunk _].
  rewrite encode_cons, <- (assoc_L (++)). apply (fresh_chunk r); [done|].
  unfold fresh_rune. rewrite (is_emoji_head_spec _ _ Hin). apply orb_true_r.
Qed.

(** No sequence goes on after an emoji, or after one rune a value may hold, with
    what an atom begins with. *)
Lemma sequence_breaks rs1 r rs2 :
  rs1 ++ r :: rs2 ∈ emoji17Sequences →
  (rs1 ≠ [] ∧ emoji (encode rs1)) ∨ (∃ r0, rs1 = [r0] ∧ base_rune r0 = true) →
  fresh_rune r = false.
Proof.
  intros Hin Hcase. apply sequence_facts_of in Hin as [_ _ _ _ _ Hm].
  apply (no_merge_at _ [] rs1 r rs2) in Hm; [|done]. rewrite app_nil_l in Hm. cbn [no_merge] in Hm.
  apply andb_true_iff in Hm as [Hm _].
  destruct Hcase as [[Hne He%is_emoji_spec] | (r0 & -> & Hb)].
  - destruct rs1 as [|r0 rs1]; [by destruct Hne|]. rewrite He in Hm. cbn in Hm. by apply negb_true_iff in Hm.
  - rewrite Hb, orb_true_r in Hm. cbn in Hm. by apply negb_true_iff in Hm.
Qed.

Lemma fresh_not_encoded r rs t : rune_ok r = true → fresh_rune r = false → ¬ fresh (encode (r :: rs) ++ t).
Proof.
  intros Hr%rune_ok_chunk Hf. rewrite encode_cons, <- (assoc_L (++)). intros [E | [_ H]].
  - destruct Hr as (_ & Hr & _). by destruct (encode_rune r).
  - rewrite (chunk_app _ _ _ Hr) in H. cbn in H. congruence.
Qed.

Lemma runes_ok_suffix rs1 r rs2 : forallb rune_ok (rs1 ++ r :: rs2) = true → rune_ok r = true.
Proof. rewrite forallb_app. cbn [forallb]. rewrite !andb_true_iff. tauto. Qed.

(** An emoji followed by something fresh is the longest emoji. *)
Lemma match_emoji_atom a w : emoji a → fresh w → matchFullyQualifiedEmoji (a ++ w) = length a.
Proof.
  intros (rs & Hin & ->) Hw. apply match_unique.
  { right. by apply sequence_emoji_prefix. }
  intros m (rs' & t & Hin' & E & ->)%emoji_prefix_sequence.
  pose proof (sequence_facts_of _ Hin) as [Hne _ _ Hr _ _]. pose proof (sequence_facts_of _ Hin') as [_ _ _ Hr' _ _].
  destruct (encode_prefix _ _ _ _ Hr Hr' E) as [(rs2 & -> & _) | (rs2 & -> & ->)].
  { rewrite encode_app, length_app. lia. }
  destruct rs2 as [|r rs2]; [by rewrite app_nil_r|]. exfalso.
  eapply fresh_not_encoded, Hw; [by eapply runes_ok_suffix|].
  eapply sequence_breaks; [done|]. left. split; [done|]. by exists rs.
Qed.

(** A rune that is no emoji by itself begins none before something fresh. *)
Lemma match_rune_atom r a w : chunk r a → base_rune r = true → ¬ emoji a → fresh w →
  matchFullyQualifiedEmoji (a ++ w) = 0.
Proof.
  intros Ha Hb Hne Hw. apply match_unique; [by left|].
  intros m Hm. exfalso. apply emoji_prefix_sequence in Hm as (rs & t & Hin & E & ->).
  pose proof (sequence_facts_of _ Hin) as [Hn _ _ Hr _ _]. destruct rs as [|r1 rs]; [by destruct Hn|].
  pose proof Hr as Hr'. cbn [forallb] in Hr'. apply andb_true_iff in Hr' as [Hr1%rune_ok_chunk _].
  rewrite encode_cons, <- (assoc_L (++)) in E.
  destruct (chunk_inj _ _ _ _ _ _ Ha Hr1 E) as (-> & -> & ->).
  destruct rs as [|r2 rs].
  - apply Hne. exists [r1]. split; [done|]. by rewrite encode_cons, encode_nil, app_nil_r.
  - eapply fresh_not_encoded, Hw; [exact (runes_ok_suffix [r1] r2 rs Hr)|].
    apply (sequence_breaks [r1] r2 rs); [done|]. right. by exists r1.
Qed.

(** ** The shape of values *)

Definition continues (r : Z) : bool := isXIDContinue r && negb (isDefaultIgnorable r).
Definition joins (r : Z) : bool := isXIDContinue r && negb (isCombiningMark r) && negb (isDefaultIgnorable r).

(** The value goes on with a rune that an apostrophe can join. *)
Definition joinable (v : bytes) : Prop :=
  ∃ r a v', v = a ++ v' ∧ chunk r a ∧ joins r = true ∧ ¬ emoji a ∧ fresh v'.

(** What follows the first atom of a segment, where the boolean tells whether an
    apostrophe may come next. *)
Inductive tail : bool → bytes → Prop :=
  | tail_end p : tail p []
  | tail_emoji p a v : emoji a → tail false v → tail p (a ++ v)
  | tail_rune p r a v : chunk r a → ¬ emoji a → isSegmentContinuation r = true →
      tail (continues r) v → tail p (a ++ v)
  | tail_apostrophe r a v : chunk r a → ¬ emoji a → isApostropheJoiner r = true →
      joinable v → tail false v → tail true (a ++ v).

Inductive segment : bytes → Prop :=
  | segment_emoji a v : emoji a → tail false v → segment (a ++ v)
  | segment_rune r a v : chunk r a → ¬ emoji a → isSegmentStarter r = true →
      tail (continues r) v → segment (a ++ v).

Inductive value : bytes → Prop :=
  | value_segment v : segment v → value v
  | value_slash v w : segment v → value w → value (v ++ "/"%char :: w).

Lemma tail_weaken p v : tail p v → tail true v.
Proof. intros []; by econstructor. Qed.

Lemma continuation_fresh r : isSegmentContinuation r = true → fresh_rune r = true ∧ base_rune r = true.
Proof. intros Hr. unfold fresh_rune, base_rune. by rewrite Hr. Qed.

Lemma apostrophe_fresh r : isApostropheJoiner r = true → fresh_rune r = true ∧ base_rune r = true.
Proof. intros Hr. unfold fresh_rune, base_rune. rewrite Hr.
  destruct (isSegmentContinuation r); cbn; done. Qed.

Lemma starter_continuation r : isSegmentStarter r = true → isSegmentContinuation r = true.
Proof. unfold isSegmentStarter, isSegmentContinuation. intros H. destruct (is_extension r), (isXIDContinue r), (isDefaultIgnorable r), (isCombiningMark r); done. Qed.

Lemma joins_starter r : joins r = true → isSegmentStarter r = true.
Proof. unfold joins, isSegmentStarter. intros ->. apply orb_true_r. Qed.

Lemma tail_fresh p v : tail p v → fresh v.
Proof.
  intros [].
  - by left.
  - by apply fresh_emoji.
  - eapply fresh_chunk; [done|]. by apply continuation_fresh.
  - eapply fresh_chunk; [done|]. by apply apostrophe_fresh.
Qed.

Lemma segment_fresh v : segment v → fresh v.
Proof.
  intros []; [by apply fresh_emoji|].
  eapply fresh_chunk; [done|]. by apply continuation_fresh, starter_continuation.
Qed.

Lemma fresh_slash w : fresh ("/"%char :: w).
Proof. right. rewrite decode_ascii by done. done. Qed.

Lemma fresh_then v t : fresh v → v ≠ [] → fresh (v ++ t).
Proof. intros [? | [Hv Hr]] Hne; [done|]. right. by rewrite decode_app. Qed.

#[global] Opaque matchFullyQualifiedEmoji.
