(* ===== verification/TagSafety.v ===== *)
(** * What the scanner of tags finds

    Where tags lie in a text, that the value of a tag is read back as the same
    tag, and that tags are found word by word; and which mentions are found. *)
From stdpp Require Import gmap sets strings list.
From S2P Require Import Prelude GoLib TagTables TagScan TagFacts.
#[local] Open Scope nat_scope.

Section facts.
Context `{Goldmark}.

(** ** One step of each loop *)


Lemma segment_starter_skip k : ∀ ahead pos, segment_starter k ahead pos = segment_starter 0 (drop k ahead) pos.
Proof. induction k; intros [|c ahead] pos; try done. apply IHk. Qed.

Lemma segment_rest_skip k : ∀ ahead pos v p, segment_rest k ahead pos v p = segment_rest 0 (drop k ahead) pos v p.
Proof. induction k; intros [|c ahead] pos v p; try done. apply IHk. Qed.

Lemma segments_from_skip k : ∀ ahead pos v, segments_from k ahead pos v = segments_from 0 (drop k ahead) pos v.
Proof. induction k; intros [|c ahead] pos v; try done. apply IHk. Qed.

Lemma tags_from_skip k : ∀ ahead pos, tags_from k ahead pos = tags_from 0 (drop k ahead) pos.
Proof. induction k; intros [|c ahead] pos; try done. apply IHk. Qed.

Lemma drop_step {A} (n : nat) (c : A) l : 1 ≤ n → drop (n - 1) l = drop n (c :: l).
Proof. destruct n; [lia|]. intros _. by rewrite Nat.sub_succ, Nat.sub_0_r. Qed.

Lemma segment_starter_eq ahead pos : ahead ≠ [] →
  segment_starter 0 ahead pos =
  if at_reference ahead then None
  else
    let e := matchFullyQualifiedEmoji ahead in
    if Nat.ltb 0 e then Some (pos + e, take e ahead, false)
    else
      let d := DecodeRune ahead in
      if invalid d then None
      else if isDefaultIgnorable d.1 || (isXIDContinue d.1 && isCombiningMark d.1)
      then segment_starter 0 (drop d.2 ahead) (pos + d.2)
      else if isSegmentStarter d.1 then Some (pos + d.2, take d.2 ahead, continues d.1)
      else None.
Proof.
  intros Hne. pose proof (decode_size ahead Hne). destruct ahead as [|c next]; [done|].
  cbn [segment_starter]. case_match; [done|]. cbv zeta. case_match; [done|]. case_match; [done|].
  rewrite segment_starter_skip, (drop_step _ c) by lia.
  unfold continues. by destruct (isDefaultIgnorable _), (isXIDContinue _ && isCombiningMark _).
Qed.

Lemma segment_rest_eq ahead pos v p : ahead ≠ [] →
  segment_rest 0 ahead pos v p =
  if at_reference ahead then (pos, v)
  else
    let e := matchFullyQualifiedEmoji ahead in
    if Nat.ltb 0 e then segment_rest 0 (drop e ahead) (pos + e) (v ++ take e ahead) false
    else
      let d := DecodeRune ahead in
      if invalid d then (pos, v)
      else if isDefaultIgnorable d.1 then segment_rest 0 (drop d.2 ahead) (pos + d.2) v false
      else if isApostropheJoiner d.1 && p && startsNonCombiningXIDContinuation (drop d.2 ahead)
      then segment_rest 0 (drop d.2 ahead) (pos + d.2) (v ++ take d.2 ahead) false
      else if isSegmentContinuation d.1
      then segment_rest 0 (drop d.2 ahead) (pos + d.2) (v ++ take d.2 ahead) (continues d.1)
      else (pos, v).
Proof.
  intros Hne. pose proof (decode_size ahead Hne). destruct ahead as [|c next]; [done|].
  cbn [segment_rest]. case_match; [done|]. cbv zeta. case_match eqn:He.
  - apply Nat.ltb_lt in He. by rewrite segment_rest_skip, (drop_step _ c) by lia.
  - case_match; [reflexivity|]. unfold continues. rewrite !(segment_rest_skip (_ - 1)), (drop_step _ c) by lia. reflexivity.
Qed.

Lemma segments_from_eq ahead pos v :
  segments_from 0 ahead pos v =
  match ahead with
  | [] => (pos, v)
  | c :: next =>
      if Ascii.eqb c "/" then
        match scanTagSegment next with
        | None => (pos, v)
        | Some (n, w) => segments_from 0 (drop n next) (pos + (1 + n)) (v ++ "/"%char :: w)
        end
      else (pos, v)
  end.
Proof.
  destruct ahead as [|c next]; [done|]. cbn [segments_from]. case_match; [|done].
  destruct (scanTagSegment next) as [[n w]|]; [|done]. by rewrite segments_from_skip.
Qed.

Lemma tags_from_eq c next pos :
  tags_from 0 (c :: next) pos =
  let ahead := c :: next in
  let e := matchFullyQualifiedEmoji ahead in
  let n := characterReferenceLength ahead in
  if Nat.ltb 0 e then tags_from 0 (drop e ahead) (pos + e)
  else if Nat.ltb 0 n then tags_from 0 (drop n ahead) (pos + n)
  else if at_escape ahead then tags_from 0 (drop 2 ahead) (pos + 2)
  else if negb (Ascii.eqb c "#") then tags_from 0 (drop (DecodeRune ahead).2 ahead) (pos + (DecodeRune ahead).2)
  else
    match scanTagIdentifier next with
    | None => tags_from 0 next (pos + 1)
    | Some (n, v) => mkTag pos (pos + n + 1) v :: tags_from 0 (drop n next) (pos + n + 1)
    end.
Proof.
  pose proof (decode_size (c :: next) ltac:(done)). cbn [tags_from]. cbv zeta.
  case_match eqn:He; [apply Nat.ltb_lt in He; by rewrite tags_from_skip, (drop_step _ c) by lia|].
  case_match eqn:Hn; [apply Nat.ltb_lt in Hn; by rewrite tags_from_skip, (drop_step _ c) by lia|].
  case_match; [by rewrite (tags_from_skip 1)|].
  case_match; [by rewrite tags_from_skip, (drop_step _ c) by lia|].
  destruct (scanTagIdentifier next) as [[n v]|]; [|done]. by rewrite tags_from_skip.
Qed.

(** ** Reading yields values *)

Lemma match_bound ahead : 0 < matchFullyQualifiedEmoji ahead →
  matchFullyQualifiedEmoji ahead ≤ length ahead ∧ emoji (take (matchFullyQualifiedEmoji ahead) ahead).
Proof.
  intros Hlt. destruct (match_emoji ahead ltac:(lia)) as [Hl He]. split; [done|].
  by apply is_emoji_spec.
Qed.

Lemma match_none ahead n : matchFullyQualifiedEmoji ahead = 0 → n ≤ length ahead → ¬ emoji (take n ahead).
Proof.
  intros H0 Hn He%is_emoji_spec. assert (emoji_prefix ahead n) as Hp by (split; assumption).
  pose proof (emoji_prefix_pos _ _ Hp). apply match_longest in Hp. lia.
Qed.

Lemma at_reference_head ahead : at_reference ahead = true → ∃ t, ahead = "&"%char :: t.
Proof.
  destruct ahead as [|c t]; cbn; [discriminate|]. intros [->%Ascii.eqb_eq _]%andb_true_iff. by exists t.
Qed.

Lemma continuation_plain r : isSegmentContinuation r = true →
  isDefaultIgnorable r = false ∧ isApostropheJoiner r = false.
Proof.
  intros Hr. split.
  - unfold isSegmentContinuation in Hr. apply orb_true_iff in Hr as [Hr | Hr].
    + unfold is_extension in Hr. rewrite !orb_true_iff, !Z.eqb_eq in Hr.
      destruct Hr as [[-> | ->] | ->]; vm_compute; reflexivity.
    + by apply andb_true_iff in Hr as [_ Hr%negb_true_iff].
  - destruct (isApostropheJoiner r) eqn:Ha; [|reflexivity]. exfalso.
    unfold isApostropheJoiner in Ha. rewrite orb_true_iff, !Z.eqb_eq in Ha.
    destruct Ha as [-> | ->]; vm_compute in Hr; discriminate.
Qed.

Lemma joins_plain r : joins r = true → isDefaultIgnorable r = false ∧ isApostropheJoiner r = false.
Proof. intros Hj. by apply continuation_plain, starter_continuation, joins_starter. Qed.

Lemma starts_joins ahead : startsNonCombiningXIDContinuation ahead = true →
  ahead ≠ [] ∧ matchFullyQualifiedEmoji ahead = 0 ∧ invalid (DecodeRune ahead) = false ∧
  joins (DecodeRune ahead).1 = true.
Proof.
  unfold startsNonCombiningXIDContinuation, joins. destruct ahead as [|c t]; [discriminate|].
  case_match eqn:Hm; [discriminate|]. apply Nat.ltb_ge in Hm. cbv zeta. case_match eqn:Hv; [discriminate|].
  intros Hj. split_and!; [discriminate | lia | reflexivity | exact Hj].
Qed.

(** What the second loop has read from [ahead] when it ends with [res]. *)
Definition reads (ahead : bytes) (p : bool) (pos : nat) (v : bytes) (res : nat * bytes) : Prop :=
  ∃ k w, res = (pos + k, v ++ w) ∧ length w ≤ k ≤ length ahead ∧ tail p w ∧
    (startsNonCombiningXIDContinuation ahead = true → joinable w).

Lemma reads_stop ahead p pos v : startsNonCombiningXIDContinuation ahead = false → reads ahead p pos v (pos, v).
Proof.
  intros Hs. exists 0, []. rewrite app_nil_r, Nat.add_0_r.
  split_and!; [reflexivity | cbn; lia | cbn; lia | constructor | congruence].
Qed.

(** [m] bytes are passed, of which the first [i] are kept. *)
Lemma reads_step ahead p q pos v res m i : m ≤ length ahead → i ≤ m →
  reads (drop m ahead) q (pos + m) (v ++ take i ahead) res →
  (∀ w, tail q w → tail p (take i ahead ++ w)) →
  (startsNonCombiningXIDContinuation ahead = true → ∀ w, tail q w → joinable (take i ahead ++ w)) →
  reads ahead p pos v res.
Proof.
  intros Hm Hi (k & w & -> & Hk & Ht & _) Htail Hjoin. rewrite length_drop in Hk.
  exists (m + k), (take i ahead ++ w).
  rewrite Nat.add_assoc, (assoc_L (++)), length_app, length_take. split_and!; [done | lia | lia | auto..].
Qed.

Lemma starts_false ahead :
  (ahead ≠ [] → matchFullyQualifiedEmoji ahead = 0 → invalid (DecodeRune ahead) = false →
   joins (DecodeRune ahead).1 = true → False) →
  startsNonCombiningXIDContinuation ahead = false.
Proof.
  intros Hf. destruct (startsNonCombiningXIDContinuation ahead) eqn:Hs; [|reflexivity].
  apply starts_joins in Hs as (? & ? & ? & ?). by destruct Hf.
Qed.

Lemma reference_not_joining ahead : at_reference ahead = true →
  startsNonCombiningXIDContinuation ahead = false.
Proof.
  intros [t ->]%at_reference_head. apply starts_false. intros _ _ _ Hj.
  rewrite decode_ascii in Hj by done. vm_compute in Hj. discriminate.
Qed.

Lemma rest_reads n : ∀ ahead pos v p, length ahead ≤ n → reads ahead p pos v (segment_rest 0 ahead pos v p).
Proof.
  induction n as [|n IH]; intros ahead pos v p Hn.
  { destruct ahead; [by apply reads_stop | cbn in Hn; lia]. }
  destruct (decide (ahead = [])) as [->|Hne]; [by apply reads_stop|].
  pose proof (decode_size ahead Hne) as Hd. rewrite segment_rest_eq by done. cbv zeta.
  case_match eqn:Href; [by apply reads_stop, reference_not_joining|].
  case_match eqn:He.
  { apply Nat.ltb_lt in He. destruct (match_bound ahead He) as [Hb Hem].
    eapply (reads_step _ _ _ _ _ _ _ (matchFullyQualifiedEmoji ahead)); [done | done | | |].
    - apply IH. rewrite length_drop. lia.
    - intros w Hw. by constructor.
    - intros (_ & H0 & _)%starts_joins. lia. }
  apply Nat.ltb_ge in He. assert (matchFullyQualifiedEmoji ahead = 0) as H0 by lia.
  case_match eqn:Hv; [apply reads_stop, starts_false; congruence|].
  pose proof (decode_take ahead Hne Hv) as Hc.
  pose proof (match_none ahead (DecodeRune ahead).2 H0 ltac:(lia)) as Hnem.
  case_match eqn:Hdi.
  { eapply (reads_step _ _ _ _ _ _ _ 0); [apply Hd | lia | rewrite app_nil_r | |].
    - apply IH. rewrite length_drop. lia.
    - intros w Hw. destruct p; [by eapply tail_weaken | done].
    - intros (_ & _ & _ & Hj)%starts_joins. apply joins_plain in Hj as [Hj _]. congruence. }
  case_match eqn:Hap.
  { apply andb_true_iff in Hap as [[Hap ->]%andb_true_iff Hs].
    pose proof (IH (drop (DecodeRune ahead).2 ahead) (pos + (DecodeRune ahead).2)
                   (v ++ take (DecodeRune ahead).2 ahead) false) as Hr.
    destruct Hr as (k & w & E & Hk & Ht & Hjoin); [rewrite length_drop; lia|].
    rewrite E, length_drop in *. exists ((DecodeRune ahead).2 + k), (take (DecodeRune ahead).2 ahead ++ w).
    rewrite Nat.add_assoc, (assoc_L (++)), length_app, length_take. split_and!; [done | lia | lia | |].
    - eapply tail_apostrophe; eauto.
    - intros (_ & _ & _ & Hj)%starts_joins. apply joins_plain in Hj as [_ Hj]. congruence. }
  case_match eqn:Hcont.
  2: { apply reads_stop, starts_false. intros _ _ _ Hj. apply joins_starter, starter_continuation in Hj. congruence. }
  eapply (reads_step _ _ _ _ _ _ _ (DecodeRune ahead).2); [apply Hd | lia | | |].
  - apply IH. rewrite length_drop. lia.
  - intros w Hw. eapply tail_rune; eauto.
  - intros (_ & _ & _ & Hj)%starts_joins w Hw.
    exists (DecodeRune ahead).1, (take (DecodeRune ahead).2 ahead), w. split_and!; try assumption; [reflexivity|].
    by eapply tail_fresh.
Qed.

Lemma starter_reads n : ∀ ahead pos pos' a p, length ahead ≤ n →
  segment_starter 0 ahead pos = Some (pos', a, p) →
  ∃ k, pos' = pos + k ∧ 1 ≤ length a ≤ k ∧ k ≤ length ahead ∧ (∀ w, tail p w → segment (a ++ w)).
Proof.
  induction n as [|n IH]; intros ahead pos pos' a p Hn Hs.
  { destruct ahead; [discriminate | cbn in Hn; lia]. }
  destruct (decide (ahead = [])) as [->|Hne]; [discriminate|].
  pose proof (decode_size ahead Hne) as Hd. rewrite segment_starter_eq in Hs by done. cbv zeta in Hs.
  destruct (at_reference ahead); [discriminate|]. destruct (Nat.ltb_spec 0 (matchFullyQualifiedEmoji ahead)) as [He|He].
  { injection Hs as <- <- <-. destruct (match_bound ahead He) as [Hb Hem].
    exists (matchFullyQualifiedEmoji ahead). rewrite length_take. split_and!; [done | lia | lia | done |].
    intros w Hw. by constructor. }
  destruct (invalid (DecodeRune ahead)) eqn:Hv; [discriminate|].
  destruct (isDefaultIgnorable _ || _).
  { apply IH in Hs as (k & -> & Hk & Hk' & Hw); [|rewrite length_drop; lia]. rewrite length_drop in Hk'.
    exists ((DecodeRune ahead).2 + k). split_and!; [lia | lia | lia | lia | done]. }
  destruct (isSegmentStarter (DecodeRune ahead).1) eqn:Hst; [|discriminate]. injection Hs as <- <- <-.
  exists (DecodeRune ahead).2. rewrite length_take. split_and!; [done | lia | lia | lia |].
  intros w Hw. eapply segment_rune; [by apply decode_take | by apply match_none; lia | done | done].
Qed.

Lemma segment_reads source n v : scanTagSegment source = Some (n, v) →
  1 ≤ length v ≤ n ∧ n ≤ length source ∧ segment v.
Proof.
  unfold scanTagSegment. destruct (segment_starter 0 source 0) as [[[pos a] p]|] eqn:Hs; [|discriminate].
  apply (starter_reads (length source)) in Hs as (k & -> & Ha & Hk & Hw); [|done]. intros E. simplify_eq.
  pose proof (rest_reads _ (drop (0 + k) source) (0 + k) a p (le_n _)) as (j & w & E' & Hj & Ht & _).
  rewrite E' in E. simplify_eq. rewrite length_drop in Hj. rewrite length_app.
  split_and!; [lia | lia | lia | by apply Hw].
Qed.

Lemma segments_reads n : ∀ ahead pos v pos' v', length ahead ≤ n →
  segments_from 0 ahead pos v = (pos', v') →
  ∃ k w, pos' = pos + k ∧ v' = v ++ w ∧ length w ≤ k ≤ length ahead ∧
    (w = [] ∨ ∃ u, w = "/"%char :: u ∧ value u).
Proof.
  induction n as [|n IH]; intros ahead pos v pos' v' Hn Hs.
  { destruct ahead; [|cbn in Hn; lia]. injection Hs as <- <-. exists 0, [].
    rewrite app_nil_r. split_and!; [lia | done | done | done | by left]. }
  assert (∀ r : nat * bytes, (pos, v) = r → ∃ k w, r.1 = pos + k ∧ r.2 = v ++ w ∧ length w ≤ k ≤ length ahead ∧
    (w = [] ∨ ∃ u, w = "/"%char :: u ∧ value u)) as Hstop.
  { intros ? <-. exists 0, []. rewrite app_nil_r. split_and!; [cbn; lia | done | cbn; lia | cbn; lia | by left]. }
  rewrite segments_from_eq in Hs. destruct ahead as [|c next]; [by apply (Hstop (pos', v'))|].
  destruct (Ascii.eqb c "/"); [|by apply (Hstop (pos', v'))].
  destruct (scanTagSegment next) as [[m w]|] eqn:Hseg; [|by apply (Hstop (pos', v'))].
  apply segment_reads in Hseg as (Hw & Hm & Hsg).
  apply IH in Hs as (k & u & -> & -> & Hk & Hu); [|rewrite length_drop; cbn in Hn; lia].
  rewrite length_drop in Hk. exists (1 + m + k), ("/"%char :: w ++ u). cbn [length]. rewrite length_app.
  split_and!; [lia | by rewrite <- (assoc_L (++)) | lia | lia |].
  right. exists (w ++ u). split; [done|]. destruct Hu as [-> | (u' & -> & Hu')].
  - rewrite app_nil_r. by constructor.
  - by constructor.
Qed.

Lemma identifier_reads source n v : scanTagIdentifier source = Some (n, v) →
  1 ≤ length v ≤ n ∧ n ≤ length source ∧ value v.
Proof.
  unfold scanTagIdentifier. destruct (scanTagSegment source) as [[m w]|] eqn:Hs; [|discriminate].
  apply segment_reads in Hs as (Hw & Hm & Hsg). intros E. simplify_eq.
  apply (segments_reads (length source)) in E as (k & u & -> & -> & Hk & Hu); [|rewrite length_drop; lia].
  rewrite length_drop in Hk. rewrite length_app. split_and!; [lia | lia | lia |].
  destruct Hu as [-> | (u' & -> & Hu')]; [rewrite app_nil_r|]; by constructor.
Qed.

(** ** Where tags lie *)

(** The tags of [ahead], which begins at [pos]: in order, apart, inside, each
    introduced by a number sign and with a value. *)
Fixpoint placed (source : bytes) (from : nat) (l : list TagMatch) : Prop :=
  match l with
  | [] => from ≤ length source
  | m :: l =>
      from ≤ tg_start m ∧ source !! tg_start m = Some "#"%char ∧
      tg_start m + length (tg_value m) < tg_end m ∧ value (tg_value m) ∧ placed source (tg_end m) l
  end.

Lemma placed_from source l : ∀ from from', from' ≤ from → placed source from l → placed source from' l.
Proof. destruct l as [|m l]; cbn; intros from from' Hle; [lia | intuition lia]. Qed.

Lemma reference_bound ahead : characterReferenceLength ahead ≤ length ahead.
Proof.
  unfold characterReferenceLength, numeric_reference.
  repeat case_match; try lia;
    repeat match goal with
    | H : _ && bool_decide (_ !! _ = _) = true |- _ => apply andb_true_iff in H as [_ H%bool_decide_eq_true]
    | H : _ || negb (bool_decide (_ !! _ = _)) = false |- _ =>
        apply orb_false_iff in H as [_ H%negb_false_iff%bool_decide_eq_true]
    end;
    match goal with H : ahead !! _ = Some _ |- _ => apply lookup_lt_Some in H; lia end.
Qed.

Lemma tags_placed n : ∀ source pos, length (drop pos source) ≤ n → pos ≤ length source →
  placed source pos (tags_from 0 (drop pos source) pos).
Proof.
  induction n as [|n IH]; intros source pos Hn Hp.
  { destruct (drop pos source) as [|c next]; [done | cbn in Hn; lia]. }
  destruct (drop pos source) as [|c next] eqn:Hd; [done|].
  assert (length (drop pos source) = length source - pos) as Hl by apply length_drop.
  rewrite Hd in Hl. assert (∀ k, 1 ≤ k → k ≤ length (c :: next) →
    placed source pos (tags_from 0 (drop k (c :: next)) (pos + k))) as Hstep.
  { intros k Hk1 Hk. rewrite <- Hd, drop_drop. apply (placed_from _ _ (pos + k)); [lia|].
    apply IH; [rewrite length_drop; cbn [length] in *; lia | lia]. }
  rewrite tags_from_eq. cbv zeta.
  destruct (Nat.ltb_spec 0 (matchFullyQualifiedEmoji (c :: next))) as [He|He].
  { apply Hstep; [lia | by apply match_bound]. }
  destruct (Nat.ltb_spec 0 (characterReferenceLength (c :: next))) as [Hr|Hr].
  { apply Hstep; [lia | apply reference_bound]. }
  destruct (at_escape (c :: next)) eqn:Hesc.
  { apply Hstep; [lia|]. destruct next; [done | cbn; lia]. }
  destruct (Ascii.eqb c "#") eqn:Hc; cbn [negb].
  2: { pose proof (decode_size (c :: next) ltac:(done)). apply Hstep; lia. }
  apply Ascii.eqb_eq in Hc as ->.
  destruct (scanTagIdentifier next) as [[k v]|] eqn:Hid; [|apply (Hstep 1); cbn [length]; lia].
  apply identifier_reads in Hid as (Hv & Hk & Hval). cbn [placed tg_start tg_end tg_value].
  split_and!; [lia | | lia | done |].
  - rewrite <- (Nat.add_0_r pos), <- lookup_drop, Hd. done.
  - cbn [length] in *. replace (drop k next) with (drop (pos + k + 1) source).
    2: { rewrite <- Nat.add_assoc, <- drop_drop, Hd, Nat.add_1_r. done. }
    apply IH; [rewrite length_drop; lia | lia].
Qed.

(** ** Values are read back *)

Lemma chunk_ascii r a c : chunk r a → c ∈ a → ASCII c → a = [c] ∧ r = byte_of c.
Proof.
  intros (Hd & Hne & Hv) Hin Hc. unfold ASCII in Hc.
  destruct a as [|c0 a]; [done|]. destruct (decide (ASCII c0)) as [H0|H0].
  { rewrite (decode_ascii c0 a H0) in Hd. injection Hd as <- Hl. destruct a; [|discriminate].
    apply list_elem_of_singleton in Hin as ->. done. }
  exfalso. rewrite Hd in Hv. apply elem_of_cons in Hin as [-> | Hin]; [done|].
  assert (∀ x, in_range 0x80 0xBF x = true → (0x80 ≤ x)%Z) as Hr by (unfold in_range; lia).
  assert ((RuneError, 1) ≠ (r, length (c0 :: a))) as Hbad by (intros E; rewrite <- E in Hv; discriminate).
  unfold ASCII in H0. cbn [DecodeRune] in Hd. case_match; [lia|].
  destruct (first_byte (byte_of c0)) as [[[m l] h]|] eqn:Hf; [|by destruct (Hbad Hd)].
  apply first_byte_spec in Hf as [Hl _].
  destruct a as [|c1 a]; [by destruct (Hbad Hd)|].
  destruct (in_range l h (byte_of c1)) eqn:Hc1; cbn [negb] in Hd; [|by destruct (Hbad Hd)].
  assert (0x80 ≤ byte_of c1)%Z by (unfold in_range in Hc1; lia).
  destruct (Nat.eqb m 2).
  { injection Hd as _ Hlen. destruct a; [|discriminate]. apply list_elem_of_singleton in Hin as ->. lia. }
  destruct a as [|c2 a]; [by destruct (Hbad Hd)|].
  destruct (in_range 0x80 0xBF (byte_of c2)) eqn:Hc2; cbn [negb] in Hd; [|by destruct (Hbad Hd)].
  apply Hr in Hc2. destruct (Nat.eqb m 3).
  { injection Hd as _ Hlen. destruct a; [|discriminate]. rewrite elem_of_cons, list_elem_of_singleton in Hin.
    destruct Hin as [-> | ->]; lia. }
  destruct a as [|c3 a]; [by destruct (Hbad Hd)|].
  destruct (in_range 0x80 0xBF (byte_of c3)) eqn:Hc3; cbn [negb] in Hd; [|by destruct (Hbad Hd)].
  apply Hr in Hc3. injection Hd as _ Hlen. destruct a; [|discriminate]. rewrite !elem_of_cons, elem_of_nil in Hin.
  destruct Hin as [-> | [-> | [-> | []]]]; lia.
Qed.

Lemma no_semicolon r a : chunk r a → isSegmentContinuation r = true ∨ isApostropheJoiner r = true → ";"%char ∉ a.
Proof.
  intros Ha Hr Hin. destruct (chunk_ascii _ _ _ Ha Hin) as [_ ->]; [done|].
  destruct Hr as [Hr | Hr]; vm_compute in Hr; discriminate.
Qed.

Lemma emoji_no_semicolon a : emoji a → ";"%char ∉ a.
Proof.
  intros (rs & Hin & ->) Hc. apply sequence_facts_of in Hin as [_ _ Hb _ _ _]. by destruct (Hb _ Hc).
Qed.

Lemma tail_no_semicolon p v : tail p v → ";"%char ∉ v.
Proof.
  induction 1; rewrite ?not_elem_of_app; [set_solver | split; [|done]..];
    eauto using emoji_no_semicolon, no_semicolon.
Qed.

Lemma segment_no_semicolon v : segment v → ";"%char ∉ v.
Proof.
  intros []; rewrite not_elem_of_app; split; eauto using emoji_no_semicolon, no_semicolon, starter_continuation, tail_no_semicolon.
Qed.

Lemma value_no_semicolon v : value v → ";"%char ∉ v.
Proof.
  induction 1 as [v Hv | v w Hv Hw IH]; [by apply segment_no_semicolon|].
  rewrite not_elem_of_app, not_elem_of_cons. split_and!; [by apply segment_no_semicolon | done | done].
Qed.

Lemma reference_needs_semicolon s : ";"%char ∉ s → characterReferenceLength s = 0.
Proof.
  intros Hs. assert (∀ k, bool_decide (s !! k = Some ";"%char) = false) as Hk.
  { intros k. apply bool_decide_eq_false. intros ?%list_elem_of_lookup_2. done. }
  unfold characterReferenceLength, numeric_reference. rewrite !Hk, !andb_false_r.
  cbn [negb]. rewrite orb_true_r. by repeat case_match.
Qed.

Lemma no_reference s : ";"%char ∉ s → at_reference s = false.
Proof.
  intros Hs. unfold at_reference. destruct s; [done|]. rewrite reference_needs_semicolon by done. apply andb_false_r.
Qed.

(** Nothing more, or the slash before the next segment. *)
Definition segment_ends (t : bytes) : Prop := t = [] ∨ ∃ u, t = "/"%char :: u.

Lemma ends_fresh t : segment_ends t → fresh t.
Proof. intros [-> | [u ->]]; [by left | apply fresh_slash]. Qed.

Lemma tail_then p v t : tail p v → segment_ends t → fresh (v ++ t).
Proof.
  intros Hv%tail_fresh Ht%ends_fresh. destruct (decide (v = [])) as [->|]; [done | by apply fresh_then].
Qed.

Lemma slash_no_emoji u : matchFullyQualifiedEmoji ("/"%char :: u) = 0.
Proof.
  destruct (decide (matchFullyQualifiedEmoji ("/"%char :: u) = 0)) as [|Hne]; [done|].
  apply match_emoji, emoji_prefix_sequence in Hne as (rs & t & Hin & E & _).
  apply sequence_facts_of in Hin as [Hn Hh _ Hr _ _]. destruct rs as [|r rs]; [by destruct Hn|].
  cbn [forallb] in Hr. apply andb_true_iff in Hr as [Hr%rune_ok_chunk _].
  assert (chunk (rune_of "/") ["/"%char]) as Hc by done.
  rewrite encode_cons, <- (assoc_L (++)) in E.
  destruct (chunk_inj _ _ _ _ u (encode rs ++ t) Hc Hr E) as (<- & _). by destruct (Hh rs).
Qed.

(** A rune that ends a segment. *)
Definition stops (r : Z) : bool :=
  negb (isDefaultIgnorable r) && negb (isApostropheJoiner r) && negb (isSegmentContinuation r).

Lemma stop_rune {A} r n p (b : bool) (x y z w u : A) : invalid (r, n) = false → stops r = true →
  (if Nat.ltb 0 0 then x else if invalid (r, n) then y else
   if isDefaultIgnorable r then z else if isApostropheJoiner r && p && b then w
   else if isSegmentContinuation r then u else y) = y.
Proof.
  unfold stops. intros -> [[->%negb_true_iff ->%negb_true_iff]%andb_true_iff ->%negb_true_iff]%andb_true_iff.
  reflexivity.
Qed.

Lemma rest_ends t pos v p : segment_ends t → ";"%char ∉ t → segment_rest 0 t pos v p = (pos, v).
Proof.
  intros [-> | [u ->]] Hs; [done|]. rewrite segment_rest_eq by done. cbv zeta.
  rewrite no_reference, slash_no_emoji, decode_ascii by done. apply stop_rune; [reflexivity | vm_compute; reflexivity].
Qed.

Lemma joinable_starts w t : joinable w → segment_ends t → startsNonCombiningXIDContinuation (w ++ t) = true.
Proof.
  intros (r & a & w' & -> & Ha & Hj & Hne & Hw) Ht. rewrite <- (assoc_L (++)).
  assert (fresh (w' ++ t)) as Hw'.
  { destruct (decide (w' = [])) as [->|]; [by apply ends_fresh | by apply fresh_then]. }
  assert (base_rune r = true) as Hb by (by apply continuation_fresh, starter_continuation, joins_starter).
  unfold startsNonCombiningXIDContinuation.
  rewrite (match_rune_atom r a _ Ha Hb Hne Hw'), (chunk_valid r _ _ Ha), (chunk_app r _ _ Ha).
  unfold joins in Hj. cbv zeta. cbn [fst snd Nat.ltb Nat.leb].
  destruct (a ++ w' ++ t) eqn:E; [|exact Hj]. destruct Ha as (_ & Ha & _). by destruct a.
Qed.

Lemma emoji_nonempty a : emoji a → a ≠ [].
Proof.
  intros (rs & Hin & E) ->. pose proof (sequence_emoji_prefix rs [] Hin) as Hp.
  rewrite <- E in Hp. by apply emoji_prefix_pos in Hp.
Qed.

(** One atom of a value is read again. *)
Lemma rest_emoji a w pos v0 p : emoji a → fresh w → ";"%char ∉ a ++ w →
  segment_rest 0 (a ++ w) pos v0 p = segment_rest 0 w (pos + length a) (v0 ++ a) false.
Proof.
  intros He Hw Hs. pose proof (emoji_nonempty _ He) as Hne.
  rewrite segment_rest_eq by (by destruct a). cbv zeta. rewrite (no_reference _ Hs), (match_emoji_atom _ _ He Hw).
  destruct (Nat.ltb_spec 0 (length a)); [|destruct a; [done | cbn in *; lia]].
  by rewrite drop_app_length, take_app_length.
Qed.

Lemma rest_rune r a w pos v0 p : chunk r a → ¬ emoji a → isSegmentContinuation r = true → fresh w →
  ";"%char ∉ a ++ w →
  segment_rest 0 (a ++ w) pos v0 p = segment_rest 0 w (pos + length a) (v0 ++ a) (continues r).
Proof.
  intros Ha He Hr Hw Hs. destruct (continuation_fresh r Hr) as [_ Hb].
  destruct (continuation_plain r Hr) as [Hdi Hap]. assert (a ≠ []) as Hne by apply Ha.
  rewrite segment_rest_eq by (by destruct a). cbv zeta.
  rewrite (no_reference _ Hs), (match_rune_atom _ _ _ Ha Hb He Hw), (chunk_valid _ _ _ Ha), (chunk_app _ _ _ Ha).
  cbn [fst snd]. rewrite Hdi, Hap, Hr. cbn [Nat.ltb Nat.leb andb]. by rewrite drop_app_length, take_app_length.
Qed.

Lemma apostrophe_visible r : isApostropheJoiner r = true → isDefaultIgnorable r = false.
Proof.
  unfold isApostropheJoiner. rewrite orb_true_iff, !Z.eqb_eq. intros [-> | ->]; vm_compute; reflexivity.
Qed.

Lemma rest_apostrophe r a w pos v0 : chunk r a → ¬ emoji a → isApostropheJoiner r = true → fresh w →
  startsNonCombiningXIDContinuation w = true → ";"%char ∉ a ++ w →
  segment_rest 0 (a ++ w) pos v0 true = segment_rest 0 w (pos + length a) (v0 ++ a) false.
Proof.
  intros Ha He Hr Hw Hst Hs. destruct (apostrophe_fresh r Hr) as [_ Hb].
  assert (a ≠ []) as Hne by apply Ha. pose proof (apostrophe_visible r Hr) as Hdi.
  rewrite segment_rest_eq by (by destruct a). cbv zeta.
  rewrite (no_reference _ Hs), (match_rune_atom _ _ _ Ha Hb He Hw), (chunk_valid _ _ _ Ha), (chunk_app _ _ _ Ha).
  cbn [fst snd]. rewrite Hdi, Hr, drop_app_length, Hst. cbn [Nat.ltb Nat.leb andb]. by rewrite take_app_length.
Qed.

Lemma rest_rescans p v t pos v0 : tail p v → ";"%char ∉ v ++ t → segment_ends t →
  segment_rest 0 (v ++ t) pos v0 p = (pos + length v, v0 ++ v).
Proof.
  intros Hv Hs Ht. revert pos v0 Hs. induction Hv as [p|p a v He Hv IH|p r a v Ha He Hr Hv IH|r a v Ha He Hr Hj Hv IH];
    intros pos v0 Hs.
  { rewrite app_nil_r, Nat.add_0_r. by apply rest_ends. }
  all: pose proof (tail_then _ _ _ Hv Ht) as Hf; rewrite <- (assoc_L (++)) in *.
  all: assert (";"%char ∉ v ++ t) as Hs' by (rewrite not_elem_of_app in Hs; tauto).
  1: rewrite (rest_emoji _ _ _ _ _ He Hf Hs).
  2: rewrite (rest_rune _ _ _ _ _ _ Ha He Hr Hf Hs).
  3: rewrite (rest_apostrophe _ _ _ _ _ Ha He Hr Hf (joinable_starts _ _ Hj Ht) Hs).
  all: rewrite (IH _ _ Hs'), length_app; f_equal; [lia | by rewrite (assoc_L (++))].
Qed.

Lemma starter_plain r : isSegmentStarter r = true →
  isDefaultIgnorable r || (isXIDContinue r && isCombiningMark r) = false.
Proof.
  intros Hr. destruct (continuation_plain r (starter_continuation r Hr)) as [-> _]. cbn [orb].
  unfold isSegmentStarter in Hr. apply orb_true_iff in Hr as [Hr | Hr].
  - unfold is_extension in Hr. rewrite !orb_true_iff, !Z.eqb_eq in Hr.
    destruct Hr as [[-> | ->] | ->]; vm_compute; reflexivity.
  - apply andb_true_iff in Hr as [[_ Hr%negb_true_iff]%andb_true_iff _]. by rewrite Hr, andb_false_r.
Qed.

Lemma segment_rescans v t : segment v → ";"%char ∉ v ++ t → segment_ends t →
  scanTagSegment (v ++ t) = Some (length v, v).
Proof.
  intros Hv Hs Ht. unfold scanTagSegment.
  destruct Hv as [a v He Hv | r a v Ha He Hr Hv]; pose proof (tail_then _ _ _ Hv Ht) as Hf;
    rewrite <- (assoc_L (++)) in *;
    assert (";"%char ∉ v ++ t) as Hs' by (rewrite not_elem_of_app in Hs; tauto).
  - pose proof (emoji_nonempty _ He) as Hne.
    rewrite segment_starter_eq by (by destruct a). cbv zeta. rewrite (no_reference _ Hs), (match_emoji_atom _ _ He Hf).
    destruct (Nat.ltb_spec 0 (length a)); [|destruct a; [done | cbn in *; lia]].
    rewrite Nat.add_0_l, drop_app_length, take_app_length, (rest_rescans _ _ _ _ _ Hv Hs' Ht).
    by rewrite length_app.
  - assert (a ≠ []) as Hne by apply Ha.
    destruct (continuation_fresh r (starter_continuation r Hr)) as [_ Hb].
    rewrite segment_starter_eq by (by destruct a). cbv zeta.
    rewrite (no_reference _ Hs), (match_rune_atom _ _ _ Ha Hb He Hf), (chunk_valid _ _ _ Ha), (chunk_app _ _ _ Ha).
    cbn [fst snd]. rewrite (starter_plain r Hr), Hr. cbn [Nat.ltb Nat.leb].
    rewrite Nat.add_0_l, drop_app_length, take_app_length, (rest_rescans _ _ _ _ _ Hv Hs' Ht).
    by rewrite length_app.
Qed.

Lemma value_fresh v : value v → fresh v ∧ v ≠ [].
Proof.
  assert (∀ v, segment v → v ≠ []) as Hne.
  { intros ? []; [|intros ?]; [destruct a; [by apply emoji_nonempty in H0 | done]|].
    destruct H0 as (_ & Ha & _). by destruct a. }
  intros []; pose proof (segment_fresh _ ltac:(eassumption)); [by eauto|].
  split; [|by destruct v0]. apply fresh_then; eauto.
Qed.

Lemma segments_rescan v : value v → ∀ pos v0, ";"%char ∉ v →
  segments_from 0 ("/"%char :: v) pos v0 = (pos + (1 + length v), v0 ++ "/"%char :: v).
Proof.
  induction 1 as [v Hv | v w Hv Hw IH]; intros pos v0 Hs; rewrite segments_from_eq; cbn [Ascii.eqb Bool.eqb].
  - assert (scanTagSegment v = Some (length v, v)) as ->.
    { rewrite <- (app_nil_r v) at 1. apply segment_rescans; [done | by rewrite app_nil_r | by left]. }
    by rewrite drop_all.
  - rewrite segment_rescans by (first [done | right; by eexists]).
    rewrite drop_app_length, IH by (rewrite not_elem_of_app, not_elem_of_cons in Hs; tauto).
    rewrite length_app. cbn [length]. f_equal; [lia|]. by rewrite <- (assoc_L (++)).
Qed.

Lemma identifier_rescans v : value v → scanTagIdentifier v = Some (length v, v).
Proof.
  intros Hv. pose proof (value_no_semicolon v Hv) as Hs. unfold scanTagIdentifier. destruct Hv as [v Hv | v w Hv Hw].
  - assert (scanTagSegment v = Some (length v, v)) as ->.
    { rewrite <- (app_nil_r v) at 1. apply segment_rescans; [done | by rewrite app_nil_r | by left]. }
    by rewrite drop_all.
  - rewrite segment_rescans by (first [done | right; by eexists]). rewrite drop_app_length.
    rewrite segments_rescan by (first [done | rewrite not_elem_of_app, not_elem_of_cons in Hs; tauto]).
    rewrite length_app. done.
Qed.

Lemma number_sign_tag v : value v → FindTagMatches ("#"%char :: v) = [mkTag 0 (1 + length v) v].
Proof.
  intros Hv. destruct (value_fresh v Hv) as [Hf _]. unfold FindTagMatches. rewrite tags_from_eq. cbv zeta.
  assert (chunk (rune_of "#") ["#"%char]) as Hc by done.
  assert (¬ emoji ["#"%char]) as Hne by (apply is_emoji_false; vm_compute; reflexivity).
  change ("#"%char :: v) with (["#"%char] ++ v) at 1.
  rewrite (match_rune_atom (rune_of "#") _ v Hc) by (first [done | vm_compute; reflexivity]).
  assert (characterReferenceLength ("#"%char :: v) = 0) as ->.
  { unfold characterReferenceLength. cbn. by rewrite orb_true_r. }
  assert (at_escape ("#"%char :: v) = false) as -> by (by destruct v).
  cbn [Nat.ltb Nat.leb Ascii.eqb Bool.eqb negb]. rewrite identifier_rescans, drop_all by done.
  by rewrite Nat.add_0_l, Nat.add_1_r.
Qed.

(** ** Further on *)

(** The tags of [y], found further on. *)
Definition shift (k : nat) (m : TagMatch) : TagMatch := mkTag (k + tg_start m) (k + tg_end m) (tg_value m).

Lemma tags_shift n : ∀ x pos k, length x ≤ n → tags_from 0 x (k + pos) = shift k <$> tags_from 0 x pos.
Proof.
  induction n as [|n IH]; intros [|a x] pos k Hn; try (cbn in Hn; lia); [done..|].
  rewrite !tags_from_eq. cbv zeta.
  assert (∀ j, 1 ≤ j → tags_from 0 (drop j (a :: x)) (k + pos + j) = shift k <$> tags_from 0 (drop j (a :: x)) (pos + j)) as Hstep.
  { intros j Hj. rewrite <- Nat.add_assoc. apply IH. rewrite length_drop. lia. }
  case_match eqn:He; [apply Nat.ltb_lt in He; apply Hstep; lia|].
  case_match eqn:Hr; [apply Nat.ltb_lt in Hr; apply Hstep; lia|].
  case_match; [apply Hstep; lia|]. case_match; [apply Hstep, decode_size; done|].
  destruct (scanTagIdentifier x) as [[j v]|]; [|apply (Hstep 1); lia].
  rewrite fmap_cons. unfold shift at 1. cbn [tg_start tg_end tg_value]. f_equal; [f_equal; lia|].
  rewrite <- Nat.add_assoc, <- IH by (rewrite length_drop; cbn in Hn; lia). f_equal. lia.
Qed.
(** ** Word by word

    A byte up to the space that is neither punctuation nor alphanumeric ends
    whatever is being read. *)

Section gap.
Context (c : Ascii.ascii) (Hc : (byte_of c ≤ 0x20)%Z) (Hp : IsPunct c = false) (Ha : IsAlphaNumeric c = false).

Lemma gap_ascii : ASCII c.
Proof. unfold ASCII. lia. Qed.

Lemma gap_valid : invalid (byte_of c, 1) = false.
Proof. unfold invalid, RuneError. cbn [fst snd]. apply andb_false_iff. left. lia. Qed.

Lemma gap_bytes d : (0x20 < byte_of d)%Z → Ascii.eqb c d = false.
Proof. intros Hd. apply Ascii.eqb_neq. intros ->. lia. Qed.

Lemma gap_rune : isSegmentStarter (byte_of c) = false ∧ stops (byte_of c) = true ∧
  isXIDContinue (byte_of c) = false.
Proof.
  assert (∀ n, n ≤ 32 → isSegmentStarter (Z.of_nat n) = false ∧ stops (Z.of_nat n) = true ∧
    isXIDContinue (Z.of_nat n) = false) as Hall.
  { intros n Hn. do 33 (destruct n as [|n]; [split_and!; vm_compute; reflexivity|]). lia. }
  specialize (Hall (Z.to_nat (byte_of c))). rewrite Z2Nat.id in Hall by lia. apply Hall. lia.
Qed.

Lemma match_gap x t : matchFullyQualifiedEmoji (x ++ c :: t) = matchFullyQualifiedEmoji x.
Proof.
  apply match_unique.
  - destruct (decide (matchFullyQualifiedEmoji x = 0)) as [|Hne]; [by left|]. right.
    apply match_emoji in Hne as [Hl He]. split; [rewrite length_app; lia|].
    by rewrite take_app_le by done.
  - intros m Hm. apply match_longest. pose proof Hm as Hm'. destruct Hm as [_ He].
    apply emoji_prefix_sequence in Hm' as (rs & u & Hin & E & ->).
    pose proof (sequence_facts_of _ Hin) as [_ _ Hb _ _ _].
    assert (length (encode rs) ≤ length x) as Hle.
    { destruct (decide (length (encode rs) ≤ length x)) as [|Hgt]; [done|]. exfalso.
      assert (encode rs !! length x = Some c) as Hl%list_elem_of_lookup_2.
      { rewrite <- (lookup_app_l _ u) by lia. rewrite <- E. by apply list_lookup_middle. }
      destruct (Hb _ Hl). lia. }
    split; [done|]. by rewrite take_app_le in He by done.
Qed.

Lemma match_gap_nil t : matchFullyQualifiedEmoji (c :: t) = 0.
Proof. exact (match_gap [] t). Qed.

Lemma span_gap p max x t : p c = false → span p max (x ++ c :: t) = span p max x.
Proof.
  intros Hpc. revert max. induction x as [|d x IH]; intros [|max]; cbn [app span]; [done | by rewrite Hpc | done |].
  by rewrite IH.
Qed.

Lemma span_bound p max x : span p max x ≤ length x.
Proof. revert max. induction x as [|d x IH]; intros [|max]; cbn; [lia.. |]. case_match; [specialize (IH max)|]; lia. Qed.

Lemma lookup_gap x t k d : (0x20 < byte_of d)%Z → k ≤ length x →
  bool_decide ((x ++ c :: t) !! k = Some d) = bool_decide (x !! k = Some d).
Proof.
  intros Hd Hk. apply bool_decide_ext. destruct (decide (k = length x)) as [->|].
  - rewrite list_lookup_middle by done. rewrite lookup_ge_None_2 by done.
    split; [|done]. intros E. injection E as ->. lia.
  - by rewrite lookup_app_l by lia.
Qed.

Lemma numeric_gap p max start x t : p c = false → start ≤ length x →
  numeric_reference p max start (x ++ c :: t) = numeric_reference p max start x.
Proof.
  intros Hpc Hs. unfold numeric_reference. rewrite drop_app_le, span_gap by done.
  pose proof (span_bound p max (drop start x)) as Hb. rewrite length_drop in Hb.
  rewrite lookup_gap; [done | done | lia].
Qed.

Lemma gap_digit : Str.is_digit c = false ∧ is_hex_digit c = false.
Proof.
  unfold is_hex_digit, Str.is_digit, in_range, rune_of. cbn zeta.
  assert (∀ d, (0x20 < byte_of d)%Z → (byte_of d <=? byte_of c)%Z = false) as Hlt by (intros; lia).
  rewrite !(Hlt "a"%char), !(Hlt "A"%char) by done. cbn [andb orb].
  assert ((48 <=? byte_of c)%Z = false) as -> by lia. done.
Qed.

Lemma reference_gap x t : characterReferenceLength (x ++ c :: t) = characterReferenceLength x.
Proof.
  destruct gap_digit as [Hd Hh].
  destruct (decide (3 ≤ length x)) as [Hl|Hl].
  - unfold characterReferenceLength. rewrite length_app. cbn [length].
    destruct (Nat.ltb_spec (length x + S (length t)) 3); [lia|]. destruct (Nat.ltb_spec (length x) 3); [lia|].
    rewrite !lookup_gap by (first [done | lia]). rewrite !numeric_gap by (first [done | lia]).
    rewrite drop_app_le, span_gap by (first [done | lia]).
    pose proof (span_bound IsAlphaNumeric 32 (drop 1 x)) as Hb. rewrite length_drop in Hb.
    rewrite lookup_gap by (first [done | lia]). by rewrite take_app_le by lia.
  - assert (characterReferenceLength x = 0) as ->.
    { unfold characterReferenceLength. by destruct (Nat.ltb_spec (length x) 3); [|lia]. }
    assert (∀ d, (0x20 < byte_of d)%Z → bool_decide (Some c = Some d) = false) as Hn.
    { intros d Hd'. apply bool_decide_eq_false. intros E. injection E as ->. lia. }
    unfold characterReferenceLength. destruct x as [|a [|b [|? x]]]; cbn [app length] in *; [| | | lia].
    + cbn [lookup list_lookup]. rewrite Hn by done. cbn [negb]. by rewrite orb_true_r.
    + change ((a :: c :: t) !! 1) with (Some c). rewrite Hn by done. cbn [drop span].
      rewrite Ha. by repeat case_match.
    + change ((a :: b :: c :: t) !! 2) with (Some c). rewrite !Hn by done. cbn [orb].
      change (a :: b :: c :: t) with ([a; b] ++ c :: t). rewrite numeric_gap by (first [done | cbn; lia]).
      cbn [app drop span]. rewrite Ha. case_match; [done|]. case_match; [done|].
      destruct (IsAlphaNumeric b); cbn [Nat.add Nat.eqb orb]; [|done].
      change ((a :: b :: c :: t) !! 2) with (Some c). by rewrite Hn.
Qed.

Lemma at_reference_gap x t : x ≠ [] → at_reference (x ++ c :: t) = at_reference x.
Proof. intros Hx. destruct x as [|a x]; [done|]. unfold at_reference. by rewrite <- (reference_gap (a :: x) t). Qed.

Lemma starts_gap x t : startsNonCombiningXIDContinuation (x ++ c :: t) = startsNonCombiningXIDContinuation x.
Proof.
  destruct gap_rune as (_ & _ & Hx). destruct x as [|a x].
  - cbn [app]. unfold startsNonCombiningXIDContinuation. rewrite match_gap_nil, decode_ascii by apply gap_ascii. cbn [Nat.ltb Nat.leb fst]. cbv zeta. case_match; [done|].
    cbn [fst]. by rewrite Hx.
  - unfold startsNonCombiningXIDContinuation. rewrite match_gap, decode_stop by (first [done | apply gap_ascii]). done.
Qed.

Lemma gap_no_reference t : at_reference (c :: t) = false.
Proof. unfold at_reference. by rewrite gap_bytes. Qed.

Lemma starter_gap n : ∀ x t pos, length x ≤ n → segment_starter 0 (x ++ c :: t) pos = segment_starter 0 x pos.
Proof.
  induction n as [|n IH]; intros x t pos Hn; (destruct (decide (x = [])) as [->|Hx];
    [| pose proof (decode_size x Hx) as Hd]).
  2: by destruct x; [|cbn in Hn; lia].
  1, 2: destruct gap_rune as (Hg & Hst & Hx); cbn [app]; rewrite segment_starter_eq by done; cbv zeta;
    rewrite gap_no_reference, match_gap_nil, decode_ascii by apply gap_ascii; cbn [fst snd Nat.ltb Nat.leb];
    rewrite Hg, Hx; unfold stops in Hst; destruct (isDefaultIgnorable (byte_of c)); [discriminate|];
    by destruct (invalid _).
  rewrite !segment_starter_eq by (first [done | by destruct x]). cbv zeta.
  rewrite at_reference_gap, match_gap, decode_stop by (first [done | apply gap_ascii]).
  case_match; [done|]. case_match eqn:He.
  { apply Nat.ltb_lt in He. apply match_bound in He as [He _]. by rewrite take_app_le by done. }
  case_match; [done|]. case_match; [|by rewrite take_app_le by lia].
  rewrite drop_app_le by lia. apply IH. rewrite length_drop. lia.
Qed.

Lemma rest_gap n : ∀ x t pos v p, length x ≤ n →
  segment_rest 0 (x ++ c :: t) pos v p = segment_rest 0 x pos v p.
Proof.
  induction n as [|n IH]; intros x t pos v p Hn; (destruct (decide (x = [])) as [->|Hx];
    [| pose proof (decode_size x Hx) as Hd]).
  2: by destruct x; [|cbn in Hn; lia].
  1, 2: destruct gap_rune as (Hg & Hst & Hx); cbn [app]; rewrite segment_rest_eq by done; cbv zeta;
    rewrite gap_no_reference, match_gap_nil, decode_ascii by apply gap_ascii;
    change (segment_rest 0 [] pos v p) with (pos, v); by apply stop_rune; [apply gap_valid|].
  rewrite !segment_rest_eq by (first [done | by destruct x]). cbv zeta.
  rewrite at_reference_gap, match_gap, decode_stop by (first [done | apply gap_ascii]).
  case_match; [done|]. case_match eqn:He.
  { apply Nat.ltb_lt in He. destruct (match_bound x He) as [Hb _]. rewrite take_app_le, drop_app_le by done.
    apply IH. rewrite length_drop. lia. }
  rewrite drop_app_le, starts_gap, take_app_le by lia.
  case_match; [done|]. repeat (case_match; [apply IH; rewrite length_drop; lia|]). done.
Qed.

Lemma segment_gap x t : scanTagSegment (x ++ c :: t) = scanTagSegment x.
Proof.
  unfold scanTagSegment. rewrite (starter_gap (length x)) by done.
  destruct (segment_starter 0 x 0) as [[[pos a] p]|] eqn:Hs; [|done].
  apply (starter_reads (length x)) in Hs as (k & -> & Hk & Hk' & _); [|done].
  by rewrite drop_app_le, (rest_gap (length (drop (0 + k) x))) by (first [done | lia]).
Qed.

Lemma segments_gap n : ∀ x t pos v, length x ≤ n →
  segments_from 0 (x ++ c :: t) pos v = segments_from 0 x pos v.
Proof.
  induction n as [|n IH]; intros [|a x] t pos v Hn; try (cbn in Hn; lia).
  1, 2: cbn [app]; rewrite segments_from_eq; by rewrite gap_bytes.
  cbn [app]. rewrite !segments_from_eq, segment_gap. destruct (Ascii.eqb a "/"); [|done].
  destruct (scanTagSegment x) as [[k w]|] eqn:Hs; [|done]. apply segment_reads in Hs as (_ & Hk & _).
  rewrite drop_app_le by done. apply IH. cbn in Hn. rewrite length_drop. lia.
Qed.

Lemma identifier_gap x t : scanTagIdentifier (x ++ c :: t) = scanTagIdentifier x.
Proof.
  unfold scanTagIdentifier. rewrite segment_gap. destruct (scanTagSegment x) as [[k w]|] eqn:Hs; [|done].
  apply segment_reads in Hs as (_ & Hk & _).
  by rewrite drop_app_le, (segments_gap (length (drop k x))) by done.
Qed.

Lemma escape_gap x t : at_escape (x ++ c :: t) = at_escape x.
Proof.
  destruct x as [|a [|b x]]; [| |done]; cbn [app at_escape].
  - destruct t; [done|]. by rewrite gap_bytes.
  - by rewrite Hp, andb_false_r.
Qed.

Lemma tags_gap_first t pos : tags_from 0 (c :: t) pos = tags_from 0 t (pos + 1).
Proof.
  rewrite tags_from_eq. cbv zeta. rewrite match_gap_nil.
  assert (characterReferenceLength (c :: t) = 0) as -> by exact (reference_gap [] t).
  assert (at_escape (c :: t) = false) as -> by exact (escape_gap [] t).
  cbn [Nat.ltb Nat.leb]. rewrite gap_bytes by done. rewrite decode_ascii by apply gap_ascii. done.
Qed.

Lemma tags_gap n : ∀ x t pos, length x ≤ n →
  tags_from 0 (x ++ c :: t) pos = tags_from 0 x pos ++ tags_from 0 (c :: t) (pos + length x).
Proof.
  induction n as [|n IH]; intros [|a x] t pos Hn; try (cbn in Hn; lia); try (cbn; by rewrite Nat.add_0_r).
  assert (∀ k, 1 ≤ k ≤ length (a :: x) →
    tags_from 0 (drop k ((a :: x) ++ c :: t)) (pos + k) =
    tags_from 0 (drop k (a :: x)) (pos + k) ++ tags_from 0 (c :: t) (pos + length (a :: x))) as Hstep.
  { intros k Hk. rewrite drop_app_le by lia. rewrite IH by (rewrite length_drop; lia).
    rewrite length_drop. do 2 f_equal. lia. }
  change ((a :: x) ++ c :: t) with (a :: (x ++ c :: t)) at 1.
  rewrite (tags_from_eq a (x ++ c :: t)), (tags_from_eq a x). cbv zeta.
  change (a :: (x ++ c :: t)) with ((a :: x) ++ c :: t).
  rewrite match_gap, reference_gap, escape_gap, decode_stop by (first [done | apply gap_ascii]).
  rewrite identifier_gap.
  destruct (Nat.ltb_spec 0 (matchFullyQualifiedEmoji (a :: x))) as [He|He].
  { apply Hstep. destruct (match_bound _ He). lia. }
  destruct (Nat.ltb_spec 0 (characterReferenceLength (a :: x))) as [Hr|Hr].
  { apply Hstep. pose proof (reference_bound (a :: x)). lia. }
  destruct (at_escape (a :: x)) eqn:Hesc.
  { apply Hstep. destruct x; [done | cbn; lia]. }
  destruct (Ascii.eqb a "#"); cbn [negb].
  2: { apply Hstep, decode_size. done. }
  destruct (scanTagIdentifier x) as [[k v]|] eqn:Hid; [|apply (Hstep 1); cbn; lia].
  apply identifier_reads in Hid as (_ & Hk & _).
  pose proof (Hstep (1 + k) ltac:(cbn; lia)) as E. cbn [app] in E. rewrite <- app_comm_cons. f_equal.
  rewrite <- Nat.add_assoc, (Nat.add_comm k 1).
  exact E.
Qed.

End gap.
End facts.

(** ** The theorems *)

Section theorems.
Context `{Goldmark}.

Lemma placed_elem source l : ∀ from m, placed source from l → m ∈ l → value (tg_value m).
Proof.
  induction l as [|m' l IH]; intros from m; [by intros _ ?%elem_of_nil|].
  cbn [placed]. intros (_ & _ & _ & Hv & Hl) [-> | Hin]%elem_of_cons; eauto.
Qed.

(** C39. The tags found in a text come in order and do not overlap; each begins
    with a number sign inside the text, and its value, which is no longer than its
    spelling, is made of segments, none empty, joined by slashes. *)
Theorem tags_well_placed (source : bytes) : placed source 0 (FindTagMatches source).
Proof. apply (tags_placed (length source) source 0); [done | lia]. Qed.

(** C38. The value of a tag found in a text, written after a number sign, is read
    as that one tag again: dropping ignored runes and leading marks never makes
    another emoji, another reference or another boundary of what is left. *)
Theorem tag_value_reads_back (source : bytes) (m : TagMatch) : m ∈ FindTagMatches source →
  FindTagMatches ("#"%char :: tg_value m) = [mkTag 0 (1 + length (tg_value m)) (tg_value m)].
Proof.
  intros Hin. apply number_sign_tag. eapply placed_elem, Hin.
  apply (tags_placed (length source) source 0); [done | lia].
Qed.

(** Tags are found word by word: those of two texts with a space or another
    control character between them are the tags of the first followed by the tags
    of the second, as long as goldmark takes that character for neither punctuation
    nor a letter or digit. *)
Theorem tags_word_by_word (x y : bytes) (c : Ascii.ascii) :
  (byte_of c ≤ 0x20)%Z → IsPunct c = false → IsAlphaNumeric c = false →
  FindTagMatches (x ++ c :: y) = FindTagMatches x ++ (shift (length x + 1) <$> FindTagMatches y).
Proof.
  intros Hc Hp Ha. unfold FindTagMatches. rewrite (tags_gap c Hc Hp Ha (length x)) by done.
  rewrite (tags_gap_first c Hc Hp Ha), <- (tags_shift (length y)) by done. do 2 f_equal. lia.
Qed.
End theorems.

(** Goldmark's functions on bytes, with a few of the named references. *)
Definition ascii_punctuation : bytes := String.list_ascii_of_string "!#$%&'()*+,-./:;<=>?@[\]^_`{|}~".
#[local] Instance plain_goldmark : Goldmark := {
  IsPunct := λ c, bool_decide (c ∈ ascii_punctuation);
  IsAlphaNumeric := isASCIIAlphanumeric;
  LookUpHTML5EntityByName := λ s, bool_decide (s ∈ [["a"; "m"; "p"]; ["l"; "t"]; ["g"; "t"]]%char) }.

Definition text (s : string) : bytes := String.list_ascii_of_string s.

Lemma tag_value_reads_back_witness :
  FindTagMatches ("#"%char :: text "a/b") = [mkTag 0 4 (text "a/b")].
Proof.
  apply (tag_value_reads_back (text "see #a/b, &#35;c") (mkTag 4 8 (text "a/b"))).
  apply list_elem_of_lookup. exists 0. vm_compute. reflexivity.
Defined.

Lemma tags_word_by_word_witness :
  FindTagMatches (text "#a R&amp;D" ++ " "%char :: text "#b/c#") =
  [mkTag 0 2 (text "a"); mkTag 11 15 (text "b/c")].
Proof.
  rewrite (tags_word_by_word (text "#a R&amp;D") (text "#b/c#") " "%char);
    [vm_compute; reflexivity | vm_compute; discriminate | vm_compute; reflexivity | vm_compute; reflexivity].
Defined.
