(* ===== verification/MentionFacts.v ===== *)
(** * Facts about mentions

    The mentions found are exactly those a declarative reading of the text names. *)
From Stdlib Require Import Sorted.
From stdpp Require Import gmap sets strings list.
From S2P Require Import Prelude GoLib TagTables TagScan TagFacts.
#[local] Open Scope nat_scope.

Section mentions.
Context `{Goldmark}.

(** The byte at [i] is the punctuation of a backslash escape, reading escapes
    from the left. *)
Fixpoint escaped_at (s : bytes) (i : nat) : bool :=
  match s with
  | [] => false
  | c :: s' =>
      match i with
      | O => false
      | S i =>
          match s' with
          | [] => false
          | d :: r =>
              if Ascii.eqb c "\" && IsPunct d
              then match i with O => true | S i => escaped_at r i end
              else escaped_at s' i
          end
      end
  end.

(** The grammar of usernames. *)
Definition username_byte (c : ascii) : Prop :=
  c = "-"%char ∨ (48 ≤ byte_of c ≤ 57)%Z ∨ (65 ≤ byte_of c ≤ 90)%Z ∨ (97 ≤ byte_of c ≤ 122)%Z.

Definition valid_username (u : bytes) : Prop :=
  1 ≤ length u ≤ 36 ∧ Forall username_byte u ∧ head u ≠ Some "-"%char ∧ last u ≠ Some "-"%char.

(** [m] is a mention of [source]: an introducer that is not escaped and that no
    byte of usernames precedes, followed by a username that no further byte of
    usernames continues. *)
Record mention_in (source : bytes) (runHasLeftBoundary : bool) (m : MentionMatch) : Prop := {
  mi_introducer : source !! mn_start m = Some "@"%char;
  mi_unescaped : escaped_at source (mn_start m) = false;
  mi_boundary : match mn_start m with
                | O => runHasLeftBoundary = true
                | S before => ∀ c, source !! before = Some c → ¬ username_byte c
                end;
  mi_end : mn_end m = mn_start m + 1 + length (mn_username m);
  mi_username : take (length (mn_username m)) (drop (mn_start m + 1) source) = mn_username m;
  mi_longest : ∀ c, source !! mn_end m = Some c → ¬ username_byte c;
  mi_valid : valid_username (mn_username m) }.

(** The same as the scanner sees it. *)
Record mention_read (source : bytes) (runHasLeftBoundary : bool) (m : MentionMatch) : Prop := {
  mr_introducer : source !! mn_start m = Some "@"%char;
  mr_unescaped : escaped_at source (mn_start m) = false;
  mr_boundary : hasMentionLeftBoundary source (mn_start m) runHasLeftBoundary = true;
  mr_end : mn_end m = mn_start m + 1 + username_length (drop (mn_start m + 1) source);
  mr_username : mn_username m = take (username_length (drop (mn_start m + 1) source)) (drop (mn_start m + 1) source);
  mr_valid : IsValidUsername (mn_username m) = true }.

Lemma username_length_bound s : username_length s ≤ length s.
Proof. induction s as [|c s IH]; cbn; [done|]. case_match; lia. Qed.

Lemma username_run s i : i < username_length s → ∃ c, s !! i = Some c ∧ IsUsernameCharacter c = true.
Proof.
  revert i. induction s as [|c s IH]; intros i Hi; cbn in Hi; [lia|].
  destruct (IsUsernameCharacter c) eqn:Hc; [|lia]. destruct i as [|i]; [by exists c|]. apply IH. lia.
Qed.

(** No byte before [pos] bears on what is escaped from there on. *)
Definition aligned (source : bytes) (pos : nat) : Prop :=
  ∀ j, escaped_at source (pos + j) = escaped_at (drop pos source) j.

Lemma aligned_app source pos k : aligned source pos →
  (∀ j, escaped_at (drop pos source) (k + j) = escaped_at (drop k (drop pos source)) j) →
  aligned source (pos + k).
Proof. intros Ha Hk j. by rewrite <- Nat.add_assoc, Ha, Hk, drop_drop. Qed.

Lemma escaped_step c s j : at_escape (c :: s) = false → escaped_at (c :: s) (S j) = escaped_at s j.
Proof. destruct s as [|d r]; [done|]. cbn [at_escape escaped_at]. by intros ->. Qed.

Lemma escaped_run k : ∀ s j, (∀ i c, i < k → s !! i = Some c → c ≠ "\"%char) → k ≤ length s →
  escaped_at s (k + j) = escaped_at (drop k s) j.
Proof.
  induction k as [|k IH]; intros s j Hs Hk; [done|]. destruct s as [|c s]; [cbn in Hk; lia|].
  cbn [Nat.add drop]. rewrite escaped_step.
  - apply IH; [|cbn in Hk; lia]. intros i d Hi. apply (Hs (S i) d). lia.
  - destruct s; [done|]. cbn. rewrite (proj2 (Ascii.eqb_neq _ _)); [done|]. apply (Hs 0 c); [lia | done].
Qed.

Lemma lookup_ahead (source : bytes) pos c next i : drop pos source = c :: next → source !! (pos + i) = (c :: next) !! i.
Proof. intros <-. by rewrite lookup_drop. Qed.

Lemma mentions_from_skip source b k : ∀ ahead pos,
  mentions_from source b k ahead pos = mentions_from source b 0 (drop k ahead) pos.
Proof. induction k; intros [|c ahead] pos; try done. apply IHk. Qed.

Lemma username_not_special c : IsUsernameCharacter c = true → c ≠ "@"%char ∧ c ≠ "\"%char.
Proof. intros Hc. split; intros ->; vm_compute in Hc; discriminate. Qed.

(** What is found from [pos] on are the mentions from there on. *)
Lemma mentions_found n : ∀ source b pos m, length (drop pos source) ≤ n → aligned source pos →
  m ∈ mentions_from source b 0 (drop pos source) pos ↔ pos ≤ mn_start m ∧ mention_read source b m.
Proof.
  induction n as [|n IH]; intros source b pos m Hn Ha.
  all: destruct (drop pos source) as [|c next] eqn:Hd; [|try (cbn in Hn; lia)].
  1, 2: split; [by intros ?%elem_of_nil|]; intros [Hle Hm]; exfalso;
    pose proof (mr_introducer _ _ _ Hm) as Hl%lookup_lt_Some;
    assert (length (drop pos source) = 0) as Hz by (by rewrite Hd); rewrite length_drop in Hz; lia.
  assert (∀ k, 1 ≤ k → k ≤ length (c :: next) → aligned source (pos + k) →
    (∀ m, mention_read source b m → pos ≤ mn_start m < pos + k → False) →
    m ∈ mentions_from source b 0 (drop k (c :: next)) (pos + k) ↔ pos ≤ mn_start m ∧ mention_read source b m) as Hstep.
  { intros k Hk1 Hk Hak Hno. rewrite <- Hd, drop_drop. rewrite IH by (first [done | rewrite <- drop_drop, Hd, length_drop; lia]).
    split; intros [Hle Hm]; (split; [|done]); [lia|].
    destruct (decide (pos + k ≤ mn_start m)) as [|Hlt]; [done|]. exfalso. apply (Hno m Hm). lia. }
  assert (Hat : ∀ i, source !! (pos + i) = (c :: next) !! i) by (intros; by apply lookup_ahead).
  cbn [mentions_from]. destruct (at_escape (c :: next)) eqn:Hesc.
  { rewrite mentions_from_skip. apply (Hstep 2); [lia | destruct next; [done | cbn; lia] | |].
    - apply aligned_app; [done|]. rewrite Hd. intros j.
      destruct next as [|d r]; [done|]. cbn [at_escape] in Hesc. cbn [Nat.add drop escaped_at]. by rewrite Hesc.
    - intros m' Hm Hr. destruct (decide (mn_start m' = pos)) as [E|].
      + pose proof (mr_introducer _ _ _ Hm) as Hi. rewrite E, <- (Nat.add_0_r pos), Hat in Hi.
        injection Hi as ->. by destruct next.
      + assert (mn_start m' = pos + 1) as E by lia. pose proof (mr_unescaped _ _ _ Hm) as Hu.
        rewrite E, Ha, Hd in Hu. destruct next as [|d r]; [done|]. cbn [at_escape] in Hesc.
        cbn [escaped_at] in Hu. by rewrite Hesc in Hu. }
  assert (aligned source (pos + 1)) as Ha1.
  { apply aligned_app; [done|]. rewrite Hd. intros j. by apply escaped_step. }
  destruct (negb (Ascii.eqb c "@") || negb (hasMentionLeftBoundary source pos b)) eqn:Hno.
  { apply (Hstep 1); [lia | cbn; lia | done |]. intros m' Hm Hr. assert (mn_start m' = pos) as E by lia.
    pose proof (mr_introducer _ _ _ Hm) as Hi. pose proof (mr_boundary _ _ _ Hm) as Hb.
    rewrite E in Hb. rewrite E, <- (Nat.add_0_r pos), Hat in Hi. injection Hi as ->. by rewrite Hb in Hno. }
  apply orb_false_iff in Hno as [Hc%negb_false_iff%Ascii.eqb_eq Hb%negb_false_iff]. subst c.
  assert (drop (pos + 1) source = next) as Hnext by (by rewrite <- drop_drop, Hd).
  pose proof (username_length_bound next) as Hul.
  assert (m ∈ mentions_from source b 0 (drop (1 + username_length next) ("@"%char :: next)) (pos + (1 + username_length next))
          ↔ pos + 1 ≤ mn_start m ∧ mention_read source b m) as Hrest.
  { rewrite <- Hd, drop_drop. rewrite IH.
    - split; intros [Hle Hm]; (split; [|done]); [lia|].
      destruct (decide (pos + (1 + username_length next) ≤ mn_start m)) as [|Hlt]; [done|]. exfalso.
      destruct (username_run next (mn_start m - (pos + 1)) ltac:(lia)) as (d & Hdl & Hud).
      rewrite <- Hnext, lookup_drop in Hdl. pose proof (mr_introducer _ _ _ Hm) as Hi.
      replace (pos + 1 + (mn_start m - (pos + 1))) with (mn_start m) in Hdl by lia. rewrite Hi in Hdl.
      injection Hdl as <-. by destruct (username_not_special _ Hud).
    - rewrite <- drop_drop, Hd, length_drop. cbn [length] in *. lia.
    - rewrite Nat.add_assoc. apply aligned_app; [done|]. rewrite Hnext. intros j. apply escaped_run; [|done].
      intros i d Hi Hdl. destruct (username_run next i Hi) as (d' & Hdl' & Hud). rewrite Hdl in Hdl'.
      injection Hdl' as <-. by destruct (username_not_special _ Hud). }
  rewrite mentions_from_skip, elem_of_app. cbn [Nat.add drop] in Hrest.
  rewrite <- Nat.add_assoc in *. cbn [Nat.add] in *. rewrite Hrest. clear Hrest.
  assert (∀ m', mn_start m' = pos → mention_read source b m' ↔
    (IsValidUsername (take (username_length next) next) = true ∧
     m' = mkMention pos (pos + S (username_length next)) (take (username_length next) next))) as Hhere.
  { intros m' E. split.
    - intros [_ _ _ He Hu Hv]. destruct m' as [st en us]; cbn in *. subst st. rewrite Hnext in *. subst.
      split; [done|]. f_equal. lia.
    - intros [Hv ->]. split; cbn; rewrite ?Hnext; try done; [| |lia].
      + rewrite <- (Nat.add_0_r pos), Hat. done.
      + rewrite <- (Nat.add_0_r pos), Ha, Hd. done. }
  split.
  - intros [Hin | [Hle Hm]]; [|split; [lia | done]].
    destruct (IsValidUsername _) eqn:Hv; [|by apply elem_of_nil in Hin].
    apply list_elem_of_singleton in Hin as ->. split; [done|]. by apply Hhere.
  - intros [Hle Hm]. destruct (decide (mn_start m = pos)) as [E|Hne]; [left | right; split; [lia | done]].
    apply Hhere in Hm as [-> ->]; [|done]. by apply list_elem_of_singleton.
Qed.

Lemma mentions_apart n : ∀ source b ahead pos, length ahead ≤ n →
  Forall (λ m, pos ≤ mn_start m) (mentions_from source b 0 ahead pos) ∧
  StronglySorted (λ m m', mn_end m ≤ mn_start m') (mentions_from source b 0 ahead pos).
Proof.
  induction n as [|n IH]; intros source b [|c next] pos Hn; try (cbn in Hn; lia);
    try (split; constructor).
  cbn [mentions_from].
  assert (∀ k l, pos < k → length l ≤ n → Forall (λ m, pos ≤ mn_start m) (mentions_from source b 0 l k) ∧
    StronglySorted (λ m m', mn_end m ≤ mn_start m') (mentions_from source b 0 l k)) as Hstep.
  { intros k l Hk Hl. destruct (IH source b l k Hl) as [Hf Hs]. split; [|done].
    eapply Forall_impl; [exact Hf|]. cbn. lia. }
  cbn [length] in Hn. case_match; [rewrite mentions_from_skip; apply Hstep; [lia | rewrite length_drop; lia]|].
  case_match; [apply Hstep; lia|].
  rewrite mentions_from_skip.
  destruct (IH source b (drop (username_length next) next) (pos + 1 + username_length next)) as [Hf Hs];
    [rewrite length_drop; lia|].
  case_match; cbn [app]; (split; [|try done]).
  - constructor; [done|]. eapply Forall_impl; [exact Hf|]. cbn. lia.
  - by constructor.
  - eapply Forall_impl; [exact Hf|]. cbn. lia.
Qed.

(** ** The scanner's reading is the declared grammar *)

Lemma isASCIIAlphanumeric_spec c : isASCIIAlphanumeric c = true ↔ username_byte c ∧ c ≠ "-"%char.
Proof.
  unfold username_byte. destruct (decide (c = "-"%char)) as [->|Hne]; [vm_compute; naive_solver|].
  unfold isASCIIAlphanumeric, isASCIILetter, isASCIIDigit, in_range, rune_of.
  change (byte_of "A") with 65%Z. change (byte_of "Z") with 90%Z. change (byte_of "a") with 97%Z.
  change (byte_of "z") with 122%Z. change (byte_of "0") with 48%Z. change (byte_of "9") with 57%Z.
  rewrite !orb_true_iff, !andb_true_iff, !Z.leb_le. split; [intros H'; split; [right; lia | done]|].
  intros [[->|H'] _]; [done | lia].
Qed.

Lemma IsUsernameCharacter_spec c : IsUsernameCharacter c = true ↔ username_byte c.
Proof.
  unfold IsUsernameCharacter. rewrite orb_true_iff, isASCIIAlphanumeric_spec, Ascii.eqb_eq.
  split; [|destruct (decide (c = "-"%char)); tauto]. intros [[? _] | ->]; [done | by left].
Qed.

Lemma is_alphanumeric_at_spec o : (∀ c, o = Some c → username_byte c) →
  is_alphanumeric_at o = true ↔ o ≠ None ∧ o ≠ Some "-"%char.
Proof.
  intros Ho. destruct o as [c|]; [|cbn; naive_solver]. cbn [is_alphanumeric_at].
  rewrite isASCIIAlphanumeric_spec. specialize (Ho c eq_refl). naive_solver congruence.
Qed.

Lemma username_byte_head u c : Forall username_byte u → head u = Some c → username_byte c.
Proof. intros Hu Hc. destruct Hu; naive_solver. Qed.

Lemma username_byte_last u c : Forall username_byte u → last u = Some c → username_byte c.
Proof. intros Hu (l & ->)%last_Some. rewrite Forall_app, Forall_singleton in Hu. apply Hu. Qed.

Lemma IsValidUsername_spec u : IsValidUsername u = true ↔ valid_username u.
Proof.
  unfold IsValidUsername, valid_username.
  assert (forallb IsUsernameCharacter u = true ↔ Forall username_byte u) as Hall.
  { rewrite forallb_forall, Forall_forall. by setoid_rewrite IsUsernameCharacter_spec; setoid_rewrite list_elem_of_In. }
  transitivity (1 ≤ length u ≤ 36 ∧ Forall username_byte u ∧
    is_alphanumeric_at (head u) = true ∧ is_alphanumeric_at (last u) = true).
  - rewrite <- Hall. unfold MaxUsernameLength. destruct (Nat.eqb_spec (length u) 0), (Nat.ltb_spec 36 (length u)),
      (is_alphanumeric_at (head u)), (is_alphanumeric_at (last u)); cbn [orb negb];
      (split; [intros ?; try discriminate | intros (? & ? & ? & ?); try discriminate]); auto with lia.
  - split; [intros (Hl & Hu & Hh & Ht) | intros (Hl & Hu & Hh & Ht)]; (split; [done|]); (split; [done|]).
    + split; [apply (is_alphanumeric_at_spec (head u)) | apply (is_alphanumeric_at_spec (last u))]; try done;
        intros c Hc; [by apply (username_byte_head u) | by apply (username_byte_last u)].
    + split; apply is_alphanumeric_at_spec; [intros c; by apply username_byte_head | | intros c; by apply username_byte_last |].
      * split; [|done]. by destruct u; [cbn in Hl; lia|].
      * split; [|done]. intros ->%last_None. cbn in Hl. lia.
Qed.

Lemma username_length_spec s n : n = username_length s ↔
  n ≤ length s ∧ Forall username_byte (take n s) ∧ ∀ c, s !! n = Some c → ¬ username_byte c.
Proof.
  revert n. induction s as [|c s IH]; intros n; cbn [username_length length].
  { split; [intros ->; cbn; naive_solver | intros [? _]; lia]. }
  destruct (IsUsernameCharacter c) eqn:Hc.
  - apply IsUsernameCharacter_spec in Hc. destruct n as [|n].
    + split; [done | intros (_ & _ & Hn)]. by destruct (Hn c eq_refl).
    + cbn [take lookup]. rewrite Forall_cons. specialize (IH n). cbn.
      rewrite Nat.succ_inj_wd, IH. split; [|intuition lia]. intros (? & ? & ?). repeat split; [lia | done..].
  - assert (¬ username_byte c) as Hn by (rewrite <- IsUsernameCharacter_spec; by rewrite Hc).
    destruct n as [|n]; [split; [intros _; repeat split; [lia | constructor | cbn; naive_solver] | done]|].
    split; [done|]. intros (_ & Hf & _). cbn in Hf. by apply Forall_cons in Hf as [? _].
Qed.

Lemma mention_in_read source b m : mention_in source b m ↔ mention_read source b m.
Proof.
  assert (hasMentionLeftBoundary source (mn_start m) b = true ↔
    match mn_start m with O => b = true | S before => ∀ c, source !! before = Some c → ¬ username_byte c end) as Hb.
  { unfold hasMentionLeftBoundary. destruct (mn_start m) as [|before]; [done|]. destruct (source !! before) as [c|]; [|naive_solver].
    rewrite negb_true_iff. setoid_rewrite <- IsUsernameCharacter_spec. rewrite <- not_true_iff_false. naive_solver. }
  pose proof (username_length_spec (drop (mn_start m + 1) source)) as Hn.
  split; intros [H1 H2 H3 H4 H5 H6 H7] || intros [H1 H2 H3 H4 H5 H6].
  - assert (length (mn_username m) = username_length (drop (mn_start m + 1) source)) as E.
    { apply Hn. rewrite H5. split; [rewrite <- H5 at 1; rewrite length_take; lia|].
      split; [apply H7|]. intros c. rewrite lookup_drop, <- H4. apply H6. }
    split; try done; [by apply Hb | by rewrite <- E | by rewrite <- E | by apply IsValidUsername_spec].
  - destruct (proj1 (Hn _) eq_refl) as (Hl & _ & Hc).
    assert (length (mn_username m) = username_length (drop (mn_start m + 1) source)) as E
      by (rewrite H5, length_take; lia).
    split; try done; [by apply Hb | by rewrite E | by rewrite E | | by apply IsValidUsername_spec].
    intros c. rewrite H4, <- lookup_drop. apply Hc.
Qed.

(** C40. [FindMentionMatches] finds exactly the mentions of the text, from left to
    right and without overlap: each introducer that no backslash escapes and that no
    byte of usernames precedes, with a username of 1 to 36 letters, digits and
    hyphens, without a hyphen at either end, that no further such byte continues. *)
Theorem mentions_exact (source : bytes) (runHasLeftBoundary : bool) :
  (∀ m, m ∈ FindMentionMatches source runHasLeftBoundary ↔ mention_in source runHasLeftBoundary m) ∧
  StronglySorted (λ m m', mn_end m ≤ mn_start m') (FindMentionMatches source runHasLeftBoundary).
Proof.
  unfold FindMentionMatches. split; [intros m | by eapply mentions_apart].
  rewrite mention_in_read. rewrite <- (drop_0 source) at 2.
  rewrite (mentions_found (length source)) by (by first [done | intros j]).
  split; [by intros [_ ?] | intros; split; [lia | done]].
Qed.
End mentions.
