(* ===== verification/Paging.v ===== *)
(** * Pages and orders of lists

    [server/router/api/v1/common.go] and [memo_service_query.go]: the size of a
    page, the token that names the next one, and the order a request asks for;
    with the part of [encoding/base64] that carries tokens.  The protobuf message
    inside a token is marshalled by a library: the class [ProtoPageToken]. *)
From S2P Require Import Prelude GoLib GoText.

(** ** [base64.StdEncoding] *)

Module Base64.
#[local] Open Scope Z_scope.

Definition encodeStd : string := "ABCDEFGHIJKLMNOPQRSTUVWXYZabcdefghijklmnopqrstuvwxyz0123456789+/".

(** The character of six bits. *)
Definition char_of (v : Z) : ascii := default "="%char (Str.to_list encodeStd !! Z.to_nat v).

(** [decodeMap]. *)
Definition value_of (c : ascii) : option Z :=
  let b := byte_of c in
  if (65 <=? b) && (b <=? 90) then Some (b - 65)
  else if (97 <=? b) && (b <=? 122) then Some (b - 71)
  else if (48 <=? b) && (b <=? 57) then Some (b + 4)
  else if b =? 43 then Some 62
  else if b =? 47 then Some 63
  else None.

Definition byte_char (v : Z) : ascii := Ascii.ascii_of_N (Z.to_N v).

(** [EncodeToString]: three bytes make four characters; one or two bytes at the
    end are padded. *)
Fixpoint encode (src : list ascii) : string :=
  match src with
  | [] => EmptyString
  | [a] =>
      let a := byte_of a in
      String (char_of (a / 4)) (String (char_of (a mod 4 * 16)) "==")
  | [a; b] =>
      let a := byte_of a in let b := byte_of b in
      String (char_of (a / 4)) (String (char_of (a mod 4 * 16 + b / 16))
        (String (char_of (b mod 16 * 4)) "="))
  | a :: b :: c :: rest =>
      let a := byte_of a in let b := byte_of b in let c := byte_of c in
      String (char_of (a / 4)) (String (char_of (a mod 4 * 16 + b / 16))
        (String (char_of (b mod 16 * 4 + c / 64)) (String (char_of (c mod 64)) (encode rest))))
  end.

(** [DecodeString] without line breaks.  The bits of the last character that no
    byte uses are not checked. *)
Fixpoint decode_quanta (src : list ascii) : option (list ascii) :=
  match src with
  | [] => Some []
  | a :: b :: c :: d :: rest =>
      a ← value_of a;
      b ← value_of b;
      let first := byte_char (a * 4 + b / 16) in
      if Ascii.eqb c "=" then
        if Ascii.eqb d "=" && bool_decide (rest = []) then Some [first] else None
      else
        c ← value_of c;
        let second := byte_char (b mod 16 * 16 + c / 4) in
        if Ascii.eqb d "=" then if bool_decide (rest = []) then Some [first; second] else None
        else
          d ← value_of d;
          more ← decode_quanta rest;
          Some (first :: second :: byte_char (c mod 4 * 64 + d) :: more)
  | _ => None
  end.

Definition is_line_break (c : ascii) : bool := Ascii.eqb c "010" || Ascii.eqb c "013".
Definition decode (s : string) : option (list ascii) :=
  decode_quanta (filter (λ c, is_line_break c = false) (Str.to_list s)).
End Base64.

(** ** Page tokens *)

Definition DefaultPageSize : Z := 50.
Definition MaxPageSize : Z := 1000.

(** [v1pb.PageToken]. *)
Record PageToken := mkPageToken { pt_limit : Z; pt_offset : Z }.

(** [proto.Marshal] and [proto.Unmarshal] on page tokens: what was marshalled is
    read back, and no bytes are the message with no field set. *)
Class ProtoPageToken := {
  proto_marshal : PageToken → result error (list ascii);
  proto_unmarshal : list ascii → result error PageToken;
  proto_roundtrip t : GoInt.is_int32 (pt_limit t) → GoInt.is_int32 (pt_offset t) →
    ∃ b, proto_marshal t = Ok b ∧ proto_unmarshal b = Ok t;
  proto_empty : proto_unmarshal [] = Ok (mkPageToken 0 0);
}.

Section tokens.
Context `{ProtoPageToken}.
#[local] Open Scope Z_scope.

Definition marshalPageToken (pageToken : PageToken) : result error string :=
  b ← wrap_err "failed to marshal page token" (proto_marshal pageToken);
  Ok (Base64.encode b).

Definition unmarshalPageToken (s : string) : result error PageToken :=
  match Base64.decode s with
  | None => Err (Wrap (errorf0 "illegal base64 data") "failed to decode page token")
  | Some b => wrap_err "failed to unmarshal page token" (proto_unmarshal b)
  end.

Definition getPageToken (limit offset : Z) : result error string :=
  marshalPageToken (mkPageToken (GoInt.int32 limit) (GoInt.int32 offset)).

Definition normalizePageSize (pageSize : Z) : Z :=
  if pageSize <=? 0 then DefaultPageSize else if MaxPageSize <? pageSize then MaxPageSize else pageSize.

(** The limit and the offset of a request: the block the list handlers share. *)
Definition page_of_request (page_size : Z) (page_token : string) : result error (Z * Z) :=
  if String.eqb page_token "" then Ok (normalizePageSize page_size, 0)
  else
    token ← unmarshalPageToken page_token;
    Ok (normalizePageSize (pt_limit token), Z.max (pt_offset token) 0).
End tokens.

(** ** [parseMemoOrderBy] *)

(** The fields of [FindMemo] it sets. *)
Record MemoOrder := mkOrder { mo_pinned : bool; mo_updated : bool; mo_asc : bool }.

Section order_by.
Context `{Text.GoUnicode}.

(** The loop over the fields; [explicit] is [hasExplicitTimeField]. *)
Fixpoint order_fields (fields : list string) (hasPinned explicit : bool) (o : MemoOrder)
  : result error (bool * MemoOrder) :=
  match fields with
  | [] => Ok (hasPinned, o)
  | field :: fields =>
      match Str.fields (Str.trim_space field) with
      | [] => order_fields fields hasPinned explicit o
      | fieldName :: rest =>
          let fieldDirection := match rest with d :: _ => Text.ToLower d | [] => "desc" end in
          if negb (bool_decide (rest = [])) && negb (String.eqb fieldDirection "asc")
             && negb (String.eqb fieldDirection "desc") then
            Err (Errorf "invalid order direction: %s, must be 'asc' or 'desc'" (take 1 rest))
          else
            let asc := String.eqb fieldDirection "asc" in
            if String.eqb fieldName "pinned" then
              order_fields fields true explicit (mkOrder true (mo_updated o) (mo_asc o))
            else if String.eqb fieldName "create_time" || String.eqb fieldName "name" then
              order_fields fields hasPinned true
                (if explicit then o else mkOrder (mo_pinned o) (mo_updated o) asc)
            else if String.eqb fieldName "update_time" then
              order_fields fields hasPinned true
                (if explicit then o else mkOrder (mo_pinned o) true asc)
            else
              Err (Errorf "unsupported order field: %s, supported fields are: pinned, create_time, update_time, name" [fieldName])
      end
  end.

Definition parseMemoOrderBy (orderBy : string) (o : MemoOrder) : result error MemoOrder :=
  if String.eqb (Str.trim_space orderBy) "" then Err (errorf0 "empty order_by")
  else
    let fields := Str.split_on "," orderBy in
    '(hasPinned, o) ← order_fields fields false false o;
    Ok (if hasPinned && negb (mo_updated o) && Nat.eqb (length fields) 1
        then mkOrder (mo_pinned o) (mo_updated o) false else o).
End order_by.

(** * Facts: base64 is read back, and with it page tokens *)
#[local] Open Scope Z_scope.

(** ** base64 *)

Lemma byte_of_range c : 0 ≤ byte_of c < 256.
Proof. pose proof (Ascii.N_ascii_bounded c). lia. Qed.

Lemma byte_char_of c : Base64.byte_char (byte_of c) = c.
Proof. unfold Base64.byte_char. by rewrite N2Z.id, Ascii.ascii_N_embedding. Qed.

(** The 64 characters: each is read as its value, and none is padding or a line
    break. *)
Definition good_char (v : Z) : bool :=
  bool_decide (Base64.value_of (Base64.char_of v) = Some v)
  && negb (Ascii.eqb (Base64.char_of v) "=") && negb (Base64.is_line_break (Base64.char_of v)).

Lemma good_chars : forallb good_char (seqZ 0 64) = true.
Proof. vm_compute. reflexivity. Qed.

Lemma char_of_good v : 0 ≤ v < 64 →
  Base64.value_of (Base64.char_of v) = Some v ∧ Ascii.eqb (Base64.char_of v) "=" = false ∧
  Base64.is_line_break (Base64.char_of v) = false.
Proof.
  intros Hv. pose proof good_chars as Hg. rewrite forallb_forall in Hg.
  specialize (Hg v). assert (In v (seqZ 0 64)) as Hin by (apply list_elem_of_In, elem_of_seqZ; lia).
  specialize (Hg Hin). unfold good_char in Hg.
  by rewrite !andb_true_iff, !negb_true_iff, bool_decide_eq_true in Hg; destruct Hg as [[? ?] ?].
Qed.

(** The characters of an encoding as a list. *)
Fixpoint quanta (src : list ascii) : list ascii :=
  match src with
  | [] => []
  | [a] => [Base64.char_of (byte_of a / 4); Base64.char_of (byte_of a mod 4 * 16); "="; "="]%char
  | [a; b] =>
      [Base64.char_of (byte_of a / 4); Base64.char_of (byte_of a mod 4 * 16 + byte_of b / 16);
       Base64.char_of (byte_of b mod 16 * 4); "="]%char
  | a :: b :: c :: rest =>
      Base64.char_of (byte_of a / 4) :: Base64.char_of (byte_of a mod 4 * 16 + byte_of b / 16)
      :: Base64.char_of (byte_of b mod 16 * 4 + byte_of c / 64) :: Base64.char_of (byte_of c mod 64)
      :: quanta rest
  end.

(** Induction three bytes at a time. *)
Lemma triple_ind (P : list ascii → Prop) :
  P [] → (∀ a, P [a]) → (∀ a b, P [a; b]) → (∀ a b c l, P l → P (a :: b :: c :: l)) → ∀ l, P l.
Proof.
  intros H0 H1 H2 H3. fix IH 1. intros [|a [|b [|c l]]]; [exact H0 | apply H1 | apply H2 | apply H3, IH].
Qed.

Lemma encode_quanta src : Str.to_list (Base64.encode src) = quanta src.
Proof. induction src as [| | |a b c l IH] using triple_ind; [done..|]. cbn -[Base64.char_of Z.div Z.modulo]. by rewrite IH. Qed.

(** The six-bit groups of one, two and three bytes. *)
Ltac six_bits :=
  repeat match goal with c : ascii |- _ => lazymatch goal with
    | _ : 0 ≤ byte_of c < 256 |- _ => fail
    | _ => pose proof (byte_of_range c)
    end end;
  Z.div_mod_to_equations; lia.

Lemma quanta_no_breaks src : filter (λ c, Base64.is_line_break c = false) (quanta src) = quanta src.
Proof.
  assert (∀ v l, 0 ≤ v < 64 → filter (λ c, Base64.is_line_break c = false) (Base64.char_of v :: l) =
    Base64.char_of v :: filter (λ c, Base64.is_line_break c = false) l) as Hc.
  { intros v l Hv. apply filter_cons_True. by apply char_of_good. }
  induction src as [|a|a b|a b c l IH] using triple_ind; cbn -[Base64.char_of Z.div Z.modulo filter];
    [done | rewrite !Hc by six_bits; reflexivity | rewrite !Hc by six_bits; reflexivity |
     rewrite !Hc by six_bits; by rewrite IH].
Qed.

Lemma decode_quanta_quanta src : Base64.decode_quanta (quanta src) = Some src.
Proof.
  assert (∀ v, 0 ≤ v < 64 → Base64.value_of (Base64.char_of v) = Some v) as Hv by (intros; by apply char_of_good).
  assert (∀ v, 0 ≤ v < 64 → Ascii.eqb (Base64.char_of v) "=" = false) as Hp by (intros; by apply char_of_good).
  assert (∀ v c, v = byte_of c → Base64.byte_char v = c) as Hb by (intros ? ? ->; apply byte_char_of).
  induction src as [|a|a b|a b c l IH] using triple_ind;
    cbn -[Base64.char_of Base64.value_of Base64.byte_char Ascii.eqb Z.div Z.modulo];
    [done | rewrite !Hv by six_bits; cbn -[Base64.byte_char Z.div Z.modulo] ..].
  - do 2 f_equal. apply Hb. six_bits.
  - rewrite !Hp by six_bits; rewrite ?Hv by six_bits. cbn -[Base64.byte_char Z.div Z.modulo].
    repeat f_equal; apply Hb; six_bits.
  - rewrite !Hp by six_bits; rewrite ?Hv by six_bits. cbn -[Base64.byte_char Z.div Z.modulo Base64.char_of Ascii.eqb].
    rewrite IH. cbn -[Base64.byte_char Z.div Z.modulo].
    repeat f_equal; apply Hb; six_bits.
Qed.

Lemma base64_roundtrip src : Base64.decode (Base64.encode src) = Some src.
Proof. unfold Base64.decode. by rewrite encode_quanta, quanta_no_breaks, decode_quanta_quanta. Qed.

(** ** Page tokens *)

Section tokens.
Context `{ProtoPageToken}.

Lemma getPageToken_roundtrip limit offset :
  GoInt.is_int32 limit → GoInt.is_int32 offset →
  ∃ token, getPageToken limit offset = Ok token ∧ unmarshalPageToken token = Ok (mkPageToken limit offset).
Proof.
  intros Hl Ho. unfold getPageToken, marshalPageToken, unmarshalPageToken.
  assert (∀ z, GoInt.is_int32 z → GoInt.int32 z = z) as Hid.
  { intros z Hz. apply GoInt.wrap_signed_id; [lia|]. unfold GoInt.is_int32, GoInt.min_int32, GoInt.max_int32 in Hz. lia. }
  rewrite !Hid by done. destruct (proto_roundtrip (mkPageToken limit offset)) as (b & -> & Hb); [done..|].
  exists (Base64.encode b). split; [done|]. by rewrite base64_roundtrip, Hb.
Qed.

Lemma normalizePageSize_range size : 1 ≤ normalizePageSize size ≤ MaxPageSize.
Proof.
  unfold normalizePageSize, DefaultPageSize, MaxPageSize.
  destruct (Z.leb_spec size 0), (Z.ltb_spec 1000 size); lia.
Qed.

Lemma normalizePageSize_id size : 1 ≤ size ≤ MaxPageSize → normalizePageSize size = size.
Proof.
  unfold normalizePageSize, DefaultPageSize, MaxPageSize. intros Hs.
  destruct (Z.leb_spec size 0), (Z.ltb_spec 1000 size); lia.
Qed.

(** A token, which is never empty, continues a list with the same page size. *)
Lemma page_of_next limit offset size :
  1 ≤ limit ≤ MaxPageSize → 0 < offset → offset ≤ GoInt.max_int32 →
  ∃ token, getPageToken limit offset = Ok token ∧ token ≠ "" ∧ page_of_request size token = Ok (limit, offset).
Proof.
  intros Hl Ho Hm. unfold MaxPageSize, GoInt.max_int32 in *.
  destruct (getPageToken_roundtrip limit offset) as (token & Ht & Hu);
    [unfold GoInt.is_int32, GoInt.min_int32, GoInt.max_int32; lia..|].
  exists token. split; [done|].
  assert (token ≠ "") as Hne.
  { intros ->. unfold unmarshalPageToken in Hu. cbn in Hu. rewrite proto_empty in Hu. cbn in Hu.
    injection Hu as <- <-. lia. }
  split; [done|]. unfold page_of_request. rewrite (proj2 (String.eqb_neq _ _) Hne), Hu. cbn.
  rewrite normalizePageSize_id by (unfold MaxPageSize; lia). do 2 f_equal. lia.
Qed.
End tokens.
