(* ===== verification/MemoQuery.v ===== *)
(** * Reading lists from the store

    [ListMemos] of [store/db/sqlite/memo.go] with [store.FindMemo] and [GetMemo]
    ([store/memo.go]), [ListReactions], [ListAttachments] and [ListMemoRelations]
    of the files of the same names, and [listUsersByID] and [listMemosByID] of the
    API.  cel-go and what SQLite makes of a compiled filter are the class
    [FilterBackend], the protojson codec of payloads is [PayloadJSON]. *)
From S2P Require Import Prelude GoLib GoTime FilterIR FilterParser FilterRender.
From S2P Require Import Store SpaceStore MemoStore MemoAccess AttachmentStore MemoMutation.

(** ** Payloads *)

Record MemoProperty := mkProperty {
  py_has_link : bool; py_has_task_list : bool; py_has_code : bool;
  py_has_incomplete_tasks : bool; py_title : string }.

(** A latitude and a longitude are floats the code only copies: their text. *)
Record Location := mkLocation { lc_placeholder : string; lc_latitude : string; lc_longitude : string }.

Record MemoPayload := mkPayload {
  pl_tags : list string; pl_property : option MemoProperty; pl_location : option Location }.

Record MotionMedia := mkMotion {
  mt_family : Z; mt_role : Z; mt_group : string; mt_timestamp_us : Z; mt_has_video : bool }.

(** [ap_metadata] is media metadata as text, which the code transcodes whole. *)
Record AttachmentPayload := mkAttachmentPayload {
  ap_motion : option MotionMedia; ap_metadata : option string }.

(** [protojson] on payloads: what was marshalled is read back. *)
Class PayloadJSON := {
  unmarshal_memo_payload : string → option MemoPayload;
  marshal_memo_payload : MemoPayload → string;
  unmarshal_attachment_payload : string → option AttachmentPayload;
  memo_payload_roundtrip p : unmarshal_memo_payload (marshal_memo_payload p) = Some p;
}.

(** Filters are compiled by cel-go and [AppendConditions]; the rows that the
    conditions with their arguments then select are SQLite's. *)
Class FilterBackend := {
  fb_now : Time;
  fb_cel : Schema → string → result error expr;
  fb_rows : list string → list value → DB → Z → Memo → bool;
}.

(** ** Memos *)

(** [FindMemo] with the fields in its order. *)
Record FindMemo := mkFindMemo {
  fm_id : option Z; fm_uid : option string; fm_id_list : list Z; fm_uid_list : list string;
  fm_row_status : option RowStatus; fm_creator : option Z;
  fm_visibility_list : list Visibility; fm_comment_context : option Z;
  fm_access : option MemoAccessScope; fm_exclude_content : bool; fm_exclude_comments : bool;
  fm_filters : list string; fm_limit : option Z; fm_offset : option Z;
  fm_by_pinned : bool; fm_by_updated : bool; fm_time_asc : bool }.

Definition find_memo_id (id : Z) : FindMemo :=
  mkFindMemo (Some id) None [] [] None None [] None None false false [] None None false false false.
Definition find_memo_uid (uid : string) : FindMemo :=
  mkFindMemo None (Some uid) [] [] None None [] None None false false [] None None false false false.
Definition find_memo_ids (ids : list Z) (access : option MemoAccessScope) (exclude_content : bool)
  : FindMemo :=
  mkFindMemo None None ids [] None None [] None access exclude_content false [] None None
    false false false.

(** [*store.Memo] as a list returns it: the row with its id, the payload decoded,
    and the composed field [ParentUID]. *)
Record StoredMemo := mkStored {
  st_id : Z; st_row : Memo; st_payload : MemoPayload; st_parent_uid : option string }.

Definition in_list {A} `{EqDecision A} (l : list A) (x : A) : bool :=
  bool_decide (l = []) || bool_decide (x ∈ l).

(** [EXISTS] over the COMMENT relations of a memo. *)
Definition comments_on (db : DB) (id : Z) : gset (Z * Z * string) :=
  filter (λ r, r.1.1 = id ∧ r.2 = MemoRelationComment) (relations db).
Definition is_comment (db : DB) (id : Z) : bool := negb (bool_decide (comments_on db id = ∅)).

(** The WHERE clause. *)
Definition memo_selected (db : DB) (filtered : DB → Z → Memo → bool) (find : FindMemo)
    (id : Z) (m : Memo) : bool :=
  filtered db id m
  && matches_opt (fm_id find) id && in_list (fm_id_list find) id
  && matches_opt (fm_uid find) (mm_uid m) && in_list (fm_uid_list find) (mm_uid m)
  && matches_opt (fm_creator find) (mm_creator m)
  && matches_opt (fm_row_status find) (mm_row_status m)
  && in_list (fm_visibility_list find) (mm_visibility m)
  && match fm_comment_context find with
     | Some c => bool_decide ((id, c, MemoRelationComment) ∈ relations db)
     | None => true
     end
  && match fm_access find with
     | Some access => sqliteMemoAccessPredicate access db m
     | None => true
     end
  && (negb (fm_exclude_comments find) || negb (is_comment db id)).

(** The ORDER BY clause as a list of keys, smaller first. *)
Definition order_key (find : FindMemo) (kv : Z * Memo) : list Z :=
  let ts := if fm_by_updated find then mm_updated_ts kv.2 else mm_created_ts kv.2 in
  (if fm_by_pinned find then [if mm_pinned kv.2 then (-1)%Z else 0%Z] else [])
  ++ [if fm_time_asc find then ts else (- ts)%Z; (- kv.1)%Z].

Fixpoint key_le (a b : list Z) : bool :=
  match a, b with
  | x :: a, y :: b => (x <? y)%Z || ((x =? y)%Z && key_le a b)
  | [], _ => true
  | _ :: _, [] => false
  end.

Definition memo_before (find : FindMemo) (a b : Z * Memo) : Prop :=
  key_le (order_key find a) (order_key find b) = true.
#[export] Instance memo_before_dec find : RelDecision (memo_before find).
Proof. unfold memo_before. intros ??. apply _. Defined.

(** The sub-query of [parent_uid]: the context with the smallest id. *)
Definition parent_ids (db : DB) (id : Z) : list Z :=
  merge_sort Z.le (omap (λ r : Z * Z * string,
    match memos db !! r.1.2 with Some _ => Some r.1.2 | None => None end)
    (elements (comments_on db id))).
Definition parent_uid (db : DB) (id : Z) : option string :=
  p ← head (parent_ids db id); mm_uid <$> memos db !! p.

Section memos.
Context `{PayloadJSON} `{GoPlatform} `{FilterBackend}.

Definition without_content (m : Memo) : Memo :=
  mkMemo (mm_uid m) (mm_creator m) (mm_created_ts m) (mm_updated_ts m) (mm_row_status m) ""
    (mm_visibility m) (mm_pinned m) (mm_payload m) (mm_space m).

(** Scanning a row. *)
Definition scan_memo (db : DB) (find : FindMemo) (kv : Z * Memo) : result error StoredMemo :=
  match unmarshal_memo_payload (mm_payload kv.2) with
  | None => Err (Wrap (errorf0 "invalid JSON") "failed to unmarshal payload")
  | Some p =>
      Ok (mkStored kv.1 (if fm_exclude_content find then without_content kv.2 else kv.2) p
            (parent_uid db kv.1))
  end.

(** The compiled filters; without conditions every row stays. *)
Definition compile_filters (filters : list string) : result error (DB → Z → Memo → bool) :=
  let '(conditions, args, r) :=
    AppendConditions fb_cel (mkEngine NewSchema fb_now) filters DialectSQLite [] [] in
  _ ← r;
  Ok (λ db id m, bool_decide (conditions = []) || fb_rows conditions args db id m).

Definition memo_rows (db : DB) (filtered : DB → Z → Memo → bool) (find : FindMemo)
  : list (Z * Memo) :=
  limit_offset (fm_limit find) (fm_offset find)
    (select (memo_selected db filtered find) (memo_before find) (memos db)).

(** [ListMemos]. *)
Definition ListMemos (db : DB) (find : FindMemo) : result error (list StoredMemo) :=
  filtered ← compile_filters (fm_filters find);
  mapM (scan_memo db find) (memo_rows db filtered find).

Definition GetMemo (db : DB) (find : FindMemo) : result error (option StoredMemo) :=
  list ← ListMemos db find; Ok (head list).

(** [listMemosByID]: the memos as a map from their ids. *)
Definition listMemosByID (db : DB) (ids : list Z) : result error (gmap Z StoredMemo) :=
  if bool_decide (ids = []) then Ok ∅
  else
    memos ← ListMemos db (find_memo_ids (remove_dups ids) None false);
    Ok (list_to_map ((λ m, (st_id m, m)) <$> memos)).
End memos.

(** ** Reactions, attachments, relations and users *)

Definition by_id_asc {A} (a b : Z * A) : Prop := (a.1 ≤ b.1)%Z.
#[export] Instance by_id_asc_dec {A} : RelDecision (@by_id_asc A).
Proof. unfold by_id_asc. intros ??. apply _. Defined.

(** [ListReactions] by id, by memo, and by a list of memos. *)
Definition ListReactions (db : DB) (id memo : option Z) (memo_list : list Z) : list (Z * Reaction) :=
  select (λ i r, matches_opt id i && matches_opt memo (re_memo r) && in_list memo_list (re_memo r))
    by_id_asc (reactions db).
Definition GetReaction (db : DB) (id : Z) : option (Z * Reaction) :=
  head (ListReactions db (Some id) None []).

(** [*store.Attachment] as a list returns it: its payload decoded and [MemoUID]. *)
Record StoredAttachment := mkStoredAttachment {
  sa_id : Z; sa_row : Attachment; sa_payload : AttachmentPayload; sa_memo_uid : option string }.

(** The fields of [FindAttachment] these callers set. *)
Record FindAttachment := mkFindAttachment {
  fa_uid : option string; fa_creator : option Z; fa_memo : option Z; fa_memo_list : list Z;
  fa_limit : option Z; fa_skip_default_limit : bool }.

(** Newest first.  Rows with one time stamp come in an order SQLite leaves open;
    the model takes one, and no theorem depends on it. *)
Definition newest_first (a b : Z * Attachment) : Prop := (at_updated_ts b.2 ≤ at_updated_ts a.2)%Z.
#[export] Instance newest_first_dec : RelDecision newest_first.
Proof. unfold newest_first. intros ??. apply _. Defined.

Definition attachment_selected (find : FindAttachment) (id : Z) (a : Attachment) : bool :=
  matches_opt (fa_uid find) (at_uid a) && matches_opt (fa_creator find) (at_creator a)
  && match fa_memo find with Some m => bool_decide (at_memo a = Some m) | None => true end
  && (bool_decide (fa_memo_list find = [])
      || match at_memo a with Some m => bool_decide (m ∈ fa_memo_list find) | None => false end).

Definition find_attachments_of (memo : Z) : FindAttachment :=
  mkFindAttachment None None (Some memo) [] None false.

Section attachments.
Context `{PayloadJSON}.

Definition scan_attachment (db : DB) (kv : Z * Attachment) : result error StoredAttachment :=
  match unmarshal_attachment_payload (at_payload kv.2) with
  | None => Err (errorf0 "invalid JSON")
  | Some p =>
      Ok (mkStoredAttachment kv.1 kv.2 p
            (match at_memo kv.2 with Some m => mm_uid <$> memos db !! m | None => None end))
  end.

(** [Store.ListAttachments]: a hundred rows when nothing else bounds them. *)
Definition default_limit (find : FindAttachment) : option Z :=
  if bool_decide (fa_limit find = None) && bool_decide (fa_memo find = None)
     && bool_decide (fa_memo_list find = []) && negb (fa_skip_default_limit find)
  then Some 100%Z else fa_limit find.

Definition ListAttachments (db : DB) (find : FindAttachment) : result error (list StoredAttachment) :=
  mapM (scan_attachment db)
    (limit_offset (default_limit find) None (select (attachment_selected find) newest_first (attachments db))).

Definition GetAttachment (db : DB) (uid : string) : result error (option StoredAttachment) :=
  list ← ListAttachments db (mkFindAttachment (Some uid) None None [] None false); Ok (head list).
End attachments.

(** [ListMemoRelations] by sources or by targets; the order among relations of one
    memo is open. *)
Definition newest_relation_first (a b : Z * Z * string) : Prop := (b.1.1 ≤ a.1.1)%Z.
#[export] Instance newest_relation_first_dec : RelDecision newest_relation_first.
Proof. unfold newest_relation_first. intros ??. apply _. Defined.

Definition ListMemoRelations (db : DB) (sources targets : list Z) : list (Z * Z * string) :=
  merge_sort newest_relation_first
    (elements (filter (λ r, in_list sources r.1.1 = true ∧ in_list targets r.1.2 = true) (relations db))).

(** [listUsersByID]. *)
Definition listUsersByID (db : DB) (ids : list Z) : gmap Z User :=
  filter (λ kv, kv.1 ∈ ids) (users db).

(** [listUsersByIDWithExisting]: the given users, and the others of the list. *)
Definition listUsersByIDWithExisting (db : DB) (ids : list Z) (existing : gmap Z User) : gmap Z User :=
  let missing := remove_dups (filter (λ id, existing !! id = None) ids) in
  if bool_decide (missing = []) then existing else existing ∪ listUsersByID db missing.
