(* ===== verification/MemoConvert.v ===== *)
(** * From rows to messages

    [server/router/api/v1/memo_service_converter.go] with [checkMemoReadAccess]
    ([memo_access.go]), the enumerations of [common.go] and
    [memo_relation_service.go], [convertAttachmentFromStore]
    ([attachment_service_storage.go]) and [attachment_motion.go]: what a message
    about a memo tells its reader.  The markdown service is the class [Markdown]. *)
From S2P Require Import Prelude GoLib Store SpaceStore MemoStore ResourceName MemoAccess.
From S2P Require Import AttachmentStore MemoMutation AuthService MemoQuery.

(** The answer of a handler: a value, or a status with its message. *)
Abbreviation api A := (result (code * string) A).

Definition status_error {A} (c : code) (message : string) (r : result error A) : api A :=
  match r with Ok a => Ok a | Err _ => Err (c, message) end.

(** ** Messages: protobuf enumerations are integers *)

Definition STATE_UNSPECIFIED : Z := 0.
Definition NORMAL : Z := 1.
Definition ARCHIVED : Z := 2.
Definition VISIBILITY_UNSPECIFIED : Z := 0.
Definition PRIVATE : Z := 1.
Definition PROTECTED : Z := 2.
Definition PUBLIC : Z := 3.
Definition SPACE : Z := 4.
Definition TYPE_UNSPECIFIED : Z := 0.
Definition REFERENCE : Z := 1.
Definition COMMENT : Z := 2.

Definition convertStateFromStore (rowStatus : RowStatus) : Z :=
  if String.eqb rowStatus Normal then NORMAL
  else if String.eqb rowStatus Archived then ARCHIVED
  else STATE_UNSPECIFIED.
Definition convertStateToStore (state : Z) : RowStatus :=
  if (state =? ARCHIVED)%Z then Archived else Normal.

Definition convertVisibilityFromStore (v : Visibility) : Z :=
  if String.eqb v Private then PRIVATE
  else if String.eqb v Protected then PROTECTED
  else if String.eqb v Public then PUBLIC
  else if String.eqb v SpaceAudience then SPACE
  else VISIBILITY_UNSPECIFIED.
Definition validateCreateMemoVisibility (v : Z) : api Visibility :=
  if (v =? VISIBILITY_UNSPECIFIED)%Z || (v =? PRIVATE)%Z then Ok Private
  else if (v =? PROTECTED)%Z then Ok Protected
  else if (v =? PUBLIC)%Z then Ok Public
  else if (v =? SPACE)%Z then Ok SpaceAudience
  else Err (InvalidArgument, "invalid memo visibility").
Definition validateUpdateMemoVisibility (v : Z) : api Visibility :=
  if (v =? VISIBILITY_UNSPECIFIED)%Z then Err (InvalidArgument, "visibility must be specified")
  else validateCreateMemoVisibility v.

Definition convertMemoRelationTypeFromStore (t : string) : Z :=
  if String.eqb t MemoRelationReference then REFERENCE
  else if String.eqb t MemoRelationComment then COMMENT
  else TYPE_UNSPECIFIED.
Definition convertMemoRelationTypeToStore (t : Z) : string :=
  if (t =? COMMENT)%Z then MemoRelationComment else MemoRelationReference.

Record MemoRelationMemo := mkRelationMemo { rm_name : string; rm_snippet : string }.
Record MemoRelationMessage := mkRelationMessage {
  rg_memo : MemoRelationMemo; rg_related : MemoRelationMemo; rg_type : Z }.

Record ReactionMessage := mkReactionMessage {
  rx_name : string; rx_creator : string; rx_type : string; rx_create_time : Z }.

Record AttachmentMessage := mkAttachmentMessage {
  am_name : string; am_create_time : Z; am_filename : string; am_type : string; am_size : Z;
  am_motion : option MotionMedia; am_metadata : option string; am_memo : option string;
  am_external_link : string }.

Record MemoMessage := mkMemoMessage {
  mg_name : string; mg_state : Z; mg_creator : string; mg_create_time : Z; mg_update_time : Z;
  mg_content : string; mg_visibility : Z; mg_pinned : bool; mg_space : option string;
  mg_tags : list string; mg_property : option MemoProperty; mg_location : option Location;
  mg_parent : option string; mg_reactions : list ReactionMessage;
  mg_relations : list MemoRelationMessage; mg_attachments : list AttachmentMessage;
  mg_snippet : string }.

(** ** The markdown service *)

(** The parts of [ExtractAll]'s result that handlers use. *)
Record ExtractedData := mkExtracted {
  ex_tags : list string; ex_property : option MemoProperty; ex_mentions : list string }.

(** [extract_managed] stands for [extractManagedAttachmentReferences]: the UIDs of
    the attachments whose managed URLs the content shows as images, or a status. *)
Class Markdown := {
  ExtractAll : string → result error ExtractedData;
  GenerateSnippet : string → Z → result error string;
  extractManagedAttachmentReferences : string → api (list string);
}.

(** ** Access *)

(** [checkMemoReadAccess]; [userID] is the user of the request, 0 if none. *)
Definition error_message (e : error) : string :=
  match e with Errorf f _ => f | Wrap _ m => m | Panic w => w end.

Definition checkMemoReadAccess (db : DB) (anonymous : bool) (userID : Z) (memo : Z * Memo)
  : api unit :=
  match buildMemoReadContext db userID anonymous (Some memo) None with
  | Err e => Err (Internal, error_message e)
  | Ok ctx =>
      match memoAccessDecisionError (CheckMemoReadContext ctx) with
      | Some e => Err e
      | None => Ok tt
      end
  end.

(** ** Attachments and reactions *)

Definition getAttachmentMotionMedia (a : StoredAttachment) : option MotionMedia :=
  ap_motion (sa_payload a).

Definition EXTERNAL : string := "EXTERNAL".

Definition convertAttachmentFromStore (a : StoredAttachment) : AttachmentMessage :=
  let row := sa_row a in
  mkAttachmentMessage (AttachmentNamePrefix +:+ at_uid row) (at_created_ts row) (at_filename row)
    (at_type row) (at_size row) (getAttachmentMotionMedia a) (ap_metadata (sa_payload a))
    (match sa_memo_uid a with
     | Some uid => if String.eqb uid "" then None else Some (MemoNamePrefix +:+ uid)
     | None => None
     end)
    (if String.eqb (at_storage_type row) EXTERNAL then at_reference row else "").

Definition errMemoCreatorNotFound := errorf0 "memo creator not found".
Definition errReactionCreatorNotFound := errorf0 "reaction creator not found".

Definition convertReactionFromStoreWithCreators (reaction : Z * Reaction) (creators : gmap Z User)
    (memoName : string) : result error ReactionMessage :=
  match creators !! re_creator reaction.2 with
  | None => Err errReactionCreatorNotFound
  | Some creator =>
      Ok (mkReactionMessage (memoName +:+ "/" +:+ ReactionNamePrefix +:+ itoa reaction.1)
            (BuildUserName (us_username creator)) (re_type reaction.2) (re_created_ts reaction.2))
  end.

(** A reaction without a creator is left out. *)
Definition convertReactionsFromStoreWithCreators (db : DB) (reactions : list (Z * Reaction))
    (creatorMap : gmap Z User) (memoName : string) : list ReactionMessage :=
  let creators := listUsersByIDWithExisting db ((λ r, re_creator r.2) <$> reactions) creatorMap in
  omap (λ r, match convertReactionFromStoreWithCreators r creators memoName with
             | Ok m => Some m
             | Err _ => None
             end) reactions.

(** [convertReactionFromStore]. *)
Definition convertReactionFromStore (db : DB) (reaction : Z * Reaction) (memoName : string)
  : api ReactionMessage :=
  status_error NotFound "reaction creator not found"
    (convertReactionFromStoreWithCreators reaction
       (listUsersByIDWithExisting db [re_creator reaction.2] ∅) memoName).

(** ** Relations *)

(** [mergeMemoRelations]: the first of equal relations stays. *)
Fixpoint merge_relations (seen : gset (Z * Z * string)) (relations : list (Z * Z * string))
  : list (Z * Z * string) :=
  match relations with
  | [] => []
  | r :: relations =>
      if bool_decide (r ∈ seen) then merge_relations seen relations
      else r :: merge_relations ({[r]} ∪ seen) relations
  end.
Definition mergeMemoRelations (groups : list (list (Z * Z * string))) : list (Z * Z * string) :=
  merge_relations ∅ (concat groups).

(** Appending to a slice in a map. *)
Definition append_at {A} (k : Z) (a : A) (m : gmap Z (list A)) : gmap Z (list A) :=
  <[k := default [] (m !! k) ++ [a]]> m.

Section convert.
Context `{PayloadJSON} `{GoPlatform} `{FilterBackend} `{Markdown} (anonymous : bool).

Definition getMemoContentSnippet (content : string) : result error string :=
  wrap_err "failed to generate snippet" (GenerateSnippet content 64).

(** The snippets of the memos, if they are asked for; the memos of a list differ. *)
Definition snippets (include : bool) (message : string) (memos : list StoredMemo)
  : result error (gmap Z string) :=
  if include then
    l ← mapM (λ m, s ← wrap_err message (getMemoContentSnippet (mm_content (st_row m))); Ok (st_id m, s)) memos;
    Ok (list_to_map l)
  else Ok ∅.

(** The message of a relation whose two ends are known. *)
Definition relation_message (uids snips : gmap Z string) (r : Z * Z * string)
  : option MemoRelationMessage :=
  memoUID ← uids !! r.1.1;
  relatedUID ← uids !! r.1.2;
  Some (mkRelationMessage
    (mkRelationMemo (MemoNamePrefix +:+ memoUID) (default "" (snips !! r.1.1)))
    (mkRelationMemo (MemoNamePrefix +:+ relatedUID) (default "" (snips !! r.1.2)))
    (convertMemoRelationTypeFromStore r.2)).

(** The loop that builds the result: a relation is listed at both its ends. *)
Definition add_relation (ids : list Z) (uids snips : gmap Z string)
    (result : gmap Z (list MemoRelationMessage)) (r : Z * Z * string)
  : gmap Z (list MemoRelationMessage) :=
  match relation_message uids snips r with
  | None => result
  | Some g =>
      let result := if bool_decide (r.1.1 ∈ ids) then append_at r.1.1 g result else result in
      if bool_decide (r.1.2 ∈ ids) then append_at r.1.2 g result else result
  end.

Definition uids_of (memos : list StoredMemo) : gmap Z string :=
  list_to_map ((λ m, (st_id m, mm_uid (st_row m))) <$> memos).

(** [batchConvertMemoRelations]: other memos are looked up under the access scope
    of the reader. *)
Definition batchConvertMemoRelations (db : DB) (userID : Z) (memos : list StoredMemo)
    (includeSnippets : bool) : result error (gmap Z (list MemoRelationMessage)) :=
  if bool_decide (memos = []) then Ok ∅
  else
    accessScope ← resolveMemoAccessScope db userID anonymous;
    let memoIDs := st_id <$> memos in
    let allRelations := mergeMemoRelations
      [ListMemoRelations db memoIDs []; ListMemoRelations db [] memoIDs] in
    let neededIDs : list Z := filter (λ id, id ∉ memoIDs)
      (elements (list_to_set (allRelations ≫= λ r, [r.1.1; r.1.2]) : gset Z)) in
    snips ← snippets includeSnippets "failed to get memo content snippet" memos;
    extraMemos ← (if bool_decide (neededIDs = []) then Ok []
                  else wrap_err "failed to batch fetch related memos"
                         (ListMemos db (find_memo_ids neededIDs (Some accessScope) (negb includeSnippets))));
    extraSnips ← snippets includeSnippets "failed to get related memo content snippet" extraMemos;
    Ok (fold_left (add_relation memoIDs (uids_of extraMemos ∪ uids_of memos) (extraSnips ∪ snips))
          allRelations ∅).

(** [loadMemoRelations]. *)
Definition loadMemoRelations (db : DB) (userID : Z) (memo : StoredMemo)
  : result error (list MemoRelationMessage) :=
  relationMap ← batchConvertMemoRelations db userID [memo] true;
  Ok (default [] (relationMap !! st_id memo)).

(** ** Memos *)

(** [projectMemoCollaborationContext]: the name of the space, for its author and
    its active members. *)
Definition projectMemoCollaborationContext (db : DB) (memo : Memo) (readContext : MemoReadContext)
  : result error (option string) :=
  match mm_space memo with
  | None => Ok None
  | Some s =>
      let invalid := if String.eqb (mm_visibility memo) SpaceAudience
                     then Err (errorf0 "memo has invalid space placement") else Ok None in
      if negb (rc_space_valid readContext) then invalid
      else
        match rc_viewer readContext with
        | None => Ok None
        | Some (viewer, _) =>
            if negb (viewer =? mm_creator memo)%Z && negb (rc_viewer_space_member readContext)
            then Ok None
            else
              space ← eval_tx (GetSpace (find_space_id s)) db;
              match space with
              | None => invalid
              | Some space => Ok (Some (SpaceNamePrefix +:+ sp_uid space))
              end
        end
  end.

(** The name of the memo a comment hangs on, if the reader may read that memo. *)
Definition project_parent (db : DB) (userID : Z) (memo : StoredMemo) : result error (option string) :=
  match st_parent_uid memo with
  | None => Ok None
  | Some uid =>
      contextMemo ← wrap_err "failed to resolve comment context" (GetMemo db (find_memo_uid uid));
      Ok (match contextMemo with
          | Some c => if is_ok (checkMemoReadAccess db anonymous userID (st_id c, st_row c))
                      then Some (buildMemoName uid) else None
          | None => None
          end)
  end.

Definition convertMemoFromStoreWithCreators (db : DB) (userID : Z) (memo : StoredMemo)
    (reactions : list (Z * Reaction)) (attachments : list StoredAttachment)
    (relations : list MemoRelationMessage) (creatorMap : gmap Z User) : result error MemoMessage :=
  let row := st_row memo in
  let name := buildMemoName (mm_uid row) in
  match creatorMap !! mm_creator row with
  | None => Err errMemoCreatorNotFound
  | Some creator =>
      space ← match mm_space row with
              | None => Ok None
              | Some _ =>
                  readContext ← wrap_err "failed to resolve memo access"
                    (buildMemoReadContext db userID anonymous (Some (st_id memo, row)) None);
                  wrap_err "failed to project memo collaboration context"
                    (projectMemoCollaborationContext db row readContext)
              end;
      parent ← project_parent db userID memo;
      snippet ← wrap_err "failed to get memo content snippet" (getMemoContentSnippet (mm_content row));
      Ok (mkMemoMessage name (convertStateFromStore (mm_row_status row))
            (BuildUserName (us_username creator)) (mm_created_ts row) (mm_updated_ts row)
            (mm_content row) (convertVisibilityFromStore (mm_visibility row)) (mm_pinned row) space
            (pl_tags (st_payload memo)) (pl_property (st_payload memo)) (pl_location (st_payload memo))
            parent (convertReactionsFromStoreWithCreators db reactions creatorMap name)
            relations (convertAttachmentFromStore <$> attachments) snippet)
  end.

Definition convertMemoFromStore (db : DB) (userID : Z) (memo : StoredMemo)
    (reactions : list (Z * Reaction)) (attachments : list StoredAttachment)
    (relations : list MemoRelationMessage) : result error MemoMessage :=
  convertMemoFromStoreWithCreators db userID memo reactions attachments relations
    (listUsersByID db [mm_creator (st_row memo)]).
End convert.
