(* ===== verification/MemoReads.v ===== *)
(** * Handlers that read memos

    [server/router/api/v1/memo_service.go] ([ListMemos], [GetMemo]),
    [memo_service_comments.go] ([ListMemoComments]), [memo_relation_service.go]
    ([ListMemoRelations]), [memo_attachment_service.go] ([ListMemoAttachments]),
    [reaction_service.go] ([ListMemoReactions]) and [memo_share_service.go]
    ([GetSharedMemo], [ListMemoShares]).  They leave the database as it is: each is
    a function from the database and the user of the request, 0 if none. *)
From S2P Require Import Prelude GoLib GoText GoTime FilterIR FilterParser FilterRender.
From S2P Require Import Store SpaceStore MemoStore ResourceName MemoAccess FilterAccess.
From S2P Require Import AttachmentStore MemoMutation AuthService Paging MemoQuery MemoConvert.

Record ListMemosRequest := mkListMemos {
  lm_page_size : Z; lm_page_token : string; lm_state : Z; lm_order_by : string; lm_filter : string }.

Record ListMemosResponse := mkMemosResponse { lr_memos : list MemoMessage; lr_next_page_token : string }.

(** [errors.Is] for a missing creator. *)
Definition creator_missing (e : error) : bool := error_is e errMemoCreatorNotFound.

Section reads.
Context `{PayloadJSON} `{GoPlatform} `{FilterBackend} `{Markdown} `{ProtoPageToken} `{Text.GoUnicode}.
Context (anonymous : bool).

(** The memo a name stands for, and that the reader may read it; [lookup] is the
    status of an error of the lookup. *)
Definition memo_by_name (db : DB) (lookup : code * string) (name : string) : api StoredMemo :=
  memoUID ← status_error InvalidArgument "invalid memo name: %v" (ExtractMemoUIDFromName name);
  memo ← status_error lookup.1 lookup.2 (GetMemo db (find_memo_uid memoUID));
  match memo with
  | Some m => Ok m
  | None => Err (NotFound, "memo not found")
  end.

Definition readable_memo (db : DB) (userID : Z) (lookup : code * string) (name : string)
  : api StoredMemo :=
  memo ← memo_by_name db lookup name;
  _ ← checkMemoReadAccess db anonymous userID (st_id memo, st_row memo);
  Ok memo.

(** [err] of the conversion of a single memo. *)
Definition convert_status (missing : code * string) (r : result error MemoMessage) : api MemoMessage :=
  match r with
  | Ok m => Ok m
  | Err e => if creator_missing e then Err missing else Err (Unknown, "failed to convert memo")
  end.

Definition GetMemo (db : DB) (userID : Z) (name : string) : api MemoMessage :=
  memo ← readable_memo db userID (Unknown, "%v") name;
  let reactions := ListReactions db None (Some (st_id memo)) [] in
  attachments ← status_error Internal "failed to list attachments"
    (ListAttachments db (find_attachments_of (st_id memo)));
  relations ← status_error Unknown "failed to load memo relations"
    (loadMemoRelations anonymous db userID memo);
  convert_status (NotFound, "memo creator not found")
    (convertMemoFromStore anonymous db userID memo reactions attachments relations).

(** ** Lists *)

(** The page of a list found with one row more than its limit, and the token of
    the next page. *)
Definition cut_page {A} (limit offset : Z) (rows : list A) : api (list A * string) :=
  if (Z.of_nat (length rows) =? limit + 1)%Z then
    token ← status_error Internal "failed to get next page token, error: %v"
              (getPageToken limit (offset + limit));
    Ok (take (Z.to_nat limit) rows, token)
  else Ok (rows, "").

(** The loop that converts the memos of a page: one without a creator is left
    out. *)
Fixpoint convert_memos (db : DB) (userID : Z) (reactions : list (Z * Reaction))
    (attachments : list StoredAttachment) (relationMap : gmap Z (list MemoRelationMessage))
    (creatorMap : gmap Z User) (memos : list StoredMemo) : api (list MemoMessage) :=
  match memos with
  | [] => Ok []
  | memo :: memos =>
      match convertMemoFromStoreWithCreators anonymous db userID memo
              (filter (λ r, re_memo r.2 = st_id memo) reactions)
              (filter (λ a, at_memo (sa_row a) = Some (st_id memo)) attachments)
              (default [] (relationMap !! st_id memo)) creatorMap with
      | Ok m =>
          more ← convert_memos db userID reactions attachments relationMap creatorMap memos;
          Ok (m :: more)
      | Err e =>
          if creator_missing e
          then convert_memos db userID reactions attachments relationMap creatorMap memos
          else Err (Unknown, "failed to convert memo")
      end
  end.

(** What both lists do with the memos of a page. *)
Definition memo_messages (db : DB) (userID : Z) (memos : list StoredMemo) : api (list MemoMessage) :=
  if bool_decide (memos = []) then Ok []
  else
    let memoIDs := st_id <$> memos in
    let reactions := ListReactions db None None memoIDs in
    attachments ← status_error Internal "failed to list attachments"
      (ListAttachments db (mkFindAttachment None None None memoIDs None false));
    relationMap ← status_error Internal "failed to batch load memo relations"
      (batchConvertMemoRelations anonymous db userID memos false);
    let creatorMap := listUsersByID db
      (((λ m, mm_creator (st_row m)) <$> memos) ++ ((λ r, re_creator r.2) <$> reactions)) in
    convert_memos db userID reactions attachments relationMap creatorMap memos.

(** The order a request asks for, newest first by default. *)
Definition request_order (order_by : string) : api MemoOrder :=
  if String.eqb order_by "" then Ok (mkOrder false false false)
  else status_error InvalidArgument "invalid order_by: %v"
         (parseMemoOrderBy order_by (mkOrder false false false)).

(** The query of [ListMemos] without its page, or none for the empty answer of an
    anonymous caller who asks for archived memos. *)
Definition list_memos_find (db : DB) (userID : Z) (q : ListMemosRequest) : api (option FindMemo) :=
  currentUser ← status_error Internal "%v" (MemoAccess.fetchCurrentUser db userID);
  accessScope ← status_error Internal "%v" (resolveMemoAccessScope db userID anonymous);
  if bool_decide (currentUser = None) && negb (as_allow_public accessScope) then
    Err (Unauthenticated, "user not authenticated")
  else
    let archived := (lm_state q =? ARCHIVED)%Z in
    if archived && bool_decide (currentUser = None) then Ok None
    else
      order ← request_order (lm_order_by q);
      _ ← (if String.eqb (lm_filter q) "" then Ok tt
           else validateMemoFilterForUser fb_cel db fb_now (lm_filter q) DialectSQLite
                  (fst <$> currentUser));
      Ok (Some (mkFindMemo None None [] []
        (Some (if archived then Archived else Normal))
        (if archived then fst <$> currentUser else None)
        [] None (Some accessScope) false true
        (if String.eqb (lm_filter q) "" then [] else [lm_filter q])
        None None (mo_pinned order) (mo_updated order) (mo_asc order))).

(** The same query on one page: a row more than the limit. *)
Definition on_page (find : FindMemo) (limit offset : Z) : FindMemo :=
  mkFindMemo (fm_id find) (fm_uid find) (fm_id_list find) (fm_uid_list find) (fm_row_status find)
    (fm_creator find) (fm_visibility_list find) (fm_comment_context find) (fm_access find)
    (fm_exclude_content find) (fm_exclude_comments find) (fm_filters find)
    (Some (limit + 1)%Z) (Some offset) (fm_by_pinned find) (fm_by_updated find) (fm_time_asc find).

(** One page of a query, and the token of the next. *)
Definition memo_page (db : DB) (find : FindMemo) (page_size : Z) (page_token : string)
    (failure : string) : api (list StoredMemo * string) :=
  '(limit, offset) ← status_error InvalidArgument "invalid page token: %v"
                       (page_of_request page_size page_token);
  memos ← status_error Internal failure (ListMemos db (on_page find limit offset));
  cut_page limit offset memos.

Definition ListMemos (db : DB) (userID : Z) (q : ListMemosRequest) : api ListMemosResponse :=
  find ← list_memos_find db userID q;
  match find with
  | None => Ok (mkMemosResponse [] "")
  | Some find =>
      '(memos, nextPageToken) ← memo_page db find (lm_page_size q) (lm_page_token q)
                                  "failed to list memos: %v";
      messages ← memo_messages db userID memos;
      Ok (mkMemosResponse messages nextPageToken)
  end.

(** The query of [ListMemoComments]. *)
Definition comments_find (accessScope : MemoAccessScope) (memo : Z) : FindMemo :=
  mkFindMemo None None [] [] (Some Normal) None [] (Some memo) (Some accessScope) false false []
    None None false false false.

Definition ListMemoComments (db : DB) (userID : Z) (name : string) (page_size : Z)
    (page_token : string) : api ListMemosResponse :=
  memo ← readable_memo db userID (Internal, "failed to get memo") name;
  accessScope ← status_error Internal "%v" (resolveMemoAccessScope db userID anonymous);
  '(memos, nextPageToken) ← memo_page db (comments_find accessScope (st_id memo)) page_size page_token
                              "failed to list memo comments";
  messages ← memo_messages db userID memos;
  Ok (mkMemosResponse messages nextPageToken).

(** [ListMemoRelations]: a slice of the relations of the memo. *)
Definition slice {A} (lo hi : Z) (l : list A) : list A :=
  take (Z.to_nat (hi - lo)) (drop (Z.to_nat lo) l).

Definition ListMemoRelations (db : DB) (userID : Z) (name : string) (page_size : Z)
    (page_token : string) : api (list MemoRelationMessage * string) :=
  memo ← readable_memo db userID (Internal, "failed to get memo") name;
  relationMap ← status_error Internal "failed to list memo relations: %v"
    (batchConvertMemoRelations anonymous db userID [memo] true);
  let relationList := default [] (relationMap !! st_id memo) in
  let len := Z.of_nat (length relationList) in
  '(limit, offset) ← status_error InvalidArgument "invalid page token: %v"
                       (page_of_request page_size page_token);
  let stop := Z.min (offset + limit) len in
  let offset := if (len <? offset)%Z then len else offset in
  token ← (if (stop <? len)%Z
           then status_error Internal "failed to create page token" (getPageToken limit stop)
           else Ok "");
  Ok (slice offset stop relationList, token).

Definition ListMemoAttachments (db : DB) (userID : Z) (name : string) : api (list AttachmentMessage) :=
  memo ← readable_memo db userID (Internal, "failed to get memo: %v") name;
  attachments ← status_error Internal "failed to list attachments: %v"
    (ListAttachments db (find_attachments_of (st_id memo)));
  Ok (fmap (M := list) convertAttachmentFromStore attachments).

Definition ListMemoReactions (db : DB) (userID : Z) (name : string) : api (list ReactionMessage) :=
  memo ← readable_memo db userID (Internal, "failed to get memo: %v") name;
  Ok (convertReactionsFromStoreWithCreators db (ListReactions db None (Some (st_id memo)) []) ∅
        (buildMemoName (mm_uid (st_row memo)))).

(** ** Shares *)

Definition without_parent (m : MemoMessage) : MemoMessage :=
  mkMemoMessage (mg_name m) (mg_state m) (mg_creator m) (mg_create_time m) (mg_update_time m)
    (mg_content m) (mg_visibility m) (mg_pinned m) (mg_space m) (mg_tags m) (mg_property m)
    (mg_location m) None (mg_reactions m) (mg_relations m) (mg_attachments m) (mg_snippet m).

(** [GetSharedMemo]; whether the token opens the memo is [MemoAccess.GetSharedMemo]. *)
Definition GetSharedMemo (db : DB) (now userID : Z) (token : string) : api MemoMessage :=
  share ← status_error Internal "failed to get memo share" (eval_tx (getActiveMemoShare now token) db);
  match share with
  | None => Err (NotFound, "not found")
  | Some ms =>
      memo ← status_error Internal "failed to get memo" (MemoQuery.GetMemo db (find_memo_id (sh_memo ms)));
      match memo, MemoAccess.GetSharedMemo db now userID anonymous token with
      | Some memo, Some _ =>
          let reactions := ListReactions db None (Some (st_id memo)) [] in
          attachments ← status_error Internal "failed to list attachments"
            (ListAttachments db (find_attachments_of (st_id memo)));
          message ← convert_status (NotFound, "not found")
            (convertMemoFromStore anonymous db userID memo reactions attachments []);
          Ok (without_parent message)
      | _, _ => Err (NotFound, "not found")
      end
  end.

Record MemoShareMessage := mkShareMessage {
  sg_name : string; sg_create_time : Z; sg_expire_time : option Z }.

Definition convertMemoShareFromStore (ms : MemoShare) (memoUID : string) : MemoShareMessage :=
  mkShareMessage (MemoNamePrefix +:+ memoUID +:+ "/" +:+ MemoShareNamePrefix +:+ sh_uid ms)
    (sh_created_ts ms) (sh_expires_ts ms).

(** [ListMemoShares] of the store, by memo. *)
Definition shares_of (db : DB) (memo : Z) : list (Z * MemoShare) :=
  select (λ _ s, (sh_memo s =? memo)%Z) by_id_asc (shares db).

(** [fetchCurrentUser] in a handler that needs a user. *)
Definition current_user (db : DB) (userID : Z) (failure : string) : api (Z * User) :=
  user ← status_error Internal failure (MemoAccess.fetchCurrentUser db userID);
  match user with
  | Some u => Ok u
  | None => Err (Unauthenticated, "user not authenticated")
  end.

Definition ListMemoShares (db : DB) (userID : Z) (parent : string) : api (list MemoShareMessage) :=
  user ← current_user db userID "failed to get user";
  memo ← memo_by_name db (Internal, "failed to get memo") parent;
  _ ← (if (mm_creator (st_row memo) =? user.1)%Z then Ok tt
       else Err (PermissionDenied, "permission denied"));
  _ ← requireAssignedMemoWritable db (st_row memo) user.1;
  Ok ((λ s, convertMemoShareFromStore s.2 (mm_uid (st_row memo))) <$> shares_of db (st_id memo)).
End reads.
