(* ===== verification/MemoPrepare.v ===== *)
(** * Preparing changes of memos

    What the handlers check and compute before they write:
    [server/router/api/v1/memo_create_helpers.go], and of
    [memo_attachment_service.go], [memo_relation_service.go] and
    [attachment_service.go] the functions that prepare attachments and relations;
    with [RebuildMemoPayload] of [server/runner/memopayload]. *)
From S2P Require Import Prelude GoLib GoText GoTime FilterIR FilterParser FilterRender.
From S2P Require Import Store SpaceStore MemoStore ResourceName MemoAccess AttachmentStore MemoMutation.
From S2P Require Import AuthService MemoQuery MemoConvert MemoReads.

(** ** Requests *)

(** A protobuf timestamp: the answers of its [IsValid] and [AsTime().Unix()]. *)
Record Timestamp := mkTimestamp { ts_valid : bool; ts_unix : Z }.

Record RelationInput := mkRelationInput { ri_related : option string; ri_type : Z }.

(** [v1pb.Memo] as a request sends it; attachments are their names, and list
    entries may be nil. *)
Record MemoInput := mkInput {
  in_name : string; in_content : string; in_visibility : Z; in_space : option string;
  in_state : Z; in_pinned : bool; in_create_time : option Timestamp;
  in_update_time : option Timestamp; in_location : option Location;
  in_attachments : list (option string); in_relations : list (option RelationInput) }.

(** The instance: its limit on contents, and whether the file behind an attachment
    could be removed. *)
Class Instance := {
  content_limit : Z;
  storage_removed : Z * Attachment → bool;
}.

(** ** Errors of creation *)

(** [strings.Contains(err.Error(), ...)]; no separator of [Error] is part of the
    texts looked for. *)
Fixpoint error_contains (e : error) (sub : string) : bool :=
  match e with
  | Errorf f args => Text.contains f sub || existsb (λ a, Text.contains a sub) args
  | Wrap e m => Text.contains m sub || error_contains e sub
  | Panic _ => false
  end.

Definition mapMemoCreateError (e : error) (operation : string) : code * string :=
  if error_contains e "UNIQUE constraint failed" || error_contains e "duplicate key"
     || error_contains e "Duplicate entry"
  then (AlreadyExists, "memo with ID %q already exists")
  else mapMemoWriteError e operation.

Section prepare.
Context `{PayloadJSON} `{GoPlatform} `{FilterBackend} `{Markdown} `{Text.GoUnicode} `{Instance}.
Context (anonymous : bool).

(** [RebuildMemoPayload]: tags and properties from the content, the rest stays. *)
Definition RebuildMemoPayload (content : string) (payload : MemoPayload) : result error MemoPayload :=
  data ← wrap_err "failed to extract markdown metadata" (ExtractAll content);
  Ok (mkPayload (ex_tags data) (ex_property data) (pl_location payload)).

(** ** Attachments *)

Record preparedMemoAttachments := mkPrepared {
  pa_current : list StoredAttachment; pa_normalized : list StoredAttachment;
  pa_removed : list StoredAttachment }.
Definition no_attachments : preparedMemoAttachments := mkPrepared [] [] [].

(** The group of live photo parts an attachment belongs to. *)
Definition motion_group (a : StoredAttachment) : option string :=
  match getAttachmentMotionMedia a with
  | Some m => if String.eqb (mt_group m) "" then None else Some (mt_group m)
  | None => None
  end.
Definition in_group (g : string) (l : list StoredAttachment) : list StoredAttachment :=
  filter (λ a, motion_group a = Some g) l.

Definition isMultiMemberMotionGroup (l : list StoredAttachment) : bool :=
  (2 <=? length l)%nat && forallb (λ a, bool_decide (is_Some (motion_group a))) l.

Definition allGroupMembersRequested (group : list StoredAttachment) (names : list string) : bool :=
  negb (bool_decide (group = [])) && forallb (λ a, bool_decide (at_uid (sa_row a) ∈ names)) group.

(** The first loop of [normalizeMemoAttachmentRequest]: the attachments asked for. *)
Fixpoint requested_attachments (db : DB) (creator : Z) (current : list StoredAttachment)
    (names : list (option string)) : api (list StoredAttachment) :=
  match names with
  | [] => Ok []
  | None :: _ => Err (InvalidArgument, "attachment is required")
  | Some name :: names =>
      uid ← status_error InvalidArgument "invalid attachment name: %v" (ExtractAttachmentUIDFromName name);
      attachment ← status_error Internal "failed to get attachment: %v" (GetAttachment db uid);
      match attachment with
      | None => Err (NotFound, "attachment not found: %s")
      | Some a =>
          let alreadyInTarget := bool_decide (sa_id a ∈ sa_id <$> current) in
          if negb (at_creator (sa_row a) =? creator)%Z && negb alreadyInTarget then
            Err (NotFound, "attachment not found: %s")
          else if negb (bool_decide (at_memo (sa_row a) = None)) && negb alreadyInTarget then
            Err (FailedPrecondition, "attachment %s is already bound to another memo")
          else
            more ← requested_attachments db creator current names;
            Ok (a :: more)
      end
  end.

(** Appending attachments whose UID is not there yet. *)
Fixpoint append_new (uids : gset string) (l : list StoredAttachment) : list StoredAttachment * gset string :=
  match l with
  | [] => ([], uids)
  | a :: l =>
      if bool_decide (at_uid (sa_row a) ∈ uids) then append_new uids l
      else let '(more, uids) := append_new ({[at_uid (sa_row a)]} ∪ uids) l in (a :: more, uids)
  end.

(** The last loop: a group is taken whole, or dropped if it is in the memo now and
    not all of it was asked for. *)
Fixpoint normalize_groups (current requested : list StoredAttachment) (groups uids : gset string)
    (l : list StoredAttachment) : list StoredAttachment :=
  match l with
  | [] => []
  | a :: l =>
      match motion_group a with
      | None =>
          let '(new, uids) := append_new uids [a] in
          new ++ normalize_groups current requested groups uids l
      | Some g =>
          if bool_decide (g ∈ groups) then normalize_groups current requested groups uids l
          else
            let currentGroup := in_group g current in
            let requestedGroup := in_group g requested in
            if isMultiMemberMotionGroup currentGroup
               && negb (allGroupMembersRequested currentGroup ((λ a, at_uid (sa_row a)) <$> requestedGroup))
            then normalize_groups current requested ({[g]} ∪ groups) uids l
            else
              let '(new, uids) := append_new uids requestedGroup in
              new ++ normalize_groups current requested ({[g]} ∪ groups) uids l
      end
  end.

Definition normalizeMemoAttachmentRequest (db : DB) (creator : Z) (current : list StoredAttachment)
    (names : list (option string)) : api (list StoredAttachment) :=
  requested ← requested_attachments db creator current names;
  Ok (normalize_groups current requested ∅ ∅ requested).

(** The loop over the current attachments that were not asked for. *)
Fixpoint removed_attachments (user creator : Z) (requestedIDs : list Z) (current : list StoredAttachment)
  : api (list StoredAttachment) :=
  match current with
  | [] => Ok []
  | a :: current =>
      if bool_decide (sa_id a ∈ requestedIDs) then removed_attachments user creator requestedIDs current
      else if negb (at_creator (sa_row a) =? creator)%Z then
        Err (FailedPrecondition, "cannot remove another user's attachment from this memo")
      else if negb (at_creator (sa_row a) =? user)%Z then
        Err (PermissionDenied, "cannot remove another user's attachment")
      else
        more ← removed_attachments user creator requestedIDs current;
        Ok (a :: more)
  end.

(** [prepareMemoAttachments]; a memo to be created has no id yet. *)
Definition prepareMemoAttachments (db : DB) (user : Z) (memo : option Z) (creator : Z)
    (names : list (option string)) : api preparedMemoAttachments :=
  current ← match memo with
            | Some id => status_error Internal "failed to list attachments"
                           (ListAttachments db (find_attachments_of id))
            | None => Ok []
            end;
  normalized ← normalizeMemoAttachmentRequest db creator current names;
  removed ← removed_attachments user creator (sa_id <$> normalized) current;
  Ok (mkPrepared current normalized removed).

Definition binding_before (a b : MemoAttachmentBinding) : Prop := (mb_id a ≤ mb_id b)%Z.
#[export] Instance binding_before_dec : RelDecision binding_before.
Proof. unfold binding_before. intros ??. apply _. Defined.

(** [buildMemoAttachmentMutationBindings]: the last attachment gets the oldest time,
    and the bindings are sorted by id. *)
Definition buildMemoAttachmentMutationBindings (now : Z) (prepared : preparedMemoAttachments)
  : list MemoAttachmentBinding * list Z :=
  let bind index a :=
    mkBinding (sa_id a) (at_uid (sa_row a)) (now + Z.of_nat index)
      (bool_decide (sa_id a ∈ sa_id <$> pa_current prepared)) in
  (merge_sort binding_before (imap bind (reverse (pa_normalized prepared))), sa_id <$> pa_removed prepared).

(** [resolveMemoAttachmentReferences]. *)
Fixpoint required_ids (attachments : list StoredAttachment) (references : list string) : api (list Z) :=
  match references with
  | [] => Ok []
  | uid :: references =>
      match last (filter (λ a, at_uid (sa_row a) = uid) attachments) with
      | None => Err (FailedPrecondition, "managed image attachment %s must be bound to the memo")
      | Some a =>
          if negb (Str.has_prefix "image/" (Text.ToLower (at_type (sa_row a)))) then
            Err (InvalidArgument, "managed image attachment %s must have an image MIME type")
          else if String.eqb (at_storage_type (sa_row a)) EXTERNAL then
            Err (InvalidArgument, "external attachment %s cannot be used as a managed memo image")
          else
            more ← required_ids attachments references;
            Ok (sa_id a :: more)
      end
  end.
Definition resolveMemoAttachmentReferences (content : string) (attachments : list StoredAttachment)
  : api (list Z) :=
  references ← extractManagedAttachmentReferences content;
  required_ids attachments references.

(** [validateAttachmentMotionGroupDeletion]: the parts of a group go together. *)
Definition validateAttachmentMotionGroupDeletion (db : DB) (user : Z) (l : list StoredAttachment)
  : api unit :=
  if bool_decide (l = []) then Err (InvalidArgument, "attachments are required")
  else
    _ ← mapM (λ a, if (sa_id a <=? 0)%Z || String.eqb (at_uid (sa_row a)) "" then
                     Err (InvalidArgument, "invalid attachment")
                   else if negb (at_creator (sa_row a) =? user)%Z then
                     Err (PermissionDenied, "permission denied")
                   else Ok tt) l;
    let deleting := (λ a, at_uid (sa_row a)) <$> l in
    let groups := omap motion_group l in
    if bool_decide (groups = []) then Ok tt
    else
      candidates ← status_error Internal "failed to list motion media group: %v"
        (ListAttachments db (mkFindAttachment None (Some user) None [] None true));
      if forallb (λ c, match getAttachmentMotionMedia c with
                       | Some m => negb (bool_decide (mt_group m ∈ groups))
                                   || bool_decide (at_uid (sa_row c) ∈ deleting)
                       | None => true
                       end) candidates
      then Ok tt
      else Err (FailedPrecondition, "motion media group %s must be deleted together").

(** ** Relations *)

(** [prepareMemoRelations]: references to memos the user may read, each once; a
    memo does not refer to itself. *)
Fixpoint prepare_relations (db : DB) (userID memo : Z) (memoName : string) (seen : gset Z)
    (l : list (option RelationInput)) : api (list MemoRelation) :=
  match l with
  | [] => Ok []
  | r :: l =>
      match r with
      | Some (mkRelationInput (Some related) type) =>
          if (type =? COMMENT)%Z then Err (InvalidArgument, "COMMENT relations are output only")
          else if negb (type =? REFERENCE)%Z then Err (InvalidArgument, "relation type must be REFERENCE")
          else if String.eqb memoName related then prepare_relations db userID memo memoName seen l
          else
            uid ← status_error InvalidArgument "invalid related memo name: %v" (ExtractMemoUIDFromName related);
            found ← status_error Internal "failed to get related memo" (MemoQuery.GetMemo db (find_memo_uid uid));
            match found with
            | None => Err (NotFound, "related memo not found")
            | Some m =>
                _ ← checkMemoReadAccess db anonymous userID (st_id m, st_row m);
                if bool_decide (st_id m ∈ seen) then prepare_relations db userID memo memoName seen l
                else
                  more ← prepare_relations db userID memo memoName ({[st_id m]} ∪ seen) l;
                  Ok (mkRelation memo (st_id m) (convertMemoRelationTypeToStore type) :: more)
            end
      | _ => Err (InvalidArgument, "related memo is required")
      end
  end.
Definition prepareMemoRelations (db : DB) (userID memo : Z) (memoUID : string)
    (l : list (option RelationInput)) : api (list MemoRelation) :=
  prepare_relations db userID memo (buildMemoName memoUID) ∅ l.

(** ** Creation *)

Record preparedMemoCreate := mkPreparedCreate {
  pc_memo : Memo; pc_payload : MemoPayload; pc_attachments : preparedMemoAttachments;
  pc_required : list Z; pc_relations : list MemoRelation }.

Definition valid_time (t : option Timestamp) : Z :=
  match t with Some t => if ts_valid t then ts_unix t else 0 | None => 0 end%Z.

(** [prepareMemoCreate]. *)
Definition prepareMemoCreate (db : DB) (user : Z) (input : MemoInput) (uid : string)
  : api preparedMemoCreate :=
  visibility ← validateCreateMemoVisibility (in_visibility input);
  spaceID ← match in_space input with
            | Some name => if String.eqb name "" then Ok None
                           else (s ← resolveWritableSpaceByName db name user; Ok (Some (sp_id s)))
            | None => Ok None
            end;
  if String.eqb visibility SpaceAudience && bool_decide (spaceID = None) then
    Err (InvalidArgument, "SPACE visibility requires a space")
  else if (content_limit <? Z.of_nat (String.length (in_content input)))%Z then
    Err (InvalidArgument, "content too long (max %d characters)")
  else
    rebuilt ← status_error Internal "failed to rebuild memo payload: %v"
      (RebuildMemoPayload (in_content input) (mkPayload [] None None));
    let payload := mkPayload (pl_tags rebuilt) (pl_property rebuilt) (in_location input) in
    let memo := mkMemo uid user (valid_time (in_create_time input)) (valid_time (in_update_time input))
      "" (in_content input) visibility false (marshal_memo_payload payload) spaceID in
    attachments ← prepareMemoAttachments db user None user (in_attachments input);
    required ← resolveMemoAttachmentReferences (in_content input) (pa_normalized attachments);
    relations ← prepareMemoRelations db user 0 uid (in_relations input);
    Ok (mkPreparedCreate memo payload attachments required relations).
End prepare.
