(* ===== verification/MemoService.v ===== *)
(** * The monad of the handlers that write memos, and their helpers

    A handler runs on the database and a log of what it sends out; both keep
    their changes when it fails later.  The helpers are those of
    [memo_update_helpers.go], [memo_mention_helpers.go],
    [memo_service_webhooks.go] and [memo_attachment_service.go]
    ([createMemoWithMutation], [applyMemoMutation]) in [server/router/api/v1];
    [MemoHandlers] has the handlers. *)
From S2P Require Import Prelude GoLib GoText GoTime FilterIR FilterParser FilterRender.
From S2P Require Import Store SpaceStore MemoStore ResourceName MemoAccess AttachmentStore MemoMutation.
From S2P Require Import AuthService MemoQuery MemoConvert MemoReads MemoPrepare.

(** ** Handlers *)

(** What leaves the server: the events of [publishMemoChanged] and
    [publishSpaceChanged], a webhook of a user
    with its message, an inbox entry with its e-mail, and the removal of the files
    behind attachments. *)
Inductive Event :=
| MemoChanged
| SpaceChanged
| Webhook (activity : string) (owner : Z) (message : MemoMessage)
| CommentInbox (sender receiver memo related : Z)
| MentionInbox (sender receiver memo : Z) (related : option Z)
| StorageCleanup (removed : list (Z * Attachment)).

Record World := mkWorld { w_db : DB; w_log : list Event }.

Definition Handler (A : Type) : Type := World → api A * World.

#[export] Instance handler_ret : MRet Handler := λ A a w, (Ok a, w).
#[export] Instance handler_bind : MBind Handler := λ A B f m w,
  match m w with
  | (Ok a, w') => f a w'
  | (Err e, w') => (Err e, w')
  end.

Definition fail {A} (c : code) (message : string) : Handler A := λ w, (Err (c, message), w).
Definition guard_h (b : bool) (c : code) (message : string) : Handler unit :=
  if b then mret tt else fail c message.
(** A read of the database. *)
Definition ask {A} (f : DB → api A) : Handler A := λ w, (f (w_db w), w).
(** A step that may end the handler with a status. *)
Definition answer {A} (r : api A) : Handler A := ask (λ _, r).
(** A store method; [map] turns its error into a status. *)
Definition transact {A} (m : Tx A) (map : error → code * string) : Handler A := λ w,
  let '(r, db) := run m (w_db w) in
  (match r with Ok a => Ok a | Err e => Err (map e) end, mkWorld db (w_log w)).
Definition emit (e : Event) : Handler unit := λ w, (Ok tt, mkWorld (w_db w) (w_log w ++ [e])).
Definition emit_all (es : list Event) : Handler unit := λ w, (Ok tt, mkWorld (w_db w) (w_log w ++ es)).

Definition memoWritePolicy (actor : Z) (lifecycleOnly : bool) : MemoWritePolicy :=
  mkPolicy actor lifecycleOnly false.

Section service.
Context `{PayloadJSON} `{GoPlatform} `{FilterBackend} `{Markdown} `{Text.GoUnicode} `{Instance}.
Context (anonymous : bool) (now : Z).

(** ** Who is told *)

(** [resolveMentionTargets]: the active users a content mentions. *)
Definition resolveMentionTargets (db : DB) (content : string) : result error (gmap Z User) :=
  if String.eqb content "" then Ok ∅
  else
    data ← wrap_err "failed to extract mentions" (ExtractAll content);
    if bool_decide (ex_mentions data = []) then Ok ∅
    else Ok (filter (λ kv, us_username kv.2 ∈ ex_mentions data ∧ us_row_status kv.2 = Normal) (users db)).

(** [canUserAccessMentionContext]: the target may read the memo and its context. *)
Definition target_reads (db : DB) (target : Z * User) (memo : Z * Memo) : bool :=
  match ResolveMemoReadContext (H := db_read_store db) (Some memo) (Some target) false None with
  | Ok ctx => Allowed (CheckMemoReadContext ctx)
  | Err _ => false
  end.
Definition canUserAccessMentionMemos (db : DB) (target : Z * User) (memo : Z * Memo)
    (related : option (Z * Memo)) : bool :=
  target_reads db target memo
  && match related with Some r => target_reads db target r | None => true end.

(** [shouldSkipMentionInbox]. *)
Definition shouldSkipMentionInbox (db : DB) (target : Z * User) (memo : Z * Memo)
    (related : option (Z * Memo)) : bool :=
  (target.1 =? mm_creator memo.2)%Z
  || match related with
     | Some r => (target.1 =? mm_creator r.2)%Z && negb (mm_creator memo.2 =? mm_creator r.2)%Z
     | None => false
     end
  || negb (canUserAccessMentionMemos db target memo related).

(** [dispatchMemoMentionNotifications], whose errors are only logged; Go visits the
    targets in any order. *)
Definition mention_events (db : DB) (memo : Z * Memo) (related : option (Z * Memo))
    (previousContent : string) : list Event :=
  match resolveMentionTargets db (mm_content memo.2) with
  | Err _ => []
  | Ok current =>
      match resolveMentionTargets db previousContent with
      | Err _ => []
      | Ok previous =>
          (λ t : Z * User, MentionInbox (mm_creator memo.2) t.1 memo.1 (fst <$> related))
          <$> filter (λ t : Z * User, previous !! t.1 = None ∧ shouldSkipMentionInbox db t memo related = false)
                (map_to_list current)
      end
  end.

(** [dispatchMemoRelatedWebhook]: to the webhooks of the creator the message names;
    errors are only logged. *)
Definition webhook_events (db : DB) (message : MemoMessage) (activity : string) : list Event :=
  match parseUsernameFromName (mg_creator message) with
  | Err _ => []
  | Ok username =>
      match head (users_named username db) with
      | Some (creator, _) => [Webhook activity creator message]
      | None => []
      end
  end.

(** [DispatchMemoCommentCreatedWebhook]: to the author of the context, who must be
    able to read both memos; the message is what that author may see. *)
Definition comment_webhook (db : DB) (comment related : StoredMemo) : list Event :=
  let owner := mm_creator (st_row related) in
  match users db !! owner with
  | None => []
  | Some receiver =>
      if negb (String.eqb (us_row_status receiver) Normal) then []
      else if negb (target_reads db (owner, receiver) (st_id comment, st_row comment)
                    && target_reads db (owner, receiver) (st_id related, st_row related)) then []
      else
        match (attachments ← ListAttachments db (find_attachments_of (st_id comment));
               relations ← loadMemoRelations anonymous db owner comment;
               convertMemoFromStore anonymous db owner comment
                 (ListReactions db None (Some (st_id comment)) []) attachments relations) with
        | Ok message => [Webhook "memos.memo.comment.created" owner message]
        | Err _ => []
        end
  end.

(** ** Helpers that write *)

(** [cleanupDeletedAttachmentStorage]: every file is tried. *)
Definition cleanupDeletedAttachmentStorage (removed : list (Z * Attachment)) (message : string)
  : Handler unit :=
  _ ← emit (StorageCleanup removed);
  guard_h (forallb storage_removed removed) Internal message.

(** [createMemoWithMutation]: the id of the new memo. *)
Definition creation_mutation (prepared : preparedMemoCreate) (context : option Z) : MemoMutation :=
  let memo := pc_memo prepared in
  mkMutation (Some memo) context 0 (mm_creator memo) (mm_content memo) None
    (Some <$> (buildMemoAttachmentMutationBindings now (pc_attachments prepared)).1) []
    (pc_required prepared)
    (negb (bool_decide (pc_relations prepared = [])))
    ((λ r, Some (mkRelation 0 (rl_related r) (rl_type r))) <$> pc_relations prepared) None.

Definition createMemoWithMutation (user : Z) (prepared : preparedMemoCreate) (context : option Z)
    (operation : string) : Handler Z :=
  if negb (mm_creator (pc_memo prepared) =? user)%Z then
    λ w, (Err (mapMemoCreateError ErrMemoPermissionDenied operation), w)
  else
    transact (MemoMutation.ApplyMemoMutation now (creation_mutation prepared context))
      (λ e, mapMemoCreateError e operation).

(** The memo a creation leaves in memory: the row as inserted; [ParentUID] is a
    field only lists fill in. *)
Definition created_memo (prepared : preparedMemoCreate) (id : Z) : StoredMemo :=
  mkStored id (MemoDriver.memo_row now (pc_memo prepared)) (pc_payload prepared) None.

(** The message about a memo just created. *)
Definition created_message (db : DB) (user : Z) (memo : StoredMemo) (attachments_failed relations_failed
    convert_failed : code * string) : api MemoMessage :=
  attachments ← status_error attachments_failed.1 attachments_failed.2
    (ListAttachments db (find_attachments_of (st_id memo)));
  relations ← status_error relations_failed.1 relations_failed.2 (loadMemoRelations anonymous db user memo);
  status_error convert_failed.1 convert_failed.2
    (convertMemoFromStore anonymous db user memo [] attachments relations).

(** [buildUpdatedMemoState]: the memo, the context it is a comment on, the message. *)
Definition buildUpdatedMemoState (db : DB) (user memoID : Z)
  : result error (StoredMemo * option StoredMemo * MemoMessage) :=
  found ← wrap_err "failed to get memo" (MemoQuery.GetMemo db (find_memo_id memoID));
  match found with
  | None => Err (errorf0 "memo not found")
  | Some memo =>
      attachments ← wrap_err "failed to list attachments" (ListAttachments db (find_attachments_of (st_id memo)));
      relations ← wrap_err "failed to load memo relations" (loadMemoRelations anonymous db user memo);
      message ← wrap_err "failed to convert memo"
        (convertMemoFromStore anonymous db user memo (ListReactions db None (Some (st_id memo)) [])
           attachments relations);
      context ← match st_parent_uid memo with
                | Some uid => wrap_err "failed to get comment context" (MemoQuery.GetMemo db (find_memo_uid uid))
                | None => Ok None
                end;
      Ok (memo, context, message)
  end.

(** [dispatchMemoUpdatedSideEffects]. *)
Definition dispatchMemoUpdatedSideEffects (message : MemoMessage) : Handler unit :=
  hooks ← ask (λ db, Ok (webhook_events db message "memos.memo.updated"));
  _ ← emit_all hooks;
  emit MemoChanged.

Definition stored_pair (m : StoredMemo) : Z * Memo := (st_id m, st_row m).

(** [applyMemoMutation] on an update that is present: its policy, or that of the
    user. *)
Definition applyMemoMutation (userID : Z) (memo : StoredMemo) (prepared : preparedMemoAttachments)
    (update : UpdateMemoReq) (required : list Z) (relations : option (list MemoRelation)) : Handler unit :=
  user ← ask (λ db, current_user db userID "failed to get current user");
  _ ← guard_h (mm_creator (st_row memo) =? user.1)%Z PermissionDenied "permission denied";
  let policy := default (memoWritePolicy user.1 false) (um_policy update) in
  let update := mkUpdateMemo (um_id update) (um_uid update) (um_created_ts update) (um_updated_ts update)
    (um_row_status update) (um_content update) (um_visibility update) (um_pinned update)
    (um_payload update) (um_space update) (um_clear_space update) (Some policy) in
  _ ← (if bool_decide (pa_removed prepared = []) then mret tt
       else ask (λ db, validateAttachmentMotionGroupDeletion db user.1 (pa_removed prepared)));
  let '(bindings, removed) := buildMemoAttachmentMutationBindings now prepared in
  _ ← transact (MemoMutation.ApplyMemoMutation now
        (mkMutation None None (st_id memo) (mm_creator (st_row memo)) (mm_content (st_row memo))
           (Some update) (Some <$> bindings) removed required (bool_decide (is_Some relations))
           ((λ r, Some (mkRelation (st_id memo) (rl_related r) (rl_type r))) <$> default [] relations)
           (Some policy)))
        (λ e, mapMemoWriteError e "failed to apply memo mutation");
  cleanupDeletedAttachmentStorage ((λ a, (sa_id a, sa_row a)) <$> pa_removed prepared)
    "memo was updated but attachment storage cleanup failed: %v".

(** An update that sets nothing. *)
Definition no_update (id : Z) : UpdateMemoReq :=
  mkUpdateMemo id None None None None None None None None None false None.

Definition touch (id : Z) : UpdateMemoReq :=
  mkUpdateMemo id None None (Some now) None None None None None None false None.
End service.
