(* ===== verification/MemoHandlers.v ===== *)
(** * The handlers that write memos

    [CreateMemo], [UpdateMemo] and [DeleteMemo] of
    [server/router/api/v1/memo_service.go], [CreateMemoComment]
    ([memo_service_comments.go]), [SetMemoAttachments]
    ([memo_attachment_service.go]), [SetMemoRelations]
    ([memo_relation_service.go]), [CreateMemoShare] and [DeleteMemoShare]
    ([memo_share_service.go]), [UpsertMemoReaction] and [DeleteMemoReaction]
    ([reaction_service.go]).  Each runs as one transaction of the store between
    reads; [MemoService] holds the monad and the helpers. *)
From S2P Require Import Prelude GoLib GoText GoTime FilterIR FilterParser FilterRender.
From S2P Require Import Store SpaceStore MemoStore ResourceName MemoAccess AttachmentStore MemoMutation.
From S2P Require Import AuthService MemoQuery MemoConvert MemoReads MemoPrepare MemoService.

Definition mapReactionMutationError (e : error) (operation : string) : code * string :=
  if error_is e ErrReactionMemoNotFound then (NotFound, "memo not found")
  else if error_is e ErrReactionPermissionDenied then (PermissionDenied, "permission denied")
  else mapMemoWriteError e operation.

(** The status [DeleteMemo] makes of an error of the store. *)
Definition delete_status (e : error) : code * string :=
  if error_is e ErrMemoPermissionDenied then (PermissionDenied, "permission denied")
  else if error_is e ErrMemoMutationConflict then
    (FailedPrecondition, "memo changed or no longer exists")
  else (Internal, "failed to delete memo: %v").

(** What an [UpdateMemo] has prepared so far: the update of the row, the content
    and payload the memo will have, and what else is to change. *)
Record Draft := mkDraft {
  df_update : UpdateMemoReq; df_content : string; df_payload : MemoPayload;
  df_content_updated : bool; df_attachments_updated : bool; df_relations_updated : bool }.

Definition set_update (f : UpdateMemoReq → UpdateMemoReq) (d : Draft) : Draft :=
  mkDraft (f (df_update d)) (df_content d) (df_payload d) (df_content_updated d)
    (df_attachments_updated d) (df_relations_updated d).

(** Assignments to fields of an update. *)
Definition with_content (content payload : string) (u : UpdateMemoReq) : UpdateMemoReq :=
  mkUpdateMemo (um_id u) (um_uid u) (um_created_ts u) (um_updated_ts u) (um_row_status u) (Some content)
    (um_visibility u) (um_pinned u) (Some payload) (um_space u) (um_clear_space u) (um_policy u).
Definition with_payload (payload : string) (u : UpdateMemoReq) : UpdateMemoReq :=
  mkUpdateMemo (um_id u) (um_uid u) (um_created_ts u) (um_updated_ts u) (um_row_status u) (um_content u)
    (um_visibility u) (um_pinned u) (Some payload) (um_space u) (um_clear_space u) (um_policy u).
Definition with_pinned (pinned : bool) (u : UpdateMemoReq) : UpdateMemoReq :=
  mkUpdateMemo (um_id u) (um_uid u) (um_created_ts u) (um_updated_ts u) (um_row_status u) (um_content u)
    (um_visibility u) (Some pinned) (um_payload u) (um_space u) (um_clear_space u) (um_policy u).
Definition with_row_status (s : RowStatus) (u : UpdateMemoReq) : UpdateMemoReq :=
  mkUpdateMemo (um_id u) (um_uid u) (um_created_ts u) (um_updated_ts u) (Some s) (um_content u)
    (um_visibility u) (um_pinned u) (um_payload u) (um_space u) (um_clear_space u) (um_policy u).
Definition with_created (ts : Z) (u : UpdateMemoReq) : UpdateMemoReq :=
  mkUpdateMemo (um_id u) (um_uid u) (Some ts) (um_updated_ts u) (um_row_status u) (um_content u)
    (um_visibility u) (um_pinned u) (um_payload u) (um_space u) (um_clear_space u) (um_policy u).
Definition with_updated (ts : Z) (u : UpdateMemoReq) : UpdateMemoReq :=
  mkUpdateMemo (um_id u) (um_uid u) (um_created_ts u) (Some ts) (um_row_status u) (um_content u)
    (um_visibility u) (um_pinned u) (um_payload u) (um_space u) (um_clear_space u) (um_policy u).

Section handlers.
Context `{PayloadJSON} `{GoPlatform} `{FilterBackend} `{Markdown} `{Text.GoUnicode} `{Instance}.
(** The answer of [AllowsAnonymousAccess], the clock, and the identifier drawn. *)
Context (anonymous : bool) (now : Z) (new_uid : string).

Definition the_user (userID : Z) (failure : string) : Handler (Z * User) :=
  ask (λ db, current_user db userID failure).
Definition the_memo (lookup : code * string) (name : string) : Handler StoredMemo :=
  ask (λ db, memo_by_name db lookup name).
Definition checked_uid (provided : string) : Handler string :=
  answer (match ValidateAndGenerateUID new_uid provided with
          | Ok uid => Ok uid
          | Err e => Err (InvalidArgument, error_message e)
          end).

(** ** Creation *)

Definition CreateMemo (userID : Z) (memo_id : string) (memo : option MemoInput) : Handler MemoMessage :=
  user ← the_user userID "failed to get user";
  match memo with
  | None => fail InvalidArgument "memo is required"
  | Some input =>
      memoUID ← checked_uid memo_id;
      prepared ← ask (λ db, prepareMemoCreate anonymous db user.1 input memoUID);
      id ← createMemoWithMutation now user.1 prepared None "failed to create memo";
      let memo := created_memo now prepared id in
      memoMessage ← ask (λ db, created_message anonymous db userID memo
        (Unknown, "failed to get memo attachments") (Unknown, "failed to load memo relations")
        (Unknown, "failed to convert memo"));
      hooks ← ask (λ db, Ok (webhook_events db memoMessage "memos.memo.created"));
      _ ← emit_all hooks;
      _ ← emit MemoChanged;
      mentions ← ask (λ db, Ok (mention_events db (stored_pair memo) None ""));
      _ ← emit_all mentions;
      mret memoMessage
  end.

(** The inbox entry for the author of the context. *)
Definition comment_inbox (db : DB) (user : Z) (memo related : StoredMemo) : list Event :=
  let owner := mm_creator (st_row related) in
  match users db !! owner with
  | Some receiver =>
      if negb (user =? owner)%Z
         && canUserAccessMentionMemos db (owner, receiver) (stored_pair memo) (Some (stored_pair related))
      then [CommentInbox user owner (st_id memo) (st_id related)] else []
  | None => []
  end.

Definition CreateMemoComment (userID : Z) (name comment_id : string) (comment : option MemoInput)
  : Handler MemoMessage :=
  relatedMemo ← the_memo (Internal, "failed to get memo") name;
  user ← the_user userID "failed to get user";
  _ ← ask (λ db, checkMemoReadAccess db anonymous userID (stored_pair relatedMemo));
  _ ← guard_h (String.eqb (mm_row_status (st_row relatedMemo)) Normal) FailedPrecondition
        "cannot comment on an archived memo";
  match comment with
  | None => fail InvalidArgument "comment is required"
  | Some input =>
      memoUID ← checked_uid comment_id;
      _ ← guard_h (negb (String.eqb memoUID (mm_uid (st_row relatedMemo)))) InvalidArgument
            "a memo cannot comment on itself";
      prepared ← ask (λ db, prepareMemoCreate anonymous db user.1 input memoUID);
      id ← createMemoWithMutation now user.1 prepared (Some (st_id relatedMemo))
             "failed to create memo comment";
      let memo := created_memo now prepared id in
      memoComment ← ask (λ db, created_message anonymous db userID memo
        (Internal, "failed to load memo comment attachments") (Internal, "failed to load memo relations")
        (Internal, "failed to convert memo comment"));
      inbox ← ask (λ db, Ok (comment_inbox db user.1 memo relatedMemo));
      _ ← emit_all inbox;
      hooks ← ask (λ db, Ok (comment_webhook anonymous db memo relatedMemo));
      _ ← emit_all hooks;
      mentions ← ask (λ db, Ok (mention_events db (stored_pair memo) (Some (stored_pair relatedMemo)) ""));
      _ ← emit_all mentions;
      _ ← emit MemoChanged;
      mret memoComment
  end.

(** ** Updates *)

(** The placement and audience part of [UpdateMemo], checked before the other
    paths: the fields it sets, with the policy. *)
Record Placement := mkPlacement {
  pc_space : option Z; pc_clear : bool; pc_visibility : option Visibility; pc_policy : MemoWritePolicy }.

(** [nextSpaceID] with what the update is told: [SpaceID] or [ClearSpace]. *)
Definition plan_space (db : DB) (user : Z) (memo : Memo) (paths : list string) (input : MemoInput)
  : api (option Z * option Z * bool) :=
  if bool_decide ("space" ∈ paths) then
    let name := default "" (in_space input) in
    if String.eqb name "" then Ok (None, None, true)
    else target ← resolveWritableSpaceByName db name user;
         Ok (Some (sp_id target), Some (sp_id target), false)
  else Ok (mm_space memo, None, false).

Definition plan_placement (db : DB) (user : Z) (memo : Memo) (paths : list string) (input : MemoInput)
  : api Placement :=
  '(nextSpaceID, spaceID, clear) ← plan_space db user memo paths input;
  visibility ← (if bool_decide ("visibility" ∈ paths)
                then v ← validateUpdateMemoVisibility (in_visibility input); Ok (Some v)
                else Ok None);
  let nextVisibility := default (mm_visibility memo) visibility in
  let spaceChanged := negb (sameOptionalInt32 (mm_space memo) nextSpaceID) in
  let lifecycleOnly := bool_decide ("space" ∈ paths)
    && forallb (λ p, String.eqb p "space" || String.eqb p "visibility") paths && spaceChanged in
  if String.eqb nextVisibility SpaceAudience && bool_decide (nextSpaceID = None) then
    Err (InvalidArgument, "SPACE visibility requires a space")
  else if String.eqb (mm_visibility memo) SpaceAudience && spaceChanged
          && negb (bool_decide ("visibility" ∈ paths)) then
    Err (InvalidArgument, "moving a memo with SPACE visibility requires an explicit visibility update")
  else if String.eqb (mm_visibility memo) SpaceAudience && bool_decide (nextSpaceID = None)
          && String.eqb nextVisibility SpaceAudience then
    Err (InvalidArgument, "unassigning a memo with SPACE visibility requires a replacement visibility")
  else Ok (mkPlacement spaceID clear visibility (memoWritePolicy user lifecycleOnly)).

(** The draft the loop over the paths starts from. *)
Definition first_draft (memo : StoredMemo) (p : Placement) : Draft :=
  mkDraft (mkUpdateMemo (st_id memo) None None None None None (pc_visibility p) None None (pc_space p)
             (pc_clear p) (Some (pc_policy p)))
    (mm_content (st_row memo)) (st_payload memo) false false false.

(** One path of the update mask. *)
Definition apply_path (input : MemoInput) (d : Draft) (path : string) : api Draft :=
  if String.eqb path "visibility" || String.eqb path "space" then Ok d
  else if String.eqb path "content" then
    if (content_limit <? Z.of_nat (String.length (in_content input)))%Z then
      Err (InvalidArgument, "content too long (max %d characters)")
    else
      payload ← status_error Internal "failed to rebuild memo payload: %v"
                  (RebuildMemoPayload (in_content input) (df_payload d));
      Ok (mkDraft (with_content (in_content input) (marshal_memo_payload payload) (df_update d))
            (in_content input) payload true (df_attachments_updated d) (df_relations_updated d))
  else if String.eqb path "pinned" then Ok (set_update (with_pinned (in_pinned input)) d)
  else if String.eqb path "state" then
    Ok (set_update (with_row_status (convertStateToStore (in_state input))) d)
  else if String.eqb path "create_time" then
    match in_create_time input with
    | Some t => if ts_valid t then Ok (set_update (with_created (ts_unix t)) d)
                else Err (InvalidArgument, "create_time is invalid")
    | None => Err (InvalidArgument, "create_time is invalid")
    end
  else if String.eqb path "update_time" then
    Ok (set_update (with_updated (match in_update_time input with Some t => ts_unix t | None => now end)) d)
  else if String.eqb path "display_time" then Err (InvalidArgument, "display_time is not supported")
  else if String.eqb path "location" then
    let payload := mkPayload (pl_tags (df_payload d)) (pl_property (df_payload d)) (in_location input) in
    Ok (mkDraft (with_payload (marshal_memo_payload payload) (df_update d)) (df_content d) payload
          (df_content_updated d) (df_attachments_updated d) (df_relations_updated d))
  else if String.eqb path "attachments" then
    Ok (mkDraft (df_update d) (df_content d) (df_payload d) (df_content_updated d) true (df_relations_updated d))
  else if String.eqb path "relations" then
    Ok (mkDraft (df_update d) (df_content d) (df_payload d) (df_content_updated d) (df_attachments_updated d) true)
  else Err (InvalidArgument, "invalid update path: %s").

Fixpoint apply_paths (input : MemoInput) (d : Draft) (paths : list string) : api Draft :=
  match paths with
  | [] => Ok d
  | path :: paths => d ← apply_path input d path; apply_paths input d paths
  end.

(** The attachments the content may refer to, and the ids it does. *)
Definition required_attachments (db : DB) (memo : Z) (d : Draft)
    (preparedAttachments : option preparedMemoAttachments) : api (list Z) :=
  if df_content_updated d || df_attachments_updated d then
    finalAttachments ← match preparedAttachments with
      | Some p => Ok (pa_normalized p)
      | None => status_error Internal "failed to list attachments" (ListAttachments db (find_attachments_of memo))
      end;
    resolveMemoAttachmentReferences (df_content d) finalAttachments
  else Ok [].

(** The write of [UpdateMemo]. *)
Definition write_update (userID : Z) (memo : StoredMemo) (d : Draft)
    (preparedAttachments : option preparedMemoAttachments) (required : list Z)
    (relations : option (list MemoRelation)) : Handler unit :=
  if df_content_updated d || df_attachments_updated d || df_relations_updated d then
    applyMemoMutation now userID memo (default no_attachments preparedAttachments) (df_update d) required relations
  else
    transact (MemoStore.UpdateMemo now (df_update d)) (λ e, mapMemoWriteError e "failed to update memo").

(** What all the updating handlers do once the row is written. *)
Definition updated_state (userID memo : Z) (failed : code * string)
  : Handler (StoredMemo * option StoredMemo * MemoMessage) :=
  ask (λ db, status_error failed.1 failed.2 (buildUpdatedMemoState anonymous db userID memo)).

Definition UpdateMemo (userID : Z) (memo : option MemoInput) (update_mask : list string)
  : Handler MemoMessage :=
  match memo with
  | None => fail InvalidArgument "memo is required"
  | Some input =>
      memoUID ← answer (status_error InvalidArgument "invalid memo name: %v" (ExtractMemoUIDFromName (in_name input)));
      _ ← guard_h (negb (bool_decide (update_mask = []))) InvalidArgument "update mask is required";
      memo ← the_memo (Internal, "failed to get memo: %v") (in_name input);
      user ← the_user userID "failed to get current user";
      _ ← guard_h (mm_creator (st_row memo) =? user.1)%Z PermissionDenied "permission denied";
      placement ← ask (λ db, plan_placement db user.1 (st_row memo) update_mask input);
      d ← answer (apply_paths input (first_draft memo placement) update_mask);
      preparedAttachments ← (if df_attachments_updated d
        then p ← ask (λ db, prepareMemoAttachments db user.1 (Some (st_id memo)) (mm_creator (st_row memo))
                              (in_attachments input)); mret (Some p)
        else mret None);
      relations ← (if df_relations_updated d
        then r ← ask (λ db, prepareMemoRelations anonymous db userID (st_id memo) (mm_uid (st_row memo))
                              (in_relations input)); mret (Some r)
        else mret None);
      required ← ask (λ db, required_attachments db (st_id memo) d preparedAttachments);
      _ ← write_update userID memo d preparedAttachments required relations;
      '(updated, commentContext, memoMessage) ← updated_state userID (st_id memo)
        (Unknown, "failed to build updated memo state");
      mentions ← ask (λ db, Ok (if df_content_updated d
        then mention_events db (stored_pair updated) (stored_pair <$> commentContext) (mm_content (st_row memo))
        else []));
      _ ← emit_all mentions;
      _ ← dispatchMemoUpdatedSideEffects memoMessage;
      mret memoMessage
  end.

(** The memo of a handler that changes only what hangs on it. *)
Definition own_memo (userID : Z) (name : string) : Handler ((Z * User) * StoredMemo) :=
  user ← the_user userID "failed to get current user: %v";
  memo ← the_memo (Internal, "failed to get memo") name;
  _ ← guard_h (mm_creator (st_row memo) =? user.1)%Z PermissionDenied "permission denied";
  mret (user, memo).

Definition SetMemoAttachments (userID : Z) (name : string) (names : list (option string)) : Handler unit :=
  '(user, memo) ← own_memo userID name;
  prepared ← ask (λ db, prepareMemoAttachments db user.1 (Some (st_id memo)) (mm_creator (st_row memo)) names);
  required ← answer (resolveMemoAttachmentReferences (mm_content (st_row memo)) (pa_normalized prepared));
  _ ← applyMemoMutation now userID memo prepared (touch now (st_id memo)) required None;
  '(_, _, memoMessage) ← updated_state userID (st_id memo) (Internal, "failed to build updated memo state");
  dispatchMemoUpdatedSideEffects memoMessage.

Definition SetMemoRelations (userID : Z) (name : string) (inputs : list (option RelationInput)) : Handler unit :=
  '(user, memo) ← own_memo userID name;
  relations ← ask (λ db, prepareMemoRelations anonymous db userID (st_id memo) (mm_uid (st_row memo)) inputs);
  _ ← applyMemoMutation now userID memo no_attachments (touch now (st_id memo)) [] (Some relations);
  '(_, _, memoMessage) ← updated_state userID (st_id memo) (Internal, "failed to build updated memo state");
  dispatchMemoUpdatedSideEffects memoMessage.

(** ** Deletion *)

(** The message of the webhook, if the author can still read the memo. *)
Definition deleted_message (db : DB) (userID : Z) (memo : StoredMemo) : api (option MemoMessage) :=
  if is_ok (checkMemoReadAccess db anonymous userID (stored_pair memo)) then
    attachments ← status_error Internal "failed to list attachments"
      (ListAttachments db (find_attachments_of (st_id memo)));
    let relations := match loadMemoRelations anonymous db userID memo with Ok r => r | Err _ => [] end in
    Ok (match convertMemoFromStore anonymous db userID memo (ListReactions db None (Some (st_id memo)) [])
                attachments relations with
        | Ok m => Some m
        | Err _ => None
        end)
  else Ok None.

Definition DeleteMemo (userID : Z) (name : string) : Handler unit :=
  memo ← the_memo (Unknown, "%v") name;
  user ← the_user userID "failed to get current user";
  _ ← guard_h (mm_creator (st_row memo) =? user.1)%Z PermissionDenied "permission denied";
  deletedMemoMessage ← ask (λ db, deleted_message db userID memo);
  '(actorCanRead, removed) ← transact (MemoStore.DeleteMemoWithPolicy (st_id memo) user.1) delete_status;
  _ ← emit MemoChanged;
  hooks ← ask (λ db, Ok (match deletedMemoMessage with
                         | Some m => if (actorCanRead : bool) then webhook_events db m "memos.memo.deleted" else []
                         | None => []
                         end));
  _ ← emit_all hooks;
  cleanupDeletedAttachmentStorage removed "memo was deleted but attachment storage cleanup failed: %v".

(** ** Shares *)

Definition CreateMemoShare (userID : Z) (parent : string) (expire_time : option Timestamp)
  : Handler MemoShareMessage :=
  user ← the_user userID "failed to get user";
  memo ← the_memo (Internal, "failed to get memo") parent;
  let row := st_row memo in
  _ ← guard_h (String.eqb (mm_row_status row) Normal) FailedPrecondition "only active memos can be shared";
  _ ← guard_h (mm_creator row =? user.1)%Z PermissionDenied "permission denied";
  _ ← guard_h (negb (String.eqb (mm_visibility row) SpaceAudience)) FailedPrecondition
        "SPACE audience memos cannot be shared";
  _ ← guard_h (match expire_time with Some t => (now <? ts_unix t)%Z | None => true end) InvalidArgument
        "expire_time must be in the future";
  let ms := mkShare new_uid (st_id memo) user.1 now (ts_unix <$> expire_time) in
  _ ← transact (MemoStore.CreateMemoShare now ms (Some (mkPolicy user.1 false true)))
        (λ e, mapMemoWriteError e "failed to create memo share");
  mret (convertMemoShareFromStore ms (mm_uid row)).

Definition DeleteMemoShare (userID : Z) (name : string) : Handler unit :=
  user ← the_user userID "failed to get user";
  '(memoUID, shareToken) ← answer (status_error InvalidArgument "invalid share name: %v"
                                     (extract2 MemoNamePrefix MemoShareNamePrefix name));
  found ← ask (λ db, status_error Internal "failed to get memo" (MemoQuery.GetMemo db (find_memo_uid memoUID)));
  match found with
  | None => fail NotFound "memo not found"
  | Some memo =>
      _ ← guard_h (mm_creator (st_row memo) =? user.1)%Z PermissionDenied "permission denied";
      ms ← ask (λ db, Ok (MemoDriver.GetMemoShareByUID db shareToken));
      _ ← guard_h (match ms with Some ms => (sh_memo ms =? st_id memo)%Z | None => false end) NotFound
            "memo share not found";
      transact (MemoStore.DeleteMemoShare now None (Some shareToken) (Some (st_id memo))
                  (Some (memoWritePolicy user.1 false)))
        (λ e, mapMemoWriteError e "failed to delete memo share")
  end.

(** ** Reactions; the policy is the id of its actor *)

Definition UpsertMemoReaction (userID : Z) (name : string) (reaction : option string) : Handler ReactionMessage :=
  user ← the_user userID "failed to get current user";
  match reaction with
  | None => fail InvalidArgument "reaction is required"
  | Some type =>
      memo ← the_memo (Internal, "failed to get memo: %v") name;
      _ ← ask (λ db, checkMemoReadAccess db anonymous userID (stored_pair memo));
      id ← transact (MemoMutation.UpsertReaction now (mkReactionReq user.1 (st_id memo) type (Some user.1)))
             (λ e, mapReactionMutationError e "failed to upsert reaction");
      message ← ask (λ db,
        match convertReactionFromStore db (id, mkReaction user.1 (st_id memo) type now)
                (buildMemoName (mm_uid (st_row memo))) with
        | Ok m => Ok m
        | Err _ => Err (Internal, "failed to convert reaction")
        end);
      _ ← emit MemoChanged;
      mret message
  end.

Definition DeleteMemoReaction (userID : Z) (name : string) : Handler unit :=
  user ← the_user userID "failed to get current user: %v";
  '(memoUID, reactionID) ← answer (status_error InvalidArgument "invalid reaction name: %v"
                                     (ExtractMemoReactionIDFromName name));
  found ← ask (λ db, Ok (GetReaction db reactionID));
  match found with
  | None => fail PermissionDenied "permission denied"
  | Some (_, reaction) =>
      _ ← guard_h (re_creator reaction =? user.1)%Z PermissionDenied "permission denied";
      memo ← ask (λ db, status_error Internal "failed to get memo"
                    (MemoQuery.GetMemo db (find_memo_id (re_memo reaction))));
      _ ← guard_h (match memo with Some m => String.eqb (mm_uid (st_row m)) memoUID | None => false end)
            PermissionDenied "permission denied";
      _ ← transact (MemoMutation.DeleteReaction (mkDeleteReaction (Some reactionID) (Some (re_memo reaction))
                      (Some user.1) (Some user.1)))
            (λ e, mapReactionMutationError e "failed to delete reaction");
      emit MemoChanged
  end.
End handlers.
