(* ===== verification/PlainMemo.v ===== *)
(** Executable instances of [PayloadJSON], [FilterBackend], [Markdown], [Instance]
    and [ProtoPageToken], which show that their laws can hold: payloads are binary
    numerals of their encoding, no filter compiles, the snippet is the beginning of
    the content, a content is a mention if it begins with [@], and a page token is
    two numbers of four bytes. *)
From S2P Require Import Prelude GoLib GoText GoTime FilterIR FilterParser FilterRender Store PlainCodec.
From S2P Require Import Paging MemoQuery MemoConvert MemoPrepare.

#[local] Instance property_eq_dec : EqDecision MemoProperty.
Proof. solve_decision. Defined.
#[local] Instance property_countable : Countable MemoProperty.
Proof.
  refine (inj_countable'
    (λ p, (py_has_link p, py_has_task_list p, py_has_code p, py_has_incomplete_tasks p, py_title p))
    (λ '(a, b, c, d, e), mkProperty a b c d e) ltac:(by intros [])).
Defined.
#[local] Instance location_eq_dec : EqDecision Location.
Proof. solve_decision. Defined.
#[local] Instance location_countable : Countable Location.
Proof.
  refine (inj_countable' (λ l, (lc_placeholder l, lc_latitude l, lc_longitude l))
    (λ '(a, b, c), mkLocation a b c) ltac:(by intros [])).
Defined.
#[local] Instance payload_eq_dec : EqDecision MemoPayload.
Proof. solve_decision. Defined.
#[local] Instance payload_countable : Countable MemoPayload.
Proof.
  refine (inj_countable' (λ p, (pl_tags p, pl_property p, pl_location p))
    (λ '(a, b, c), mkPayload a b c) ltac:(by intros [])).
Defined.

Definition empty_payload : MemoPayload := mkPayload [] None None.

Definition plain_memo_payload (s : string) : option MemoPayload :=
  if String.eqb s "{}" then Some empty_payload else unbits s ≫= decode.

#[export] Instance plain_payloads : PayloadJSON.
Proof.
  refine {| unmarshal_memo_payload := plain_memo_payload;
            marshal_memo_payload p := bits (encode p);
            unmarshal_attachment_payload _ := Some (mkAttachmentPayload None None) |}.
  intros p. unfold plain_memo_payload. destruct (String.eqb_spec (bits (encode p)) "{}") as [E|_].
  - by destruct (encode p).
  - rewrite unbits_bits. cbn. by rewrite decode_encode.
Defined.

#[export] Instance plain_platform : GoPlatform := {| f64_out_of_range := λ _, 0%Z |}.

#[export] Instance plain_filters : FilterBackend := {|
  fb_now := mkTime 0 0 UTC;
  fb_cel := λ _ _, Err (errorf0 "no filters");
  fb_rows := λ _ _ _ _ _, true;
|}.

Definition plain_mentions (content : string) : list string :=
  match content with String "@" name => [name] | _ => [] end.

#[export] Instance plain_markdown : Markdown := {|
  ExtractAll := λ content, Ok (mkExtracted [] None (plain_mentions content));
  GenerateSnippet := λ content n, Ok (Str.take (Z.to_nat n) content);
  extractManagedAttachmentReferences := λ _, Ok [];
|}.

#[export] Instance plain_unicode : Text.GoUnicode :=
  {| Text.ToLower := Str.replace_bytes (λ c, String (Text.lower_byte c) "") |}.

#[export] Instance plain_instance : Instance := {| content_limit := 8192; storage_removed := λ _, true |}.

(** Four bytes of an [int32], low byte first. *)
Definition int32_bytes (z : Z) : list ascii :=
  let u := (z mod 2 ^ 32)%Z in
  Base64.byte_char <$> [u mod 256; u / 256 mod 256; u / 65536 mod 256; u / 16777216]%Z.
Definition bytes_int32 (a b c d : ascii) : Z :=
  GoInt.int32 (byte_of a + 256 * byte_of b + 65536 * byte_of c + 16777216 * byte_of d)%Z.

Definition plain_token_bytes (t : PageToken) : list ascii :=
  int32_bytes (pt_limit t) ++ int32_bytes (pt_offset t).
Definition plain_token_of (b : list ascii) : result error PageToken :=
  match b with
  | [] => Ok (mkPageToken 0 0)
  | [a; b; c; d; e; f; g; h] => Ok (mkPageToken (bytes_int32 a b c d) (bytes_int32 e f g h))
  | _ => Err (errorf0 "proto: cannot parse")
  end.

Lemma byte_of_char z : (0 ≤ z < 256)%Z → byte_of (Base64.byte_char z) = z.
Proof. intros Hz. unfold Base64.byte_char. rewrite Ascii.N_ascii_embedding by lia. lia. Qed.

Lemma bytes_int32_bytes z : GoInt.is_int32 z →
  ∃ a b c d, int32_bytes z = [a; b; c; d] ∧ bytes_int32 a b c d = z.
Proof.
  unfold GoInt.is_int32, GoInt.min_int32, GoInt.max_int32. intros Hz.
  pose proof (Z.mod_pos_bound z (2 ^ 32) ltac:(lia)) as Hu. eexists _, _, _, _. split; [reflexivity|].
  unfold bytes_int32. remember (z mod 2 ^ 32)%Z as u eqn:Eu.
  rewrite !byte_of_char by (first [apply Z.mod_pos_bound; lia | split; [apply Z.div_pos; lia | apply Z.div_lt_upper_bound; lia]]).
  assert (u mod 256 + 256 * (u / 256 mod 256) + 65536 * (u / 65536 mod 256) + 16777216 * (u / 16777216) = u)%Z as ->.
  { Z.div_mod_to_equations. lia. }
  unfold GoInt.int32, GoInt.wrap_signed. rewrite Eu, Zmod_mod. change (2 ^ (32 - 1))%Z with 2147483648%Z.
  change (2 ^ 32)%Z with 4294967296%Z in *. case_match eqn:E; [apply Z.ltb_lt in E | apply Z.ltb_ge in E];
    Z.div_mod_to_equations; lia.
Qed.

#[export] Instance plain_page_token : ProtoPageToken.
Proof.
  refine {| proto_marshal t := Ok (plain_token_bytes t); proto_unmarshal := plain_token_of |}; [|done].
  intros [l o] Hl Ho. exists (int32_bytes l ++ int32_bytes o). split; [reflexivity|].
  destruct (bytes_int32_bytes l Hl) as (a & b & c & d & -> & Hl').
  destruct (bytes_int32_bytes o Ho) as (e & f & g & h & -> & Ho'). cbn. by rewrite Hl', Ho'.
Defined.
