(* ===== verification/MemoQueryFacts.v ===== *)
(** * Facts about reading lists

    What [ListMemos] returns: the selected rows, each once, in the order asked
    for; pages are slices of that list. *)
From Stdlib Require Import Sorted.
From S2P Require Import Prelude GoLib GoTime FilterIR FilterParser FilterRender.
From S2P Require Import Store SpaceStore MemoStore MemoAccess MemoAccessFacts AttachmentStore MemoMutation.
From S2P Require Import AuthService MemoQuery MemoConvert.

(** ** Lists of results *)

Lemma mapM_Ok {E A B} (f : A → result E B) l k :
  mapM f l = Ok k ↔ Forall2 (λ x y, f x = Ok y) l k.
Proof.
  revert k. induction l as [|x l IH]; intros k; cbn.
  { cbv [mret result_ret]. split; [intros [= <-]; constructor | by intros ->%Forall2_nil_inv_l]. }
  split.
  - intros (y & Hy & (k' & Hk & Hr)%bind_Ok)%bind_Ok. injection Hr as <-. constructor; [done | by apply IH].
  - intros (y & k' & Hy & Hk & ->)%Forall2_cons_inv_l. apply IH in Hk. by rewrite Hy, Hk.
Qed.

Lemma mapM_Ok_in {E A B} (f : A → result E B) (P : A → B → Prop) l k :
  (∀ x y, x ∈ l → f x = Ok y ↔ P x y) → mapM f l = Ok k ↔ Forall2 P l k.
Proof.
  rewrite mapM_Ok. revert k. induction l as [|x l IH]; intros k Hp.
  { by split; intros ->%Forall2_nil_inv_l. }
  split; intros (y & k' & Hy & Hk & ->)%Forall2_cons_inv_l; (constructor; [apply Hp; [by left | done]|]);
    (apply IH; [intros z w Hz; apply Hp; by right | done]).
Qed.

Lemma mapM_total {E A B} (f : A → result E B) l :
  (∀ x, x ∈ l → is_ok (f x) = true) → ∃ k, mapM f l = Ok k.
Proof.
  intros Hf. assert (∃ k, Forall2 (λ x y, f x = Ok y) l k) as [k Hk]; [|exists k; by apply mapM_Ok].
  induction l as [|x l IH]; [by exists []; constructor|].
  destruct IH as [k Hk]; [intros y Hy; apply Hf; by right|].
  specialize (Hf x (list_elem_of_here _ _)). destruct (f x) as [y|] eqn:Hy; [|done].
  exists (y :: k). by constructor.
Qed.

Lemma Forall2_elem_r {A B} (P : A → B → Prop) l k y :
  Forall2 P l k → y ∈ k → ∃ x, x ∈ l ∧ P x y.
Proof.
  intros Hf Hy. apply list_elem_of_lookup in Hy as [i Hi].
  destruct (Forall2_lookup_r _ _ _ _ _ Hf Hi) as (x & Hx & Hp). exists x.
  split; [by eapply list_elem_of_lookup_2 | done].
Qed.

(** ** The order *)

Lemma key_le_total a b : length a = length b → key_le a b = true ∨ key_le b a = true.
Proof.
  revert b. induction a as [|x a IH]; intros [|y b] H; cbn in *; [by left | done..|].
  destruct (Z.ltb_spec x y), (Z.ltb_spec y x), (Z.eqb_spec x y), (Z.eqb_spec y x); cbn; try lia; auto.
Qed.

Lemma key_le_trans a b c : key_le a b = true → key_le b c = true → key_le a c = true.
Proof.
  revert b c. induction a as [|x a IH]; intros [|y b] [|z c]; cbn; try done.
  rewrite !orb_true_iff, !andb_true_iff, !Z.ltb_lt, !Z.eqb_eq.
  intros [?|[-> ?]] [?|[-> ?]]; [left; lia | by left | by left | right; split; [done | by eapply IH]].
Qed.

Lemma key_le_antisymm a b : key_le a b = true → key_le b a = true → a = b.
Proof.
  revert b. induction a as [|x a IH]; intros [|y b]; cbn; try done.
  rewrite !orb_true_iff, !andb_true_iff, !Z.ltb_lt, !Z.eqb_eq.
  intros [?|[-> ?]] [?|[? ?]]; [lia | lia | lia | f_equal; by apply IH].
Qed.

#[export] Instance memo_before_total find : Total (memo_before find).
Proof. intros a b. apply key_le_total. unfold order_key. destruct (fm_by_pinned find); done. Qed.
#[export] Instance memo_before_trans find : Transitive (memo_before find).
Proof. intros a b c. apply key_le_trans. Qed.

(** The id is the last key, so the order is strict between rows. *)
Lemma memo_before_antisymm find a b : memo_before find a b → memo_before find b a → a.1 = b.1.
Proof.
  intros H1 H2. pose proof (key_le_antisymm _ _ H1 H2) as H. unfold order_key in H.
  destruct (fm_by_pinned find); cbn in H; injection H; intros; lia.
Qed.

(** ** Selections *)

Lemma select_perm {K V} `{Countable K} (c : K → V → bool) (R : relation (K * V))
    `{!RelDecision R} (t : gmap K V) :
  select c R t ≡ₚ map_to_list (filter (λ kv, c kv.1 kv.2 = true) t).
Proof. apply merge_sort_Permutation. Qed.

Lemma select_NoDup {K V} `{Countable K} (c : K → V → bool) (R : relation (K * V))
    `{!RelDecision R} (t : gmap K V) : NoDup (select c R t).*1.
Proof. rewrite select_perm. apply NoDup_fst_map_to_list. Qed.

Lemma select_sorted {K V} `{Countable K} (c : K → V → bool) (R : relation (K * V))
    `{!RelDecision R} (t : gmap K V) : Total R → Transitive R → StronglySorted R (select c R t).
Proof. intros. apply (StronglySorted_merge_sort R). Qed.

Lemma drop_elem {A} n (l : list A) x : x ∈ drop n l → x ∈ l.
Proof. intros Hx. rewrite <- (take_drop n l). apply elem_of_app. by right. Qed.

Lemma take_elem {A} n (l : list A) x : x ∈ take n l → x ∈ l.
Proof. intros Hx. rewrite <- (take_drop n l). apply elem_of_app. by left. Qed.

Lemma limit_offset_elem {A} limit offset (l : list A) x : x ∈ limit_offset limit offset l → x ∈ l.
Proof.
  unfold limit_offset. destruct limit as [n|]; [|done].
  case_match; [apply drop_elem | by intros ?%take_elem%drop_elem].
Qed.

(** ** Stored memos *)

(** What a list tells of a row. *)
Definition stored_as `{PayloadJSON} (db : DB) (find : FindMemo) (m : StoredMemo) (row : Memo) : Prop :=
  memos db !! st_id m = Some row ∧
  st_row m = (if fm_exclude_content find then without_content row else row) ∧
  unmarshal_memo_payload (mm_payload row) = Some (st_payload m) ∧
  st_parent_uid m = parent_uid db (st_id m).

Section memos.
Context `{PayloadJSON} `{GoPlatform} `{FilterBackend}.

Lemma scan_memo_Ok db find kv m :
  memos db !! kv.1 = Some kv.2 →
  scan_memo db find kv = Ok m ↔ st_id m = kv.1 ∧ stored_as db find m kv.2.
Proof.
  intros Hkv. unfold scan_memo, stored_as. destruct (unmarshal_memo_payload (mm_payload kv.2)) as [p|] eqn:Hp.
  - split; [intros [= <-]; cbn; done|]. destruct m as [i r q u]; cbn. intros (-> & _ & -> & [= ->] & ->). done.
  - split; [done | naive_solver].
Qed.

Lemma memo_rows_elem db filtered find kv :
  kv ∈ memo_rows db filtered find → memos db !! kv.1 = Some kv.2 ∧ memo_selected db filtered find kv.1 kv.2 = true.
Proof. destruct kv. intros ?%limit_offset_elem. by apply elem_of_select in H2. Qed.

(** The memos of a list are selected rows, in the order of the rows. *)
Lemma ListMemos_Ok db find l :
  ListMemos db find = Ok l ↔
  ∃ filtered, compile_filters (fm_filters find) = Ok filtered ∧
    Forall2 (λ kv m, st_id m = kv.1 ∧ stored_as db find m kv.2) (memo_rows db filtered find) l.
Proof.
  unfold ListMemos. rewrite bind_Ok. apply exist_proper. intros filtered.
  apply and_iff_compat_l. apply mapM_Ok_in. intros kv m Hkv. apply scan_memo_Ok.
  by destruct (memo_rows_elem db filtered find kv Hkv).
Qed.

Lemma ListMemos_elem db find l m :
  ListMemos db find = Ok l → m ∈ l →
  ∃ filtered row, compile_filters (fm_filters find) = Ok filtered ∧ stored_as db find m row ∧
    memo_selected db filtered find (st_id m) row = true.
Proof.
  intros (filtered & Hf & Hl)%ListMemos_Ok Hm. destruct (Forall2_elem_r _ _ _ _ Hl Hm) as (kv & Hkv & Hid & Hs).
  exists filtered, kv.2. apply memo_rows_elem in Hkv as [_ Hsel]. by rewrite Hid.
Qed.

Lemma compile_no_filters : compile_filters [] = Ok (λ _ _ _, true).
Proof. done. Qed.

Lemma GetMemo_Ok db find m :
  fm_filters find = [] → GetMemo db find = Ok (Some m) →
  ∃ row, stored_as db find m row ∧ memo_selected db (λ _ _ _, true) find (st_id m) row = true.
Proof.
  intros Hf (l & Hl & [= Hh])%bind_Ok.
  assert (m ∈ l) as Hm by (destruct l; [done|]; injection Hh as ->; by left).
  destruct (ListMemos_elem _ _ _ _ Hl Hm) as (filtered & row & Hc & Hs & Hsel).
  rewrite Hf in Hc. injection Hc as <-. by exists row.
Qed.

Lemma memo_selected_matches db filtered find id m :
  memo_selected db filtered find id m = true →
  matches_opt (fm_id find) id = true ∧ matches_opt (fm_uid find) (mm_uid m) = true ∧
  (∀ access, fm_access find = Some access → sqliteMemoAccessPredicate access db m = true) ∧
  matches_opt (fm_creator find) (mm_creator m) = true ∧ matches_opt (fm_row_status find) (mm_row_status m) = true.
Proof.
  unfold memo_selected. rewrite !andb_true_iff. intros Hs. repeat split; try apply Hs.
  intros access Ha. rewrite Ha in Hs. apply Hs.
Qed.

(** The memo a UID or an id stands for. *)
Lemma GetMemo_uid db uid m :
  GetMemo db (find_memo_uid uid) = Ok (Some m) →
  stored_as db (find_memo_uid uid) m (st_row m) ∧ mm_uid (st_row m) = uid.
Proof.
  intros (row & Hs & Hsel)%GetMemo_Ok; [|done]. assert (st_row m = row) as -> by apply Hs. split; [done|].
  apply memo_selected_matches in Hsel as (_ & Hu & _). by apply bool_decide_eq_true in Hu.
Qed.

Lemma GetMemo_id db id m :
  GetMemo db (find_memo_id id) = Ok (Some m) →
  stored_as db (find_memo_id id) m (st_row m) ∧ st_id m = id.
Proof.
  intros (row & Hs & Hsel)%GetMemo_Ok; [|done]. assert (st_row m = row) as -> by apply Hs. split; [done|].
  apply memo_selected_matches in Hsel as (Hi & _). by apply bool_decide_eq_true in Hi.
Qed.
End memos.

(** ** Attachments and reactions *)

Lemma ListAttachments_elem `{PayloadJSON} db find l a :
  ListAttachments db find = Ok l → a ∈ l →
  attachments db !! sa_id a = Some (sa_row a) ∧ attachment_selected find (sa_id a) (sa_row a) = true.
Proof.
  intros Hl%mapM_Ok Ha. destruct (Forall2_elem_r _ _ _ _ Hl Ha) as ([i row] & Hin & Hs).
  apply limit_offset_elem, elem_of_select in Hin. unfold scan_attachment in Hs.
  destruct (unmarshal_attachment_payload _); [|done]. by injection Hs as <-.
Qed.

Lemma ListReactions_elem db id memo memo_list r :
  r ∈ ListReactions db id memo memo_list →
  reactions db !! r.1 = Some r.2 ∧ matches_opt memo (re_memo r.2) = true.
Proof. destruct r. intros [? Hs]%elem_of_select. rewrite !andb_true_iff in Hs. by destruct Hs as [[_ ?] _]. Qed.
