(* ===== verification/MemoReadsFacts.v ===== *)
(** * What reading discloses

    A message about a memo tells its reader of other memos, of the space and of
    attachments: only of what that reader may see. *)
From S2P Require Import Prelude GoLib GoText GoTime FilterIR FilterParser FilterRender.
From S2P Require Import Store SpaceStore MemoStore ResourceName MemoAccess MemoAccessFacts.
From S2P Require Import AttachmentStore MemoMutation AuthService Paging MemoQuery MemoConvert MemoReads MemoQueryFacts.

(** The API lets the user read the memo on its own. *)
Definition reads (db : DB) (anonymous : bool) (userID id : Z) (m : Memo) : Prop :=
  checkMemoReadAccess db anonymous userID (id, m) = Ok tt.

Lemma status_error_Ok {A} c msg (r : result error A) a : status_error c msg r = Ok a ↔ r = Ok a.
Proof. destruct r; cbn; naive_solver. Qed.

Lemma reads_allowed db anonymous userID id m :
  reads db anonymous userID id m ↔
  ∃ ctx, buildMemoReadContext db userID anonymous (Some (id, m)) None = Ok ctx ∧
         Allowed (CheckMemoReadContext ctx) = true.
Proof.
  unfold reads, checkMemoReadAccess, memoAccessDecisionError, Allowed.
  destruct (buildMemoReadContext _ _ _ _ _) as [ctx|]; [|naive_solver].
  split.
  - intros Hr. exists ctx. split; [done|]. apply bool_decide_eq_true. by destruct (de_denial _).
  - intros (? & [= <-] & ->%bool_decide_eq_true). done.
Qed.

Lemma scope_reads db anonymous userID scope id m :
  resolveMemoAccessScope db userID anonymous = Ok scope →
  sqliteMemoAccessPredicate scope db m = true ↔ reads db anonymous userID id m.
Proof.
  intros Hs. pose proof (predicate_agrees_with_decision db userID anonymous id m) as Hp. rewrite Hs in Hp.
  rewrite reads_allowed. destruct (buildMemoReadContext _ _ _ _ _) as [ctx|]; [|done].
  rewrite Hp. naive_solver.
Qed.

Section disclosure.
Context `{PayloadJSON} `{GoPlatform} `{FilterBackend} `{Markdown} (anonymous : bool) (db : DB) (userID : Z).

(** ** Relations *)

(** One end of a relation as a message shows it. *)
Definition known_end (e : MemoRelationMemo) (i : Z) : Prop :=
  ∃ row, memos db !! i = Some row ∧ reads db anonymous userID i row ∧
    rm_name e = buildMemoName (mm_uid row) ∧
    (rm_snippet e = "" ∨ GenerateSnippet (mm_content row) 64 = Ok (rm_snippet e)).

Definition relation_disclosed (id : Z) (g : MemoRelationMessage) : Prop :=
  ∃ a b t, (a, b, t) ∈ relations db ∧ (id = a ∨ id = b) ∧
    known_end (rg_memo g) a ∧ known_end (rg_related g) b ∧
    rg_type g = convertMemoRelationTypeFromStore t.

Lemma merge_relations_elem seen l r : r ∈ merge_relations seen l → r ∈ l.
Proof.
  revert seen. induction l as [|x l IH]; intros seen; cbn; [done|]. case_bool_decide.
  - intros ?. right. by eapply IH.
  - intros [->|?]%elem_of_cons; [by left | right; by eapply IH].
Qed.

Lemma ListMemoRelations_elem sources targets r : r ∈ MemoQuery.ListMemoRelations db sources targets → r ∈ relations db.
Proof.
  unfold MemoQuery.ListMemoRelations. rewrite merge_sort_Permutation, elem_of_elements. by intros [_ ?]%elem_of_filter.
Qed.

Lemma append_at_elem {A} k (a : A) m i g :
  g ∈ default [] (append_at k a m !! i) → g ∈ default [] (m !! i) ∨ i = k ∧ g = a.
Proof.
  unfold append_at. destruct (decide (i = k)) as [->|]; [|rewrite lookup_insert_ne by done; by left].
  rewrite lookup_insert_eq. cbn. rewrite elem_of_app, list_elem_of_singleton. tauto.
Qed.

Lemma fold_add_relation (P : Z → MemoRelationMessage → Prop) ids uids snips rels : ∀ acc,
  (∀ i g, g ∈ default [] (acc !! i) → P i g) →
  (∀ r g, r ∈ rels → relation_message uids snips r = Some g → P r.1.1 g ∧ P r.1.2 g) →
  ∀ i g, g ∈ default [] (fold_left (add_relation ids uids snips) rels acc !! i) → P i g.
Proof.
  induction rels as [|r rels IH]; intros acc Hacc Hr; [done|]. cbn. apply IH; [|intros; apply Hr; [by right | done]].
  intros i g. unfold add_relation. destruct (relation_message uids snips r) as [g'|] eqn:Hg; [|apply Hacc].
  destruct (Hr r g' (list_elem_of_here _ _) Hg) as [Hg1 Hg2].
  repeat case_bool_decide; intros Hin; repeat (apply append_at_elem in Hin as [Hin|[-> ->]]; [|done]); by apply Hacc.
Qed.

Lemma snippets_lookup include msg (l : list StoredMemo) snips i s :
  snippets include msg l = Ok snips → snips !! i = Some s →
  ∃ m, m ∈ l ∧ st_id m = i ∧ GenerateSnippet (mm_content (st_row m)) 64 = Ok s.
Proof.
  unfold snippets. destruct include; [|intros [= <-]; by rewrite lookup_empty].
  intros (k & Hk & [= <-])%bind_Ok Hs%elem_of_list_to_map_2. apply mapM_Ok in Hk.
  destruct (Forall2_elem_r _ _ _ _ Hk Hs) as (m & Hm & (s' & Hw%wrap_err_Ok%wrap_err_Ok & [= <- <-])%bind_Ok).
  by exists m.
Qed.

Lemma uids_of_lookup l i u : uids_of l !! i = Some u → ∃ m, m ∈ l ∧ st_id m = i ∧ mm_uid (st_row m) = u.
Proof.
  intros Hu%elem_of_list_to_map_2. apply list_elem_of_fmap in Hu as (m & [= -> ->] & Hm). by exists m.
Qed.

(** The memos whose messages are built: rows the reader may read. *)
Definition readable_row (m : StoredMemo) : Prop :=
  memos db !! st_id m = Some (st_row m) ∧ reads db anonymous userID (st_id m) (st_row m).

Lemma message_known uids snips r g :
  (∀ i u, uids !! i = Some u → ∃ row, memos db !! i = Some row ∧ mm_uid row = u ∧ reads db anonymous userID i row) →
  (∀ i s, snips !! i = Some s → ∃ row, memos db !! i = Some row ∧ GenerateSnippet (mm_content row) 64 = Ok s) →
  relation_message uids snips r = Some g →
  known_end (rg_memo g) r.1.1 ∧ known_end (rg_related g) r.1.2 ∧ rg_type g = convertMemoRelationTypeFromStore r.2.
Proof.
  intros Hu Hs. unfold relation_message. intros (u1 & Hu1 & (u2 & Hu2 & [= <-])%bind_Some)%bind_Some. cbn.
  assert (∀ i u, uids !! i = Some u → known_end (mkRelationMemo (MemoNamePrefix +:+ u) (default "" (snips !! i))) i) as Hk.
  { intros i u (row & Hrow & <- & Hr)%Hu. exists row. split; [done|]. split; [done|]. split; [done|].
    cbn. destruct (snips !! i) as [sn|] eqn:Hsn; [|by left]. right. apply Hs in Hsn as (row' & Hrow' & Hg).
    rewrite Hrow in Hrow'. by injection Hrow' as <-. }
  auto.
Qed.

Lemma batch_disclosed memos0 include result :
  Forall readable_row memos0 →
  batchConvertMemoRelations anonymous db userID memos0 include = Ok result →
  ∀ i g, g ∈ default [] (result !! i) → relation_disclosed i g.
Proof.
  intros Hm. unfold batchConvertMemoRelations. case_bool_decide.
  { intros [= <-] i g Hg. rewrite lookup_empty in Hg. by apply elem_of_nil in Hg. }
  intros (scope & Hscope & (snips & Hsnips & (extra & Hextra & (extraSnips & Hes & [= <-])%bind_Ok)%bind_Ok)%bind_Ok)%bind_Ok.
  assert (∀ m, m ∈ extra → ∃ row, memos db !! st_id m = Some row ∧ mm_uid (st_row m) = mm_uid row ∧
    (include = true → st_row m = row) ∧ reads db anonymous userID (st_id m) row) as Hx.
  { intros m Hin. case_bool_decide; [injection Hextra as <-; by apply elem_of_nil in Hin|].
    apply wrap_err_Ok in Hextra. destruct (ListMemos_elem _ _ _ _ Hextra Hin) as (filtered & row & _ & (Hrow & Hst & _) & Hsel).
    exists row. cbn in Hst. split; [done|]. split; [rewrite Hst; by destruct include|].
    split; [intros ->; by rewrite Hst|]. apply memo_selected_matches in Hsel as (_ & _ & Ha & _).
    by apply (scope_reads db anonymous userID scope), Ha. }
  assert (∀ m, m ∈ memos0 → readable_row m) as Hm' by (by apply Forall_forall).
  apply fold_add_relation; [intros i g Hg; rewrite lookup_empty in Hg; by apply elem_of_nil in Hg|].
  intros r g Hr Hg. apply merge_relations_elem in Hr.
  assert (r ∈ relations db) as Hin.
  { cbn in Hr. rewrite app_nil_r in Hr. apply elem_of_app in Hr as [Hr|Hr]; by eapply ListMemoRelations_elem. }
  apply message_known in Hg as (Hk1 & Hk2 & Hk3).
  - destruct r as [[a b] t]. split; exists a, b, t; auto.
  - intros i u [Hu|[_ Hu]]%lookup_union_Some_raw; apply uids_of_lookup in Hu as (m & Hin' & <- & <-).
    + destruct (Hx m Hin') as (row & ? & -> & _ & ?). by exists row.
    + destruct (Hm' m Hin'). by exists (st_row m).
  - assert (∀ i s, extraSnips !! i = Some s → include = true) as Hincl.
    { intros i s Hl. destruct include; [done|]. injection Hes as <-. by rewrite lookup_empty in Hl. }
    intros i s [Hu|[_ Hu]]%lookup_union_Some_raw.
    + pose proof (Hincl _ _ Hu) as ->. destruct (snippets_lookup _ _ _ _ _ _ Hes Hu) as (m & Hin' & <- & Hg').
      destruct (Hx m Hin') as (row & ? & _ & Hrow & _). exists row. by rewrite (Hrow eq_refl) in Hg'.
    + destruct (snippets_lookup _ _ _ _ _ _ Hsnips Hu) as (m & Hin' & <- & Hg').
      destruct (Hm' m Hin'). by exists (st_row m).
Qed.

(** ** The space and the parent *)

Lemma space_disclosed id row ctx s :
  buildMemoReadContext db userID anonymous (Some (id, row)) None = Ok ctx →
  projectMemoCollaborationContext db row ctx = Ok (Some s) →
  ∃ sid space, mm_space row = Some sid ∧ spaces db !! sid = Some space ∧ s = SpaceNamePrefix +:+ sr_uid space ∧
    active_user db userID ∧ (userID = mm_creator row ∨ MemoDriver.spaceMemberActive db sid userID = true).
Proof.
  unfold buildMemoReadContext. intros Hctx.
  destruct (fetchCurrentUser_cases db userID) as [[e Hf]|[Hf|(user & Hf & Hrow & Hst)]]; rewrite Hf in Hctx;
    [done | rewrite resolve_context in Hctx; injection Hctx as <-..]; unfold projectMemoCollaborationContext;
    (destruct (mm_space row) as [sid|] eqn:Hs; [|done]); cbn [rc_space_valid rc_viewer rc_viewer_space_member].
  { destruct (placement_valid db row), (String.eqb (mm_visibility row) SpaceAudience); done. }
  destruct (placement_valid db row); cbn [negb]; [|by destruct (String.eqb _ _)].
  case_match eqn:Hm; [done|]. rewrite GetSpace_id. cbn [mbind result_bind].
  destruct (spaces db !! sid) as [space|] eqn:Hsp; cbn; [|by destruct (String.eqb _ _)]. intros [= <-].
  exists sid, space. split; [done|]. split; [done|]. split; [done|].
  split; [unfold active_user, user_status; rewrite Hrow; cbn; by rewrite Hst|].
  apply andb_false_iff in Hm as [Hm%negb_false_iff|Hm%negb_false_iff]; [left; by apply Z.eqb_eq | right].
  unfold viewer_member in Hm. rewrite Hs, !andb_true_iff in Hm. apply Hm.
Qed.

Lemma parent_disclosed m p :
  project_parent anonymous db userID m = Ok (Some p) →
  ∃ uid pid row, st_parent_uid m = Some uid ∧ memos db !! pid = Some row ∧ mm_uid row = uid ∧
    p = buildMemoName uid ∧ reads db anonymous userID pid row.
Proof.
  unfold project_parent. destruct (st_parent_uid m) as [uid|]; [|done].
  intros (c & Hc%wrap_err_Ok & [= Hp])%bind_Ok. destruct c as [c|]; [|done].
  destruct (GetMemo_uid _ _ _ Hc) as ((Hrow & _) & Huid).
  destruct (checkMemoReadAccess _ _ _ _) as [[]|] eqn:Hr; [|done]. injection Hp as <-.
  exists uid, (st_id c), (st_row c). by rewrite Huid.
Qed.
(** ** Messages *)

(** What a message about the memo [id] says of anything else. *)
Record discloses_only (id : Z) (row : Memo) (msg : MemoMessage) : Prop := {
  di_name : mg_name msg = buildMemoName (mm_uid row);
  di_content : mg_content msg = mm_content row;
  (** the context of a comment, if it may be read as well *)
  di_parent p : mg_parent msg = Some p →
    ∃ uid pid prow, parent_uid db id = Some uid ∧ memos db !! pid = Some prow ∧ mm_uid prow = uid ∧
      p = buildMemoName uid ∧ reads db anonymous userID pid prow;
  (** the space, to its members and the author *)
  di_space s : mg_space msg = Some s →
    ∃ sid space, mm_space row = Some sid ∧ spaces db !! sid = Some space ∧
      s = SpaceNamePrefix +:+ sr_uid space ∧ active_user db userID ∧
      (userID = mm_creator row ∨ MemoDriver.spaceMemberActive db sid userID = true);
  di_relations g : g ∈ mg_relations msg → relation_disclosed id g;
  di_attachments a : a ∈ mg_attachments msg →
    ∃ aid arow, attachments db !! aid = Some arow ∧ at_memo arow = Some id ∧
      am_name a = AttachmentNamePrefix +:+ at_uid arow ∧
      (am_external_link a = "" ∨ at_storage_type arow = EXTERNAL);
  di_reactions r : r ∈ mg_reactions msg →
    ∃ rid rrow, reactions db !! rid = Some rrow ∧ re_memo rrow = id ∧ rx_type r = re_type rrow }.

(** The message is about a memo its reader may read, and tells only that. *)
Definition disclosed (msg : MemoMessage) : Prop :=
  ∃ id row, memos db !! id = Some row ∧ reads db anonymous userID id row ∧ discloses_only id row msg.

Lemma convert_attachment a :
  am_name (convertAttachmentFromStore a) = AttachmentNamePrefix +:+ at_uid (sa_row a) ∧
  (am_external_link (convertAttachmentFromStore a) = "" ∨ at_storage_type (sa_row a) = EXTERNAL).
Proof. cbn. destruct (String.eqb_spec (at_storage_type (sa_row a)) EXTERNAL); auto. Qed.

Lemma convert_reactions rs creators name r :
  r ∈ convertReactionsFromStoreWithCreators db rs creators name →
  ∃ x, x ∈ rs ∧ rx_type r = re_type x.2.
Proof.
  unfold convertReactionsFromStoreWithCreators. intros (x & Hx & Hr)%list_elem_of_omap. exists x. split; [done|].
  unfold convertReactionFromStoreWithCreators in Hr. destruct (_ !! re_creator x.2); [|done]. by injection Hr as <-.
Qed.

Lemma convert_row_disclosed m rs ats rels creators msg :
  memos db !! st_id m = Some (st_row m) →
  (∀ uid, st_parent_uid m = Some uid → parent_uid db (st_id m) = Some uid) →
  reads db anonymous userID (st_id m) (st_row m) →
  (∀ r, r ∈ rs → reactions db !! r.1 = Some r.2 ∧ re_memo r.2 = st_id m) →
  (∀ a, a ∈ ats → attachments db !! sa_id a = Some (sa_row a) ∧ at_memo (sa_row a) = Some (st_id m)) →
  (∀ g, g ∈ rels → relation_disclosed (st_id m) g) →
  convertMemoFromStoreWithCreators anonymous db userID m rs ats rels creators = Ok msg →
  disclosed msg.
Proof.
  intros Hrow Hparent Hread Hrs Hats Hrels. unfold convertMemoFromStoreWithCreators.
  destruct (creators !! _) as [creator|]; [|done].
  intros (space & Hsp & (parent & Hp & (snippet & _ & [= <-])%bind_Ok)%bind_Ok)%bind_Ok.
  exists (st_id m), (st_row m). split; [done|]. split; [done|]. split; cbn; try done.
  - intros p ->. destruct (parent_disclosed _ _ Hp) as (uid & pid & prow & Hu & Hm & ? & ? & ?).
    exists uid, pid, prow. split; [by apply Hparent | done].
  - intros s ->. destruct (mm_space (st_row m)) as [sid|] eqn:Hs; [|done].
    apply bind_Ok in Hsp as (ctx & Hctx%wrap_err_Ok & Hproj%wrap_err_Ok).
    rewrite <- Hs. by eapply space_disclosed.
  - intros a (x & -> & Hx)%list_elem_of_fmap. destruct (Hats x Hx). exists (sa_id x), (sa_row x).
    split; [done|]. split; [done|]. apply convert_attachment.
  - intros r (x & Hx & Ht)%convert_reactions. destruct (Hrs x Hx). by exists x.1, x.2.
Qed.

Lemma convert_disclosed m rs ats rels creators msg :
  stored_as db (find_memo_id 0) m (st_row m) → reads db anonymous userID (st_id m) (st_row m) →
  (∀ r, r ∈ rs → reactions db !! r.1 = Some r.2 ∧ re_memo r.2 = st_id m) →
  (∀ a, a ∈ ats → attachments db !! sa_id a = Some (sa_row a) ∧ at_memo (sa_row a) = Some (st_id m)) →
  (∀ g, g ∈ rels → relation_disclosed (st_id m) g) →
  convertMemoFromStoreWithCreators anonymous db userID m rs ats rels creators = Ok msg →
  disclosed msg.
Proof. intros (Hrow & _ & _ & Hp). apply convert_row_disclosed; [done | congruence]. Qed.
End disclosure.
