(* ===== verification/MemoReadsSafety.v ===== *)
(** * Reading discloses only what its reader may see *)
From S2P Require Import Prelude GoLib GoText GoTime FilterIR FilterParser FilterRender.
From S2P Require Import Store SpaceStore MemoStore ResourceName MemoAccess MemoAccessFacts FilterAccess.
From S2P Require Import AttachmentStore MemoMutation AuthService Paging MemoQuery MemoConvert MemoReads.
From S2P Require Import SpaceSafety PlainMemo MemoQueryFacts MemoReadsFacts.

Section handlers.
Context `{PayloadJSON} `{GoPlatform} `{FilterBackend} `{Markdown} `{ProtoPageToken} `{Text.GoUnicode}.
Context (anonymous : bool) (db : DB) (userID : Z).

Lemma memo_by_name_Ok lookup name m :
  memo_by_name db lookup name = Ok m →
  stored_as db (find_memo_uid (mm_uid (st_row m))) m (st_row m) ∧ name = buildMemoName (mm_uid (st_row m)).
Proof.
  unfold memo_by_name. intros (uid & Hu%status_error_Ok & (o & Ho%status_error_Ok & Hm)%bind_Ok)%bind_Ok.
  destruct o as [m'|]; [|done]. injection Hm as ->. destruct (GetMemo_uid _ _ _ Ho) as [Hs <-].
  split; [done|]. apply extract1_Ok in Hu as [-> _]; [done|]. by exists "memos".
Qed.

Lemma readable_memo_Ok lookup name m :
  readable_memo anonymous db userID lookup name = Ok m →
  stored_as db (find_memo_uid (mm_uid (st_row m))) m (st_row m) ∧ name = buildMemoName (mm_uid (st_row m)) ∧
  reads db anonymous userID (st_id m) (st_row m).
Proof.
  unfold readable_memo. intros (m' & Hm & ([] & Hr & [= ->])%bind_Ok)%bind_Ok.
  by destruct (memo_by_name_Ok _ _ _ Hm).
Qed.

Lemma loaded_relations m rels :
  readable_row anonymous db userID m → loadMemoRelations anonymous db userID m = Ok rels →
  ∀ g, g ∈ rels → relation_disclosed anonymous db userID (st_id m) g.
Proof.
  intros Hm (map & Hmap & [= <-])%bind_Ok g. eapply batch_disclosed; [|exact Hmap]. by constructor.
Qed.

Lemma reactions_of id r : r ∈ ListReactions db None (Some id) [] → reactions db !! r.1 = Some r.2 ∧ re_memo r.2 = id.
Proof. intros [? Hm]%ListReactions_elem. split; [done|]. by apply bool_decide_eq_true in Hm. Qed.

Lemma attachments_of id l a :
  ListAttachments db (find_attachments_of id) = Ok l → a ∈ l →
  attachments db !! sa_id a = Some (sa_row a) ∧ at_memo (sa_row a) = Some id.
Proof.
  intros Hl Ha. destruct (ListAttachments_elem _ _ _ _ Hl Ha) as [? Hs]. split; [done|].
  unfold attachment_selected in Hs. rewrite !andb_true_iff in Hs. cbn in Hs.
  by destruct Hs as [[_ Hs%bool_decide_eq_true] _].
Qed.

Lemma GetMemo_disclosed name msg :
  GetMemo anonymous db userID name = Ok msg → disclosed anonymous db userID msg ∧ mg_name msg = name.
Proof.
  unfold GetMemo. intros (m & (Hs & Hn & Hr)%readable_memo_Ok & (ats & Hats%status_error_Ok &
    (rels & Hrels%status_error_Ok & Hc)%bind_Ok)%bind_Ok)%bind_Ok.
  unfold convert_status in Hc. destruct (convertMemoFromStore _ _ _ _ _ _ _) as [msg'|e] eqn:Hm; [|by case_match].
  injection Hc as ->. assert (readable_row anonymous db userID m) as Hrow by (split; [apply Hs | done]).
  split.
  - eapply convert_disclosed; [exact Hs | exact Hr | apply reactions_of |
      exact (λ a, attachments_of _ _ a Hats) | exact (loaded_relations _ _ Hrow Hrels) | exact Hm].
  - rewrite Hn. unfold convertMemoFromStore, convertMemoFromStoreWithCreators in Hm.
    destruct (_ !! mm_creator (st_row m)); [|done]. apply bind_Ok in Hm as (? & _ & Hm).
    apply bind_Ok in Hm as (? & _ & Hm). apply bind_Ok in Hm as (? & _ & Hm). by injection Hm as <-.
Qed.

(** ** Lists *)

Lemma cut_page_elem {A} limit offset (rows page : list A) token x :
  cut_page limit offset rows = Ok (page, token) → x ∈ page → x ∈ rows.
Proof.
  unfold cut_page. case_match; [|by intros [= -> _]].
  intros (t & _ & [= <- <-])%bind_Ok. apply take_elem.
Qed.

Lemma memo_page_elem find scope size tok failure page next m :
  fm_access find = Some scope → fm_exclude_content find = false →
  resolveMemoAccessScope db userID anonymous = Ok scope →
  memo_page db find size tok failure = Ok (page, next) → m ∈ page →
  stored_as db find m (st_row m) ∧ reads db anonymous userID (st_id m) (st_row m).
Proof.
  intros Ha Hx Hscope Hp Hm. unfold memo_page in Hp. apply bind_Ok in Hp as ([limit offset] & _ & Hp).
  apply bind_Ok in Hp as (rows & Hrows%status_error_Ok & Hp).
  pose proof (cut_page_elem _ _ _ _ _ _ Hp Hm) as Hin.
  destruct (ListMemos_elem _ _ _ _ Hrows Hin) as (filtered & row & _ & Hs & Hsel).
  assert (st_row m = row) as Heq by (destruct Hs as (_ & Hs & _); cbn in Hs; by rewrite Hx in Hs).
  rewrite Heq. split; [exact Hs|]. apply memo_selected_matches in Hsel as (_ & _ & Hacc & _).
  apply (scope_reads db anonymous userID scope); [done|]. by apply Hacc.
Qed.

Lemma convert_memos_disclosed rs ats relationMap creators memos0 msgs :
  (∀ r, r ∈ rs → reactions db !! r.1 = Some r.2) →
  (∀ a, a ∈ ats → attachments db !! sa_id a = Some (sa_row a)) →
  (∀ i g, g ∈ default [] (relationMap !! i) → relation_disclosed anonymous db userID i g) →
  (∀ m, m ∈ memos0 → stored_as db (find_memo_id 0) m (st_row m) ∧ reads db anonymous userID (st_id m) (st_row m)) →
  convert_memos anonymous db userID rs ats relationMap creators memos0 = Ok msgs →
  Forall (disclosed anonymous db userID) msgs.
Proof.
  intros Hrs Hats Hrels. revert msgs. induction memos0 as [|m memos0 IH]; intros msgs Hm Hc; cbn in Hc.
  { injection Hc as <-. constructor. }
  assert (∀ m, m ∈ memos0 → stored_as db (find_memo_id 0) m (st_row m) ∧ reads db anonymous userID (st_id m) (st_row m))
    as Hm' by (intros; apply Hm; by right).
  destruct (Hm m (list_elem_of_here _ _)) as [Hs Hr].
  destruct (convertMemoFromStoreWithCreators _ _ _ _ _ _ _ _) as [msg|e] eqn:Hmsg.
  - apply bind_Ok in Hc as (more & Hmore & [= <-]). constructor; [|by eapply IH].
    eapply convert_disclosed; [exact Hs | exact Hr | | | apply Hrels | exact Hmsg].
    + intros r [? ?]%list_elem_of_filter. auto.
    + intros a [? ?]%list_elem_of_filter. auto.
  - destruct (creator_missing e); [by eapply IH | done].
Qed.

Lemma memo_messages_disclosed memos0 msgs :
  (∀ m, m ∈ memos0 → stored_as db (find_memo_id 0) m (st_row m) ∧ reads db anonymous userID (st_id m) (st_row m)) →
  memo_messages anonymous db userID memos0 = Ok msgs → Forall (disclosed anonymous db userID) msgs.
Proof.
  intros Hm. unfold memo_messages. case_bool_decide; [intros [= <-]; constructor|].
  intros (ats & Hats%status_error_Ok & (relationMap & Hrel%status_error_Ok & Hc)%bind_Ok)%bind_Ok.
  eapply convert_memos_disclosed; [| | | exact Hm | exact Hc].
  - by intros r [? _]%ListReactions_elem.
  - intros a Ha. by destruct (ListAttachments_elem _ _ _ _ Hats Ha).
  - intros i g. eapply batch_disclosed; [|exact Hrel]. apply Forall_forall. intros m Hin.
    destruct (Hm m Hin) as [Hs ?]. split; [apply Hs | done].
Qed.

Lemma list_memos_find_scope q find :
  list_memos_find anonymous db userID q = Ok (Some find) →
  ∃ scope, resolveMemoAccessScope db userID anonymous = Ok scope ∧ fm_access find = Some scope ∧
    fm_exclude_content find = false.
Proof.
  unfold list_memos_find. intros (cu & _ & (scope & Hscope%status_error_Ok & Hf)%bind_Ok)%bind_Ok.
  case_match; [done|]. case_match; [done|]. apply bind_Ok in Hf as (order & _ & Hf).
  apply bind_Ok in Hf as (? & _ & Hf). injection Hf as <-. by exists scope.
Qed.

End handlers.

(** Ada's PRIVATE memo, referenced by a PUBLIC memo of hers on which Bob has
    commented: Bob reads his comment with its parent, and the public memo without
    its reference. *)
Definition conversation_db : DB :=
  mkDB {[ 1%Z := example_user "ada"; 2%Z := example_user "bob" ]} ∅ ∅
    {[ 1%Z := mkMemo "a" 1 10 10 Normal "private" Private false "{}" None;
       2%Z := mkMemo "b" 1 20 20 Normal "public" Public false "{}" None;
       3%Z := mkMemo "c" 2 30 30 Normal "comment" Public false "{}" None ]}
    ∅ ∅ ∅ {[ (2, 1, MemoRelationReference)%Z; (3, 2, MemoRelationComment)%Z ]}
    ∅ ∅ ∅ 3 1 4 1 1 1.

