(* ===== verification/HandlerFacts.v ===== *)
(** * Reasoning about handlers

    [after m I K w]: the handler [m], run in the world [w], leaves a world of [I]
    when it fails and a result and world of [K] otherwise - a Hoare triple with a
    postcondition for errors - and what the writes of the handlers leave. *)
From S2P Require Import Prelude GoLib GoText GoTime FilterIR FilterParser FilterRender.
From S2P Require Import Store SpaceStore SpaceStoreFacts MemoStore MemoStoreFacts ResourceName MemoAccess MemoAccessFacts.
From S2P Require Import AttachmentStore MemoMutation MutationFacts AuthService MemoQuery MemoConvert MemoReads MemoPrepare.
From S2P Require Import MemoService MemoHandlers MemoQueryFacts MemoReadsFacts MemoReadsSafety.

(** ** The rules *)

Definition after {A} (m : Handler A) (I : World → Prop) (K : A → World → Prop) (w : World) : Prop :=
  match m w with (Ok a, w') => K a w' | (Err _, w') => I w' end.

Section rules.
Context (I : World → Prop).

Lemma after_bind {A B} (m : Handler A) (f : A → Handler B) K w :
  after m I (λ a w', after (f a) I K w') w → after (m ≫= f) I K w.
Proof. unfold after, mbind, handler_bind. by destruct (m w) as [[] ?]. Qed.

Lemma after_ret {A} (a : A) (K : A → World → Prop) w : K a w → after (mret a) I K w.
Proof. done. Qed.

Lemma after_fail {A} c msg (K : A → World → Prop) w : I w → after (fail c msg) I K w.
Proof. done. Qed.

Lemma after_ask {A} (f : DB → api A) (K : A → World → Prop) w :
  I w → (∀ a, f (w_db w) = Ok a → K a w) → after (ask f) I K w.
Proof. unfold after, ask. intros ? HK. destruct (f (w_db w)); auto. Qed.

Lemma after_answer {A} (r : api A) (K : A → World → Prop) w :
  I w → (∀ a, r = Ok a → K a w) → after (answer r) I K w.
Proof. intros ? HK. by apply after_ask. Qed.

Lemma after_guard b c msg (K : unit → World → Prop) w :
  I w → (b = true → K tt w) → after (guard_h b c msg) I K w.
Proof. destruct b; cbn; auto. Qed.

Lemma after_emit_all es (K : unit → World → Prop) w :
  K tt (mkWorld (w_db w) (w_log w ++ es)) → after (emit_all es) I K w.
Proof. done. Qed.

Lemma after_emit e (K : unit → World → Prop) w :
  K tt (mkWorld (w_db w) (w_log w ++ [e])) → after (emit e) I K w.
Proof. done. Qed.

Lemma after_transact {A} (m : Tx A) map (K : A → World → Prop) w :
  I w → (∀ a db, m (w_db w) = Ok (a, db) → K a (mkWorld db (w_log w))) → after (transact m map) I K w.
Proof.
  unfold after, transact, run. intros HI HK. destruct (m (w_db w)) as [[a db]|e]; [by apply HK|]. by destruct w.
Qed.

Lemma after_mono {A} (m : Handler A) (K K' : A → World → Prop) w :
  after m I K w → (∀ a w', K a w' → K' a w') → after m I K' w.
Proof. unfold after. destruct (m w) as [[] ?]; auto. Qed.

(** Running a handler whose failures and results satisfy the same. *)
Lemma after_run {A} (m : Handler A) w : after m I (λ _, I) w → I (m w).2.
Proof. unfold after. by destruct (m w) as [[] ?]. Qed.
End rules.

(** One step of a handler, failures first. *)
Ltac handler_step :=
  cbv beta;
  lazymatch goal with
  | |- after (_ ≫= _) _ _ _ => apply after_bind
  | |- after (mret _) _ _ _ => apply after_ret
  | |- after (fail _ _) _ _ _ => apply after_fail
  | |- after (the_user _ _ _) _ _ _ => unfold the_user
  | |- after (the_memo _ _ _) _ _ _ => unfold the_memo
  | |- after (the_user _ _) _ _ _ => unfold the_user
  | |- after (the_memo _ _) _ _ _ => unfold the_memo
  | |- after (updated_state _ _ _ _) _ _ _ => unfold updated_state
  | |- after (ask _) _ _ _ => let a := fresh "a" in let E := fresh "E" in apply after_ask; [|intros a E]
  | |- after (answer _) _ _ _ => let a := fresh "a" in let E := fresh "E" in apply after_answer; [|intros a E]
  | |- after (guard_h _ _ _) _ _ _ => let G := fresh "G" in apply after_guard; [|intros G]
  | |- after (emit _) _ _ _ => apply after_emit
  | |- after (emit_all _) _ _ _ => apply after_emit_all
  | |- after (let '(_, _) := ?p in _) _ _ _ => destruct p
  | |- after (match ?x with _ => _ end) _ _ _ => destruct x
  end.

Ltac handler := repeat (handler_step; try done).

(** ** Readers *)

(** The ids of users are positive and their names unique. *)
Record users_kept (db : DB) : Prop := {
  wk_positive u row : users db !! u = Some row → (0 < u)%Z;
  wk_username u v row row' : users db !! u = Some row → users db !! v = Some row' →
    us_username row = us_username row' → u = v }.

Lemma users_kept_same db db' : users db' = users db → users_kept db → users_kept db'.
Proof. intros E [Hp Hu]. by split; rewrite E. Qed.

(** For an active user reading is one formula. *)
Lemma user_reads_reads db anonymous u row id m :
  users db !! u = Some row → us_row_status row = Normal → u ≠ 0%Z →
  reads db anonymous u id m ↔ user_reads db u m = true.
Proof.
  intros Hu Hs Hne. rewrite reads_allowed. unfold buildMemoReadContext, MemoAccess.fetchCurrentUser.
  destruct (Z.eqb_spec u 0) as [|_]; [done|]. rewrite Hu, Hs, String.eqb_refl, resolve_context.
  rewrite <- (decision_user db u row false id m Hu Hs). naive_solver.
Qed.

Lemma target_reads_reads db anonymous u row id m :
  users_kept db → users db !! u = Some row → us_row_status row = Normal →
  target_reads db (u, row) (id, m) = true → reads db anonymous u id m.
Proof.
  intros Hk Hu Hs. unfold target_reads. rewrite resolve_context, (decision_user db u row false id m Hu Hs).
  apply user_reads_reads with row; [done..|]. pose proof (wk_positive _ Hk _ _ Hu). lia.
Qed.

(** Only active users are told. *)
Lemma target_active db u row id m : target_reads db (u, row) (id, m) = true → us_row_status row = Normal.
Proof.
  unfold target_reads. rewrite resolve_context, decision_policy.
  intros (i & m' & [= <- <-] & _ & _ & _ & Ha). unfold audience_admits, viewer_active in Ha. cbn in Ha.
  destruct (String.eqb_spec (us_row_status row) Normal) as [|]; [done|]. naive_solver.
Qed.

(** An author reads an own memo that is well placed. *)
Lemma author_reads db anonymous u row id m :
  users db !! u = Some row → us_row_status row = Normal → u ≠ 0%Z → mm_creator m = u →
  MemoDriver.valid_row_status (mm_row_status m) = true → isValidVisibility (mm_visibility m) = true →
  (mm_visibility m = SpaceAudience → ∃ s, mm_space m = Some s ∧ space_exists db s = true ∧
     MemoDriver.spaceMemberActive db s u = true) →
  reads db anonymous u id m.
Proof.
  intros Hu Hs Hne Hc Hst Hv Hsp. apply (user_reads_reads _ _ _ row); [done..|]. unfold user_reads, creator_valid, user_status.
  rewrite Hc, Hu. cbn. rewrite Hs, Z.eqb_refl. cbn [String.eqb]. rewrite String.eqb_refl, !andb_true_r. cbn [orb].
  unfold MemoDriver.valid_row_status in Hst. rewrite Hst, !andb_true_r.
  unfold isValidVisibility in Hv. destruct (String.eqb_spec (mm_visibility m) SpaceAudience) as [E|].
  - destruct (Hsp E) as (s & -> & -> & ->). by rewrite !orb_true_r.
  - rewrite orb_false_r in *. destruct (String.eqb (mm_visibility m) Public), (String.eqb (mm_visibility m) Protected), (String.eqb (mm_visibility m) Private); done.
Qed.

(** ** Writes *)

(** The row an author may read for good: its state and audience are valid, and the
    author is a member of the space of a SPACE memo. *)
Definition well_placed (db : DB) (author : Z) (row : Memo) : Prop :=
  mm_creator row = author ∧ MemoDriver.valid_row_status (mm_row_status row) = true ∧
  isValidVisibility (mm_visibility row) = true ∧
  (mm_visibility row = SpaceAudience → ∃ s, mm_space row = Some s ∧ space_exists db s = true ∧
     MemoDriver.spaceMemberActive db s author = true).

Lemma well_placed_reads db anonymous author id row :
  users_kept db → active_user db author → well_placed db author row → reads db anonymous author id row.
Proof.
  unfold active_user, user_status. intros Hk Ha (Hc & Hs & Hv & Hsp).
  destruct (users db !! author) as [urow|] eqn:Hu; [|done]. injection Ha as Ha.
  apply (author_reads db anonymous author urow); try done. pose proof (wk_positive _ Hk _ _ Hu). lia.
Qed.

Lemma same_tables_well_placed db db' author row :
  same_other_tables db db' → well_placed db author row → well_placed db' author row.
Proof.
  intros (_ & Hs & Hm & _) (? & ? & ? & Hsp). split_and!; try done.
  intros (s & ? & ? & ?)%Hsp. exists s. unfold space_exists, MemoDriver.spaceMemberActive in *. by rewrite Hs, Hm.
Qed.

(** An accepted update leaves its memo well placed. *)
Lemma updated_well_placed p u db now id m :
  write_allowed p (Some u) (MemoDriver.snapshot db now (po_actor p) id m (Some u)) →
  (um_clear_space u = true → um_space u = None) →
  MemoDriver.valid_row_status (mm_row_status (MemoDriver.updated_memo u m)) = true →
  isValidVisibility (mm_visibility (MemoDriver.updated_memo u m)) = true →
  well_placed db (po_actor p) (MemoDriver.updated_memo u m).
Proof.
  intros [Hau _ Hlife Hsrc Htgt Hspace _ _ _] Hclear Hst Hv. split_and!; [exact Hau|exact Hst|exact Hv|].
  cbn in *. intros E. specialize (Hspace E). unfold MemoDriver.memoPolicySpaceState in *.
  destruct (um_space u) as [s|] eqn:Hu.
  - assert (um_clear_space u = false) as -> by (destruct (um_clear_space u); naive_solver).
    exists s. destruct Htgt as [He Hm]; [by exists s|]. by destruct (space_exists db s).
  - destruct (um_clear_space u) eqn:Hcl; [done|]. destruct (mm_space m) as [s|]; [|done]. exists s.
    destruct Hsrc as [He Hm]; [done|]. destruct (space_exists db s); [|done]. split_and!; try done.
    destruct Hm as [Hm|Hm]; [|done]. destruct (Hlife Hm) as [Hl _]. unfold isLifecycleOnlyMemoUpdate in Hl.
    by rewrite bool_decide_true in Hl.
Qed.

Lemma applyMemoUpdate_valid u db r m :
  MemoDriver.applyMemoUpdate u db = Ok r → memos db !! um_id u = Some m →
  MemoDriver.valid_row_status (mm_row_status (MemoDriver.updated_memo u m)) = true ∧
  isValidVisibility (mm_visibility (MemoDriver.updated_memo u m)) = true.
Proof.
  unfold MemoDriver.applyMemoUpdate. intros Ha Hm. tx_step Ha. rewrite Hm in Ha. tx_step Ha. tx_step Ha.
  tx_step Ha. by apply andb_true_iff.
Qed.

(** What a write of a memo by its author leaves: the row updated and well placed,
    and the tables of users and spaces as they were. *)
Record own_write (db db' : DB) (author id : Z) (u : UpdateMemoReq) : Prop := {
  ow_active : active_user db author;
  ow_row : ∃ m, memos db !! id = Some m ∧ mm_creator m = author ∧
    memos db' = <[id := MemoDriver.updated_memo u m]> (memos db) ∧
    well_placed db' author (MemoDriver.updated_memo u m);
  ow_tables : same_other_tables db db';
  ow_next : next_memo db' = next_memo db }.

Lemma store_update_written now u p db r :
  um_policy u = Some p → (um_clear_space u = true → um_space u = None) →
  MemoStore.UpdateMemo now u db = Ok r →
  own_write db r.2 (po_actor p) (um_id u) u ∧ attachments r.2 = attachments db ∧ relations r.2 = relations db.
Proof.
  intros Hp Hclear (Hup & _ & _)%store_UpdateMemo_Ok.
  pose proof Hup as Hval. unfold MemoDriver.UpdateMemo in Hval. rewrite Hp in Hval.
  apply se_bind_Ok in Hval as ([] & s & Hv & Hval). apply validateWritePolicy_Ok in Hv as ([= ->] & _).
  apply (UpdateMemo_policy_Ok _ _ _ _ _ Hp) in Hup as (Hact & m & Hm & Hw & ->). cbn.
  destruct (applyMemoUpdate_valid _ _ _ _ Hval Hm). split; [|done]. split; [done| |done|done].
  exists m. split_and!; [done|by apply wa_author in Hw|done|]. by apply updated_well_placed in Hw.
Qed.

Lemma driver_mutation_valid now mu u db r m :
  MutationDriver.ApplyMemoMutation now mu db = Ok r → mu_create mu = None → mu_update mu = Some u →
  memos db !! um_id u = Some m →
  MemoDriver.valid_row_status (mm_row_status (MemoDriver.updated_memo u m)) = true ∧
  isValidVisibility (mm_visibility (MemoDriver.updated_memo u m)) = true.
Proof.
  unfold MutationDriver.ApplyMemoMutation. intros Hr Hc Hu Hm.
  apply se_bind_Ok in Hr as ([] & s & He & Hr). apply validateMemoRelationEndpoints_Ok in He as [[= ->] _].
  apply se_bind_Ok in Hr as (mu0 & s & Hcr & Hr). unfold MutationDriver.create_part in Hcr. rewrite Hc in Hcr.
  tx_step Hcr. injection Hcr as -> ->.
  apply se_bind_Ok in Hr as ([] & s & Hp & Hr).
  assert (s = db) as ->.
  { destruct (MutationDriver.mutation_policy mu); [|by tx_step Hp; injection Hp].
    by apply validateWritePolicy_Ok in Hp as ([= ->] & _). }
  apply se_bind_Ok in Hr as ([] & s & Hst & Hr). apply check_memo_state_Ok in Hst as [[= ->] _].
  apply se_bind_Ok in Hr as ([] & s & Hat & Hr). apply attachment_part_Ok in Hat as (removed & [= ->] & _).
  apply se_bind_Ok in Hr as ([] & s & Hup & Hr). unfold MutationDriver.update_part in Hup. rewrite Hu in Hup.
  tx_step Hup. by eapply applyMemoUpdate_valid.
Qed.

Lemma mutation_written now mu u p db id db' :
  mu_create mu = None → mu_update mu = Some u → mu_policy mu = Some p →
  (um_clear_space u = true → um_space u = None) →
  MemoMutation.ApplyMemoMutation now mu db = Ok (id, db') →
  id = mu_memo mu ∧ own_write db db' (po_actor p) id u.
Proof.
  intros Hc Hu Hp Hclear Ha. destruct (ApplyMemoMutation_effect _ _ _ _ _ Ha) as (He & _).
  unfold MemoMutation.ApplyMemoMutation in Ha. apply se_bind_Ok in Ha as (mu' & s & Hck & Ha).
  apply se_lift_Ok' in Hck as [Hck Hs]. cbn in Hck, Hs. subst s.
  apply check_mutation_Ok in Hck as (-> & _).
  assert (mu_create (checked mu) = None ∧ mu_update (checked mu) = Some u ∧ mu_memo (checked mu) = mu_memo mu
    ∧ MutationDriver.mutation_policy (checked mu) = Some p) as (Ec & Eu & Em & Ep).
  { unfold checked, MutationDriver.mutation_policy. rewrite Hc. cbn. by rewrite Hc, Hu, Hp. }
  pose proof (λ m, driver_mutation_valid now (checked mu) u db (id, db') m Ha Ec Eu) as Hval.
  apply ApplyMemoMutation_Ok in Ha as Ha'. destruct Ha' as (removed & Hmc & [= Eid Edb]).
  assert (target (checked mu) db = mu_memo mu) as Et by (unfold target, placed; by rewrite Ec).
  assert (created now (checked mu) db = db) as Ecr by (unfold created; by rewrite Ec).
  assert (placed (checked mu) db = checked mu) as Epl by (unfold placed; by rewrite Ec).
  pose proof (mc_update _ _ _ _ Hmc u Eu) as Hid. rewrite Et in Hid.
  destruct (mc_policy _ _ _ _ Hmc p) as (Hact & m & Hm & Hw); [by rewrite Epl|].
  rewrite Ecr in Hact, Hm. rewrite Ecr, Et, Eu in Hw. rewrite Et in Hm, Eid. subst id.
  destruct (Hval m) as [Hv1 Hv2]; [by rewrite Hid|].
  split; [done|]. split; [done| |apply (me_other_tables _ _ _ _ _ _ He)|].
  - exists m. split; [done|]. split; [by apply wa_author in Hw|]. split.
    + rewrite Edb, final_memos, Eu, Ecr, Hid. by rewrite (alter_present _ _ _ m).
    + eapply same_tables_well_placed; [apply (me_other_tables _ _ _ _ _ _ He)|]. by apply updated_well_placed in Hw.
  - pose proof (me_next _ _ _ _ _ _ He) as Hn. by rewrite Hc in Hn.
Qed.

(** A created memo is well placed. *)
Lemma mutation_created now mu c db id db' :
  mu_create mu = Some c → MemoMutation.ApplyMemoMutation now mu db = Ok (id, db') →
  id = next_memo db ∧ active_user db (mm_creator c) ∧
  memos db' = <[id := MemoDriver.memo_row now c]> (memos db) ∧
  well_placed db' (mm_creator c) (MemoDriver.memo_row now c) ∧ same_other_tables db db' ∧
  next_memo db' = (next_memo db + 1)%Z.
Proof.
  intros Hc Ha. destruct (ApplyMemoMutation_effect _ _ _ _ _ Ha) as (He & _).
  unfold MemoMutation.ApplyMemoMutation in Ha. apply se_bind_Ok in Ha as (mu' & s & Hck & Ha).
  apply se_lift_Ok' in Hck as [Hck Hs]. cbn in Hck, Hs. subst s.
  apply check_mutation_Ok in Hck as (-> & _ & Hval & _).
  apply ApplyMemoMutation_Ok in Ha as (removed & Hmc & _). pose proof (mc_create _ _ _ _ Hmc) as Hcr.
  unfold create_allowed in Hcr. assert (mu_create (checked mu) = Some c) as Ec by (unfold checked; by rewrite Hc).
  rewrite Ec in Hcr. destruct Hcr as (Hact & Hsp & _).
  pose proof (me_memo _ _ _ _ _ _ He) as Hm. rewrite Hc in Hm. destruct Hm as (-> & Ea & _ & Hrow).
  split; [done|]. split; [done|]. split; [|split; [|split; [apply (me_other_tables _ _ _ _ _ _ He)|]]].
  - apply map_eq. intros k. destruct (decide (k = next_memo db)) as [->|Hne]; [by rewrite lookup_insert_eq|].
    rewrite lookup_insert_ne by done. by apply (me_other_memos _ _ _ _ _ _ He).
  - eapply same_tables_well_placed; [apply (me_other_tables _ _ _ _ _ _ He)|].
    specialize (Hval c Hc). unfold validateMemoCreate in Hval.
    destruct (UIDMatcher _); [|done]. destruct (isValidVisibility (mm_visibility c)) eqn:Hv; [|done]. cbn in Hval.
    split_and!; [done|done|done|]. cbn. intros E. rewrite E in Hval. cbn in Hval.
    destruct (mm_space c) as [s|] eqn:Es; [|done]. exists s. split; [done|]. by apply Hsp.
  - pose proof (me_next _ _ _ _ _ _ He) as Hn. by rewrite Hc in Hn.
Qed.

(** ** The parts of handlers *)

Lemma current_user_Ok db userID failure u :
  current_user db userID failure = Ok u →
  u.1 = userID ∧ users db !! userID = Some u.2 ∧ us_row_status u.2 = Normal ∧ userID ≠ 0%Z.
Proof.
  unfold current_user, MemoAccess.fetchCurrentUser. destruct (Z.eqb_spec userID 0); [done|].
  destruct (users db !! userID) as [row|] eqn:Hu; [|done].
  destruct (String.eqb_spec (us_row_status row) Normal); [|done]. by intros [= <-].
Qed.

Section parts.
Context `{PayloadJSON} `{GoPlatform} `{FilterBackend} `{Markdown} `{Text.GoUnicode} `{Instance}.
Context (now : Z) (I : World → Prop).

(** The update with the policy [applyMemoMutation] gives it. *)
Definition with_policy (actor : Z) (u : UpdateMemoReq) : UpdateMemoReq :=
  mkUpdateMemo (um_id u) (um_uid u) (um_created_ts u) (um_updated_ts u) (um_row_status u) (um_content u)
    (um_visibility u) (um_pinned u) (um_payload u) (um_space u) (um_clear_space u)
    (Some (default (memoWritePolicy actor false) (um_policy u))).

(** [applyMemoMutation] writes the memo and then removes the files of what it
    removed, which may fail. *)
Lemma after_applyMemoMutation userID memo prepared update required relations (K : unit → World → Prop) w :
  I w → (um_clear_space update = true → um_space update = None) →
  (∀ p, um_policy update = Some p → po_actor p = userID) →
  (∀ db' removed w', removed = (λ a, (sa_id a, sa_row a)) <$> pa_removed prepared →
     mm_creator (st_row memo) = userID → own_write (w_db w) db' userID (st_id memo) (with_policy userID update) →
     mutation_effect now (mkMutation None None (st_id memo) (mm_creator (st_row memo)) (mm_content (st_row memo))
           (Some (with_policy userID update)) (Some <$> (buildMemoAttachmentMutationBindings now prepared).1)
           (sa_id <$> pa_removed prepared) required (bool_decide (is_Some relations))
           ((λ r, Some (mkRelation (st_id memo) (rl_related r) (rl_type r))) <$> default [] relations)
           (Some (default (memoWritePolicy userID false) (um_policy update)))) (mm_creator (st_row memo)) (st_id memo) (w_db w) db' →
     w' = mkWorld db' (w_log w ++ [StorageCleanup removed]) → I w' ∧ K tt w') →
  after (applyMemoMutation now userID memo prepared update required relations) I K w.
Proof.
  intros HI Hclear Hpol Hpost. unfold applyMemoMutation. handler_step. handler_step; [done|].
  destruct (current_user_Ok _ _ _ _ E) as (Eu & Hu & Hs & Hne). rewrite Eu.
  do 2 handler_step; [done|]. apply Z.eqb_eq in G as Hcr. handler_step.
  assert (∀ K' : unit → World → Prop, K' tt w →
    after (if bool_decide (pa_removed prepared = []) then (mret tt : Handler unit)
           else ask (λ db, validateAttachmentMotionGroupDeletion db userID (pa_removed prepared))) I K' w) as Hval.
  { intros K' HK. destruct (bool_decide (pa_removed prepared = [])); [exact HK|]. apply after_ask; [done|]. by intros [] _. }
  apply Hval. clear Hval. unfold buildMemoAttachmentMutationBindings. cbn zeta.
  handler_step. apply after_transact; [done|]. intros id db' Ha.
  lazymatch type of Ha with MemoMutation.ApplyMemoMutation _ ?mu _ = _ =>
    destruct (mutation_written now mu (with_policy userID update) _ _ _ _ eq_refl eq_refl eq_refl Hclear Ha) as [Eid How]
  end. cbn in Eid.
  assert (po_actor (default (memoWritePolicy userID false) (um_policy update)) = userID) as Ep.
  { destruct (um_policy update) as [p|]; [by apply Hpol | done]. }
  rewrite Ep in How. destruct (ApplyMemoMutation_effect _ _ _ _ _ Ha) as (He & _).
  rewrite Eid in He, How. unfold actor_of in He. cbn in He.
  destruct (Hpost db' _ _ eq_refl Hcr How He eq_refl) as [HI' HK].
  unfold cleanupDeletedAttachmentStorage. handler_step. handler_step. by handler_step.
Qed.
End parts.
