(* ===== verification/UpdateFacts.v ===== *)
(** * What [UpdateMemo] writes

    The loop over the update mask computes one update of the row, field by field,
    and the write does that and nothing else. *)
From S2P Require Import Prelude GoLib GoText GoTime FilterIR FilterParser FilterRender.
From S2P Require Import Store SpaceStore SpaceStoreFacts SpaceSafety MemoStore MemoStoreFacts ResourceName MemoAccess MemoAccessFacts.
From S2P Require Import AttachmentStore MemoMutation MutationFacts AuthService MemoQuery MemoConvert MemoReads MemoPrepare.
From S2P Require Import MemoService MemoHandlers PlainMemo MemoQueryFacts MemoReadsFacts MemoReadsSafety HandlerFacts.

(** The value of a field a mask may name. *)
Definition on (paths : list string) (name : string) : bool := bool_decide (name ∈ paths).
Definition field {A} (paths : list string) (name : string) (new old : A) : A := if on paths name then new else old.

Lemma on_cons p ps name : on (p :: ps) name = String.eqb p name || on ps name.
Proof.
  unfold on. destruct (String.eqb_spec p name) as [->|Hne]; cbn.
  - apply bool_decide_true. by left.
  - apply bool_decide_ext. rewrite elem_of_cons. naive_solver.
Qed.

Lemma on_nil name : on [] name = false.
Proof. done. Qed.

Lemma field_cons {A} p ps name (new old : A) :
  field (p :: ps) name new old = field ps name new (if String.eqb p name then new else old).
Proof. unfold field. rewrite on_cons. by destruct (String.eqb p name), (on ps name). Qed.

Section update.
Context `{PayloadJSON} `{GoPlatform} `{FilterBackend} `{Markdown} `{Text.GoUnicode} `{Instance}.
Context (anonymous : bool) (now : Z) (input : MemoInput).

(** ** The draft *)

Definition created_of (old : option Z) : option Z :=
  match in_create_time input with Some t => Some (ts_unix t) | None => old end.
Definition updated_of : option Z :=
  Some (match in_update_time input with Some t => ts_unix t | None => now end).

(** What the new content says. *)
Definition extracted : ExtractedData :=
  match ExtractAll (in_content input) with Ok data => data | Err _ => mkExtracted [] None [] end.

(** The payload a mask leads to. *)
Definition payload_of (paths : list string) (p : MemoPayload) : MemoPayload :=
  mkPayload (field paths "content" (ex_tags extracted) (pl_tags p))
    (field paths "content" (ex_property extracted) (pl_property p))
    (field paths "location" (in_location input) (pl_location p)).

(** The draft after the paths. *)
Record drafted (paths : list string) (d d' : Draft) : Prop := {
  dd_kept : um_id (df_update d') = um_id (df_update d) ∧ um_uid (df_update d') = um_uid (df_update d) ∧
    um_visibility (df_update d') = um_visibility (df_update d) ∧
    um_space (df_update d') = um_space (df_update d) ∧
    um_clear_space (df_update d') = um_clear_space (df_update d) ∧
    um_policy (df_update d') = um_policy (df_update d);
  dd_created : um_created_ts (df_update d') =
    field paths "create_time" (created_of (um_created_ts (df_update d))) (um_created_ts (df_update d));
  dd_updated : um_updated_ts (df_update d') = field paths "update_time" updated_of (um_updated_ts (df_update d));
  dd_status : um_row_status (df_update d') =
    field paths "state" (Some (convertStateToStore (in_state input))) (um_row_status (df_update d));
  dd_content : um_content (df_update d') = field paths "content" (Some (in_content input)) (um_content (df_update d));
  dd_pinned : um_pinned (df_update d') = field paths "pinned" (Some (in_pinned input)) (um_pinned (df_update d));
  dd_payload : df_payload d' = payload_of paths (df_payload d);
  dd_json : um_payload (df_update d') =
    (if on paths "content" || on paths "location" then Some (marshal_memo_payload (df_payload d'))
     else um_payload (df_update d));
  dd_data : on paths "content" = true → ExtractAll (in_content input) = Ok extracted ∧
    (Z.of_nat (String.length (in_content input)) ≤ content_limit)%Z;
  dd_flags : df_content d' = field paths "content" (in_content input) (df_content d) ∧
    df_content_updated d' = on paths "content" || df_content_updated d ∧
    df_attachments_updated d' = on paths "attachments" || df_attachments_updated d ∧
    df_relations_updated d' = on paths "relations" || df_relations_updated d }.

Lemma drafted_nil d : drafted [] d d.
Proof. split; try done. by destruct d as [?? [] ???]. Qed.

Lemma drafted_cons p ps d d1 d2 : drafted [p] d d1 → drafted ps d1 d2 → drafted (p :: ps) d d2.
Proof.
  intros [K1 C1 U1 S1 T1 P1 Y1 J1 D1 F1] [K2 C2 U2 S2 T2 P2 Y2 J2 D2 F2].
  unfold field in *. destruct K1 as (?&?&?&?&?&?), K2 as (?&?&?&?&?&?).
  destruct F1 as (Fa1&Fb1&Fc1&Fd1), F2 as (Fa2&Fb2&Fc2&Fd2).
  split; unfold field; rewrite ?on_cons, ?on_nil, ?orb_false_r in *.
  - split_and!; congruence.
  - rewrite C2, C1. unfold created_of. by destruct (in_create_time input), (String.eqb p "create_time"), (on ps "create_time").
  - rewrite U2, U1. by destruct (String.eqb p "update_time"), (on ps "update_time").
  - rewrite S2, S1. by destruct (String.eqb p "state"), (on ps "state").
  - rewrite T2, T1. by destruct (String.eqb p "content"), (on ps "content").
  - rewrite P2, P1. by destruct (String.eqb p "pinned"), (on ps "pinned").
  - rewrite Y2, Y1. unfold payload_of, field. rewrite !on_cons, !on_nil, !orb_false_r. cbn.
    by destruct (String.eqb p "content"), (String.eqb p "location"), (on ps "content"), (on ps "location").
  - rewrite J2. destruct (on ps "content") eqn:Ec, (on ps "location") eqn:El; cbn; rewrite ?orb_true_r; try done.
    rewrite !orb_false_r, J1, Y2. unfold payload_of, field. rewrite Ec, El. by destruct (df_payload d1).
  - intros [Hp|Hp]%orb_true_iff; auto.
  - rewrite Fa2, Fb2, Fc2, Fd2, Fa1, Fb1, Fc1, Fd1. split_and!.
    all: first [by destruct (String.eqb p "content"), (on ps "content") | by destruct (String.eqb p "attachments"), (on ps "attachments")
               | by destruct (String.eqb p "relations"), (on ps "relations")].
Qed.

Lemma drafted_content d payload :
  RebuildMemoPayload (in_content input) (df_payload d) = Ok payload →
  (Z.of_nat (String.length (in_content input)) ≤ content_limit)%Z →
  drafted ["content"] d
    (mkDraft (with_content (in_content input) (marshal_memo_payload payload) (df_update d))
       (in_content input) payload true (df_attachments_updated d) (df_relations_updated d)).
Proof.
  unfold RebuildMemoPayload. intros (data & Hd%wrap_err_Ok & [= <-])%bind_Ok Hl.
  assert (extracted = data) as E by (unfold extracted; by rewrite Hd).
  rewrite <- E in *. split; try done.
Qed.

Lemma apply_path_drafted d path d' : apply_path now input d path = Ok d' → drafted [path] d d'.
Proof.
  unfold apply_path. destruct d as [[] c [] cu au ru].
  repeat (match goal with |- context [if ?b then _ else _] =>
    lazymatch b with
    | String.eqb path ?n => destruct (String.eqb_spec path n) as [->|]
    | String.eqb path ?n || _ => destruct (String.eqb_spec path n) as [->|]
    end end; cbn [orb]).
  all: try (intros [= <-]; split; done).
  - destruct (Z.ltb_spec content_limit (Z.of_nat (String.length (in_content input)))); [done|].
    intros (payload & Hp%status_error_Ok & [= <-])%bind_Ok. by apply drafted_content.
  - destruct (in_create_time input) as [t|] eqn:Ht; [|done]. destruct (ts_valid t); [|done].
    intros [= <-]. split; try done. unfold created_of. by rewrite Ht.
Qed.

Lemma apply_paths_drafted paths : ∀ d d', apply_paths now input d paths = Ok d' → drafted paths d d'.
Proof.
  induction paths as [|p paths IH]; intros d d' Hd; cbn in Hd.
  - injection Hd as <-. apply drafted_nil.
  - apply bind_Ok in Hd as (d1 & Hp & Hd). eapply drafted_cons; [by apply apply_path_drafted | by apply IH].
Qed.
(** Only these paths are accepted. *)
Definition mask_paths : list string :=
  ["visibility"; "space"; "content"; "pinned"; "state"; "create_time"; "update_time"; "location"; "attachments"; "relations"].

Lemma apply_path_known d path d' : apply_path now input d path = Ok d' → path ∈ mask_paths.
Proof.
  unfold apply_path.
  repeat (match goal with |- context [if ?b then _ else _] =>
    lazymatch b with
    | String.eqb path ?n => destruct (String.eqb_spec path n) as [->|]
    | String.eqb path ?n || _ => destruct (String.eqb_spec path n) as [->|]
    end end; cbn [orb]).
  all: intros Hd; try discriminate Hd.
  all: apply list_elem_of_In; cbn; tauto.
Qed.

Lemma apply_paths_known paths : ∀ d d', apply_paths now input d paths = Ok d' → paths ⊆ mask_paths.
Proof.
  induction paths as [|p paths IH]; intros d d' Hd; cbn in Hd; [set_solver|].
  apply bind_Ok in Hd as (d1 & Hp%apply_path_known & Hd%IH). set_solver.
Qed.

(** ** The placement *)

(** The audience and the space a mask leads to. *)
Definition chosen_visibility (paths : list string) (row : Memo) (v : Visibility) : Prop :=
  if on paths "visibility" then validateUpdateMemoVisibility (in_visibility input) = Ok v
  else v = mm_visibility row.
Definition chosen_space (db : DB) (userID : Z) (paths : list string) (row : Memo) (s : option Z) : Prop :=
  if on paths "space" then
    if String.eqb (default "" (in_space input)) "" then s = None
    else ∃ space, resolveWritableSpaceByName db (default "" (in_space input)) userID = Ok space ∧ s = Some (sp_id space)
  else s = mm_space row.

Lemma plan_placement_Ok db userID row paths pl :
  plan_placement db userID row paths input = Ok pl →
  po_actor (pc_policy pl) = userID ∧ (pc_clear pl = true → pc_space pl = None) ∧
  chosen_visibility paths row (default (mm_visibility row) (pc_visibility pl)) ∧
  chosen_space db userID paths row
    (if pc_clear pl then None else match pc_space pl with Some s => Some s | None => mm_space row end).
Proof.
  unfold plan_placement, chosen_visibility, chosen_space. fold (on paths "visibility"). fold (on paths "space").
  intros ([[next sid] clear] & Hs & (v & Hv & Hp)%bind_Ok)%bind_Ok.
  repeat (match type of Hp with (if ?b then _ else _) = _ => destruct b; [discriminate Hp|] end).
  injection Hp as <-. cbn. unfold plan_space in Hs. fold (on paths "space") in Hs.
  destruct (on paths "visibility"); [apply bind_Ok in Hv as (v' & Hv & [= <-])|injection Hv as <-];
    (destruct (on paths "space"); [destruct (String.eqb _ "")|];
      [injection Hs as <- <- <- | apply bind_Ok in Hs as (sp & Hs & [= <- <- <-]) | injection Hs as <- <- <-]);
    split_and!; try done; by eexists.
Qed.

(** The row a mask leads to: each field named has the value of the request, every
    other field is as it was. *)
Definition masked_row (paths : list string) (v : Visibility) (s : option Z) (p : MemoPayload) (row : Memo) : Memo :=
  mkMemo (mm_uid row) (mm_creator row)
    (field paths "create_time" (match in_create_time input with Some t => ts_unix t | None => mm_created_ts row end)
       (mm_created_ts row))
    (field paths "update_time" (match in_update_time input with Some t => ts_unix t | None => now end) (mm_updated_ts row))
    (field paths "state" (convertStateToStore (in_state input)) (mm_row_status row))
    (field paths "content" (in_content input) (mm_content row))
    v (field paths "pinned" (in_pinned input) (mm_pinned row))
    (if on paths "content" || on paths "location" then marshal_memo_payload (payload_of paths p) else mm_payload row) s.

Lemma draft_masked paths memo pl d :
  drafted paths (first_draft memo pl) d →
  MemoDriver.updated_memo (df_update d) (st_row memo) =
  masked_row paths (default (mm_visibility (st_row memo)) (pc_visibility pl))
    (if pc_clear pl then None else match pc_space pl with Some s => Some s | None => mm_space (st_row memo) end)
    (st_payload memo) (st_row memo).
Proof.
  intros [(Ei & Eu & Ev & Es & Ec & Ep) C U S T P Y J _ _]. unfold MemoDriver.updated_memo, masked_row.
  rewrite Eu, Ev, Es, Ec, C, U, S, T, P, J, Y. cbn. unfold field, created_of, updated_of.
  f_equal.
  - by destruct (on paths "create_time"), (in_create_time input).
  - by destruct (on paths "update_time").
  - by destruct (on paths "state").
  - by destruct (on paths "content").
  - by destruct (on paths "pinned").
  - by destruct (on paths "content" || on paths "location").
Qed.

(** ** The write *)

(** Files are removed of attachments that were there and are gone. *)
Definition cleaned (before after : DB) (e : Event) : Prop :=
  ∃ removed, e = StorageCleanup removed ∧
    Forall (λ kv, attachments before !! kv.1 = Some kv.2 ∧ attachments after !! kv.1 = None) removed.

Lemma mutation_cleaned mu actor id db db' l :
  mutation_effect now mu actor id db db' → mu_removed mu = sa_id <$> l →
  (∀ a, a ∈ l → attachments db !! sa_id a = Some (sa_row a)) →
  cleaned db db' (StorageCleanup ((λ a, (sa_id a, sa_row a)) <$> l)).
Proof.
  intros He Hr Hl. eexists. split; [done|]. apply Forall_forall.
  intros kv (a & -> & Ha)%list_elem_of_fmap. cbn. split; [by apply Hl|].
  apply (me_removed _ _ _ _ _ _ He). rewrite Hr. by apply list_elem_of_fmap_2.
Qed.

Lemma prepared_removed db user memo creator names prepared a :
  prepareMemoAttachments db user memo creator names = Ok prepared → a ∈ pa_removed prepared →
  attachments db !! sa_id a = Some (sa_row a).
Proof.
  unfold prepareMemoAttachments. intros (current & Hc & (normalized & _ & (removed & Hr & [= <-])%bind_Ok)%bind_Ok)%bind_Ok Ha.
  cbn in Ha. assert (a ∈ current) as Hin.
  { clear -Hr Ha. revert removed Hr Ha. induction current as [|x current IH]; intros removed Hr Ha; cbn in Hr.
    { injection Hr as <-. by apply elem_of_nil in Ha. }
    destruct (bool_decide _); [right; by eapply IH|]. do 2 (destruct (negb _); [done|]).
    apply bind_Ok in Hr as (more & Hm & [= <-]). apply elem_of_cons in Ha as [->|Ha]; [by left|right; by eapply IH]. }
  destruct memo as [id|]; [|injection Hc as <-; by apply elem_of_nil in Hin].
  apply status_error_Ok in Hc. by destruct (ListAttachments_elem _ _ _ _ Hc Hin).
Qed.

Lemma no_bindings : (buildMemoAttachmentMutationBindings now no_attachments).1 = [].
Proof. done. Qed.

Lemma own_write_policy db db' author id actor u :
  own_write db db' author id (with_policy actor u) → own_write db db' author id u.
Proof. by intros [? ? ? ?]. Qed.

(** A mutation that binds, removes and replaces nothing leaves attachments and
    relations alone. *)
Lemma mutation_attachments_same mu actor id db db' :
  mutation_effect now mu actor id db db' → mu_removed mu = [] → mu_bindings mu = [] →
  attachments db' = attachments db.
Proof.
  intros He Hr Hb. apply map_eq. intros k. apply (me_attachments _ _ _ _ _ _ He); rewrite ?Hr, ?Hb; apply not_elem_of_nil.
Qed.

Lemma mutation_relations_same mu actor id db db' :
  mutation_effect now mu actor id db db' → mu_replace mu = false → mu_create mu = None →
  relations db' = relations db.
Proof.
  intros He Hr Hc. apply leibniz_equiv. intros r. rewrite (me_relations _ _ _ _ _ _ He), Hr, Hc. naive_solver.
Qed.

(** What [write_update] may be called with. *)
Record writable (w : World) (userID : Z) (memo : StoredMemo) (d : Draft)
    (prepared : option preparedMemoAttachments) (relations : option (list MemoRelation)) : Prop := {
  wr_id : um_id (df_update d) = st_id memo;
  wr_clear : um_clear_space (df_update d) = true → um_space (df_update d) = None;
  wr_policy : ∃ p, um_policy (df_update d) = Some p ∧ po_actor p = userID;
  wr_attachments : df_attachments_updated d = false → prepared = None;
  wr_removed p a : prepared = Some p → a ∈ pa_removed p → attachments (w_db w) !! sa_id a = Some (sa_row a);
  wr_relations : df_relations_updated d = false → relations = None }.

Lemma after_write_update (I : World → Prop) userID memo d prepared required rels (K : unit → World → Prop) w :
  I w → writable w userID memo d prepared rels →
  (∀ db' es, own_write (w_db w) db' userID (st_id memo) (df_update d) →
     (df_attachments_updated d = false → attachments db' = attachments (w_db w)) →
     (df_relations_updated d = false → relations db' = relations (w_db w)) →
     Forall (cleaned (w_db w) db') es →
     I (mkWorld db' (w_log w ++ es)) ∧ K tt (mkWorld db' (w_log w ++ es))) →
  after (write_update now userID memo d prepared required rels) I K w.
Proof.
  intros HI [Hid Hclear (p & Hp & Hact) Hat Hrm Hrl] Hpost. unfold write_update.
  destruct (_ || _ || _) eqn:Hb.
  - apply after_applyMemoMutation; [done|done|intros q; rewrite Hp; by intros [= <-]|].
    intros db' removed w' -> _ How He ->. apply Hpost.
    + by eapply own_write_policy.
    + intros Hf. rewrite (Hat Hf) in He. by eapply mutation_attachments_same.
    + intros Hf. rewrite (Hrl Hf) in He. by eapply mutation_relations_same.
    + constructor; [|constructor]. eapply mutation_cleaned; [exact He|done|].
      destruct prepared as [q|]; [|by intros a ?%elem_of_nil]. intros a. by apply Hrm.
  - apply after_transact; [done|]. intros [] db' Hup.
    destruct (store_update_written _ _ _ _ _ Hp Hclear Hup) as (How & Ea & Er). cbn in *. rewrite Hact, Hid in How.
    specialize (Hpost db' []). rewrite app_nil_r in Hpost. by apply Hpost.
Qed.
(** [UpdateMemo] up to what it tells others. *)
Definition tell_update (memo : StoredMemo) (d : Draft) (state : StoredMemo * option StoredMemo * MemoMessage)
  : Handler MemoMessage :=
  let '(updated, commentContext, memoMessage) := state in
  mentions ← ask (λ db, Ok (if df_content_updated d
    then mention_events db (stored_pair updated) (stored_pair <$> commentContext) (mm_content (st_row memo))
    else []));
  _ ← emit_all mentions;
  _ ← dispatchMemoUpdatedSideEffects memoMessage;
  mret memoMessage.

(** What a written update is known to have done. *)
Record update_written (db db' : DB) (userID : Z) (paths : list string) (memo : StoredMemo) (d : Draft) : Prop := {
  uw_memo : stored_as db (find_memo_uid (mm_uid (st_row memo))) memo (st_row memo);
  uw_name : in_name input = buildMemoName (mm_uid (st_row memo));
  uw_author : mm_creator (st_row memo) = userID;
  uw_paths : paths ≠ [] ∧ paths ⊆ mask_paths;
  uw_placed : ∃ pl, plan_placement db userID (st_row memo) paths input = Ok pl ∧ drafted paths (first_draft memo pl) d;
  uw_write : own_write db db' userID (st_id memo) (df_update d);
  uw_attachments : df_attachments_updated d = false → attachments db' = attachments db;
  uw_relations : df_relations_updated d = false → relations db' = relations db }.

Lemma after_optional {A} (I : World → Prop) (b : bool) (f : DB → api A) (K : option A → World → Prop) w :
  I w → (b = false → K None w) → (∀ a, b = true → f (w_db w) = Ok a → K (Some a) w) →
  after (if b then p ← ask f; mret (Some p) else (mret None : Handler (option A))) I K w.
Proof.
  intros HI Hn Hs. destruct b; [|by apply Hn]. apply after_bind, after_ask; [done|]. intros a Ha. by apply Hs.
Qed.

Lemma drafted_writable w userID paths memo pl d prepared rels :
  po_actor (pc_policy pl) = userID → (pc_clear pl = true → pc_space pl = None) →
  drafted paths (first_draft memo pl) d →
  (df_attachments_updated d = false → prepared = None) →
  (∀ p a, prepared = Some p → a ∈ pa_removed p → attachments (w_db w) !! sa_id a = Some (sa_row a)) →
  (df_relations_updated d = false → rels = None) →
  writable w userID memo d prepared rels.
Proof.
  intros Hact Hclear [(Ei & _ & _ & Es & Ec & Ep) _ _ _ _ _ _ _ _ _] Ha Hr Hl. split; try done.
  - by rewrite Es, Ec.
  - rewrite Ep. by eexists.
Qed.

Lemma after_UpdateMemo (I : World → Prop) userID paths (K : MemoMessage → World → Prop) w :
  I w →
  (∀ memo d db' es, update_written (w_db w) db' userID paths memo d → Forall (cleaned (w_db w) db') es →
     let w' := mkWorld db' (w_log w ++ es) in
     I w' ∧ ∀ state, buildUpdatedMemoState anonymous db' userID (st_id memo) = Ok state →
       after (tell_update memo d state) I K w') →
  after (UpdateMemo anonymous now userID (Some input) paths) I K w.
Proof.
  intros HI Hpost. unfold UpdateMemo. do 12 (handler_step; try done).
  apply memo_by_name_Ok in E0 as [Hst Hname]. apply current_user_Ok in E1 as (Eu & _). rewrite Eu in *.
  apply Z.eqb_eq in G0. apply negb_true_iff, bool_decide_eq_false in G.
  handler_step. handler_step; [done|]. handler_step. handler_step; [done|].
  rename a0 into memo, a1 into user, a2 into pl, a3 into d.
  destruct (plan_placement_Ok _ _ _ _ _ E0) as (Hact & Hclear & _).
  apply apply_paths_drafted in E1 as Hd. apply apply_paths_known in E1 as Hknown.
  assert (∀ prepared rels required,
    (df_attachments_updated d = false → prepared = None) →
    (∀ p a, prepared = Some p → a ∈ pa_removed p → attachments (w_db w) !! sa_id a = Some (sa_row a)) →
    (df_relations_updated d = false → rels = None) →
    after (_ ← write_update now userID memo d prepared required rels;
           state ← updated_state anonymous userID (st_id memo) (Unknown, "failed to build updated memo state");
           tell_update memo d state) I K w) as Hwrite.
  { intros prepared rels required Ha Hr Hl. handler_step.
    eapply after_write_update; [done|by eapply drafted_writable|].
    intros db' es How Hat Hrel Hes.
    destruct (Hpost memo d db' es) as [HI' Htell]; [by split; try done; eexists|done|]. split; [done|].
    do 3 handler_step; [done|]. apply status_error_Ok in E2. by apply Htell. }
  handler_step. apply after_optional; [done|intros Hna|intros prepared Hpa Hprep];
    (handler_step; apply after_optional; [done|intros Hnr|intros rels Hrel Hrl]);
    handler_step; handler_step; try done.
  all: unfold tell_update in Hwrite; apply Hwrite; try congruence.
  all: intros p x [= <-]; by eapply prepared_removed.
Qed.

(** C14. [UpdateMemo] writes what its mask names and nothing else.  Whatever it
    answers, either the database is as it was, or the request came from the active
    author of the memo it names, the mask has only known paths, and the row of that
    memo has in each field the mask names the value of the request - the payload
    rebuilt from the new content, the audience one that is valid, the space one the
    author is an active member of - and in every other field the value of before;
    no other memo, no user, space, membership, share or reaction changes, and
    attachments or references change only if the mask names them.  A request that
    is answered with a message has been written. *)
Theorem update_memo_respects_mask userID paths w r w' :
  UpdateMemo anonymous now userID (Some input) paths w = (r, w') →
  (w_db w' = w_db w ∧ is_ok r = false) ∨
  ∃ id row payload v s,
    memos (w_db w) !! id = Some row ∧ in_name input = buildMemoName (mm_uid row) ∧
    mm_creator row = userID ∧ active_user (w_db w) userID ∧ paths ≠ [] ∧ paths ⊆ mask_paths ∧
    unmarshal_memo_payload (mm_payload row) = Some payload ∧
    chosen_visibility paths row v ∧ chosen_space (w_db w) userID paths row s ∧
    memos (w_db w') = <[id := masked_row paths v s payload row]> (memos (w_db w)) ∧
    same_other_tables (w_db w) (w_db w') ∧
    ("attachments" ∉ paths → attachments (w_db w') = attachments (w_db w)) ∧
    ("relations" ∉ paths → relations (w_db w') = relations (w_db w)).
Proof.
  intros Hrun.
  set (I := λ w', w_db w' = w_db w ∨ ∃ memo d, update_written (w_db w) (w_db w') userID paths memo d).
  set (K := λ (_ : MemoMessage) w', ∃ memo d, update_written (w_db w) (w_db w') userID paths memo d).
  assert (after (UpdateMemo anonymous now userID (Some input) paths) I K w) as Ha.
  { apply after_UpdateMemo; [by left|]. intros memo d db' es Hw _ w1. split; [right; by exists memo, d|].
    intros [[updated ctx] msg] _. cbn. repeat first [progress handler_step | unfold dispatchMemoUpdatedSideEffects].
    all: try (right; by exists memo, d). all: by exists memo, d. }
  unfold after in Ha. rewrite Hrun in Ha.
  assert ((w_db w' = w_db w ∧ is_ok r = false) ∨ ∃ memo d, update_written (w_db w) (w_db w') userID paths memo d) as Hc.
  { destruct r as [msg|e]; [by right|]. destruct Ha as [Hs|Hs]; [by left | by right]. }
  destruct Hc as [Hc|(memo & d & [(Hrow & _ & Hp & _) Hn Hau [Hne Hkn] (pl & Hpl & Hd) [Hact Hm Ht _] Hat Hrel])]; [by left|right].
  destruct Hm as (row & Hrow' & _ & Hm & _). rewrite Hrow in Hrow'. injection Hrow' as <-.
  destruct (plan_placement_Ok _ _ _ _ _ Hpl) as (_ & _ & Hv & Hs).
  rewrite (draft_masked _ _ _ _ Hd) in Hm. destruct (dd_flags _ _ _ Hd) as (_ & _ & Fa & Fr). cbn in Fa, Fr.
  rewrite orb_false_r in Fa, Fr.
  eexists (st_id memo), (st_row memo), (st_payload memo), _, _. do 7 (split; [done|]).
  split; [exact Hv|]. split; [exact Hs|]. split; [exact Hm|]. split; [done|]. split.
  - intros Hna. apply Hat. rewrite Fa. by apply bool_decide_eq_false.
  - intros Hna. apply Hrel. rewrite Fr. by apply bool_decide_eq_false.
Qed.
End update.

(** Ada rewrites and pins her memo. *)
Definition rewrite_and_pin : MemoInput :=
  mkInput "memos/b" "new text" 0 None 0 true None None None [] [].

Lemma update_memo_respects_mask_witness :
  ∃ r w', UpdateMemo false 50 1 (Some rewrite_and_pin) ["content"; "pinned"] (mkWorld conversation_db []) = (r, w') ∧
    memos (w_db w') !! 2%Z =
      Some (mkMemo "b" 1 20 20 Normal "new text" Public true (marshal_memo_payload (mkPayload [] None None)) None).
Proof.
  destruct (UpdateMemo false 50 1 (Some rewrite_and_pin) ["content"; "pinned"] (mkWorld conversation_db [])) as [r w'] eqn:E.
  exists r, w'. split; [reflexivity|].
  destruct (update_memo_respects_mask _ _ _ _ _ _ _ _ E)
    as [[_ Hr]|(id & row & p & v & s & Hrow & Hn & _ & _ & _ & _ & Hp & Hv & Hs & Hm & _)].
  - exfalso. assert (is_ok (UpdateMemo false 50 1 (Some rewrite_and_pin) ["content"; "pinned"] (mkWorld conversation_db [])).1 = true)
      as Hok by (vm_compute; reflexivity). rewrite E in Hok. cbn in Hok. congruence.
  - rewrite Hm. clear E Hm w' r. cbn [w_db] in Hrow.
    assert (id = 2%Z) as ->.
    { cbn in Hn. unfold conversation_db in Hrow. cbn [memos] in Hrow.
      rewrite !lookup_insert_Some, lookup_singleton_Some in Hrow. naive_solver. }
    rewrite lookup_insert_eq. vm_compute in Hrow. injection Hrow as <-.
    cbn in Hp, Hv, Hs. injection Hp as <-. rewrite Hv, Hs. reflexivity.
Defined.
