(* ===== verification/WriteSafety.v ===== *)
(** * Whom a write tells

    The webhooks, inbox entries and file removals that the handlers of
    [MemoHandlers] send out: each goes only to a user who may see what it is about. *)
From S2P Require Import Prelude GoLib GoText GoTime FilterIR FilterParser FilterRender.
From S2P Require Import Store SpaceStore SpaceStoreFacts MemoStore MemoStoreFacts ResourceName MemoAccess MemoAccessFacts.
From S2P Require Import AttachmentStore MemoMutation MutationFacts AuthService SpaceSafety PlainMemo.
From S2P Require Import MemoQuery MemoConvert MemoReads MemoPrepare MemoService MemoHandlers.
From S2P Require Import MemoQueryFacts MemoReadsFacts MemoReadsSafety HandlerFacts UpdateFacts.

(** The requests that write memos, and what hangs on them. *)
Inductive Write :=
| WCreate (memo_id : string) (memo : option MemoInput)
| WComment (name comment_id : string) (comment : option MemoInput)
| WUpdate (memo : option MemoInput) (update_mask : list string)
| WDelete (name : string)
| WAttachments (name : string) (names : list (option string))
| WRelations (name : string) (inputs : list (option RelationInput))
| WShare (parent : string) (expire_time : option Timestamp)
| WUnshare (name : string)
| WReact (name : string) (reaction : option string)
| WUnreact (name : string).

Section safety.
Context `{PayloadJSON} `{GoPlatform} `{FilterBackend} `{Markdown} `{Text.GoUnicode} `{Instance}.
Context (anonymous : bool) (now : Z) (new_uid : string).

Definition ignore {A} (m : Handler A) : Handler unit := _ ← m; mret tt.

Definition handle (userID : Z) (q : Write) : Handler unit :=
  match q with
  | WCreate id m => ignore (CreateMemo anonymous now new_uid userID id m)
  | WComment name id c => ignore (CreateMemoComment anonymous now new_uid userID name id c)
  | WUpdate m mask => ignore (UpdateMemo anonymous now userID m mask)
  | WDelete name => DeleteMemo anonymous userID name
  | WAttachments name names => SetMemoAttachments anonymous now userID name names
  | WRelations name inputs => SetMemoRelations anonymous now userID name inputs
  | WShare parent t => ignore (CreateMemoShare now new_uid userID parent t)
  | WUnshare name => DeleteMemoShare now userID name
  | WReact name r => ignore (UpsertMemoReaction anonymous now userID name r)
  | WUnreact name => DeleteMemoReaction userID name
  end.

(** The memo with this id is there, and the user is active and may read it. *)
Definition reader (db : DB) (user memo : Z) : Prop :=
  active_user db user ∧ ∃ row, memos db !! memo = Some row ∧ reads db anonymous user memo row.

(** An event of a request of [userID] that took the database from [before] to
    [after] is told to nobody it is not for. *)
Definition event_ok (before after : DB) (userID : Z) (e : Event) : Prop :=
  match e with
  | MemoChanged => True
  (** no write of memos sends it *)
  | SpaceChanged => False
  | Webhook activity owner message =>
      (** the author's own webhooks, or those of the author of the context *)
      (if String.eqb activity "memos.memo.deleted" then disclosed anonymous before owner message
       else disclosed anonymous after owner message) ∧
      (owner = userID ∨ activity = "memos.memo.comment.created")
  | CommentInbox sender receiver memo related =>
      sender = userID ∧ receiver ≠ userID ∧ reader after receiver memo ∧ reader after receiver related ∧
      (∃ row, memos after !! related = Some row ∧ mm_creator row = receiver)
  | MentionInbox sender receiver memo related =>
      sender = userID ∧ receiver ≠ userID ∧ reader after receiver memo ∧
      (∀ r, related = Some r → reader after receiver r) ∧
      (** the memo mentions the receiver, its text of before did not *)
      (∃ row user data, memos after !! memo = Some row ∧ users after !! receiver = Some user ∧
         ExtractAll (mm_content row) = Ok data ∧ us_username user ∈ ex_mentions data) ∧
      (∀ row targets, memos before !! memo = Some row →
         resolveMentionTargets after (mm_content row) = Ok targets → targets !! receiver = None)
  | StorageCleanup removed =>
      Forall (λ kv, attachments before !! kv.1 = Some kv.2 ∧ attachments after !! kv.1 = None) removed
  end.

(** ** Messages about a memo *)

Section messages.
Context (db : DB) (userID : Z).

Lemma message_disclosed m rs ats rels msg :
  memos db !! st_id m = Some (st_row m) →
  (∀ uid, st_parent_uid m = Some uid → parent_uid db (st_id m) = Some uid) →
  reads db anonymous userID (st_id m) (st_row m) →
  rs = [] ∨ rs = ListReactions db None (Some (st_id m)) [] →
  ListAttachments db (find_attachments_of (st_id m)) = Ok ats →
  (∀ g, g ∈ rels → relation_disclosed anonymous db userID (st_id m) g) →
  convertMemoFromStore anonymous db userID m rs ats rels = Ok msg →
  disclosed anonymous db userID msg ∧
  ∃ creator, users db !! mm_creator (st_row m) = Some creator ∧ mg_creator msg = BuildUserName (us_username creator).
Proof.
  intros Hrow Hp Hr Hrs Hats Hrels Hc. split.
  - eapply convert_row_disclosed; [exact Hrow|exact Hp|exact Hr| | |exact Hrels|exact Hc].
    + destruct Hrs as [->| ->]; [by intros r ?%elem_of_nil | apply reactions_of].
    + intros a. by apply attachments_of.
  - unfold convertMemoFromStore, convertMemoFromStoreWithCreators in Hc.
    destruct (listUsersByID db [mm_creator (st_row m)] !! mm_creator (st_row m)) as [creator|] eqn:Hcr; [|done].
    apply map_lookup_filter_Some in Hcr as [Hcr _]. apply bind_Ok in Hc as (? & _ & Hc).
    apply bind_Ok in Hc as (? & _ & Hc). apply bind_Ok in Hc as (? & _ & [= <-]). by exists creator.
Qed.

(** The webhooks for a message of the user about an own memo are the user's. *)
Lemma webhook_owner msg activity creator e :
  users_kept db → users db !! userID = Some creator → mg_creator msg = BuildUserName (us_username creator) →
  e ∈ webhook_events db msg activity → e = Webhook activity userID msg.
Proof.
  intros Hk Hu Hm. unfold webhook_events. rewrite Hm.
  destruct (parseUsernameFromName _) as [username|] eqn:Hp; [|by intros ?%elem_of_nil].
  unfold parseUsernameFromName in Hp. apply bind_Ok in Hp as (t & Ht & Hp).
  apply extract1_Ok in Ht as [E _]; [|by exists "users"]. apply (inj (String.append UserNamePrefix)) in E. subst t.
  destruct (String.eqb _ ""); [done|]. injection Hp as <-.
  destruct (users_named (us_username creator) db) as [|[u row] l] eqn:Hl; cbn; [by intros ?%elem_of_nil|].
  intros ->%list_elem_of_singleton. f_equal.
  assert ((u, row) ∈ users_named (us_username creator) db) as Hin by (rewrite Hl; by left).
  unfold users_named in Hin. apply elem_of_map_to_list, map_lookup_filter_Some in Hin as [Hrow Hn].
  by eapply (wk_username _ Hk).
Qed.

(** The targets of a mention entry. *)
Lemma mention_event memo related previous e :
  users_kept db → e ∈ mention_events db memo related previous →
  ∃ r user data, e = MentionInbox (mm_creator memo.2) r memo.1 (fst <$> related) ∧ r ≠ mm_creator memo.2 ∧
    users db !! r = Some user ∧ active_user db r ∧
    ExtractAll (mm_content memo.2) = Ok data ∧ us_username user ∈ ex_mentions data ∧
    reads db anonymous r memo.1 memo.2 ∧ (∀ c, related = Some c → reads db anonymous r c.1 c.2) ∧
    (∀ targets, resolveMentionTargets db previous = Ok targets → targets !! r = None).
Proof.
  intros Hk. unfold mention_events. destruct (resolveMentionTargets db (mm_content memo.2)) as [current|] eqn:Hcur;
    [|by intros ?%elem_of_nil].
  destruct (resolveMentionTargets db previous) as [prev|] eqn:Hprev; [|by intros ?%elem_of_nil].
  intros ([r user] & -> & ([Hnew Hskip] & Hin%elem_of_map_to_list)%list_elem_of_filter)%list_elem_of_fmap.
  unfold resolveMentionTargets in Hcur. destruct (String.eqb _ ""); [by injection Hcur as <-|].
  apply bind_Ok in Hcur as (data & Hdata%wrap_err_Ok & Hcur). case_bool_decide; [by injection Hcur as <-|].
  injection Hcur as <-. apply map_lookup_filter_Some in Hin as [Hu [Hm Hst]]. cbn in *.
  unfold shouldSkipMentionInbox, canUserAccessMentionMemos in Hskip. cbn in Hskip.
  apply orb_false_iff in Hskip as [[Hskip _]%orb_false_iff Hacc%negb_false_iff].
  apply andb_true_iff in Hacc as [Hacc1 Hacc2]. apply Z.eqb_neq in Hskip.
  exists r, user, data. split_and!; try done.
  - unfold active_user, user_status. rewrite Hu. cbn. by rewrite Hst.
  - destruct memo. by eapply target_reads_reads.
  - intros [c crow] ->. by eapply target_reads_reads.
  - by intros ? [= <-].
Qed.
End messages.

(** ** Updates *)

Lemma updated_state_facts db userID id updated context msg :
  buildUpdatedMemoState anonymous db userID id = Ok (updated, context, msg) →
  st_id updated = id ∧ memos db !! id = Some (st_row updated) ∧
  (∀ c, context = Some c → memos db !! st_id c = Some (st_row c)) ∧
  (reads db anonymous userID id (st_row updated) →
     disclosed anonymous db userID msg ∧
     ∃ creator, users db !! mm_creator (st_row updated) = Some creator ∧
       mg_creator msg = BuildUserName (us_username creator)).
Proof.
  unfold buildUpdatedMemoState. intros (found & Hf%wrap_err_Ok & Hb)%bind_Ok. destruct found as [m|]; [|done].
  apply bind_Ok in Hb as (ats & Hats%wrap_err_Ok & (rels & Hrels%wrap_err_Ok & Hb)%bind_Ok).
  apply bind_Ok in Hb as (msg' & Hmsg%wrap_err_Ok & (ctx & Hctx & [= -> -> ->])%bind_Ok).
  destruct (GetMemo_id _ _ _ Hf) as [(Hrow & _ & _ & Hp) <-]. split_and!; [done|done|..].
  - intros c ->. destruct (st_parent_uid updated); [|done]. apply wrap_err_Ok in Hctx.
    by destruct (GetMemo_uid _ _ _ Hctx) as ((? & _) & _).
  - intros Hr. eapply message_disclosed; try done; [congruence|by right|].
    intros g. by eapply loaded_relations.
Qed.

Lemma own_write_reads db db' userID id u :
  users_kept db → own_write db db' userID id u →
  ∃ row, memos db' !! id = Some row ∧ mm_creator row = userID ∧ reads db' anonymous userID id row.
Proof.
  intros Hk [Hact (m & _ & _ & Hm & Hw) Ht _]. eexists. rewrite Hm, lookup_insert_eq. split; [done|].
  split; [apply Hw|]. apply well_placed_reads; [| |done].
  - eapply users_kept_same; [apply Ht|done].
  - unfold active_user, user_status. by rewrite (proj1 Ht).
Qed.

Section told.
Context (db0 : DB) (log0 : list Event) (userID : Z).
Context (Hkept : users_kept db0) (Hfresh : ∀ id row, memos db0 !! id = Some row → (id < next_memo db0)%Z).

(** The log has grown by events told to nobody they are not for. *)
Definition told (w : World) : Prop :=
  ∃ es, w_log w = log0 ++ es ∧ Forall (event_ok db0 (w_db w) userID) es.

Lemma told_start db : told (mkWorld db log0).
Proof. exists []. by rewrite app_nil_r. Qed.

Lemma told_more db log es :
  told (mkWorld db log) → Forall (event_ok db0 db userID) es → told (mkWorld db (log ++ es)).
Proof.
  intros (es0 & E & Hes) Hf. exists (es0 ++ es). cbn in *. rewrite E, app_assoc. split; [done|].
  by apply Forall_app.
Qed.

Lemma told_changed db log : told (mkWorld db log) → told (mkWorld db (log ++ [MemoChanged])).
Proof. intros Ht. apply told_more; [done|]. by constructor. Qed.

(** Sending out what a read computes. *)
Lemma after_emits {A} (f : DB → list Event) (k : Handler A) (K : A → World → Prop) db log :
  told (mkWorld db log) → Forall (event_ok db0 db userID) (f db) →
  (told (mkWorld db (log ++ f db)) → after k told K (mkWorld db (log ++ f db))) →
  after (es ← ask (λ db, Ok (f db)); _ ← emit_all es; k) told K (mkWorld db log).
Proof.
  intros Ht Hf Hk. do 2 handler_step; [done|]. injection E as <-. do 2 handler_step. apply Hk. by apply told_more.
Qed.

(** The webhooks of an own memo, other than at its deletion. *)
Lemma hooks_ok db msg activity creator :
  users db = users db0 → users db0 !! userID = Some creator →
  mg_creator msg = BuildUserName (us_username creator) → disclosed anonymous db userID msg →
  activity ≠ "memos.memo.deleted" → Forall (event_ok db0 db userID) (webhook_events db msg activity).
Proof.
  intros Eu Hu Hm Hd Hne. apply Forall_forall. intros e He.
  assert (e = Webhook activity userID msg) as ->.
  { eapply webhook_owner; [|by rewrite Eu|exact Hm|exact He]. by eapply users_kept_same. }
  cbn. destruct (String.eqb_spec activity "memos.memo.deleted"); [done|]. auto.
Qed.

Lemma mentions_ok db memo related previous :
  users db = users db0 → memos db !! memo.1 = Some memo.2 → mm_creator memo.2 = userID →
  (∀ c, related = Some c → memos db !! c.1 = Some c.2) →
  (∀ row, memos db0 !! memo.1 = Some row → mm_content row = previous) →
  Forall (event_ok db0 db userID) (mention_events db memo related previous).
Proof.
  intros Eu Hm Hc Hrel Hprev. apply Forall_forall. intros e He.
  apply mention_event in He as (r & user & data & -> & Hne & Hu & Hact & Hdata & Hin & Hr & Hrr & Hnew);
    [|by eapply users_kept_same].
  rewrite Hc in *. cbn. split_and!; try done.
  - split; [done|]. by exists memo.2.
  - destruct related as [c|]; [|done]. intros ? [= <-]. split; [done|]. exists c.2. auto.
  - by exists memo.2, user, data.
  - intros row targets Hrow%Hprev. rewrite Hrow. apply Hnew.
Qed.

(** The message about an updated memo goes to its author. *)
Lemma tell_updated db log id u updated context msg :
  own_write db0 db userID id u → told (mkWorld db log) →
  buildUpdatedMemoState anonymous db userID id = Ok (updated, context, msg) →
  after (dispatchMemoUpdatedSideEffects msg) told (λ _, told) (mkWorld db log).
Proof.
  intros How Ht Hb. apply updated_state_facts in Hb as (Eid & Hrow & _ & Hmsg).
  destruct (own_write_reads _ _ _ _ _ Hkept How) as (row & Hrow' & Hcr & Hr).
  rewrite Hrow in Hrow'. injection Hrow' as Hrow'. rewrite Hrow' in *.
  destruct (Hmsg Hr) as (Hd & creator & Hu & Hn). rewrite Hcr in Hu.
  pose proof (proj1 (ow_tables _ _ _ _ _ How)) as Eu. rewrite Eu in Hu.
  unfold dispatchMemoUpdatedSideEffects. do 2 handler_step; [done|]. injection E as <-.
  do 3 handler_step. cbn. apply told_changed, told_more; [done|]. by eapply hooks_ok.
Qed.

Lemma cleaned_ok db es : Forall (cleaned db0 db) es → Forall (event_ok db0 db userID) es.
Proof. intros Hes. eapply Forall_impl; [exact Hes|]. by intros e (removed & -> & Hr). Qed.

Local Abbreviation start := (mkWorld db0 log0).

Lemma UpdateMemo_told m mask : after (UpdateMemo anonymous now userID m mask) told (λ _, told) start.
Proof.
  destruct m as [input|]; [|apply told_start].
  eapply after_UpdateMemo; [apply told_start|]. intros memo d db' es Hw Hes w1.
  assert (told w1) as Hw1 by (apply told_more; [apply told_start | by apply cleaned_ok]). split; [done|].
  intros [[updated context] msg] Hst. cbn. do 2 handler_step; [done|]. injection E as <-. do 2 handler_step.
  handler_step. eapply after_mono.
  - eapply tell_updated; [apply (uw_write _ _ _ _ _ _ _ _ Hw)| |exact Hst].
    apply told_more; [done|]. destruct (df_content_updated d); [|constructor].
    destruct (updated_state_facts _ _ _ _ _ _ Hst) as (Eid & Hrow & Hctx & _).
    destruct Hw as [(Hm & _) _ Hau _ _ How _ _].
    destruct (own_write_reads _ _ _ _ _ Hkept How) as (row & Hrow' & Hcr & _).
    rewrite Hrow in Hrow'. injection Hrow' as <-.
    apply mentions_ok; cbn; rewrite ?Eid; try done.
    + apply (ow_tables _ _ _ _ _ How).
    + intros c. destruct context as [c'|]; [|done]. intros [= <-]. by apply Hctx.
    + intros row' Hr. cbn in Hm. rewrite Hm in Hr. by injection Hr as <-.
  - intros [] w' Ht. by handler_step.
Qed.
Lemma SetMemoAttachments_told name names :
  after (SetMemoAttachments anonymous now userID name names) told (λ _, told) start.
Proof.
  pose proof (told_start db0) as Ht. unfold SetMemoAttachments, own_memo. handler.
  apply after_applyMemoMutation; [done|done|done|]. intros db' removed w' -> _ How He ->.
  apply own_write_policy in How.
  assert (told (mkWorld db' (log0 ++ [StorageCleanup ((λ a, (sa_id a, sa_row a)) <$> pa_removed a1)]))) as Hw.
  { apply told_more; [apply told_start|]. apply cleaned_ok. constructor; [|constructor].
    eapply mutation_cleaned; [exact He|done|]. intros x. by eapply prepared_removed. }
  split; [done|]. do 3 handler_step; [done|]. destruct a3 as [[updated context] msg].
  apply status_error_Ok in E3. eapply tell_updated; [exact How|exact Hw|exact E3].
Qed.

Lemma SetMemoRelations_told name inputs :
  after (SetMemoRelations anonymous now userID name inputs) told (λ _, told) start.
Proof.
  pose proof (told_start db0) as Ht. unfold SetMemoRelations, own_memo. handler.
  apply after_applyMemoMutation; [done|done|done|]. intros db' removed w' -> _ How He ->.
  apply own_write_policy in How.
  assert (told (mkWorld db' (log0 ++ [StorageCleanup []]))) as Hw.
  { apply told_more; [apply told_start|]. apply cleaned_ok. constructor; [|constructor].
    eapply (mutation_cleaned _ _ _ _ _ _ []); [exact He|done|]. by intros x ?%elem_of_nil. }
  split; [done|]. do 3 handler_step; [done|]. destruct a2 as [[updated context] msg].
  apply status_error_Ok in E2. eapply tell_updated; [exact How|exact Hw|exact E2].
Qed.
(** *** Creation *)

(** A memo just created: where it is, and who may read it. *)
Record just_created (db : DB) (m : StoredMemo) (row : Memo) : Prop := {
  jc_id : st_id m = next_memo db0;
  jc_row : st_row m = row;
  jc_parent : st_parent_uid m = None;
  jc_memos : memos db = <[next_memo db0 := row]> (memos db0);
  jc_active : active_user db0 userID;
  jc_placed : well_placed db userID row;
  jc_tables : same_other_tables db0 db }.

Lemma after_create prepared context operation (K : Z → World → Prop) :
  (∀ db, just_created db (created_memo now prepared (next_memo db0)) (MemoDriver.memo_row now (pc_memo prepared)) →
     K (next_memo db0) (mkWorld db log0)) →
  after (createMemoWithMutation now userID prepared context operation) told K start.
Proof.
  intros HK. unfold createMemoWithMutation. destruct (Z.eqb_spec (mm_creator (pc_memo prepared)) userID) as [E|];
    [|apply told_start]. cbn [negb].
  apply after_transact; [apply told_start|]. intros id db Ha.
  lazymatch type of Ha with MemoMutation.ApplyMemoMutation _ ?mu _ = _ =>
    destruct (mutation_created now mu (pc_memo prepared) _ _ _ eq_refl Ha) as (-> & Hact & Hm & Hw & Ht & _)
  end.
  rewrite E in *. by apply HK.
Qed.

Section created.
Context (db : DB) (m : StoredMemo) (row : Memo) (Hnew : just_created db m row).

Lemma created_row : memos db !! st_id m = Some (st_row m).
Proof. by rewrite (jc_memos _ _ _ Hnew), (jc_id _ _ _ Hnew), (jc_row _ _ _ Hnew), lookup_insert_eq. Qed.

Lemma created_others id r : memos db0 !! id = Some r → memos db !! id = Some r.
Proof.
  intros Hr. rewrite (jc_memos _ _ _ Hnew), lookup_insert_ne; [done|]. apply Hfresh in Hr. lia.
Qed.

Lemma created_users : users db = users db0 ∧ users_kept db.
Proof. pose proof (proj1 (jc_tables _ _ _ Hnew)) as E. split; [done|]. by eapply users_kept_same. Qed.

Lemma created_reads : reads db anonymous userID (st_id m) (st_row m) ∧ mm_creator (st_row m) = userID.
Proof.
  destruct created_users as [E Hk]. rewrite (jc_row _ _ _ Hnew). split; [|apply (jc_placed _ _ _ Hnew)].
  apply well_placed_reads; [done| |apply (jc_placed _ _ _ Hnew)].
  unfold active_user, user_status. rewrite E. apply (jc_active _ _ _ Hnew).
Qed.

Lemma created_message_Ok f1 f2 f3 msg :
  created_message anonymous db userID m f1 f2 f3 = Ok msg →
  disclosed anonymous db userID msg ∧
  ∃ creator, users db0 !! userID = Some creator ∧ mg_creator msg = BuildUserName (us_username creator).
Proof.
  unfold created_message. intros (ats & Hats%status_error_Ok & (rels & Hrels%status_error_Ok & Hc%status_error_Ok)%bind_Ok)%bind_Ok.
  destruct created_reads as [Hr Hcr], created_users as [Eu _]. rewrite <- Eu, <- Hcr.
  eapply message_disclosed; [exact created_row| |by rewrite Hcr|by left|exact Hats| |rewrite Hcr; exact Hc].
  - by rewrite (jc_parent _ _ _ Hnew).
  - rewrite Hcr. intros g. eapply loaded_relations; [|exact Hrels]. split; [exact created_row | exact Hr].
Qed.

Lemma created_mentions related :
  (∀ c, related = Some c → memos db0 !! c.1 = Some c.2) →
  Forall (event_ok db0 db userID) (mention_events db (stored_pair m) related "").
Proof.
  intros Hrel. apply mentions_ok; cbn.
  - apply created_users.
  - exact created_row.
  - apply created_reads.
  - intros c Hc. by apply created_others, Hrel.
  - intros r Hr%Hfresh. rewrite (jc_id _ _ _ Hnew) in Hr. lia.
Qed.
End created.

Lemma CreateMemo_told memo_id memo : after (CreateMemo anonymous now new_uid userID memo_id memo) told (λ _, told) start.
Proof.
  pose proof (told_start db0) as Ht. unfold CreateMemo, checked_uid. handler. apply current_user_Ok in E as (Eu & _). rewrite Eu in *.
  apply after_create. intros db Hnew. do 2 handler_step; [apply told_start|].
  destruct (created_message_Ok _ _ _ Hnew _ _ _ _ E) as (Hd & creator & Hu & Hn).
  apply after_emits; [apply told_start| |intros Hw].
  { eapply hooks_ok; [|exact Hu|exact Hn|exact Hd|done]. by eapply created_users. }
  do 2 handler_step. apply after_emits; [by apply told_changed|by eapply created_mentions|]. intros Hw'. by handler_step.
Qed.

Lemma comment_inbox_ok db m row related :
  just_created db m row → memos db0 !! st_id related = Some (st_row related) →
  Forall (event_ok db0 db userID) (comment_inbox db userID m related).
Proof.
  intros Hnew Hrel. pose proof (created_others _ _ _ Hnew _ _ Hrel) as Hrel'. destruct (created_users _ _ _ Hnew) as [_ Hk].
  unfold comment_inbox. destruct (users db !! mm_creator (st_row related)) as [receiver|] eqn:Hu; [|constructor].
  destruct (Z.eqb_spec userID (mm_creator (st_row related))); [constructor|]. cbn [negb andb].
  destruct (canUserAccessMentionMemos _ _ _ _) eqn:Hc; [|constructor]. constructor; [|constructor].
  unfold canUserAccessMentionMemos in Hc. apply andb_true_iff in Hc as [Hc1 Hc2].
  pose proof (created_row _ _ _ Hnew) as Hrow. pose proof (target_active _ _ _ _ _ Hc1) as Hs.
  assert (active_user db (mm_creator (st_row related))) as Hact.
  { unfold active_user, user_status. rewrite Hu. cbn. by rewrite Hs. }
  cbn. split_and!; try done.
  - split; [done|]. eexists. split; [exact Hrow|]. by eapply target_reads_reads.
  - split; [done|]. eexists. split; [exact Hrel'|]. by eapply target_reads_reads.
  - by eexists.
Qed.

Lemma comment_webhook_ok db m row related :
  just_created db m row → Forall (event_ok db0 db userID) (comment_webhook anonymous db m related).
Proof.
  intros Hnew. destruct (created_users _ _ _ Hnew) as [_ Hk]. pose proof (created_row _ _ _ Hnew) as Hrow.
  unfold comment_webhook. destruct (users db !! mm_creator (st_row related)) as [receiver|] eqn:Hu; [|constructor].
  destruct (String.eqb_spec (us_row_status receiver) Normal) as [Hs|]; [|constructor]. cbn [negb].
  destruct (target_reads _ _ (st_id m, st_row m)) eqn:Hr; [|constructor].
  destruct (target_reads _ _ (st_id related, st_row related)); [|constructor].
  cbn [andb negb]. apply (target_reads_reads _ anonymous) in Hr; [|done..].
  destruct (_ ← ListAttachments db _; _) as [msg|] eqn:Hmsg; [|constructor].
  apply bind_Ok in Hmsg as (ats & Hats & (rels & Hrels & Hmsg)%bind_Ok).
  constructor; [|constructor]. cbn. split; [|by right].
  eapply message_disclosed; [exact Hrow| |exact Hr|by right|exact Hats| |exact Hmsg].
  - by rewrite (jc_parent _ _ _ Hnew).
  - intros g. eapply loaded_relations; [|exact Hrels]. by split.
Qed.

Lemma CreateMemoComment_told name comment_id comment :
  after (CreateMemoComment anonymous now new_uid userID name comment_id comment) told (λ _, told) start.
Proof.
  pose proof (told_start db0) as Ht. unfold CreateMemoComment, checked_uid. handler.
  apply memo_by_name_Ok in E as [(Hrel & _) _]. apply current_user_Ok in E0 as (Eu & _). rewrite Eu in *.
  apply after_create. intros db Hnew. do 2 handler_step; [apply told_start|].
  apply after_emits; [apply told_start|by eapply comment_inbox_ok|intros Hw].
  apply after_emits; [done|by eapply comment_webhook_ok|intros Hw1].
  apply after_emits; [done| |intros Hw2].
  - eapply created_mentions; [done|]. by intros c [= <-].
  - do 2 handler_step. handler_step. by apply told_changed.
Qed.

(** *** Deletion, shares and reactions *)

Lemma deleted_message_Ok m msg :
  memos db0 !! st_id m = Some (st_row m) →
  (∀ uid, st_parent_uid m = Some uid → parent_uid db0 (st_id m) = Some uid) →
  deleted_message anonymous db0 userID m = Ok (Some msg) →
  disclosed anonymous db0 userID msg ∧
  ∃ creator, users db0 !! mm_creator (st_row m) = Some creator ∧ mg_creator msg = BuildUserName (us_username creator).
Proof.
  intros Hrow Hp. unfold deleted_message.
  destruct (checkMemoReadAccess db0 anonymous userID (stored_pair m)) as [[]|] eqn:Hr; [|done]. cbn [is_ok].
  intros (ats & Hats%status_error_Ok & [= Hc])%bind_Ok.
  destruct (convertMemoFromStore _ _ _ _ _ _ _) as [msg'|] eqn:Hmsg; [|done]. injection Hc as ->.
  eapply message_disclosed; [exact Hrow|exact Hp|exact Hr|by right|exact Hats| |exact Hmsg].
  intros g. destruct (loadMemoRelations _ _ _ _) as [rels|] eqn:Hrels; [|by intros ?%elem_of_nil].
  by eapply loaded_relations.
Qed.

(** What a deletion leaves: users as they were, and the attachments it answers gone. *)
Lemma DeleteMemo_Ok id actor can removed db :
  MemoStore.DeleteMemoWithPolicy id actor db0 = Ok (can, removed, db) →
  users db = users db0 ∧ cleaned db0 db (StorageCleanup removed).
Proof.
  unfold MemoStore.DeleteMemoWithPolicy, MemoDriver.DeleteMemoWithPolicy. intros Hd.
  tx_step Hd; [discriminate Hd|]. tx_step Hd. tx_step Hd. tx_step Hd. tx_step Hd; [|discriminate Hd].
  tx_step Hd. tx_step Hd. apply se_bind_Ok in Hd as (ats & s & Hs & Hd). rewrite deleteMemoSetTx_Ok in Hs.
  injection Hs as <- <-. tx Hd. split; [done|]. eexists. split; [done|].
  apply Forall_forall. intros [k a] Hin. unfold Driver.memo_attachments in Hin.
  apply elem_of_map_to_list, map_lookup_filter_Some in Hin as [Ha Hb]. cbn in *. split; [done|].
  apply map_lookup_filter_None. right. intros a' Ha'. rewrite Ha in Ha'. injection Ha' as <-. cbn. congruence.
Qed.

Lemma DeleteMemo_told name : after (DeleteMemo anonymous userID name) told (λ _, told) start.
Proof.
  pose proof (told_start db0) as Ht. unfold DeleteMemo. do 10 (handler_step; try done).
  apply memo_by_name_Ok in E as [(Hrow & _ & _ & Hp) _]. apply current_user_Ok in E0 as (Eu & _).
  rewrite Eu in *. apply Z.eqb_eq in G. cbn [w_db] in *.
  handler_step. apply after_transact; [done|]. intros [can removed] db Hd.
  destruct (DeleteMemo_Ok _ _ _ _ _ Hd) as [Edb Hclean]. cbv beta iota. do 2 handler_step. cbn [w_db w_log].
  apply after_emits; [apply told_changed, told_start| |intros Hw].
  - destruct a1 as [msg|]; [|constructor]. destruct can; [|constructor].
    destruct (deleted_message_Ok a msg Hrow ltac:(congruence) E1) as (Hmsg & creator & Hu & Hn). rewrite G in Hu.
    apply Forall_forall. intros e He.
    assert (e = Webhook "memos.memo.deleted" userID msg) as ->.
    { eapply webhook_owner; [|by rewrite Edb|exact Hn|exact He]. by eapply users_kept_same. }
    split; [exact Hmsg | by left].
  - unfold cleanupDeletedAttachmentStorage.
    assert (told (mkWorld db (((log0 ++ [MemoChanged]) ++ (match a1 with
      | Some m => if can then webhook_events db m "memos.memo.deleted" else []
      | None => []
      end)) ++ [StorageCleanup removed]))) as Hw'.
    { apply told_more; [done|]. apply cleaned_ok. by constructor. }
    do 2 handler_step. handler_step; [exact Hw'|exact Hw'].
Qed.

Lemma after_write_only {A} (m : Tx A) f (K : A → World → Prop) :
  (∀ a db, told (mkWorld db log0) → K a (mkWorld db log0)) → after (transact m f) told K start.
Proof. intros HK. apply after_transact; [apply told_start|]. intros a db _. apply HK, told_start. Qed.

Lemma other_told q :
  match q with WShare _ _ | WUnshare _ | WReact _ _ | WUnreact _ => True | _ => False end →
  after (handle userID q) told (λ _, told) start.
Proof.
  pose proof (told_start db0) as Ht.
  destruct q as [| | | | | |parent t|name|name r|name]; [done..|intros _|intros _|intros _|intros _]; cbn [handle]; unfold ignore.
  - unfold CreateMemoShare. handler. apply after_write_only. intros id db Hw. by handler.
  - unfold DeleteMemoShare. handler. by apply after_write_only.
  - unfold UpsertMemoReaction. handler. apply after_write_only. intros id db Hw. handler. by apply told_changed.
  - unfold DeleteMemoReaction. handler. apply after_write_only. intros [] db Hw. handler. by apply told_changed.
Qed.

Lemma handle_told q : after (handle userID q) told (λ _, told) start.
Proof.
  assert (∀ A (m : Handler A), after m told (λ _, told) start → after (ignore m) told (λ _, told) start) as Hi.
  { intros A m Hm. by apply after_bind. }
  destruct q; try by apply other_told.
  - apply Hi, CreateMemo_told.
  - apply Hi, CreateMemoComment_told.
  - apply Hi, UpdateMemo_told.
  - apply DeleteMemo_told.
  - apply SetMemoAttachments_told.
  - apply SetMemoRelations_told.
Qed.
End told.

(** C4. No write tells anyone of a memo who may not read it.  Whatever a request
    that creates, comments on, changes, shares, deletes or reacts to a memo sends
    out, on success and on every failure after the write: a webhook goes to the
    author of the memo, or of the memo commented on, and its message discloses only
    what its receiver may see; an inbox entry about a comment or a mention goes to
    an active user other than the sender who may read both the memo and the memo
    it comments on, a mention only to a user the text names now and did not before;
    and files are removed only of attachments that are gone. *)
Theorem writes_tell_only_readers userID q w :
  users_kept (w_db w) → (∀ id row, memos (w_db w) !! id = Some row → (id < next_memo (w_db w))%Z) →
  ∃ es, w_log (handle userID q w).2 = w_log w ++ es ∧
    Forall (event_ok (w_db w) (w_db (handle userID q w).2) userID) es.
Proof.
  intros Hk Hf. destruct w as [db0 log0]. apply (after_run (told db0 log0 userID)). by apply handle_told.
Qed.
End safety.

(** Bob comments on Ada's public memo, which tells Ada. *)
Definition comment_on_b : Write :=
  WComment "memos/b" "d" (Some (mkInput "" "@ada" PUBLIC None 0 false None None None [] [])).

Lemma writes_tell_only_readers_witness :
  ∃ es, w_log (handle false 50 "new" 2 comment_on_b (mkWorld conversation_db [])).2 = es ∧
    CommentInbox 2 1 4 2 ∈ es ∧ length es = 3 ∧
    Forall (event_ok false conversation_db
      (w_db (handle false 50 "new" 2 comment_on_b (mkWorld conversation_db [])).2) 2) es.
Proof.
  destruct (writes_tell_only_readers false 50 "new" 2 comment_on_b (mkWorld conversation_db [])) as (es & Hlog & Hes).
  - split.
    + intros u row. cbn. rewrite lookup_insert_Some, lookup_singleton_Some. lia.
    + intros u v row row'. cbn. rewrite !lookup_insert_Some, !lookup_singleton_Some. naive_solver.
  - intros id row. cbn. rewrite !lookup_insert_Some, lookup_singleton_Some. lia.
  - exists es. split; [exact Hlog|]. cbn [app w_log] in Hlog. split; [|split; [|exact Hes]]; rewrite <- Hlog.
    + assert (head (w_log (handle false 50 "new" 2 comment_on_b (mkWorld conversation_db [])).2) = Some (CommentInbox 2 1 4 2))
        as Hh by (vm_compute; reflexivity).
      destruct (w_log _); [discriminate Hh|]. injection Hh as ->. by left.
    + vm_compute. reflexivity.
Defined.
