(* ===== verification/GoNet.v ===== *)
(** * IP addresses

    What the program uses of Go's [net] and [net/netip]: addresses, their
    parsing, and prefixes in CIDR notation. *)
From S2P Require Import Prelude GoLib GoText.

(** [netip.Addr]: 32 bits, or 128 bits with a zone, empty for none. *)
Inductive Addr := V4 (v : Z) | V6 (v : Z) (zone : string).
#[export] Instance addr_eq_dec : EqDecision Addr.
Proof. solve_decision. Defined.

Module Netip.
#[local] Open Scope Z_scope.

Definition big_endian (l : list Z) : Z := fold_left (λ acc b, acc * 256 + b) l 0.

(** [AddrFromSlice]. *)
Definition AddrFromSlice (slice : list Z) : option Addr :=
  if Nat.eqb (length slice) 4 then Some (V4 (big_endian slice))
  else if Nat.eqb (length slice) 16 then Some (V6 (big_endian slice) "")
  else None.

Definition BitLen (a : Addr) : Z := match a with V4 _ => 32 | V6 _ _ => 128 end.
Definition Zone (a : Addr) : string := match a with V4 _ => "" | V6 _ z => z end.
Definition bits_of (a : Addr) : Z := match a with V4 v | V6 v _ => v end.
Definition Is4In6 (a : Addr) : bool :=
  match a with V6 v _ => Z.shiftr v 32 =? 65535 | V4 _ => false end.
Definition Unmap (a : Addr) : Addr :=
  match a with
  | V6 v _ => if Is4In6 a then V4 (Z.land v (2 ^ 32 - 1)) else a
  | V4 _ => a
  end.

(** [As16]. *)
Definition As16 (a : Addr) : list Z :=
  let v := match a with V4 v => Z.lor (Z.shiftl 65535 32) v | V6 v _ => v end in
  (λ i, Z.land (Z.shiftr v (8 * (15 - i))) 255) <$> seqZ 0 16.

(** [Prefix]; the number of bits is -1 if it was out of range. *)
Record Prefix := mkPrefix { px_addr : Addr; px_bits : Z }.

Definition PrefixFrom (a : Addr) (bits : Z) : Prefix :=
  let plain := match a with V6 v _ => V6 v "" | V4 _ => a end in
  mkPrefix plain (if (0 <=? bits) && (bits <=? BitLen a) then bits else -1).

Definition Contains (p : Prefix) (a : Addr) : bool :=
  if (px_bits p <? 0) || negb (String.eqb (Zone a) "") then false
  else if negb (BitLen (px_addr p) =? BitLen a) then false
  else Z.shiftr (Z.lxor (bits_of a) (bits_of (px_addr p))) (BitLen a - px_bits p) =? 0.

Definition Masked (p : Prefix) : Prefix :=
  if px_bits p <? 0 then p
  else
    let clear (v : Z) := let n := BitLen (px_addr p) - px_bits p in Z.shiftl (Z.shiftr v n) n in
    mkPrefix (match px_addr p with V4 v => V4 (clear v) | V6 v z => V6 (clear v) z end) (px_bits p).

(** ** Parsing *)

Definition digit_value (c : ascii) : option Z :=
  let b := byte_of c in if (48 <=? b) && (b <=? 57) then Some (b - 48) else None.
Definition hex_value (c : ascii) : option Z :=
  let b := byte_of c in
  if (48 <=? b) && (b <=? 57) then Some (b - 48)
  else if (97 <=? b) && (b <=? 102) then Some (b - 87)
  else if (65 <=? b) && (b <=? 70) then Some (b - 55)
  else None.

(** The loop of [parseIPv4Fields]: [digits] counts those of the current octet and
    [val] is its value; a dot needs a digit before it and characters behind. *)
Fixpoint ipv4_fields (s : string) (val digits : Z) (fields : list Z) : option (list Z) :=
  match s with
  | EmptyString => if Nat.eqb (length fields) 3 then Some (fields ++ [val]) else None
  | String c rest =>
      match digit_value c with
      | Some d =>
          if (digits =? 1) && (val =? 0) then None
          else
            let val := val * 10 + d in
            if 255 <? val then None else ipv4_fields rest val (digits + 1) fields
      | None =>
          if Ascii.eqb c "." then
            if (digits =? 0) || bool_decide (rest = "") then None
            else if Nat.eqb (length fields) 3 then None
            else ipv4_fields rest 0 0 (fields ++ [val])
          else None
      end
  end.
Definition parseIPv4Fields (s : string) : option (list Z) := ipv4_fields s 0 0 [].

(** The hex digits at the head of a group: their number, value and what follows. *)
Fixpoint hex_group (s : string) (off acc : Z) : option (Z * Z * string) :=
  match s with
  | String c rest =>
      match hex_value c with
      | Some d =>
          let acc := acc * 16 + d in
          if (3 <? off) || (65535 <? acc) then None else hex_group rest (off + 1) acc
      | None => Some (off, acc, s)
      end
  | EmptyString => Some (off, acc, s)
  end.

(** The loop of [parseIPv6]: [ip] are the bytes so far, [ellipsis] the place of
    the double colon; the result is these two at the end of the string. *)
Fixpoint ipv6_groups (fuel : nat) (s : string) (ip : list Z) (ellipsis : option nat)
  : option (list Z * option nat) :=
  match fuel with
  | O => None
  | S fuel =>
      if (16 <=? length ip)%nat then None (* trailing garbage *)
      else
        '(off, acc, rest) ← hex_group s 0 0;
        if off =? 0 then None
        else
          match rest with
          | String "." _ =>
              if (bool_decide (ellipsis = None) && negb (Nat.eqb (length ip) 12)) || (12 <? length ip)%nat then None
              else
                fields ← parseIPv4Fields s;
                Some (ip ++ fields, ellipsis)
          | EmptyString => Some (ip ++ [acc / 256; acc mod 256], ellipsis)
          | String ":" (String c rest' as rest) =>
              let ip := ip ++ [acc / 256; acc mod 256] in
              if Ascii.eqb c ":" then
                if bool_decide (ellipsis = None) then
                  if bool_decide (rest' = "") then Some (ip, Some (length ip))
                  else ipv6_groups fuel rest' ip (Some (length ip))
                else None
              else ipv6_groups fuel rest ip ellipsis
          | _ => None
          end
  end.

(** The string without its zone, and the zone; [None] for an empty one. *)
Definition split_zone (s : string) : option (string * string) :=
  if Str.contains_byte "%" s then
    let '(s, zone) := Text.cut "%" s in
    if String.eqb zone "" then None else Some (s, zone)
  else Some (s, "").

Definition parseIPv6 (input : string) : option Addr :=
  '(s, zone) ← split_zone input;
  let '(s, ellipsis) := match s with
                        | String ":" (String ":" s) => (s, Some 0%nat)
                        | _ => (s, None)
                        end in
  if bool_decide (ellipsis = Some 0%nat) && bool_decide (s = "") then Some (V6 0 zone)
  else
    '(ip, ellipsis) ← ipv6_groups 9 s [] ellipsis;
    if (length ip <? 16)%nat then
      at_ ← ellipsis;
      Some (V6 (big_endian (take at_ ip ++ replicate (16 - length ip) 0 ++ drop at_ ip)) zone)
    else if bool_decide (ellipsis = None) then Some (V6 (big_endian ip) zone)
    else None.

(** [ParseAddr]: the first dot, colon or percent sign decides. *)
Fixpoint address_kind (s : string) : option ascii :=
  match s with
  | EmptyString => None
  | String c s =>
      if Ascii.eqb c "." || Ascii.eqb c ":" || Ascii.eqb c "%" then Some c else address_kind s
  end.
Definition ParseAddr (s : string) : option Addr :=
  c ← address_kind s;
  if Ascii.eqb c "." then fields ← parseIPv4Fields s; Some (V4 (big_endian fields))
  else if Ascii.eqb c ":" then parseIPv6 s
  else None.

(** The part before the last slash, and the part behind it. *)
Fixpoint split_last_slash (s : string) : option (string * string) :=
  match s with
  | EmptyString => None
  | String c s =>
      match split_last_slash s with
      | Some (a, b) => Some (String c a, b)
      | None => if Ascii.eqb c "/" then Some (EmptyString, s) else None
      end
  end.

Definition ParsePrefix (s : string) : option Prefix :=
  '(addr, bitsStr) ← split_last_slash s;
  ip ← ParseAddr addr;
  if negb (String.eqb (Zone ip) "") then None
  else
    let plain := match bitsStr with
                 | String c (String _ _) => let b := byte_of c in (49 <=? b) && (b <=? 57)
                 | _ => true
                 end in
    if negb plain then None
    else
      bits ← Strconv.atoi bitsStr;
      if (bits <? 0) || (BitLen ip <? bits) then None else Some (PrefixFrom ip bits).
End Netip.

(** [net.ParseIP]: sixteen bytes, none for an address with a zone. *)
Definition ParseIP (s : string) : option (list Z) :=
  a ← Netip.ParseAddr s;
  if String.eqb (Netip.Zone a) "" then Some (Netip.As16 a) else None.

Example parse_mapped : Netip.ParseAddr "::ffff:10.0.0.1" = Some (V6 (65535 * 2 ^ 32 + 10 * 2 ^ 24 + 1) "").
Proof. reflexivity. Qed.
Example parse_full : Netip.ParseAddr "2001:db8::8:800:200c:417a" = Some (V6 0x20010db80000000000080800200c417a "").
Proof. reflexivity. Qed.
Example parse_link : ParseIP "fe80::1%eth0" = None ∧ Netip.ParseAddr "fe80::1%eth0" = Some (V6 (0xfe80 * 2 ^ 112 + 1) "eth0").
Proof. done. Qed.
Example parse_cidr : Netip.ParsePrefix "172.16.0.0/12" = Some (Netip.mkPrefix (V4 0xac100000) 12).
Proof. reflexivity. Qed.
Example parse_bad : Netip.ParseAddr "1:2:3:4:5:6:7:8:9" = None ∧ Netip.ParseAddr "1::2::3" = None ∧
  Netip.ParseAddr "01.2.3.4" = None ∧ Netip.ParseAddr "1.2.3" = None ∧ Netip.ParseAddr "1:2:3:4:5:6:7::8" = None ∧
  Netip.ParseAddr "1:2:3:4:5:6:7::" = Some (V6 0x00010002000300040005000600070000 "") ∧ Netip.ParseAddr "::" = Some (V6 0 "").
Proof. done. Qed.
