(* ===== verification/Webhook.v ===== *)
(** * Outgoing webhooks

    [internal/webhook]: which destinations a webhook may reach ([validate.go]),
    when they are checked again at the time of the connection, the signing secret,
    and the request itself ([webhook.go]).  The resolver, the connections and the
    HTTP exchange are arguments, and so is the parsing of a URL by [net/url]. *)
From S2P Require Import Prelude GoLib GoText GoNet Sha256 MemoAccess AuthService Paging.

(** ** Reserved networks *)

(** [netip.MustParsePrefix], on literals that parse. *)
Definition MustParsePrefix (s : string) : Netip.Prefix := default (Netip.mkPrefix (V4 0) (-1)) (Netip.ParsePrefix s).

Definition reservedNetworks : list Netip.Prefix := MustParsePrefix <$> [
  "127.0.0.0/8"; "10.0.0.0/8"; "172.16.0.0/12"; "192.168.0.0/16"; "169.254.0.0/16";
  "::1/128"; "fc00::/7"; "fe80::/10"].

Definition isReservedIP (ip : list Z) : bool :=
  match Netip.AddrFromSlice ip with
  | Some addr => existsb (λ network, Netip.Contains network (Netip.Unmap addr)) reservedNetworks
  | None => false
  end.

(** ** The allowlist of the deployment *)

Record privateDestinationPolicy := mkDestinations { pd_hostnames : gset string; pd_prefixes : list Netip.Prefix }.

(** [AllowPrivateIPs] and [configuredPrivateDestinations]. *)
Record Destinations := mkState { AllowPrivateIPs : bool; configured : option privateDestinationPolicy }.

Definition normalizePrefix (prefix : Netip.Prefix) : result error Netip.Prefix :=
  let addr := Netip.px_addr prefix in
  let bits := Netip.px_bits prefix in
  if Netip.Is4In6 addr then
    if (bits <? 96)%Z then Err (errorf0 "IPv4-mapped IPv6 prefix must have at least 96 prefix bits")
    else Ok (Netip.Masked (Netip.PrefixFrom (Netip.Unmap addr) (bits - 96)))
  else Ok (Netip.Masked (Netip.PrefixFrom addr bits)).

(** An address the resolver answers, with its zone. *)
Abbreviation IPAddr := (list Z * string)%type.

Section hostnames.
Context `{Text.GoUnicode}.

(** [strings.TrimSuffix(s, ".")]. *)
Fixpoint trim_dot (s : string) : string :=
  match s with
  | EmptyString => EmptyString
  | String c rest => if Ascii.eqb c "." && String.eqb rest "" then EmptyString else String c (trim_dot rest)
  end.

(** The characters of a label; a hyphen is neither first nor last. *)
Fixpoint label_ok (first : bool) (label : string) : bool :=
  match label with
  | EmptyString => true
  | String c rest =>
      let b := byte_of c in
      (((97 <=? b) && (b <=? 122) || (48 <=? b) && (b <=? 57))%Z
       || Ascii.eqb c "-" && negb first && negb (String.eqb rest "")) && label_ok false rest
  end.

Fixpoint check_labels (labels : list string) : result error unit :=
  match labels with
  | [] => Ok tt
  | label :: labels =>
      if String.eqb label "" || (63 <? String.length label)%nat then
        Err (errorf0 "hostname labels must contain between 1 and 63 characters")
      else if negb (label_ok true label) then Err (errorf0 "hostname contains an invalid character")
      else check_labels labels
  end.

Definition normalizeHostname (hostname : string) : result error string :=
  let hostname := Text.ToLower (trim_dot hostname) in
  if String.eqb hostname "" || (253 <? String.length hostname)%nat then
    Err (errorf0 "hostname must contain between 1 and 253 characters")
  else _ ← check_labels (Str.split_on "." hostname); Ok hostname.

Definition invalid_entry (rawEntry : string) : error :=
  Errorf "webhook: invalid private destination allowlist entry %q" [rawEntry].

(** One entry of the allowlist. *)
Definition add_entry (policy : privateDestinationPolicy) (rawEntry : string) : result error privateDestinationPolicy :=
  let entry := Str.trim_space rawEntry in
  let add_prefix p := mkDestinations (pd_hostnames policy) (pd_prefixes policy ++ [p]) in
  if String.eqb entry "" then Err (errorf0 "webhook: private destination allowlist contains an empty entry")
  else
    match Netip.ParseAddr entry with
    | Some addr =>
        if negb (String.eqb (Netip.Zone addr) "") then Err (invalid_entry rawEntry)
        else let addr := Netip.Unmap addr in Ok (add_prefix (Netip.PrefixFrom addr (Netip.BitLen addr)))
    | None =>
        match Netip.ParsePrefix entry with
        | Some prefix =>
            match normalizePrefix prefix with
            | Ok normalized => Ok (add_prefix normalized)
            | Err e => Err (Wrap e "webhook: invalid private destination allowlist entry %q")
            end
        | None =>
            if Str.contains_byte "/" entry then Err (invalid_entry rawEntry)
            else
              hostname ← wrap_err "webhook: invalid private destination allowlist entry %q" (normalizeHostname entry);
              Ok (mkDestinations ({[ hostname ]} ∪ pd_hostnames policy) (pd_prefixes policy))
        end
    end.

Fixpoint add_entries (policy : privateDestinationPolicy) (entries : list string) : result error privateDestinationPolicy :=
  match entries with
  | [] => Ok policy
  | rawEntry :: entries => policy ← add_entry policy rawEntry; add_entries policy entries
  end.

(** The new policy is stored only when every entry is valid. *)
Definition ConfigurePrivateDestinationAllowlist (entries : list string) (st : Destinations)
  : result error unit * Destinations :=
  match add_entries (mkDestinations ∅ []) entries with
  | Ok policy => (Ok tt, mkState (AllowPrivateIPs st) (Some policy))
  | Err e => (Err e, st)
  end.

Definition isPrivateDestinationAllowed (st : Destinations) (hostname : string) (ip : list Z) : bool :=
  if AllowPrivateIPs st then true
  else
    match configured st with
    | None => false
    | Some policy =>
        if match normalizeHostname hostname with
           | Ok h => bool_decide (h ∈ pd_hostnames policy)
           | Err _ => false
           end then true
        else
          match Netip.AddrFromSlice ip with
          | Some addr => existsb (λ prefix, Netip.Contains prefix (Netip.Unmap addr)) (pd_prefixes policy)
          | None => false
          end
    end.

Definition isBlockedDestination (st : Destinations) (hostname : string) (ip : list Z) : bool :=
  isReservedIP ip && negb (isPrivateDestinationAllowed st hostname ip).

(** ** When a webhook is stored *)

(** [parse] is [url.ParseRequestURI] with the scheme and [Hostname] of its result;
    [lookup] is [net.LookupHost]. *)
Definition ValidateURL (st : Destinations) (parse : string → result error (string * string))
    (lookup : string → result error (list string)) (rawURL : string) : result error unit :=
  match parse rawURL with
  | Err _ => Err (status InvalidArgument "invalid webhook URL: %v")
  | Ok (scheme, hostname) =>
      if negb (String.eqb scheme "http") && negb (String.eqb scheme "https") then
        Err (status InvalidArgument "webhook URL must use http or https scheme, got %q")
      else
        match lookup hostname with
        | Err _ => Err (status InvalidArgument "webhook URL hostname could not be resolved: %v")
        | Ok ips =>
            if existsb (λ ipStr, match ParseIP ipStr with
                                 | Some ip => isBlockedDestination st hostname ip
                                 | None => false
                                 end) ips
            then Err (status InvalidArgument "webhook URL must not resolve to a reserved or private IP address")
            else Ok tt
        end
  end.

(** ** When it is sent *)

(** The addresses that may be dialled, or that one of them is blocked. *)
Fixpoint dialable (st : Destinations) (host : string) (ips : list IPAddr) : result error (list IPAddr) :=
  match ips with
  | [] => Ok []
  | ip :: ips =>
      match Netip.AddrFromSlice ip.1 with
      | None => dialable st host ips
      | Some _ =>
          if isBlockedDestination st host ip.1 then
            Err (errorf0 "webhook: connection to reserved/private IP address is not allowed")
          else validIPs ← dialable st host ips; Ok (ip :: validIPs)
      end
  end.

(** The addresses that were dialled, and whether the last one answered. *)
Fixpoint dial_first (dial : IPAddr → result error unit) (ips : list IPAddr) (dialErr : option error)
  : list IPAddr * result (option error) unit :=
  match ips with
  | [] => ([], Err dialErr)
  | ip :: ips =>
      match dial ip with
      | Ok _ => ([ip], Ok tt)
      | Err e => let '(dialled, r) := dial_first dial ips (Some e) in (ip :: dialled, r)
      end
  end.

(** [safeDialContext]; [split] is [net.SplitHostPort], [dial] connects to an
    address at that port. *)
Definition safeDialContext (st : Destinations) (split : string → option (string * string))
    (resolve : string → result error (list IPAddr)) (dial : string → IPAddr → result error unit) (addr : string)
  : list IPAddr * result error unit :=
  match split addr with
  | None => ([], Err (Errorf "webhook: invalid address %q" [addr]))
  | Some (host, port) =>
      match resolve host with
      | Err e => ([], Err (Wrap e "webhook: failed to resolve host %q"))
      | Ok ips =>
          match dialable st host ips with
          | Err e => ([], Err e)
          | Ok validIPs =>
              let '(dialled, r) := dial_first (dial port) validIPs None in
              (dialled, match r with
                        | Ok _ => Ok tt
                        | Err (Some e) => Err (Wrap e "webhook: failed to connect to host %q")
                        | Err None => Err (Errorf "webhook: host %q resolved to no IP addresses" [host])
                        end)
          end
      end
  end.
End hostnames.

(** ** Secrets *)

(** The rest after a prefix, as [strings.CutPrefix]. *)
Fixpoint CutPrefix (p s : string) : option string :=
  match p, s with
  | EmptyString, _ => Some s
  | String a p, String b s => if Ascii.eqb a b then CutPrefix p s else None
  | String _ _, EmptyString => None
  end.

Definition string_of (l : list ascii) : string := String.string_of_list_ascii l.

Definition resolveSigningKey (secret : string) : result error (list ascii) :=
  match CutPrefix "whsec_" secret with
  | Some rest =>
      match Base64.decode rest with
      | Some key => Ok key
      | None => Err (Wrap (errorf0 "illegal base64 data")
                       "signing secret has whsec_ prefix but is not valid base64")
      end
  | None => Ok (Str.to_list secret)
  end.

(** [buf] are the 32 random bytes, if they could be read. *)
Definition GenerateSigningSecret (buf : result error (list ascii)) : result error string :=
  buf ← wrap_err "failed to read random bytes for signing secret" buf;
  Ok ("whsec_" +:+ Base64.encode buf).

(** The runes of a secret: all bytes outside ASCII belong to runes above 0x7E. *)
Definition printable (c : ascii) : bool := (32 <=? byte_of c)%Z && (byte_of c <=? 126)%Z.
Definition ValidateSigningSecret (secret : string) : result error unit :=
  if String.eqb secret "" then Ok tt
  else if negb (forallb printable (Str.to_list secret)) then
    Err (status InvalidArgument "signing secret contains invalid character")
  else
    match resolveSigningKey secret with
    | Ok _ => Ok tt
    | Err _ => Err (status InvalidArgument "%v")
    end.

(** ** The request *)

Definition bytes_string (l : list Z) : string := string_of ((λ b, Ascii.ascii_of_N (Z.to_N b)) <$> l).

(** [crypto/hmac] with SHA-256: a key longer than a block is hashed first. *)
Definition hmac_key (key : list ascii) : list Z :=
  let key := if (64 <? length key)%nat then Sha256.Sum256 (string_of key) else (λ c, byte_of c) <$> key in
  key ++ replicate (64 - length key) 0%Z.
Definition hmac_sha256 (key : list ascii) (message : string) : list Z :=
  let k := hmac_key key in
  let inner := Sha256.Sum256 (bytes_string (Z.lxor 54 <$> k) +:+ message) in
  Sha256.Sum256 (bytes_string (Z.lxor 92 <$> k) +:+ bytes_string inner).

Record Payload := mkPayload { py_url : string; py_signing_secret : string }.

(** The headers of a signed request. *)
Definition signature_headers (key : list ascii) (uuid : string) (now : Z) (body : string) : list (string * string) :=
  let msgID := "msg_" +:+ uuid in
  let timestamp := itoa now in
  let mac := hmac_sha256 key (msgID +:+ "." +:+ timestamp +:+ "." +:+ body) in
  [("webhook-id", msgID); ("webhook-timestamp", timestamp);
   ("webhook-signature", "v1," +:+ Base64.encode ((λ b, Ascii.ascii_of_N (Z.to_N b)) <$> mac))].

(** [Post]: [body] is the JSON of the payload, [construct] whether a request to
    its URL can be built, [exchange] what the client makes of a request with these
    headers - a status and what could be read of the body -, [response] the code
    and message in the body. *)
Definition Post (body : result error string) (construct : result error unit)
    (exchange : list (string * string) → string → result error (Z * result error string))
    (response : string → result error (Z * string)) (uuid : string) (now : Z) (payload : Payload)
  : result error unit :=
  body ← wrap_err "failed to marshal webhook request to %s" body;
  _ ← wrap_err "failed to construct webhook request to %s" construct;
  signed ← (if String.eqb (py_signing_secret payload) "" then Ok []
            else
              key ← wrap_err "failed to derive signing key for webhook to %s" (resolveSigningKey (py_signing_secret payload));
              Ok (signature_headers key uuid now body));
  '(code, b) ← wrap_err "failed to post webhook to %s"
                 (exchange (("Content-Type", "application/json") :: signed) body);
  b ← wrap_err "failed to read webhook response from %s" b;
  if (code <? 200)%Z || (299 <? code)%Z then
    Err (Errorf "failed to post webhook %s, status code: %d" [py_url payload; itoa code])
  else
    '(code, message) ← wrap_err "failed to unmarshal webhook response from %s" (response b);
    if (code =? 0)%Z then Ok tt
    else Err (Errorf "receive error code sent by webhook server, code %d, msg: %s" [itoa code; message]).

(** [asyncPostQueue], of 128 places: a request that finds it full is dropped. *)
Definition asyncPostCapacity : nat := 128.
Definition PostAsync (queue : list Payload) (requestPayload : option Payload) : list Payload :=
  match requestPayload with
  | None => queue
  | Some p => if (length queue <? asyncPostCapacity)%nat then queue ++ [p] else queue
  end.

Example hmac_rfc4231 :
  Hex.EncodeToString (hmac_sha256 (replicate 20 "011"%char) "Hi There") =
  "b0344c61d8db38535ca8afceaf0bf12b881dc200c9833da726e9376c2e32cff7".
Proof. vm_compute. reflexivity. Qed.
Example zero_address_not_reserved : isReservedIP [0; 0; 0; 0]%Z = false ∧ isReservedIP (replicate 16 0%Z) = false.
Proof. done. Qed.
