(* ===== verification/WebhookFacts.v ===== *)
(** * Properties of outgoing webhooks

    Which addresses a webhook connects to, said by ranges of octets and by the
    entries of the allowlist, and the signing secrets. *)
From S2P Require Import Prelude GoLib GoText GoNet Sha256 MemoAccess AuthService Paging Webhook.
#[local] Open Scope Z_scope.

(** ** Prefixes *)

Lemma shiftr_lxor_zero a b n : 0 ≤ n → (Z.shiftr (Z.lxor a b) n =? 0) = (Z.shiftr a n =? Z.shiftr b n).
Proof.
  intros Hn. apply eq_true_iff_eq. rewrite !Z.eqb_eq, Z.shiftr_lxor. apply Z.lxor_eq_0_iff.
Qed.

(** A literal prefix holds the addresses that agree after the division. *)
Lemma contains_v4 v p b : 0 ≤ b ≤ 32 →
  Netip.Contains (Netip.mkPrefix (V4 p) b) (V4 v) = (v / 2 ^ (32 - b) =? p / 2 ^ (32 - b)).
Proof.
  intros Hb. unfold Netip.Contains; cbn [Netip.px_bits Netip.px_addr Netip.Zone Netip.BitLen Netip.bits_of].
  destruct (Z.ltb_spec b 0); [lia|]. cbn [orb negb String.eqb Z.eqb Pos.eqb].
  rewrite shiftr_lxor_zero, !Z.shiftr_div_pow2 by lia. done.
Qed.

Lemma contains_v6 v p b : 0 ≤ b ≤ 128 →
  Netip.Contains (Netip.mkPrefix (V6 p "") b) (V6 v "") = (v / 2 ^ (128 - b) =? p / 2 ^ (128 - b)).
Proof.
  intros Hb. unfold Netip.Contains; cbn [Netip.px_bits Netip.px_addr Netip.Zone Netip.BitLen Netip.bits_of].
  destruct (Z.ltb_spec b 0); [lia|]. cbn [orb negb String.eqb Z.eqb Pos.eqb].
  rewrite shiftr_lxor_zero, !Z.shiftr_div_pow2 by lia. done.
Qed.

Lemma contains_other_family v p b v' z b' :
  Netip.Contains (Netip.mkPrefix (V6 p z) b) (V4 v) = false ∧
  Netip.Contains (Netip.mkPrefix (V4 p) b') (V6 v' "") = false.
Proof. unfold Netip.Contains; cbn. by destruct (b <? 0), (b' <? 0). Qed.

Lemma reservedNetworks_eq : reservedNetworks =
  [Netip.mkPrefix (V4 (127 * 2 ^ 24)) 8; Netip.mkPrefix (V4 (10 * 2 ^ 24)) 8;
   Netip.mkPrefix (V4 (172 * 2 ^ 24 + 16 * 2 ^ 16)) 12; Netip.mkPrefix (V4 (192 * 2 ^ 24 + 168 * 2 ^ 16)) 16;
   Netip.mkPrefix (V4 (169 * 2 ^ 24 + 254 * 2 ^ 16)) 16; Netip.mkPrefix (V6 1 "") 128;
   Netip.mkPrefix (V6 (252 * 2 ^ 120) "") 7; Netip.mkPrefix (V6 (254 * 2 ^ 120 + 128 * 2 ^ 112) "") 10].
Proof. vm_compute. reflexivity. Qed.

(** ** Reserved addresses by their octets *)

Definition is_bytes (ip : list Z) : Prop := Forall (λ b, 0 ≤ b < 256) ip.

(** Loopback, the private ranges of RFC 1918, and link-local. *)
Definition private_v4 (a b : Z) : Prop :=
  a = 127 ∨ a = 10 ∨ (a = 172 ∧ 16 ≤ b < 32) ∨ (a = 192 ∧ b = 168) ∨ (a = 169 ∧ b = 254).

Definition mapped_v4 (ip : list Z) : Prop := take 12 ip = replicate 10 0 ++ [255; 255].

(** In sixteen bytes also loopback, unique local and link-local. *)
Definition reserved (ip : list Z) : Prop :=
  match ip with
  | [a; b; _; _] => private_v4 a b
  | [a; b; _; _; _; _; _; _; _; _; _; _; c; d; _; _] =>
      (mapped_v4 ip ∧ private_v4 c d) ∨
      (¬ mapped_v4 ip ∧ (ip = replicate 15 0 ++ [1] ∨ a = 252 ∨ a = 253 ∨ (a = 254 ∧ 128 ≤ b < 192)))
  | _ => False
  end.

Lemma reserved_v4 a b c d : is_bytes [a; b; c; d] →
  existsb (λ network, Netip.Contains network (V4 (Netip.big_endian [a; b; c; d]))) reservedNetworks = true ↔ private_v4 a b.
Proof.
  unfold is_bytes. intros H. rewrite !Forall_cons in H. destruct H as (Ha & Hb & Hc & Hd & _).
  rewrite reservedNetworks_eq. cbn [existsb].
  rewrite !contains_v4 by lia.
  rewrite !(λ v p b, proj1 (contains_other_family v p b 0 "" 0)).
  rewrite !orb_true_iff, !Z.eqb_eq. unfold private_v4, Netip.big_endian. cbn [fold_left].
  replace (2 ^ (32 - 8)) with 16777216 by done. replace (2 ^ (32 - 12)) with 1048576 by done.
  replace (2 ^ (32 - 16)) with 65536 by done.
  assert (∀ x, 0 ≤ x < 16777216 → (a * 16777216 + x) / 16777216 = a) as Ha'.
  { intros x Hx. rewrite Z.div_add_l, Z.div_small by lia. lia. }
  replace ((((0 * 256 + a) * 256 + b) * 256 + c) * 256 + d) with (a * 16777216 + (b * 65536 + c * 256 + d)) by lia.
  rewrite Ha' by lia.
  change (127 * 2 ^ 24 / 16777216) with 127. change (10 * 2 ^ 24 / 16777216) with 10.
  change ((172 * 2 ^ 24 + 16 * 2 ^ 16) / 1048576) with 2753.
  change ((192 * 2 ^ 24 + 168 * 2 ^ 16) / 65536) with 49320.
  change ((169 * 2 ^ 24 + 254 * 2 ^ 16) / 65536) with 43518.
  Z.to_euclidean_division_equations; intuition lia.
Qed.

(** The number of sixteen bytes, cut behind the second and the twelfth. *)
Lemma big_endian_16 a b x1 x2 x3 x4 x5 x6 x7 x8 x9 x10 c d e f :
  Netip.big_endian [a; b; x1; x2; x3; x4; x5; x6; x7; x8; x9; x10; c; d; e; f] =
  (((((((((((a * 256 + b) * 256 + x1) * 256 + x2) * 256 + x3) * 256 + x4) * 256 + x5) * 256 + x6) * 256 + x7) * 256 + x8)
    * 256 + x9) * 256 + x10) * 2 ^ 32 + Netip.big_endian [c; d; e; f].
Proof. unfold Netip.big_endian. cbn [fold_left]. lia. Qed.

Lemma big_endian_4 c d e f : is_bytes [c; d; e; f] → 0 ≤ Netip.big_endian [c; d; e; f] < 2 ^ 32.
Proof. unfold is_bytes. rewrite !Forall_cons. unfold Netip.big_endian. cbn [fold_left]. lia. Qed.

Lemma reserved_v6 a b rest : 0 ≤ a < 256 → 0 ≤ b < 256 → 0 ≤ rest < 2 ^ 112 →
  existsb (λ network, Netip.Contains network (V6 (a * 2 ^ 120 + b * 2 ^ 112 + rest) "")) reservedNetworks = true ↔
  (a * 2 ^ 120 + b * 2 ^ 112 + rest = 1 ∨ a = 252 ∨ a = 253 ∨ (a = 254 ∧ 128 ≤ b < 192)).
Proof.
  intros Ha Hb Hrest. set (v := a * 2 ^ 120 + b * 2 ^ 112 + rest).
  rewrite reservedNetworks_eq. cbn [existsb]. rewrite !contains_v6 by lia.
  rewrite !(λ p v b, proj2 (contains_other_family 0 p 0 v "" b)).
  rewrite !orb_true_iff, !Z.eqb_eq.
  change (128 - 128) with 0. change (128 - 7) with 121. change (128 - 10) with 118.
  change (252 * 2 ^ 120 / 2 ^ 121) with 126.
  change ((254 * 2 ^ 120 + 128 * 2 ^ 112) / 2 ^ 118) with 1018.
  rewrite !Z.div_1_r. unfold v in *.
  replace (a * 2 ^ 120 + b * 2 ^ 112 + rest) with (2 ^ 112 * (a * 256 + b) + rest) by lia.
  assert (∀ k, 0 ≤ k → (2 ^ 112 * (a * 256 + b) + rest) / (2 ^ 112 * 2 ^ k) = (a * 256 + b) / 2 ^ k) as Hdiv.
  { intros k Hk. rewrite <- Z.div_div by (first [lia | apply Z.pow_pos_nonneg; lia | apply Z.pow_nonzero; lia]). rewrite (Z.mul_comm (2 ^ 112)), Z.div_add_l, (Z.div_small rest) by lia.
    by rewrite Z.add_0_r. }
  change (2 ^ 121) with (2 ^ 112 * 2 ^ 9). change (2 ^ 118) with (2 ^ 112 * 2 ^ 6). rewrite !Hdiv by lia.
  change (2 ^ 9) with 512. change (2 ^ 6) with 64.
  assert ((a * 256 + b) / 512 = 126 ↔ a = 252 ∨ a = 253) as -> by (Z.to_euclidean_division_equations; lia).
  assert ((a * 256 + b) / 64 = 1018 ↔ a = 254 ∧ 128 ≤ b < 192) as -> by (Z.to_euclidean_division_equations; lia).
  intuition discriminate.
Qed.

Lemma isReservedIP_reserved ip : is_bytes ip → isReservedIP ip = true ↔ reserved ip.
Proof.
  intros H. unfold isReservedIP, Netip.AddrFromSlice.
  destruct (Nat.eqb_spec (length ip) 4) as [E|E].
  { destruct ip as [|a [|b [|c [|d [|? ?]]]]]; try discriminate. by apply reserved_v4. }
  destruct (Nat.eqb_spec (length ip) 16) as [E'|E'].
  2: { do 17 (destruct ip as [|? ip]; [easy|]); easy. }
  do 17 (destruct ip as [|? ip]; try discriminate).
  unfold reserved, mapped_v4, Netip.Unmap, Netip.Is4In6. clear E E'.
  assert (is_bytes [z11; z12; z13; z14]) as Hlow by (unfold is_bytes in *; rewrite !Forall_cons in *; intuition).
  pose proof (big_endian_4 _ _ _ _ Hlow) as Hbound.
  pose proof (reserved_v4 _ _ _ _ Hlow) as Hv4.
  rewrite big_endian_16. unfold is_bytes in H; rewrite !Forall_cons in H.
  set (hi := ((((((((((z * 256 + z0) * 256 + z1) * 256 + z2) * 256 + z3) * 256 + z4) * 256 + z5) * 256 + z6) * 256 + z7) * 256 + z8)
    * 256 + z9) * 256 + z10).
  set (lo := Netip.big_endian [z11; z12; z13; z14]) in *.
  rewrite Z.shiftr_div_pow2, Z.div_add_l, (Z.div_small lo), Z.add_0_r by lia.
  assert (hi = 65535 ↔ take 12 [z; z0; z1; z2; z3; z4; z5; z6; z7; z8; z9; z10; z11; z12; z13; z14] =
    replicate 10 0 ++ [255; 255]) as Hmap.
  { cbn [take replicate app]. unfold hi. split; [intros ?; repeat f_equal; lia|by intros [= -> -> -> -> -> -> -> -> -> -> -> ->]]. }
  destruct (Z.eqb_spec hi 65535) as [Ehi|Ehi].
  - change (2 ^ 32 - 1) with (Z.ones 32). rewrite Z.land_ones, Z.add_comm, Z.mod_add, Z.mod_small by lia.
    rewrite Hv4, <- Hmap. clearbody hi lo. split; [by left|]. by intros [[_ ?]|[[] _]].
  - assert (hi * 2 ^ 32 + lo = z * 2 ^ 120 + z0 * 2 ^ 112 + ((hi - z * 2 ^ 88 - z0 * 2 ^ 80) * 2 ^ 32 + lo)) as -> by lia.
    rewrite reserved_v6 by (unfold hi; lia).
    rewrite <- Hmap. split.
    + intros Hr. right. split; [done|]. destruct Hr as [Hr|?]; [left|by right].
      unfold hi, lo, Netip.big_endian in Hr. cbn [fold_left] in Hr. cbn [replicate app]. repeat f_equal; lia.
    + intros [[? _]|[_ [[= -> -> -> -> -> -> -> -> -> -> -> -> -> -> -> ->]|?]]]; [done|by left|by right].
Qed.

(** ** The entries of the allowlist *)

(** An address as 128 bits: four bytes stand behind the prefix of the mapped ones. *)
Definition as128 (a : Addr) : Z :=
  match a with V4 v => Z.lor (Z.shiftl 65535 32) v | V6 v _ => v end.
Definition is4 (a : Addr) : bool := match a with V4 _ => true | V6 _ _ => Netip.Is4In6 a end.

(** [ip] agrees with [p] on its first [bits] of 128 bits. *)
Definition agrees (p : Addr) (bits : Z) (ip : Addr) : Prop :=
  is4 p = is4 ip ∧ ∀ i, 128 - bits ≤ i → Z.testbit (as128 ip) i = Z.testbit (as128 p) i.

(** What an entry lets through: the host it names, the address it is, or the
    addresses of the block it is. *)
Definition admits `{Text.GoUnicode} (entry host : string) (ip : Addr) : Prop :=
  let entry := Str.trim_space entry in
  match Netip.ParseAddr entry with
  | Some a => agrees a 128 ip
  | None =>
      match Netip.ParsePrefix entry with
      | Some p => agrees (Netip.px_addr p) (128 - Netip.BitLen (Netip.px_addr p) + Netip.px_bits p) ip
      | None => ∃ name, normalizeHostname entry = Ok name ∧ normalizeHostname host = Ok name
      end
  end.

Lemma as128_unmap a : as128 (Netip.Unmap a) = as128 a.
Proof.
  destruct a as [v|v z]; [done|]. unfold Netip.Unmap. destruct (Netip.Is4In6 (V6 v z)) eqn:E; [|done].
  unfold Netip.Is4In6 in E. apply Z.eqb_eq in E. cbn [as128]. rewrite <- E.
  change (2 ^ 32 - 1) with (Z.ones 32). apply Z.bits_inj'. intros i Hi.
  rewrite Z.lor_spec, Z.land_spec, Z.shiftl_spec, Z.testbit_ones by lia.
  destruct (Z.ltb_spec i 32).
  - rewrite (Z.testbit_neg_r _ (i - 32)) by lia. destruct (Z.leb_spec 0 i); [|lia]. by rewrite andb_true_r.
  - rewrite Z.shiftr_spec by lia. replace (i - 32 + 32) with i by lia. rewrite andb_false_r, andb_false_r. apply orb_false_r.
Qed.

Lemma is4_unmap a : is4 (Netip.Unmap a) = is4 a.
Proof.
  destruct a as [v|v z]; [done|]. unfold Netip.Unmap. destruct (Netip.Is4In6 (V6 v z)) eqn:E; [symmetry; exact E|done].
Qed.

Lemma unmap_shape a : match Netip.Unmap a with V4 _ => is4 a = true | V6 _ _ => is4 a = false end.
Proof.
  destruct a as [v|v z]; [done|]. unfold Netip.Unmap, is4. by destruct (Netip.Is4In6 (V6 v z)) eqn:E.
Qed.

(** The first bits of what a prefix contains are its own. *)
Lemma contains_bits p a : Netip.Contains p a = true →
  Netip.BitLen (Netip.px_addr p) = Netip.BitLen a ∧ 0 ≤ Netip.px_bits p ∧
  ∀ i, 0 ≤ i → Netip.BitLen a - Netip.px_bits p ≤ i →
    Z.testbit (Netip.bits_of a) i = Z.testbit (Netip.bits_of (Netip.px_addr p)) i.
Proof.
  unfold Netip.Contains. destruct (_ || _) eqn:E; [done|]. apply orb_false_iff in E as [E _].
  destruct (Z.eqb_spec (Netip.BitLen (Netip.px_addr p)) (Netip.BitLen a)) as [E'|]; [|done]. cbn [negb].
  rewrite Z.eqb_eq, Z.shiftr_lxor, Z.lxor_eq_0_iff. intros Hs. split_and!; [done|lia|]. intros i Hi Hb.
  destruct (Z.le_gt_cases 0 (Netip.BitLen a - Netip.px_bits p)) as [Hn|Hn].
  - pose proof (f_equal (λ x, Z.testbit x (i - (Netip.BitLen a - Netip.px_bits p))) Hs) as Ht. cbn beta in Ht.
    rewrite !Z.shiftr_spec in Ht by lia. by rewrite Z.sub_add in Ht.
  - pose proof (f_equal (λ x, Z.testbit x (i + (Netip.px_bits p - Netip.BitLen a))) Hs) as Ht. cbn beta in Ht.
    rewrite !Z.shiftr_spec in Ht by lia.
    by replace (i + (Netip.px_bits p - Netip.BitLen a) + (Netip.BitLen a - Netip.px_bits p)) with i in Ht by lia.
Qed.

Lemma bit_len_is4 a b : Netip.BitLen (Netip.Unmap a) = Netip.BitLen b → is4 b = is4 a ∨ ∃ v z, b = V6 v z ∧ Netip.Is4In6 b = true.
Proof.
  pose proof (unmap_shape a) as Ha. destruct (Netip.Unmap a) as [v|v z], b as [v'|v' z']; cbn; intros E; try discriminate.
  - by left.
  - destruct (Netip.Is4In6 (V6 v' z')) eqn:E'; [right; eauto|left]. by rewrite Ha.
Qed.

(** A prefix whose address is not a mapped one and which contains an address
    agrees with it. *)
Lemma contains_agrees p a : Netip.Contains p (Netip.Unmap a) = true →
  (∀ v z, Netip.px_addr p = V6 v z → Netip.Is4In6 (V6 v z) = false) →
  agrees (Netip.px_addr p) (128 - Netip.BitLen (Netip.px_addr p) + Netip.px_bits p) a.
Proof.
  intros Hc Hp. apply contains_bits in Hc as (Hlen & Hb & Hbits). split.
  - destruct (bit_len_is4 a (Netip.px_addr p) (eq_sym Hlen)) as [?|(v & z & E & E')]; [done|].
    rewrite E in E'. by rewrite (Hp _ _ E) in E'.
  - intros i Hi. rewrite <- (as128_unmap a).
    destruct (Z.le_gt_cases 0 i) as [H0|H0]; [|by destruct i].
    rewrite Hlen in Hi. specialize (Hbits i H0 ltac:(lia)).
    destruct (Netip.Unmap a) as [v|v z], (Netip.px_addr p) as [v'|v' z']; try discriminate; cbn in *; [|done].
    by rewrite !Z.lor_spec, Hbits.
Qed.

Lemma agrees_trans p bits q bits' a : agrees q bits' a → is4 q = is4 p →
  (∀ i, 128 - bits ≤ i → Z.testbit (as128 q) i = Z.testbit (as128 p) i) → bits ≤ bits' → agrees p bits a.
Proof.
  intros [H1 H2] H3 H4 H5. split; [by rewrite <- H3|]. intros i Hi. rewrite H2 by lia. by apply H4.
Qed.

Lemma unmap_plain a v z : Netip.Unmap a = V6 v z → Netip.Is4In6 (V6 v z) = false.
Proof.
  destruct a as [v'|v' z']; [done|]. unfold Netip.Unmap. destruct (Netip.Is4In6 (V6 v' z')) eqn:E; [done|].
  by intros [= <- <-].
Qed.

(** Clearing the bits behind a prefix leaves those before it. *)
Lemma masked_bits v n i : 0 ≤ n ≤ i → Z.testbit (Z.shiftl (Z.shiftr v n) n) i = Z.testbit v i.
Proof. intros. rewrite Z.shiftl_spec, Z.shiftr_spec by lia. f_equal. lia. Qed.

(** Masking makes no mapped address. *)
Lemma masked_plain v z n : 0 ≤ n → Netip.Is4In6 (V6 v z) = false →
  Netip.Is4In6 (V6 (Z.shiftl (Z.shiftr v n) n) z) = false.
Proof.
  unfold Netip.Is4In6. rewrite !Z.eqb_neq. intros Hn Hv Ht. destruct (Z.le_gt_cases n 32) as [Hle|Hgt].
  - apply Hv. rewrite <- Ht. apply Z.bits_inj'. intros i Hi. rewrite !Z.shiftr_spec by lia. by rewrite masked_bits by lia.
  - apply (f_equal (λ x, Z.testbit x 0)) in Ht. rewrite Z.shiftr_spec, Z.shiftl_spec, Z.testbit_neg_r in Ht by lia. done.
Qed.

(** ** The policy *)

Section policy.
Context `{Text.GoUnicode}.

(** Where an address or a name of the policy comes from. *)
Definition policy_from (entries : list string) (policy : privateDestinationPolicy) : Prop :=
  (∀ name host, name ∈ pd_hostnames policy → normalizeHostname host = Ok name →
     ∃ entry, entry ∈ entries ∧ ∀ ip, admits entry host ip) ∧
  (∀ p ip host, p ∈ pd_prefixes policy → Netip.Contains p (Netip.Unmap ip) = true →
     ∃ entry, entry ∈ entries ∧ admits entry host ip).

Lemma prefix_from_bits a bits : Netip.px_bits (Netip.PrefixFrom a bits) = bits ∨ Netip.px_bits (Netip.PrefixFrom a bits) = -1.
Proof. unfold Netip.PrefixFrom. cbn. destruct (_ && _); auto. Qed.

Lemma contains_valid p a : Netip.Contains p a = true → 0 ≤ Netip.px_bits p.
Proof. intros Hc. by apply contains_bits in Hc as (_ & ? & _). Qed.

(** A single address. *)
Lemma address_admits addr ip :
  Netip.Contains (Netip.PrefixFrom (Netip.Unmap addr) (Netip.BitLen (Netip.Unmap addr))) (Netip.Unmap ip) = true →
  agrees addr 128 ip.
Proof.
  intros Hc. pose proof (contains_valid _ _ Hc) as Hv. apply contains_agrees in Hc.
  - eapply agrees_trans; [exact Hc|..].
    + rewrite <- (is4_unmap addr). cbn. by destruct (Netip.Unmap addr).
    + intros i _. rewrite <- (as128_unmap addr). cbn. by destruct (Netip.Unmap addr).
    + destruct (prefix_from_bits (Netip.Unmap addr) (Netip.BitLen (Netip.Unmap addr))) as [E|E]; rewrite E in *; [|lia].
      cbn. destruct (Netip.Unmap addr); cbn; lia.
  - intros v z. cbn. pose proof (unmap_plain addr) as Hp. destruct (Netip.Unmap addr) as [?|v' z']; [done|].
    intros [= <- <-]. exact (Hp _ _ eq_refl).
Qed.

Lemma px_plain a bits v z : Netip.px_addr (Netip.PrefixFrom a bits) = V6 v z → ∃ z', a = V6 v z'.
Proof. destruct a as [?|v' z']; [done|]. intros [= <- <-]. eauto. Qed.

(** Masking keeps what a prefix says of the first bits. *)
Lemma masked_agrees a bits ip : (∀ v z, a = V6 v z → Netip.Is4In6 (V6 v z) = false) →
  Netip.Contains (Netip.Masked (Netip.PrefixFrom a bits)) (Netip.Unmap ip) = true →
  agrees a (128 - Netip.BitLen a + bits) ip.
Proof.
  intros Ha Hc. pose proof (contains_valid _ _ Hc) as Hv.
  assert (∃ z, Netip.PrefixFrom a bits = Netip.mkPrefix (match a with V4 v => V4 v | V6 v _ => V6 v z end) bits ∧ 0 ≤ bits ≤ Netip.BitLen a)
    as (z & E & Hb).
  { revert Hv. unfold Netip.Masked, Netip.PrefixFrom. cbn [Netip.px_bits Netip.px_addr].
    destruct ((0 <=? bits) && (bits <=? Netip.BitLen a)) eqn:E; [|done]. intros _. exists "".
    split; [by destruct a|lia]. }
  rewrite E in Hc. apply contains_agrees in Hc.
  2: { unfold Netip.Masked. cbn [Netip.px_bits Netip.px_addr]. destruct (Z.ltb_spec bits 0); [lia|]. destruct a as [v|v z']; [done|].
       intros v'' z''. cbn [Netip.px_addr Netip.BitLen]. intros [= <- <-]. apply masked_plain; [cbn in Hb; lia|].
       exact (Ha _ _ eq_refl). }
  unfold Netip.Masked in Hc. cbn [Netip.px_bits Netip.px_addr] in Hc. destruct (Z.ltb_spec bits 0); [lia|].
  destruct a as [v|v z']; cbn [Netip.px_addr Netip.px_bits Netip.BitLen] in *; (eapply agrees_trans; [exact Hc|..|lia]).
  - done.
  - intros i Hi. cbn [as128]. by rewrite !Z.lor_spec, masked_bits by lia.
  - cbn [is4]. rewrite (Ha _ _ eq_refl). apply masked_plain; [lia|]. exact (Ha _ _ eq_refl).
  - intros i Hi. cbn [as128]. by rewrite masked_bits by lia.
Qed.

(** A block of the allowlist. *)
Lemma block_admits prefix p ip : normalizePrefix prefix = Ok p → Netip.Contains p (Netip.Unmap ip) = true →
  agrees (Netip.px_addr prefix) (128 - Netip.BitLen (Netip.px_addr prefix) + Netip.px_bits prefix) ip.
Proof.
  unfold normalizePrefix. destruct prefix as [a bits]; cbn [Netip.px_addr Netip.px_bits].
  destruct (Netip.Is4In6 a) eqn:E4.
  - destruct (Z.ltb_spec bits 96); [done|]. intros [= <-] Hc.
    apply masked_agrees in Hc; [|intros v z E; exact (unmap_plain _ _ _ E)].
    destruct a as [v|v z]; [done|]. eapply agrees_trans; [exact Hc|..].
    + apply is4_unmap.
    + intros i _. by rewrite as128_unmap.
    + unfold Netip.Unmap. rewrite E4. cbn [Netip.BitLen]. lia.
  - intros [= <-] Hc. apply masked_agrees in Hc; [done|]. intros v z ->. done.
Qed.

Lemma admits_in_cons entry entries host ip :
  (∃ e, e ∈ entries ∧ admits e host ip) → ∃ e, e ∈ entry :: entries ∧ admits e host ip.
Proof. intros (e & ? & ?). exists e. split; [by right|done]. Qed.

Lemma add_entry_from entries policy entry policy' :
  policy_from entries policy → add_entry policy entry = Ok policy' → policy_from (entries ++ [entry]) policy'.
Proof.
  intros [Hn Hp] E.
  assert (policy_from (entries ++ [entry]) policy) as [Hn' Hp'].
  { split; [intros name host H1 H2; destruct (Hn _ _ H1 H2) as (e & ? & ?)
           |intros p ip host H1 H2; destruct (Hp _ _ host H1 H2) as (e & ? & ?)]; exists e; (split; [by apply elem_of_app; left|done]). }
  assert (entry ∈ entries ++ [entry]) as Hin by (apply elem_of_app; right; by left).
  assert (∀ p, (∀ ip host, Netip.Contains p (Netip.Unmap ip) = true → admits entry host ip) →
    policy_from (entries ++ [entry]) (mkDestinations (pd_hostnames policy) (pd_prefixes policy ++ [p]))) as Hadd.
  { intros p H0. split; [exact Hn'|]. cbn. intros q ip host [Hq|Hq%list_elem_of_singleton]%elem_of_app Hc; [by eapply Hp'|].
    subst q. exists entry. auto. }
  unfold add_entry in E. destruct (String.eqb (Str.trim_space entry) ""); [done|].
  destruct (Netip.ParseAddr (Str.trim_space entry)) as [addr|] eqn:Ea.
  { destruct (negb _); [done|]. injection E as <-. apply Hadd. intros ip host Hc. unfold admits. rewrite Ea.
    by apply address_admits. }
  destruct (Netip.ParsePrefix (Str.trim_space entry)) as [prefix|] eqn:Ep.
  { destruct (normalizePrefix prefix) as [p|] eqn:Enorm; [|done]. injection E as <-. apply Hadd.
    intros ip host Hc. unfold admits. rewrite Ea, Ep. by apply (block_admits _ _ _ Enorm). }
  destruct (Str.contains_byte _ _); [done|]. destruct (normalizeHostname _) as [h|] eqn:Eh; [|done].
  cbn in E. injection E as <-. split; [|exact Hp']. cbn. intros name host [->%elem_of_singleton|Hin']%elem_of_union Hhost; [|by eapply Hn'].
  exists entry. split; [done|]. intros ip. unfold admits. rewrite Ea, Ep. eauto.
Qed.

Lemma add_entries_from entries entries' policy policy' :
  policy_from entries policy → add_entries policy entries' = Ok policy' → policy_from (entries ++ entries') policy'.
Proof.
  revert entries policy. induction entries' as [|e entries' IH]; intros entries policy Hp; cbn [add_entries].
  { intros [= <-]. by rewrite app_nil_r. }
  destruct (add_entry policy e) as [p|] eqn:E; [|done]. cbn. intros E'.
  rewrite cons_middle, (assoc_L (++)). eapply IH; [|done]. by eapply add_entry_from.
Qed.

(** What is let through although it is reserved was named by an entry. *)
Lemma allowed_admits entries st st' host ip addr :
  ConfigurePrivateDestinationAllowlist entries st = (Ok tt, st') → Netip.AddrFromSlice ip = Some addr →
  isPrivateDestinationAllowed st' host ip = true →
  AllowPrivateIPs st = true ∨ ∃ entry, entry ∈ entries ∧ admits entry host addr.
Proof.
  unfold ConfigurePrivateDestinationAllowlist. destruct (add_entries _ entries) as [policy|] eqn:E; [|done].
  intros [= <-] Haddr. unfold isPrivateDestinationAllowed. cbn [AllowPrivateIPs configured].
  destruct (AllowPrivateIPs st); [by left|]. intros Hallowed. right.
  apply (add_entries_from []) in E as [Hn Hp].
  2: { split; [intros ? ? Hx|intros ? ? ? Hx]; [by apply not_elem_of_empty in Hx|by apply not_elem_of_nil in Hx]. }
  cbn [app] in Hn, Hp. rewrite Haddr in Hallowed.
  destruct (normalizeHostname host) as [h|] eqn:Eh; [case_bool_decide as Hin|].
  { destruct (Hn _ _ Hin Eh) as (e & ? & ?). eauto. }
  all: apply existsb_exists in Hallowed as (p & Hin'%list_elem_of_In & Hc); by eapply Hp.
Qed.
End policy.

(** ** Connections *)

Section connections.
Context `{Text.GoUnicode}.

(** An address with four or sixteen bytes. *)
Definition usable (ip : IPAddr) : bool := bool_decide (is_Some (Netip.AddrFromSlice ip.1)).

Lemma dialable_spec st host ips validIPs : dialable st host ips = Ok validIPs →
  validIPs = filter usable ips ∧ ∀ ip, ip ∈ ips → usable ip → isBlockedDestination st host ip.1 = false.
Proof.
  revert validIPs. induction ips as [|ip ips IH]; intros validIPs; cbn [dialable].
  { intros [= <-]. split; [done|]. intros ip Hip. by apply not_elem_of_nil in Hip. }
  rewrite filter_cons. assert (usable ip ↔ is_Some (Netip.AddrFromSlice ip.1)) as Hu by (unfold usable; by rewrite bool_decide_spec).
  destruct (Netip.AddrFromSlice ip.1) as [a|] eqn:Ea.
  - rewrite decide_True by (apply Hu; eauto). destruct (isBlockedDestination st host ip.1) eqn:Eb; [done|].
    destruct (dialable st host ips) as [valid|] eqn:Ed; [|done]. cbn. intros [= <-].
    destruct (IH _ eq_refl) as [-> Hall]. split; [done|]. intros ip' [->|Hip]%elem_of_cons Hu'; [done|by apply Hall].
  - rewrite decide_False by (rewrite Hu; by intros []). intros Hd. destruct (IH _ Hd) as [-> Hall]. split; [done|].
    intros ip' [->|Hip]%elem_of_cons Hu'; [apply Hu in Hu' as []; congruence|by apply Hall].
Qed.

(** Addresses are tried in order up to the first that answers. *)
Lemma dial_first_spec dial ips e dialled r : dial_first dial ips e = (dialled, r) →
  dialled `prefix_of` ips ∧ (r = Ok tt → ∃ ip, last dialled = Some ip ∧ dial ip = Ok tt).
Proof.
  revert e dialled r. induction ips as [|ip ips IH]; intros e dialled r; cbn [dial_first].
  { intros [= <- <-]. done. }
  destruct (dial ip) as [[]|e'] eqn:E.
  { intros [= <- <-]. split; [by apply prefix_cons, prefix_nil|]. intros _. by exists ip. }
  destruct (dial_first dial ips (Some e')) as [d r'] eqn:Ed. intros [= <- <-].
  destruct (IH _ _ _ Ed) as [Hp Hr]. split; [by apply prefix_cons|]. intros Hok.
  destruct (Hr Hok) as (ip' & Hlast & Hip). exists ip'. split; [|done]. by rewrite last_cons, Hlast.
Qed.

(** C13. A webhook connects only to addresses the resolver gave for its host, in
    their order and up to the first that answers; and it connects to any of them
    only when each of the resolver's addresses is outside the loopback, private
    and link-local ranges - of both families, mapped addresses included -, or all
    private addresses are allowed, or an entry of the configured allowlist is that
    host's name, that address, or a block that holds it. *)
Theorem webhook_connects_only_allowed entries st st' split resolve dial addr dialled r :
  ConfigurePrivateDestinationAllowlist entries st = (Ok tt, st') →
  (∀ host ips, resolve host = Ok ips → Forall (λ ip, is_bytes ip.1) ips) →
  safeDialContext st' split resolve dial addr = (dialled, r) →
  (dialled = [] ∧ r ≠ Ok tt) ∨
  ∃ host port ips, split addr = Some (host, port) ∧ resolve host = Ok ips ∧
    dialled `prefix_of` filter usable ips ∧
    (∀ ip a, ip ∈ ips → Netip.AddrFromSlice ip.1 = Some a →
       ¬ reserved ip.1 ∨ AllowPrivateIPs st = true ∨ ∃ entry, entry ∈ entries ∧ admits entry host a) ∧
    (r = Ok tt → ∃ ip, last dialled = Some ip ∧ dial port ip = Ok tt).
Proof.
  intros Hconf Hbytes. unfold safeDialContext.
  destruct (split addr) as [[host port]|] eqn:Es; [|by intros [= <- <-]; left].
  destruct (resolve host) as [ips|] eqn:Er; [|by intros [= <- <-]; left].
  destruct (dialable st' host ips) as [validIPs|] eqn:Ed; [|by intros [= <- <-]; left].
  apply dialable_spec in Ed as [-> Hblocked].
  destruct (dial_first (dial port) (filter usable ips) None) as [d r0] eqn:Ef. intros [= <- <-].
  apply dial_first_spec in Ef as [Hp Hr]. right. exists host, port, ips.
  split_and!; [done|done|done| |].
  - intros ip a Hip Ha. assert (isBlockedDestination st' host ip.1 = false) as Hb.
    { apply Hblocked; [done|]. unfold usable. rewrite Ha. by apply bool_decide_pack; eauto. }
    unfold isBlockedDestination in Hb. apply andb_false_iff in Hb as [Hb|Hb]; [left|right].
    + rewrite <- isReservedIP_reserved, Hb; [done|]. specialize (Hbytes _ _ Er). rewrite Forall_forall in Hbytes. by apply Hbytes.
    + apply negb_false_iff in Hb. by eapply allowed_admits.
  - destruct r0 as [[]|[e|]]; [auto|done|done].
Qed.

(** A configuration that fails leaves the policy as it was. *)
Theorem failed_configuration_changes_nothing entries st e st' :
  ConfigurePrivateDestinationAllowlist entries st = (Err e, st') → st' = st.
Proof. unfold ConfigurePrivateDestinationAllowlist. destruct (add_entries _ _); by intros [= <- <-]. Qed.

(** A host whose addresses are not blocked is reached when one of them answers. *)
Theorem webhook_reaches_allowed st split resolve dial addr host port ips :
  split addr = Some (host, port) → resolve host = Ok ips →
  (∀ ip, ip ∈ ips → isBlockedDestination st host ip.1 = false) →
  (∃ ip, ip ∈ ips ∧ usable ip ∧ dial port ip = Ok tt) →
  (safeDialContext st split resolve dial addr).2 = Ok tt.
Proof.
  intros Es Er Hb (ip & Hin & Hu & Hd). unfold safeDialContext. rewrite Es, Er.
  assert (dialable st host ips = Ok (filter usable ips)) as ->.
  { clear Er ip Hin Hu Hd. induction ips as [|ip ips IH]; [done|]. cbn [dialable]. rewrite filter_cons, IH.
    2: { intros ip' ?. apply Hb. by right. }
    destruct (Netip.AddrFromSlice ip.1) eqn:Ea.
    - rewrite (Hb ip) by left. by rewrite decide_True by (apply bool_decide_pack; eauto).
    - rewrite decide_False; [done|]. intros Hx%bool_decide_unpack. rewrite Ea in Hx. by destruct Hx. }
  assert (ip ∈ filter usable ips) as Hf by (by apply list_elem_of_filter).
  clear Er Hb Hin. revert Hf. generalize (@None error). generalize (filter usable ips) as l.
  induction l as [|ip' l IH]; intros e Hf; [by apply not_elem_of_nil in Hf|]. cbn [dial_first].
  destruct (dial port ip') as [[]|e'] eqn:E; [done|]. apply elem_of_cons in Hf as [->|Hf]; [congruence|].
  specialize (IH (Some e') Hf). by destruct (dial_first (dial port) l (Some e')) as [d r].
Qed.
End connections.

(** ** Secrets *)

(** The characters of an encoding are printable. *)
Lemma char_of_printable v : printable (Base64.char_of v) = true.
Proof.
  unfold Base64.char_of. destruct (_ !! _) as [c|] eqn:E; [|done]. cbn [default].
  apply list_elem_of_lookup_2 in E. revert c E.
  assert (Forall (λ c, printable c = true) (Str.to_list Base64.encodeStd)) as H by (by repeat constructor).
  by rewrite Forall_forall in H.
Qed.

Lemma encode_printable src c : c ∈ Str.to_list (Base64.encode src) → printable c = true.
Proof.
  revert c. assert (∀ n src, (length src ≤ n)%nat → Forall (λ c, printable c = true) (Str.to_list (Base64.encode src))) as H.
  { clear src. induction n as [|n IH]; intros [|a [|b [|c rest]]] Hn; cbn [length] in Hn; try lia;
      cbn [Base64.encode Str.to_list]; repeat constructor; try apply char_of_printable. apply IH. lia. }
  specialize (H (length src) src ltac:(done)). by rewrite Forall_forall in H.
Qed.

(** A generated secret passes the check of a secret, and the key that signs
    with it are the random bytes it was made of. *)
Theorem signing_secret_roundtrip buf :
  ∃ secret, GenerateSigningSecret (Ok buf) = Ok secret ∧ ValidateSigningSecret secret = Ok tt ∧
    resolveSigningKey secret = Ok buf.
Proof.
  eexists. split; [reflexivity|].
  assert (resolveSigningKey ("whsec_" +:+ Base64.encode buf) = Ok buf) as Hkey.
  { unfold resolveSigningKey. change (CutPrefix _ _) with (Some (Base64.encode buf)). cbn iota beta. by rewrite base64_roundtrip. }
  split; [|exact Hkey]. unfold ValidateSigningSecret. rewrite Hkey.
  assert (forallb printable (Str.to_list ("whsec_" +:+ Base64.encode buf)) = true) as ->; [|done].
  apply forallb_forall. intros c Hc%list_elem_of_In. rewrite to_list_app in Hc. apply elem_of_app in Hc as [Hc|Hc].
  - apply list_elem_of_In in Hc. by repeat destruct Hc as [<-|Hc].
  - apply (encode_printable buf c Hc).
Qed.



(** ** Witnesses *)

#[local] Instance ascii_unicode : Text.GoUnicode := 
  {| Text.ToLower := Str.replace_bytes (λ c, String (Text.lower_byte c) "") |}.

(** An allowlist with a block and a name, and a host in that block. *)
Definition example_entries : list string := ["10.0.0.0/8"; "hooks.internal"].
Definition example_policy : Destinations :=
  (ConfigurePrivateDestinationAllowlist example_entries (mkState false None)).2.
Definition example_answers : list IPAddr := [([10; 1; 2; 3], ""); ([8; 8; 8; 8], "")].
Definition example_dial (answers : list IPAddr) : list IPAddr * result error unit :=
  safeDialContext example_policy (λ _, Some ("hooks.example", "443")) (λ _, Ok answers) (λ _ _, Ok tt) "hooks.example:443".

Example dial_in_block : example_dial example_answers = ([([10; 1; 2; 3], "")], Ok tt).
Proof. vm_compute. reflexivity. Qed.
Example dial_outside_block : (example_dial (([192; 168; 0; 1], "") :: example_answers)).1 = [].
Proof. vm_compute. reflexivity. Qed.

Lemma webhook_connects_only_allowed_witness : ∃ host (port : string) ips,
  Some ("hooks.example", "443") = Some (host, port) ∧ Ok (E := error) example_answers = Ok ips ∧
  (∀ ip a, ip ∈ ips → Netip.AddrFromSlice ip.1 = Some a →
     ¬ reserved ip.1 ∨ false = true ∨ ∃ entry, entry ∈ example_entries ∧ admits entry host a).
Proof.
  destruct (webhook_connects_only_allowed example_entries (mkState false None) example_policy
    (λ _, Some ("hooks.example", "443")) (λ _, Ok example_answers) (λ _ _, Ok tt) "hooks.example:443"
    [([10; 1; 2; 3], "")] (Ok tt)) as [[Hne _]|(h & p & ips & H1 & H2 & _ & H3 & _)].
  - vm_compute. reflexivity.
  - intros host ips [= <-]. repeat constructor; lia.
  - vm_compute. reflexivity.
  - discriminate.
  - exists h, p, ips. auto.
Defined.
