(* ===== verification/SpaceService.v ===== *)
(** * The handlers of spaces, memberships and invitations

    [server/router/api/v1/space_service.go] and [space_service_converters.go]:
    each handler signs the user in, resolves the resource named under the rights
    of that user, runs one transaction of [SpaceStore] and answers a message.
    Handlers run in the monad of [MemoService]. *)
From S2P Require Import Prelude GoLib GoText GoTime.
From S2P Require Import Store SpaceStore ResourceName MemoAccess AuthService Paging MemoQuery MemoConvert MemoReads.
From S2P Require Import MemoPrepare MemoService.

(** ** Messages *)

(** [v1pb.SpaceMember_Role]. *)
Definition ROLE_UNSPECIFIED : Z := 0.
Definition ADMIN : Z := 1.
Definition USER : Z := 2.

(** [v1pb.Space], [v1pb.SpaceMember] and [v1pb.SpaceInvitation]; requests carry
    them too. *)
Record SpaceMessage := mkSpaceMessage {
  sc_name : string; sc_title : string; sc_description : string; sc_role : Z; sc_members : Z }.
Record SpaceMemberMessage := mkMemberMessage { xm_name : string; xm_user : string; xm_role : Z }.
Record SpaceInvitationMessage := mkInvitationMessage {
  xi_name : string; xi_invitee : string; xi_role : Z; xi_space : option SpaceMessage }.

Definition buildSpaceName (uid : string) : string := SpaceNamePrefix +:+ uid.
Definition buildSpaceMemberName (spaceUID username : string) : string :=
  buildSpaceName spaceUID +:+ "/" +:+ SpaceMemberNamePrefix +:+ username.
Definition buildSpaceInvitationName (spaceUID username : string) : string :=
  buildSpaceName spaceUID +:+ "/" +:+ SpaceInvitationNamePrefix +:+ username.

Definition convertSpaceMemberRoleFromStore (role : SpaceMemberRole) : Z :=
  if String.eqb role SpaceMemberRoleAdmin then ADMIN
  else if String.eqb role SpaceMemberRoleUser then USER
  else ROLE_UNSPECIFIED.
Definition convertSpaceMemberRoleToStore (role : Z) : option SpaceMemberRole :=
  if (role =? ADMIN)%Z then Some SpaceMemberRoleAdmin
  else if (role =? USER)%Z then Some SpaceMemberRoleUser
  else None.

Definition convertSpaceMetadataFromStore (space : Space) : SpaceMessage :=
  mkSpaceMessage (buildSpaceName (sp_uid space)) (sp_title space) (sp_description space) ROLE_UNSPECIFIED 0.
Definition convertSpaceFromStore (space : Space) : SpaceMessage :=
  let converted := convertSpaceMetadataFromStore space in
  mkSpaceMessage (sc_name converted) (sc_title converted) (sc_description converted)
    (convertSpaceMemberRoleFromStore (sp_current_user_role space)) (sp_member_count space).
Definition convertSpaceMemberFromStore (space : Space) (user : User) (member : SpaceMember) : SpaceMemberMessage :=
  mkMemberMessage (buildSpaceMemberName (sp_uid space) (us_username user)) (BuildUserName (us_username user))
    (convertSpaceMemberRoleFromStore (sm_role member)).
Definition convertSpaceInvitationFromStore (space : Space) (user : User) (invitation : SpaceMember)
  : SpaceInvitationMessage :=
  mkInvitationMessage (buildSpaceInvitationName (sp_uid space) (us_username user))
    (BuildUserName (us_username user)) (convertSpaceMemberRoleFromStore (sm_role invitation))
    (Some (convertSpaceMetadataFromStore space)).

Definition mapSpaceMutationError (e : error) (operation : string) : code * string :=
  if error_is e ErrLastSpaceAdmin then
    (FailedPrecondition, "a space must retain an active administrator")
  else if error_is e ErrSpacePermissionDenied then (NotFound, "space not found")
  else if error_is e ErrSpaceMemberNotActive then
    (FailedPrecondition, "space members must be active users")
  else if error_is e ErrSpaceAlreadyExists then (AlreadyExists, "space already exists")
  else if error_is e ErrSpaceMemberAlreadyExists then
    (AlreadyExists, "space membership or invitation already exists")
  else if error_is e ErrSpaceInvitationNotFound then (NotFound, "space invitation not found")
  else if error_is e ErrSpaceNotFound || error_is e ErrSpaceMemberNotFound then
    (NotFound, "space or membership not found")
  else if error_is e ErrNoRows then (NotFound, "space or membership not found")
  else (Internal, operation).

(** ** Who asks, and for what *)

Definition requireCurrentSpaceUser (userID : Z) : Handler (Z * User) :=
  ask (λ db, current_user db userID "failed to get current user: %v").

(** A read of the store that only the database could make fail. *)
Definition read {A} (m : Tx A) (failure : string) : Handler A := transact m (λ _, (Internal, failure)).

Definition resolveMemberSpace (name : string) (user : Z) : Handler (Space * SpaceMember) :=
  uid ← answer (status_error InvalidArgument "invalid space name: %v" (ExtractSpaceUIDFromName name));
  space ← read (GetSpace (mkFindSpace None [] (Some uid) (Some user) None None)) "failed to get space: %v";
  match space with
  | None => fail NotFound "space not found"
  | Some space =>
      member ← read (GetSpaceMember (mkFindSpaceMember (Some (sp_id space)) (Some user) None None None))
                 "failed to get space membership: %v";
      match member with
      | Some member =>
          if IsActiveMember (sm_role member) then mret (space, member)
          else fail NotFound "space not found"
      | None => fail NotFound "space not found"
      end
  end.

Definition requireSpaceAdministrator (member : option SpaceMember) : Handler unit :=
  guard_h (match member with Some m => is_admin (sm_role m) | None => false end)
    PermissionDenied "space administrator permission required".

(** A space of the user, who administers it. *)
Definition administered_space (name : string) (user : Z) : Handler Space :=
  '(space, membership) ← resolveMemberSpace name user;
  _ ← requireSpaceAdministrator (Some membership);
  mret space.

(** [Store.GetUser] by name. *)
Definition user_named (username : string) : Handler (option (Z * User)) :=
  ask (λ db, Ok (head (users_named username db))).

(** The end of [resolveSpaceInvitationResource]: the invitation of the target, for
    its invitee or an administrator. *)
Definition invitation_for (space : Space) (targetUser : Z * User) (callerMembership : option SpaceMember)
    (currentUser : Z) : Handler (Space * (Z * User) * option SpaceMember * SpaceMember) :=
  let isInvitee := (targetUser.1 =? currentUser)%Z in
  let isAdministrator := match callerMembership with Some m => is_admin (sm_role m) | None => false end in
  _ ← guard_h (isInvitee || isAdministrator) NotFound "space invitation not found";
  invitation ← read (GetSpaceInvitation (mkFindSpaceMember (Some (sp_id space)) (Some targetUser.1)
                       (Some currentUser) None None)) "failed to get space invitation: %v";
  match invitation with
  | Some invitation =>
      _ ← guard_h (negb (convertSpaceMemberRoleFromStore (sm_role invitation) =? ROLE_UNSPECIFIED)%Z)
            NotFound "space invitation not found";
      mret (space, targetUser, callerMembership, invitation)
  | None => fail NotFound "space invitation not found"
  end.

(** The part of it after its name is parsed. *)
Definition invitation_of (spaceUID username : string) (currentUser : Z)
  : Handler (Space * (Z * User) * option SpaceMember * SpaceMember) :=
  space ← read (GetSpace (mkFindSpace None [] (Some spaceUID) None None None)) "failed to resolve invitation space: %v";
  match space with
  | None => fail NotFound "space invitation not found"
  | Some space =>
      targetUser ← user_named username;
      match targetUser with
      | None => fail NotFound "space invitation not found"
      | Some targetUser =>
          callerMembership ← read (GetSpaceMember (mkFindSpaceMember (Some (sp_id space)) (Some currentUser) None None None))
                               "failed to resolve caller space membership: %v";
          invitation_for space targetUser callerMembership currentUser
      end
  end.

Definition resolveSpaceInvitationResource (name : string) (currentUser : Z)
  : Handler (Space * (Z * User) * option SpaceMember * SpaceMember) :=
  '(spaceUID, username) ← answer (status_error InvalidArgument "invalid space invitation name: %v"
                                   (ExtractSpaceInvitationTokensFromName name));
  invitation_of spaceUID username currentUser.

(** [resolveSpaceMemberResource]. *)
Definition resolveSpaceMemberResource (name : string) (currentUser : Z)
  : Handler (Space * (Z * User) * SpaceMember * SpaceMember) :=
  '(spaceUID, username) ← answer (status_error InvalidArgument "invalid space member name: %v"
                                   (ExtractSpaceMemberTokensFromName name));
  '(space, callerMembership) ← resolveMemberSpace (buildSpaceName spaceUID) currentUser;
  username ← answer (status_error Internal "failed to resolve member user: %v"
                       (parseUsernameFromName (BuildUserName username)));
  targetUser ← user_named username;
  match targetUser with
  | None => fail NotFound "space member not found"
  | Some targetUser =>
      _ ← guard_h (String.eqb (us_row_status targetUser.2) Normal) NotFound "space member not found";
      targetMembership ← read (GetSpaceMember (mkFindSpaceMember (Some (sp_id space)) (Some targetUser.1)
                                 (Some currentUser) None None)) "failed to get space membership: %v";
      match targetMembership with
      | Some m =>
          _ ← guard_h (IsActiveMember (sm_role m)) NotFound "space member not found";
          mret (space, targetUser, callerMembership, m)
      | None => fail NotFound "space member not found"
      end
  end.

(** ** Pages *)

Section lists.
Context `{ProtoPageToken}.

Definition listSpacePage (page_size : Z) (page_token : string) : api (Z * Z) :=
  status_error InvalidArgument "invalid page token: %v" (page_of_request page_size page_token).

(** The page that one row more than its limit was read for. *)
Definition space_page {A} (limit offset : Z) (rows : list A) : api (list A * string) :=
  if (Z.of_nat (length rows) =? limit + 1)%Z then
    token ← status_error Internal "failed to create next page token: %v" (getPageToken limit (offset + limit));
    Ok (take (Z.to_nat limit) rows, token)
  else Ok (rows, "").

Definition ListSpaces (userID page_size : Z) (page_token : string) : Handler (list SpaceMessage * string) :=
  currentUser ← requireCurrentSpaceUser userID;
  '(limit, offset) ← answer (listSpacePage page_size page_token);
  spaces ← read (Driver.ListSpaces (mkFindSpace None [] None (Some currentUser.1) (Some (limit + 1)%Z) (Some offset)))
             "failed to list spaces: %v";
  '(spaces, nextPageToken) ← answer (space_page limit offset spaces);
  mret (convertSpaceFromStore <$> spaces, nextPageToken).

(** An invitation whose invitee is gone or whose role is none is left out. *)
Definition invitations_of_space (space : Space) (usersByID : gmap Z User) (invitations : list SpaceMember)
  : list SpaceInvitationMessage :=
  omap (λ i, match usersByID !! sm_user i with
             | Some user =>
                 if (convertSpaceMemberRoleFromStore (sm_role i) =? ROLE_UNSPECIFIED)%Z then None
                 else Some (convertSpaceInvitationFromStore space user i)
             | None => None
             end) invitations.

Definition ListSpaceInvitations (userID : Z) (parent : string) (page_size : Z) (page_token : string)
  : Handler (list SpaceInvitationMessage * string) :=
  currentUser ← requireCurrentSpaceUser userID;
  space ← administered_space parent currentUser.1;
  '(limit, offset) ← answer (listSpacePage page_size page_token);
  invitations ← read (Driver.ListSpaceInvitations (mkFindSpaceMember (Some (sp_id space)) None
                  (Some currentUser.1) (Some (limit + 1)%Z) (Some offset))) "failed to list space invitations: %v";
  '(invitations, nextPageToken) ← answer (space_page limit offset invitations);
  if bool_decide (invitations = []) then mret ([], nextPageToken)
  else
    usersByID ← ask (λ db, Ok (listUsersByID db (sm_user <$> invitations)));
    mret (invitations_of_space space usersByID invitations, nextPageToken).

(** [spacesByID]: a later space of the list replaces an earlier one; ids are
    unique. *)
Definition space_by_id (spaces : list Space) (id : Z) : option Space :=
  list_find (λ s, sp_id s = id) spaces ≫= λ p, Some p.2.

Definition invitations_of_user (spaces : list Space) (user : User) (invitations : list SpaceMember)
  : list SpaceInvitationMessage :=
  omap (λ i, match space_by_id spaces (sm_space i) with
             | Some space =>
                 if (convertSpaceMemberRoleFromStore (sm_role i) =? ROLE_UNSPECIFIED)%Z then None
                 else Some (convertSpaceInvitationFromStore space user i)
             | None => None
             end) invitations.

Definition ListUserSpaceInvitations (userID : Z) (parent : string) (page_size : Z) (page_token : string)
  : Handler (list SpaceInvitationMessage * string) :=
  currentUser ← requireCurrentSpaceUser userID;
  username ← answer (status_error InvalidArgument "invalid user parent: %v" (parseUsernameFromName parent));
  _ ← guard_h (String.eqb username (us_username currentUser.2)) PermissionDenied
        "users may only list their own space invitations";
  '(limit, offset) ← answer (listSpacePage page_size page_token);
  invitations ← read (Driver.ListSpaceInvitations (mkFindSpaceMember None (Some currentUser.1)
                  (Some currentUser.1) (Some (limit + 1)%Z) (Some offset))) "failed to list user space invitations: %v";
  '(invitations, nextPageToken) ← answer (space_page limit offset invitations);
  if bool_decide (invitations = []) then mret ([], nextPageToken)
  else
    spaces ← read (Driver.ListSpaces (mkFindSpace None (sm_space <$> invitations) None None None None))
               "failed to resolve invitation spaces: %v";
    mret (invitations_of_user spaces currentUser.2 invitations, nextPageToken).

(** A membership of a user who is gone or archived, or without a role, is left out. *)
Definition members_of_space (space : Space) (usersByID : gmap Z User) (members : list SpaceMember)
  : list SpaceMemberMessage :=
  omap (λ m, match usersByID !! sm_user m with
             | Some user =>
                 if negb (String.eqb (us_row_status user) Normal)
                    || (convertSpaceMemberRoleFromStore (sm_role m) =? ROLE_UNSPECIFIED)%Z then None
                 else Some (convertSpaceMemberFromStore space user m)
             | None => None
             end) members.

Definition ListSpaceMembers (userID : Z) (parent : string) (page_size : Z) (page_token : string)
  : Handler (list SpaceMemberMessage * string) :=
  currentUser ← requireCurrentSpaceUser userID;
  '(space, _) ← resolveMemberSpace parent currentUser.1;
  '(limit, offset) ← answer (listSpacePage page_size page_token);
  members ← read (Driver.ListSpaceMembers (mkFindSpaceMember (Some (sp_id space)) None
              (Some currentUser.1) (Some (limit + 1)%Z) (Some offset))) "failed to list space members: %v";
  '(members, nextPageToken) ← answer (space_page limit offset members);
  if bool_decide (members = []) then mret ([], nextPageToken)
  else
    usersByID ← ask (λ db, Ok (listUsersByID db (sm_user <$> members)));
    mret (members_of_space space usersByID members, nextPageToken).
End lists.

(** ** Spaces *)

Section writes.
Context `{Instance}.

(** [new_uid] is the identifier drawn. *)
Definition CreateSpace (new_uid : string) (userID : Z) (space_id : string) (space : option SpaceMessage)
  : Handler SpaceMessage :=
  currentUser ← requireCurrentSpaceUser userID;
  match space with
  | None => fail InvalidArgument "space is required"
  | Some space =>
      let title := Str.trim_space (sc_title space) in
      _ ← guard_h (negb (String.eqb title "")) InvalidArgument "space title is required";
      uid ← answer (match ValidateAndGenerateSpaceUID new_uid space_id with
                    | Ok uid => Ok uid
                    | Err e => Err (InvalidArgument, error_message e)
                    end);
      created ← transact (SpaceStore.CreateSpace
                    (mkSpace 0 uid title (Str.trim_space (sc_description space)) "" 0) currentUser.1)
                  (λ e, mapSpaceMutationError e "failed to create space");
      _ ← emit SpaceChanged;
      mret (convertSpaceFromStore created)
  end.

Definition GetSpace (userID : Z) (name : string) : Handler SpaceMessage :=
  currentUser ← requireCurrentSpaceUser userID;
  '(space, _) ← resolveMemberSpace name currentUser.1;
  mret (convertSpaceFromStore space).

(** The loop over the update mask. *)
Fixpoint space_update (space : SpaceMessage) (update : UpdateSpaceReq) (paths : list string)
  : api UpdateSpaceReq :=
  match paths with
  | [] => Ok update
  | path :: paths =>
      if String.eqb path "title" then
        let title := Str.trim_space (sc_title space) in
        if String.eqb title "" then Err (InvalidArgument, "space title is required")
        else space_update space (mkUpdateSpace (us_id update) (Some title) (us_desc update)) paths
      else if String.eqb path "description" then
        space_update space
          (mkUpdateSpace (us_id update) (us_title update) (Some (Str.trim_space (sc_description space)))) paths
      else Err (InvalidArgument, "unsupported update mask path: %s")
  end.

Definition UpdateSpace (userID : Z) (space : option SpaceMessage) (update_mask : list string)
  : Handler SpaceMessage :=
  currentUser ← requireCurrentSpaceUser userID;
  match space with
  | None => fail InvalidArgument "space is required"
  | Some input =>
      _ ← guard_h (negb (bool_decide (update_mask = []))) InvalidArgument "update mask is required";
      space ← administered_space (sc_name input) currentUser.1;
      update ← answer (space_update input (mkUpdateSpace (sp_id space) None None) update_mask);
      updated ← transact (SpaceStore.UpdateSpace update currentUser.1)
                  (λ e, mapSpaceMutationError e "failed to update space");
      _ ← emit SpaceChanged;
      mret (convertSpaceFromStore updated)
  end.

Definition DeleteSpace (userID : Z) (name : string) : Handler unit :=
  currentUser ← requireCurrentSpaceUser userID;
  space ← administered_space name currentUser.1;
  removed ← transact (SpaceStore.DeleteSpace (mkDeleteSpace (sp_id space) currentUser.1))
              (λ e, mapSpaceMutationError e "failed to delete space");
  _ ← emit SpaceChanged;
  cleanupDeletedAttachmentStorage removed "space was deleted but attachment storage cleanup failed: %v".

(** ** Invitations *)

Definition CreateSpaceInvitation (userID : Z) (parent : string) (invitation : option SpaceInvitationMessage)
  : Handler SpaceInvitationMessage :=
  currentUser ← requireCurrentSpaceUser userID;
  match invitation with
  | None => fail InvalidArgument "space invitation is required"
  | Some invitation =>
      space ← administered_space parent currentUser.1;
      targetUsername ← answer (status_error InvalidArgument "invalid invitation invitee: %v"
                                 (parseUsernameFromName (xi_invitee invitation)));
      targetUser ← user_named targetUsername;
      match targetUser with
      | None => fail NotFound "user not found"
      | Some targetUser =>
          _ ← guard_h (String.eqb (us_row_status targetUser.2) Normal) FailedPrecondition
                "only active users can be invited to a space";
          match convertSpaceMemberRoleToStore (xi_role invitation) with
          | None => fail InvalidArgument "space invitation role must be ADMIN or USER"
          | Some role =>
              let expectedName := buildSpaceInvitationName (sp_uid space) (us_username targetUser.2) in
              _ ← guard_h (String.eqb (xi_name invitation) "" || String.eqb (xi_name invitation) expectedName)
                    InvalidArgument "space invitation name does not match parent and invitee";
              created ← transact (SpaceStore.CreateSpaceInvitation
                            (mkSpaceMember (sp_id space) targetUser.1 role) currentUser.1)
                          (λ e, mapSpaceMutationError e "failed to create space invitation");
              _ ← emit SpaceChanged;
              mret (convertSpaceInvitationFromStore space targetUser.2 created)
          end
      end
  end.

Definition GetSpaceInvitation (userID : Z) (name : string) : Handler SpaceInvitationMessage :=
  currentUser ← requireCurrentSpaceUser userID;
  '(space, targetUser, _, invitation) ← resolveSpaceInvitationResource name currentUser.1;
  mret (convertSpaceInvitationFromStore space targetUser.2 invitation).

Definition DeleteSpaceInvitation (userID : Z) (name : string) : Handler unit :=
  currentUser ← requireCurrentSpaceUser userID;
  '(_, targetUser, callerMembership, invitation) ← resolveSpaceInvitationResource name currentUser.1;
  _ ← requireSpaceAdministrator callerMembership;
  _ ← transact (SpaceStore.RevokeSpaceInvitation (sm_space invitation) targetUser.1 currentUser.1)
        (λ e, mapSpaceMutationError e "failed to revoke space invitation");
  emit SpaceChanged.

Definition AcceptSpaceInvitation (userID : Z) (name : string) : Handler SpaceMemberMessage :=
  currentUser ← requireCurrentSpaceUser userID;
  '(space, targetUser, _, invitation) ← resolveSpaceInvitationResource name currentUser.1;
  _ ← guard_h (targetUser.1 =? currentUser.1)%Z PermissionDenied "only the invitee may accept a space invitation";
  member ← transact (SpaceStore.AcceptSpaceInvitation (sm_space invitation) currentUser.1 currentUser.1)
             (λ e, mapSpaceMutationError e "failed to accept space invitation");
  _ ← emit SpaceChanged;
  mret (convertSpaceMemberFromStore space currentUser.2 member).

Definition DeclineSpaceInvitation (userID : Z) (name : string) : Handler unit :=
  currentUser ← requireCurrentSpaceUser userID;
  '(_, targetUser, _, invitation) ← resolveSpaceInvitationResource name currentUser.1;
  _ ← guard_h (targetUser.1 =? currentUser.1)%Z PermissionDenied "only the invitee may decline a space invitation";
  _ ← transact (SpaceStore.DeclineSpaceInvitation (sm_space invitation) currentUser.1 currentUser.1)
        (λ e, mapSpaceMutationError e "failed to decline space invitation");
  emit SpaceChanged.

(** ** Members *)

Definition GetSpaceMember (userID : Z) (name : string) : Handler SpaceMemberMessage :=
  currentUser ← requireCurrentSpaceUser userID;
  '(space, targetUser, _, membership) ← resolveSpaceMemberResource name currentUser.1;
  mret (convertSpaceMemberFromStore space targetUser.2 membership).

Definition UpdateSpaceMember (userID : Z) (member : option SpaceMemberMessage) (update_mask : list string)
  : Handler SpaceMemberMessage :=
  currentUser ← requireCurrentSpaceUser userID;
  match member with
  | None => fail InvalidArgument "space member is required"
  | Some input =>
      _ ← guard_h (negb (bool_decide (update_mask = []))) InvalidArgument "update mask must include role";
      _ ← guard_h (forallb (λ p, String.eqb p "role" || String.eqb p "user") update_mask) InvalidArgument
            "unsupported update mask path: %s";
      _ ← guard_h (bool_decide ("role" ∈ update_mask)) InvalidArgument "update mask must include role";
      '(space, targetUser, callerMembership, targetMembership) ← resolveSpaceMemberResource (xm_name input) currentUser.1;
      let expectedUser := BuildUserName (us_username targetUser.2) in
      _ ← guard_h (negb (bool_decide ("user" ∈ update_mask) && String.eqb (xm_user input) "")) InvalidArgument
            "space member user is required when included in the update mask";
      _ ← guard_h (String.eqb (xm_user input) "" || String.eqb (xm_user input) expectedUser) InvalidArgument
            "space member user does not match name";
      _ ← requireSpaceAdministrator (Some callerMembership);
      match convertSpaceMemberRoleToStore (xm_role input) with
      | None => fail InvalidArgument "space member role must be ADMIN or USER"
      | Some role =>
          updated ← transact (SpaceStore.UpdateSpaceMember (sm_space targetMembership) (sm_user targetMembership)
                                (Some role) currentUser.1)
                      (λ e, mapSpaceMutationError e "failed to update space member");
          _ ← emit SpaceChanged;
          mret (convertSpaceMemberFromStore space targetUser.2 updated)
      end
  end.

Definition DeleteSpaceMember (userID : Z) (name : string) : Handler unit :=
  currentUser ← requireCurrentSpaceUser userID;
  '(_, targetUser, callerMembership, targetMembership) ← resolveSpaceMemberResource name currentUser.1;
  _ ← (if (targetUser.1 =? currentUser.1)%Z then mret tt
       else requireSpaceAdministrator (Some callerMembership));
  _ ← transact (SpaceStore.DeleteSpaceMember (sm_space targetMembership) (sm_user targetMembership) currentUser.1)
        (λ e, mapSpaceMutationError e "failed to delete space member");
  emit SpaceChanged.
End writes.

(** ** Requests, and sequences of them *)

Inductive SpaceRequest :=
| RCreateSpace (space_id : string) (space : option SpaceMessage)
| RGetSpace (name : string)
| RListSpaces (page_size : Z) (page_token : string)
| RUpdateSpace (space : option SpaceMessage) (update_mask : list string)
| RDeleteSpace (name : string)
| RCreateInvitation (parent : string) (invitation : option SpaceInvitationMessage)
| RGetInvitation (name : string)
| RListInvitations (parent : string) (page_size : Z) (page_token : string)
| RListUserInvitations (parent : string) (page_size : Z) (page_token : string)
| RDeleteInvitation (name : string)
| RAcceptInvitation (name : string)
| RDeclineInvitation (name : string)
| RGetMember (name : string)
| RListMembers (parent : string) (page_size : Z) (page_token : string)
| RUpdateMember (member : option SpaceMemberMessage) (update_mask : list string)
| RDeleteMember (name : string).

Inductive SpaceAnswer :=
| ADone
| ASpace (m : SpaceMessage)
| ASpaces (l : list SpaceMessage * string)
| AInvitation (m : SpaceInvitationMessage)
| AInvitations (l : list SpaceInvitationMessage * string)
| AMember (m : SpaceMemberMessage)
| AMembers (l : list SpaceMemberMessage * string).

Section requests.
Context `{Instance} `{ProtoPageToken}.

(** A request of a user, 0 if not signed in, with the identifier drawn for it. *)
Definition handle_space (userID : Z) (drawn : string) (q : SpaceRequest) : Handler SpaceAnswer :=
  match q with
  | RCreateSpace id space => m ← CreateSpace drawn userID id space; mret (ASpace m)
  | RGetSpace name => m ← GetSpace userID name; mret (ASpace m)
  | RListSpaces size token => l ← ListSpaces userID size token; mret (ASpaces l)
  | RUpdateSpace space mask => m ← UpdateSpace userID space mask; mret (ASpace m)
  | RDeleteSpace name => _ ← DeleteSpace userID name; mret ADone
  | RCreateInvitation parent i => m ← CreateSpaceInvitation userID parent i; mret (AInvitation m)
  | RGetInvitation name => m ← GetSpaceInvitation userID name; mret (AInvitation m)
  | RListInvitations parent size token => l ← ListSpaceInvitations userID parent size token; mret (AInvitations l)
  | RListUserInvitations parent size token =>
      l ← ListUserSpaceInvitations userID parent size token; mret (AInvitations l)
  | RDeleteInvitation name => _ ← DeleteSpaceInvitation userID name; mret ADone
  | RAcceptInvitation name => m ← AcceptSpaceInvitation userID name; mret (AMember m)
  | RDeclineInvitation name => _ ← DeclineSpaceInvitation userID name; mret ADone
  | RGetMember name => m ← GetSpaceMember userID name; mret (AMember m)
  | RListMembers parent size token => l ← ListSpaceMembers userID parent size token; mret (AMembers l)
  | RUpdateMember m mask => m ← UpdateSpaceMember userID m mask; mret (AMember m)
  | RDeleteMember name => _ ← DeleteSpaceMember userID name; mret ADone
  end.

(** Requests of several users one after another: the answers and the world left. *)
Fixpoint handle_spaces (qs : list (Z * string * SpaceRequest)) (w : World)
  : list (api SpaceAnswer) * World :=
  match qs with
  | [] => ([], w)
  | (userID, drawn, q) :: qs =>
      let '(r, w1) := handle_space userID drawn q w in
      let '(rs, w2) := handle_spaces qs w1 in
      (r :: rs, w2)
  end.
End requests.
