(* ===== verification/SpacePrivacy.v ===== *)
(** * A space is invisible to those outside it

    What a user without a membership or invitation sees of a space through the
    handlers of [SpaceService]: nothing, not even whether it exists.  The world
    without the space is the world in which its row and its memberships are
    hidden; a handler is [blind] if it answers there as it does here, and leaves
    there what it leaves here, with the space hidden. *)
From S2P Require Import Prelude GoLib GoText GoTime.
From S2P Require Import Store SpaceStore SpaceStoreFacts ResourceName MemoAccess AuthService Paging MemoQuery MemoConvert MemoReads.
From S2P Require Import MemoPrepare MemoService SpaceService MemoQueryFacts MemoReadsFacts PlainMemo.

(** The database without the space [s]: its row and its memberships. *)
Definition hide (s : Z) (db : DB) : DB :=
  set_spaces (delete s) (set_members (filter (λ kv, kv.1.1 ≠ s)) db).
Definition hide_world (s : Z) (w : World) : World := mkWorld (hide s (w_db w)) (w_log w).

(** ** Selections *)

Lemma select_mono {K V} `{Countable K} (c d : K → V → bool) (R : relation (K * V)) `{!RelDecision R}
    (t : gmap K V) :
  (∀ k v, t !! k = Some v → c k v = d k v) → select c R t = select d R t.
Proof.
  intros Hcd. unfold select. do 2 f_equal. apply map_filter_ext. intros k v Hkv. cbn. by rewrite Hcd.
Qed.

Lemma select_filter {K V} `{Countable K} (c : K → V → bool) (R : relation (K * V)) `{!RelDecision R}
    (P : K * V → Prop) `{!∀ x, Decision (P x)} (t : gmap K V) :
  select c R (filter P t) = select (λ k v, c k v && bool_decide (P (k, v))) R t.
Proof.
  unfold select. do 2 f_equal. rewrite map_filter_filter. apply map_filter_ext. intros k v _. cbn.
  rewrite andb_true_iff, bool_decide_eq_true. done.
Qed.

Lemma select_delete {K V} `{Countable K} (c : K → V → bool) (R : relation (K * V)) `{!RelDecision R}
    k (t : gmap K V) :
  select c R (delete k t) = select (λ k' v, c k' v && bool_decide (k' ≠ k)) R t.
Proof.
  trans (select c R (filter (λ kv : K * V, kv.1 ≠ k) t)); [|apply select_filter].
  f_equal. apply map_eq. intros k'. apply option_eq. intros v.
  rewrite map_lookup_filter_Some, lookup_delete_Some. naive_solver.
Qed.

Lemma StronglySorted_filter {A} (R : relation A) (P : A → Prop) `{!∀ x, Decision (P x)} (l : list A) :
  StronglySorted R l → StronglySorted R (filter P l).
Proof.
  induction 1 as [|x l Hl IH Hx]; [constructor|]. rewrite filter_cons. case_decide; [|done].
  constructor; [done|]. rewrite Forall_forall in *. intros y [_ Hy]%list_elem_of_filter. by apply Hx.
Qed.

(** Selecting less keeps the order, if equal keys are all that [R] leaves open. *)
Lemma select_filter_list {K V} `{Countable K} (c : K → V → bool) (R : relation (K * V)) `{!RelDecision R}
    (P : K * V → Prop) `{!∀ x, Decision (P x)} (t : gmap K V) :
  Transitive R → Total R → (∀ a b, R a b → R b a → a.1 = b.1) →
  select (λ k v, c k v && bool_decide (P (k, v))) R t = filter P (select c R t).
Proof.
  intros Htr Htot Hanti.
  assert (∀ k v v', (k, v) ∈ select (λ k v, c k v && bool_decide (P (k, v))) R t →
            (k, v') ∈ select (λ k v, c k v && bool_decide (P (k, v))) R t → v = v') as Hkey.
  { intros k v v' [? _]%elem_of_select [? _]%elem_of_select. congruence. }
  eapply StronglySorted_unique_strong.
  - intros [k v] [k' v'] Hin Hin' Hr Hr'. pose proof (Hanti _ _ Hr Hr') as E. cbn in E. subst k'.
    f_equal. apply (Hkey k); [done|]. apply list_elem_of_filter in Hin' as [HP Hin'].
    apply elem_of_select in Hin' as [Ht Hc]. apply elem_of_select. split; [done|].
    rewrite Hc. by apply bool_decide_eq_true.
  - apply StronglySorted_merge_sort; done.
  - apply StronglySorted_filter, StronglySorted_merge_sort; done.
  - apply NoDup_Permutation.
    + eapply NoDup_fmap_1. instantiate (1 := fst). unfold select. rewrite merge_sort_Permutation.
      apply NoDup_fst_map_to_list.
    + apply NoDup_filter. eapply NoDup_fmap_1. instantiate (1 := fst). unfold select.
      rewrite merge_sort_Permutation. apply NoDup_fst_map_to_list.
    + intros [k v]. rewrite list_elem_of_filter, !elem_of_select, andb_true_iff, bool_decide_eq_true. tauto.
Qed.

Lemma select_delete_list {K V} `{Countable K} (c : K → V → bool) (R : relation (K * V)) `{!RelDecision R}
    k (t : gmap K V) :
  Transitive R → Total R → (∀ a b, R a b → R b a → a.1 = b.1) →
  select c R (delete k t) = filter (λ kv, kv.1 ≠ k) (select c R t).
Proof.
  intros. trans (select (λ k' v, c k' v && bool_decide ((k', v).1 ≠ k)) R t); [apply select_delete|].
  rewrite <- (select_filter_list c R (λ kv, kv.1 ≠ k) t) by done.
  apply select_mono. intros k' v _. done.
Qed.

Lemma omap_filter {A B} (f : A → option B) (P : A → Prop) `{!∀ x, Decision (P x)} (l : list A) :
  (∀ x, x ∈ l → ¬ P x → f x = None) → omap f (filter P l) = omap f l.
Proof.
  induction l as [|x l IH]; intros Hf; [done|]. rewrite filter_cons. cbn.
  assert (omap f (filter P l) = omap f l) as IH' by (apply IH; intros; apply Hf; [by right|done]).
  case_decide; cbn; rewrite IH'; [done|]. rewrite Hf; [done|left|done].
Qed.

#[export] Instance by_id_desc_trans : Transitive by_id_desc.
Proof. unfold by_id_desc. intros ???. lia. Qed.
#[export] Instance by_id_desc_total : Total by_id_desc.
Proof. unfold by_id_desc. intros ??. lia. Qed.
Lemma by_id_desc_anti a b : by_id_desc a b → by_id_desc b a → a.1 = b.1.
Proof. unfold by_id_desc. lia. Qed.

(** ** Blind computations *)

Section blind.
(** The hidden space, its row and its memberships, which do not change. *)
Context (s : Z) (row0 : space_row) (mem0 : Z → option member_row).

Record veiled (db : DB) : Prop := {
  vl_space : spaces db !! s = Some row0;
  vl_members u : members db !! (s, u) = mem0 u;
  vl_uid t row : spaces db !! t = Some row → sr_uid row = sr_uid row0 → t = s;
  vl_next : (s < next_space db)%Z }.

Definition blind_tx {A} (m : Tx A) (K : A → DB → Prop) (db : DB) : Prop :=
  match m db with
  | Ok (a, db') => m (hide s db) = Ok (a, hide s db') ∧ veiled db' ∧ K a db'
  | Err e => m (hide s db) = Err e
  end.

Lemma bt_ret {A} (a : A) (K : A → DB → Prop) db : veiled db → K a db → blind_tx (mret a) K db.
Proof. done. Qed.

Lemma bt_err {A} e (K : A → DB → Prop) db : blind_tx (se_err e) K db.
Proof. done. Qed.

Lemma bt_bind {A B} (m : Tx A) (f : A → Tx B) K db :
  blind_tx m (λ a db', blind_tx (f a) K db') db → blind_tx (m ≫= f) K db.
Proof.
  unfold blind_tx, mbind, SE_bind. destruct (m db) as [[a db']|e]; [|by intros ->].
  intros (-> & _ & Hf). exact Hf.
Qed.

Lemma bt_query {A} (q : DB → A) (K : A → DB → Prop) db :
  veiled db → q (hide s db) = q db → K (q db) db → blind_tx (query q) K db.
Proof. unfold blind_tx, query. by intros ? -> ?. Qed.

Lemma bt_exec f (K : unit → DB → Prop) db :
  f (hide s db) = hide s (f db) → veiled (f db) → K tt (f db) → blind_tx (exec f) K db.
Proof. unfold blind_tx, exec. by intros -> ? ?. Qed.

Lemma bt_require b e (K : unit → DB → Prop) db :
  veiled db → (b = true → K tt db) → blind_tx (require b e) K db.
Proof. intros ? HK. destruct b; [by apply bt_ret; [|apply HK]|apply bt_err]. Qed.

Lemma bt_mono {A} (m : Tx A) (K K' : A → DB → Prop) db :
  (∀ a db', veiled db' → K a db' → K' a db') → blind_tx m K db → blind_tx m K' db.
Proof. unfold blind_tx. intros HK. destruct (m db) as [[a db']|e]; naive_solver. Qed.

Definition blind {A} (m : Handler A) (K : A → World → Prop) (w : World) : Prop :=
  m (hide_world s w) = ((m w).1, hide_world s (m w).2) ∧ veiled (w_db (m w).2) ∧
  match (m w).1 with Ok a => K a (m w).2 | Err _ => True end.

Lemma bl_ret {A} (a : A) (K : A → World → Prop) w : veiled (w_db w) → K a w → blind (mret a) K w.
Proof. done. Qed.

Lemma bl_fail {A} c msg (K : A → World → Prop) w : veiled (w_db w) → blind (fail c msg) K w.
Proof. done. Qed.

Lemma bl_bind {A B} (m : Handler A) (f : A → Handler B) K w :
  blind m (λ a w', blind (f a) K w') w → blind (m ≫= f) K w.
Proof.
  unfold blind, mbind, handler_bind. destruct (m w) as [[a|e] w']; cbn; intros (-> & Hv & Hf); done.
Qed.

Lemma bl_ask {A} (f : DB → api A) (K : A → World → Prop) w :
  veiled (w_db w) → f (hide s (w_db w)) = f (w_db w) → (∀ a, f (w_db w) = Ok a → K a w) → blind (ask f) K w.
Proof. unfold blind, ask. cbn. intros ? -> HK. split; [done|]. split; [done|]. destruct (f (w_db w)); auto. Qed.

Lemma bl_answer {A} (r : api A) (K : A → World → Prop) w :
  veiled (w_db w) → (∀ a, r = Ok a → K a w) → blind (answer r) K w.
Proof. intros ? HK. by apply bl_ask. Qed.

Lemma bl_guard b c msg (K : unit → World → Prop) w :
  veiled (w_db w) → (b = true → K tt w) → blind (guard_h b c msg) K w.
Proof. destruct b; cbn; intros ? HK; [by apply bl_ret, HK | by apply bl_fail]. Qed.

Lemma bl_emit e (K : unit → World → Prop) w :
  veiled (w_db w) → K tt (mkWorld (w_db w) (w_log w ++ [e])) → blind (emit e) K w.
Proof. done. Qed.

Lemma bl_transact {A} (m : Tx A) map (K : A → World → Prop) w :
  veiled (w_db w) → blind_tx m (λ a db, K a (mkWorld db (w_log w))) (w_db w) → blind (transact m map) K w.
Proof.
  unfold blind, blind_tx, transact, run. cbn. intros Hv.
  destruct (m (w_db w)) as [[a db]|e]; [intros (-> & ? & ?) | intros ->]; done.
Qed.

Lemma bl_mono {A} (m : Handler A) (K K' : A → World → Prop) w :
  (∀ a w', veiled (w_db w') → K a w' → K' a w') → blind m K w → blind m K' w.
Proof. unfold blind. intros HK (? & ? & ?). split; [done|]. split; [done|]. destruct (m w).1; auto. Qed.

(** ** What the database without the space answers *)

Section reads.
Context (db : DB) (Hv : veiled db).

Lemma hide_exists t : t ≠ s → space_exists (hide s db) t = space_exists db t.
Proof. intros. unfold space_exists. cbn. by rewrite lookup_delete_ne. Qed.

Lemma hide_member t u : t ≠ s → members (hide s db) !! (t, u) = members db !! (t, u).
Proof.
  intros. cbn. apply option_eq. intros m. rewrite map_lookup_filter_Some. naive_solver.
Qed.

Lemma hide_role t u : t ≠ s → active_member_role (hide s db) t u = active_member_role db t u.
Proof. intros. unfold active_member_role. by rewrite hide_member. Qed.

Lemma hide_count t P : t ≠ s → count_members (hide s db) t P = count_members db t P.
Proof.
  intros. unfold count_members. cbn. f_equal. apply map_filter_filter_l. intros [t' u] m _ (E & _).
  cbn in *. by subst.
Qed.

Lemma hide_summary t u : t ≠ s → Driver.space_summary (hide s db) t u = Driver.space_summary db t u.
Proof. intros. unfold Driver.space_summary. rewrite hide_role by done. by rewrite hide_count. Qed.

Lemma outside_role u : mem0 u = None → active_member_role db s u = None.
Proof. intros Hu. unfold active_member_role. by rewrite (vl_members _ Hv), Hu. Qed.

Lemma outside_summary u : mem0 u = None → Driver.space_summary db s u = None.
Proof. intros. unfold Driver.space_summary. by rewrite outside_role. Qed.

Lemma hide_uid_taken uid :
  uid ≠ sr_uid row0 → Driver.uid_taken (hide s db) uid = Driver.uid_taken db uid.
Proof.
  intros Hne. unfold Driver.uid_taken. apply bool_decide_ext. cbn. split; intros (t & row & Ht & E).
  - apply lookup_delete_Some in Ht as [_ Ht]. by exists t, row.
  - exists t, row. split; [|done]. apply lookup_delete_Some. split; [|done].
    intros Hst. rewrite <- Hst, (vl_space _ Hv) in Ht. naive_solver.
Qed.

(** The list of the spaces of a user outside. *)
Lemma hide_ListSpaces_member find u :
  fs_member_user find = Some u → mem0 u = None →
  Driver.ListSpaces find (hide s db) =
    match Driver.ListSpaces find db with Ok (l, _) => Ok (l, hide s db) | Err e => Err e end.
Proof.
  intros Hu Hout. unfold Driver.ListSpaces, query. do 3 f_equal. rewrite Hu. cbn [spaces set_spaces hide].
  rewrite (select_delete_list _ by_id_desc) by (try apply _; apply by_id_desc_anti).
  assert (∀ l : list (Z * space_row), Forall (λ kv, kv.1 ≠ s) l →
    omap (λ kv : Z * space_row, '(role, count) ← Driver.space_summary (hide s db) kv.1 u;
      Some (mkSpace kv.1 (sr_uid kv.2) (sr_title kv.2) (sr_description kv.2) role count)) l =
    omap (λ kv : Z * space_row, '(role, count) ← Driver.space_summary db kv.1 u;
      Some (mkSpace kv.1 (sr_uid kv.2) (sr_title kv.2) (sr_description kv.2) role count)) l) as Hsame.
  { intros l. induction 1 as [|kv l Hne _ IH]; [done|]. cbn. rewrite hide_summary by done. by rewrite IH. }
  rewrite Hsame.
  - apply omap_filter. intros [t row] _ Ht. cbn in *. apply dec_stable in Ht. subst t. by rewrite outside_summary.
  - apply Forall_forall. by intros kv [? _]%list_elem_of_filter.
Qed.

(** A list of spaces by ids or uids that are not those of the hidden one. *)
Lemma hide_ListSpaces_other find :
  fs_member_user find = None →
  (matches_opt (fs_id find) s && match fs_id_list find with [] => true | l => bool_decide (s ∈ l) end
   && matches_opt (fs_uid find) (sr_uid row0) = false) →
  Driver.ListSpaces find (hide s db) =
    match Driver.ListSpaces find db with Ok (l, _) => Ok (l, hide s db) | Err e => Err e end.
Proof.
  intros Hu Hnot. unfold Driver.ListSpaces, query. do 3 f_equal. rewrite Hu. f_equal.
  cbn [spaces set_spaces hide]. rewrite select_delete. apply select_mono. intros t row Ht.
  destruct (decide (t = s)) as [->|Hne].
  - rewrite (vl_space _ Hv) in Ht. injection Ht as <-. by rewrite Hnot.
  - by rewrite (bool_decide_eq_true_2 _ Hne), andb_true_r.
Qed.

(** The lists of members and invitations a user outside asks for. *)
Lemma hide_is_viewer t v : t ≠ s → Driver.is_viewer (hide s db) t v = Driver.is_viewer db t v.
Proof. intros. unfold Driver.is_viewer. by rewrite hide_role. Qed.

Lemma hide_members_select (c d : Z * Z → member_row → bool) (R : relation ((Z * Z) * member_row)) `{!RelDecision R} :
  (∀ k m, k.1 ≠ s → members db !! k = Some m → c k m = d k m) →
  (∀ u m, mem0 u = Some m → d (s, u) m = false) →
  select c R (members (hide s db)) = select d R (members db).
Proof.
  intros Hcd Hs. cbn. rewrite (select_filter c R (λ kv, kv.1.1 ≠ s)). apply select_mono.
  intros [t u] m Hm. cbn. destruct (decide (t = s)) as [->|Hne].
  - rewrite (vl_members _ Hv) in Hm. rewrite (Hs _ _ Hm). by rewrite bool_decide_eq_false_2, andb_false_r by auto.
  - rewrite bool_decide_eq_true_2, andb_true_r by done. by apply Hcd.
Qed.

Lemma hide_ListSpaceMembers find t :
  fm_space find = Some t → t ≠ s →
  Driver.ListSpaceMembers find (hide s db) =
    match Driver.ListSpaceMembers find db with Ok (l, _) => Ok (l, hide s db) | Err e => Err e end.
Proof.
  intros Ht Hne. unfold Driver.ListSpaceMembers, query. do 4 f_equal. apply hide_members_select.
  - intros k m Hk _. rewrite hide_exists by done. destruct (fm_viewer find); [|done]. by rewrite hide_is_viewer.
  - intros u m _. rewrite Ht. cbn [matches_opt fst]. rewrite (bool_decide_eq_false_2 (s = t)) by done.
    by rewrite !andb_false_r.
Qed.

Lemma hide_ListSpaceInvitations find v :
  fm_viewer find = Some v → mem0 v = None →
  Driver.ListSpaceInvitations find (hide s db) =
    match Driver.ListSpaceInvitations find db with Ok (l, _) => Ok (l, hide s db) | Err e => Err e end.
Proof.
  intros Hf Hout. unfold Driver.ListSpaceInvitations, query. do 4 f_equal. apply hide_members_select.
  - intros k m Hk _. rewrite hide_exists by done. rewrite Hf. by rewrite hide_role.
  - intros u m Hu. rewrite Hf. cbn [fst snd]. rewrite outside_role by done.
    rewrite (bool_decide_eq_false_2 (u = v ∧ _)) by naive_solver. cbn. by rewrite andb_false_r.
Qed.
End reads.

(** ** Transactions on other spaces *)

(** Writes that hiding commutes with. *)
Record harmless (f : DB → DB) (db : DB) : Prop := {
  hm_commutes : f (hide s db) = hide s (f db);
  hm_veiled : veiled db → veiled (f db) }.

Lemma harmless_member t u m db : t ≠ s → harmless (set_members <[(t, u) := m]>) db.
Proof.
  intros Hne. split.
  - apply DB_ext; try done. cbn. rewrite map_filter_insert_True; done.
  - intros [Hs Hm Hu Hn]. split; cbn; try done. intros v. rewrite lookup_insert_ne by congruence. apply Hm.
Qed.

Lemma harmless_no_member t u db : t ≠ s → harmless (set_members (delete (t, u))) db.
Proof.
  intros Hne. split.
  - apply DB_ext; try done. cbn. by rewrite map_filter_delete.
  - intros [Hs Hm Hu Hn]. split; cbn; try done. intros v. rewrite lookup_delete_ne by congruence. apply Hm.
Qed.

Lemma harmless_no_members t db : t ≠ s → harmless (set_members (delete_where (λ k _, (k.1 =? t)%Z))) db.
Proof.
  intros Hne. split.
  - apply DB_ext; try done. cbn. unfold delete_where. apply map_filter_comm.
  - intros [Hs Hm Hu Hn]. split; cbn; try done. intros v. rewrite <- Hm. unfold delete_where.
    apply option_eq. intros m. rewrite map_lookup_filter_Some. cbn.
    destruct (Z.eqb_spec s t); [congruence|naive_solver].
Qed.

Lemma harmless_space t row db :
  t ≠ s → sr_uid row ≠ sr_uid row0 → harmless (set_spaces <[t := row]>) db.
Proof.
  intros Hne Hrow. split.
  - apply DB_ext; try done. cbn. by rewrite delete_insert_ne.
  - intros [Hs Hm Hu Hn]. split; cbn; try done; [by rewrite lookup_insert_ne|].
    intros t' row' [[<- <-]|[_ ?]]%lookup_insert_Some; [done|by eapply Hu].
Qed.

Lemma harmless_no_space t db : t ≠ s → harmless (set_spaces (delete t)) db.
Proof.
  intros Hne. split.
  - apply DB_ext; try done. cbn. apply delete_delete.
  - intros [Hs Hm Hu Hn]. split; cbn; try done; [by rewrite lookup_delete_ne|].
    intros t' row' [_ ?]%lookup_delete_Some. by eapply Hu.
Qed.

Lemma harmless_created row db :
  veiled db → sr_uid row ≠ sr_uid row0 →
  harmless (λ d, set_next (next_user d) (next_space db + 1) (next_memo d) (next_share d)
                   (set_spaces <[next_space db := row]> d)) db.
Proof.
  intros Hv Hrow. pose proof (vl_next _ Hv).
  destruct (harmless_space (next_space db) row db) as [Hc Hk]; [lia|done|]. split.
  - apply DB_ext; try done. cbn. rewrite delete_insert_ne; [done|lia].
  - intros _. destruct (Hk Hv) as [Hs Hm Hu Hn]. split; cbn in *; [done..|lia].
Qed.

Lemma bt_harmless f (K : unit → DB → Prop) db :
  veiled db → harmless f db → K tt (f db) → blind_tx (exec f) K db.
Proof. intros ? [? ?] ?. by apply bt_exec; auto. Qed.

(** One step of a transaction. *)
Ltac bt_step :=
  cbv beta;
  lazymatch goal with
  | |- blind_tx (_ ≫= _) _ _ => apply bt_bind
  | |- blind_tx (mret _) _ _ => apply bt_ret; [done|]
  | |- blind_tx (se_err _) _ _ => apply bt_err
  | |- blind_tx (require _ _) _ _ => apply bt_require; [done|intros ?]
  | |- blind_tx (query _) _ _ => apply bt_query; [done|try reflexivity|]
  | |- blind_tx (let '(_, _) := ?p in _) _ _ => destruct p
  | |- blind_tx (match ?x with _ => _ end) _ _ => destruct x eqn:?
  end.
(** What the hidden database answers about another space. *)
Ltac unseen :=
  first [ by apply hide_exists | by apply hide_member | by apply hide_role | by apply hide_summary
        | by apply hide_count | by apply lookup_delete_ne ].
Ltac bt := repeat (bt_step; try done; try unseen).

Section others.
Context (t : Z) (Ht : t ≠ s).

Lemma bt_requireActiveUser u (K : unit → DB → Prop) db :
  veiled db → K tt db → blind_tx (Driver.requireActiveUser u) K db.
Proof. intros. unfold Driver.requireActiveUser. bt. Qed.

Lemma bt_authorizeSpaceAdmin actor (K : unit → DB → Prop) db :
  veiled db → K tt db → blind_tx (Driver.authorizeSpaceAdmin t actor) K db.
Proof.
  intros. unfold Driver.authorizeSpaceAdmin. bt.
Qed.

Lemma bt_insert_member u m e (K : unit → DB → Prop) db :
  veiled db → (∀ db', veiled db' → K tt db') → blind_tx (Driver.insert_member t u m e) K db.
Proof.
  intros Hv HK. unfold Driver.insert_member. bt.
  pose proof (harmless_member t u m db Ht) as Hh. apply bt_harmless; [done..|]. by apply HK, Hh.
Qed.

Notation quietly m := (∀ db, veiled db → blind_tx m (λ _ _, True) db).

Lemma bt_UpdateSpace title desc actor : quietly (SpaceStore.UpdateSpace (mkUpdateSpace t title desc) actor).
Proof.
  intros db Hv. unfold SpaceStore.UpdateSpace.
  assert (blind_tx (Driver.UpdateSpace (mkUpdateSpace t title desc) actor) (λ _ _, True) db) as Hd.
  { unfold Driver.UpdateSpace. cbn [us_id us_title us_desc]. bt_step. apply bt_authorizeSpaceAdmin; [done|].
    bt. set (row' := mkSpaceRow _ _ _).
    assert (harmless (set_spaces <[t := row']>) db) as Hh.
    { apply harmless_space; [done|]. intros E. apply Ht. by eapply vl_uid. }
    apply bt_harmless; [done..|]. pose proof (hm_veiled _ _ Hh Hv). unfold Driver.populateSpaceSummary. bt. }
  bt.
Qed.

Lemma bt_deleteMemoSetTx ids (K : list (Z * Attachment) → DB → Prop) db :
  veiled db → (∀ ats db', veiled db' → K ats db') → blind_tx (Driver.deleteMemoSetTx ids) K db.
Proof.
  intros Hv HK. unfold blind_tx. rewrite !deleteMemoSetTx_Ok. split; [done|].
  assert (veiled (without_memos ids db)) by (destruct Hv; by split). split; [done|]. by apply HK.
Qed.

Lemma bt_DeleteSpace actor : quietly (SpaceStore.DeleteSpace (mkDeleteSpace t actor)).
Proof.
  intros db Hv. unfold SpaceStore.DeleteSpace. bt. unfold Driver.DeleteSpace. bt_step.
  unfold Driver.requireSpaceDeleteAdmin. cbn [ds_id ds_actor].
  bt.
  apply bt_deleteMemoSetTx; [done|]. intros ats db1 Hv1. bt.
  pose proof (harmless_no_members t db1 Ht) as Hh. apply bt_harmless; [done..|].
  pose proof (hm_veiled _ _ Hh Hv1) as Hv2. bt.
  pose proof (harmless_no_space t (set_members (delete_where (λ k _, (k.1 =? t)%Z)) db1) Ht) as Hh2.
  apply bt_harmless; [done..|]. pose proof (hm_veiled _ _ Hh2 Hv2). bt.
Qed.

Lemma bt_CreateSpaceInvitation u role actor :
  quietly (SpaceStore.CreateSpaceInvitation (mkSpaceMember t u role) actor).
Proof.
  intros db Hv. unfold SpaceStore.CreateSpaceInvitation, Driver.CreateSpaceInvitation. bt.
  apply bt_authorizeSpaceAdmin; [done|]. bt_step. apply bt_requireActiveUser; [done|]. bt_step.
  apply bt_insert_member; [done|]. intros db' Hv'. bt.
Qed.

Lemma bt_AcceptSpaceInvitation u actor : quietly (SpaceStore.AcceptSpaceInvitation t u actor).
Proof.
  intros db Hv. unfold SpaceStore.AcceptSpaceInvitation, Driver.AcceptSpaceInvitation. bt.
  apply bt_requireActiveUser; [done|]. bt.
  match goal with |- blind_tx (exec (set_members <[_ := ?m]>)) _ _ => pose proof (harmless_member t u m db Ht) as Hh end.
  apply bt_harmless; [done..|]. pose proof (hm_veiled _ _ Hh Hv). bt.
Qed.

Lemma bt_delete_invitation u : quietly (Driver.delete_invitation t u).
Proof.
  intros db Hv. unfold Driver.delete_invitation. bt.
  apply bt_harmless; [done| |done]. by apply harmless_no_member.
Qed.

Lemma bt_DeclineSpaceInvitation u actor : quietly (SpaceStore.DeclineSpaceInvitation t u actor).
Proof.
  intros db Hv. unfold SpaceStore.DeclineSpaceInvitation, Driver.DeclineSpaceInvitation. bt.
  apply bt_requireActiveUser; [done|]. by apply bt_delete_invitation.
Qed.

Lemma bt_RevokeSpaceInvitation u actor : quietly (SpaceStore.RevokeSpaceInvitation t u actor).
Proof.
  intros db Hv. unfold SpaceStore.RevokeSpaceInvitation, Driver.RevokeSpaceInvitation. bt.
  apply bt_authorizeSpaceAdmin; [done|]. by apply bt_delete_invitation.
Qed.

Lemma bt_enough_admins (b : bool) (K : unit → DB → Prop) db :
  veiled db → K tt db →
  blind_tx (if b then count ← Driver.admin_count t; require (1 <? count)%nat ErrLastSpaceAdmin else mret tt) K db.
Proof. intros. unfold Driver.admin_count. bt. Qed.

Lemma bt_UpdateSpaceMember u role actor : quietly (SpaceStore.UpdateSpaceMember t u role actor).
Proof.
  intros db Hv. unfold SpaceStore.UpdateSpaceMember, Driver.UpdateSpaceMember. destruct role as [role|]; [|bt].
  bt_step; [bt|]. bt_step. apply bt_authorizeSpaceAdmin; [done|]. bt_step. apply bt_requireActiveUser; [done|].
  bt_step. bt_step; [by apply hide_member|]. bt_step; [|bt]. bt_step; [|bt]. bt_step.
  apply bt_enough_admins; [done|]. bt.
  pose proof (harmless_member t u (mkMember SpaceMemberStatusActive role) db Ht) as Hh.
  apply bt_harmless; [done..|]. pose proof (hm_veiled _ _ Hh Hv). bt.
Qed.

Lemma bt_DeleteSpaceMember u actor : quietly (SpaceStore.DeleteSpaceMember t u actor).
Proof.
  intros db Hv. unfold SpaceStore.DeleteSpaceMember, Driver.DeleteSpaceMember, Driver.admin_count. bt.
  all: apply bt_harmless; [done| |done]; by apply harmless_no_member.
Qed.
End others.

Lemma bt_CreateSpace create creator db :
  sp_uid create ≠ sr_uid row0 → veiled db → blind_tx (SpaceStore.CreateSpace create creator) (λ _ _, True) db.
Proof.
  intros Hne Hv. unfold SpaceStore.CreateSpace, Driver.CreateSpace. bt. apply bt_requireActiveUser; [done|].
  bt_step. bt_step; [by apply hide_uid_taken|]. bt. set (row := mkSpaceRow _ _ _).
  pose proof (harmless_created row db Hv Hne) as Hh. pose proof (vl_next _ Hv).
  apply bt_harmless; [done..|]. pose proof (hm_veiled _ _ Hh Hv) as Hv'. bt_step.
  apply bt_insert_member; [lia|done|]. intros db' Hv2. bt.
Qed.

(** ** What the lists hold *)

Lemma ListSpaces_member_elem find u db l db' space :
  veiled db → fs_member_user find = Some u → mem0 u = None →
  Driver.ListSpaces find db = Ok (l, db') → space ∈ l → sp_id space ≠ s.
Proof.
  intros Hv Hu Hout [= <- <-] Hin%limit_offset_elem. rewrite Hu in Hin.
  apply list_elem_of_omap in Hin as ([t row] & _ & Hsp). cbn in Hsp.
  destruct (Driver.space_summary db t u) as [[role count]|] eqn:Hsum; [|done]. injection Hsp as <-.
  intros E. cbn in E. subst t. by rewrite outside_summary in Hsum.
Qed.

Lemma ListSpaces_uid_elem uid db l db' space :
  veiled db → Driver.ListSpaces (mkFindSpace None [] (Some uid) None None None) db = Ok (l, db') →
  space ∈ l → sp_id space = s ↔ uid = sr_uid row0.
Proof.
  intros Hv [= <- <-] ([t row] & Hin & Hsp)%list_elem_of_omap. injection Hsp as <-.
  apply elem_of_select in Hin as [Ht Hc]. cbn in Hc. apply bool_decide_eq_true in Hc. cbn. split.
  - intros ->. rewrite (vl_space _ Hv) in Ht. by injection Ht as <-.
  - intros ->. by eapply vl_uid.
Qed.

Lemma ListSpaceMembers_elem find t db l db' m :
  fm_space find = Some t → Driver.ListSpaceMembers find db = Ok (l, db') → m ∈ l → sm_space m = t.
Proof.
  intros Ht [= <- <-] Hin%limit_offset_elem. apply list_elem_of_fmap in Hin as ([[t' u] r] & -> & Hin).
  apply elem_of_select in Hin as [_ Hc]. rewrite Ht in Hc. cbn in Hc. by rewrite !andb_true_iff, !bool_decide_eq_true in Hc; naive_solver.
Qed.

Lemma ListSpaceInvitations_elem find db l db' i :
  Driver.ListSpaceInvitations find db = Ok (l, db') → i ∈ l →
  is_Some (members db !! (sm_space i, sm_user i)) ∧ (∀ t, fm_space find = Some t → sm_space i = t) ∧
  (∀ u, fm_user find = Some u → sm_user i = u).
Proof.
  intros [= <- <-] Hin%limit_offset_elem. apply list_elem_of_fmap in Hin as ([[t' u'] r] & -> & Hin).
  apply elem_of_select in Hin as [Hm Hc]. cbn in *. rewrite !andb_true_iff in Hc. split; [by eexists|].
  split; [intros t Ht; rewrite Ht in Hc | intros u Hu; rewrite Hu in Hc]; cbn in Hc; rewrite !bool_decide_eq_true in Hc; tauto.
Qed.

(** ** Reads of handlers *)

Lemma bl_read {A} (m : Tx A) failure (K : A → World → Prop) w :
  veiled (w_db w) →
  m (hide s (w_db w)) = match m (w_db w) with Ok (a, _) => Ok (a, hide s (w_db w)) | Err e => Err e end →
  (∀ a db', m (w_db w) = Ok (a, db') → db' = w_db w) →
  (∀ a, m (w_db w) = Ok (a, w_db w) → K a w) → blind (read m failure) K w.
Proof.
  intros Hv Hm Hro HK. apply bl_transact; [done|]. unfold blind_tx. rewrite Hm.
  destruct (m (w_db w)) as [[a db']|e]; [|done]. rewrite (Hro a db') in * by done.
  split; [done|]. split; [done|]. destruct w. by apply HK.
Qed.

Lemma bl_read_head {A} (m : Tx (list A)) failure (K : option A → World → Prop) w :
  veiled (w_db w) →
  m (hide s (w_db w)) = match m (w_db w) with Ok (a, _) => Ok (a, hide s (w_db w)) | Err e => Err e end →
  (∀ l db', m (w_db w) = Ok (l, db') → db' = w_db w) →
  K None w → (∀ l a, m (w_db w) = Ok (l, w_db w) → a ∈ l → K (Some a) w) →
  blind (read (l ← m; mret (head l)) failure) K w.
Proof.
  intros Hv Hm Hro HN HK. apply bl_read; [done|..]; unfold mbind, SE_bind; rewrite ?Hm;
    destruct (m (w_db w)) as [[l db']|e]; try done.
  - intros a db'' [= _ <-]. by eapply Hro.
  - cbn. intros a [= <- ->]. destruct l as [|x l]; [done|]. eapply HK; [done|]. by left.
Qed.

Lemma ListSpaces_reads find db l db' : Driver.ListSpaces find db = Ok (l, db') → db' = db.
Proof. by intros [= _ <-]. Qed.
Lemma ListSpaceMembers_reads find db l db' : Driver.ListSpaceMembers find db = Ok (l, db') → db' = db.
Proof. by intros [= _ <-]. Qed.
Lemma ListSpaceInvitations_reads find db l db' : Driver.ListSpaceInvitations find db = Ok (l, db') → db' = db.
Proof. by intros [= _ <-]. Qed.

(** One step of a handler. *)
Ltac bl_step :=
  cbv beta;
  lazymatch goal with
  | |- blind (_ ≫= _) _ _ => apply bl_bind
  | |- blind (mret _) _ _ => apply bl_ret; [done|]
  | |- blind (fail _ _) _ _ => apply bl_fail; done
  | |- blind (guard_h _ _ _) _ _ => apply bl_guard; [done|intros ?]
  | |- blind (requireSpaceAdministrator _) _ _ => unfold requireSpaceAdministrator
  | |- blind (answer _) _ _ => apply bl_answer; [done|intros ? ?]
  | |- blind (ask _) _ _ => apply bl_ask; [done|reflexivity|intros ? ?]
  | |- blind (user_named _) _ _ => unfold user_named
  | |- blind (requireCurrentSpaceUser _) _ _ => unfold requireCurrentSpaceUser
  | |- blind (emit _) _ _ => apply bl_emit; [done|]
  | |- blind (let '(_, _) := ?p in _) _ _ => destruct p
  | |- blind (match ?x with _ => _ end) _ _ => destruct x eqn:?
  end.
Ltac bl := repeat (bl_step; try done).

Section outsider.
Context (u : Z) (Hout : mem0 u = None).

Lemma bl_resolveMemberSpace name (K : Space * SpaceMember → World → Prop) w :
  veiled (w_db w) → (∀ space m, sp_id space ≠ s → K (space, m) w) → blind (resolveMemberSpace name u) K w.
Proof.
  intros Hv HK. unfold resolveMemberSpace. bl_step. bl_step. bl_step. unfold SpaceStore.GetSpace.
  apply bl_read_head; [done|by eapply hide_ListSpaces_member|apply ListSpaces_reads|bl|].
  intros l space Hl Hin. bl_step.
  assert (sp_id space ≠ s) by by eapply (ListSpaces_member_elem _ u _ _ _ _ Hv); [| |exact Hl|].
  unfold SpaceStore.GetSpaceMember.
  apply bl_read_head; [done|by eapply hide_ListSpaceMembers|apply ListSpaceMembers_reads|bl|].
  intros l' m _ _. bl. by apply HK.
Qed.

Lemma bl_administered_space name (K : Space → World → Prop) w :
  veiled (w_db w) → (∀ space, sp_id space ≠ s → K space w) → blind (administered_space name u) K w.
Proof.
  intros Hv HK. unfold administered_space. bl_step. apply bl_resolveMemberSpace; [done|]. intros space m Hne.
  bl. by apply HK.
Qed.

(** The hidden space is no member's, nor an invitation's, of the user. *)
Lemma hidden_member_none find db :
  veiled db → fm_space find = Some s → fm_user find = Some u → Driver.ListSpaceMembers find db = Ok ([], db).
Proof.
  intros Hv Hs Hu. unfold Driver.ListSpaceMembers, query. do 2 f_equal.
  destruct (limit_offset _ _ _) as [|m l] eqn:E; [done|]. exfalso.
  assert (m ∈ m :: l) as Hin by left. rewrite <- E in Hin. apply limit_offset_elem in Hin.
  apply list_elem_of_fmap in Hin as ([[t v] r] & -> & Hin). apply elem_of_select in Hin as [Hm Hc].
  rewrite Hs, Hu in Hc. cbn in Hc. rewrite !andb_true_iff, !bool_decide_eq_true in Hc.
  assert (t = s ∧ v = u) as [-> ->] by tauto. by rewrite (vl_members _ Hv), Hout in Hm.
Qed.

Lemma hidden_invitation_none find db :
  veiled db → fm_space find = Some s → fm_user find = Some u → Driver.ListSpaceInvitations find db = Ok ([], db).
Proof.
  intros Hv Hs Hu. unfold Driver.ListSpaceInvitations, query. do 2 f_equal.
  destruct (limit_offset _ _ _) as [|m l] eqn:E; [done|]. exfalso.
  assert (m ∈ m :: l) as Hin by left. rewrite <- E in Hin. apply limit_offset_elem in Hin.
  apply list_elem_of_fmap in Hin as ([[t v] r] & -> & Hin). apply elem_of_select in Hin as [Hm Hc].
  rewrite Hs, Hu in Hc. cbn in Hc. rewrite !andb_true_iff, !bool_decide_eq_true in Hc.
  assert (t = s ∧ v = u) as [-> ->] by tauto. by rewrite (vl_members _ Hv), Hout in Hm.
Qed.

Lemma hidden_space_none db :
  veiled db →
  Driver.ListSpaces (mkFindSpace None [] (Some (sr_uid row0)) None None None) (hide s db) = Ok ([], hide s db).
Proof.
  intros Hv. unfold Driver.ListSpaces, query. do 2 f_equal. cbn [fs_limit fs_offset limit_offset].
  destruct (omap _ _) as [|sp l] eqn:E; [done|]. exfalso. assert (sp ∈ sp :: l) as Hin by left.
  rewrite <- E in Hin. apply list_elem_of_omap in Hin as ([t row] & Hin & _).
  apply elem_of_select in Hin as [Ht Hc]. cbn in Ht, Hc. apply lookup_delete_Some in Ht as [Hne Ht]. apply bool_decide_eq_true in Hc.
  apply Hne. symmetry. by eapply vl_uid.
Qed.

(** Asking for an invitation to the hidden space is refused as if the space were
    not there. *)
Lemma bl_hidden_invitation uid username (K : Space * (Z * User) * option SpaceMember * SpaceMember → World → Prop) w :
  veiled (w_db w) → uid = sr_uid row0 → blind (invitation_of uid username u) K w.
Proof.
  intros Hv ->. destruct w as [db log]. cbn in Hv.
  assert (invitation_of (sr_uid row0) username u (hide_world s (mkWorld db log)) =
          (Err (NotFound, "space invitation not found"), hide_world s (mkWorld db log))) as Hhid.
  { unfold invitation_of, mbind, handler_bind, read, transact, run, hide_world, SpaceStore.GetSpace, mbind, SE_bind.
    cbn [w_db w_log]. by rewrite hidden_space_none. }
  assert (invitation_of (sr_uid row0) username u (mkWorld db log) =
          (Err (NotFound, "space invitation not found"), mkWorld db log)) as Hhere.
  { unfold invitation_of, mbind, handler_bind, read, transact, run, SpaceStore.GetSpace, mbind, SE_bind.
    cbn [w_db w_log]. destruct (Driver.ListSpaces _ db) as [[l db']|e] eqn:Hl; [|by unfold Driver.ListSpaces, query in Hl].
    pose proof (ListSpaces_reads _ _ _ _ Hl) as ->. cbn. destruct l as [|space l]; [done|]. cbn.
    assert (sp_id space = s) as Hid by (eapply ListSpaces_uid_elem; [done|done|by left|done]).
    destruct (head _) as [[v row]|]; [|done]. cbn. rewrite Hid.
    unfold SpaceStore.GetSpaceMember, mbind, SE_bind. rewrite hidden_member_none by done. cbn.
    unfold invitation_for, mbind, handler_bind, read, transact, run. cbn. rewrite orb_false_r.
    destruct (Z.eqb_spec v u) as [->|]; [|done]. cbn. unfold SpaceStore.GetSpaceInvitation, mbind, SE_bind.
    rewrite Hid. by rewrite hidden_invitation_none. }
  unfold blind. rewrite Hhid, Hhere. done.
Qed.

Lemma bl_resolveSpaceInvitationResource name (K : Space * (Z * User) * option SpaceMember * SpaceMember → World → Prop) w :
  veiled (w_db w) →
  (∀ space target caller i, sp_id space ≠ s → sm_space i ≠ s → K (space, target, caller, i) w) →
  blind (resolveSpaceInvitationResource name u) K w.
Proof.
  intros Hv HK. unfold resolveSpaceInvitationResource. bl_step. bl_step.
  destruct a as [uid username]. destruct (decide (uid = sr_uid row0)) as [Huid|Huid]; [by apply bl_hidden_invitation|].
  unfold invitation_of. bl_step. unfold SpaceStore.GetSpace.
  apply bl_read_head; [done| |apply ListSpaces_reads|bl|].
  { apply hide_ListSpaces_other; [done..|]. cbn. by apply bool_decide_eq_false_2. }
  intros l space Hl Hin. pose proof (ListSpaces_uid_elem _ _ _ _ _ Hv Hl Hin) as Hid.
  assert (sp_id space ≠ s) as Hsp by tauto.
  assert (∀ target caller, blind (invitation_for space target caller u) K w) as Hrest.
  { intros target caller. unfold invitation_for. bl_step. bl_step. bl_step. unfold SpaceStore.GetSpaceInvitation.
    apply bl_read_head; [done|by eapply hide_ListSpaceInvitations|apply ListSpaceInvitations_reads|bl|].
    intros l' i Hl' Hi. destruct (ListSpaceInvitations_elem _ _ _ _ _ Hl' Hi) as (_ & Hi' & _).
    specialize (Hi' _ eq_refl). bl. apply HK; [done|]. by rewrite Hi'. }
  bl. unfold SpaceStore.GetSpaceMember.
  apply bl_read_head; [done|by eapply hide_ListSpaceMembers|apply ListSpaceMembers_reads|apply Hrest|].
  intros; apply Hrest.
Qed.

Lemma bl_resolveSpaceMemberResource name (K : Space * (Z * User) * SpaceMember * SpaceMember → World → Prop) w :
  veiled (w_db w) →
  (∀ space target caller m, sp_id space ≠ s → sm_space m ≠ s → K (space, target, caller, m) w) →
  blind (resolveSpaceMemberResource name u) K w.
Proof.
  intros Hv HK. unfold resolveSpaceMemberResource. bl_step. bl_step. bl_step. bl_step.
  apply bl_resolveMemberSpace; [done|]. intros space m Hne. bl_step. bl_step. bl_step. bl_step. bl_step. bl_step; [|bl].
  bl_step. bl_step. bl_step. unfold SpaceStore.GetSpaceMember.
  apply bl_read_head; [done|by eapply hide_ListSpaceMembers|apply ListSpaceMembers_reads|bl|].
  intros l m' Hl Hin. assert (sm_space m' = sp_id space) as E by by eapply ListSpaceMembers_elem; [|exact Hl|].
  bl. apply HK; [done|]. by rewrite E.
Qed.
End outsider.

(** ** The handlers *)

Section handlers.
Context `{Instance} `{ProtoPageToken} (userID : Z) (Hout : mem0 userID = None).

(** The user of the request is the one signed in. *)
Lemma bl_requireCurrentSpaceUser (K : Z * User → World → Prop) w :
  veiled (w_db w) → (∀ row, K (userID, row) w) → blind (requireCurrentSpaceUser userID) K w.
Proof.
  intros Hv HK. unfold requireCurrentSpaceUser. apply bl_ask; [done|done|]. intros [v row] Hu.
  enough (v = userID) as -> by apply HK. unfold current_user, MemoAccess.fetchCurrentUser in Hu.
  apply bind_Ok in Hu as ([r|] & Hr%status_error_Ok & Hu); [|done]. injection Hu as ->.
  destruct (userID =? 0)%Z; [done|]. destruct (users (w_db w) !! userID) as [u|]; [|done].
  destruct (String.eqb _ _); [|done]. by injection Hr.
Qed.

Lemma bl_quiet {A} (m : Tx A) map (K : A → World → Prop) w :
  veiled (w_db w) → blind_tx m (λ _ _, True) (w_db w) → (∀ a w', veiled (w_db w') → K a w') →
  blind (transact m map) K w.
Proof.
  intros Hv Hm HK. apply bl_transact; [done|]. revert Hm. apply bt_mono. intros a db' Hv' _. by apply HK.
Qed.

Lemma bl_cleanup removed msg (K : unit → World → Prop) w :
  veiled (w_db w) → (∀ w', veiled (w_db w') → K tt w') → blind (cleanupDeletedAttachmentStorage removed msg) K w.
Proof. intros Hv HK. unfold cleanupDeletedAttachmentStorage. bl. by apply HK. Qed.

Lemma bl_list_read {A} (m : Tx (list A)) failure (K : list A → World → Prop) w :
  veiled (w_db w) →
  m (hide s (w_db w)) = match m (w_db w) with Ok (a, _) => Ok (a, hide s (w_db w)) | Err e => Err e end →
  (∀ l db', m (w_db w) = Ok (l, db') → db' = w_db w) →
  (∀ l, m (w_db w) = Ok (l, w_db w) → K l w) → blind (read m failure) K w.
Proof. apply bl_read. Qed.

Lemma space_update_id input up paths up' : space_update input up paths = Ok up' → us_id up' = us_id up.
Proof.
  revert up. induction paths as [|path paths IH]; intros up; cbn; [by intros [= <-]|].
  repeat case_match; try done; intros Hup; by rewrite (IH _ Hup).
Qed.

(** The spaces of a page of invitations are not the hidden one. *)
Lemma page_ids find db l l0 limit offset token :
  veiled db → fm_user find = Some userID → Driver.ListSpaceInvitations find db = Ok (l, db) →
  space_page limit offset l = Ok (l0, token) → bool_decide (l0 = []) = false →
  match sm_space <$> l0 with [] => true | ids => bool_decide (s ∈ ids) end && true = false.
Proof.
  intros Hv Hu Hl Hp Hne%bool_decide_eq_false.
  assert (∀ i, i ∈ l0 → i ∈ l) as Hsub.
  { unfold space_page in Hp. destruct (_ =? _)%Z; [|by injection Hp as <- _].
    apply bind_Ok in Hp as (? & _ & [= <- _]). intros i (k & Hk & _)%elem_of_take.
    by eapply list_elem_of_lookup_2. }
  destruct l0 as [|i l0]; [done|]. rewrite andb_true_r. cbn [fmap list_fmap].
  apply bool_decide_eq_false. intros (j & E & Hj)%(list_elem_of_fmap sm_space (i :: l0)).
  destruct (ListSpaceInvitations_elem _ _ _ _ _ Hl (Hsub _ Hj)) as ([m Hm] & _ & Huser).
  rewrite (Huser _ Hu), <- E, (vl_members _ Hv), Hout in Hm. done.
Qed.

Notation answered m w := (blind m (λ _ _, True) w).

Ltac open_handler :=
  cbv beta delta [CreateSpace GetSpace ListSpaces UpdateSpace DeleteSpace CreateSpaceInvitation
    GetSpaceInvitation ListSpaceInvitations ListUserSpaceInvitations DeleteSpaceInvitation
    AcceptSpaceInvitation DeclineSpaceInvitation GetSpaceMember ListSpaceMembers UpdateSpaceMember
    DeleteSpaceMember];
  bl_step; apply bl_requireCurrentSpaceUser; [done|intros me]; cbn [fst snd].

(** Whatever a request of the user outside, but creating a space of the same name. *)
Lemma bl_handle_space drawn q w :
  (∀ id space, q = RCreateSpace id space → ValidateAndGenerateSpaceUID drawn id ≠ Ok (sr_uid row0)) →
  veiled (w_db w) → answered (handle_space userID drawn q) w.
Proof.
  intros Hq Hv. destruct q; cbn [handle_space]; apply bl_bind; open_handler.
  - bl. apply bl_quiet; [done|apply bt_CreateSpace; [|done]|intros; bl].
    cbn. intros ->. eapply Hq; [done|]. by destruct (ValidateAndGenerateSpaceUID _ _); congruence.
  - bl_step. apply bl_resolveMemberSpace; [done..|]. intros. bl.
  - bl. apply bl_read; [done|by eapply hide_ListSpaces_member|apply ListSpaces_reads|]. intros. bl.
  - bl. apply bl_administered_space; [done..|]. intros space' Hne. bl_step. bl_step. bl_step.
    match goal with E : space_update _ _ _ = Ok _ |- _ => apply space_update_id in E; destruct a as [t title desc]; cbn in E; subst t end.
    apply bl_quiet; [done|by apply bt_UpdateSpace|intros; bl].
  - bl_step. apply bl_administered_space; [done..|]. intros space' Hne. bl_step.
    apply bl_quiet; [done|by apply bt_DeleteSpace|intros]. bl_step. bl_step. by apply bl_cleanup; [|intros; bl].
  - bl. apply bl_administered_space; [done..|]. intros space' Hne. bl.
    apply bl_quiet; [done|by apply bt_CreateSpaceInvitation|intros; bl].
  - bl_step. apply bl_resolveSpaceInvitationResource; [done..|]. intros space target caller i ??. bl.
  - bl_step. apply bl_administered_space; [done..|]. intros space' Hne. bl.
    apply bl_read; [done|by eapply hide_ListSpaceInvitations|apply ListSpaceInvitations_reads|]. intros l Hl. bl.
  - bl. apply bl_read; [done|by eapply hide_ListSpaceInvitations|apply ListSpaceInvitations_reads|]. intros l Hl. bl.
    apply bl_read; [done| |apply ListSpaces_reads|intros; bl].
    apply hide_ListSpaces_other; [done..|]. cbn. by eapply page_ids; [| |exact Hl| |].
  - bl_step. apply bl_resolveSpaceInvitationResource; [done..|]. intros space target caller i ??. bl.
    apply bl_quiet; [done|by apply bt_RevokeSpaceInvitation|intros; bl].
  - bl_step. apply bl_resolveSpaceInvitationResource; [done..|]. intros space target caller i ??. bl.
    apply bl_quiet; [done|by apply bt_AcceptSpaceInvitation|intros; bl].
  - bl_step. apply bl_resolveSpaceInvitationResource; [done..|]. intros space target caller i ??. bl.
    apply bl_quiet; [done|by apply bt_DeclineSpaceInvitation|intros; bl].
  - bl_step. apply bl_resolveSpaceMemberResource; [done..|]. intros space target caller i ??. bl.
  - bl_step. apply bl_resolveMemberSpace; [done..|]. intros space' m Hne. bl.
    apply bl_read; [done|by eapply hide_ListSpaceMembers|apply ListSpaceMembers_reads|]. intros l Hl. bl.
  - bl. apply bl_resolveSpaceMemberResource; [done..|]. intros space target caller i ??. bl.
    apply bl_quiet; [done|by apply bt_UpdateSpaceMember|intros; bl].
  - bl_step. apply bl_resolveSpaceMemberResource; [done..|]. intros space target caller i ??. bl.
    all: apply bl_quiet; [done|by apply bt_DeleteSpaceMember|intros; bl].
Qed.
End handlers.
End blind.

(** ** Sequences of requests *)

Section sequences.
Context `{Instance} `{ProtoPageToken}.

(** A request of somebody outside the space that does not create a space of the
    same name. *)
Definition outside_request (s : Z) (uid : string) (db : DB) (r : Z * string * SpaceRequest) : Prop :=
  members db !! (s, r.1.1) = None ∧
  ∀ id space, r.2 = RCreateSpace id space → ValidateAndGenerateSpaceUID r.1.2 id ≠ Ok uid.

Lemma handle_spaces_blind s row0 mem0 qs w :
  veiled s row0 mem0 (w_db w) →
  Forall (λ r, mem0 r.1.1 = None ∧
    ∀ id space, r.2 = RCreateSpace id space → ValidateAndGenerateSpaceUID r.1.2 id ≠ Ok (sr_uid row0)) qs →
  handle_spaces qs (hide_world s w) = ((handle_spaces qs w).1, hide_world s (handle_spaces qs w).2) ∧
  veiled s row0 mem0 (w_db (handle_spaces qs w).2).
Proof.
  intros Hv Hqs. revert w Hv. induction Hqs as [|[[u drawn] q] qs [Hout Hq] _ IH]; intros w Hv; [done|].
  destruct (bl_handle_space s row0 mem0 u Hout drawn q w Hq Hv) as (E & Hv' & _). cbn [handle_spaces]. rewrite E.
  destruct (handle_space u drawn q w) as [r w1]. cbn in *. destruct (IH w1 Hv') as [E1 Hv1]. rewrite E1.
  by destruct (handle_spaces qs w1).
Qed.

(** C5. A space is invisible to those outside it, but for its name.  Whatever users
    without a membership or an invitation ask of the space API, in whatever order
    and number - listing, guessing names, inviting, accepting, updating, deleting -,
    except creating a space of the very same name, every answer, error messages
    included, and every event is the one they would get if the space did not exist;
    their requests have the same effect on everything else, and leave the space and
    its members alone.  The exception is needed: a request to create a space of the
    same name is answered [AlreadyExists]. *)
Theorem space_invisible_to_outsiders s row0 qs w :
  spaces (w_db w) !! s = Some row0 → (s < next_space (w_db w))%Z →
  (∀ t row, spaces (w_db w) !! t = Some row → sr_uid row = sr_uid row0 → t = s) →
  Forall (outside_request s (sr_uid row0) (w_db w)) qs →
  let there := handle_spaces qs w in
  handle_spaces qs (hide_world s w) = (there.1, hide_world s there.2) ∧
  spaces (w_db there.2) !! s = Some row0 ∧
  ∀ u, members (w_db there.2) !! (s, u) = members (w_db w) !! (s, u).
Proof.
  intros Hs Hn Hu Hqs there.
  assert (veiled s row0 (λ u, members (w_db w) !! (s, u)) (w_db w)) as Hv by by split.
  destruct (handle_spaces_blind s row0 _ qs w Hv Hqs) as [E [Hs' Hm' _ _]]. by split_and!.
Qed.
End sequences.

(** Cyd, outside Ada's space, looks for it, and makes one of his own. *)
Definition two_users_db : DB :=
  mkDB {[ 1%Z := mkUser "ada" "USER" "" "" "" "" "" 0 0 Normal; 2%Z := mkUser "cyd" "USER" "" "" "" "" "" 0 0 Normal ]}
    {[ 1%Z := mkSpaceRow "team" "Team" "" ]}
    {[ (1, 1)%Z := mkMember SpaceMemberStatusActive SpaceMemberRoleAdmin ]}
    ∅ ∅ ∅ ∅ ∅ ∅ ∅ ∅ 3 2 1 1 1 1.

Definition cyd_looks : list (Z * string * SpaceRequest) :=
  [(2%Z, "", RGetSpace "spaces/team"); (2%Z, "", RAcceptInvitation "spaces/team/invitations/cyd");
   (2%Z, "", RDeleteMember "spaces/team/members/ada");
   (2%Z, "", RCreateSpace "mine" (Some (mkSpaceMessage "" "Mine" "" 0 0)));
   (2%Z, "", RCreateInvitation "spaces/mine" (Some (mkInvitationMessage "" "users/ada" USER None)))].

Lemma space_invisible_to_outsiders_witness :
  let w := mkWorld two_users_db [] in
  handle_spaces cyd_looks (hide_world 1 w) = ((handle_spaces cyd_looks w).1, hide_world 1 (handle_spaces cyd_looks w).2) ∧
  take 3 (handle_spaces cyd_looks w).1 =
    [Err (NotFound, "space not found"); Err (NotFound, "space invitation not found"); Err (NotFound, "space not found")] ∧
  length (w_log (handle_spaces cyd_looks w).2) = 2.
Proof.
  intros w. split; [|by vm_compute].
  apply (space_invisible_to_outsiders 1 (mkSpaceRow "team" "Team" "") cyd_looks w).
  - done.
  - done.
  - intros t row. cbn. by intros [-> _]%lookup_singleton_Some.
  - assert (members (w_db w) !! (1%Z, 2%Z) = None) as Hn by done.
    assert (ValidateAndGenerateSpaceUID "" "mine" ≠ Ok "team") as Hne by by vm_compute.
    repeat constructor; cbn; try done; intros id space [= <- <-]; exact Hne.
Defined.
