(* ===== verification/SpaceRefinement.v ===== *)
(** * The space API implements the operations of the store

    Every request to the handlers of [SpaceService] is one operation of the store
    ([SpaceSafety.serve]) by the user signed in, on the space and the users its
    names name, or changes nothing.  So what [SpaceSafety] shows of histories of
    operations holds of histories of API requests. *)
From S2P Require Import Prelude GoLib GoText GoTime.
From S2P Require Import Store SpaceStore SpaceStoreFacts SpaceSafety ResourceName MemoAccess AuthService Paging MemoQuery MemoConvert MemoReads.
From S2P Require Import MemoPrepare MemoService MemoHandlers SpaceService MemoQueryFacts MemoReadsFacts SessionFacts HandlerFacts PlainMemo.

(** ** What a request asks of the store *)

Definition named_space (db : DB) (name : string) (s : Z) : Prop :=
  ∃ row, spaces db !! s = Some row ∧ name = buildSpaceName (sr_uid row).
Definition named_member (db : DB) (name : string) (s u : Z) : Prop :=
  ∃ row user, spaces db !! s = Some row ∧ users db !! u = Some user ∧
    name = buildSpaceMemberName (sr_uid row) (us_username user).
Definition named_invitation (db : DB) (name : string) (s u : Z) : Prop :=
  ∃ row user, spaces db !! s = Some row ∧ users db !! u = Some user ∧
    name = buildSpaceInvitationName (sr_uid row) (us_username user).

Definition masked (mask : list string) (path value : string) : option string :=
  if bool_decide (path ∈ mask) then Some (Str.trim_space value) else None.

(** The operation a request of user [u] stands for. *)
Definition asks (db : DB) (u : Z) (drawn : string) (q : SpaceRequest) (op : space_op) : Prop :=
  match q, op with
  | RCreateSpace id (Some input), OpCreateSpace create creator =>
      creator = u ∧ ∃ uid, ValidateAndGenerateSpaceUID drawn id = Ok uid ∧
        create = mkSpace 0 uid (Str.trim_space (sc_title input)) (Str.trim_space (sc_description input)) "" 0
  | RUpdateSpace (Some input) mask, OpUpdateSpace update actor =>
      actor = u ∧ named_space db (sc_name input) (us_id update) ∧
      us_title update = masked mask "title" (sc_title input) ∧
      us_desc update = masked mask "description" (sc_description input)
  | RDeleteSpace name, OpDeleteSpace del => ds_actor del = u ∧ named_space db name (ds_id del)
  | RCreateInvitation parent (Some input), OpInvite invitation actor =>
      actor = u ∧ named_space db parent (sm_space invitation) ∧
      (∃ user, users db !! sm_user invitation = Some user ∧ xi_invitee input = BuildUserName (us_username user)) ∧
      convertSpaceMemberRoleToStore (xi_role input) = Some (sm_role invitation)
  | RDeleteInvitation name, OpRevoke s v actor => actor = u ∧ named_invitation db name s v
  | RAcceptInvitation name, OpAccept s v actor => actor = u ∧ v = u ∧ named_invitation db name s u
  | RDeclineInvitation name, OpDecline s v actor => actor = u ∧ v = u ∧ named_invitation db name s u
  | RUpdateMember (Some input) mask, OpUpdateMember s v role actor =>
      actor = u ∧ named_member db (xm_name input) s v ∧
      role = convertSpaceMemberRoleToStore (xm_role input)
  | RDeleteMember name, OpDeleteMember s v actor => actor = u ∧ named_member db name s v
  | _, _ => False
  end.

Definition reading (q : SpaceRequest) : bool :=
  match q with
  | RGetSpace _ | RListSpaces _ _ | RGetInvitation _ | RListInvitations _ _ _ | RListUserInvitations _ _ _
  | RGetMember _ | RListMembers _ _ _ => true
  | _ => false
  end.

(** ** Names *)

Lemma extract2_Ok p1 p2 name a b :
  valid_prefix p1 → valid_prefix p2 → extract2 p1 p2 name = Ok (a, b) → name = p1 +:+ a +:+ "/" +:+ p2 +:+ b.
Proof.
  unfold extract2. intros Hp1 Hp2 H. inv_ok.
  match goal with H : GetNameParentTokens _ _ = Ok ?ts |- _ =>
    apply GetNameParentTokens_iff in H as (-> & Hl & Hv); [|done|by repeat constructor];
    destruct ts as [|t [|t' [|]]]; try done end.
  unfold token in *. cbn in *. by simplify_eq.
Qed.

Lemma user_named_elem name db u row :
  head (users_named name db) = Some (u, row) → users db !! u = Some row ∧ us_username row = name.
Proof.
  intros Hh. apply elem_of_users_named. destruct (users_named name db) as [|x l]; [done|].
  injection Hh as ->. by left.
Qed.

(** ** The handlers *)

Section handlers.
Context (w0 : World) (I : World → Prop) (HI : I w0).

Lemma after_read {A} (m : Tx A) failure (K : A → World → Prop) :
  (∀ a db', m (w_db w0) = Ok (a, db') → db' = w_db w0) →
  (∀ a, m (w_db w0) = Ok (a, w_db w0) → K a w0) → after (read m failure) I K w0.
Proof.
  intros Hro HK. apply after_transact; [done|]. intros a db' Hm. pose proof (Hro _ _ Hm) as ->.
  destruct w0. by apply HK.
Qed.

Lemma after_read_head {A} (m : Tx (list A)) failure (K : option A → World → Prop) :
  (∀ a db', m (w_db w0) = Ok (a, db') → db' = w_db w0) →
  K None w0 → (∀ l a, m (w_db w0) = Ok (l, w_db w0) → a ∈ l → K (Some a) w0) →
  after (read (l ← m; mret (head l)) failure) I K w0.
Proof.
  intros Hro HN HK. apply after_read; unfold mbind, SE_bind; destruct (m (w_db w0)) as [[l db']|e] eqn:Hm; try done.
  - intros a db'' [= _ <-]. by eapply Hro.
  - intros a [= <- ->]. destruct l as [|x l]; [done|]. eapply HK; [done|]. by left.
Qed.

Lemma after_current_user userID (K : Z * User → World → Prop) :
  (∀ row, users (w_db w0) !! userID = Some row → active_user (w_db w0) userID → K (userID, row) w0) →
  after (requireCurrentSpaceUser userID) I K w0.
Proof.
  intros HK. unfold requireCurrentSpaceUser. apply after_ask; [done|]. intros [v row] Hu. unfold current_user in Hu.
  apply bind_Ok in Hu as ([r|] & Hr%status_error_Ok & Hu); [|done]. injection Hu as ->.
  unfold MemoAccess.fetchCurrentUser in Hr. destruct (userID =? 0)%Z; [done|].
  destruct (users (w_db w0) !! userID) as [u|] eqn:Hu; [|done]. destruct (String.eqb_spec (us_row_status u) Normal); [|done].
  injection Hr as <- <-. apply HK; [done|]. unfold active_user, user_status. rewrite Hu. cbn. by f_equal.
Qed.

Lemma ListSpaces_row uid member l space db db' :
  Driver.ListSpaces (mkFindSpace None [] (Some uid) member None None) db = Ok (l, db') → space ∈ l →
  ∃ row, spaces db !! sp_id space = Some row ∧ sr_uid row = uid ∧ sp_uid space = uid.
Proof.
  intros [= <- <-] ([t row] & Hin & Hsp)%list_elem_of_omap. apply elem_of_select in Hin as [Ht Hc].
  cbn in Hc. apply bool_decide_eq_true in Hc. exists row.
  destruct member as [u|]; cbn in Hsp; [|by injection Hsp as <-].
  destruct (Driver.space_summary db t u) as [[role count]|]; [|done]. by injection Hsp as <-.
Qed.

Lemma after_resolveMemberSpace name u (K : Space * SpaceMember → World → Prop) :
  (∀ space m, named_space (w_db w0) name (sp_id space) → name = buildSpaceName (sp_uid space) → K (space, m) w0) →
  after (resolveMemberSpace name u) I K w0.
Proof.
  intros HK. unfold resolveMemberSpace. handler_step. handler_step; [done|]. apply status_error_Ok in E.
  apply extract1_Ok in E as [-> _]; [|by exists "spaces"]. handler_step. unfold SpaceStore.GetSpace.
  apply after_read_head; [by intros ?? [= _ <-]|by handler|]. intros l space Hl Hin.
  destruct (ListSpaces_row _ _ _ _ _ _ Hl Hin) as (row & Hrow & Huid & Hsp).
  handler_step. unfold SpaceStore.GetSpaceMember.
  apply after_read_head; [by intros ?? [= _ <-]|by handler|]. intros l' m _ _. handler.
  apply HK; [exists row; by rewrite Huid | by rewrite Hsp].
Qed.

Lemma after_administered_space name u (K : Space → World → Prop) :
  (∀ space, named_space (w_db w0) name (sp_id space) → K space w0) → after (administered_space name u) I K w0.
Proof.
  intros HK. unfold administered_space. handler_step. apply after_resolveMemberSpace. intros space m Hn _.
  unfold requireSpaceAdministrator. handler. by apply HK.
Qed.

Lemma after_resolveSpaceInvitationResource name u (K : Space * (Z * User) * option SpaceMember * SpaceMember → World → Prop) :
  (∀ space v row caller i, named_invitation (w_db w0) name (sm_space i) v → K (space, (v, row), caller, i) w0) →
  after (resolveSpaceInvitationResource name u) I K w0.
Proof.
  intros HK. unfold resolveSpaceInvitationResource, invitation_of. handler_step. handler_step; [done|].
  destruct a as [uid username]. apply status_error_Ok in E. apply extract2_Ok in E; [|by exists "spaces"|by exists "invitations"].
  handler_step. unfold SpaceStore.GetSpace.
  apply after_read_head; [by intros ?? [= _ <-]|by handler|]. intros l space Hl Hin.
  destruct (ListSpaces_row _ _ _ _ _ _ Hl Hin) as (row & Hrow & Huid & _).
  unfold user_named. handler_step. handler_step; [done|]. injection E0 as <-.
  destruct (head (users_named username (w_db w0))) as [[v vrow]|] eqn:Hv; [|by handler].
  apply user_named_elem in Hv as [Hv Hname].
  assert (∀ caller, after (invitation_for space (v, vrow) caller u) I K w0) as Hrest.
  { intros caller. unfold invitation_for. handler_step. handler_step; [done|]. handler_step.
    unfold SpaceStore.GetSpaceInvitation. apply after_read_head; [by intros ?? [= _ <-]|by handler|].
    intros l' i [= <-] ([[s t] r] & -> & Hi)%list_elem_of_fmap. apply elem_of_select in Hi as [_ Hc].
    cbn in Hc. rewrite !andb_true_iff, !bool_decide_eq_true in Hc. handler. apply HK. cbn.
    assert (s = sp_id space ∧ t = v) as [-> ->] by tauto. exists row, vrow. split_and!; [done..|].
    by rewrite E, Huid, Hname. }
  handler_step. unfold SpaceStore.GetSpaceMember.
  apply after_read_head; [by intros ?? [= _ <-]|apply Hrest|]. intros; apply Hrest.
Qed.

Lemma after_resolveSpaceMemberResource name u (K : Space * (Z * User) * SpaceMember * SpaceMember → World → Prop) :
  (∀ space v row caller m, named_member (w_db w0) name (sm_space m) (sm_user m) → K (space, (v, row), caller, m) w0) →
  after (resolveSpaceMemberResource name u) I K w0.
Proof.
  intros HK. unfold resolveSpaceMemberResource. handler_step. handler_step; [done|].
  destruct a as [uid username]. apply status_error_Ok in E. apply extract2_Ok in E; [|by exists "spaces"|by exists "members"].
  handler_step. apply after_resolveMemberSpace. intros space m (row & Hrow & Hname) _.
  handler_step. handler_step; [done|]. apply status_error_Ok, parseUsername_Ok in E0.
  unfold user_named. handler_step. handler_step; [done|]. injection E1 as <-.
  destruct (head (users_named a (w_db w0))) as [[v vrow]|] eqn:Hv; [|by handler].
  apply user_named_elem in Hv as [Hv Hvname].
  handler_step. handler_step; [done|]. handler_step. unfold SpaceStore.GetSpaceMember.
  apply after_read_head; [by intros ?? [= _ <-]|by handler|].
  intros l' i [= <-] ([[s t] r] & -> & Hi)%list_elem_of_fmap. apply elem_of_select in Hi as [_ Hc].
  cbn in Hc. rewrite !andb_true_iff, !bool_decide_eq_true in Hc. handler. apply HK. cbn.
  assert (s = sp_id space ∧ t = v) as [-> ->] by tauto. exists row, vrow. split_and!; [done..|].
  apply (inj (String.append _)) in Hname, E0. by subst.
Qed.
End handlers.

(** ** The refinement *)

Section refinement.
Context `{Instance} `{ProtoPageToken} (w0 : World) (userID : Z) (drawn : string).

(** The world after the operation a request asks for, and the event of it. *)
Definition carried_out (q : SpaceRequest) (w : World) : Prop :=
  ∃ op es, asks (w_db w0) userID drawn q op ∧ active_user (w_db w0) userID ∧
    serve op (w_db w0) = (None, w_db w) ∧ w_log w = w_log w0 ++ SpaceChanged :: es.

Definition after_failure (q : SpaceRequest) (w : World) : Prop :=
  w = w0 ∨ (∃ name, q = RDeleteSpace name) ∧ carried_out q w.
Definition after_answer (q : SpaceRequest) (w : World) : Prop :=
  (w = w0 ∧ reading q = true) ∨ (reading q = false ∧ carried_out q w).

Lemma after_op {A} op (m : Tx A) map q I (K : A → World → Prop) :
  (∀ db, serve op db = (SpaceSafety.fail (run m db).1, (run m db).2)) → I w0 →
  asks (w_db w0) userID drawn q op → active_user (w_db w0) userID →
  (∀ a db, (∀ es, carried_out q (mkWorld db (w_log w0 ++ SpaceChanged :: es))) → K a (mkWorld db (w_log w0))) →
  after (transact m map) I K w0.
Proof.
  intros Hop HI Hasks Hact HK. apply after_transact; [done|]. intros a db Hm. apply HK. intros es.
  exists op, es. split_and!; [done|done| |done]. rewrite Hop. unfold run. by rewrite Hm.
Qed.

Lemma space_update_masked input up paths up' :
  space_update input up paths = Ok up' →
  us_id up' = us_id up ∧
  us_title up' = (if bool_decide ("title" ∈ paths) then Some (Str.trim_space (sc_title input)) else us_title up) ∧
  us_desc up' = (if bool_decide ("description" ∈ paths) then Some (Str.trim_space (sc_description input)) else us_desc up).
Proof.
  revert up. induction paths as [|path paths IH]; intros up; cbn [space_update]; [by intros [= <-]|].
  destruct (String.eqb_spec path "title") as [->|Ht]; [|destruct (String.eqb_spec path "description") as [->|Hd]; [|done]].
  - destruct (String.eqb _ ""); [done|]. intros (-> & -> & ->)%IH. cbn [us_id us_title us_desc].
    rewrite (bool_decide_eq_true_2 ("title" ∈ "title" :: _)) by left.
    rewrite (bool_decide_ext ("description" ∈ "title" :: paths) ("description" ∈ paths)) by (rewrite elem_of_cons; naive_solver).
    by repeat case_bool_decide.
  - intros (-> & -> & ->)%IH. cbn [us_id us_title us_desc].
    rewrite (bool_decide_eq_true_2 ("description" ∈ "description" :: _)) by left.
    rewrite (bool_decide_ext ("title" ∈ "description" :: paths) ("title" ∈ paths)) by (rewrite elem_of_cons; naive_solver).
    by repeat case_bool_decide.
Qed.

Lemma after_cleanup removed msg q (K : unit → World → Prop) db :
  (∃ name, q = RDeleteSpace name) → (∀ es, carried_out q (mkWorld db (w_log w0 ++ SpaceChanged :: es))) →
  (∀ w, carried_out q w → K tt w) →
  after (cleanupDeletedAttachmentStorage removed msg) (after_failure q) K (mkWorld db (w_log w0 ++ [SpaceChanged])).
Proof.
  intros Hq Hc HK. unfold cleanupDeletedAttachmentStorage. handler_step. handler_step. cbn [w_db w_log].
  rewrite <- app_assoc. handler_step; [right; split; [done|apply Hc] | apply HK, Hc].
Qed.

Ltac refine_step :=
  cbv beta;
  lazymatch goal with
  | |- after (requireCurrentSpaceUser _) _ _ _ => apply after_current_user; [by left|intros me Hme Hact]; cbn [fst snd]
  | |- after (requireSpaceAdministrator _) _ _ _ => unfold requireSpaceAdministrator
  | |- after (user_named _) _ _ _ => unfold user_named
  | |- after (read (Driver.ListSpaces _) _) _ _ _ => apply after_read; [by left|by intros ?? [= _ <-]|intros ? ?]
  | |- after (read (Driver.ListSpaceMembers _) _) _ _ _ => apply after_read; [by left|by intros ?? [= _ <-]|intros ? ?]
  | |- after (read (Driver.ListSpaceInvitations _) _) _ _ _ => apply after_read; [by left|by intros ?? [= _ <-]|intros ? ?]
  | |- after (administered_space _ _) _ _ _ => apply after_administered_space; [by left|intros space Hspace]
  | |- after (resolveMemberSpace _ _) _ _ _ => apply after_resolveMemberSpace; [by left|intros space m Hspace _]
  | |- after (resolveSpaceInvitationResource _ _) _ _ _ =>
      apply after_resolveSpaceInvitationResource; [by left|intros space v row caller i Hinv]
  | |- after (resolveSpaceMemberResource _ _) _ _ _ =>
      apply after_resolveSpaceMemberResource; [by left|intros space v row caller m Hmember]
  | |- after (match ?x with _ => _ end) _ _ _ => first [is_var x; destruct x | destruct x eqn:?]
  | |- _ => handler_step
  end.
Ltac refining := repeat (refine_step; try done; try by left).

(** The end of a handler that writes. *)
Ltac written := let Hc := fresh in intros ? ? Hc; repeat handler_step; right; split; [done|apply Hc].

Ltac same_user :=
  match goal with G : (_ =? _)%Z = true |- _ => apply Z.eqb_eq in G; cbn in G; subst end.
Ltac by_op op :=
  lazymatch goal with
  | |- after _ (after_failure ?q) _ _ => eapply (after_op op _ _ q); [done|by left|cbn|done|]
  end.

Lemma handle_space_refines q : after (handle_space userID drawn q) (after_failure q) (λ _, after_answer q) w0.
Proof.
  destruct q; cbn [handle_space]; apply after_bind;
  cbv beta delta [CreateSpace GetSpace ListSpaces UpdateSpace DeleteSpace CreateSpaceInvitation
    GetSpaceInvitation ListSpaceInvitations ListUserSpaceInvitations DeleteSpaceInvitation
    AcceptSpaceInvitation DeclineSpaceInvitation GetSpaceMember ListSpaceMembers UpdateSpaceMember
    DeleteSpaceMember]; refining.
  - by_op (OpCreateSpace (mkSpace 0 a (Str.trim_space (sc_title s)) (Str.trim_space (sc_description s)) "" 0)
             userID); [|written].
    cbn. split; [done|]. exists a. split; [|done]. destruct (ValidateAndGenerateSpaceUID drawn space_id); congruence.
  - apply space_update_masked in E as (Hid & Ht & Hd).
    by_op (OpUpdateSpace a userID); [|written].
    cbn. split_and!; [done|by rewrite Hid|by rewrite Ht|by rewrite Hd].
  - by_op (OpDeleteSpace (mkDeleteSpace (sp_id space) userID)); [done|].
    intros removed db Hc. handler_step. handler_step. apply after_cleanup; [by eexists|done|].
    intros w' Hw. by right.
  - lazymatch goal with
    | E : convertSpaceMemberRoleToStore _ = Some ?role, E' : Ok (head _) = Ok (Some ?target) |- _ =>
        destruct target as [v row]; injection E' as [Hv Hname]%user_named_elem;
        by_op (OpInvite (mkSpaceMember (sp_id space) v role) userID); [|written]
    end.
    cbn. split_and!; [done|done| |done]. exists row. split; [done|]. rewrite Hname. by eapply parseUsername_Ok, status_error_Ok.
  - by_op (OpRevoke (sm_space i) v userID); [done|written].
  - same_user.
    by_op (OpAccept (sm_space i) userID userID); [done|written].
  - same_user.
    by_op (OpDecline (sm_space i) userID userID); [done|written].
  - lazymatch goal with
    | E : convertSpaceMemberRoleToStore _ = Some ?role |- _ =>
        by_op (OpUpdateMember (sm_space m) (sm_user m) (Some role) userID); [|written]; by rewrite E
    end.
  - by_op (OpDeleteMember (sm_space m) (sm_user m) userID); [done|written].
  - by_op (OpDeleteMember (sm_space m) (sm_user m) userID); [done|written].
Qed.
End refinement.

Section histories.
Context `{Instance} `{ProtoPageToken}.

(** A history of requests is a history of operations. *)
Lemma handle_spaces_serve qs w : ∃ ops, w_db (handle_spaces qs w).2 = serve_all ops (w_db w).
Proof.
  revert w. induction qs as [|[[u drawn] q] qs IH]; intros w; [by exists []|]. cbn [handle_spaces].
  pose proof (handle_space_refines w u drawn q) as Hr. unfold after in Hr.
  destruct (handle_space u drawn q w) as [r w1]. destruct (IH w1) as [ops Hops].
  assert (∃ ops', w_db w1 = serve_all ops' (w_db w)) as [ops' Hops'].
  { destruct r; [destruct Hr as [[-> _]|[_ Hc]] | destruct Hr as [->|[_ Hc]]]; try by exists [].
    all: destruct Hc as (op & _ & _ & _ & Hs & _); exists [op]; cbn; by rewrite Hs. }
  exists (ops' ++ ops). destruct (handle_spaces qs w1) as [rs w2]. cbn in *. rewrite Hops, Hops'.
  clear. revert w. induction ops' as [|o ops' IH]; intros w; cbn; [done|].
  apply (IH (mkWorld (serve o (w_db w)).2 [])).
Qed.

(** C6. The space API does what its requests say, as the store allows.  A request
    that only reads, and a request that is refused, changes nothing and tells
    nobody.  Any other request was made by an active user and is one operation of
    the store by that user - the one its fields, its update mask and the space,
    member or invitation its names name say -, which succeeded and was announced;
    only the deletion of a space can still report a failure then, when files could
    not be removed.  So a history of API requests is a history of operations of the
    store. *)
Theorem space_api_refines_store userID drawn q w r w' :
  handle_space userID drawn q w = (r, w') →
  ((w' = w ∧ (is_ok r = true → reading q = true)) ∨
   (reading q = false ∧ (is_ok r = true ∨ ∃ name, q = RDeleteSpace name) ∧
    ∃ op es, asks (w_db w) userID drawn q op ∧ active_user (w_db w) userID ∧
      serve op (w_db w) = (None, w_db w') ∧ w_log w' = w_log w ++ SpaceChanged :: es)) ∧
  ∀ qs, ∃ ops, w_db (handle_spaces qs w).2 = serve_all ops (w_db w).
Proof.
  intros Hq. split; [|intros qs; apply handle_spaces_serve].
  pose proof (handle_space_refines w userID drawn q) as Hr. unfold after in Hr. rewrite Hq in Hr.
  destruct r as [a|e].
  - destruct Hr as [[-> ?]|[? Hc]]; [by left|right]. split_and!; [done|by left|exact Hc].
  - destruct Hr as [->|[[name ->] Hc]]; [by left|right]. split_and!; [done|right; by eexists|exact Hc].
Qed.
End histories.

(** Ada makes Bob an administrator of her space. *)
Definition shared_space_db : DB :=
  mkDB {[ 1%Z := mkUser "ada" "USER" "" "" "" "" "" 0 0 Normal; 2%Z := mkUser "bob" "USER" "" "" "" "" "" 0 0 Normal ]}
    {[ 1%Z := mkSpaceRow "team" "Team" "" ]}
    {[ (1, 1)%Z := mkMember SpaceMemberStatusActive SpaceMemberRoleAdmin;
       (1, 2)%Z := mkMember SpaceMemberStatusActive SpaceMemberRoleUser ]}
    ∅ ∅ ∅ ∅ ∅ ∅ ∅ ∅ 3 2 1 1 1 1.
Definition promotes_bob : SpaceRequest :=
  RUpdateMember (Some (mkMemberMessage "spaces/team/members/bob" "" ADMIN)) ["role"].

Lemma space_api_refines_store_witness :
  let w := mkWorld shared_space_db [] in
  (handle_space 1 "" promotes_bob w).1 = Ok (AMember (mkMemberMessage "spaces/team/members/bob" "users/bob" ADMIN)) ∧
  ∃ op, asks shared_space_db 1 "" promotes_bob op ∧
    serve op shared_space_db = (None, w_db (handle_space 1 "" promotes_bob w).2).
Proof.
  intros w. assert ((handle_space 1 "" promotes_bob w).1 =
    Ok (AMember (mkMemberMessage "spaces/team/members/bob" "users/bob" ADMIN))) as Hr by by vm_compute.
  split; [exact Hr|].
  destruct (space_api_refines_store 1 "" promotes_bob w (handle_space 1 "" promotes_bob w).1
              (handle_space 1 "" promotes_bob w).2 (surjective_pairing _)) as [[[_ Hread]|(_ & _ & op & es & Ha & _ & Hs & _)] _].
  - rewrite Hr in Hread. by specialize (Hread eq_refl).
  - by exists op.
Defined.
