(* ===== verification/UserService.v ===== *)
(** * The API of users, their settings and their webhooks

    [user_service.go], [user_service_converters.go], [user_service_filter.go],
    [user_service_settings.go] and [user_service_webhooks.go] of
    [server/router/api/v1], with [ListUsers] of the SQLite driver and of
    [store/user.go].  Handlers run in the monad of [UserSettings], over the database
    and the caches.  bcrypt, the regular expressions of tags, the settings of the
    instance and random identifiers are arguments. *)
From S2P Require Import Prelude GoLib GoText GoTime FilterParser Store SpaceStore ResourceName UserSettings.
From S2P Require Import MemoAccess Auth UserAgent AuthService Paging MemoConvert TagScan Webhook.
From Stdlib Require Import SpecFloat.

(** ** Listing users *)

Record FindUser := mkFindUser {
  fu_id : option Z; fu_id_list : list Z; fu_username_list : list string; fu_row_status : option RowStatus;
  fu_username : option string; fu_role : option string; fu_email : option string; fu_nickname : option string;
  fu_limit : option Z; fu_offset : option Z }.

(** [ORDER BY created_ts DESC, row_status DESC, id DESC]. *)
Definition by_created_desc (a b : Z * User) : Prop :=
  (us_created_ts b.2 < us_created_ts a.2)%Z ∨
  (us_created_ts a.2 = us_created_ts b.2 ∧
   if String.eqb (us_row_status a.2) (us_row_status b.2) then (b.1 <= a.1)%Z
   else String.leb (us_row_status b.2) (us_row_status a.2) = true).
#[export] Instance by_created_desc_dec : RelDecision by_created_desc.
Proof. unfold by_created_desc. intros a b. destruct (String.eqb _ _); apply _. Defined.

Definition driver_ListUsers (find : FindUser) (d : DB) : list (Z * User) :=
  let one_of {A} `{EqDecision A} (l : list A) (a : A) := match l with [] => true | _ => bool_decide (a ∈ l) end in
  limit_offset (fu_limit find) (fu_offset find)
    (select (λ id u,
       matches_opt (fu_id find) id && one_of (fu_id_list find) id && one_of (fu_username_list find) (us_username u) &&
       matches_opt (fu_row_status find) (us_row_status u) && matches_opt (fu_username find) (us_username u) &&
       matches_opt (fu_role find) (us_role u) && matches_opt (fu_email find) (us_email u) &&
       matches_opt (fu_nickname find) (us_nickname u)) by_created_desc (users d)).

Definition cache_users (l : list (Z * User)) : ST unit :=
  modify (set_user_cache (λ c, fold_left (λ c kv, <[kv.1 := kv.2]> c) l c)).
Definition ListUsers (find : FindUser) : ST (list (Z * User)) :=
  l ← read (λ st, driver_ListUsers find (db st));
  _ ← cache_users l;
  mret l.

Definition first_user : FindUser := mkFindUser None [] [] None None None None None (Some 1%Z) None.

(** The body of [CreateUserIfNoUsers], which holds [userCreateMu]. *)
Definition no_users (st : StoreState) : bool := bool_decide (driver_ListUsers first_user (db st) = []).
Definition CreateUserIfNoUsers (create : User) (now : Z) : ST (option (Z * User)) :=
  empty ← read no_users;
  if (empty : bool) then user ← CreateUser create now; mret (Some user) else mret None.

(** ** Messages *)

(** [v1pb.User]; [password] is for requests only.  Times are seconds. *)
Record UserMessage := mkUserMessage {
  um_name : string; um_role : Z; um_username : string; um_email : string; um_display_name : string;
  um_avatar_url : string; um_description : string; um_password : string; um_state : Z;
  um_create_time : option Z; um_update_time : option Z }.

(** [v1pb.User_Role]. *)
Definition User_ROLE_UNSPECIFIED : Z := 0.
Definition User_ADMIN : Z := 2.
Definition User_USER : Z := 3.

Definition convertUserRoleFromStore (role : string) : Z :=
  if String.eqb role RoleAdmin then User_ADMIN else if String.eqb role RoleUser then User_USER else User_ROLE_UNSPECIFIED.
Definition convertUserRoleToStore (role : Z) : string := if (role =? User_ADMIN)%Z then RoleAdmin else RoleUser.

(** [^data:(.+);base64,(.+)]: the dot is no line break, so everything lies before
    the first one; [.+] takes the last [;base64,] that something follows. *)
Fixpoint first_line (l : list ascii) : list ascii :=
  match l with
  | [] => []
  | c :: l => if Ascii.eqb c "010" then [] else c :: first_line l
  end.
Fixpoint last_marker (p : nat) (line : list ascii) : option nat :=
  match p with
  | 0%nat => None
  | S q =>
      if Str.has_prefix ";base64," (string_of (drop p line)) && (p + 8 <? length line)%nat then Some p
      else last_marker q line
  end.
Definition extractImageInfo (dataURI : string) : result error (string * string) :=
  match CutPrefix "data:" dataURI with
  | None => Err (errorf0 "invalid data URI format")
  | Some rest =>
      let line := first_line (Str.to_list rest) in
      match last_marker (length line) line with
      | None => Err (errorf0 "invalid data URI format")
      | Some p => Ok (string_of (take p line), string_of (drop (p + 8) line))
      end
  end.

Definition canViewerAccessUserEmail (viewer : option (Z * User)) (user : Z * User) : bool :=
  match viewer with
  | None => false
  | Some viewer => String.eqb (us_role viewer.2) RoleAdmin || (viewer.1 =? user.1)%Z
  end.

Definition convertUserFromStore (user : Z * User) (viewer : option (Z * User)) : UserMessage :=
  let name := BuildUserName (us_username user.2) in
  let avatar :=
    if String.eqb (us_avatar_url user.2) "" then ""
    else if is_ok (extractImageInfo (us_avatar_url user.2)) then "/file/" +:+ name +:+ "/avatar"
    else us_avatar_url user.2 in
  mkUserMessage name (convertUserRoleFromStore (us_role user.2)) (us_username user.2)
    (if canViewerAccessUserEmail viewer user then us_email user.2 else "")
    (us_nickname user.2) avatar (us_description user.2) "" (convertStateFromStore (us_row_status user.2))
    (Some (us_created_ts user.2)) (Some (us_updated_ts user.2)).

(** ** Filters *)

Definition extractUsernameFromComparison (left right : expr) : option string :=
  match left, right with
  | EIdent ident, EConst (CString str) =>
      if String.eqb ident "username" && negb (String.eqb str "") then Some str else None
  | _, _ => None
  end.

Definition extractUsernameFromAST (e : expr) : result error string :=
  match e with
  | ECall (Call target function args) =>
      if negb (String.eqb function "_==_") then Err (Errorf "unsupported operator: %s (only '==' is supported)" [function])
      else
        match args with
        | [a; b] =>
            match extractUsernameFromComparison a b with
            | Some username => Ok username
            | None =>
                match extractUsernameFromComparison b a with
                | Some username => Ok username
                | None => Err (errorf0 "filter must compare 'username' field with a string constant")
                end
            end
        | _ => Err (errorf0 "invalid comparison expression")
        end
  | _ => Err (errorf0 "filter must be a comparison expression (e.g., username == 'value')")
  end.

(** [compile] is cel-go with the one variable [username]. *)
Definition extractUsernameFromFilter (compile : string → result error expr) (filterStr : string) : result error string :=
  let filterStr := Str.trim_space filterStr in
  if String.eqb filterStr "" then Ok ""
  else e ← wrap_err "invalid filter expression: %s" (compile filterStr); extractUsernameFromAST e.

(** ** Accounts *)

(** [storepb.InstanceGeneralSetting], as far as accounts ask. *)
Record InstanceGeneralSetting := mkInstanceGeneral {
  ig_disallow_user_registration : bool; ig_disallow_password_auth : bool;
  ig_disallow_change_username : bool; ig_disallow_change_nickname : bool }.

Definition validateWritableUsername (username : string) : result error unit :=
  if IsValidUsername (Str.to_list username) then Ok tt else Err (Errorf "invalid username %q" [username]).
Definition validatePassword (password : string) : result error unit :=
  if String.eqb password "" then Err (errorf0 "password must not be empty") else Ok tt.

Definition maxBatchGetUsers : nat := 100.
Fixpoint unique_usernames (seen : list string) (usernames : list string) : list string :=
  match usernames with
  | [] => []
  | u :: usernames =>
      if String.eqb u "" || bool_decide (u ∈ seen) then unique_usernames seen usernames
      else u :: unique_usernames (u :: seen) usernames
  end.
Definition uniqueBatchUsernames (usernames : list string) : list string * nat :=
  (unique_usernames [] usernames, length (filter (λ u, u ≠ "") usernames)).

Definition allowedAvatarTypes : list string := ["image/png"; "image/jpeg"; "image/jpg"; "image/gif"; "image/webp"].

Definition is_admin_user (u : option (Z * User)) : bool :=
  match u with Some u => String.eqb (us_role u.2) RoleAdmin | None => false end.

(** [currentUser, _ := s.fetchCurrentUser(ctx)]. *)
Definition viewer_of (ctx : AuthContext) : ST (option (Z * User)) :=
  found ← ignore_err (fetchCurrentUser ctx); mret (default None found).

(** The user who asks, or a refusal. *)
Definition current_user_or (failure : string) (ctx : AuthContext) : ST (Z * User) :=
  currentUser ← st_status Internal failure (fetchCurrentUser ctx);
  match currentUser with
  | Some u => mret u
  | None => st_fail Unauthenticated "user not authenticated"
  end.
Definition st_guard (b : bool) (c : code) (message : string) : ST unit := if b then mret tt else st_fail c message.

Section accounts.
Context `{ProtoJSON} `{ProtoPageToken} `{Text.GoUnicode}.
(** cel-go on the filter of [ListUsers], [bcrypt.GenerateFromPassword], the setting
    of the instance. *)
Variable compile : string → result error expr.
Variable hash : string → result error string.
Variable general : result error InstanceGeneralSetting.

Definition user_page (limit offset : Z) (rows : list (Z * User)) : ST (list (Z * User) * string) :=
  if (Z.of_nat (length rows) =? limit + 1)%Z then
    token ← st_status Internal "failed to get next page token: %v" (st_lift (getPageToken limit (offset + limit)));
    mret (take (Z.to_nat limit) rows, token)
  else mret (rows, "").

Definition ListUsersPage (ctx : AuthContext) (filterStr : string) (page_size : Z) (page_token : string)
  : ST (list UserMessage * string) :=
  currentUser ← current_user_or "failed to get user: %v" ctx;
  _ ← st_guard (String.eqb (us_role currentUser.2) RoleAdmin) PermissionDenied "permission denied";
  username ← st_status InvalidArgument "invalid filter: %v"
               (st_lift (if String.eqb filterStr "" then Ok "" else extractUsernameFromFilter compile filterStr));
  '(limit, offset) ← st_status InvalidArgument "invalid page token: %v" (st_lift (page_of_request page_size page_token));
  users ← st_status Internal "failed to list users: %v"
            (ListUsers (mkFindUser None [] [] None (if String.eqb username "" then None else Some username)
                          None None None (Some (limit + 1)%Z) (Some offset)));
  '(users, nextPageToken) ← user_page limit offset users;
  mret ((λ u, convertUserFromStore u (Some currentUser)) <$> users, nextPageToken).

Definition BatchGetUsers (ctx : AuthContext) (usernames : list string) : ST (list UserMessage) :=
  if bool_decide (usernames = []) then mret []
  else
    let '(uniqueUsernames, nonEmptyUsernameCount) := uniqueBatchUsernames usernames in
    _ ← st_guard (nonEmptyUsernameCount <=? maxBatchGetUsers)%nat InvalidArgument "too many usernames (max %d)";
    if bool_decide (uniqueUsernames = []) then mret []
    else
      users ← st_status Internal "failed to list users: %v"
                (ListUsers (mkFindUser None [] uniqueUsernames (Some Normal) None None None None None None));
      currentUser ← viewer_of ctx;
      mret ((λ u, convertUserFromStore u currentUser) <$> users).

(** [ResolveUserByName] in a handler, and its missing user. *)
Definition named_user (failure : string) (name : string) : ST (Z * User) :=
  user ← st_status InvalidArgument failure (ResolveUserByName name);
  match user with
  | Some u => mret u
  | None => st_fail NotFound "user not found"
  end.

(** [GetUser] of the API. *)
Definition GetUserMessage (ctx : AuthContext) (name : string) : ST UserMessage :=
  user ← named_user "invalid user name: %s" name;
  currentUser ← viewer_of ctx;
  mret (convertUserFromStore user currentUser).

Definition registration_allowed : ST unit :=
  setting ← st_status Internal "failed to get instance general setting, error: %v" (st_lift general);
  _ ← st_guard (negb (ig_disallow_user_registration setting)) PermissionDenied "user registration is not allowed";
  st_guard (negb (ig_disallow_password_auth setting)) PermissionDenied "password signup is not allowed".

Definition password_hash (password : string) : ST string :=
  st_status Internal "failed to generate password hash: %v" (st_lift (hash password)).

(** The row a registration asks for. *)
Definition new_user (user : UserMessage) (role passwordHash : string) : User :=
  mkUser (um_username user) role (um_email user) (um_display_name user) passwordHash "" "" 0 0 "".

Definition check_new_user (user_id : string) (user : option UserMessage) : ST UserMessage :=
  match user with
  | None => st_fail InvalidArgument "user is required"
  | Some user =>
      _ ← st_guard (String.eqb user_id "" || String.eqb user_id (um_username user)) InvalidArgument
            "user_id must match user.username";
      _ ← st_status InvalidArgument "%v" (st_lift (validateWritableUsername (um_username user)));
      _ ← st_status InvalidArgument "%v" (st_lift (validatePassword (um_password user)));
      mret user
  end.

(** The part of [CreateUser] for a caller who is no administrator: the role, or the
    first user when it was made at once. *)
Definition register (user : UserMessage) (validate_only : bool) (now : Z) : ST ((Z * User) + string) :=
  allUsers ← st_status Internal "failed to list users: %v" (ListUsers first_user);
  if bool_decide (allUsers = []) then
    if validate_only then mret (inr RoleAdmin)
    else
      passwordHash ← password_hash (um_password user);
      created ← st_status Internal "failed to create first user: %v"
                  (CreateUserIfNoUsers (new_user user RoleAdmin passwordHash) now);
      match created with
      | Some u => mret (inl u)
      | None => _ ← registration_allowed; mret (inr RoleUser)
      end
  else _ ← registration_allowed; mret (inr RoleUser).

Definition create_as (user : UserMessage) (role : string) (validate_only : bool) (now : Z) : ST UserMessage :=
  if validate_only then
    mret (mkUserMessage "" (convertUserRoleFromStore role) (um_username user) (um_email user) (um_display_name user)
            "" "" "" 0 None None)
  else
    passwordHash ← password_hash (um_password user);
    u ← st_status Internal "failed to create user: %v" (CreateUser (new_user user role passwordHash) now);
    mret (convertUserFromStore u (Some u)).

Definition CreateUserMessage (ctx : AuthContext) (user_id : string) (user : option UserMessage) (validate_only : bool)
    (now : Z) : ST UserMessage :=
  currentUser ← viewer_of ctx;
  user ← check_new_user user_id user;
  assigned ←
    (if is_admin_user currentUser then
       mret (inr (if (um_role user =? User_ROLE_UNSPECIFIED)%Z then RoleUser else convertUserRoleToStore (um_role user)))
     else register user validate_only now);
  match assigned with
  | inl u => mret (convertUserFromStore u (Some u))
  | inr role => create_as user role validate_only now
  end.

(** One path of the mask of [UpdateUser]. *)
Definition update_path (setting : InstanceGeneralSetting) (admin : bool) (user : UserMessage) (field : string)
    (u : Driver.UpdateUserReq) : result error Driver.UpdateUserReq :=
  let 'Driver.mkUpdateUser id ts stat username email nickname avatar pass desc role := u in
  if String.eqb field "username" then
    if ig_disallow_change_username setting then
      Err (status PermissionDenied "permission denied: disallow change username")
    else match validateWritableUsername (um_username user) with
         | Err e => Err (Wrap e (code_name InvalidArgument))
         | Ok _ => Ok (Driver.mkUpdateUser id ts stat (Some (um_username user)) email nickname avatar pass desc role)
         end
  else if String.eqb field "display_name" then
    if ig_disallow_change_nickname setting then
      Err (status PermissionDenied "permission denied: disallow change nickname")
    else Ok (Driver.mkUpdateUser id ts stat username email (Some (um_display_name user)) avatar pass desc role)
  else if String.eqb field "email" then
    Ok (Driver.mkUpdateUser id ts stat username (Some (um_email user)) nickname avatar pass desc role)
  else if String.eqb field "avatar_url" then
    let updated := Ok (Driver.mkUpdateUser id ts stat username email nickname (Some (um_avatar_url user)) pass desc role) in
    if String.eqb (um_avatar_url user) "" then updated
    else match extractImageInfo (um_avatar_url user) with
         | Err e => Err (Wrap (Wrap e "invalid avatar format: %v") (code_name InvalidArgument))
         | Ok (imageType, _) =>
             if bool_decide (imageType ∈ allowedAvatarTypes) then updated
             else Err (status InvalidArgument "invalid avatar image type: %s. Only PNG, JPEG, GIF, and WebP are allowed")
         end
  else if String.eqb field "description" then
    Ok (Driver.mkUpdateUser id ts stat username email nickname avatar pass (Some (um_description user)) role)
  else if String.eqb field "role" then
    if admin then
      Ok (Driver.mkUpdateUser id ts stat username email nickname avatar pass desc (Some (convertUserRoleToStore (um_role user))))
    else Err (status PermissionDenied "permission denied")
  else if String.eqb field "password" then
    match validatePassword (um_password user) with
    | Err e => Err (Wrap e (code_name InvalidArgument))
    | Ok _ =>
        match hash (um_password user) with
        | Err e => Err (Wrap (Wrap e "failed to generate password hash: %v") (code_name Internal))
        | Ok passwordHash => Ok (Driver.mkUpdateUser id ts stat username email nickname avatar (Some passwordHash) desc role)
        end
    end
  else if String.eqb field "state" then
    if admin then
      Ok (Driver.mkUpdateUser id ts (Some (convertStateToStore (um_state user))) username email nickname avatar pass desc role)
    else Err (status PermissionDenied "permission denied")
  else Err (Wrap (Errorf "invalid update path: %s" [field]) (code_name InvalidArgument)).
Fixpoint update_paths (setting : InstanceGeneralSetting) (admin : bool) (user : UserMessage) (paths : list string)
    (u : Driver.UpdateUserReq) : result error Driver.UpdateUserReq :=
  match paths with
  | [] => Ok u
  | field :: paths => u ← update_path setting admin user field u; update_paths setting admin user paths u
  end.

Definition store_update (update : Driver.UpdateUserReq) : ST User :=
  λ st, match UpdateUser update st with
        | (Ok u, st') => (Ok u, st')
        | (Err e, st') =>
            (Err (if error_is e ErrLastSpaceAdmin
                  then status FailedPrecondition "an active space must retain an active administrator"
                  else Wrap (Wrap e "failed to update user: %v") (code_name Internal)), st')
        end.

Definition UpdateUserMessage (ctx : AuthContext) (user : option UserMessage) (update_mask : option (list string))
    (now : Z) : ST UserMessage :=
  match user with
  | None => st_fail InvalidArgument "user is required"
  | Some message =>
      let paths := default [] update_mask in
      _ ← st_guard (negb (bool_decide (paths = []))) InvalidArgument "update mask is empty";
      user ← named_user "invalid user name: %v" (um_name message);
      currentUser ← current_user_or "failed to get user: %v" ctx;
      let admin := String.eqb (us_role currentUser.2) RoleAdmin in
      _ ← st_guard ((currentUser.1 =? user.1)%Z || admin) PermissionDenied "permission denied";
      setting ← st_status Internal "failed to get instance general setting: %v" (st_lift general);
      update ← st_lift (update_paths setting admin message paths
                 (Driver.mkUpdateUser user.1 (Some now) None None None None None None None None));
      updatedUser ← store_update update;
      mret (convertUserFromStore (user.1, updatedUser) (Some currentUser))
  end.

(** [Store.DeleteUser] with its result. *)
Definition store_delete (user : Z) : ST (list (Z * Attachment)) :=
  λ st, match (result ← driver (Driver.DeleteUser user false); _ ← modify (deleteUserCache user result.2); mret result.1) st with
        | (Ok attachments, st') => (Ok attachments, st')
        | (Err e, st') =>
            (Err (if error_is e ErrUserHasSpaceMembership
                  then status FailedPrecondition "leave all spaces before deleting this account"
                  else Wrap (Wrap e "failed to delete user: %v") (code_name Internal)), st')
        end.

(** [DeleteUser]: the answer is the cookie that is set, if any; [cleanup] removes
    the files of the attachments. *)
Definition DeleteUserMessage (cleanup : list (Z * Attachment) → result error unit) (ctx : AuthContext)
    (md : option Metadata) (name : string) : ST (option string) :=
  user ← named_user "invalid user name: %v" name;
  currentUser ← current_user_or "failed to get user: %v" ctx;
  _ ← st_guard ((currentUser.1 =? user.1)%Z || String.eqb (us_role currentUser.2) RoleAdmin)
        PermissionDenied "permission denied";
  attachments ← store_delete user.1;
  _ ← st_status Internal "user was deleted but attachment storage cleanup failed: %v" (st_lift (cleanup attachments));
  mret (if (currentUser.1 =? user.1)%Z then Some (clearAuthCookies md) else None).
End accounts.

(** ** Settings *)

(** [v1pb.UserWebhook]; times are not kept. *)
Record UserWebhook := mkUserWebhook {
  uw_name : string; uw_url : string; uw_display_name : string; uw_signing_secret : string;
  uw_signing_secret_set : bool }.

(** The oneof of [v1pb.UserSetting]; the messages inside have the fields of those
    stored, and the metadata of a tag may be missing in a request. *)
Inductive UserSettingBody :=
| GeneralBody (g : GeneralUserSetting)
| WebhooksBody (l : list UserWebhook)
| TagsBody (tags : gmap string (option UserTagMetadata)).
Record UserSettingMessage := mkUserSettingMessage { us_name : string; us_body : option UserSettingBody }.

(** [resolveUserAndSettingKeyFromName], [resolveUserAndWebhookIDFromName]: the user
    and the last part of [users/{user}/{collection}/{id}]. *)
Definition resolve_child (collection message name : string) : ST ((Z * User) * string) :=
  match Str.split_on "/" name with
  | [a; b; c; d] =>
      if String.eqb a "users" && String.eqb c collection then
        user ← resolveUserFromName (BuildUserName b); mret (user, d)
      else st_err (Errorf message [name])
  | _ => st_err (Errorf message [name])
  end.
Definition resolveUserAndSettingKeyFromName := resolve_child "settings" "invalid resource name format: %s".
Definition resolveUserAndWebhookIDFromName := resolve_child "webhooks" "invalid webhook name format".

Definition convertSettingKeyToStore (key : string) : result error SettingKey :=
  if String.eqb key "GENERAL" then Ok GENERAL
  else if String.eqb key "WEBHOOKS" then Ok WEBHOOKS
  else if String.eqb key "TAGS" then Ok TAGS
  else Err (Errorf "unknown setting key: %s" [key]).
Definition convertSettingKeyFromStore (key : SettingKey) : string :=
  match key with
  | GENERAL => "GENERAL" | MEMO_VIEWS => "MEMO_VIEWS" | WEBHOOKS => "WEBHOOKS" | TAGS => "TAGS"
  | _ => "unknown"
  end.

Definition getDefaultUserGeneralSetting : GeneralUserSetting := mkGeneral "en" "PRIVATE" "" false.

Definition user_webhook_name (username id : string) : string := BuildUserName username +:+ "/webhooks/" +:+ id.
Definition convertUserWebhookFromUserSetting (webhook : Webhook) (user : User) : UserWebhook :=
  mkUserWebhook (user_webhook_name (us_username user) (wh_id webhook)) (wh_url webhook) (wh_title webhook) ""
    (negb (String.eqb (wh_signing_secret webhook) "")).

Definition setting_name (user : User) (key : SettingKey) : string :=
  BuildUserName (us_username user) +:+ "/settings/" +:+ convertSettingKeyFromStore key.

(** The body for a setting that is not stored. *)
Definition default_body (key : SettingKey) : option UserSettingBody :=
  match key with
  | GENERAL => Some (GeneralBody getDefaultUserGeneralSetting)
  | WEBHOOKS => Some (WebhooksBody [])
  | TAGS => Some (TagsBody ∅)
  | _ => None
  end.
(** The body of a stored setting; a value of another kind than its key says reads as
    no value. *)
Definition stored_body (user : User) (key : SettingKey) (v : SettingValue) : option UserSettingBody :=
  match key with
  | GENERAL => Some (GeneralBody (match v with VGeneral g => g | _ => getDefaultUserGeneralSetting end))
  | WEBHOOKS =>
      Some (WebhooksBody match v with
        | VWebhooks l => (λ w, convertUserWebhookFromUserSetting w user) <$> l
        | _ => []
        end)
  | TAGS => Some (TagsBody (match v with VTags tags => Some <$> tags | _ => ∅ end))
  | _ => None
  end.
Definition convertUserSettingFromStore (storeSetting : option UserSetting) (user : User) (key : SettingKey)
  : option UserSettingMessage :=
  match storeSetting with
  | None => (λ b, mkUserSettingMessage (setting_name user key) (Some b)) <$> default_body key
  | Some s => (λ b, mkUserSettingMessage (setting_name user (st_key s)) (Some b)) <$> stored_body user (st_key s) (st_value s)
  end.

(** [convertUserSettingToStore] of the two kinds a request can write. *)
Definition convertUserTagsSettingToStore (tags : gmap string (option UserTagMetadata)) : gmap string UserTagMetadata :=
  default (mkTagMetadata None false) <$> tags.
Definition convertUserSettingToStore (body : UserSettingBody) (userID : Z) (key : SettingKey) : result error UserSetting :=
  match key with
  | GENERAL =>
      match body with
      | GeneralBody g => Ok (mkSetting userID key (VGeneral g))
      | _ => Err (errorf0 "general setting is required")
      end
  | TAGS =>
      match body with
      | TagsBody tags => Ok (mkSetting userID key (VTags (convertUserTagsSettingToStore tags)))
      | _ => Err (errorf0 "tags setting is required")
      end
  | _ => Err (errorf0 "unsupported setting key: %v")
  end.

(** [validateInstanceColorComponent] on a 32-bit float, whose 1 is 2^23 * 2^-23. *)
Definition one32 : spec_float := S754_finite false 8388608 (-23).
Definition validateInstanceColorComponent (name : string) (value : spec_float) : result error unit :=
  match value with
  | S754_nan | S754_infinity _ => Err (Errorf "%s must be a finite number" [name])
  | _ => if SFltb value (S754_zero false) || SFltb one32 value
         then Err (Errorf "%s must be between 0 and 1" [name]) else Ok tt
  end.
Definition validateInstanceColor (color : Color) : result error unit :=
  _ ← validateInstanceColorComponent "red" (co_red color);
  _ ← validateInstanceColorComponent "green" (co_green color);
  _ ← validateInstanceColorComponent "blue" (co_blue color);
  match co_alpha color with Some alpha => validateInstanceColorComponent "alpha" alpha | None => Ok tt end.

(** [validateUserTagsSetting]; [compiles] is [regexp.Compile].  Go visits the tags
    in any order: the error is that of the first one in the order of the map. *)
Fixpoint validate_tags (compiles : string → bool) (tags : list (string * option UserTagMetadata)) : result error unit :=
  match tags with
  | [] => Ok tt
  | (tag, metadata) :: tags =>
      if String.eqb (Str.trim_space tag) "" then Err (errorf0 "tag key cannot be empty")
      else if negb (compiles tag) then Err (Errorf "tag key %q is not a valid regex pattern" [tag])
      else
        match metadata with
        | None => Err (Errorf "tag metadata is required for %q" [tag])
        | Some m =>
            _ ← match tm_background_color m with
                | Some color => wrap_err "background_color for %q" (validateInstanceColor color)
                | None => Ok tt
                end;
            validate_tags compiles tags
        end
  end.
Definition validateUserTagsSetting (compiles : string → bool) (tags : gmap string (option UserTagMetadata))
  : result error unit := validate_tags compiles (map_to_list tags).

(** One path of the mask of the general setting; others are ignored. *)
Definition general_path (incoming : GeneralUserSetting) (field : string) (g : GeneralUserSetting)
  : result error GeneralUserSetting :=
  if String.eqb field "memo_visibility" then
    if bool_decide (gs_memo_visibility incoming ∈ [Private; Protected; Public])
    then Ok (mkGeneral (gs_locale g) (gs_memo_visibility incoming) (gs_theme g) (gs_save_media_metadata g))
    else Err (status InvalidArgument "memo_visibility must be PRIVATE, PROTECTED, or PUBLIC")
  else if String.eqb field "theme" then
    Ok (mkGeneral (gs_locale g) (gs_memo_visibility g) (gs_theme incoming) (gs_save_media_metadata g))
  else if String.eqb field "locale" then
    Ok (mkGeneral (gs_locale incoming) (gs_memo_visibility g) (gs_theme g) (gs_save_media_metadata g))
  else if String.eqb field "save_media_metadata" then
    Ok (mkGeneral (gs_locale g) (gs_memo_visibility g) (gs_theme g) (gs_save_media_metadata incoming))
  else Ok g.
Fixpoint general_paths (incoming : GeneralUserSetting) (paths : list string) (g : GeneralUserSetting)
  : result error GeneralUserSetting :=
  match paths with
  | [] => Ok g
  | field :: paths => g ← general_path incoming field g; general_paths incoming paths g
  end.

Definition tags_path (field : string) : result error unit :=
  if String.eqb field "tags" then Ok tt
  else Err (Wrap (Errorf "unsupported update mask path for tags setting: %s" [field]) (code_name InvalidArgument)).

Section user_settings.
Context `{ProtoJSON} `{Text.GoUnicode}.
Variable compiles : string → bool.

(** The user named, who must be the one who asks. *)
Definition owned {A} (failure : string) (resolve : ST ((Z * User) * A)) (ctx : AuthContext) : ST ((Z * User) * A) :=
  found ← st_status InvalidArgument failure resolve;
  currentUser ← current_user_or "failed to get current user: %v" ctx;
  _ ← st_guard (currentUser.1 =? found.1.1)%Z PermissionDenied "permission denied";
  mret found.

Definition GetUserSettingMessage (ctx : AuthContext) (name : string) : ST (option UserSettingMessage) :=
  '(user, settingKey) ← owned "invalid resource name: %v" (resolveUserAndSettingKeyFromName name) ctx;
  storeKey ← st_status InvalidArgument "invalid setting key: %v" (st_lift (convertSettingKeyToStore settingKey));
  userSetting ← st_status Internal "failed to get user setting: %v" (GetUserSetting (Some user.1) storeKey);
  mret (convertUserSettingFromStore userSetting user.2 storeKey).

(** The general setting a request makes of the stored one. *)
Definition updated_general (user : Z * User) (body : option UserSettingBody) (paths : list string) : ST UserSettingBody :=
  existing ← st_status Internal "failed to get existing general setting: %v" (GetUserSetting (Some user.1) GENERAL);
  match convertUserSettingFromStore existing user.2 GENERAL ≫= us_body, body with
  | Some (GeneralBody g), Some (GeneralBody incoming) =>
      g ← st_lift (general_paths incoming paths g); mret (GeneralBody g)
  | _, _ => st_fail InvalidArgument "general setting is required"
  end.

Definition updated_tags (body : option UserSettingBody) (paths : list string) : ST UserSettingBody :=
  _ ← st_lift (mapM tags_path paths);
  match body with
  | Some (TagsBody tags) =>
      _ ← st_status InvalidArgument "invalid user tags setting: %v" (st_lift (validateUserTagsSetting compiles tags));
      mret (TagsBody tags)
  | _ => st_fail InvalidArgument "tags setting is required"
  end.

(** A request without a setting panics. *)
Definition UpdateUserSetting (up : bool) (ctx : AuthContext) (setting : option UserSettingMessage)
    (update_mask : option (list string)) : ST (option UserSettingMessage) :=
  match setting with
  | None => st_err (Panic "nil pointer dereference")
  | Some setting =>
      '(user, settingKey) ← owned "invalid resource name: %v" (resolveUserAndSettingKeyFromName (us_name setting)) ctx;
      let paths := default [] update_mask in
      _ ← st_guard (negb (bool_decide (paths = []))) InvalidArgument "update mask is empty";
      storeKey ← st_status InvalidArgument "invalid setting key: %v" (st_lift (convertSettingKeyToStore settingKey));
      updated ← match storeKey with
                | GENERAL => updated_general user (us_body setting) paths
                | TAGS => updated_tags (us_body setting) paths
                | _ => st_fail InvalidArgument "setting type %s should not be updated via UpdateUserSetting"
                end;
      storeSetting ← st_status InvalidArgument "failed to convert setting: %v"
                       (st_lift (convertUserSettingToStore updated user.1 storeKey));
      _ ← st_status Internal "failed to upsert user setting: %v" (UpsertUserSetting up storeSetting);
      GetUserSettingMessage ctx (us_name setting)
  end.

Definition is_general (m : UserSettingMessage) : bool :=
  match us_body m with Some (GeneralBody _) => true | _ => false end.
Definition ListUserSettingMessages (ctx : AuthContext) (parent : string) : ST (list UserSettingMessage) :=
  '(user, _) ← owned "invalid parent name: %v" (user ← resolveUserFromName parent; mret (user, tt)) ctx;
  userSettings ← st_status Internal "failed to list user settings: %v" (ListUserSettings (Some user.1) KEY_UNSPECIFIED);
  let settings := omap (λ s, convertUserSettingFromStore (Some s) user.2 (st_key s)) userSettings in
  mret (if existsb is_general settings then settings
        else mkUserSettingMessage (setting_name user.2 GENERAL) (Some (GeneralBody getDefaultUserGeneralSetting)) :: settings).

(** ** Webhooks *)

Section webhooks.
(** [webhook.ValidateURL] in the state of the allowlist, the bytes drawn for a
    secret and the identifier drawn. *)
Variable validate_url : string → result error unit.
Variable secret_bytes : result error (list ascii).
Variable webhookID : string.

Definition ListUserWebhooks (ctx : AuthContext) (parent : string) : ST (list UserWebhook) :=
  '(user, _) ← owned "invalid parent: %v" (user ← resolveUserFromName parent; mret (user, tt)) ctx;
  webhooks ← st_status Internal "failed to get user webhooks: %v" (GetUserWebhooks user.1);
  mret ((λ w, convertUserWebhookFromUserSetting w user.2) <$> webhooks).

Definition signing_secret (requested : string) : ST string :=
  let signingSecret := Str.trim_space requested in
  if String.eqb signingSecret "" then
    st_status Internal "failed to generate signing secret: %v" (st_lift (GenerateSigningSecret secret_bytes))
  else _ ← st_lift (ValidateSigningSecret signingSecret); mret signingSecret.

(** A request without a webhook panics. *)
Definition CreateUserWebhook (up : bool) (ctx : AuthContext) (parent : string) (webhook : option UserWebhook)
  : ST UserWebhook :=
  '(user, _) ← owned "invalid parent: %v" (user ← resolveUserFromName parent; mret (user, tt)) ctx;
  match webhook with
  | None => st_err (Panic "nil pointer dereference")
  | Some webhook =>
      _ ← st_guard (negb (String.eqb (uw_url webhook) "")) InvalidArgument "webhook URL is required";
      _ ← st_lift (validate_url (Str.trim_space (uw_url webhook)));
      signingSecret ← signing_secret (uw_signing_secret webhook);
      let created := mkWebhook webhookID (uw_display_name webhook) (Str.trim_space (uw_url webhook)) signingSecret in
      _ ← st_status Internal "failed to create webhook: %v" (AddUserWebhook up user.1 created);
      mret (convertUserWebhookFromUserSetting created user.2)
  end.

Definition with_url (webhook : UserWebhook) (w : Webhook) : result error Webhook :=
  if String.eqb (uw_url webhook) "" then Ok w
  else
    let trimmed := Str.trim_space (uw_url webhook) in
    _ ← validate_url trimmed; Ok (mkWebhook (wh_id w) (wh_title w) trimmed (wh_signing_secret w)).
Definition with_secret (webhook : UserWebhook) (w : Webhook) : result error Webhook :=
  let secret := Str.trim_space (uw_signing_secret webhook) in
  _ ← ValidateSigningSecret secret; Ok (mkWebhook (wh_id w) (wh_title w) (wh_url w) secret).
Definition with_title (webhook : UserWebhook) (w : Webhook) : Webhook :=
  mkWebhook (wh_id w) (uw_display_name webhook) (wh_url w) (wh_signing_secret w).
Definition webhook_path (webhook : UserWebhook) (path : string) (w : Webhook) : result error Webhook :=
  if String.eqb path "url" then with_url webhook w
  else if String.eqb path "display_name" then Ok (with_title webhook w)
  else if String.eqb path "signing_secret" then with_secret webhook w
  else Ok w.
Fixpoint webhook_paths (webhook : UserWebhook) (paths : list string) (w : Webhook) : result error Webhook :=
  match paths with
  | [] => Ok w
  | path :: paths => w ← webhook_path webhook path w; webhook_paths webhook paths w
  end.
(** Without a mask all fields are set, an empty URL or secret excepted. *)
Definition updated_webhook (webhook : UserWebhook) (update_mask : option (list string)) (w : Webhook) : result error Webhook :=
  match update_mask with
  | Some paths => webhook_paths webhook paths w
  | None =>
      w ← with_url webhook w;
      let w := with_title webhook w in
      if String.eqb (uw_signing_secret webhook) "" then Ok w else with_secret webhook w
  end.

(** The webhook named, among those of its owner. *)
Definition webhook_with_id (id : string) (webhooks : list Webhook) : option Webhook :=
  find (λ w, String.eqb (wh_id w) id) webhooks.
Definition named_webhook (webhookID : string) (user : Z) : ST Webhook :=
  webhooks ← st_status Internal "failed to get user webhooks: %v" (GetUserWebhooks user);
  match webhook_with_id webhookID webhooks with
  | Some w => mret w
  | None => st_fail NotFound "webhook not found"
  end.

Definition UpdateUserWebhookMessage (up : bool) (ctx : AuthContext) (webhook : option UserWebhook)
    (update_mask : option (list string)) : ST UserWebhook :=
  match webhook with
  | None => st_fail InvalidArgument "webhook is required"
  | Some webhook =>
      '(user, webhookID) ← owned "invalid webhook name: %v" (resolveUserAndWebhookIDFromName (uw_name webhook)) ctx;
      target ← named_webhook webhookID user.1;
      updated ← st_lift (updated_webhook webhook update_mask
                  (mkWebhook webhookID (wh_title target) (wh_url target) (wh_signing_secret target)));
      _ ← st_status Internal "failed to update webhook: %v" (UserSettings.UpdateUserWebhook up user.1 updated);
      mret (convertUserWebhookFromUserSetting updated user.2)
  end.

Definition DeleteUserWebhook (up : bool) (ctx : AuthContext) (name : string) : ST unit :=
  '(user, webhookID) ← owned "invalid webhook name: %v" (resolveUserAndWebhookIDFromName name) ctx;
  _ ← named_webhook webhookID user.1;
  st_status Internal "failed to delete webhook: %v" (RemoveUserWebhook up user.1 webhookID).

Definition GetUserWebhookSigningSecret (ctx : AuthContext) (name : string) : ST string :=
  '(user, webhookID) ← st_status InvalidArgument "invalid webhook name: %v" (resolveUserAndWebhookIDFromName name);
  _ ← authorizeUserResourceAccess ctx user.1 false;
  webhook ← named_webhook webhookID user.1;
  mret (wh_signing_secret webhook).
End webhooks.
End user_settings.
