(* ===== verification/UserSafety.v ===== *)
(** * Accounts, settings and webhooks are safe

    Who may make, change and delete accounts; nobody makes an administrator but an
    administrator; e-mail addresses stay with their owners and the administrators. *)
From S2P Require Import Prelude GoLib GoText GoTime FilterParser Store SpaceStore SpaceStoreFacts SpaceSafety ResourceName UserSettings.
From S2P Require Import UserSettingsFacts SettingsSafety MemoAccess Auth UserAgent AuthService Paging MemoConvert MemoQueryFacts TagScan UserService.
From S2P Require Import PlainCodec PlainMemo AuthFacts.

(** ** Rows under a change of what is not selected *)

Lemma list_merge_fmap {A} (f : A → A) (R : relation A) `{!RelDecision R} :
  (∀ x y, R x y ↔ R (f x) (f y)) → ∀ l1 l2, f <$> list_merge R l1 l2 = list_merge R (f <$> l1) (f <$> l2).
Proof.
  intros HR. induction l1 as [|x l1 IH1]; intros l2; [by destruct l2|]. induction l2 as [|y l2 IH2]; [done|]. cbn.
  destruct (decide (R x y)) as [Hd|Hd].
  - rewrite decide_True by (by rewrite <- HR). cbn. f_equal. apply (IH1 (y :: l2)).
  - rewrite decide_False by (by rewrite <- HR). cbn. f_equal. exact IH2.
Qed.

Lemma merge_sort_fmap {A} (f : A → A) (R : relation A) `{!RelDecision R} l :
  (∀ x y, R x y ↔ R (f x) (f y)) → f <$> merge_sort R l = merge_sort R (f <$> l).
Proof.
  intros HR. pose proof (list_merge_fmap f R HR) as Hm. set (g := fmap (M:=option) (fmap (M:=list) f)).
  assert (Hflat : ∀ st, f <$> merge_stack R st = merge_stack R (g <$> st)).
  { induction st as [|[s|] st IH]; cbn; [done| |done]. by rewrite Hm, IH. }
  assert (Hpush : ∀ st l, g <$> merge_list_to_stack R st l = merge_list_to_stack R (g <$> st) (f <$> l)).
  { clear l. induction st as [|[s|] st IH]; intros l; cbn; [done| |done]. by rewrite IH, Hm. }
  unfold merge_sort. change (@nil (option (list A))) with (g <$> @nil (option (list A))) at 2.
  generalize (@nil (option (list A))). induction l as [|x l IH]; intros st; cbn; [done|]. by rewrite IH, Hpush.
Qed.

Lemma select_fmap {V} (f : V → V) (c : Z → V → bool) (R : relation (Z * V)) `{!RelDecision R} (t : gmap Z V) :
  (∀ k v, c k (f v) = c k v) → (∀ x y, R x y ↔ R (prod_map id f x) (prod_map id f y)) →
  select c R (f <$> t) = prod_map id f <$> select c R t.
Proof.
  intros Hc HR. unfold select. rewrite merge_sort_fmap by done. f_equal. rewrite <- map_to_list_fmap. f_equal.
  apply map_eq. intros k. rewrite lookup_fmap. apply option_eq. intros v.
  rewrite map_lookup_filter_Some, lookup_fmap, !fmap_Some. setoid_rewrite map_lookup_filter_Some. cbn. split.
  - intros [(w & Hw & ->) Ht]. exists w. by rewrite Hc in Ht.
  - intros (w & [Hw Ht] & ->). rewrite Hc. by eauto.
Qed.

Lemma limit_offset_fmap {A B} (f : A → B) limit offset l :
  limit_offset limit offset (f <$> l) = f <$> limit_offset limit offset l.
Proof. unfold limit_offset. destruct limit as [n|]; [|done]. rewrite <- fmap_drop. destruct (n <? 0)%Z; [done|]. by rewrite fmap_take. Qed.

(** ** Triples *)

Definition account_pred : Type := StoreState → Prop.
(** From [P], [m] ends in [E] with an error, or with a result in [Q]. *)
Definition triple {A} (P : account_pred) (m : ST A) (Q : A → account_pred) (E : account_pred) : Prop :=
  ∀ st, P st → match m st with (Ok a, st') => Q a st' | (Err _, st') => E st' end.

Section triples.
Context (E : account_pred).

Lemma triple_bind {A B} P R Q (m : ST A) (f : A → ST B) :
  triple P m R E → (∀ a, triple (R a) (f a) Q E) → triple P (m ≫= f) Q E.
Proof. intros Hm Hf st HP. rewrite st_bind. specialize (Hm st HP). destruct (m st) as [[a|e] st']; [by apply Hf|done]. Qed.

Lemma triple_ret {A} (P : account_pred) (a : A) (Q : A → account_pred) : (∀ st, P st → Q a st) → triple P (mret a) Q E.
Proof. intros H st HP. by apply H. Qed.

Lemma triple_err {A} (P : account_pred) e (Q : A → account_pred) : (∀ st, P st → E st) → triple P (st_err e) Q E.
Proof. intros H st HP. by apply H. Qed.

Lemma triple_pre {A} (P P' : account_pred) (m : ST A) Q : triple P m Q E → (∀ st, P' st → P st) → triple P' m Q E.
Proof. intros Hm H st HP. by apply Hm, H. Qed.

Lemma triple_pure {A} (φ : Prop) (P : account_pred) (m : ST A) Q : (φ → triple P m Q E) → triple (λ st, P st ∧ φ) m Q E.
Proof. intros H st [HP Hφ]. by apply H. Qed.

Lemma triple_lift {A} (P : account_pred) (r : result error A) (Q : A → account_pred) :
  (∀ st, P st → E st) → (∀ a st, r = Ok a → P st → Q a st) → triple P (st_lift r) Q E.
Proof. intros HE HQ st HP. cbn. destruct r; [by apply HQ|by apply HE]. Qed.

Lemma triple_status {A} c msg (P : account_pred) (m : ST A) Q : triple P m Q E → triple P (st_status c msg m) Q E.
Proof. intros Hm st HP. specialize (Hm st HP). unfold st_status. by destruct (m st) as [[a|e] st']. Qed.

Lemma triple_wrap {A} msg (P : account_pred) (m : ST A) Q : triple P m Q E → triple P (st_wrap msg m) Q E.
Proof. intros Hm st HP. specialize (Hm st HP). unfold st_wrap. by destruct (m st) as [[a|e] st']. Qed.

Lemma triple_guard (b : bool) c msg (P : account_pred) (Q : unit → account_pred) :
  (∀ st, P st → E st) → (∀ st, b = true → P st → Q tt st) → triple P (st_guard b c msg) Q E.
Proof. intros HE HQ. unfold st_guard. destruct b; [by apply triple_ret; intros; apply HQ|by apply triple_err]. Qed.
End triples.

(** ** Accounts behind the cache *)

(** What is cached is what is stored, and ids are handed out fresh. *)
Record accounts_inv (st : StoreState) : Prop := {
  ai_cached u row : userCache st !! u = Some row → users (db st) !! u = Some row;
  ai_fresh : fresh_users (db st);
}.

Lemma accounts_inv_cache st c : accounts_inv st →
  (∀ u row, c (userCache st) !! u = Some row → users (db st) !! u = Some row) → accounts_inv (set_user_cache c st).
Proof. intros [_ Hf] Hc. by split. Qed.

Lemma cache_rows l st : accounts_inv st → (∀ kv, kv ∈ l → users (db st) !! kv.1 = Some kv.2) →
  accounts_inv (set_user_cache (λ c, fold_left (λ c kv, <[kv.1 := kv.2]> c) l c) st).
Proof.
  intros Hi Hl. apply accounts_inv_cache; [done|]. destruct Hi as [Hc _]. cbn. revert Hc. generalize (userCache st).
  induction l as [|kv l IH]; intros c Hc; cbn; [done|]. apply IH.
  - intros kv' Hin. apply Hl. by right.
  - intros u row [[<- <-]|[_ Hu]]%lookup_insert_Some; [apply Hl; by left|by apply Hc].
Qed.

Section reads.
(** The database as it was when the request came in. *)
Context (d0 : DB).
Definition same (st : StoreState) : Prop := accounts_inv st ∧ db st = d0.
(** A method that reads: if it ends with a result, then with one in [φ]. *)
Definition reads {A} (m : ST A) (φ : A → Prop) : Prop := triple same m (λ a st, same st ∧ φ a) same.

Lemma reads_bind {A B} (m : ST A) (f : A → ST B) φ ψ : reads m φ → (∀ a, φ a → reads (f a) ψ) → reads (m ≫= f) ψ.
Proof. intros Hm Hf. eapply triple_bind; [exact Hm|]. intros a. apply triple_pure, Hf. Qed.
Lemma reads_ret {A} (a : A) (φ : A → Prop) : φ a → reads (mret a) φ.
Proof. intros H. by apply triple_ret. Qed.
Lemma reads_err {A} e (φ : A → Prop) : reads (st_err e) φ.
Proof. by apply triple_err. Qed.
Lemma reads_lift {A} (r : result error A) : reads (st_lift r) (λ a, r = Ok a).
Proof. by apply triple_lift. Qed.
Lemma reads_status {A} c msg (m : ST A) φ : reads m φ → reads (st_status c msg m) φ.
Proof. apply triple_status. Qed.
Lemma reads_wrap {A} msg (m : ST A) φ : reads m φ → reads (st_wrap msg m) φ.
Proof. apply triple_wrap. Qed.
Lemma reads_guard (b : bool) c msg : reads (st_guard b c msg) (λ _, b = true).
Proof. by apply triple_guard. Qed.
Lemma reads_weaken {A} (m : ST A) (φ ψ : A → Prop) : reads m φ → (∀ a, φ a → ψ a) → reads m ψ.
Proof. intros Hm H st Hs. specialize (Hm st Hs). destruct (m st) as [[a|e] st']; [|done]. destruct Hm. by auto. Qed.
Lemma reads_ignore {A} (m : ST A) φ : reads m φ → reads (ignore_err m) (λ r, ∀ a, r = Some a → φ a).
Proof.
  intros Hm st Hs. specialize (Hm st Hs). unfold ignore_err. destruct (m st) as [[a|e] st']; [|done].
  destruct Hm as [? Ha]. split; [done|]. by intros ? [= <-].
Qed.
Lemma reads_state {A} (q : StoreState → A) (φ : A → Prop) : (∀ st, same st → φ (q st)) → reads (read q) φ.
Proof. intros H st Hs. split; [done|]. by apply H. Qed.

Lemma reads_GetUser u : reads (GetUser u) (λ r, r = users d0 !! u).
Proof.
  intros st [Hi Hd]. unfold GetUser. rewrite st_bind. cbn [read].
  destruct (userCache st !! u) as [row|] eqn:Hc.
  - cbn. split; [done|]. rewrite <- Hd. by rewrite (ai_cached _ Hi u row Hc).
  - rewrite st_bind. cbn [read]. rewrite Hd. destruct (users d0 !! u) as [row|] eqn:Hu; cbn; [|done].
    split; [|done]. split; [|done]. apply accounts_inv_cache; [done|]. intros u' r.
    intros [[<- <-]|[_ Hr]]%lookup_insert_Some; [by rewrite Hd|by apply (ai_cached _ Hi)].
Qed.

Lemma reads_cache l : (∀ kv, kv ∈ l → users d0 !! kv.1 = Some kv.2) → reads (cache_users l) (λ _, True).
Proof.
  intros Hl st [Hi Hd]. split; [|done]. split; [|done]. apply cache_rows; [done|]. intros kv Hkv. rewrite Hd. by apply Hl.
Qed.

(** The user who acts in a context: not archived. *)
Definition acting (ctx : AuthContext) (a : Z * User) : Prop :=
  GetUserID ctx = a.1 ∧ users d0 !! a.1 = Some a.2 ∧ us_row_status a.2 = Normal.

Lemma reads_fetchCurrentUser ctx : reads (fetchCurrentUser ctx) (λ r, ∀ a, r = Some a → acting ctx a).
Proof.
  unfold fetchCurrentUser. destruct (GetUserID ctx =? 0)%Z; [by apply reads_ret|].
  eapply reads_bind; [apply reads_GetUser|]. intros r ->.
  destruct (users d0 !! GetUserID ctx) as [row|] eqn:Hu; [|apply reads_err].
  apply reads_ret. unfold isActiveCurrentUser. destruct (String.eqb_spec (us_row_status row) Normal); [|done]. by intros a [= <-].
Qed.

Lemma reads_viewer ctx : reads (viewer_of ctx) (λ r, ∀ a, r = Some a → acting ctx a).
Proof.
  unfold viewer_of. eapply reads_bind; [apply reads_ignore, reads_fetchCurrentUser|]. intros r Hr.
  apply reads_ret. destruct r as [r|]; [by apply Hr|done].
Qed.

Lemma reads_current_user msg ctx : reads (current_user_or msg ctx) (acting ctx).
Proof.
  unfold current_user_or. eapply reads_bind; [apply reads_status, reads_fetchCurrentUser|]. intros [a|] Ha; [|apply reads_err].
  apply reads_ret. by apply Ha.
Qed.

(** The user a name names. *)
Definition named (name : string) (u : Z * User) : Prop :=
  name = BuildUserName (us_username u.2) ∧ users d0 !! u.1 = Some u.2.

Lemma reads_GetUserByUsername username :
  reads (GetUserByUsername username) (λ r, ∀ u, r = Some u → us_username u.2 = username ∧ users d0 !! u.1 = Some u.2).
Proof.
  unfold GetUserByUsername. eapply reads_bind.
  { apply (reads_state _ (λ l, l = users_named username d0)). intros st [_ ->]. done. }
  intros l ->. assert (Hl : ∀ kv, kv ∈ users_named username d0 → us_username kv.2 = username ∧ users d0 !! kv.1 = Some kv.2).
  { intros [k row] Hkv. apply elem_of_map_to_list, map_lookup_filter_Some in Hkv. tauto. }
  eapply reads_bind; [apply (reads_cache (users_named username d0)); intros kv Hkv; by apply Hl|]. intros _ _.
  apply reads_ret. intros u Hu. apply Hl. destruct (users_named username d0); [done|]. injection Hu as ->. by left.
Qed.

Lemma reads_ResolveUserByName name : reads (ResolveUserByName name) (λ r, ∀ u, r = Some u → named name u).
Proof.
  unfold ResolveUserByName. eapply reads_bind; [apply reads_lift|]. intros username Hname.
  eapply reads_weaken; [apply reads_wrap, reads_GetUserByUsername|]. intros r Hr u Hu. specialize (Hr u Hu) as [Hn Hrow].
  split; [|done]. rewrite Hn. by apply parseUsername_Ok.
Qed.

Lemma reads_named_user msg name : reads (named_user msg name) (named name).
Proof.
  unfold named_user. eapply reads_bind; [apply reads_status, reads_ResolveUserByName|]. intros [u|] Hu; [|apply reads_err].
  apply reads_ret. by apply Hu.
Qed.

Lemma reads_ListUsers find : reads (ListUsers find) (λ l, l = driver_ListUsers find d0).
Proof.
  unfold ListUsers. eapply reads_bind.
  { apply (reads_state _ (λ l, l = driver_ListUsers find d0)). intros st [_ ->]. done. }
  intros l ->. eapply reads_bind; [apply reads_cache|intros _ _; by apply reads_ret].
  intros [u row] Hin. unfold driver_ListUsers in Hin. apply limit_offset_elem, elem_of_select in Hin. tauto.
Qed.
End reads.

(** ** Who may do what *)

Section accounts.
Context `{ProtoJSON} `{ProtoPageToken} `{Text.GoUnicode}.
Context (compile : string → result error expr) (hash : string → result error string).
Context (general : result error InstanceGeneralSetting) (cleanup : list (Z * Attachment) → result error unit).

Inductive AccountRequest :=
| RListUsers (filter : string) (page_size : Z) (page_token : string)
| RBatchGetUsers (usernames : list string)
| RGetUser (name : string)
| RCreateUser (user_id : string) (user : option UserMessage) (validate_only : bool)
| RUpdateUser (user : option UserMessage) (update_mask : option (list string))
| RDeleteUser (md : option Metadata) (name : string).

Inductive AccountAnswer :=
| AnUsers (l : list UserMessage) (next_page_token : string)
| AnUser (u : UserMessage)
| AnDeleted (cookie : option string).

Definition handle_account (ctx : AuthContext) (now : Z) (q : AccountRequest) : ST AccountAnswer :=
  match q with
  | RListUsers filter size token => '(l, next) ← ListUsersPage compile ctx filter size token; mret (AnUsers l next)
  | RBatchGetUsers usernames => l ← BatchGetUsers ctx usernames; mret (AnUsers l "")
  | RGetUser name => u ← GetUserMessage ctx name; mret (AnUser u)
  | RCreateUser user_id user validate_only =>
      u ← CreateUserMessage hash general ctx user_id user validate_only now; mret (AnUser u)
  | RUpdateUser user mask => u ← UpdateUserMessage hash general ctx user mask now; mret (AnUser u)
  | RDeleteUser md name => c ← DeleteUserMessage cleanup ctx md name; mret (AnDeleted c)
  end.

Definition administrator (row : User) : Prop := us_role row = RoleAdmin.
Definition registration_open : Prop :=
  ∃ s, general = Ok s ∧ ig_disallow_user_registration s = false ∧ ig_disallow_password_auth s = false.

(** The acting user is an administrator. *)
Definition acting_admin (d : DB) (ctx : AuthContext) : Prop := ∃ a, acting d ctx a ∧ administrator a.2.
(** ... or [u]. *)
Definition acts_for (d : DB) (ctx : AuthContext) (u : Z) : Prop := ∃ a, acting d ctx a ∧ (a.1 = u ∨ administrator a.2).

Definition may_create (d : DB) (ctx : AuthContext) (row : User) : Prop :=
  us_row_status row = Normal ∧
  (administrator row → users d = ∅ ∨ acting_admin d ctx) ∧
  (users d = ∅ ∨ acting_admin d ctx ∨ registration_open).
Definition may_change (d : DB) (ctx : AuthContext) (u : Z) (row row' : User) : Prop :=
  acts_for d ctx u ∧ us_created_ts row' = us_created_ts row ∧
  (us_role row' ≠ us_role row ∨ us_row_status row' ≠ us_row_status row → acting_admin d ctx).
Definition may_delete (d : DB) (ctx : AuthContext) (u : Z) : Prop :=
  acts_for d ctx u ∧ ∀ s m, members d !! (s, u) = Some m → mb_status m = SpaceMemberStatusInvited.

Definition authorized (ctx : AuthContext) (d d' : DB) : Prop := ∀ u,
  match users d !! u, users d' !! u with
  | None, None => True
  | None, Some row => may_create d ctx row
  | Some row, Some row' => row' = row ∨ may_change d ctx u row row'
  | Some _, None => may_delete d ctx u
  end.

Lemma authorized_refl ctx d d' : users d' = users d → authorized ctx d d'.
Proof. intros E u. rewrite E. destruct (users d !! u); [by left|done]. Qed.

Section handlers.
Context (d0 : DB) (ctx : AuthContext).
Definition served_account (st : StoreState) : Prop := accounts_inv st ∧ authorized ctx d0 (db st).

Lemma same_served st : same d0 st → served_account st.
Proof. intros [Hi Hd]. split; [done|]. apply authorized_refl. by rewrite Hd. Qed.

Lemma reads_served {A} (m : ST A) φ : reads d0 m φ → triple (same d0) m (λ _, served_account) served_account.
Proof.
  intros Hm st Hs. specialize (Hm st Hs). destruct (m st) as [[a|e] st']; [|by apply same_served].
  destruct Hm as [Hs' _]. by apply same_served.
Qed.

(** After reading. *)
Lemma served_after {A B} (m : ST A) (f : A → ST B) φ (Q : B → account_pred) :
  reads d0 m φ → (∀ a, φ a → triple (same d0) (f a) Q served_account) →
  triple (same d0) (m ≫= f) Q served_account.
Proof.
  intros Hm Hf. eapply (triple_bind _ _ (λ a st, same d0 st ∧ φ a)); [|intros a; apply triple_pure, Hf].
  intros st Hs. specialize (Hm st Hs). destruct (m st) as [[a|e] st']; [done|by apply same_served].
Qed.

Lemma served_ret {A} (P : account_pred) (a : A) :
  (∀ st, P st → served_account st) → triple P (mret a) (λ _, served_account) served_account.
Proof. intros HP. by apply triple_ret. Qed.

(** *** Creation *)

Lemma create_user create now :
  us_description create = "" →
  triple (same d0) (CreateUser create now)
    (λ _ st, accounts_inv st ∧ ∃ row, us_row_status row = Normal ∧ us_role row = us_role create ∧
       users d0 !! next_user d0 = None ∧ users (db st) = <[next_user d0 := row]> (users d0)) (same d0).
Proof.
  intros Hdesc st [Hi Hd]. unfold CreateUser. rewrite st_bind. unfold driver, run. rewrite Hd.
  destruct (Driver.CreateUser create now d0) as [[id d]|e] eqn:E.
  2: { split; [|done]. destruct st; cbn in *; by subst. }
  unfold Driver.CreateUser in E. tx E. destruct Hi as [Hc Hf].
  assert (∀ u r, users (db st) !! u = Some r → u ≠ next_user (db st)) as Hfresh.
  { intros u r Hr ->. specialize (Hf _ (ex_intro _ r Hr)). lia. }
  rewrite st_bind. cbn [read set_db db users set_users set_next]. rewrite lookup_insert_eq. cbn. split.
  - split; cbn.
    + rewrite Hdesc. intros u r [[<- <-]|[Hne Hr]]%lookup_insert_Some; [by rewrite lookup_insert_eq|].
      rewrite lookup_insert_ne by done. by apply Hc.
    + intros u [r Hr]. cbn in *. apply lookup_insert_Some in Hr as [[<- _]|[_ Hr]]; [lia|].
      specialize (Hf u (ex_intro _ r Hr)). lia.
  - eexists. split_and!; [| | |reflexivity]; [done|done|].
    destruct (users (db st) !! next_user (db st)) as [r|] eqn:Hr; [by destruct (Hfresh _ _ Hr)|done].
Qed.

Lemma created_served st row :
  may_create d0 ctx row → users d0 !! next_user d0 = None → users (db st) = <[next_user d0 := row]> (users d0) →
  authorized ctx d0 (db st).
Proof.
  intros Hc Hn Hu u. rewrite Hu. destruct (decide (u = next_user d0)) as [->|Hne].
  - by rewrite lookup_insert_eq, Hn.
  - rewrite lookup_insert_ne by done. destruct (users d0 !! u); [by left|done].
Qed.

Lemma create_served {A} c msg create now (f : Z * User → A) :
  us_description create = "" → (∀ row, us_row_status row = Normal → us_role row = us_role create → may_create d0 ctx row) →
  triple (same d0) (u ← st_status c msg (CreateUser create now); mret (f u)) (λ _, served_account) served_account.
Proof.
  intros Hd Hc. eapply (triple_bind _ _ (λ _, served_account)); [|intros u; by apply served_ret].
  apply triple_status. intros st Hs. pose proof (create_user create now Hd st Hs) as H'.
  destruct (CreateUser create now st) as [[u|e] st']; [|by apply same_served].
  destruct H' as (Hi & row & Hst & Hr & Hn & Hu). split; [done|]. eapply created_served; [|done..]. by apply Hc.
Qed.

Lemma no_users_spec d : driver_ListUsers first_user d = [] → users d = ∅.
Proof.
  intros Hl. apply map_empty. intros u. apply eq_None_not_Some. intros [row Hu].
  unfold driver_ListUsers, limit_offset in Hl. cbn [fu_limit first_user fu_offset default] in Hl.
  set (l := select _ _ _) in Hl. assert ((u, row) ∈ l) as Hin by (by apply elem_of_select).
  destruct l; [by apply not_elem_of_nil in Hin|done].
Qed.

Lemma reads_registration_allowed : reads d0 (registration_allowed general) (λ _, registration_open).
Proof.
  unfold registration_allowed. eapply reads_bind; [apply reads_status, reads_lift|]. intros s Hs.
  eapply reads_bind; [apply reads_guard|]. intros _ Hg1%negb_true_iff.
  eapply reads_weaken; [apply reads_guard|]. intros _ Hg2%negb_true_iff. by exists s.
Qed.

Lemma triple_served {A} (m : ST A) (Q : A → account_pred) :
  triple (same d0) m Q (same d0) → triple (same d0) m Q served_account.
Proof. intros Hm st Hs. specialize (Hm st Hs). destruct (m st) as [[a|e] st']; [done|by apply same_served]. Qed.

Lemma register_spec user validate_only now :
  triple (same d0) (register hash general user validate_only now)
    (λ r st, match r with
             | inl _ => served_account st
             | inr role => same d0 st ∧ (validate_only = true ∨ (role = RoleUser ∧ registration_open))
             end) served_account.
Proof.
  assert (Hallowed : triple (same d0) (_ ← registration_allowed general; mret (inr RoleUser : (Z * User) + string))
    (λ r st, match r with
             | inl _ => served_account st
             | inr role => same d0 st ∧ (validate_only = true ∨ (role = RoleUser ∧ registration_open))
             end) served_account).
  { eapply served_after; [apply reads_registration_allowed|]. intros ? Ho. apply triple_ret. by auto. }
  unfold register. eapply served_after; [apply reads_status, reads_ListUsers|]. intros l ->.
  case_bool_decide as Hl; [|exact Hallowed]. apply no_users_spec in Hl.
  destruct validate_only; [apply triple_ret; by auto|].
  eapply served_after; [apply reads_status, reads_lift|]. intros h _.
  eapply (triple_bind _ _ (λ r st, match r with Some _ => served_account st | None => same d0 st end)).
  - apply triple_status. unfold CreateUserIfNoUsers. eapply served_after; [by apply (reads_state _ _ (λ _, True))|].
    intros [] _; [|by apply triple_ret].
    eapply (triple_bind _ _ (λ _, served_account)); [|intros u; by apply triple_ret].
    intros st Hs. pose proof (create_user (new_user user RoleAdmin h) now eq_refl st Hs) as H'.
    destruct (CreateUser _ now st) as [[u|e] st']; [|by apply same_served].
    destruct H' as (Hi & row & Hst & _ & Hn & Hu). split; [done|]. eapply created_served; [|done..].
    split_and!; [done|by left|by left].
  - intros [u|]; [by apply triple_ret|exact Hallowed].
Qed.

Lemma reads_check_new_user user_id user : reads d0 (check_new_user user_id user) (λ _, True).
Proof.
  unfold check_new_user. destruct user as [user|]; [|apply reads_err].
  eapply reads_bind; [apply reads_guard|]. intros _ _. do 2 (eapply reads_bind; [apply reads_status, reads_lift|]; intros _ _).
  by apply reads_ret.
Qed.

Lemma create_as_served user role validate_only now :
  (validate_only = false → ∀ row, us_row_status row = Normal → us_role row = role → may_create d0 ctx row) →
  triple (same d0) (create_as hash user role validate_only now) (λ _, served_account) served_account.
Proof.
  intros Hc. unfold create_as. destruct validate_only; [apply served_ret, same_served|].
  eapply served_after; [apply reads_status, reads_lift|]. intros h _. apply create_served; [done|]. cbn. by apply Hc.
Qed.

Lemma CreateUser_served user_id user validate_only now :
  triple (same d0) (CreateUserMessage hash general ctx user_id user validate_only now) (λ _, served_account) served_account.
Proof.
  unfold CreateUserMessage. eapply served_after; [apply reads_viewer|]. intros viewer Hv.
  eapply served_after; [apply reads_check_new_user|]. intros message _.
  eapply (triple_bind _ _ (λ r st, match r with
     | inl _ => served_account st
     | inr role => same d0 st ∧ (validate_only = true ∨ acting_admin d0 ctx ∨ (role = RoleUser ∧ registration_open))
     end)).
  - destruct viewer as [a|]; cbn [is_admin_user].
    + destruct (String.eqb_spec (us_role a.2) RoleAdmin) as [Hr|Hr].
      * apply triple_ret. intros st Hs. split; [done|]. right; left. exists a. by split; [apply Hv|].
      * intros st Hs. pose proof (register_spec message validate_only now st Hs) as H'.
        destruct (register _ _ _ _ _ st) as [[[u|role]|e] st']; [done|naive_solver|done].
    + intros st Hs. pose proof (register_spec message validate_only now st Hs) as H'.
      destruct (register _ _ _ _ _ st) as [[[u|role]|e] st']; [done|naive_solver|done].
  - intros [u|role]; [by apply served_ret|]. apply triple_pure. intros Hrole. apply create_as_served.
    intros -> row Hst Hr. destruct Hrole as [|[Ha|[-> Ho]]]; [done|by split_and!; auto|].
    split_and!; [done| |by auto]. unfold administrator. rewrite Hr. done.
Qed.

(** *** Changes *)

(** What the paths of a mask may set. *)
Lemma update_path_id setting admin user field upd upd' :
  update_path hash setting admin user field upd = Ok upd' →
  Driver.uu_id upd' = Driver.uu_id upd ∧
  (admin = false → Driver.uu_role upd' = Driver.uu_role upd ∧ Driver.uu_row_status upd' = Driver.uu_row_status upd).
Proof.
  unfold update_path. destruct upd. intros E.
  repeat (case_match || simplify_eq); cbn; split; done.
Qed.

Lemma update_paths_id setting admin user paths : ∀ upd upd',
  update_paths hash setting admin user paths upd = Ok upd' →
  Driver.uu_id upd' = Driver.uu_id upd ∧
  (admin = false → Driver.uu_role upd' = Driver.uu_role upd ∧ Driver.uu_row_status upd' = Driver.uu_row_status upd).
Proof.
  induction paths as [|field paths IH]; intros upd upd'; cbn; [intros [= ->]; split; auto|].
  intros (u & E%update_path_id & E')%bind_Ok. apply IH in E'. destruct E as [E1 E2], E' as [E3 E4].
  split; [congruence|]. intros Ha. specialize (E2 Ha). specialize (E4 Ha). split; etrans; try apply E4; apply E2.
Qed.

Lemma store_update_served upd :
  (∀ row, users d0 !! Driver.uu_id upd = Some row → may_change d0 ctx (Driver.uu_id upd) row (Driver.updated_user upd row)) →
  triple (same d0) (store_update upd) (λ _, served_account) served_account.
Proof.
  intros Hc st [Hi Hd]. unfold store_update, UpdateUser. rewrite st_bind. unfold driver, run. rewrite Hd.
  destruct (Driver.UpdateUser upd d0) as [[row d]|e] eqn:E.
  2: { apply same_served. split; [|done]. destruct st; cbn in *; by subst. }
  apply UserEffects.UpdateUser_Ok in E as (old & Hold & -> & -> & _). cbn. destruct Hi as [Hi Hf]. rewrite Hd in Hi, Hf. split.
  - split; cbn.
    + intros u r. intros [[<- <-]|[Hne Hr]]%lookup_insert_Some; [by rewrite lookup_insert_eq|].
      rewrite lookup_insert_ne by done. by apply Hi.
    + intros u [r Hr]. cbn in *. apply lookup_insert_Some in Hr as [[<- _]|[_ Hr]]; apply Hf; by eexists.
  - intros u. cbn. destruct (decide (u = Driver.uu_id upd)) as [->|Hne].
    + rewrite lookup_insert_eq, Hold. right. by apply Hc.
    + rewrite lookup_insert_ne by done. destruct (users d0 !! u); [by left|done].
Qed.

Lemma UpdateUser_served user mask now :
  triple (same d0) (UpdateUserMessage hash general ctx user mask now) (λ _, served_account) served_account.
Proof.
  unfold UpdateUserMessage. destruct user as [message|]; [|apply triple_err, same_served].
  eapply served_after; [apply reads_guard|]. intros _ _.
  eapply served_after; [apply reads_named_user|]. intros user [_ Hu].
  eapply served_after; [apply reads_current_user|]. intros a Ha.
  eapply served_after; [apply reads_guard|]. intros ? Hg.
  eapply served_after; [apply reads_status, reads_lift|]. intros setting _.
  eapply served_after; [apply reads_lift|]. intros upd [Hid Hr]%update_paths_id. cbn in Hid, Hr.
  eapply (triple_bind _ _ (λ _, served_account)); [|intros u; by apply served_ret].
  apply store_update_served. rewrite Hid. intros row Hrow. split_and!.
  - exists a. split; [done|]. apply orb_true_iff in Hg as [Hg%Z.eqb_eq|Hg%String.eqb_eq]; auto.
  - done.
  - intros Hch. exists a. split; [done|]. destruct (String.eqb_spec (us_role a.2) RoleAdmin) as [|Hn]; [done|].
    destruct (Hr eq_refl) as [Hr1 Hr2]. unfold Driver.updated_user in Hch. cbn in Hch. rewrite Hr1, Hr2 in Hch. cbn in Hch. tauto.
Qed.

(** *** Deletion *)

Lemma DeleteUser_served md name :
  triple (same d0) (DeleteUserMessage cleanup ctx md name) (λ _, served_account) served_account.
Proof.
  unfold DeleteUserMessage. eapply served_after; [apply reads_named_user|]. intros user [_ Hu].
  eapply served_after; [apply reads_current_user|]. intros a Ha.
  eapply served_after; [apply reads_guard|]. intros ? Hg.
  eapply (triple_bind _ _ (λ _, served_account)).
  - intros st [Hi Hd]. unfold store_delete. rewrite st_bind. unfold driver, run. rewrite Hd.
    destruct (Driver.DeleteUser user.1 false d0) as [[r d]|e] eqn:E.
    2: { apply same_served. split; [|done]. destruct st; cbn in *; by subst. }
    apply UserEffects.DeleteUser_Ok in E as [(Hn & _)|(_ & _ & Hm & -> & ->)]; [congruence|]. cbn.
    destruct Hi as [Hi Hf]. rewrite Hd in Hi, Hf. split.
    + split; cbn.
      * intros u r [Hne Hr]%lookup_delete_Some. rewrite lookup_delete_ne by done. by apply Hi.
      * intros u [r Hr]. cbn in Hr. apply lookup_delete_Some in Hr as [_ Hr]. apply Hf. by eexists.
    + intros u. cbn. destruct (decide (u = user.1)) as [->|Hne].
      * rewrite lookup_delete_eq, Hu. split; [|done]. exists a. split; [done|].
        apply orb_true_iff in Hg as [Hg%Z.eqb_eq|Hg%String.eqb_eq]; auto.
      * rewrite lookup_delete_ne by done. destruct (users d0 !! u); [by left|done].
  - intros attachments. eapply (triple_bind _ _ (λ _, served_account)); [|intros _; by apply served_ret].
    apply triple_status, triple_lift; by intros.
Qed.
End handlers.

(** *** Every request *)

Lemma reads_user_page d limit offset rows : reads d (user_page limit offset rows) (λ _, True).
Proof.
  unfold user_page. destruct (_ =? _)%Z; [|by apply reads_ret].
  eapply reads_bind; [apply reads_status, reads_lift|]. intros token _. by apply reads_ret.
Qed.

Lemma handle_account_served d0 ctx now q :
  triple (same d0) (handle_account ctx now q) (λ _, served_account d0 ctx) (served_account d0 ctx).
Proof.
  destruct q; cbn [handle_account].
  - apply (reads_served _ _ _ (λ _, True)). eapply (reads_bind _ _ _ (λ _, True)); [|by intros [] _; apply reads_ret]. unfold ListUsersPage.
    eapply reads_bind; [apply reads_current_user|]. intros a _. eapply reads_bind; [apply reads_guard|]. intros _ _.
    do 2 (eapply reads_bind; [apply reads_status, reads_lift|]; intros ? _). destruct a1 as [limit offset].
    eapply reads_bind; [apply reads_status, reads_ListUsers|]. intros l _.
    eapply reads_bind; [apply reads_user_page|]. intros [rows token] _. by apply reads_ret.
  - apply (reads_served _ _ _ (λ _, True)). eapply (reads_bind _ _ _ (λ _, True)); [|by intros l _; apply reads_ret]. unfold BatchGetUsers.
    case_bool_decide; [by apply reads_ret|]. destruct (uniqueBatchUsernames usernames) as [names n].
    eapply reads_bind; [apply reads_guard|]. intros _ _. case_bool_decide; [by apply reads_ret|].
    eapply reads_bind; [apply reads_status, reads_ListUsers|]. intros l _.
    eapply reads_bind; [apply reads_viewer|]. intros v _. by apply reads_ret.
  - apply (reads_served _ _ _ (λ _, True)). eapply (reads_bind _ _ _ (λ _, True)); [|by intros u _; apply reads_ret]. unfold GetUserMessage.
    eapply reads_bind; [apply reads_named_user|]. intros u _. eapply reads_bind; [apply reads_viewer|]. intros v _. by apply reads_ret.
  - eapply triple_bind; [apply CreateUser_served|]. intros u. by apply served_ret.
  - eapply triple_bind; [apply UpdateUser_served|]. intros u. by apply served_ret.
  - eapply triple_bind; [apply DeleteUser_served|]. intros u. by apply served_ret.
Qed.

Lemma handle_account_after ctx now q st : accounts_inv st →
  accounts_inv (handle_account ctx now q st).2 ∧ authorized ctx (db st) (db (handle_account ctx now q st).2).
Proof.
  intros Hi. pose proof (handle_account_served (db st) ctx now q st (conj Hi eq_refl)) as H'.
  by destruct (handle_account ctx now q st) as [[a|e] st'].
Qed.

(** C7. Accounts change only by those entitled.  Whatever is asked of the user API,
    failing or not, in whatever state of the cache: a new account is active, and an
    administrator only when it is the first account or an active administrator
    made it, and nobody registers when registration is closed; an existing account
    changes only by its active owner or an active administrator, its role and state
    only by an administrator; and it is deleted only by these, when it is a member
    of no space. *)
Theorem account_changes_authorized ctx now q st st' r :
  accounts_inv st → handle_account ctx now q st = (r, st') →
  accounts_inv st' ∧ ∀ u,
    match users (db st) !! u, users (db st') !! u with
    | None, None => True
    | None, Some row =>
        us_row_status row = Normal ∧
        (administrator row → users (db st) = ∅ ∨ acting_admin (db st) ctx) ∧
        (users (db st) = ∅ ∨ acting_admin (db st) ctx ∨ registration_open)
    | Some row, Some row' =>
        row' = row ∨
        (acts_for (db st) ctx u ∧ us_created_ts row' = us_created_ts row ∧
         (us_role row' ≠ us_role row ∨ us_row_status row' ≠ us_row_status row → acting_admin (db st) ctx))
    | Some _, None =>
        acts_for (db st) ctx u ∧ ∀ s m, members (db st) !! (s, u) = Some m → mb_status m = SpaceMemberStatusInvited
    end.
Proof. intros Hi E. pose proof (handle_account_after ctx now q st Hi) as H'. by rewrite E in H'. Qed.

(** *** Histories *)

Fixpoint handle_accounts (requests : list (AuthContext * Z * AccountRequest)) (st : StoreState) : StoreState :=
  match requests with
  | [] => st
  | (ctx, now, q) :: requests => handle_accounts requests (handle_account ctx now q st).2
  end.

Definition active_admin (d : DB) (u : Z) : Prop :=
  ∃ row, users d !! u = Some row ∧ administrator row ∧ us_row_status row = Normal.

Lemma without_admin_step ctx now q st : accounts_inv st → users (db st) ≠ ∅ → ¬ active_admin (db st) (GetUserID ctx) →
  ∀ u row, administrator row → users (db (handle_account ctx now q st).2) !! u = Some row ↔ users (db st) !! u = Some row.
Proof.
  intros Hi Hne Hno u row Hrow. destruct (handle_account_after ctx now q st Hi) as [_ Ha]. specialize (Ha u).
  assert (Hnot : ¬ acting_admin (db st) ctx).
  { intros (a & (Hid & Hu & Hst) & Hadm). apply Hno. exists a.2. by rewrite Hid. }
  assert (Hself : acts_for (db st) ctx u → ∃ r, users (db st) !! u = Some r ∧ ¬ administrator r).
  { intros (a & Hact & Ho). destruct (decide (administrator a.2)) as [Hadm|Hadm].
    - destruct Hnot. by exists a.
    - destruct Hact as (_ & Hu & _). destruct Ho as [<-|]; [by exists a.2|done]. }
  set (d' := db (handle_account ctx now q st).2) in *.
  destruct (users (db st) !! u) as [r|] eqn:Er, (users d' !! u) as [r'|] eqn:Er'; [..|done].
  - destruct Ha as [->|(Hself' & _ & Hch)]; [done|]. apply Hself in Hself' as (r0 & [= <-] & Hr0).
    split; intros [= ->]; exfalso; [|done]. apply Hnot, Hch. left. intros E. apply Hr0. unfold administrator in *. congruence.
  - destruct Ha as [Hself' _]. apply Hself in Hself' as (r0 & [= <-] & Hr0). split; [done|]. by intros [= ->].
  - destruct Ha as (_ & Hadm & _). split; [|done]. intros [= ->]. by destruct (Hadm Hrow).
Qed.

(** C8. No history of requests makes an administrator, or changes or deletes the account
    of one, in which no active administrator takes part - once there is one. *)
Theorem no_privilege_escalation requests st :
  accounts_inv st → (∃ u row, users (db st) !! u = Some row ∧ administrator row) →
  Forall (λ request, ¬ active_admin (db st) (GetUserID request.1.1)) requests →
  ∀ u row, administrator row →
    users (db (handle_accounts requests st)) !! u = Some row ↔ users (db st) !! u = Some row.
Proof.
  revert st. induction requests as [|[[ctx now] q] requests IH]; intros st Hi Hsome Hall u row Hrow; [done|].
  apply Forall_cons in Hall as [Hno Hall]. cbn [handle_accounts]. cbn [fst] in Hno.
  assert (Hstep := without_admin_step ctx now q st Hi). destruct (handle_account_after ctx now q st Hi) as [Hi' _].
  set (st' := (handle_account ctx now q st).2) in *.
  assert (users (db st) ≠ ∅) as Hne by (destruct Hsome as (v & r & Hv & _); intros E; by rewrite E, lookup_empty in Hv).
  specialize (Hstep Hne Hno). rewrite IH; [by apply Hstep|done| | |done].
  - destruct Hsome as (v & r & Hv & Hr). exists v, r. split; [by apply Hstep|done].
  - eapply Forall_impl; [exact Hall|]. intros [[ctx' now'] q'] Hn (r & Hr & Hadm & Hst). apply Hn.
    exists r. split; [by apply Hstep|done].
Qed.
(** ** Whose data an answer depends on *)

(** A row without its password, and without its e-mail unless [keep] has its name. *)
Definition conceal_row (keep : string → bool) (row : User) : User :=
  let 'mkUser username role email nickname _ avatar description created updated row_status := row in
  mkUser username role (if keep username then email else "") nickname "" avatar description created updated row_status.
Definition conceal (keep : string → bool) (st : StoreState) : StoreState :=
  mkState (set_users (fmap (conceal_row keep)) (db st)) (conceal_row keep <$> userCache st) (userSettingCache st).

Definition reading (q : AccountRequest) : bool :=
  match q with RListUsers _ _ _ | RBatchGetUsers _ | RGetUser _ => true | _ => false end.

Section veiled.
Context (keep : string → bool) (d0 : DB).
Notation hidden := (prod_map id (conceal_row keep) : Z * User → Z * User).

Definition on_ok {A B} (g : A → B) (r : result error A) : result error B :=
  match r with Ok a => Ok (g a) | Err e => Err e end.
(** [m'] does in the concealed state what [m] does, up to [g]. *)
Definition veiled {A B} (g : A → B) (m : ST A) (m' : ST B) (φ : A → Prop) : Prop :=
  reads d0 m φ ∧ ∀ st, same d0 st → m' (conceal keep st) = (on_ok g (m st).1, conceal keep (m st).2).

Lemma veiled_bind {A A' B B'} (g : A → A') (h : B → B') m m' (f : A → ST B) (f' : A' → ST B') φ ψ :
  veiled g m m' φ → (∀ a, φ a → veiled h (f a) (f' (g a)) ψ) → veiled h (m ≫= f) (m' ≫= f') ψ.
Proof.
  intros [Hr Hm] Hf. split; [eapply reads_bind; [exact Hr|]; intros a Ha; by apply Hf|].
  intros st Hs. rewrite !st_bind, Hm by done. specialize (Hr st Hs). destruct (m st) as [[a|e] st']; cbn; [|done].
  destruct Hr as [Hs' Ha]. by apply Hf.
Qed.
Lemma veiled_ret {A B} (g : A → B) a b (φ : A → Prop) : φ a → b = g a → veiled g (mret a) (mret b) φ.
Proof. intros Ha ->. split; [by apply reads_ret|done]. Qed.
Lemma veiled_err {A B} (g : A → B) e φ : veiled g (st_err e) (st_err e) φ.
Proof. split; [apply reads_err|done]. Qed.
Lemma veiled_lift {A} (r : result error A) : veiled id (st_lift r) (st_lift r) (λ a, r = Ok a).
Proof. split; [apply reads_lift|]. intros st _. cbn. by destruct r. Qed.
Lemma veiled_status {A B} c msg (g : A → B) m m' φ : veiled g m m' φ → veiled g (st_status c msg m) (st_status c msg m') φ.
Proof.
  intros [Hr Hm]. split; [by apply reads_status|]. intros st Hs. unfold st_status. rewrite Hm by done.
  by destruct (m st) as [[a|e] st'].
Qed.
Lemma veiled_wrap {A B} msg (g : A → B) m m' φ : veiled g m m' φ → veiled g (st_wrap msg m) (st_wrap msg m') φ.
Proof.
  intros [Hr Hm]. split; [by apply reads_wrap|]. intros st Hs. unfold st_wrap. rewrite Hm by done.
  by destruct (m st) as [[a|e] st'].
Qed.
Lemma veiled_ignore {A B} (g : A → B) m m' φ :
  veiled g m m' φ → veiled (fmap g) (ignore_err m) (ignore_err m') (λ r, ∀ a, r = Some a → φ a).
Proof.
  intros [Hr Hm]. split; [by apply reads_ignore|]. intros st Hs. unfold ignore_err. rewrite Hm by done.
  by destruct (m st) as [[a|e] st'].
Qed.
Lemma veiled_guard (b : bool) c msg : veiled id (st_guard b c msg) (st_guard b c msg) (λ _, b = true).
Proof. split; [apply reads_guard|]. intros st _. by destruct b. Qed.
Lemma veiled_weaken {A B} (g : A → B) m m' (φ ψ : A → Prop) : veiled g m m' φ → (∀ a, φ a → ψ a) → veiled g m m' ψ.
Proof. intros [Hr Hm] Hw. split; [by eapply reads_weaken|done]. Qed.

Lemma conceal_cache l st :
  conceal keep (set_user_cache (λ c, fold_left (λ c kv, <[kv.1 := kv.2]> c) l c) st) =
  set_user_cache (λ c, fold_left (λ c kv, <[kv.1 := kv.2]> c) (hidden <$> l) c) (conceal keep st).
Proof.
  unfold conceal, set_user_cache. cbn. f_equal. generalize (userCache st).
  induction l as [|[u row] l IH]; intros c; cbn; [done|]. by rewrite IH, fmap_insert.
Qed.

Lemma veiled_cache l : (∀ kv, kv ∈ l → users d0 !! kv.1 = Some kv.2) →
  veiled id (cache_users l) (cache_users (hidden <$> l)) (λ _, True).
Proof. intros Hl. split; [by apply reads_cache|]. intros st _. cbn. by rewrite conceal_cache. Qed.

Lemma veiled_GetUser u : veiled (fmap (conceal_row keep)) (GetUser u) (GetUser u) (λ r, r = users d0 !! u).
Proof.
  split; [apply reads_GetUser|]. intros st _. unfold GetUser. rewrite !st_bind. cbn. rewrite lookup_fmap.
  destruct (userCache st !! u) as [row|]; cbn; [done|]. rewrite !st_bind. cbn. rewrite lookup_fmap.
  destruct (users (db st) !! u) as [row|]; cbn; [|done].
  rewrite !st_bind. cbn. unfold conceal, set_user_cache. cbn. by rewrite fmap_insert.
Qed.

Lemma isActive_conceal row : isActiveCurrentUser (conceal_row keep row) = isActiveCurrentUser row.
Proof. by destruct row. Qed.

Lemma veiled_fetchCurrentUser ctx :
  veiled (fmap hidden) (fetchCurrentUser ctx) (fetchCurrentUser ctx) (λ r, ∀ a, r = Some a → acting d0 ctx a).
Proof.
  split; [apply reads_fetchCurrentUser|]. unfold fetchCurrentUser. destruct (GetUserID ctx =? 0)%Z; [done|].
  intros st Hs. rewrite !st_bind. rewrite (proj2 (veiled_GetUser (GetUserID ctx)) st Hs).
  destruct (GetUser (GetUserID ctx) st) as [[[row|]|e] st']; cbn; [|done|done]. rewrite isActive_conceal.
  by destruct (isActiveCurrentUser row).
Qed.

Lemma veiled_viewer ctx : veiled (fmap hidden) (viewer_of ctx) (viewer_of ctx) (λ r, ∀ a, r = Some a → acting d0 ctx a).
Proof.
  unfold viewer_of. eapply veiled_bind; [apply veiled_ignore, veiled_fetchCurrentUser|]. intros r Hr.
  apply veiled_ret; destruct r as [r|]; [by apply Hr|done|done|done].
Qed.

Lemma veiled_current_user msg ctx : veiled hidden (current_user_or msg ctx) (current_user_or msg ctx) (acting d0 ctx).
Proof.
  unfold current_user_or. eapply veiled_bind; [apply veiled_status, veiled_fetchCurrentUser|].
  intros [a|] Ha; cbn; [apply veiled_ret; by auto|apply veiled_err].
Qed.

Lemma username_conceal row : us_username (conceal_row keep row) = us_username row.
Proof. by destruct row. Qed.

Lemma users_named_conceal username d :
  users_named username (set_users (fmap (conceal_row keep)) d) = hidden <$> users_named username d.
Proof.
  unfold users_named. rewrite <- map_to_list_fmap. f_equal. cbn. apply map_eq. intros u. apply option_eq. intros row.
  rewrite map_lookup_filter_Some, !lookup_fmap, !fmap_Some. setoid_rewrite map_lookup_filter_Some. cbn.
  split; [intros [(r & Hr & ->) Hn]|intros (r & [Hr Hn] & ->)]; rewrite username_conceal in *; eauto.
Qed.

Lemma veiled_named_user msg name : veiled hidden (named_user msg name) (named_user msg name) (named d0 name).
Proof.
  split; [apply reads_named_user|]. intros st _.
  assert (H' : ResolveUserByName name (conceal keep st) =
    (on_ok (fmap hidden) (ResolveUserByName name st).1, conceal keep (ResolveUserByName name st).2)).
  { unfold ResolveUserByName. rewrite !st_bind. cbn. destruct (parseUsernameFromName name) as [username|e]; cbn; [|done].
    unfold st_wrap, GetUserByUsername. rewrite !st_bind. cbn. rewrite users_named_conceal.
    rewrite !st_bind. unfold modify. rewrite <- conceal_cache.
    by destruct (users_named username (db st)). }
  unfold named_user. rewrite !st_bind. unfold st_status. rewrite H'.
  destruct (ResolveUserByName name st) as [[[u|]|e] st']; done.
Qed.

(** Listing, when the filter does not ask for e-mails. *)
Lemma driver_ListUsers_conceal find d : fu_email find = None →
  driver_ListUsers find (set_users (fmap (conceal_row keep)) d) = hidden <$> driver_ListUsers find d.
Proof.
  intros He. unfold driver_ListUsers. cbn [users set_users]. rewrite select_fmap, limit_offset_fmap; [done| |].
  - intros u row. rewrite He. by destruct row.
  - intros [u1 []] [u2 []]. done.
Qed.

Lemma veiled_ListUsers find : fu_email find = None →
  veiled (fmap hidden) (ListUsers find) (ListUsers find) (λ l, l = driver_ListUsers find d0).
Proof.
  intros He. split; [apply reads_ListUsers|]. intros st _. unfold ListUsers. rewrite !st_bind. cbn.
  rewrite driver_ListUsers_conceal by done. rewrite !st_bind. unfold cache_users, modify. by rewrite <- conceal_cache.
Qed.

(** What the caller may see of e-mails is kept. *)
Definition covers (ctx : AuthContext) : Prop :=
  ∀ a, acting d0 ctx a → keep (us_username a.2) = true ∧ (administrator a.2 → ∀ n, keep n = true).

Lemma convert_conceal ctx v u :
  covers ctx → (∀ a, v = Some a → acting d0 ctx a) → users d0 !! u.1 = Some u.2 →
  convertUserFromStore (hidden u) (hidden <$> v) = convertUserFromStore u v.
Proof.
  intros Hc Hv Hu.
  assert (Hsee : canViewerAccessUserEmail v u = true → keep (us_username u.2) = true).
  { destruct v as [a|]; [|done]. specialize (Hv a eq_refl). destruct (Hc a Hv) as [Hk Had].
    intros [Hr%String.eqb_eq|Hid%Z.eqb_eq]%orb_true_iff; [by apply Had|].
    destruct Hv as (_ & Ha & _). rewrite Hid, Hu in Ha. injection Ha as ->. done. }
  assert (canViewerAccessUserEmail (hidden <$> v) (hidden u) = canViewerAccessUserEmail v u) as Hsame
    by (destruct v as [[i []]|]; done).
  unfold convertUserFromStore. rewrite Hsame. destruct u as [i []]. cbn in *.
  destruct (canViewerAccessUserEmail v _); [|done]. by rewrite Hsee.
Qed.

Lemma convert_rows_conceal ctx v (l : list (Z * User)) :
  covers ctx → (∀ a, v = Some a → acting d0 ctx a) → (∀ u, u ∈ l → users d0 !! u.1 = Some u.2) →
  (λ u, convertUserFromStore u (hidden <$> v)) <$> (hidden <$> l) = (λ u, convertUserFromStore u v) <$> l.
Proof.
  intros Hc Hv Hl. rewrite <- list_fmap_compose. apply list_fmap_ext. intros i u Hu. cbn.
  apply (convert_conceal ctx); [done..|]. by apply Hl, (list_elem_of_lookup_2 _ i).
Qed.

Lemma veiled_user_page limit offset rows :
  veiled (prod_map (fmap hidden) id) (user_page limit offset rows) (user_page limit offset (hidden <$> rows))
    (λ r, ∀ u, u ∈ r.1 → u ∈ rows).
Proof.
  unfold user_page. rewrite length_fmap. destruct (_ =? _)%Z; [|by apply veiled_ret].
  eapply veiled_bind; [apply veiled_status, veiled_lift|]. intros token _. apply veiled_ret.
  - cbn. intros u. apply subseteq_take.
  - cbn. by rewrite fmap_take.
Qed.

Lemma driver_ListUsers_row find u : u ∈ driver_ListUsers find d0 → users d0 !! u.1 = Some u.2.
Proof. destruct u. by intros [Hu _]%limit_offset_elem%elem_of_select. Qed.

Lemma veiled_ListUsersPage ctx filter size token : covers ctx →
  veiled id (ListUsersPage compile ctx filter size token) (ListUsersPage compile ctx filter size token) (λ _, True).
Proof.
  intros Hc. unfold ListUsersPage. eapply veiled_bind; [apply veiled_current_user|]. intros a Ha.
  replace (us_role (hidden a).2) with (us_role a.2) by (by destruct a as [i []]).
  eapply veiled_bind; [apply veiled_guard|]. intros _ _.
  eapply veiled_bind; [apply veiled_status, veiled_lift|]. intros username _.
  eapply veiled_bind; [apply veiled_status, veiled_lift|]. intros [limit offset] _. cbn [id].
  eapply veiled_bind; [by apply veiled_status, veiled_ListUsers|]. intros l ->.
  eapply veiled_bind; [apply veiled_user_page|]. intros [rows next] Hrows. apply veiled_ret; [done|]. cbn. f_equal.
  apply (convert_rows_conceal ctx (Some a)); [done|by intros ? [= <-]|]. intros u Hu. by eapply driver_ListUsers_row, Hrows.
Qed.

Lemma veiled_BatchGetUsers ctx usernames : covers ctx →
  veiled id (BatchGetUsers ctx usernames) (BatchGetUsers ctx usernames) (λ _, True).
Proof.
  intros Hc. unfold BatchGetUsers. case_bool_decide; [by apply veiled_ret|].
  destruct (uniqueBatchUsernames usernames) as [names n]. eapply veiled_bind; [apply veiled_guard|]. intros _ _.
  case_bool_decide; [by apply veiled_ret|]. eapply veiled_bind; [by apply veiled_status, veiled_ListUsers|]. intros l ->.
  eapply veiled_bind; [apply veiled_viewer|]. intros v Hv. apply veiled_ret; [done|].
  apply (convert_rows_conceal ctx v); [done..|]. intros u. apply driver_ListUsers_row.
Qed.

Lemma veiled_GetUserMessage ctx name : covers ctx → veiled id (GetUserMessage ctx name) (GetUserMessage ctx name) (λ _, True).
Proof.
  intros Hc. unfold GetUserMessage. eapply veiled_bind; [apply veiled_named_user|]. intros u [_ Hu].
  eapply veiled_bind; [apply veiled_viewer|]. intros v Hv. apply veiled_ret; [done|]. by apply (convert_conceal ctx).
Qed.

Lemma veiled_reading ctx now q : covers ctx → reading q = true →
  veiled id (handle_account ctx now q) (handle_account ctx now q) (λ _, True).
Proof.
  intros Hc Hq. destruct q; [..|done|done|done]; cbn [handle_account].
  - eapply veiled_bind; [by apply veiled_ListUsersPage|]. intros [l next] _. by apply veiled_ret.
  - eapply veiled_bind; [by apply veiled_BatchGetUsers|]. intros l _. by apply veiled_ret.
  - eapply veiled_bind; [by apply veiled_GetUserMessage|]. intros u _. by apply veiled_ret.
Qed.
End veiled.

Lemma answer_conceal keep ctx now q st : accounts_inv st → covers keep (db st) ctx → reading q = true →
  (handle_account ctx now q (conceal keep st)).1 = (handle_account ctx now q st).1.
Proof.
  intros Hi Hc Hq. rewrite (proj2 (veiled_reading keep (db st) ctx now q Hc Hq) st (conj Hi eq_refl)).
  by destruct (handle_account ctx now q st) as [[a|e] st'].
Qed.

Lemma covers_conceal keep ctx st st' : conceal keep st = conceal keep st' → covers keep (db st) ctx → covers keep (db st') ctx.
Proof.
  intros E Hc [u row'] (Hid & Hu & Hst). cbn in *. apply (f_equal (λ s, users (db s) !! u)) in E. cbn in E.
  rewrite !lookup_fmap, Hu in E. apply fmap_Some in E as (row & Hrow & E).
  assert (us_username row = us_username row' ∧ us_role row = us_role row' ∧ us_row_status row = us_row_status row')
    as (<- & Hrole & Hstat) by (clear -E; destruct row, row'; cbn in E; injection E; intros; subst; split_and!; reflexivity).
  unfold administrator in *. cbn. rewrite <- Hrole. apply (Hc (u, row)). split_and!; [done..|cbn; by rewrite Hstat].
Qed.

(** C9. Passwords and e-mail addresses are private.  Two databases that differ only in the
    password hashes and in the e-mail addresses of users other than the caller, who
    is no active administrator, answer every reading request of the user API - a list
    with any filter, any page, a batch, a single user - exactly alike, errors and
    page tokens included; for an administrator this holds of the password hashes.
    [keep] names the users whose e-mails are the same. *)
Theorem emails_and_passwords_private keep ctx now q st1 st2 :
  accounts_inv st1 → accounts_inv st2 → reading q = true →
  (∀ a, acting (db st1) ctx a → keep (us_username a.2) = true ∧ (administrator a.2 → ∀ n, keep n = true)) →
  conceal keep st1 = conceal keep st2 →
  (handle_account ctx now q st1).1 = (handle_account ctx now q st2).1.
Proof.
  intros Hi1 Hi2 Hq Hc E. rewrite <- (answer_conceal keep ctx now q st1) by done.
  rewrite <- (answer_conceal keep ctx now q st2); [by rewrite E|done| |done]. by apply (covers_conceal keep ctx st1).
Qed.
End accounts.

(** ** Examples *)

(** Ada registers first, then makes an account for Bob. *)
Definition plain_hash (password : string) : result error string := Ok ("hashed " +:+ password).
Definition open_registration : result error InstanceGeneralSetting := Ok (mkInstanceGeneral false false false false).
Definition no_filters (filter : string) : result error expr := Err (errorf0 "unsupported").
Definition no_cleanup (l : list (Z * Attachment)) : result error unit := Ok tt.
Definition handle_example := handle_account no_filters plain_hash open_registration no_cleanup.
Definition as_user (u : Z) : AuthContext := mkAuthContext (Some u) None None.
Definition account (username : string) (role : Z) : UserMessage :=
  mkUserMessage "" role username "" "" "" "" "password" 0 None None.
Definition promote (username : string) : UserMessage :=
  mkUserMessage ("users/" +:+ username) User_ADMIN "" "" "" "" "" "" 0 None None.
Definition two_accounts : StoreState :=
  handle_accounts no_filters plain_hash open_registration no_cleanup
    [(Background, 1%Z, RCreateUser "" (Some (account "ada" 0)) false);
     (as_user 1, 2%Z, RCreateUser "" (Some (account "bob" User_USER)) false)]
    (mkState empty_db ∅ ∅).

Lemma two_accounts_inv : accounts_inv two_accounts.
Proof.
  unfold two_accounts. cbn [handle_accounts].
  do 2 (apply handle_account_after). split; [by intros u row|]. intros u [row Hu]. done.
Qed.

Definition ada_admin : User := mkUser "ada" RoleAdmin "" "" "hashed password" "" "" 1 1 Normal.
Lemma two_accounts_rows :
  users (db two_accounts) = {[ 1%Z := ada_admin; 2%Z := mkUser "bob" RoleUser "" "" "hashed password" "" "" 2 2 Normal ]}.
Proof. vm_compute. reflexivity. Qed.

Lemma account_changes_authorized_witness :
  let '(r, st') := handle_example (as_user 1) 3 (RUpdateUser (Some (promote "bob")) (Some ["role"])) two_accounts in
  is_ok r = true ∧ us_role <$> users (db st') !! 2%Z = Some RoleAdmin ∧
  acting_admin (db two_accounts) (as_user 1).
Proof.
  destruct (handle_example _ _ _ _) as [r st'] eqn:E.
  assert (is_ok r = true) as Hr by (change r with (r, st').1; rewrite <- E; vm_compute; reflexivity).
  assert (users (db st') !! 2%Z = Some (mkUser "bob" RoleAdmin "" "" "hashed password" "" "" 2 3 Normal)) as Hrow
    by (change st' with (r, st').2; rewrite <- E; vm_compute; reflexivity).
  split; [exact Hr|]. split; [rewrite Hrow; reflexivity|].
  destruct (account_changes_authorized _ _ _ _ _ _ _ _ _ _ two_accounts_inv E) as [_ H]. specialize (H 2%Z).
  rewrite Hrow, two_accounts_rows in H. cbn in H. destruct H as [H|(_ & _ & H)]; [discriminate H|].
  apply H. left. discriminate.
Defined.

Lemma no_privilege_escalation_witness :
  users (db (handle_accounts no_filters plain_hash open_registration no_cleanup
    [(as_user 2, 3%Z, RUpdateUser (Some (promote "bob")) (Some ["role"]));
     (as_user 2, 4%Z, RCreateUser "" (Some (account "eve" User_ADMIN)) false);
     (Background, 5%Z, RCreateUser "" (Some (account "mallory" User_ADMIN)) false);
     (as_user 3, 6%Z, RDeleteUser None "users/ada")] two_accounts)) !! 1%Z = Some ada_admin.
Proof.
  apply no_privilege_escalation.
  - exact two_accounts_inv.
  - exists 1%Z, ada_admin. split; [rewrite two_accounts_rows; reflexivity|reflexivity].
  - rewrite !Forall_cons, Forall_nil. split_and!; [| | | |done]; intros (row & Hrow & Ha & _);
      rewrite two_accounts_rows in Hrow; vm_compute in Hrow; simplify_eq; discriminate Ha.
  - reflexivity.
  - rewrite two_accounts_rows. reflexivity.
Defined.

(** Ada's e-mail is nothing Bob can learn. *)
Definition with_mail (email : string) : StoreState :=
  (handle_example (as_user 1) 3
     (RUpdateUser (Some (mkUserMessage "users/ada" 0 "" email "" "" "" "" 0 None None)) (Some ["email"])) two_accounts).2.

Lemma with_mail_inv email : accounts_inv (with_mail email).
Proof. apply handle_account_after, two_accounts_inv. Qed.

Lemma emails_and_passwords_private_witness :
  let ask u st := (handle_example (as_user u) 4 (RGetUser "users/ada") st).1 in
  ask 2%Z (with_mail "ada@example.org") = ask 2%Z (with_mail "ada@example.com") ∧
  ask 1%Z (with_mail "ada@example.org") ≠ ask 1%Z (with_mail "ada@example.com").
Proof.
  split; [|vm_compute; discriminate].
  apply (emails_and_passwords_private _ _ _ _ (λ n, String.eqb n "bob")).
  - apply with_mail_inv.
  - apply with_mail_inv.
  - reflexivity.
  - intros [u row] (Hid & Hu & _). cbn in Hid. subst u. vm_compute in Hu. simplify_eq. by split.
  - vm_compute. reflexivity.
Defined.
