(* ===== verification/MemoPages.v ===== *)
(** * Lists are read page by page

    Following the page tokens of [ListMemos] gives every memo the request is for,
    once and in the order asked for, and ends. *)
From Stdlib Require Import Sorted.
From S2P Require Import Prelude GoLib GoText GoTime FilterIR FilterParser FilterRender.
From S2P Require Import Store SpaceStore MemoStore ResourceName MemoAccess MemoAccessFacts FilterAccess.
From S2P Require Import AttachmentStore MemoMutation AuthService Paging MemoQuery MemoConvert MemoReads.
From S2P Require Import SpaceSafety PlainMemo MemoQueryFacts MemoReadsFacts MemoReadsSafety.

Section pages.
Context `{PayloadJSON} `{GoPlatform} `{FilterBackend} `{Markdown} `{ProtoPageToken} `{Text.GoUnicode}.
Context (anonymous : bool) (db : DB) (userID : Z).

(** Payloads are as the server wrote them, and contents have snippets. *)
Record readable_db : Prop := {
  rd_memos id m : memos db !! id = Some m → is_Some (unmarshal_memo_payload (mm_payload m));
  rd_attachments id a : attachments db !! id = Some a → is_Some (unmarshal_attachment_payload (at_payload a));
  rd_snippets id m : memos db !! id = Some m → is_ok (GenerateSnippet (mm_content m) 64) = true }.

Context (Hdb : readable_db).

Lemma ListMemos_total find filtered :
  compile_filters (fm_filters find) = Ok filtered → ∃ l, MemoQuery.ListMemos db find = Ok l.
Proof.
  intros Hf. unfold MemoQuery.ListMemos. rewrite Hf. apply mapM_total. intros kv [Hkv _]%memo_rows_elem.
  unfold scan_memo. by destruct (rd_memos Hdb _ _ Hkv) as [p ->].
Qed.

Lemma GetMemo_total uid : ∃ o, MemoQuery.GetMemo db (find_memo_uid uid) = Ok o.
Proof.
  destruct (ListMemos_total (find_memo_uid uid) (λ _ _ _, true) eq_refl) as [l Hl].
  exists (head l). unfold MemoQuery.GetMemo. by rewrite Hl.
Qed.

Lemma ListAttachments_total find : ∃ l, ListAttachments db find = Ok l.
Proof.
  apply mapM_total. intros [i a] [Ha _]%limit_offset_elem%elem_of_select. unfold scan_attachment; cbn.
  by destruct (rd_attachments Hdb _ _ Ha) as [p ->].
Qed.

Lemma relations_total scope l :
  resolveMemoAccessScope db userID anonymous = Ok scope →
  ∃ m, batchConvertMemoRelations anonymous db userID l false = Ok m.
Proof.
  intros Hs. unfold batchConvertMemoRelations. case_bool_decide; [by eexists|]. rewrite Hs.
  cbn [mbind result_bind snippets]. case_bool_decide; [by eexists|].
  match goal with |- context [MemoQuery.ListMemos db ?f] =>
    destruct (ListMemos_total f (λ _ _ _, true) eq_refl) as [x ->] end.
  cbn. by eexists.
Qed.

Lemma reads_creator id m : reads db anonymous userID id m → is_Some (users db !! mm_creator m).
Proof.
  intros (ctx & Hctx & (i & m' & Hm & Hc & _)%decision_policy)%reads_allowed.
  unfold buildMemoReadContext in Hctx. destruct (MemoAccess.fetchCurrentUser _ _) as [viewer|]; [|done].
  rewrite resolve_context in Hctx. injection Hctx as <-. cbn in *. injection Hm as <- <-.
  unfold creator_valid, user_status in Hc. by destruct (users db !! mm_creator m).
Qed.

(** A memo that may be read has its space when it needs one. *)
Lemma reads_projects id m ctx :
  reads db anonymous userID id m → buildMemoReadContext db userID anonymous (Some (id, m)) None = Ok ctx →
  ∃ o, projectMemoCollaborationContext db m ctx = Ok o.
Proof.
  intros (ctx' & Hctx & (i & m' & Hm & _ & Hsp & _)%decision_policy)%reads_allowed Hctx'.
  rewrite Hctx in Hctx'. injection Hctx' as ->.
  unfold buildMemoReadContext in Hctx. destruct (MemoAccess.fetchCurrentUser _ _) as [viewer|]; [|done].
  rewrite resolve_context in Hctx. injection Hctx as <-. cbn in *. injection Hm as <- <-.
  unfold projectMemoCollaborationContext. cbn. destruct (mm_space m) as [sid|] eqn:Hs; [|by eexists].
  destruct (placement_valid db m) eqn:Hp; cbn.
  - destruct viewer as [[v row]|]; [|by eexists]. case_match; [by eexists|]. rewrite GetSpace_id. cbn.
    unfold placement_valid, space_exists in Hp. rewrite Hs, bool_decide_eq_true in Hp.
    destruct Hp as [space ->]. by eexists.
  - destruct (String.eqb_spec (mm_visibility m) SpaceAudience) as [Hv|]; [|by eexists].
    by destruct (Hsp Hv).
Qed.

Definition shown_name (m : StoredMemo) : string := buildMemoName (mm_uid (st_row m)).

Lemma convert_total m rs ats rels creators :
  memos db !! st_id m = Some (st_row m) → reads db anonymous userID (st_id m) (st_row m) →
  is_Some (creators !! mm_creator (st_row m)) →
  ∃ msg, convertMemoFromStoreWithCreators anonymous db userID m rs ats rels creators = Ok msg ∧
         mg_name msg = shown_name m.
Proof.
  intros Hm Hr [c Hc]. unfold convertMemoFromStoreWithCreators. rewrite Hc.
  match goal with |- context [mbind _ ?sp] => assert (∃ o, sp = Ok o) as [space ->] end.
  { destruct (mm_space (st_row m)); [|by eexists].
    destruct (proj1 (reads_allowed _ _ _ _ _) Hr) as (ctx & Hctx & _). rewrite Hctx. cbn.
    by destruct (reads_projects _ _ _ Hr Hctx) as [o ->]; eexists. }
  cbn. assert (∃ o, project_parent anonymous db userID m = Ok o) as [parent ->].
  { unfold project_parent. destruct (st_parent_uid m) as [uid|]; [|by eexists].
    by destruct (GetMemo_total uid) as [o ->]; eexists. }
  cbn. unfold getMemoContentSnippet. pose proof (rd_snippets Hdb _ _ Hm) as Hs.
  destruct (GenerateSnippet _ _); [|done]. cbn. by eexists.
Qed.

Lemma convert_memos_total rs ats relationMap creators l :
  (∀ m, m ∈ l → memos db !! st_id m = Some (st_row m) ∧ reads db anonymous userID (st_id m) (st_row m) ∧
    is_Some (creators !! mm_creator (st_row m))) →
  ∃ msgs, convert_memos anonymous db userID rs ats relationMap creators l = Ok msgs ∧
    mg_name <$> msgs = shown_name <$> l.
Proof.
  induction l as [|m l IH]; intros Hl; cbn; [by exists []|].
  destruct (Hl m (list_elem_of_here _ _)) as (Hm & Hr & Hc).
  destruct (convert_total m (filter (λ r, re_memo r.2 = st_id m) rs)
    (filter (λ a, at_memo (sa_row a) = Some (st_id m)) ats) (default [] (relationMap !! st_id m)) creators)
    as (msg & -> & Hn); [done..|].
  destruct IH as (msgs & -> & Hmsgs); [intros; apply Hl; by right|]. cbn.
  exists (msg :: msgs). split; [done|]. cbn. by rewrite Hn, Hmsgs.
Qed.

Lemma memo_messages_total scope l :
  resolveMemoAccessScope db userID anonymous = Ok scope →
  (∀ m, m ∈ l → memos db !! st_id m = Some (st_row m) ∧ reads db anonymous userID (st_id m) (st_row m)) →
  ∃ msgs, memo_messages anonymous db userID l = Ok msgs ∧ mg_name <$> msgs = shown_name <$> l.
Proof.
  intros Hs Hl. unfold memo_messages. case_bool_decide as Hnil; [subst; by exists []|].
  match goal with |- context [ListAttachments db ?f] => destruct (ListAttachments_total f) as [ats ->] end.
  destruct (relations_total scope l Hs) as [rels ->]. cbn. apply convert_memos_total. intros m Hm.
  destruct (Hl m Hm) as [Hrow Hr]. split; [done|]. split; [done|].
  destruct (reads_creator _ _ Hr) as [c Hc]. exists c. apply map_lookup_filter_Some. split; [done|].
  cbn. apply elem_of_app. left. by apply (list_elem_of_fmap_2 (λ m, mm_creator (st_row m))).
Qed.
(** ** One page *)

(** All rows of a query, in its order. *)
Definition all_rows (filtered : DB → Z → Memo → bool) (find : FindMemo) : list (Z * Memo) :=
  select (memo_selected db filtered find) (memo_before find) (memos db).

Lemma on_page_rows filtered find limit offset :
  (0 ≤ limit)%Z →
  memo_rows db filtered (on_page find limit offset) =
  take (Z.to_nat (limit + 1)) (drop (Z.to_nat offset) (all_rows filtered find)).
Proof. intros Hl. unfold memo_rows, limit_offset. cbn. by rewrite (proj2 (Z.ltb_ge _ _)) by lia. Qed.

Definition row_name (kv : Z * Memo) : string := buildMemoName (mm_uid kv.2).

Context (scope : MemoAccessScope) (Hscope : resolveMemoAccessScope db userID anonymous = Ok scope).

(** The rows of a page have messages. *)
Lemma page_total find filtered limit offset :
  (0 ≤ limit)%Z → compile_filters (fm_filters find) = Ok filtered →
  fm_access find = Some scope → fm_exclude_content find = false →
  ∃ l, MemoQuery.ListMemos db (on_page find limit offset) = Ok l ∧
    shown_name <$> l = row_name <$> take (Z.to_nat (limit + 1)) (drop (Z.to_nat offset) (all_rows filtered find)) ∧
    ∀ m, m ∈ l → memos db !! st_id m = Some (st_row m) ∧ reads db anonymous userID (st_id m) (st_row m).
Proof.
  intros Hl Hf Ha Hx. destruct (ListMemos_total (on_page find limit offset) filtered Hf) as [l Hlist].
  exists l. split; [done|].
  pose proof Hlist as (filtered' & Hf' & Hrows)%ListMemos_Ok. cbn in Hf'. rewrite Hf in Hf'. injection Hf' as <-.
  rewrite on_page_rows in Hrows by done. split.
  - clear Hlist. induction Hrows as [|kv m rows l [Hid (Hm & Hst & _)] _ IH]; [done|]. cbn. rewrite IH.
    cbn in Hst. unfold shown_name, row_name. rewrite Hx in Hst. by rewrite Hst.
  - intros m Hm. destruct (ListMemos_elem _ _ _ _ Hlist Hm) as (f & row & _ & (Hrow & Hst & _) & Hsel).
    cbn in Hst. rewrite Hx in Hst. rewrite Hst. split; [done|].
    apply memo_selected_matches in Hsel as (_ & _ & Hacc & _).
    apply (scope_reads db anonymous userID scope); [done|]. by apply Hacc.
Qed.

(** ** Following the tokens *)

Definition with_token (q : ListMemosRequest) (token : string) : ListMemosRequest :=
  mkListMemos (lm_page_size q) token (lm_state q) (lm_order_by q) (lm_filter q).

(** A client that asks for page after page. *)
Fixpoint follow (fuel : nat) (q : ListMemosRequest) : api (list MemoMessage) :=
  match fuel with
  | O => Err (Unknown, "out of fuel")
  | S fuel =>
      resp ← MemoReads.ListMemos anonymous db userID q;
      if String.eqb (lr_next_page_token resp) "" then Ok (lr_memos resp)
      else
        more ← follow fuel (with_token q (lr_next_page_token resp));
        Ok (lr_memos resp ++ more)
  end.

Lemma list_memos_find_token q token :
  list_memos_find anonymous db userID (with_token q token) = list_memos_find anonymous db userID q.
Proof. reflexivity. Qed.

Lemma follow_from find filtered limit fuel : ∀ q offset,
  list_memos_find anonymous db userID q = Ok (Some find) →
  compile_filters (fm_filters find) = Ok filtered →
  fm_access find = Some scope → fm_exclude_content find = false →
  (1 ≤ limit ≤ MaxPageSize)%Z → (0 ≤ offset)%Z → (Z.of_nat (length (all_rows filtered find)) ≤ GoInt.max_int32)%Z →
  page_of_request (lm_page_size q) (lm_page_token q) = Ok (limit, offset) →
  length (drop (Z.to_nat offset) (all_rows filtered find)) < fuel →
  ∃ msgs, follow fuel q = Ok msgs ∧
    mg_name <$> msgs = row_name <$> drop (Z.to_nat offset) (all_rows filtered find).
Proof.
  induction fuel as [|fuel IH]; intros q offset Hfind Hf Ha Hx Hlimit Hoff Hmax Hpage Hfuel; [lia|].
  destruct (page_total find filtered limit offset ltac:(lia) Hf Ha Hx) as (l & Hl & Hnames & Hread).
  cbn [follow]. unfold MemoReads.ListMemos. rewrite Hfind. cbn [mbind result_bind].
  unfold memo_page. rewrite Hpage. cbn [status_error mbind result_bind]. rewrite Hl.
  cbn [status_error mbind result_bind]. unfold cut_page.
  assert (length l = length (take (Z.to_nat (limit + 1)) (drop (Z.to_nat offset) (all_rows filtered find)))) as Hlen
    by (rewrite <- (length_fmap shown_name l), Hnames; by rewrite length_fmap).
  rewrite length_take in Hlen. set (rest := drop (Z.to_nat offset) (all_rows filtered find)) in *.
  assert (length rest = length (all_rows filtered find) - Z.to_nat offset) as Hrest by (unfold rest; apply length_drop).
  destruct (Z.eqb_spec (Z.of_nat (length l)) (limit + 1)) as [Hfull|Hlast].
  - destruct (page_of_next limit (offset + limit) (lm_page_size q)) as (token & -> & Hne & Hnext); [done | lia | lia|].
    cbn [status_error mbind result_bind].
    destruct (memo_messages_total scope (take (Z.to_nat limit) l) Hscope) as (msgs & -> & Hmsgs);
      [by intros m ?%take_elem; apply Hread|].
    cbn. rewrite (proj2 (String.eqb_neq _ _) Hne).
    destruct (IH (with_token q token) (offset + limit)%Z) as (more & -> & Hmore); try done; [lia | |].
    { rewrite length_drop. rewrite Hrest in Hfuel. lia. }
    exists (msgs ++ more). split; [done|]. rewrite fmap_app, Hmsgs, Hmore, fmap_take, Hnames, <- fmap_take, <- fmap_app.
    f_equal. rewrite take_take, (Z2Nat.inj_add offset limit) by lia. rewrite Nat.min_l by lia.
    rewrite <- drop_drop. fold rest. apply take_drop.
  - cbn [mbind result_bind]. destruct (memo_messages_total scope l Hscope Hread) as (msgs & -> & Hmsgs). cbn.
    exists msgs. split; [done|]. rewrite Hmsgs, Hnames. f_equal. apply take_ge. lia.
Qed.
End pages.

(** ** What a request is for *)

Section lists.
Context `{PayloadJSON} `{GoPlatform} `{FilterBackend} `{Markdown} `{ProtoPageToken} `{Text.GoUnicode}.
Context (anonymous : bool) (db : DB) (userID : Z).

Definition filters_of (q : ListMemosRequest) : list string :=
  if String.eqb (lm_filter q) "" then [] else [lm_filter q].

(** Readable, not a comment, in the state asked for (archived memos only the
    user's own), and selected by the filter. *)
Definition asked_for (q : ListMemosRequest) (filtered : DB → Z → Memo → bool) (id : Z) (m : Memo) : Prop :=
  reads db anonymous userID id m ∧ is_comment db id = false ∧ filtered db id m = true ∧
  (if (lm_state q =? ARCHIVED)%Z then mm_row_status m = Archived ∧ mm_creator m = userID
   else mm_row_status m = Normal).

Lemma selected_asked_for q find filtered id m :
  list_memos_find anonymous db userID q = Ok (Some find) →
  memo_selected db filtered find id m = true ↔ asked_for q filtered id m.
Proof.
  unfold list_memos_find. intros (cu & Hcu%status_error_Ok & (scope & Hs%status_error_Ok & Hf)%bind_Ok)%bind_Ok.
  case_match; [done|]. case_match eqn:Harch; [done|]. apply bind_Ok in Hf as (order & _ & Hf).
  apply bind_Ok in Hf as (? & _ & Hf). injection Hf as <-.
  unfold asked_for. rewrite <- (scope_reads db anonymous userID scope id m Hs).
  unfold memo_selected, in_list, matches_opt. cbn. rewrite !andb_true_iff, ?andb_true_r, negb_true_iff.
  destruct (lm_state q =? ARCHIVED)%Z; rewrite ?bool_decide_eq_true; [|tauto].
  destruct cu as [[u row]|]; [|by rewrite bool_decide_true in Harch]. cbn.
  assert (u = userID) as ->.
  { destruct (fetchCurrentUser_cases db userID) as [[e Hc]|[Hc|(r & Hc & _)]]; rewrite Hc in Hcu; congruence. }
  rewrite !bool_decide_eq_true. tauto.
Qed.

Lemma list_memos_filters q find :
  list_memos_find anonymous db userID q = Ok (Some find) → fm_filters find = filters_of q.
Proof.
  unfold list_memos_find. intros (cu & _ & (scope & _ & Hf)%bind_Ok)%bind_Ok.
  case_match; [done|]. case_match; [done|]. apply bind_Ok in Hf as (order & _ & Hf).
  apply bind_Ok in Hf as (? & _ & Hf). by injection Hf as <-.
Qed.

Lemma all_rows_length filtered find : length (all_rows db filtered find) ≤ size (memos db).
Proof.
  unfold all_rows. rewrite select_perm, length_map_to_list. apply map_subseteq_size, map_filter_subseteq.
Qed.

End lists.

(** Anonymous pages of one memo over the public memos of the conversation. *)
Definition two_public_db : DB :=
  mkDB {[ 1%Z := example_user "ada" ]} ∅ ∅
    {[ 1%Z := mkMemo "a" 1 10 10 Normal "one" Public false "{}" None;
       2%Z := mkMemo "b" 1 20 20 Normal "two" Public true "{}" None;
       3%Z := mkMemo "c" 1 30 30 Normal "three" Private false "{}" None;
       4%Z := mkMemo "d" 1 40 40 Normal "four" Public false "{}" None ]}
    ∅ ∅ ∅ ∅ ∅ ∅ ∅ 2 1 5 1 1 1.

