(* ===== verification/SSEHub.v ===== *)
(** * The event hub

    [server/router/api/v1/sse_hub.go]: clients subscribe to a hub, which
    broadcasts payload-free change events to their buffered channels and
    disconnects the clients that fall behind.

    Goroutines are interleaved at the granularity of the lock and of single
    channel operations: [Subscribe], [Unsubscribe] and [Close] hold the write
    lock and are atomic; a broadcast holds the read lock while it sends to one
    client after the other - broadcasts overlap - and afterwards unsubscribes
    the slow clients it met, each under the write lock. *)
From S2P Require Import Prelude GoLib.

Definition quote : string := String (ascii_of_N 34) "".
Definition newline : string := String (ascii_of_N 10) "".
Definition sse_frame (type : string) : string :=
  "data: {" +:+ quote +:+ "type" +:+ quote +:+ ":" +:+ quote +:+ type +:+ quote +:+ "}"
  +:+ newline +:+ newline.
Definition memoChangedSSEFrame : string := sse_frame "memo.changed".
Definition spaceChangedSSEFrame : string := sse_frame "space.changed".
Definition sseClientEventBufferSize : nat := 32.

(** A client's channels, which are made, closed and used together.
    Ghost state: [cl_received], the frames taken out of [events] so far, and
    [cl_sent], the broadcasts that put a frame in, with the frame. *)
Record SSEClient := mkClient {
  cl_events : list string; cl_closed : bool;
  cl_received : list string; cl_sent : list (nat * string) }.

(** A call of [publish]: the clients it has still to send to while it holds the
    read lock, and the slow clients it has met; [pb_sending] is false once it
    has released the lock.  Ghost state: [pb_audience], the clients subscribed
    when it started. *)
Record publisher := mkPublisher {
  pb_frame : string; pb_sending : bool; pb_todo : gset nat; pb_slow : list nat;
  pb_audience : gset nat }.

(** The hub, all clients ever made and the broadcasts; [h_next] and [h_nextpub]
    name the next client and broadcast. *)
Record SSEHub := mkHub {
  h_clients : gset nat; h_closed : bool; h_chans : gmap nat SSEClient;
  h_pubs : gmap nat publisher; h_next : nat; h_nextpub : nat }.

Definition NewSSEHub : SSEHub := mkHub ∅ false ∅ ∅ 0 0.

(** No broadcast holds the read lock. *)
Definition write_lock_free (h : SSEHub) : Prop := map_Forall (λ _ p, pb_sending p = false) (h_pubs h).

(** [close(c.done); close(c.events)]. *)
Definition close_client (c : nat) (chans : gmap nat SSEClient)
  : result error (gmap nat SSEClient) :=
  match chans !! c with
  | None => Err (Panic "nil client")
  | Some cl =>
      if cl_closed cl then Err (Panic "close of closed channel")
      else Ok (<[c := mkClient (cl_events cl) true (cl_received cl) (cl_sent cl)]> chans)
  end.

Definition Subscribe (h : SSEHub) : SSEHub :=
  let c := h_next h in
  if h_closed h then
    mkHub (h_clients h) (h_closed h) (<[c := mkClient [] true [] []]> (h_chans h))
      (h_pubs h) (S c) (h_nextpub h)
  else
    mkHub ({[c]} ∪ h_clients h) (h_closed h) (<[c := mkClient [] false [] []]> (h_chans h))
      (h_pubs h) (S c) (h_nextpub h).

Definition Unsubscribe (c : nat) (h : SSEHub) : result error SSEHub :=
  if bool_decide (c ∈ h_clients h) then
    chans ← close_client c (h_chans h);
    Ok (mkHub (h_clients h ∖ {[c]}) (h_closed h) chans (h_pubs h) (h_next h) (h_nextpub h))
  else Ok h.

(** The loop of [Close] over the clients. *)
Fixpoint close_all (cs : list nat) (chans : gmap nat SSEClient)
  : result error (gmap nat SSEClient) :=
  match cs with
  | [] => Ok chans
  | c :: cs => chans ← close_client c chans; close_all cs chans
  end.

Definition Close (h : SSEHub) : result error SSEHub :=
  if h_closed h then Ok h
  else
    chans ← close_all (elements (h_clients h)) (h_chans h);
    Ok (mkHub ∅ true chans (h_pubs h) (h_next h) (h_nextpub h)).

(** [publish]: taking the read lock and starting to range over the clients. *)
Definition publish_start (frame : string) (h : SSEHub) : SSEHub :=
  mkHub (h_clients h) (h_closed h) (h_chans h)
    (<[h_nextpub h := mkPublisher frame true (h_clients h) [] (h_clients h)]> (h_pubs h))
    (h_next h) (S (h_nextpub h)).

(** The [select] of [publish] for one client: a send to a closed channel
    panics, a full buffer makes the client slow. *)
Definition publish_send (i c : nat) (p : publisher) (h : SSEHub) : result error SSEHub :=
  match h_chans h !! c with
  | None => Err (Panic "nil client")
  | Some cl =>
      if cl_closed cl then Err (Panic "send on closed channel")
      else if decide (length (cl_events cl) < sseClientEventBufferSize)%nat then
        Ok (mkHub (h_clients h) (h_closed h)
              (<[c := mkClient (cl_events cl ++ [pb_frame p]) false (cl_received cl)
                        (cl_sent cl ++ [(i, pb_frame p)])]> (h_chans h))
              (<[i := mkPublisher (pb_frame p) true (pb_todo p ∖ {[c]}) (pb_slow p) (pb_audience p)]>
                 (h_pubs h))
              (h_next h) (h_nextpub h))
      else
        Ok (mkHub (h_clients h) (h_closed h) (h_chans h)
              (<[i := mkPublisher (pb_frame p) true (pb_todo p ∖ {[c]}) (pb_slow p ++ [c]) (pb_audience p)]>
                 (h_pubs h))
              (h_next h) (h_nextpub h))
  end.

Definition set_pub (i : nat) (p : publisher) (h : SSEHub) : SSEHub :=
  mkHub (h_clients h) (h_closed h) (h_chans h) (<[i := p]> (h_pubs h)) (h_next h) (h_nextpub h).

(** The stream handler takes a frame out of its channel. *)
Definition receive (c : nat) (h : SSEHub) : option (string * SSEHub) :=
  match h_chans h !! c with
  | Some cl =>
      match cl_events cl with
      | f :: fs =>
          Some (f, mkHub (h_clients h) (h_closed h)
                 (<[c := mkClient fs (cl_closed cl) (cl_received cl ++ [f]) (cl_sent cl)]> (h_chans h))
                 (h_pubs h) (h_next h) (h_nextpub h))
      | [] => None
      end
  | None => None
  end.

(** One step of some goroutine, which may panic. *)
Inductive step (h : SSEHub) : result error SSEHub → Prop :=
| step_subscribe : write_lock_free h → step h (Ok (Subscribe h))
| step_unsubscribe c : write_lock_free h → step h (Unsubscribe c h)
| step_close : write_lock_free h → step h (Close h)
| step_publish frame : step h (Ok (publish_start frame h))
| step_send i c p :
    h_pubs h !! i = Some p → pb_sending p = true → c ∈ pb_todo p → step h (publish_send i c p h)
| step_unlock i p :
    h_pubs h !! i = Some p → pb_sending p = true → pb_todo p = ∅ →
    step h (Ok (set_pub i (mkPublisher (pb_frame p) false ∅ (pb_slow p) (pb_audience p)) h))
| step_drop i p c cs :
    h_pubs h !! i = Some p → pb_sending p = false → pb_slow p = c :: cs → write_lock_free h →
    step h (Unsubscribe c (set_pub i (mkPublisher (pb_frame p) false ∅ cs (pb_audience p)) h))
| step_receive c f h' : receive c h = Some (f, h') → step h (Ok h').

Inductive reachable : SSEHub → Prop :=
| reachable_new : reachable NewSSEHub
| reachable_step h h' : reachable h → step h (Ok h') → reachable h'.

(** ** The invariant *)

(** What holds of the channels of one client. *)
Record client_ok (cl : SSEClient) : Prop := {
  co_fifo : cl_received cl ++ cl_events cl = snd <$> cl_sent cl;
  co_room : (length (cl_events cl) ≤ sseClientEventBufferSize)%nat;
}.

Record hub_ok (h : SSEHub) : Prop := {
  ho_open c : c ∈ h_clients h → ∃ cl, h_chans h !! c = Some cl ∧ cl_closed cl = false;
  ho_chans : map_Forall (λ c cl, (c < h_next h)%nat ∧ client_ok cl) (h_chans h);
  ho_pubs i p : h_pubs h !! i = Some p → (i < h_nextpub h)%nat ∧
    (∀ c, c ∈ pb_audience p → (c < h_next h)%nat) ∧
    (if pb_sending p then pb_todo p ⊆ h_clients h else pb_todo p = ∅);
  (** each broadcast reaches its audience, or will disconnect, or has lost it *)
  ho_delivery i p c : h_pubs h !! i = Some p → c ∈ pb_audience p → c ∈ h_clients h →
    c ∈ pb_todo p ∨ c ∈ pb_slow p ∨
    ∃ cl, h_chans h !! c = Some cl ∧ (i, pb_frame p) ∈ cl_sent cl;
  (** and at most once *)
  ho_once c cl : h_chans h !! c = Some cl → NoDup (cl_sent cl).*1 ∧
    ∀ i f, (i, f) ∈ cl_sent cl → ∃ p, h_pubs h !! i = Some p ∧ pb_frame p = f ∧ c ∉ pb_todo p;
  ho_closed : h_closed h = true → h_clients h = ∅;
}.

Lemma new_hub_ok : hub_ok NewSSEHub.
Proof. split; cbn; try set_solver; by intros. Qed.

(** Steps that change neither broadcasts nor what was sent: a client may be
    closed, once it is no longer subscribed. *)
Lemma close_client_Ok c chans cl :
  chans !! c = Some cl → cl_closed cl = false →
  close_client c chans =
    Ok (<[c := mkClient (cl_events cl) true (cl_received cl) (cl_sent cl)]> chans).
Proof. intros Hc Ho. unfold close_client. by rewrite Hc, Ho. Qed.

(** Closing the channels of clients that are no longer subscribed keeps the
    invariant, when no broadcast is sending. *)
Lemma hub_ok_close h cs' b chans' :
  hub_ok h → write_lock_free h → cs' ⊆ h_clients h → (b = true → cs' = ∅) →
  (∀ c, c ∈ cs' → chans' !! c = h_chans h !! c) →
  (∀ c cl', chans' !! c = Some cl' → ∃ cl, h_chans h !! c = Some cl ∧
     cl_events cl' = cl_events cl ∧ cl_received cl' = cl_received cl ∧ cl_sent cl' = cl_sent cl) →
  hub_ok (mkHub cs' b chans' (h_pubs h) (h_next h) (h_nextpub h)).
Proof.
  intros [Hopen Hch Hpub Hdel Honce Hcl] Hw Hsub Hb Hsame Hold. split; cbn.
  - intros c Hc. rewrite Hsame by done. apply Hopen. set_solver.
  - intros c cl' Hc. apply Hold in Hc as (cl & Hc & He & Hr & Hs).
    destruct (Hch c cl Hc) as [? [??]]. split; [done|]. split; rewrite ?He, ?Hr, ?Hs; done.
  - intros i p Hp. destruct (Hpub i p Hp) as (? & ? & Ht). split; [done|]. split; [done|].
    rewrite (Hw i p Hp) in *. done.
  - intros i p c Hp Ha Hc. destruct (Hdel i p c Hp Ha ltac:(set_solver)) as [?|[?|(cl & ? & ?)]];
      [by left|by right; left|right; right]. exists cl. by rewrite Hsame.
  - intros c cl' Hc. apply Hold in Hc as (cl & Hc & _ & _ & ->). by apply Honce.
  - done.
Qed.

Lemma unsubscribe_ok c h :
  hub_ok h → write_lock_free h →
  ∃ h', Unsubscribe c h = Ok h' ∧ hub_ok h' ∧ c ∉ h_clients h' ∧ h_pubs h' = h_pubs h.
Proof.
  intros Hok Hw. unfold Unsubscribe. case_bool_decide as Hc; [|by exists h].
  destruct (ho_open h Hok c Hc) as (cl & Hcl & Ho). rewrite (close_client_Ok c _ cl Hcl Ho).
  eexists. split; [reflexivity|]. split; [|split; [cbn; set_solver|done]].
  apply hub_ok_close; [done|done|set_solver| | |].
  - intros Hb. rewrite (ho_closed h Hok Hb). set_solver.
  - intros c' Hc'. apply lookup_insert_ne. set_solver.
  - intros c' cl' H. destruct (decide (c' = c)) as [->|Hne].
    + rewrite lookup_insert_eq in H. injection H as <-. by exists cl.
    + rewrite lookup_insert_ne in H by done. by exists cl'.
Qed.

Lemma close_all_Ok cs chans :
  NoDup cs → (∀ c, c ∈ cs → ∃ cl, chans !! c = Some cl ∧ cl_closed cl = false) →
  ∃ chans', close_all cs chans = Ok chans' ∧
    ∀ c cl', chans' !! c = Some cl' → ∃ cl, chans !! c = Some cl ∧
      cl_events cl' = cl_events cl ∧ cl_received cl' = cl_received cl ∧ cl_sent cl' = cl_sent cl.
Proof.
  intros Hn. revert chans. induction Hn as [|c cs Hc _ IH]; intros chans Ho.
  { exists chans. split; [done|]. intros c cl' H. by exists cl'. }
  destruct (Ho c ltac:(left)) as (cl & Hcl & Hop). cbn [close_all].
  rewrite (close_client_Ok c _ cl Hcl Hop). cbn [mbind result_bind].
  destruct (IH (<[c:=mkClient (cl_events cl) true (cl_received cl) (cl_sent cl)]> chans))
    as (chans' & Hr & Hold).
  { intros c' Hc'. rewrite lookup_insert_ne by set_solver. apply Ho. by right. }
  exists chans'. split; [done|]. intros c' cl' H.
  apply Hold in H as (cl2 & H & ? & ? & ?). destruct (decide (c' = c)) as [->|Hne].
  - rewrite lookup_insert_eq in H. injection H as <-. exists cl. done.
  - rewrite lookup_insert_ne in H by done. exists cl2. done.
Qed.

Lemma close_ok h : hub_ok h → write_lock_free h → ∃ h', Close h = Ok h' ∧ hub_ok h'.
Proof.
  intros Hok Hw. unfold Close. destruct (h_closed h); [by exists h|].
  destruct (close_all_Ok (elements (h_clients h)) (h_chans h)) as (chans' & Hr & Hold).
  { apply NoDup_elements. }
  { intros c Hc%elem_of_elements. by apply (ho_open h Hok). }
  rewrite Hr. eexists. split; [reflexivity|]. apply hub_ok_close; [done|done|set_solver..|done].
Qed.

(** A new client, subscribed or with its channels closed from the start. *)
Lemma hub_ok_fresh h cs' closed :
  hub_ok h → write_lock_free h →
  cs' ⊆ {[h_next h]} ∪ h_clients h → (h_next h ∈ cs' → closed = false) →
  (h_closed h = true → cs' = ∅) →
  hub_ok (mkHub cs' (h_closed h) (<[h_next h := mkClient [] closed [] []]> (h_chans h))
            (h_pubs h) (S (h_next h)) (h_nextpub h)).
Proof.
  intros [Hopen Hch Hpub Hdel Honce Hcl] Hw Hcs Hn Hb.
  assert (∀ c, c ∈ h_clients h → c ≠ h_next h) as Hne.
  { intros c Hc ->. apply Hopen in Hc as (cl & Hc & _). apply Hch in Hc. lia. }
  split; cbn.
  - intros c Hc. destruct (decide (c = h_next h)) as [->|Hne'].
    + rewrite lookup_insert_eq. eexists. split; [done|]. by apply Hn.
    + rewrite lookup_insert_ne by done. apply Hopen. set_solver.
  - apply map_Forall_insert_2; [split; [lia|by split; [done|cbn; apply Nat.le_0_l]]|].
    intros c cl H. apply Hch in H as [? ?]. split; [lia|done].
  - intros i p Hp. destruct (Hpub i p Hp) as (? & Ha & Ht). split; [done|].
    split; [intros c Hc%Ha; lia|]. rewrite (Hw i p Hp) in *. done.
  - intros i p c Hp Ha Hc. assert (c ≠ h_next h) as Hx.
    { intros ->. apply (Hpub i p Hp) in Ha. lia. }
    rewrite lookup_insert_ne by done. apply Hdel; [done|done|set_solver].
  - intros c cl H. destruct (decide (c = h_next h)) as [->|Hx].
    + rewrite lookup_insert_eq in H. injection H as <-. cbn. split; [constructor|set_solver].
    + rewrite lookup_insert_ne in H by done. by apply Honce.
  - done.
Qed.

Lemma subscribe_ok h : hub_ok h → write_lock_free h → hub_ok (Subscribe h).
Proof.
  intros Hok Hw. unfold Subscribe. destruct (h_closed h) eqn:Hb; rewrite <- Hb.
  - pose proof (ho_closed h Hok Hb) as Hc. apply hub_ok_fresh; [done|done|set_solver| |done].
    rewrite Hc. set_solver.
  - apply hub_ok_fresh; [done|done|done|done|congruence].
Qed.

(** Progress of one broadcast. *)
Lemma set_pub_ok i p p' h :
  hub_ok h → h_pubs h !! i = Some p →
  pb_frame p' = pb_frame p → pb_audience p' = pb_audience p → pb_todo p' ⊆ pb_todo p →
  (pb_sending p' = true → pb_sending p = true) → (pb_sending p' = false → pb_todo p' = ∅) →
  (∀ c, c ∈ h_clients h → c ∈ pb_todo p ∨ c ∈ pb_slow p → c ∈ pb_todo p' ∨ c ∈ pb_slow p') →
  hub_ok (set_pub i p' h).
Proof.
  intros [Hopen Hch Hpub Hdel Honce Hcl] Hi Hf Ha Ht Hs Hend Hkeep. split; cbn; [done|done| | | |done].
  - intros j q Hj. destruct (decide (j = i)) as [->|Hne].
    + rewrite lookup_insert_eq in Hj. injection Hj as <-. destruct (Hpub i p Hi) as (? & ? & Hc).
      rewrite Ha. split; [done|]. split; [done|]. destruct (pb_sending p') eqn:Hp'; [|by apply Hend].
      rewrite Hs in Hc by done. set_solver.
    + rewrite lookup_insert_ne in Hj by done. by apply Hpub.
  - intros j q c Hj Hau Hc. destruct (decide (j = i)) as [->|Hne].
    + rewrite lookup_insert_eq in Hj. injection Hj as <-. rewrite Ha in Hau. rewrite Hf.
      destruct (Hdel i p c Hi Hau Hc) as [H|[H|H]]; [| |by right; right].
      * destruct (Hkeep c Hc (or_introl H)); [by left|by right; left].
      * destruct (Hkeep c Hc (or_intror H)); [by left|by right; left].
    + rewrite lookup_insert_ne in Hj by done. by apply Hdel.
  - intros c cl Hc. destruct (Honce c cl Hc) as [Hn Hsent]. split; [done|].
    intros j f (q & Hq & Hfq & Hcq)%Hsent. destruct (decide (j = i)) as [->|Hne].
    + exists p'. rewrite lookup_insert_eq. assert (q = p) as -> by congruence.
      split; [done|]. split; [congruence|set_solver].
    + exists q. by rewrite lookup_insert_ne.
Qed.

Lemma publish_start_ok frame h : hub_ok h → hub_ok (publish_start frame h).
Proof.
  intros [Hopen Hch Hpub Hdel Honce Hcl].
  assert (∀ i p, h_pubs h !! i = Some p → i ≠ h_nextpub h) as Hfresh.
  { intros i p Hp ->. apply Hpub in Hp as [? _]. lia. }
  split; cbn; [done|done| | | |done].
  - intros i p H. destruct (decide (i = h_nextpub h)) as [->|Hne].
    + rewrite lookup_insert_eq in H. injection H as <-. cbn. split; [lia|]. split; [|done].
      intros c Hc. apply Hopen in Hc as (cl & Hc & _). by apply Hch in Hc as [? _].
    + rewrite lookup_insert_ne in H by done. apply Hpub in H as [? ?]. split; [lia|done].
  - intros i p c H Ha Hc. destruct (decide (i = h_nextpub h)) as [->|Hne].
    + rewrite lookup_insert_eq in H. injection H as <-. by left.
    + rewrite lookup_insert_ne in H by done. by apply Hdel.
  - intros c cl Hc. destruct (Honce c cl Hc) as [? Hs]. split; [done|].
    intros i f (p & Hp & ?)%Hs. exists p. rewrite lookup_insert_ne; [done|].
    intros Heq. by eapply Hfresh.
Qed.

(** A frame that fits is delivered. *)
Lemma deliver_ok i c p cl h :
  hub_ok h → h_pubs h !! i = Some p → pb_sending p = true → c ∈ pb_todo p →
  h_chans h !! c = Some cl → cl_closed cl = false →
  (length (cl_events cl) < sseClientEventBufferSize)%nat →
  hub_ok (mkHub (h_clients h) (h_closed h)
    (<[c := mkClient (cl_events cl ++ [pb_frame p]) false (cl_received cl)
              (cl_sent cl ++ [(i, pb_frame p)])]> (h_chans h))
    (<[i := mkPublisher (pb_frame p) true (pb_todo p ∖ {[c]}) (pb_slow p) (pb_audience p)]>
       (h_pubs h)) (h_next h) (h_nextpub h)).
Proof.
  intros [Hopen Hch Hpub Hdel Honce Hcl] Hi Hs Hc Hclc Ho Hroom.
  set (cl' := mkClient _ _ _ _). set (p' := mkPublisher _ _ _ _ _).
  destruct (Honce c cl Hclc) as [Hnd Hsent].
  split; cbn; [| | | | |done].
  - intros c' H. destruct (decide (c' = c)) as [->|Hne].
    + rewrite lookup_insert_eq. by exists cl'.
    + rewrite lookup_insert_ne by done. by apply Hopen.
  - apply map_Forall_insert_2; [|done]. destruct (Hch c cl Hclc) as [? [Hf _]]. split; [done|].
    split; cbn; [by rewrite fmap_app, app_assoc, Hf|rewrite length_app; cbn; lia].
  - intros j q H. destruct (decide (j = i)) as [->|Hne].
    + rewrite lookup_insert_eq in H. injection H as <-. destruct (Hpub i p Hi) as (? & ? & Ht).
      rewrite Hs in Ht. cbn. split; [done|]. split; [done|set_solver].
    + rewrite lookup_insert_ne in H by done. by apply Hpub.
  - assert (∀ j q c', h_pubs h !! j = Some q →
      (∃ cl0, h_chans h !! c' = Some cl0 ∧ (j, pb_frame q) ∈ cl_sent cl0) →
      ∃ cl0, <[c:=cl']> (h_chans h) !! c' = Some cl0 ∧ (j, pb_frame q) ∈ cl_sent cl0) as Hkeep.
    { intros j q c' _ (cl0 & H & Hin). destruct (decide (c' = c)) as [->|Hne].
      - rewrite lookup_insert_eq. exists cl'. split; [done|]. cbn.
        assert (cl0 = cl) as -> by congruence. apply elem_of_app. by left.
      - rewrite lookup_insert_ne by done. by exists cl0. }
    intros j q c' H Ha Hc'. destruct (decide (j = i)) as [->|Hne].
    + rewrite lookup_insert_eq in H. injection H as <-. cbn in Ha |- *.
      destruct (decide (c' = c)) as [->|Hne].
      * right; right. exists cl'. rewrite lookup_insert_eq. split; [done|]. cbn.
        apply elem_of_app. right. by left.
      * destruct (Hdel i p c' Hi Ha Hc') as [?|[?|?]];
          [left; set_solver|by right; left|right; right; by apply (Hkeep i p)].
    + rewrite lookup_insert_ne in H by done.
      destruct (Hdel j q c' H Ha Hc') as [?|[?|?]]; [by left|by right; left|].
      right; right. by apply Hkeep.
  - intros c' cl0 H.
    assert (∀ j f q, h_pubs h !! j = Some q → pb_frame q = f → c' ∉ pb_todo q →
      ∃ q', <[i:=p']> (h_pubs h) !! j = Some q' ∧ pb_frame q' = f ∧ c' ∉ pb_todo q') as Hq.
    { intros j f q Hj Hf Hn. destruct (decide (j = i)) as [->|Hne].
      - exists p'. rewrite lookup_insert_eq. assert (q = p) as -> by congruence.
        split; [done|]. split; [done|]. cbn. set_solver.
      - exists q. by rewrite lookup_insert_ne. }
    destruct (decide (c' = c)) as [->|Hne].
    + rewrite lookup_insert_eq in H. injection H as <-. cbn. split.
      * rewrite fmap_app. apply NoDup_app. split; [done|]. split; [|by apply NoDup_singleton].
        intros j ([j' f] & -> & Hin)%list_elem_of_fmap Hj%list_elem_of_singleton. cbn in Hj. subst.
        apply Hsent in Hin as (q & Hq' & _ & Hn). assert (q = p) as -> by congruence. done.
      * intros j f [Hin|[= -> ->]%list_elem_of_singleton]%elem_of_app.
        -- apply Hsent in Hin as (q & ? & ? & ?). by eapply Hq.
        -- exists p'. rewrite lookup_insert_eq. split; [done|]. split; [done|]. cbn. set_solver.
    + rewrite lookup_insert_ne in H by done. destruct (Honce c' cl0 H) as [? Hs'].
      split; [done|]. intros j f (q & ? & ? & ?)%Hs'. by eapply Hq.
Qed.

Lemma publish_send_ok i c p h :
  hub_ok h → h_pubs h !! i = Some p → pb_sending p = true → c ∈ pb_todo p →
  ∃ h', publish_send i c p h = Ok h' ∧ hub_ok h'.
Proof.
  intros Hok Hi Hs Hc.
  assert (c ∈ h_clients h) as Hin.
  { destruct (ho_pubs h Hok i p Hi) as (_ & _ & Ht). rewrite Hs in Ht. set_solver. }
  destruct (ho_open h Hok c Hin) as (cl & Hcl & Ho). unfold publish_send. rewrite Hcl, Ho.
  case_decide as Hroom; eexists; (split; [reflexivity|]).
  - by apply deliver_ok.
  - apply (set_pub_ok i p (mkPublisher (pb_frame p) true (pb_todo p ∖ {[c]}) (pb_slow p ++ [c])
      (pb_audience p))); cbn; try done; [set_solver|].
    intros c' _ [H|H]; [|right; apply elem_of_app; by left].
    destruct (decide (c' = c)) as [->|]; [right; apply elem_of_app; right; by left|left; set_solver].
Qed.

Lemma receive_ok c f h h' : hub_ok h → receive c h = Some (f, h') → hub_ok h'.
Proof.
  intros [Hopen Hch Hpub Hdel Honce Hcl] H. unfold receive in H.
  destruct (h_chans h !! c) as [cl|] eqn:Hc; [|done].
  destruct (cl_events cl) as [|e es] eqn:He; [done|]. injection H as -> <-.
  assert (∀ c' cl0, <[c:=mkClient es (cl_closed cl) (cl_received cl ++ [f]) (cl_sent cl)]> (h_chans h)
    !! c' = Some cl0 → ∃ cl1, h_chans h !! c' = Some cl1 ∧ cl_sent cl0 = cl_sent cl1) as Hback.
  { intros c' cl0 H. destruct (decide (c' = c)) as [->|Hne].
    - rewrite lookup_insert_eq in H. injection H as <-. by exists cl.
    - rewrite lookup_insert_ne in H by done. by exists cl0. }
  split; cbn; [| |done| | |done].
  - intros c' H. destruct (decide (c' = c)) as [->|Hne].
    + rewrite lookup_insert_eq. eexists. split; [done|]. cbn.
      apply Hopen in H as (cl0 & ? & ?). congruence.
    + rewrite lookup_insert_ne by done. by apply Hopen.
  - apply map_Forall_insert_2; [|done]. destruct (Hch c cl Hc) as [? [Hf Hr]]. split; [done|].
    rewrite He in Hf, Hr. split; cbn; [by rewrite <- app_assoc|cbn in Hr; lia].
  - intros i p c' Hp Ha Hc'. destruct (Hdel i p c' Hp Ha Hc') as [?|[?|(cl0 & H & ?)]];
      [by left|by right; left|right; right].
    destruct (decide (c' = c)) as [->|Hne].
    + rewrite lookup_insert_eq. eexists. split; [done|]. cbn. congruence.
    + rewrite lookup_insert_ne by done. by exists cl0.
  - intros c' cl0 (cl1 & H & ->)%Hback. by apply Honce.
Qed.

(** Every step of every goroutine succeeds and keeps the invariant. *)
Lemma step_ok h r : hub_ok h → step h r → ∃ h', r = Ok h' ∧ hub_ok h'.
Proof.
  intros Hok H. destruct H as [Hw|c Hw|Hw|frame|i c p Hi Hs Hc|i p Hi Hs Ht|i p c cs Hi Hs Hsl Hw|c f h' H].
  - eexists. split; [done|]. by apply subscribe_ok.
  - destruct (unsubscribe_ok c h Hok Hw) as (h' & -> & ? & _). eauto.
  - by apply close_ok.
  - eexists. split; [done|]. by apply publish_start_ok.
  - by apply publish_send_ok.
  - eexists. split; [done|]. eapply set_pub_ok; [done|exact Hi|cbn; try done..].
    rewrite Ht. intros c _ [?|?]; [by left|by right].
  - destruct (unsubscribe_ok c h Hok Hw) as (h' & Hu & Hok' & Hn & Hp).
    exists (set_pub i (mkPublisher (pb_frame p) false ∅ cs (pb_audience p)) h').
    split.
    + unfold Unsubscribe, set_pub in *. cbn.
      destruct (bool_decide (c ∈ h_clients h)); [|by injection Hu as <-].
      destruct (close_client c (h_chans h)); [|done]. by injection Hu as <-.
    + eapply set_pub_ok; [done|by rewrite Hp|cbn; try done..].
      destruct (ho_pubs h Hok i p Hi) as (_ & _ & Ht). rewrite Hs in Ht. rewrite Ht, Hsl.
      intros c' Hc' [?|[->|?]%elem_of_cons]; [by left|done|by right].
  - eexists. split; [done|]. by eapply receive_ok.
Qed.

Lemma reachable_ok h : reachable h → hub_ok h.
Proof.
  induction 1 as [|h h' _ IH Hs]; [apply new_hub_ok|].
  destruct (step_ok h _ IH Hs) as (h2 & [= ->] & ?). done.
Qed.

(** No interleaving of subscriptions, disconnections, broadcasts, receptions
    and the shutdown of the hub panics: nothing is ever sent to a closed channel
    and no channel is closed twice. *)
Theorem hub_never_panics h r : reachable h → step h r → ∃ h', r = Ok h'.
Proof. intros Hr%reachable_ok Hs. destruct (step_ok h r Hr Hs) as (h' & -> & _). eauto. Qed.

(** C36. No client misses an event silently.  Once a broadcast has returned, each
    client that was subscribed when it started and still is has been sent the
    frame, exactly once; what a client has read and has buffered is all it was
    sent, in order, and never more than the buffer holds is waiting. *)
Theorem no_event_missed_silently h i p c :
  reachable h → h_pubs h !! i = Some p →
  pb_sending p = false → pb_slow p = [] →
  c ∈ pb_audience p → c ∈ h_clients h →
  ∃ cl, h_chans h !! c = Some cl ∧ cl_closed cl = false ∧
    (i, pb_frame p) ∈ cl_sent cl ∧ NoDup (cl_sent cl).*1 ∧
    cl_received cl ++ cl_events cl = snd <$> cl_sent cl ∧
    (length (cl_events cl) ≤ sseClientEventBufferSize)%nat.
Proof.
  intros Hok%reachable_ok Hi Hs Hsl Ha Hc.
  destruct (ho_open h Hok c Hc) as (cl & Hcl & Ho). exists cl.
  destruct (ho_chans h Hok c cl Hcl) as [_ [Hf Hr]]. destruct (ho_once h Hok c cl Hcl) as [Hn _].
  split; [done|]. split; [done|]. split; [|done].
  destruct (ho_pubs h Hok i p Hi) as (_ & _ & Ht). rewrite Hs in Ht.
  destruct (ho_delivery h Hok i p c Hi Ha Hc) as [H|[H|(cl' & ? & ?)]].
  - rewrite Ht in H. set_solver.
  - rewrite Hsl in H. by apply elem_of_nil in H.
  - by assert (cl' = cl) as -> by congruence.
Qed.

(** ** Witnesses: one client, one broadcast *)

Definition example_hub : SSEHub := publish_start memoChangedSSEFrame (Subscribe NewSSEHub).
Definition example_pub : publisher := mkPublisher memoChangedSSEFrame true {[0%nat]} [] {[0%nat]}.
Definition example_sent : SSEHub :=
  match publish_send 0 0 example_pub example_hub with Ok h => h | Err _ => NewSSEHub end.
Definition example_done : SSEHub :=
  set_pub 0 (mkPublisher memoChangedSSEFrame false ∅ [] {[0%nat]}) example_sent.

Lemma example_hub_pub : h_pubs example_hub !! 0%nat = Some example_pub.
Proof.
  assert (h_clients (Subscribe NewSSEHub) = {[0%nat]}) as H by (apply set_eq; set_solver).
  unfold example_hub, publish_start, example_pub. cbn [h_pubs]. rewrite H. reflexivity.
Qed.

Lemma example_hub_reachable : reachable example_hub.
Proof.
  apply (reachable_step (Subscribe NewSSEHub)); [|constructor].
  apply (reachable_step NewSSEHub); [constructor|]. constructor. intros i p Hp. done.
Qed.

Lemma example_done_reachable : reachable example_done.
Proof.
  assert (publish_send 0 0 example_pub example_hub = Ok example_sent) as Hs.
  { unfold example_sent. destruct (publish_send _ _ _ _) eqn:H; [done|].
    destruct (step_ok example_hub _ (reachable_ok _ example_hub_reachable)
      (step_send example_hub 0 0 example_pub example_hub_pub eq_refl ltac:(set_solver)))
      as (h' & H' & _). congruence. }
  apply (reachable_step example_sent).
  { eapply reachable_step; [exact example_hub_reachable|]. rewrite <- Hs.
    apply step_send; [apply example_hub_pub|done|set_solver]. }
  assert (h_pubs example_sent !! 0%nat
    = Some (mkPublisher memoChangedSSEFrame true ({[0%nat]} ∖ {[0%nat]}) [] {[0%nat]})) as Hp.
  { vm_compute. reflexivity. }
  exact (step_unlock example_sent 0 _ Hp eq_refl ltac:(apply set_eq; set_solver)).
Qed.

Lemma hub_never_panics_witness : ∃ h', publish_send 0 0 example_pub example_hub = Ok h'.
Proof.
  apply (hub_never_panics example_hub).
  - exact example_hub_reachable.
  - apply step_send; [exact example_hub_pub|reflexivity|set_solver].
Defined.

Lemma no_event_missed_silently_witness :
  ∃ cl, h_chans example_done !! 0%nat = Some cl ∧ cl_closed cl = false ∧
    (0%nat, memoChangedSSEFrame) ∈ cl_sent cl ∧ NoDup (cl_sent cl).*1 ∧
    cl_received cl ++ cl_events cl = snd <$> cl_sent cl ∧
    (length (cl_events cl) ≤ sseClientEventBufferSize)%nat.
Proof.
  apply (no_event_missed_silently example_done 0
    (mkPublisher memoChangedSSEFrame false ∅ [] {[0%nat]}) 0).
  - exact example_done_reachable.
  - unfold example_done, set_pub. cbn [h_pubs]. apply lookup_insert_eq.
  - reflexivity.
  - reflexivity.
  - set_solver.
  - vm_compute. reflexivity.
Defined.
