(* ===== verification/Cache.v ===== *)
(** * The in-memory cache

    [store/cache/cache.go], which sits in front of the user and setting tables.
    The clock is an argument, in nanoseconds; [sync.Map.Range] visits the entries
    in an order the library does not specify: [range], with the hypothesis that
    it visits each entry once ([cleanup] calls back in that order, too, where the
    code ranges over a Go map).  Operations are atomic here, except that
    [get_step] splits [Get] into the atomic steps other goroutines can come
    between.  The cleanup goroutine is its body [cleanup].  Only [SetWithTTL]
    stores values, so every stored value is an [item]. *)
From S2P Require Import Prelude GoLib.
Open Scope Z_scope.

(** ** Data *)

(** A Go [any], as far as [estimateSize] looks into it. *)
Inductive any :=
| AString (s : string)
| ABytes (b : list Z)
| AMap (entries : list (string * Z))
| AOther (id : Z).

#[export] Instance any_eq_dec : EqDecision any.
Proof. solve_decision. Defined.

Record item := mkItem { it_value : any; it_expiration : Z; it_size : Z }.

Record Config := mkConfig { DefaultTTL : Z; CleanupInterval : Z; MaxItems : Z; OnEviction : bool }.

Definition DefaultConfig : Config := mkConfig (600 * 10 ^ 9) (300 * 10 ^ 9) 1000 false.

(** [c_evicted] records the calls of the eviction callback. *)
Record Cache := mkCache {
  itemCount : Z; data : gmap string item; config : Config; c_evicted : list (string * any) }.

Definition New (config : Config) : Cache := mkCache 0 ∅ config [].

Definition estimateSize (v : any) : Z :=
  match v with
  | AString s => Z.of_nat (String.length s) + 24
  | ABytes b => Z.of_nat (length b) + 24
  | AMap m => Z.of_nat (length m) * 64
  | AOther _ => 64
  end.

(** [c.config.OnEviction], if set, on some entries. *)
Definition notify (c : Cache) (entries : list (string * item)) : list (string * any) :=
  c_evicted c ++
  (if OnEviction (config c) then (λ kv, (kv.1, it_value kv.2)) <$> entries else []).

(** ** Choosing what to evict *)

(** The index of the first entry with the latest expiration. *)
Fixpoint newest_from (l : list (string * item)) (i best : nat) (expiration : Z) : nat :=
  match l with
  | [] => best
  | (_, x) :: l =>
      if expiration <? it_expiration x then newest_from l (S i) i (it_expiration x)
      else newest_from l (S i) best expiration
  end.
Definition newest (l : list (string * item)) : nat :=
  match l with [] => 0%nat | (_, x) :: l => newest_from l 1 0 (it_expiration x) end.

(** The body of the [Range] of [cleanupOldest]. *)
Definition consider (threshold : Z) (candidates : list (string * item)) (kv : string * item)
  : list (string * item) :=
  if Z.of_nat (length candidates) <? threshold then candidates ++ [kv]
  else
    let i := newest candidates in
    match candidates !! i with
    | Some n => if it_expiration kv.2 <? it_expiration n.2 then <[i := kv]> candidates else candidates
    | None => candidates
    end.

Definition threshold_of (config : Config) : Z := Z.max (Z.quot (MaxItems config) 5) 1.

Section cache.
Context (range : gmap string item → list (string * item)).

Definition cleanupOldest (c : Cache) : Cache :=
  if itemCount c <=? MaxItems (config c) then c
  else
    let candidates := fold_left (consider (threshold_of (config c))) (range (data c)) [] in
    mkCache (itemCount c - Z.of_nat (length candidates))
      (fold_left (λ d kv, delete kv.1 d) candidates (data c)) (config c) (notify c candidates).

(** ** Operations *)

Definition SetWithTTL (now : Z) (key : string) (value : any) (ttl : Z) (c : Cache) : Cache :=
  let size := estimateSize value in
  let present := bool_decide (is_Some (data c !! key)) in
  let data' := if present then delete key (data c) else data c in
  let count := if present then itemCount c else itemCount c + 1 in
  let c' := mkCache count (<[key := mkItem value (now + ttl) size]> data') (config c) (c_evicted c) in
  if (0 <? MaxItems (config c)) && (MaxItems (config c) <? itemCount c') then cleanupOldest c' else c'.

Definition Set_ (now : Z) (key : string) (value : any) (c : Cache) : Cache :=
  SetWithTTL now key value (DefaultTTL (config c)) c.

Definition expired (now : Z) (it : item) : bool := it_expiration it <? now.

Definition Get (now : Z) (key : string) (c : Cache) : option any * Cache :=
  match data c !! key with
  | None => (None, c)
  | Some it =>
      if expired now it then
        (None, mkCache (itemCount c - 1) (delete key (data c)) (config c) (notify c [(key, it)]))
      else (Some (it_value it), c)
  end.

Definition Delete (key : string) (c : Cache) : Cache :=
  match data c !! key with
  | None => c
  | Some it => mkCache (itemCount c - 1) (delete key (data c)) (config c) (notify c [(key, it)])
  end.

Definition Clear (c : Cache) : Cache :=
  mkCache 0 (fold_left (λ d kv, delete kv.1 d) (range (data c)) (data c)) (config c)
    (notify c (range (data c))).

Definition Size (c : Cache) : Z := itemCount c.

Definition cleanup (now : Z) (c : Cache) : Cache :=
  let evicted := filter (λ kv, expired now kv.2 = true) (range (data c)) in
  match evicted with
  | [] => c
  | _ => mkCache (itemCount c - Z.of_nat (length evicted))
           (fold_left (λ d kv, delete kv.1 d) evicted (data c)) (config c) (notify c evicted)
  end.
End cache.

(** ** [Get] in atomic steps

    The clock is read once per call, when the entry is loaded. *)

Inductive get_pc :=
| GLoad (now : Z) (key : string)
| GDelete (key : string) (it : item)
| GCount (key : string) (it : item)
| GNotify (key : string) (it : item)
| GDone (r : option any).

Definition get_step (pc : get_pc) (c : Cache) : get_pc * Cache :=
  match pc with
  | GLoad now key =>
      match data c !! key with
      | None => (GDone None, c)
      | Some it => (if expired now it then GDelete key it else GDone (Some (it_value it)), c)
      end
  | GDelete key it =>
      (GCount key it, mkCache (itemCount c) (delete key (data c)) (config c) (c_evicted c))
  | GCount key it =>
      (GNotify key it, mkCache (itemCount c - 1) (data c) (config c) (c_evicted c))
  | GNotify key it =>
      (GDone None, mkCache (itemCount c) (data c) (config c) (notify c [(key, it)]))
  | GDone r => (pc, c)
  end.

(** Goroutines that call [Get]; [order] says which one takes the next step. *)
Fixpoint interleave (order : list nat) (pcs : list get_pc) (c : Cache) : list get_pc * Cache :=
  match order with
  | [] => (pcs, c)
  | i :: order =>
      match pcs !! i with
      | None => interleave order pcs c
      | Some pc =>
          let '(pc', c') := get_step pc c in interleave order (<[i := pc']> pcs) c'
      end
  end.

(** * Facts

    Over all histories of sequential operations the counter is the number of
    entries and the bound is kept, a read returns what was last written, and
    eviction takes the entries that expire first.  Concurrent reads of one
    expired entry break the counter. *)

(** ** Deleting a list of entries *)

Definition drop_keys (l : list (string * item)) (d : gmap string item) : gmap string item :=
  fold_left (λ d kv, delete kv.1 d) l d.

Lemma drop_keys_lookup l d k :
  drop_keys l d !! k = if decide (k ∈ l.*1) then None else d !! k.
Proof.
  unfold drop_keys. revert d. induction l as [|[k' x] l IH]; intros d; cbn; [done|].
  rewrite IH. destruct (decide (k ∈ l.*1)) as [H|H].
  - by rewrite decide_True by set_solver.
  - destruct (decide (k = k')) as [->|Hne].
    + by rewrite lookup_delete_eq, decide_True by set_solver.
    + rewrite lookup_delete_ne by done. by rewrite decide_False by set_solver.
Qed.

Lemma drop_keys_subseteq l d : drop_keys l d ⊆ d.
Proof.
  apply map_subseteq_spec. intros k x. rewrite drop_keys_lookup. by destruct (decide _).
Qed.

(** Removing some of the entries of a map leaves the others. *)
Lemma drop_keys_split l r d :
  l ++ r ≡ₚ map_to_list d → drop_keys l d = list_to_map r.
Proof.
  intros Hp. assert (NoDup (l ++ r).*1) as Hn.
  { rewrite Hp. apply NoDup_fst_map_to_list. }
  assert (d = list_to_map (l ++ r)) as ->.
  { rewrite <- (list_to_map_to_list d). symmetry. by apply list_to_map_proper. }
  rewrite fmap_app in Hn. apply NoDup_app in Hn as (_ & Hdisj & _).
  apply map_eq. intros k. rewrite drop_keys_lookup, list_to_map_app.
  destruct (decide (k ∈ l.*1)) as [H|H].
  - symmetry. apply not_elem_of_list_to_map. by apply Hdisj.
  - rewrite lookup_union_r; [done|]. by apply not_elem_of_list_to_map.
Qed.

Lemma drop_keys_size l r d :
  l ++ r ≡ₚ map_to_list d → Z.of_nat (size (drop_keys l d)) = Z.of_nat (size d) - Z.of_nat (length l).
Proof.
  intros Hp. rewrite (drop_keys_split l r d Hp).
  assert (NoDup (l ++ r).*1) as Hn by (rewrite Hp; apply NoDup_fst_map_to_list).
  rewrite fmap_app in Hn. apply NoDup_app in Hn as (_ & _ & Hr).
  rewrite <- (length_map_to_list (list_to_map r)), map_to_list_to_map by done.
  rewrite <- (length_map_to_list d), <- Hp, length_app. lia.
Qed.

(** ** Choosing what to evict *)

Lemma newest_from_spec l2 : ∀ l1 best k x,
  (l1 ++ l2) !! best = Some (k, x) → (best < length l1)%nat →
  (∀ kv, kv ∈ l1 → it_expiration kv.2 ≤ it_expiration x) →
  ∃ kv, (l1 ++ l2) !! newest_from l2 (length l1) best (it_expiration x) = Some kv ∧
    ∀ kv', kv' ∈ l1 ++ l2 → it_expiration kv'.2 ≤ it_expiration kv.2.
Proof.
  induction l2 as [|[k' y] l2 IH]; intros l1 best k x Hb Hlt Hmax; cbn.
  { exists (k, x). rewrite app_nil_r in *. done. }
  replace (S (length l1)) with (length (l1 ++ [(k', y)])) by (rewrite length_app; cbn; lia).
  replace (l1 ++ (k', y) :: l2) with ((l1 ++ [(k', y)]) ++ l2) in * by by rewrite <- app_assoc.
  destruct (Z.ltb_spec (it_expiration x) (it_expiration y)).
  - apply (IH _ _ k').
    + rewrite <- app_assoc, lookup_app_r, Nat.sub_diag by done. done.
    + rewrite length_app. cbn. lia.
    + intros kv [Hi%Hmax|Hi%list_elem_of_singleton]%elem_of_app; [|subst kv]; cbn; lia.
  - apply (IH _ _ k); [done|rewrite length_app; lia|].
    intros kv [Hi%Hmax|Hi%list_elem_of_singleton]%elem_of_app; [|subst kv]; cbn; lia.
Qed.

Lemma newest_spec l :
  l ≠ [] → ∃ kv, l !! newest l = Some kv ∧ ∀ kv', kv' ∈ l → it_expiration kv'.2 ≤ it_expiration kv.2.
Proof.
  destruct l as [|[k x] l]; [done|]. intros _.
  apply (newest_from_spec l [(k, x)] 0 k x); cbn; [done|lia|].
  intros kv Hi%list_elem_of_singleton. by subst.
Qed.

(** What [consider] keeps true of the entries visited so far. *)
Definition oldest_of (threshold : Z) (cand rest : list (string * item)) : Prop :=
  Z.of_nat (length cand) ≤ threshold ∧
  (rest = [] ∨ Z.of_nat (length cand) = threshold) ∧
  ∀ e k, e ∈ cand → k ∈ rest → it_expiration e.2 ≤ it_expiration k.2.

Lemma consider_spec threshold cand rest kv :
  1 ≤ threshold → oldest_of threshold cand rest →
  ∃ rest', consider threshold cand kv ++ rest' ≡ₚ kv :: cand ++ rest ∧
    oldest_of threshold (consider threshold cand kv) rest'.
Proof.
  intros Ht (Hlen & Hfull & Hle). unfold consider.
  destruct (Z.ltb_spec (Z.of_nat (length cand)) threshold) as [Hlt|Hge].
  { destruct Hfull as [->|]; [|lia]. exists []. split; [by rewrite !app_nil_r, Permutation_app_comm|].
    split; [rewrite length_app; cbn; lia|]. split; [by left|set_solver]. }
  destruct (newest_spec cand) as (n & Hn & Hmax); [by intros ->; cbn in *; lia|].
  rewrite Hn. destruct (Z.ltb_spec (it_expiration kv.2) (it_expiration n.2)) as [Hkv|Hkv].
  - exists (n :: rest). destruct (list_elem_of_split_length cand _ n Hn) as (l1 & l2 & Hc & Hi).
    rewrite Hi, Hc, insert_app_r_alt, Nat.sub_diag by lia. cbn [insert list_insert].
    split; [solve_Permutation|]. rewrite Hc in Hge, Hlen, Hmax, Hle.
    split; [rewrite length_app in *; cbn in *; lia|].
    split; [right; rewrite length_app in *; cbn in *; lia|].
    intros e k He Hk. assert (it_expiration e.2 ≤ it_expiration n.2) as Hen.
    { apply elem_of_app in He as [He|He]; [apply Hmax; set_solver|].
      apply elem_of_cons in He as [->|He]; [lia|apply Hmax; set_solver]. }
    apply elem_of_cons in Hk as [->|Hk]; [done|]. etrans; [done|]. apply Hle; set_solver.
  - exists (kv :: rest). split; [by rewrite Permutation_middle|]. split; [done|].
    split; [right; lia|]. intros e k He Hk. apply elem_of_cons in Hk as [->|Hk]; [|by apply Hle].
    etrans; [by apply Hmax|]. lia.
Qed.

Lemma consider_all threshold l : ∀ cand rest,
  1 ≤ threshold → oldest_of threshold cand rest →
  ∃ rest', fold_left (consider threshold) l cand ++ rest' ≡ₚ l ++ cand ++ rest ∧
    oldest_of threshold (fold_left (consider threshold) l cand) rest'.
Proof.
  induction l as [|kv l IH]; intros cand rest Ht Ho; cbn; [by exists rest|].
  destruct (consider_spec threshold cand rest kv Ht Ho) as (r1 & Hp1 & Ho1).
  destruct (IH _ _ Ht Ho1) as (r2 & Hp2 & Ho2). exists r2. split; [|done].
  rewrite Hp2, Hp1. symmetry. apply Permutation_middle.
Qed.

(** ** Eviction and the operations *)

Section facts.
Context (range : gmap string item → list (string * item)).
Context (range_perm : ∀ d, range d ≡ₚ map_to_list d).

Lemma threshold_pos c : 1 ≤ threshold_of c.
Proof. unfold threshold_of. lia. Qed.

Lemma cleanupOldest_spec c :
  MaxItems (config c) < itemCount c →
  ∃ evicted kept, evicted ++ kept ≡ₚ map_to_list (data c) ∧
    oldest_of (threshold_of (config c)) evicted kept ∧
    cleanupOldest range c =
      mkCache (itemCount c - Z.of_nat (length evicted)) (drop_keys evicted (data c)) (config c)
        (notify c evicted).
Proof.
  intros H. unfold cleanupOldest. rewrite (proj2 (Z.leb_gt _ _)) by lia.
  destruct (consider_all (threshold_of (config c)) (range (data c)) [] []) as (kept & Hp & Ho).
  { apply threshold_pos. }
  { split; [cbn; pose proof (threshold_pos (config c)); lia|]. split; [by left|set_solver]. }
  eexists _, kept. split; [|by split]. by rewrite Hp, !app_nil_r, range_perm.
Qed.

(** The counter is the number of entries, and the bound is kept. *)
Definition cache_ok (c : Cache) : Prop :=
  itemCount c = Z.of_nat (size (data c)) ∧
  (0 < MaxItems (config c) → itemCount c ≤ MaxItems (config c)).

(** What deleting some entries and counting them does. *)
Lemma cache_ok_drop l r c cb :
  cache_ok c → l ++ r ≡ₚ map_to_list (data c) →
  cache_ok (mkCache (itemCount c - Z.of_nat (length l)) (drop_keys l (data c)) (config c) cb).
Proof.
  intros [Hc Hm] Hp. unfold cache_ok. cbn. rewrite (drop_keys_size l r) by done. lia.
Qed.

Lemma cache_ok_delete k it c cb :
  cache_ok c → data c !! k = Some it →
  cache_ok (mkCache (itemCount c - 1) (delete k (data c)) (config c) cb).
Proof.
  intros Hc Hk.
  apply (cache_ok_drop [(k, it)] (map_to_list (delete k (data c))) c); [done|].
  by apply map_to_list_delete.
Qed.

Lemma SetWithTTL_ok now k v ttl c : cache_ok c → cache_ok (SetWithTTL range now k v ttl c).
Proof.
  intros [Hc Hm]. unfold SetWithTTL. set (c' := mkCache _ _ (config c) (c_evicted c)).
  assert (itemCount c' = Z.of_nat (size (data c')) ∧ itemCount c' ≤ itemCount c + 1) as [Hc' Hle].
  { subst c'. cbn. destruct (data c !! k) as [it|] eqn:Hk; cbn.
    - rewrite insert_delete_eq, map_size_insert, Hk. cbn. lia.
    - rewrite map_size_insert, Hk. cbn. lia. }
  assert (config c' = config c) as Hcf by done. clearbody c'. rewrite <- Hcf in *.
  destruct (Z.ltb_spec 0 (MaxItems (config c'))) as [Hpos|]; cbn [andb]; [|split; [done|lia]].
  destruct (Z.ltb_spec (MaxItems (config c')) (itemCount c')) as [Hover|]; cbn [andb];
    [|split; [done|lia]].
  destruct (cleanupOldest_spec c' Hover) as (ev & kept & Hp & (Hlen & Hfull & _) & ->).
  split; cbn; [by rewrite (drop_keys_size ev kept), Hc'|]. intros _.
  assert (1 ≤ Z.of_nat (length ev)); [|lia].
  pose proof (threshold_pos (config c')). destruct Hfull as [->|Hf]; [|lia].
  rewrite app_nil_r in Hp. rewrite Hp, length_map_to_list. lia.
Qed.

(** ** Histories of operations *)

Inductive cache_op :=
| OpSet (now : Z) (key : string) (value : any) (ttl : Z)
| OpGet (now : Z) (key : string)
| OpDelete (key : string)
| OpClear
| OpCleanup (now : Z).

Definition exec (c : Cache) (op : cache_op) : Cache :=
  match op with
  | OpSet now k v ttl => SetWithTTL range now k v ttl c
  | OpGet now k => (Get now k c).2
  | OpDelete k => Delete k c
  | OpClear => Clear range c
  | OpCleanup now => cleanup range now c
  end.

Lemma cleanup_perm now d :
  let ev := filter (λ kv : string * item, expired now kv.2 = true) (range d) in
  ev ++ filter (λ kv, ¬ (expired now kv.2 = true)) (range d) ≡ₚ map_to_list d.
Proof.
  cbn. rewrite <- range_perm. induction (range d) as [|kv l IH]; [done|].
  rewrite !filter_cons. destruct (decide (expired now kv.2 = true)) as [H|H].
  - rewrite decide_False by tauto. cbn. by f_equiv.
  - rewrite decide_True by done. by rewrite <- Permutation_middle, IH.
Qed.

Lemma exec_ok op c : cache_ok c → cache_ok (exec c op).
Proof.
  intros Hok. destruct op as [now k v ttl|now k|k| |now]; cbn.
  - by apply SetWithTTL_ok.
  - unfold Get. destruct (data c !! k) as [it|] eqn:Hk; [|done].
    destruct (expired now it); [|done]. by apply cache_ok_delete with it.
  - unfold Delete. destruct (data c !! k) as [it|] eqn:Hk; [|done]. by apply cache_ok_delete with it.
  - unfold Clear. fold (drop_keys (range (data c)) (data c)).
    rewrite (drop_keys_split _ []) by by rewrite app_nil_r, range_perm. split; cbn; [done|lia].
  - unfold cleanup. pose proof (cleanup_perm now (data c)) as Hp. cbn in Hp.
    destruct (filter _ (range (data c))) as [|kv ev] eqn:He; [done|].
    by apply (cache_ok_drop (kv :: ev) _ c (notify c (kv :: ev)) Hok) in Hp.
Qed.

Lemma exec_config op c : config (exec c op) = config c.
Proof.
  destruct op; cbn.
  - unfold SetWithTTL. destruct (_ && _); [|done]. unfold cleanupOldest. by destruct (_ <=? _).
  - unfold Get. destruct (data c !! key); [|done]. by destruct (expired _ _).
  - unfold Delete. by destruct (data c !! key).
  - done.
  - unfold cleanup. by destruct (filter _ _).
Qed.

(** The reference: what was written last for each key, until it was deleted. *)
Definition written (m : gmap string (any * Z)) (op : cache_op) : gmap string (any * Z) :=
  match op with
  | OpSet now k v ttl => <[k := (v, now + ttl)]> m
  | OpDelete k => delete k m
  | OpClear => ∅
  | OpGet _ _ | OpCleanup _ => m
  end.

Definition agrees (c : Cache) (m : gmap string (any * Z)) : Prop :=
  ∀ k it, data c !! k = Some it → m !! k = Some (it_value it, it_expiration it).

Lemma agrees_sub c d m cb n :
  agrees c m → d ⊆ data c → agrees (mkCache n d (config c) cb) m.
Proof. intros Ha Hd k it Hk. apply Ha. by eapply lookup_weaken. Qed.

Lemma agrees_exec op c m : agrees c m → agrees (exec c op) (written m op).
Proof.
  intros Ha. destruct op as [now k v ttl|now k|k| |now]; cbn.
  - unfold SetWithTTL. set (c' := mkCache _ _ (config c) (c_evicted c)).
    assert (agrees c' (<[k:=(v, now + ttl)]> m)) as Ha'.
    { intros k' it. subst c'. cbn. destruct (decide (k' = k)) as [->|Hne].
      - rewrite !lookup_insert_eq. by intros [= <-].
      - rewrite !lookup_insert_ne by done. intros H. apply Ha.
        case_bool_decide; [by rewrite lookup_delete_ne in H|done]. }
    destruct (_ && _); [|done]. unfold cleanupOldest. destruct (_ <=? _); [done|].
    apply agrees_sub; [done|]. apply drop_keys_subseteq.
  - unfold Get. destruct (data c !! k) as [it|]; [|done]. destruct (expired now it); [|done].
    apply agrees_sub; [done|]. apply delete_subseteq.
  - intros k' it. destruct (decide (k' = k)) as [->|Hne].
    + unfold Delete. destruct (data c !! k) eqn:Hk; cbn; [by rewrite lookup_delete_eq|by rewrite Hk].
    + rewrite lookup_delete_ne by done. unfold Delete. destruct (data c !! k); cbn; [|by apply Ha].
      rewrite lookup_delete_ne by done. by apply Ha.
  - intros k it. cbn. fold (drop_keys (range (data c)) (data c)).
    rewrite (drop_keys_split _ []) by by rewrite app_nil_r, range_perm. done.
  - unfold cleanup. destruct (filter _ _) as [|kv ev]; [done|].
    apply agrees_sub; [done|]. apply (drop_keys_subseteq (kv :: ev)).
Qed.

(** C37. Over every sequential history of operations on a new cache, each run to
    its end before the next, the item counter is the number of entries, the number
    of entries never exceeds a positive [MaxItems], and a read returns, if
    anything, the value that was last set for the key, not deleted since and not
    expired: eviction and expiry lose entries but no stale or foreign value is ever
    returned.  Operations that overlap are outside this claim: two reads of one
    expired entry both decrement the counter ([concurrent_gets_break_counter]). *)
Theorem cache_refines_last_writes cfg ops now key :
  let c := fold_left exec ops (New cfg) in
  let m := fold_left written ops ∅ in
  Size c = Z.of_nat (size (data c)) ∧
  (0 < MaxItems cfg → Size c ≤ MaxItems cfg) ∧
  ∀ v, (Get now key c).1 = Some v → ∃ expiration, m !! key = Some (v, expiration) ∧ now ≤ expiration.
Proof.
  intros c m. assert (cache_ok c ∧ agrees c m ∧ config c = cfg) as ([Hn Hb] & Ha & Hcfg).
  { subst c m. assert (cache_ok (New cfg) ∧ agrees (New cfg) ∅ ∧ config (New cfg) = cfg) as H.
    { split; [split; [reflexivity|cbn; lia]|done]. }
    revert H. generalize (New cfg) (∅ : gmap string (any * Z)).
    induction ops as [|op ops IH]; intros c m; [done|]. intros (? & ? & <-). cbn. apply IH.
    split; [by apply exec_ok|]. split; [by apply agrees_exec|apply exec_config]. }
  rewrite Hcfg in Hb. split; [done|]. split; [done|]. intros v. unfold Get.
  destruct (data c !! key) as [it|] eqn:Hk; [|done].
  destruct (expired now it) eqn:He; [done|]. intros [= <-]. exists (it_expiration it).
  split; [by apply Ha|]. apply Z.ltb_ge in He. lia.
Qed.

(** When the cache is over its bound, eviction removes a fifth of
    [MaxItems] entries (at least one, at most all), reports exactly those to the
    callback, and none of them expires later than an entry that stays. *)
Theorem eviction_takes_oldest c :
  MaxItems (config c) < itemCount c →
  ∃ evicted kept, evicted ++ kept ≡ₚ map_to_list (data c) ∧
    data (cleanupOldest range c) = list_to_map kept ∧
    Z.of_nat (length evicted) =
      Z.min (Z.max (MaxItems (config c) ÷ 5) 1) (Z.of_nat (size (data c))) ∧
    (∀ e k, e ∈ evicted → k ∈ kept → it_expiration e.2 ≤ it_expiration k.2) ∧
    itemCount (cleanupOldest range c) = itemCount c - Z.of_nat (length evicted) ∧
    c_evicted (cleanupOldest range c) = notify c evicted.
Proof.
  intros H. destruct (cleanupOldest_spec c H) as (ev & kept & Hp & (Hlen & Hfull & Hle) & ->).
  exists ev, kept. cbn. rewrite (drop_keys_split ev kept) by done. split_and!; try done.
  change (Z.max _ _) with (threshold_of (config c)).
  pose proof (Permutation_length Hp) as Hl. rewrite length_app, length_map_to_list in Hl.
  destruct Hfull as [->|Hf]; cbn in *; lia.
Qed.
End facts.

Lemma cache_refines_last_writes_witness :
  let ops := [OpSet 0 "a" (AString "x") 5; OpSet 1 "b" (AOther 7) 5; OpSet 2 "a" (AString "y") 9] in
  let c := fold_left (exec map_to_list) ops (New (mkConfig 5 5 2 true)) in
  (Get 8 "a" c).1 = Some (AString "y") ∧
  Size c = 2 ∧ Size c = Z.of_nat (size (data c)).
Proof.
  cbn zeta. split; [reflexivity|]. split; [reflexivity|].
  apply (cache_refines_last_writes map_to_list (λ _, reflexivity _)
           (mkConfig 5 5 2 true) _ 8 "a").
Defined.

Definition example_full : Cache :=
  mkCache 3 (list_to_map [("a", mkItem (AOther 1) 30 64); ("b", mkItem (AOther 2) 10 64);
                          ("c", mkItem (AOther 3) 20 64)]) (mkConfig 5 5 2 true) [].

Lemma eviction_takes_oldest_witness :
  MaxItems (config example_full) < itemCount example_full ∧
  c_evicted (cleanupOldest map_to_list example_full) = [("b", AOther 2)] ∧
  ∃ evicted kept, evicted ++ kept ≡ₚ map_to_list (data example_full) ∧
    data (cleanupOldest map_to_list example_full) = list_to_map kept.
Proof.
  split; [done|]. split; [vm_compute; reflexivity|].
  destruct (eviction_takes_oldest map_to_list (λ _, reflexivity _) example_full) as (e & k & H1 & H2 & _);
    [done|]. by exists e, k.
Defined.

(** ** Concurrent reads *)

(** Undisturbed, the steps of [Get] make up [Get]. *)
Lemma get_steps_sequential now key c :
  ∃ r, interleave [0; 0; 0; 0]%nat [GLoad now key] c = ([GDone r], (Get now key c).2) ∧
    r = (Get now key c).1.
Proof.
  unfold Get. cbn. destruct (data c !! key) as [it|]; cbn; [|by eexists].
  destruct (expired now it); cbn; [|by eexists]. by eexists.
Qed.

(** [Get] deletes an expired entry and decrements the counter in two steps
    whether or not the entry was still there: two overlapping reads of one
    expired entry remove one entry and count two, after which the counter is no
    longer the number of entries (from a cache with one entry it becomes
    negative).  The same two reads one after the other keep it right. *)
Theorem concurrent_gets_break_counter now key it c :
  data c !! key = Some it → it_expiration it < now → cache_ok c →
  let overlapping := interleave [0; 1; 0; 1; 0; 1; 0; 1]%nat [GLoad now key; GLoad now key] c in
  let sequential := interleave [0; 0; 0; 0; 1; 1; 1; 1]%nat [GLoad now key; GLoad now key] c in
  overlapping.1 = [GDone None; GDone None] ∧ sequential.1 = [GDone None; GDone None] ∧
  data overlapping.2 = data sequential.2 ∧
  Size sequential.2 = Z.of_nat (size (data sequential.2)) ∧
  Size overlapping.2 = Z.of_nat (size (data overlapping.2)) - 1.
Proof.
  intros Hk He Hok. assert (expired now it = true) as Hex by by apply Z.ltb_lt.
  pose proof (cache_ok_delete key it c [] Hok Hk) as [Hd _]. cbn in Hd.
  cbn. rewrite Hk. cbn. rewrite Hex. cbn. rewrite Hk. cbn. rewrite Hex. cbn.
  rewrite lookup_delete_eq. cbn. rewrite delete_delete_eq.
  split_and!; [done..|lia].
Qed.

Lemma concurrent_gets_break_counter_witness :
  let c := SetWithTTL map_to_list 0 "user" (AOther 1) 5 (New DefaultConfig) in
  Size (interleave [0; 1; 0; 1; 0; 1; 0; 1]%nat [GLoad 6 "user"; GLoad 6 "user"] c).2 = -1.
Proof.
  cbn zeta.
  destruct (concurrent_gets_break_counter 6 "user" (mkItem (AOther 1) 5 64)
              (SetWithTTL map_to_list 0 "user" (AOther 1) 5 (New DefaultConfig)))
    as (_ & _ & _ & _ & H); [done|done|by apply SetWithTTL_ok; [|split; [|cbn; lia]]|].
  rewrite H. reflexivity.
Defined.
